(* ===== verification/_CoqProject ===== *)
-Q . S2P
Prelude.v
Int128.v
HostUtils.v
Bitops.v
Bitmap.v
RamList.v
HBitmap.v
Xbzrle.v
PageCache.v
Migration.v
RamSave.v
MemRegion.v
MemAccess.v
FlatView.v
Simplify.v
Topology.v
TopologyFacts.v
Transaction.v
MemLog.v
PhysMap.v
PhysTree.v
Dispatch.v
Translate.v
SMBus.v
AmdSmbus.v
SMBusDevices.v
XboxSmc.v
XboxSmbus.v
Swizzle.v
I8259.v
I8254.v
QemuTimer.v
Pci.v
PciFacts.v
PciCaps.v
PciConfig.v
PciBridge.v
XboxPci.v
XboxIrq.v
XboxTimer.v
MainLoop.v
Pfifo.v
PfifoFacts.v
Rc4.v
XCode.v
Findings.v
