(* ===== verification/Prelude.v ===== *)
(** * A verified core of XQEMU

    XQEMU is a fork of QEMU that emulates the original Xbox.  This library
    models the parts of it that decide what a guest access does (the memory
    core), that move a guest's RAM to another host (RAM migration), and a
    number of devices of the Xbox, together with the arithmetic and bitmap
    utilities below them, and proves that they do what they are meant to.
    Paths are relative to the source tree src/.

    ** The program and its parts

    Memory core.  A board builds a graph of memory regions (memory.c,
    include/exec/memory.h).  When a transaction commits, the graph of every
    address space is rendered into a flat view, a sorted array of ranges, and
    the listeners are told the difference to the previous view.  The
    dispatch listener (exec.c) builds from these calls a radix tree from
    page numbers to sections.  A guest access (address_space_rw) walks the
    tree, and any IOMMU, and ends in RAM, found through the RAM block list,
    or in the MMIO dispatch of a region's callbacks.
    - MemRegion.v: address ranges, regions, constructors and the store in
      which a MemoryRegion pointer is a key.
    - MemAccess.v: MMIO dispatch, access size adjustment and byte order; the
      buffer of coalesced writes is the class [CoalescedBuffer].
    - FlatView.v, Simplify.v: rendering and merging; the reference semantics
      is [resolve], which walks the region tree for one address.
    - Topology.v, TopologyFacts.v, Transaction.v: [MemState], the global
      state of memory.c, with reference counted views, address spaces,
      listeners, ioeventfds, lookups, region mutators and transactions.  A
      listener callback is an entry of [ms_trace].
    - MemLog.v: dirty logging, coalesced MMIO, registration of listeners.
    - PhysMap.v, PhysTree.v, Dispatch.v: the page table, its description as a
      tree, and what it answers.
    - RamList.v: RAM blocks and dirty bitmaps (exec.c,
      include/exec/ram_addr.h).
    - Translate.v: translation and guest accesses of any length.

    RAM migration.  arch_init.c collects dirty pages, sends each as a zero
    page, as a difference to a cached copy or in full, and loads them on the
    other side.
    - Xbzrle.v: the difference codec (xbzrle.c).  PageCache.v: page_cache.c.
    - Migration.v: the bitmap of pages to send and the transfer of a page.
    - RamSave.v: the byte stream, the set-up, the round over the blocks in the
      bulk stage and after it, the receiver, and interleavings of guest
      writes, collection and sending.

    Xbox devices.
    - SMBus.v: hw/i2c/core.c and hw/i2c/smbus.c.  AmdSmbus.v: the host
      controller hw/xbox/amd_smbus.c, written against the class
      [SMBusMaster], which the bus and a plain device list both implement.
      SMBusDevices.v, XboxSmc.v: EEPROM, video encoder, temperature monitor
      and system management controller.  XboxSmbus.v: the board of
      hw/xbox/xbox.c and programs that reach the devices through ports.
    - I8259.v: the two interrupt controllers in cascade (hw/intc/i8259.c).
      I8254.v: the interval timer (hw/timer/i8254.c).  XboxTimer.v: both, with
      counter 0 on interrupt line 0.
    - QemuTimer.v: clocks and timer lists (qemu-timer.c), the lists as linked
      cells of a heap.  MainLoop.v: main_loop_wait (main-loop.c), which sleeps
      until the next deadline and runs the interval timer's callback.
    - Pci.v, PciFacts.v: configuration space, base address registers,
      interrupt pins, capabilities, reset, registration of devices and the
      configuration ports (hw/pci/pci.c, hw/pci/pci_host.c).  PciCaps.v: the
      capability chain.  PciConfig.v: what a guest sees through the ports,
      against the class [ConfigHandlers] of what the devices' own
      configuration writes promise.  PciBridge.v: bridges
      (hw/pci/pci_bridge.c).  XboxPci.v: the buses of the Xbox with their
      devices (hw/xbox/xbox_pci.c, hw/xbox/xbox.c), an instance of that class.
      XboxIrq.v: the interrupt router in front of the interrupt controllers.
    - Pfifo.v, PfifoFacts.v: the command FIFO of the graphics chip
      (hw/xbox/nv2a_gpu.c): registers, pusher, object table, puller.
    - Swizzle.v: texture layout (hw/xbox/swizzle.h).  Rc4.v: the cipher of
      the boot ROM (hw/xbox/rc4.h).  XCode.v: the x-code interpreter and the
      ROM overlay (hw/xbox/mcpx_rom.c) over the classes [Machine] and
      [RomMemory], which a memory with the images of the flash that
      hw/xbox/xbox.c maps below 4 GB implements.

    Utilities.  Int128.v (include/qemu/int128.h), HostUtils.v
    (util/host-utils.c and its header), Bitops.v, Bitmap.v and HBitmap.v
    (util/bitops.c, util/bitmap.c, util/hbitmap.c and their headers).

    Findings.v and sections of that name in the device files hold concrete
    runs in which the code does not do what it or its comments intend.

    ** How the code is modelled

    Functions are total Rocq functions with the names of the source; state is
    passed explicitly.  A function that can fail returns [outcome]: [Abort]
    is a failed assertion, a fatal error or undefined behaviour (an access
    outside an array, a shift out of range), [NoFuel] is a loop whose bound
    was too small.  Integers are [Z], wrapped by [u8] to [u64] and [s32],
    [s64] where the C type wraps.  The host is a 64-bit little-endian machine
    and the target is i386: TARGET_PAGE_BITS is 12.  Structs are records,
    intrusive lists and arrays are lists, hash tables and pointers to shared
    objects are finite maps.  Device and IOMMU callbacks, allocation failures
    and the clock are parameters.  Threads appear as explicit interleavings of
    atomic steps (RamSave.v, PfifoFacts.v).

    Loops that are not structural take fuel.  Fuel is either computed from
    the data by the definition (the length of a range, 8 for the eight
    interrupt lines, 32 for shifts of a 32-bit word) or an argument; the
    theorems show that it suffices or quantify over all fuel above a stated
    bound, and so include termination.

    ** What is proved

    - Memory: a generated view is sorted, disjoint and merged, and answers
      every address as the region tree does; a topology update brings a
      listener from the old sections to the new; nested transactions publish
      nothing and the outermost commit leaves every view current, with exact
      reference counts; the page table answers as the view, before and after
      compaction, within its reserved nodes; bytes written through mapped
      guest RAM are read back, however the range crosses pages and blocks.
    - RAM and migration: block allocation keeps blocks disjoint, ranges are
      marked dirty exactly; the codec round-trips and its decoder is safe on
      any input; a migration set up, run in any interleaving with guest
      writes and completed leaves equal RAM on both sides (but for a page the
      bulk stage is shown to lose); loading terminates on any stream.
    - SMBus: the master commands are atomic device operations; no guest port
      sequence fails that sends the management controller byte commands only
      and its power register only the values it knows; EEPROM bytes written
      through the ports are read back; the boot watchdog resets an Xbox that
      does not answer.
    - Interrupts: the wanted line is the one of highest rotated priority; all
      output lines are current after every event that keeps the special mask
      and special fully nested modes; in fully nested mode an end of interrupt
      undoes exactly its acknowledgement, whatever was served in between.  The
      timer is set to the next change of the output; in rate generator mode each
      period gives the CPU one interrupt (for the first 596591 ticks; a
      finding shows what happens then); port accesses never fail but for a
      read of the control port.
    - Timers: the linked lists are priority queues, running one calls exactly
      the timers that are due, in order, and the main loop sleeps no longer
      than the first deadline; with the main loop on top, the periodic
      interrupt still arrives once per period.
    - PCI: after any configuration writes, pin changes and resets, mappings,
      status bits and interrupt counts agree with configuration space (two
      kinds of writes are excluded, with findings that show why); registers
      read back through the ports, those of the AGP bridge included;
      base address registers are sized and mapped; the capability chain is a
      list no guest write breaks; bridges forward what their registers say;
      a pin a device raises arrives at the interrupt controller input its
      routing selects; every device of the board stays well-typed.
    - Graphics: methods in a push buffer reach the engine complete and in
      order for every splitting and interleaving; registers read back;
      swizzling and unswizzling are inverse.
    - Boot: x-code programs that are not fetched from the secret ROM cannot
      read it, neither at the top of memory nor in an image of the flash;
      hiding the ROM restores the flash; the cipher is an involution for every
      key.
    - Utilities: the word-wise and portable routines compute what their
      bit-wise reference definitions say.

    ** Not modelled

    - The CPU: translation, TCG, the target instruction sets and soft floats.
      A model would be a semantics of x86, a development of its own.
    - Rendering: hw/xbox/nv2a_gpu.c beyond the FIFO calls OpenGL, and the
      shader generators produce GLSL text.
    - Audio, network, USB, IDE, the block layer, user interface, monitor,
      file descriptors and threads of the host, accelerators: host input and
      output, or generic QEMU code around it.
    - The rest of hw/xbox/mcpx_rom.c (protected mode, MTRRs, the jump to the
      boot loader): it drives the CPU through helpers of the translator.
    - QOM and qdev: objects are created directly in the state they have after
      initialisation.
    - Inside modelled components: logging, statistics, migration of device
      state, locks, and the Xen, KVM and -mem-path variants. *)
From Stdlib Require Export ZArith Lia Bool.
From stdpp Require Export base numbers gmap strings tactics.
From stdpp Require Export list.

Declare Scope xq_scope.
Delimit Scope xq_scope with xq.
#[global] Open Scope Z_scope.

Create Rewrite HintDb xbits.

(** ** Machine integers

    A [w]-bit C integer is a [Z]; [wrap] is the conversion to the unsigned
    type of that width, [swrap] the conversion to the signed one. *)
Definition wrap (w z : Z) : Z := z mod 2 ^ w.
Definition swrap (w z : Z) : Z := (z + 2 ^ (w - 1)) mod 2 ^ w - 2 ^ (w - 1).

Abbreviation u8 := (wrap 8).
Abbreviation u16 := (wrap 16).
Abbreviation u32 := (wrap 32).
Abbreviation u64 := (wrap 64).
Abbreviation s32 := (swrap 32).
Abbreviation s64 := (swrap 64).

Definition in_u (w z : Z) : Prop := 0 <= z < 2 ^ w.
Definition in_s (w z : Z) : Prop := - 2 ^ (w - 1) <= z < 2 ^ (w - 1).

Lemma wrap_small w z : 0 <= z < 2 ^ w -> wrap w z = z.
Proof. apply Z.mod_small. Qed.

Lemma wrap_range w z : 0 <= w -> 0 <= wrap w z < 2 ^ w.
Proof. intros. apply Z.mod_pos_bound. lia. Qed.

Lemma wrap_wrap w z : 0 <= w -> wrap w (wrap w z) = wrap w z.
Proof. intros. apply wrap_small, wrap_range. done. Qed.

Lemma wrap_add_l w a b : wrap w (wrap w a + b) = wrap w (a + b).
Proof. unfold wrap. apply Zplus_mod_idemp_l. Qed.

Lemma wrap_add_r w a b : wrap w (a + wrap w b) = wrap w (a + b).
Proof. unfold wrap. apply Zplus_mod_idemp_r. Qed.

Lemma wrap_sub_l w a b : wrap w (wrap w a - b) = wrap w (a - b).
Proof. unfold wrap. apply Zminus_mod_idemp_l. Qed.

Lemma wrap_sub_r w a b : wrap w (a - wrap w b) = wrap w (a - b).
Proof. unfold wrap. apply Zminus_mod_idemp_r. Qed.

Lemma swrap_small w z : 1 <= w -> in_s w z -> swrap w z = z.
Proof.
  intros Hw [Hl Hu]. unfold swrap.
  replace (2 ^ w) with (2 * 2 ^ (w - 1)).
  2: { rewrite <- Z.pow_succ_r by lia. f_equal. lia. }
  rewrite Z.mod_small; lia.
Qed.

Lemma swrap_range w z : 1 <= w -> in_s w (swrap w z).
Proof.
  intros Hw. unfold in_s, swrap.
  assert (2 ^ w = 2 * 2 ^ (w - 1)).
  { rewrite <- Z.pow_succ_r by lia. f_equal. lia. }
  pose proof (Z.mod_pos_bound (z + 2 ^ (w - 1)) (2 ^ w)). lia.
Qed.

(** A C [bool] used as a number. *)
Definition b2z (b : bool) : Z := if b then 1 else 0.

(** ** Bits *)
Lemma testbit_high a w i : 0 <= a < 2 ^ w -> w <= i -> Z.testbit a i = false.
Proof.
  intros Ha Hi. destruct (Z.lt_ge_cases w 0).
  { rewrite Z.pow_neg_r in Ha by lia. lia. }
  rewrite <- (Z.mod_small a (2 ^ w)) by lia. apply Z.mod_pow2_bits_high. lia.
Qed.

Lemma wrap_land w z : 0 <= w -> wrap w z = Z.land z (Z.ones w).
Proof. intros. symmetry. by apply Z.land_ones. Qed.

Lemma u64_land z : u64 z = Z.land z (Z.ones 64).
Proof. by apply wrap_land. Qed.

#[export] Hint Rewrite Z.lor_spec Z.land_spec Z.lxor_spec Z.ldiff_spec Z.bits_0 : xbits.
#[export] Hint Rewrite Z.shiftr_spec Z.shiftl_spec Z.lnot_spec using lia : xbits.

(** Prove an equality of integers bit by bit: introduces the bit [i]. *)
Ltac bits :=
  apply Z.bits_inj'; intros i ?; autorewrite with xbits.

(** Or-ing disjoint bit ranges is addition. *)
Lemma lor_shiftl_add x y s : 0 <= s -> 0 <= x < 2 ^ s -> Z.lor x (Z.shiftl y s) = x + y * 2 ^ s.
Proof.
  intros Hs Hx. rewrite <- Z.shiftl_mul_pow2 by lia.
  rewrite <- Z.add_lor_land. replace (Z.land x (Z.shiftl y s)) with 0; [lia|].
  bits. destruct (Z.lt_ge_cases i s).
  - rewrite (Z.testbit_neg_r y) by lia. by rewrite andb_false_r.
  - by rewrite (testbit_high x s).
Qed.

Lemma lor_mul_add x y s : 0 <= s -> 0 <= x < 2 ^ s -> Z.lor (y * 2 ^ s) x = y * 2 ^ s + x.
Proof.
  intros. rewrite Z.lor_comm, <- Z.shiftl_mul_pow2, lor_shiftl_add, Z.shiftl_mul_pow2 by lia. lia.
Qed.

Lemma lor_range w a b : 0 < w -> 0 <= a < 2 ^ w -> 0 <= b < 2 ^ w -> 0 <= Z.lor a b < 2 ^ w.
Proof.
  intros Hw Ha Hb. split; [apply Z.lor_nonneg; lia|].
  destruct (Z.eq_dec (Z.lor a b) 0) as [->|]; [lia|].
  pose proof (proj2 (Z.lor_nonneg a b) ltac:(lia)).
  apply Z.log2_lt_pow2; [lia|]. rewrite Z.log2_lor by lia.
  assert (Hl : forall x, 0 <= x < 2 ^ w -> Z.log2 x < w).
  { intros x Hx. destruct (Z.eq_dec x 0) as [->|]; [done|]. apply Z.log2_lt_pow2; lia. }
  apply Z.max_lub_lt; by apply Hl.
Qed.

Lemma land_mask a n : 0 <= n -> 0 <= a < 2 ^ n -> Z.land a (Z.ones n) = a.
Proof. intros. rewrite Z.land_ones, Z.mod_small; lia. Qed.

(** Decide a comparison that [lia] settles as a proposition. *)
Ltac zbool :=
  symmetry; first
    [ apply Z.ltb_lt; lia | apply Z.ltb_ge; lia | apply Z.leb_le; lia
    | apply Z.leb_gt; lia | apply Z.eqb_eq; lia | apply Z.eqb_neq; lia | lia ].

(** Linear arithmetic with divisions by constants. *)
Ltac zdiv := Z.to_euclidean_division_equations; lia.

(** ** Outcomes

    A C function that may fail an [assert] or call [abort] returns an
    [outcome]; [NoFuel] is what a fuelled loop returns when its bound is
    exhausted (the theorems show the bounds suffice). *)
Inductive outcome (A : Type) : Type :=
| Ok (a : A)
| Abort
| NoFuel.
Arguments Ok {A} _.
Arguments Abort {A}.
Arguments NoFuel {A}.

#[global] Instance outcome_ret : MRet outcome := @Ok.
#[global] Instance outcome_bind : MBind outcome :=
  fun A B f m => match m with Ok a => f a | Abort => Abort | NoFuel => NoFuel end.
#[global] Instance outcome_fmap : FMap outcome :=
  fun A B f m => match m with Ok a => Ok (f a) | Abort => Abort | NoFuel => NoFuel end.

(** [assert(b)] *)
Definition c_assert (b : bool) : outcome unit := if b then Ok tt else Abort.

Lemma bind_Ok {A B} (m : outcome A) (f : A -> outcome B) b :
  m ≫= f = Ok b -> exists a, m = Ok a /\ f a = Ok b.
Proof. destruct m; simpl; intros H; try done. eauto. Qed.

(** Peel the binds of a hypothesis [m = Ok x]. *)
Ltac inv_ok :=
  repeat match goal with
  | H : (_ ≫= _) = Ok _ |- _ =>
      apply bind_Ok in H; destruct H as (? & ? & H)
  | H : mret _ = Ok _ |- _ => injection H as H
  | H : Ok _ = Ok _ |- _ => injection H as H
  | H : Abort = Ok _ |- _ => discriminate H
  | H : NoFuel = Ok _ |- _ => discriminate H
  end.

(** Two computations agree: both return, with related results, or both fail
    the same way. *)
Definition orel {A B} (R : A -> B -> Prop) (x : outcome A) (y : outcome B) : Prop :=
  match x, y with
  | Ok a, Ok b => R a b
  | Abort, Abort | NoFuel, NoFuel => True
  | _, _ => False
  end.

Lemma orel_bind {A B A' B'} (R : A -> B -> Prop) (Q : A' -> B' -> Prop) x y f g :
  orel R x y -> (forall a b, x = Ok a -> y = Ok b -> R a b -> orel Q (f a) (g b)) -> orel Q (x ≫= f) (y ≫= g).
Proof. destruct x, y; cbn; try done. auto. Qed.

Lemma obind_assoc {A B C} (m : outcome A) (f : A -> outcome B) (g : B -> outcome C) :
  (m ≫= f) ≫= g = m ≫= (fun x => f x ≫= g).
Proof. by destruct m. Qed.

Lemma orel_impl {A B} (R Q : A -> B -> Prop) x y : (forall a b, R a b -> Q a b) -> orel R x y -> orel Q x y.
Proof. destruct x, y; cbn; auto. Qed.

(** A [QTAILQ_FOREACH] whose body may abort. *)
Fixpoint ofold {A S} (f : S -> A -> outcome S) (s : S) (l : list A) : outcome S :=
  match l with
  | [] => Ok s
  | x :: l => s' ← f s x; ofold f s' l
  end.

Lemma ofold_app {A S} (f : S -> A -> outcome S) l1 : forall l2 s,
  ofold f s (l1 ++ l2) = (s' ← ofold f s l1; ofold f s' l2).
Proof.
  induction l1 as [|x l1 IH]; intros l2 s; [done|]. cbn [app ofold]. destruct (f s x); cbn; auto.
Qed.

Lemma ofold_ext {A S} (f g : S -> A -> outcome S) l : forall s, (forall s x, x ∈ l -> f s x = g s x) -> ofold f s l = ofold g s l.
Proof.
  induction l as [|x l IH]; intros s Hfg; [done|]. cbn [ofold]. rewrite Hfg by left. destruct (g s x); try done.
  cbn. apply IH. intros s' y Hy. apply Hfg. by right.
Qed.

(** Nested loops as one loop. *)
Lemma ofold_mbind {A B S} (f : S -> B -> outcome S) (h : A -> list B) l : forall s,
  ofold f s (l ≫= h) = ofold (fun s x => ofold f s (h x)) s l.
Proof.
  induction l as [|x l IH]; intros s; [done|]. cbn [ofold]. rewrite bind_cons, ofold_app. destruct (ofold f s (h x)); try done. apply IH.
Qed.

(** [ofold] under an invariant on the accumulator. *)
Lemma ofold_inv {A S} (f : S -> A -> outcome S) (I : list A -> S -> Prop) l s :
  I [] s ->
  (forall done x s, x ∈ l -> I done s -> exists s', f s x = Ok s' /\ I (done ++ [x]) s') ->
  exists s', ofold f s l = Ok s' /\ I l s'.
Proof.
  intros H0 Hstep.
  enough (Hgen : forall rest dn s, (forall x, x ∈ rest -> x ∈ l) -> I dn s ->
            exists s', ofold f s rest = Ok s' /\ I (dn ++ rest) s').
  { apply (Hgen l []); auto. }
  induction rest as [|x rest IH]; intros dn s' Hin HI; simpl.
  - exists s'. rewrite app_nil_r. done.
  - destruct (Hstep dn x s') as (s1 & -> & H1); [apply Hin; left | done |]. simpl.
    destruct (IH (dn ++ [x]) s1) as (s2 & -> & H2); [| done |].
    + intros y Hy. apply Hin. by right.
    + exists s2. split; [done|]. by rewrite <- app_assoc in H2.
Qed.

(** ** Arrays

    [memcpy] into an array of bytes; outside its bounds it aborts. *)
Definition memcpy (dst : list Z) (off : Z) (src : list Z) : outcome (list Z) :=
  if (0 <=? off) && (off + Z.of_nat (length src) <=? Z.of_nat (length dst)) then
    Ok (take (Z.to_nat off) dst ++ src ++ drop (Z.to_nat off + length src) dst)
  else Abort.

Lemma memcpy_lookup dst off src dst' i : memcpy dst off src = Ok dst' ->
  dst' !! i = if (Z.to_nat off <=? i)%nat && (i <? Z.to_nat off + length src)%nat then src !! (i - Z.to_nat off)%nat else dst !! i.
Proof.
  unfold memcpy. destruct (_ && _) eqn:E; [|done]. intros [= <-]. apply andb_true_iff in E as [H1 H2].
  apply Z.leb_le in H1, H2. destruct (Nat.leb_spec (Z.to_nat off) i) as [Hl|Hl]; cbn [andb].
  - rewrite lookup_app_r; rewrite length_take_le by lia; [|done]. destruct (Nat.ltb_spec i (Z.to_nat off + length src)).
    + apply lookup_app_l. lia.
    + rewrite lookup_app_r by lia. rewrite lookup_drop. f_equal. lia.
  - rewrite lookup_app_l by (rewrite length_take_le; lia). by apply lookup_take_lt.
Qed.

Lemma memcpy_length dst off src dst' : memcpy dst off src = Ok dst' -> length dst' = length dst.
Proof.
  unfold memcpy. destruct (_ && _) eqn:E; [|done]. intros [= <-]. apply andb_true_iff in E as [H1 H2].
  apply Z.leb_le in H1, H2. rewrite !length_app, length_take_le, length_drop by lia. lia.
Qed.

Lemma memcpy_ok dst off src : 0 <= off -> off + Z.of_nat (length src) <= Z.of_nat (length dst) ->
  exists dst', memcpy dst off src = Ok dst'.
Proof.
  intros H1 H2. unfold memcpy. apply Z.leb_le in H1, H2. rewrite H1, H2. by eexists.
Qed.
