(* ===== verification/Int128.v ===== *)
(** * Int128: the two-word integers of include/qemu/int128.h

    [int128] is the C struct (a 64-bit unsigned low word and a 64-bit signed
    high word) with one definition per inline function.  The memory model
    (FlatView.v, Topology.v) computes with [Z] and the [i128_*] operations,
    which wrap to 128 bits; the theorems here say that the struct operations
    compute exactly those. *)
From S2P Require Import Prelude.

Record int128 := Int128 { lo : Z; hi : Z }.

Definition wf128 (a : int128) : Prop := in_u 64 (lo a) /\ in_s 64 (hi a).

(** The integer a struct stands for. *)
Definition val (a : int128) : Z := hi a * 2 ^ 64 + lo a.

Definition int128_make64 (a : Z) : int128 := Int128 a 0.
Definition int128_get64 (a : int128) : outcome Z :=
  _ ← c_assert (hi a =? 0); Ok (lo a).
Definition int128_zero : int128 := int128_make64 0.
Definition int128_one : int128 := int128_make64 1.
Definition int128_2_64 : int128 := Int128 0 1.
Definition int128_and (a b : int128) : int128 :=
  Int128 (Z.land (lo a) (lo b)) (Z.land (hi a) (hi b)).

(** [h = a.hi >> (n & 63)] is an arithmetic shift; [a.hi << (64 - n)] is
    taken modulo 2^64 when it is or-ed into the unsigned low word. *)
Definition int128_rshift (a : int128) (n : Z) : int128 :=
  if n =? 0 then a
  else
    let h := Z.shiftr (hi a) (Z.land n 63) in
    if 64 <=? n then Int128 (u64 h) (Z.shiftr h 63)
    else Int128 (Z.lor (Z.shiftr (lo a) n) (u64 (Z.shiftl (hi a) (64 - n)))) h.

Definition int128_add (a b : int128) : int128 :=
  let l := u64 (lo a + lo b) in
  Int128 l (s64 (hi a + hi b + b2z (l <? lo a))).

Definition int128_neg (a : int128) : int128 :=
  let l := u64 (- lo a) in
  Int128 l (s64 (Z.lnot (hi a) + b2z (l =? 0))).

Definition int128_sub (a b : int128) : int128 :=
  Int128 (u64 (lo a - lo b)) (s64 (hi a - hi b - b2z (lo a <? lo b))).

Definition int128_nonneg (a : int128) : bool := 0 <=? hi a.
Definition int128_eq (a b : int128) : bool := (lo a =? lo b) && (hi a =? hi b).
Definition int128_ne (a b : int128) : bool := negb (int128_eq a b).
Definition int128_ge (a b : int128) : bool :=
  (hi b <? hi a) || ((hi a =? hi b) && (lo b <=? lo a)).
Definition int128_lt (a b : int128) : bool := negb (int128_ge a b).
Definition int128_le (a b : int128) : bool := int128_ge b a.
Definition int128_gt (a b : int128) : bool := negb (int128_le a b).
Definition int128_nz (a : int128) : bool := negb (lo a =? 0) || negb (hi a =? 0).
Definition int128_min (a b : int128) : int128 := if int128_le a b then a else b.
Definition int128_max (a b : int128) : int128 := if int128_ge a b then a else b.

Definition int128_addto (a b : int128) : int128 := int128_add a b.
Definition int128_subfrom (a b : int128) : int128 := int128_sub a b.

(** ** The operations of the memory model *)
Definition s128 (z : Z) : Z := swrap 128 z.
Definition i128_add (a b : Z) : Z := s128 (a + b).
Definition i128_sub (a b : Z) : Z := s128 (a - b).
Definition i128_neg (a : Z) : Z := s128 (- a).
Definition i128_get64 (a : Z) : outcome Z :=
  _ ← c_assert ((0 <=? a) && (a <? 2 ^ 64)); Ok a.

Lemma s128_small z : in_s 128 z -> s128 z = z.
Proof. intros. apply swrap_small; [lia | done]. Qed.

Lemma i128_add_small a b : - 2 ^ 127 <= a + b < 2 ^ 127 -> i128_add a b = a + b.
Proof. intros. apply s128_small. done. Qed.

Lemma i128_sub_small a b : - 2 ^ 127 <= a - b < 2 ^ 127 -> i128_sub a b = a - b.
Proof. intros. apply s128_small. done. Qed.

Lemma i128_get64_Ok a b : i128_get64 a = Ok b <-> b = a /\ 0 <= a < 2 ^ 64.
Proof.
  unfold i128_get64, c_assert.
  destruct ((0 <=? a) && (a <? 2 ^ 64)) eqn:E; simpl; split.
  - intros [= ->]. lia.
  - intros [-> _]. done.
  - done.
  - lia.
Qed.

(** ** The struct operations compute the model's operations *)

(** Two words determine the integer and conversely. *)
Lemma val_inj a b : wf128 a -> wf128 b -> val a = val b -> a = b.
Proof.
  destruct a as [al ah], b as [bl bh]. unfold wf128, val, in_u, in_s; simpl.
  intros [? ?] [? ?] Hv. assert (ah = bh) by lia. f_equal; lia.
Qed.

Lemma val_range a : wf128 a -> in_s 128 (val a).
Proof. unfold wf128, val, in_u, in_s. intros. lia. Qed.

(** A wrapped pair of words is the 128-bit wrap of the number they spell. *)
Lemma val_wrap l h :
  0 <= l < 2 ^ 64 -> s64 h * 2 ^ 64 + l = s128 (h * 2 ^ 64 + l).
Proof.
  intros Hl. unfold s128, swrap.
  change (2 ^ (128 - 1)) with (2 ^ 63 * 2 ^ 64).
  change (2 ^ 128) with (2 ^ 64 * 2 ^ 64). change (2 ^ (64 - 1)) with (2 ^ 63).
  replace (h * 2 ^ 64 + l + 2 ^ 63 * 2 ^ 64) with (l + (h + 2 ^ 63) * 2 ^ 64) by ring.
  rewrite Z.rem_mul_r by lia.
  rewrite Z.mod_add, Z.div_add by lia.
  rewrite (Z.mod_small l), (Z.div_small l) by lia.
  rewrite Z.add_0_l. ring.
Qed.

Ltac words := unfold wf128, in_u, in_s, val, int128_add, int128_sub, int128_neg, b2z in *; cbn [lo hi] in *.

Lemma int128_add_val a b :
  wf128 a -> wf128 b ->
  wf128 (int128_add a b) /\ val (int128_add a b) = i128_add (val a) (val b).
Proof.
  intros Ha Hb. split.
  - split; [apply wrap_range; lia | apply swrap_range; lia].
  - destruct a as [al ah], b as [bl bh]. unfold i128_add. words.
    rewrite val_wrap by (apply wrap_range; lia). f_equal. unfold wrap.
    destruct (Z.ltb_spec ((al + bl) mod 2 ^ 64) al); Z.div_mod_to_equations; lia.
Qed.

Lemma int128_sub_val a b :
  wf128 a -> wf128 b ->
  wf128 (int128_sub a b) /\ val (int128_sub a b) = i128_sub (val a) (val b).
Proof.
  intros Ha Hb. split.
  - split; [apply wrap_range; lia | apply swrap_range; lia].
  - destruct a as [al ah], b as [bl bh]. unfold i128_sub. words.
    rewrite val_wrap by (apply wrap_range; lia). f_equal. unfold wrap.
    destruct (Z.ltb_spec al bl); Z.div_mod_to_equations; lia.
Qed.

Lemma int128_neg_val a :
  wf128 a -> wf128 (int128_neg a) /\ val (int128_neg a) = i128_neg (val a).
Proof.
  intros Ha. split.
  - split; [apply wrap_range; lia | apply swrap_range; lia].
  - destruct a as [al ah]. unfold i128_neg. words.
    rewrite val_wrap by (apply wrap_range; lia). f_equal. unfold wrap, Z.lnot.
    destruct (Z.eqb_spec (- al mod 2 ^ 64) 0); Z.div_mod_to_equations; lia.
Qed.

Lemma int128_ge_val a b :
  wf128 a -> wf128 b -> int128_ge a b = (val b <=? val a).
Proof.
  intros Ha Hb. destruct a as [al ah], b as [bl bh]. unfold int128_ge. words.
  lia.
Qed.

Lemma int128_eq_val a b :
  wf128 a -> wf128 b -> int128_eq a b = (val a =? val b).
Proof.
  intros Ha Hb. destruct a as [al ah], b as [bl bh]. unfold int128_eq. words. lia.
Qed.

Lemma int128_nz_val a : wf128 a -> int128_nz a = negb (val a =? 0).
Proof. intros Ha. destruct a as [al ah]. unfold int128_nz. words. lia. Qed.

Lemma int128_nonneg_val a : wf128 a -> int128_nonneg a = (0 <=? val a).
Proof. intros Ha. destruct a as [al ah]. unfold int128_nonneg. words. lia. Qed.

Lemma int128_get64_val a : wf128 a -> int128_get64 a = i128_get64 (val a).
Proof.
  intros Ha. destruct a as [al ah]. unfold int128_get64, i128_get64. words.
  destruct (Z.eqb_spec ah 0) as [->|]; simpl.
  - rewrite Z.mul_0_l, Z.add_0_l.
    replace ((0 <=? al) && (al <? _)) with true by lia. done.
  - replace ((0 <=? _) && _) with false by lia. done.
Qed.

Lemma int128_min_val a b :
  wf128 a -> wf128 b ->
  wf128 (int128_min a b) /\ val (int128_min a b) = val a `min` val b.
Proof.
  intros Ha Hb. unfold int128_min, int128_le. rewrite int128_ge_val by done.
  destruct (Z.leb_spec (val a) (val b)); split; auto; lia.
Qed.

Lemma int128_max_val a b :
  wf128 a -> wf128 b ->
  wf128 (int128_max a b) /\ val (int128_max a b) = val a `max` val b.
Proof.
  intros Ha Hb. unfold int128_max. rewrite int128_ge_val by done.
  destruct (Z.leb_spec (val b) (val a)); split; auto; lia.
Qed.

(** The low part of an arithmetic shift by less than a word. *)
Lemma rshift_lo l h n :
  0 <= l < 2 ^ 64 -> 0 < n < 64 ->
  Z.lor (Z.shiftr l n) (u64 (Z.shiftl h (64 - n))) = u64 (Z.shiftr (h * 2 ^ 64 + l) n).
Proof.
  intros Hl Hn.
  replace (h * 2 ^ 64 + l) with (Z.lor (Z.shiftl h 64) l).
  2: { rewrite <- Z.add_lor_land, Z.shiftl_mul_pow2 by lia.
       replace (Z.land (h * 2 ^ 64) l) with 0; [lia|].
       bits. rewrite <- Z.shiftl_mul_pow2, Z.shiftl_spec by lia.
       destruct (Z.ltb_spec i 64).
       - rewrite Z.testbit_neg_r by lia. done.
       - rewrite (testbit_high l 64 i) by lia. by rewrite andb_false_r. }
  rewrite !u64_land. bits.
  destruct (Z.ltb_spec i 64).
  - rewrite Z.ones_spec_low by lia. rewrite !andb_true_r.
    replace (i - (64 - n)) with (i + n - 64) by lia. apply orb_comm.
  - rewrite Z.ones_spec_high by lia. rewrite !andb_false_r.
    rewrite (testbit_high l 64) by lia. done.
Qed.

Lemma int128_rshift_val a n :
  wf128 a -> 0 <= n < 128 ->
  wf128 (int128_rshift a n) /\ val (int128_rshift a n) = Z.shiftr (val a) n.
Proof.
  intros Ha Hn. destruct a as [al ah]. unfold int128_rshift. cbn [lo hi].
  destruct (Z.eqb_spec n 0) as [->|Hn0].
  { rewrite Z.shiftr_0_r. done. }
  assert (Hland : Z.land n 63 = n mod 64) by (apply (Z.land_ones n 6); lia).
  rewrite Hland.
  assert (Hr : forall x k, 0 <= k -> Z.shiftr x k = x / 2 ^ k)
    by (intros; apply Z.shiftr_div_pow2; lia).
  destruct (Z.leb_spec 64 n) as [Hge|Hlt].
  - replace (n mod 64) with (n - 64) by (Z.div_mod_to_equations; lia).
    assert (Hh : Z.shiftr (val (Int128 al ah)) n = Z.shiftr ah (n - 64)).
    { words. replace n with (64 + (n - 64)) at 1 by lia.
      rewrite <- Z.shiftr_shiftr by lia. f_equal.
      rewrite Hr, Z.div_add_l, (Z.div_small al) by lia. lia. }
    rewrite Hh. set (h := Z.shiftr ah (n - 64)).
    assert (Hhr : in_s 64 h).
    { unfold h. rewrite Hr by lia. words.
      assert (0 < 2 ^ (n - 64)) by lia. split.
      - apply Z.div_le_lower_bound; nia.
      - apply Z.div_lt_upper_bound; nia. }
    words. rewrite !Hr by lia. unfold wrap.
    repeat split; Z.div_mod_to_equations; lia.
  - rewrite Z.mod_small by lia. words.
    rewrite rshift_lo by lia. unfold wrap.
    rewrite !Hr by lia.
    assert (0 < 2 ^ n) by lia.
    assert (H64 : 2 ^ 64 = 2 ^ (64 - n) * 2 ^ n) by (rewrite <- Z.pow_add_r by lia; f_equal; lia).
    assert (Hd : (ah * 2 ^ 64 + al) / 2 ^ n / 2 ^ 64 = ah / 2 ^ n).
    { rewrite Z.div_div, (Z.mul_comm (2 ^ n)), <- Z.div_div by lia.
      rewrite Z.div_add_l, (Z.div_small al) by lia. f_equal. lia. }
    pose proof (Z.mod_pos_bound ((ah * 2 ^ 64 + al) / 2 ^ n) (2 ^ 64)).
    pose proof (Z.div_mod ((ah * 2 ^ 64 + al) / 2 ^ n) (2 ^ 64)).
    repeat split; try lia.
    + apply Z.div_le_lower_bound; nia.
    + apply Z.div_lt_upper_bound; nia.
Qed.

(** On well-formed structs, the two-word operations compute
    128-bit two's-complement arithmetic, ordering, shifts and the checked
    conversion to 64 bits of the integers the structs stand for. *)
Theorem int128_arith a b n :
  wf128 a -> wf128 b -> 0 <= n < 128 ->
  (val (int128_add a b) = i128_add (val a) (val b)) /\
  (val (int128_sub a b) = i128_sub (val a) (val b)) /\
  (val (int128_neg a) = i128_neg (val a)) /\
  (val (int128_rshift a n) = Z.shiftr (val a) n) /\
  (int128_ge a b = (val b <=? val a)) /\ (int128_eq a b = (val a =? val b)) /\
  (val (int128_min a b) = val a `min` val b) /\ (val (int128_max a b) = val a `max` val b) /\
  (int128_get64 a = i128_get64 (val a)) /\
  wf128 (int128_add a b) /\ wf128 (int128_sub a b) /\ wf128 (int128_neg a) /\
  wf128 (int128_rshift a n).
Proof.
  intros Ha Hb Hn. destruct (int128_add_val a b), (int128_sub_val a b), (int128_neg_val a),
    (int128_rshift_val a n), (int128_min_val a b), (int128_max_val a b); auto.
  split_and!; auto using int128_ge_val, int128_eq_val, int128_get64_val.
Qed.

Lemma int128_arith_witness :
  val (int128_sub (int128_make64 5) int128_2_64) = i128_sub 5 (2 ^ 64) /\
  val (int128_rshift int128_2_64 12) = 2 ^ 52.
Proof.
  destruct (int128_arith (int128_make64 5) int128_2_64 12) as (_ & H & _);
    [unfold wf128, in_u, in_s; cbn [lo hi int128_make64 int128_2_64]; lia..|].
  destruct (int128_arith int128_2_64 int128_2_64 12) as (_ & _ & _ & H' & _);
    [unfold wf128, in_u, in_s; cbn [lo hi int128_make64 int128_2_64]; lia..|].
  split; [exact H|]. rewrite H'. reflexivity.
Defined.
