(* ===== verification/HostUtils.v ===== *)
(** * Host integer utilities: include/qemu/host-utils.h and util/host-utils.c

    The header picks compiler builtins when it can and portable code
    otherwise.  The builtins are modelled by what the compiler documents
    ([builtin_*]); the portable branches ([*_portable]) are translated as they
    are written, and proved to compute the same numbers. *)
From S2P Require Import Prelude.

(** ** Builtins *)
Fixpoint builtin_ctz (n : nat) (v : Z) : Z :=
  match n with
  | O => 0
  | S n => if Z.odd v then 0 else 1 + builtin_ctz n (Z.div2 v)
  end.

Definition builtin_clz (w v : Z) : Z := w - 1 - Z.log2 v.

Fixpoint builtin_popcount (n : nat) (v : Z) : Z :=
  match n with
  | O => 0
  | S n => v mod 2 + builtin_popcount n (v / 2)
  end.

(** Bits after the sign bit that are equal to it. *)
Definition builtin_clrsb (w v : Z) : Z :=
  let x := swrap w v in
  let m := if x <? 0 then Z.lnot x else x in
  if m =? 0 then w - 1 else w - 2 - Z.log2 m.

(** ** The branches used with GCC *)
Definition clz32 (val : Z) : Z := if val =? 0 then 32 else builtin_clz 32 val.
Definition clz64 (val : Z) : Z := if val =? 0 then 64 else builtin_clz 64 val.
Definition ctz32 (val : Z) : Z := if val =? 0 then 32 else builtin_ctz 32 val.
Definition ctz64 (val : Z) : Z := if val =? 0 then 64 else builtin_ctz 64 val.
Definition clo32 (val : Z) : Z := clz32 (u32 (Z.lnot val)).
Definition clo64 (val : Z) : Z := clz64 (u64 (Z.lnot val)).
Definition cto32 (val : Z) : Z := ctz32 (u32 (Z.lnot val)).
Definition cto64 (val : Z) : Z := ctz64 (u64 (Z.lnot val)).
Definition clrsb32 (val : Z) : Z := builtin_clrsb 32 val.
Definition clrsb64 (val : Z) : Z := builtin_clrsb 64 val.
Definition ctpop8 (val : Z) : Z := builtin_popcount 8 val.
Definition ctpop16 (val : Z) : Z := builtin_popcount 16 val.
Definition ctpop32 (val : Z) : Z := builtin_popcount 32 val.
Definition ctpop64 (val : Z) : Z := builtin_popcount 64 val.

(** ** The portable branches *)

(** [if (!(val & mask)) { cnt += k; val <<= k; }] on a [uint32_t]. *)
Definition clz_step (mask k : Z) (st : Z * Z) : Z * Z :=
  let '(cnt, val) := st in
  if Z.land val mask =? 0 then (cnt + k, u32 (Z.shiftl val k)) else (cnt, val).

Definition clz32_portable (val : Z) : Z :=
  let st := (0, val) in
  let st := clz_step 0xFFFF0000 16 st in
  let st := clz_step 0xFF000000 8 st in
  let st := clz_step 0xF0000000 4 st in
  let st := clz_step 0xC0000000 2 st in
  let st := clz_step 0x80000000 1 st in
  let '(cnt, val) := st in
  if Z.land val 0x80000000 =? 0 then cnt + 1 else cnt.

Definition clz64_portable (val : Z) : Z :=
  let '(cnt, val) := if Z.shiftr val 32 =? 0 then (32, val) else (0, Z.shiftr val 32) in
  cnt + clz32_portable (u32 val).

(** [if (!(val & mask)) { cnt += k; val >>= k; }] *)
Definition ctz_step (mask k : Z) (st : Z * Z) : Z * Z :=
  let '(cnt, val) := st in
  if Z.land val mask =? 0 then (cnt + k, Z.shiftr val k) else (cnt, val).

Definition ctz32_portable (val : Z) : Z :=
  let st := (0, val) in
  let st := ctz_step 0x0000FFFF 16 st in
  let st := ctz_step 0x000000FF 8 st in
  let st := ctz_step 0x0000000F 4 st in
  let st := ctz_step 0x00000003 2 st in
  let st := ctz_step 0x00000001 1 st in
  let '(cnt, val) := st in
  if Z.land val 0x00000001 =? 0 then cnt + 1 else cnt.

Definition ctz64_portable (val : Z) : Z :=
  let '(cnt, val) := if u32 val =? 0 then (32, Z.shiftr val 32) else (0, val) in
  cnt + ctz32_portable (u32 val).

Definition clrsb32_portable (val : Z) : Z :=
  clz32 (Z.lxor val (u32 (Z.shiftr (s32 val) 1))) - 1.
Definition clrsb64_portable (val : Z) : Z :=
  clz64 (Z.lxor val (u64 (Z.shiftr (s64 val) 1))) - 1.

(** [val = (val & mask) + ((val >> k) & mask);] on a [w]-bit integer. *)
Definition pop_step (w mask k val : Z) : Z :=
  wrap w (Z.land val mask + Z.land (Z.shiftr val k) mask).

Definition ctpop8_portable (val : Z) : Z :=
  pop_step 8 0x0f 4 (pop_step 8 0x33 2 (pop_step 8 0x55 1 val)).

Definition ctpop16_portable (val : Z) : Z :=
  pop_step 16 0x00ff 8 (pop_step 16 0x0f0f 4 (pop_step 16 0x3333 2 (pop_step 16 0x5555 1 val))).

Definition ctpop32_portable (val : Z) : Z :=
  let val := pop_step 32 0x55555555 1 val in
  let val := pop_step 32 0x33333333 2 val in
  let val := pop_step 32 0x0f0f0f0f 4 val in
  let val := pop_step 32 0x00ff00ff 8 val in
  pop_step 32 0x0000ffff 16 val.

Definition ctpop64_portable (val : Z) : Z :=
  let val := pop_step 64 0x5555555555555555 1 val in
  let val := pop_step 64 0x3333333333333333 2 val in
  let val := pop_step 64 0x0f0f0f0f0f0f0f0f 4 val in
  let val := pop_step 64 0x00ff00ff00ff00ff 8 val in
  let val := pop_step 64 0x0000ffff0000ffff 16 val in
  pop_step 64 0x00000000ffffffff 32 val.

(** ** 128-bit products and quotients

    With CONFIG_INT128 the compiler's 128-bit type is used; [plow] and
    [phigh] are returned in that order, after the result code of a
    division. *)
Definition mulu64_int128 (a b : Z) : Z * Z :=
  let r := a * b in (u64 r, u64 (Z.shiftr r 64)).

Definition muls64_int128 (a b : Z) : Z * Z :=
  let r := a * b in (u64 r, u64 (Z.shiftr r 64)).

Definition divu128_int128 (plow phigh divisor : Z) : Z * Z * Z :=
  if divisor =? 0 then (1, plow, phigh)
  else
    let dividend := Z.lor (Z.shiftl phigh 64) plow in
    let result := dividend / divisor in
    (b2z (2 ^ 64 - 1 <? result), u64 result, u64 (dividend mod divisor)).

(** [*plow] is an [int64_t] here: it is sign extended before it is or-ed in. *)
Definition divs128_int128 (plow phigh divisor : Z) : Z * Z * Z :=
  if divisor =? 0 then (1, plow, phigh)
  else
    let dividend := Z.lor (Z.shiftl phigh 64) plow in
    let result := Z.quot dividend divisor in
    (b2z (negb (result =? s64 result)), s64 result, s64 (Z.rem dividend divisor)).

(** The members [low] and [high] of the union [LL]. *)
Definition ll_low (x : Z) : Z := u32 x.
Definition ll_high (x : Z) : Z := Z.shiftr x 32.
Definition ll (low high : Z) : Z := Z.lor low (Z.shiftl high 32).

Definition mul64 (a b : Z) : Z * Z :=
  let rl := u64 (ll_low a * ll_low b) in
  let rm := u64 (ll_low a * ll_high b) in
  let rn := u64 (ll_high a * ll_low b) in
  let rh := u64 (ll_high a * ll_high b) in
  let c := u64 (ll_high rl + ll_low rm + ll_low rn) in
  let rl := ll (ll_low rl) (u32 c) in
  let c := Z.shiftr c 32 in
  let c := u64 (c + ll_high rm + ll_high rn + ll_low rh) in
  let rh := ll (u32 c) (u32 (ll_high rh + u32 (Z.shiftr c 32))) in
  (rl, rh).

Definition mulu64 (a b : Z) : Z * Z := mul64 a b.

Definition muls64 (a b : Z) : Z * Z :=
  let '(low, rh) := mul64 (u64 a) (u64 b) in
  let rh := if b <? 0 then u64 (rh - a) else rh in
  let rh := if a <? 0 then u64 (rh - b) else rh in
  (low, rh).

(** One turn of the shift-and-subtract loop. *)
Definition divu128_step (divisor : Z) (st : Z * Z) : Z * Z :=
  let '(dhi, dlo) := st in
  let carry := Z.shiftr dhi 63 in
  let dhi := Z.lor (u64 (Z.shiftl dhi 1)) (Z.shiftr dlo 63) in
  let '(dhi, carry) :=
    if negb (carry =? 0) || (divisor <=? dhi) then (u64 (dhi - divisor), 1) else (dhi, 0) in
  (dhi, Z.lor (u64 (Z.shiftl dlo 1)) carry).

Definition divu128 (plow phigh divisor : Z) : Z * Z * Z :=
  if divisor =? 0 then (1, plow, phigh)
  else if phigh =? 0 then (0, plow / divisor, plow mod divisor)
  else if divisor <? phigh then (1, plow, phigh)
  else
    let '(dhi, dlo) := Nat.iter 64 (divu128_step divisor) (phigh, plow) in
    (0, dlo, dhi).

Definition divs128 (plow phigh divisor : Z) : Z * Z * Z :=
  let sgn_dvdnd := phigh <? 0 in
  let sgn_divsr := divisor <? 0 in
  let '(plow, phigh) :=
    if sgn_dvdnd then
      let plow := s64 (Z.lnot plow) in
      let phigh := s64 (Z.lnot phigh) in
      if plow =? -1 then (0, s64 (phigh + 1)) else (s64 (plow + 1), phigh)
    else (plow, phigh) in
  let divisor := if sgn_divsr then s64 (0 - divisor) else divisor in
  let '(overflow, plow, phigh) := divu128 (u64 plow) (u64 phigh) (u64 divisor) in
  let plow := s64 plow in
  let plow := if xorb sgn_dvdnd sgn_divsr then s64 (0 - plow) else plow in
  let overflow :=
    if overflow =? 0 then
      if xorb (plow <? 0) (xorb sgn_dvdnd sgn_divsr) then 1 else overflow
    else overflow in
  (overflow, plow, s64 phigh).

(** ** Counting zeros *)
Lemma land_high_mask v k :
  0 <= k <= 32 -> 0 <= v < 2 ^ 32 ->
  (Z.land v (Z.shiftl (Z.ones k) (32 - k)) =? 0) = (v <? 2 ^ (32 - k)).
Proof.
  intros Hk Hv.
  assert (Z.land v (Z.shiftl (Z.ones k) (32 - k)) = Z.shiftl (Z.shiftr v (32 - k)) (32 - k)) as ->.
  { bits. destruct (Z.lt_ge_cases i (32 - k)).
    - rewrite !(Z.testbit_neg_r _ (i - (32 - k))) by lia. apply andb_false_r.
    - rewrite Z.shiftr_spec by lia. replace (i - (32 - k) + (32 - k)) with i by lia.
      destruct (Z.lt_ge_cases i 32).
      + rewrite Z.ones_spec_low by lia. apply andb_true_r.
      + by rewrite (testbit_high v 32). }
  rewrite Z.shiftl_mul_pow2, Z.shiftr_div_pow2 by lia.
  pose proof (Z.div_pos v (2 ^ (32 - k))). pose proof (Z.div_mod v (2 ^ (32 - k))).
  pose proof (Z.mod_pos_bound v (2 ^ (32 - k))).
  destruct (Z.ltb_spec v (2 ^ (32 - k))).
  - rewrite Z.div_small by lia. done.
  - apply Z.eqb_neq. assert (0 < 2 ^ (32 - k)) by lia.
    assert (1 <= v / 2 ^ (32 - k)) by (apply Z.div_le_lower_bound; lia). nia.
Qed.

Lemma clz_step_spec v k n cnt val :
  0 < k -> n = 2 * k -> n <= 32 ->
  0 < val < 2 ^ 32 -> 2 ^ (32 - n) <= val -> Z.log2 v = Z.log2 val - cnt ->
  exists cnt' val', clz_step (Z.shiftl (Z.ones k) (32 - k)) k (cnt, val) = (cnt', val') /\
    0 < val' < 2 ^ 32 /\ 2 ^ (32 - k) <= val' /\ Z.log2 v = Z.log2 val' - cnt'.
Proof.
  intros Hk -> Hn Hv Hw Hl. unfold clz_step. rewrite land_high_mask by lia.
  destruct (Z.ltb_spec val (2 ^ (32 - k))) as [Hlt|Hge]; [|by eauto 10].
  assert (2 ^ 32 = 2 ^ (32 - k) * 2 ^ k) as E1 by (rewrite <- Z.pow_add_r by lia; f_equal; lia).
  assert (2 ^ (32 - k) = 2 ^ (32 - 2 * k) * 2 ^ k) as E2
    by (rewrite <- Z.pow_add_r by lia; f_equal; lia).
  assert (0 < 2 ^ k) by lia.
  exists (cnt + k), (Z.shiftl val k). rewrite Z.shiftl_mul_pow2 by lia.
  rewrite wrap_small by nia. split_and!; [done|nia|nia|nia|].
  rewrite <- Z.shiftl_mul_pow2, Z.log2_shiftl by lia. lia.
Qed.

Lemma clz32_portable_eq v : in_u 32 v -> clz32_portable v = clz32 v.
Proof.
  intros Hv. unfold clz32. destruct (Z.eqb_spec v 0) as [->|Hnz]; [done|].
  unfold clz32_portable, builtin_clz.
  destruct (clz_step_spec v 16 32 0 v) as (c1 & v1 & E1 & ? & ? & ?); [unfold in_u in *; lia..|].
  change (Z.shiftl (Z.ones 16) (32 - 16)) with 0xFFFF0000 in E1. rewrite E1.
  destruct (clz_step_spec v 8 16 c1 v1) as (c2 & v2 & E2 & ? & ? & ?); [lia..|].
  change (Z.shiftl (Z.ones 8) (32 - 8)) with 0xFF000000 in E2. rewrite E2.
  destruct (clz_step_spec v 4 8 c2 v2) as (c3 & v3 & E3 & ? & ? & ?); [lia..|].
  change (Z.shiftl (Z.ones 4) (32 - 4)) with 0xF0000000 in E3. rewrite E3.
  destruct (clz_step_spec v 2 4 c3 v3) as (c4 & v4 & E4 & ? & ? & ?); [lia..|].
  change (Z.shiftl (Z.ones 2) (32 - 2)) with 0xC0000000 in E4. rewrite E4.
  destruct (clz_step_spec v 1 2 c4 v4) as (c5 & v5 & E5 & ? & ? & ?); [lia..|].
  change (Z.shiftl (Z.ones 1) (32 - 1)) with 0x80000000 in E5. rewrite E5.
  change 0x80000000 with (Z.shiftl (Z.ones 1) (32 - 1)). rewrite land_high_mask by lia.
  replace (v5 <? 2 ^ (32 - 1)) with false by lia.
  assert (Z.log2 v5 = 31); [apply Z.log2_unique; lia|lia].
Qed.

Lemma clz64_portable_eq v : in_u 64 v -> clz64_portable v = clz64 v.
Proof.
  unfold in_u. intros Hv. unfold clz64, clz64_portable.
  rewrite Z.shiftr_div_pow2 by lia.
  destruct (Z.eqb_spec (v / 2 ^ 32) 0) as [H0|H0].
  - assert (v < 2 ^ 32) by (Z.div_mod_to_equations; lia).
    rewrite wrap_small, clz32_portable_eq by (unfold in_u; lia). unfold clz32.
    destruct (Z.eqb_spec v 0); [done|]. unfold builtin_clz. lia.
  - assert (0 <= v / 2 ^ 32 < 2 ^ 32) by (Z.div_mod_to_equations; lia).
    rewrite wrap_small, clz32_portable_eq by (unfold in_u; lia). unfold clz32.
    rewrite (proj2 (Z.eqb_neq _ _) H0).
    destruct (Z.eqb_spec v 0) as [->|]; [done|]. unfold builtin_clz.
    rewrite <- Z.shiftr_div_pow2, Z.log2_shiftr by lia.
    assert (32 <= Z.log2 v); [|lia]. apply Z.log2_le_pow2; [lia|]. Z.div_mod_to_equations. lia.
Qed.

(** [r] is the number of trailing zeros of [v]. *)
Definition trailing (v r : Z) : Prop :=
  0 <= r /\ Z.testbit v r = true /\ forall i, 0 <= i < r -> Z.testbit v i = false.

Lemma trailing_unique v r1 r2 : trailing v r1 -> trailing v r2 -> r1 = r2.
Proof.
  intros (H1 & T1 & L1) (H2 & T2 & L2).
  destruct (Z.lt_trichotomy r1 r2) as [Hlt|[Heq|Hgt]]; [|done|].
  - rewrite L2 in T1 by lia. done.
  - rewrite L1 in T2 by lia. done.
Qed.

Lemma builtin_ctz_spec n : forall v, 0 < v < 2 ^ Z.of_nat n ->
  trailing v (builtin_ctz n v) /\ builtin_ctz n v < Z.of_nat n.
Proof.
  induction n as [|n IH]; intros v Hv; [cbn in Hv; lia|].
  rewrite Nat2Z.inj_succ, Z.pow_succ_r in Hv by lia. cbn [builtin_ctz].
  destruct (Z.odd v) eqn:Ho.
  - split; [split_and!; [lia|by rewrite Z.bit0_odd|lia]|lia].
  - pose proof (Z.div2_odd v) as Hd. rewrite Ho in Hd. cbn [Z.b2z] in Hd.
    remember (Z.div2 v) as q eqn:Hq. clear Hq. rewrite Z.add_0_r in Hd. subst v.
    destruct (IH q) as ((H0 & Ht & Hl) & Hlt); [lia|].
    split; [split_and!; [lia| |]|lia].
    + by rewrite Z.add_1_l, Z.double_bits_succ.
    + intros i Hi. destruct (Z.eq_dec i 0) as [->|Hnz].
      * apply Z.testbit_even_0.
      * replace i with (Z.succ (i - 1)) by lia. rewrite Z.double_bits_succ. apply Hl. lia.
Qed.

Lemma ctz64_trailing v : 0 < v < 2 ^ 64 -> trailing v (ctz64 v) /\ ctz64 v < 64.
Proof.
  intros Hv. unfold ctz64. rewrite (proj2 (Z.eqb_neq _ _)) by lia. by apply builtin_ctz_spec.
Qed.

Lemma land_low_mask v k : 0 <= k ->
  (Z.land v (Z.ones k) =? 0) = true <-> forall i, 0 <= i < k -> Z.testbit v i = false.
Proof.
  intros Hk. rewrite Z.eqb_eq. split.
  - intros H i Hi. transitivity (Z.testbit (Z.land v (Z.ones k)) i); [|rewrite H; apply Z.bits_0].
    rewrite Z.land_spec, Z.ones_spec_low by lia. by rewrite andb_true_r.
  - intros H. bits. destruct (Z.lt_ge_cases i k).
    + by rewrite H by lia.
    + rewrite Z.ones_spec_high by lia. apply andb_false_r.
Qed.

(** The lowest set bit of [v] lies in the [n] low bits of [val]. *)
Definition ctz_inv (v n : Z) (st : Z * Z) : Prop :=
  st.2 = Z.shiftr v st.1 /\ 0 <= st.1 /\ (forall i, 0 <= i < st.1 -> Z.testbit v i = false) /\
  ~ (forall j, 0 <= j < n -> Z.testbit st.2 j = false).

Lemma ctz_step_inv v k st : 0 < k ->
  ctz_inv v (2 * k) st -> ctz_inv v k (ctz_step (Z.ones k) k st).
Proof.
  destruct st as [cnt val]. intros Hk (Hval & Hc & Hlow & Hw). cbn [fst snd] in *. unfold ctz_step.
  pose proof (land_low_mask val k ltac:(lia)) as Hm.
  destruct (Z.land val (Z.ones k) =? 0); unfold ctz_inv; cbn [fst snd].
  - pose proof (proj1 Hm eq_refl) as Hz.
    split_and!; [by rewrite Hval, Z.shiftr_shiftr by lia|lia| |].
    + intros i Hi. destruct (Z.lt_ge_cases i cnt); [apply Hlow; lia|].
      specialize (Hz (i - cnt) ltac:(lia)). rewrite Hval, Z.shiftr_spec in Hz by lia.
      by replace (i - cnt + cnt) with i in Hz by lia.
    + intros Hall. apply Hw. intros j Hj. destruct (Z.lt_ge_cases j k); [apply Hz; lia|].
      specialize (Hall (j - k) ltac:(lia)). rewrite Z.shiftr_spec in Hall by lia.
      by replace (j - k + k) with j in Hall by lia.
  - split_and!; auto. intros Hall. by apply Hm in Hall.
Qed.

Lemma ctz32_portable_eq v : in_u 32 v -> ctz32_portable v = ctz32 v.
Proof.
  unfold in_u. intros Hv. unfold ctz32. destruct (Z.eqb_spec v 0) as [->|Hnz]; [done|].
  destruct (builtin_ctz_spec 32 v) as [Htr Hlt]; [lia|].
  apply (trailing_unique v); [|done]. unfold ctz32_portable.
  assert (ctz_inv v 32 (0, v)) as Hi.
  { split_and!; cbn [fst snd]; [by rewrite Z.shiftr_0_r|lia|lia|].
    intros Hall. destruct Htr as (? & Ht & _). rewrite Hall in Ht; [done|lia]. }
  apply (ctz_step_inv v 16) in Hi; [|lia]. apply (ctz_step_inv v 8) in Hi; [|lia].
  apply (ctz_step_inv v 4) in Hi; [|lia]. apply (ctz_step_inv v 2) in Hi; [|lia].
  apply (ctz_step_inv v 1) in Hi; [|lia].
  change (Z.ones 16) with 0xFFFF in Hi. change (Z.ones 8) with 0xFF in Hi.
  change (Z.ones 4) with 0xF in Hi. change (Z.ones 2) with 3 in Hi. change (Z.ones 1) with 1 in Hi.
  cbv zeta. destruct (ctz_step 1 1 _) as [cnt val]. destruct Hi as (Hval & Hc & Hlow & Hw).
  cbn [fst snd] in *.
  assert (Z.testbit val 0 = true) as Hb.
  { destruct (Z.testbit val 0) eqn:E; [done|]. exfalso. apply Hw. intros j Hj.
    by replace j with 0 by lia. }
  destruct (Z.eqb_spec (Z.land val 1) 0) as [H0|H0].
  - apply (f_equal (fun x => Z.testbit x 0)) in H0. rewrite Z.land_spec, Hb in H0. done.
  - split_and!; auto. rewrite Hval, Z.shiftr_spec in Hb by lia. exact Hb.
Qed.

Lemma ctz64_portable_eq v : in_u 64 v -> ctz64_portable v = ctz64 v.
Proof.
  unfold in_u. intros Hv. unfold ctz64_portable.
  destruct (Z.eqb_spec v 0) as [->|Hnz]; [done|].
  destruct (ctz64_trailing v ltac:(lia)) as [Htr _]. apply (trailing_unique v); [|done]. clear Htr.
  assert (Hlow : forall i, 0 <= i < 32 -> Z.testbit (u32 v) i = Z.testbit v i).
  { intros i Hi. apply Z.mod_pow2_bits_low. lia. }
  destruct (Z.eqb_spec (u32 v) 0) as [H0|H0].
  - assert (0 < v / 2 ^ 32 < 2 ^ 32) as Hr by (unfold wrap in H0; Z.div_mod_to_equations; lia).
    rewrite Z.shiftr_div_pow2, wrap_small, ctz32_portable_eq by (unfold in_u; lia). unfold ctz32.
    rewrite (proj2 (Z.eqb_neq (v / 2 ^ 32) 0)) by lia.
    destruct (builtin_ctz_spec 32 (v / 2 ^ 32)) as ((? & Ht & Hl) & _); [lia|].
    rewrite <- Z.shiftr_div_pow2 in * by lia. set (r := builtin_ctz 32 _) in *.
    split_and!; [lia| |].
    + rewrite Z.shiftr_spec in Ht by lia. by rewrite Z.add_comm.
    + intros i Hi. destruct (Z.lt_ge_cases i 32).
      * rewrite <- Hlow, H0 by lia. apply Z.bits_0.
      * specialize (Hl (i - 32) ltac:(lia)). rewrite Z.shiftr_spec in Hl by lia.
        by replace (i - 32 + 32) with i in Hl by lia.
  - pose proof (wrap_range 32 v ltac:(lia)).
    rewrite ctz32_portable_eq by (unfold in_u; lia). unfold ctz32.
    rewrite (proj2 (Z.eqb_neq _ _) H0).
    destruct (builtin_ctz_spec 32 (u32 v)) as ((? & Ht & Hl) & ?); [lia|].
    set (r := builtin_ctz 32 _) in *. rewrite Z.add_0_l.
    split_and!; [lia|by rewrite <- Hlow by lia|].
    intros i Hi. rewrite <- Hlow by lia. by apply Hl.
Qed.

Lemma log2_gray m : 0 < m -> Z.log2 (Z.lxor m (Z.shiftr m 1)) = Z.log2 m.
Proof.
  intros Hm. pose proof (Z.log2_nonneg m). apply Z.log2_bits_unique.
  - rewrite Z.lxor_spec, Z.shiftr_spec, Z.bit_log2 by lia.
    by rewrite (Z.bits_above_log2 m (Z.log2 m + 1)) by lia.
  - intros i Hi. rewrite Z.lxor_spec, Z.shiftr_spec by lia.
    by rewrite !Z.bits_above_log2 by lia.
Qed.

(** The sign-folded magnitude: what is left after the redundant sign bits. *)
Lemma gray_signed w v : 1 < w -> in_u w v ->
  let x := swrap w v in
  let m := if x <? 0 then Z.lnot x else x in
  Z.lxor v (wrap w (Z.shiftr x 1)) = Z.lxor m (Z.shiftr m 1) /\ 0 <= m < 2 ^ (w - 1).
Proof.
  intros Hw Hv x m. pose proof (swrap_range w v ltac:(lia)) as Hx. fold x in Hx. unfold in_s in Hx.
  assert (0 <= m < 2 ^ (w - 1)) as Hm by (unfold m, Z.lnot; destruct (Z.ltb_spec x 0); lia).
  split; [|done].
  assert (v = wrap w x) as Hvx.
  { unfold x, swrap, wrap. rewrite Zminus_mod_idemp_l. replace (v + _ - _) with v by lia.
    symmetry. by apply Z.mod_small. }
  clearbody x. rewrite Hvx.
  rewrite !wrap_land by lia. bits.
  destruct (Z.lt_ge_cases i w).
  - rewrite Z.ones_spec_low, !andb_true_r by lia. unfold m.
    destruct (Z.ltb_spec x 0); [|done]. rewrite !Z.lnot_spec by lia.
    by destruct (Z.testbit x i), (Z.testbit x (i + 1)).
  - rewrite Z.ones_spec_high, !andb_false_r by lia.
    by rewrite !(testbit_high m (w - 1)) by lia.
Qed.

Lemma clrsb_portable_eq w v : 1 < w -> in_u w v ->
  let y := Z.lxor v (wrap w (Z.shiftr (swrap w v) 1)) in
  (if y =? 0 then w else builtin_clz w y) - 1 = builtin_clrsb w v.
Proof.
  intros Hw Hv y. unfold y, builtin_clrsb. destruct (gray_signed w v Hw Hv) as [-> Hm].
  cbv zeta. set (m := if swrap w v <? 0 then Z.lnot (swrap w v) else swrap w v) in *. destruct (Z.eqb_spec m 0) as [->|Hnz]; [done|].
  pose proof (log2_gray m ltac:(lia)) as Hl.
  destruct (Z.eqb_spec (Z.lxor m (Z.shiftr m 1)) 0) as [H0|H0].
  - apply Z.lxor_eq in H0. rewrite Z.shiftr_div_pow2 in H0 by lia. Z.div_mod_to_equations. lia.
  - unfold builtin_clz. lia.
Qed.

(** ** Population count *)

(** Fields of base [B], the least significant first. *)
Fixpoint fields (B : Z) (l : list Z) : Z :=
  match l with [] => 0 | d :: l => d + B * fields B l end.

Fixpoint pair_sums (l : list Z) : list Z :=
  match l with a :: b :: l => (a + b) :: pair_sums l | _ => l end.

(** Every other field of [n] pairs. *)
Fixpoint even_mask (B : Z) (n : nat) : Z :=
  match n with O => 0 | S n => (B - 1) + B * B * even_mask B n end.

Lemma fields_nonneg B l : 0 < B -> Forall (fun d => 0 <= d) l -> 0 <= fields B l.
Proof. intros HB. induction 1; cbn [fields]; nia. Qed.

(** One field at a time: the low field is selected, the rest is handed on. *)
Lemma land_field w a x m : 0 <= w -> 0 <= a < 2 ^ w ->
  Z.land (a + 2 ^ w * x) (Z.ones w + 2 ^ w * m) = a + 2 ^ w * Z.land x m.
Proof.
  intros Hw Ha. assert (0 <= Z.ones w < 2 ^ w) by (rewrite Z.ones_equiv; lia).
  rewrite !(Z.mul_comm (2 ^ w)), <- !lor_shiftl_add by lia.
  bits. destruct (Z.lt_ge_cases i w).
  - rewrite !(Z.testbit_neg_r _ (i - w)) by lia. rewrite Z.ones_spec_low by lia.
    by rewrite !orb_false_r, andb_true_r.
  - rewrite (testbit_high a w), Z.ones_spec_high by lia. done.
Qed.

Lemma land_skip w x m : 0 <= w ->
  Z.land x (2 ^ w * m) = 2 ^ w * Z.land (Z.shiftr x w) m.
Proof.
  intros Hw. rewrite !(Z.mul_comm (2 ^ w)), <- !Z.shiftl_mul_pow2 by lia.
  bits. destruct (Z.lt_ge_cases i w).
  - rewrite !(Z.testbit_neg_r _ (i - w)) by lia. by rewrite andb_false_r.
  - rewrite Z.shiftr_spec by lia. by replace (i - w + w) with i by lia.
Qed.

Lemma even_mask_S w n : 0 <= w ->
  even_mask (2 ^ w) (S n) = Z.ones w + 2 ^ w * (2 ^ w * even_mask (2 ^ w) n).
Proof. intros. cbn [even_mask]. rewrite Z.ones_equiv. lia. Qed.

Definition field_ok (w : Z) (d : Z) : Prop := 0 <= d < 2 ^ w.

(** One line of the reduction adds neighbouring fields. *)
Lemma swar_sum w : 0 < w -> forall n l,
  length l = (2 * n)%nat -> Forall (field_ok w) l ->
  Z.land (fields (2 ^ w) l) (even_mask (2 ^ w) n) +
  Z.land (Z.shiftr (fields (2 ^ w) l) w) (even_mask (2 ^ w) n) = fields (2 ^ (2 * w)) (pair_sums l).
Proof.
  intros Hw. induction n as [|n IH]; intros l Hlen Hok.
  - destruct l; [|done]. cbn [fields even_mask pair_sums]. by rewrite !Z.land_0_r.
  - destruct l as [|a [|b l]]; [cbn [length] in *; lia|cbn [length] in *; lia|]. cbn [length] in Hlen.
    apply Forall_cons in Hok as [Ha Hok]. apply Forall_cons in Hok as [Hb Hok].
    unfold field_ok in Ha, Hb. specialize (IH l ltac:(lia) Hok).
    assert (Hsh : forall y z, 0 <= y < 2 ^ w -> Z.shiftr (y + 2 ^ w * z) w = z).
    { intros y z Hy. rewrite Z.shiftr_div_pow2, Z.mul_comm, Z.div_add, Z.div_small by lia. lia. }
    cbn [fields pair_sums]. rewrite even_mask_S by lia. rewrite Hsh by lia.
    set (F := fields (2 ^ w) l) in *. set (M := even_mask (2 ^ w) n) in *.
    rewrite (land_field w a), (land_field w b), !land_skip, Hsh by lia.
    replace (2 * w) with (w + w) by lia. rewrite Z.pow_add_r in * by lia.
    replace (2 * w) with (w + w) in IH by lia. rewrite Z.pow_add_r in IH by lia. rewrite <- IH. ring.
Qed.

Lemma pair_sums_ok w l : 0 < w -> Forall (field_ok w) l -> Forall (field_ok (2 * w)) (pair_sums l).
Proof.
  intros Hw. assert (2 ^ (2 * w) = 2 ^ w * 2 ^ w) as E.
  { rewrite <- Z.pow_add_r by lia. f_equal. lia. }
  assert (2 <= 2 ^ w) by (change 2 with (2 ^ 1) at 1; apply Z.pow_le_mono_r; lia).
  intros Hl. remember (length l) as n eqn:Hn. revert l Hn Hl.
  induction n as [n IH] using lt_wf_ind. intros l -> Hl. destruct l as [|a [|b l]]; cbn [pair_sums].
  - constructor.
  - apply Forall_cons in Hl as [Ha _]. constructor; [|done]. unfold field_ok in *. nia.
  - apply Forall_cons in Hl as [Ha [Hb Hl]%Forall_cons]. constructor.
    + unfold field_ok in *. nia.
    + eapply IH; [|done|done]. cbn. lia.
Qed.

Lemma pair_sums_length n : forall l, length l = (2 * n)%nat -> length (pair_sums l) = n.
Proof.
  induction n as [|n IH]; intros l Hl; [by destruct l|].
  destruct l as [|a [|b l]]; [cbn [length] in *; lia|cbn [length] in *; lia|]. cbn in *. f_equal. apply IH. lia.
Qed.

Lemma pair_sums_total n : forall l, length l = (2 * n)%nat ->
  foldr Z.add 0 (pair_sums l) = foldr Z.add 0 l.
Proof.
  induction n as [|n IH]; intros l Hl; [by destruct l|].
  destruct l as [|a [|b l]]; [cbn [length] in *; lia|cbn [length] in *; lia|]. cbn in *. rewrite IH by lia. lia.
Qed.

Lemma fields_bound w l : 0 < w -> Forall (field_ok w) l ->
  0 <= fields (2 ^ w) l < 2 ^ (w * Z.of_nat (length l)).
Proof.
  intros Hw. induction 1 as [|d l Hd Hl IH]; [cbn; rewrite Z.mul_0_r; lia|].
  cbn [fields length]. rewrite Nat2Z.inj_succ, Z.mul_succ_r, Z.add_comm, Z.pow_add_r by lia.
  unfold field_ok in Hd. nia.
Qed.

(** A step of the source on [2n] fields of [k] bits. *)
Lemma pop_step_fields w k n l mask : 0 < k -> w = k * Z.of_nat (2 * n) ->
  mask = even_mask (2 ^ k) n -> length l = (2 * n)%nat -> Forall (field_ok k) l ->
  pop_step w mask k (fields (2 ^ k) l) = fields (2 ^ (2 * k)) (pair_sums l).
Proof.
  intros Hk -> -> Hlen Hok. unfold pop_step. rewrite swar_sum by done. apply wrap_small.
  pose proof (fields_bound (2 * k) (pair_sums l) ltac:(lia) (pair_sums_ok k l Hk Hok)) as Hb.
  rewrite (pair_sums_length n) in Hb by done.
  replace (k * Z.of_nat (2 * n)) with (2 * k * Z.of_nat n) by lia. done.
Qed.

(** The bits of a number are fields of base 2. *)
Fixpoint bits_of (n : nat) (v : Z) : list Z :=
  match n with O => [] | S n => v mod 2 :: bits_of n (v / 2) end.

Lemma bits_of_fields n : forall v, 0 <= v < 2 ^ Z.of_nat n ->
  fields (2 ^ 1) (bits_of n v) = v /\ length (bits_of n v) = n /\
  Forall (field_ok 1) (bits_of n v) /\ foldr Z.add 0 (bits_of n v) = builtin_popcount n v.
Proof.
  induction n as [|n IH]; intros v Hv; [cbn in *; split_and!; [lia|done|constructor|done]|].
  rewrite Nat2Z.inj_succ, Z.pow_succ_r in Hv by lia.
  destruct (IH (v / 2)) as (Hf & Hl & Hok & Hp); [Z.div_mod_to_equations; lia|].
  cbn [bits_of fields length foldr builtin_popcount]. rewrite Hf, Hp, Hl.
  split_and!; try done.
  - change (2 ^ 1) with 2. Z.div_mod_to_equations. lia.
  - constructor; [|done]. unfold field_ok. change (2 ^ 1) with 2. apply Z.mod_pos_bound. lia.
Qed.

(** Summing neighbours [s] times turns 2^s fields into their total. *)
Fixpoint sums (s : nat) (l : list Z) : list Z :=
  match s with O => l | S s => sums s (pair_sums l) end.

Lemma sums_total s : forall l, length l = (2 ^ s)%nat -> sums s l = [foldr Z.add 0 l].
Proof.
  induction s as [|s IH]; intros l Hl.
  - destruct l as [|x [|y l]]; [done| |done]. cbn. by rewrite Z.add_0_r.
  - cbn [sums]. cbn [Nat.pow] in Hl. rewrite IH.
    + by rewrite (pair_sums_total (2 ^ s)).
    + by apply pair_sums_length.
Qed.

Lemma ctpop_start n v : in_u (Z.of_nat n) v ->
  exists l, v = fields (2 ^ 1) l /\ length l = n /\ Forall (field_ok 1) l /\
    builtin_popcount n v = foldr Z.add 0 l.
Proof.
  intros Hv. destruct (bits_of_fields n v Hv) as (Hf & Hl & Hok & Hp). by exists (bits_of n v).
Qed.

(** Halving the number of fields once. *)
Lemma pop_fields w k k' n l mask : 0 < k -> k' = 2 * k -> w = k * Z.of_nat (2 * n) -> mask = even_mask (2 ^ k) n ->
  length l = (2 * n)%nat -> Forall (field_ok k) l ->
  pop_step w mask k (fields (2 ^ k) l) = fields (2 ^ k') (pair_sums l) /\
  length (pair_sums l) = n /\ Forall (field_ok k') (pair_sums l).
Proof.
  intros ? ->. intros. split_and!; [by apply (pop_step_fields w k n)|by apply pair_sums_length|by apply pair_sums_ok].
Qed.

Lemma ctpop8_portable_eq v : in_u 8 v -> ctpop8_portable v = ctpop8 v.
Proof.
  intros (l & Hv & Hl & Hok & Hp)%(ctpop_start 8). unfold ctpop8, ctpop8_portable. rewrite Hp, Hv.
  destruct (pop_fields 8 1 2 4 l 0x55) as (-> & Hl1 & Hok1); [done..|].
  destruct (pop_fields 8 2 4 2 (pair_sums l) 0x33) as (-> & Hl2 & Hok2); [done..|].
  destruct (pop_fields 8 4 8 1 (pair_sums (pair_sums l)) 0x0f) as (-> & Hl3 & Hok3); [done..|].
  change (pair_sums (pair_sums (pair_sums l))) with (sums 3 l).
  rewrite sums_total by done. cbn [fields]. lia.
Qed.

Lemma ctpop16_portable_eq v : in_u 16 v -> ctpop16_portable v = ctpop16 v.
Proof.
  intros (l & Hv & Hl & Hok & Hp)%(ctpop_start 16). unfold ctpop16, ctpop16_portable. rewrite Hp, Hv.
  destruct (pop_fields 16 1 2 8 l 0x5555) as (-> & Hl1 & Hok1); [done..|].
  destruct (pop_fields 16 2 4 4 (sums 1 l) 0x3333) as (E2 & Hl2 & Hok2); [done..|].
  destruct (pop_fields 16 4 8 2 (sums 2 l) 0x0f0f) as (E3 & Hl3 & Hok3); [done..|].
  destruct (pop_fields 16 8 16 1 (sums 3 l) 0x00ff) as (E4 & Hl4 & Hok4); [done..|].
  cbn [sums] in *. rewrite E2, E3, E4.
  change (pair_sums (pair_sums (pair_sums (pair_sums l)))) with (sums 4 l).
  rewrite sums_total by done. cbn [fields]. lia.
Qed.

Lemma ctpop32_portable_eq v : in_u 32 v -> ctpop32_portable v = ctpop32 v.
Proof.
  intros (l & Hv & Hl & Hok & Hp)%(ctpop_start 32). unfold ctpop32, ctpop32_portable. rewrite Hp, Hv.
  destruct (pop_fields 32 1 2 16 l 0x55555555) as (-> & Hl1 & Hok1); [done..|].
  destruct (pop_fields 32 2 4 8 (sums 1 l) 0x33333333) as (E2 & Hl2 & Hok2); [done..|].
  destruct (pop_fields 32 4 8 4 (sums 2 l) 0x0f0f0f0f) as (E3 & Hl3 & Hok3); [done..|].
  destruct (pop_fields 32 8 16 2 (sums 3 l) 0x00ff00ff) as (E4 & Hl4 & Hok4); [done..|].
  destruct (pop_fields 32 16 32 1 (sums 4 l) 0x0000ffff) as (E5 & Hl5 & Hok5); [done..|].
  cbn [sums] in *. cbv zeta. rewrite E2, E3, E4, E5.
  change (pair_sums (pair_sums (pair_sums (pair_sums (pair_sums l))))) with (sums 5 l).
  rewrite sums_total by done. cbn [fields]. lia.
Qed.

Lemma ctpop64_portable_eq v : in_u 64 v -> ctpop64_portable v = ctpop64 v.
Proof.
  intros (l & Hv & Hl & Hok & Hp)%(ctpop_start 64). unfold ctpop64, ctpop64_portable. rewrite Hp, Hv.
  destruct (pop_fields 64 1 2 32 l 0x5555555555555555) as (-> & Hl1 & Hok1); [done..|].
  destruct (pop_fields 64 2 4 16 (sums 1 l) 0x3333333333333333) as (E2 & Hl2 & Hok2); [done..|].
  destruct (pop_fields 64 4 8 8 (sums 2 l) 0x0f0f0f0f0f0f0f0f) as (E3 & Hl3 & Hok3); [done..|].
  destruct (pop_fields 64 8 16 4 (sums 3 l) 0x00ff00ff00ff00ff) as (E4 & Hl4 & Hok4); [done..|].
  destruct (pop_fields 64 16 32 2 (sums 4 l) 0x0000ffff0000ffff) as (E5 & Hl5 & Hok5); [done..|].
  destruct (pop_fields 64 32 64 1 (sums 5 l) 0x00000000ffffffff) as (E6 & Hl6 & Hok6); [done..|].
  cbn [sums] in *. cbv zeta. rewrite E2, E3, E4, E5, E6.
  change (pair_sums (pair_sums (pair_sums (pair_sums (pair_sums (pair_sums l)))))) with (sums 6 l).
  rewrite sums_total by done. cbn [fields]. lia.
Qed.

(** The portable bit-counting code of host-utils.h computes
    the same numbers as the compiler builtins it stands in for, for every
    input including zero. *)
Theorem host_utils_portable v32 v64 :
  in_u 32 v32 -> in_u 64 v64 ->
  clz32_portable v32 = clz32 v32 /\ clz64_portable v64 = clz64 v64 /\
  ctz32_portable v32 = ctz32 v32 /\ ctz64_portable v64 = ctz64 v64 /\
  clrsb32_portable v32 = clrsb32 v32 /\ clrsb64_portable v64 = clrsb64 v64 /\
  ctpop8_portable (u8 v32) = ctpop8 (u8 v32) /\ ctpop16_portable (u16 v32) = ctpop16 (u16 v32) /\
  ctpop32_portable v32 = ctpop32 v32 /\ ctpop64_portable v64 = ctpop64 v64.
Proof.
  intros H32 H64. split_and!; auto using clz32_portable_eq, clz64_portable_eq, ctz32_portable_eq,
    ctz64_portable_eq, ctpop32_portable_eq, ctpop64_portable_eq.
  - by apply (clrsb_portable_eq 32).
  - by apply (clrsb_portable_eq 64).
  - apply ctpop8_portable_eq, wrap_range. lia.
  - apply ctpop16_portable_eq, wrap_range. lia.
Qed.

Lemma host_utils_portable_witness :
  clz32_portable 0x1234 = 19 /\ ctz64_portable 0x1230000 = 16.
Proof.
  destruct (host_utils_portable 0x1234 0x1230000) as (H1 & _ & _ & H2 & _);
    [unfold in_u; lia..|]. rewrite H1, H2. split; vm_compute; reflexivity.
Defined.

(** ** Products *)
Lemma ll_add low high : 0 <= low < 2 ^ 32 -> ll low high = low + high * 2 ^ 32.
Proof. intros. unfold ll. by rewrite lor_shiftl_add by lia. Qed.

Lemma mul64_spec a b : in_u 64 a -> in_u 64 b -> mul64 a b = (u64 (a * b), a * b / 2 ^ 64).
Proof.
  unfold in_u. intros Ha Hb. unfold mul64, ll_low, ll_high.
  rewrite !Z.shiftr_div_pow2 by lia. unfold wrap.
  set (al := a mod 2 ^ 32). set (ah := a / 2 ^ 32). set (bl := b mod 2 ^ 32). set (bh := b / 2 ^ 32).
  assert (0 <= al < 2 ^ 32 /\ 0 <= ah < 2 ^ 32 /\ a = al + ah * 2 ^ 32) as (Hal & Hah & Ea)
    by (subst al ah; Z.div_mod_to_equations; lia).
  assert (0 <= bl < 2 ^ 32 /\ 0 <= bh < 2 ^ 32 /\ b = bl + bh * 2 ^ 32) as (Hbl & Hbh & Eb)
    by (subst bl bh; Z.div_mod_to_equations; lia).
  clearbody al ah bl bh.
  assert (a * b = al * bl + (al * bh + ah * bl) * 2 ^ 32 + ah * bh * 2 ^ 64) as Hp
    by (rewrite Ea, Eb; ring).
  assert (Hm : forall x y, 0 <= x < 2 ^ 32 -> 0 <= y < 2 ^ 32 -> 0 <= x * y <= (2 ^ 32 - 1) * (2 ^ 32 - 1))
    by (intros; nia).
  pose proof (Hm al bl Hal Hbl). pose proof (Hm al bh Hal Hbh).
  pose proof (Hm ah bl Hah Hbl). pose proof (Hm ah bh Hah Hbh).
  rewrite Hp. clear Hp Ea Eb Ha Hb a b Hm.
  generalize dependent (al * bl). generalize dependent (al * bh).
  generalize dependent (ah * bl). generalize dependent (ah * bh). intros S HS R HR Q HQ P HP.
  clear Hal Hah Hbl Hbh.
  rewrite (Z.mod_small P), (Z.mod_small Q), (Z.mod_small R), (Z.mod_small S) by lia.
  set (c1 := (P / 2 ^ 32 + Q mod 2 ^ 32 + R mod 2 ^ 32) mod 2 ^ 64).
  assert (c1 = P / 2 ^ 32 + Q mod 2 ^ 32 + R mod 2 ^ 32) as E1
    by (apply Z.mod_small; Z.div_mod_to_equations; lia).
  set (c2 := (c1 / 2 ^ 32 + Q / 2 ^ 32 + R / 2 ^ 32 + S mod 2 ^ 32) mod 2 ^ 64).
  assert (c2 = c1 / 2 ^ 32 + Q / 2 ^ 32 + R / 2 ^ 32 + S mod 2 ^ 32) as E2
    by (apply Z.mod_small; rewrite E1; Z.div_mod_to_equations; lia).
  clearbody c1 c2.
  rewrite !ll_add by (apply Z.mod_pos_bound; lia).
  f_equal; subst c2; subst c1; Z.div_mod_to_equations; lia.
Qed.

Lemma u64_signed a : in_s 64 a -> u64 a = if a <? 0 then a + 2 ^ 64 else a.
Proof.
  unfold in_s, wrap. intros. destruct (Z.ltb_spec a 0).
  - rewrite <- (Z.mod_add a 1) by lia. apply Z.mod_small. lia.
  - apply Z.mod_small. lia.
Qed.

(** The 32-bit-half multiplication of host-utils.c gives
    the low and high words of the 128-bit product, unsigned and signed, as the
    branch that uses the compiler's 128-bit type does. *)
Theorem mul64_products a b c d :
  in_u 64 a -> in_u 64 b -> in_s 64 c -> in_s 64 d ->
  mulu64 a b = mulu64_int128 a b /\ muls64 c d = muls64_int128 c d.
Proof.
  intros Ha Hb Hc Hd. split.
  - unfold mulu64, mulu64_int128. rewrite mul64_spec by done. f_equal.
    rewrite Z.shiftr_div_pow2 by lia. symmetry. apply wrap_small.
    unfold in_u in *. split; [apply Z.div_pos; nia|apply Z.div_lt_upper_bound; nia].
  - unfold muls64, muls64_int128. rewrite mul64_spec by (apply wrap_range; lia).
    rewrite Z.shiftr_div_pow2 by lia. f_equal.
    { unfold wrap. symmetry. apply Zmult_mod. }
    rewrite (u64_signed c), (u64_signed d) by done. unfold in_s, wrap in *.
    destruct (Z.ltb_spec c 0), (Z.ltb_spec d 0).
    + replace ((c + 2 ^ 64) * (d + 2 ^ 64)) with (c * d + (c + d + 2 ^ 64) * 2 ^ 64) by ring.
      rewrite Z.div_add by lia. rewrite Zminus_mod_idemp_l.
      replace (_ + (c + d + 2 ^ 64) - c - d) with (c * d / 2 ^ 64 + 1 * 2 ^ 64) by ring.
      by rewrite Z.mod_add by lia.
    + replace ((c + 2 ^ 64) * d) with (c * d + d * 2 ^ 64) by ring.
      rewrite Z.div_add by lia. f_equal. lia.
    + replace (c * (d + 2 ^ 64)) with (c * d + c * 2 ^ 64) by ring.
      rewrite Z.div_add by lia. f_equal. lia.
    + symmetry. apply Z.mod_small. split; [apply Z.div_pos; nia|apply Z.div_lt_upper_bound; nia].
Qed.

Lemma mul64_products_witness :
  mulu64 (2 ^ 64 - 1) (2 ^ 64 - 1) = (1, 2 ^ 64 - 2) /\ muls64 (-3) 5 = (2 ^ 64 - 15, 2 ^ 64 - 1).
Proof.
  destruct (mul64_products (2 ^ 64 - 1) (2 ^ 64 - 1) (-3) 5) as [H1 H2];
    [unfold in_u, in_s; lia..|]. rewrite H1, H2. split; vm_compute; reflexivity.
Defined.

(** ** Division *)
Lemma divu128_step_spec D dhi dlo :
  0 <= dhi < D -> D < 2 ^ 64 -> 0 <= dlo < 2 ^ 64 ->
  let t := 2 * dhi + dlo / 2 ^ 63 in
  let c := b2z (D <=? t) in
  divu128_step D (dhi, dlo) = (t - c * D, (2 * dlo) mod 2 ^ 64 + c).
Proof.
  intros Hd HD Hl t c. unfold divu128_step, wrap. rewrite !Z.shiftr_div_pow2, !Z.shiftl_mul_pow2 by lia.
  assert (0 <= dlo / 2 ^ 63 <= 1) as Hb by (Z.div_mod_to_equations; lia).
  assert (Hor : forall x y, 0 <= y <= 1 -> Z.lor ((x * 2 ^ 1) mod 2 ^ 64) y = (x * 2 ^ 1) mod 2 ^ 64 + y).
  { intros x y Hy. assert ((x * 2 ^ 1) mod 2 ^ 64 = x mod 2 ^ 63 * 2 ^ 1) as ->.
    { change (2 ^ 64) with (2 ^ 63 * 2 ^ 1). by rewrite Z.mul_mod_distr_r by lia. }
    apply lor_mul_add; lia. }
  rewrite Hor by lia. unfold c, t, b2z. clear c t.
  destruct (Z.eqb_spec (dhi / 2 ^ 63) 0) as [H0|H0]; cbn [negb orb].
  - rewrite (Z.mod_small (dhi * 2 ^ 1)) by (Z.div_mod_to_equations; lia).
    replace (dhi * 2 ^ 1 + dlo / 2 ^ 63) with (2 * dhi + dlo / 2 ^ 63) by lia.
    destruct (Z.leb_spec D (2 * dhi + dlo / 2 ^ 63)).
    + rewrite Z.mod_small by lia. f_equal; [lia|]. rewrite Hor by lia. f_equal. f_equal. lia.
    + f_equal; [lia|]. rewrite Hor by lia. f_equal. f_equal. lia.
  - replace ((dhi * 2 ^ 1) mod 2 ^ 64) with (2 * dhi - 2 ^ 64) by (Z.div_mod_to_equations; lia).
    replace (D <=? 2 * dhi + dlo / 2 ^ 63) with true by (Z.div_mod_to_equations; lia).
    f_equal; [Z.div_mod_to_equations; lia|]. rewrite Hor by lia. f_equal. f_equal. lia.
Qed.

(** After [i] turns the high word is the remainder of the top [i] bits of the
    low word appended to [h], and the low word holds the bits still to come
    above the [i] quotient bits. *)
Lemma divu128_loop D h l : 0 <= h < D -> D < 2 ^ 64 -> 0 <= l < 2 ^ 64 ->
  forall i, (i <= 64)%nat ->
  exists dhi q m u, Nat.iter i (divu128_step D) (h, l) = (dhi, m * 2 ^ Z.of_nat i + q) /\
    l = u * 2 ^ (64 - Z.of_nat i) + m /\ 0 <= m < 2 ^ (64 - Z.of_nat i) /\
    0 <= dhi < D /\ 0 <= q < 2 ^ Z.of_nat i /\ h * 2 ^ Z.of_nat i + u = q * D + dhi.
Proof.
  intros Hh HD Hl. induction i as [|i IH]; intros Hi.
  - exists h, 0, l, 0. cbn [Nat.iter]. change (Z.of_nat 0) with 0.
    rewrite Z.sub_0_r, Z.pow_0_r, Z.mul_1_r, Z.add_0_r. split_and!; [done|lia..].
  - destruct IH as (dhi & q & m & u & E & El & Hm & Hd & Hq & Hinv); [lia|].
    rewrite Nat.iter_succ, E. replace (64 - Z.of_nat i) with (Z.succ (63 - Z.of_nat i)) in * by lia.
    replace (64 - Z.of_nat (S i)) with (63 - Z.of_nat i) by lia.
    rewrite Nat2Z.inj_succ. rewrite !(Z.pow_succ_r 2) in * by lia.
    assert (2 ^ (63 - Z.of_nat i) * 2 ^ Z.of_nat i = 2 ^ 63) as HKP
      by (rewrite <- Z.pow_add_r by lia; f_equal; lia).
    set (K := 2 ^ (63 - Z.of_nat i)) in *. set (P := 2 ^ Z.of_nat i) in *.
    assert (0 < K) by (subst K; lia). assert (0 < P) by (subst P; lia). clearbody K P.
    assert (exists b m', m = b * K + m' /\ 0 <= m' < K /\ (b = 0 \/ b = 1)) as (b & m' & Em & Hm' & Hb).
    { destruct (Z.lt_ge_cases m K); [exists 0, m|exists 1, (m - K)]; lia. }
    rewrite divu128_step_spec by (auto; nia).
    assert ((m * P + q) / 2 ^ 63 = b) as ->.
    { symmetry. apply (Z.div_unique_pos _ _ _ (m' * P + q)); nia. }
    assert ((2 * (m * P + q)) mod 2 ^ 64 = 2 * (m' * P + q)) as ->.
    { symmetry. apply (Z.mod_unique_pos _ _ b); nia. }
    set (t := 2 * dhi + b). exists (t - b2z (D <=? t) * D), (2 * q + b2z (D <=? t)), m', (2 * u + b).
    unfold b2z, t. destruct (Z.leb_spec D (2 * dhi + b)); split_and!; try nia; f_equal; nia.
Qed.

(** On every input for which the quotient fits in 64 bits,
    and for a zero divisor, the portable 128-by-64 division agrees with the
    compiler's: quotient in the low word, remainder in the high word. *)
Theorem divu128_quotient plow phigh divisor :
  in_u 64 plow -> in_u 64 phigh -> in_u 64 divisor -> phigh < divisor \/ divisor = 0 ->
  divu128 plow phigh divisor = divu128_int128 plow phigh divisor.
Proof.
  unfold in_u. intros Hl Hh HD Hfit. unfold divu128, divu128_int128.
  destruct (Z.eqb_spec divisor 0) as [->|Hnz]; [done|].
  assert (Z.lor (Z.shiftl phigh 64) plow = phigh * 2 ^ 64 + plow) as ->
    by (rewrite Z.shiftl_mul_pow2 by lia; apply lor_mul_add; lia).
  assert (0 <= (phigh * 2 ^ 64 + plow) / divisor < 2 ^ 64) as Hq
    by (split; [apply Z.div_pos; lia|apply Z.div_lt_upper_bound; nia]).
  pose proof (Z.mod_pos_bound (phigh * 2 ^ 64 + plow) divisor ltac:(lia)) as Hr.
  cbv zeta. rewrite !wrap_small by lia. replace (2 ^ 64 - 1 <? _) with false by lia. cbn [b2z].
  destruct (Z.eqb_spec phigh 0) as [->|]; [done|].
  replace (divisor <? phigh) with false by lia.
  destruct (divu128_loop divisor phigh plow ltac:(lia) ltac:(lia) Hl 64) as (r & q & m & u & -> & El & Hm & Hd & Hq' & Hinv);
    [lia|]. change (64 - Z.of_nat 64) with 0 in *. change (Z.of_nat 64) with 64 in *.
  rewrite Z.pow_0_r in *. assert (m = 0) as -> by lia. assert (u = plow) as -> by lia.
  f_equal; [f_equal|]; rewrite Hinv.
  - rewrite Z.mul_comm. apply (Z.div_unique_pos _ _ _ r); lia.
  - rewrite Z.mul_comm. apply (Z.mod_unique_pos _ _ q); lia.
Qed.

Lemma divu128_quotient_witness : divu128 7 3 10 = (0, 5534023222112865485, 5).
Proof.
  rewrite (divu128_quotient 7 3 10) by (unfold in_u; lia). vm_compute. reflexivity.
Defined.

(** A high word equal to the divisor needs 65 quotient bits, but the test
    [dhi > divisor] lets it through: the portable code answers "no overflow"
    where the other branch reports it. *)
Lemma divu128_equal_high_overflows :
  divu128 0 5 5 = (0, 2 ^ 64 - 1, 5) /\ (divu128_int128 0 5 5).1.1 = 1.
Proof. split; vm_compute; reflexivity. Qed.

(** A quotient of zero with operands of different signs is reported as an
    overflow, because only the sign bit of the quotient is compared. *)
Lemma divs128_zero_quotient_overflows :
  divs128 (-3) (-1) 5 = (1, 0, 3) /\ divs128_int128 (-3) (-1) 5 = (0, 0, -3).
Proof. split; vm_compute; reflexivity. Qed.

(** The other branch sign-extends the low word: a dividend of 2^63 is taken
    for -2^63. *)
Lemma divs128_int128_sign_extends :
  divs128_int128 (- 2 ^ 63) 0 4 = (0, - 2 ^ 61, 0) /\ divs128 (- 2 ^ 63) 0 4 = (0, 2 ^ 61, 0).
Proof. split; vm_compute; reflexivity. Qed.
