(* ===== verification/Bitops.v ===== *)
(** * Bit fields and single bits: include/qemu/bitops.h and util/bitops.c

    A bitmap is the list of its 64-bit words ([unsigned long] on the host).
    Accesses outside the list are undefined behaviour and modelled by
    [Abort], so the theorems also say that the searches stay in bounds. *)
From S2P Require Import Prelude HostUtils.

Abbreviation words := (list Z).
Definition BITS_PER_LONG : Z := 64.

(** [p[k]] and [p[k] = f(p[k])] *)
Definition rd (map : words) (k : Z) : outcome Z :=
  if k <? 0 then Abort else match map !! Z.to_nat k with Some w => Ok w | None => Abort end.
Definition modify_word (f : Z -> Z) (map : words) (k : Z) : outcome words :=
  w ← rd map k; Ok (<[Z.to_nat k := f w]> map).

Definition BIT_MASK (nr : Z) : Z := Z.shiftl 1 (nr mod BITS_PER_LONG).
Definition BIT_WORD (nr : Z) : Z := nr / BITS_PER_LONG.
Definition BITS_TO_LONGS (nr : Z) : Z := (nr + BITS_PER_LONG - 1) / BITS_PER_LONG.

(** [~x] on an [unsigned long] *)
Definition not64 (x : Z) : Z := u64 (Z.lnot x).
Definition ones64 : Z := 2 ^ 64 - 1.

(** ** Single bits *)
Definition set_bit (nr : Z) (map : words) : outcome words :=
  modify_word (fun w => Z.lor w (BIT_MASK nr)) map (BIT_WORD nr).
Definition clear_bit (nr : Z) (map : words) : outcome words :=
  modify_word (fun w => Z.land w (not64 (BIT_MASK nr))) map (BIT_WORD nr).
Definition change_bit (nr : Z) (map : words) : outcome words :=
  modify_word (fun w => Z.lxor w (BIT_MASK nr)) map (BIT_WORD nr).
Definition test_bit (nr : Z) (map : words) : outcome Z :=
  w ← rd map (BIT_WORD nr); Ok (Z.land 1 (Z.shiftr w (Z.land nr (BITS_PER_LONG - 1)))).
Definition test_and_set_bit (nr : Z) (map : words) : outcome (bool * words) :=
  old ← rd map (BIT_WORD nr);
  map ← modify_word (fun _ => Z.lor old (BIT_MASK nr)) map (BIT_WORD nr);
  Ok (negb (Z.land old (BIT_MASK nr) =? 0), map).
Definition test_and_clear_bit (nr : Z) (map : words) : outcome (bool * words) :=
  old ← rd map (BIT_WORD nr);
  map ← modify_word (fun _ => Z.land old (not64 (BIT_MASK nr))) map (BIT_WORD nr);
  Ok (negb (Z.land old (BIT_MASK nr) =? 0), map).
Definition test_and_change_bit (nr : Z) (map : words) : outcome (bool * words) :=
  old ← rd map (BIT_WORD nr);
  map ← modify_word (fun _ => Z.lxor old (BIT_MASK nr)) map (BIT_WORD nr);
  Ok (negb (Z.land old (BIT_MASK nr) =? 0), map).

(** ** Searches

    [result], [size] and [p] only move forward by whole words that lie below
    [size], so no addition here can wrap. *)

(** The label [found_first] of [find_next_bit]. *)
Definition next_found_first (tmp result size : Z) : Z :=
  let tmp := Z.land tmp (Z.shiftr ones64 (BITS_PER_LONG - size)) in
  if tmp =? 0 then result + size else result + ctz64 tmp.

(** The loop over four words at a time: [inr] is a jump to [found_middle]. *)
Fixpoint next_by_four (fuel : nat) (addr : words) (p result size : Z)
    : outcome (Z * Z * Z + Z) :=
  match fuel with
  | O => NoFuel
  | S fuel =>
      if 4 * BITS_PER_LONG <=? size then
        tmp ← rd addr p;
        d1 ← rd addr (p + 1);
        d2 ← rd addr (p + 2);
        d3 ← rd addr (p + 3);
        if negb (tmp =? 0) then Ok (inr (result + ctz64 tmp))
        else if negb (Z.lor (Z.lor d1 d2) d3 =? 0) then Ok (inl (p, result, size))
        else next_by_four fuel addr (p + 4) (result + 4 * BITS_PER_LONG) (size - 4 * BITS_PER_LONG)
      else Ok (inl (p, result, size))
  end.

Fixpoint next_by_one (fuel : nat) (addr : words) (p result size : Z)
    : outcome (Z * Z * Z + Z) :=
  match fuel with
  | O => NoFuel
  | S fuel =>
      if BITS_PER_LONG <=? size then
        tmp ← rd addr p;
        if negb (tmp =? 0) then Ok (inr (result + ctz64 tmp))
        else next_by_one fuel addr (p + 1) (result + BITS_PER_LONG) (size - BITS_PER_LONG)
      else Ok (inl (p, result, size))
  end.

(** Both loops and the tail after them. *)
Definition next_words (addr : words) (p result size : Z) : outcome Z :=
  let fuel := S (Z.to_nat (size / BITS_PER_LONG)) in
  st ← next_by_four fuel addr p result size;
  match st with
  | inr r => Ok r
  | inl (p, result, size) =>
      st ← next_by_one fuel addr p result size;
      match st with
      | inr r => Ok r
      | inl (p, result, size) =>
          if size =? 0 then Ok result
          else tmp ← rd addr p; Ok (next_found_first tmp result size)
      end
  end.

Definition find_next_bit (addr : words) (size offset : Z) : outcome Z :=
  let p := offset / BITS_PER_LONG in
  let result := Z.land offset (not64 (BITS_PER_LONG - 1)) in
  if size <=? offset then Ok size
  else
    let size := size - result in
    let offset := offset mod BITS_PER_LONG in
    if negb (offset =? 0) then
      tmp ← rd addr p;
      let tmp := Z.land tmp (u64 (Z.shiftl ones64 offset)) in
      if size <? BITS_PER_LONG then Ok (next_found_first tmp result size)
      else if negb (tmp =? 0) then Ok (result + ctz64 tmp)
      else next_words addr (p + 1) (result + BITS_PER_LONG) (size - BITS_PER_LONG)
    else next_words addr p result size.

Definition zero_found_first (tmp result size : Z) : Z :=
  let tmp := Z.lor tmp (u64 (Z.shiftl ones64 size)) in
  if tmp =? ones64 then result + size else result + ctz64 (not64 tmp).

Fixpoint zero_words (fuel : nat) (addr : words) (p result size : Z) : outcome Z :=
  match fuel with
  | O => NoFuel
  | S fuel =>
      if negb (Z.land size (not64 (BITS_PER_LONG - 1)) =? 0) then
        tmp ← rd addr p;
        if negb (not64 tmp =? 0) then Ok (result + ctz64 (not64 tmp))
        else zero_words fuel addr (p + 1) (result + BITS_PER_LONG) (size - BITS_PER_LONG)
      else if size =? 0 then Ok result
      else tmp ← rd addr p; Ok (zero_found_first tmp result size)
  end.

Definition find_next_zero_bit (addr : words) (size offset : Z) : outcome Z :=
  let p := offset / BITS_PER_LONG in
  let result := Z.land offset (not64 (BITS_PER_LONG - 1)) in
  if size <=? offset then Ok size
  else
    let size := size - result in
    let offset := offset mod BITS_PER_LONG in
    let fuel := S (Z.to_nat (size / BITS_PER_LONG)) in
    if negb (offset =? 0) then
      tmp ← rd addr p;
      let tmp := Z.lor tmp (Z.shiftr ones64 (BITS_PER_LONG - offset)) in
      if size <? BITS_PER_LONG then Ok (zero_found_first tmp result size)
      else if negb (not64 tmp =? 0) then Ok (result + ctz64 (not64 tmp))
      else zero_words fuel addr (p + 1) (result + BITS_PER_LONG) (size - BITS_PER_LONG)
    else zero_words fuel addr p result size.

(** [while (words)]: from the last whole word down. *)
Fixpoint last_words (n : nat) (addr : words) (size : Z) : outcome Z :=
  match n with
  | O => Ok size
  | S n =>
      tmp ← rd addr (Z.of_nat n);
      if negb (tmp =? 0) then
        Ok (Z.of_nat n * BITS_PER_LONG + BITS_PER_LONG - 1 - clz64 tmp)
      else last_words n addr size
  end.

Definition find_last_bit (addr : words) (size : Z) : outcome Z :=
  let nwords := size / BITS_PER_LONG in
  let rest := Z.land size (BITS_PER_LONG - 1) in
  if negb (rest =? 0) then
    w ← rd addr nwords;
    let tmp := Z.land w (Z.shiftr ones64 (BITS_PER_LONG - rest)) in
    if negb (tmp =? 0) then Ok (nwords * BITS_PER_LONG + BITS_PER_LONG - 1 - clz64 tmp)
    else last_words (Z.to_nat nwords) addr size
  else last_words (Z.to_nat nwords) addr size.

Definition find_first_bit (addr : words) (size : Z) : outcome Z := find_next_bit addr size 0.
Definition find_first_zero_bit (addr : words) (size : Z) : outcome Z := find_next_zero_bit addr size 0.

(** [for (count = 0; w; w >>= 1)] ends after at most 64 turns. *)
Fixpoint hweight_loop (n : nat) (w count : Z) : Z :=
  match n with
  | O => count
  | S n => if w =? 0 then count else hweight_loop n (Z.shiftr w 1) (count + Z.land w 1)
  end.
Definition hweight_long (w : Z) : Z := hweight_loop 64 w 0.

(** ** Rotations and bit fields *)
Definition rol (width word shift : Z) : Z :=
  wrap width (Z.lor (Z.shiftl word shift) (Z.shiftr word (width - shift))).
Definition ror (width word shift : Z) : Z :=
  wrap width (Z.lor (Z.shiftr word shift) (Z.shiftl word (width - shift))).

Definition field_assert (width start length : Z) : outcome unit :=
  c_assert ((0 <=? start) && (0 <? length) && (length <=? width - start)).

Definition extract (width value start length : Z) : outcome Z :=
  _ ← field_assert width start length;
  Ok (Z.land (Z.shiftr value start) (Z.shiftr (2 ^ width - 1) (width - length))).
Definition sextract (width value start length : Z) : outcome Z :=
  _ ← field_assert width start length;
  Ok (Z.shiftr (swrap width (Z.shiftl value (width - length - start))) (width - length)).
Definition deposit (width value start length fieldval : Z) : outcome Z :=
  _ ← field_assert width start length;
  let mask := wrap width (Z.shiftl (Z.shiftr (2 ^ width - 1) (width - length)) start) in
  Ok (Z.lor (Z.land value (wrap width (Z.lnot mask)))
            (Z.land (wrap width (Z.shiftl fieldval start)) mask)).

Definition rol8 := rol 8.
Definition ror8 := ror 8.
Definition rol16 := rol 16.
Definition ror16 := ror 16.
Definition rol32 := rol 32.
Definition ror32 := ror 32.
Definition rol64 := rol 64.
Definition ror64 := ror 64.
Definition extract32 := extract 32.
Definition extract64 := extract 64.
Definition sextract32 := sextract 32.
Definition sextract64 (value start length : Z) : outcome Z := u64 <$> sextract 64 value start length.
Definition deposit32 := deposit 32.
Definition deposit64 := deposit 64.

(** ** The bits of a bitmap *)
Definition words_ok (map : words) : Prop := Forall (in_u 64) map.
Definition nbits (map : words) : Z := 64 * Z.of_nat (length map).

Definition bit (map : words) (i : Z) : bool :=
  match map !! Z.to_nat (i / 64) with Some w => Z.testbit w (i mod 64) | None => false end.

(** [r] is the first index of [a, b) where [f] holds, or [b]. *)
Definition first_from (f : Z -> bool) (a b r : Z) : Prop :=
  a <= r <= b /\ (forall i, a <= i < r -> f i = false) /\ (r < b -> f r = true).

Lemma first_from_unique f a b r1 r2 : first_from f a b r1 -> first_from f a b r2 -> r1 = r2.
Proof.
  intros (H1 & L1 & T1) (H2 & L2 & T2).
  destruct (Z.lt_trichotomy r1 r2) as [Hlt|[?|Hlt]]; [|done|].
  - rewrite L2 in T1 by lia. by specialize (T1 ltac:(lia)).
  - rewrite L1 in T2 by lia. by specialize (T2 ltac:(lia)).
Qed.

(** Nothing before [c]: the search goes on from there. *)
Lemma first_from_skip f a c b r :
  a <= c -> (forall i, a <= i < c -> f i = false) -> first_from f c b r -> first_from f a b r.
Proof.
  intros Hac Hz (Hr & Hl & Ht). split_and!; [lia..| |done].
  intros i Hi. destruct (Z.lt_ge_cases i c); [apply Hz|apply Hl]; lia.
Qed.

Lemma rd_Ok map k : 0 <= k < Z.of_nat (length map) -> words_ok map ->
  exists w, rd map k = Ok w /\ map !! Z.to_nat k = Some w /\ in_u 64 w.
Proof.
  intros Hk Hok. unfold rd. replace (k <? 0) with false by lia.
  destruct (lookup_lt_is_Some_2 map (Z.to_nat k)) as [w Hw]; [lia|].
  exists w. rewrite Hw. split_and!; try done. by apply (Forall_lookup_1 _ _ _ _ Hok Hw).
Qed.

Lemma bit_word map k w j :
  0 <= k -> map !! Z.to_nat k = Some w -> 0 <= j < 64 -> bit map (64 * k + j) = Z.testbit w j.
Proof.
  intros Hk Hw Hj. unfold bit.
  replace ((64 * k + j) / 64) with k by (Z.div_mod_to_equations; lia).
  replace ((64 * k + j) mod 64) with j by (Z.div_mod_to_equations; lia). by rewrite Hw.
Qed.

(** A word all of whose bits in [lo, hi) agree with [f] from [base] on, and
    that has no others. *)
Definition shows (f : Z -> bool) (base lo hi w : Z) : Prop :=
  0 <= lo <= hi /\ hi <= 64 /\ in_u 64 w /\
  forall j, 0 <= j -> Z.testbit w j = if (lo <=? j) && (j <? hi) then f (base + j) else false.

Lemma shows_zero f base lo hi w : shows f base lo hi w -> w = 0 ->
  forall i, base + lo <= i < base + hi -> f i = false.
Proof.
  intros (? & ? & _ & Hb) -> i Hi. specialize (Hb (i - base) ltac:(lia)).
  rewrite Z.bits_0 in Hb. replace ((lo <=? i - base) && (i - base <? hi)) with true in Hb by lia.
  by replace (base + (i - base)) with i in Hb by lia.
Qed.

Lemma shows_first f base lo hi w b : shows f base lo hi w -> w <> 0 -> base + hi <= b ->
  first_from f (base + lo) b (base + ctz64 w).
Proof.
  intros (? & ? & Hw & Hb) Hnz Hle. unfold in_u in Hw.
  destruct (ctz64_trailing w ltac:(lia)) as ((Hr & Ht & Hl) & Hlt).
  set (r := ctz64 w) in *. rewrite (Hb r Hr) in Ht.
  destruct ((lo <=? r) && (r <? hi)) eqn:E; [|done].
  split_and!; [lia..| |by intros _].
  intros i Hi. specialize (Hl (i - base) ltac:(lia)). rewrite Hb in Hl by lia.
  replace ((lo <=? i - base) && (i - base <? hi)) with true in Hl by lia.
  by replace (base + (i - base)) with i in Hl by lia.
Qed.

Lemma ones64_spec : ones64 = Z.ones 64.
Proof. reflexivity. Qed.

Lemma low_mask s : 0 <= s <= 64 -> Z.shiftr ones64 (BITS_PER_LONG - s) = Z.ones s.
Proof.
  intros Hs. rewrite ones64_spec. unfold BITS_PER_LONG. bits.
  destruct (Z.lt_ge_cases i s).
  - rewrite !Z.ones_spec_low by lia. done.
  - rewrite !Z.ones_spec_high by lia. done.
Qed.

Lemma high_mask_bit s i : 0 <= s -> 0 <= i ->
  Z.testbit (u64 (Z.shiftl ones64 s)) i = (s <=? i) && (i <? 64).
Proof.
  intros Hs Hi. rewrite ones64_spec, u64_land. autorewrite with xbits.
  destruct (Z.lt_ge_cases i 64).
  - rewrite (Z.ones_spec_low 64 i) by lia. destruct (Z.leb_spec s i).
    + rewrite Z.ones_spec_low by lia. cbn. lia.
    + rewrite Z.testbit_neg_r by lia. done.
  - rewrite (Z.ones_spec_high 64 i) by lia. lia.
Qed.

Lemma in_u64_land_l a b : in_u 64 a -> 0 <= b -> in_u 64 (Z.land a b).
Proof.
  unfold in_u. intros Ha Hb. split; [apply Z.land_nonneg; lia|].
  destruct (Z.eq_dec (Z.land a b) 0) as [->|]; [lia|].
  apply Z.log2_lt_pow2; [pose proof (proj2 (Z.land_nonneg a b)); lia|].
  eapply Z.le_lt_trans; [apply Z.log2_land; lia|].
  destruct (Z.eq_dec a 0) as [->|]; [by rewrite Z.land_0_l in *|].
  pose proof (proj1 (Z.log2_lt_pow2 a 64 ltac:(lia)) ltac:(lia)). lia.
Qed.

(** The whole word at [k], the part from [lo] on, the part below [hi]. *)
Lemma shows_word map k w : 0 <= k -> map !! Z.to_nat k = Some w -> in_u 64 w ->
  shows (bit map) (64 * k) 0 64 w.
Proof.
  intros Hk Hm Hw. unfold in_u in Hw. split_and!; try lia; [done|]. intros j Hj.
  destruct (Z.ltb_spec j 64).
  - rewrite (bit_word map k w) by (done || lia). by replace (0 <=? j) with true by lia.
  - rewrite andb_false_r. by apply (testbit_high w 64).
Qed.

Lemma shows_below f base lo hi w s : shows f base lo hi w -> lo <= s <= hi ->
  shows f base lo s (Z.land w (Z.ones s)).
Proof.
  intros (? & ? & Hw & Hb) Hs. split_and!; try lia.
  - apply in_u64_land_l; [done|]. rewrite Z.ones_equiv. lia.
  - intros j Hj. rewrite Z.land_spec, Hb by lia. destruct (Z.ltb_spec j s).
    + rewrite Z.ones_spec_low, andb_true_r by lia. by replace (j <? hi) with true by lia.
    + rewrite Z.ones_spec_high, !andb_false_r by lia. done.
Qed.

Lemma shows_above f base w s : shows f base 0 64 w -> 0 <= s <= 64 ->
  shows f base s 64 (Z.land w (u64 (Z.shiftl ones64 s))).
Proof.
  intros (? & ? & Hw & Hb) Hs. split_and!; try lia.
  - apply in_u64_land_l; [done|]. apply wrap_range. lia.
  - intros j Hj. rewrite Z.land_spec, Hb, high_mask_bit by lia.
    destruct (Z.leb_spec s j), (Z.ltb_spec j 64); rewrite ?andb_false_r, ?andb_true_r; cbn;
      try done. by replace (0 <=? j) with true by lia.
Qed.

(** The tail of a search: [size] bits of the word at [base] are left. *)
Lemma next_found_first_spec f base lo w size : shows f base lo 64 w -> lo <= size <= 64 ->
  first_from f (base + lo) (base + size) (next_found_first w base size).
Proof.
  intros Hs Hsz. pose proof Hs as (Hlo & _). unfold next_found_first.
  rewrite low_mask by lia. pose proof (shows_below f base lo 64 w size Hs Hsz) as Hb.
  destruct (Z.eqb_spec (Z.land w (Z.ones size)) 0) as [H0|H0].
  - split_and!; [lia..| |lia]. by apply (shows_zero _ _ _ _ _ Hb).
  - by apply (shows_first _ _ _ _ _ _ Hb).
Qed.

(** From the word [p] on, [total] is the end of the search. *)
Section Search.
Context (map : words).
Hypothesis Hok : words_ok map.

Lemma rd_shows k : 0 <= k < Z.of_nat (length map) ->
  exists w, rd map k = Ok w /\ shows (bit map) (64 * k) 0 64 w.
Proof.
  intros Hk. destruct (rd_Ok map k Hk Hok) as (w & Hr & Hm & Hw).
  exists w. split; [done|]. apply shows_word; [lia|done..].
Qed.

(** What a loop of the search promises: found, or nothing up to where it stopped. *)
Definition search_from (p total : Z) (st : Z * Z * Z + Z) : Prop :=
  match st with
  | inr r => first_from (bit map) (64 * p) total r
  | inl (p', result, size) =>
      result = 64 * p' /\ p <= p' /\ result + size = total /\ 0 <= size /\
      forall i, 64 * p <= i < result -> bit map i = false
  end.

Lemma search_skip p q total st : p <= q ->
  (forall i, 64 * p <= i < 64 * q -> bit map i = false) ->
  search_from q total st -> search_from p total st.
Proof.
  intros Hpq Hz. destruct st as [[[p' result] size]|r]; cbn.
  - intros (? & ? & ? & ? & Hl). split_and!; auto; [lia|]. intros i Hi.
    destruct (Z.lt_ge_cases i (64 * q)); [apply Hz|apply Hl]; lia.
  - apply first_from_skip; [lia|done].
Qed.

Lemma search_stop p total size : 0 <= size -> 64 * p + size = total ->
  search_from p total (inl (p, 64 * p, size)).
Proof. intros. cbn. split_and!; lia. Qed.

Lemma next_by_four_spec : forall fuel p size,
  0 <= p -> 0 <= size -> 64 * p + size <= nbits map -> (Z.to_nat (size / 64) < fuel)%nat ->
  exists st, next_by_four fuel map p (64 * p) size = Ok st /\ search_from p (64 * p + size) st.
Proof.
  unfold nbits. induction fuel as [|fuel IH]; intros p size Hp Hsz Hn Hf; [lia|].
  cbn [next_by_four]. unfold BITS_PER_LONG.
  destruct (Z.leb_spec (4 * 64) size) as [Hge|Hlt]; [|eauto using search_stop].
  destruct (rd_shows p) as (w0 & -> & Hw0); [lia|].
  destruct (rd_shows (p + 1)) as (w1 & -> & Hw1); [lia|].
  destruct (rd_shows (p + 2)) as (w2 & -> & Hw2); [lia|].
  destruct (rd_shows (p + 3)) as (w3 & -> & Hw3); [lia|]. cbn [mbind outcome_bind].
  destruct (Z.eqb_spec w0 0) as [E0|E0]; cbn [negb].
  2: { eexists. split; [done|]. cbn. replace (64 * p) with (64 * p + 0) at 1 by lia.
       apply (shows_first _ _ 0 64); [done..|lia]. }
  destruct (Z.eqb_spec (Z.lor (Z.lor w1 w2) w3) 0) as [E|E]; cbn [negb]; [|eauto using search_stop].
  apply Z.lor_eq_0_iff in E as [[E1 E2]%Z.lor_eq_0_iff E3].
  replace (64 * p + 4 * 64) with (64 * (p + 4)) by lia.
  destruct (IH (p + 4) (size - 4 * 64)) as (st & -> & Hst); [lia..| |].
  { replace (size - 4 * 64) with (size + -4 * 64) by lia. rewrite Z.div_add by lia.
    assert (4 <= size / 64) by (apply Z.div_le_lower_bound; lia). lia. }
  exists st. split; [done|]. apply (search_skip p (p + 4)); [lia| |by replace (64 * p + size) with (64 * (p + 4) + (size - 4 * 64)) by lia].
  intros i Hi.
  destruct (Z.lt_ge_cases i (64 * (p + 1))); [apply (shows_zero _ _ _ _ _ Hw0 E0); lia|].
  destruct (Z.lt_ge_cases i (64 * (p + 2))); [apply (shows_zero _ _ _ _ _ Hw1 E1); lia|].
  destruct (Z.lt_ge_cases i (64 * (p + 3))); [apply (shows_zero _ _ _ _ _ Hw2 E2); lia|].
  apply (shows_zero _ _ _ _ _ Hw3 E3); lia.
Qed.

Lemma next_by_one_spec : forall fuel p size,
  0 <= p -> 0 <= size -> 64 * p + size <= nbits map -> (Z.to_nat (size / 64) < fuel)%nat ->
  exists st, next_by_one fuel map p (64 * p) size = Ok st /\ search_from p (64 * p + size) st /\
    match st with inl (_, _, size) => size < 64 | inr _ => True end.
Proof.
  unfold nbits. induction fuel as [|fuel IH]; intros p size Hp Hsz Hn Hf; [lia|].
  cbn [next_by_one]. unfold BITS_PER_LONG.
  destruct (Z.leb_spec 64 size) as [Hge|Hlt]; [|eauto 6 using search_stop].
  destruct (rd_shows p) as (w0 & -> & Hw0); [lia|]. cbn [mbind outcome_bind].
  destruct (Z.eqb_spec w0 0) as [E0|E0]; cbn [negb].
  2: { eexists. split_and!; [done| |done]. cbn. replace (64 * p) with (64 * p + 0) at 1 by lia.
       apply (shows_first _ _ 0 64); [done..|lia]. }
  replace (64 * p + 64) with (64 * (p + 1)) by lia.
  destruct (IH (p + 1) (size - 64)) as (st & -> & Hst & Hend); [lia..| |].
  { replace (size - 64) with (size + -1 * 64) by lia. rewrite Z.div_add by lia.
    assert (1 <= size / 64) by (apply Z.div_le_lower_bound; lia). lia. }
  exists st. split_and!; [done| |done].
  apply (search_skip p (p + 1)); [lia| |by replace (64 * p + size) with (64 * (p + 1) + (size - 64)) by lia].
  intros i Hi. apply (shows_zero _ _ _ _ _ Hw0 E0); lia.
Qed.

Lemma next_words_spec p size :
  0 <= p -> 0 <= size -> 64 * p + size <= nbits map ->
  exists r, next_words map p (64 * p) size = Ok r /\
    first_from (bit map) (64 * p) (64 * p + size) r.
Proof.
  intros Hp Hsz Hn. unfold next_words, BITS_PER_LONG.
  destruct (next_by_four_spec (S (Z.to_nat (size / 64))) p size) as (st & -> & Hst); [lia..|].
  cbn [mbind outcome_bind]. destruct st as [[[p1 r1] s1]|r]; [|by eauto].
  destruct Hst as (-> & Hp1 & Hs1 & Hs1' & Hz1).
  destruct (next_by_one_spec (S (Z.to_nat (size / 64))) p1 s1) as (st & -> & Hst & Hend); [lia..| |].
  { assert (s1 / 64 <= size / 64) by (apply Z.div_le_mono; lia). lia. }
  rewrite Hs1 in Hst. cbn [mbind outcome_bind]. destruct st as [[[p2 r2] s2]|r].
  2: { exists r. split; [done|]. by apply (first_from_skip _ _ (64 * p1)); [lia| |]. }
  destruct Hst as (-> & Hp2 & Hs2 & Hs2' & Hz2).
  assert (forall i, 64 * p <= i < 64 * p2 -> bit map i = false) as Hz.
  { intros i Hi. destruct (Z.lt_ge_cases i (64 * p1)); [apply Hz1|apply Hz2]; lia. }
  destruct (Z.eqb_spec s2 0) as [->|Hnz].
  - exists (64 * p2). split; [done|]. split_and!; [lia..|done|lia].
  - unfold nbits in Hn. destruct (rd_shows p2) as (w & -> & Hw); [lia|]. cbn [mbind outcome_bind].
    eexists. split; [done|]. apply (first_from_skip _ _ (64 * p2)); [lia|done|].
    pose proof (next_found_first_spec _ _ 0 w s2 Hw ltac:(lia)) as Hf.
    by rewrite Z.add_0_r, Hs2 in Hf.
Qed.

Lemma offset_base offset : 0 <= offset < 2 ^ 64 ->
  Z.land offset (not64 (BITS_PER_LONG - 1)) = 64 * (offset / 64).
Proof.
  intros Ho. change (not64 (BITS_PER_LONG - 1)) with (Z.shiftl (Z.ones 58) 6).
  assert (64 * (offset / 64) = Z.shiftl (Z.shiftr offset 6) 6) as ->.
  { rewrite Z.shiftl_mul_pow2, Z.shiftr_div_pow2 by lia. change (2 ^ 6) with 64. lia. }
  bits. destruct (Z.lt_ge_cases i 6).
  - rewrite !(Z.testbit_neg_r _ (i - 6)) by lia. apply andb_false_r.
  - rewrite Z.shiftr_spec by lia. replace (i - 6 + 6) with i by lia.
    destruct (Z.lt_ge_cases i 64).
    + rewrite Z.ones_spec_low by lia. apply andb_true_r.
    + by rewrite (testbit_high offset 64) by lia.
Qed.

(** The partial first word of a search is skipped or answers it. *)
Lemma find_next_bit_spec size offset :
  0 <= offset -> 0 <= size <= nbits map -> size < 2 ^ 64 ->
  exists r, find_next_bit map size offset = Ok r /\
    (if size <=? offset then r = size else first_from (bit map) offset size r).
Proof.
  intros Ho Hsz H64. unfold find_next_bit. destruct (Z.leb_spec size offset); [by eauto|].
  rewrite offset_base by lia. unfold BITS_PER_LONG.
  set (p := offset / 64). set (o := offset mod 64).
  assert (offset = 64 * p + o /\ 0 <= o < 64 /\ 0 <= p) as (Eo & Hoo & Hp)
    by (split_and!; [apply Z.div_mod; lia|apply Z.mod_pos_bound; lia..|apply Z.div_pos; lia]).
  clearbody p o. unfold nbits in Hsz.
  destruct (Z.eqb_spec o 0) as [->|Hnz]; cbn [negb].
  - destruct (next_words_spec p (size - 64 * p)) as (r & -> & Hr); [lia|lia|unfold nbits; lia|].
    exists r. split; [done|]. by rewrite Eo, Z.add_0_r, Zplus_minus in *.
  - destruct (rd_shows p) as (w & -> & Hw); [lia|]. cbn [mbind outcome_bind].
    pose proof (shows_above _ _ _ o Hw ltac:(lia)) as Ha. set (tmp := Z.land w _) in *.
    destruct (Z.ltb_spec (size - 64 * p) 64).
    + eexists. split; [done|].
      pose proof (next_found_first_spec _ _ o tmp (size - 64 * p) Ha ltac:(lia)) as Hf.
      by rewrite <- Eo, Zplus_minus in Hf.
    + destruct (Z.eqb_spec tmp 0) as [E0|E0]; cbn [negb].
      * replace (64 * p + 64) with (64 * (p + 1)) by lia.
        destruct (next_words_spec (p + 1) (size - 64 * p - 64)) as (r & -> & Hr);
          [lia|lia|unfold nbits; lia|].
        exists r. split; [done|].
        replace (64 * (p + 1) + (size - 64 * p - 64)) with size in Hr by lia.
        apply (first_from_skip _ _ (64 * (p + 1))); [lia| |done].
        intros i Hi. apply (shows_zero _ _ _ _ _ Ha E0). lia.
      * eexists. split; [done|]. rewrite Eo. apply (shows_first _ _ o 64); [done..|lia].
Qed.
End Search.

Lemma not64_ones x : in_u 64 x -> not64 x = ones64 - x.
Proof.
  unfold in_u, not64, ones64, wrap, Z.lnot. intros Hx.
  rewrite <- (Z.mod_add _ 1) by lia. rewrite Z.mod_small; lia.
Qed.

Lemma not64_bit x i : 0 <= i -> Z.testbit (not64 x) i = (i <? 64) && negb (Z.testbit x i).
Proof.
  intros Hi. unfold not64. rewrite u64_land. autorewrite with xbits.
  destruct (Z.ltb_spec i 64).
  - rewrite Z.ones_spec_low by lia. apply andb_true_r.
  - rewrite Z.ones_spec_high by lia. apply andb_false_r.
Qed.

(** The complement of a bitmap's word shows the cleared bits. *)
Lemma shows_not f base w : shows f base 0 64 w -> shows (fun i => negb (f i)) base 0 64 (not64 w).
Proof.
  intros (? & ? & Hw & Hb). split_and!; try lia; [apply wrap_range; lia..|].
  intros j Hj. rewrite not64_bit, Hb by lia.
  destruct (Z.ltb_spec j 64); [|by rewrite andb_false_r].
  by replace (0 <=? j) with true by lia.
Qed.

Lemma in_u64_lor a b : in_u 64 a -> in_u 64 b -> in_u 64 (Z.lor a b).
Proof. by apply lor_range. Qed.

(** Setting bits and complementing is complementing and masking. *)
Lemma not64_lor_high w s : 0 <= s <= 64 ->
  not64 (Z.lor w (u64 (Z.shiftl ones64 s))) = Z.land (not64 w) (Z.ones s).
Proof.
  intros Hs. bits. rewrite !not64_bit, Z.lor_spec, high_mask_bit by lia.
  destruct (Z.ltb_spec i s).
  - rewrite Z.ones_spec_low, andb_true_r by lia. replace (s <=? i) with false by lia.
    by rewrite orb_false_r.
  - rewrite Z.ones_spec_high, andb_false_r by lia. destruct (Z.ltb_spec i 64); [|done].
    replace (s <=? i) with true by lia. by rewrite orb_true_r.
Qed.

Lemma not64_lor_low w s : 0 <= s <= 64 ->
  not64 (Z.lor w (Z.shiftr ones64 (BITS_PER_LONG - s))) =
  Z.land (not64 w) (u64 (Z.shiftl ones64 s)).
Proof.
  intros Hs. rewrite low_mask by lia. bits. rewrite !not64_bit, Z.lor_spec, high_mask_bit by lia.
  destruct (Z.leb_spec s i).
  - rewrite Z.ones_spec_high, orb_false_r by lia. by destruct (i <? 64); rewrite ?andb_true_r.
  - rewrite Z.ones_spec_low, orb_true_r by lia. by rewrite !andb_false_r.
Qed.

Lemma not64_eq0 w : in_u 64 w -> (not64 w =? 0) = (w =? ones64).
Proof. intros Hw. rewrite not64_ones by done. lia. Qed.

Lemma zero_found_first_eq w result size : in_u 64 w -> 0 <= size <= 64 ->
  zero_found_first w result size = next_found_first (not64 w) result size.
Proof.
  intros Hw Hs. unfold zero_found_first, next_found_first. rewrite low_mask by lia.
  rewrite <- not64_eq0 by (apply in_u64_lor; [done|apply wrap_range; lia]).
  by rewrite not64_lor_high by lia.
Qed.

Section ZeroSearch.
Context (map : words).
Hypothesis Hok : words_ok map.

Definition clear_at (i : Z) : bool := negb (bit map i).

Lemma rd_clear k : 0 <= k < Z.of_nat (length map) ->
  exists w, rd map k = Ok w /\ in_u 64 w /\ shows clear_at (64 * k) 0 64 (not64 w).
Proof.
  intros Hk. destruct (rd_shows map Hok k Hk) as (w & Hr & Hs).
  exists w. split_and!; [done|apply Hs..|by apply shows_not].
Qed.

Lemma size_has_word size : 0 <= size < 2 ^ 64 ->
  (Z.land size (not64 (BITS_PER_LONG - 1)) =? 0) = (size <? 64).
Proof. intros Hs. rewrite offset_base by done. Z.div_mod_to_equations. lia. Qed.

Lemma zero_words_spec : forall fuel p size,
  0 <= p -> 0 <= size < 2 ^ 64 -> 64 * p + size <= nbits map -> (Z.to_nat (size / 64) < fuel)%nat ->
  exists r, zero_words fuel map p (64 * p) size = Ok r /\
    first_from clear_at (64 * p) (64 * p + size) r.
Proof.
  unfold nbits. induction fuel as [|fuel IH]; intros p size Hp Hsz Hn Hf; [lia|].
  cbn [zero_words]. rewrite size_has_word by lia. unfold BITS_PER_LONG.
  destruct (Z.ltb_spec size 64) as [Hlt|Hge]; cbn [negb].
  - destruct (Z.eqb_spec size 0) as [->|Hnz].
    + exists (64 * p). split; [done|]. split_and!; lia.
    + destruct (rd_clear p) as (w & -> & Hwu & Hw); [lia|]. cbn [mbind outcome_bind].
      eexists. split; [done|]. rewrite zero_found_first_eq by (done || lia).
      replace (64 * p) with (64 * p + 0) at 1 by lia. apply next_found_first_spec; [done|lia].
  - destruct (rd_clear p) as (w & -> & Hwu & Hw); [lia|]. cbn [mbind outcome_bind].
    destruct (Z.eqb_spec (not64 w) 0) as [E0|E0]; cbn [negb].
    + replace (64 * p + 64) with (64 * (p + 1)) by lia.
      destruct (IH (p + 1) (size - 64)) as (r & -> & Hr); [lia..| |].
      { replace (size - 64) with (size + -1 * 64) by lia. rewrite Z.div_add by lia.
        assert (1 <= size / 64) by (apply Z.div_le_lower_bound; lia). lia. }
      exists r. split; [done|]. replace (64 * (p + 1) + (size - 64)) with (64 * p + size) in Hr by lia.
      apply (first_from_skip _ _ (64 * (p + 1))); [lia| |done].
      intros i Hi. apply (shows_zero _ _ _ _ _ Hw E0). lia.
    + eexists. split; [done|]. replace (64 * p) with (64 * p + 0) at 1 by lia.
      apply (shows_first _ _ 0 64); [done..|lia].
Qed.

Lemma find_next_zero_bit_spec size offset :
  0 <= offset -> 0 <= size <= nbits map -> size < 2 ^ 64 ->
  exists r, find_next_zero_bit map size offset = Ok r /\
    (if size <=? offset then r = size else first_from clear_at offset size r).
Proof.
  intros Ho Hsz H64. unfold find_next_zero_bit. destruct (Z.leb_spec size offset); [by eauto|].
  rewrite offset_base by lia. unfold BITS_PER_LONG.
  set (p := offset / 64). set (o := offset mod 64).
  assert (offset = 64 * p + o /\ 0 <= o < 64 /\ 0 <= p) as (Eo & Hoo & Hp)
    by (split_and!; [apply Z.div_mod; lia|apply Z.mod_pos_bound; lia..|apply Z.div_pos; lia]).
  clearbody p o. unfold nbits in Hsz.
  destruct (Z.eqb_spec o 0) as [->|Hnz]; cbn [negb].
  - destruct (zero_words_spec (S (Z.to_nat ((size - 64 * p) / 64))) p (size - 64 * p))
      as (r & -> & Hr); [lia|lia|unfold nbits; lia|lia|].
    exists r. split; [done|]. by rewrite Eo, Z.add_0_r, Zplus_minus in *.
  - destruct (rd_clear p) as (w & -> & Hwu & Hw); [lia|]. cbn [mbind outcome_bind].
    pose proof (shows_above _ _ _ o Hw ltac:(lia)) as Ha.
    rewrite <- not64_lor_low in Ha by lia. unfold BITS_PER_LONG in Ha. set (tmp := Z.lor w _) in *.
    assert (in_u 64 tmp) as Htu.
    { apply in_u64_lor; [done|]. change 64 with BITS_PER_LONG at 2. rewrite (low_mask o) by lia. unfold in_u. rewrite Z.ones_equiv.
      assert (2 ^ o < 2 ^ 64) by (apply Z.pow_lt_mono_r; lia). lia. }
    destruct (Z.ltb_spec (size - 64 * p) 64).
    + eexists. split; [done|]. rewrite zero_found_first_eq by (done || lia).
      pose proof (next_found_first_spec _ _ o _ (size - 64 * p) Ha ltac:(lia)) as Hf.
      by rewrite <- Eo, Zplus_minus in Hf.
    + destruct (Z.eqb_spec (not64 tmp) 0) as [E0|E0]; cbn [negb].
      * replace (64 * p + 64) with (64 * (p + 1)) by lia.
        destruct (zero_words_spec (S (Z.to_nat ((size - 64 * p) / 64))) (p + 1) (size - 64 * p - 64))
          as (r & -> & Hr); [lia|lia|unfold nbits; lia| |].
        { assert ((size - 64 * p - 64) / 64 <= (size - 64 * p) / 64) by (apply Z.div_le_mono; lia). lia. }
        exists r. split; [done|].
        replace (64 * (p + 1) + (size - 64 * p - 64)) with size in Hr by lia.
        apply (first_from_skip _ _ (64 * (p + 1))); [lia| |done].
        intros i Hi. apply (shows_zero _ _ _ _ _ Ha E0). lia.
      * eexists. split; [done|]. rewrite Eo. apply (shows_first _ _ o 64); [done..|lia].
Qed.
End ZeroSearch.

(** ** The last set bit *)
Lemma shows_last f base lo hi w : shows f base lo hi w -> w <> 0 ->
  lo <= Z.log2 w < hi /\ f (base + Z.log2 w) = true /\
  forall i, base + Z.log2 w < i < base + hi -> f i = false.
Proof.
  intros (? & ? & Hw & Hb) Hnz. unfold in_u in Hw.
  pose proof (Z.log2_nonneg w). pose proof (Z.bit_log2 w ltac:(lia)) as Ht.
  rewrite Hb in Ht by lia. destruct ((lo <=? Z.log2 w) && (Z.log2 w <? hi)) eqn:E; [|done].
  split_and!; [lia..|done|]. intros i Hi.
  pose proof (Z.bits_above_log2 w (i - base) ltac:(lia) ltac:(lia)) as Hz. rewrite Hb in Hz by lia.
  replace ((lo <=? i - base) && (i - base <? hi)) with true in Hz by lia.
  by replace (base + (i - base)) with i in Hz by lia.
Qed.

(** [r] is the last index below [size] where [f] holds, or [size]. *)
Definition last_below (f : Z -> bool) (size r : Z) : Prop :=
  (r = size /\ forall i, 0 <= i < size -> f i = false) \/
  (0 <= r < size /\ f r = true /\ forall i, r < i < size -> f i = false).

Lemma clz64_log2 w : 0 < w -> 63 - clz64 w = Z.log2 w.
Proof.
  intros Hw. unfold clz64, builtin_clz. rewrite (proj2 (Z.eqb_neq w 0)) by lia. lia.
Qed.

Lemma last_words_spec map size : words_ok map -> forall n,
  Z.of_nat n <= Z.of_nat (length map) -> 64 * Z.of_nat n <= size ->
  (forall i, 64 * Z.of_nat n <= i < size -> bit map i = false) ->
  exists r, last_words n map size = Ok r /\ last_below (bit map) size r.
Proof.
  intros Hok. induction n as [|n IH]; intros Hn Hs Hz; cbn [last_words].
  - exists size. split; [done|]. left. split; [done|]. intros i Hi. apply Hz. lia.
  - destruct (rd_shows map Hok (Z.of_nat n)) as (w & -> & Hw); [lia|]. cbn [mbind outcome_bind].
    destruct (Z.eqb_spec w 0) as [E|E]; cbn [negb].
    + apply IH; [lia..|]. intros i Hi. destruct (Z.lt_ge_cases i (64 * Z.of_nat (S n))).
      * apply (shows_zero _ _ _ _ _ Hw E). lia.
      * apply Hz. lia.
    + destruct (shows_last _ _ _ _ _ Hw E) as (Hl & Ht & Habove).
      assert (0 < w) by (destruct Hw as (_ & _ & Hw & _); unfold in_u in Hw; lia).
      eexists. split; [done|]. right.
      replace (Z.of_nat n * BITS_PER_LONG + BITS_PER_LONG - 1 - clz64 w)
        with (64 * Z.of_nat n + Z.log2 w)
        by (unfold BITS_PER_LONG; rewrite <- (clz64_log2 w) by done; lia).
      split_and!; [lia..|done|]. intros i Hi. destruct (Z.lt_ge_cases i (64 * Z.of_nat (S n))).
      * apply Habove. lia.
      * apply Hz. lia.
Qed.

Lemma find_last_bit_spec map size :
  words_ok map -> 0 <= size <= nbits map ->
  exists r, find_last_bit map size = Ok r /\ last_below (bit map) size r.
Proof.
  intros Hok Hsz. unfold find_last_bit, BITS_PER_LONG, nbits in *.
  change (64 - 1) with (Z.ones 6). rewrite Z.land_ones by lia. change (2 ^ 6) with 64.
  set (p := size / 64). set (o := size mod 64).
  assert (size = 64 * p + o /\ 0 <= o < 64 /\ 0 <= p) as (Eo & Hoo & Hp)
    by (split_and!; [apply Z.div_mod; lia|apply Z.mod_pos_bound; lia..|apply Z.div_pos; lia]).
  clearbody p o. destruct (Z.eqb_spec o 0) as [->|Hnz]; cbn [negb].
  - rewrite <- (Z2Nat.id p) in Eo by lia. apply last_words_spec; [done|lia|lia|]. intros i Hi. lia.
  - destruct (rd_shows map Hok p) as (w & -> & Hw); [lia|]. cbn [mbind outcome_bind].
    pose proof (low_mask o ltac:(lia)) as Hlm. unfold BITS_PER_LONG in Hlm. rewrite !Hlm.
    pose proof (shows_below _ _ _ _ _ o Hw ltac:(lia)) as Hb. set (tmp := Z.land w _) in *.
    destruct (Z.eqb_spec tmp 0) as [E|E]; cbn [negb].
    + apply last_words_spec; [done|lia|lia|]. intros i Hi. apply (shows_zero _ _ _ _ _ Hb E). lia.
    + destruct (shows_last _ _ _ _ _ Hb E) as (Hl & Ht & Habove).
      assert (0 < tmp) by (destruct Hb as (_ & _ & Hb & _); unfold in_u in Hb; lia).
      eexists. split; [done|]. right.
      replace (p * 64 + 64 - 1 - clz64 tmp) with (64 * p + Z.log2 tmp)
        by (rewrite <- (clz64_log2 tmp) by done; lia).
      split_and!; [lia..|done|]. intros i Hi. apply Habove. lia.
Qed.

Lemma words_ok_check map :
  forallb (fun w => (0 <=? w) && (w <? 2 ^ 64)) map = true -> words_ok map.
Proof.
  rewrite forallb_forall. intros H. apply Forall_forall. intros w Hw.
  apply list_elem_of_In in Hw. specialize (H w Hw). unfold in_u. lia.
Qed.

(** The word-wise searches of bitops.c return the first set
    bit, the first clear bit and the last set bit in range (the size when
    there is none), and never read outside the bitmap. *)
Theorem bit_searches map size offset :
  words_ok map -> 0 <= offset < size -> size <= nbits map -> size < 2 ^ 64 ->
  exists r1 r2 r3,
    find_next_bit map size offset = Ok r1 /\ first_from (bit map) offset size r1 /\
    find_next_zero_bit map size offset = Ok r2 /\
      first_from (fun i => negb (bit map i)) offset size r2 /\
    find_last_bit map size = Ok r3 /\ last_below (bit map) size r3.
Proof.
  intros Hok Ho Hs H64.
  destruct (find_next_bit_spec map Hok size offset) as (r1 & E1 & H1); [lia..|].
  destruct (find_next_zero_bit_spec map Hok size offset) as (r2 & E2 & H2); [lia..|].
  destruct (find_last_bit_spec map size Hok) as (r3 & E3 & H3); [lia|].
  rewrite (proj2 (Z.leb_gt _ _)) in H1, H2 by lia. exists r1, r2, r3. split_and!; done.
Qed.

Lemma bit_searches_witness :
  exists r1 r2 r3,
    find_next_bit [0; 0; 0; 0; 0; 0x100] 384 3 = Ok r1 /\ r1 = 328 /\
    find_next_zero_bit [2 ^ 64 - 1; 0x7; 0] 192 5 = Ok r2 /\ r2 = 67 /\
    find_last_bit [0; 0; 0; 0; 0; 0x100] 384 = Ok r3 /\ r3 = 328.
Proof.
  destruct (bit_searches [0; 0; 0; 0; 0; 0x100] 384 3) as (r1 & _ & r3 & E1 & _ & _ & _ & E3 & _);
    [by apply words_ok_check|lia|vm_compute; discriminate|lia|].
  destruct (bit_searches [2 ^ 64 - 1; 0x7; 0] 192 5) as (_ & r2 & _ & _ & _ & E2 & _);
    [by apply words_ok_check|lia|vm_compute; discriminate|lia|].
  exists r1, r2, r3. rewrite E1, E2, E3.
  vm_compute in E1, E2, E3. injection E1 as <-. injection E2 as <-. injection E3 as <-.
  split_and!; reflexivity.
Defined.

(** ** Updating words *)
Lemma modify_word_Ok f map k : words_ok map -> 0 <= k < Z.of_nat (length map) ->
  exists w, map !! Z.to_nat k = Some w /\ in_u 64 w /\
    modify_word f map k = Ok (<[Z.to_nat k := f w]> map).
Proof.
  intros Hok Hk. destruct (rd_Ok map k Hk Hok) as (w & Hr & Hm & Hw).
  exists w. split_and!; try done; [apply Hw..|]. unfold modify_word. by rewrite Hr.
Qed.

Lemma bit_insert map k w i : 0 <= k < Z.of_nat (length map) -> 0 <= i ->
  bit (<[Z.to_nat k := w]> map) i = if i / 64 =? k then Z.testbit w (i mod 64) else bit map i.
Proof.
  intros Hk Hi. assert (0 <= i / 64) by (apply Z.div_pos; lia). unfold bit.
  destruct (Z.eqb_spec (i / 64) k) as [->|Hne].
  - rewrite list_lookup_insert_eq; [done|lia].
  - rewrite list_lookup_insert_ne; [done|]. lia.
Qed.

Lemma BIT_MASK_bit nr j : 0 <= j -> Z.testbit (BIT_MASK nr) j = (j =? nr mod 64).
Proof.
  intros Hj. unfold BIT_MASK, BITS_PER_LONG. pose proof (Z.mod_pos_bound nr 64).
  rewrite Z.shiftl_spec by lia. destruct (Z.eqb_spec j (nr mod 64)) as [->|].
  - by rewrite Z.sub_diag.
  - destruct (Z.lt_ge_cases j (nr mod 64)); [apply Z.testbit_neg_r; lia|].
    apply (testbit_high 1 1); lia.
Qed.

Lemma BIT_MASK_range nr : in_u 64 (BIT_MASK nr).
Proof.
  unfold BIT_MASK, BITS_PER_LONG, in_u. pose proof (Z.mod_pos_bound nr 64).
  rewrite Z.shiftl_mul_pow2, Z.mul_1_l by lia. split; [lia|]. apply Z.pow_lt_mono_r; lia.
Qed.

Lemma in_u64_lxor a b : in_u 64 a -> in_u 64 b -> in_u 64 (Z.lxor a b).
Proof.
  intros Ha Hb. assert (Z.lxor a b = u64 (Z.lxor a b)) as ->; [|apply wrap_range; lia].
  rewrite u64_land. unfold in_u in *. bits. destruct (Z.lt_ge_cases i 64).
  - rewrite Z.ones_spec_low by lia. by rewrite andb_true_r.
  - rewrite (testbit_high a 64), (testbit_high b 64) by lia. done.
Qed.

(** Update one word so that only the bit [nr] may change, to [b]. *)
Lemma modify_one_bit f map nr g :
  words_ok map -> 0 <= nr < nbits map ->
  (forall w, in_u 64 w -> in_u 64 (f w) /\ forall j, 0 <= j < 64 ->
     Z.testbit (f w) j = if j =? nr mod 64 then g (Z.testbit w j) else Z.testbit w j) ->
  exists map', modify_word f map (BIT_WORD nr) = Ok map' /\ words_ok map' /\
    length map' = length map /\
    forall i, 0 <= i -> bit map' i = if i =? nr then g (bit map nr) else bit map i.
Proof.
  intros Hok Hnr Hf. unfold BIT_WORD, BITS_PER_LONG, nbits in *.
  assert (0 <= nr / 64 < Z.of_nat (length map)) as Hk
    by (split; [apply Z.div_pos; lia|apply Z.div_lt_upper_bound; lia]).
  destruct (modify_word_Ok f map (nr / 64) Hok Hk) as (w & Hm & Hw & ->).
  destruct (Hf w Hw) as [Hfw Hbit]. eexists. split; [done|]. split_and!.
  - by apply Forall_insert.
  - apply length_insert.
  - intros i Hi. rewrite bit_insert by lia.
    assert (0 <= i mod 64 < 64) by (apply Z.mod_pos_bound; lia).
    pose proof (Z.div_mod i 64). pose proof (Z.div_mod nr 64).
    destruct (Z.eqb_spec (i / 64) (nr / 64)) as [Heq|Hne].
    + rewrite Hbit by lia. unfold bit. rewrite Heq, Hm.
      destruct (Z.eqb_spec (i mod 64) (nr mod 64)), (Z.eqb_spec i nr); try lia; congruence.
    + destruct (Z.eqb_spec i nr); [congruence|done].
Qed.

Lemma set_bit_spec map nr : words_ok map -> 0 <= nr < nbits map ->
  exists map', set_bit nr map = Ok map' /\ words_ok map' /\ length map' = length map /\
    forall i, 0 <= i -> bit map' i = if i =? nr then true else bit map i.
Proof.
  intros Hok Hnr. apply (modify_one_bit _ map nr (fun _ => true)); auto. intros w Hw. split.
  - apply in_u64_lor; [done|apply BIT_MASK_range].
  - intros j Hj. rewrite Z.lor_spec, BIT_MASK_bit by lia. by destruct (_ =? _); rewrite ?orb_true_r, ?orb_false_r.
Qed.

Lemma clear_bit_spec map nr : words_ok map -> 0 <= nr < nbits map ->
  exists map', clear_bit nr map = Ok map' /\ words_ok map' /\ length map' = length map /\
    forall i, 0 <= i -> bit map' i = if i =? nr then false else bit map i.
Proof.
  intros Hok Hnr. apply (modify_one_bit _ map nr (fun _ => false)); auto. intros w Hw. split.
  - apply in_u64_land_l; [done|apply wrap_range; lia].
  - intros j Hj. rewrite Z.land_spec, not64_bit, BIT_MASK_bit by lia.
    replace (j <? 64) with true by lia. by destruct (_ =? _); rewrite ?andb_true_r, ?andb_false_r.
Qed.

Lemma change_bit_spec map nr : words_ok map -> 0 <= nr < nbits map ->
  exists map', change_bit nr map = Ok map' /\ words_ok map' /\ length map' = length map /\
    forall i, 0 <= i -> bit map' i = if i =? nr then negb (bit map nr) else bit map i.
Proof.
  intros Hok Hnr. apply (modify_one_bit _ map nr negb); auto. intros w Hw. split.
  - apply in_u64_lxor; [done|apply BIT_MASK_range].
  - intros j Hj. rewrite Z.lxor_spec, BIT_MASK_bit by lia. by destruct (_ =? _), (Z.testbit w j).
Qed.

Lemma test_bit_spec map nr : words_ok map -> 0 <= nr < nbits map ->
  test_bit nr map = Ok (b2z (bit map nr)).
Proof.
  intros Hok Hnr. unfold test_bit, BIT_WORD, BITS_PER_LONG, nbits in *.
  assert (0 <= nr / 64 < Z.of_nat (length map)) as Hk
    by (split; [apply Z.div_pos; lia|apply Z.div_lt_upper_bound; lia]).
  destruct (rd_Ok map (nr / 64) Hk Hok) as (w & -> & Hm & Hw). cbn [mbind outcome_bind].
  unfold bit. rewrite Hm. change (64 - 1) with (Z.ones 6). rewrite Z.land_ones by lia.
  change (2 ^ 6) with 64. f_equal. pose proof (Z.mod_pos_bound nr 64 ltac:(lia)).
  rewrite Z.land_comm. change 1 with (Z.ones 1). rewrite Z.land_ones by lia.
  rewrite Z.shiftr_div_pow2 by lia.
  rewrite <- Z.testbit_spec' by lia. by destruct (Z.testbit w (nr mod 64)).
Qed.

Lemma test_and_eq map nr (f : Z -> Z) : words_ok map -> 0 <= nr < nbits map ->
  (old ← rd map (BIT_WORD nr);
   map ← modify_word (fun _ => f old) map (BIT_WORD nr);
   Ok (negb (Z.land old (BIT_MASK nr) =? 0), map)) =
  (map' ← modify_word f map (BIT_WORD nr); Ok (bit map nr, map')).
Proof.
  intros Hok Hnr. unfold BIT_WORD, BITS_PER_LONG, nbits in *.
  assert (0 <= nr / 64 < Z.of_nat (length map)) as Hk
    by (split; [apply Z.div_pos; lia|apply Z.div_lt_upper_bound; lia]).
  unfold modify_word. destruct (rd_Ok map (nr / 64) Hk Hok) as (w & -> & Hm & Hw).
  cbn [mbind outcome_bind]. f_equal. f_equal. unfold bit. rewrite Hm.
  pose proof (Z.mod_pos_bound nr 64 ltac:(lia)).
  destruct (Z.testbit w (nr mod 64)) eqn:E.
  - apply negb_true_iff, Z.eqb_neq. intros H0.
    apply (f_equal (fun x => Z.testbit x (nr mod 64))) in H0.
    rewrite Z.land_spec, BIT_MASK_bit, E, Z.eqb_refl, Z.bits_0 in H0 by lia. done.
  - apply negb_false_iff, Z.eqb_eq. bits. rewrite BIT_MASK_bit by lia.
    destruct (Z.eqb_spec i (nr mod 64)) as [->|]; [by rewrite E|apply andb_false_r].
Qed.

(** The single-bit operations set, clear or toggle exactly
    the bit they name, and the test-and-modify variants also return its old
    value. *)
Theorem single_bits map nr : words_ok map -> 0 <= nr < nbits map ->
  test_bit nr map = Ok (b2z (bit map nr)) /\
  exists s c t,
    test_and_set_bit nr map = Ok (bit map nr, s) /\ set_bit nr map = Ok s /\
    test_and_clear_bit nr map = Ok (bit map nr, c) /\ clear_bit nr map = Ok c /\
    test_and_change_bit nr map = Ok (bit map nr, t) /\ change_bit nr map = Ok t /\
    forall i, 0 <= i ->
      bit s i = (if i =? nr then true else bit map i) /\
      bit c i = (if i =? nr then false else bit map i) /\
      bit t i = (if i =? nr then negb (bit map nr) else bit map i).
Proof.
  intros Hok Hnr. split; [by apply test_bit_spec|].
  destruct (set_bit_spec map nr Hok Hnr) as (s & Es & _ & _ & Hs).
  destruct (clear_bit_spec map nr Hok Hnr) as (c & Ec & _ & _ & Hc).
  destruct (change_bit_spec map nr Hok Hnr) as (t & Et & _ & _ & Ht).
  exists s, c, t. unfold test_and_set_bit, test_and_clear_bit, test_and_change_bit.
  rewrite (test_and_eq map nr (fun old => Z.lor old (BIT_MASK nr)) Hok Hnr).
  rewrite (test_and_eq map nr (fun old => Z.land old (not64 (BIT_MASK nr))) Hok Hnr).
  rewrite (test_and_eq map nr (fun old => Z.lxor old (BIT_MASK nr)) Hok Hnr).
  fold (set_bit nr map) (clear_bit nr map) (change_bit nr map). rewrite Es, Ec, Et.
  split_and!; try done. intros i Hi. by rewrite Hs, Hc, Ht by done.
Qed.

Lemma single_bits_witness :
  exists s, test_and_set_bit 70 [5; 9] = Ok (false, s) /\ bit s 70 = true /\ bit s 64 = true.
Proof.
  destruct (single_bits [5; 9] 70) as (_ & s & c & t & E & _ & _ & _ & _ & _ & Hs);
    [by apply words_ok_check|split; [lia|vm_compute; reflexivity]|].
  exists s. split; [exact E|].
  destruct (Hs 70 ltac:(lia)) as [-> _]. destruct (Hs 64 ltac:(lia)) as [-> _].
  split; reflexivity.
Defined.

(** ** Bit fields *)
Lemma field_ones width length : 0 < length <= width ->
  Z.shiftr (2 ^ width - 1) (width - length) = Z.ones length.
Proof.
  intros Hl. replace (2 ^ width - 1) with (Z.ones width) by (rewrite Z.ones_equiv; lia). bits.
  destruct (Z.lt_ge_cases i length).
  - rewrite !Z.ones_spec_low by lia. done.
  - rewrite !Z.ones_spec_high by lia. done.
Qed.

Lemma wrap_bit w z i : 0 <= w -> 0 <= i -> Z.testbit (wrap w z) i = (i <? w) && Z.testbit z i.
Proof.
  intros Hw Hi. rewrite wrap_land, Z.land_spec by lia. destruct (Z.ltb_spec i w).
  - rewrite Z.ones_spec_low by lia. apply andb_true_r.
  - rewrite Z.ones_spec_high by lia. apply andb_false_r.
Qed.

Lemma ones_bit n i : 0 <= n -> 0 <= i -> Z.testbit (Z.ones n) i = (i <? n).
Proof.
  intros Hn Hi. destruct (Z.ltb_spec i n); [apply Z.ones_spec_low|apply Z.ones_spec_high]; lia.
Qed.

Section Fields.
Context (width value start length : Z).
Hypothesis Hf : 0 <= start /\ 0 < length <= width - start.

Lemma field_assert_Ok : field_assert width start length = Ok tt.
Proof.
  unfold field_assert. replace ((0 <=? start) && (0 <? length) && (length <=? width - start)) with true
    by lia. done.
Qed.

Lemma extract_spec : extract width value start length = Ok (value / 2 ^ start mod 2 ^ length).
Proof.
  unfold extract. rewrite field_assert_Ok. cbn [mbind outcome_bind].
  rewrite field_ones, Z.land_ones, Z.shiftr_div_pow2 by lia. done.
Qed.

Lemma deposit_bits fieldval :
  exists v, deposit width value start length fieldval = Ok v /\ in_u width v /\
    forall i, 0 <= i < width -> Z.testbit v i =
      if (start <=? i) && (i <? start + length) then Z.testbit fieldval (i - start)
      else Z.testbit value i.
Proof.
  unfold deposit. rewrite field_assert_Ok. cbn [mbind outcome_bind]. rewrite field_ones by lia.
  set (v := Z.lor _ _).
  assert (Hb : forall i, 0 <= i -> Z.testbit v i = (i <? width) &&
    if (start <=? i) && (i <? start + length) then Z.testbit fieldval (i - start)
    else Z.testbit value i).
  { intros i Hi. unfold v. autorewrite with xbits. rewrite !wrap_bit by lia.
    autorewrite with xbits. rewrite !wrap_bit by lia. autorewrite with xbits.
    destruct (Z.ltb_spec i width); cbn [andb negb]; [|by rewrite !andb_false_r].
    destruct (Z.leb_spec start i).
    - rewrite ones_bit by lia. replace (i - start <? length) with (i <? start + length) by lia.
      destruct (Z.ltb_spec i (start + length)); cbn [andb negb];
        rewrite ?andb_true_r, ?andb_false_r, ?orb_false_r; done.
    - rewrite !(Z.testbit_neg_r _ (i - start)) by lia. cbn. by rewrite andb_true_r, orb_false_r. }
  exists v. split_and!; [done| |].
  - assert (v = wrap width v) as ->; [|apply wrap_range; lia].
    apply Z.bits_inj'. intros i Hi. rewrite wrap_bit by lia. rewrite !Hb by lia.
    by destruct (i <? width).
  - intros i Hi. rewrite Hb by lia. by replace (i <? width) with true by lia.
Qed.

(** The low junk of a shifted field does not reach its sign. *)
Lemma swrap_shift k q junk l : 0 <= k -> 1 <= l -> 0 <= junk < 2 ^ k ->
  swrap (k + l) (2 ^ k * q + junk) = 2 ^ k * swrap l q + junk.
Proof.
  intros Hk Hl Hj. unfold swrap. replace (k + l - 1) with (k + (l - 1)) by lia.
  rewrite !(Z.pow_add_r 2 k) by lia.
  replace (2 ^ k * q + junk + 2 ^ k * 2 ^ (l - 1)) with (junk + (q + 2 ^ (l - 1)) * 2 ^ k) by ring.
  rewrite Z.rem_mul_r by lia. rewrite Z.mod_add, Z.div_add by lia.
  rewrite (Z.mod_small junk), (Z.div_small junk) by lia. rewrite Z.add_0_l. ring.
Qed.

Lemma sextract_spec : sextract width value start length = Ok (swrap length (value / 2 ^ start)).
Proof.
  unfold sextract. rewrite field_assert_Ok. cbn [mbind outcome_bind]. f_equal.
  rewrite Z.shiftl_mul_pow2 by lia.
  pose proof (Z.div_mod value (2 ^ start) ltac:(lia)) as Hd.
  pose proof (Z.mod_pos_bound value (2 ^ start) ltac:(lia)) as Hm.
  set (q := value / 2 ^ start) in *. set (r := value mod 2 ^ start) in *.
  assert (2 ^ (width - length) = 2 ^ start * 2 ^ (width - length - start)) as Hp
    by (rewrite <- Z.pow_add_r by lia; f_equal; lia).
  assert (0 < 2 ^ (width - length - start)) by lia.
  replace (value * 2 ^ (width - length - start))
    with (2 ^ (width - length) * q + r * 2 ^ (width - length - start)) by (rewrite Hp, Hd at 1; lia).
  replace width with ((width - length) + length) at 1 by lia.
  rewrite swrap_shift by nia. rewrite Z.shiftr_div_pow2 by lia.
  symmetry. apply (Z.div_unique_pos _ _ _ (r * 2 ^ (width - length - start))); nia.
Qed.
End Fields.

Lemma swrap_mod l a b : 1 <= l -> a mod 2 ^ l = b mod 2 ^ l -> swrap l a = swrap l b.
Proof. intros Hl H. unfold swrap. f_equal. by rewrite Zplus_mod, H, <- Zplus_mod. Qed.

(** Depositing a bit field and extracting it returns the low
    bits of the value deposited, the signed extraction its sign-extended
    value, every bit outside the field is kept, and an ill-formed field trips
    the assertion instead. *)
Theorem bitfield_roundtrip width value start length fieldval :
  0 <= start /\ 0 < length <= width - start ->
  exists v, deposit width value start length fieldval = Ok v /\
    extract width v start length = Ok (fieldval mod 2 ^ length) /\
    sextract width v start length = Ok (swrap length fieldval) /\
    (forall i, 0 <= i < width -> ~ (start <= i < start + length) ->
       Z.testbit v i = Z.testbit value i) /\
    deposit width value start (width - start + 1) fieldval = Abort.
Proof.
  intros Hf. destruct (deposit_bits width value start length Hf fieldval) as (v & E & Hvu & Hb).
  exists v. split; [done|].
  assert (v / 2 ^ start mod 2 ^ length = fieldval mod 2 ^ length) as Hx.
  { rewrite <- Z.shiftr_div_pow2, <- !Z.land_ones by lia. bits. rewrite ones_bit by lia.
    destruct (Z.ltb_spec i length); [|by rewrite !andb_false_r]. rewrite Hb by lia.
    replace ((start <=? i + start) && (i + start <? start + length)) with true by lia.
    by replace (i + start - start) with i by lia. }
  split_and!.
  - rewrite extract_spec by done. by rewrite Hx.
  - rewrite sextract_spec by done. f_equal. apply swrap_mod; [lia|done].
  - intros i Hi Hout. rewrite Hb by lia.
    by replace ((start <=? i) && (i <? start + length)) with false by lia.
  - unfold deposit, field_assert.
    replace ((0 <=? start) && (0 <? width - start + 1) && (width - start + 1 <=? width - start))
      with false by lia. done.
Qed.

Lemma bitfield_roundtrip_witness :
  exists v, deposit32 0xffffffff 8 4 0x1a = Ok v /\ extract32 v 8 4 = Ok 0xa /\
    sextract32 v 8 4 = Ok (-6).
Proof.
  destruct (bitfield_roundtrip 32 0xffffffff 8 4 0x1a) as (v & E & H1 & H2 & _); [lia|].
  exists v. split; [exact E|]. split; [exact H1|exact H2].
Defined.

(** ** Rotations *)
Lemma rol_bit width word shift i : in_u width word -> 0 < shift < width -> 0 <= i < width ->
  Z.testbit (rol width word shift) i = Z.testbit word ((i - shift) mod width).
Proof.
  unfold in_u. intros Hw Hs Hi. unfold rol. rewrite wrap_bit by lia. autorewrite with xbits.
  replace (i <? width) with true by lia. cbn [andb].
  destruct (Z.lt_ge_cases i shift).
  - rewrite Z.testbit_neg_r by lia. cbn [orb].
    rewrite <- (Z.mod_add (i - shift) 1), Z.mod_small by lia. f_equal. lia.
  - rewrite (testbit_high word width (i + (width - shift))) by lia.
    rewrite orb_false_r, Z.mod_small by lia. done.
Qed.

Lemma ror_bit width word shift i : in_u width word -> 0 < shift < width -> 0 <= i < width ->
  Z.testbit (ror width word shift) i = Z.testbit word ((i + shift) mod width).
Proof.
  unfold in_u. intros Hw Hs Hi. unfold ror. rewrite wrap_bit by lia. autorewrite with xbits.
  replace (i <? width) with true by lia. cbn [andb].
  destruct (Z.lt_ge_cases (i + shift) width).
  - rewrite (Z.testbit_neg_r word (i - _)) by lia. rewrite orb_false_r, Z.mod_small by lia. done.
  - rewrite (testbit_high word width (i + shift)) by lia. cbn [orb].
    rewrite <- (Z.mod_add (i + shift) (-1)), Z.mod_small by lia. f_equal. lia.
Qed.

(** A rotation moves every bit by the shift around the width,
    and rotating left and right by the same amount is the identity. *)
Theorem rotate_roundtrip width word shift :
  in_u width word -> 0 < shift < width ->
  (forall i, 0 <= i < width ->
     Z.testbit (rol width word shift) i = Z.testbit word ((i - shift) mod width)) /\
  ror width (rol width word shift) shift = word /\ rol width (ror width word shift) shift = word.
Proof.
  intros Hw Hs. split; [intros; by apply rol_bit|].
  assert (Hr : forall x, in_u width (wrap width x)) by (intros; apply wrap_range; lia).
  assert (Hext : forall x, in_u width x -> (forall i, 0 <= i < width ->
            Z.testbit x i = Z.testbit word i) -> x = word).
  { unfold in_u in *. intros x Hx He. bits. destruct (Z.lt_ge_cases i width); [apply He; lia|].
    rewrite (testbit_high x width), (testbit_high word width) by lia. done. }
  split; apply Hext; try apply Hr; intros i Hi.
  - rewrite ror_bit, rol_bit by (done || apply Hr || (apply Z.mod_pos_bound; lia)).
    rewrite Zminus_mod_idemp_l. f_equal. rewrite Z.mod_small by lia. lia.
  - rewrite rol_bit, ror_bit by (done || apply Hr || (apply Z.mod_pos_bound; lia)).
    rewrite Zplus_mod_idemp_l. f_equal. rewrite Z.mod_small by lia. lia.
Qed.

Lemma rotate_roundtrip_witness : rol32 0x80000001 4 = 0x18 /\ ror32 (rol32 0x80000001 4) 4 = 0x80000001.
Proof.
  destruct (rotate_roundtrip 32 0x80000001 4) as (_ & H & _); [unfold in_u; lia..|].
  split; [vm_compute; reflexivity|exact H].
Defined.

(** ** Counting set bits *)

(** The number of indices of [a, b) where [f] holds. *)
Fixpoint cntn (f : Z -> bool) (a : Z) (n : nat) : Z :=
  match n with O => 0 | S n => b2z (f a) + cntn f (a + 1) n end.
Definition cnt (f : Z -> bool) (a b : Z) : Z := cntn f a (Z.to_nat (b - a)).

Lemma cnt_nil f a : cnt f a a = 0.
Proof. unfold cnt. by rewrite Z.sub_diag. Qed.

Lemma cnt_step f a b : a < b -> cnt f a b = b2z (f a) + cnt f (a + 1) b.
Proof. intros. unfold cnt. by replace (Z.to_nat (b - a)) with (S (Z.to_nat (b - (a + 1)))) by lia. Qed.

Lemma cnt_split f m b : forall n a, Z.to_nat (m - a) = n -> a <= m <= b -> cnt f a b = cnt f a m + cnt f m b.
Proof.
  induction n as [|n IH]; intros a Hn Hm.
  - assert (a = m) as -> by lia. by rewrite cnt_nil.
  - rewrite (cnt_step f a b), (cnt_step f a m), (IH (a + 1)) by lia. lia.
Qed.

Lemma cnt_ext f g b : forall n a, Z.to_nat (b - a) = n ->
  (forall k, a <= k < b -> f k = g k) -> cnt f a b = cnt g a b.
Proof.
  induction n as [|n IH]; intros a Hn He.
  - unfold cnt. by rewrite Hn.
  - rewrite (cnt_step f), (cnt_step g), (IH (a + 1)), He by (done || lia || (intros; apply He; lia)). done.
Qed.

Lemma cnt_false f b : forall n a, Z.to_nat (b - a) = n ->
  (forall k, a <= k < b -> f k = false) -> cnt f a b = 0.
Proof.
  induction n as [|n IH]; intros a Hn He.
  - unfold cnt. by rewrite Hn.
  - rewrite cnt_step, (IH (a + 1)), He by (done || lia || (intros; apply He; lia)). done.
Qed.

Lemma cnt_const (b : bool) a c : cnt (fun _ => b) a c = if b then Z.max 0 (c - a) else 0.
Proof.
  unfold cnt. replace (Z.max 0 (c - a)) with (Z.of_nat (Z.to_nat (c - a))) by lia.
  generalize (Z.to_nat (c - a)). intros n. revert a.
  induction n as [|n IH]; intros a; cbn [cntn]; [by destruct b|]. rewrite IH. destruct b; cbn [b2z]; lia.
Qed.

Lemma cnt_bound f b : forall n a, Z.to_nat (b - a) = n -> 0 <= cnt f a b <= Z.max 0 (b - a).
Proof.
  induction n as [|n IH]; intros a Hn.
  - unfold cnt. rewrite Hn. cbn. lia.
  - rewrite cnt_step by lia. specialize (IH (a + 1) ltac:(lia)). unfold b2z. destruct (f a); lia.
Qed.

Lemma cnt_shift f d b : forall n a, Z.to_nat (b - a) = n ->
  cnt (fun k => f (d + k)) a b = cnt f (d + a) (d + b).
Proof.
  induction n as [|n IH]; intros a Hn.
  - unfold cnt. replace (d + b - (d + a)) with (b - a) by lia. by rewrite Hn.
  - rewrite (cnt_step f), cnt_step, (IH (a + 1)) by lia. by rewrite Z.add_assoc.
Qed.

(** The population count of a word counts its bits. *)
Lemma popcount_cnt n : forall v, 0 <= v -> builtin_popcount n v = cnt (Z.testbit v) 0 (Z.of_nat n).
Proof.
  induction n as [|n IH]; intros v Hv; [done|]. cbn [builtin_popcount].
  rewrite cnt_step, IH by (try apply Z.div_pos; lia).
  rewrite <- (Z.bit0_mod v). f_equal. symmetry.
  transitivity (cnt (fun k => Z.testbit v (1 + k)) 0 (Z.of_nat n)).
  - rewrite (cnt_shift (Z.testbit v) 1 (Z.of_nat n) _ 0 eq_refl). f_equal. lia.
  - apply (cnt_ext _ _ _ _ 0 eq_refl). intros k Hk. rewrite <- Z.div2_div, Z.div2_spec, Z.shiftr_spec by lia.
    f_equal. lia.
Qed.

Lemma shows_popcount f base lo hi w : shows f base lo hi w -> ctpop64 w = cnt f (base + lo) (base + hi).
Proof.
  intros (Hlo & Hhi & Hw & Hb). unfold ctpop64. unfold in_u in Hw. rewrite popcount_cnt by lia.
  change (Z.of_nat 64) with 64.
  rewrite (cnt_split _ lo 64 _ 0 eq_refl), (cnt_split _ hi 64 _ lo eq_refl) by lia.
  rewrite (cnt_false _ lo _ 0 eq_refl), (cnt_false _ 64 _ hi eq_refl).
  - rewrite <- (cnt_shift f base hi _ lo eq_refl), Z.add_0_l, Z.add_0_r.
    apply (cnt_ext _ _ _ _ lo eq_refl). intros k Hk. rewrite Hb by lia.
    by replace ((lo <=? k) && (k <? hi)) with true by lia.
  - intros k Hk. rewrite Hb by lia. by replace ((lo <=? k) && (k <? hi)) with false by lia.
  - intros k Hk. rewrite Hb by lia. by replace ((lo <=? k) && (k <? hi)) with false by lia.
Qed.
