(* ===== verification/Bitmap.v ===== *)
(** * Bitmaps: util/bitmap.c and include/qemu/bitmap.h

    Operations on ranges of bits and on whole bitmaps, over the word lists of
    Bitops.v.  A destination is the list of words before the call; the words
    the code does not write keep their value. *)
From S2P Require Import Prelude HostUtils Bitops.

Definition BITMAP_FIRST_WORD_MASK (start : Z) : Z := u64 (Z.shiftl ones64 (start mod BITS_PER_LONG)).
Definition BITMAP_LAST_WORD_MASK (nbits : Z) : Z :=
  if negb (nbits mod BITS_PER_LONG =? 0) then Z.shiftl 1 (nbits mod BITS_PER_LONG) - 1 else ones64.
Definition small_nbits (nbits : Z) : bool := nbits <=? BITS_PER_LONG.

(** ** Ranges of bits

    The loop shared by [bitmap_set] and [bitmap_clear]: [op] combines a word
    with a mask.  It returns the position, the bits left and the mask. *)
Fixpoint area_loop (fuel : nat) (op : Z -> Z -> Z) (map : words) (p nr bits mask : Z)
    : outcome (words * Z * Z * Z) :=
  match fuel with
  | O => NoFuel
  | S fuel =>
      if 0 <=? nr - bits then
        map ← modify_word (fun w => op w mask) map p;
        area_loop fuel op map (p + 1) (nr - bits) BITS_PER_LONG ones64
      else Ok (map, p, nr, mask)
  end.

Definition set_op (w mask : Z) : Z := Z.lor w mask.
Definition clear_op (w mask : Z) : Z := Z.land w (not64 mask).

Definition bitmap_area (op : Z -> Z -> Z) (map : words) (start nr : Z) : outcome words :=
  let size := start + nr in
  st ← area_loop (S (S (Z.to_nat (nr / BITS_PER_LONG)))) op map (BIT_WORD start) nr
         (BITS_PER_LONG - start mod BITS_PER_LONG) (BITMAP_FIRST_WORD_MASK start);
  let '(map, p, nr, mask) := st in
  if negb (nr =? 0) then modify_word (fun w => op w (Z.land mask (BITMAP_LAST_WORD_MASK size))) map p
  else Ok map.

Definition bitmap_set (map : words) (start nr : Z) : outcome words := bitmap_area set_op map start nr.
Definition bitmap_clear (map : words) (start nr : Z) : outcome words := bitmap_area clear_op map start nr.

(** [g_realloc] keeps the old words; the new ones are arbitrary. *)
Definition bitmap_zero_extend (realloc : words) (old_nbits new_nbits : Z) : outcome words :=
  bitmap_clear realloc old_nbits (new_nbits - old_nbits).

Definition ALIGN_MASK (x mask : Z) : Z := Z.land (x + mask) (not64 mask).

(** The label [again]: every turn starts at least one bit further on. *)
Fixpoint zero_area_loop (fuel : nat) (map : words) (size start nr align_mask : Z) : outcome Z :=
  match fuel with
  | O => NoFuel
  | S fuel =>
      index ← find_next_zero_bit map size start;
      let index := ALIGN_MASK index align_mask in
      let end_ := index + nr in
      if size <? end_ then Ok end_
      else
        i ← find_next_bit map end_ index;
        if i <? end_ then zero_area_loop fuel map size (i + 1) nr align_mask
        else Ok index
  end.

Definition bitmap_find_next_zero_area (map : words) (size start nr align_mask : Z) : outcome Z :=
  zero_area_loop (S (Z.to_nat (size - start))) map size start nr align_mask.

(** ** Whole bitmaps *)

(** [for (k = 0; k < lim; ++k) if (test(k)) return ...;] then the last,
    partial word under its mask: does [test] hold anywhere? *)
Fixpoint any_word (n : nat) (k : Z) (test : Z -> outcome bool) : outcome bool :=
  match n with
  | O => Ok false
  | S n => b ← test k; if (b : bool) then Ok true else any_word n (k + 1) test
  end.

Definition scan (bits : Z) (word : Z -> outcome Z) : outcome bool :=
  let lim := bits / BITS_PER_LONG in
  found ← any_word (Z.to_nat lim) 0 (fun k => w ← word k; Ok (negb (w =? 0)));
  if (found : bool) then Ok true
  else if negb (bits mod BITS_PER_LONG =? 0) then
    w ← word lim; Ok (negb (Z.land w (BITMAP_LAST_WORD_MASK bits) =? 0))
  else Ok false.

Definition slow_bitmap_empty (bitmap : words) (bits : Z) : outcome bool :=
  negb <$> scan bits (rd bitmap).
Definition slow_bitmap_full (bitmap : words) (bits : Z) : outcome bool :=
  negb <$> scan bits (fun k => w ← rd bitmap k; Ok (not64 w)).
Definition slow_bitmap_equal (bitmap1 bitmap2 : words) (bits : Z) : outcome bool :=
  negb <$> scan bits (fun k => w1 ← rd bitmap1 k; w2 ← rd bitmap2 k; Ok (Z.lxor w1 w2)).
Definition slow_bitmap_intersects (bitmap1 bitmap2 : words) (bits : Z) : outcome bool :=
  scan bits (fun k => w1 ← rd bitmap1 k; w2 ← rd bitmap2 k; Ok (Z.land w1 w2)).

(** [for (k = 0; k < nr; k++) dst[k] = word(k);], with the or of the words. *)
Fixpoint store_words (n : nat) (k : Z) (dst : words) (word : Z -> outcome Z) (result : Z)
    : outcome (words * Z) :=
  match n with
  | O => Ok (dst, result)
  | S n =>
      w ← word k;
      dst ← modify_word (fun _ => w) dst k;
      store_words n (k + 1) dst word (Z.lor result w)
  end.

Definition word2 (op : Z -> Z -> Z) (bitmap1 bitmap2 : words) (k : Z) : outcome Z :=
  w1 ← rd bitmap1 k; w2 ← rd bitmap2 k; Ok (op w1 w2).
Definition andnot64 (a b : Z) : Z := Z.land a (not64 b).

Definition slow_bitmap_binop (op : Z -> Z -> Z) (dst bitmap1 bitmap2 : words) (bits : Z)
    : outcome (words * bool) :=
  '(dst, result) ← store_words (Z.to_nat (BITS_TO_LONGS bits)) 0 dst (word2 op bitmap1 bitmap2) 0;
  Ok (dst, negb (result =? 0)).

Definition slow_bitmap_and := slow_bitmap_binop Z.land.
Definition slow_bitmap_andnot := slow_bitmap_binop andnot64.
Definition slow_bitmap_or (dst bitmap1 bitmap2 : words) (bits : Z) : outcome words :=
  fst <$> slow_bitmap_binop Z.lor dst bitmap1 bitmap2 bits.
Definition slow_bitmap_xor (dst bitmap1 bitmap2 : words) (bits : Z) : outcome words :=
  fst <$> slow_bitmap_binop Z.lxor dst bitmap1 bitmap2 bits.

Definition slow_bitmap_complement (dst src : words) (bits : Z) : outcome words :=
  let lim := bits / BITS_PER_LONG in
  '(dst, _) ← store_words (Z.to_nat lim) 0 dst (fun k => w ← rd src k; Ok (not64 w)) 0;
  if negb (bits mod BITS_PER_LONG =? 0) then
    w ← rd src lim;
    modify_word (fun _ => Z.land (not64 w) (BITMAP_LAST_WORD_MASK bits)) dst lim
  else Ok dst.

(** ** The inline fast paths of bitmap.h: one word is handled directly *)
Definition bitmap_new (nbits : Z) : words := replicate (Z.to_nat (BITS_TO_LONGS nbits)) 0.

Definition bitmap_zero (dst : words) (nbits : Z) : outcome words :=
  if small_nbits nbits then modify_word (fun _ => 0) dst 0
  else fst <$> store_words (Z.to_nat (BITS_TO_LONGS nbits)) 0 dst (fun _ => Ok 0) 0.
Definition bitmap_fill (dst : words) (nbits : Z) : outcome words :=
  let nlongs := BITS_TO_LONGS nbits in
  dst ← (if small_nbits nbits then Ok dst
         else fst <$> store_words (Z.to_nat (nlongs - 1)) 0 dst (fun _ => Ok ones64) 0);
  modify_word (fun _ => BITMAP_LAST_WORD_MASK nbits) dst (nlongs - 1).
Definition bitmap_copy (dst src : words) (nbits : Z) : outcome words :=
  if small_nbits nbits then w ← rd src 0; modify_word (fun _ => w) dst 0
  else fst <$> store_words (Z.to_nat (BITS_TO_LONGS nbits)) 0 dst (rd src) 0.

Definition bitmap_binop (op : Z -> Z -> Z) (dst src1 src2 : words) (nbits : Z)
    : outcome (words * bool) :=
  if small_nbits nbits then
    w ← word2 op src1 src2 0; dst ← modify_word (fun _ => w) dst 0; Ok (dst, negb (w =? 0))
  else slow_bitmap_binop op dst src1 src2 nbits.
Definition bitmap_and := bitmap_binop Z.land.
Definition bitmap_andnot := bitmap_binop andnot64.
Definition bitmap_or (dst src1 src2 : words) (nbits : Z) : outcome words :=
  fst <$> bitmap_binop Z.lor dst src1 src2 nbits.
Definition bitmap_xor (dst src1 src2 : words) (nbits : Z) : outcome words :=
  fst <$> bitmap_binop Z.lxor dst src1 src2 nbits.
Definition bitmap_complement (dst src : words) (nbits : Z) : outcome words :=
  if small_nbits nbits then
    w ← rd src 0; modify_word (fun _ => Z.land (not64 w) (BITMAP_LAST_WORD_MASK nbits)) dst 0
  else slow_bitmap_complement dst src nbits.

(** [! (word & BITMAP_LAST_WORD_MASK(nbits))] on the first word. *)
Definition first_word_clear (word : outcome Z) (nbits : Z) : outcome bool :=
  w ← word; Ok (Z.land w (BITMAP_LAST_WORD_MASK nbits) =? 0).
Definition bitmap_equal (src1 src2 : words) (nbits : Z) : outcome bool :=
  if small_nbits nbits then first_word_clear (word2 Z.lxor src1 src2 0) nbits
  else slow_bitmap_equal src1 src2 nbits.
Definition bitmap_empty (src : words) (nbits : Z) : outcome bool :=
  if small_nbits nbits then first_word_clear (rd src 0) nbits else slow_bitmap_empty src nbits.
Definition bitmap_full (src : words) (nbits : Z) : outcome bool :=
  if small_nbits nbits then first_word_clear (w ← rd src 0; Ok (not64 w)) nbits
  else slow_bitmap_full src nbits.
Definition bitmap_intersects (src1 src2 : words) (nbits : Z) : outcome bool :=
  if small_nbits nbits then negb <$> first_word_clear (word2 Z.land src1 src2 0) nbits
  else slow_bitmap_intersects src1 src2 nbits.

(** ** Setting and clearing a range *)

(** [op] writes [b] under the mask and keeps the rest. *)
Definition writes (op : Z -> Z -> Z) (b : bool) : Prop :=
  forall w m, in_u 64 w -> in_u 64 m -> in_u 64 (op w m) /\
    forall j, 0 <= j < 64 -> Z.testbit (op w m) j = if Z.testbit m j then b else Z.testbit w j.

Lemma set_op_writes : writes set_op true.
Proof.
  intros w m Hw Hm. split; [by apply in_u64_lor|]. intros j Hj. unfold set_op.
  rewrite Z.lor_spec. by destruct (Z.testbit m j); rewrite ?orb_true_r, ?orb_false_r.
Qed.

Lemma clear_op_writes : writes clear_op false.
Proof.
  intros w m Hw Hm. split; [apply in_u64_land_l; [done|apply wrap_range; lia]|].
  intros j Hj. unfold clear_op. rewrite Z.land_spec, not64_bit by lia.
  replace (j <? 64) with true by lia. cbn [andb]. by destruct (Z.testbit m j); rewrite ?andb_true_r, ?andb_false_r.
Qed.

(** A mask with exactly the bits [lo, hi). *)
Definition mask_of (lo hi m : Z) : Prop :=
  0 <= lo <= hi /\ hi <= 64 /\ in_u 64 m /\
  forall j, 0 <= j < 64 -> Z.testbit m j = (lo <=? j) && (j <? hi).

Lemma first_mask o : 0 <= o < 64 -> mask_of o 64 (u64 (Z.shiftl ones64 o)).
Proof.
  intros Ho. split_and!; try lia; [apply wrap_range; lia|]. intros j Hj.
  by apply high_mask_bit; lia.
Qed.

Lemma ones_mask : mask_of 0 64 ones64.
Proof.
  split_and!; try lia; [unfold in_u, ones64; lia|]. intros j Hj. rewrite ones64_spec, ones_bit by lia. lia.
Qed.

Lemma last_word_mask n : 0 <= n -> n mod 64 <> 0 -> BITMAP_LAST_WORD_MASK n = Z.ones (n mod 64).
Proof.
  intros Hn Hm. unfold BITMAP_LAST_WORD_MASK, BITS_PER_LONG. rewrite (proj2 (Z.eqb_neq _ _) Hm).
  cbn [negb]. rewrite Z.ones_equiv, Z.shiftl_mul_pow2 by (apply Z.mod_pos_bound; lia). lia.
Qed.

Lemma mask_cut lo m e : mask_of lo 64 m -> lo <= e <= 64 -> mask_of lo e (Z.land m (Z.ones e)).
Proof.
  intros (? & ? & Hm & Hb) He. split_and!; try lia.
  - apply in_u64_land_l; [done|]. rewrite Z.ones_equiv. lia.
  - intros j Hj. rewrite Z.land_spec, Hb, ones_bit by lia.
    destruct (Z.ltb_spec j e), (Z.leb_spec lo j); cbn; lia.
Qed.

(** What an update of the bits [lo, hi) to [b] does to the bitmap. *)
Definition filled (map map' : words) (lo hi : Z) (b : bool) : Prop :=
  words_ok map' /\ length map' = length map /\
  forall i, 0 <= i -> bit map' i = if (lo <=? i) && (i <? hi) then b else bit map i.

Lemma filled_trans map1 map2 map3 lo mid hi b :
  lo <= mid <= hi -> filled map1 map2 lo mid b -> filled map2 map3 mid hi b -> filled map1 map3 lo hi b.
Proof.
  intros Hm (_ & Hl1 & H1) (Hok & Hl2 & H2). split_and!; [done|congruence|].
  intros i Hi. rewrite H2, H1 by done.
  destruct (Z.leb_spec mid i), (Z.ltb_spec i hi), (Z.leb_spec lo i), (Z.ltb_spec i mid); cbn; done || lia.
Qed.

Lemma filled_nothing map lo b : words_ok map -> filled map map lo lo b.
Proof.
  intros Hok. split_and!; try done. intros i Hi.
  by replace ((lo <=? i) && (i <? lo)) with false by lia.
Qed.

Section Area.
Context (op : Z -> Z -> Z) (b : bool).
Hypothesis Hop : writes op b.

Lemma write_word map p lo hi m :
  words_ok map -> 0 <= p < Z.of_nat (length map) -> mask_of lo hi m ->
  exists map', modify_word (fun w => op w m) map p = Ok map' /\
    filled map map' (64 * p + lo) (64 * p + hi) b.
Proof.
  intros Hok Hp (Hlo & Hhi & Hm & Hmb).
  destruct (modify_word_Ok (fun w => op w m) map p Hok Hp) as (w & Hw & Hwu & ->).
  destruct (Hop w m Hwu Hm) as [Hu Hbits]. eexists. split; [done|]. split_and!.
  - by apply Forall_insert.
  - apply length_insert.
  - intros i Hi. rewrite bit_insert by done. pose proof (Z.mod_pos_bound i 64 ltac:(lia)).
    pose proof (Z.div_mod i 64 ltac:(lia)).
    destruct (Z.eqb_spec (i / 64) p) as [<-|Hne].
    + rewrite Hbits, Hmb by lia. unfold bit. rewrite Hw.
      replace ((64 * (i / 64) + lo <=? i) && (i <? 64 * (i / 64) + hi))
        with ((lo <=? i mod 64) && (i mod 64 <? hi)) by lia. done.
    + replace ((64 * p + lo <=? i) && (i <? 64 * p + hi)) with false; [done|].
      destruct (Z.leb_spec (64 * p + lo) i), (Z.ltb_spec i (64 * p + hi)); cbn; try done.
      exfalso. apply Hne. symmetry. apply (Z.div_unique_pos _ _ _ (i - 64 * p)); lia.
Qed.

Lemma area_loop_spec : forall fuel map p o nr mask,
  words_ok map -> 0 <= p -> 0 <= o < 64 -> 0 <= nr -> 64 * p + o + nr <= nbits map ->
  mask_of o 64 mask -> (Z.to_nat ((nr + o) / 64) < fuel)%nat ->
  exists map' p' o' nr' mask',
    area_loop fuel op map p nr (64 - o) mask = Ok (map', p', nr', mask') /\
    mask_of o' 64 mask' /\ 0 <= o' < 64 /\ 0 <= nr' < 64 - o' /\ p <= p' /\
    64 * p' + o' + nr' = 64 * p + o + nr /\ 64 * p + o <= 64 * p' + o' /\
    filled map map' (64 * p + o) (64 * p' + o') b.
Proof.
  induction fuel as [|fuel IH]; intros map p o nr mask Hok Hp Ho Hnr Hn Hm Hf; [lia|].
  cbn [area_loop]. unfold BITS_PER_LONG. destruct (Z.leb_spec 0 (nr - (64 - o))) as [Hge|Hlt].
  - unfold nbits in Hn. destruct (write_word map p o 64 mask Hok) as (map1 & -> & Hfill); [lia|done|].
    cbn [mbind outcome_bind]. pose proof Hfill as (Hok1 & Hlen1 & _). change 64 with (64 - 0) at 2.
    destruct (IH map1 (p + 1) 0 (nr - (64 - o)) ones64) as
      (map' & p' & o' & nr' & mask' & -> & Hm' & ? & ? & ? & ? & ? & Hfill');
      [done|lia|lia|lia|unfold nbits; rewrite Hlen1; lia|apply ones_mask| |].
    { replace (nr - (64 - o) + 0) with (nr + o + -1 * 64) by lia. rewrite Z.div_add by lia.
      assert (1 <= (nr + o) / 64) by (apply Z.div_le_lower_bound; lia). lia. }
    exists map', p', o', nr', mask'. split_and!; try done; try lia.
    apply (filled_trans map map1 map' _ (64 * p + 64)); [lia|done|].
    by replace (64 * p + 64) with (64 * (p + 1) + 0) by lia.
  - exists map, p, o, nr, mask. split_and!; try done; try lia. by apply filled_nothing.
Qed.

Lemma bitmap_area_spec map start nr :
  words_ok map -> 0 <= start -> 0 <= nr -> start + nr <= nbits map ->
  exists map', bitmap_area op map start nr = Ok map' /\ filled map map' start (start + nr) b.
Proof.
  intros Hok Hs Hnr Hn. unfold bitmap_area, BIT_WORD, BITMAP_FIRST_WORD_MASK, BITS_PER_LONG.
  set (p := start / 64). set (o := start mod 64).
  assert (start = 64 * p + o /\ 0 <= o < 64 /\ 0 <= p) as (Eo & Ho & Hp)
    by (split_and!; [apply Z.div_mod; lia|apply Z.mod_pos_bound; lia..|apply Z.div_pos; lia]).
  clearbody p o.
  destruct (area_loop_spec (S (S (Z.to_nat (nr / 64)))) map p o nr (u64 (Z.shiftl ones64 o)))
    as (map' & p' & o' & nr' & mask' & -> & Hm' & ? & ? & ? & ? & ? & Hfill);
    [done|lia|lia|lia|lia|by apply first_mask| |].
  { assert ((nr + o) / 64 <= (nr + 1 * 64) / 64) by (apply Z.div_le_mono; lia).
    rewrite Z.div_add in * by lia. pose proof (Z.div_pos nr 64). lia. }
  cbn [mbind outcome_bind]. destruct (Z.eqb_spec nr' 0) as [->|Hnz]; cbn [negb].
  - exists map'. split; [done|]. rewrite Eo. by replace (64 * p + o + nr) with (64 * p' + o') by lia.
  - assert ((start + nr) mod 64 = o' + nr') as Hmod.
    { symmetry. apply (Z.mod_unique_pos _ _ p'); lia. }
    rewrite last_word_mask, Hmod by lia.
    pose proof Hfill as (Hok1 & Hlen1 & _). unfold nbits in Hn.
    destruct (write_word map' p' o' (o' + nr') (Z.land mask' (Z.ones (o' + nr'))) Hok1)
      as (map2 & -> & Hfill2); [lia|by apply mask_cut; [|lia]|].
    exists map2. split; [done|]. rewrite Eo.
    apply (filled_trans map map' map2 _ (64 * p' + o')); [lia|done|].
    by replace (64 * p + o + nr) with (64 * p' + (o' + nr')) by lia.
Qed.
End Area.

(** The forms the clients use. *)
Lemma bitmap_set_filled map start nr :
  words_ok map -> 0 <= start -> 0 <= nr -> start + nr <= nbits map ->
  exists map', bitmap_set map start nr = Ok map' /\ filled map map' start (start + nr) true.
Proof. apply (bitmap_area_spec _ _ set_op_writes). Qed.

Lemma bitmap_clear_filled map start nr :
  words_ok map -> 0 <= start -> 0 <= nr -> start + nr <= nbits map ->
  exists map', bitmap_clear map start nr = Ok map' /\ filled map map' start (start + nr) false.
Proof. apply (bitmap_area_spec _ _ clear_op_writes). Qed.

(** Setting and clearing a range of bits word by word
    changes exactly the bits of the range, stays inside the bitmap, and
    clearing what was just set restores a range that was clear. *)
Theorem bitmap_set_clear map start nr :
  words_ok map -> 0 <= start -> 0 <= nr -> start + nr <= nbits map ->
  exists map1 map2,
    bitmap_set map start nr = Ok map1 /\ bitmap_clear map1 start nr = Ok map2 /\
    forall i, 0 <= i ->
      bit map1 i = ((start <=? i) && (i <? start + nr)) || bit map i /\
      bit map2 i = negb ((start <=? i) && (i <? start + nr)) && bit map i.
Proof.
  intros Hok Hs Hnr Hn.
  destruct (bitmap_set_filled map start nr) as (map1 & E1 & Hok1 & Hl1 & H1); [done..|].
  destruct (bitmap_clear_filled map1 start nr) as (map2 & E2 & _ & _ & H2);
    [done..|unfold nbits in *; by rewrite Hl1|].
  exists map1, map2. split_and!; try done. intros i Hi. rewrite H2, H1 by done.
  by destruct ((start <=? i) && (i <? start + nr)).
Qed.

Lemma bitmap_set_clear_witness :
  exists map1 map2,
    bitmap_set [0; 0; 0; 0] 60 100 = Ok map1 /\ bitmap_clear map1 60 100 = Ok map2 /\
    bit map1 159 = true /\ bit map1 160 = false /\ bit map2 159 = false.
Proof.
  destruct (bitmap_set_clear [0; 0; 0; 0] 60 100) as (map1 & map2 & E1 & E2 & H);
    [by apply words_ok_check|lia|lia|vm_compute; discriminate|].
  exists map1, map2. split; [exact E1|]. split; [exact E2|].
  destruct (H 159 ltac:(lia)) as [-> ->]. destruct (H 160 ltac:(lia)) as [-> _].
  split_and!; reflexivity.
Defined.

(** ** Free areas *)
Lemma ALIGN_MASK_spec x k : 0 <= k <= 64 -> 0 <= x -> x + 2 ^ k <= 2 ^ 64 ->
  let a := ALIGN_MASK x (2 ^ k - 1) in
  x <= a /\ a mod 2 ^ k = 0 /\ forall y, x <= y -> y mod 2 ^ k = 0 -> a <= y.
Proof.
  intros Hk Hx Hov. unfold ALIGN_MASK. assert (0 < 2 ^ k) by lia.
  assert (Z.land (x + (2 ^ k - 1)) (not64 (2 ^ k - 1)) = (x + (2 ^ k - 1)) / 2 ^ k * 2 ^ k) as ->.
  { rewrite <- Z.shiftr_div_pow2, <- Z.shiftl_mul_pow2 by lia.
    replace (2 ^ k - 1) with (Z.ones k) by (rewrite Z.ones_equiv; lia). bits.
    rewrite not64_bit, ones_bit by lia. destruct (Z.lt_ge_cases i k).
    - rewrite (Z.testbit_neg_r _ (i - k)) by lia. replace (i <? k) with true by lia.
      by rewrite !andb_false_r.
    - rewrite Z.shiftr_spec by lia. replace (i - k + k) with i by lia.
      replace (i <? k) with false by lia. destruct (Z.ltb_spec i 64).
      + by rewrite andb_true_r.
      + rewrite (testbit_high _ 64 i); [done| |lia]. rewrite Z.ones_equiv. lia. }
  set (q := (x + (2 ^ k - 1)) / 2 ^ k).
  pose proof (Z.div_mod (x + (2 ^ k - 1)) (2 ^ k) ltac:(lia)) as Hd. fold q in Hd.
  pose proof (Z.mod_pos_bound (x + (2 ^ k - 1)) (2 ^ k) ltac:(lia)).
  split_and!; [lia|by apply Z.mod_mul; lia|]. intros y Hy Hm.
  pose proof (Z.div_mod y (2 ^ k) ltac:(lia)) as Hdy. rewrite Hm in Hdy.
  assert (q <= y / 2 ^ k); [|nia]. apply Z.lt_succ_r. unfold q. apply Z.div_lt_upper_bound; nia.
Qed.

(** [r] starts an aligned run of [nr] clear bits inside [size]. *)
Definition zero_area (map : words) (size start nr k r : Z) : Prop :=
  start <= r /\ r mod 2 ^ k = 0 /\ r + nr <= size /\
  forall i, r <= i < r + nr -> bit map i = false.

Lemma zero_area_loop_spec map size nr k :
  words_ok map -> 0 <= size <= nbits map -> 0 < nr -> 0 <= k -> size + 2 ^ k + nr < 2 ^ 64 ->
  forall fuel start, 0 <= start -> (Z.to_nat (size - start) < fuel)%nat ->
  exists r, zero_area_loop fuel map size start nr (2 ^ k - 1) = Ok r /\
    ((zero_area map size start nr k r /\ forall j, j < r -> ~ zero_area map size start nr k j) \/
     (size < r /\ forall j, ~ zero_area map size start nr k j)).
Proof.
  intros Hok Hsz Hnr Hk Hov.
  assert (k <= 64) as Hk64.
  { destruct (Z.le_gt_cases k 64); [done|]. assert (2 ^ 64 < 2 ^ k) by (apply Z.pow_lt_mono_r; lia). lia. }
  induction fuel as [|fuel IH]; intros start Hst Hf; [lia|]. cbn [zero_area_loop].
  destruct (find_next_zero_bit_spec map Hok size start) as (i0 & -> & Hi0); [lia..|].
  cbn [mbind outcome_bind].
  assert (0 <= i0 <= size /\ forall j, zero_area map size start nr k j -> i0 <= j) as [Hr0 Hlow].
  { destruct (Z.leb_spec size start).
    - subst i0. split; [lia|]. intros j (? & _ & ? & _). lia.
    - destruct Hi0 as (Hr0 & Hset & _). split; [lia|]. intros j (Hj & _ & Hj2 & Hz).
      destruct (Z.le_gt_cases i0 j); [done|]. specialize (Hset j ltac:(lia)).
      unfold clear_at in Hset. rewrite Hz in Hset by lia. done. }
  destruct (ALIGN_MASK_spec i0 k) as (Hge & Hal & Hleast); [lia..|].
  set (index := ALIGN_MASK i0 (2 ^ k - 1)) in *.
  assert (forall j, zero_area map size start nr k j -> index <= j) as Hlow'.
  { intros j Hj. apply Hleast; [by apply Hlow|apply Hj]. }
  assert (start <= index \/ size < index + nr) as Hsi.
  { destruct (Z.leb_spec size start); [right; lia|left; destruct Hi0; lia]. }
  destruct (Z.ltb_spec size (index + nr)) as [Hend|Hend].
  - eexists. split; [done|]. right. split; [done|]. intros j Hj. pose proof (Hlow' j Hj).
    destruct Hj as (_ & _ & ? & _). lia.
  - destruct (find_next_bit_spec map Hok (index + nr) index) as (i & -> & Hi); [lia..|].
    cbn [mbind outcome_bind]. rewrite (proj2 (Z.leb_gt _ _)) in Hi by lia.
    destruct Hi as (Hri & Hcl & Hse). destruct (Z.ltb_spec i (index + nr)) as [Hlt|Hge2].
    + destruct (IH (i + 1)) as (r & -> & Hr); [lia..|]. exists r. split; [done|].
      assert (forall j, zero_area map size start nr k j <-> zero_area map size (i + 1) nr k j) as Hiff.
      { intros j. split; [|intros (? & ? & ? & ?); split_and!; auto; lia].
        intros Hj. pose proof (Hlow' j Hj). destruct Hj as (? & ? & ? & Hz). split_and!; auto.
        destruct (Z.le_gt_cases (i + 1) j); [done|].
        specialize (Hse Hlt). rewrite Hz in Hse by lia. done. }
      by setoid_rewrite Hiff.
    + exists index. split; [done|]. left. split.
      * split_and!; [lia|done|lia|]. intros j Hj. apply Hcl. lia.
      * intros j Hj Hz. pose proof (Hlow' j Hz). lia.
Qed.

(** The free-area search returns the lowest aligned start of
    a run of clear bits of the requested length, and a value beyond the size
    exactly when the bitmap has no such run; it always terminates. *)
Theorem bitmap_find_next_zero_area_spec map size start nr k :
  words_ok map -> 0 <= size <= nbits map -> 0 <= start -> 0 < nr -> 0 <= k ->
  size + 2 ^ k + nr < 2 ^ 64 ->
  exists r, bitmap_find_next_zero_area map size start nr (2 ^ k - 1) = Ok r /\
    ((zero_area map size start nr k r /\ forall j, j < r -> ~ zero_area map size start nr k j) \/
     (size < r /\ forall j, ~ zero_area map size start nr k j)).
Proof. intros. apply zero_area_loop_spec; try done. lia. Qed.

Lemma bitmap_find_next_zero_area_spec_witness :
  exists r, bitmap_find_next_zero_area [0xff0f; 0] 128 0 8 (2 ^ 3 - 1) = Ok r /\ r = 16.
Proof.
  destruct (bitmap_find_next_zero_area_spec [0xff0f; 0] 128 0 8 3) as (r & E & _);
    [by apply words_ok_check|split; [lia|vm_compute; discriminate]|lia|lia|lia|lia|].
  exists r. split; [exact E|]. vm_compute in E. by injection E as <-.
Defined.

(** ** Predicates on whole bitmaps *)
Section Scan.
Context (f : Z -> bool) (word : Z -> outcome Z) (len : Z).
Hypothesis Hword : forall k, 0 <= k < len -> exists w, word k = Ok w /\ shows f (64 * k) 0 64 w.

Lemma nonzero_shows base lo hi w : shows f base lo hi w ->
  (negb (w =? 0) = true <-> exists i, base + lo <= i < base + hi /\ f i = true).
Proof.
  intros Hs. rewrite negb_true_iff, Z.eqb_neq. split.
  - intros Hnz. destruct (shows_last f base lo hi w Hs Hnz) as (? & ? & _).
    exists (base + Z.log2 w). split; [lia|done].
  - intros (i & Hi & Ht) ->. rewrite (shows_zero f base lo hi 0 Hs) in Ht; done.
Qed.

Lemma any_word_spec : forall n k, 0 <= k -> k + Z.of_nat n <= len ->
  exists b, any_word n k (fun k => w ← word k; Ok (negb (w =? 0))) = Ok b /\
    (b = true <-> exists i, 64 * k <= i < 64 * (k + Z.of_nat n) /\ f i = true).
Proof.
  induction n as [|n IH]; intros k Hk Hn; cbn [any_word].
  - exists false. split; [done|]. split; [done|]. intros (i & ? & _). lia.
  - destruct (Hword k) as (w & -> & Hw); [lia|]. cbn [mbind outcome_bind].
    pose proof (nonzero_shows _ _ _ _ Hw) as Hnz. destruct (negb (w =? 0)).
    + exists true. split; [done|]. split; [|done]. intros _.
      destruct (proj1 Hnz eq_refl) as (i & ? & ?). exists i. split; [lia|done].
    + destruct (IH (k + 1)) as (b & -> & Hb); [lia..|]. exists b. split; [done|]. rewrite Hb. split.
      * intros (i & ? & ?). exists i. split; [lia|done].
      * intros (i & ? & Hf). exists i. split; [|done].
        destruct (Z.lt_ge_cases i (64 * (k + 1))); [|lia]. exfalso.
        assert (false = true); [|done]. apply Hnz. exists i. split; [lia|done].
Qed.

Lemma scan_spec bits : 0 <= bits <= 64 * len ->
  exists b, scan bits word = Ok b /\ (b = true <-> exists i, 0 <= i < bits /\ f i = true).
Proof.
  intros Hb. unfold scan, BITS_PER_LONG.
  pose proof (Z.div_mod bits 64 ltac:(lia)) as Hd. pose proof (Z.mod_pos_bound bits 64 ltac:(lia)).
  pose proof (Z.div_pos bits 64 ltac:(lia) ltac:(lia)).
  destruct (any_word_spec (Z.to_nat (bits / 64)) 0) as (b & -> & Hany); [lia..|].
  rewrite Z2Nat.id in Hany by lia. cbn [mbind outcome_bind]. destruct b.
  - exists true. split; [done|]. split; [|done]. intros _.
    destruct (proj1 Hany eq_refl) as (i & ? & ?). exists i. split; [lia|done].
  - assert (forall i, 0 <= i < 64 * (bits / 64) -> f i = false) as Hz.
    { intros i Hi. destruct (f i) eqn:E; [|done]. assert (false = true); [|done].
      apply Hany. exists i. split; [lia|done]. }
    destruct (Z.eqb_spec (bits mod 64) 0) as [E0|E0]; cbn [negb].
    + exists false. split; [done|]. split; [done|]. intros (i & ? & Hf). rewrite Hz in Hf; [done|lia].
    + destruct (Hword (bits / 64)) as (w & -> & Hw); [lia|]. cbn [mbind outcome_bind].
      rewrite last_word_mask by lia.
      pose proof (shows_below _ _ _ _ _ (bits mod 64) Hw ltac:(lia)) as Hs.
      eexists. split; [done|]. rewrite (nonzero_shows _ _ _ _ Hs). split.
      * intros (i & ? & ?). exists i. split; [lia|done].
      * intros (i & ? & Hf). exists i. split; [|done].
        destruct (Z.lt_ge_cases i (64 * (bits / 64))); [rewrite Hz in Hf; [done|lia]|lia].
Qed.

(** The fast path for one word gives the same answer. *)
Lemma first_word_spec bits : 0 < bits <= 64 -> 1 <= len ->
  exists b, first_word_clear (word 0) bits = Ok b /\
    (negb b = true <-> exists i, 0 <= i < bits /\ f i = true).
Proof.
  intros Hb Hl. destruct (Hword 0) as (w & Hr & Hw); [lia|]. unfold first_word_clear. rewrite Hr.
  cbn [mbind outcome_bind]. eexists. split; [done|].
  assert (Z.land w (BITMAP_LAST_WORD_MASK bits) = Z.land w (Z.ones bits)) as ->.
  { destruct (Z.eq_dec bits 64) as [->|]; [done|].
    rewrite last_word_mask by (rewrite ?Z.mod_small; lia). by rewrite Z.mod_small by lia. }
  rewrite (nonzero_shows _ _ _ _ (shows_below _ _ _ _ _ bits Hw ltac:(lia))).
  by rewrite Z.mul_0_r.
Qed.
End Scan.

(** Words computed from two bitmaps show the combination of their bits. *)
Definition bitwise (op : Z -> Z -> Z) (g : bool -> bool -> bool) : Prop :=
  forall a b, in_u 64 a -> in_u 64 b -> in_u 64 (op a b) /\
    forall j, 0 <= j < 64 -> Z.testbit (op a b) j = g (Z.testbit a j) (Z.testbit b j).

Lemma bitwise_land : bitwise Z.land andb.
Proof.
  intros a b Ha Hb. split; [apply in_u64_land_l; [done|apply Hb]|]. intros j _. apply Z.land_spec.
Qed.
Lemma bitwise_lor : bitwise Z.lor orb.
Proof. intros a b Ha Hb. split; [by apply in_u64_lor|]. intros j _. apply Z.lor_spec. Qed.
Lemma bitwise_lxor : bitwise Z.lxor xorb.
Proof. intros a b Ha Hb. split; [by apply in_u64_lxor|]. intros j _. apply Z.lxor_spec. Qed.
Lemma bitwise_andnot : bitwise andnot64 (fun x y => x && negb y).
Proof.
  intros a b Ha Hb. unfold andnot64. split; [apply in_u64_land_l; [done|apply wrap_range; lia]|].
  intros j Hj. rewrite Z.land_spec, not64_bit by lia. by replace (j <? 64) with true by lia.
Qed.

Lemma word2_shows op g map1 map2 k :
  bitwise op g -> words_ok map1 -> words_ok map2 ->
  0 <= k < Z.of_nat (length map1) `min` Z.of_nat (length map2) ->
  exists w, word2 op map1 map2 k = Ok w /\
    shows (fun i => g (bit map1 i) (bit map2 i)) (64 * k) 0 64 w.
Proof.
  intros Hop H1 H2 Hk. destruct (rd_Ok map1 k) as (w1 & E1 & L1 & U1); [lia|done|].
  destruct (rd_Ok map2 k) as (w2 & E2 & L2 & U2); [lia|done|].
  destruct (Hop w1 w2 U1 U2) as [Hu Hb]. unfold word2. rewrite E1, E2. cbn [mbind outcome_bind].
  eexists. split; [done|]. split_and!; try lia; [apply Hu..|]. intros j Hj.
  destruct (Z.ltb_spec j 64).
  - replace (0 <=? j) with true by lia. cbn [andb].
    by rewrite Hb, (bit_word map1 k w1), (bit_word map2 k w2) by (done || lia).
  - rewrite andb_false_r. unfold in_u in Hu. by apply (testbit_high _ 64).
Qed.

(** Fast path or loop: is [f] false on all [bits] bits? *)
Lemma none_set_spec f word len bits :
  (forall k, 0 <= k < len -> exists w, word k = Ok w /\ shows f (64 * k) 0 64 w) ->
  0 < bits <= 64 * len ->
  exists b, (if small_nbits bits then first_word_clear (word 0) bits else negb <$> scan bits word) = Ok b /\
    (b = true <-> forall i, 0 <= i < bits -> f i = false).
Proof.
  intros Hword Hb.
  assert (exists b, (if small_nbits bits then first_word_clear (word 0) bits
                     else negb <$> scan bits word) = Ok b /\
            (negb b = true <-> exists i, 0 <= i < bits /\ f i = true)) as (b & E & Hiff).
  { unfold small_nbits, BITS_PER_LONG. destruct (Z.leb_spec bits 64).
    - apply (first_word_spec f word len); [done|lia..].
    - destruct (scan_spec f word len Hword bits) as (b & -> & Hiff); [lia|].
      exists (negb b). split; [done|]. by rewrite negb_involutive. }
  exists b. split; [done|]. destruct b; cbn in Hiff; split; try done.
  - intros _ i Hi. destruct (f i) eqn:Ef; [|done]. symmetry. apply Hiff. eauto.
  - intros Hall. destruct (proj1 Hiff eq_refl) as (i & Hi & Ht). by rewrite Hall in Ht.
Qed.

Section Predicates.
Context (map1 map2 : words) (n : Z).
Hypothesis H1 : words_ok map1.
Hypothesis H2 : words_ok map2.
Hypothesis Hn : 0 < n <= nbits map1 `min` nbits map2.

Lemma bitmap_empty_spec :
  exists b, bitmap_empty map1 n = Ok b /\ (b = true <-> forall i, 0 <= i < n -> bit map1 i = false).
Proof.
  unfold bitmap_empty. change (slow_bitmap_empty map1 n) with (negb <$> scan n (rd map1)).
  apply (none_set_spec (bit map1) (rd map1) (Z.of_nat (length map1))); [|unfold nbits in *; lia].
  intros k Hk. by apply rd_shows.
Qed.

Lemma bitmap_full_spec :
  exists b, bitmap_full map1 n = Ok b /\ (b = true <-> forall i, 0 <= i < n -> bit map1 i = true).
Proof.
  destruct (none_set_spec (fun i => negb (bit map1 i)) (fun k => w ← rd map1 k; Ok (not64 w))
              (Z.of_nat (length map1)) n) as (b & Hrun & Hiff).
  - intros k Hk. destruct (rd_shows map1 H1 k Hk) as (w & -> & Hw). cbn [mbind outcome_bind].
    eexists. split; [done|]. by apply shows_not.
  - unfold nbits in *. lia.
  - exists b. split; [done|]. rewrite Hiff. split; intros H i Hi; specialize (H i Hi);
      by destruct (bit map1 i).
Qed.

Lemma bitmap_equal_spec :
  exists b, bitmap_equal map1 map2 n = Ok b /\
    (b = true <-> forall i, 0 <= i < n -> bit map1 i = bit map2 i).
Proof.
  destruct (none_set_spec (fun i => xorb (bit map1 i) (bit map2 i)) (word2 Z.lxor map1 map2)
    (Z.of_nat (length map1) `min` Z.of_nat (length map2)) n) as (b & Hrun & Hiff).
  - intros k Hk. by apply word2_shows; [apply bitwise_lxor|..].
  - unfold nbits in *. lia.
  - exists b. split; [done|]. rewrite Hiff. split; intros H i Hi; specialize (H i Hi);
      by destruct (bit map1 i), (bit map2 i).
Qed.

Lemma bitmap_intersects_spec :
  exists b, bitmap_intersects map1 map2 n = Ok b /\
    (b = true <-> exists i, 0 <= i < n /\ bit map1 i = true /\ bit map2 i = true).
Proof.
  assert (Hw : forall k, 0 <= k < Z.of_nat (length map1) `min` Z.of_nat (length map2) ->
    exists w, word2 Z.land map1 map2 k = Ok w /\
      shows (fun i => bit map1 i && bit map2 i) (64 * k) 0 64 w).
  { intros k Hk. by apply word2_shows; [apply bitwise_land|..]. }
  assert (exists b, bitmap_intersects map1 map2 n = Ok b /\
    (b = true <-> exists i, 0 <= i < n /\ bit map1 i && bit map2 i = true)) as (b & E & Hiff).
  { unfold bitmap_intersects, small_nbits, BITS_PER_LONG, nbits in *. destruct (Z.leb_spec n 64).
    - destruct (first_word_spec _ _ _ Hw n) as (b & -> & Hiff); [lia..|]. by exists (negb b).
    - apply (scan_spec _ _ _ Hw). lia. }
  exists b. split; [done|]. rewrite Hiff. by setoid_rewrite andb_true_iff.
Qed.
End Predicates.

(** The predicates on bitmaps, through the one-word fast
    path or the word loop, answer exactly for the valid bits: bits of the last
    word beyond the size have no influence. *)
Theorem bitmap_predicates map1 map2 n :
  words_ok map1 -> words_ok map2 -> 0 < n <= nbits map1 `min` nbits map2 ->
  exists e f q x,
    bitmap_empty map1 n = Ok e /\ bitmap_full map1 n = Ok f /\
    bitmap_equal map1 map2 n = Ok q /\ bitmap_intersects map1 map2 n = Ok x /\
    (e = true <-> forall i, 0 <= i < n -> bit map1 i = false) /\
    (f = true <-> forall i, 0 <= i < n -> bit map1 i = true) /\
    (q = true <-> forall i, 0 <= i < n -> bit map1 i = bit map2 i) /\
    (x = true <-> exists i, 0 <= i < n /\ bit map1 i = true /\ bit map2 i = true).
Proof.
  intros H1 H2 Hn. destruct (bitmap_empty_spec map1 map2 n) as (e & ? & ?); auto.
  destruct (bitmap_full_spec map1 map2 n) as (f & ? & ?); auto.
  destruct (bitmap_equal_spec map1 map2 n) as (q & ? & ?); auto.
  destruct (bitmap_intersects_spec map1 map2 n) as (x & ? & ?); auto.
  by exists e, f, q, x.
Qed.

Lemma bitmap_predicates_witness :
  exists e q, bitmap_empty [0; 0xf0] 68 = Ok e /\ e = true /\
    bitmap_equal [3; 0xf1] [3; 1] 68 = Ok q /\ q = true.
Proof.
  destruct (bitmap_predicates [0; 0xf0] [0; 0] 68) as (e & _ & _ & _ & E & _);
    [by apply words_ok_check..|split; [lia|vm_compute; discriminate]|].
  destruct (bitmap_predicates [3; 0xf1] [3; 1] 68) as (_ & _ & q & _ & _ & _ & E' & _);
    [by apply words_ok_check..|split; [lia|vm_compute; discriminate]|].
  exists e, q. rewrite E, E'. vm_compute in E, E'. injection E as <-. injection E' as <-.
  split_and!; reflexivity.
Defined.

(** ** Combining bitmaps *)

(** [dst'] shows [f] on [lo, hi) and is [dst] elsewhere. *)
Definition written_bits (dst dst' : words) (lo hi : Z) (f : Z -> bool) : Prop :=
  words_ok dst' /\ length dst' = length dst /\
  forall i, 0 <= i -> bit dst' i = if (lo <=? i) && (i <? hi) then f i else bit dst i.

Lemma put_word dst k f w : words_ok dst -> 0 <= k < Z.of_nat (length dst) ->
  shows f (64 * k) 0 64 w ->
  exists dst', modify_word (fun _ => w) dst k = Ok dst' /\
    written_bits dst dst' (64 * k) (64 * (k + 1)) f.
Proof.
  intros Hok Hk (_ & _ & Hw & Hb).
  destruct (modify_word_Ok (fun _ => w) dst k Hok Hk) as (w0 & _ & _ & ->).
  eexists. split; [done|]. split_and!; [by apply Forall_insert|apply length_insert|].
  intros i Hi. rewrite bit_insert by done. pose proof (Z.mod_pos_bound i 64 ltac:(lia)).
  pose proof (Z.div_mod i 64 ltac:(lia)).
  destruct (Z.eqb_spec (i / 64) k) as [<-|Hne].
  - rewrite Hb by lia. replace ((0 <=? i mod 64) && (i mod 64 <? 64)) with true by lia.
    replace ((64 * (i / 64) <=? i) && (i <? 64 * (i / 64 + 1))) with true by lia. f_equal. lia.
  - replace ((64 * k <=? i) && (i <? 64 * (k + 1))) with false; [done|].
    destruct (Z.leb_spec (64 * k) i), (Z.ltb_spec i (64 * (k + 1))); cbn; try done.
    exfalso. apply Hne. symmetry. apply (Z.div_unique_pos _ _ _ (i - 64 * k)); lia.
Qed.

Lemma written_trans d1 d2 d3 lo mid hi f : lo <= mid <= hi ->
  written_bits d1 d2 lo mid f -> written_bits d2 d3 mid hi f -> written_bits d1 d3 lo hi f.
Proof.
  intros Hm (_ & Hl1 & H1) (Hok & Hl2 & H2). split_and!; [done|congruence|].
  intros i Hi. rewrite H2, H1 by done.
  destruct (Z.leb_spec mid i), (Z.ltb_spec i hi), (Z.leb_spec lo i), (Z.ltb_spec i mid); cbn; done || lia.
Qed.

Lemma store_words_spec f word len :
  (forall k, 0 <= k < len -> exists w, word k = Ok w /\ shows f (64 * k) 0 64 w) ->
  forall n dst k result,
  words_ok dst -> 0 <= k -> k + Z.of_nat n <= len `min` Z.of_nat (length dst) -> 0 <= result ->
  exists dst' result', store_words n k dst word result = Ok (dst', result') /\
    written_bits dst dst' (64 * k) (64 * (k + Z.of_nat n)) f /\ 0 <= result' /\
    (result' = 0 <-> result = 0 /\ forall i, 64 * k <= i < 64 * (k + Z.of_nat n) -> f i = false).
Proof.
  intros Hword. induction n as [|n IH]; intros dst k result Hok Hk Hn Hr; cbn [store_words].
  - exists dst, result. split; [done|]. split; [split_and!; [done..|]|split; [done|]].
    + intros i Hi. change (Z.of_nat 0) with 0. rewrite Z.add_0_r.
      by replace ((64 * k <=? i) && (i <? 64 * k)) with false by lia.
    + split; [intros ->; split; [done|lia]|by intros [-> _]].
  - destruct (Hword k) as (w & -> & Hw); [lia|]. cbn [mbind outcome_bind].
    destruct (put_word dst k f w Hok) as (d1 & -> & Hput); [lia|done|]. cbn [mbind outcome_bind].
    pose proof Hput as (Hok1 & Hl1 & _). pose proof Hw as (_ & _ & Hwu & _). unfold in_u in Hwu.
    destruct (IH d1 (k + 1) (Z.lor result w)) as (d2 & r2 & -> & Hst & Hr2 & Hz);
      [done|lia|rewrite Hl1; lia|apply Z.lor_nonneg; lia|].
    exists d2, r2. split; [done|]. replace (k + 1 + Z.of_nat n) with (k + Z.of_nat (S n)) in * by lia.
    split_and!; [by apply (written_trans _ d1 _ _ (64 * (k + 1))); [lia|..]|done|].
    rewrite Hz, Z.lor_eq_0_iff. split.
    + intros [[-> Hw0] Hrest]. split; [done|]. intros i Hi.
      destruct (Z.lt_ge_cases i (64 * (k + 1))); [|apply Hrest; lia].
      apply (shows_zero f (64 * k) 0 64 w Hw Hw0). lia.
    + intros [-> Hall]. split_and!; [done| |intros i Hi; apply Hall; lia].
      destruct (Z.eq_dec w 0) as [|Hnz]; [done|].
      destruct (shows_last f (64 * k) 0 64 w Hw Hnz) as (? & Ht & _). rewrite Hall in Ht; [done|lia].
Qed.

Lemma bits_to_longs bits : 0 < bits -> 1 <= BITS_TO_LONGS bits /\
  bits <= 64 * BITS_TO_LONGS bits < bits + 64.
Proof. intros Hb. unfold BITS_TO_LONGS, BITS_PER_LONG. Z.div_mod_to_equations. lia. Qed.

(** One statement for the four operations. *)
Lemma bitmap_binop_spec op g dst map1 map2 n :
  bitwise op g -> words_ok dst -> words_ok map1 -> words_ok map2 -> 0 < n ->
  n <= nbits dst `min` (nbits map1 `min` nbits map2) ->
  exists dst' b, bitmap_binop op dst map1 map2 n = Ok (dst', b) /\
    written_bits dst dst' 0 (64 * BITS_TO_LONGS n) (fun i => g (bit map1 i) (bit map2 i)) /\
    (b = false <-> forall i, 0 <= i < 64 * BITS_TO_LONGS n -> g (bit map1 i) (bit map2 i) = false).
Proof.
  intros Hop Hd H1 H2 Hn Hle. unfold nbits in Hle. destruct (bits_to_longs n Hn) as [Hl Hb].
  pose proof (fun k Hk => word2_shows op g map1 map2 k Hop H1 H2 Hk) as Hword.
  unfold bitmap_binop, small_nbits, BITS_PER_LONG. destruct (Z.leb_spec n 64) as [Hsm|Hbig].
  - assert (BITS_TO_LONGS n = 1) as -> by lia.
    destruct (Hword 0) as (w & -> & Hw); [lia|]. cbn [mbind outcome_bind].
    destruct (put_word dst 0 (fun i => g (bit map1 i) (bit map2 i)) w Hd) as (d1 & -> & Hput); [lia|done|]. cbn [mbind outcome_bind].
    eexists _, _. split; [done|]. split; [exact Hput|]. rewrite negb_false_iff, Z.eqb_eq. split.
    + intros H0 i Hi. apply (shows_zero _ _ _ _ _ Hw H0). lia.
    + intros Hall. destruct (Z.eq_dec w 0) as [|Hnz]; [done|].
      destruct (shows_last _ _ _ _ _ Hw Hnz) as (? & Ht & _). rewrite Hall in Ht; [done|lia].
  - unfold slow_bitmap_binop.
    destruct (store_words_spec _ _ _ Hword (Z.to_nat (BITS_TO_LONGS n)) dst 0 0)
      as (d1 & r & -> & Hw & Hr & Hz); [done|lia|lia|lia|]. cbn [mbind outcome_bind].
    rewrite Z.add_0_l, Z2Nat.id in * by lia.
    eexists _, _. split; [done|]. split; [by rewrite Z.mul_0_r in Hw|].
    rewrite negb_false_iff, Z.eqb_eq, Hz, Z.mul_0_r. naive_solver.
Qed.

(** The complement masks the last word. *)
Lemma bitmap_complement_spec dst map n :
  words_ok dst -> words_ok map -> 0 < n <= nbits dst `min` nbits map ->
  exists dst', bitmap_complement dst map n = Ok dst' /\
    written_bits dst dst' 0 (64 * BITS_TO_LONGS n) (fun i => (i <? n) && negb (bit map i)).
Proof.
  intros Hd Hm Hn. unfold nbits in Hn. destruct (bits_to_longs n ltac:(lia)) as [Hl Hb].
  assert (Hword : forall k, 0 <= k < Z.of_nat (length map) -> exists w, rd map k = Ok w /\
            shows (fun i => negb (bit map i)) (64 * k) 0 64 (not64 w)).
  { intros k Hk. destruct (rd_shows map Hm k Hk) as (w & -> & Hw). exists w. split; [done|]. by apply shows_not. }
  (* the word at [k], cut at [n] *)
  assert (Hcut : forall k m w, 0 <= k -> 0 < m <= 64 -> n = 64 * k + m ->
    shows (fun i => negb (bit map i)) (64 * k) 0 64 w ->
    shows (fun i => (i <? n) && negb (bit map i)) (64 * k) 0 64 (Z.land w (Z.ones m))).
  { intros k m w Hk Hmm Hnm Hs. destruct (shows_below _ _ _ _ _ m Hs ltac:(lia)) as (_ & _ & Hu & Hbits).
    split_and!; try lia; [apply Hu..|]. intros j Hj. rewrite Hbits by lia.
    replace (64 * k + j <? n) with (j <? m) by lia.
    destruct (Z.ltb_spec j m), (Z.ltb_spec j 64), (Z.leb_spec 0 j); cbn; done || lia. }
  unfold bitmap_complement, small_nbits, BITS_PER_LONG. destruct (Z.leb_spec n 64).
  - destruct (Hword 0) as (w & -> & Hw); [lia|]. cbn [mbind outcome_bind].
    replace (BITMAP_LAST_WORD_MASK n) with (Z.ones n).
    2: { destruct (Z.eq_dec n 64) as [->|]; [done|]. rewrite last_word_mask by (rewrite ?Z.mod_small; lia).
         by rewrite Z.mod_small by lia. }
    assert (BITS_TO_LONGS n = 1) as -> by lia.
    apply (put_word dst 0); [done|lia|]. by apply Hcut; [lia..|].
  - unfold slow_bitmap_complement, BITS_PER_LONG.
    pose proof (Z.div_mod n 64 ltac:(lia)) as Hdm. pose proof (Z.mod_pos_bound n 64 ltac:(lia)).
    pose proof (Z.div_pos n 64 ltac:(lia) ltac:(lia)).
    destruct (store_words_spec (fun i => (i <? n) && negb (bit map i))
      (fun k => w ← rd map k; Ok (not64 w)) (n / 64)) with
      (n := Z.to_nat (n / 64)) (dst := dst) (k := 0) (result := 0) as (d1 & r & -> & Hw & _ & _);
      [|done|lia|lia|lia|].
    { intros k Hk. destruct (Hword k) as (w & -> & Hw); [lia|]. cbn [mbind outcome_bind].
      eexists. split; [done|]. destruct Hw as (? & ? & Hu & Hbits). split_and!; try lia; [apply Hu..|].
      intros j Hj. rewrite Hbits by lia. destruct (Z.ltb_spec j 64); [|by rewrite andb_false_r].
      by replace (64 * k + j <? n) with true by lia. }
    rewrite Z.add_0_l, Z2Nat.id, Z.mul_0_r in Hw by lia. cbn [mbind outcome_bind].
    destruct (Z.eqb_spec (n mod 64) 0) as [E0|E0]; cbn [negb].
    + exists d1. split; [done|]. by replace (BITS_TO_LONGS n) with (n / 64) by lia.
    + destruct (Hword (n / 64)) as (w & -> & Hww); [lia|]. cbn [mbind outcome_bind].
      rewrite last_word_mask by lia. pose proof Hw as (Hok1 & Hl1 & _).
      destruct (put_word d1 (n / 64) (fun i => (i <? n) && negb (bit map i))
                  (Z.land (not64 w) (Z.ones (n mod 64))) Hok1) as (d2 & -> & Hput);
        [lia|by apply Hcut; [lia..|]|].
      exists d2. split; [done|]. replace (BITS_TO_LONGS n) with (n / 64 + 1) by lia.
      by apply (written_trans _ d1 _ _ (64 * (n / 64))); [lia|..].
Qed.

(** And, or, xor, and-not and complement compute the bitwise
    operation on every valid bit and leave the words beyond the size alone;
    the complement also clears the unused bits of the last word. *)
Theorem bitmap_combine dst map1 map2 n :
  words_ok dst -> words_ok map1 -> words_ok map2 -> 0 < n ->
  n <= nbits dst `min` (nbits map1 `min` nbits map2) ->
  exists da ba do_ dx dn bn dc,
    bitmap_and dst map1 map2 n = Ok (da, ba) /\ bitmap_or dst map1 map2 n = Ok do_ /\
    bitmap_xor dst map1 map2 n = Ok dx /\ bitmap_andnot dst map1 map2 n = Ok (dn, bn) /\
    bitmap_complement dst map1 n = Ok dc /\
    forall i, 0 <= i ->
      (i < n -> bit da i = bit map1 i && bit map2 i /\ bit do_ i = bit map1 i || bit map2 i /\
         bit dx i = xorb (bit map1 i) (bit map2 i) /\ bit dn i = bit map1 i && negb (bit map2 i) /\
         bit dc i = negb (bit map1 i)) /\
      (n <= i < 64 * BITS_TO_LONGS n -> bit dc i = false) /\
      (64 * BITS_TO_LONGS n <= i -> bit da i = bit dst i /\ bit do_ i = bit dst i /\
         bit dx i = bit dst i /\ bit dn i = bit dst i /\ bit dc i = bit dst i).
Proof.
  intros Hd H1 H2 Hn Hle. destruct (bits_to_longs n Hn) as [_ Hb].
  destruct (bitmap_binop_spec _ _ dst map1 map2 n bitwise_land) as (da & ba & Ea & (_ & _ & Ha) & _); try done.
  destruct (bitmap_binop_spec _ _ dst map1 map2 n bitwise_lor) as (do_ & bo & Eo & (_ & _ & Ho) & _); try done.
  destruct (bitmap_binop_spec _ _ dst map1 map2 n bitwise_lxor) as (dx & bx & Ex & (_ & _ & Hx) & _); try done.
  destruct (bitmap_binop_spec _ _ dst map1 map2 n bitwise_andnot) as (dn & bn & En & (_ & _ & Hnn) & _); try done.
  destruct (bitmap_complement_spec dst map1 n) as (dc & Ec & (_ & _ & Hc)); try done; [lia|].
  exists da, ba, do_, dx, dn, bn, dc. unfold bitmap_or, bitmap_xor. rewrite Eo, Ex.
  split_and!; try done. intros i Hi. rewrite Ha, Ho, Hx, Hnn, Hc by done. split_and!.
  - intros Hin. replace ((0 <=? i) && (i <? 64 * BITS_TO_LONGS n)) with true by lia.
    by replace (i <? n) with true by lia.
  - intros Hin. replace ((0 <=? i) && (i <? 64 * BITS_TO_LONGS n)) with true by lia.
    by replace (i <? n) with false by lia.
  - intros Hin. by replace ((0 <=? i) && (i <? 64 * BITS_TO_LONGS n)) with false by lia.
Qed.

Lemma bitmap_combine_witness :
  exists da ba dc, bitmap_and [0; 0; 7] [0xff; 3; 9] [0x0f; 1; 9] 70 = Ok (da, ba) /\ bit da 3 = true /\
    bit da 129 = true /\ bitmap_complement [0; 0; 7] [0xff; 3; 9] 70 = Ok dc /\ bit dc 70 = false.
Proof.
  destruct (bitmap_combine [0; 0; 7] [0xff; 3; 9] [0x0f; 1; 9] 70)
    as (da & ba & do_ & dx & dn & bn & dc & Ea & _ & _ & _ & Ec & H);
    [by apply words_ok_check..|lia|vm_compute; discriminate|].
  exists da, ba, dc. split; [exact Ea|].
  destruct (H 3 ltac:(lia)) as [H3 _]. destruct (H 129 ltac:(lia)) as (_ & _ & H129).
  destruct (H 70 ltac:(lia)) as (_ & H70 & _).
  split; [by rewrite (proj1 (H3 ltac:(lia)))|].
  split; [by rewrite (proj1 (H129 ltac:(vm_compute; discriminate)))|].
  split; [exact Ec|]. apply H70. vm_compute. split; [discriminate|reflexivity].
Defined.

(** bitmap.c says that operations that return a boolean filter out the unused
    bits of the last word.  [bitmap_and] does not: it reports a common bit
    although none of the valid bits is set. *)
Lemma bitmap_and_unused_bits :
  bitmap_and [0] [2] [2] 1 = Ok ([2], true) /\ bitmap_empty [2] 1 = Ok true.
Proof. split; vm_compute; reflexivity. Qed.
