(* ===== verification/RamList.v ===== *)
(** * Guest RAM: the block list of exec.c and the dirty bitmaps of ram_addr.h

    [RamState] is the global [ram_list]: the blocks from the largest to the
    smallest, the most recently used block, the version and one dirty bitmap
    per client.  Locks are taken by the callers and not modelled; neither Xen
    nor -mem-path is configured, so host memory comes from [phys_mem_alloc],
    whose result is a parameter. *)
From S2P Require Import Prelude HostUtils Bitops Bitmap.

Definition TARGET_PAGE_BITS : Z := 12.
Definition TARGET_PAGE_SIZE : Z := 4096.
Definition RAM_ADDR_MAX : Z := 2 ^ 64 - 1.
Definition TARGET_PAGE_ALIGN (addr : Z) : Z :=
  Z.land (u64 (addr + TARGET_PAGE_SIZE - 1)) (not64 (TARGET_PAGE_SIZE - 1)).

Definition DIRTY_MEMORY_VGA : Z := 0.
Definition DIRTY_MEMORY_CODE : Z := 1.
Definition DIRTY_MEMORY_MIGRATION : Z := 2.
Definition DIRTY_MEMORY_NV2A_GPU_COLOR : Z := 3.
Definition DIRTY_MEMORY_NV2A_GPU_ZETA : Z := 4.
Definition DIRTY_MEMORY_NV2A_GPU_RESOURCE : Z := 5.
Definition DIRTY_MEMORY_NUM : Z := 6.

Record RAMBlock := {
  rb_mr : Z;
  rb_host : Z;
  rb_offset : Z;
  rb_length : Z;
  rb_prealloc : bool;  (* flags & RAM_PREALLOC_MASK *)
  rb_fd : Z
}.

Record RamState := {
  rl_dirty : list words;
  rl_mru : option nat;  (* the block's place in the list *)
  rl_blocks : list RAMBlock;
  rl_version : Z
}.

Definition set_dirty_memory (d : list words) (s : RamState) : RamState :=
  {| rl_dirty := d; rl_mru := rl_mru s; rl_blocks := rl_blocks s; rl_version := rl_version s |}.
Definition set_mru (m : option nat) (s : RamState) : RamState :=
  {| rl_dirty := rl_dirty s; rl_mru := m; rl_blocks := rl_blocks s; rl_version := rl_version s |}.

(** ** Dirty bitmaps (include/exec/ram_addr.h) *)

(** [f(ram_list.dirty_memory[client])] *)
Definition on_client (f : words -> outcome words) (client : Z) (d : list words) : outcome (list words) :=
  match d !! Z.to_nat client with
  | None => Abort
  | Some map => map ← f map; Ok (<[Z.to_nat client := map]> d)
  end.

(** The pages of a range: the first, and the one after the last. *)
Definition first_page (start : Z) : Z := Z.shiftr start TARGET_PAGE_BITS.
Definition end_page (start length : Z) : Z :=
  Z.shiftr (TARGET_PAGE_ALIGN (start + length)) TARGET_PAGE_BITS.

Definition cpu_physical_memory_get_dirty (start length client : Z) (d : list words) : outcome bool :=
  _ ← c_assert (client <? DIRTY_MEMORY_NUM);
  match d !! Z.to_nat client with
  | None => Abort
  | Some map =>
      let end_ := end_page start length in
      next ← find_next_bit map end_ (first_page start);
      Ok (next <? end_)
  end.

Definition cpu_physical_memory_get_dirty_flag (addr client : Z) (d : list words) : outcome bool :=
  cpu_physical_memory_get_dirty addr 1 client d.

Definition cpu_physical_memory_is_clean (addr : Z) (d : list words) : outcome bool :=
  vga ← cpu_physical_memory_get_dirty_flag addr DIRTY_MEMORY_VGA d;
  code ← cpu_physical_memory_get_dirty_flag addr DIRTY_MEMORY_CODE d;
  migration ← cpu_physical_memory_get_dirty_flag addr DIRTY_MEMORY_MIGRATION d;
  (* && does not evaluate its right operand after a false *)
  zeta ← cpu_physical_memory_get_dirty_flag addr DIRTY_MEMORY_NV2A_GPU_ZETA d;
  color ← (if (zeta : bool)
           then cpu_physical_memory_get_dirty_flag addr DIRTY_MEMORY_NV2A_GPU_COLOR d else Ok false);
  nv2a_gpu ← (if (color : bool)
              then cpu_physical_memory_get_dirty_flag addr DIRTY_MEMORY_NV2A_GPU_RESOURCE d
              else Ok false);
  Ok (negb (vga && code && migration && nv2a_gpu)).

Definition cpu_physical_memory_set_dirty_flag (addr client : Z) (d : list words) : outcome (list words) :=
  _ ← c_assert (client <? DIRTY_MEMORY_NUM);
  on_client (set_bit (Z.shiftr addr TARGET_PAGE_BITS)) client d.

Definition cpu_physical_memory_set_dirty_range (start length : Z) (d : list words) : outcome (list words) :=
  let end_ := end_page start length in
  let page := first_page start in
  let set := on_client (fun map => bitmap_set map page (end_ - page)) in
  d ← set DIRTY_MEMORY_MIGRATION d;
  d ← set DIRTY_MEMORY_VGA d;
  d ← set DIRTY_MEMORY_CODE d;
  d ← set DIRTY_MEMORY_NV2A_GPU_ZETA d;
  d ← set DIRTY_MEMORY_NV2A_GPU_COLOR d;
  set DIRTY_MEMORY_NV2A_GPU_RESOURCE d.

Definition cpu_physical_memory_clear_dirty_range (start length client : Z) (d : list words)
    : outcome (list words) :=
  _ ← c_assert (client <? DIRTY_MEMORY_NUM);
  let end_ := end_page start length in
  let page := first_page start in
  on_client (fun map => bitmap_clear map page (end_ - page)) client d.

(** [tlb_reset_dirty_range_all] acts on the CPU's TLB, not on this state. *)
Definition cpu_physical_memory_reset_dirty (start length client : Z) (d : list words)
    : outcome (list words) :=
  if length =? 0 then Ok d else cpu_physical_memory_clear_dirty_range start length client d.

(** [invalidate_and_set_dirty] of exec.c; code invalidation is left to the
    translator. *)
Definition invalidate_and_set_dirty (addr length : Z) (d : list words) : outcome (list words) :=
  clean ← cpu_physical_memory_is_clean addr d;
  if (clean : bool) then
    d ← cpu_physical_memory_set_dirty_flag addr DIRTY_MEMORY_VGA d;
    d ← cpu_physical_memory_set_dirty_flag addr DIRTY_MEMORY_MIGRATION d;
    d ← cpu_physical_memory_set_dirty_flag addr DIRTY_MEMORY_NV2A_GPU_ZETA d;
    d ← cpu_physical_memory_set_dirty_flag addr DIRTY_MEMORY_NV2A_GPU_COLOR d;
    cpu_physical_memory_set_dirty_flag addr DIRTY_MEMORY_NV2A_GPU_RESOURCE d
  else Ok d.

(** ** Blocks (exec.c) *)
Definition rb_end (b : RAMBlock) : Z := rb_offset b + rb_length b.

(** [addr - block->offset < block->length] in [ram_addr_t] arithmetic. *)
Definition in_block (addr : Z) (b : RAMBlock) : bool := u64 (addr - rb_offset b) <? rb_length b.

(** [QTAILQ_FOREACH] with a jump to [found]. *)
Fixpoint find_block (p : RAMBlock -> bool) (i : nat) (l : list RAMBlock) : option (nat * RAMBlock) :=
  match l with
  | [] => None
  | b :: l => if p b then Some (i, b) else find_block p (S i) l
  end.

Definition mru_block (s : RamState) : option RAMBlock := rl_mru s ≫= fun i => rl_blocks s !! i.

Definition qemu_get_ram_block (addr : Z) (s : RamState) : outcome (RAMBlock * RamState) :=
  match mru_block s with
  | Some b =>
      if in_block addr b then Ok (b, s)
      else match find_block (in_block addr) 0 (rl_blocks s) with
           | Some (i, b) => Ok (b, set_mru (Some i) s)
           | None => Abort
           end
  | None =>
      match find_block (in_block addr) 0 (rl_blocks s) with
      | Some (i, b) => Ok (b, set_mru (Some i) s)
      | None => Abort
      end
  end.

Definition last_ram_offset (s : RamState) : Z :=
  fold_left (fun last b => last `max` u64 (rb_end b)) (rl_blocks s) 0.

(** The start of the next block at or after [end_]. *)
Definition next_block_after (end_ : Z) (l : list RAMBlock) : Z :=
  fold_left (fun next b => if end_ <=? rb_offset b then next `min` rb_offset b else next) l RAM_ADDR_MAX.

Definition find_ram_offset (size : Z) (s : RamState) : outcome Z :=
  _ ← c_assert (negb (size =? 0));
  match rl_blocks s with
  | [] => Ok 0
  | l =>
      let '(offset, _) := fold_left (fun '(offset, mingap) b =>
        let end_ := u64 (rb_end b) in
        let gap := u64 (next_block_after end_ l - end_) in
        if (size <=? gap) && (gap <? mingap) then (end_, gap) else (offset, mingap))
        l (RAM_ADDR_MAX, RAM_ADDR_MAX) in
      if offset =? RAM_ADDR_MAX then Abort else Ok offset
  end.

(** Keep the list sorted from the biggest to the smallest block. *)
Fixpoint insert_block (new_block : RAMBlock) (l : list RAMBlock) : list RAMBlock :=
  match l with
  | [] => [new_block]
  | b :: l' => if rb_length b <? rb_length new_block then new_block :: l
               else b :: insert_block new_block l'
  end.

(** [for (i = 0; i < DIRTY_MEMORY_NUM; i++)]: [realloc] is [g_realloc]. *)
Fixpoint extend_all (realloc : words -> Z -> words) (old_ram_size new_ram_size : Z) (d : list words)
    : outcome (list words) :=
  match d with
  | [] => Ok []
  | map :: d =>
      map ← bitmap_zero_extend (realloc map (BITS_TO_LONGS new_ram_size)) old_ram_size new_ram_size;
      d ← extend_all realloc old_ram_size new_ram_size d;
      Ok (map :: d)
  end.

Definition qemu_ram_alloc_from_ptr (realloc : words -> Z -> words) (phys_mem_alloc : Z -> Z)
    (size host mr : Z) (s : RamState) : outcome (Z * RamState) :=
  let old_ram_size := Z.shiftr (last_ram_offset s) TARGET_PAGE_BITS in
  let size := TARGET_PAGE_ALIGN size in
  offset ← find_ram_offset size s;
  let new_host := if negb (host =? 0) then host else phys_mem_alloc size in
  _ ← c_assert (negb (new_host =? 0));
  let new_block := {| rb_mr := mr; rb_host := new_host; rb_offset := offset; rb_length := size;
                      rb_prealloc := negb (host =? 0); rb_fd := -1 |} in
  let s := {| rl_dirty := rl_dirty s; rl_mru := None;
              rl_blocks := insert_block new_block (rl_blocks s);
              rl_version := u32 (rl_version s + 1) |} in
  let new_ram_size := Z.shiftr (last_ram_offset s) TARGET_PAGE_BITS in
  d ← (if old_ram_size <? new_ram_size
       then extend_all realloc old_ram_size new_ram_size (rl_dirty s) else Ok (rl_dirty s));
  d ← cpu_physical_memory_set_dirty_range offset size d;
  Ok (offset, set_dirty_memory d s).

Definition qemu_ram_alloc realloc phys_mem_alloc (size mr : Z) (s : RamState) : outcome (Z * RamState) :=
  qemu_ram_alloc_from_ptr realloc phys_mem_alloc size 0 mr s.

(** Unlink the block at [addr]; [qemu_ram_free] also returns the host memory
    of a block that was not preallocated. *)
Definition qemu_ram_free_from_ptr (addr : Z) (s : RamState) : RamState :=
  match find_block (fun b => addr =? rb_offset b) 0 (rl_blocks s) with
  | None => s
  | Some (i, _) =>
      {| rl_dirty := rl_dirty s; rl_mru := None; rl_blocks := delete i (rl_blocks s);
         rl_version := u32 (rl_version s + 1) |}
  end.

Definition qemu_ram_free (addr : Z) (s : RamState) : RamState * option (Z * Z) :=
  match find_block (fun b => addr =? rb_offset b) 0 (rl_blocks s) with
  | None => (s, None)
  | Some (i, b) =>
      (qemu_ram_free_from_ptr addr s,
       if rb_prealloc b then None else Some (rb_host b, rb_length b))
  end.

Definition qemu_get_ram_ptr (addr : Z) (s : RamState) : outcome (Z * RamState) :=
  '(b, s) ← qemu_get_ram_block addr s; Ok (rb_host b + (addr - rb_offset b), s).

(** [None] is the null pointer; the second component is [*size]. *)
Definition qemu_ram_ptr_length (addr size : Z) (s : RamState) : outcome (option Z * Z) :=
  if size =? 0 then Ok (None, size)
  else match find_block (in_block addr) 0 (rl_blocks s) with
       | None => Abort
       | Some (_, b) =>
           let size := if rb_length b <? u64 (u64 (addr - rb_offset b) + size)
                       then u64 (rb_length b - addr + rb_offset b) else size in
           Ok (Some (rb_host b + u64 (addr - rb_offset b)), size)
       end.

(** The block a host pointer lies in: the difference is a [ptrdiff_t], and the
    comparison with the unsigned length converts it. *)
Definition host_in_block (host : Z) (b : RAMBlock) : bool := u64 (host - rb_host b) <? rb_length b.
Definition qemu_ram_addr_from_host (host : Z) (s : RamState) : option (Z * Z) :=
  let found b := Some (rb_mr b, rb_offset b + (host - rb_host b)) in
  let search :=
    match find_block (fun b => negb (rb_host b =? 0) && host_in_block host b) 0 (rl_blocks s) with
    | Some (_, b) => found b
    | None => None
    end in
  match mru_block s with
  | Some b => if negb (rb_host b =? 0) && host_in_block host b then found b else search
  | None => search
  end.

(** ** Pages *)
Lemma page_align a : 0 <= a -> a + TARGET_PAGE_SIZE <= 2 ^ 64 ->
  a <= TARGET_PAGE_ALIGN a < a + TARGET_PAGE_SIZE /\ TARGET_PAGE_ALIGN a mod TARGET_PAGE_SIZE = 0.
Proof.
  unfold TARGET_PAGE_SIZE. intros Ha Hov.
  assert (TARGET_PAGE_ALIGN a = ALIGN_MASK a (2 ^ 12 - 1)) as ->.
  { unfold TARGET_PAGE_ALIGN, ALIGN_MASK, TARGET_PAGE_SIZE. rewrite wrap_small by lia.
    by replace (a + 4096 - 1) with (a + (2 ^ 12 - 1)) by lia. }
  destruct (ALIGN_MASK_spec a 12) as (Hge & Hmod & Hleast); [lia..|].
  change (2 ^ 12) with 4096 in *. split; [|done]. split; [done|].
  assert (ALIGN_MASK a (4096 - 1) <= 4096 * ((a + 4095) / 4096)).
  { apply Hleast; [Z.div_mod_to_equations; lia|]. rewrite Z.mul_comm. apply Z.mod_mul. lia. }
  Z.div_mod_to_equations. lia.
Qed.

Lemma page_align_id a : 0 <= a -> a + TARGET_PAGE_SIZE <= 2 ^ 64 -> a mod TARGET_PAGE_SIZE = 0 ->
  TARGET_PAGE_ALIGN a = a.
Proof.
  intros Ha Hov Hm. destruct (page_align a Ha Hov) as [H1 H2]. unfold TARGET_PAGE_SIZE in *.
  Z.div_mod_to_equations. lia.
Qed.

(** The pages a range touches. *)
Lemma pages_of start length : 0 <= start -> 0 <= length -> start + length + TARGET_PAGE_SIZE <= 2 ^ 64 ->
  first_page start = start / TARGET_PAGE_SIZE /\
  end_page start length = (start + length + (TARGET_PAGE_SIZE - 1)) / TARGET_PAGE_SIZE.
Proof.
  intros Hs Hl Hov. unfold first_page, end_page, TARGET_PAGE_BITS.
  rewrite !Z.shiftr_div_pow2 by lia. change (2 ^ 12) with TARGET_PAGE_SIZE. split; [done|].
  destruct (page_align (start + length)) as [H1 H2]; [lia..|]. unfold TARGET_PAGE_SIZE in *.
  Z.div_mod_to_equations. lia.
Qed.

(** ** The dirty bitmaps as predicates on pages *)
Definition dirty_ok (pages : Z) (d : list words) : Prop :=
  length d = 6%nat /\ Forall (fun map => words_ok map /\ pages <= nbits map) d.

Definition page_dirty (d : list words) (client page : Z) : bool :=
  match d !! Z.to_nat client with Some map => bit map page | None => false end.

Lemma dirty_lookup pages d client : dirty_ok pages d -> 0 <= client < 6 ->
  exists map, d !! Z.to_nat client = Some map /\ words_ok map /\ pages <= nbits map.
Proof.
  intros [Hl Hd] Hc. destruct (lookup_lt_is_Some_2 d (Z.to_nat client)) as [map Hm]; [lia|].
  exists map. split; [done|]. by apply (Forall_lookup_1 _ _ _ _ Hd Hm).
Qed.

(** A client's bitmap updated on the pages [lo, hi) only. *)
Lemma client_filled pages d client map map' lo hi b :
  dirty_ok pages d -> 0 <= client < 6 -> d !! Z.to_nat client = Some map -> filled map map' lo hi b ->
  dirty_ok pages (<[Z.to_nat client := map']> d) /\
    forall c p, 0 <= c < 6 -> 0 <= p -> page_dirty (<[Z.to_nat client := map']> d) c p =
      if (c =? client) && ((lo <=? p) && (p <? hi)) then b else page_dirty d c p.
Proof.
  intros [Hl Hd] Hc Hm (Hok' & Hl' & Hb'). destruct (Forall_lookup_1 _ _ _ _ Hd Hm) as [_ Hp]. split.
  - split; [by rewrite length_insert|]. apply Forall_insert; [done|].
    split; [done|]. unfold nbits in *. by rewrite Hl'.
  - intros c p Hcr Hpp. unfold page_dirty. destruct (Z.eqb_spec c client) as [->|Hne].
    + rewrite list_lookup_insert_eq by lia. rewrite Hm, Hb' by done. done.
    + rewrite list_lookup_insert_ne by lia. done.
Qed.

Lemma on_client_filled pages d client f lo hi b :
  dirty_ok pages d -> 0 <= client < 6 ->
  (forall map, words_ok map -> pages <= nbits map ->
     exists map', f map = Ok map' /\ filled map map' lo hi b) ->
  exists d', on_client f client d = Ok d' /\ dirty_ok pages d' /\
    forall c p, 0 <= c < 6 -> 0 <= p -> page_dirty d' c p =
      if (c =? client) && ((lo <=? p) && (p <? hi)) then b else page_dirty d c p.
Proof.
  intros Hd Hc Hf. destruct (dirty_lookup pages d client Hd Hc) as (map & Hm & Hok & Hp).
  destruct (Hf map Hok Hp) as (map' & Ef & Hfill). unfold on_client. rewrite Hm, Ef.
  cbn [mbind outcome_bind]. eexists. split; [done|]. by apply (client_filled _ _ _ map).
Qed.

Section Range.
Context (pages start len : Z) (d : list words).
Hypothesis Hd : dirty_ok pages d.
Hypothesis Hr : 0 <= start /\ 0 < len /\ start + len + TARGET_PAGE_SIZE <= 2 ^ 64.
Hypothesis Hin : end_page start len <= pages.

Let lo := first_page start.
Let hi := end_page start len.

Lemma range_pages : 0 <= lo < hi /\ hi < 2 ^ 64.
Proof.
  unfold lo, hi. destruct (pages_of start len) as [-> ->]; [lia..|]. unfold TARGET_PAGE_SIZE in *.
  Z.div_mod_to_equations. lia.
Qed.

Lemma set_range_client d0 client : dirty_ok pages d0 -> 0 <= client < 6 ->
  exists d', on_client (fun map => bitmap_set map lo (hi - lo)) client d0 = Ok d' /\ dirty_ok pages d' /\
    forall c p, 0 <= c < 6 -> 0 <= p -> page_dirty d' c p =
      if (c =? client) && ((lo <=? p) && (p <? hi)) then true else page_dirty d0 c p.
Proof.
  intros Hd0 Hc. pose proof range_pages. apply on_client_filled; [done..|].
  intros map Hok Hp. destruct (bitmap_set_filled map lo (hi - lo)) as (map' & E & Hf); [done|lia..|].
  exists map'. split; [done|]. by replace hi with (lo + (hi - lo)) by lia.
Qed.

Lemma set_dirty_range_spec :
  exists d', cpu_physical_memory_set_dirty_range start len d = Ok d' /\ dirty_ok pages d' /\
    forall c p, 0 <= c < 6 -> 0 <= p ->
      page_dirty d' c p = ((lo <=? p) && (p <? hi)) || page_dirty d c p.
Proof.
  unfold cpu_physical_memory_set_dirty_range. fold lo hi. cbv zeta.
  destruct (set_range_client d DIRTY_MEMORY_MIGRATION) as (d1 & -> & H1 & P1); [done..|]. cbn [mbind outcome_bind].
  destruct (set_range_client d1 DIRTY_MEMORY_VGA) as (d2 & -> & H2 & P2); [done..|]. cbn [mbind outcome_bind].
  destruct (set_range_client d2 DIRTY_MEMORY_CODE) as (d3 & -> & H3 & P3); [done..|]. cbn [mbind outcome_bind].
  destruct (set_range_client d3 DIRTY_MEMORY_NV2A_GPU_ZETA) as (d4 & -> & H4 & P4); [done..|]. cbn [mbind outcome_bind].
  destruct (set_range_client d4 DIRTY_MEMORY_NV2A_GPU_COLOR) as (d5 & -> & H5 & P5); [done..|]. cbn [mbind outcome_bind].
  destruct (set_range_client d5 DIRTY_MEMORY_NV2A_GPU_RESOURCE) as (d6 & -> & H6 & P6); [done..|].
  exists d6. split_and!; [done..|]. intros c p Hc Hp.
  rewrite P6, P5, P4, P3, P2, P1 by done.
  assert (c = 0 \/ c = 1 \/ c = 2 \/ c = 3 \/ c = 4 \/ c = 5) as Hcs by lia.
  destruct ((lo <=? p) && (p <? hi)); [|by rewrite !andb_false_r].
  by destruct Hcs as [-> |[-> |[-> |[-> |[-> | ->]]]]].
Qed.

Lemma clear_dirty_range_spec client : 0 <= client < 6 ->
  exists d', cpu_physical_memory_clear_dirty_range start len client d = Ok d' /\ dirty_ok pages d' /\
    forall c p, 0 <= c < 6 -> 0 <= p -> page_dirty d' c p =
      if (c =? client) && ((lo <=? p) && (p <? hi)) then false else page_dirty d c p.
Proof.
  intros Hc. unfold cpu_physical_memory_clear_dirty_range. fold lo hi.
  rewrite (proj2 (Z.ltb_lt _ _)) by (unfold DIRTY_MEMORY_NUM; lia). cbn [c_assert mbind outcome_bind].
  pose proof range_pages. apply on_client_filled; [done..|].
  intros map Hok Hp. destruct (bitmap_clear_filled map lo (hi - lo)) as (map' & E & Hf); [done|lia..|].
  exists map'. split; [done|]. by replace hi with (lo + (hi - lo)) by lia.
Qed.

Lemma get_dirty_spec client : 0 <= client < 6 ->
  exists b, cpu_physical_memory_get_dirty start len client d = Ok b /\
    (b = true <-> exists p, lo <= p < hi /\ page_dirty d client p = true).
Proof.
  intros Hc. unfold cpu_physical_memory_get_dirty. fold lo hi.
  rewrite (proj2 (Z.ltb_lt _ _)) by (unfold DIRTY_MEMORY_NUM; lia). cbn [c_assert mbind outcome_bind].
  destruct (dirty_lookup pages d client Hd Hc) as (map & Hm & Hok & Hp). rewrite Hm.
  pose proof range_pages.
  destruct (find_next_bit_spec map Hok hi lo) as (r & -> & Hf); [lia..|].
  rewrite (proj2 (Z.leb_gt _ _)) in Hf by lia. destruct Hf as (Hrr & Hz & Hset).
  cbn [mbind outcome_bind]. eexists. split; [done|]. unfold page_dirty. rewrite Hm, Z.ltb_lt. split.
  - intros Hlt. exists r. split; [lia|by apply Hset].
  - intros (p & Hpr & Ht). destruct (Z.lt_ge_cases r hi); [done|]. rewrite Hz in Ht by lia. done.
Qed.
End Range.

Section Page.
Context (pages addr : Z) (Ha : 0 <= addr /\ addr + 1 + TARGET_PAGE_SIZE <= 2 ^ 64) (Hin : addr / TARGET_PAGE_SIZE < pages).

Lemma one_page : first_page addr = addr / TARGET_PAGE_SIZE /\ end_page addr 1 = addr / TARGET_PAGE_SIZE + 1.
Proof.
  destruct (pages_of addr 1) as [E1 E2]; [lia..|]. split; [done|]. rewrite E2. unfold TARGET_PAGE_SIZE.
  Z.div_mod_to_equations. lia.
Qed.

Lemma get_flag_spec d client : dirty_ok pages d -> 0 <= client < 6 ->
  cpu_physical_memory_get_dirty_flag addr client d = Ok (page_dirty d client (addr / TARGET_PAGE_SIZE)).
Proof.
  intros Hd Hc. destruct one_page as [E1 E2]. unfold cpu_physical_memory_get_dirty_flag.
  destruct (get_dirty_spec pages addr 1 d Hd ltac:(lia) ltac:(lia) client Hc) as (b & -> & Hb). f_equal.
  rewrite E1, E2 in Hb. destruct (page_dirty d client (addr / TARGET_PAGE_SIZE)) eqn:E.
  - apply Hb. exists (addr / TARGET_PAGE_SIZE). split; [lia|done].
  - destruct b; [|done]. destruct (proj1 Hb eq_refl) as (p & Hp & Hd'). by assert (p = addr / TARGET_PAGE_SIZE) as -> by lia; congruence.
Qed.

Lemma set_flag_spec d client : dirty_ok pages d -> 0 <= client < 6 ->
  exists d', cpu_physical_memory_set_dirty_flag addr client d = Ok d' /\ dirty_ok pages d' /\
    forall c p, 0 <= c < 6 -> 0 <= p ->
      page_dirty d' c p = (c =? client) && (p =? addr / TARGET_PAGE_SIZE) || page_dirty d c p.
Proof.
  intros Hd Hc. unfold cpu_physical_memory_set_dirty_flag, TARGET_PAGE_BITS. rewrite Z.shiftr_div_pow2 by lia.
  change (2 ^ 12) with TARGET_PAGE_SIZE. set (q := addr / TARGET_PAGE_SIZE) in *.
  assert (0 <= q) by (apply Z.div_pos; unfold TARGET_PAGE_SIZE; lia).
  destruct (on_client_filled pages d client (set_bit q) q (q + 1) true Hd Hc) as (d' & E & Hd' & Hp).
  { intros map Hok Hn. destruct (set_bit_spec map q Hok ltac:(lia)) as (map' & E & Hok' & Hl & Hb). exists map'.
    split; [done|]. split_and!; try done. intros i Hi. rewrite Hb by done.
    replace ((q <=? i) && (i <? q + 1)) with (i =? q) by lia. done. }
  exists d'. rewrite (proj2 (Z.ltb_lt _ _)) by (unfold DIRTY_MEMORY_NUM; lia). cbn [c_assert mbind outcome_bind].
  split_and!; try done. intros c p Hcc Hpp. rewrite Hp by done.
  replace ((q <=? p) && (p <? q + 1)) with (p =? q) by lia. by destruct (_ && _).
Qed.

Lemma is_clean_spec d : dirty_ok pages d ->
  let f c := page_dirty d c (addr / TARGET_PAGE_SIZE) in
  cpu_physical_memory_is_clean addr d =
    Ok (negb (f DIRTY_MEMORY_VGA && f DIRTY_MEMORY_CODE && f DIRTY_MEMORY_MIGRATION &&
              (f DIRTY_MEMORY_NV2A_GPU_ZETA && f DIRTY_MEMORY_NV2A_GPU_COLOR && f DIRTY_MEMORY_NV2A_GPU_RESOURCE))).
Proof.
  intros Hd f. unfold cpu_physical_memory_is_clean. rewrite !get_flag_spec by done. fold (f DIRTY_MEMORY_VGA).
  cbn [mbind outcome_bind]. unfold f. by destruct (page_dirty d DIRTY_MEMORY_NV2A_GPU_ZETA _), (page_dirty d DIRTY_MEMORY_NV2A_GPU_COLOR _).
Qed.

(** A write marks its first page for migration and forgets no mark. *)
Lemma invalidate_ok d len : dirty_ok pages d ->
  exists d', invalidate_and_set_dirty addr len d = Ok d' /\ dirty_ok pages d' /\
    page_dirty d' DIRTY_MEMORY_MIGRATION (addr / TARGET_PAGE_SIZE) = true /\
    forall c p, 0 <= c < 6 -> 0 <= p -> page_dirty d c p = true -> page_dirty d' c p = true.
Proof.
  intros Hd. set (q := addr / TARGET_PAGE_SIZE). assert (0 <= q) by (apply Z.div_pos; unfold TARGET_PAGE_SIZE; lia).
  unfold invalidate_and_set_dirty. rewrite is_clean_spec by done. fold q. set (b := negb _).
  assert (b = false -> page_dirty d DIRTY_MEMORY_MIGRATION q = true) as Hb.
  { unfold b. destruct (page_dirty d DIRTY_MEMORY_MIGRATION q); [done|]. by rewrite !andb_false_r. }
  cbn [mbind outcome_bind]. destruct b; [|by exists d; auto].
  destruct (set_flag_spec d DIRTY_MEMORY_VGA) as (d1 & -> & H1 & P1); [done..|]. cbn [mbind outcome_bind].
  destruct (set_flag_spec d1 DIRTY_MEMORY_MIGRATION) as (d2 & -> & H2 & P2); [done..|]. cbn [mbind outcome_bind].
  destruct (set_flag_spec d2 DIRTY_MEMORY_NV2A_GPU_ZETA) as (d3 & -> & H3 & P3); [done..|]. cbn [mbind outcome_bind].
  destruct (set_flag_spec d3 DIRTY_MEMORY_NV2A_GPU_COLOR) as (d4 & -> & H4 & P4); [done..|]. cbn [mbind outcome_bind].
  destruct (set_flag_spec d4 DIRTY_MEMORY_NV2A_GPU_RESOURCE) as (d5 & -> & H5 & P5); [done..|].
  exists d5. split_and!; try done.
  - rewrite P5, P4, P3, P2 by done. fold q. rewrite !Z.eqb_refl. cbn. by rewrite ?orb_true_r.
  - intros c p Hc Hp Ht. rewrite P5, P4, P3, P2, P1, Ht by done. by rewrite !orb_true_r.
Qed.
End Page.

(** Marking a RAM range dirty marks exactly its pages, for
    all six clients; clearing it for one client clears exactly those pages of
    that client; the range test answers accordingly. *)
Theorem dirty_range_tracking pages start len d client :
  dirty_ok pages d -> 0 <= start /\ 0 < len /\ start + len + TARGET_PAGE_SIZE <= 2 ^ 64 ->
  end_page start len <= pages -> 0 <= client < 6 ->
  exists d1 d2,
    cpu_physical_memory_set_dirty_range start len d = Ok d1 /\
    cpu_physical_memory_reset_dirty start len client d1 = Ok d2 /\
    cpu_physical_memory_get_dirty start len client d1 = Ok true /\
    cpu_physical_memory_get_dirty start len client d2 = Ok false /\
    forall c p, 0 <= c < 6 -> 0 <= p ->
      let inside := (first_page start <=? p) && (p <? end_page start len) in
      page_dirty d1 c p = inside || page_dirty d c p /\
      page_dirty d2 c p = if inside then negb (c =? client) else page_dirty d c p.
Proof.
  intros Hd Hr Hin Hc.
  destruct (set_dirty_range_spec pages start len d Hd Hr Hin) as (d1 & E1 & Hd1 & P1).
  destruct (clear_dirty_range_spec pages start len d1 Hd1 Hr Hin client Hc) as (d2 & E2 & Hd2 & P2).
  destruct (get_dirty_spec pages start len d1 Hd1 Hr Hin client Hc) as (b1 & G1 & B1).
  destruct (get_dirty_spec pages start len d2 Hd2 Hr Hin client Hc) as (b2 & G2 & B2).
  pose proof (range_pages start len Hr) as Hp.
  exists d1, d2. unfold cpu_physical_memory_reset_dirty. rewrite (proj2 (Z.eqb_neq len 0)) by lia.
  split_and!; try done.
  - rewrite G1. f_equal. apply B1. exists (first_page start). split; [lia|]. rewrite P1 by lia.
    replace ((first_page start <=? first_page start) && (first_page start <? end_page start len))
      with true by lia. done.
  - rewrite G2. destruct b2; [|done]. destruct (proj1 B2 eq_refl) as (p & Hpr & Ht).
    rewrite P2, Z.eqb_refl in Ht by lia.
    replace ((first_page start <=? p) && (p <? end_page start len)) with true in Ht by lia. done.
  - intros c p Hcr Hpp. cbv zeta. rewrite P2, P1 by done.
    destruct ((first_page start <=? p) && (p <? end_page start len)); [|by rewrite andb_false_r].
    by rewrite andb_true_r; destruct (c =? client).
Qed.

Lemma dirty_range_tracking_witness :
  exists d1 d2,
    cpu_physical_memory_set_dirty_range 0x1800 0x1000 (replicate 6 [0]) = Ok d1 /\
    cpu_physical_memory_reset_dirty 0x1800 0x1000 DIRTY_MEMORY_VGA d1 = Ok d2 /\
    page_dirty d1 DIRTY_MEMORY_VGA 2 = true /\ page_dirty d2 DIRTY_MEMORY_VGA 2 = false /\
    page_dirty d2 DIRTY_MEMORY_MIGRATION 2 = true.
Proof.
  destruct (dirty_range_tracking 64 0x1800 0x1000 (replicate 6 [0]) DIRTY_MEMORY_VGA)
    as (d1 & d2 & E1 & E2 & _ & _ & H).
  - split; [reflexivity|]. repeat constructor; try (by apply words_ok_check); vm_compute; discriminate.
  - unfold TARGET_PAGE_SIZE. lia.
  - vm_compute. discriminate.
  - unfold DIRTY_MEMORY_VGA. lia.
  - exists d1, d2. split; [exact E1|]. split; [exact E2|].
    destruct (H DIRTY_MEMORY_VGA 2 ltac:(unfold DIRTY_MEMORY_VGA; lia) ltac:(lia)) as [-> ->].
    destruct (H DIRTY_MEMORY_MIGRATION 2 ltac:(unfold DIRTY_MEMORY_MIGRATION; lia) ltac:(lia)) as [_ ->].
    split_and!; vm_compute; reflexivity.
Defined.

(** [invalidate_and_set_dirty] is called with the whole length of a RAM
    write, but marks only the page of its first byte. *)
Lemma invalidate_and_set_dirty_first_page :
  exists d, invalidate_and_set_dirty 0 0x2000 (replicate 6 [0]) = Ok d /\
    page_dirty d DIRTY_MEMORY_VGA 0 = true /\ page_dirty d DIRTY_MEMORY_VGA 1 = false.
Proof. eexists. split; [vm_compute; reflexivity|]. split; vm_compute; reflexivity. Qed.

(** ** The block list *)
Definition apart (b1 b2 : RAMBlock) : Prop := rb_end b1 <= rb_offset b2 \/ rb_end b2 <= rb_offset b1.

Fixpoint pairwise_apart (l : list RAMBlock) : Prop :=
  match l with [] => True | b :: l => Forall (apart b) l /\ pairwise_apart l end.

(** A block of whole pages that ends inside the RAM address space. *)
Definition block_ok (b : RAMBlock) : Prop :=
  0 <= rb_offset b /\ 0 < rb_length b /\ rb_end b + TARGET_PAGE_SIZE <= 2 ^ 64 /\
  rb_offset b mod TARGET_PAGE_SIZE = 0 /\ rb_length b mod TARGET_PAGE_SIZE = 0.

Fixpoint big_first (l : list RAMBlock) : Prop :=
  match l with
  | [] => True
  | b :: l => Forall (fun b' => rb_length b' <= rb_length b) l /\ big_first l
  end.

Lemma apart_sym b1 b2 : apart b1 b2 -> apart b2 b1.
Proof. unfold apart. tauto. Qed.

Lemma insert_block_elem nb l b : b ∈ insert_block nb l <-> b = nb \/ b ∈ l.
Proof.
  induction l as [|x l IH]; cbn [insert_block]; [by rewrite list_elem_of_singleton, elem_of_nil; tauto|].
  destruct (_ <? _); rewrite !elem_of_cons; [done|]. rewrite IH. tauto.
Qed.

Lemma insert_block_apart nb l :
  pairwise_apart l -> Forall (apart nb) l -> pairwise_apart (insert_block nb l).
Proof.
  induction l as [|x l IH]; intros Hl Hn; cbn [insert_block pairwise_apart]; [by split|].
  destruct Hl as [Hx Hl]. apply Forall_cons in Hn as [Hnx Hn].
  destruct (_ <? _); cbn [pairwise_apart].
  - split; [by constructor|by split].
  - split; [|by apply IH]. apply Forall_forall. intros b [-> |Hb]%insert_block_elem; [by apply apart_sym|].
    by rewrite Forall_forall in Hx; apply Hx.
Qed.

Lemma insert_block_big_first nb l : big_first l -> big_first (insert_block nb l).
Proof.
  induction l as [|x l IH]; intros Hl; cbn [insert_block]; [by split|].
  destruct Hl as [Hx Hl]. destruct (Z.ltb_spec (rb_length x) (rb_length nb)); cbn [big_first].
  - split; [|by split]. constructor; [lia|]. eapply Forall_impl; [exact Hx|]. cbn. lia.
  - split; [|by apply IH]. apply Forall_forall. intros b [-> |Hb]%insert_block_elem; [lia|].
    by rewrite Forall_forall in Hx; apply Hx.
Qed.

Lemma apart_lookup l : pairwise_apart l -> forall i j bi bj,
  l !! i = Some bi -> l !! j = Some bj -> i <> j -> apart bi bj.
Proof.
  induction l as [|x l IH]; intros Hl i j bi bj Hi Hj Hne; [done|]. destruct Hl as [Hx Hl].
  rewrite Forall_forall in Hx. destruct i as [|i], j as [|j]; cbn in Hi, Hj; [done| | |].
  - injection Hi as <-. apply Hx. by apply list_elem_of_lookup_2 in Hj.
  - injection Hj as <-. apply apart_sym, Hx. by apply list_elem_of_lookup_2 in Hi.
  - apply (IH Hl i j); auto.
Qed.

Lemma apart_elem l b1 b2 : pairwise_apart l -> b1 ∈ l -> b2 ∈ l -> b1 = b2 \/ apart b1 b2.
Proof.
  intros Hl [i Hi]%list_elem_of_lookup [j Hj]%list_elem_of_lookup.
  destruct (decide (i = j)) as [->|Hne]; [left; congruence|right; by apply (apart_lookup l Hl i j)].
Qed.

(** ** Looking up an address *)
Lemma find_block_Some p l : forall k i b, find_block p k l = Some (i, b) ->
  (k <= i)%nat /\ l !! (i - k)%nat = Some b /\ p b = true.
Proof.
  induction l as [|x l IH]; intros k i b H; cbn [find_block] in H; [done|].
  destruct (p x) eqn:E.
  - injection H as <- <-. rewrite Nat.sub_diag. split_and!; [lia|done|done].
  - destruct (IH (S k) i b H) as (? & Hl & ?). split_and!; [lia| |done].
    replace (i - k)%nat with (S (i - S k)) by lia. done.
Qed.

Lemma find_block_None p l : forall k, find_block p k l = None -> forall b, b ∈ l -> p b = false.
Proof.
  induction l as [|x l IH]; intros k H b; cbn [find_block] in H; [by intros []%not_elem_of_nil|].
  destruct (p x) eqn:E; [done|]. intros [-> |Hb]%elem_of_cons; [done|by apply (IH (S k) H)].
Qed.

Lemma in_block_spec addr b : block_ok b -> in_u 64 addr ->
  in_block addr b = true <-> rb_offset b <= addr < rb_end b.
Proof.
  unfold block_ok, rb_end, in_u, in_block, TARGET_PAGE_SIZE. intros (?&?&?&_) Ha.
  rewrite Z.ltb_lt. unfold wrap. destruct (Z.lt_ge_cases addr (rb_offset b)).
  - rewrite <- (Z.mod_add _ 1), Z.mod_small by lia. lia.
  - rewrite Z.mod_small by lia. lia.
Qed.

(** ** The invariant of the RAM list *)
Record ram_ok (s : RamState) : Prop := {
  ro_blocks : Forall block_ok (rl_blocks s);
  ro_apart : pairwise_apart (rl_blocks s);
  ro_sorted : big_first (rl_blocks s);
  ro_dirty : dirty_ok (last_ram_offset s / TARGET_PAGE_SIZE) (rl_dirty s);
  ro_mru i : rl_mru s = Some i -> (i < length (rl_blocks s))%nat
}.

Lemma block_end_small b : block_ok b -> u64 (rb_end b) = rb_end b.
Proof. unfold block_ok, rb_end, TARGET_PAGE_SIZE. intros (?&?&?&_). apply wrap_small. lia. Qed.

Lemma fold_max_spec l : Forall block_ok l -> forall z, 0 <= z ->
  let m := fold_left (fun last b => last `max` u64 (rb_end b)) l z in
  z <= m /\ (forall b, b ∈ l -> rb_end b <= m) /\ (m = z \/ exists b, b ∈ l /\ m = rb_end b).
Proof.
  induction 1 as [|x l Hx Hl IH]; intros z Hz; cbn [fold_left].
  - split_and!; [lia| |by left]. intros b []%not_elem_of_nil.
  - rewrite (block_end_small x Hx). destruct (IH (z `max` rb_end x)) as (H1 & H2 & H3); [lia|].
    split_and!; [lia| |].
    + intros b [-> |Hb]%elem_of_cons; [lia|by apply H2].
    + destruct H3 as [H3|(b & Hb & H3)].
      * destruct (Z.max_spec z (rb_end x)) as [[_ E]|[_ E]]; rewrite E in H3 |- *.
        -- right. exists x. split; [by left|done].
        -- by left.
      * right. exists b. split; [by right|done].
Qed.

(** The end of RAM is the largest end of a block. *)
Lemma last_ram_offset_spec s : Forall block_ok (rl_blocks s) ->
  (forall b, b ∈ rl_blocks s -> rb_end b <= last_ram_offset s) /\
  0 <= last_ram_offset s /\ last_ram_offset s + TARGET_PAGE_SIZE <= 2 ^ 64 /\
  last_ram_offset s mod TARGET_PAGE_SIZE = 0.
Proof.
  intros Hl. pose proof (fold_max_spec _ Hl 0 ltac:(lia)) as Hm. cbv zeta in Hm.
  fold (last_ram_offset s) in Hm. destruct Hm as (H1 & H2 & H3). split_and!; [done..| |].
  - destruct H3 as [-> |(b & Hb & ->)]; [unfold TARGET_PAGE_SIZE; lia|].
    rewrite Forall_forall in Hl. apply (Hl b Hb).
  - destruct H3 as [-> |(b & Hb & ->)]; [done|].
    rewrite Forall_forall in Hl. destruct (Hl b Hb) as (_ & _ & _ & Ho & Hlen). unfold rb_end.
    by rewrite Z.add_mod, Ho, Hlen by done.
Qed.

(** ** Finding a gap *)
Lemma next_block_after_spec end_ l : end_ <= RAM_ADDR_MAX ->
  let n := next_block_after end_ l in
  end_ <= n <= RAM_ADDR_MAX /\ forall b, b ∈ l -> end_ <= rb_offset b -> n <= rb_offset b.
Proof.
  intros He. unfold next_block_after. revert He. generalize RAM_ADDR_MAX.
  induction l as [|x l IH]; intros z Hz; cbn [fold_left].
  - split; [lia|]. intros b []%not_elem_of_nil.
  - destruct (Z.leb_spec end_ (rb_offset x)).
    + destruct (IH (z `min` rb_offset x)) as [H1 H2]; [lia|]. split; [lia|].
      intros b [-> |Hb]%elem_of_cons Hle; [lia|by apply H2].
    + destruct (IH z Hz) as [H1 H2]. split; [lia|].
      intros b [-> |Hb]%elem_of_cons Hle; [lia|by apply H2].
Qed.

Definition gap_after (l : list RAMBlock) (b : RAMBlock) : Z :=
  next_block_after (rb_end b) l - rb_end b.

Definition gap_step (l : list RAMBlock) (size : Z) (st : Z * Z) (b : RAMBlock) : Z * Z :=
  if (size <=? gap_after l b) && (gap_after l b <? st.2) then (rb_end b, gap_after l b) else st.

(** The scan keeps the smallest gap that is large enough. *)
Lemma gap_scan l size todo : forall offset mingap,
  let st := fold_left (gap_step l size) todo (offset, mingap) in
  st.2 <= mingap /\ (forall b, b ∈ todo -> size <= gap_after l b -> st.2 <= gap_after l b) /\
  (st = (offset, mingap) \/
   exists b, b ∈ todo /\ st = (rb_end b, gap_after l b) /\ size <= gap_after l b).
Proof.
  induction todo as [|x todo IH]; intros offset mingap; cbn [fold_left].
  - split_and!; [cbn; lia| |by left]. intros b []%not_elem_of_nil.
  - assert (gap_step l size (offset, mingap) x =
      if (size <=? gap_after l x) && (gap_after l x <? mingap) then (rb_end x, gap_after l x)
      else (offset, mingap)) as -> by done.
    destruct ((size <=? gap_after l x) && (gap_after l x <? mingap)) eqn:E.
    + destruct (IH (rb_end x) (gap_after l x)) as (H1 & H2 & H3). split_and!; [lia| |].
      * intros b [-> |Hb]%elem_of_cons Hs; [done|by apply H2].
      * right. destruct H3 as [H3|(b & Hb & H3 & Hs)]; [exists x|exists b]; split_and!; auto;
          [by left|lia|by right].
    + destruct (IH offset mingap) as (H1 & H2 & H3). split_and!; [done| |].
      * intros b [-> |Hb]%elem_of_cons Hs; [lia|by apply H2].
      * destruct H3 as [H3|(b & Hb & H3 & Hs)]; [by left|right]. exists b. split_and!; auto. by right.
Qed.

Lemma find_ram_offset_fold s size : Forall block_ok (rl_blocks s) -> 0 < size -> rl_blocks s <> [] ->
  find_ram_offset size s =
    let st := fold_left (gap_step (rl_blocks s) size) (rl_blocks s) (RAM_ADDR_MAX, RAM_ADDR_MAX) in
    if st.1 =? RAM_ADDR_MAX then Abort else Ok st.1.
Proof.
  intros Hl Hs Hne. unfold find_ram_offset. rewrite (proj2 (Z.eqb_neq size 0)) by lia.
  cbn [negb c_assert mbind outcome_bind]. destruct (rl_blocks s) as [|x l0] eqn:E; [done|].
  rewrite <- E in *. clear E Hne. generalize (RAM_ADDR_MAX, RAM_ADDR_MAX) as st.
  assert (forall b, b ∈ rl_blocks s -> u64 (rb_end b) = rb_end b /\
    u64 (next_block_after (rb_end b) (rl_blocks s) - rb_end b) = gap_after (rl_blocks s) b) as Hb.
  { intros b Hb. rewrite Forall_forall in Hl. specialize (Hl b Hb). split; [by apply block_end_small|].
    destruct Hl as (? & ? & He & _). assert (rb_end b <= RAM_ADDR_MAX) as Hm
      by (unfold TARGET_PAGE_SIZE, RAM_ADDR_MAX in *; lia).
    destruct (next_block_after_spec (rb_end b) (rl_blocks s) Hm) as [H1 _].
    apply wrap_small. unfold gap_after, rb_end, RAM_ADDR_MAX in *. lia. }
  intros st. set (f := fun '(offset, mingap) b => _).
  assert (forall l, (forall b, b ∈ l -> b ∈ rl_blocks s) -> forall st,
    fold_left f l st = fold_left (gap_step (rl_blocks s) size) l st) as ->.
  { induction l as [|b l IH]; intros Hsub st'; [done|]. cbn [fold_left]. rewrite IH by (intros; apply Hsub; by right).
    f_equal. destruct st' as [o m]. unfold f, gap_step. destruct (Hb b) as [-> ->]; [apply Hsub; by left|]. done. }
  2: done.
  by destruct (fold_left _ _ _) as [o m].
Qed.

(** The gap search, used for the allocation below. *)
Lemma find_ram_offset_fits s size :
  ram_ok s -> 0 < size -> rl_blocks s <> [] ->
  (exists off, find_ram_offset size s = Ok off /\ 0 <= off /\ off + size <= RAM_ADDR_MAX /\
     off mod TARGET_PAGE_SIZE = 0 /\
     (forall b, b ∈ rl_blocks s -> rb_end b <= off \/ off + size <= rb_offset b) /\
     exists b0, b0 ∈ rl_blocks s /\ off = rb_end b0 /\
       forall b, b ∈ rl_blocks s -> size <= gap_after (rl_blocks s) b ->
         gap_after (rl_blocks s) b0 <= gap_after (rl_blocks s) b) \/
  (find_ram_offset size s = Abort /\
     forall b, b ∈ rl_blocks s -> gap_after (rl_blocks s) b < size).
Proof.
  intros Hok Hs Hne. pose proof (ro_blocks s Hok) as Hl. rewrite find_ram_offset_fold by done.
  pose proof (gap_scan (rl_blocks s) size (rl_blocks s) RAM_ADDR_MAX RAM_ADDR_MAX) as Hg.
  cbv zeta in *. set (st := fold_left _ _ _) in *. destruct Hg as (_ & Hmin & Hst).
  rewrite Forall_forall in Hl.
  assert (Hlt : forall b, b ∈ rl_blocks s -> rb_end b < RAM_ADDR_MAX /\ gap_after (rl_blocks s) b < RAM_ADDR_MAX).
  { intros b Hb. destruct (Hl b Hb) as (? & ? & ? & _).
    assert (rb_end b < RAM_ADDR_MAX) by (unfold TARGET_PAGE_SIZE, RAM_ADDR_MAX in *; lia).
    destruct (next_block_after_spec (rb_end b) (rl_blocks s) ltac:(lia)) as [Hn _].
    unfold gap_after, rb_end in *. lia. }
  destruct Hst as [Hst|(b0 & Hb0 & Hst & Hsz)]; rewrite Hst in *; cbn [fst snd] in *.
  - right. rewrite Z.eqb_refl. split; [done|]. intros b Hb.
    destruct (Z.lt_ge_cases (gap_after (rl_blocks s) b) size); [done|].
    specialize (Hmin b Hb ltac:(done)). destruct (Hlt b Hb). lia.
  - left. destruct (Hl b0 Hb0) as (? & ? & ? & Ho & Hlen). destruct (Hlt b0 Hb0).
    rewrite (proj2 (Z.eqb_neq _ _)) by lia. exists (rb_end b0). split; [done|].
    destruct (next_block_after_spec (rb_end b0) (rl_blocks s) ltac:(lia)) as [Hn Hnext].
    unfold gap_after in Hsz. split_and!; [unfold rb_end; lia|lia| | |exists b0; by split_and!].
    + unfold rb_end. by rewrite Z.add_mod, Ho, Hlen by done.
    + intros b Hb. destruct (Z.le_gt_cases (rb_end b0) (rb_offset b)) as [Hle|Hgt].
      * right. specialize (Hnext b Hb Hle). lia.
      * left. destruct (apart_elem _ b b0 (ro_apart s Hok) Hb Hb0) as [-> |[?|?]]; [lia| |lia].
        unfold rb_end in *. lia.
Qed.

(** The offset chosen for a new RAM block lies behind an existing
    block, leaves room for the whole block before the next one, so that it
    overlaps none, is page aligned, and no smaller gap would have done; the
    search only fails when no block is followed by a large enough gap. *)
Theorem find_ram_offset_spec s size :
  ram_ok s -> 0 < size -> rl_blocks s <> [] ->
  (exists off, find_ram_offset size s = Ok off /\ 0 <= off /\ off + size <= RAM_ADDR_MAX /\
     off mod TARGET_PAGE_SIZE = 0 /\
     (forall b, b ∈ rl_blocks s -> rb_end b <= off \/ off + size <= rb_offset b) /\
     exists b0, b0 ∈ rl_blocks s /\ off = rb_end b0 /\
       forall b, b ∈ rl_blocks s -> size <= gap_after (rl_blocks s) b ->
         gap_after (rl_blocks s) b0 <= gap_after (rl_blocks s) b) \/
  (find_ram_offset size s = Abort /\
     forall b, b ∈ rl_blocks s -> gap_after (rl_blocks s) b < size).
Proof. apply find_ram_offset_fits. Qed.

(** ** Allocating a block *)

(** What the C library documents of [g_realloc]: the common prefix is kept. *)
Definition realloc_ok (realloc : words -> Z -> words) : Prop :=
  forall map n, words_ok map -> 0 <= n ->
    words_ok (realloc map n) /\ Z.of_nat (length (realloc map n)) = n /\
    forall k, (k < length map)%nat -> Z.of_nat k < n -> realloc map n !! k = map !! k.

Section Alloc.
Context (realloc : words -> Z -> words).
Hypothesis Hrealloc : realloc_ok realloc.

Lemma zero_extend_spec map old new :
  words_ok map -> 0 <= old < new -> old <= nbits map ->
  exists map', bitmap_zero_extend (realloc map (BITS_TO_LONGS new)) old new = Ok map' /\
    words_ok map' /\ new <= nbits map' /\
    forall i, 0 <= i < new -> bit map' i = (i <? old) && bit map i.
Proof.
  intros Hok Ho Hn. destruct (bits_to_longs new ltac:(lia)) as [Hl1 Hl2].
  destruct (Hrealloc map (BITS_TO_LONGS new) Hok ltac:(lia)) as (Hrok & Hrl & Hkeep).
  set (r := realloc map (BITS_TO_LONGS new)) in *. unfold bitmap_zero_extend.
  destruct (bitmap_clear_filled r old (new - old)) as (map' & E & Hok' & Hl' & Hb);
    [done|lia|lia|unfold nbits; lia|].
  exists map'. split_and!; [done|done|unfold nbits in *; lia|].
  intros i Hi. rewrite Hb by lia. replace (old + (new - old)) with new by lia.
  destruct (Z.ltb_spec i old).
  - replace ((old <=? i) && (i <? new)) with false by lia. cbn [andb].
    unfold bit. assert (0 <= i / 64) by (apply Z.div_pos; lia).
    assert (i / 64 < Z.of_nat (length map)) by (apply Z.div_lt_upper_bound; unfold nbits in *; lia).
    assert (i / 64 < BITS_TO_LONGS new) by (apply Z.div_lt_upper_bound; lia).
    by rewrite Hkeep by lia.
  - by replace ((old <=? i) && (i <? new)) with true by lia.
Qed.

Lemma extend_all_spec old new : 0 <= old < new -> forall d,
  Forall (fun map => words_ok map /\ old <= nbits map) d ->
  exists d', extend_all realloc old new d = Ok d' /\ length d' = length d /\
    Forall (fun map => words_ok map /\ new <= nbits map) d' /\
    forall c p, 0 <= p < new -> page_dirty d' c p = (p <? old) && page_dirty d c p.
Proof.
  intros Ho. induction 1 as [|map d [Hok Hn] Hd IH]; cbn [extend_all].
  - exists []. split_and!; [done|done|constructor|]. intros c p _. unfold page_dirty.
    by rewrite !lookup_nil, andb_false_r.
  - destruct (zero_extend_spec map old new Hok Ho Hn) as (map' & -> & Hok' & Hn' & Hb).
    cbn [mbind outcome_bind]. destruct IH as (d' & -> & Hl & Hd' & Hp). cbn [mbind outcome_bind].
    eexists. split; [done|]. split_and!; [cbn; congruence|by constructor|].
    intros c p Hpr. specialize (Hp (Z.of_nat (pred (Z.to_nat c))) p Hpr). unfold page_dirty in *.
    rewrite Nat2Z.id in Hp. destruct (Z.to_nat c) as [|c']; [by apply Hb|exact Hp].
Qed.

Lemma last_insert s nb s' :
  Forall block_ok (rl_blocks s) -> block_ok nb -> rl_blocks s' = insert_block nb (rl_blocks s) ->
  Forall block_ok (rl_blocks s') /\ last_ram_offset s' = last_ram_offset s `max` rb_end nb.
Proof.
  intros Hl Hnb Hins.
  assert (Forall block_ok (rl_blocks s')) as Hl'.
  { rewrite Hins. apply Forall_forall. intros b [-> |Hb]%insert_block_elem; [done|].
    by rewrite Forall_forall in Hl; apply Hl. }
  split; [done|].
  pose proof (fold_max_spec _ Hl 0 ltac:(lia)) as Hm. pose proof (fold_max_spec _ Hl' 0 ltac:(lia)) as Hm'.
  cbv zeta in Hm, Hm'. fold (last_ram_offset s) in Hm. fold (last_ram_offset s') in Hm'.
  destruct Hm as (H1 & H2 & H3), Hm' as (H1' & H2' & H3'). rewrite Hins in H2', H3'.
  setoid_rewrite insert_block_elem in H2'. setoid_rewrite insert_block_elem in H3'.
  assert (rb_end nb <= last_ram_offset s') by (apply H2'; by left).
  assert (last_ram_offset s <= last_ram_offset s').
  { destruct H3 as [-> |(b & Hb & ->)]; [lia|apply H2'; by right]. }
  destruct H3' as [E|(b & [-> |Hb] & E)]; [|lia|specialize (H2 b Hb); lia].
  destruct Hnb as (? & ? & _). unfold rb_end in *. lia.
Qed.

(** The block an allocation of [size] bytes at [off] adds. *)
Definition alloc_block (phys_mem_alloc : Z -> Z) (size host mr off : Z) : RAMBlock :=
  {| rb_mr := mr; rb_host := if negb (host =? 0) then host else phys_mem_alloc (TARGET_PAGE_ALIGN size);
     rb_offset := off; rb_length := TARGET_PAGE_ALIGN size; rb_prealloc := negb (host =? 0); rb_fd := -1 |}.

(** Where the block goes: it fits, so the block is well formed and apart. *)
Lemma alloc_fits s phys_mem_alloc size host mr off :
  ram_ok s -> 0 < size -> size + TARGET_PAGE_SIZE <= 2 ^ 64 ->
  find_ram_offset (TARGET_PAGE_ALIGN size) s = Ok off ->
  block_ok (alloc_block phys_mem_alloc size host mr off) /\
  Forall (apart (alloc_block phys_mem_alloc size host mr off)) (rl_blocks s).
Proof.
  intros Hok Hs Hov Hf. destruct (page_align size ltac:(lia) Hov) as [Hal Hmod].
  set (len := TARGET_PAGE_ALIGN size) in *. unfold block_ok, rb_end, apart, rb_end. cbn. fold len.
  destruct (rl_blocks s) as [|b0 l] eqn:E.
  - unfold find_ram_offset in Hf. rewrite (proj2 (Z.eqb_neq len 0)) in Hf by lia. cbn in Hf.
    rewrite E in Hf. injection Hf as <-. unfold TARGET_PAGE_SIZE in *.
    split; [|constructor]. split_and!; try done; try lia. Z.div_mod_to_equations. lia.
  - rewrite <- E. destruct (find_ram_offset_fits s len Hok ltac:(lia) ltac:(by rewrite E))
      as [(o & Ho & H0 & Hmax & Hoal & Happ & _)|[Hab _]]; [|congruence].
    rewrite Ho in Hf. injection Hf as ->. unfold RAM_ADDR_MAX, TARGET_PAGE_SIZE in *. split.
    + split_and!; try done; try lia. Z.div_mod_to_equations. lia.
    + apply Forall_forall. intros b Hb. destruct (Happ b Hb); unfold rb_end in *; tauto.
Qed.

Lemma ram_alloc_result s phys_mem_alloc size host mr off :
  ram_ok s -> 0 < size -> size + TARGET_PAGE_SIZE <= 2 ^ 64 ->
  find_ram_offset (TARGET_PAGE_ALIGN size) s = Ok off ->
  rb_host (alloc_block phys_mem_alloc size host mr off) <> 0 ->
  exists d, qemu_ram_alloc_from_ptr realloc phys_mem_alloc size host mr s = Ok (off,
      {| rl_dirty := d; rl_mru := None;
         rl_blocks := insert_block (alloc_block phys_mem_alloc size host mr off) (rl_blocks s);
         rl_version := u32 (rl_version s + 1) |}) /\
    dirty_ok ((last_ram_offset s `max` (off + TARGET_PAGE_ALIGN size)) / TARGET_PAGE_SIZE) d /\
    forall c p, 0 <= c < 6 -> 0 <= p ->
      (first_page off <= p < end_page off (TARGET_PAGE_ALIGN size) -> page_dirty d c p = true) /\
      (p < last_ram_offset s / TARGET_PAGE_SIZE ->
       ~ (first_page off <= p < end_page off (TARGET_PAGE_ALIGN size)) ->
       page_dirty d c p = page_dirty (rl_dirty s) c p).
Proof.
  intros Hok Hs Hov Hf Hh.
  destruct (alloc_fits s phys_mem_alloc size host mr off Hok Hs Hov Hf) as [Hnb _].
  unfold qemu_ram_alloc_from_ptr. rewrite Hf. cbn [mbind outcome_bind].
  fold (alloc_block phys_mem_alloc size host mr off). set (nb := alloc_block _ _ _ _ _) in *.
  change (if negb (host =? 0) then host else phys_mem_alloc (TARGET_PAGE_ALIGN size)) with (rb_host nb).
  rewrite (proj2 (Z.eqb_neq _ _) Hh). cbn [negb c_assert mbind outcome_bind rl_dirty].
  set (s1 := Build_RamState _ _ _ _).
  destruct (last_insert s nb s1 (ro_blocks s Hok) Hnb eq_refl) as [Hl1 Hlast].
  destruct (last_ram_offset_spec s (ro_blocks s Hok)) as (_ & H0 & Hb & Hm).
  destruct (last_ram_offset_spec s1 Hl1) as (_ & H0' & Hb' & Hm').
  unfold TARGET_PAGE_BITS. rewrite !Z.shiftr_div_pow2 by lia. change (2 ^ 12) with TARGET_PAGE_SIZE.
  change (rb_end nb) with (off + TARGET_PAGE_ALIGN size) in Hlast. rewrite <- Hlast.
  set (old := last_ram_offset s / TARGET_PAGE_SIZE) in *. set (new := last_ram_offset s1 / TARGET_PAGE_SIZE).
  assert (0 <= old <= new) as Hon.
  { unfold old, new, TARGET_PAGE_SIZE. split; [apply Z.div_pos; lia|apply Z.div_le_mono; lia]. }
  destruct (ro_dirty s Hok) as [Hl6 Hd]. fold old in Hd.
  assert (exists d1, (if old <? new then extend_all realloc old new (rl_dirty s) else Ok (rl_dirty s)) = Ok d1 /\
    dirty_ok new d1 /\ forall c p, 0 <= p < old -> page_dirty d1 c p = page_dirty (rl_dirty s) c p)
    as (d1 & -> & Hd1 & Hkeep).
  { destruct (Z.ltb_spec old new).
    - destruct (extend_all_spec old new ltac:(lia) _ Hd) as (d' & E & Hl' & Hd' & Hp).
      exists d'. split_and!; [done|split; [congruence|done]|]. intros c p Hp'. rewrite Hp by lia.
      by replace (p <? old) with true by lia.
    - exists (rl_dirty s). split_and!; [done| |done]. by replace new with old by lia. }
  cbn [mbind outcome_bind]. destruct Hnb as (Hn1 & Hn2 & Hn3 & Hn4 & Hn5). cbn in Hn1, Hn2, Hn4, Hn5.
  change (rb_end nb) with (off + TARGET_PAGE_ALIGN size) in Hn3.
  destruct (pages_of off (TARGET_PAGE_ALIGN size) Hn1 ltac:(lia) Hn3) as [Ep Ee].
  destruct (set_dirty_range_spec new off (TARGET_PAGE_ALIGN size) d1 Hd1) as (d2 & -> & Hd2 & Hp2); [lia| |].
  { rewrite Ee. unfold new, TARGET_PAGE_SIZE in *. Z.div_mod_to_equations. lia. }
  cbn [mbind outcome_bind]. exists d2. split_and!; [done|done|].
  intros c p Hc Hp. rewrite Hp2 by done. split.
  - intros Hin. by replace (_ && _) with true by lia.
  - intros Hlt Hout. rewrite Hkeep by lia. by replace (_ && _) with false by lia.
Qed.
End Alloc.

(** C36 (invariant): allocating guest RAM either fails because no gap is large
    enough, or adds one block that overlaps none of the others, keeps the
    list's invariant (disjoint, page aligned, largest first, dirty bitmaps as
    long as RAM), marks every page of the new block dirty for every client and
    keeps the dirty bits of every other page. *)
Theorem ram_alloc_ok realloc phys_mem_alloc size host mr s :
  realloc_ok realloc -> ram_ok s -> 0 < size -> size + TARGET_PAGE_SIZE <= 2 ^ 64 ->
  (host <> 0 \/ phys_mem_alloc (TARGET_PAGE_ALIGN size) <> 0) ->
  (exists off s' nb, qemu_ram_alloc_from_ptr realloc phys_mem_alloc size host mr s = Ok (off, s') /\
     ram_ok s' /\ rl_blocks s' = insert_block nb (rl_blocks s) /\ Forall (apart nb) (rl_blocks s) /\
     rb_offset nb = off /\ rb_length nb = TARGET_PAGE_ALIGN size /\
     forall c p, 0 <= c < 6 -> 0 <= p ->
       (first_page off <= p < end_page off (rb_length nb) -> page_dirty (rl_dirty s') c p = true) /\
       (p < last_ram_offset s / TARGET_PAGE_SIZE -> ~ (first_page off <= p < end_page off (rb_length nb)) ->
        page_dirty (rl_dirty s') c p = page_dirty (rl_dirty s) c p)) \/
  (qemu_ram_alloc_from_ptr realloc phys_mem_alloc size host mr s = Abort /\
   forall b, b ∈ rl_blocks s -> gap_after (rl_blocks s) b < TARGET_PAGE_ALIGN size).
Proof.
  intros Hre Hok Hs Hov Hh. destruct (page_align size ltac:(lia) Hov) as [Hal _].
  assert ((exists off, find_ram_offset (TARGET_PAGE_ALIGN size) s = Ok off) \/
    (find_ram_offset (TARGET_PAGE_ALIGN size) s = Abort /\
     forall b, b ∈ rl_blocks s -> gap_after (rl_blocks s) b < TARGET_PAGE_ALIGN size))
    as [[off Hf]|[Hf Hgap]].
  { destruct (rl_blocks s) eqn:E.
    - left. exists 0. unfold find_ram_offset. rewrite (proj2 (Z.eqb_neq _ 0)) by lia. cbn. by rewrite E.
    - destruct (find_ram_offset_fits s (TARGET_PAGE_ALIGN size) Hok ltac:(lia) ltac:(by rewrite E))
        as [(o & Ho & _)|H]; [left; by exists o|right; by rewrite <- E]. }
  - left. set (nb := alloc_block phys_mem_alloc size host mr off).
    assert (rb_host nb <> 0) as Hnz.
    { cbn. destruct (Z.eqb_spec host 0) as [->|]; cbn; [|done]. by destruct Hh. }
    destruct (ram_alloc_result realloc Hre s phys_mem_alloc size host mr off Hok Hs Hov Hf Hnz)
      as (d & -> & Hd & Hp).
    destruct (alloc_fits s phys_mem_alloc size host mr off Hok Hs Hov Hf) as [Hnb Happ].
    fold nb in Hnb, Happ. set (s' := Build_RamState _ _ _ _).
    destruct (last_insert s nb s' (ro_blocks s Hok) Hnb eq_refl) as [Hl' Hlast].
    exists off, s', nb. split_and!; try done. split; cbn [rl_dirty rl_mru rl_blocks s'].
    + done.
    + by apply insert_block_apart; [apply Hok|].
    + by apply insert_block_big_first, Hok.
    + rewrite Hlast. done.
    + done.
  - right. split; [|done]. unfold qemu_ram_alloc_from_ptr. by rewrite Hf.
Qed.

(** Padding or cutting the list is one way to reallocate it. *)
Definition pad_realloc (map : words) (n : Z) : words := resize (Z.to_nat n) 0 map.

Lemma pad_realloc_ok : realloc_ok pad_realloc.
Proof.
  intros map n Hok Hn. unfold pad_realloc. split_and!.
  - apply Forall_resize; [unfold in_u; lia|done].
  - rewrite length_resize. lia.
  - intros k Hk Hkn. apply lookup_resize; lia.
Qed.

(** 64 MiB of RAM at 0 and a 256 KiB flash behind it. *)
Definition xbox_ram : RamState :=
  {| rl_dirty := replicate 6 (replicate 257 0); rl_mru := None; rl_version := 2;
     rl_blocks := [{| rb_mr := 1; rb_host := 0x7f0000000000; rb_offset := 0; rb_length := 0x4000000;
                      rb_prealloc := false; rb_fd := -1 |};
                   {| rb_mr := 2; rb_host := 0x7f0010000000; rb_offset := 0x4000000;
                      rb_length := 0x40000; rb_prealloc := false; rb_fd := -1 |}] |}.

Lemma xbox_ram_ok : ram_ok xbox_ram.
Proof.
  split; cbn.
  - repeat constructor; unfold rb_end, TARGET_PAGE_SIZE; cbn; lia || done.
  - repeat constructor; unfold apart, rb_end; cbn; lia.
  - repeat constructor; cbn; lia.
  - split; [reflexivity|]. repeat constructor; try (by apply words_ok_check);
      vm_compute; discriminate.
  - done.
Qed.

Lemma find_ram_offset_spec_witness :
  exists off, find_ram_offset 0x2000 xbox_ram = Ok off /\ off mod TARGET_PAGE_SIZE = 0.
Proof.
  destruct (find_ram_offset_spec xbox_ram 0x2000 xbox_ram_ok)
    as [(off & E & _ & _ & Hpage & _)|[Hab _]].
  - lia.
  - discriminate.
  - exists off. split; [exact E|exact Hpage].
  - vm_compute in Hab. discriminate Hab.
Defined.

Lemma ram_alloc_ok_witness :
  exists s' nb, qemu_ram_alloc pad_realloc (fun _ => 0x7f0020000000) 0x1800 7 xbox_ram = Ok (0x4040000, s') /\
    ram_ok s' /\ rb_length nb = 0x2000 /\ nb ∈ rl_blocks s'.
Proof.
  destruct (ram_alloc_ok pad_realloc (fun _ => 0x7f0020000000) 0x1800 0 7 xbox_ram)
    as [(off & s' & nb & E & Hok & Hins & _ & _ & Hlen & _)|[Hab _]].
  - apply pad_realloc_ok.
  - apply xbox_ram_ok.
  - lia.
  - unfold TARGET_PAGE_SIZE. lia.
  - right. lia.
  - exists s', nb. split_and!; [|exact Hok|by rewrite Hlen|rewrite Hins; apply insert_block_elem; by left].
    unfold qemu_ram_alloc. rewrite E. f_equal. f_equal.
    apply (f_equal (fun r => match r with Ok (o, _) => o | _ => -1 end)) in E.
    vm_compute in E. exact (eq_sym E).
  - vm_compute in Hab. discriminate Hab.
Defined.

Lemma ram_ok_mru s i : ram_ok s -> (i < length (rl_blocks s))%nat -> ram_ok (set_mru (Some i) s).
Proof. intros [H1 H2 H3 H4 H5] Hi. split; cbn; try done. by intros j [= ->]. Qed.

Lemma get_ram_block_cases s addr :
  ram_ok s -> in_u 64 addr ->
  (exists b s', qemu_get_ram_block addr s = Ok (b, s') /\ b ∈ rl_blocks s /\
     rb_offset b <= addr < rb_end b /\ ram_ok s' /\ mru_block s' = Some b /\
     rl_blocks s' = rl_blocks s /\
     forall b', b' ∈ rl_blocks s -> rb_offset b' <= addr < rb_end b' -> b' = b) \/
  (qemu_get_ram_block addr s = Abort /\
     forall b, b ∈ rl_blocks s -> ~ (rb_offset b <= addr < rb_end b)).
Proof.
  intros Hok Ha. pose proof (ro_blocks s Hok) as Hl. rewrite Forall_forall in Hl.
  assert (Huniq : forall b b', b ∈ rl_blocks s -> b' ∈ rl_blocks s ->
    rb_offset b <= addr < rb_end b -> rb_offset b' <= addr < rb_end b' -> b' = b).
  { intros b b' Hb Hb' H H'. destruct (apart_elem _ b' b (ro_apart s Hok) Hb' Hb) as [|[?|?]]; [done|lia..]. }
  assert (Hsearch : match find_block (in_block addr) 0 (rl_blocks s) with
    | Some (i, b) => rl_blocks s !! i = Some b /\ rb_offset b <= addr < rb_end b
    | None => forall b, b ∈ rl_blocks s -> ~ (rb_offset b <= addr < rb_end b) end).
  { destruct (find_block _ _ _) as [[i b]|] eqn:E.
    - apply find_block_Some in E as (_ & Hi & Hin). rewrite Nat.sub_0_r in Hi. split; [done|].
      apply in_block_spec; [|done..]. by apply Hl, (list_elem_of_lookup_2 _ i).
    - intros b Hb Hin. apply in_block_spec in Hin; [|by apply Hl|done].
      by rewrite (find_block_None _ _ _ E b Hb) in Hin. }
  assert (Hfound : forall i b, find_block (in_block addr) 0 (rl_blocks s) = Some (i, b) ->
    b ∈ rl_blocks s /\ rb_offset b <= addr < rb_end b /\ ram_ok (set_mru (Some i) s) /\
    mru_block (set_mru (Some i) s) = Some b).
  { intros i b E. rewrite E in Hsearch. destruct Hsearch as [Hi Hin].
    split_and!; [by apply (list_elem_of_lookup_2 _ i)|lia..| |exact Hi].
    apply ram_ok_mru; [done|]. by apply lookup_lt_Some in Hi. }
  unfold qemu_get_ram_block. destruct (mru_block s) as [b|] eqn:Hmru.
  - assert (b ∈ rl_blocks s) as Hb.
    { unfold mru_block in Hmru. destruct (rl_mru s) as [i|]; [|done]. by apply (list_elem_of_lookup_2 _ i). }
    destruct (in_block addr b) eqn:Hin.
    + left. apply in_block_spec in Hin; [|by apply Hl|done]. exists b, s. split_and!; eauto; lia.
    + destruct (find_block (in_block addr) 0 (rl_blocks s)) as [[i b']|] eqn:E; [left|by right].
      destruct (Hfound i b' eq_refl) as (? & ? & ? & ?). exists b', (set_mru (Some i) s).
      split_and!; eauto; lia.
  - destruct (find_block (in_block addr) 0 (rl_blocks s)) as [[i b']|] eqn:E; [left|by right].
    destruct (Hfound i b' eq_refl) as (? & ? & ? & ?). exists b', (set_mru (Some i) s).
    split_and!; eauto; lia.
Qed.

(** Looking up a RAM address returns the one block that
    contains it, whatever block was used last, and remembers it; the lookup
    aborts exactly when no block contains the address. *)
Theorem qemu_get_ram_block_spec s addr :
  ram_ok s -> in_u 64 addr ->
  (exists b s', qemu_get_ram_block addr s = Ok (b, s') /\ b ∈ rl_blocks s /\
     rb_offset b <= addr < rb_end b /\ ram_ok s' /\ mru_block s' = Some b /\
     rl_blocks s' = rl_blocks s /\
     forall b', b' ∈ rl_blocks s -> rb_offset b' <= addr < rb_end b' -> b' = b) \/
  (qemu_get_ram_block addr s = Abort /\
     forall b, b ∈ rl_blocks s -> ~ (rb_offset b <= addr < rb_end b)).
Proof. apply get_ram_block_cases. Qed.

Lemma qemu_get_ram_block_spec_witness :
  exists b s', qemu_get_ram_block 0x4000010 xbox_ram = Ok (b, s') /\ rb_mr b = 2 /\ ram_ok s'.
Proof.
  destruct (qemu_get_ram_block_spec xbox_ram 0x4000010 xbox_ram_ok ltac:(unfold in_u; lia))
    as [(b & s' & E & _ & _ & Hok & _)|[Hab _]].
  - exists b, s'. split; [exact E|]. split; [|exact Hok].
    vm_compute in E. by injection E as <- _.
  - vm_compute in Hab. discriminate Hab.
Defined.

(** ** Freeing a block *)
Lemma delete_apart l : forall i, pairwise_apart l -> pairwise_apart (delete i l).
Proof.
  induction l as [|x l IH]; intros i Hl; [done|]. destruct Hl as [Hx Hl].
  destruct i as [|i]; [done|]. split; [|by apply IH].
  apply Forall_forall. intros b Hb. rewrite Forall_forall in Hx. apply Hx.
  eapply elem_of_submseteq; [exact Hb|]. apply sublist_submseteq, sublist_delete.
Qed.

Lemma delete_big_first l : forall i, big_first l -> big_first (delete i l).
Proof.
  induction l as [|x l IH]; intros i Hl; [done|]. destruct Hl as [Hx Hl].
  destruct i as [|i]; [done|]. split; [|by apply IH].
  apply Forall_forall. intros b Hb. rewrite Forall_forall in Hx. apply Hx.
  eapply elem_of_submseteq; [exact Hb|]. apply sublist_submseteq, sublist_delete.
Qed.

(** Freeing a block keeps the invariant of the list, removes
    the block at the given offset and no other, and does nothing when there is
    none. *)
Theorem qemu_ram_free_ok s addr :
  ram_ok s ->
  let s' := (qemu_ram_free addr s).1 in
  ram_ok s' /\ forall b, b ∈ rl_blocks s' <-> b ∈ rl_blocks s /\ rb_offset b <> addr.
Proof.
  intros Hok. cbv zeta. unfold qemu_ram_free, qemu_ram_free_from_ptr.
  destruct (find_block _ 0 (rl_blocks s)) as [[i b0]|] eqn:E; cbn [fst].
  2: { split; [done|]. intros b. split; [|tauto]. intros Hb. split; [done|]. intros <-.
       pose proof (find_block_None _ _ _ E b Hb) as Hf. cbn in Hf. lia. }
  apply find_block_Some in E as (_ & Hi & Hoff). rewrite Nat.sub_0_r in Hi.
  apply Z.eqb_eq in Hoff. pose proof (ro_blocks s Hok) as Hl.
  assert (Forall block_ok (delete i (rl_blocks s))) as Hl' by (by apply Forall_delete).
  set (s' := Build_RamState _ _ _ _).
  assert (last_ram_offset s' <= last_ram_offset s) as Hlast.
  { pose proof (fold_max_spec _ Hl' 0 ltac:(lia)) as Hm. cbv zeta in Hm. fold (last_ram_offset s') in Hm.
    destruct (last_ram_offset_spec s Hl) as (Hmax & H0 & _). destruct Hm as (_ & _ & [E|(b & Hb & E)]).
    - change (last_ram_offset s') with
        (fold_left (fun last b => last `max` u64 (rb_end b)) (delete i (rl_blocks s)) 0). lia.
    - change (last_ram_offset s') with
        (fold_left (fun last b => last `max` u64 (rb_end b)) (delete i (rl_blocks s)) 0).
      rewrite E. apply Hmax. eapply elem_of_submseteq; [exact Hb|].
      apply sublist_submseteq, sublist_delete. }
  split.
  - split; cbn [rl_blocks rl_dirty rl_mru s']; [done|by apply delete_apart, Hok|by apply delete_big_first, Hok| |done].
    destruct (ro_dirty s Hok) as [Hl6 Hd]. split; [done|]. eapply Forall_impl; [exact Hd|].
    intros map [? Hn]. split; [done|]. etransitivity; [|exact Hn].
    apply Z.div_le_mono; [unfold TARGET_PAGE_SIZE; lia|done].
  - intros b. cbn [rl_blocks s']. split.
    + intros [j Hj]%list_elem_of_lookup.
      assert (exists k, k <> i /\ rl_blocks s !! k = Some b) as (k & Hk & Hkb).
      { destruct (decide (j < i)%nat).
        - exists j. split; [lia|]. by rewrite list_lookup_delete_lt in Hj by lia.
        - exists (S j). split; [lia|]. by rewrite list_lookup_delete_ge in Hj by lia. }
      split; [by apply (list_elem_of_lookup_2 _ k)|]. intros Heq.
      pose proof (apart_lookup _ (ro_apart s Hok) k i b b0 Hkb Hi Hk) as Hap.
      rewrite Forall_forall in Hl. destruct (Hl b) as (_ & ? & _); [by apply (list_elem_of_lookup_2 _ k)|].
      destruct (Hl b0) as (_ & ? & _); [by apply (list_elem_of_lookup_2 _ i)|].
      unfold apart, rb_end in Hap. lia.
    + intros [[k Hk]%list_elem_of_lookup Hne]. apply list_elem_of_lookup.
      assert (k <> i) by (intros ->; rewrite Hi in Hk; injection Hk as ->; lia).
      destruct (decide (k < i)%nat); [exists k|exists (pred k)].
      * by rewrite list_lookup_delete_lt by lia.
      * rewrite list_lookup_delete_ge by lia. by replace (S (pred k)) with k by lia.
Qed.

Lemma qemu_ram_free_ok_witness :
  ram_ok (qemu_ram_free 0x4000000 xbox_ram).1 /\
  length (rl_blocks (qemu_ram_free 0x4000000 xbox_ram).1) = 1%nat.
Proof.
  split; [|reflexivity]. exact (proj1 (qemu_ram_free_ok xbox_ram 0x4000000 xbox_ram_ok)).
Defined.
