(* ===== verification/HBitmap.v ===== *)
(** * Hierarchical bitmaps (util/hbitmap.c, include/qemu/hbitmap.h)

    Seven bitmaps of decreasing coarseness: a bit of a level tells whether the
    word of that index in the next level is nonzero.  The file models every
    operation and shows that the levels stay consistent, that the count is the
    number of set bits, and that iteration visits exactly the set bits in
    increasing order. *)
From Stdlib Require Import Sorted.
From S2P Require Import Prelude HostUtils Bitops Bitmap.
Local Open Scope Z_scope.

Definition BITS_PER_LEVEL : Z := 6.
Definition HBITMAP_LOG_MAX_SIZE : Z := 41.
Definition HBITMAP_LEVELS : nat := 7.

(** [hb_levels] lists the levels from the coarsest, level 0, to the bitmap
    itself. *)
Record HBitmap := {
  hb_size : Z;
  hb_count : Z;
  hb_granularity : Z;
  hb_levels : list words
}.

(** The iterator; the bitmap it points to is an argument of its operations. *)
Record HBitmapIter := {
  hbi_granularity : Z;
  hbi_pos : Z;
  hbi_cur : list Z
}.

Definition level_of (levels : list words) (i : nat) : outcome words :=
  match levels !! i with Some l => Ok l | None => Abort end.

(** ** Iteration *)

(** The loop that climbs to a level with subtrees left; reading [cur[-1]]
    would be out of bounds. *)
Fixpoint skip_up (cur : list Z) (i : nat) (pos : Z) : outcome (nat * Z * Z) :=
  match i with
  | O => Abort
  | S i =>
      match cur !! i with
      | None => Abort
      | Some c =>
          let pos := Z.shiftr pos BITS_PER_LEVEL in
          if c =? 0 then skip_up cur i pos else Ok (i, c, pos)
      end
  end.

(** The loop that descends [n] levels from level [i] to the next leaf word. *)
Fixpoint skip_down (n : nat) (levels : list words) (i : nat) (cur : list Z) (c pos : Z)
    : outcome (list Z * Z * Z) :=
  match n with
  | O => Ok (cur, c, pos)
  | S n =>
      _ ← c_assert (negb (c =? 0));
      let pos := u64 (Z.shiftl pos BITS_PER_LEVEL + ctz64 c) in
      let cur := <[i := Z.land c (u64 (c - 1))]> cur in
      l ← level_of levels (S i);
      c ← rd l pos;
      skip_down n levels (S i) cur c pos
  end.

Definition hbitmap_iter_skip_words (hb : HBitmap) (hbi : HBitmapIter) : outcome (Z * HBitmapIter) :=
  '(i, c, pos) ← skip_up (hbi_cur hbi) (HBITMAP_LEVELS - 1) (hbi_pos hbi);
  if (i =? 0)%nat && (c =? Z.shiftl 1 (BITS_PER_LONG - 1)) then Ok (0, hbi)
  else
    '(cur, c, pos) ← skip_down (HBITMAP_LEVELS - 1 - i) (hb_levels hb) i (hbi_cur hbi) c pos;
    _ ← c_assert (negb (c =? 0));
    Ok (c, {| hbi_granularity := hbi_granularity hbi; hbi_pos := pos; hbi_cur := cur |}).

(** Levels [n-1 .. 0] of the iterator's path. *)
Fixpoint init_cur (n : nat) (levels : list words) (pos : Z) (cur : list Z) : outcome (list Z) :=
  match n with
  | O => Ok cur
  | S i =>
      let bit := Z.land pos (BITS_PER_LONG - 1) in
      let pos := Z.shiftr pos BITS_PER_LEVEL in
      l ← level_of levels i;
      w ← rd l pos;
      let c := Z.land w (not64 (Z.shiftl 1 bit - 1)) in
      let c := if negb (i =? HBITMAP_LEVELS - 1)%nat then Z.land c (not64 (Z.shiftl 1 bit)) else c in
      init_cur i levels pos (c :: cur)
  end.

Definition hbitmap_iter_init (hb : HBitmap) (first : Z) : outcome HBitmapIter :=
  let pos := Z.shiftr first (hb_granularity hb) in
  _ ← c_assert (pos <? hb_size hb);
  cur ← init_cur HBITMAP_LEVELS (hb_levels hb) pos [];
  Ok {| hbi_granularity := hb_granularity hb; hbi_pos := Z.shiftr pos BITS_PER_LEVEL; hbi_cur := cur |}.

Definition set_cur (i : nat) (c : Z) (hbi : HBitmapIter) : HBitmapIter :=
  {| hbi_granularity := hbi_granularity hbi; hbi_pos := hbi_pos hbi; hbi_cur := <[i := c]> (hbi_cur hbi) |}.

(** The current word, or the next nonzero one. *)
Definition iter_word (hb : HBitmap) (hbi : HBitmapIter) : outcome (Z * HBitmapIter) :=
  match hbi_cur hbi !! (HBITMAP_LEVELS - 1)%nat with
  | None => Abort
  | Some cur => if cur =? 0 then hbitmap_iter_skip_words hb hbi else Ok (cur, hbi)
  end.

Definition hbitmap_iter_next (hb : HBitmap) (hbi : HBitmapIter) : outcome (Z * HBitmapIter) :=
  '(cur, hbi) ← iter_word hb hbi;
  if cur =? 0 then Ok (-1, hbi)
  else
    let hbi := set_cur (HBITMAP_LEVELS - 1) (Z.land cur (u64 (cur - 1))) hbi in
    let item := s64 (Z.shiftl (hbi_pos hbi) BITS_PER_LEVEL + ctz64 cur) in
    Ok (s64 (Z.shiftl item (hbi_granularity hbi)), hbi).

(** Returns the word's index ([size_t] -1 at the end) and the word. *)
Definition hbitmap_iter_next_word (hb : HBitmap) (hbi : HBitmapIter) : outcome (Z * Z * HBitmapIter) :=
  '(cur, hbi) ← iter_word hb hbi;
  if cur =? 0 then Ok (u64 (-1), 0, hbi)
  else Ok (hbi_pos hbi, cur, set_cur (HBITMAP_LEVELS - 1) 0 hbi).

(** ** Queries *)
Definition hbitmap_empty (hb : HBitmap) : bool := hb_count hb =? 0.
Definition hbitmap_granularity (hb : HBitmap) : Z := hb_granularity hb.
Definition hbitmap_count (hb : HBitmap) : Z := u64 (Z.shiftl (hb_count hb) (hb_granularity hb)).

Definition popcountl (l : Z) : Z := ctpop64 l.

Fixpoint count_words (fuel : nat) (hb : HBitmap) (hbi : HBitmapIter) (end_ count : Z)
    : outcome (Z * Z * Z) :=
  match fuel with
  | O => NoFuel
  | S fuel =>
      '(pos, cur, hbi) ← hbitmap_iter_next_word hb hbi;
      if Z.shiftr end_ BITS_PER_LEVEL <=? pos then Ok (pos, cur, count)
      else count_words fuel hb hbi end_ (u64 (count + popcountl cur))
  end.

Definition hb_count_between (hb : HBitmap) (start last : Z) : outcome Z :=
  let end_ := u64 (last + 1) in
  hbi ← hbitmap_iter_init hb (u64 (Z.shiftl start (hb_granularity hb)));
  '(pos, cur, count) ← count_words (S (S (Z.to_nat (Z.shiftr end_ BITS_PER_LEVEL)))) hb hbi end_ 0;
  if pos =? Z.shiftr end_ BITS_PER_LEVEL then
    let bit := Z.land end_ (BITS_PER_LONG - 1) in
    let cur := Z.land cur (Z.shiftl 1 bit - 1) in
    Ok (u64 (count + popcountl cur))
  else Ok count.

Definition hbitmap_get (hb : HBitmap) (item : Z) : outcome bool :=
  let pos := Z.shiftr item (hb_granularity hb) in
  let bit := Z.shiftl 1 (Z.land pos (BITS_PER_LONG - 1)) in
  l ← level_of (hb_levels hb) (HBITMAP_LEVELS - 1);
  w ← rd l (Z.shiftr pos BITS_PER_LEVEL);
  Ok (negb (Z.land w bit =? 0)).

(** ** Setting and resetting *)

(** The part of [hb_set_elem] and [hb_reset_elem] they share. *)
Definition elem_mask (start last : Z) : outcome Z :=
  _ ← c_assert (Z.shiftr last BITS_PER_LEVEL =? Z.shiftr start BITS_PER_LEVEL);
  _ ← c_assert (start <=? last);
  Ok (u64 (u64 (Z.shiftl 2 (Z.land last (BITS_PER_LONG - 1)))
           - Z.shiftl 1 (Z.land start (BITS_PER_LONG - 1)))).

Definition hb_set_elem (elem start last : Z) : outcome (bool * Z) :=
  mask ← elem_mask start last;
  Ok (elem =? 0, Z.lor elem mask).

Definition hb_reset_elem (elem start last : Z) : outcome (bool * Z) :=
  mask ← elem_mask start last;
  Ok (negb (elem =? 0) && (Z.land elem (not64 mask) =? 0), Z.land elem (not64 mask)).

(** Apply an element function to [map[i]]. *)
Definition on_elem (f : Z -> outcome (bool * Z)) (map : words) (i : Z) : outcome (bool * words) :=
  w ← rd map i;
  '(b, w') ← f w;
  map ← modify_word (fun _ => w') map i;
  Ok (b, map).

(** The loop over the whole words between the first and the last one; a word
    counts as changed when [touched] holds of its old value. *)
Fixpoint middle_words (fuel : nat) (value : Z) (touched : Z -> bool) (map : words)
    (i lastpos next : Z) (changed : bool) : outcome (words * Z * bool) :=
  match fuel with
  | O => NoFuel
  | S fuel =>
      let start := next in
      let next := u64 (next + BITS_PER_LONG) in
      let i := i + 1 in
      if i =? lastpos then Ok (map, start, changed)
      else
        w ← rd map i;
        map ← modify_word (fun _ => value) map i;
        middle_words fuel value touched map i lastpos next (changed || touched w)
  end.

Definition next_boundary (start : Z) : Z := u64 (Z.lor start (BITS_PER_LONG - 1) + 1).

(** One level of [hb_set_between]: the new words and whether one was zero. *)
Definition set_level (map : words) (start last : Z) : outcome (words * bool) :=
  let pos := Z.shiftr start BITS_PER_LEVEL in
  let lastpos := Z.shiftr last BITS_PER_LEVEL in
  '(map, start, changed) ←
    (if pos <? lastpos then
       let next := next_boundary start in
       '(c, map) ← on_elem (fun w => hb_set_elem w start (next - 1)) map pos;
       middle_words (Z.to_nat (lastpos - pos)) ones64 (fun w => w =? 0) map pos lastpos next c
     else Ok (map, start, false));
  '(c, map) ← on_elem (fun w => hb_set_elem w start last) map lastpos;
  Ok (map, changed || c).

Fixpoint hb_set_between (level : nat) (levels : list words) (start last : Z) : outcome (list words) :=
  let pos := Z.shiftr start BITS_PER_LEVEL in
  let lastpos := Z.shiftr last BITS_PER_LEVEL in
  map ← level_of levels level;
  '(map, changed) ← set_level map start last;
  let levels := <[level := map]> levels in
  match level with
  | S level => if (changed : bool) then hb_set_between level levels pos lastpos else Ok levels
  | O => Ok levels
  end.

Definition hbitmap_set (hb : HBitmap) (start count : Z) : outcome HBitmap :=
  let last := u64 (u64 (start + count) - 1) in
  let start := Z.shiftr start (hb_granularity hb) in
  let last := Z.shiftr last (hb_granularity hb) in
  let count := u64 (u64 (last - start) + 1) in
  between ← hb_count_between hb start last;
  levels ← hb_set_between (HBITMAP_LEVELS - 1) (hb_levels hb) start last;
  Ok {| hb_size := hb_size hb; hb_count := u64 (hb_count hb + u64 (count - between));
        hb_granularity := hb_granularity hb; hb_levels := levels |}.

(** One level of [hb_reset_between]: the new words, the words to clear in the
    level above, and whether there are any. *)
Definition reset_level (map : words) (start last : Z) : outcome (words * Z * Z * bool) :=
  let pos := Z.shiftr start BITS_PER_LEVEL in
  let lastpos := Z.shiftr last BITS_PER_LEVEL in
  '(map, pos', start, changed) ←
    (if pos <? lastpos then
       let next := next_boundary start in
       '(c, map) ← on_elem (fun w => hb_reset_elem w start (next - 1)) map pos;
       let pos' := if (c : bool) then pos else pos + 1 in
       '(map, start, changed) ←
         middle_words (Z.to_nat (lastpos - pos)) 0 (fun w => negb (w =? 0)) map pos lastpos next c;
       Ok (map, pos', start, changed)
     else Ok (map, pos, start, false));
  '(c, map) ← on_elem (fun w => hb_reset_elem w start last) map lastpos;
  Ok (map, pos', if (c : bool) then lastpos else u64 (lastpos - 1), changed || c).

Fixpoint hb_reset_between (level : nat) (levels : list words) (start last : Z) : outcome (list words) :=
  map ← level_of levels level;
  '(map, pos, lastpos, changed) ← reset_level map start last;
  let levels := <[level := map]> levels in
  match level with
  | S level => if (changed : bool) then hb_reset_between level levels pos lastpos else Ok levels
  | O => Ok levels
  end.

Definition hbitmap_reset (hb : HBitmap) (start count : Z) : outcome HBitmap :=
  let last := u64 (u64 (start + count) - 1) in
  let start := Z.shiftr start (hb_granularity hb) in
  let last := Z.shiftr last (hb_granularity hb) in
  between ← hb_count_between hb start last;
  levels ← hb_reset_between (HBITMAP_LEVELS - 1) (hb_levels hb) start last;
  Ok {| hb_size := hb_size hb; hb_count := u64 (hb_count hb - between);
        hb_granularity := hb_granularity hb; hb_levels := levels |}.

(** ** Allocation *)

(** The levels [n-1 .. 0] above a level of [size] words or bits, and the size
    of the last one allocated. *)
Fixpoint alloc_levels (n : nat) (size : Z) (levels : list words) : list words * Z :=
  match n with
  | O => (levels, size)
  | S n =>
      let size := Z.max (Z.shiftr (u64 (size + BITS_PER_LONG - 1)) BITS_PER_LEVEL) 1 in
      alloc_levels n size (replicate (Z.to_nat size) 0 :: levels)
  end.

Definition hbitmap_alloc (size granularity : Z) : outcome HBitmap :=
  _ ← c_assert ((0 <=? granularity) && (granularity <? 64));
  let size := Z.shiftr (u64 (u64 (size + Z.shiftl 1 granularity) - 1)) granularity in
  _ ← c_assert (size <=? Z.shiftl 1 HBITMAP_LOG_MAX_SIZE);
  let '(levels, top) := alloc_levels HBITMAP_LEVELS size [] in
  _ ← c_assert (top =? 1);
  level0 ← level_of levels 0;
  level0 ← modify_word (fun w => Z.lor w (Z.shiftl 1 (BITS_PER_LONG - 1))) level0 0;
  Ok {| hb_size := size; hb_count := 0; hb_granularity := granularity;
        hb_levels := <[0%nat := level0]> levels |}.

(** ** Words and their bits *)
Definition wd (map : words) (k : Z) : Z := default 0 (map !! Z.to_nat k).
Definition nz (map : words) (k : Z) : bool := negb (wd map k =? 0).

Lemma rd_wd map k : 0 <= k < Z.of_nat (length map) -> rd map k = Ok (wd map k).
Proof.
  intros Hk. unfold rd, wd. replace (k <? 0) with false by lia.
  destruct (lookup_lt_is_Some_2 map (Z.to_nat k)) as [w ->]; [lia|done].
Qed.

Lemma wd_range map k : words_ok map -> in_u 64 (wd map k).
Proof.
  intros Hok. unfold wd. destruct (map !! Z.to_nat k) eqn:E; [|unfold in_u; cbn; lia].
  by apply (Forall_lookup_1 _ _ _ _ Hok E).
Qed.

Lemma wd_bit map k j : 0 <= k -> 0 <= j < 64 -> Z.testbit (wd map k) j = bit map (64 * k + j).
Proof.
  intros Hk Hj. unfold bit, wd.
  replace ((64 * k + j) / 64) with k by (Z.div_mod_to_equations; lia).
  replace ((64 * k + j) mod 64) with j by (Z.div_mod_to_equations; lia).
  destruct (map !! Z.to_nat k); [done|]. apply Z.bits_0.
Qed.

Lemma wd_shows map k : words_ok map -> 0 <= k -> shows (bit map) (64 * k) 0 64 (wd map k).
Proof.
  intros Hok Hk. pose proof (wd_range map k Hok) as Hw. split_and!; try lia; [done|].
  intros j Hj. destruct (Z.ltb_spec j 64).
  - replace (0 <=? j) with true by lia. apply wd_bit; lia.
  - rewrite andb_false_r. unfold in_u in Hw. by apply (testbit_high _ 64).
Qed.

(** A word is nonzero exactly when one of its bits is set. *)
Lemma nz_true map k : words_ok map -> 0 <= k ->
  nz map k = true <-> exists j, 64 * k <= j < 64 * k + 64 /\ bit map j = true.
Proof.
  intros Hok Hk. pose proof (wd_shows map k Hok Hk) as Hs. unfold nz. split.
  - intros Hnz. assert (wd map k <> 0) as Hne by (intros E; by rewrite E in Hnz).
    pose proof (shows_first _ _ _ _ _ (64 * k + 64) Hs Hne ltac:(lia)) as (Hr & _ & Ht).
    pose proof (wd_range map k Hok) as Hw. unfold in_u in Hw.
    destruct (ctz64_trailing (wd map k) ltac:(lia)) as [[? _] ?].
    exists (64 * k + ctz64 (wd map k)). split; [lia|]. apply Ht. lia.
  - intros (j & Hj & Hb). destruct (Z.eqb_spec (wd map k) 0) as [E|]; [|done].
    rewrite (shows_zero _ _ _ _ _ Hs E) in Hb by lia. done.
Qed.

Lemma nz_false map k : words_ok map -> 0 <= k ->
  nz map k = false <-> forall j, 64 * k <= j < 64 * k + 64 -> bit map j = false.
Proof.
  intros Hok Hk. rewrite <- not_true_iff_false, nz_true by done. split.
  - intros Hn j Hj. apply not_true_iff_false. intros Hb. apply Hn. by exists j.
  - intros Hf (j & Hj & Hb). by rewrite Hf in Hb.
Qed.

Lemma nz_ext map map' k : words_ok map -> words_ok map' -> 0 <= k ->
  (forall j, 64 * k <= j < 64 * k + 64 -> bit map' j = bit map j) -> nz map' k = nz map k.
Proof.
  intros Hok Hok' Hk He. destruct (nz map k) eqn:E.
  - apply (nz_true map) in E as (j & Hj & Hb); [|done..]. apply nz_true; [done..|].
    exists j. by rewrite He.
  - apply nz_false; [done..|]. intros j Hj. rewrite He by done. by apply (nz_false map k).
Qed.

(** ** One element *)
Lemma shiftr6 x : Z.shiftr x BITS_PER_LEVEL = x / 64.
Proof. by rewrite Z.shiftr_div_pow2. Qed.

Lemma land63 x : Z.land x (BITS_PER_LONG - 1) = x mod 64.
Proof. apply (Z.land_ones x 6). lia. Qed.

Lemma range_mask a b : 0 <= a <= b -> b < 64 ->
  mask_of a (b + 1) (u64 (u64 (Z.shiftl 2 b) - Z.shiftl 1 a)).
Proof.
  intros Hab Hb. rewrite wrap_sub_l. rewrite !Z.shiftl_mul_pow2 by lia.
  replace (2 * 2 ^ b - 1 * 2 ^ a) with (Z.shiftl (Z.ones (b + 1 - a)) a).
  2: { rewrite Z.shiftl_mul_pow2, Z.ones_equiv by lia. rewrite <- Z.sub_1_r.
       rewrite Z.mul_sub_distr_r, <- Z.pow_add_r by lia.
       replace (b + 1 - a + a) with (Z.succ b) by lia. rewrite Z.pow_succ_r by lia. lia. }
  split_and!; try lia; [apply wrap_range; lia|]. intros j Hj.
  rewrite wrap_bit by lia. replace (j <? 64) with true by lia. rewrite Z.shiftl_spec by lia. cbn [andb].
  destruct (Z.leb_spec a j).
  - rewrite ones_bit by lia. destruct (Z.ltb_spec (j - a) (b + 1 - a)), (Z.ltb_spec j (b + 1)); cbn; lia.
  - by rewrite Z.testbit_neg_r by lia.
Qed.

Lemma elem_mask_spec start last : 0 <= start <= last -> last / 64 = start / 64 ->
  exists m, elem_mask start last = Ok m /\ mask_of (start mod 64) (last mod 64 + 1) m.
Proof.
  intros Hs Hd. unfold elem_mask. rewrite !shiftr6, Hd, Z.eqb_refl, !land63.
  cbn [c_assert mbind outcome_bind]. replace (start <=? last) with true by lia.
  eexists. split; [done|]. apply range_mask; Z.div_mod_to_equations; lia.
Qed.

Lemma on_elem_writes f op b map p start last c :
  writes op b -> words_ok map -> 0 <= p < Z.of_nat (length map) ->
  64 * p <= start -> start <= last < 64 * p + 64 ->
  (forall m, elem_mask start last = Ok m -> f (wd map p) = Ok (c m, op (wd map p) m)) ->
  exists m map', elem_mask start last = Ok m /\ on_elem f map p = Ok (c m, map') /\
    wd map' p = op (wd map p) m /\ filled map map' start (last + 1) b.
Proof.
  intros Hop Hok Hp Hs Hl Hf.
  assert (start / 64 = p /\ last / 64 = p) as [Hd1 Hd2] by (Z.div_mod_to_equations; lia).
  destruct (elem_mask_spec start last) as (m & Hm & Hmask); [lia|lia|].
  destruct (write_word op b Hop map p _ _ _ Hok Hp Hmask) as (map' & Hw & Hfill).
  exists m, map'. split; [done|]. unfold on_elem. rewrite rd_wd by done. cbn [mbind outcome_bind].
  rewrite (Hf m Hm). cbn. unfold modify_word in Hw |- *. rewrite rd_wd in Hw |- * by done.
  cbn in Hw |- *. injection Hw as <-. split; [done|]. split.
  { unfold wd at 1. rewrite list_lookup_insert_eq by lia. done. }
  replace start with (64 * p + start mod 64) at 1 by (Z.div_mod_to_equations; lia).
  by replace (last + 1) with (64 * p + (last mod 64 + 1)) by (Z.div_mod_to_equations; lia).
Qed.

Lemma on_set_elem map p start last :
  words_ok map -> 0 <= p < Z.of_nat (length map) -> 64 * p <= start -> start <= last < 64 * p + 64 ->
  exists map', on_elem (fun w => hb_set_elem w start last) map p = Ok (negb (nz map p), map') /\
    filled map map' start (last + 1) true.
Proof.
  intros Hok Hp Hs Hl.
  destruct (on_elem_writes (fun w => hb_set_elem w start last) set_op true map p start last
              (fun _ => negb (nz map p))) as (m & map' & _ & E & _ & Hf); try done; [apply set_op_writes| |].
  - intros m Hm. unfold hb_set_elem, nz. rewrite Hm. cbn. by rewrite negb_involutive.
  - by exists map'.
Qed.

(** Resetting reports a word that became zero. *)
Lemma on_reset_elem map p start last :
  words_ok map -> 0 <= p < Z.of_nat (length map) -> 64 * p <= start -> start <= last < 64 * p + 64 ->
  exists map', on_elem (fun w => hb_reset_elem w start last) map p = Ok (nz map p && negb (nz map' p), map') /\
    filled map map' start (last + 1) false.
Proof.
  intros Hok Hp Hs Hl.
  destruct (on_elem_writes (fun w => hb_reset_elem w start last) clear_op false map p start last
              (fun m => nz map p && (clear_op (wd map p) m =? 0))) as (m & map' & _ & E & Hwd & Hf);
    try done; [apply clear_op_writes| |].
  - intros m Hm. unfold hb_reset_elem, nz. rewrite Hm. done.
  - exists map'. split; [|done]. unfold nz at 2. by rewrite Hwd, negb_involutive.
Qed.

(** ** The whole words of a range *)
Lemma store_word value b map k :
  words_ok map -> 0 <= k < Z.of_nat (length map) -> in_u 64 value ->
  (forall j, 0 <= j < 64 -> Z.testbit value j = b) ->
  exists map', modify_word (fun _ => value) map k = Ok map' /\ filled map map' (64 * k) (64 * k + 64) b.
Proof.
  intros Hok Hk Hv Hb. destruct (modify_word_Ok (fun _ => value) map k Hok Hk) as (w & _ & _ & ->).
  eexists. split; [done|]. split_and!; [by apply Forall_insert|apply length_insert|].
  intros i Hi. rewrite bit_insert by done. pose proof (Z.mod_pos_bound i 64 ltac:(lia)).
  destruct (Z.eqb_spec (i / 64) k) as [<-|Hne].
  - rewrite Hb by lia. pose proof (Z.div_mod i 64 ltac:(lia)).
    by replace ((64 * (i / 64) <=? i) && (i <? 64 * (i / 64) + 64)) with true by lia.
  - pose proof (Z.div_mod i 64 ltac:(lia)).
    by replace ((64 * k <=? i) && (i <? 64 * k + 64)) with false by lia.
Qed.

Lemma wd_ext map map' k : words_ok map -> words_ok map' -> 0 <= k ->
  (forall j, 64 * k <= j < 64 * k + 64 -> bit map' j = bit map j) -> wd map' k = wd map k.
Proof.
  intros Hok Hok' Hk He. destruct (wd_shows map k Hok Hk) as (_ & _ & _ & H1).
  destruct (wd_shows map' k Hok' Hk) as (_ & _ & _ & H2).
  apply Z.bits_inj'. intros j Hj. rewrite H1, H2 by lia.
  destruct (Z.leb_spec 0 j), (Z.ltb_spec j 64); cbn; try done. apply He. lia.
Qed.

(** Words outside the written range keep their value. *)
Lemma filled_wd map map' lo hi b k : words_ok map -> filled map map' lo hi b -> 0 <= k ->
  64 * k + 64 <= lo \/ hi <= 64 * k -> wd map' k = wd map k.
Proof.
  intros Hok (Hok' & _ & Hb) Hk Hout. apply wd_ext; [done..|]. intros j Hj. rewrite Hb by lia.
  by replace ((lo <=? j) && (j <? hi)) with false by lia.
Qed.

Lemma middle_words_spec value touched b : in_u 64 value ->
  (forall j, 0 <= j < 64 -> Z.testbit value j = b) ->
  forall fuel map i lastpos changed,
  words_ok map -> 0 <= i < lastpos -> lastpos <= Z.of_nat (length map) -> lastpos < 2 ^ 57 ->
  (Z.to_nat (lastpos - i) <= fuel)%nat ->
  exists map' changed',
    middle_words fuel value touched map i lastpos (64 * (i + 1)) changed
      = Ok (map', 64 * lastpos, changed') /\
    filled map map' (64 * (i + 1)) (64 * lastpos) b /\
    (changed' = true <-> changed = true \/ exists k, i < k < lastpos /\ touched (wd map k) = true).
Proof.
  intros Hv Hvb. induction fuel as [|fuel IH]; intros map i lastpos changed Hok Hi Hl H57 Hf; [lia|].
  cbn [middle_words]. destruct (Z.eqb_spec (i + 1) lastpos) as [<-|Hne].
  - exists map, changed. split; [done|]. split; [by apply filled_nothing|].
    split; [by left|]. intros [?|(k & Hk & _)]; [done|lia].
  - rewrite rd_wd by lia. cbn [mbind outcome_bind].
    destruct (store_word value b map (i + 1) Hok) as (map1 & -> & Hfill1); [lia|done..|].
    cbn [mbind outcome_bind]. pose proof Hfill1 as (Hok1 & Hlen1 & _).
    unfold BITS_PER_LONG. rewrite wrap_small by lia.
    replace (64 * (i + 1) + 64) with (64 * (i + 1 + 1)) in * by lia.
    destruct (IH map1 (i + 1) lastpos (changed || touched (wd map (i + 1))))
      as (map' & changed' & -> & Hfill & Hch); [done|lia|lia|lia|lia|].
    exists map', changed'. split; [done|]. split; [by apply (filled_trans map map1 map' _ (64 * (i + 1 + 1))); [lia|..]|].
    rewrite Hch, orb_true_iff. split.
    + intros [[?|Ht]|(k & Hk & Ht)]; [by left|right; exists (i + 1); split; [lia|done]|].
      right. exists k. split; [lia|]. by rewrite (filled_wd map map1 _ _ _ k Hok Hfill1) in Ht by lia.
    + intros [?|(k & Hk & Ht)]; [by left; left|].
      destruct (Z.eq_dec k (i + 1)) as [->|]; [by left; right|]. right. exists k. split; [lia|].
      by rewrite (filled_wd map map1 _ _ _ k Hok Hfill1) by lia.
Qed.

(** ** One level *)
Lemma next_boundary_spec start : 0 <= start < 2 ^ 63 -> next_boundary start = 64 * (start / 64 + 1).
Proof.
  intros Hs. unfold next_boundary. change (BITS_PER_LONG - 1) with 63.
  assert (Z.lor start 63 = 64 * (start / 64) + 63) as ->.
  { pose proof (Z.mod_pos_bound start 64 ltac:(lia)).
    assert (start = Z.lor (start / 64 * 2 ^ 6) (start mod 64)) as E
      by (rewrite (lor_mul_add (start mod 64) (start / 64) 6) by lia; Z.div_mod_to_equations; lia).
    rewrite E at 1.
    rewrite <- Z.lor_assoc. replace (Z.lor (start mod 64) 63) with 63.
    - rewrite (lor_mul_add 63 _ 6) by lia. lia.
    - change 63 with (Z.ones 6). bits. rewrite ones_bit by lia.
      destruct (Z.ltb_spec i 6); [by rewrite orb_true_r|].
      by rewrite (testbit_high (start mod 64) 6) by lia. }
  rewrite wrap_small; [lia|]. Z.div_mod_to_equations; lia.
Qed.

Lemma div64_bounds x : 0 <= x -> 64 * (x / 64) <= x < 64 * (x / 64) + 64 /\ 0 <= x / 64.
Proof. intros. Z.div_mod_to_equations; lia. Qed.

Lemma zero_bits j : 0 <= j < 64 -> Z.testbit 0 j = false.
Proof. intros. apply Z.bits_0. Qed.

Lemma ones64_bits j : 0 <= j < 64 -> Z.testbit ones64 j = true.
Proof. intros. rewrite ones64_spec, ones_bit by lia. lia. Qed.

Lemma filled_nz map map' lo hi b k : words_ok map -> filled map map' lo hi b -> 0 <= k ->
  64 * k + 64 <= lo \/ hi <= 64 * k -> nz map' k = nz map k.
Proof. intros. unfold nz. by rewrite (filled_wd map map' lo hi b). Qed.

(** A word with a set bit in the filled range is nonzero. *)
Lemma filled_nz_true map map' lo hi k : filled map map' lo hi true -> 0 <= k ->
  lo < hi -> 0 <= lo -> lo / 64 <= k <= (hi - 1) / 64 -> nz map' k = true.
Proof.
  intros (Hok' & _ & Hb) Hk Hlt Hlo Hr. apply nz_true; [done..|].
  destruct (div64_bounds lo Hlo), (div64_bounds (hi - 1) ltac:(lia)).
  exists (Z.max lo (64 * k)). split; [lia|]. rewrite Hb by lia.
  by replace ((lo <=? Z.max lo (64 * k)) && (Z.max lo (64 * k) <? hi)) with true by lia.
Qed.

Lemma set_level_spec map start last :
  words_ok map -> 0 <= start <= last -> last < nbits map -> nbits map <= 2 ^ 62 ->
  exists map' ch, set_level map start last = Ok (map', ch) /\
    filled map map' start (last + 1) true /\
    (ch = true <-> exists k, start / 64 <= k <= last / 64 /\ nz map k = false).
Proof.
  intros Hok Hs Hl H62. unfold set_level, nbits in *. rewrite !shiftr6.
  destruct (div64_bounds start ltac:(lia)), (div64_bounds last ltac:(lia)).
  set (p := start / 64) in *. set (q := last / 64) in *.
  destruct (Z.ltb_spec p q) as [Hpq|Hpq].
  - rewrite next_boundary_spec by lia. fold p.
    destruct (on_set_elem map p start (64 * (p + 1) - 1) Hok) as (map1 & -> & F1); [lia..|].
    cbn [mbind outcome_bind]. replace (64 * (p + 1) - 1 + 1) with (64 * (p + 1)) in F1 by lia.
    pose proof F1 as (Hok1 & Hlen1 & _).
    destruct (middle_words_spec ones64 (fun w => w =? 0) true) with (fuel := Z.to_nat (q - p))
      (map := map1) (i := p) (lastpos := q) (changed := negb (nz map p))
      as (map2 & ch & -> & F2 & Hch); [by split|apply ones64_bits|done|lia..|].
    cbn [mbind outcome_bind]. pose proof F2 as (Hok2 & Hlen2 & _).
    destruct (on_set_elem map2 q (64 * q) last Hok2) as (map3 & -> & F3); [lia..|].
    assert (filled map map2 start (64 * q) true) as F12
      by (apply (filled_trans map map1 map2 _ (64 * (p + 1))); [lia|done..]).
    cbn. eexists _, _. split; [done|]. split; [by apply (filled_trans map map2 map3 _ (64 * q)); [lia|..]|].
    rewrite orb_true_iff, Hch, (filled_nz map map2 _ _ _ q Hok F12), !negb_true_iff by lia. split.
    + intros [[?|(k & Hk & Ht)]|?]; [exists p; by split; [lia|]| |exists q; by split; [lia|]].
      exists k. split; [lia|]. rewrite (filled_wd map map1 _ _ _ k Hok F1) in Ht by lia.
      unfold nz. by rewrite Ht.
    + intros (k & Hk & Ht). destruct (Z.eq_dec k p) as [->|]; [by left; left|].
      destruct (Z.eq_dec k q) as [->|]; [by right|]. left. right. exists k. split; [lia|].
      rewrite (filled_wd map map1 _ _ _ k Hok F1) by lia. unfold nz in Ht. by apply negb_false_iff.
  - assert (p = q) as <- by (subst p q; pose proof (Z.div_le_mono start last 64); lia).
    cbn [mbind outcome_bind].
    destruct (on_set_elem map p start last Hok) as (map1 & -> & F1); [lia..|].
    cbn. eexists _, _. split; [done|]. split; [done|]. rewrite negb_true_iff. split.
    + intros ?. exists p. by split; [lia|].
    + intros (k & Hk & ?). by assert (k = p) as -> by lia.
Qed.

(** What the level above has to clear: the words [p', l'] became zero, the
    others of the range are zero exactly when they were. *)
Definition cleared_words (map map' : words) (p q p' l' : Z) (ch : bool) : Prop :=
  (ch = true -> p <= p' /\ p' <= l' <= q /\ forall k, p' <= k <= l' -> nz map' k = false) /\
  (forall k, p <= k <= q -> ch = false \/ k < p' \/ l' < k -> nz map' k = nz map k).

Lemma reset_nz_mono map map' lo hi k : words_ok map -> filled map map' lo hi false -> 0 <= k ->
  nz map' k = true -> nz map k = true.
Proof.
  intros Hok (Hok' & _ & Hb) Hk. rewrite !nz_true by done. intros (j & Hj & Ht).
  exists j. split; [done|]. rewrite Hb in Ht by lia. by destruct ((lo <=? j) && (j <? hi)).
Qed.

Lemma reset_nz_inner map map' lo hi k : filled map map' lo hi false -> 0 <= k ->
  lo <= 64 * k -> 64 * k + 64 <= hi -> nz map' k = false.
Proof.
  intros (Hok' & _ & Hb) Hk H1 H2. apply nz_false; [done..|]. intros j Hj. rewrite Hb by lia.
  by replace ((lo <=? j) && (j <? hi)) with true by lia.
Qed.

(** A word not reported as blanked is zero exactly when it was. *)
Lemma not_blanked map map' lo hi k : words_ok map -> filled map map' lo hi false -> 0 <= k ->
  nz map k && negb (nz map' k) = false -> nz map' k = nz map k.
Proof.
  intros Hok F Hk Hb. pose proof (reset_nz_mono map map' lo hi k Hok F Hk).
  destruct (nz map k), (nz map' k); try done. by specialize (H eq_refl).
Qed.

Lemma reset_level_one map start last : let p := start / 64 in
  words_ok map -> 0 <= start <= last -> last < nbits map -> last / 64 = p -> p < 2 ^ 60 ->
  exists map' p' l' ch, reset_level map start last = Ok (map', p', l', ch) /\
    filled map map' start (last + 1) false /\ cleared_words map map' p p p' l' ch.
Proof.
  intros p Hok Hs Hl Hq H60. unfold reset_level, nbits in *. rewrite !shiftr6, Hq. fold p.
  destruct (div64_bounds start ltac:(lia)), (div64_bounds last ltac:(lia)). fold p in H. rewrite Hq in *.
  rewrite Z.ltb_irrefl. cbn [mbind outcome_bind].
  destruct (on_reset_elem map p start last Hok) as (map1 & -> & F1); [lia..|]. cbn.
  eexists _, _, _, _. split; [done|]. split; [done|]. split.
  - intros [Hn1 Hn2]%andb_true_iff. rewrite Hn1, Hn2. cbn. split_and!; try lia.
    intros k Hk. assert (k = p) as -> by lia. by apply negb_true_iff.
  - intros k Hk Hc. assert (k = p) as -> by lia. apply (not_blanked map map1 start (last + 1)); [done|done|lia|].
    destruct (nz map p && negb (nz map1 p)); [|done]. destruct Hc as [?|?]; [done|lia].
Qed.

Lemma reset_level_spec map start last :
  words_ok map -> 0 <= start <= last -> last < nbits map -> nbits map <= 2 ^ 62 ->
  exists map' p' l' ch, reset_level map start last = Ok (map', p', l', ch) /\
    filled map map' start (last + 1) false /\
    cleared_words map map' (start / 64) (last / 64) p' l' ch.
Proof.
  intros Hok Hs Hl H62.
  destruct (div64_bounds start ltac:(lia)), (div64_bounds last ltac:(lia)).
  destruct (Z.eq_dec (last / 64) (start / 64)) as [Hq|Hne].
  { rewrite Hq. apply reset_level_one; try done; unfold nbits in *; lia. }
  unfold reset_level, nbits in *. rewrite !shiftr6.
  pose proof (Z.div_le_mono start last 64 ltac:(lia) ltac:(lia)).
  set (p := start / 64) in *. set (q := last / 64) in *. replace (p <? q) with true by lia.
  rewrite next_boundary_spec by lia. fold p.
  destruct (on_reset_elem map p start (64 * (p + 1) - 1) Hok) as (map1 & -> & F1); [lia..|].
  cbn [mbind outcome_bind]. replace (64 * (p + 1) - 1 + 1) with (64 * (p + 1)) in F1 by lia.
  pose proof F1 as (Hok1 & Hlen1 & _). set (c1 := nz map p && negb (nz map1 p)) in *.
  destruct (middle_words_spec 0 (fun w => negb (w =? 0)) false) with (fuel := Z.to_nat (q - p))
    (map := map1) (i := p) (lastpos := q) (changed := c1)
    as (map2 & ch & -> & F2 & Hch); [by split|apply zero_bits|done|lia..|].
  cbn [mbind outcome_bind]. pose proof F2 as (Hok2 & Hlen2 & _).
  destruct (on_reset_elem map2 q (64 * q) last Hok2) as (map3 & -> & F3); [lia..|].
  set (c3 := nz map2 q && negb (nz map3 q)) in *.
  cbn. eexists _, _, _, _. split; [done|].
  assert (filled map map2 start (64 * q) false) as F12
    by (apply (filled_trans map map1 map2 _ (64 * (p + 1))); [lia|done..]).
  assert (filled map map3 start (last + 1) false) as F13
    by (apply (filled_trans map map2 map3 _ (64 * q)); [lia|done..]).
  split; [done|]. rewrite (wrap_small 64 (q - 1)) by lia.
  assert (forall k, p < k < q -> nz map3 k = false) as Hmid
    by (intros k Hk; apply (reset_nz_inner map _ start (last + 1)); [done|lia..]).
  assert (nz map3 p = nz map1 p) as E3
    by (rewrite (filled_nz map2 map3 _ _ _ p Hok2 F3) by lia; by apply (filled_nz map1 map2 _ _ _ p Hok1 F2); lia).
  assert (nz map2 q = nz map q) as E2 by (apply (filled_nz map map2 _ _ _ q Hok F12); lia).
  assert (c1 = false -> nz map3 p = nz map p) as Hp
    by (intros E; rewrite E3; apply (not_blanked map map1 start (64 * (p + 1))); done || lia).
  assert (c3 = false -> nz map3 q = nz map q) as Hq
    by (intros E; rewrite <- E2; apply (not_blanked map2 map3 (64 * q) (last + 1)); done || lia).
  assert (c1 = true -> ch = true) as Hc1 by (intros; apply Hch; by left).
  assert (forall k, p < k < q -> nz map k = true -> ch = true) as Hcm.
  { intros k Hk Hn. apply Hch. right. exists k. split; [done|].
    rewrite (filled_wd map map1 _ _ _ k Hok F1) by lia. exact Hn. }
  split.
  - intros Hc. assert (c1 = true -> nz map3 p = false) as B1
      by (rewrite E3; intros [_ ?%negb_true_iff]%andb_true_iff; done).
    assert (c3 = true -> nz map3 q = false) as B3 by (intros [_ ?%negb_true_iff]%andb_true_iff; done).
    assert (c1 = true \/ c3 = true \/ p + 1 < q) as Hor.
    { apply orb_true_iff in Hc as [[?|(k & ? & _)]%Hch|?]; [by left|right; right; lia|by right; left]. }
    split; [destruct c1; lia|]. split; [destruct c1, c3; try lia; naive_solver lia|].
    intros k Hk. destruct (Z.eq_dec k p) as [->|]; [destruct c1; [by apply B1|lia]|].
    destruct (Z.eq_dec k q) as [->|]; [destruct c3; [by apply B3|lia]|]. apply Hmid.
    destruct c1, c3; lia.
  - intros k Hk Hc. destruct (Z.eq_dec k p) as [->|].
    { apply Hp. destruct c1; [|done]. rewrite (Hc1 eq_refl) in Hc. cbn in Hc. destruct c3; naive_solver lia. }
    destruct (Z.eq_dec k q) as [->|].
    { apply Hq. destruct c3; [|done]. rewrite orb_true_r in Hc. destruct c1; naive_solver lia. }
    rewrite Hmid by lia. symmetry. apply not_true_iff_false. intros Hn. rewrite (Hcm k) in Hc by (done || lia).
    cbn in Hc. destruct c1, c3; naive_solver lia.
Qed.

(** ** The tower of levels *)
Definition lv (levels : list words) (i : nat) : words := default [] (levels !! i).

Definition summary (upper lower : words) : Prop :=
  forall k, 0 <= k < Z.of_nat (length lower) -> bit upper k = nz lower k.

(** Levels [0 .. n] are well-formed, each summarising the next. *)
Record tower (n : nat) (levels : list words) : Prop := {
  tw_length : (n < length levels)%nat;
  tw_words i : words_ok (lv levels i);
  tw_room i : nbits (lv levels i) <= 2 ^ 62;
  tw_fits i : (i < n)%nat -> Z.of_nat (length (lv levels (S i))) <= nbits (lv levels i);
  tw_summary i : (i < n)%nat -> summary (lv levels i) (lv levels (S i))
}.

(** An update of the range [lo, hi) of level [n] to [b]: finer levels are
    untouched, coarser ones change only where they summarise a word. *)
Record updated (n : nat) (levels levels' : list words) (lo hi : Z) (b : bool) : Prop := {
  up_length : length levels' = length levels;
  up_lengths i : length (lv levels' i) = length (lv levels i);
  up_finer i : (n < i)%nat -> lv levels' i = lv levels i;
  up_filled : filled (lv levels n) (lv levels' n) lo hi b;
  up_rest i k : (i < n)%nat -> Z.of_nat (length (lv levels (S i))) <= k ->
    bit (lv levels' i) k = bit (lv levels i) k
}.

Lemma lv_insert_eq levels n map : (n < length levels)%nat -> lv (<[n := map]> levels) n = map.
Proof. intros. unfold lv. by rewrite list_lookup_insert_eq. Qed.

Lemma lv_insert_ne levels n map i : n <> i -> lv (<[n := map]> levels) i = lv levels i.
Proof. intros. unfold lv. by rewrite list_lookup_insert_ne. Qed.

Lemma level_of_lv levels n : (n < length levels)%nat -> level_of levels n = Ok (lv levels n).
Proof.
  intros Hn. unfold level_of, lv. by destruct (lookup_lt_is_Some_2 levels n Hn) as [l ->].
Qed.

Lemma tower_insert m levels map : tower (S m) levels -> words_ok map ->
  length map = length (lv levels (S m)) -> tower m (<[S m := map]> levels).
Proof.
  intros [Hlen Hw Hr Hf Hs] Hok Hmap. split.
  - rewrite length_insert. lia.
  - intros i. destruct (decide (S m = i)) as [<-|]; [by rewrite lv_insert_eq|by rewrite lv_insert_ne].
  - intros i. destruct (decide (S m = i)) as [<-|]; [|by rewrite lv_insert_ne].
    specialize (Hr (S m)). unfold nbits in *. by rewrite lv_insert_eq, Hmap.
  - intros i Hi. rewrite !lv_insert_ne by lia. apply Hf. lia.
  - intros i Hi. rewrite !lv_insert_ne by lia. apply Hs. lia.
Qed.

(** The finest level written, nothing above it. *)
Lemma updated_insert n levels map lo hi b : (n < length levels)%nat ->
  filled (lv levels n) map lo hi b -> updated n levels (<[n := map]> levels) lo hi b.
Proof.
  intros Hn F. pose proof F as (_ & Hl & _). split.
  - apply length_insert.
  - intros i. destruct (decide (n = i)) as [<-|]; [by rewrite lv_insert_eq|by rewrite lv_insert_ne].
  - intros i Hi. apply lv_insert_ne. lia.
  - by rewrite lv_insert_eq.
  - intros i k Hi _. rewrite lv_insert_ne by lia. done.
Qed.

(** A level written, then a range of the level above that lies within the
    words it has. *)
Lemma updated_above m levels map levels' lo hi lo' hi' b b' : (S m < length levels)%nat ->
  filled (lv levels (S m)) map lo hi b ->
  updated m (<[S m := map]> levels) levels' lo' hi' b' ->
  hi' <= Z.of_nat (length (lv levels (S m))) -> updated (S m) levels levels' lo hi b.
Proof.
  intros Hn F [L Ls Hfin Hfill Hrest] Hhi. pose proof (updated_insert (S m) levels map lo hi b Hn F) as U.
  split.
  - by rewrite L, length_insert.
  - intros i. by rewrite Ls, (up_lengths _ _ _ _ _ _ U).
  - intros i Hi. rewrite Hfin by lia. apply U. lia.
  - rewrite Hfin, lv_insert_eq by lia. done.
  - intros i k Hi Hk. destruct (decide (i = m)) as [->|].
    + destruct Hfill as (_ & _ & Hb). rewrite Hb, lv_insert_ne by lia.
      by replace ((lo' <=? k) && (k <? hi')) with false by lia.
    + rewrite Hrest, lv_insert_ne; [done|lia..|]. by rewrite lv_insert_ne by lia.
Qed.

(** The tower is whole again once the written level is summarised. *)
Lemma tower_restore m levels map levels' lo' hi' b' : tower (S m) levels ->
  words_ok map -> length map = length (lv levels (S m)) ->
  tower m levels' -> updated m (<[S m := map]> levels) levels' lo' hi' b' ->
  summary (lv levels' m) map -> tower (S m) levels'.
Proof.
  intros T Hok Hmap T' U Hsum.
  assert (lv levels' (S m) = map) as Em.
  { rewrite (up_finer _ _ _ _ _ _ U) by lia. apply lv_insert_eq, T. }
  split.
  - rewrite (up_length _ _ _ _ _ _ U), length_insert. apply T.
  - intros i. apply T'.
  - intros i. apply T'.
  - intros i Hi. unfold nbits. rewrite !(up_lengths _ _ _ _ _ _ U).
    destruct (decide (S m = i)) as [<-|]; [lia|]. rewrite (lv_insert_ne _ _ _ i) by done.
    destruct (decide (m = i)) as [<-|]; [rewrite lv_insert_eq, Hmap by apply T|rewrite lv_insert_ne by lia];
      apply (tw_fits _ _ T); lia.
  - intros i Hi. destruct (decide (i = m)) as [->|]; [by rewrite Em|]. apply T'. lia.
Qed.

Lemma tower_base levels map lo hi b : tower 0 levels -> filled (lv levels 0) map lo hi b ->
  tower 0 (<[0%nat := map]> levels) /\ updated 0 levels (<[0%nat := map]> levels) lo hi b.
Proof.
  intros T F. pose proof F as (Hok & Hlen & _).
  pose proof (updated_insert 0 levels map _ _ _ (tw_length _ _ T) F) as U. split; [|done].
  split; [rewrite length_insert; apply T| | |lia..].
  - intros i. destruct i; [by rewrite lv_insert_eq by apply T|rewrite lv_insert_ne by done; apply T].
  - intros i. unfold nbits. rewrite (up_lengths _ _ _ _ _ _ U). apply T.
Qed.

(** The level above needs no change. *)
Lemma tower_keep m levels map : tower (S m) levels -> words_ok map ->
  length map = length (lv levels (S m)) ->
  (forall k, 0 <= k < Z.of_nat (length map) -> nz map k = nz (lv levels (S m)) k) ->
  tower (S m) (<[S m := map]> levels).
Proof.
  intros T Hok Hlen Hnz. pose proof (tower_insert m levels map T Hok Hlen) as T1.
  apply (tower_restore m levels map _ 0 0 true T Hok Hlen T1).
  - split; try done. rewrite lv_insert_ne by lia. by apply filled_nothing, T.
  - intros k Hk. rewrite lv_insert_ne, (tw_summary _ _ T m), Hnz by lia. done.
Qed.

(** Setting a range keeps the tower. *)
Lemma set_between_ok : forall n levels start last,
  tower n levels -> 0 <= start <= last -> last < nbits (lv levels n) ->
  exists levels', hb_set_between n levels start last = Ok levels' /\
    tower n levels' /\ updated n levels levels' start (last + 1) true.
Proof.
  induction n as [|m IH]; intros levels start last T Hs Hl; cbn [hb_set_between];
    rewrite level_of_lv by apply T; cbn [mbind outcome_bind];
    destruct (set_level_spec (lv levels _) start last (tw_words _ _ T _) Hs Hl (tw_room _ _ T _))
      as (map & ch & -> & F & Hch); cbn [mbind outcome_bind]; pose proof F as (Hok & Hlen & _).
  - exists (<[0%nat := map]> levels). split; [done|]. by apply tower_base.
  - rewrite !shiftr6. pose proof (tower_insert m levels map T Hok Hlen) as T1.
    destruct (div64_bounds start ltac:(lia)), (div64_bounds last ltac:(lia)).
    assert (last / 64 < Z.of_nat (length (lv levels (S m)))) as Hin by (unfold nbits in Hl; lia).
    assert (forall k, 0 <= k < Z.of_nat (length map) ->
              nz map k = if (start / 64 <=? k) && (k <=? last / 64) then true else nz (lv levels (S m)) k) as Hnz.
    { intros k Hk. destruct (Z.leb_spec (start / 64) k), (Z.leb_spec k (last / 64)); cbn.
      - apply (filled_nz_true _ _ _ _ _ F); [lia..|]. by rewrite Z.add_simpl_r.
      - apply (filled_nz _ _ _ _ _ _ (tw_words _ _ T _) F); lia.
      - apply (filled_nz _ _ _ _ _ _ (tw_words _ _ T _) F); lia.
      - lia. }
    destruct ch.
    + destruct (IH (<[S m := map]> levels) (start / 64) (last / 64) T1) as (levels' & -> & T' & U').
      { split; [lia|]. apply Z.div_le_mono; lia. }
      { rewrite lv_insert_ne by lia. pose proof (tw_fits _ _ T m ltac:(lia)). lia. }
      exists levels'. split; [done|]. split; [|by apply (updated_above m levels map levels' _ _ _ _ _ _ (tw_length _ _ T) F U'); lia].
      apply (tower_restore m levels map levels' _ _ _ T Hok Hlen T' U').
      intros k Hk. destruct (up_filled _ _ _ _ _ _ U') as (_ & _ & Hb).
      rewrite Hb, lv_insert_ne, (tw_summary _ _ T m), Hnz by lia.
      by replace (k <? last / 64 + 1) with (k <=? last / 64) by lia.
    + exists (<[S m := map]> levels). split; [done|].
      pose proof (updated_insert (S m) levels map _ _ _ (tw_length _ _ T) F) as U. split; [|done].
      apply (tower_keep m levels map T Hok Hlen). intros k Hk. rewrite Hnz by done.
      destruct ((start / 64 <=? k) && (k <=? last / 64)) eqn:E; [|done].
      destruct (nz (lv levels (S m)) k) eqn:En; [done|]. enough (false = true) by done. apply Hch.
      exists k. split; [lia|done].
Qed.

(** Resetting a range keeps the tower. *)
Lemma reset_between_ok : forall n levels start last,
  tower n levels -> 0 <= start <= last -> last < nbits (lv levels n) ->
  exists levels', hb_reset_between n levels start last = Ok levels' /\
    tower n levels' /\ updated n levels levels' start (last + 1) false.
Proof.
  induction n as [|m IH]; intros levels start last T Hs Hl; cbn [hb_reset_between];
    rewrite level_of_lv by apply T; cbn [mbind outcome_bind];
    destruct (reset_level_spec (lv levels _) start last (tw_words _ _ T _) Hs Hl (tw_room _ _ T _))
      as (map & p' & l' & ch & -> & F & Hc1 & Hc2); cbn [mbind outcome_bind];
    pose proof F as (Hok & Hlen & _).
  - exists (<[0%nat := map]> levels). split; [done|]. by apply tower_base.
  - pose proof (tower_insert m levels map T Hok Hlen) as T1.
    destruct (div64_bounds start ltac:(lia)), (div64_bounds last ltac:(lia)).
    assert (last / 64 < Z.of_nat (length (lv levels (S m)))) as Hin by (unfold nbits in Hl; lia).
    assert (forall k, 0 <= k -> k < start / 64 \/ last / 64 < k -> nz map k = nz (lv levels (S m)) k) as Hout
      by (intros k Hk Ho; apply (filled_nz _ _ _ _ _ _ (tw_words _ _ T _) F); lia).
    destruct ch.
    + destruct (Hc1 eq_refl) as (Hp & Hl' & Hz). clear Hc1.
      destruct (IH (<[S m := map]> levels) p' l' T1) as (levels' & -> & T' & U'); [lia| |].
      { rewrite lv_insert_ne by lia. pose proof (tw_fits _ _ T m ltac:(lia)). lia. }
      exists levels'. split; [done|]. split; [|by apply (updated_above m levels map levels' _ _ _ _ _ _ (tw_length _ _ T) F U'); lia].
      apply (tower_restore m levels map levels' _ _ _ T Hok Hlen T' U').
      intros k Hk. destruct (up_filled _ _ _ _ _ _ U') as (_ & _ & Hb).
      rewrite Hb, lv_insert_ne, (tw_summary _ _ T m) by lia.
      destruct (Z.leb_spec p' k), (Z.ltb_spec k (l' + 1)); cbn [andb].
      1: { symmetry. apply Hz. lia. }
      all: symmetry; destruct (decide (start / 64 <= k <= last / 64)); [apply Hc2; lia|apply Hout; lia].
    + exists (<[S m := map]> levels). split; [done|]. split; [|by apply updated_insert; [apply T|]].
      apply (tower_keep m levels map T Hok Hlen). intros k Hk.
      destruct (decide (start / 64 <= k <= last / 64)); [apply Hc2; [lia|by left]|apply Hout; lia].
Qed.

(** ** The well-formed bitmap *)
Definition bottom (hb : HBitmap) : words := lv (hb_levels hb) 6.

Definition words_for (n : Z) : Z := Z.max ((n + 63) / 64) 1.

Record hb_ok (hb : HBitmap) : Prop := {
  ok_size : 0 <= hb_size hb <= 2 ^ 41;
  ok_gran : 0 <= hb_granularity hb < 64;
  ok_items : hb_size hb * 2 ^ hb_granularity hb <= 2 ^ 63;
  ok_levels : length (hb_levels hb) = 7%nat;
  ok_bottom : Z.of_nat (length (bottom hb)) = words_for (hb_size hb);
  ok_lengths i : (i < 6)%nat -> Z.of_nat (length (lv (hb_levels hb) i)) =
    words_for (Z.of_nat (length (lv (hb_levels hb) (S i))));
  ok_tower : tower 6 (hb_levels hb);
  ok_rest i k : (i < 6)%nat -> Z.of_nat (length (lv (hb_levels hb) (S i))) <= k ->
    bit (lv (hb_levels hb) i) k = (i =? 0)%nat && (k =? 63);
  ok_end k : hb_size hb <= k -> bit (bottom hb) k = false;
  ok_count : hb_count hb = cnt (bit (bottom hb)) 0 (hb_size hb)
}.

Lemma words_for_mono a b : a <= b -> words_for a <= words_for b.
Proof. intros. unfold words_for. pose proof (Z.div_le_mono (a + 63) (b + 63) 64). lia. Qed.

(** The bits of level 0 in use stay clear of the sentinel. *)
Lemma level1_small hb : hb_ok hb -> Z.of_nat (length (lv (hb_levels hb) 1)) <= 32.
Proof.
  intros Hok. pose proof (ok_bottom hb Hok) as Hb. unfold bottom in Hb.
  pose proof (words_for_mono _ _ (proj2 (ok_size hb Hok))) as H6. rewrite <- Hb in H6.
  do 5 (match goal with H : Z.of_nat (length (lv _ (S ?i))) <= _ |- _ =>
    apply words_for_mono in H; rewrite <- (ok_lengths hb Hok i) in H by lia end).
  etransitivity; [exact H6|]. vm_compute. discriminate.
Qed.

(** ** The iterator's path *)

(** Dropping the lowest set bit. *)
Lemma clear_lowest f base lo hi c : shows f base lo hi c -> c <> 0 ->
  shows f base (ctz64 c + 1) hi (Z.land c (u64 (c - 1))).
Proof.
  intros (Hlo & Hhi & Hc & Hb) Hnz. unfold in_u in Hc.
  destruct (ctz64_trailing c ltac:(lia)) as ((H0 & Ht & Hl) & Hlt). set (t := ctz64 c) in *.
  assert (lo <= t < hi) as Htr.
  { rewrite Hb in Ht by lia. destruct ((lo <=? t) && (t <? hi)) eqn:E; [lia|done]. }
  rewrite wrap_small by lia.
  assert (c = Z.shiftr c (t + 1) * 2 ^ (t + 1) + 2 ^ t) as Ec.
  { rewrite <- (lor_mul_add (2 ^ t) _ (t + 1)) by (first [lia|split; [lia|apply Z.pow_lt_mono_r; lia]]).
    rewrite <- Z.shiftl_mul_pow2 by lia. bits.
    rewrite (Z.pow2_bits_eqb t i) by lia. destruct (Z.eqb_spec t i) as [<-|].
    - by rewrite Ht, orb_true_r.
    - rewrite orb_false_r. destruct (Z.lt_ge_cases i (t + 1)).
      + rewrite Hl, Z.testbit_neg_r by lia. done.
      + rewrite Z.shiftr_spec by lia. f_equal. lia. }
  assert (0 < 2 ^ t) by lia.
  assert (c - 1 = Z.lor (Z.shiftl (Z.shiftr c (t + 1)) (t + 1)) (Z.ones t)) as ->.
  { rewrite Z.shiftl_mul_pow2, lor_mul_add, Z.ones_equiv by
      (rewrite ?Z.ones_equiv; try lia; rewrite Z.pow_add_r by lia; lia). lia. }
  split_and!; try lia; [apply in_u64_land_l; [done|]; apply Z.lor_nonneg; split;
    [apply Z.shiftl_nonneg, Z.shiftr_nonneg; lia|rewrite Z.ones_equiv; lia]|].
  intros j Hj. autorewrite with xbits. rewrite ones_bit by lia. destruct (Z.leb_spec (t + 1) j).
  - rewrite Z.shiftr_spec by lia. replace (j - (t + 1) + (t + 1)) with j by lia.
    replace (j <? t) with false by lia. rewrite orb_false_r, andb_diag, Hb by lia.
    by replace (lo <=? j) with true by lia.
  - cbn [andb]. rewrite (Z.testbit_neg_r (Z.shiftr c (t + 1))) by lia. cbn [orb].
    destruct (Z.ltb_spec j t); [by rewrite Hl by lia|by rewrite andb_false_r].
Qed.

Section Iterate.
Context (hb : HBitmap).
Hypothesis Hhb : hb_ok hb.
Let L := hb_levels hb.
Let len i := Z.of_nat (length (lv L i)).

(** [cur[0 .. i]] hold the subtrees after bit [q] of level [i]. *)
Fixpoint path_ok (cur : list Z) (i : nat) (q : Z) : Prop :=
  (exists c, cur !! i = Some c /\ shows (bit (lv L i)) (64 * (q / 64)) (q mod 64 + 1) 64 c) /\
  match i with O => True | S i => path_ok cur i (q / 64) end.

Lemma path_ok_ext cur cur' : forall i q,
  (forall j, (j <= i)%nat -> cur' !! j = cur !! j) -> path_ok cur i q -> path_ok cur' i q.
Proof.
  induction i as [|i IH]; intros q He (Hc & Hp); split; rewrite ?He by lia; [done..|].
  apply IH; [|done]. intros j Hj. apply He. lia.
Qed.

Lemma skip_down_S n i cur c pos :
  skip_down (S n) L i cur c pos =
    (_ ← c_assert (negb (c =? 0));
     let pos := u64 (Z.shiftl pos BITS_PER_LEVEL + ctz64 c) in
     let cur := <[i := Z.land c (u64 (c - 1))]> cur in
     l ← level_of L (S i);
     c ← rd l pos;
     skip_down n L (S i) cur c pos).
Proof. reflexivity. Qed.

Lemma skip_down_snoc n : forall i cur c pos,
  skip_down (S n) L i cur c pos =
    ('(cur, c, pos) ← skip_down n L i cur c pos; skip_down 1 L (i + n) cur c pos).
Proof.
  induction n as [|n IH]; intros i cur c pos.
  - cbn [skip_down mbind outcome_bind]. by rewrite Nat.add_0_r.
  - rewrite (skip_down_S (S n)), (skip_down_S n). cbv zeta.
    destruct (c_assert (negb (c =? 0))); cbn [mbind outcome_bind]; [|done..].
    destruct (level_of L (S i)) as [l| |]; cbn [mbind outcome_bind]; [|done..].
    destruct (rd l _) as [w| |]; cbn [mbind outcome_bind]; [|done..].
    rewrite IH, Nat.add_succ_r. done.
Qed.

Lemma level_ok i : words_ok (lv L i).
Proof. apply (ok_tower hb Hhb). Qed.

Lemma len_bound i : 0 <= len i <= 2 ^ 56.
Proof. pose proof (tw_room _ _ (ok_tower hb Hhb) i) as H. unfold nbits, len, L in *. lia. Qed.

(** A set bit of level [i] is the index of a word of the next level, unless
    it is the sentinel. *)
Lemma set_bit_word i r : (i < 6)%nat -> 0 <= r -> bit (lv L i) r = true ->
  r < len (S i) \/ i = 0%nat /\ r = 63.
Proof.
  intros Hi Hr Hb. destruct (Z.lt_ge_cases r (len (S i))); [by left|]. right.
  pose proof (ok_rest hb Hhb i r Hi ltac:(done)) as Hrest. fold L in Hrest.
  rewrite Hb in Hrest. destruct i; cbn in Hrest; [|done]. split; [done|lia].
Qed.

Lemma down_one i cur c w lo : (i < 6)%nat -> 0 <= w ->
  shows (bit (lv L i)) (64 * w) lo 64 c -> c <> 0 -> 64 * w + ctz64 c < len (S i) ->
  let r := 64 * w + ctz64 c in
  skip_down 1 L i cur c w = Ok (<[i := Z.land c (u64 (c - 1))]> cur, wd (lv L (S i)) r, r) /\
  r / 64 = w /\ r mod 64 = ctz64 c.
Proof.
  intros Hi Hw (Hlo & _ & Hc & _) Hnz Hr. cbv zeta. unfold in_u in Hc.
  destruct (ctz64_trailing c ltac:(lia)) as [[H0 _] Hlt].
  pose proof (len_bound (S i)). split; [|Z.div_mod_to_equations; lia].
  rewrite skip_down_S. rewrite (proj2 (Z.eqb_neq c 0) Hnz). cbn [negb c_assert mbind outcome_bind].
  cbv zeta. rewrite level_of_lv by (unfold L; rewrite (ok_levels hb Hhb); lia).
  cbn [mbind outcome_bind]. rewrite Z.shiftl_mul_pow2 by (unfold BITS_PER_LEVEL; lia).
  change (2 ^ BITS_PER_LEVEL) with 64. rewrite (Z.mul_comm w 64).
  rewrite (wrap_small 64 (64 * w + ctz64 c)), rd_wd by (unfold len in *; lia). done.
Qed.

(** Arriving at bit [r] of level [i]. *)
Lemma path_arrive i cur c w lo : 0 <= w ->
  shows (bit (lv L i)) (64 * w) lo 64 c -> c <> 0 -> (i < length cur)%nat ->
  match i with O => True | S i => path_ok cur i w end ->
  path_ok (<[i := Z.land c (u64 (c - 1))]> cur) i (64 * w + ctz64 c).
Proof.
  intros Hw Hs Hnz Hlen Hp. pose proof Hs as (_ & _ & Hc & _). unfold in_u in Hc.
  destruct (ctz64_trailing c ltac:(lia)) as [[H0 _] Hlt].
  assert ((64 * w + ctz64 c) / 64 = w /\ (64 * w + ctz64 c) mod 64 = ctz64 c) as [Ed Em]
    by (Z.div_mod_to_equations; lia).
  destruct i as [|i]; cbn [path_ok]; rewrite Ed, Em.
  - split; [|done]. eexists. rewrite list_lookup_insert_eq by done. split; [done|]. by apply (clear_lowest _ _ lo).
  - split.
    + eexists. rewrite list_lookup_insert_eq by done. split; [done|]. by apply (clear_lowest _ _ lo).
    + apply (path_ok_ext cur); [|done]. intros j Hj. apply list_lookup_insert_ne. lia.
Qed.

(** The outcome of climbing from bit [q] of level [i]: either only the
    sentinel is left, or descending again arrives at the next set bit. *)
Definition skips (cur : list Z) (i : nat) (q : Z) : Prop :=
  (exists pos, skip_up cur (S i) q = Ok (0%nat, Z.shiftl 1 (BITS_PER_LONG - 1), pos) /\
     forall k, q < k < len (S i) -> bit (lv L i) k = false) \/
  exists s c pos r cur',
    skip_up cur (S i) q = Ok (s, c, pos) /\
    (s =? 0)%nat && (c =? Z.shiftl 1 (BITS_PER_LONG - 1)) = false /\ (s <= i)%nat /\
    skip_down (S i - s) L s cur c pos = Ok (cur', wd (lv L (S i)) r, r) /\
    q < r < len (S i) /\ bit (lv L i) r = true /\
    (forall k, q < k < r -> bit (lv L i) k = false) /\
    path_ok cur' i r /\ length cur' = length cur /\
    forall j, (i < j)%nat -> cur' !! j = cur !! j.

Lemma sentinel_only q c : 0 <= q < len 1 ->
  shows (bit (lv L 0)) 0 (q + 1) 64 c -> c <> 0 -> ctz64 c = 63 -> c = Z.shiftl 1 (BITS_PER_LONG - 1).
Proof.
  intros Hq (_ & _ & Hc & _) Hnz Ht. unfold in_u in Hc.
  destruct (ctz64_trailing c ltac:(lia)) as ((_ & Hb & Hl) & _). rewrite Ht in *.
  change (Z.shiftl 1 (BITS_PER_LONG - 1)) with (2 ^ 63). apply Z.bits_inj'. intros j Hj.
  rewrite Z.pow2_bits_eqb by lia. destruct (Z.eqb_spec 63 j) as [<-|]; [done|].
  destruct (Z.lt_ge_cases j 63); [apply Hl; lia|apply (testbit_high c 64); lia].
Qed.

(** Subtrees are left at level [i] itself. *)
Lemma skips_here cur i q c : (i < 6)%nat -> 0 <= q < len (S i) -> (i < length cur)%nat ->
  path_ok cur i q -> cur !! i = Some c -> c <> 0 -> skips cur i q.
Proof.
  intros Hi Hq Hlen Hp Hc Hnz. pose proof (div64_bounds q ltac:(lia)) as [Hd Hd0].
  assert (shows (bit (lv L i)) (64 * (q / 64)) (q mod 64 + 1) 64 c) as Hs.
  { destruct i; destruct Hp as [(c' & Hc' & Hs) _]; rewrite Hc in Hc'; by injection Hc' as <-. }
  assert (q mod 64 = q - 64 * (q / 64)) as Hm by (Z.div_mod_to_equations; lia).
  pose proof (level1_small hb Hhb) as H1. pose proof (tw_fits _ _ (ok_tower hb Hhb) i Hi) as Hfit.
  fold L in H1, Hfit. fold (len (S i)) in Hfit.
  assert (64 * (q / 64) + 64 <= nbits (lv L i)) as Hend by (unfold nbits in *; Z.div_mod_to_equations; lia).
  destruct (shows_first _ _ _ _ _ _ Hs Hnz Hend) as (Hr & Hz & Hb).
  set (r := 64 * (q / 64) + ctz64 c) in *.
  assert (r < nbits (lv L i)) as Hrn.
  { destruct Hs as (_ & _ & Hcu & _). unfold in_u in Hcu.
    destruct (ctz64_trailing c ltac:(lia)) as [_ ?]. lia. }
  specialize (Hb Hrn).
  assert (skip_up cur (S i) q = Ok (i, c, q / 64)) as Hup
    by (cbn [skip_up]; by rewrite Hc, shiftr6, (proj2 (Z.eqb_neq c 0) Hnz)).
  destruct ((i =? 0)%nat && (c =? Z.shiftl 1 (BITS_PER_LONG - 1))) eqn:Es.
  - left. apply andb_true_iff in Es as [->%Nat.eqb_eq Ec%Z.eqb_eq]. exists (q / 64). rewrite <- Ec. split; [done|].
    intros k Hk. unfold len in *. assert (q / 64 = 0) as E0 by (Z.div_mod_to_equations; lia).
    assert (ctz64 c = 63) as Et by (rewrite Ec; done). apply Hz. subst r. rewrite Et, E0 in *. lia.
  - right. destruct (set_bit_word i r Hi ltac:(lia) Hb) as [Hrl|[-> Hr63]].
    2: { unfold len in *. assert (q / 64 = 0) as E0 by (Z.div_mod_to_equations; lia).
         rewrite (sentinel_only q c) in Es; [done|unfold len; lia| |done|subst r; rewrite E0 in *; lia].
         rewrite E0, Hm, E0 in Hs. by rewrite Z.mul_0_r, Z.sub_0_r in Hs. }
    destruct (down_one i cur c (q / 64) _ Hi Hd0 Hs Hnz Hrl) as (Hdown & _). fold r in Hdown.
    exists i, c, (q / 64), r, (<[i := Z.land c (u64 (c - 1))]> cur).
    split_and!; try done; try lia.
    + by replace (S i - i)%nat with 1%nat by lia.
    + intros k Hk. apply Hz. lia.
    + apply (path_arrive i cur c (q / 64) _ Hd0 Hs Hnz Hlen). by destruct i; [|destruct Hp].
    + apply length_insert.
    + intros j Hj. apply list_lookup_insert_ne. lia.
Qed.

(** No subtree is left at level [S i]: the words after [q / 64] decide. *)
Lemma skips_climb cur i q : (S i < 6)%nat -> 0 <= q < len (S (S i)) -> length cur = 7%nat ->
  path_ok cur (S i) q -> cur !! S i = Some 0 -> skips cur i (q / 64) -> skips cur (S i) q.
Proof.
  intros Hi Hq Hlen [(c & Hc & Hs) _] Hc0 Hsk. rewrite Hc0 in Hc. injection Hc as <-.
  pose proof (div64_bounds q ltac:(lia)) as [Hd Hd0].
  assert (q mod 64 = q - 64 * (q / 64)) as Hm by (Z.div_mod_to_equations; lia). rewrite Hm in Hs.
  pose proof (shows_zero _ _ _ _ _ Hs eq_refl) as Hz0.
  assert (skip_up cur (S (S i)) q = skip_up cur (S i) (q / 64)) as Hup
    by (remember (S i) as m; cbn [skip_up]; subst m; by rewrite Hc0, shiftr6).
  pose proof (tw_fits _ _ (ok_tower hb Hhb) (S i) Hi) as Hfit. fold L in Hfit.
  assert (forall k, q / 64 < k < len (S i) -> bit (lv L i) k = false ->
            forall j, 64 * k <= j < 64 * k + 64 -> bit (lv L (S i)) j = false) as Hzero.
  { intros k Hk Hb. apply nz_false; [apply level_ok|lia|].
    rewrite <- Hb. symmetry. apply (tw_summary _ _ (ok_tower hb Hhb) i); [lia|]. unfold len, L in *. lia. }
  destruct Hsk as [(pos & Hp & Hnone)|(s & c & pos & r & cur' & Hp & Hsent & Hsi & Hdown & Hr & Hbr & Hbefore & Hpath & Hlen' & Hrest)].
  - left. exists pos. rewrite Hup. split; [done|]. intros k Hk.
    destruct (Z.lt_ge_cases k (64 * (q / 64) + 64)); [apply Hz0; lia|].
    destruct (div64_bounds k ltac:(lia)). unfold nbits in Hfit.
    apply (Hzero (k / 64)); [unfold len in *; lia|apply Hnone; unfold len in *; lia|lia].
  - right. assert (nz (lv L (S i)) r = true) as Hnz.
    { rewrite <- Hbr. symmetry. apply (tw_summary _ _ (ok_tower hb Hhb) i); [lia|]. unfold len, L in *. lia. }
    assert (wd (lv L (S i)) r <> 0) as Hne by (intros E; unfold nz in Hnz; by rewrite E in Hnz).
    pose proof (wd_shows (lv L (S i)) r (level_ok _) ltac:(lia)) as Hw.
    set (c' := wd (lv L (S i)) r) in *.
    destruct (shows_first _ _ _ _ _ (64 * r + 64) Hw Hne ltac:(lia)) as (Hr1 & Hz1 & Hb1).
    pose proof Hw as (_ & _ & Hcu & _). unfold in_u in Hcu.
    destruct (ctz64_trailing c' ltac:(lia)) as [[Ht0 _] Ht].
    specialize (Hb1 ltac:(lia)).
    destruct (set_bit_word (S i) (64 * r + ctz64 c') Hi ltac:(lia) Hb1) as [Hrl|[? _]]; [|done].
    destruct (down_one (S i) cur' c' r 0 Hi ltac:(lia) Hw Hne Hrl) as (Hone & _).
    exists s, c, pos, (64 * r + ctz64 c'), (<[S i := Z.land c' (u64 (c' - 1))]> cur').
    rewrite Hup. split_and!; try done; try lia.
    + replace (S (S i) - s)%nat with (S (S i - s)) by lia. rewrite skip_down_snoc, Hdown.
      cbn [mbind outcome_bind]. by replace (s + (S i - s))%nat with (S i) by lia.
    + intros k Hk. destruct (Z.lt_ge_cases k (64 * (q / 64) + 64)); [apply Hz0; lia|].
      destruct (Z.lt_ge_cases k (64 * r)); [|apply Hz1; lia].
      destruct (div64_bounds k ltac:(lia)). apply (Hzero (k / 64)); [lia|apply Hbefore; lia|lia].
    + by apply (path_arrive (S i) cur' c' r 0); [lia|..|lia|].
    + by rewrite length_insert.
    + intros j Hj. rewrite list_lookup_insert_ne by lia. apply Hrest. lia.
Qed.

Lemma skips_ok cur : length cur = 7%nat ->
  forall i q, (i < 6)%nat -> 0 <= q < len (S i) -> path_ok cur i q -> skips cur i q.
Proof.
  intros Hlen. induction i as [|i IH]; intros q Hi Hq Hp.
  - pose proof Hp as [(c & Hc & Hs) _]. destruct (Z.eq_dec c 0) as [->|]; [|by apply (skips_here _ _ _ c); [..|lia| | |]].
    pose proof (level1_small hb Hhb). fold L in H. unfold len in Hq.
    assert (q / 64 = 0 /\ q mod 64 = q) as [E1 E2] by (Z.div_mod_to_equations; lia). rewrite E1, E2 in Hs.
    pose proof (shows_zero _ _ _ _ _ Hs eq_refl 63 ltac:(lia)) as Hf.
    pose proof (ok_rest hb Hhb 0 63 ltac:(lia)) as Hr. fold L in Hr. rewrite Hr in Hf by lia. done.
  - pose proof Hp as [(c & Hc & Hs) Hp']. destruct (Z.eq_dec c 0) as [->|]; [|by apply (skips_here _ _ _ c); [..|lia| | |]].
    apply skips_climb; try done. apply IH; [lia| |done].
    pose proof (div64_bounds q ltac:(lia)). pose proof (tw_fits _ _ (ok_tower hb Hhb) (S i) Hi) as Hfit.
    fold L in Hfit. unfold nbits, len in *. lia.
Qed.

(** ** Starting an iteration *)
Lemma drop_below f base w b : shows f base 0 64 w -> 0 <= b < 64 ->
  shows f base b 64 (Z.land w (not64 (Z.shiftl 1 b - 1))).
Proof.
  intros (_ & _ & Hw & Hb) Hr. rewrite Z.shiftl_1_l, Z.sub_1_r, <- Z.ones_equiv.
  split_and!; try lia; [apply in_u64_land_l; [done|apply wrap_range; lia]|].
  intros j Hj. rewrite Z.land_spec, Hb, not64_bit, ones_bit by lia.
  destruct (Z.ltb_spec j 64), (Z.ltb_spec j b), (Z.leb_spec b j); cbn; try lia;
    replace (0 <=? j) with true by lia; cbn; by rewrite ?andb_true_r, ?andb_false_r.
Qed.

Lemma drop_first f base w b : shows f base b 64 w -> 0 <= b < 64 ->
  shows f base (b + 1) 64 (Z.land w (not64 (Z.shiftl 1 b))).
Proof.
  intros (_ & _ & Hw & Hb) Hr. rewrite Z.shiftl_1_l.
  split_and!; try lia; [apply in_u64_land_l; [done|apply wrap_range; lia]|].
  intros j Hj. rewrite Z.land_spec, Hb, not64_bit, Z.pow2_bits_eqb by lia.
  destruct (Z.ltb_spec j 64), (Z.eqb_spec b j), (Z.leb_spec b j), (Z.leb_spec (b + 1) j); cbn; try lia;
    by rewrite ?andb_true_r, ?andb_false_r.
Qed.

Lemma init_step i q acc : (i < 6)%nat -> 0 <= q < len (S i) ->
  exists c, init_cur (S i) L q acc = init_cur i L (q / 64) (c :: acc) /\
    shows (bit (lv L i)) (64 * (q / 64)) (q mod 64 + 1) 64 c /\ 0 <= q / 64 < len i.
Proof.
  intros Hi Hq. pose proof (tw_fits _ _ (ok_tower hb Hhb) _ Hi) as Hfit. fold L in Hfit.
  destruct (div64_bounds q ltac:(lia)) as [Hd Hd0]. pose proof (Z.mod_pos_bound q 64 ltac:(lia)) as Hm.
  assert (0 <= q / 64 < len i) as Hr by (unfold nbits, len in *; lia).
  cbn [init_cur]. rewrite level_of_lv by (unfold L; rewrite (ok_levels hb Hhb); lia).
  cbn [mbind outcome_bind]. rewrite shiftr6, land63, (rd_wd _ _ Hr). cbn [mbind outcome_bind].
  replace (i =? HBITMAP_LEVELS - 1)%nat with false by (symmetry; apply Nat.eqb_neq; cbn; lia). cbn [negb].
  eexists. split; [done|]. split; [|done].
  by apply drop_first, Hm; apply drop_below, Hm; apply wd_shows; [apply level_ok|].
Qed.

Lemma init_cur_ok : forall i q acc, (i < 6)%nat -> 0 <= q < len (S i) -> length acc = (6 - i)%nat ->
  exists cur, init_cur (S i) L q acc = Ok cur /\ length cur = 7%nat /\ path_ok cur i q /\
    forall j, cur !! (S i + j)%nat = acc !! j.
Proof.
  induction i as [|i IH]; intros q acc Hi Hq Hacc;
    destruct (init_step _ q acc Hi Hq) as (c & -> & Hs & Hr).
  - eexists. split; [reflexivity|]. split; [cbn; lia|]. split; [|done]. split; [|done]. eexists. by split; [reflexivity|].
  - destruct (IH (q / 64) (c :: acc)) as (cur & -> & Hlen & Hp & Hj); [lia|done|cbn; lia|].
    exists cur. split; [done|]. split; [done|]. split.
    + split; [|done]. eexists. split; [|exact Hs]. specialize (Hj 0%nat).
      rewrite Nat.add_0_r in Hj. rewrite Hj. reflexivity.
    + intros j. specialize (Hj (S j)). by rewrite Nat.add_succ_r in Hj.
Qed.

(** [hbi] has the bits of the bitmap from [p] on before it. *)
Record iter_at (hbi : HBitmapIter) (p : Z) : Prop := {
  it_pos : 0 <= hbi_pos hbi < len 6;
  it_word : 64 * hbi_pos hbi <= p <= 64 * hbi_pos hbi + 64;
  it_gran : hbi_granularity hbi = hb_granularity hb;
  it_length : length (hbi_cur hbi) = 7%nat;
  it_cur : exists c, hbi_cur hbi !! 6%nat = Some c /\
    shows (bit (lv L 6)) (64 * hbi_pos hbi) (p - 64 * hbi_pos hbi) 64 c;
  it_path : path_ok (hbi_cur hbi) 5 (hbi_pos hbi)
}.

Lemma iter_init_ok first : 0 <= first < hb_size hb * 2 ^ hb_granularity hb ->
  exists hbi, hbitmap_iter_init hb first = Ok hbi /\ iter_at hbi (first / 2 ^ hb_granularity hb).
Proof.
  intros Hf. pose proof (ok_gran hb Hhb) as Hg. unfold hbitmap_iter_init.
  rewrite (Z.shiftr_div_pow2 first) by lia. set (p := first / 2 ^ hb_granularity hb).
  assert (0 <= p < hb_size hb) as Hp.
  { pose proof (Z.pow_pos_nonneg 2 (hb_granularity hb)). split; [apply Z.div_pos; lia|].
    apply Z.div_lt_upper_bound; lia. }
  replace (p <? hb_size hb) with true by lia. cbn [c_assert mbind outcome_bind].
  destruct (div64_bounds p ltac:(lia)) as [Hd Hd0].
  assert (p / 64 < len 6) as Hw.
  { pose proof (ok_bottom hb Hhb) as Hb. unfold bottom, words_for in Hb. unfold len, L.
    pose proof (Z.div_le_mono (p + 1) (hb_size hb + 63) 64). rewrite Hb.
    apply Z.lt_le_trans with ((hb_size hb + 63) / 64); [|lia].
    apply Z.lt_le_trans with ((p + 64) / 64); [|apply Z.div_le_mono; lia].
    replace (p + 64) with (p + 1 * 64) by lia. rewrite Z.div_add by lia. lia. }
  unfold HBITMAP_LEVELS. remember 6%nat as six. cbn [init_cur]. subst six.
  rewrite level_of_lv by (rewrite (ok_levels hb Hhb); lia). cbn [mbind outcome_bind].
  rewrite shiftr6, land63, rd_wd by (unfold len, L in *; lia). cbn [mbind outcome_bind].
  change (negb _) with false. cbn iota.
  pose proof (Z.mod_pos_bound p 64 ltac:(lia)) as Hm.
  pose proof (drop_below _ _ _ (p mod 64) (wd_shows (lv L 6) (p / 64) (level_ok _) Hd0) Hm) as Hs.
  fold L. set (c := Z.land (wd (lv L 6) (p / 64)) _) in *.
  destruct (init_cur_ok 5 (p / 64) [c] ltac:(lia) ltac:(lia) eq_refl) as (cur & -> & Hlen & Hpath & Hj).
  cbn [mbind outcome_bind]. eexists. split; [done|]. split; cbn; try done; try lia.
  exists c. split; [apply (Hj 0%nat)|].
  by replace (p - 64 * (p / 64)) with (p mod 64) by (Z.div_mod_to_equations; lia).
Qed.

(** ** Advancing *)
Definition at_word (hbi : HBitmapIter) (p c : Z) : Prop :=
  let pos := hbi_pos hbi in
  c <> 0 /\ 0 <= pos < len 6 /\ p <= 64 * pos + 64 /\
  hbi_granularity hbi = hb_granularity hb /\ length (hbi_cur hbi) = 7%nat /\
  path_ok (hbi_cur hbi) 5 pos /\
  shows (bit (lv L 6)) (64 * pos) (Z.max 0 (p - 64 * pos)) 64 c /\
  forall k, p <= k < 64 * pos -> bit (lv L 6) k = false.

Lemma iter_word_ok hbi p : iter_at hbi p ->
  (iter_word hb hbi = Ok (0, hbi) /\ forall k, p <= k -> bit (lv L 6) k = false) \/
  exists c hbi', iter_word hb hbi = Ok (c, hbi') /\ at_word hbi' p c.
Proof.
  intros [Hpos Hw Hg Hlen (c & Hc & Hs) Hp]. unfold iter_word. cbn [HBITMAP_LEVELS Nat.sub]. rewrite Hc.
  destruct (Z.eqb_spec c 0) as [->|Hnz].
  - pose proof (shows_zero _ _ _ _ _ Hs eq_refl) as Hz. unfold hbitmap_iter_skip_words.
    cbn [HBITMAP_LEVELS Nat.sub]. pose proof (ok_tower hb Hhb) as T. fold L in T.
    assert (forall k, 0 <= k < len 6 -> bit (lv L 5) k = nz (lv L 6) k) as Hsum
      by (intros k Hk; apply (tw_summary _ _ T 5); unfold len in *; lia).
    destruct (skips_ok (hbi_cur hbi) Hlen 5 (hbi_pos hbi) ltac:(lia) Hpos Hp)
      as [(pos & -> & Hnone)|(s & c & pos & r & cur' & -> & Hsent & Hsi & Hdown & Hr & Hbr & Hbefore & Hpath & Hlen' & _)];
      cbn [mbind outcome_bind].
    + left. rewrite Nat.eqb_refl, Z.eqb_refl. split; [done|]. intros k Hk.
      destruct (Z.lt_ge_cases k (64 * hbi_pos hbi + 64)); [apply Hz; lia|].
      destruct (div64_bounds k ltac:(lia)) as [Hd Hd0]. destruct (Z.lt_ge_cases (k / 64) (len 6)).
      * apply (nz_false (lv L 6) (k / 64)); [apply level_ok|lia| |lia]. rewrite <- Hsum by lia. apply Hnone. lia.
      * unfold bit. rewrite lookup_ge_None_2; [done|]. unfold len in *. lia.
    + right. rewrite Hsent. cbn [Nat.sub] in Hdown.
      fold L. rewrite Hdown. cbn [mbind outcome_bind]. rewrite Hsum in Hbr by lia. unfold nz in Hbr. rewrite Hbr.
      cbn [c_assert mbind outcome_bind]. eexists _, _. split; [done|]. unfold at_word. cbn [hbi_pos hbi_cur hbi_granularity].
      apply negb_true_iff, Z.eqb_neq in Hbr. rewrite Hlen' in *. split_and!; try done; try lia.
      * replace (Z.max 0 (p - 64 * r)) with 0 by lia. apply wd_shows; [apply level_ok|lia].
      * intros k Hk. destruct (Z.lt_ge_cases k (64 * hbi_pos hbi + 64)); [apply Hz; lia|].
        destruct (div64_bounds k ltac:(lia)) as [Hd Hd0].
        apply (nz_false (lv L 6) (k / 64)); [apply level_ok|lia| |lia]. rewrite <- Hsum by lia. apply Hbefore. lia.
  - right. exists c, hbi. split; [done|]. unfold at_word. split_and!; try done; try lia.
    by rewrite Z.max_r by lia.
Qed.

Lemma iter_next_word_ok hbi p : iter_at hbi p ->
  (hbitmap_iter_next_word hb hbi = Ok (2 ^ 64 - 1, 0, hbi) /\ forall k, p <= k -> bit (lv L 6) k = false) \/
  exists pos c hbi', hbitmap_iter_next_word hb hbi = Ok (pos, c, hbi') /\ iter_at hbi' (64 * pos + 64) /\
    0 <= pos < len 6 /\ p < 64 * pos + 64 /\
    shows (bit (lv L 6)) (64 * pos) (Z.max 0 (p - 64 * pos)) 64 c /\
    forall k, p <= k < 64 * pos -> bit (lv L 6) k = false.
Proof.
  intros Hit. unfold hbitmap_iter_next_word.
  destruct (iter_word_ok hbi p Hit) as [[-> Hnone]|(c & hbi' & -> & Hnz & Hpos & Hp & Hg & Hlen & Hpath & Hs & Hz)].
  - left. done.
  - right. cbn [mbind outcome_bind]. rewrite (proj2 (Z.eqb_neq c 0) Hnz).
    assert (p < 64 * hbi_pos hbi' + 64) as Hlt.
    { destruct (shows_first _ _ _ _ _ _ Hs Hnz (Z.le_refl _)) as (Hr & _). pose proof Hs as (_ & _ & Hcu & _).
      unfold in_u in Hcu. destruct (ctz64_trailing c ltac:(lia)) as [_ ?]. lia. }
    eexists _, _, _. split; [done|]. split_and!; try done; try lia.
    split; cbn [hbi_pos hbi_cur hbi_granularity set_cur HBITMAP_LEVELS Nat.sub]; try done; try lia.
    + by rewrite length_insert.
    + exists 0. rewrite list_lookup_insert_eq by lia. split; [done|].
      replace (64 * hbi_pos hbi' + 64 - 64 * hbi_pos hbi') with 64 by lia.
      split_and!; try lia; [by split|]. intros j Hj. rewrite Z.bits_0.
      by replace ((64 <=? j) && (j <? 64)) with false by lia.
    + apply (path_ok_ext (hbi_cur hbi')); [|done]. intros j Hj. apply list_lookup_insert_ne. lia.
Qed.

Lemma iter_next_ok hbi p : iter_at hbi p -> 0 <= p ->
  (hbitmap_iter_next hb hbi = Ok (-1, hbi) /\ forall k, p <= k -> bit (lv L 6) k = false) \/
  exists r hbi', hbitmap_iter_next hb hbi = Ok (r * 2 ^ hb_granularity hb, hbi') /\ iter_at hbi' (r + 1) /\
    p <= r < hb_size hb /\ bit (lv L 6) r = true /\ forall k, p <= k < r -> bit (lv L 6) k = false.
Proof.
  intros Hit Hp0. unfold hbitmap_iter_next.
  destruct (iter_word_ok hbi p Hit) as [[-> Hnone]|(c & hbi' & -> & Hnz & Hpos & Hp & Hg & Hlen & Hpath & Hs & Hz)].
  { left. done. }
  right. cbn [mbind outcome_bind]. rewrite (proj2 (Z.eqb_neq c 0) Hnz).
  destruct (shows_first _ _ _ _ _ _ Hs Hnz (Z.le_refl _)) as (Hr & Hzr & Hb).
  pose proof Hs as (_ & _ & Hcu & _). unfold in_u in Hcu.
  destruct (ctz64_trailing c ltac:(lia)) as [[Ht0 _] Ht]. specialize (Hb ltac:(lia)).
  set (r := 64 * hbi_pos hbi' + ctz64 c) in *.
  assert (r < hb_size hb) as Hrs.
  { destruct (Z.lt_ge_cases r (hb_size hb)); [done|].
    pose proof (ok_end hb Hhb r ltac:(done)) as He. unfold bottom in He. fold L in He. by rewrite Hb in He. }
  pose proof (ok_gran hb Hhb). pose proof (ok_items hb Hhb). pose proof (ok_size hb Hhb).
  assert (0 < 2 ^ hb_granularity hb) by (apply Z.pow_pos_nonneg; lia).
  exists r. eexists. split_and!; try lia; try done.
  - cbn [hbi_pos set_cur hbi_granularity]. rewrite (Z.shiftl_mul_pow2 (hbi_pos hbi')) by (cbv; discriminate).
    replace (hbi_pos hbi' * 2 ^ BITS_PER_LEVEL + ctz64 c) with r by (subst r; change (2 ^ BITS_PER_LEVEL) with 64; lia).
    rewrite (swrap_small 64 r) by (unfold in_s; lia). rewrite Hg, Z.shiftl_mul_pow2 by lia.
    rewrite swrap_small; [done|lia|]. unfold in_s. nia.
  - split; cbn [hbi_pos hbi_granularity hbi_cur set_cur]; try done; try lia.
    + by rewrite length_insert.
    + eexists. cbn [HBITMAP_LEVELS Nat.sub]. rewrite list_lookup_insert_eq by lia. split; [done|].
      replace (r + 1 - 64 * hbi_pos hbi') with (ctz64 c + 1) by lia. by apply (clear_lowest _ _ (Z.max 0 (p - 64 * hbi_pos hbi'))).
    + apply (path_ok_ext (hbi_cur hbi')); [|done]. intros j Hj. apply list_lookup_insert_ne. cbn. lia.
  - intros k Hk. destruct (Z.lt_ge_cases k (64 * hbi_pos hbi')); [apply Hz; lia|apply Hzr; lia].
Qed.

(** ** Counting *)
Lemma shows_popcountl f base lo hi w : shows f base lo hi w -> popcountl w = cnt f (base + lo) (base + hi).
Proof. apply shows_popcount. Qed.

Lemma count_words_ok start end_ : 0 <= start <= end_ -> end_ <= 2 ^ 41 ->
  forall fuel hbi p, iter_at hbi p -> start <= p <= end_ -> (Z.to_nat (end_ / 64 + 1 - p / 64) < fuel)%nat ->
  exists pos c n, count_words fuel hb hbi end_ (cnt (bit (lv L 6)) start p) = Ok (pos, c, n) /\
    ((end_ / 64 < pos /\ n = cnt (bit (lv L 6)) start end_) \/
     (pos = end_ / 64 /\ n + popcountl (Z.land c (Z.shiftl 1 (end_ mod 64) - 1)) = cnt (bit (lv L 6)) start end_)).
Proof.
  intros Hs H41. induction fuel as [|fuel IH]; intros hbi p Hit Hp Hf; [lia|]. cbn [count_words]. rewrite shiftr6.
  destruct (div64_bounds end_ ltac:(lia)) as [Hd Hd0].
  assert (end_ mod 64 = end_ - 64 * (end_ / 64)) as Hm by (Z.div_mod_to_equations; lia).
  set (f := bit (lv L 6)) in *.
  assert (forall m, start <= p <= m -> (forall k, p <= k < m -> f k = false) -> cnt f start m = cnt f start p) as Hskip.
  { intros m Hpm Hz. rewrite (cnt_split f p m _ start eq_refl) by lia.
    rewrite (cnt_false f m _ p eq_refl) by done. lia. }
  destruct (iter_next_word_ok hbi p Hit) as [[-> Hnone]|(pos & c & hbi' & -> & Hit' & Hpos & Hple & Hsh & Hz)];
    cbn [mbind outcome_bind].
  - replace (end_ / 64 <=? 2 ^ 64 - 1) with true by lia. eexists _, _, _. split; [done|]. left. split; [lia|].
    symmetry. apply Hskip; [lia|]. intros. apply Hnone. lia.
  - fold f in Hsh, Hz. destruct (Z.leb_spec (end_ / 64) pos) as [Hge|Hlt].
    + eexists _, _, _. split; [done|]. destruct (Z.eq_dec pos (end_ / 64)) as [->|Hne].
      2: { left. split; [lia|]. symmetry. apply Hskip; [lia|]. intros. apply Hz. lia. }
      right. split; [done|]. rewrite Z.shiftl_1_l, Z.sub_1_r, <- Z.ones_equiv.
      rewrite (shows_popcountl _ _ _ _ _ (shows_below _ _ _ _ _ (end_ mod 64) Hsh ltac:(lia))).
      replace (64 * (end_ / 64) + end_ mod 64) with end_ by lia.
      rewrite (cnt_split f (Z.max p (64 * (end_ / 64))) end_ _ start eq_refl) by lia.
      rewrite (Hskip (Z.max p (64 * (end_ / 64)))) by (lia || (intros; apply Hz; lia)). do 2 f_equal. lia.
    + assert (cnt f start p + popcountl c = cnt f start (64 * pos + 64)) as Hadd.
      { rewrite (shows_popcountl _ _ _ _ _ Hsh).
        rewrite (cnt_split f (Z.max p (64 * pos)) (64 * pos + 64) _ start eq_refl) by lia.
        rewrite (Hskip (Z.max p (64 * pos))) by (lia || (intros; apply Hz; lia)). do 2 f_equal. lia. }
      rewrite Hadd, wrap_small.
      2: { pose proof (cnt_bound f (64 * pos + 64) _ start eq_refl). lia. }
      apply (IH hbi' (64 * pos + 64) Hit'); [lia|].
      replace ((64 * pos + 64) / 64) with (pos + 1) by (Z.div_mod_to_equations; lia).
      assert (p / 64 <= pos) by (Z.div_mod_to_equations; lia). lia.
Qed.

Lemma count_between_ok start last : 0 <= start <= last -> last < hb_size hb ->
  hb_count_between hb start last = Ok (cnt (bit (lv L 6)) start (last + 1)).
Proof.
  intros Hs Hl. pose proof (ok_size hb Hhb). pose proof (ok_gran hb Hhb). pose proof (ok_items hb Hhb).
  assert (0 < 2 ^ hb_granularity hb) by (apply Z.pow_pos_nonneg; lia).
  assert (0 <= start * 2 ^ hb_granularity hb < hb_size hb * 2 ^ hb_granularity hb) as Hm
    by (split; [apply Z.mul_nonneg_nonneg|apply Z.mul_lt_mono_pos_r]; lia).
  unfold hb_count_between. rewrite (wrap_small 64 (last + 1)) by lia.
  rewrite (Z.shiftl_mul_pow2 start) by lia. rewrite (wrap_small 64 (start * 2 ^ hb_granularity hb)) by lia.
  destruct (iter_init_ok (start * 2 ^ hb_granularity hb) Hm) as (hbi & -> & Hit).
  rewrite Z.div_mul in Hit by lia. cbn [mbind outcome_bind]. rewrite shiftr6, land63.
  destruct (div64_bounds (last + 1) ltac:(lia)), (div64_bounds start ltac:(lia)).
  destruct (count_words_ok start (last + 1) ltac:(lia) ltac:(lia) (S (S (Z.to_nat ((last + 1) / 64)))) hbi start Hit)
    as (pos & c & n & E & Hn); [lia|lia|]. rewrite cnt_nil in E. rewrite E. cbn [mbind outcome_bind].
  destruct Hn as [[Hpos ->]|[-> Hn]].
  - by replace (pos =? (last + 1) / 64) with false by lia.
  - rewrite Z.eqb_refl, Hn. f_equal. apply wrap_small.
    pose proof (cnt_bound (bit (lv L 6)) (last + 1) _ start eq_refl). lia.
Qed.
End Iterate.

(** ** The operations *)
Lemma hbitmap_get_ok hb item : hb_ok hb -> 0 <= item < hb_size hb * 2 ^ hb_granularity hb ->
  hbitmap_get hb item = Ok (bit (bottom hb) (item / 2 ^ hb_granularity hb)).
Proof.
  intros Hok Hi. pose proof (ok_gran hb Hok). assert (0 < 2 ^ hb_granularity hb) by (apply Z.pow_pos_nonneg; lia).
  unfold hbitmap_get. rewrite (Z.shiftr_div_pow2 item) by lia. set (p := item / 2 ^ hb_granularity hb).
  assert (0 <= p < hb_size hb) as Hp
    by (split; [apply Z.div_pos; lia|apply Z.div_lt_upper_bound; lia]).
  cbn [HBITMAP_LEVELS Nat.sub]. rewrite level_of_lv by (rewrite (ok_levels hb Hok); lia).
  cbn [mbind outcome_bind]. rewrite shiftr6, land63. destruct (div64_bounds p ltac:(lia)).
  pose proof (Z.mod_pos_bound p 64 ltac:(lia)).
  rewrite rd_wd.
  2: { pose proof (ok_bottom hb Hok) as Hb. unfold bottom, words_for in Hb. Z.div_mod_to_equations; lia. }
  cbn [mbind outcome_bind]. f_equal. fold (bottom hb).
  replace p with (64 * (p / 64) + p mod 64) at 3 by (Z.div_mod_to_equations; lia).
  rewrite <- wd_bit by lia. rewrite Z.shiftl_1_l.
  destruct (Z.testbit (wd (bottom hb) (p / 64)) (p mod 64)) eqn:E.
  - apply negb_true_iff, Z.eqb_neq. intros Hl. apply (f_equal (fun x => Z.testbit x (p mod 64))) in Hl.
    rewrite Z.land_spec, E, Z.pow2_bits_true, Z.bits_0 in Hl by lia. done.
  - apply negb_false_iff, Z.eqb_eq. bits. rewrite Z.pow2_bits_eqb by lia.
    destruct (Z.eqb_spec (p mod 64) i) as [<-|]; [by rewrite E|apply andb_false_r].
Qed.

(** Replacing the levels by an update of the bottom range [lo, hi). *)
Lemma hb_updated hb levels' lo hi b : hb_ok hb -> 0 <= lo <= hi -> hi <= hb_size hb ->
  tower 6 levels' -> updated 6 (hb_levels hb) levels' lo hi b ->
  hb_ok {| hb_size := hb_size hb;
           hb_count := cnt (bit (bottom hb)) 0 lo + (if b then hi - lo else 0) + cnt (bit (bottom hb)) hi (hb_size hb);
           hb_granularity := hb_granularity hb; hb_levels := levels' |}.
Proof.
  intros Hok Hlo Hhi T [U1 U2 U3 (_ & _ & U4) U5]. fold (bottom hb) in U4.
  destruct Hok as [H1 H2 H3 H4 H5 H6 _ H7 H8 _]. split; cbn; try done.
  - by rewrite U1.
  - unfold bottom. cbn. by rewrite U2.
  - intros i Hi. rewrite !U2. by apply H6.
  - intros i k Hi Hk. rewrite U2 in Hk. rewrite U5 by done. by apply H7.
  - intros k Hk. unfold bottom. cbn. rewrite U4 by lia.
    replace ((lo <=? k) && (k <? hi)) with false by lia. by apply H8.
  - unfold bottom at 3. cbn [hb_levels].
    rewrite (cnt_split _ lo (hb_size hb) _ 0 eq_refl), (cnt_split _ hi (hb_size hb) _ lo eq_refl) by lia.
    rewrite (cnt_ext (bit (lv levels' 6)) (bit (bottom hb)) lo _ 0 eq_refl).
    2: { intros k Hk. rewrite U4 by lia. by replace ((lo <=? k) && (k <? hi)) with false by lia. }
    rewrite (cnt_ext (bit (lv levels' 6)) (bit (bottom hb)) (hb_size hb) _ hi eq_refl).
    2: { intros k Hk. rewrite U4 by lia. by replace ((lo <=? k) && (k <? hi)) with false by lia. }
    rewrite (cnt_ext (bit (lv levels' 6)) (fun _ => b) hi _ lo eq_refl).
    2: { intros k Hk. rewrite U4 by lia. by replace ((lo <=? k) && (k <? hi)) with true by lia. }
    rewrite cnt_const. destruct b; lia.
Qed.

(** The groups of the items [start, start + count). *)
Lemma item_groups hb start count : hb_ok hb -> 0 <= start -> 0 < count ->
  start + count <= hb_size hb * 2 ^ hb_granularity hb ->
  let G := 2 ^ hb_granularity hb in
  u64 (u64 (start + count) - 1) = start + count - 1 /\
  0 <= start / G <= (start + count - 1) / G /\ (start + count - 1) / G < hb_size hb.
Proof.
  intros Hok Hs Hc Hle. pose proof (ok_gran hb Hok). pose proof (ok_items hb Hok). cbv zeta.
  assert (0 < 2 ^ hb_granularity hb) by (apply Z.pow_pos_nonneg; lia).
  rewrite !wrap_small by (rewrite ?wrap_small; lia). split_and!; [done|apply Z.div_pos; lia|apply Z.div_le_mono; lia|].
  apply Z.div_lt_upper_bound; lia.
Qed.

(** What [hbitmap_set] ([b] true) and [hbitmap_reset] promise. *)
Definition assigns (hb hb' : HBitmap) (start count : Z) (b : bool) : Prop :=
  let G := 2 ^ hb_granularity hb in
  hb_ok hb' /\ hb_size hb' = hb_size hb /\ hb_granularity hb' = hb_granularity hb /\
  forall item, 0 <= item < hb_size hb * G ->
    hbitmap_get hb' item =
      if (start / G <=? item / G) && (item / G <=? (start + count - 1) / G)
      then Ok b else hbitmap_get hb item.

Lemma assigns_intro hb levels' n start count b : hb_ok hb -> 0 <= start -> 0 < count ->
  start + count <= hb_size hb * 2 ^ hb_granularity hb ->
  let G := 2 ^ hb_granularity hb in
  let lo := start / G in let hi := (start + count - 1) / G + 1 in
  tower 6 levels' -> updated 6 (hb_levels hb) levels' lo hi b ->
  n = cnt (bit (bottom hb)) 0 lo + (if b then hi - lo else 0) + cnt (bit (bottom hb)) hi (hb_size hb) ->
  assigns hb {| hb_size := hb_size hb; hb_count := n; hb_granularity := hb_granularity hb;
                hb_levels := levels' |} start count b.
Proof.
  intros Hok Hs Hc Hle G lo hi T U ->.
  destruct (item_groups hb start count Hok Hs Hc Hle) as (_ & Hlo & Hhi). fold G lo in Hlo, Hhi.
  assert (0 < G) by (apply Z.pow_pos_nonneg; pose proof (ok_gran hb Hok); lia).
  pose proof (hb_updated hb levels' lo hi b Hok ltac:(lia) ltac:(lia) T U) as Hok'.
  split; [exact Hok'|]. split; [done|]. split; [done|]. fold G lo. intros item Hi.
  rewrite !hbitmap_get_ok by done. cbn [hb_granularity]. fold G.
  destruct (up_filled _ _ _ _ _ _ U) as (_ & _ & Hb). fold (bottom hb) in Hb. unfold bottom at 1. cbn [hb_levels].
  rewrite Hb by (apply Z.div_pos; lia). replace (item / G <? hi) with (item / G <=? (start + count - 1) / G) by lia.
  by destruct (_ && _).
Qed.

Lemma cnt_parts hb lo hi : hb_ok hb -> 0 <= lo <= hi -> hi <= hb_size hb ->
  hb_count hb = cnt (bit (bottom hb)) 0 lo + cnt (bit (bottom hb)) lo hi + cnt (bit (bottom hb)) hi (hb_size hb).
Proof.
  intros Hok Hlo Hhi. rewrite (ok_count hb Hok).
  rewrite (cnt_split _ lo (hb_size hb) _ 0 eq_refl), (cnt_split _ hi (hb_size hb) _ lo eq_refl) by lia. lia.
Qed.

Lemma set_reset_assigns hb start count :
  hb_ok hb -> 0 <= start -> 0 < count -> start + count <= hb_size hb * 2 ^ hb_granularity hb ->
  (exists hb', hbitmap_set hb start count = Ok hb' /\ assigns hb hb' start count true) /\
  (exists hb', hbitmap_reset hb start count = Ok hb' /\ assigns hb hb' start count false).
Proof.
  intros Hok Hs Hc Hle. pose proof (ok_gran hb Hok). pose proof (ok_size hb Hok).
  destruct (item_groups hb start count Hok Hs Hc Hle) as (Hlast & Hlo & Hhi).
  unfold hbitmap_set, hbitmap_reset. rewrite Hlast, !Z.shiftr_div_pow2 by lia.
  set (lo := start / 2 ^ hb_granularity hb) in *.
  set (last := (start + count - 1) / 2 ^ hb_granularity hb) in *.
  rewrite (count_between_ok hb Hok lo last) by lia. cbn [mbind outcome_bind]. fold (bottom hb).
  assert (last < nbits (lv (hb_levels hb) 6)) as Hn.
  { pose proof (ok_bottom hb Hok) as Hb. unfold bottom, words_for, nbits in *. Z.div_mod_to_equations; lia. }
  pose proof (cnt_bound (bit (bottom hb)) (last + 1) _ lo eq_refl).
  pose proof (cnt_bound (bit (bottom hb)) lo _ 0 eq_refl).
  pose proof (cnt_bound (bit (bottom hb)) (hb_size hb) _ (last + 1) eq_refl).
  pose proof (cnt_parts hb lo (last + 1) Hok ltac:(lia) ltac:(lia)) as Hparts. split.
  - destruct (set_between_ok 6 (hb_levels hb) lo last (ok_tower hb Hok) ltac:(lia) Hn) as (levels' & E & T & U).
    cbn [HBITMAP_LEVELS Nat.sub]. rewrite E. eexists. split; [done|]. apply assigns_intro; try done.
    fold lo last. rewrite (wrap_small 64 (last - lo)), (wrap_small 64 (last - lo + 1)), !wrap_small
      by (rewrite ?wrap_small; lia). lia.
  - destruct (reset_between_ok 6 (hb_levels hb) lo last (ok_tower hb Hok) ltac:(lia) Hn) as (levels' & E & T & U).
    cbn [HBITMAP_LEVELS Nat.sub]. rewrite E. eexists. split; [done|]. apply assigns_intro; try done.
    fold lo last. rewrite wrap_small by lia. lia.
Qed.

(** C38 (invariant): setting and resetting a range of items assigns exactly
    the groups the range touches, keeps every coarser level a summary of the
    next, and keeps the count equal to the number of set bits.  The last line of
    the example in hbitmap.c, which resets groups 2 to 4 and shows group 5 as reset
    too, is wrong ([comment_example]). *)
Theorem hbitmap_set_reset hb start count :
  hb_ok hb -> 0 <= start -> 0 < count -> start + count <= hb_size hb * 2 ^ hb_granularity hb ->
  (exists hb', hbitmap_set hb start count = Ok hb' /\ assigns hb hb' start count true) /\
  (exists hb', hbitmap_reset hb start count = Ok hb' /\ assigns hb hb' start count false).
Proof. apply set_reset_assigns. Qed.

(** ** Iterating over the set bits

    The loop [while ((item = hbitmap_iter_next(&hbi)) >= 0)] of the clients. *)
Fixpoint iterate (fuel : nat) (hb : HBitmap) (hbi : HBitmapIter) : outcome (list Z) :=
  match fuel with
  | O => NoFuel
  | S fuel =>
      '(item, hbi) ← hbitmap_iter_next hb hbi;
      if item <? 0 then Ok []
      else items ← iterate fuel hb hbi; Ok (item :: items)
  end.

Lemma iterate_ok hb : hb_ok hb -> forall fuel hbi p,
  iter_at hb hbi p -> 0 <= p -> (Z.to_nat (cnt (bit (bottom hb)) p (hb_size hb)) < fuel)%nat ->
  exists l, iterate fuel hb hbi = Ok l /\ StronglySorted Z.lt l /\
    forall item, item ∈ l <-> exists k, p <= k < hb_size hb /\ item = k * 2 ^ hb_granularity hb /\
      bit (bottom hb) k = true.
Proof.
  intros Hok. pose proof (ok_gran hb Hok). assert (0 < 2 ^ hb_granularity hb) by (apply Z.pow_pos_nonneg; lia).
  induction fuel as [|fuel IH]; intros hbi p Hit Hp Hf; [lia|]. cbn [iterate].
  destruct (iter_next_ok hb Hok hbi p Hit Hp) as [[-> Hnone]|(r & hbi' & -> & Hit' & Hr & Hb & Hz)];
    cbn [mbind outcome_bind].
  - exists []. split; [done|]. split; [constructor|]. intros item. split; [by intros ?%elem_of_nil|].
    intros (k & Hk & _ & Hbk). unfold bottom in Hbk. by rewrite Hnone in Hbk by lia.
  - fold (bottom hb) in Hb, Hz. replace (r * 2 ^ hb_granularity hb <? 0) with false by nia.
    rewrite (cnt_split _ r (hb_size hb) _ p eq_refl) in Hf by lia.
    rewrite (cnt_false _ r _ p eq_refl Hz), (cnt_step _ r), Hb in Hf by lia. cbn [b2z] in Hf.
    pose proof (cnt_bound (bit (bottom hb)) (hb_size hb) _ (r + 1) eq_refl).
    destruct (IH hbi' (r + 1) Hit' ltac:(lia) ltac:(lia)) as (l & -> & Hsort & Hl). cbn [mbind outcome_bind].
    eexists. split; [done|]. split.
    + constructor; [done|]. apply Forall_forall. intros x (k & Hk & -> & _)%Hl. nia.
    + intros item. rewrite elem_of_cons, Hl. split.
      * intros [->|(k & Hk & -> & Hbk)]; [by exists r|]. exists k. split; [lia|done].
      * intros (k & Hk & -> & Hbk). destruct (Z.lt_trichotomy k r) as [?|[->|?]].
        -- by rewrite Hz in Hbk by lia.
        -- by left.
        -- right. exists k. split; [lia|done].
Qed.

(** Iterating from an item visits, in increasing order and
    once each, exactly the first items of the set groups from that item's
    group on, and then ends. *)
Theorem hbitmap_iteration hb first :
  hb_ok hb -> 0 <= first < hb_size hb * 2 ^ hb_granularity hb ->
  exists hbi items, hbitmap_iter_init hb first = Ok hbi /\
    iterate (S (Z.to_nat (hb_count hb))) hb hbi = Ok items /\
    StronglySorted Z.lt items /\
    forall item, item ∈ items <->
      exists k, first / 2 ^ hb_granularity hb <= k < hb_size hb /\ item = k * 2 ^ hb_granularity hb /\
        hbitmap_get hb item = Ok true.
Proof.
  intros Hok Hf. destruct (iter_init_ok hb Hok first Hf) as (hbi & -> & Hit).
  pose proof (ok_gran hb Hok). assert (0 < 2 ^ hb_granularity hb) by (apply Z.pow_pos_nonneg; lia).
  set (p := first / 2 ^ hb_granularity hb) in *.
  assert (0 <= p < hb_size hb) as Hp by (split; [apply Z.div_pos; lia|apply Z.div_lt_upper_bound; lia]).
  destruct (iterate_ok hb Hok (S (Z.to_nat (hb_count hb))) hbi p Hit ltac:(lia)) as (l & E & Hs & Hl).
  { rewrite (ok_count hb Hok), (cnt_split _ p (hb_size hb) _ 0 eq_refl) by lia.
    pose proof (cnt_bound (bit (bottom hb)) p _ 0 eq_refl).
    pose proof (cnt_bound (bit (bottom hb)) (hb_size hb) _ p eq_refl). lia. }
  exists hbi, l. split_and!; try done. intros item. rewrite Hl.
  split; intros (k & Hk & -> & Hb); exists k; split_and!; try done; try lia.
  - rewrite hbitmap_get_ok, Z.div_mul by (done || nia || lia). by rewrite Hb.
  - rewrite hbitmap_get_ok, Z.div_mul in Hb by (done || nia || lia). by injection Hb.
Qed.

(** ** Allocation *)
Lemma words_for_range n : 0 <= n <= 2 ^ 41 -> 1 <= words_for n <= 2 ^ 41.
Proof. intros. unfold words_for. Z.div_mod_to_equations; lia. Qed.

Lemma iter_words_range n : 0 <= n <= 2 ^ 41 -> forall m, 0 <= Nat.iter m words_for n <= 2 ^ 41.
Proof.
  intros Hn. induction m as [|m IH]; [done|]. rewrite Nat.iter_succ. pose proof (words_for_range _ IH). lia.
Qed.

Lemma alloc_levels_spec m : forall size acc, 0 <= size <= 2 ^ 41 ->
  alloc_levels m size acc =
    (((fun i => replicate (Z.to_nat (Nat.iter (m - i) words_for size)) 0) <$> seq 0 m) ++ acc,
     Nat.iter m words_for size).
Proof.
  induction m as [|m IH]; intros size acc Hs; [done|]. cbn [alloc_levels].
  replace (Z.max (Z.shiftr (u64 (size + BITS_PER_LONG - 1)) BITS_PER_LEVEL) 1) with (words_for size).
  2: { unfold BITS_PER_LONG. rewrite shiftr6, wrap_small by lia. unfold words_for. do 2 f_equal. lia. }
  pose proof (words_for_range size Hs). rewrite IH by lia. f_equal; [|by rewrite Nat.iter_swap].
  rewrite seq_S, fmap_app, <- app_assoc. f_equal.
  - apply list_fmap_ext. intros i x Hx. apply lookup_seq in Hx as [-> Hi].
    replace (S m - (0 + i))%nat with (S (m - (0 + i))) by lia. by rewrite Nat.iter_succ, Nat.iter_swap.
  - cbn. by replace (S m - m)%nat with 1%nat by lia.
Qed.

Lemma bit_replicate n i : bit (replicate n 0) i = false.
Proof.
  unfold bit. destruct (replicate n 0 !! Z.to_nat (i / 64)) eqn:E; [|done].
  apply lookup_replicate in E as [-> _]. apply Z.bits_0.
Qed.

Lemma nz_replicate n k : nz (replicate n 0) k = false.
Proof.
  unfold nz, wd. destruct (replicate n 0 !! Z.to_nat k) eqn:E; [|done].
  by apply lookup_replicate in E as [-> _].
Qed.

Lemma iter_words_mono a b : a <= b -> forall m, Nat.iter m words_for a <= Nat.iter m words_for b.
Proof. intros Hab. induction m as [|m IH]; [done|]. rewrite !Nat.iter_succ. by apply words_for_mono. Qed.

Lemma top_level n : 0 <= n <= 2 ^ 41 -> Nat.iter 7 words_for n = 1 /\ Nat.iter 6 words_for n <= 32.
Proof.
  intros Hn. split.
  - apply Z.le_antisymm; [etransitivity; [apply (iter_words_mono n (2 ^ 41)); lia|vm_compute; discriminate]|].
    rewrite Nat.iter_succ. apply words_for_range, (iter_words_range n Hn).
  - etransitivity; [apply (iter_words_mono n (2 ^ 41)); lia|vm_compute; discriminate].
Qed.

Definition fresh_levels (n : Z) : list words :=
  <[0%nat := [2 ^ 63]]> ((fun i => replicate (Z.to_nat (Nat.iter (7 - i) words_for n)) 0) <$> seq 0 7).

Lemma fresh_length n i : 0 <= n <= 2 ^ 41 -> (i < 7)%nat ->
  Z.of_nat (length (lv (fresh_levels n) i)) = Nat.iter (7 - i) words_for n.
Proof.
  intros Hn Hi. unfold fresh_levels. destruct i as [|i].
  - rewrite lv_insert_eq by (rewrite length_fmap, length_seq; lia). symmetry. apply (top_level n Hn).
  - rewrite lv_insert_ne by done. unfold lv. rewrite list_lookup_fmap, lookup_seq_lt by lia. cbn [fmap option_fmap option_map from_option]. unfold id.
    rewrite length_replicate, Z2Nat.id; [done|]. apply (iter_words_range n Hn).
Qed.

Lemma fresh_zero n i : exists m, lv (fresh_levels n) (S i) = replicate m 0.
Proof.
  unfold fresh_levels. rewrite lv_insert_ne by done. unfold lv. rewrite list_lookup_fmap.
  destruct (seq 0 7 !! S i); [by eexists|by exists 0%nat].
Qed.

Lemma fresh_bit0 n k : 0 <= k -> bit (lv (fresh_levels n) 0) k = (k =? 63).
Proof.
  intros Hk. unfold fresh_levels. rewrite lv_insert_eq by (rewrite length_fmap, length_seq; lia). unfold bit.
  destruct (Z.lt_ge_cases k 64).
  - rewrite Z.div_small, Z.mod_small by lia. change ([2 ^ 63] !! Z.to_nat 0) with (Some (2 ^ 63)). cbn iota.
    rewrite Z.pow2_bits_eqb by lia. lia.
  - rewrite lookup_ge_None_2; [lia|]. cbn [length]. assert (1 <= k / 64) by (apply Z.div_le_lower_bound; lia). lia.
Qed.

Lemma fresh_ok n g : 0 <= n <= 2 ^ 41 -> 0 <= g < 64 -> n * 2 ^ g <= 2 ^ 63 ->
  hb_ok {| hb_size := n; hb_count := 0; hb_granularity := g; hb_levels := fresh_levels n |}.
Proof.
  intros Hn Hg Hi. destruct (top_level n Hn) as [H7 H6].
  assert (forall i, Z.of_nat (length (lv (fresh_levels n) i)) <= 2 ^ 41) as Hlen.
  { intros i. destruct (decide (i < 7)%nat); [rewrite fresh_length by done; apply (iter_words_range n Hn)|].
    destruct i as [|i]; [lia|]. unfold fresh_levels. rewrite lv_insert_ne by done. unfold lv.
    rewrite lookup_ge_None_2 by (rewrite length_fmap, length_seq; lia). cbn. lia. }
  assert (forall i, (i < 6)%nat -> Z.of_nat (length (lv (fresh_levels n) i)) =
            words_for (Z.of_nat (length (lv (fresh_levels n) (S i))))) as Hls.
  { intros i Hi6. rewrite !fresh_length by lia. replace (7 - i)%nat with (S (7 - S i)) by lia. by rewrite Nat.iter_succ. }
  split; unfold bottom; cbn [hb_size hb_count hb_granularity hb_levels]; try done.
  - rewrite (fresh_length n 6 Hn) by lia. reflexivity.
  - split.
    + unfold fresh_levels. rewrite length_insert, length_fmap, length_seq. lia.
    + intros [|i].
      * unfold fresh_levels. rewrite lv_insert_eq by (rewrite length_fmap, length_seq; lia). by apply words_ok_check.
      * destruct (fresh_zero n i) as [m ->]. apply Forall_replicate. by split.
    + intros i. specialize (Hlen i). unfold nbits. lia.
    + intros i Hi6. unfold nbits. rewrite (Hls i Hi6). unfold words_for. Z.div_mod_to_equations; lia.
    + intros i Hi6 k Hk. destruct (fresh_zero n i) as [m Em]. destruct i as [|i].
      * rewrite fresh_bit0, Em, nz_replicate by lia. rewrite fresh_length in Hk by lia.
        change (7 - 1)%nat with 6%nat in Hk. lia.
      * destruct (fresh_zero n i) as [m' ->]. by rewrite Em, bit_replicate, nz_replicate.
  - intros i k Hi6 Hk. destruct i as [|i]; [by apply fresh_bit0; lia|].
    destruct (fresh_zero n i) as [m ->]. apply bit_replicate.
  - intros k _. destruct (fresh_zero n 5) as [m ->]. apply bit_replicate.
  - symmetry. apply (cnt_false _ _ _ 0 eq_refl). intros k _. destruct (fresh_zero n 5) as [m ->]. apply bit_replicate.
Qed.

(** Allocation succeeds exactly for a valid granularity and
    at most 2^41 groups, and gives a well-formed bitmap with no item set. *)
Theorem hbitmap_alloc_ok size granularity :
  0 <= size -> size + 2 ^ granularity <= 2 ^ 63 ->
  let groups := (size + 2 ^ granularity - 1) / 2 ^ granularity in
  if (0 <=? granularity) && (granularity <? 64) && (groups <=? 2 ^ 41) then
    exists hb, hbitmap_alloc size granularity = Ok hb /\ hb_ok hb /\ hb_size hb = groups /\
      hbitmap_count hb = 0 /\
      forall item, 0 <= item < groups * 2 ^ granularity -> hbitmap_get hb item = Ok false
  else hbitmap_alloc size granularity = Abort.
Proof.
  intros Hs Hle groups. unfold hbitmap_alloc.
  destruct ((0 <=? granularity) && (granularity <? 64)) eqn:Eg; [|reflexivity]. cbn [c_assert mbind outcome_bind andb].
  assert (0 < 2 ^ granularity) by (apply Z.pow_pos_nonneg; lia).
  rewrite (Z.shiftl_1_l granularity). rewrite (wrap_small 64 (size + 2 ^ granularity)), wrap_small by lia.
  rewrite Z.shiftr_div_pow2 by lia. fold groups.
  change (Z.shiftl 1 HBITMAP_LOG_MAX_SIZE) with (2 ^ 41). destruct (Z.leb_spec groups (2 ^ 41)) as [Hg|Hg]; [|reflexivity].
  assert (0 <= groups) by (apply Z.div_pos; lia).
  cbn [c_assert mbind outcome_bind]. rewrite alloc_levels_spec by lia. destruct (top_level groups ltac:(lia)) as [H7 _].
  unfold HBITMAP_LEVELS. rewrite H7. cbn [c_assert mbind outcome_bind Z.eqb Pos.eqb]. rewrite app_nil_r.
  set (levels := _ <$> seq 0 7). replace (level_of levels 0) with (Ok [0] : outcome words).
  2: { subst levels. unfold level_of. rewrite list_lookup_fmap. change (seq 0 7 !! 0%nat) with (Some 0%nat).
       cbn [fmap option_fmap option_map]. by rewrite Nat.sub_0_r, H7. }
  cbn [mbind outcome_bind]. replace (modify_word _ [0] 0) with (Ok [2 ^ 63]) by done. cbn [mbind outcome_bind].
  assert (groups * 2 ^ granularity <= 2 ^ 63) as Hitems.
  { pose proof (Z.mul_div_le (size + 2 ^ granularity - 1) (2 ^ granularity) ltac:(lia)). subst groups. lia. }
  pose proof (fresh_ok groups granularity ltac:(lia) ltac:(lia) Hitems) as Hok.
  change (<[0%nat := [2 ^ 63]]> levels) with (fresh_levels groups).
  eexists. split; [done|]. split; [exact Hok|]. split; [done|]. split.
  { unfold hbitmap_count. cbn [hb_count hb_granularity]. by rewrite Z.shiftl_0_l. }
  intros item Hi. rewrite (hbitmap_get_ok _ item Hok Hi). cbn [hb_granularity]. f_equal.
  unfold bottom. cbn [hb_levels]. destruct (fresh_zero groups 5) as [m ->]. apply bit_replicate.
Qed.

(** A bitmap of 10000 items in groups of two, with one range set. *)
Lemma hbitmap_alloc_ok_witness :
  exists hb, hbitmap_alloc 10000 1 = Ok hb /\ hb_ok hb /\ hbitmap_get hb 4321 = Ok false.
Proof.
  destruct (hbitmap_alloc_ok 10000 1) as (hb & E & Hok & _ & _ & Hget).
  - lia.
  - lia.
  - exists hb. split; [exact E|]. split; [exact Hok|]. apply Hget. vm_compute. split; [discriminate|reflexivity].
Defined.

Lemma fresh_pairs_ok : hb_ok {| hb_size := 5000; hb_count := 0; hb_granularity := 1; hb_levels := fresh_levels 5000 |}.
Proof. apply fresh_ok; lia. Qed.

Lemma hbitmap_set_reset_witness :
  let hb := {| hb_size := 5000; hb_count := 0; hb_granularity := 1; hb_levels := fresh_levels 5000 |} in
  exists hb', hbitmap_set hb 101 7000 = Ok hb' /\ hb_ok hb' /\ hbitmap_count hb' = 7002.
Proof.
  intros hb. destruct (hbitmap_set_reset hb 101 7000) as [(hb' & E & Hok & _) _].
  - apply fresh_pairs_ok.
  - lia.
  - lia.
  - vm_compute. discriminate.
  - exists hb'. split; [exact E|]. split; [exact Hok|]. vm_compute in E. injection E as <-. vm_compute. reflexivity.
Defined.

Lemma hbitmap_iteration_witness :
  let hb := {| hb_size := 5000; hb_count := 0; hb_granularity := 1; hb_levels := fresh_levels 5000 |} in
  exists hb', hbitmap_set hb 4000 3 = Ok hb' /\ exists hbi, hbitmap_iter_init hb' 10 = Ok hbi /\
    iterate 3 hb' hbi = Ok [4000; 4002].
Proof.
  intros hb. destruct (set_reset_assigns hb 4000 3) as [(hb' & E & Hok & Hsize & Hgran & _) _];
    [apply fresh_pairs_ok|lia|lia|vm_compute; discriminate|].
  exists hb'. split; [exact E|]. destruct (hbitmap_iteration hb' 10) as (hbi & items & Ei & Et & _).
  - exact Hok.
  - rewrite Hsize, Hgran. vm_compute. split; [discriminate|reflexivity].
  - exists hbi. split; [exact Ei|]. vm_compute in E. injection E as <-. vm_compute in Ei. injection Ei as <-.
    vm_compute. reflexivity.
Defined.

(** ** Finding: the example of the comment

    The operations of the comment on [struct HBitmap], with the groups that are set
    after each of them.  After the last one group 5 is still set, where the comment
    shows an empty bitmap. *)
Definition groups (hb : HBitmap) : outcome (list bool) := ofold (fun l g => b ← hbitmap_get hb (2 * g); Ok (l ++ [b])) [] [0; 1; 2; 3; 4; 5; 6; 7].

Lemma comment_example :
  (hb ← hbitmap_alloc 16 1;
   hb ← hbitmap_set hb 0 9; s1 ← groups hb;
   hb ← hbitmap_reset hb 1 3; s2 ← groups hb;
   hb ← hbitmap_set hb 9 2; s3 ← groups hb;
   hb ← hbitmap_reset hb 5 5; s4 ← groups hb;
   Ok [s1; s2; s3; s4]) =
  Ok [[true; true; true; true; true; false; false; false];
      [false; false; true; true; true; false; false; false];
      [false; false; true; true; true; true; false; false];
      [false; false; false; false; false; true; false; false]].
Proof. vm_compute. reflexivity. Qed.
