(* ===== verification/Xbzrle.v ===== *)
(** * The page codec of live migration (xbzrle.c, util/cutils.c)

    A page is sent as the difference to an older copy: alternating runs of
    equal bytes (their length only) and of changed bytes.  Buffers are lists of
    bytes; a read or a write outside a buffer is [Abort]. *)
From S2P Require Import Prelude HostUtils Bitops.
Local Open Scope Z_scope.

Definition bytes_ok (l : list Z) : Prop := Forall (in_u 8) l.

Definition buf_at (buf : list Z) (i : Z) : outcome Z :=
  if i <? 0 then Abort else match buf !! Z.to_nat i with Some b => Ok b | None => Abort end.

(** The bytes [i, i + n). *)
Definition slice (i n : Z) (l : list Z) : list Z := take (Z.to_nat n) (drop (Z.to_nat i) l).

(** A little-endian word of the bytes given. *)
Fixpoint le_word (l : list Z) : Z := match l with [] => 0 | b :: l => b + 256 * le_word l end.

(** [*(long * )(buf + i)], as its 64-bit pattern. *)
Definition long_at (buf : list Z) (i : Z) : outcome Z :=
  let w := slice i 8 buf in
  if (0 <=? i) && (length w =? 8)%nat then Ok (le_word w) else Abort.

(** ** uleb128 *)
Definition uleb128_encode_small (n : Z) : outcome (list Z) :=
  _ ← c_assert (n <=? 0x3fff);
  if n <? 0x80 then Ok [n] else Ok [Z.lor (Z.land n 0x7f) 0x80; u8 (Z.shiftr n 7)].

(** Returns the number of bytes consumed (-1 when the number is too large) and
    the number. *)
Definition uleb128_decode_small (buf : list Z) (i : Z) : outcome (Z * Z) :=
  b ← buf_at buf i;
  if Z.land b 0x80 =? 0 then Ok (1, b)
  else
    b2 ← buf_at buf (i + 1);
    if negb (Z.land b2 0x80 =? 0) then Ok (-1, Z.land b 0x7f)
    else Ok (2, Z.lor (Z.land b 0x7f) (Z.shiftl b2 7)).

(** ** Encoding *)

(** Bytes are appended to [dst[0 .. d)]; writing past [dlen] is out of
    bounds. *)
Definition append (dlen : Z) (out bs : list Z) : outcome (list Z) :=
  if Z.of_nat (length out + length bs) <=? dlen then Ok (out ++ bs) else Abort.

Section Encode.
Context (old_buf new_buf : list Z) (slen dlen : Z).

Definition same_byte (i : Z) : outcome bool :=
  o ← buf_at old_buf i; n ← buf_at new_buf i; Ok (o =? n).

(** [while (res && ...)] up to the next word boundary; [same] tells which kind
    of run is extended. *)
Fixpoint run_unaligned (same : bool) (res : nat) (i len : Z) : outcome (nat * Z * Z) :=
  match res with
  | O => Ok (O, i, len)
  | S res' =>
      eq ← same_byte i;
      if eqb eq same then run_unaligned same res' (i + 1) (len + 1) else Ok (res, i, len)
  end.

Fixpoint zrun_words (fuel : nat) (i len : Z) : outcome (Z * Z) :=
  match fuel with
  | O => NoFuel
  | S fuel =>
      if i <? slen then
        o ← long_at old_buf i;
        n ← long_at new_buf i;
        if o =? n then zrun_words fuel (i + 8) (len + 8) else Ok (i, len)
      else Ok (i, len)
  end.

Fixpoint zrun_rest (fuel : nat) (i len : Z) : outcome (Z * Z) :=
  match fuel with
  | O => NoFuel
  | S fuel =>
      if i <? slen then
        eq ← same_byte i;
        if (eq : bool) then zrun_rest fuel (i + 1) (len + 1) else Ok (i, len)
      else Ok (i, len)
  end.

Definition fuel_of : nat := S (Z.to_nat slen).

Definition zrun (i len : Z) : outcome (Z * Z) :=
  '(res, i, len) ← run_unaligned true (Z.to_nat ((slen - i) mod 8)) i len;
  if (res =? 0)%nat then
    '(i, len) ← zrun_words fuel_of i len;
    zrun_rest fuel_of i len
  else Ok (i, len).

(** [(xor - mask) & ~xor & (mask << 7)]: a byte of [xor] is zero. *)
Definition has_zero_byte (xor : Z) : bool :=
  let mask := 0x0101010101010101 in
  negb (Z.land (Z.land (u64 (xor - mask)) (not64 xor)) (u64 (Z.shiftl mask 7)) =? 0).

(** [while (old_buf[i] != new_buf[i])], with no bound on [i]. *)
Fixpoint nzrun_bytes (fuel : nat) (i len : Z) : outcome (Z * Z) :=
  match fuel with
  | O => NoFuel
  | S fuel =>
      eq ← same_byte i;
      if (eq : bool) then Ok (i, len) else nzrun_bytes fuel (i + 1) (len + 1)
  end.

Fixpoint nzrun_words (fuel : nat) (i len : Z) : outcome (Z * Z) :=
  match fuel with
  | O => NoFuel
  | S fuel =>
      if i <? slen then
        o ← long_at old_buf i;
        n ← long_at new_buf i;
        if has_zero_byte (Z.lxor o n) then nzrun_bytes fuel_of i len
        else nzrun_words fuel (i + 8) (len + 8)
      else Ok (i, len)
  end.

Definition nzrun (i len : Z) : outcome (Z * Z) :=
  '(res, i, len) ← run_unaligned false (Z.to_nat ((slen - i) mod 8)) i len;
  if (res =? 0)%nat then nzrun_words fuel_of i len else Ok (i, len).

(** The main loop; the result is the return value and [dst[0 .. d)].  The run
    lengths are [uint32_t] counters that never exceed [slen], an [int]. *)
Fixpoint encode_loop (fuel : nat) (i zrun_len : Z) (out : list Z) : outcome (Z * list Z) :=
  match fuel with
  | O => NoFuel
  | S fuel =>
      let d := Z.of_nat (length out) in
      if i <? slen then
        if dlen <? d + 2 then Ok (-1, out)
        else
          '(i, zrun_len) ← zrun i zrun_len;
          if zrun_len =? slen then Ok (0, out)
          else if i =? slen then Ok (d, out)
          else
            z ← uleb128_encode_small zrun_len;
            out ← append dlen out z;
            let nzrun_start := i in
            if dlen <? Z.of_nat (length out) + 2 then Ok (-1, out)
            else
              '(i, nzrun_len) ← nzrun i 0;
              n ← uleb128_encode_small nzrun_len;
              out ← append dlen out n;
              if dlen <? Z.of_nat (length out) + nzrun_len then Ok (-1, out)
              else
                out ← append dlen out (slice nzrun_start nzrun_len new_buf);
                encode_loop fuel i 0 out
      else Ok (d, out)
  end.
End Encode.

(** The buffers are aligned; [slen] has to be a multiple of a word. *)
Definition xbzrle_encode_buffer (old_buf new_buf : list Z) (slen dlen : Z) : outcome (Z * list Z) :=
  _ ← c_assert (slen mod 8 =? 0);
  encode_loop old_buf new_buf slen dlen (fuel_of slen) 0 0 [].

(** ** Decoding *)

(** [memcpy(dst + d, src + i, count)] *)
Definition copy_bytes (src dst : list Z) (i d count : Z) : outcome (list Z) :=
  let bs := slice i count src in
  if (0 <=? i) && (0 <=? d) && (Z.of_nat (length bs) =? count) && (d + count <=? Z.of_nat (length dst))
  then Ok (take (Z.to_nat d) dst ++ bs ++ drop (Z.to_nat (d + count)) dst)
  else Abort.

Fixpoint decode_loop (fuel : nat) (src : list Z) (slen dlen : Z) (i d : Z) (dst : list Z)
    : outcome (Z * list Z) :=
  match fuel with
  | O => NoFuel
  | S fuel =>
      if i <? slen then
        if slen - i <? 2 then Ok (-1, dst)
        else
          '(ret, count) ← uleb128_decode_small src i;
          if (ret <? 0) || negb (i =? 0) && (count =? 0) then Ok (-1, dst)
          else
            let i := i + ret in
            let d := d + count in
            if dlen <? d then Ok (-1, dst)
            else if slen - i <? 2 then Ok (-1, dst)
            else
              '(ret, count) ← uleb128_decode_small src i;
              if (ret <? 0) || (count =? 0) then Ok (-1, dst)
              else
                let i := i + ret in
                if (dlen <? d + count) || (slen <? i + count) then Ok (-1, dst)
                else
                  dst ← copy_bytes src dst i d count;
                  decode_loop fuel src slen dlen (i + count) (d + count) dst
      else Ok (d, dst)
  end.

Definition xbzrle_decode_buffer (src : list Z) (slen : Z) (dst : list Z) (dlen : Z) : outcome (Z * list Z) :=
  decode_loop (S (Z.to_nat slen)) src slen dlen 0 0 dst.

(** ** Words and bytes *)
Lemma le_word_range l : bytes_ok l -> 0 <= le_word l < 256 ^ Z.of_nat (length l).
Proof.
  induction 1 as [|b l Hb _ IH]; [done|]. cbn [le_word length]. unfold in_u in Hb.
  rewrite Nat2Z.inj_succ, Z.pow_succ_r by lia. change (2 ^ 8) with 256 in Hb. nia.
Qed.

Lemma le_word_inj : forall l1 l2, bytes_ok l1 -> bytes_ok l2 -> length l1 = length l2 ->
  le_word l1 = le_word l2 -> l1 = l2.
Proof.
  induction l1 as [|a l1 IH]; intros [|b l2] H1 H2 Hl He; try done.
  apply Forall_cons in H1 as [Ha H1], H2 as [Hb H2]. cbn [le_word length] in *. unfold in_u in *.
  change (2 ^ 8) with 256 in *. assert (a = b) as -> by lia. f_equal. apply IH; try done; lia.
Qed.

(** Bitwise operations act byte by byte. *)
Lemma byte_split b x : 0 <= b < 256 -> b + 256 * x = Z.lor b (Z.shiftl x 8).
Proof. intros. rewrite lor_shiftl_add by lia. lia. Qed.

Lemma in_u8_lxor a b : in_u 8 a -> in_u 8 b -> in_u 8 (Z.lxor a b).
Proof.
  unfold in_u. intros Ha Hb. split; [apply Z.lxor_nonneg; lia|].
  destruct (Z.eq_dec (Z.lxor a b) 0) as [->|]; [lia|].
  apply Z.log2_lt_pow2; [pose proof (proj2 (Z.lxor_nonneg a b)); lia|].
  eapply Z.le_lt_trans; [apply Z.log2_lxor; lia|]. apply Z.max_lub_lt.
  - destruct (Z.eq_dec a 0) as [->|]; [done|]. apply Z.log2_lt_pow2; lia.
  - destruct (Z.eq_dec b 0) as [->|]; [done|]. apply Z.log2_lt_pow2; lia.
Qed.

Lemma lxor_le : forall l1 l2, bytes_ok l1 -> bytes_ok l2 -> length l1 = length l2 ->
  Z.lxor (le_word l1) (le_word l2) = le_word (zip_with Z.lxor l1 l2).
Proof.
  induction l1 as [|a l1 IH]; intros [|b l2] H1 H2 Hl; try done.
  apply Forall_cons in H1 as [Ha H1], H2 as [Hb H2]. cbn [le_word zip_with]. rewrite <- IH by (done || (cbn in Hl; lia)).
  pose proof (in_u8_lxor a b Ha Hb) as Hx. unfold in_u in *. change (2 ^ 8) with 256 in *.
  rewrite !byte_split by lia. bits. destruct (Z.lt_ge_cases i 8).
  - rewrite !(Z.testbit_neg_r _ (i - 8)) by lia. by rewrite !orb_false_r.
  - rewrite (testbit_high a 8), (testbit_high b 8) by lia. done.
Qed.

(** ** The zero-byte test *)
Fixpoint ones_mask_n (n : nat) : Z := match n with O => 0 | S n => 1 + 256 * ones_mask_n n end.

Definition zero_test (n : nat) (x : Z) : Z :=
  Z.land (Z.land (x - ones_mask_n n) (Z.lnot x)) (128 * ones_mask_n n).

Lemma land_byte_range a b : 0 <= a < 256 -> 0 <= b < 256 -> 0 <= Z.land a b < 256.
Proof.
  intros Ha Hb. split; [apply Z.land_nonneg; lia|]. destruct (Z.eq_dec (Z.land a b) 0) as [->|]; [lia|].
  change 256 with (2 ^ 8). apply Z.log2_lt_pow2; [pose proof (proj2 (Z.land_nonneg a b)); lia|].
  eapply Z.le_lt_trans; [apply Z.log2_land; lia|]. apply Z.min_lt_iff. left.
  destruct (Z.eq_dec a 0) as [->|]; [done|]. apply Z.log2_lt_pow2; lia.
Qed.

Lemma lxor_land_byte a b x y : 0 <= a < 256 -> 0 <= b < 256 ->
  Z.land (a + 256 * x) (b + 256 * y) = Z.land a b + 256 * Z.land x y.
Proof.
  intros Ha Hb.
  pose proof (land_byte_range a b Ha Hb).
  rewrite !byte_split by lia. bits. destruct (Z.lt_ge_cases i 8).
  - rewrite !(Z.testbit_neg_r _ (i - 8)) by lia. by rewrite !orb_false_r.
  - rewrite (testbit_high a 8), (testbit_high b 8) by lia. done.
Qed.

(** One byte of the test. *)
Lemma zero_test_byte b n x : 0 <= b < 256 ->
  exists t, zero_test (S n) (b + 256 * x) =
    t + 256 * (if b =? 0 then Z.land (Z.land (x - ones_mask_n n - 1) (Z.lnot x)) (128 * ones_mask_n n)
               else zero_test n x) /\ (t = 0 <-> b <> 0) /\ 0 <= t < 256.
Proof.
  intros Hb. unfold zero_test. cbn [ones_mask_n].
  replace (128 * (1 + 256 * ones_mask_n n)) with (128 + 256 * (128 * ones_mask_n n)) by lia.
  replace (Z.lnot (b + 256 * x)) with ((255 - b) + 256 * Z.lnot x) by (unfold Z.lnot; lia).
  destruct (Z.eqb_spec b 0) as [->|Hnz].
  - replace (0 + 256 * x - (1 + 256 * ones_mask_n n)) with (255 + 256 * (x - ones_mask_n n - 1)) by lia.
    rewrite Z.sub_0_r, lxor_land_byte by lia. change (Z.land 255 255) with 255. rewrite lxor_land_byte by lia.
    eexists. split; [reflexivity|]. change (Z.land 255 128) with 128. split; [split; lia|lia].
  - replace (b + 256 * x - (1 + 256 * ones_mask_n n)) with ((b - 1) + 256 * (x - ones_mask_n n)) by lia.
    rewrite lxor_land_byte by lia.
    pose proof (land_byte_range (b - 1) (255 - b) ltac:(lia) ltac:(lia)).
    rewrite lxor_land_byte by lia. eexists. split; [reflexivity|].
    enough (Z.land (Z.land (b - 1) (255 - b)) 128 = 0) as -> by (split; [split; lia|lia]).
    change 128 with (2 ^ 7). rewrite Z.land_comm. bits. rewrite Z.pow2_bits_eqb by lia.
    destruct (Z.eqb_spec 7 i) as [<-|]; [|done]. cbn [andb].
    destruct (Z.lt_ge_cases (b - 1) 128); [rewrite (testbit_high (b - 1) 7) by lia; done|].
    rewrite (testbit_high (255 - b) 7) by lia. apply andb_false_r.
Qed.

Lemma zero_test_spec n : forall l, bytes_ok l -> length l = n ->
  (zero_test n (le_word l) <> 0 <-> 0 ∈ l).
Proof.
  induction n as [|n IH]; intros l Hl Hn.
  - apply nil_length_inv in Hn as ->. cbn. split; [done|]. by intros ?%elem_of_nil.
  - destruct l as [|b l]; [done|]. apply Forall_cons in Hl as [Hb Hl]. cbn [le_word].
    destruct (zero_test_byte b n (le_word l) Hb) as (t & -> & Ht & Hr).
    rewrite elem_of_cons. destruct (Z.eqb_spec b 0) as [->|Hnz].
    + split; [by left|]. intros _ He. assert (t = 0) by lia. by apply Ht.
    + assert (t = 0) as -> by (by apply Ht). rewrite <- (IH l Hl) by (cbn in Hn; lia). split.
      * intros H. right. intros E. apply H. rewrite E. lia.
      * intros [?|H]; [done|]. lia.
Qed.

Lemma has_zero_byte_spec l : bytes_ok l -> length l = 8%nat ->
  has_zero_byte (le_word l) = true <-> 0 ∈ l.
Proof.
  intros Hl Hn. rewrite <- (zero_test_spec 8 l Hl Hn). unfold has_zero_byte, zero_test.
  change (ones_mask_n 8) with 0x0101010101010101. set (x := le_word l).
  change (u64 (Z.shiftl 0x0101010101010101 7)) with (128 * 0x0101010101010101).
  rewrite negb_true_iff, Z.eqb_neq.
  enough (Z.land (Z.land (u64 (x - 0x0101010101010101)) (not64 x)) (128 * 0x0101010101010101) =
          Z.land (Z.land (x - 0x0101010101010101) (Z.lnot x)) (128 * 0x0101010101010101)) as -> by done.
  bits. unfold not64. rewrite !wrap_bit, Z.lnot_spec by lia. destruct (Z.ltb_spec i 64); [done|].
  rewrite (testbit_high (128 * _) 64) by lia. by rewrite !andb_false_r.
Qed.

(** ** Runs *)
Definition at_ (l : list Z) (j : Z) : Z := default 0 (l !! Z.to_nat j).

Lemma byte_at_ok l i : 0 <= i < Z.of_nat (length l) -> buf_at l i = Ok (at_ l i).
Proof.
  intros Hi. unfold buf_at, at_. replace (i <? 0) with false by lia.
  destruct (lookup_lt_is_Some_2 l (Z.to_nat i)) as [b ->]; [lia|done].
Qed.

Lemma length_slice i n l : 0 <= i -> 0 <= n -> i + n <= Z.of_nat (length l) -> length (slice i n l) = Z.to_nat n.
Proof. intros. unfold slice. rewrite length_take, length_drop. lia. Qed.

Lemma slice_lookup i n l k : 0 <= i -> (k < Z.to_nat n)%nat -> slice i n l !! k = l !! (Z.to_nat i + k)%nat.
Proof. intros. unfold slice. rewrite lookup_take_lt by lia. apply lookup_drop. Qed.

Lemma slice_bytes i n l : bytes_ok l -> bytes_ok (slice i n l).
Proof. intros. unfold slice. by apply Forall_take, Forall_drop. Qed.

(** ** Lengths *)
Definition uleb (n : Z) : list Z :=
  if n <? 0x80 then [n] else [Z.lor (Z.land n 0x7f) 0x80; u8 (Z.shiftr n 7)].

Lemma uleb_encode n : n <= 0x3fff -> uleb128_encode_small n = Ok (uleb n).
Proof.
  intros Hn. unfold uleb128_encode_small, uleb. replace (n <=? 0x3fff) with true by lia. cbn [c_assert mbind outcome_bind].
  by destruct (n <? 0x80).
Qed.

Lemma uleb_length n : 0 <= n ->
  1 <= Z.of_nat (length (uleb n)) <= 2 /\ Z.of_nat (length (uleb n)) <= Z.max 1 n.
Proof. intros. unfold uleb. destruct (Z.ltb_spec n 0x80); cbn [length]; lia. Qed.

Lemma at_app_r pre l k : 0 <= k < Z.of_nat (length l) ->
  buf_at (pre ++ l) (Z.of_nat (length pre) + k) = buf_at l k.
Proof.
  intros Hk. unfold buf_at. replace (k <? 0) with false by lia.
  rewrite (proj2 (Z.ltb_ge (Z.of_nat (length pre) + k) 0)) by lia. rewrite lookup_app_r by lia.
  by replace (Z.to_nat (Z.of_nat (length pre) + k) - length pre)%nat with (Z.to_nat k) by lia.
Qed.

Lemma uleb_decode pre n post : 0 <= n <= 0x3fff ->
  uleb128_decode_small (pre ++ uleb n ++ post) (Z.of_nat (length pre)) = Ok (Z.of_nat (length (uleb n)), n).
Proof.
  intros Hn. unfold uleb128_decode_small, uleb. destruct (Z.ltb_spec n 0x80).
  - assert (buf_at (pre ++ [n] ++ post) (Z.of_nat (length pre)) = Ok n) as ->
      by (rewrite <- (Z.add_0_r (Z.of_nat (length pre))), at_app_r by (cbn; lia); done).
    cbn [mbind outcome_bind]. replace (Z.land n 128) with 0; [done|].
    change 128 with (2 ^ 7). symmetry. rewrite Z.land_comm. bits. rewrite Z.pow2_bits_eqb by lia.
    destruct (Z.eqb_spec 7 i) as [<-|]; [|done]. by rewrite (testbit_high n 7) by lia.
  - set (lo := Z.lor (Z.land n 127) 128). set (hi := u8 (Z.shiftr n 7)).
    assert (buf_at (pre ++ [lo; hi] ++ post) (Z.of_nat (length pre)) = Ok lo) as ->
      by (rewrite <- (Z.add_0_r (Z.of_nat (length pre))), at_app_r by (cbn; lia); done).
    rewrite at_app_r by (cbn; lia). cbn [mbind outcome_bind]. change (buf_at ([lo; hi] ++ post) 1) with (Ok hi).
    assert (hi = n / 128) as Ehi.
    { subst hi. rewrite Z.shiftr_div_pow2 by lia. change (2 ^ 7) with 128. rewrite wrap_small; [done|].
      split; [apply Z.div_pos; lia|]. apply Z.div_lt_upper_bound; lia. }
    assert (0 <= hi < 128) by (rewrite Ehi; split; [apply Z.div_pos; lia|apply Z.div_lt_upper_bound; lia]).
    change 128 with (2 ^ 7) in *. change 127 with (Z.ones 7) in *.
    assert (Z.land lo (2 ^ 7) = 2 ^ 7) as ->.
    { subst lo. bits. rewrite Z.pow2_bits_eqb, ones_bit by lia. destruct (Z.eqb_spec 7 i); [|by rewrite andb_false_r].
      by rewrite orb_true_r. }
    change (2 ^ 7 =? 0) with false. cbn [mbind outcome_bind].
    assert (Z.land hi (2 ^ 7) = 0) as ->.
    { bits. rewrite Z.pow2_bits_eqb by lia. destruct (Z.eqb_spec 7 i) as [<-|]; [|apply andb_false_r].
      by rewrite (testbit_high hi 7) by lia. }
    cbn [negb Z.eqb length]. do 2 f_equal.
    assert (Z.land lo (Z.ones 7) = Z.land n (Z.ones 7)) as ->.
    { subst lo. bits. rewrite ones_bit, Z.pow2_bits_eqb by lia. destruct (Z.ltb_spec i 7); [|by rewrite !andb_false_r].
      replace (7 =? i) with false by lia. by rewrite orb_false_r, !andb_true_r. }
    rewrite Z.land_ones, lor_shiftl_add by (try apply Z.mod_pos_bound; lia). rewrite Ehi.
    change (2 ^ 7) with 128. Z.div_mod_to_equations; lia.
Qed.

Lemma append_ok dlen out bs : Z.of_nat (length out + length bs) <= dlen -> append dlen out bs = Ok (out ++ bs).
Proof. intros. unfold append. by rewrite (proj2 (Z.leb_le _ _)). Qed.

(** A run as it is sent. *)
Definition enc_run (r : Z * list Z) : list Z := uleb r.1 ++ uleb (Z.of_nat (length r.2)) ++ r.2.

Section Runs.
Context (old_buf new_buf : list Z) (slen : Z).
Hypothesis Hold : Z.of_nat (length old_buf) = slen.
Hypothesis Hnew : Z.of_nat (length new_buf) = slen.
Hypothesis Hob : bytes_ok old_buf.
Hypothesis Hnb : bytes_ok new_buf.
Hypothesis Haligned : slen mod 8 = 0.

Definition agree (j : Z) : bool := at_ old_buf j =? at_ new_buf j.

Lemma same_byte_ok i : 0 <= i < slen -> same_byte old_buf new_buf i = Ok (agree i).
Proof. intros Hi. unfold same_byte. rewrite !byte_at_ok by lia. done. Qed.

(** [i, i') has only bytes of the kind of run. *)
Definition run (same : bool) (i i' : Z) : Prop := i <= i' <= slen /\ forall j, i <= j < i' -> agree j = same.

Lemma run_nil same i : 0 <= i <= slen -> run same i i.
Proof. intros. split; [lia|]. intros. lia. Qed.

Lemma run_app same i j k : run same i j -> run same j k -> run same i k.
Proof.
  intros [? H1] [? H2]. split; [lia|]. intros x Hx.
  destruct (Z.lt_ge_cases x j); [apply H1|apply H2]; lia.
Qed.

Lemma run_step same i : 0 <= i < slen -> agree i = same -> run same i (i + 1).
Proof. intros Hi Ha. split; [lia|]. intros x Hx. by assert (x = i) as -> by lia. Qed.

Lemma run_unaligned_ok same : forall res i len, 0 <= i -> i + Z.of_nat res <= slen ->
  exists res' i', run_unaligned old_buf new_buf same res i len = Ok (res', i', len + (i' - i)) /\
    run same i i' /\ Z.of_nat res' = Z.of_nat res - (i' - i) /\ (res' <> O -> agree i' = negb same).
Proof.
  induction res as [|res IH]; intros i len Hi Hr; cbn [run_unaligned].
  - exists O, i. split; [do 2 f_equal; lia|]. split; [apply run_nil; lia|]. split; [lia|done].
  - rewrite same_byte_ok by lia. cbn [mbind outcome_bind]. destruct (eqb (agree i) same) eqn:E.
    + apply eqb_prop in E. destruct (IH (i + 1) (len + 1)) as (res' & i' & -> & Hrun & Hres & Hstop); [lia..|].
      exists res', i'. split; [do 2 f_equal; lia|]. split; [|split; [lia|done]].
      apply (run_app same i (i + 1)); [apply run_step; [lia|done]|done].
    + exists (S res), i. split; [do 2 f_equal; lia|]. split; [apply run_nil; lia|]. split; [lia|].
      intros _. apply eqb_false_iff in E. by destruct (agree i), same.
Qed.

(** A word equals the other exactly when its bytes do. *)
Lemma long_pair i : 0 <= i -> i + 8 <= slen ->
  exists o n, long_at old_buf i = Ok o /\ long_at new_buf i = Ok n /\
    ((o =? n) = true -> run true i (i + 8)) /\
    (has_zero_byte (Z.lxor o n) = true <-> exists j, i <= j < i + 8 /\ agree j = true).
Proof.
  intros Hi H8. unfold long_at. rewrite !length_slice by lia. replace (0 <=? i) with true by lia. cbn [andb].
  change (Z.to_nat 8 =? 8)%nat with true. eexists _, _. split; [done|]. split; [done|].
  assert (forall l k, Z.of_nat (length l) = slen -> (k < 8)%nat -> slice i 8 l !! k = Some (at_ l (i + Z.of_nat k))) as Hat.
  { intros l k Hl Hk. rewrite slice_lookup by lia. unfold at_.
    replace (Z.to_nat i + k)%nat with (Z.to_nat (i + Z.of_nat k)) by lia.
    destruct (lookup_lt_is_Some_2 l (Z.to_nat (i + Z.of_nat k))) as [b ->]; [lia|done]. }
  split.
  - intros He%Z.eqb_eq. apply le_word_inj in He; [|by apply slice_bytes..|by rewrite !length_slice by lia].
    split; [lia|]. intros j Hj. unfold agree. apply Z.eqb_eq.
    pose proof (Hat old_buf (Z.to_nat (j - i)) Hold ltac:(lia)) as H1.
    pose proof (Hat new_buf (Z.to_nat (j - i)) Hnew ltac:(lia)) as H2.
    rewrite He, H2 in H1. replace (i + Z.of_nat (Z.to_nat (j - i))) with j in H1 by lia. by injection H1.
  - rewrite lxor_le by (try apply slice_bytes; try done; by rewrite !length_slice by lia).
    rewrite has_zero_byte_spec.
    2: { apply Forall_lookup_2. intros k b Hb. apply lookup_zip_with_Some in Hb as (x & y & -> & Hx & Hy).
         apply (Forall_lookup_1 _ _ _ _ (slice_bytes i 8 _ Hob)) in Hx.
         apply (Forall_lookup_1 _ _ _ _ (slice_bytes i 8 _ Hnb)) in Hy. by apply in_u8_lxor. }
    2: { rewrite length_zip_with, !length_slice by lia. done. }
    rewrite list_elem_of_lookup. split.
    + intros (k & Hk). apply lookup_zip_with_Some in Hk as (x & y & Hxy & Hx & Hy).
      assert (k < 8)%nat as Hk8. { apply lookup_lt_Some in Hx. rewrite length_slice in Hx by lia. lia. }
      rewrite Hat in Hx, Hy by done. injection Hx as <-. injection Hy as <-.
      exists (i + Z.of_nat k). split; [lia|]. unfold agree. apply Z.eqb_eq. symmetry in Hxy. by apply Z.lxor_eq in Hxy.
    + intros (j & Hj & Ha). exists (Z.to_nat (j - i)). apply lookup_zip_with_Some.
      eexists _, _. rewrite !Hat by lia. split; [|done].
      replace (i + Z.of_nat (Z.to_nat (j - i))) with j by lia. apply Z.eqb_eq in Ha. rewrite Ha. by rewrite Z.lxor_nilpotent.
Qed.

Lemma aligned_room i : 0 <= i < slen -> (slen - i) mod 8 = 0 -> i + 8 <= slen /\ (slen - (i + 8)) mod 8 = 0.
Proof. intros. Z.div_mod_to_equations; lia. Qed.

Lemma zrun_words_ok : forall fuel i len, 0 <= i <= slen -> (slen - i) mod 8 = 0 ->
  (Z.to_nat (slen - i) < fuel)%nat ->
  exists i', zrun_words old_buf new_buf slen fuel i len = Ok (i', len + (i' - i)) /\ run true i i'.
Proof.
  induction fuel as [|fuel IH]; intros i len Hi Hm Hf; [lia|]. cbn [zrun_words].
  destruct (Z.ltb_spec i slen).
  - destruct (aligned_room i ltac:(lia) Hm) as [H8 Hm8].
    destruct (long_pair i ltac:(lia) H8) as (o & n & -> & -> & Heq & _). cbn [mbind outcome_bind].
    destruct (o =? n); [|exists i; split; [do 2 f_equal; lia|apply run_nil; lia]].
    destruct (IH (i + 8) (len + 8) ltac:(lia) Hm8 ltac:(lia)) as (i' & -> & Hr).
    exists i'. split; [do 2 f_equal; lia|]. by apply (run_app true i (i + 8)); [apply Heq|].
  - exists i. split; [do 2 f_equal; lia|apply run_nil; lia].
Qed.

Lemma zrun_rest_ok : forall fuel i len, 0 <= i <= slen -> (Z.to_nat (slen - i) < fuel)%nat ->
  exists i', zrun_rest old_buf new_buf slen fuel i len = Ok (i', len + (i' - i)) /\ run true i i' /\
    (i' < slen -> agree i' = false).
Proof.
  induction fuel as [|fuel IH]; intros i len Hi Hf; [lia|]. cbn [zrun_rest].
  destruct (Z.ltb_spec i slen).
  - rewrite same_byte_ok by lia. cbn [mbind outcome_bind]. destruct (agree i) eqn:E.
    + destruct (IH (i + 1) (len + 1) ltac:(lia) ltac:(lia)) as (i' & -> & Hr & Hs).
      exists i'. split; [do 2 f_equal; lia|]. split; [|done]. by apply (run_app true i (i + 1)); [apply run_step; [lia|]|].
    + exists i. split; [do 2 f_equal; lia|]. split; [apply run_nil; lia|done].
  - exists i. split; [do 2 f_equal; lia|]. split; [apply run_nil; lia|lia].
Qed.

Lemma zrun_ok i len : 0 <= i <= slen ->
  exists i', zrun old_buf new_buf slen i len = Ok (i', len + (i' - i)) /\ run true i i' /\
    (i' < slen -> agree i' = false).
Proof.
  intros Hi. unfold zrun. pose proof (Z.mod_pos_bound (slen - i) 8 ltac:(lia)).
  pose proof (Z.mod_le (slen - i) 8 ltac:(lia) ltac:(lia)).
  destruct (run_unaligned_ok true (Z.to_nat ((slen - i) mod 8)) i len) as (res & i1 & -> & Hr1 & Hres & Hstop); [lia..|].
  cbn [mbind outcome_bind]. pose proof Hr1 as [? _]. destruct (Nat.eqb_spec res 0) as [->|Hne].
  - destruct (zrun_words_ok (fuel_of slen) i1 (len + (i1 - i))) as (i2 & -> & Hr2);
      [lia|Z.div_mod_to_equations; lia|unfold fuel_of; lia|].
    cbn [mbind outcome_bind]. pose proof Hr2 as [? _].
    destruct (zrun_rest_ok (fuel_of slen) i2 (len + (i1 - i) + (i2 - i1))) as (i3 & -> & Hr3 & Hs);
      [lia|unfold fuel_of; lia|].
    exists i3. split; [do 2 f_equal; lia|]. split; [|done]. by apply (run_app true i i1); [|apply (run_app true i1 i2)].
  - exists i1. split; [done|]. split; [done|]. intros _. by apply Hstop.
Qed.

Lemma nzrun_bytes_ok stop : agree stop = true -> stop < slen ->
  forall fuel i len, 0 <= i <= stop -> (Z.to_nat (stop - i) < fuel)%nat ->
  exists i', nzrun_bytes old_buf new_buf fuel i len = Ok (i', len + (i' - i)) /\ run false i i' /\
    i' < slen /\ agree i' = true.
Proof.
  intros Hs Hst. induction fuel as [|fuel IH]; intros i len Hi Hf; [lia|]. cbn [nzrun_bytes].
  rewrite same_byte_ok by lia. cbn [mbind outcome_bind]. destruct (agree i) eqn:E.
  - exists i. split; [do 2 f_equal; lia|]. split; [apply run_nil; lia|]. split; [lia|done].
  - assert (i <> stop) by (intros ->; by rewrite Hs in E).
    destruct (IH (i + 1) (len + 1) ltac:(lia) ltac:(lia)) as (i' & -> & Hr & ? & ?).
    exists i'. split; [do 2 f_equal; lia|]. split; [|done]. by apply (run_app false i (i + 1)); [apply run_step; [lia|]|].
Qed.

Lemma nzrun_words_ok : forall fuel i len, 0 <= i <= slen -> (slen - i) mod 8 = 0 ->
  (Z.to_nat (slen - i) < fuel)%nat ->
  exists i', nzrun_words old_buf new_buf slen fuel i len = Ok (i', len + (i' - i)) /\ run false i i' /\
    (i' < slen -> agree i' = true).
Proof.
  induction fuel as [|fuel IH]; intros i len Hi Hm Hf; [lia|]. cbn [nzrun_words].
  destruct (Z.ltb_spec i slen).
  - destruct (aligned_room i ltac:(lia) Hm) as [H8 Hm8].
    destruct (long_pair i ltac:(lia) H8) as (o & n & -> & -> & _ & Hz). cbn [mbind outcome_bind].
    destruct (has_zero_byte (Z.lxor o n)).
    + destruct (proj1 Hz eq_refl) as (stop & Hst & Ha).
      destruct (nzrun_bytes_ok stop Ha ltac:(lia) (fuel_of slen) i len ltac:(lia)) as (i' & -> & Hr & ? & ?);
        [unfold fuel_of; lia|]. by exists i'.
    + destruct (IH (i + 8) (len + 8) ltac:(lia) Hm8 ltac:(lia)) as (i' & -> & Hr & Hs).
      exists i'. split; [do 2 f_equal; lia|]. split; [|done]. apply (run_app false i (i + 8)); [|done].
      split; [lia|]. intros j Hj. destruct (agree j) eqn:E; [|done]. symmetry. apply Hz. by exists j.
  - exists i. split; [do 2 f_equal; lia|]. split; [apply run_nil; lia|lia].
Qed.

Lemma nzrun_ok i : 0 <= i < slen -> agree i = false ->
  exists i', nzrun old_buf new_buf slen i 0 = Ok (i', i' - i) /\ run false i i' /\ i < i' /\
    (i' < slen -> agree i' = true).
Proof.
  intros Hi Ha. unfold nzrun. pose proof (Z.mod_pos_bound (slen - i) 8 ltac:(lia)).
  pose proof (Z.mod_le (slen - i) 8 ltac:(lia) ltac:(lia)).
  assert (forall i', run false i i' -> (i' < slen -> agree i' = true) -> i < i') as Hlt.
  { intros i' [Hr _] Hs. destruct (Z.eq_dec i i') as [<-|]; [|lia]. specialize (Hs ltac:(lia)). by rewrite Ha in Hs. }
  destruct (run_unaligned_ok false (Z.to_nat ((slen - i) mod 8)) i 0) as (res & i1 & -> & Hr1 & Hres & Hstop); [lia..|].
  cbn [mbind outcome_bind]. pose proof Hr1 as [? _]. destruct (Nat.eqb_spec res 0) as [->|Hne].
  - destruct (nzrun_words_ok (fuel_of slen) i1 (0 + (i1 - i))) as (i2 & -> & Hr2 & Hs);
      [lia|Z.div_mod_to_equations; lia|unfold fuel_of; lia|].
    assert (run false i i2) as Hr by (by apply (run_app false i i1)).
    exists i2. split; [do 2 f_equal; lia|]. split; [done|]. split; [by apply Hlt|done].
  - exists i1. split; [do 2 f_equal; lia|]. split; [done|].
    assert (i1 < slen -> agree i1 = true) as Hs by (intros _; by apply Hstop). split; [by apply Hlt|done].
Qed.

(** The runs [R] turn the old buffer into the new one from byte [i] on. *)
Inductive covers : Z -> list (Z * list Z) -> Prop :=
| covers_nil i : run true i slen -> covers i []
| covers_cons i z bs R :
    0 <= z -> (0 < i -> 0 < z) -> bs <> [] -> run true i (i + z) ->
    i + z + Z.of_nat (length bs) <= slen -> bs = slice (i + z) (Z.of_nat (length bs)) new_buf ->
    covers (i + z + Z.of_nat (length bs)) R -> covers i ((z, bs) :: R).

Context (dlen : Z).
Hypothesis Hsmall : slen <= 0x3fff.

(** What the loop returns from [i] with [out] written. *)
Definition encoded (i : Z) (out : list Z) (ret : Z) (out' : list Z) : Prop :=
  (ret = -1 /\ dlen < 2 * slen + 3) \/
  (ret = 0 /\ i = 0 /\ run true 0 slen /\ 0 < slen) \/
  (exists R, ret = Z.of_nat (length out') /\ out' = out ++ flat_map enc_run R /\ covers i R /\ ret <= Z.max 0 dlen).

Lemma encode_loop_ok : forall fuel i out, 0 <= i <= slen -> (0 < i < slen -> agree i = true) ->
  Z.of_nat (length out) <= 2 * i + 1 -> (i = 0 -> out = []) -> Z.of_nat (length out) <= Z.max 0 dlen ->
  (Z.to_nat (slen - i) < fuel)%nat ->
  exists ret out', encode_loop old_buf new_buf slen dlen fuel i 0 out = Ok (ret, out') /\ encoded i out ret out'.
Proof.
  induction fuel as [|fuel IH]; intros i out Hi Hag Hout H0 Hdl Hf; [lia|]. cbn [encode_loop].
  destruct (Z.ltb_spec i slen).
  2: { eexists _, _. split; [done|]. right. right. exists []. split; [done|]. split; [by rewrite app_nil_r|]. split; [|done].
       constructor. assert (i = slen) as -> by lia. apply run_nil. lia. }
  destruct (Z.ltb_spec dlen (Z.of_nat (length out) + 2)); [eexists _, _; split; [done|]; left; lia|].
  destruct (zrun_ok i 0 ltac:(lia)) as (i1 & -> & Hr1 & Hs1). cbn [mbind outcome_bind]. pose proof Hr1 as [Hi1 _].
  destruct (Z.eqb_spec (0 + (i1 - i)) slen) as [Hall|Hnall].
  { assert (i = 0 /\ i1 = slen) as [-> ->] by lia. eexists _, _. split; [done|]. right. left. done. }
  destruct (Z.eqb_spec i1 slen) as [->|Hne].
  { eexists _, _. split; [done|]. right. right. exists []. split; [done|]. split; [by rewrite app_nil_r|]. by split; [constructor|]. }
  specialize (Hs1 ltac:(lia)). rewrite uleb_encode by lia. cbn [mbind outcome_bind].
  destruct (uleb_length (0 + (i1 - i)) ltac:(lia)) as [Hz1 Hz2]. set (z := 0 + (i1 - i)) in *.
  rewrite (append_ok _ out) by lia. cbn [mbind outcome_bind]. rewrite length_app.
  assert (0 < i -> 0 < z) as Hzpos.
  { intros Hpos. destruct (Z.eq_dec i1 i) as [->|]; [|lia]. rewrite Hag in Hs1 by lia. done. }
  assert (i = 0 -> length out = O) as Hout0 by (intros E; by rewrite (H0 E)).
  destruct (Z.ltb_spec dlen (Z.of_nat (length out + length (uleb z)) + 2)); [eexists _, _; split; [done|]; left; lia|].
  destruct (nzrun_ok i1 ltac:(lia) Hs1) as (i2 & -> & Hr2 & Hlt & Hs2). cbn [mbind outcome_bind].
  pose proof Hr2 as [Hi2 _]. rewrite uleb_encode by lia. cbn [mbind outcome_bind].
  destruct (uleb_length (i2 - i1) ltac:(lia)) as [Hn1 Hn2]. set (n := i2 - i1) in *.
  rewrite (append_ok _ (out ++ uleb z)) by (rewrite length_app; lia). cbn [mbind outcome_bind]. rewrite !length_app.
  destruct (Z.ltb_spec dlen (Z.of_nat (length out + length (uleb z) + length (uleb n)) + n)); [eexists _, _; split; [done|]; left; lia|].
  pose proof (length_slice i1 n new_buf ltac:(lia) ltac:(lia) ltac:(lia)) as Hsl.
  rewrite append_ok by (rewrite !length_app, Hsl; lia). cbn [mbind outcome_bind].
  rewrite <- !app_assoc.
  destruct (IH i2 (out ++ uleb z ++ uleb n ++ slice i1 n new_buf)) as (ret & out' & E & Henc);
    [lia|intros; apply Hs2; lia|rewrite !length_app, Hsl; lia|lia|rewrite !length_app, Hsl; lia|lia|].
  exists ret, out'. split; [exact E|].
  destruct Henc as [?|[(_ & ? & _)|(R & Hret & Hout' & Hc & Hle)]]; [by left|lia|].
  right. right. exists ((z, slice i1 n new_buf) :: R). split; [done|]. cbn [flat_map].
  assert (Z.of_nat (length (slice i1 n new_buf)) = n) as Hln by (rewrite Hsl; lia). split.
  - rewrite Hout'. change (enc_run (z, slice i1 n new_buf)) with
      (uleb z ++ uleb (Z.of_nat (length (slice i1 n new_buf))) ++ slice i1 n new_buf).
    by rewrite Hln, <- !app_assoc.
  - split; [|done]. assert (i + z = i1) as Ez by lia. assert (i1 + n = i2) as En by lia. constructor; rewrite ?Hln, ?Ez, ?En; try done; try lia.
    intros E0. rewrite E0 in Hsl. cbn in Hsl. lia.
Qed.

(** ** Decoding what was encoded *)
Definition mix (i : Z) : list Z := take (Z.to_nat i) new_buf ++ drop (Z.to_nat i) old_buf.

Lemma mix_lookup i k : 0 <= i <= slen ->
  mix i !! k = if (k <? Z.to_nat i)%nat then new_buf !! k else old_buf !! k.
Proof.
  intros Hi. unfold mix. destruct (Nat.ltb_spec k (Z.to_nat i)).
  - rewrite lookup_app_l by (rewrite length_take; lia). by rewrite lookup_take_lt.
  - rewrite lookup_app_r by (rewrite length_take; lia). rewrite length_take, lookup_drop. f_equal. lia.
Qed.

Lemma mix_length i : 0 <= i <= slen -> Z.of_nat (length (mix i)) = slen.
Proof. intros. unfold mix. rewrite length_app, length_take, length_drop. lia. Qed.

Lemma agree_lookup k : (k < Z.to_nat slen)%nat -> agree (Z.of_nat k) = true -> old_buf !! k = new_buf !! k.
Proof.
  intros Hk Ha. unfold agree, at_ in Ha. rewrite Nat2Z.id in Ha.
  destruct (lookup_lt_is_Some_2 old_buf k) as [x Hx]; [lia|]. destruct (lookup_lt_is_Some_2 new_buf k) as [y Hy]; [lia|].
  rewrite Hx, Hy in Ha |- *. cbn in Ha. f_equal. lia.
Qed.

(** Equal bytes need no copying. *)
Lemma mix_run i i' : 0 <= i -> run true i i' -> mix i = mix i'.
Proof.
  intros Hi [Hr Ha]. apply list_eq. intros k. rewrite !mix_lookup by lia.
  destruct (Nat.ltb_spec k (Z.to_nat i)), (Nat.ltb_spec k (Z.to_nat i')); try done; try lia.
  apply agree_lookup; [lia|]. apply Ha. lia.
Qed.

Lemma mix_copy i n bs : 0 <= i -> 0 <= n -> i + n <= slen -> bs = slice i n new_buf ->
  take (Z.to_nat i) (mix i) ++ bs ++ drop (Z.to_nat (i + n)) (mix i) = mix (i + n).
Proof.
  intros Hi Hn Hl ->. apply list_eq. intros k. rewrite mix_lookup by lia.
  pose proof (mix_length i ltac:(lia)) as Hml. pose proof (length_slice i n new_buf ltac:(lia) ltac:(lia) ltac:(lia)) as Hsl.
  destruct (Nat.lt_ge_cases k (Z.to_nat i)).
  { rewrite lookup_app_l by (rewrite length_take; lia). rewrite lookup_take_lt, mix_lookup by lia.
    rewrite !(proj2 (Nat.ltb_lt _ _)) by lia. done. }
  rewrite lookup_app_r by (rewrite length_take; lia). rewrite length_take.
  replace (k - Z.to_nat i `min` length (mix i))%nat with (k - Z.to_nat i)%nat by lia.
  destruct (Nat.ltb_spec k (Z.to_nat (i + n))).
  - rewrite lookup_app_l by lia. rewrite slice_lookup by lia. f_equal. lia.
  - rewrite lookup_app_r by lia. rewrite Hsl, lookup_drop.
    replace (Z.to_nat (i + n) + (k - Z.to_nat i - Z.to_nat n))%nat with k by lia.
    rewrite mix_lookup by lia. by rewrite (proj2 (Nat.ltb_ge _ _)) by lia.
Qed.

Lemma mix_end : mix slen = new_buf.
Proof. unfold mix. rewrite firstn_all2, drop_ge by lia. apply app_nil_r. Qed.

Lemma decode_loop_ok : forall R fuel pre i, 0 <= i <= slen -> covers i R -> (pre <> [] -> 0 < i) ->
  (length R < fuel)%nat ->
  let src := pre ++ flat_map enc_run R in
  exists d, decode_loop fuel src (Z.of_nat (length src)) slen (Z.of_nat (length pre)) i (mix i) = Ok (d, new_buf) /\
    0 <= d <= slen.
Proof.
  induction R as [|[z bs] R IH]; intros fuel pre i Hi Hc Hpre Hf; (destruct fuel as [|fuel]; [cbn in Hf; lia|]); cbv zeta.
  - cbn [flat_map decode_loop]. rewrite app_nil_r, Z.ltb_irrefl. inversion Hc as [? Hr|]; subst.
    exists i. rewrite (mix_run i slen), mix_end by (done || lia). split; [done|lia].
  - inversion Hc as [|? ? ? ? Hz Hzpos Hbs Hr Hend Hbsl Hc']; subst.
    set (n := Z.of_nat (length bs)) in *. assert (0 < n) by (destruct bs; [done|cbn in *; lia]).
    cbn [flat_map]. change (enc_run (z, bs)) with (uleb z ++ uleb n ++ bs).
    set (rest := flat_map enc_run R) in *.
    destruct (uleb_length z Hz) as [Hz1 _]. destruct (uleb_length n ltac:(lia)) as [Hn1 _].
    set (src := pre ++ (uleb z ++ uleb n ++ bs) ++ rest).
    assert (Z.of_nat (length src) = Z.of_nat (length pre) + Z.of_nat (length (uleb z)) + Z.of_nat (length (uleb n)) + n + Z.of_nat (length rest)) as Hlen
      by (subst src; rewrite !length_app; lia).
    cbn [decode_loop]. rewrite (proj2 (Z.ltb_lt _ _)) by lia. rewrite (proj2 (Z.ltb_ge _ _)) by lia.
    assert (uleb128_decode_small src (Z.of_nat (length pre)) = Ok (Z.of_nat (length (uleb z)), z)) as ->
      by (subst src; rewrite <- !app_assoc; apply uleb_decode; lia).
    cbn [mbind outcome_bind].
    rewrite (proj2 (Z.ltb_ge (Z.of_nat (length (uleb z))) 0)) by lia. cbn [orb].
    replace (negb (Z.of_nat (length pre) =? 0) && (z =? 0)) with false.
    2: { destruct pre; [done|]. specialize (Hpre ltac:(done)). symmetry. apply andb_false_iff. right. apply Z.eqb_neq. lia. }
    rewrite (proj2 (Z.ltb_ge slen (i + z))) by lia. rewrite (proj2 (Z.ltb_ge _ 2)) by lia.
    replace (Z.of_nat (length pre) + Z.of_nat (length (uleb z))) with (Z.of_nat (length (pre ++ uleb z))) by (rewrite length_app; lia).
    assert (uleb128_decode_small src (Z.of_nat (length (pre ++ uleb z))) = Ok (Z.of_nat (length (uleb n)), n)) as ->.
    { replace src with ((pre ++ uleb z) ++ uleb n ++ bs ++ rest) by (subst src; by rewrite <- !app_assoc).
      apply uleb_decode. lia. }
    cbn [mbind outcome_bind].
    rewrite (proj2 (Z.ltb_ge (Z.of_nat (length (uleb n))) 0)) by lia. rewrite (proj2 (Z.eqb_neq n 0)) by lia. cbn [orb].
    rewrite (proj2 (Z.ltb_ge slen (i + z + n))) by lia.
    rewrite (proj2 (Z.ltb_ge (Z.of_nat (length src)) _)) by (rewrite length_app; lia). cbn [orb].
    assert (slice (Z.of_nat (length (pre ++ uleb z)) + Z.of_nat (length (uleb n))) n src = bs) as Hsl.
    { subst src. unfold slice. replace (Z.to_nat _) with (length bs) at 1 by lia.
      replace (pre ++ (uleb z ++ uleb n ++ bs) ++ rest) with (((pre ++ uleb z) ++ uleb n) ++ bs ++ rest) by (by rewrite <- !app_assoc).
      rewrite drop_app_length', take_app_length; [done|]. rewrite !length_app. lia. }
    unfold copy_bytes. rewrite Hsl. rewrite !(proj2 (Z.leb_le _ _)) by (rewrite ?mix_length; lia).
    fold n. rewrite Z.eqb_refl. cbn [andb mbind outcome_bind].
    rewrite (mix_run i (i + z) ltac:(lia) Hr), mix_copy by (done || lia).
    replace (Z.of_nat (length (pre ++ uleb z)) + Z.of_nat (length (uleb n)) + n)
      with (Z.of_nat (length (pre ++ uleb z ++ uleb n ++ bs))) by (rewrite !length_app; lia).
    replace src with ((pre ++ uleb z ++ uleb n ++ bs) ++ rest) by (subst src; by rewrite <- !app_assoc).
    apply (IH fuel (pre ++ uleb z ++ uleb n ++ bs)); [lia|done|lia|cbn in Hf; lia].
Qed.
End Runs.

Lemma covers_length old new slen : forall R i, covers old new slen i R -> (length R <= length (flat_map enc_run R))%nat.
Proof.
  induction R as [|r R IH]; intros i Hc; [done|]. inversion Hc; subst. cbn [flat_map length]. rewrite length_app.
  unfold enc_run at 1. rewrite length_app. cbn [fst snd].
  destruct (uleb_length z) as [? _]; [done|]. match goal with H : covers _ _ _ _ R |- _ => apply IH in H end. lia.
Qed.

Lemma encode_decode old_buf new_buf slen dlen :
  Z.of_nat (length old_buf) = slen -> Z.of_nat (length new_buf) = slen ->
  bytes_ok old_buf -> bytes_ok new_buf -> slen mod 8 = 0 -> slen <= 0x3fff ->
  exists ret out, xbzrle_encode_buffer old_buf new_buf slen dlen = Ok (ret, out) /\
    (ret = -1 /\ dlen < 2 * slen + 3 \/
     ret = 0 /\ old_buf = new_buf \/
     0 < ret <= dlen /\ ret = Z.of_nat (length out) /\
       exists d, xbzrle_decode_buffer out ret old_buf slen = Ok (d, new_buf) /\ 0 <= d <= slen).
Proof.
  intros Ho Hn Hob Hnb Hal Hsm. unfold xbzrle_encode_buffer. rewrite Hal, Z.eqb_refl. cbn [c_assert mbind outcome_bind].
  assert (run old_buf new_buf slen true 0 slen -> old_buf = new_buf) as Hsame.
  { intros Hr. rewrite <- (mix_end old_buf new_buf slen Ho Hn), <- (mix_run old_buf new_buf slen Ho Hn 0 slen); [|lia|done]. done. }
  destruct (encode_loop_ok old_buf new_buf slen Ho Hn Hob Hnb Hal dlen Hsm (fuel_of slen) 0 [])
    as (ret & out & -> & Henc); [lia|intros; lia|cbn; lia|done|cbn; lia|unfold fuel_of; lia|].
  exists ret, out. split; [done|]. destruct Henc as [?|[(-> & _ & Hr & _)|(R & -> & -> & Hc & Hle)]]; [by left| |].
  { right. left. split; [done|]. by apply Hsame. }
  right. cbn [app]. destruct R as [|r R].
  { left. split; [done|]. apply Hsame. by inversion Hc. }
  right. pose proof (covers_length _ _ _ _ _ Hc) as Hl. set (R' := r :: R) in *. cbn [length] in Hl.
  split; [subst R'; cbn in *; lia|]. split; [done|].
  destruct (decode_loop_ok old_buf new_buf slen Ho Hn Hsm R' (S (length (flat_map enc_run R'))) [] 0) as (d & E & Hd);
    [lia|done|done|lia|]. exists d. split; [|done]. unfold xbzrle_decode_buffer. rewrite Nat2Z.id. exact E.
Qed.

(** C39 (roundtrip): encoding a page against an old copy either reports that
    the output buffer is too small (never when it has room for twice the page),
    or that the pages are equal, or gives an encoding that decodes, over the
    old copy, to exactly the new page; it never writes past the buffer. *)
Theorem xbzrle_roundtrip old_buf new_buf slen dlen :
  Z.of_nat (length old_buf) = slen -> Z.of_nat (length new_buf) = slen ->
  bytes_ok old_buf -> bytes_ok new_buf -> slen mod 8 = 0 -> slen <= 0x3fff ->
  exists ret out, xbzrle_encode_buffer old_buf new_buf slen dlen = Ok (ret, out) /\
    (ret = -1 /\ dlen < 2 * slen + 3 \/
     ret = 0 /\ old_buf = new_buf \/
     0 < ret <= dlen /\ ret = Z.of_nat (length out) /\
       exists d, xbzrle_decode_buffer out ret old_buf slen = Ok (d, new_buf) /\ 0 <= d <= slen).
Proof. apply encode_decode. Qed.

(** A page of 64 bytes with two changed bytes. *)
Lemma xbzrle_roundtrip_witness :
  let old := replicate 64 7 in
  let new := <[3%nat := 9]> (<[40%nat := 1]> old) in
  exists ret out, xbzrle_encode_buffer old new 64 4096 = Ok (ret, out) /\
    out = [3; 1; 9; 36; 1; 1] /\ exists d, xbzrle_decode_buffer out ret old 64 = Ok (d, new).
Proof.
  intros old new. destruct (xbzrle_roundtrip old new 64 4096) as (ret & out & E & H).
  - reflexivity.
  - reflexivity.
  - repeat constructor; unfold in_u; lia.
  - repeat constructor; unfold in_u; lia.
  - reflexivity.
  - lia.
  - exists ret, out. split; [exact E|]. vm_compute in E. injection E as <- <-. split; [reflexivity|].
    destruct H as [[H _]|[[H _]|(_ & _ & d & Hd & _)]]; [discriminate H|discriminate H|]. exists d. exact Hd.
Defined.

(** ** Decoding any input *)
Lemma uleb_decode_any buf i : bytes_ok buf -> 0 <= i -> i + 2 <= Z.of_nat (length buf) ->
  exists ret count, uleb128_decode_small buf i = Ok (ret, count) /\ 0 <= count /\ ret <= 2 /\ (0 <= ret -> 1 <= ret).
Proof.
  intros Hb Hi H2. unfold uleb128_decode_small. rewrite !byte_at_ok by lia. cbn [mbind outcome_bind].
  assert (forall j, 0 <= at_ buf j) as Hat.
  { intros j. unfold at_. destruct (buf !! Z.to_nat j) eqn:E; [|done]. apply (Forall_lookup_1 _ _ _ _ Hb) in E.
    unfold in_u in E. cbn. lia. }
  destruct (Z.land (at_ buf i) 0x80 =? 0); [eexists _, _; split_and!; [done|apply Hat|lia..]|].
  destruct (negb _); eexists _, _; (split; [done|]); split_and!; try lia.
  - apply Z.land_nonneg. lia.
  - apply Z.lor_nonneg. split; [apply Z.land_nonneg; lia|apply Z.shiftl_nonneg, Hat].
Qed.

Lemma decode_loop_safe src dlen : bytes_ok src -> forall fuel i d dst,
  0 <= i -> 0 <= d <= dlen -> Z.of_nat (length dst) = dlen ->
  (Z.to_nat (Z.of_nat (length src) - i) < fuel)%nat ->
  exists ret dst', decode_loop fuel src (Z.of_nat (length src)) dlen i d dst = Ok (ret, dst') /\
    length dst' = length dst /\ -1 <= ret <= dlen.
Proof.
  intros Hb. induction fuel as [|fuel IH]; intros i d dst Hi Hd Hdst Hf; [lia|]. cbn [decode_loop].
  set (slen := Z.of_nat (length src)) in *.
  assert (exists ret dst', (Ok (-1, dst) : outcome (Z * list Z)) = Ok (ret, dst') /\ length dst' = length dst /\ -1 <= ret <= dlen)
    as Hfail by (eexists _, _; split_and!; [done|done|lia|lia]).
  destruct (Z.ltb_spec i slen); [|eexists _, _; split_and!; [done|done|lia|lia]].
  destruct (Z.ltb_spec (slen - i) 2); [done|].
  destruct (uleb_decode_any src i Hb ltac:(lia) ltac:(lia)) as (ret & count & -> & Hc & Hr & Hr1). cbn [mbind outcome_bind].
  destruct (Z.ltb_spec ret 0); cbn [orb]; [done|]. destruct (negb (i =? 0) && (count =? 0)); [done|].
  destruct (Z.ltb_spec dlen (d + count)); [done|]. destruct (Z.ltb_spec (slen - (i + ret)) 2); [done|].
  destruct (uleb_decode_any src (i + ret) Hb ltac:(lia) ltac:(lia)) as (ret2 & n & -> & Hn & Hr2 & Hr3).
  cbn [mbind outcome_bind]. destruct (Z.ltb_spec ret2 0); cbn [orb]; [done|]. destruct (Z.eqb_spec n 0); [done|].
  destruct (Z.ltb_spec dlen (d + count + n)); cbn [orb]; [done|].
  destruct (Z.ltb_spec slen (i + ret + ret2 + n)); [done|].
  pose proof (length_slice (i + ret + ret2) n src ltac:(lia) ltac:(lia) ltac:(lia)) as Hsl.
  unfold copy_bytes. rewrite Hsl, Z2Nat.id, Z.eqb_refl, !(proj2 (Z.leb_le _ _)) by lia. cbn [andb mbind outcome_bind].
  set (dst1 := _ ++ _ ++ _). assert (length dst1 = length dst) as Hl1
    by (subst dst1; rewrite !length_app, Hsl, length_take, length_drop; lia).
  destruct (IH (i + ret + ret2 + n) (d + count + n) dst1) as (r & dst' & E & Hl & Hret); [lia..|].
  exists r, dst'. split; [exact E|]. split; [congruence|done].
Qed.

(** C40 (safety): decoding any byte string, however malformed, terminates,
    never reads outside the input or writes outside the page, and returns -1
    or a length within the page. *)
Theorem xbzrle_decode_safe src dst :
  bytes_ok src ->
  exists ret dst', xbzrle_decode_buffer src (Z.of_nat (length src)) dst (Z.of_nat (length dst)) = Ok (ret, dst') /\
    length dst' = length dst /\ -1 <= ret <= Z.of_nat (length dst).
Proof. intros Hb. apply decode_loop_safe; [done|lia..|done|lia]. Qed.

Lemma xbzrle_decode_safe_witness :
  exists ret dst', xbzrle_decode_buffer [0; 200; 5; 9] 4 (replicate 8 0) 8 = Ok (ret, dst') /\ ret = -1.
Proof.
  destruct (xbzrle_decode_safe [0; 200; 5; 9] (replicate 8 0)) as (ret & dst' & E & _).
  - repeat constructor; unfold in_u; lia.
  - exists ret, dst'. split; [exact E|]. vm_compute in E. injection E as <- _. reflexivity.
Defined.
