(* ===== verification/PageCache.v ===== *)
(** * The page cache of the migration codec (page_cache.c)

    A direct-mapped cache of guest pages: the slot of an address is its page
    number modulo the number of slots, a power of two. *)
From S2P Require Import Prelude HostUtils Bitops.
Local Open Scope Z_scope.

(** [it_data] is [None] for the null pointer. *)
Record CacheItem := {
  it_addr : Z;
  it_age : Z;
  it_data : option (list Z)
}.

Record PageCache := {
  page_cache : list CacheItem;
  page_size : Z;
  max_num_items : Z;
  max_item_age : Z;
  num_items : Z
}.

(** [(uint64_t)-1], the address of an empty slot. *)
Definition no_addr : Z := 2 ^ 64 - 1.
Definition empty_item : CacheItem := {| it_addr := no_addr; it_age := 0; it_data := None |}.

Definition is_power_of_2 (value : Z) : bool :=
  if value =? 0 then false else Z.land value (u64 (value - 1)) =? 0.

(** The argument is an [int64_t]; a shift by the full width is undefined. *)
Definition pow2floor (value : Z) : outcome Z :=
  if negb (is_power_of_2 (u64 value)) then
    let n := clz64 (u64 value) in
    _ ← c_assert (n <? 64);
    Ok (s64 (Z.shiftr 0x8000000000000000 n))
  else Ok value.

(** [mem] tells whether the two allocations succeed. *)
Definition cache_init (mem : bool) (num_pages page_size : Z) : outcome (option PageCache) :=
  if num_pages <=? 0 then Ok None
  else if negb mem then Ok None
  else
    num_pages ← (if negb (is_power_of_2 num_pages) then pow2floor num_pages else Ok num_pages);
    Ok (Some {| page_cache := replicate (Z.to_nat num_pages) empty_item; page_size := page_size;
                max_num_items := num_pages; max_item_age := 0; num_items := 0 |}).

Definition cache_get_cache_pos (cache : PageCache) (address : Z) : outcome Z :=
  _ ← c_assert (negb (max_num_items cache =? 0));
  if page_size cache =? 0 then Abort
  else Ok (Z.land (address / page_size cache) (u64 (max_num_items cache - 1))).

Definition cache_get_by_addr (cache : PageCache) (addr : Z) : outcome (Z * CacheItem) :=
  pos ← cache_get_cache_pos cache addr;
  match page_cache cache !! Z.to_nat pos with Some it => Ok (pos, it) | None => Abort end.

Definition cache_is_cached (cache : PageCache) (addr : Z) : outcome bool :=
  '(_, it) ← cache_get_by_addr cache addr; Ok (it_addr it =? addr).

Definition get_cached_data (cache : PageCache) (addr : Z) : outcome (option (list Z)) :=
  '(_, it) ← cache_get_by_addr cache addr; Ok (it_data it).

Definition set_items (items : list CacheItem) (n : Z) (cache : PageCache) : PageCache :=
  {| page_cache := items; page_size := page_size cache; max_num_items := max_num_items cache;
     max_item_age := max_item_age cache; num_items := n |}.

Definition set_max_age (age : Z) (cache : PageCache) : PageCache :=
  {| page_cache := page_cache cache; page_size := page_size cache; max_num_items := max_num_items cache;
     max_item_age := age; num_items := num_items cache |}.

(** [mem] tells whether a page can be allocated; [memcpy] copies
    [page_size] bytes of [pdata]. *)
Definition cache_insert (mem : bool) (cache : PageCache) (addr : Z) (pdata : list Z) : outcome (Z * PageCache) :=
  '(pos, it) ← cache_get_by_addr cache addr;
  match it_data it, mem with
  | None, false => Ok (-1, cache)
  | _, _ =>
      let n := match it_data it with None => num_items cache + 1 | Some _ => num_items cache end in
      let page := take (Z.to_nat (page_size cache)) pdata in
      let age := u64 (max_item_age cache + 1) in
      let it := {| it_addr := addr; it_age := age; it_data := Some page |} in
      Ok (0, set_max_age age (set_items (<[Z.to_nat pos := it]> (page_cache cache)) n cache))
  end.

(** One step of moving the old items into the new cache: on a collision the
    more recently used page stays. *)
Definition resize_step (new_cache : PageCache) (old_it : CacheItem) : outcome PageCache :=
  if it_addr old_it =? no_addr then Ok new_cache
  else
    '(pos, new_it) ← cache_get_by_addr new_cache (it_addr old_it);
    match it_data new_it with
    | Some _ =>
        if it_age old_it <=? it_age new_it then Ok new_cache
        else Ok (set_items (<[Z.to_nat pos := old_it]> (page_cache new_cache)) (num_items new_cache) new_cache)
    | None =>
        Ok (set_items (<[Z.to_nat pos := old_it]> (page_cache new_cache)) (num_items new_cache + 1) new_cache)
    end.

Definition cache_resize (mem : bool) (cache : PageCache) (new_num_pages : Z) : outcome (Z * PageCache) :=
  p ← pow2floor new_num_pages;
  if p =? max_num_items cache then Ok (max_num_items cache, cache)
  else
    new_cache ← cache_init mem new_num_pages (page_size cache);
    match new_cache with
    | None => Ok (-1, cache)
    | Some new_cache =>
        new_cache ← ofold resize_step new_cache (page_cache cache);
        Ok (max_num_items new_cache,
            {| page_cache := page_cache new_cache; page_size := page_size cache;
               max_num_items := max_num_items new_cache; max_item_age := max_item_age cache;
               num_items := num_items new_cache |})
    end.

(** The pages [cache_fini] frees. *)
Definition cache_fini (cache : PageCache) : list (list Z) := omap it_data (page_cache cache).

(** ** The invariant *)
Definition slot_of (cache : PageCache) (addr : Z) : Z := addr / page_size cache mod max_num_items cache.

Definition item_ok (cache : PageCache) (i : nat) (it : CacheItem) : Prop :=
  match it_data it with
  | None => it = empty_item
  | Some d => Z.of_nat (length d) = page_size cache /\ 0 <= it_addr it < no_addr /\
      slot_of cache (it_addr it) = Z.of_nat i /\ 0 < it_age it <= max_item_age cache
  end.

Definition used (it : CacheItem) : bool := match it_data it with None => false | Some _ => true end.

Record cache_ok (cache : PageCache) : Prop := {
  co_size : 0 < page_size cache;
  co_slots : exists k, 0 <= k < 63 /\ max_num_items cache = 2 ^ k;
  co_length : Z.of_nat (length (page_cache cache)) = max_num_items cache;
  co_age : 0 <= max_item_age cache < 2 ^ 64 - 1;
  co_items i it : page_cache cache !! i = Some it -> item_ok cache i it;
  co_num : num_items cache = Z.of_nat (length (List.filter used (page_cache cache)))
}.

Lemma mask_mod x k : 0 <= k -> Z.land x (2 ^ k - 1) = x mod 2 ^ k.
Proof. intros. rewrite <- Z.land_ones, Z.ones_equiv by lia. by rewrite <- Z.sub_1_r. Qed.

(** The geometry alone. *)
Definition geom (cache : PageCache) : Prop :=
  0 < page_size cache /\ (exists k, 0 <= k < 63 /\ max_num_items cache = 2 ^ k) /\
  Z.of_nat (length (page_cache cache)) = max_num_items cache.

Lemma cache_geom cache : cache_ok cache -> geom cache.
Proof. by intros [H1 H2 H3 _ _ _]. Qed.

Lemma geom_slot_range cache addr : geom cache -> 0 <= slot_of cache addr < max_num_items cache.
Proof. intros (_ & (k & Hk & Hm) & _). unfold slot_of. rewrite Hm. apply Z.mod_pos_bound. lia. Qed.

Lemma slot_range cache addr : cache_ok cache -> 0 <= slot_of cache addr < max_num_items cache.
Proof. intros Hok. by apply geom_slot_range, cache_geom. Qed.

Lemma get_by_addr_geom cache addr : geom cache ->
  exists it, page_cache cache !! Z.to_nat (slot_of cache addr) = Some it /\
    cache_get_by_addr cache addr = Ok (slot_of cache addr, it).
Proof.
  intros Hg. pose proof (geom_slot_range cache addr Hg) as Hr. destruct Hg as (Hp & (k & Hk & Hm) & Hl).
  destruct (lookup_lt_is_Some_2 (page_cache cache) (Z.to_nat (slot_of cache addr))) as [it Hit]; [lia|].
  exists it. split; [done|]. unfold cache_get_by_addr, cache_get_cache_pos.
  rewrite (proj2 (Z.eqb_neq (max_num_items cache) 0)), (proj2 (Z.eqb_neq (page_size cache) 0)) by lia.
  cbn [negb c_assert mbind outcome_bind]. unfold slot_of in *. rewrite Hm in *.
  assert (2 ^ k < 2 ^ 63) by (apply Z.pow_lt_mono_r; lia).
  rewrite wrap_small, mask_mod by lia. by rewrite Hit.
Qed.

Lemma get_by_addr_ok cache addr : cache_ok cache ->
  exists it, page_cache cache !! Z.to_nat (slot_of cache addr) = Some it /\
    cache_get_by_addr cache addr = Ok (slot_of cache addr, it).
Proof. intros Hok. by apply get_by_addr_geom, cache_geom. Qed.

(** A cached address is one whose slot holds a page for it. *)
Lemma cached_data cache addr : cache_ok cache -> 0 <= addr < no_addr ->
  cache_is_cached cache addr = Ok true ->
  exists it d, page_cache cache !! Z.to_nat (slot_of cache addr) = Some it /\ it_addr it = addr /\ it_data it = Some d /\
    get_cached_data cache addr = Ok (Some d) /\ Z.of_nat (length d) = page_size cache.
Proof.
  intros Hok Ha Hc. destruct (get_by_addr_ok cache addr Hok) as (it & Hit & E).
  unfold cache_is_cached, get_cached_data in *. rewrite E in *. cbn [mbind outcome_bind] in *.
  injection Hc as Hc%Z.eqb_eq. pose proof (co_items _ Hok _ _ Hit) as Hi. unfold item_ok in Hi.
  destruct (it_data it) as [d|] eqn:Ed.
  - exists it, d. destruct Hi as (? & _). split_and!; try done; congruence.
  - subst it. cbn in Hc. lia.
Qed.

(** Counting used slots when one slot changes. *)
Lemma used_insert l : forall i old new, l !! i = Some old ->
  Z.of_nat (length (List.filter used (<[i := new]> l))) =
    Z.of_nat (length (List.filter used l)) - b2z (used old) + b2z (used new).
Proof.
  induction l as [|x l IH]; intros [|i] old new Hl; try done.
  - injection Hl as ->. change (<[0%nat := new]> (old :: l)) with (new :: l). cbn [List.filter].
    destruct (used old), (used new); cbn [length b2z]; lia.
  - change (<[S i := new]> (x :: l)) with (x :: <[i := new]> l). cbn [List.filter].
    specialize (IH i old new Hl). destruct (used x); cbn [length]; lia.
Qed.

(** Storing a page into a slot. *)
Lemma store_ok cache i old it n age : cache_ok cache ->
  page_cache cache !! i = Some old -> used it = true ->
  n = num_items cache + (if used old then 0 else 1) ->
  max_item_age cache <= age < 2 ^ 64 - 1 ->
  item_ok (set_max_age age cache) i it ->
  cache_ok (set_max_age age (set_items (<[i := it]> (page_cache cache)) n cache)).
Proof.
  intros Hok Hi Hu -> Ha Hit. destruct Hok as [H1 H2 H3 H4 H5 H6]. split; cbn; try done; try lia.
  - by rewrite length_insert.
  - intros j x Hx. destruct (decide (i = j)) as [<-|Hne].
    + rewrite list_lookup_insert_eq in Hx by (by eapply lookup_lt_Some). by injection Hx as <-.
    + rewrite list_lookup_insert_ne in Hx by done. specialize (H5 j x Hx). unfold item_ok in *.
      destruct (it_data x); [|done]. cbn. destruct H5 as (? & ? & ? & ? & ?). split_and!; try done; lia.
  - rewrite (used_insert _ _ old) by done. rewrite H6, Hu. destruct (used old); cbn; lia.
Qed.

Lemma cache_insert_ok mem cache addr pdata :
  cache_ok cache -> 0 <= addr < no_addr -> Z.of_nat (length pdata) = page_size cache ->
  max_item_age cache + 1 < 2 ^ 64 - 1 ->
  exists ret cache', cache_insert mem cache addr pdata = Ok (ret, cache') /\ cache_ok cache' /\
    (ret = -1 /\ mem = false /\ cache' = cache \/
     ret = 0 /\ cache_is_cached cache' addr = Ok true /\ get_cached_data cache' addr = Ok (Some pdata) /\
     forall a, 0 <= a < no_addr -> a <> addr ->
       if slot_of cache a =? slot_of cache addr then cache_is_cached cache' a = Ok false
       else cache_is_cached cache' a = cache_is_cached cache a /\
            get_cached_data cache' a = get_cached_data cache a).
Proof.
  intros Hok Ha Hp Hage. destruct (get_by_addr_ok cache addr Hok) as (it & Hit & E). unfold cache_insert. rewrite E.
  cbn [mbind outcome_bind]. pose proof (co_age _ Hok) as Hmax. rewrite wrap_small by lia. rewrite firstn_all2 by lia.
  set (it' := {| it_addr := addr; it_age := _; it_data := Some pdata |}).
  set (n := match it_data it with None => num_items cache + 1 | Some _ => num_items cache end).
  set (cache' := set_max_age (max_item_age cache + 1) (set_items _ n cache)). pose proof (slot_range cache addr Hok) as Hsl.
  assert (cache_ok cache') as Hok'.
  { apply (store_ok cache _ it); try done; try lia.
    - subst n. unfold used. destruct (it_data it); lia.
    - cbn. unfold slot_of. cbn. split_and!; try done; try lia. fold (slot_of cache addr). lia. }
  assert (forall a, exists x, cache_get_by_addr cache' a = Ok (slot_of cache a, x) /\
            page_cache cache' !! Z.to_nat (slot_of cache a) = Some x) as Hget
    by (intros a; destruct (get_by_addr_ok cache' a Hok') as (x & Hx & Ex); by exists x).
  assert (match it_data it, mem with None, false => Ok (-1, cache) | _, _ => Ok (0, cache') end =
          if negb (used it) && negb mem then Ok (-1, cache) else Ok (0, cache')) as ->
    by (unfold used; by destruct (it_data it), mem).
  destruct (negb (used it) && negb mem) eqn:Em.
  { apply andb_true_iff in Em as [_ Hm%negb_true_iff]. exists (-1), cache. split; [done|]. split; [done|]. by left. }
  exists 0, cache'. split; [done|]. split; [done|]. right. split; [done|].
  unfold cache_is_cached, get_cached_data.
  assert (page_cache cache' !! Z.to_nat (slot_of cache addr) = Some it') as Hslot
    by (cbn; rewrite list_lookup_insert_eq; [done|by eapply lookup_lt_Some]).
  destruct (Hget addr) as (x & -> & Hx). rewrite Hslot in Hx. injection Hx as <-. cbn [mbind outcome_bind].
  split; [cbn; by rewrite Z.eqb_refl|]. split; [done|]. intros a Har Hne.
  destruct (Hget a) as (y & -> & Hy). cbn [mbind outcome_bind]. pose proof (slot_range cache a Hok).
  destruct (Z.eqb_spec (slot_of cache a) (slot_of cache addr)) as [Es|Es].
  - rewrite Es, Hslot in Hy. injection Hy as <-. cbn. f_equal. lia.
  - cbn in Hy. rewrite list_lookup_insert_ne in Hy by lia.
    destruct (get_by_addr_ok cache a Hok) as (y' & Hy' & ->). rewrite Hy' in Hy. by injection Hy as <-.
Qed.

(** Inserting a page makes exactly its address cached with
    that content, leaves every other slot alone and the cache well formed;
    when a page cannot be allocated nothing changes. *)
Theorem cache_insert_spec mem cache addr pdata :
  cache_ok cache -> 0 <= addr < no_addr -> Z.of_nat (length pdata) = page_size cache ->
  max_item_age cache + 1 < 2 ^ 64 - 1 ->
  exists ret cache', cache_insert mem cache addr pdata = Ok (ret, cache') /\ cache_ok cache' /\
    (ret = -1 /\ mem = false /\ cache' = cache \/
     ret = 0 /\ cache_is_cached cache' addr = Ok true /\ get_cached_data cache' addr = Ok (Some pdata) /\
     forall a, 0 <= a < no_addr -> a <> addr ->
       if slot_of cache a =? slot_of cache addr then cache_is_cached cache' a = Ok false
       else cache_is_cached cache' a = cache_is_cached cache a /\
            get_cached_data cache' a = get_cached_data cache a).
Proof. apply cache_insert_ok. Qed.

(** ** Powers of two *)
Lemma is_power_of_2_spec v : 0 < v < 2 ^ 64 -> is_power_of_2 v = (v =? 2 ^ Z.log2 v).
Proof.
  intros Hv. unfold is_power_of_2. rewrite (proj2 (Z.eqb_neq v 0)), wrap_small by lia.
  pose proof (Z.log2_spec v ltac:(lia)) as [Hl Hu]. pose proof (Z.log2_nonneg v).
  destruct (Z.eqb_spec v (2 ^ Z.log2 v)) as [E|E].
  - apply Z.eqb_eq. rewrite E at 1 2. replace (2 ^ Z.log2 v - 1) with (Z.ones (Z.log2 v)) by (rewrite Z.ones_equiv; lia).
    bits. rewrite Z.pow2_bits_eqb, ones_bit by lia. destruct (Z.eqb_spec (Z.log2 v) i); [|done]. cbn [andb]. lia.
  - apply Z.eqb_neq. intros Hz. apply (f_equal (fun x => Z.testbit x (Z.log2 v))) in Hz.
    rewrite Z.land_spec, Z.bit_log2, Z.bits_0 in Hz by lia. cbn [andb] in Hz.
    replace (Z.log2 v) with (Z.log2 (v - 1)) in Hz at 1; [by rewrite Z.bit_log2 in Hz by lia|].
    apply Z.log2_unique; lia.
Qed.

Lemma pow2floor_spec n : 0 < n < 2 ^ 63 -> pow2floor n = Ok (2 ^ Z.log2 n).
Proof.
  intros Hn. unfold pow2floor. rewrite wrap_small, is_power_of_2_spec by lia.
  destruct (Z.eqb_spec n (2 ^ Z.log2 n)) as [E|E]; cbn [negb]; [by f_equal|].
  pose proof (clz64_log2 n ltac:(lia)) as Hc. pose proof (Z.log2_nonneg n).
  rewrite (proj2 (Z.ltb_lt _ _)) by lia. cbn [c_assert mbind outcome_bind]. f_equal.
  assert (Z.log2 n < 63) by (apply Z.log2_lt_pow2; lia).
  change 0x8000000000000000 with (2 ^ 63). rewrite Z.shiftr_div_pow2 by lia.
  replace (2 ^ 63) with (2 ^ Z.log2 n * 2 ^ clz64 n) by (rewrite <- Z.pow_add_r by lia; f_equal; lia).
  rewrite Z.div_mul by (apply Z.pow_nonzero; lia). apply swrap_small; [lia|]. unfold in_s.
  assert (2 ^ Z.log2 n < 2 ^ 63) by (apply Z.pow_lt_mono_r; lia). change (64 - 1) with 63. lia.
Qed.

(** ** Resizing *)

(** After moving the items [done], slot [j] of the new cache holds the most
    recently used of those that belong there. *)
Definition holds (done : list CacheItem) (c : PageCache) (j : nat) (x : CacheItem) : Prop :=
  if used x then
    x ∈ done /\ slot_of c (it_addr x) = Z.of_nat j /\
    forall y, y ∈ done -> used y = true -> slot_of c (it_addr y) = Z.of_nat j -> it_age y <= it_age x
  else x = empty_item /\ forall y, y ∈ done -> used y = true -> slot_of c (it_addr y) <> Z.of_nat j.

Record moved (done : list CacheItem) (c : PageCache) : Prop := {
  mv_geom : geom c;
  mv_slots j x : page_cache c !! j = Some x -> holds done c j x;
  mv_num : num_items c = Z.of_nat (length (List.filter used (page_cache c)))
}.

(** Adding an item that does not become the content of slot [j]. *)
Lemma holds_more done c j x it : holds done c j x ->
  (used it = true -> slot_of c (it_addr it) = Z.of_nat j -> used x = true /\ it_age it <= it_age x) ->
  holds (done ++ [it]) c j x.
Proof.
  unfold holds. intros Hx Hit. destruct (used x) eqn:Eu.
  - destruct Hx as (H1 & H2 & H3). split; [apply elem_of_app; by left|]. split; [done|].
    intros y [Hy| ->%list_elem_of_singleton]%elem_of_app Hu Hs; [by apply H3|by apply Hit].
  - destruct Hx as (H1 & H2). split; [done|].
    intros y [Hy| ->%list_elem_of_singleton]%elem_of_app Hu Hs; [by apply (H2 y)|by destruct (Hit Hu Hs)].
Qed.

(** The item replaces the content of its slot. *)
Lemma moved_replace done c it x n : moved done c ->
  let j := Z.to_nat (slot_of c (it_addr it)) in
  page_cache c !! j = Some x -> used it = true -> (used x = true -> it_age x < it_age it) ->
  n = num_items c + (if used x then 0 else 1) ->
  moved (done ++ [it]) (set_items (<[j := it]> (page_cache c)) n c).
Proof.
  intros [Hg Hs Hn] j Hj Hu Hage ->. pose proof (geom_slot_range c (it_addr it) Hg) as Hr. split.
  - destruct Hg as (? & ? & ?). split_and!; cbn; [done..|]. by rewrite length_insert.
  - intros i y Hy. cbn in Hy. destruct (decide (j = i)) as [<-|Hne].
    + rewrite list_lookup_insert_eq in Hy by (by eapply lookup_lt_Some). injection Hy as <-.
      unfold holds. rewrite Hu. split; [apply elem_of_app; right; by left|]. split; [cbn; unfold slot_of in *; cbn; lia|].
      intros y [Hy| ->%list_elem_of_singleton]%elem_of_app Huy Hsy; [|lia].
      specialize (Hs j x Hj). unfold holds in Hs. destruct (used x) eqn:Ex.
      * destruct Hs as (_ & _ & Hs). specialize (Hs y Hy Huy Hsy). specialize (Hage eq_refl). lia.
      * destruct Hs as (_ & Hs). by destruct (Hs y Hy Huy).
    + rewrite list_lookup_insert_ne in Hy by done. apply (holds_more done _ i y it); [by apply Hs|].
      intros _ Hsl. exfalso. apply Hne. subst j. unfold slot_of in *. cbn in Hsl. lia.
  - cbn. rewrite (used_insert _ _ x) by done. rewrite Hn, Hu. destruct (used x); cbn; lia.
Qed.

Lemma resize_step_ok done c it : moved done c -> (used it = true <-> it_addr it <> no_addr) ->
  exists c', resize_step c it = Ok c' /\ moved (done ++ [it]) c' /\
    page_size c' = page_size c /\ max_num_items c' = max_num_items c.
Proof.
  intros Hm Hu. unfold resize_step. destruct (Z.eqb_spec (it_addr it) no_addr) as [E|E].
  - exists c. split; [done|]. split; [|done]. destruct Hm as [Hg Hs Hn]. split; try done.
    intros j x Hx. apply holds_more; [by apply Hs|]. intros Ht _. by apply Hu in Ht.
  - apply Hu in E. destruct (get_by_addr_geom c (it_addr it) (mv_geom _ _ Hm)) as (x & Hx & ->). cbn [mbind outcome_bind].
    pose proof (mv_slots _ _ Hm _ _ Hx) as Hh. unfold used in *.
    destruct (it_data x) eqn:Ed.
    + destruct (Z.leb_spec (it_age it) (it_age x)).
      * exists c. split; [done|]. split; [|done]. pose proof Hm as [Hg Hs Hn]. split; try done.
        intros j y Hy. apply holds_more; [by apply Hs|]. intros _ Hsl.
        assert (y = x) as -> by (rewrite Hsl, Nat2Z.id in Hx; congruence). unfold used. by rewrite Ed.
      * eexists. split; [done|]. split; [|done].
        apply (moved_replace done c it x); try done; unfold used; rewrite Ed; lia.
    + eexists. split; [done|]. split; [|done].
      apply (moved_replace done c it x); try done; unfold used; rewrite Ed; lia || done.
Qed.

Lemma used_addr cache i it : cache_ok cache -> page_cache cache !! i = Some it ->
  (used it = true <-> it_addr it <> no_addr).
Proof.
  intros Hok Hi. pose proof (co_items _ Hok _ _ Hi) as H. unfold item_ok, used in *.
  destruct (it_data it); [split; [lia|done]|]. subst it. by split.
Qed.

Lemma filter_used_replicate n : List.filter used (replicate n empty_item) = [].
Proof. by induction n. Qed.

Lemma fresh_moved n p : 0 < p -> 0 < n < 2 ^ 63 ->
  let m := 2 ^ Z.log2 n in
  moved [] {| page_cache := replicate (Z.to_nat m) empty_item; page_size := p; max_num_items := m;
              max_item_age := 0; num_items := 0 |}.
Proof.
  intros Hp Hn m. pose proof (Z.log2_nonneg n). assert (Z.log2 n < 63) by (apply Z.log2_lt_pow2; lia). split; cbn.
  - split; [done|]. split; [by exists (Z.log2 n)|]. cbn. rewrite length_replicate. lia.
  - intros j x [-> _]%lookup_replicate. split; [done|]. intros y ?%elem_of_nil. done.
  - by rewrite filter_used_replicate.
Qed.

(** [cache_init] makes an empty cache. *)
Lemma cache_init_ok n p : 0 < n < 2 ^ 63 -> 0 < p ->
  exists cache, cache_init true n p = Ok (Some cache) /\ cache_ok cache /\ page_size cache = p /\ max_item_age cache = 0 /\
    forall a, 0 <= a < no_addr -> cache_is_cached cache a <> Ok true.
Proof.
  intros Hn Hp. unfold cache_init. rewrite (proj2 (Z.leb_gt n 0)) by lia. cbn [negb].
  assert ((if negb (is_power_of_2 n) then pow2floor n else Ok n) = Ok (2 ^ Z.log2 n)) as ->.
  { rewrite is_power_of_2_spec, pow2floor_spec by lia. destruct (Z.eqb_spec n (2 ^ Z.log2 n)) as [E2|]; [|done]. cbn. by f_equal. }
  cbn [mbind outcome_bind]. set (fresh := {| page_cache := _; page_size := _; max_num_items := _; max_item_age := 0; num_items := 0 |}).
  pose proof (Z.log2_nonneg n). assert (Z.log2 n < 63) by (apply Z.log2_lt_pow2; lia).
  assert (cache_ok fresh) as Hok.
  { split; cbn; try done; try lia.
    - by exists (Z.log2 n).
    - rewrite length_replicate. lia.
    - intros i it [-> _]%lookup_replicate. done.
    - by rewrite filter_used_replicate. }
  exists fresh. split_and!; try done. intros a Ha. unfold cache_is_cached. destruct (get_by_addr_ok fresh a Hok) as (it & Hit & ->). cbn [mbind outcome_bind].
  cbn in Hit. apply lookup_replicate in Hit as [-> _]. rewrite (proj2 (Z.eqb_neq (it_addr empty_item) a)); [done|]. change (it_addr empty_item) with no_addr. lia.
Qed.

(** The new cache once every item was moved. *)
Lemma moved_ok cache c : cache_ok cache -> moved (page_cache cache) c -> page_size c = page_size cache ->
  let c' := {| page_cache := page_cache c; page_size := page_size cache; max_num_items := max_num_items c;
               max_item_age := max_item_age cache; num_items := num_items c |} in
  cache_ok c' /\ (forall x, slot_of c' x = slot_of c x).
Proof.
  intros Hok [(Hg1 & Hg2 & Hg3) Hs Hn] Hp c'.
  assert (forall x, slot_of c' x = slot_of c x) as Hsl by (intros x; unfold slot_of; cbn; by rewrite Hp).
  split; [|done]. split; cbn; try done; [apply Hok|apply Hok|].
  intros j x Hx. specialize (Hs j x Hx). unfold holds in Hs. unfold item_ok. destruct (used x) eqn:Eu.
  - destruct Hs as (Hin & Hsj & _). apply list_elem_of_lookup in Hin as [i Hi].
    pose proof (co_items _ Hok _ _ Hi) as H. unfold item_ok, used in *. destruct (it_data x); [|done].
    rewrite Hsl. cbn. destruct H as (? & ? & _ & ?). done.
  - destruct Hs as [-> _]. done.
Qed.

(** Resizing keeps the cache well formed, every page it
    keeps has its old content, and a page it drops is one whose slot went to a
    page used at least as recently. *)
Theorem cache_resize_spec cache n :
  cache_ok cache -> 0 < n < 2 ^ 63 ->
  exists cache', cache_resize true cache n = Ok (2 ^ Z.log2 n, cache') /\ cache_ok cache' /\
    max_num_items cache' = 2 ^ Z.log2 n /\
    (forall a, 0 <= a < no_addr -> cache_is_cached cache' a = Ok true ->
       cache_is_cached cache a = Ok true /\ get_cached_data cache' a = get_cached_data cache a) /\
    (forall it, it ∈ page_cache cache -> used it = true ->
       exists it', page_cache cache' !! Z.to_nat (slot_of cache' (it_addr it)) = Some it' /\
         used it' = true /\ it_age it <= it_age it').
Proof.
  intros Hok Hn. unfold cache_resize. rewrite pow2floor_spec by done. cbn [mbind outcome_bind].
  destruct (Z.eqb_spec (2 ^ Z.log2 n) (max_num_items cache)) as [E|E].
  { exists cache. rewrite E. split_and!; try done. intros it [i Hi]%list_elem_of_lookup Hu. exists it.
    pose proof (co_items _ Hok _ _ Hi) as H. unfold item_ok, used in *. destruct (it_data it); [|done].
    destruct H as (_ & _ & -> & _). rewrite Nat2Z.id. done. }
  unfold cache_init. rewrite (proj2 (Z.leb_gt n 0)) by lia. cbn [negb].
  assert ((if negb (is_power_of_2 n) then pow2floor n else Ok n) = Ok (2 ^ Z.log2 n)) as ->.
  { rewrite is_power_of_2_spec, pow2floor_spec by lia. destruct (Z.eqb_spec n (2 ^ Z.log2 n)) as [E2|]; [|done].
    cbn. by f_equal. }
  cbn [mbind outcome_bind]. set (fresh := {| page_cache := _; page_size := _; max_num_items := _; max_item_age := 0; num_items := 0 |}).
  destruct (ofold_inv resize_step (fun done c => moved done c /\ page_size c = page_size cache /\ max_num_items c = 2 ^ Z.log2 n)
              (page_cache cache) fresh) as (c & -> & Hm & Hp & Hx).
  - split; [|done]. apply (fresh_moved n); [apply Hok|done].
  - intros done x c [i Hi]%list_elem_of_lookup (Hm & Hp & Hx).
    destruct (resize_step_ok done c x Hm (used_addr cache i x Hok Hi)) as (c' & -> & Hm' & Hp' & Hx').
    exists c'. split; [done|]. split; [done|]. split; congruence.
  - cbn [mbind outcome_bind]. rewrite Hx. destruct (moved_ok cache c Hok Hm Hp) as [Hok' Hsl]. rewrite Hx in Hok', Hsl.
    set (c' := {| page_cache := page_cache c; page_size := _; max_num_items := _; max_item_age := _; num_items := _ |}) in *.
    exists c'. split_and!; try done.
    + intros a Ha Hc. destruct (cached_data c' a Hok' Ha Hc) as (it & d & Hit & Hita & Hd & Hget & _).
      pose proof (mv_slots _ _ Hm _ _ Hit) as Hh. unfold holds, used in Hh. rewrite Hd in Hh.
      destruct Hh as (Hin & _). apply list_elem_of_lookup in Hin as [i Hi].
      pose proof (co_items _ Hok _ _ Hi) as H. unfold item_ok in H. rewrite Hd, Hita in H. destruct H as (_ & _ & Hs & _).
      destruct (get_by_addr_ok cache a Hok) as (it2 & Hit2 & Eg). rewrite Hs, Nat2Z.id in Hit2.
      assert (it2 = it) as -> by congruence. rewrite Hget. unfold cache_is_cached, get_cached_data. rewrite Eg.
      cbn [mbind outcome_bind]. rewrite Hd, Hita, Z.eqb_refl. done.
    + intros it Hin Hu. destruct (get_by_addr_ok c' (it_addr it) Hok') as (it' & Hit' & _). exists it'. split; [done|].
      pose proof (mv_slots _ _ Hm _ _ Hit') as Hh. unfold holds in Hh. pose proof (slot_range c' (it_addr it) Hok').
      destruct (used it').
      * destruct Hh as (_ & _ & Hh). split; [done|]. apply Hh; try done. rewrite <- Hsl. lia.
      * destruct Hh as [_ Hh]. exfalso. apply (Hh it); try done. rewrite <- Hsl. lia.
Qed.

(** Two pages of two bytes in a cache of four slots. *)
Definition small_cache : PageCache :=
  {| page_cache := [empty_item; {| it_addr := 2; it_age := 1; it_data := Some [5; 6] |}; empty_item;
                    {| it_addr := 14; it_age := 2; it_data := Some [7; 8] |}];
     page_size := 2; max_num_items := 4; max_item_age := 2; num_items := 2 |}.

Lemma small_cache_ok : cache_ok small_cache.
Proof.
  split; cbn; try done; try lia.
  - by exists 2.
  - intros [|[|[|[|i]]]] it Hi; cbn in Hi; injection Hi as <- || done; unfold item_ok, slot_of, no_addr; cbn;
      try done; split_and!; done || lia.
Qed.

Lemma cache_insert_spec_witness :
  exists ret cache', cache_insert true small_cache 10 [1; 2] = Ok (ret, cache') /\
    cache_ok cache' /\ get_cached_data cache' 10 = Ok (Some [1; 2]) /\ cache_is_cached cache' 2 = Ok false.
Proof.
  destruct (cache_insert_spec true small_cache 10 [1; 2]) as (ret & cache' & E & Hok & H).
  - apply small_cache_ok.
  - unfold no_addr. lia.
  - reflexivity.
  - cbn. lia.
  - exists ret, cache'. destruct H as [(_ & H & _)|(_ & _ & Hd & Hrest)]; [discriminate H|].
    split; [exact E|]. split; [exact Hok|]. split; [exact Hd|].
    specialize (Hrest 2 ltac:(unfold no_addr; lia) ltac:(lia)). exact Hrest.
Defined.

Lemma cache_resize_spec_witness :
  exists cache', cache_resize true small_cache 3 = Ok (2, cache') /\ cache_ok cache' /\
    cache_is_cached cache' 14 = Ok true /\ cache_is_cached cache' 2 = Ok false.
Proof.
  destruct (cache_resize_spec small_cache 3 small_cache_ok) as (cache' & E & Hok & _).
  - lia.
  - exists cache'. split; [exact E|]. split; [exact Hok|]. vm_compute in E. injection E as <-. split; reflexivity.
Defined.

(** [cache_resize] asks [pow2floor] before it checks the number of pages: a
    size of zero shifts a 64-bit value by 64. *)
Lemma cache_resize_zero_shifts : cache_resize true small_cache 0 = Abort.
Proof. reflexivity. Qed.
