(* ===== verification/Migration.v ===== *)
(** * Sending guest RAM (arch_init.c)

    The migration bitmap, which collects the pages still to be sent from the
    dirty bitmap of [RamList.v], and the transfer of one page: as a zero page,
    as a difference to the copy in the page cache ([Xbzrle.v],
    [PageCache.v]) or in full.  A page travels as a message that the
    destination applies to its own page; RamSave.v writes messages as bytes. *)
From S2P Require Import Prelude HostUtils Bitops Bitmap RamList HBitmap Xbzrle PageCache.
Local Open Scope Z_scope.

(** ** The migration bitmap

    [mig_ram] is [ram_list.dirty_memory]. *)
Record MigState := {
  mig_bitmap : words;
  mig_dirty_pages : Z;
  mig_ram : list words
}.

Definition put_bitmap (bm : words) (n : Z) (s : MigState) : MigState :=
  {| mig_bitmap := bm; mig_dirty_pages := n; mig_ram := mig_ram s |}.

(** The part of [ram_save_setup] that marks all RAM dirty. *)
Definition ram_save_setup_bitmap (rs : RamState) : outcome MigState :=
  let ram_pages := Z.shiftr (last_ram_offset rs) TARGET_PAGE_BITS in
  bm ← bitmap_set (bitmap_new ram_pages) 0 ram_pages;
  Ok {| mig_bitmap := bm; mig_dirty_pages := ram_pages; mig_ram := rl_dirty rs |}.

(** [ram_addr] and [mr_size] are the fields of the region. *)
Definition migration_bitmap_find_and_reset_dirty (ram_bulk_stage : bool) (ram_addr mr_size start : Z) (s : MigState)
    : outcome (Z * MigState) :=
  let base := Z.shiftr ram_addr TARGET_PAGE_BITS in
  let nr := base + Z.shiftr start TARGET_PAGE_BITS in
  let size := base + Z.shiftr (TARGET_PAGE_ALIGN mr_size) TARGET_PAGE_BITS in
  next ← (if ram_bulk_stage && (base <? nr) then Ok (nr + 1) else find_next_bit (mig_bitmap s) size nr);
  s ← (if next <? size then
         bm ← clear_bit next (mig_bitmap s);
         Ok (put_bitmap bm (u64 (mig_dirty_pages s - 1)) s)
       else Ok s);
  Ok (u64 (Z.shiftl (next - base) TARGET_PAGE_BITS), s).

(** [nr] is an [int]. *)
Definition migration_bitmap_set_dirty (addr : Z) (s : MigState) : outcome (bool * MigState) :=
  let nr := s32 (Z.shiftr addr TARGET_PAGE_BITS) in
  '(ret, bm) ← test_and_set_bit nr (mig_bitmap s);
  Ok (ret, put_bitmap bm (if (ret : bool) then mig_dirty_pages s else u64 (mig_dirty_pages s + 1)) s).

(** The word-at-a-time loop over [n] words from [k]. *)
Fixpoint sync_words (n : nat) (k : Z) (src : words) (s : MigState) : outcome (words * MigState) :=
  match n with
  | O => Ok (src, s)
  | S n =>
      w ← rd src k;
      if negb (w =? 0) then
        m ← rd (mig_bitmap s) k;
        bm ← modify_word (fun m => Z.lor m w) (mig_bitmap s) k;
        src ← modify_word (fun _ => 0) src k;
        sync_words n (k + 1) src
          (put_bitmap bm (u64 (mig_dirty_pages s + ctpop64 (Z.land (not64 m) w))) s)
      else sync_words n (k + 1) src s
  end.

(** The page-at-a-time loop over [n] pages from [addr]. *)
Fixpoint sync_pages (n : nat) (start addr : Z) (s : MigState) : outcome MigState :=
  match n with
  | O => Ok s
  | S n =>
      dirty ← cpu_physical_memory_get_dirty (start + addr) TARGET_PAGE_SIZE DIRTY_MEMORY_MIGRATION (mig_ram s);
      s ← (if (dirty : bool) then
             d ← cpu_physical_memory_reset_dirty (start + addr) TARGET_PAGE_SIZE DIRTY_MEMORY_MIGRATION (mig_ram s);
             '(_, s) ← migration_bitmap_set_dirty (start + addr)
                         {| mig_bitmap := mig_bitmap s; mig_dirty_pages := mig_dirty_pages s; mig_ram := d |};
             Ok s
           else Ok s);
      sync_pages n start (addr + TARGET_PAGE_SIZE) s
  end.

Definition migration_bitmap_sync_range (start length : Z) (s : MigState) : outcome MigState :=
  let page := BIT_WORD (Z.shiftr start TARGET_PAGE_BITS) in
  if u64 (Z.shiftl (page * BITS_PER_LONG) TARGET_PAGE_BITS) =? start then
    let nr := s32 (BITS_TO_LONGS (Z.shiftr length TARGET_PAGE_BITS)) in
    match mig_ram s !! Z.to_nat DIRTY_MEMORY_MIGRATION with
    | None => Abort
    | Some src =>
        '(src, s) ← sync_words (Z.to_nat nr) page src s;
        Ok {| mig_bitmap := mig_bitmap s; mig_dirty_pages := mig_dirty_pages s;
              mig_ram := <[Z.to_nat DIRTY_MEMORY_MIGRATION := src]> (mig_ram s) |}
    end
  else sync_pages (Z.to_nat ((length + TARGET_PAGE_SIZE - 1) / TARGET_PAGE_SIZE)) start 0 s.

(** The part of [migration_bitmap_sync] that visits the RAM blocks: a block's
    region starts at its offset. *)
Definition migration_bitmap_sync (blocks : list RAMBlock) (s : MigState) : outcome MigState :=
  ofold (fun s b => migration_bitmap_sync_range (rb_offset b) (rb_length b) s) s blocks.

(** ** Zero pages

    [buffer_find_nonzero_offset] of util/cutils.c, with 16-byte vectors. *)
Definition VEC : Z := 16.
Definition UNROLL : Z := 8.

Definition all_zero (l : list Z) : bool := forallb (fun b => b =? 0) l.
Definition vec_zero (buf : list Z) (i : Z) : bool := all_zero (slice (i * VEC) VEC buf).

(** The first vectors one by one, then eight at a time; an or of vectors is
    zero when all of them are. *)
Fixpoint nonzero_head (n : nat) (buf : list Z) (i : Z) : option Z :=
  match n with
  | O => None
  | S n => if vec_zero buf i then nonzero_head n buf (i + 1) else Some (i * VEC)
  end.

Fixpoint nonzero_rest (fuel : nat) (buf : list Z) (len i : Z) : outcome Z :=
  match fuel with
  | O => NoFuel
  | S fuel =>
      if i <? len / VEC then
        if forallb (fun k => vec_zero buf (i + k)) [0; 1; 2; 3; 4; 5; 6; 7]
        then nonzero_rest fuel buf len (i + UNROLL) else Ok (i * VEC)
      else Ok (i * VEC)
  end.

Definition buffer_find_nonzero_offset (buf : list Z) (len : Z) : outcome Z :=
  _ ← c_assert (len mod (UNROLL * VEC) =? 0);
  if len =? 0 then Ok 0
  else match nonzero_head (Z.to_nat UNROLL) buf 0 with
       | Some off => Ok off
       | None => nonzero_rest (S (Z.to_nat len)) buf len UNROLL
       end.

Definition is_zero_range (p : list Z) (size : Z) : outcome bool :=
  off ← buffer_find_nonzero_offset p size; Ok (off =? size).

(** ** One page *)
Inductive PageMsg :=
| MsgCompress (ch : Z)
| MsgPage (data : list Z)
| MsgXbzrle (flags len : Z) (data : list Z).

Definition ENCODING_FLAG_XBZRLE : Z := 1.
Definition ZERO_TARGET_PAGE : list Z := replicate (Z.to_nat TARGET_PAGE_SIZE) 0.

(** [memcpy(prev_cached_page, data, TARGET_PAGE_SIZE)] into the cache. *)
Definition update_cached (cache : PageCache) (addr : Z) (data : list Z) : outcome PageCache :=
  '(pos, it) ← cache_get_by_addr cache addr;
  Ok (set_items (<[Z.to_nat pos := {| it_addr := it_addr it; it_age := it_age it; it_data := Some data |}]>
                   (page_cache cache)) (num_items cache) cache).

(** [hdr] is the number of bytes [save_block_hdr] sends; the result is
    [bytes_sent], the message if one is sent, and the cache. *)
Definition save_xbzrle_page (mem : bool) (cache : PageCache) (current_data : list Z) (current_addr hdr : Z)
    (last_stage : bool) : outcome (Z * option PageMsg * PageCache) :=
  cached ← cache_is_cached cache current_addr;
  if negb cached then
    '(_, cache) ← (if negb last_stage then cache_insert mem cache current_addr current_data else Ok (0, cache));
    Ok (-1, None, cache)
  else
    prev ← get_cached_data cache current_addr;
    match prev with
    | None => Abort
    | Some prev_cached_page =>
        '(encoded_len, encoded_buf) ←
          xbzrle_encode_buffer prev_cached_page current_data TARGET_PAGE_SIZE TARGET_PAGE_SIZE;
        if encoded_len =? 0 then Ok (0, None, cache)
        else if encoded_len =? -1 then
          cache ← update_cached cache current_addr current_data;
          Ok (-1, None, cache)
        else
          cache ← (if negb last_stage then update_cached cache current_addr current_data else Ok cache);
          Ok (hdr + encoded_len + 1 + 2,
              Some (MsgXbzrle ENCODING_FLAG_XBZRLE (u16 encoded_len) encoded_buf), cache)
    end.

Definition xbzrle_cache_zero_page (mem ram_bulk_stage use_xbzrle : bool) (cache : PageCache) (current_addr : Z)
    : outcome PageCache :=
  if ram_bulk_stage || negb use_xbzrle then Ok cache
  else '(_, cache) ← cache_insert mem cache current_addr ZERO_TARGET_PAGE; Ok cache.

(** The branch of [ram_save_block] that sends a dirty page, when
    [ram_control_save_page] leaves it to the generic code: the message if the
    page is not skipped, and the cache.  The first component is [bytes_sent]. *)
Definition ram_save_page (mem ram_bulk_stage use_xbzrle last_stage : bool) (cache : PageCache)
    (p : list Z) (current_addr hdr : Z) : outcome (Z * option PageMsg * PageCache) :=
  zero ← is_zero_range p TARGET_PAGE_SIZE;
  '(bytes_sent, msg, p, cache) ←
    (if (zero : bool) then
       cache ← xbzrle_cache_zero_page mem ram_bulk_stage use_xbzrle cache current_addr;
       Ok (hdr + 1, Some (MsgCompress 0), p, cache)
     else if negb ram_bulk_stage && use_xbzrle then
       '(bytes_sent, msg, cache) ← save_xbzrle_page mem cache p current_addr hdr last_stage;
       if negb last_stage then
         data ← get_cached_data cache current_addr;
         match data with
         | None => if bytes_sent =? -1 then Abort else Ok (bytes_sent, msg, p, cache)
         | Some p => Ok (bytes_sent, msg, p, cache)
         end
       else Ok (bytes_sent, msg, p, cache)
     else Ok (-1, None, p, cache));
  if bytes_sent =? -1 then Ok (hdr + TARGET_PAGE_SIZE, Some (MsgPage p), cache) else Ok (bytes_sent, msg, cache).

(** ** The destination *)
Definition ram_handle_compressed (host : list Z) (ch size : Z) : outcome (list Z) :=
  zero ← is_zero_range host size;
  Ok (if negb (ch =? 0) || negb zero then replicate (Z.to_nat size) ch else host).

(** Returns the error code and the page. *)
Definition load_xbzrle (flags len : Z) (data host : list Z) : outcome (Z * list Z) :=
  if negb (flags =? ENCODING_FLAG_XBZRLE) then Ok (-1, host)
  else if TARGET_PAGE_SIZE <? len then Ok (-1, host)
  else
    '(ret, host) ← xbzrle_decode_buffer data len host TARGET_PAGE_SIZE;
    if ret =? -1 then Ok (-1, host)
    else if TARGET_PAGE_SIZE <? ret then Abort
    else Ok (0, host).

(** One page message of [ram_load]. *)
Definition ram_load_page (msg : PageMsg) (host : list Z) : outcome (Z * list Z) :=
  match msg with
  | MsgCompress ch => host ← ram_handle_compressed host ch TARGET_PAGE_SIZE; Ok (0, host)
  | MsgPage data => Ok (0, data)
  | MsgXbzrle flags len data => load_xbzrle flags len data host
  end.

(** ** Zero pages are found *)
Lemma all_zero_spec l : all_zero l = true <-> forall k, k ∈ l -> k = 0.
Proof.
  unfold all_zero. rewrite forallb_forall. split; intros H k Hk.
  - apply list_elem_of_In in Hk. specialize (H k Hk). lia.
  - apply list_elem_of_In in Hk. rewrite (H k Hk). done.
Qed.

Lemma all_zero_replicate l : all_zero l = true -> l = replicate (length l) 0.
Proof.
  rewrite all_zero_spec. intros H. apply list_eq. intros i. destruct (l !! i) eqn:E.
  - rewrite lookup_replicate_2 by (by eapply lookup_lt_Some). f_equal. apply H. by eapply list_elem_of_lookup_2.
  - symmetry. apply lookup_ge_None_2. rewrite length_replicate. by apply lookup_ge_None_1.
Qed.

Lemma slice_all buf n : 0 <= n -> (forall i, 0 <= i < n -> vec_zero buf i = true) ->
  all_zero (take (Z.to_nat (16 * n)) buf) = true.
Proof.
  intros Hn Hv. apply all_zero_spec. intros b [k Hk]%list_elem_of_lookup.
  assert (k < Z.to_nat (16 * n))%nat as Hlt by (apply lookup_lt_Some in Hk; rewrite length_take in Hk; lia).
  rewrite lookup_take_lt in Hk by done.
  assert (0 <= Z.of_nat k / 16 < n) as Hi by (Z.div_mod_to_equations; lia).
  specialize (Hv _ Hi). unfold vec_zero in Hv. rewrite all_zero_spec in Hv. apply Hv.
  apply list_elem_of_lookup. exists (Z.to_nat (Z.of_nat k mod 16)). unfold VEC.
  assert (0 <= Z.of_nat k mod 16 < 16) by (apply Z.mod_pos_bound; lia).
  rewrite slice_lookup by lia.
  rewrite <- Hk. f_equal. Z.div_mod_to_equations; lia.
Qed.

Lemma all_zero_vec buf i : all_zero buf = true -> vec_zero buf i = true.
Proof.
  rewrite all_zero_spec. intros H. unfold vec_zero. apply all_zero_spec. intros b Hb. apply H.
  unfold slice in Hb. apply elem_of_take in Hb as (k & Hk & _). rewrite lookup_drop in Hk. by eapply list_elem_of_lookup_2.
Qed.

Lemma nonzero_head_spec buf : forall n i, 
  match nonzero_head n buf i with
  | Some off => exists k, i <= k < i + Z.of_nat n /\ off = 16 * k /\ vec_zero buf k = false
  | None => forall k, i <= k < i + Z.of_nat n -> vec_zero buf k = true
  end.
Proof.
  induction n as [|n IH]; intros i; cbn [nonzero_head]; [intros; lia|]. destruct (vec_zero buf i) eqn:E.
  - specialize (IH (i + 1)). destruct (nonzero_head n buf (i + 1)).
    + destruct IH as (k & Hk & -> & Hv). exists k. split; [lia|done].
    + intros k Hk. destruct (Z.eq_dec k i) as [->|]; [done|]. apply IH. lia.
  - exists i. split; [lia|]. split; [unfold VEC; lia|done].
Qed.

Lemma nonzero_rest_spec buf len : len mod 128 = 0 -> forall fuel i,
  0 <= i <= len / 16 -> i mod 8 = 0 -> (Z.to_nat (len / 16 - i) < fuel)%nat ->
  exists k, nonzero_rest fuel buf len i = Ok (16 * k) /\ i <= k <= len / 16 /\
    (forall j, i <= j < k -> vec_zero buf j = true) /\
    (k < len / 16 -> exists j, k <= j < len / 16 /\ vec_zero buf j = false).
Proof.
  intros Hlen. induction fuel as [|fuel IH]; intros i Hi Hm Hf; [lia|]. cbn [nonzero_rest]. unfold VEC, UNROLL.
  destruct (Z.ltb_spec i (len / 16)).
  - assert (i + 8 <= len / 16) as H8 by (Z.div_mod_to_equations; lia).
    destruct (forallb _ _) eqn:E.
    + destruct (IH (i + 8)) as (k & -> & Hk & Hz & Hs); [lia|Z.div_mod_to_equations; lia|lia|].
      exists k. split; [done|]. split; [lia|]. split; [|done]. intros j Hj.
      destruct (Z.lt_ge_cases j (i + 8)); [|apply Hz; lia].
      rewrite forallb_forall in E. replace j with (i + (j - i)) by lia. apply E.
      assert (j - i = 0 \/ j - i = 1 \/ j - i = 2 \/ j - i = 3 \/ j - i = 4 \/ j - i = 5 \/ j - i = 6 \/ j - i = 7) as Hc by lia.
      cbn. intuition lia.
    + exists i. split; [f_equal; lia|]. split; [lia|]. split; [intros; lia|]. intros _.
      destruct (existsb (fun k => negb (vec_zero buf (i + k))) [0; 1; 2; 3; 4; 5; 6; 7]) eqn:Ex.
      * apply existsb_exists in Ex as (k & Hk & Hv). exists (i + k). split; [cbn in Hk; intuition lia|]. by apply negb_true_iff.
      * assert (forallb (fun k => vec_zero buf (i + k)) [0; 1; 2; 3; 4; 5; 6; 7] = true); [|congruence].
        apply forallb_forall. intros k Hk. destruct (vec_zero buf (i + k)) eqn:Ev; [done|].
        assert (existsb (fun k => negb (vec_zero buf (i + k))) [0; 1; 2; 3; 4; 5; 6; 7] = true); [|congruence].
        apply existsb_exists. exists k. by rewrite Ev.
  - exists i. split; [f_equal; lia|]. split; [lia|]. split; [intros; lia|]. lia.
Qed.

Lemma is_zero_range_spec p size : Z.of_nat (length p) = size -> size mod 128 = 0 ->
  is_zero_range p size = Ok (all_zero p).
Proof.
  intros Hp Hm. unfold is_zero_range, buffer_find_nonzero_offset. change (UNROLL * VEC) with 128. rewrite Hm.
  cbn [Z.eqb c_assert mbind outcome_bind]. destruct (Z.eqb_spec size 0) as [E|E].
  { destruct p; [|cbn in *; lia]. by rewrite E. }
  assert (8 <= size / 16) as H8 by (Z.div_mod_to_equations; lia).
  assert (16 * (size / 16) = size) as H16 by (Z.div_mod_to_equations; lia).
  assert (forall k, k < size / 16 -> 0 <= k -> vec_zero p k = false -> all_zero p = false) as Hnz.
  { intros k _ _ Hv. destruct (all_zero p) eqn:Ea; [|done]. by rewrite (all_zero_vec p k Ea) in Hv. }
  pose proof (nonzero_head_spec p (Z.to_nat UNROLL) 0) as Hh.
  change (Z.of_nat (Z.to_nat UNROLL)) with 8 in Hh.
  destruct (nonzero_head _ _ _) as [off|]; cbn [mbind outcome_bind].
  - destruct Hh as (k & Hk & -> & Hv). rewrite (Hnz k) by (done || lia). f_equal. lia.
  - change UNROLL with 8. destruct (nonzero_rest_spec p size Hm (S (Z.to_nat size)) 8) as (k & -> & Hk & Hz & Hs);
      [lia|done|lia|]. cbn [mbind outcome_bind].
    destruct (Z.eqb_spec (16 * k) size) as [Ek|Ek].
    + f_equal. symmetry. assert (take (Z.to_nat (16 * (size / 16))) p = p) as <- by (apply firstn_all2; lia).
      apply slice_all; [lia|]. intros i Hi. destruct (Z.lt_ge_cases i 8); [apply Hh; lia|apply Hz; lia].
    + destruct Hs as (j & Hj & Hv); [lia|]. by rewrite (Hnz j) by (done || lia).
Qed.

(** ** The cache mirrors the destination

    ... at the addresses [Q]. *)
Definition mirrors (Q : Z -> Prop) (cache : PageCache) (dest : Z -> list Z) : Prop :=
  forall a, 0 <= a < no_addr -> Q a -> cache_is_cached cache a = Ok true -> get_cached_data cache a = Ok (Some (dest a)).

Definition put (dest : Z -> list Z) (addr : Z) (page : list Z) : Z -> list Z :=
  fun a => if a =? addr then page else dest a.

Lemma mirrors_weaken (Q Q' : Z -> Prop) cache dest : (forall a, Q' a -> Q a) -> mirrors Q cache dest -> mirrors Q' cache dest.
Proof. intros HQ Hm a Ha Hq. apply Hm; auto. Qed.

(** [cache'] has [data] for [addr] and nothing new besides. *)
Record stores (cache cache' : PageCache) (addr : Z) (data : list Z) : Prop := {
  st_ok : cache_ok cache';
  st_size : page_size cache' = page_size cache;
  st_age : max_item_age cache' <= max_item_age cache + 1;
  st_data : get_cached_data cache' addr = Ok (Some data);
  st_others a : 0 <= a < no_addr -> a <> addr -> cache_is_cached cache' a = Ok true ->
    cache_is_cached cache a = Ok true /\ get_cached_data cache' a = get_cached_data cache a
}.

Lemma stores_mirrors Q cache cache' addr data dest :
  mirrors Q cache dest -> stores cache cache' addr data -> mirrors Q cache' (put dest addr data).
Proof.
  intros Hm Hs a Ha Hq Hc. unfold put. destruct (Z.eqb_spec a addr) as [->|Hne]; [apply Hs|].
  destruct (st_others _ _ _ _ Hs a Ha Hne Hc) as [Hc' ->]. by apply Hm.
Qed.

Lemma cache_insert_geom mem cache addr data ret cache' : cache_ok cache -> max_item_age cache + 1 < 2 ^ 64 - 1 ->
  cache_insert mem cache addr data = Ok (ret, cache') ->
  page_size cache' = page_size cache /\ max_item_age cache' <= max_item_age cache + 1.
Proof.
  intros Hok Hage. pose proof (co_age _ Hok). unfold cache_insert. rewrite wrap_small by lia.
  destruct (cache_get_by_addr cache addr) as [[pos it]| |]; [|done..]. cbn [mbind outcome_bind].
  destruct (it_data it), mem; intros [= <- <-]; cbn; lia.
Qed.

Lemma insert_stores cache addr data : cache_ok cache -> 0 <= addr < no_addr ->
  Z.of_nat (length data) = page_size cache -> max_item_age cache + 1 < 2 ^ 64 - 1 ->
  exists cache', cache_insert true cache addr data = Ok (0, cache') /\ stores cache cache' addr data.
Proof.
  intros Hok Ha Hl Hage. destruct (cache_insert_ok true cache addr data Hok Ha Hl Hage)
    as (ret & cache' & E & Hok' & [(_ & ? & _)|(-> & _ & Hd & Ho)]); [done|].
  destruct (cache_insert_geom true cache addr data 0 cache' Hok Hage E) as [Hsz Hmx].
  exists cache'. split; [done|]. split; [done|done|done|done|]. intros a Har Hne Hc.
  specialize (Ho a Har Hne). destruct (slot_of cache a =? slot_of cache addr).
  - rewrite Ho in Hc. done.
  - destruct Ho as [<- <-]. done.
Qed.

Lemma update_stores cache addr data : cache_ok cache -> 0 <= addr < no_addr ->
  cache_is_cached cache addr = Ok true -> Z.of_nat (length data) = page_size cache ->
  exists cache', update_cached cache addr data = Ok cache' /\ stores cache cache' addr data.
Proof.
  intros Hok Ha Hc Hl. destruct (cached_data cache addr Hok Ha Hc) as (it & d & Hit & Hita & Hd & _ & _).
  destruct (get_by_addr_ok cache addr Hok) as (it2 & Hit2 & E). assert (it2 = it) as -> by congruence.
  unfold update_cached. rewrite E. cbn [mbind outcome_bind]. eexists. split; [done|].
  set (it' := {| it_addr := it_addr it; it_age := it_age it; it_data := Some data |}).
  set (cache' := set_items _ _ cache). pose proof (slot_range cache addr Hok) as Hsl. pose proof (co_items _ Hok _ _ Hit) as Hi.
  unfold item_ok in Hi. rewrite Hd in Hi.
  assert (cache_ok cache') as Hok'.
  { pose proof (co_age _ Hok). change cache' with (set_max_age (max_item_age cache) cache').
    apply (store_ok cache _ it); try done; try lia.
    - unfold used. rewrite Hd. lia.
    - unfold item_ok. cbn. destruct Hi as (_ & ? & ? & ?). done. }
  assert (forall a, exists x, cache_get_by_addr cache' a = Ok (slot_of cache a, x) /\
            page_cache cache' !! Z.to_nat (slot_of cache a) = Some x) as Hget
    by (intros a; destruct (get_by_addr_ok cache' a Hok') as (x & Hx & Ex); by exists x).
  split; [done|done|cbn; lia|..]; unfold get_cached_data, cache_is_cached.
  - destruct (Hget addr) as (x & -> & Hx). cbn in Hx. rewrite list_lookup_insert_eq in Hx by (by eapply lookup_lt_Some).
    injection Hx as <-. done.
  - intros a Har Hne. destruct (Hget a) as (x & -> & Hx). cbn [mbind outcome_bind]. pose proof (slot_range cache a Hok).
    destruct (get_by_addr_ok cache a Hok) as (y & Hy & ->). cbn [mbind outcome_bind].
    destruct (Z.eq_dec (slot_of cache a) (slot_of cache addr)) as [Es|Es].
    + cbn in Hx. rewrite Es, list_lookup_insert_eq in Hx by (by eapply lookup_lt_Some). injection Hx as <-.
      cbn. intros [= ?%Z.eqb_eq]. congruence.
    + cbn in Hx. rewrite list_lookup_insert_ne in Hx by lia. rewrite Hy in Hx. injection Hx as <-. done.
Qed.

(** Messages as the stream can carry them, and their length there. *)
Definition msg_ok (m : PageMsg) : Prop :=
  match m with
  | MsgCompress ch => in_u 8 ch
  | MsgPage data => Z.of_nat (length data) = TARGET_PAGE_SIZE
  | MsgXbzrle flags len data =>
      flags = ENCODING_FLAG_XBZRLE /\ len = Z.of_nat (length data) /\ len <= TARGET_PAGE_SIZE
  end.
Definition msg_size (m : PageMsg) : Z :=
  match m with
  | MsgCompress _ => 1
  | MsgPage data => Z.of_nat (length data)
  | MsgXbzrle _ _ data => 3 + Z.of_nat (length data)
  end.

(** What sending a page has to achieve at the destination: it is skipped when
    the destination has it already, otherwise the message loads it; [sent] is
    what was written. *)
Definition arrives (hdr sent : Z) (msg : option PageMsg) (before page : list Z) : Prop :=
  match msg with
  | None => sent = 0 /\ before = page
  | Some m => sent = hdr + msg_size m /\ msg_ok m /\ ram_load_page m before = Ok (0, page)
  end.

Section Transfer.
Context (Q : Z -> Prop) (cache : PageCache) (dest : Z -> list Z) (p : list Z) (addr hdr : Z).
Hypothesis Hok : cache_ok cache.
Hypothesis Hps : page_size cache = TARGET_PAGE_SIZE.
Hypothesis Hage : max_item_age cache + 1 < 2 ^ 64 - 1.
Hypothesis Hm : mirrors Q cache dest.
Hypothesis Ha : 0 <= addr < no_addr.
Hypothesis HQ : Q addr.
Hypothesis Hp : Z.of_nat (length p) = TARGET_PAGE_SIZE.
Hypothesis Hpb : bytes_ok p.
Hypothesis Hd : Z.of_nat (length (dest addr)) = TARGET_PAGE_SIZE.
Hypothesis Hdb : bytes_ok (dest addr).
Hypothesis Hhdr : 0 <= hdr.

(** The cache afterwards: it holds the page, or is as it was because the page
    was skipped or this is the last stage. *)
Definition cache_after (last_stage : bool) (sent : Z) (cache' : PageCache) : Prop :=
  stores cache cache' addr p \/
  cache' = cache /\ (sent = 0 -> dest addr = p) /\ (sent = 0 /\ cache_is_cached cache addr = Ok true \/ last_stage = true).

(** A page that is not zero, sent through the codec. *)
Lemma save_xbzrle_page_ok last_stage :
  exists sent msg cache', save_xbzrle_page true cache p addr hdr last_stage = Ok (sent, msg, cache') /\
    (sent = -1 \/ arrives hdr sent msg (dest addr) p) /\ cache_after last_stage sent cache'.
Proof.
  unfold save_xbzrle_page, cache_after. destruct (get_by_addr_ok cache addr Hok) as (it & Hit & E).
  assert (cache_is_cached cache addr = Ok (it_addr it =? addr)) as Hc by (unfold cache_is_cached; by rewrite E).
  rewrite Hc. cbn [mbind outcome_bind]. destruct (Z.eqb_spec (it_addr it) addr) as [Ec|Ec]; cbn [negb].
  - destruct (cached_data cache addr Hok Ha Hc) as (it2 & d & _ & _ & _ & Hg & Hl). rewrite Hg. cbn [mbind outcome_bind].
    pose proof (Hm addr Ha HQ Hc) as Hmd. rewrite Hg in Hmd. injection Hmd as ->.
    destruct (update_stores cache addr p Hok Ha Hc ltac:(congruence)) as (cache1 & Eu & Hst).
    destruct (encode_decode (dest addr) p TARGET_PAGE_SIZE TARGET_PAGE_SIZE) as (ret & out & -> & Hret);
      try done. cbn [mbind outcome_bind].
    destruct Hret as [(-> & _)|[(-> & Heq)|(Hr & Hlen & dd & Hdec & Hdd)]].
    + cbn [Z.eqb]. rewrite Eu. cbn [mbind outcome_bind]. eexists _, _, _. split; [done|]. split; [by left|]. by left.
    + cbn [Z.eqb]. eexists _, _, _. split; [done|]. split; [by right|]. right. split; [done|]. split; [done|by left].
    + rewrite (proj2 (Z.eqb_neq ret 0)), (proj2 (Z.eqb_neq ret (-1))) by lia.
      assert (arrives hdr (hdr + ret + 1 + 2) (Some (MsgXbzrle ENCODING_FLAG_XBZRLE (u16 ret) out)) (dest addr) p) as Harr.
      { split; [cbn; lia|]. split; [cbn; unfold TARGET_PAGE_SIZE in *; rewrite wrap_small by lia; lia|].
        cbn [ram_load_page]. unfold load_xbzrle. rewrite Z.eqb_refl. cbn [negb]. unfold TARGET_PAGE_SIZE in *.
        rewrite wrap_small by lia. rewrite (proj2 (Z.ltb_ge 4096 ret)), Hdec by lia. cbn [mbind outcome_bind].
        rewrite (proj2 (Z.eqb_neq dd (-1))), (proj2 (Z.ltb_ge 4096 dd)) by lia. done. }
      destruct last_stage; cbn [negb]; rewrite ?Eu; cbn [mbind outcome_bind]; eexists _, _, _; (split; [done|]);
        (split; [by right|]); [right; split; [done|split; [lia|by right]]|by left].
  - destruct last_stage; cbn [negb].
    + cbn [mbind outcome_bind]. eexists _, _, _. split; [done|]. split; [by left|]. right. split; [done|]. split; [lia|by right].
    + destruct (insert_stores cache addr p Hok Ha ltac:(congruence) Hage) as (cache1 & -> & Hst).
      cbn [mbind outcome_bind]. eexists _, _, _. split; [done|]. split; [by left|]. by left.
Qed.

(** What is left of the mirror afterwards. *)
Definition cache_result (last_stage : bool) (sent : Z) (cache' : PageCache) : Prop :=
  cache_ok cache' /\ page_size cache' = page_size cache /\ max_item_age cache' <= max_item_age cache + 1 /\
  mirrors (fun a => Q a /\ (last_stage = false \/ sent = 0 \/ a <> addr)) cache' (put dest addr p).

Lemma after_result last_stage sent cache' : cache_after last_stage sent cache' -> cache_result last_stage sent cache'.
Proof.
  intros [Hs|(-> & Heq & Hc)].
  - split_and!; [apply Hs..|]. apply (mirrors_weaken Q); [tauto|]. by apply (stores_mirrors Q cache).
  - split_and!; [done|done|lia|]. intros a Har [HQa Hst] Hca. unfold put. destruct (Z.eqb_spec a addr) as [->|Hne]; [|by apply Hm].
    rewrite (Hm addr) by done. do 2 f_equal. destruct Hc as [[? _]| ->]; [auto|]. by destruct Hst as [|[|]]; auto.
Qed.

Lemma page_sent ram_bulk_stage last_stage : (ram_bulk_stage = true -> forall a, 0 <= a < no_addr -> cache_is_cached cache a <> Ok true) ->
  exists sent msg cache', ram_save_page true ram_bulk_stage true last_stage cache p addr hdr = Ok (sent, msg, cache') /\
    arrives hdr sent msg (dest addr) p /\ cache_result last_stage sent cache'.
Proof.
  intros Hbulk. unfold ram_save_page. rewrite is_zero_range_spec by done. cbn [mbind outcome_bind].
  assert (forall sent, ram_bulk_stage = true -> cache_result last_stage sent cache) as Hb.
  { intros sent E. split_and!; [done|done|lia|]. intros a Har _ Hc. by destruct (Hbulk E a Har). }
  assert (arrives hdr (hdr + TARGET_PAGE_SIZE) (Some (MsgPage p)) (dest addr) p) as Hfull
    by (split; [cbn; lia|done]).
  destruct (all_zero p) eqn:Ez.
  - assert (p = ZERO_TARGET_PAGE) as Epz by (rewrite (all_zero_replicate p Ez); unfold ZERO_TARGET_PAGE; f_equal; lia).
    assert (arrives hdr (hdr + 1) (Some (MsgCompress 0)) (dest addr) p) as Harr.
    { split; [done|]. split; [done|]. cbn [ram_load_page]. unfold ram_handle_compressed. rewrite is_zero_range_spec by done. cbn [mbind outcome_bind].
      destruct (all_zero (dest addr)) eqn:Ed; cbn; [|by rewrite Epz].
      rewrite (all_zero_replicate _ Ed), Epz. unfold ZERO_TARGET_PAGE. do 3 f_equal. lia. }
    unfold xbzrle_cache_zero_page. cbn [negb]. rewrite orb_false_r. destruct ram_bulk_stage.
    + cbn [mbind outcome_bind]. rewrite (proj2 (Z.eqb_neq (hdr + 1) (-1))) by lia.
      eexists _, _, _. split; [done|]. split; [done|by apply Hb].
    + rewrite <- Epz. destruct (insert_stores cache addr p Hok Ha ltac:(congruence) Hage) as (cache1 & -> & Hs).
      cbn [mbind outcome_bind]. rewrite (proj2 (Z.eqb_neq (hdr + 1) (-1))) by lia.
      eexists _, _, _. split; [done|]. split; [done|]. apply after_result. by left.
  - destruct ram_bulk_stage; cbn [negb andb]; 
      [cbn [mbind outcome_bind Z.eqb]; eexists _, _, _; (split; [done|]); (split; [done|by apply Hb])|].
    destruct (save_xbzrle_page_ok last_stage) as (sent & msg & cache' & -> & Harr & Haf). cbn [mbind outcome_bind].
    assert (exists p', (if negb last_stage then
               data ← get_cached_data cache' addr;
               match data with
               | None => if sent =? -1 then Abort else Ok (sent, msg, p, cache')
               | Some p => Ok (sent, msg, p, cache')
               end else Ok (sent, msg, p, cache')) = Ok (sent, msg, p', cache') /\ (sent = -1 -> p' = p)) as (p' & -> & Hp').
    { destruct last_stage; cbn [negb]; [by eauto|]. destruct Haf as [Hs|(-> & Heq & [[-> Hc]|?])]; [..|done].
      - rewrite (st_data _ _ _ _ Hs). cbn. by eauto.
      - rewrite (Hm addr Ha HQ Hc). cbn. by eauto. }
    cbn [mbind outcome_bind]. destruct (Z.eqb_spec sent (-1)) as [->|Hne].
    + rewrite (Hp' eq_refl). eexists _, _, _. split; [done|]. split; [done|]. apply after_result.
      destruct Haf as [?|(? & _ & [[? _]|?])]; [by left|done|]. right. split; [done|]. split; [unfold TARGET_PAGE_SIZE; lia|by right].
    + destruct Harr as [?|Harr]; [done|]. eexists _, _, _. split; [done|]. split; [done|]. by apply after_result.
Qed.
End Transfer.

(** C33 (refinement): sending a dirty page, whichever of the zero-page,
    difference or full encodings is used, makes the destination's page equal
    to the source's, and a skipped page was equal already.  Every page in the
    cache still is what the destination has, apart from the page just sent
    when this is the last stage, which does not update the cache.  The cache is
    assumed to get the memory it asks for (see [save_page_without_memory]) and
    to hold no page in the bulk stage, which inserts none. *)
Theorem page_transfer Q cache dest p addr hdr ram_bulk_stage last_stage :
  cache_ok cache -> page_size cache = TARGET_PAGE_SIZE -> max_item_age cache + 1 < 2 ^ 64 - 1 ->
  mirrors Q cache dest -> 0 <= addr < no_addr -> Q addr ->
  Z.of_nat (length p) = TARGET_PAGE_SIZE -> bytes_ok p ->
  Z.of_nat (length (dest addr)) = TARGET_PAGE_SIZE -> bytes_ok (dest addr) -> 0 <= hdr ->
  (ram_bulk_stage = true -> forall a, 0 <= a < no_addr -> cache_is_cached cache a <> Ok true) ->
  exists sent msg cache', ram_save_page true ram_bulk_stage true last_stage cache p addr hdr = Ok (sent, msg, cache') /\
    arrives hdr sent msg (dest addr) p /\ cache_result Q cache dest p addr last_stage sent cache'.
Proof.
  intros. by apply page_sent.
Qed.

(** A cache of one slot with the zero page of address 0. *)
Definition one_page : PageCache :=
  {| page_cache := [{| it_addr := 0; it_age := 1; it_data := Some ZERO_TARGET_PAGE |}];
     page_size := TARGET_PAGE_SIZE; max_num_items := 1; max_item_age := 1; num_items := 1 |}.

Lemma one_page_ok : cache_ok one_page.
Proof.
  split; cbn [one_page page_cache page_size max_num_items max_item_age num_items]; try done; try lia.
  - by exists 0.
  - intros [|i] it Hi; [|done]. injection Hi as <-. unfold item_ok, ZERO_TARGET_PAGE, no_addr.
    cbn [it_data it_addr it_age one_page page_size max_item_age]. rewrite length_replicate. split_and!; done || lia.
Qed.

Lemma one_page_mirrors : mirrors (fun _ => True) one_page (fun _ => ZERO_TARGET_PAGE).
Proof.
  intros a Ha _ Hc. destruct (cached_data one_page a one_page_ok Ha Hc) as (it & d & Hit & _ & Hd & -> & _).
  pose proof (slot_range one_page a one_page_ok) as Hs. change (max_num_items one_page) with 1 in Hs.
  replace (slot_of one_page a) with 0 in Hit by lia. injection Hit as <-. by injection Hd as <-.
Qed.

Lemma page_transfer_witness :
  let p := <[5%nat := 1]> ZERO_TARGET_PAGE in
  exists sent msg cache', ram_save_page true false true false one_page p 0 8 = Ok (sent, msg, cache') /\
    msg = Some (MsgXbzrle 1 3 [5; 1; 1]) /\ arrives 8 sent msg ZERO_TARGET_PAGE p.
Proof.
  intros p. destruct (page_transfer (fun _ => True) one_page (fun _ => ZERO_TARGET_PAGE) p 0 8 false false)
    as (sent & msg & cache' & E & Harr & _).
  - apply one_page_ok.
  - reflexivity.
  - vm_compute. reflexivity.
  - apply one_page_mirrors.
  - unfold no_addr. lia.
  - exact I.
  - vm_compute. reflexivity.
  - apply Forall_insert; [apply Forall_replicate|]; split; lia || reflexivity.
  - vm_compute. reflexivity.
  - apply Forall_replicate. split; lia || reflexivity.
  - lia.
  - discriminate.
  - exists sent, msg, cache'. split; [exact E|]. split; [|exact Harr].
    apply (f_equal (fun o => match o with Ok (_, m, _) => m | _ => None end)) in E. vm_compute in E. symmetry. exact E.
Defined.

(** The bulk stage neither skips a page nor touches the cache. *)
Lemma ram_save_page_bulk mem use_xbzrle last_stage cache p addr hdr sent msg cache' :
  ram_save_page mem true use_xbzrle last_stage cache p addr hdr = Ok (sent, msg, cache') -> cache' = cache /\ msg <> None.
Proof.
  unfold ram_save_page, xbzrle_cache_zero_page. cbn [negb andb orb]. destruct (is_zero_range p TARGET_PAGE_SIZE) as [[|]| |]; try done; cbn [mbind outcome_bind Z.eqb].
  - destruct (_ =? -1); by intros [= _ <- <-].
  - by intros [= _ <- <-].
Qed.

(** When a page cannot be allocated for the cache, the code still takes the
    page to send from the cache: a null pointer. *)
Lemma save_page_without_memory :
  let empty := {| page_cache := [empty_item]; page_size := TARGET_PAGE_SIZE; max_num_items := 1;
                  max_item_age := 0; num_items := 0 |} in
  ram_save_page false false true false empty (<[5%nat := 1]> ZERO_TARGET_PAGE) 0 8 = Abort.
Proof. vm_compute. reflexivity. Qed.

(** ** Collecting dirty pages *)
Abbreviation MIG := DIRTY_MEMORY_MIGRATION.

(** The count is the number of pages still to be sent. *)
Record mig_ok (pages : Z) (s : MigState) : Prop := {
  mo_words : words_ok (mig_bitmap s);
  mo_pages : 0 <= pages <= nbits (mig_bitmap s);
  mo_int : nbits (mig_bitmap s) < 2 ^ 31;
  mo_count : mig_dirty_pages s = cnt (bit (mig_bitmap s)) 0 (nbits (mig_bitmap s));
  mo_ram : dirty_ok pages (mig_ram s)
}.

(** The dirty pages of [lo, hi) moved to the migration bitmap. *)
Definition collects (s s' : MigState) (lo hi : Z) : Prop :=
  (forall p, 0 <= p -> bit (mig_bitmap s') p =
     bit (mig_bitmap s) p || ((lo <=? p) && (p <? hi)) && page_dirty (mig_ram s) MIG p) /\
  (forall c p, 0 <= c < 6 -> 0 <= p -> page_dirty (mig_ram s') c p =
     if (c =? MIG) && ((lo <=? p) && (p <? hi)) then false else page_dirty (mig_ram s) c p).

Lemma collects_trans s1 s2 s3 lo mid hi : lo <= mid <= hi ->
  collects s1 s2 lo mid -> collects s2 s3 mid hi -> collects s1 s3 lo hi.
Proof.
  intros Hm [B1 D1] [B2 D2]. split.
  - intros p Hp. rewrite B2, B1, D1 by (unfold MIG; lia). rewrite Z.eqb_refl.
    destruct (Z.leb_spec lo p), (Z.ltb_spec p mid), (Z.leb_spec mid p), (Z.ltb_spec p hi); cbn;
      rewrite ?orb_false_r; done || lia.
  - intros c p Hc Hp. rewrite D2, D1 by done.
    destruct (c =? MIG), (Z.leb_spec lo p), (Z.ltb_spec p mid), (Z.leb_spec mid p), (Z.ltb_spec p hi); cbn; done || lia.
Qed.

(** Bits gained by or-ing [g] into [f]. *)
Lemma cnt_or f g b : forall n a, Z.to_nat (b - a) = n ->
  cnt (fun p => f p || g p) a b = cnt f a b + cnt (fun p => negb (f p) && g p) a b.
Proof.
  induction n as [|n IH]; intros a Hn.
  - unfold cnt. by rewrite Hn.
  - rewrite !(cnt_step _ a b), (IH (a + 1)) by lia. destruct (f a), (g a); cbn; lia.
Qed.

(** ... when [g] lives in [lo, hi). *)
Lemma cnt_within f a b lo hi : a <= lo <= hi -> hi <= b ->
  cnt (fun p => ((lo <=? p) && (p <? hi)) && f p) a b = cnt f lo hi.
Proof.
  intros Hlo Hhi. rewrite (cnt_split _ lo b _ a eq_refl), (cnt_split _ hi b _ lo eq_refl) by lia.
  rewrite (cnt_false _ lo _ a eq_refl), (cnt_false _ b _ hi eq_refl).
  - rewrite (cnt_ext _ f hi _ lo eq_refl); [lia|]. intros k Hk. by replace ((lo <=? k) && (k <? hi)) with true by lia.
  - intros k Hk. by replace ((lo <=? k) && (k <? hi)) with false by lia.
  - intros k Hk. by replace ((lo <=? k) && (k <? hi)) with false by lia.
Qed.

(** The invariant after bits [g] of [lo, hi) were added. *)
Lemma count_after bm bm' n n' lo hi g :
  n = cnt (bit bm) 0 (nbits bm) -> length bm' = length bm -> 0 <= lo <= hi -> hi <= nbits bm ->
  (forall p, 0 <= p -> bit bm' p = bit bm p || ((lo <=? p) && (p <? hi)) && g p) ->
  n' = n + cnt (fun p => negb (bit bm p) && g p) lo hi ->
  n' = cnt (bit bm') 0 (nbits bm').
Proof.
  intros -> Hl Hlo Hhi Hb ->. assert (nbits bm' = nbits bm) as -> by (unfold nbits; by rewrite Hl).
  rewrite (cnt_ext (bit bm') (fun p => bit bm p || (((lo <=? p) && (p <? hi)) && g p)) _ _ 0 eq_refl)
    by (intros k Hk; apply Hb; lia).
  rewrite (cnt_or _ _ _ _ 0 eq_refl). f_equal.
  rewrite <- (cnt_within (fun p => negb (bit bm p) && g p) 0 (nbits bm) lo hi) by lia.
  apply (cnt_ext _ _ _ _ 0 eq_refl). intros k Hk. destruct (bit bm k), ((lo <=? k) && (k <? hi)); done.
Qed.

(** One round of the word loop on a nonzero word. *)
Lemma sync_word_ok k src s : words_ok src -> words_ok (mig_bitmap s) ->
  0 <= k < Z.of_nat (length src) -> k < Z.of_nat (length (mig_bitmap s)) ->
  nbits (mig_bitmap s) < 2 ^ 31 -> mig_dirty_pages s = cnt (bit (mig_bitmap s)) 0 (nbits (mig_bitmap s)) ->
  exists bm' src', modify_word (fun m => Z.lor m (wd src k)) (mig_bitmap s) k = Ok bm' /\
    modify_word (fun _ => 0) src k = Ok src' /\ filled src src' (64 * k) (64 * k + 64) false /\
    words_ok bm' /\ length bm' = length (mig_bitmap s) /\
    u64 (mig_dirty_pages s + ctpop64 (Z.land (not64 (wd (mig_bitmap s) k)) (wd src k))) = cnt (bit bm') 0 (nbits bm') /\
    forall p, 0 <= p -> bit bm' p = bit (mig_bitmap s) p || ((64 * k <=? p) && (p <? 64 * k + 64)) && bit src p.
Proof.
  intros Hsrc Hbm Hk Hkb Hint Hcnt.
  pose proof (wd_shows src k Hsrc ltac:(lia)) as Hsw. pose proof (wd_shows (mig_bitmap s) k Hbm ltac:(lia)) as Hmw.
  destruct (modify_word_Ok (fun m => Z.lor m (wd src k)) (mig_bitmap s) k Hbm ltac:(lia)) as (m' & Hm' & _ & E1).
  assert (m' = wd (mig_bitmap s) k) as -> by (unfold wd; by rewrite Hm').
  set (m := wd (mig_bitmap s) k) in *. set (w := wd src k) in *.
  destruct (store_word 0 false src k Hsrc ltac:(lia) ltac:(split; lia) zero_bits) as (src1 & E2 & F1).
  set (bm1 := <[Z.to_nat k := Z.lor m w]> (mig_bitmap s)) in *.
  assert (forall p, 0 <= p -> bit bm1 p = bit (mig_bitmap s) p || ((64 * k <=? p) && (p <? 64 * k + 64)) && bit src p) as Hb1.
  { intros p Hp. subst bm1. rewrite bit_insert by lia. pose proof (Z.mod_pos_bound p 64 ltac:(lia)).
    pose proof (Z.div_mod p 64 ltac:(lia)). destruct (Z.eqb_spec (p / 64) k) as [Ek|Ek].
    - rewrite Z.lor_spec. subst m w. rewrite !wd_bit by lia. replace (64 * k + p mod 64) with p by lia.
      by replace ((64 * k <=? p) && (p <? 64 * k + 64)) with true by lia.
    - replace ((64 * k <=? p) && (p <? 64 * k + 64)) with false by lia. by rewrite orb_false_r. }
  assert (ctpop64 (Z.land (not64 m) w) = cnt (fun p => negb (bit (mig_bitmap s) p) && bit src p) (64 * k) (64 * k + 64)) as Hpop.
  { rewrite <- (Z.add_0_r (64 * k)) at 1. apply shows_popcount. destruct Hmw as (_ & _ & Hmu & Hmb), Hsw as (_ & _ & Hwu & Hwb).
    split_and!; try lia; [apply in_u64_land_l; [apply wrap_range; lia|apply Hwu]|]. intros j Hj.
    rewrite Z.land_spec, not64_bit, Hmb, Hwb by lia. replace (0 <=? j) with true by lia. by destruct (j <? 64). }
  assert (length bm1 = length (mig_bitmap s)) as Hlb1 by apply length_insert.
  pose proof (cnt_bound (bit (mig_bitmap s)) (nbits (mig_bitmap s)) _ 0 eq_refl).
  pose proof (cnt_bound (fun p => negb (bit (mig_bitmap s) p) && bit src p) (64 * k + 64) _ (64 * k) eq_refl).
  exists bm1, src1. split_and!; try done.
  - apply Forall_insert; [done|]. apply in_u64_lor; [apply Hmw|apply Hsw].
  - apply (count_after (mig_bitmap s) bm1 (mig_dirty_pages s) _ (64 * k) (64 * k + 64) (bit src)); try done.
    + lia.
    + unfold nbits. lia.
    + rewrite Hpop, wrap_small by lia. done.
Qed.

Lemma sync_words_ok : forall n k src s, words_ok src -> words_ok (mig_bitmap s) -> 0 <= k ->
  k + Z.of_nat n <= Z.of_nat (length src) -> k + Z.of_nat n <= Z.of_nat (length (mig_bitmap s)) ->
  nbits (mig_bitmap s) < 2 ^ 31 -> mig_dirty_pages s = cnt (bit (mig_bitmap s)) 0 (nbits (mig_bitmap s)) ->
  exists src' s', sync_words n k src s = Ok (src', s') /\
    filled src src' (64 * k) (64 * (k + Z.of_nat n)) false /\
    words_ok (mig_bitmap s') /\ length (mig_bitmap s') = length (mig_bitmap s) /\ mig_ram s' = mig_ram s /\
    mig_dirty_pages s' = cnt (bit (mig_bitmap s')) 0 (nbits (mig_bitmap s')) /\
    forall p, 0 <= p -> bit (mig_bitmap s') p =
      bit (mig_bitmap s) p || ((64 * k <=? p) && (p <? 64 * (k + Z.of_nat n))) && bit src p.
Proof.
  induction n as [|n IH]; intros k src s Hsrc Hbm Hk Hls Hlb Hint Hcnt; cbn [sync_words].
  { eexists _, _. split; [done|]. rewrite Z.add_0_r. split; [by apply filled_nothing|]. split_and!; try done.
    intros p Hp. replace ((64 * k <=? p) && (p <? 64 * k)) with false by lia. by rewrite orb_false_r. }
  rewrite (rd_wd src) by lia. cbn [mbind outcome_bind]. pose proof (wd_shows src k Hsrc Hk) as Hsw.
  destruct (Z.eqb_spec (wd src k) 0) as [E|E]; cbn [negb].
  - destruct (IH (k + 1) src s) as (src' & s' & -> & F & H1 & H2 & H3 & H4 & H5); [done|done|lia|lia|lia|done|done|].
    exists src', s'. split; [reflexivity|]. replace (k + 1 + Z.of_nat n) with (k + Z.of_nat (S n)) in * by lia.
    pose proof (shows_zero _ _ _ _ _ Hsw E) as Hz. split_and!; try done.
    + destruct F as (F1 & F2 & F3). split_and!; try done. intros i Hi. rewrite F3 by done.
      destruct (Z.leb_spec (64 * k) i), (Z.leb_spec (64 * (k + 1)) i), (Z.ltb_spec i (64 * (k + Z.of_nat (S n)))); cbn; try done; try lia.
      apply Hz. lia.
    + intros p Hp. rewrite H5 by done.
      destruct (Z.leb_spec (64 * k) p), (Z.leb_spec (64 * (k + 1)) p), (Z.ltb_spec p (64 * (k + Z.of_nat (S n)))); cbn; try done; try lia.
      by rewrite Hz by lia.
  - rewrite (rd_wd (mig_bitmap s)) by lia. cbn [mbind outcome_bind].
    destruct (sync_word_ok k src s) as (bm1 & src1 & -> & E2 & F1 & Hbm1 & Hlb1 & Hc1 & Hb1); try done; try lia.
    cbn [mbind outcome_bind]. rewrite E2. cbn [mbind outcome_bind]. pose proof F1 as (Hsrc1 & Hl1 & Hf1). rewrite Hc1.
    destruct (IH (k + 1) src1 (put_bitmap bm1 (cnt (bit bm1) 0 (nbits bm1)) s))
      as (src' & s' & -> & F & H1 & H2 & H3 & H4 & H5); cbn [put_bitmap mig_bitmap mig_dirty_pages]; try done; try lia.
    { unfold nbits in *. by rewrite Hlb1. }
    cbn [put_bitmap mig_bitmap mig_ram] in *. exists src', s'. split; [reflexivity|].
    replace (k + 1 + Z.of_nat n) with (k + Z.of_nat (S n)) in * by lia. split_and!; try done.
    + apply (filled_trans src src1 src' _ (64 * (k + 1))); [lia| |done]. by replace (64 * (k + 1)) with (64 * k + 64) by lia.
    + congruence.
    + intros p Hp. rewrite H5, Hb1, Hf1 by done. replace (64 * (k + 1)) with (64 * k + 64) by lia.
      destruct (Z.leb_spec (64 * k) p), (Z.ltb_spec p (64 * k + 64)), (Z.leb_spec (64 * k + 64) p), (Z.ltb_spec p (64 * (k + Z.of_nat (S n))));
        cbn; rewrite ?orb_false_r; try done; lia.
Qed.

Lemma set_dirty_ok pages s q : mig_ok pages s -> 0 <= q < nbits (mig_bitmap s) ->
  exists s', migration_bitmap_set_dirty (4096 * q) s = Ok (bit (mig_bitmap s) q, s') /\ mig_ok pages s' /\
    mig_ram s' = mig_ram s /\
    forall p, 0 <= p -> bit (mig_bitmap s') p = bit (mig_bitmap s) p || ((q <=? p) && (p <? q + 1)).
Proof.
  intros [Hbm Hp Hint Hcnt Hram] Hq. unfold migration_bitmap_set_dirty, TARGET_PAGE_BITS.
  rewrite (Z.shiftr_div_pow2 (4096 * q) 12) by lia. change (2 ^ 12) with 4096.
  rewrite (Z.mul_comm 4096 q), Z.div_mul, swrap_small by (unfold in_s; change (2 ^ (32 - 1)) with (2 ^ 31); lia).
  destruct (set_bit_spec (mig_bitmap s) q Hbm Hq) as (bm' & E & Hbm' & Hl' & Hb'). unfold test_and_set_bit.
  rewrite (test_and_eq (mig_bitmap s) q (fun old => Z.lor old (BIT_MASK q)) Hbm Hq). fold (set_bit q (mig_bitmap s)).
  rewrite E. cbn [mbind outcome_bind]. eexists. split; [reflexivity|].
  assert (forall p, 0 <= p -> bit bm' p = bit (mig_bitmap s) p || ((q <=? p) && (p <? q + 1)) && true) as Hb.
  { intros p Hpp. rewrite Hb' by done. rewrite andb_true_r. destruct (Z.eqb_spec p q) as [->|Hne].
    - replace ((q <=? q) && (q <? q + 1)) with true by lia. by rewrite orb_true_r.
    - replace ((q <=? p) && (p <? q + 1)) with false by lia. by rewrite orb_false_r. }
  assert (nbits bm' = nbits (mig_bitmap s)) as Hn by (unfold nbits; by rewrite Hl').
  pose proof (cnt_bound (bit (mig_bitmap s)) (nbits (mig_bitmap s)) _ 0 eq_refl).
  split_and!; cbn [put_bitmap mig_bitmap mig_ram mig_dirty_pages]; [constructor|done|].
  all: cbn [put_bitmap mig_bitmap mig_ram mig_dirty_pages]; rewrite ?Hn; try done.
  - rewrite <- Hn. apply (count_after (mig_bitmap s) bm' (mig_dirty_pages s) _ q (q + 1) (fun _ => true)); try done; [lia..|].
    rewrite (cnt_step _ q (q + 1)) by lia. rewrite cnt_nil by lia. destruct (bit (mig_bitmap s) q); cbn; [lia|].
    rewrite wrap_small; lia.
  - intros p Hpp. by rewrite Hb, andb_true_r by done.
Qed.

(** One round of the page loop. *)
Lemma sync_page_ok pages q s : mig_ok pages s -> 0 <= q -> q + 1 <= pages ->
  exists s', (dirty ← cpu_physical_memory_get_dirty (4096 * q) TARGET_PAGE_SIZE MIG (mig_ram s);
              if (dirty : bool) then
                d ← cpu_physical_memory_reset_dirty (4096 * q) TARGET_PAGE_SIZE MIG (mig_ram s);
                '(_, s) ← migration_bitmap_set_dirty (4096 * q)
                            {| mig_bitmap := mig_bitmap s; mig_dirty_pages := mig_dirty_pages s; mig_ram := d |};
                Ok s
              else Ok s) = Ok s' /\ mig_ok pages s' /\ collects s s' q (q + 1).
Proof.
  intros Hs Hq Hn. pose proof Hs as [Hbm Hp Hint Hcnt Hram].
  assert (0 <= 4096 * q /\ 0 < TARGET_PAGE_SIZE /\ 4096 * q + TARGET_PAGE_SIZE + TARGET_PAGE_SIZE <= 2 ^ 64) as Hr
    by (unfold TARGET_PAGE_SIZE; lia).
  destruct (pages_of (4096 * q) TARGET_PAGE_SIZE) as [Hlo Hhi]; [lia..|].
  assert (first_page (4096 * q) = q /\ end_page (4096 * q) TARGET_PAGE_SIZE = q + 1) as [Elo Ehi].
  { rewrite Hlo, Hhi. unfold TARGET_PAGE_SIZE. Z.div_mod_to_equations. lia. }
  destruct (get_dirty_spec pages (4096 * q) TARGET_PAGE_SIZE (mig_ram s) Hram Hr ltac:(lia) MIG ltac:(done)) as (b & -> & Hb).
  cbn [mbind outcome_bind]. rewrite Elo, Ehi in Hb.
  assert (b = page_dirty (mig_ram s) MIG q) as ->.
  { apply eq_iff_eq_true. rewrite Hb. split; [intros (p & Hpq & Hd); by replace q with p by lia|]. intros. exists q. split; [lia|done]. }
  unfold cpu_physical_memory_reset_dirty. rewrite (proj2 (Z.eqb_neq TARGET_PAGE_SIZE 0)) by done.
  destruct (page_dirty (mig_ram s) MIG q) eqn:Ed.
  - destruct (clear_dirty_range_spec pages (4096 * q) TARGET_PAGE_SIZE (mig_ram s) Hram Hr ltac:(lia) MIG ltac:(done))
      as (d & -> & Hd & Hdp). rewrite Elo, Ehi in Hdp. cbn [mbind outcome_bind].
    destruct (set_dirty_ok pages {| mig_bitmap := mig_bitmap s; mig_dirty_pages := mig_dirty_pages s; mig_ram := d |} q)
      as (s1 & -> & Hs1 & Hr1 & Hb1); [by constructor|cbn; lia|]. cbn [mbind outcome_bind mig_bitmap mig_ram] in *.
    exists s1. split_and!; try done. split.
    + intros p Hpp. rewrite Hb1 by done. f_equal. destruct ((q <=? p) && (p <? q + 1)) eqn:E; [|done].
      by replace p with q by lia.
    + intros c p Hc Hpp. by rewrite Hr1, Hdp by done.
  - exists s. split_and!; try done. split.
    + intros p Hpp. destruct ((q <=? p) && (p <? q + 1)) eqn:E; [|by rewrite orb_false_r].
      replace p with q by lia. by rewrite Ed, orb_false_r.
    + intros c p Hc Hpp. destruct (Z.eqb_spec c MIG) as [->|], ((q <=? p) && (p <? q + 1)) eqn:E; try done.
      cbn. by replace p with q by lia.
Qed.

Lemma sync_pages_ok pages start : forall n addr q s, mig_ok pages s ->
  start + addr = 4096 * q -> 0 <= q -> q + Z.of_nat n <= pages ->
  exists s', sync_pages n start addr s = Ok s' /\ mig_ok pages s' /\ collects s s' q (q + Z.of_nat n).
Proof.
  induction n as [|n IH]; intros addr q s Hs Ha Hq Hn; cbn [sync_pages].
  { exists s. split_and!; try done. change (Z.of_nat 0) with 0. rewrite Z.add_0_r. split; intros.
    - replace ((q <=? p) && (p <? q)) with false by lia. by rewrite orb_false_r.
    - replace ((q <=? p) && (p <? q)) with false by lia. by rewrite andb_false_r. }
  rewrite Ha. destruct (sync_page_ok pages q s Hs) as (s1 & E1 & Hs1 & Hc1); [lia..|].
  destruct (cpu_physical_memory_get_dirty _ _ _ _) as [dirty| |]; [|done..]. cbn [mbind outcome_bind] in *.
  rewrite E1. cbn [mbind outcome_bind].
  destruct (IH (addr + TARGET_PAGE_SIZE) (q + 1) s1) as (s' & -> & Hs' & Hc');
    [done|unfold TARGET_PAGE_SIZE; lia|lia|lia|].
  exists s'. split_and!; try done. apply (collects_trans s s1 s' q (q + 1)); [lia|done|].
  by replace (q + Z.of_nat (S n)) with (q + 1 + Z.of_nat n) by lia.
Qed.

Lemma sync_range_ok pages b s : mig_ok pages s -> block_ok b -> rb_end b <= 4096 * pages ->
  exists s' hi, migration_bitmap_sync_range (rb_offset b) (rb_length b) s = Ok s' /\ mig_ok pages s' /\
    rb_end b / 4096 <= hi /\ collects s s' (rb_offset b / 4096) hi.
Proof.
  intros Hs (Ho & Hl & Hov & Hmo & Hml) Hend. pose proof Hs as [Hbm Hp Hint Hcnt Hram]. unfold rb_end in *.
  unfold TARGET_PAGE_SIZE in *. set (q := rb_offset b / 4096). set (m := rb_length b / 4096).
  assert (rb_offset b = 4096 * q) as Eo by (subst q; Z.div_mod_to_equations; lia).
  assert (rb_length b = 4096 * m) as El by (subst m; Z.div_mod_to_equations; lia).
  assert (rb_end b / 4096 = q + m) as Ee.
  { unfold rb_end. rewrite Eo, El, <- Z.mul_add_distr_l, Z.mul_comm. apply Z.div_mul. lia. }
  unfold rb_end in Ee. rewrite Ee.
  unfold migration_bitmap_sync_range, BIT_WORD, BITS_PER_LONG, TARGET_PAGE_BITS.
  rewrite !(Z.shiftr_div_pow2 _ 12), (Z.shiftl_mul_pow2 _ 12) by lia. change (2 ^ 12) with 4096. fold q m.
  pose proof (Z.div_mod q 64 ltac:(lia)) as Hq. pose proof (Z.mod_pos_bound q 64 ltac:(lia)).
  rewrite wrap_small by lia. destruct (Z.eqb_spec (q / 64 * 64 * 4096) (rb_offset b)) as [Eq|_].
  - destruct (bits_to_longs m) as [Hb1 Hb2]; [lia|]. unfold nbits in *.
    rewrite swrap_small by (unfold in_s; change (2 ^ (32 - 1)) with (2 ^ 31); lia).
    destruct (dirty_lookup pages (mig_ram s) MIG Hram) as (src & Hsrc & Hok & Hpg); [done|]. rewrite Hsrc.
    set (k := q / 64) in *. set (nr := BITS_TO_LONGS m) in *. unfold nbits in *.
    destruct (sync_words_ok (Z.to_nat nr) k src s) as (src' & s' & -> & F & Hbm' & Hlb & Hr' & Hc' & Hb'); try done; try lia.
    cbn [mbind outcome_bind]. rewrite Z2Nat.id in * by lia. replace (64 * k) with q in * by lia.
    destruct (client_filled pages (mig_ram s) MIG src src' q (64 * (k + nr)) false) as [Hd Hdp]; try done.
    eexists _, (64 * (k + nr)). split; [reflexivity|]. rewrite Hr'. split_and!; [constructor|lia|split];
      cbn [mig_bitmap mig_ram mig_dirty_pages]; unfold nbits; rewrite ?Hlb; try done.
    + by rewrite <- Hlb.
    + intros p Hpp. unfold page_dirty. by rewrite Hb', Hsrc by done.
  - assert ((rb_length b + TARGET_PAGE_SIZE - 1) / TARGET_PAGE_SIZE = m) as ->
      by (unfold TARGET_PAGE_SIZE; Z.div_mod_to_equations; lia).
    destruct (sync_pages_ok pages (rb_offset b) (Z.to_nat m) 0 q s) as (s' & -> & Hs' & Hc); [done|lia|lia|lia|].
    rewrite Z2Nat.id in Hc by lia. exists s', (q + m). split_and!; [done|done|lia|done].
Qed.

(** Pages of a block. *)
Definition in_pages (b : RAMBlock) (p : Z) : Prop := rb_offset b / 4096 <= p < rb_end b / 4096.

Lemma sync_collects pages blocks s : mig_ok pages s ->
  Forall (fun b => block_ok b /\ rb_end b <= 4096 * pages) blocks ->
  exists s', migration_bitmap_sync blocks s = Ok s' /\ mig_ok pages s' /\
    (forall p, 0 <= p -> bit (mig_bitmap s') p || page_dirty (mig_ram s') MIG p =
                         bit (mig_bitmap s) p || page_dirty (mig_ram s) MIG p) /\
    (forall p, 0 <= p -> bit (mig_bitmap s) p = true -> bit (mig_bitmap s') p = true) /\
    (forall b p, b ∈ blocks -> 0 <= p -> in_pages b p -> page_dirty (mig_ram s') MIG p = false) /\
    (forall c p, 0 <= c < 6 -> c <> MIG -> 0 <= p -> page_dirty (mig_ram s') c p = page_dirty (mig_ram s) c p).
Proof.
  intros Hs Hb. unfold migration_bitmap_sync.
  apply (ofold_inv _ (fun dn s' => mig_ok pages s' /\
    (forall p, 0 <= p -> bit (mig_bitmap s') p || page_dirty (mig_ram s') MIG p =
                         bit (mig_bitmap s) p || page_dirty (mig_ram s) MIG p) /\
    (forall p, 0 <= p -> bit (mig_bitmap s) p = true -> bit (mig_bitmap s') p = true) /\
    (forall b p, b ∈ dn -> 0 <= p -> in_pages b p -> page_dirty (mig_ram s') MIG p = false) /\
    (forall c p, 0 <= c < 6 -> c <> MIG -> 0 <= p -> page_dirty (mig_ram s') c p = page_dirty (mig_ram s) c p))).
  { split_and!; try done. intros b p Hin. by apply elem_of_nil in Hin. }
  intros dn b s1 Hin (Hs1 & Hor & Hmono & Hdone & Hother).
  destruct (proj1 (Forall_forall _ _) Hb b Hin) as [Hbo Hend].
  destruct (sync_range_ok pages b s1 Hs1 Hbo Hend) as (s2 & hi & -> & Hs2 & Hhi & Hbits & Hram).
  assert (forall p, 0 <= p -> page_dirty (mig_ram s2) MIG p =
            if (rb_offset b / 4096 <=? p) && (p <? hi) then false else page_dirty (mig_ram s1) MIG p) as Hm.
  { intros p Hp. by rewrite Hram by done. }
  exists s2. split_and!; try done.
  - intros p Hp. rewrite <- Hor, Hbits, Hm by done.
    by destruct ((rb_offset b / 4096 <=? p) && (p <? hi)), (bit (mig_bitmap s1) p), (page_dirty (mig_ram s1) MIG p).
  - intros p Hp Ht. by rewrite Hbits, Hmono by done.
  - intros b' p Hb' Hp Hpp. rewrite Hm by done. apply elem_of_app in Hb' as [Hb'|Hb'%list_elem_of_singleton].
    + rewrite (Hdone b') by done. by destruct ((rb_offset b / 4096 <=? p) && (p <? hi)).
    + subst b'. unfold in_pages in Hpp. by replace ((rb_offset b / 4096 <=? p) && (p <? hi)) with true by lia.
  - intros c p Hc Hne Hp. rewrite Hram by done. by rewrite (proj2 (Z.eqb_neq c MIG)), Hother by done.
Qed.

(** A synchronisation loses no dirty page: a page is either
    still marked in the dirty bitmap or in the migration bitmap after it
    exactly when it was before; every page of every block is handed over and
    reset, the bits already in the migration bitmap stay, the dirty bitmaps
    of the other clients are untouched, and [migration_dirty_pages] is again
    the number of set bits.  Both the word loop and the page loop do so. *)
Theorem migration_sync_collects pages blocks s : mig_ok pages s ->
  Forall (fun b => block_ok b /\ rb_end b <= 4096 * pages) blocks ->
  exists s', migration_bitmap_sync blocks s = Ok s' /\ mig_ok pages s' /\
    (forall p, 0 <= p -> bit (mig_bitmap s') p || page_dirty (mig_ram s') MIG p =
                         bit (mig_bitmap s) p || page_dirty (mig_ram s) MIG p) /\
    (forall p, 0 <= p -> bit (mig_bitmap s) p = true -> bit (mig_bitmap s') p = true) /\
    (forall b p, b ∈ blocks -> 0 <= p -> in_pages b p -> page_dirty (mig_ram s') MIG p = false) /\
    (forall c p, 0 <= c < 6 -> c <> MIG -> 0 <= p -> page_dirty (mig_ram s') c p = page_dirty (mig_ram s) c p).
Proof. apply sync_collects. Qed.

(** Two blocks, the second not on a word boundary of the bitmap; page 1 of
    the first and page 66 of the second are dirty, and page 1 was already
    waiting. *)
Definition block1 : RAMBlock :=
  {| rb_mr := 0; rb_host := 0x100000; rb_offset := 0; rb_length := 0x41000; rb_prealloc := false; rb_fd := -1 |}.
Definition block2 : RAMBlock :=
  {| rb_mr := 1; rb_host := 0x200000; rb_offset := 0x41000; rb_length := 0x3000; rb_prealloc := false; rb_fd := -1 |}.
Definition two_dirty : MigState :=
  {| mig_bitmap := [2; 0]; mig_dirty_pages := 1; mig_ram := replicate 6 [2; 4] |}.

(** both loops run. *)
Lemma migration_sync_collects_witness : exists s', migration_bitmap_sync [block1; block2] two_dirty = Ok s' /\
  mig_ok 68 s' /\ bit (mig_bitmap s') 66 = true /\ page_dirty (mig_ram s') MIG 66 = false.
Proof.
  destruct (migration_sync_collects 68 [block1; block2] two_dirty) as (s' & E & Hs & Hor & _ & Hd & _).
  - constructor; cbn [mig_bitmap mig_dirty_pages mig_ram two_dirty].
    + by apply words_ok_check.
    + split; vm_compute; discriminate.
    + vm_compute; reflexivity.
    + vm_compute; reflexivity.
    + split; [done|]. repeat (apply Forall_cons; split; [split; [by apply words_ok_check|vm_compute; discriminate]|]). constructor.
  - repeat constructor; vm_compute; discriminate || reflexivity.
  - exists s'. split_and!; [done|done| |].
    + specialize (Hor 66 ltac:(lia)).
      rewrite (Hd block2 66), orb_false_r in Hor; [rewrite Hor; reflexivity| |lia|vm_compute; split; congruence].
      set_solver.
    + apply (Hd block2 66); [|lia|vm_compute; split; congruence].
      set_solver.
Defined.
