(* ===== verification/RamSave.v ===== *)
(** * The RAM section of the migration stream (arch_init.c, qemu-file.c)

    The sender picks dirty pages in a round over the RAM blocks, encodes each
    as a record of the stream and remembers the block it sent last; the
    receiver parses the records and resolves their block from the name or the
    previous record.  A stream is the list of its bytes.  The theorems say
    that a record parses back, that a call of [ram_save_block] keeps sender
    and receiver in step, in the bulk stage and after it, and that a migration
    from its set-up to its completion makes the receiver's RAM equal to the
    sender's. *)
From S2P Require Import Prelude HostUtils Bitops Bitmap RamList HBitmap Xbzrle PageCache Migration.
Local Open Scope Z_scope.

(** ** Writing and reading a stream (qemu-file.c) *)
Definition qemu_put_byte (v : Z) : list Z := [u8 v].
Definition qemu_put_be16 (v : Z) : list Z := qemu_put_byte (Z.shiftr v 8) ++ qemu_put_byte v.
Definition qemu_put_be32 (v : Z) : list Z :=
  qemu_put_byte (Z.shiftr v 24) ++ qemu_put_byte (Z.shiftr v 16) ++ qemu_put_byte (Z.shiftr v 8) ++ qemu_put_byte v.
Definition qemu_put_be64 (v : Z) : list Z := qemu_put_be32 (Z.shiftr v 32) ++ qemu_put_be32 v.

Definition EIO : Z := 5.
Definition EINVAL : Z := 22.

(** [last_error] is zero or the first error, a negative number. *)
Record InFile := {
  in_bytes : list Z;
  last_error : Z
}.

Definition qemu_file_set_error (f : InFile) (ret : Z) : InFile :=
  {| in_bytes := in_bytes f; last_error := if last_error f =? 0 then ret else last_error f |}.

(** At the end of the stream [qemu_fill_buffer] records an I/O error. *)
Definition qemu_get_byte (f : InFile) : Z * InFile :=
  match in_bytes f with
  | [] => (0, qemu_file_set_error f (- EIO))
  | b :: rest => (b, {| in_bytes := rest; last_error := last_error f |})
  end.

Definition qemu_get_buffer (f : InFile) (size : Z) : list Z * InFile :=
  let got := take (Z.to_nat size) (in_bytes f) in
  let f' := {| in_bytes := drop (Z.to_nat size) (in_bytes f); last_error := last_error f |} in
  (got, if Z.of_nat (length got) <? size then qemu_file_set_error f' (- EIO) else f').

Definition qemu_get_be16 (f : InFile) : Z * InFile :=
  let '(b1, f) := qemu_get_byte f in
  let '(b0, f) := qemu_get_byte f in
  (Z.lor (Z.shiftl b1 8) b0, f).
Definition qemu_get_be32 (f : InFile) : Z * InFile :=
  let '(b3, f) := qemu_get_byte f in
  let '(b2, f) := qemu_get_byte f in
  let '(b1, f) := qemu_get_byte f in
  let '(b0, f) := qemu_get_byte f in
  (Z.lor (Z.lor (Z.lor (Z.shiftl b3 24) (Z.shiftl b2 16)) (Z.shiftl b1 8)) b0, f).
Definition qemu_get_be64 (f : InFile) : Z * InFile :=
  let '(hi, f) := qemu_get_be32 f in
  let '(lo, f) := qemu_get_be32 f in
  (Z.lor (Z.shiftl hi 32) lo, f).

(** ** Blocks by name *)
Definition RAM_SAVE_FLAG_COMPRESS : Z := 0x02.
Definition RAM_SAVE_FLAG_MEM_SIZE : Z := 0x04.
Definition RAM_SAVE_FLAG_PAGE : Z := 0x08.
Definition RAM_SAVE_FLAG_EOS : Z := 0x10.
Definition RAM_SAVE_FLAG_CONTINUE : Z := 0x20.
Definition RAM_SAVE_FLAG_XBZRLE : Z := 0x40.
Definition RAM_SAVE_FLAG_HOOK : Z := 0x80.

(** A block with its [idstr]. *)
Record NamedBlock := {
  nb_id : list Z;
  nb_block : RAMBlock
}.

(** The C string in a buffer. *)
Fixpoint c_str (l : list Z) : list Z :=
  match l with
  | [] => []
  | c :: l => if c =? 0 then [] else c :: c_str l
  end.

Fixpoint find_id (id : list Z) (k : nat) (blocks : list NamedBlock) : option nat :=
  match blocks with
  | [] => None
  | b :: blocks => if decide (c_str id = c_str (nb_id b)) then Some k else find_id id (S k) blocks
  end.

(** ** The sender *)
Definition hdr_size (b : NamedBlock) (cont : bool) : Z :=
  8 + (if cont then 0 else 1 + Z.of_nat (length (nb_id b))).

Definition save_block_hdr (b : NamedBlock) (offset : Z) (cont : bool) (flag : Z) : list Z :=
  qemu_put_be64 (Z.lor (Z.lor offset (if cont then RAM_SAVE_FLAG_CONTINUE else 0)) flag) ++
  (if cont then [] else qemu_put_byte (Z.of_nat (length (nb_id b))) ++ nb_id b).

Definition record_bytes (b : NamedBlock) (offset : Z) (cont : bool) (msg : PageMsg) : list Z :=
  match msg with
  | MsgCompress ch => save_block_hdr b offset cont RAM_SAVE_FLAG_COMPRESS ++ qemu_put_byte ch
  | MsgPage data => save_block_hdr b offset cont RAM_SAVE_FLAG_PAGE ++ data
  | MsgXbzrle flags len data =>
      save_block_hdr b offset cont RAM_SAVE_FLAG_XBZRLE ++
      qemu_put_byte flags ++ qemu_put_be16 len ++ data
  end.

(** The globals of the sender; a [RAMBlock *] is an index of the list. *)
Record SaveState := {
  sv_mig : MigState;
  sv_cache : PageCache;
  ram_bulk_stage : bool;
  last_seen_block : option nat;
  last_offset : Z;
  last_sent_block : option nat
}.

Definition with_mig (m : MigState) (st : SaveState) : SaveState :=
  {| sv_mig := m; sv_cache := sv_cache st; ram_bulk_stage := ram_bulk_stage st;
     last_seen_block := last_seen_block st; last_offset := last_offset st; last_sent_block := last_sent_block st |}.
Definition with_cache (c : PageCache) (st : SaveState) : SaveState :=
  {| sv_mig := sv_mig st; sv_cache := c; ram_bulk_stage := ram_bulk_stage st;
     last_seen_block := last_seen_block st; last_offset := last_offset st; last_sent_block := last_sent_block st |}.
Definition end_bulk (st : SaveState) : SaveState :=
  {| sv_mig := sv_mig st; sv_cache := sv_cache st; ram_bulk_stage := false;
     last_seen_block := last_seen_block st; last_offset := last_offset st; last_sent_block := last_sent_block st |}.
Definition now_at (block : nat) (offset : Z) (sent : option nat) (st : SaveState) : SaveState :=
  {| sv_mig := sv_mig st; sv_cache := sv_cache st; ram_bulk_stage := ram_bulk_stage st;
     last_seen_block := Some block; last_offset := offset; last_sent_block := sent |}.

Section Sender.
(** The blocks, whether the cache can allocate, [migrate_use_xbzrle], and the
    guest's RAM, a page per page-aligned address. *)
Context (blocks : list NamedBlock) (mem use_xbzrle : bool) (ram : Z -> list Z).

(** The loop of [ram_save_block]: [bytes_sent], the bytes written and the
    globals. *)
Fixpoint save_block_loop (last_stage : bool) (fuel : nat) (block : nat) (offset : Z) (complete_round : bool)
    (st : SaveState) : outcome (Z * list Z * SaveState) :=
  match fuel with
  | O => NoFuel
  | S fuel =>
      match blocks !! block with
      | None => Abort
      | Some b =>
          let start := rb_offset (nb_block b) in
          let length_ := rb_length (nb_block b) in
          '(offset, mig) ← migration_bitmap_find_and_reset_dirty (ram_bulk_stage st) start length_ offset (sv_mig st);
          let st := with_mig mig st in
          if complete_round && bool_decide (last_seen_block st = Some block) && (last_offset st <=? offset)
          then Ok (0, [], now_at block offset (last_sent_block st) st)
          else if length_ <=? offset then
            if decide (S block < length blocks)%nat then save_block_loop last_stage fuel (S block) 0 complete_round st
            else save_block_loop last_stage fuel 0 0 true (end_bulk st)
          else
            let cont := bool_decide (last_sent_block st = Some block) in
            let current_addr := u64 (start + offset) in
            '(bytes_sent, msg, cache) ←
              ram_save_page mem (ram_bulk_stage st) use_xbzrle last_stage (sv_cache st) (ram current_addr)
                current_addr (hdr_size b cont);
            let st := with_cache cache st in
            if 0 <? bytes_sent then
              Ok (bytes_sent, match msg with Some m => record_bytes b offset cont m | None => [] end,
                  now_at block offset (Some block) st)
            else save_block_loop last_stage fuel block offset complete_round st
      end
  end.

(** Every step of the loop takes a dirty page or goes to the next block, at
    most two rounds. *)
Definition save_fuel (st : SaveState) : nat := Z.to_nat (mig_dirty_pages (sv_mig st)) + 2 * length blocks + 2.

Definition ram_save_block (last_stage : bool) (st : SaveState) : outcome (Z * list Z * SaveState) :=
  save_block_loop last_stage (save_fuel st) (default 0%nat (last_seen_block st)) (last_offset st) false st.

(** [ram_save_complete]; the pages still to be sent bound the loop. *)
Fixpoint save_all (fuel : nat) (st : SaveState) : outcome (list Z * SaveState) :=
  match fuel with
  | O => NoFuel
  | S fuel =>
      '(bytes_sent, out, st) ← ram_save_block true st;
      if bytes_sent =? 0 then Ok (out, st)
      else '(rest, st) ← save_all fuel st; Ok (out ++ rest, st)
  end.

Definition ram_save_complete (st : SaveState) : outcome (list Z * SaveState) :=
  mig ← migration_bitmap_sync (nb_block <$> blocks) (sv_mig st);
  '(out, st) ← save_all (S (Z.to_nat (mig_dirty_pages mig))) (with_mig mig st);
  Ok (out ++ qemu_put_be64 RAM_SAVE_FLAG_EOS, st).

(** [ram_save_setup]: the block list and the globals it leaves, [None] when it
    returns an error because the cache or a buffer cannot be allocated.  The
    statistics, the throttle and the start of the listeners' dirty logs are left
    out. *)
Definition ram_bytes_total : Z := foldl (fun total b => u64 (total + rb_length (nb_block b))) 0 blocks.

Definition size_entry (b : NamedBlock) : list Z :=
  qemu_put_byte (Z.of_nat (length (nb_id b))) ++ nb_id b ++ qemu_put_be64 (rb_length (nb_block b)).

Definition ram_save_setup (cache_size : Z) (rs : RamState) (st : SaveState) : outcome (option (list Z * SaveState)) :=
  mig ← ram_save_setup_bitmap rs;
  cache ← (if use_xbzrle then cache_init mem (cache_size / TARGET_PAGE_SIZE) TARGET_PAGE_SIZE else Ok (Some (sv_cache st)));
  match cache with
  | None => Ok None
  | Some cache =>
      mig ← migration_bitmap_sync (nb_block <$> blocks) mig;
      Ok (Some (qemu_put_be64 (Z.lor ram_bytes_total RAM_SAVE_FLAG_MEM_SIZE) ++ concat (map size_entry blocks) ++ qemu_put_be64 RAM_SAVE_FLAG_EOS,
                {| sv_mig := mig; sv_cache := cache; ram_bulk_stage := true; last_seen_block := None; last_offset := 0; last_sent_block := None |}))
  end.
End Sender.

(** ** The receiver *)
(** The static [block] of [host_from_stream_offset], the RAM by page, the buffer
    [xbzrle_decoded_buf] and what the automatic arrays [id] hold before they are
    refilled. *)
Record LoadState := {
  ld_block : option nat;
  ld_mem : Z -> list Z;
  xbzrle_decoded_buf : list Z;
  stale_id : list Z
}.

Definition with_block (b : option nat) (ld : LoadState) : LoadState :=
  {| ld_block := b; ld_mem := ld_mem ld; xbzrle_decoded_buf := xbzrle_decoded_buf ld; stale_id := stale_id ld |}.
Definition with_page (a : Z) (page : list Z) (ld : LoadState) : LoadState :=
  {| ld_block := ld_block ld; ld_mem := put (ld_mem ld) a page; xbzrle_decoded_buf := xbzrle_decoded_buf ld; stale_id := stale_id ld |}.
Definition with_decoded (buf : list Z) (ld : LoadState) : LoadState :=
  {| ld_block := ld_block ld; ld_mem := ld_mem ld; xbzrle_decoded_buf := buf; stale_id := stale_id ld |}.

(** A buffer after [qemu_get_buffer] got [got]: the rest keeps its earlier bytes. *)
Definition refilled (got buf : list Z) : list Z := got ++ drop (length got) buf.

Definition has_flag (flags flag : Z) : bool := negb (Z.land flags flag =? 0).

Section Receiver.
Context (blocks : list NamedBlock).

(** The block of the record, [None] for a null pointer. *)
Definition host_from_stream_offset (flags : Z) (f : InFile) (ld : LoadState) : outcome (option nat * InFile * LoadState) :=
  if has_flag flags RAM_SAVE_FLAG_CONTINUE then Ok (ld_block ld, f, ld)
  else
    let '(len, f) := qemu_get_byte f in
    let '(got, f) := qemu_get_buffer f len in
    let b := find_id (take (Z.to_nat len) (refilled got (stale_id ld))) 0 blocks in
    Ok (b, f, with_block b ld).

(** Updating the page at [addr] of block [k]: nothing keeps the stream from
    naming an address outside of the block. *)
Definition on_host (k : nat) (addr : Z) (g : list Z -> outcome (Z * list Z)) (ld : LoadState) : outcome (Z * LoadState) :=
  match blocks !! k with
  | None => Abort
  | Some b =>
      if addr + TARGET_PAGE_SIZE <=? rb_length (nb_block b) then
        let a := rb_offset (nb_block b) + addr in
        '(ret, page) ← g (ld_mem ld a);
        Ok (ret, with_page a page ld)
      else Abort
  end.

(** The reads of [load_xbzrle]: the header and the data, and the buffer. *)
Definition read_xbzrle (f : InFile) (buf : list Z) : Z * Z * list Z * InFile :=
  let '(xh_flags, f) := qemu_get_byte f in
  let '(xh_len, f) := qemu_get_be16 f in
  if negb (xh_flags =? ENCODING_FLAG_XBZRLE) || (TARGET_PAGE_SIZE <? xh_len) then (xh_flags, xh_len, buf, f)
  else
    let '(got, f) := qemu_get_buffer f xh_len in
    (xh_flags, xh_len, refilled got buf, f).

(** The names and lengths of all blocks: [None] when they match, otherwise
    the error.  The array [id] keeps its bytes from name to name. *)
Fixpoint load_sizes (fuel : nat) (total_ram_bytes : Z) (id : list Z) (f : InFile) : outcome (option Z * InFile) :=
  match fuel with
  | O => NoFuel
  | S fuel =>
      if total_ram_bytes =? 0 then Ok (None, f)
      else
        let '(len, f) := qemu_get_byte f in
        let '(got, f) := qemu_get_buffer f len in
        let id := <[Z.to_nat len := 0]> (refilled got id) in
        let '(length_, f) := qemu_get_be64 f in
        match find_id (take (Z.to_nat len) id) 0 blocks with
        | None => Ok (Some (- EINVAL), f)
        | Some k =>
            match blocks !! k with
            | None => Abort
            | Some b =>
                if rb_length (nb_block b) =? length_ then load_sizes fuel (u64 (total_ram_bytes - length_)) id f
                else Ok (Some (- EINVAL), f)
            end
        end
  end.

(** A page record after its block has been resolved, and the record types
    other than the block list; [Some] is a return value. *)
Definition load_body (flags : Z) (k : nat) (addr : Z) (f : InFile) (ld : LoadState) : outcome (option Z * InFile * LoadState) :=
  if has_flag flags RAM_SAVE_FLAG_COMPRESS then
    let '(ch, f) := qemu_get_byte f in
    '(_, ld) ← on_host k addr (fun page => page ← ram_handle_compressed page ch TARGET_PAGE_SIZE; Ok (0, page)) ld;
    Ok (None, f, ld)
  else if has_flag flags RAM_SAVE_FLAG_PAGE then
    let '(got, f) := qemu_get_buffer f TARGET_PAGE_SIZE in
    '(_, ld) ← on_host k addr (fun page => Ok (0, refilled got page)) ld;
    Ok (None, f, ld)
  else
    let '(xh_flags, xh_len, buf, f) := read_xbzrle f (xbzrle_decoded_buf ld) in
    '(ret, ld) ← on_host k addr (load_xbzrle xh_flags xh_len (take (Z.to_nat xh_len) buf)) (with_decoded buf ld);
    Ok (if ret <? 0 then Some (- EINVAL) else None, f, ld).

Definition load_page (flags addr : Z) (f : InFile) (ld : LoadState) : outcome (option Z * InFile * LoadState) :=
  if has_flag flags RAM_SAVE_FLAG_COMPRESS || has_flag flags RAM_SAVE_FLAG_PAGE || has_flag flags RAM_SAVE_FLAG_XBZRLE then
    '(host, f, ld) ← host_from_stream_offset flags f ld;
    match host with
    | None => Ok (Some (- EINVAL), f, ld)
    | Some k => load_body flags k addr f ld
    end
  else if has_flag flags RAM_SAVE_FLAG_HOOK then
    (* a plain stream has no [hook_ram_load] *)
    Ok (None, qemu_file_set_error f (- EINVAL), ld)
  else Ok (None, f, ld).

(** One round of the loop: [Some ret] when [ram_load] returns. *)
Definition ram_load_iter (f : InFile) (ld : LoadState) : outcome (option Z * InFile * LoadState) :=
  let '(addr, f) := qemu_get_be64 f in
  let flags := Z.land addr (TARGET_PAGE_SIZE - 1) in
  let addr := Z.land addr (not64 (TARGET_PAGE_SIZE - 1)) in
  '(ret, f) ← (if has_flag flags RAM_SAVE_FLAG_MEM_SIZE then load_sizes (S (length (in_bytes f))) addr (stale_id ld) f else Ok (None, f));
  match ret with
  | Some ret => Ok (Some ret, f, ld)
  | None =>
      '(ret, f, ld) ← load_page flags addr f ld;
      match ret with
      | Some ret => Ok (Some ret, f, ld)
      | None =>
          if negb (last_error f =? 0) then Ok (Some (last_error f), f, ld)
          else Ok (if has_flag flags RAM_SAVE_FLAG_EOS then Some 0 else None, f, ld)
      end
  end.

(** Every round consumes at least the eight bytes of a header or ends. *)
Fixpoint ram_load_loop (fuel : nat) (f : InFile) (ld : LoadState) : outcome (Z * InFile * LoadState) :=
  match fuel with
  | O => NoFuel
  | S fuel =>
      '(ret, f, ld) ← ram_load_iter f ld;
      match ret with
      | Some ret => Ok (ret, f, ld)
      | None => ram_load_loop fuel f ld
      end
  end.

Definition ram_load (version_id : Z) (f : InFile) (ld : LoadState) : outcome (Z * InFile * LoadState) :=
  if negb (version_id =? 4) then Ok (- EINVAL, f, ld)
  else ram_load_loop (S (length (in_bytes f))) f ld.
End Receiver.

(** ** Numbers through the stream *)
Abbreviation stream bs e := {| in_bytes := bs; last_error := e |}.

Lemma join_bits w s v : 0 <= w -> 0 <= s ->
  Z.lor (Z.shiftl (wrap w (Z.shiftr v s)) s) (wrap s v) = wrap (w + s) v.
Proof.
  intros Hw Hs. apply Z.bits_inj'. intros i Hi.
  rewrite Z.lor_spec, Z.shiftl_spec, (wrap_bit s), (wrap_bit (w + s)) by lia.
  destruct (Z.ltb_spec i s); cbn [andb].
  - rewrite Z.testbit_neg_r by lia. by replace (i <? w + s) with true by lia.
  - rewrite orb_false_r, wrap_bit, Z.shiftr_spec by lia. replace (i - s + s) with i by lia.
    by destruct (Z.ltb_spec (i - s) w), (Z.ltb_spec i (w + s)); try lia.
Qed.

Lemma get_put_be16 v rest e : qemu_get_be16 (stream (qemu_put_be16 v ++ rest) e) = (u16 v, stream rest e).
Proof. unfold qemu_get_be16, qemu_put_be16, qemu_put_byte. cbn. by rewrite (join_bits 8 8). Qed.

Lemma get_put_be32 v rest e : qemu_get_be32 (stream (qemu_put_be32 v ++ rest) e) = (u32 v, stream rest e).
Proof.
  unfold qemu_get_be32, qemu_put_be32, qemu_put_byte. cbn [app in_bytes last_error qemu_get_byte]. f_equal.
  transitivity (Z.lor (Z.shiftl (Z.lor (Z.shiftl (Z.lor (Z.shiftl (u8 (Z.shiftr (Z.shiftr v 16) 8)) 8)
    (u8 (Z.shiftr v 16))) 8) (u8 (Z.shiftr v 8))) 8) (u8 v)).
  - by rewrite !Z.shiftl_lor, !Z.shiftl_shiftl, !Z.shiftr_shiftr by lia.
  - rewrite (join_bits 8 8 (Z.shiftr v 16)) by lia. change (Z.shiftr v 16) with (Z.shiftr v (8 + 8)).
    rewrite <- (Z.shiftr_shiftr v 8 8) by lia. rewrite (join_bits (8 + 8) 8 (Z.shiftr v 8)) by lia.
    by rewrite (join_bits (8 + 8 + 8) 8 v).
Qed.

Lemma get_put_be64 v rest e : in_u 64 v -> qemu_get_be64 (stream (qemu_put_be64 v ++ rest) e) = (v, stream rest e).
Proof.
  intros Hv. unfold qemu_get_be64, qemu_put_be64. rewrite <- app_assoc, get_put_be32, get_put_be32.
  rewrite (join_bits 32 32 v) by lia. by rewrite wrap_small.
Qed.

Lemma get_buffer_app bs rest e : qemu_get_buffer (stream (bs ++ rest) e) (Z.of_nat (length bs)) = (bs, stream rest e).
Proof.
  unfold qemu_get_buffer. cbn [in_bytes last_error]. rewrite Nat2Z.id, take_app_length, drop_app_length.
  by rewrite Z.ltb_irrefl.
Qed.

(** Page-aligned addresses and the flags in their low bits. *)
Lemma header_split q x : 0 <= q -> 4096 * q < 2 ^ 64 -> 0 <= x < 4096 ->
  let v := Z.lor (4096 * q) x in
  in_u 64 v /\ Z.land v (TARGET_PAGE_SIZE - 1) = x /\ Z.land v (not64 (TARGET_PAGE_SIZE - 1)) = 4096 * q.
Proof.
  intros Hq Hb Hx v. assert (v = q * 2 ^ 12 + x) as Ev.
  { subst v. rewrite Z.mul_comm. apply (lor_mul_add x q 12); lia. }
  assert (q < 2 ^ 52) by lia.
  assert (in_u 64 v) as Hv by (rewrite Ev; split; lia).
  change (TARGET_PAGE_SIZE - 1) with (Z.ones 12). split_and!; [done|..].
  - rewrite Z.land_ones, Ev by lia. rewrite Z.add_comm, Z.mod_add by lia. apply Z.mod_small. lia.
  - apply Z.bits_inj'. intros i Hi. rewrite Z.land_spec, not64_bit by done. change 4096 with (2 ^ 12).
    rewrite (Z.mul_comm (2 ^ 12)). subst v. rewrite Z.lor_spec. change 4096 with (2 ^ 12). rewrite (Z.mul_comm (2 ^ 12)).
    destruct (Z.lt_ge_cases i 12).
    + rewrite Z.ones_spec_low, Z.mul_pow2_bits_low by lia. by rewrite andb_false_r, andb_false_r.
    + rewrite Z.ones_spec_high by lia. cbn [negb]. rewrite (testbit_high x 12), orb_false_r, andb_true_r by lia.
      destruct (Z.ltb_spec i 64); [by rewrite andb_true_r|]. rewrite andb_false_r. symmetry. apply (testbit_high _ 64); lia.
Qed.

(** ** Names *)
Definition id_ok (id : list Z) : Prop := Z.of_nat (length id) < 256 /\ Forall (fun c => 0 < c < 256) id.

Definition names_ok (blocks : list NamedBlock) : Prop :=
  Forall (fun b => id_ok (nb_id b)) blocks /\ NoDup (nb_id <$> blocks).

Lemma c_str_id id : Forall (fun c => 0 < c < 256) id -> c_str id = id.
Proof.
  induction 1 as [|c id Hc _ IH]; [done|]. cbn. by rewrite (proj2 (Z.eqb_neq c 0)), IH by lia.
Qed.

Lemma find_id_self blocks b : names_ok blocks -> forall k j, blocks !! j = Some b ->
  find_id (nb_id b) k blocks = Some (k + j)%nat.
Proof.
  intros [Hid Hnd]. induction blocks as [|b' blocks IH]; intros k j Hj; [done|].
  apply Forall_cons in Hid as [[_ Hid'] Hid]. rewrite fmap_cons in Hnd. apply NoDup_cons in Hnd as [Hnin Hnd].
  cbn [find_id]. destruct j as [|j]; cbn in Hj.
  - injection Hj as ->. rewrite decide_True by done. by rewrite Nat.add_0_r.
  - destruct (proj1 (Forall_lookup _ _) Hid j b Hj) as [_ Hb]. rewrite decide_False.
    + rewrite (IH Hid Hnd (S k) j Hj). f_equal. lia.
    + rewrite !c_str_id by done. intros E. apply Hnin. rewrite <- E. apply list_elem_of_fmap. exists b. split; [done|].
      by apply list_elem_of_lookup_2 in Hj.
Qed.

(** ** A record parses back *)
Lemma flag_tests x cont : x ∈ [RAM_SAVE_FLAG_COMPRESS; RAM_SAVE_FLAG_PAGE; RAM_SAVE_FLAG_XBZRLE] ->
  let flags := Z.lor (if cont : bool then RAM_SAVE_FLAG_CONTINUE else 0) x in
  0 <= flags < 4096 /\ has_flag flags RAM_SAVE_FLAG_CONTINUE = cont /\ has_flag flags RAM_SAVE_FLAG_MEM_SIZE = false /\
  has_flag flags RAM_SAVE_FLAG_EOS = false /\
  has_flag flags RAM_SAVE_FLAG_COMPRESS = (x =? RAM_SAVE_FLAG_COMPRESS) /\
  has_flag flags RAM_SAVE_FLAG_PAGE = (x =? RAM_SAVE_FLAG_PAGE) /\
  has_flag flags RAM_SAVE_FLAG_XBZRLE = (x =? RAM_SAVE_FLAG_XBZRLE).
Proof.
  intros Hx. destruct cont; repeat (apply elem_of_cons in Hx as [->|Hx]);
    try (apply elem_of_nil in Hx; done); vm_compute; split_and!; discriminate || reflexivity.
Qed.

Section Record.
Context (blocks : list NamedBlock) (k : nat) (b : NamedBlock) (q : Z).
Hypothesis Hnames : names_ok blocks.
Hypothesis Hb : blocks !! k = Some b.
Hypothesis Hblk : block_ok (nb_block b).
Hypothesis Hq : 0 <= q.
Hypothesis Hin : 4096 * q + TARGET_PAGE_SIZE <= rb_length (nb_block b).

(** The header of a record: address, flags and block come back. *)
Lemma header_loads x cont rest ld :
  x ∈ [RAM_SAVE_FLAG_COMPRESS; RAM_SAVE_FLAG_PAGE; RAM_SAVE_FLAG_XBZRLE] ->
  (cont = true -> ld_block ld = Some k) ->
  let flags := Z.lor (if cont : bool then RAM_SAVE_FLAG_CONTINUE else 0) x in
  ram_load_iter blocks (stream (save_block_hdr b (4096 * q) cont x ++ rest) 0) ld =
  ('(ret, f, ld) ← load_body blocks flags k (4096 * q) (stream rest 0) (with_block (Some k) ld);
   match ret with
   | Some ret => Ok (Some ret, f, ld)
   | None => if negb (last_error f =? 0) then Ok (Some (last_error f), f, ld) else Ok (None, f, ld)
   end).
Proof.
  intros Hx Hc flags. destruct (flag_tests x cont Hx) as (Hf & Hcont & Hms & Heos & H1 & H2 & H3).
  fold flags in Hf, Hcont, Hms, Heos, H1, H2, H3.
  destruct Hblk as (Ho & Hl & Hov & _). unfold rb_end, TARGET_PAGE_SIZE in Hin, Hov.
  destruct (header_split q flags) as (Hv & Hlow & Hhigh); [lia|lia|done|].
  unfold save_block_hdr. rewrite <- app_assoc, <- Z.lor_assoc. fold flags. unfold ram_load_iter.
  rewrite get_put_be64 by done. cbv beta iota zeta. rewrite Hlow, Hhigh, Hms, Heos. cbn [mbind outcome_bind]. unfold load_page.
  replace (_ || _ || _) with true by
    (rewrite H1, H2, H3; repeat (apply elem_of_cons in Hx as [->|Hx]; [done|]); by apply elem_of_nil in Hx).
  enough (host_from_stream_offset blocks flags (stream ((if cont then [] else
    qemu_put_byte (Z.of_nat (length (nb_id b))) ++ nb_id b) ++ rest) 0) ld = Ok (Some k, stream rest 0, with_block (Some k) ld))
    as -> by done.
  unfold host_from_stream_offset. rewrite Hcont. destruct cont.
  - by destruct ld as [? ?]; cbn in *; rewrite Hc by done.
  - destruct (proj1 (Forall_lookup _ _) (proj1 Hnames) k b Hb) as [Hlen Hz].
    unfold qemu_put_byte. cbn [app qemu_get_byte in_bytes last_error]. rewrite wrap_small by lia.
    rewrite get_buffer_app, Nat2Z.id. unfold refilled. rewrite take_app_length. by rewrite (find_id_self blocks b Hnames 0 k Hb).
Qed.

Lemma on_host_put g page ret ld : g (ld_mem ld (rb_offset (nb_block b) + 4096 * q)) = Ok (ret, page) ->
  on_host blocks k (4096 * q) g ld = Ok (ret, with_page (rb_offset (nb_block b) + 4096 * q) page ld).
Proof. intros Hg. unfold on_host. rewrite Hb, (proj2 (Z.leb_le _ _)), Hg by done. done. Qed.

(** The receiver after a record. *)
Definition decoded_after (m : PageMsg) (ld : LoadState) : LoadState :=
  match m with MsgXbzrle _ _ data => with_decoded (refilled data (xbzrle_decoded_buf ld)) ld | _ => ld end.
Definition loaded (m : PageMsg) (page : list Z) (ld : LoadState) : LoadState :=
  with_page (rb_offset (nb_block b) + 4096 * q) page (decoded_after m (with_block (Some k) ld)).

Lemma record_loads m cont rest ld page : (cont = true -> ld_block ld = Some k) -> msg_ok m ->
  ram_load_page m (ld_mem ld (rb_offset (nb_block b) + 4096 * q)) = Ok (0, page) ->
  Z.of_nat (length (ld_mem ld (rb_offset (nb_block b) + 4096 * q))) = TARGET_PAGE_SIZE ->
  ram_load_iter blocks (stream (record_bytes b (4096 * q) cont m ++ rest) 0) ld =
  Ok (None, stream rest 0, loaded m page ld).
Proof.
  intros Hc Hm Hload Hlen. destruct m as [ch|data|fl len data]; cbn [record_bytes msg_ok ram_load_page] in *;
    rewrite <- app_assoc, header_loads by (done || set_solver); unfold load_body.
  - destruct (flag_tests RAM_SAVE_FLAG_COMPRESS cont ltac:(set_solver)) as (_ & _ & _ & _ & -> & _). cbn [Z.eqb Pos.eqb RAM_SAVE_FLAG_COMPRESS].
    unfold qemu_put_byte. rewrite wrap_small by done. cbn [app qemu_get_byte in_bytes last_error].
    by rewrite (on_host_put _ page 0).
  - destruct (flag_tests RAM_SAVE_FLAG_PAGE cont ltac:(set_solver)) as (_ & _ & _ & _ & -> & -> & _).
    cbn [Z.eqb Pos.eqb RAM_SAVE_FLAG_COMPRESS RAM_SAVE_FLAG_PAGE]. rewrite <- Hm, get_buffer_app.
    injection Hload as ->. rewrite (on_host_put _ page 0); [done|]. cbn [with_block ld_mem].
    unfold refilled. rewrite drop_ge, app_nil_r by lia. done.
  - destruct Hm as (-> & -> & Hle).
    destruct (flag_tests RAM_SAVE_FLAG_XBZRLE cont ltac:(set_solver)) as (_ & _ & _ & _ & -> & -> & _).
    cbn [Z.eqb Pos.eqb RAM_SAVE_FLAG_COMPRESS RAM_SAVE_FLAG_PAGE RAM_SAVE_FLAG_XBZRLE].
    unfold read_xbzrle, qemu_put_byte. cbn [app qemu_get_byte in_bytes last_error]. rewrite <- app_assoc, get_put_be16.
    unfold TARGET_PAGE_SIZE in *. rewrite (wrap_small 16) by lia. change (u8 ENCODING_FLAG_XBZRLE) with ENCODING_FLAG_XBZRLE.
    rewrite Z.eqb_refl, (proj2 (Z.ltb_ge 4096 _)) by done. cbn [negb orb]. rewrite get_buffer_app, Nat2Z.id.
    unfold refilled at 1. rewrite take_app_length. by rewrite (on_host_put _ page 0).
Qed.
End Record.

Lemma loaded_parts k b q m page ld :
  ld_mem (loaded k b q m page ld) = put (ld_mem ld) (rb_offset (nb_block b) + 4096 * q) page /\ ld_block (loaded k b q m page ld) = Some k.
Proof. by destruct m. Qed.

(** ** Any stream is read to an end *)
Definition unread (f : InFile) : nat := length (in_bytes f).

(** [f'] is [f] after reading, of at least [n] bytes if there were any. *)
Definition reads (n : nat) (f f' : InFile) : Prop :=
  (unread f' <= unread f - n)%nat /\ (bytes_ok (in_bytes f) -> bytes_ok (in_bytes f')).

Lemma reads_trans n f1 f2 f3 : reads n f1 f2 -> reads 0 f2 f3 -> reads n f1 f3.
Proof. intros [H1 B1] [H2 B2]. split; [lia|auto]. Qed.

Lemma reads_weaken f f' : reads 1 f f' -> reads 0 f f'.
Proof. intros [H B]. split; [lia|done]. Qed.

Lemma get_byte_reads f v f' : qemu_get_byte f = (v, f') -> reads 1 f f'.
Proof. destruct f as [[|b bs] e]; cbn; intros [= <- <-]; split; cbn; try lia; [done|]. by intros [_ ?]%Forall_cons. Qed.

Lemma get_buffer_reads f n v f' : qemu_get_buffer f n = (v, f') -> reads 0 f f'.
Proof.
  unfold qemu_get_buffer. intros [= <- <-].
  split; [|intros H]; destruct (_ <? _); cbn; unfold unread; cbn; rewrite ?length_drop; try lia; by apply Forall_drop.
Qed.

Create HintDb reads.
#[local] Hint Resolve reads_trans reads_weaken get_byte_reads get_buffer_reads : reads.

Lemma get_be16_reads f v f' : qemu_get_be16 f = (v, f') -> reads 1 f f'.
Proof.
  unfold qemu_get_be16. destruct (qemu_get_byte f) as [b1 f1] eqn:?, (qemu_get_byte f1) as [b0 f0] eqn:?.
  intros [= <- <-]. eauto 6 with reads.
Qed.

Lemma get_be32_reads f v f' : qemu_get_be32 f = (v, f') -> reads 1 f f'.
Proof.
  unfold qemu_get_be32. destruct (qemu_get_byte f) as [b3 f3] eqn:?, (qemu_get_byte f3) as [b2 f2] eqn:?,
    (qemu_get_byte f2) as [b1 f1] eqn:?, (qemu_get_byte f1) as [b0 f0] eqn:?. intros [= <- <-].
  apply (reads_trans 1 f f3); [eauto with reads|]. apply (reads_trans 0 f3 f2); [eauto with reads|].
  apply (reads_trans 0 f2 f1); eauto with reads.
Qed.

Lemma get_be64_reads f v f' : qemu_get_be64 f = (v, f') -> reads 1 f f'.
Proof.
  unfold qemu_get_be64. destruct (qemu_get_be32 f) as [hi f1] eqn:E1, (qemu_get_be32 f1) as [lo f2] eqn:E2.
  intros [= <- <-]. apply get_be32_reads in E1, E2. eauto with reads.
Qed.

Lemma get_be16_nonneg f v f' : bytes_ok (in_bytes f) -> qemu_get_be16 f = (v, f') -> 0 <= v.
Proof.
  assert (forall f b f', bytes_ok (in_bytes f) -> qemu_get_byte f = (b, f') -> 0 <= b) as Hb.
  { intros [[|c bs] e] b f1; cbn; intros Hbs [= <- <-]; [lia|]. apply Forall_cons in Hbs as [[? ?] _]. done. }
  intros Hbs. unfold qemu_get_be16. destruct (qemu_get_byte f) as [b1 f1] eqn:E1, (qemu_get_byte f1) as [b0 f0] eqn:E0.
  intros [= <- _]. pose proof (Hb _ _ _ Hbs E1). pose proof (Hb _ _ _ (proj2 (get_byte_reads _ _ _ E1) Hbs) E0).
  apply Z.lor_nonneg. split; [by apply Z.shiftl_nonneg|done].
Qed.

Lemma get_be64_empty e : qemu_get_be64 (stream [] e) = (0, stream [] (if e =? 0 then - EIO else e)).
Proof.
  unfold qemu_get_be64, qemu_get_be32. cbn. unfold qemu_file_set_error. cbn.
  by destruct (Z.eqb_spec e 0) as [->|]; cbn; rewrite ?(proj2 (Z.eqb_neq e 0)).
Qed.

(** Not out of fuel, and [P] of a result. *)
Definition ends {A} (P : A -> Prop) (r : outcome A) : Prop :=
  match r with
  | Ok a => P a
  | Abort => True
  | NoFuel => False
  end.

Lemma ends_bind {A B} (P : A -> Prop) (R : B -> Prop) m (g : A -> outcome B) :
  ends P m -> (forall a, P a -> ends R (g a)) -> ends R (m ≫= g).
Proof. destruct m; cbn; auto. Qed.

(** Pages and the decoding buffer have the size of a page, and the buffer holds
    bytes. *)
Definition mem_ok (ld : LoadState) : Prop :=
  (forall a, Z.of_nat (length (ld_mem ld a)) = TARGET_PAGE_SIZE) /\
  Z.of_nat (length (xbzrle_decoded_buf ld)) = TARGET_PAGE_SIZE /\ bytes_ok (xbzrle_decoded_buf ld).

Section Ends.
Context (blocks : list NamedBlock).
Hypothesis Hblocks : Forall (fun b => 0 < rb_length (nb_block b)) blocks.

Lemma load_sizes_ends : forall fuel total id f, (unread f < fuel)%nat ->
  ends (fun r => reads 0 f r.2) (load_sizes blocks fuel total id f).
Proof.
  induction fuel as [|fuel IH]; intros total id f Hf; [lia|]. cbn [load_sizes].
  destruct (total =? 0); [by split; cbn; try lia|].
  destruct (qemu_get_byte f) as [len f1] eqn:E1, (qemu_get_buffer f1 len) as [got f2] eqn:E2.
  destruct (qemu_get_be64 f2) as [length_ f3] eqn:E3. set (id' := <[Z.to_nat len := 0]> (refilled got id)).
  assert (reads 1 f f2) as H2 by eauto with reads. pose proof (get_be64_reads _ _ _ E3) as H3.
  assert (reads 1 f f3) as H13 by eauto with reads.
  destruct (find_id (take (Z.to_nat len) id') 0 blocks) as [k|]; [|by apply reads_weaken]. destruct (blocks !! k) as [b|] eqn:Hb; [|done].
  destruct (Z.eqb_spec (rb_length (nb_block b)) length_) as [El|]; [|by apply reads_weaken].
  destruct (decide (unread f = 0%nat)) as [E0|].
  - assert (in_bytes f2 = []) as Hnil by (apply nil_length_inv; destruct H2; unfold unread in *; lia).
    destruct f2 as [bs e]. cbn in Hnil. subst bs. rewrite get_be64_empty in E3. injection E3 as <- <-.
    pose proof (proj1 (Forall_lookup _ _) Hblocks k b Hb). cbn in *. lia.
  - specialize (IH (u64 (total - length_)) id' f3 ltac:(destruct H13; lia)).
    destruct (load_sizes _ _ _ _ _); cbn in *; try done. eauto with reads.
Qed.

Lemma on_host_ends k addr g ld : mem_ok ld ->
  (forall page, Z.of_nat (length page) = TARGET_PAGE_SIZE -> ends (fun r => Z.of_nat (length r.2) = TARGET_PAGE_SIZE) (g page)) ->
  ends (fun r => mem_ok r.2) (on_host blocks k addr g ld).
Proof.
  intros Hm Hg. unfold on_host. destruct (blocks !! k) as [b|]; [|done]. destruct (_ <=? _); [|done].
  destruct Hm as (Hm & Hx). apply (ends_bind (fun r => Z.of_nat (length r.2) = TARGET_PAGE_SIZE)); [by apply Hg|]. intros [ret page] Hp. split; [|exact Hx]. intros a. cbn in *.
  unfold put. destruct (a =? _); [done|apply Hm].
Qed.

Lemma read_xbzrle_reads f buf fl len buf' f' : bytes_ok (in_bytes f) -> Z.of_nat (length buf) = TARGET_PAGE_SIZE /\ bytes_ok buf ->
  read_xbzrle f buf = (fl, len, buf', f') -> reads 0 f f' /\ (Z.of_nat (length buf') = TARGET_PAGE_SIZE /\ bytes_ok buf') /\ 0 <= len.
Proof using.
  intros Hbs [Hbl Hbb]. unfold read_xbzrle. destruct (qemu_get_byte f) as [fl1 f1] eqn:E1, (qemu_get_be16 f1) as [len1 f2] eqn:E2.
  pose proof (get_be16_reads _ _ _ E2) as R2. assert (reads 0 f f2) as R by eauto with reads.
  pose proof (get_be16_nonneg _ _ _ (proj2 (get_byte_reads _ _ _ E1) Hbs) E2) as Hnn.
  destruct (_ || _) eqn:Ec; [intros [= <- <- <- <-]; by split_and!|]. apply orb_false_iff in Ec as [_ Ec%Z.ltb_ge].
  destruct (qemu_get_buffer f2 len1) as [got f3] eqn:E3. intros [= <- <- <- <-]. split; [eauto with reads|]. split; [|done].
  assert (length got <= Z.to_nat TARGET_PAGE_SIZE)%nat as Hg by (injection E3 as <- _; rewrite length_take; lia). unfold refilled. split.
  - rewrite length_app, length_drop. lia.
  - apply Forall_app. split; [injection E3 as <- _; apply Forall_take; by apply R|by apply Forall_drop].
Qed.

Lemma load_body_ends flags k addr f ld : bytes_ok (in_bytes f) -> mem_ok ld ->
  ends (fun r => reads 0 f r.1.2 /\ mem_ok r.2) (load_body blocks flags k addr f ld).
Proof.
  intros Hbs Hm. unfold load_body. destruct (has_flag flags RAM_SAVE_FLAG_COMPRESS).
  { destruct (qemu_get_byte f) as [ch f1] eqn:E1.
    eapply ends_bind; [apply on_host_ends; [done|]|intros [ret ld'] Hm'; split; [eauto with reads|exact Hm']].
    intros page Hp. unfold ram_handle_compressed. rewrite is_zero_range_spec by done. cbn [mbind outcome_bind ends snd].
    destruct (_ || _); [|done]. by rewrite length_replicate. }
  destruct (has_flag flags RAM_SAVE_FLAG_PAGE).
  { destruct (qemu_get_buffer f TARGET_PAGE_SIZE) as [got f1] eqn:E1.
    eapply ends_bind; [apply on_host_ends; [done|]|intros [ret ld'] Hm'; split; [eauto with reads|exact Hm']].
    intros page Hp. cbn [ends snd]. assert (length got <= Z.to_nat TARGET_PAGE_SIZE)%nat
      by (injection E1 as <- _; rewrite length_take; lia). unfold refilled. rewrite length_app, length_drop. lia. }
  destruct (read_xbzrle f (xbzrle_decoded_buf ld)) as [[[fl len] buf] f2] eqn:Er. destruct (read_xbzrle_reads _ _ _ _ _ _ Hbs (proj2 Hm) Er) as (R & Hbuf & Hlen).
  eapply ends_bind; [apply on_host_ends; [split; [apply Hm|exact Hbuf]|]|intros [ret ld'] Hm'; split; [exact R|exact Hm']].
  intros page Hp. unfold load_xbzrle. destruct (Z.eqb_spec fl ENCODING_FLAG_XBZRLE) as [Ef|]; [|done]. cbn [negb].
  destruct (Z.ltb_spec TARGET_PAGE_SIZE len); [done|]. destruct Hbuf as [Hbl Hbb].
  assert (len = Z.of_nat (length (take (Z.to_nat len) buf))) as El by (rewrite length_take; lia). rewrite El at 2.
  assert (bytes_ok (take (Z.to_nat len) buf)) as Hd by (by apply Forall_take). set (data := take (Z.to_nat len) buf) in *. clearbody data.
  unfold xbzrle_decode_buffer. rewrite Nat2Z.id.
  destruct (decode_loop_safe data TARGET_PAGE_SIZE Hd (S (length data)) 0 0 page) as (ret & page' & -> & Hpl & Hr);
    [lia|unfold TARGET_PAGE_SIZE; lia|done|lia|].
  cbn [mbind outcome_bind]. destruct (_ =? _); [cbn; lia|]. destruct (_ <? _); cbn; lia.
Qed.

Lemma load_page_ends flags addr f ld : bytes_ok (in_bytes f) -> mem_ok ld ->
  ends (fun r => reads 0 f r.1.2 /\ mem_ok r.2) (load_page blocks flags addr f ld).
Proof.
  intros Hbs Hm. assert (reads 0 f f) as Hrefl by (split; [lia|done]).
  unfold load_page. destruct (_ || _ || _); [|by destruct (has_flag _ _)].
  apply (ends_bind (fun r => reads 0 f r.1.2 /\ mem_ok r.2)).
  - unfold host_from_stream_offset. destruct (has_flag _ _); [done|].
    destruct (qemu_get_byte f) as [len f1] eqn:E1, (qemu_get_buffer f1 len) as [got f2] eqn:E2.
    split; [eauto with reads|done].
  - intros [[[k|] f1] ld1] [R Hm1]; cbn in R, Hm1; [|done].
    pose proof (load_body_ends flags k addr f1 ld1 (proj2 R Hbs) Hm1) as H.
    destruct (load_body _ _ _ _ _ _) as [[[? ?] ?]| |]; cbn in *; try done. destruct H. split; [eauto with reads|done].
Qed.

(** A round that goes on has consumed a header. *)
Lemma ram_load_iter_ends f ld : bytes_ok (in_bytes f) -> mem_ok ld ->
  ends (fun r => reads 0 f r.1.2 /\ mem_ok r.2 /\ (r.1.1 = None -> unread r.1.2 < unread f)%nat) (ram_load_iter blocks f ld).
Proof.
  intros Hbs Hm. unfold ram_load_iter. destruct (decide (unread f = 0%nat)) as [E0|Hne].
  { destruct f as [bs e]. apply nil_length_inv in E0. cbn in E0. subst bs. rewrite get_be64_empty.
    unfold load_page. rewrite !Z.land_0_l.
    assert (forall x, has_flag 0 x = false) as H0 by done. rewrite !H0. cbn [orb mbind outcome_bind last_error].
    assert ((if e =? 0 then - EIO else e) <> 0) as He by (destruct (Z.eqb_spec e 0); done).
    rewrite (proj2 (Z.eqb_neq _ 0) He). by split_and!. }
  destruct (qemu_get_be64 f) as [v f1] eqn:E1. pose proof (get_be64_reads _ _ _ E1) as R1.
  set (flags := Z.land v _). set (addr := Z.land v (not64 _)).
  apply (ends_bind (fun r => reads 0 f1 r.2)).
  { destruct (has_flag _ _); [|by split; [cbn; lia|]]. apply load_sizes_ends. unfold unread. lia. }
  intros [[ret|] f2] R2; cbn in R2; [cbn; split_and!; [eauto with reads|done|done]|].
  assert (reads 1 f f2) as R12 by eauto with reads.
  eapply ends_bind; [apply load_page_ends; [by apply R12|done]|].
  intros [[[ret|] f3] ld3] [R3 Hm3]; cbn in R3, Hm3; [cbn; split_and!; [eauto with reads|done|done]|].
  assert (reads 1 f f3) as R13 by eauto with reads.
  destruct (negb _); cbn; (split_and!; [eauto with reads|done|]); [done|]. intros _. destruct R13. lia.
Qed.

Lemma ram_load_loop_ends : forall fuel f ld, bytes_ok (in_bytes f) -> mem_ok ld -> (unread f < fuel)%nat ->
  ends (fun r => mem_ok r.2) (ram_load_loop blocks fuel f ld).
Proof.
  induction fuel as [|fuel IH]; intros f ld Hbs Hm Hf; [lia|]. cbn [ram_load_loop].
  eapply ends_bind; [by apply ram_load_iter_ends|]. intros [[[ret|] f1] ld1] (R & Hm1 & Hlt); cbn in *; [done|].
  apply IH; [by apply R|done|]. specialize (Hlt eq_refl). lia.
Qed.
End Ends.

(** C37 (termination): [ram_load] reads any byte stream to an end: it returns,
    or follows the stream into an access the C standard leaves undefined, and
    does not loop; the pages stay pages. *)
Theorem ram_load_terminates blocks version_id f ld :
  Forall (fun b => 0 < rb_length (nb_block b)) blocks -> bytes_ok (in_bytes f) -> mem_ok ld ->
  ram_load blocks version_id f ld = Abort \/
  exists ret f' ld', ram_load blocks version_id f ld = Ok (ret, f', ld') /\ mem_ok ld'.
Proof.
  intros Hb Hbs Hm. unfold ram_load. destruct (negb _); [by eauto 6|].
  pose proof (ram_load_loop_ends blocks Hb (S (length (in_bytes f))) f ld Hbs Hm ltac:(unfold unread; lia)) as H.
  destruct (ram_load_loop _ _ _ _) as [[[ret f'] ld']| |]; cbn in H; [by eauto 6|by left|done].
Qed.

(** ** Taking a dirty page *)
Lemma page_shift x : Z.shiftr (4096 * x) TARGET_PAGE_BITS = x.
Proof. unfold TARGET_PAGE_BITS. rewrite Z.shiftr_div_pow2, Z.mul_comm by lia. by apply Z.div_mul. Qed.

(** Page [next] of the block, if it is one, is taken off the bitmap. *)
Lemma reset_page_ok pages s base m next : mig_ok pages s -> 0 <= base -> base + m <= pages -> base <= next <= base + m ->
  (next < base + m -> bit (mig_bitmap s) next = true) ->
  exists s', (s ← (if next <? base + m then bm ← clear_bit next (mig_bitmap s); Ok (put_bitmap bm (u64 (mig_dirty_pages s - 1)) s) else Ok s);
              Ok (u64 (Z.shiftl (next - base) TARGET_PAGE_BITS), s)) = Ok (4096 * (next - base), s') /\
    mig_ok pages s' /\ mig_ram s' = mig_ram s /\
    (next = base + m /\ s' = s \/
     next < base + m /\ mig_dirty_pages s' = mig_dirty_pages s - 1 /\
     forall p, 0 <= p -> bit (mig_bitmap s') p = negb (p =? next) && bit (mig_bitmap s) p).
Proof.
  intros Hs Hb Hm Hn Hset. pose proof Hs as [Hbm Hp Hint Hcnt Hram].
  unfold TARGET_PAGE_BITS. rewrite (Z.shiftl_mul_pow2 (next - base)) by lia. change (2 ^ 12) with 4096.
  rewrite (wrap_small 64) by lia. rewrite (Z.mul_comm 4096).
  destruct (Z.ltb_spec next (base + m)) as [Hlt|Hge]; cbn [mbind outcome_bind].
  2:{ exists s. split_and!; try done. left. split; [lia|done]. }
  destruct (clear_bit_spec (mig_bitmap s) next Hbm ltac:(lia)) as (bm' & -> & Hbm' & Hl' & Hb'). cbn [mbind outcome_bind].
  eexists. split; [done|]. cbn [put_bitmap mig_bitmap mig_ram mig_dirty_pages].
  assert (nbits bm' = nbits (mig_bitmap s)) as Hnb by (unfold nbits; by rewrite Hl').
  assert (cnt (bit bm') 0 (nbits bm') + 1 = cnt (bit (mig_bitmap s)) 0 (nbits (mig_bitmap s))) as Hdec.
  { apply (count_after bm' (mig_bitmap s) (cnt (bit bm') 0 (nbits bm')) _ next (next + 1) (fun _ => true)); try done; [lia|lia| |].
    - intros p Hpp. rewrite Hb' by done. rewrite andb_true_r. destruct (Z.eqb_spec p next) as [->|].
      + replace ((next <=? next) && (next <? next + 1)) with true by lia. by rewrite Hset.
      + replace ((next <=? p) && (p <? next + 1)) with false by lia. by rewrite orb_false_r.
    - rewrite (cnt_step _ next (next + 1)), cnt_nil, Hb', Z.eqb_refl by lia. done. }
  pose proof (cnt_bound (bit bm') (nbits bm') _ 0 eq_refl) as Hcb.
  rewrite Hnb in Hdec, Hcb. rewrite wrap_small by lia.
  split_and!; [constructor|done|right; split_and!; [lia|done|]];
    cbn [put_bitmap mig_bitmap mig_dirty_pages mig_ram]; rewrite ?Hnb; try done; [lia|].
  intros p Hpp. rewrite Hb' by done. by destruct (p =? next).
Qed.

(** After the bulk stage, and at the start of a block also in it, the next dirty
    page from [q] on is found and taken off the bitmap; [m] when there is none. *)
Lemma find_reset_ok bulk pages s base m q : mig_ok pages s -> 0 <= base -> base + m <= pages -> 0 <= q <= m -> bulk = false \/ q = 0 ->
  exists r s', migration_bitmap_find_and_reset_dirty bulk (4096 * base) (4096 * m) (4096 * q) s = Ok (4096 * r, s') /\
    mig_ok pages s' /\ mig_ram s' = mig_ram s /\ q <= r <= m /\
    (forall p, base + q <= p < base + r -> bit (mig_bitmap s) p = false) /\
    (r = m /\ s' = s \/
     r < m /\ bit (mig_bitmap s) (base + r) = true /\ mig_dirty_pages s' = mig_dirty_pages s - 1 /\
     forall p, 0 <= p -> bit (mig_bitmap s') p = negb (p =? base + r) && bit (mig_bitmap s) p).
Proof.
  intros Hs Hb Hm Hq Hbulk. pose proof Hs as [Hbm Hp Hint Hcnt Hram]. unfold migration_bitmap_find_and_reset_dirty.
  rewrite page_align_id; [|lia|unfold TARGET_PAGE_SIZE; lia|unfold TARGET_PAGE_SIZE; rewrite Z.mul_comm; by apply Z.mod_mul].
  rewrite !page_shift. assert (bulk && (base <? base + q) = false) as -> by (destruct Hbulk as [->| ->]; [done|rewrite Z.add_0_r, Z.ltb_irrefl; apply andb_false_r]).
  destruct (find_next_bit_spec (mig_bitmap s) Hbm (base + m) (base + q)) as (next & -> & Hf); [lia..|].
  cbn [mbind outcome_bind].
  assert (base + q <= next <= base + m /\ (forall i, base + q <= i < next -> bit (mig_bitmap s) i = false) /\
          (next < base + m -> bit (mig_bitmap s) next = true)) as (Hn & Hz & Hset).
  { destruct (Z.leb_spec (base + m) (base + q)); [|exact Hf]. split_and!; [lia|lia|intros; lia|lia]. }
  destruct (reset_page_ok pages s base m next) as (s' & E & Hs' & Hr' & Hres); try done; [lia|]. exists (next - base), s'.
  replace (base + (next - base)) with next by lia. split_and!; try done; try lia.
  destruct Hres as [[-> ->]|(Hlt & Hd & Hbits)]; [left; split; [lia|done]|right]. split_and!; try done; [lia|by apply Hset].
Qed.

(** In the bulk stage the page after [q] is taken without a search. *)
Lemma find_reset_bulk pages s base m q : mig_ok pages s -> 0 <= base -> base + m <= pages -> 0 < q < m ->
  (q + 1 < m -> bit (mig_bitmap s) (base + (q + 1)) = true) ->
  exists s', migration_bitmap_find_and_reset_dirty true (4096 * base) (4096 * m) (4096 * q) s = Ok (4096 * (q + 1), s') /\
    mig_ok pages s' /\ mig_ram s' = mig_ram s /\
    (q + 1 = m /\ s' = s \/
     q + 1 < m /\ mig_dirty_pages s' = mig_dirty_pages s - 1 /\
     forall p, 0 <= p -> bit (mig_bitmap s') p = negb (p =? base + (q + 1)) && bit (mig_bitmap s) p).
Proof.
  intros Hs Hb Hm Hq Hset. unfold migration_bitmap_find_and_reset_dirty.
  pose proof Hs as [Hbm Hp Hint Hcnt Hram].
  rewrite page_align_id; [|lia|unfold TARGET_PAGE_SIZE; lia|unfold TARGET_PAGE_SIZE; rewrite Z.mul_comm; by apply Z.mod_mul].
  rewrite !page_shift, (proj2 (Z.ltb_lt base (base + q))) by lia. cbn [andb mbind outcome_bind]. replace (base + q + 1) with (base + (q + 1)) by lia.
  destruct (reset_page_ok pages s base m (base + (q + 1))) as (s' & E & Hs' & Hr' & Hres); try done; [lia|intros; apply Hset; lia|]. exists s'.
  rewrite E. replace (base + (q + 1) - base) with (q + 1) by lia. split_and!; try done. destruct Hres as [[? ->]|(Hlt & Hd & Hbits)]; [left; split; [lia|done]|right]. split_and!; try done. lia.
Qed.

Lemma record_length b offset cont m :
  Z.of_nat (length (record_bytes b offset cont m)) = hdr_size b cont + msg_size m.
Proof.
  assert (forall x, Z.of_nat (length (save_block_hdr b offset cont x)) = hdr_size b cont) as Hh.
  { intros x. unfold save_block_hdr, hdr_size. rewrite length_app. destruct cont; cbn; lia. }
  destruct m; cbn [record_bytes msg_size]; rewrite !length_app, Nat2Z.inj_add, Hh; cbn; lia.
Qed.

(** ** Sender and receiver in step *)
Section Sync.
Context (pages : Z) (blocks : list NamedBlock) (ram : Z -> list Z).

(** Page [p] of the RAM belongs to block [b]. *)
Abbreviation page_of b p := (in_pages (nb_block b) p).
Abbreviation dirty st p := (bit (mig_bitmap (sv_mig st)) p).
Abbreviation logged st p := (page_dirty (mig_ram (sv_mig st)) MIG p).

Record config_ok : Prop := {
  cf_names : names_ok blocks;
  cf_blocks : Forall (fun b => block_ok (nb_block b) /\ rb_end (nb_block b) <= 4096 * pages) blocks;
  cf_apart k1 k2 b1 b2 p : blocks !! k1 = Some b1 -> blocks !! k2 = Some b2 -> page_of b1 p -> page_of b2 p -> k1 = k2;
  cf_ram a : Z.of_nat (length (ram a)) = TARGET_PAGE_SIZE /\ bytes_ok (ram a)
}.
Hypothesis Hcf : config_ok.

(** What holds between two calls of the sender: pages that are marked neither in the migration bitmap nor in the dirty log are
    equal on both sides, the cache has what the
    receiver has (in the last stage: of the marked pages), and both agree on
    the block sent last. *)
Record linked (last_stage : bool) (st : SaveState) (ld : LoadState) : Prop := {
  lk_mig : mig_ok pages (sv_mig st);
  lk_cache : cache_ok (sv_cache st);
  lk_size : page_size (sv_cache st) = TARGET_PAGE_SIZE;
  lk_age : max_item_age (sv_cache st) + mig_dirty_pages (sv_mig st) < 2 ^ 64 - 1;
  lk_mirror : mirrors (fun a => last_stage = false \/ dirty st (a / 4096) = true) (sv_cache st) (ld_mem ld);
  lk_mem a : Z.of_nat (length (ld_mem ld a)) = TARGET_PAGE_SIZE /\ bytes_ok (ld_mem ld a);
  lk_sent k : last_sent_block st = Some k -> ld_block ld = Some k;
  lk_clean b p : b ∈ blocks -> page_of b p -> dirty st p = false -> logged st p = false ->
    ld_mem ld (4096 * p) = ram (4096 * p)
}.

(** Where the sender stands after the bulk stage. *)
Definition stands (st : SaveState) : Prop :=
  exists i b q, last_seen_block st = Some i /\ blocks !! i = Some b /\ last_offset st = 4096 * q /\
    0 <= q /\ 4096 * q <= rb_length (nb_block b).

(** In the bulk stage: the pages after the current one. *)
Definition ahead (st : SaveState) (k : nat) (p : Z) : Prop :=
  match last_seen_block st with None => True | Some i => (i < k)%nat \/ k = i /\ last_offset st < 4096 * p end.

(** The sender stands at the last page of the last block, page [q] of [b]. *)
Definition at_last_page (st : SaveState) (b : NamedBlock) (q : Z) : Prop :=
  exists i, last_seen_block st = Some i /\ S i = length blocks /\ blocks !! i = Some b /\ last_offset st = 4096 * q /\
    rb_length (nb_block b) = 4096 * (q + 1) /\ 0 < q.

(** The bulk stage: all pages ahead are still marked, and the cache is empty.  At
    the last page of the last block that page is not marked, else it would be
    lost ([bulk_round_loses_page]). *)
Record bulk_ok (st : SaveState) : Prop := {
  bk_stage : ram_bulk_stage st = true;
  bk_cache a : 0 <= a < no_addr -> cache_is_cached (sv_cache st) a <> Ok true;
  bk_place : last_seen_block st = None /\ last_offset st = 0 /\ blocks <> [] \/
    exists i b q, last_seen_block st = Some i /\ blocks !! i = Some b /\ last_offset st = 4096 * q /\ 0 <= q /\ 4096 * q < rb_length (nb_block b);
  bk_ahead k b p : blocks !! k = Some b -> 0 <= p -> 4096 * p < rb_length (nb_block b) -> ahead st k p ->
    dirty st (rb_offset (nb_block b) / 4096 + p) = true;
  bk_last b q : at_last_page st b q -> dirty st (rb_offset (nb_block b) / 4096 + q) = false
}.

Definition staged (st : SaveState) : Prop := bulk_ok st \/ ram_bulk_stage st = false /\ stands st.

(** A block in pages. *)
Lemma block_pages b : b ∈ blocks -> exists base m,
  rb_offset (nb_block b) = 4096 * base /\ rb_length (nb_block b) = 4096 * m /\ 0 <= base /\ 0 < m /\ base + m <= pages /\
  4096 * (base + m) + TARGET_PAGE_SIZE <= 2 ^ 64 /\
  forall p, page_of b p <-> base <= p < base + m.
Proof.
  intros Hb. destruct (proj1 (Forall_forall _ _) (cf_blocks Hcf) b Hb) as [(Ho & Hl & Hov & Hmo & Hml) Hend].
  unfold in_pages, rb_end, TARGET_PAGE_SIZE in *.
  exists (rb_offset (nb_block b) / 4096), (rb_length (nb_block b) / 4096).
  assert ((rb_offset (nb_block b) + rb_length (nb_block b)) / 4096 = rb_offset (nb_block b) / 4096 + rb_length (nb_block b) / 4096)
    as -> by (Z.div_mod_to_equations; lia).
  split_and!; try (Z.div_mod_to_equations; lia).
Qed.

(** Pages [lo, hi) of a block have been found clean. *)
Definition clean (st : SaveState) (b : NamedBlock) (lo hi : Z) : Prop :=
  forall p, rb_offset (nb_block b) / 4096 + lo <= p < rb_offset (nb_block b) / 4096 + hi -> dirty st p = false.

(** One dirty page is sent or skipped. *)
Lemma send_page last_stage st ld k b r mig :
  linked last_stage st ld -> blocks !! k = Some b -> 0 <= r -> 4096 * r < rb_length (nb_block b) ->
  dirty st (rb_offset (nb_block b) / 4096 + r) = true ->
  mig_ok pages mig -> mig_ram mig = mig_ram (sv_mig st) -> mig_dirty_pages mig = mig_dirty_pages (sv_mig st) - 1 ->
  (forall p, 0 <= p -> bit (mig_bitmap mig) p = negb (p =? rb_offset (nb_block b) / 4096 + r) && dirty st p) ->
  (ram_bulk_stage st = true -> forall a, 0 <= a < no_addr -> cache_is_cached (sv_cache st) a <> Ok true) ->
  let cont := bool_decide (last_sent_block st = Some k) in
  let a := rb_offset (nb_block b) + 4096 * r in
  exists sent msg cache, ram_save_page true (ram_bulk_stage st) true last_stage (sv_cache st) (ram a) a (hdr_size b cont) = Ok (sent, msg, cache) /\
    (sent = 0 /\ msg = None /\ linked last_stage (with_cache cache (with_mig mig st)) ld \/
     exists m ld', msg = Some m /\ 0 < sent /\ sent = Z.of_nat (length (record_bytes b (4096 * r) cont m)) /\
       linked last_stage (now_at k (4096 * r) (Some k) (with_cache cache (with_mig mig st))) ld' /\
       forall rest, ram_load_iter blocks (stream (record_bytes b (4096 * r) cont m ++ rest) 0) ld =
                    Ok (None, stream rest 0, ld')).
Proof.
  intros Hlk Hk Hr Hrm Hd Hmig Hram Hdec Hbits Hbulk cont a. pose proof Hlk as [Hm0 Hc Hsz Hage Hmir Hmem Hsent Hclean].
  destruct (block_pages b) as (base & m & Eo & El & Hbase & _ & Hpg & Hov & _); [by apply list_elem_of_lookup_2 in Hk|].
  assert (rb_offset (nb_block b) / 4096 = base) as Eb by (rewrite Eo, Z.mul_comm; by apply Z.div_mul).
  rewrite Eb in *. assert (a = 4096 * (base + r)) as Ea by (subst a; lia). unfold TARGET_PAGE_SIZE in Hov.
  assert (a / 4096 = base + r) as Ediv by (rewrite Ea, Z.mul_comm; by apply Z.div_mul).
  assert (0 <= mig_dirty_pages mig) as Hpos by (rewrite (mo_count _ _ Hmig); apply (cnt_bound _ _ _ 0 eq_refl)).
  destruct (cf_ram Hcf a) as [Hra Hrb]. destruct (Hmem a) as [Hma Hmb].
  destruct (page_sent (fun a => last_stage = false \/ dirty st (a / 4096) = true) (sv_cache st) (ld_mem ld) (ram a) a
    (hdr_size b cont)) with (ram_bulk_stage := ram_bulk_stage st) (last_stage := last_stage)
    as (sent & msg & cache' & -> & Harr & Hc' & Hsz' & Hage' & Hmir'); try done; try lia.
  { unfold no_addr. lia. }
  { right. by rewrite Ediv. }
  { unfold hdr_size. destruct cont; lia. }
  eexists _, _, _. split; [done|].
  assert (forall p, 0 <= p -> bit (mig_bitmap mig) p = false -> p = base + r \/ dirty st p = false) as Hnew.
  { intros p Hp. rewrite Hbits by done. destruct (Z.eqb_spec p (base + r)); [by left|by right]. }
  assert (forall b p, b ∈ blocks -> page_of b p -> 0 <= p) as Hpos'.
  { intros b' p Hb' Hp. destruct (block_pages b' Hb') as (? & ? & _ & _ & ? & _ & _ & _ & Hiff). apply Hiff in Hp. lia. }
  destruct msg as [msg|]; cbn [arrives] in Harr.
  - right. destruct Harr as (Es & Hmok & Hload). rewrite <- record_length with (offset := 4096 * r) in Es.
    exists msg, (loaded k b r msg (ram a) ld). destruct (loaded_parts k b r msg (ram a) ld) as [Elm Elb]. fold a in Elm.
    split_and!; [done| |done| |].
    + rewrite Es, record_length. unfold hdr_size. destruct msg, cont; cbn; lia.
    + constructor; cbn [now_at with_cache with_mig sv_mig sv_cache last_sent_block]; rewrite ?Elm, ?Elb; try done; try lia.
      * intros a' Ha' HQ Hca. apply Hmir'; [done| |done]. destruct HQ as [->|Ht]; [by auto|].
        rewrite Hbits in Ht by (apply Z.div_pos; lia). destruct (Z.eqb_spec (a' / 4096) (base + r)); [done|].
        split; [by right|]. right. right. intros ->. by rewrite Ediv in *.
      * intros a'. unfold put. by destruct (a' =? a).
      * intros b' p Hb' Hp Hcl Hlog. rewrite Hram in Hlog. unfold put. destruct (Z.eqb_spec (4096 * p) a) as [E|Hne]; [by rewrite E|].
        apply Hnew in Hcl as [->|Hcl]; [lia|by apply (Hclean b')|by apply (Hpos' b')].
    + intros rest. destruct (proj1 (Forall_lookup _ _) (cf_blocks Hcf) k b Hk) as [Hbo _].
      apply (record_loads blocks k b r (cf_names Hcf) Hk Hbo Hr); try done.
      * unfold TARGET_PAGE_SIZE. lia.
      * intros Ec. apply bool_decide_eq_true in Ec. auto.
  - left. destruct Harr as [-> Heq]. split_and!; [done|done|].
    constructor; cbn [with_cache with_mig sv_mig sv_cache last_sent_block]; try done; try lia.
    + intros a' Ha' HQ Hca. rewrite (Hmir' a' Ha'); [|split; [|by auto]|done].
      * unfold put. destruct (Z.eqb_spec a' a) as [->|]; by rewrite ?Heq.
      * destruct HQ as [->|Ht]; [by left|]. right. rewrite Hbits in Ht by (apply Z.div_pos; lia). by destruct (_ =? _).
    + intros b' p Hb' Hp Hcl Hlog. rewrite Hram in Hlog. apply Hnew in Hcl as [->|Hcl]; [by rewrite <- Ea|by apply (Hclean b')|by apply (Hpos' b')].
Qed.

(** How far a call has looked: from page [q] of block [i], where the last call
    stopped, to page [o] of block [j], in the first round or ([c]) in the
    second. *)
Record round (st : SaveState) (i : nat) (q : Z) (c : bool) (j : nat) (o : Z) : Prop := {
  rd_dir : if c then (j <= i)%nat else (i <= j)%nat;
  rd_old k b : blocks !! k = Some b -> (i <= k)%nat -> c = true \/ (k < j)%nat ->
    clean st b (if decide (k = i) then q else 0) (rb_length (nb_block b) / 4096);
  rd_new k b : c = true -> blocks !! k = Some b -> (k < j)%nat -> clean st b 0 (rb_length (nb_block b) / 4096);
  rd_here b : blocks !! j = Some b -> clean st b (if decide (c = false /\ j = i) then q else 0) o
}.

(** What a call achieves. *)
Definition progress (last_stage : bool) (st : SaveState) (ld : LoadState) (sent : Z) (out : list Z) (st' : SaveState) : Prop :=
  staged st' /\ mig_ram (sv_mig st') = mig_ram (sv_mig st) /\
  (forall p, 0 <= p -> dirty st' p = true -> dirty st p = true) /\
  (sent = 0 /\ out = [] /\ linked last_stage st' ld /\ (forall b p, b ∈ blocks -> page_of b p -> dirty st' p = false) \/
   0 < sent /\ sent = Z.of_nat (length out) /\ mig_dirty_pages (sv_mig st') < mig_dirty_pages (sv_mig st) /\
   exists ld', linked last_stage st' ld' /\
     forall rest, ram_load_iter blocks (stream (out ++ rest) 0) ld = Ok (None, stream rest 0, ld')).

Lemma progress_after last_stage st st1 ld sent out st' :
  mig_ram (sv_mig st1) = mig_ram (sv_mig st) -> mig_dirty_pages (sv_mig st1) <= mig_dirty_pages (sv_mig st) ->
  (forall p, 0 <= p -> dirty st1 p = true -> dirty st p = true) ->
  progress last_stage st1 ld sent out st' -> progress last_stage st ld sent out st'.
Proof.
  intros Hr Hd Hs (H1 & H2 & H3 & H4). split_and!; [done|congruence|by auto|].
  destruct H4 as [?|(? & ? & ? & ?)]; [by left|]. right. split_and!; [done|done|lia|done].
Qed.

Lemma clean_sub st st1 b lo hi : 0 <= rb_offset (nb_block b) -> 0 <= lo ->
  (forall p, 0 <= p -> dirty st1 p = true -> dirty st p = true) -> clean st b lo hi -> clean st1 b lo hi.
Proof.
  intros Ho Hlo Hs Hc p Hp. pose proof (Z.div_pos (rb_offset (nb_block b)) 4096 Ho ltac:(lia)).
  destruct (dirty st1 p) eqn:E; [|done]. apply Hs in E; [|lia]. by rewrite Hc in E.
Qed.

Lemma clean_app st b lo mid hi : clean st b lo mid -> clean st b mid hi -> clean st b lo hi.
Proof.
  intros H1 H2 p Hp. destruct (Z.lt_ge_cases p (rb_offset (nb_block b) / 4096 + mid)); [apply H1; lia|apply H2; lia].
Qed.

Lemma round_sub st st1 i q c j o : 0 <= q -> (forall p, 0 <= p -> dirty st1 p = true -> dirty st p = true) ->
  round st i q c j o -> round st1 i q c j o.
Proof.
  intros Hq Hs [H1 H2 H3 H4].
  assert (forall k b, blocks !! k = Some b -> 0 <= rb_offset (nb_block b)) as Hpos.
  { intros k b Hk. by destruct (proj1 (Forall_lookup _ _) (cf_blocks Hcf) k b Hk) as [[? _] _]. }
  split; [done|..].
  - intros k b Hk Hik Hc. apply (clean_sub st); [by apply (Hpos k)|by destruct (decide (k = i))|done|by apply H2].
  - intros k b Hc Hk Hkj. apply (clean_sub st); [by apply (Hpos k)|lia|done|by apply (H3 k)].
  - intros b Hk. apply (clean_sub st); [by apply (Hpos j)|by destruct (decide (c = false /\ j = i))|done|by apply H4].
Qed.

Lemma linked_now last_stage st ld k o : linked last_stage st ld -> linked last_stage (now_at k o (last_sent_block st) st) ld.
Proof. by intros []. Qed.

(** The rest of the current block is clean: what the two rounds know. *)
Lemma round_next st i q c j o b : round st i q c j o -> blocks !! j = Some b ->
  clean st b o (rb_length (nb_block b) / 4096) -> (c = true -> (j < i)%nat) -> round st i q c (S j) 0.
Proof.
  intros [H1 H2 H3 H4] Hj Hc Hlt. pose proof (clean_app _ _ _ _ _ (H4 b Hj) Hc) as Hall.
  split.
  - destruct c; [specialize (Hlt eq_refl)|]; lia.
  - intros k b' Hk Hik [->|Hkj]; [apply H2; auto|]. destruct (decide (k = j)) as [->|]; [|apply H2; auto; right; lia].
    rewrite Hj in Hk. injection Hk as <-. destruct c; [apply H2; auto|].
    by destruct (decide (j = i)) as [->|]; [rewrite decide_True in Hall by done|rewrite decide_False in Hall by tauto].
  - intros k b' -> Hk Hkj. destruct (decide (k = j)) as [->|]; [|apply (H3 k); auto; lia].
    rewrite Hj in Hk. injection Hk as <-. by rewrite decide_False in Hall by (by intros [? _]).
  - intros b' _ p Hp. exfalso. destruct (decide (c = false /\ S j = i)) as [[-> Hji]|]; cbn in H1; lia.
Qed.

Lemma dirty_pages_nonneg s : mig_ok pages s -> 0 <= mig_dirty_pages s.
Proof. intros Hs. rewrite (mo_count _ _ Hs). apply (cnt_bound _ _ _ 0 eq_refl). Qed.

Section Loop.
Context (last_stage : bool) (i : nat) (bi : NamedBlock) (q : Z).
Hypothesis Hi : blocks !! i = Some bi.
Hypothesis Hq : 0 <= q.
Hypothesis Hqi : 4096 * q <= rb_length (nb_block bi).

(** Everything is clean once the second round is back where the first began. *)
Lemma round_done st o : round st i q true i o -> clean st bi o (rb_length (nb_block bi) / 4096) ->
  forall b p, b ∈ blocks -> page_of b p -> dirty st p = false.
Proof.
  intros [H1 H2 H3 H4] Hc b p [k Hk]%list_elem_of_lookup Hp.
  assert (clean st b 0 (rb_length (nb_block b) / 4096)) as Hall.
  { destruct (Nat.lt_trichotomy k i) as [Hlt|[->|Hgt]].
    - by apply (H3 k).
    - rewrite Hi in Hk. injection Hk as <-. specialize (H4 bi Hi). rewrite decide_False in H4 by (by intros [? _]).
      by apply (clean_app _ _ _ o).
    - specialize (H2 k b Hk ltac:(lia) ltac:(by left)). by rewrite decide_False in H2 by lia. }
  apply Hall. destruct (block_pages b) as (base & m & -> & -> & _ & _ & _ & _ & Hiff); [by apply list_elem_of_lookup_2 in Hk|].
  apply Hiff in Hp. rewrite (Z.mul_comm 4096 base), (Z.mul_comm 4096 m), !Z.div_mul by lia. lia.
Qed.

(** The induction hypothesis of the loop. *)
Definition loop_ok (fuel : nat) : Prop := forall st ld c j o b, linked last_stage st ld -> ram_bulk_stage st = false ->
  last_seen_block st = Some i -> last_offset st = 4096 * q ->
  blocks !! j = Some b -> 0 <= o -> 4096 * o <= rb_length (nb_block b) -> round st i q c j o ->
  (Z.to_nat (mig_dirty_pages (sv_mig st)) + (if c then i - j else (length blocks - j) + i + 1) < fuel)%nat ->
  exists sent out st', save_block_loop blocks true true ram last_stage fuel j (4096 * o) c st = Ok (sent, out, st') /\
    progress last_stage st ld sent out st'.

(** No dirty page in the rest of block [j]: stop, or go to the next block. *)
Lemma block_clean other fuel st ld c j o b m : loop_ok fuel -> linked last_stage st ld -> ram_bulk_stage st = false ->
  last_seen_block st = Some i -> last_offset st = 4096 * q ->
  blocks !! j = Some b -> rb_length (nb_block b) = 4096 * m -> 0 <= m -> round st i q c j o ->
  clean st b o (rb_length (nb_block b) / 4096) ->
  (Z.to_nat (mig_dirty_pages (sv_mig st)) + (if c then i - j else (length blocks - j) + i + 1) < S fuel)%nat ->
  exists sent out st',
    (if c && bool_decide (last_seen_block st = Some j) && (last_offset st <=? 4096 * m)
     then Ok (0, [], now_at j (4096 * m) (last_sent_block st) st)
     else if 4096 * m <=? 4096 * m then
       if decide (S j < length blocks)%nat then save_block_loop blocks true true ram last_stage fuel (S j) 0 c st
       else save_block_loop blocks true true ram last_stage fuel 0 0 true (end_bulk st)
     else other) = Ok (sent, out, st') /\ progress last_stage st ld sent out st'.
Proof.
  intros IH Hlk Hbk Hseen Hoff Hj El Hm Hrd Hcl Hfuel. rewrite Hseen, Hoff, Z.leb_refl.
  pose proof (lookup_lt_Some _ _ _ Hj) as Hjl. pose proof (lookup_lt_Some _ _ _ Hi) as Hil.
  destruct (c && bool_decide (Some i = Some j) && (4096 * q <=? 4096 * m)) eqn:Estop.
  - apply andb_true_iff in Estop as [[-> Hij%bool_decide_eq_true]%andb_true_iff _].
    assert (j = i) as -> by congruence. assert (b = bi) as -> by congruence.
    eexists _, _, _. split; [done|]. split_and!; [|done|done|].
    + right. split; [done|]. exists i, bi, m. split_and!; try done. lia.
    + left. split_and!; [done|done|by apply linked_now|]. by apply (round_done st o).
  - assert (c = true -> (j < i)%nat) as Hlt.
    { intros ->. pose proof (rd_dir _ _ _ _ _ _ Hrd) as Hd. cbn in Hd, Estop.
      destruct (decide (j = i)) as [->|]; [|lia]. rewrite bool_decide_eq_true_2 in Estop by done.
      assert (b = bi) as -> by congruence. cbn in Estop. lia. }
    pose proof (round_next st i q c j o b Hrd Hj Hcl Hlt) as Hnext. destruct (decide _) as [Hsj|Hsj].
    + destruct (lookup_lt_is_Some_2 blocks (S j) Hsj) as [b' Hb'].
      destruct (block_pages b') as (_ & m' & _ & El' & _ & Hm' & _); [by apply list_elem_of_lookup_2 in Hb'|].
      apply (IH st ld c (S j) 0 b'); try done; [lia|]. destruct c; [specialize (Hlt eq_refl)|]; lia.
    + destruct c; [specialize (Hlt eq_refl); lia|].
      assert (end_bulk st = st) as -> by (destruct st; cbn in *; by subst).
      destruct (lookup_lt_is_Some_2 blocks 0 ltac:(lia)) as [b' Hb'].
      destruct (block_pages b') as (_ & m' & _ & El' & _ & Hm' & _); [by apply list_elem_of_lookup_2 in Hb'|].
      apply (IH st ld true 0%nat 0 b'); try done; [lia| |lia]. split; [lia|..].
      * intros k b'' Hk Hik _. apply (rd_old _ _ _ _ _ _ Hnext k); try done. right. apply lookup_lt_Some in Hk. lia.
      * intros k b'' _ _ ?. lia.
      * intros b'' _ p Hp. rewrite decide_False in Hp by (by intros [? _]). lia.
Qed.

(** A dirty page of block [j]: send it, or skip it and go on from there. *)
Lemma block_dirty fuel st ld c j o b r mig : loop_ok fuel -> linked last_stage st ld -> ram_bulk_stage st = false ->
  last_seen_block st = Some i -> last_offset st = 4096 * q ->
  blocks !! j = Some b -> 0 <= o <= r -> 4096 * r < rb_length (nb_block b) -> round st i q c j o -> clean st b o r ->
  dirty st (rb_offset (nb_block b) / 4096 + r) = true ->
  mig_ok pages mig -> mig_ram mig = mig_ram (sv_mig st) -> mig_dirty_pages mig = mig_dirty_pages (sv_mig st) - 1 ->
  (forall p, 0 <= p -> bit (mig_bitmap mig) p = negb (p =? rb_offset (nb_block b) / 4096 + r) && dirty st p) ->
  (Z.to_nat (mig_dirty_pages (sv_mig st)) + (if c then i - j else (length blocks - j) + i + 1) < S fuel)%nat ->
  let st1 := with_mig mig st in
  let cont := bool_decide (last_sent_block st1 = Some j) in
  exists sent out st',
    ('(bytes_sent, msg, cache) ←
       ram_save_page true (ram_bulk_stage st1) true last_stage (sv_cache st1) (ram (u64 (rb_offset (nb_block b) + 4096 * r)))
         (u64 (rb_offset (nb_block b) + 4096 * r)) (hdr_size b cont);
     let st := with_cache cache st1 in
     if 0 <? bytes_sent then
       Ok (bytes_sent, match msg with Some m => record_bytes b (4096 * r) cont m | None => [] end,
           now_at j (4096 * r) (Some j) st)
     else save_block_loop blocks true true ram last_stage fuel j (4096 * r) c st) = Ok (sent, out, st') /\
    progress last_stage st ld sent out st'.
Proof.
  intros IH Hlk Hbk Hseen Hoff Hj Ho Hr Hrd Hcl Hd Hmig Hram Hdec Hbits Hfuel st1 cont.
  destruct (block_pages b) as (base & m & Eo & El & Hbase & _ & _ & Hov & _); [by apply list_elem_of_lookup_2 in Hj|].
  unfold TARGET_PAGE_SIZE in Hov. rewrite wrap_small by lia.
  destruct (send_page last_stage st ld j b r mig) as (sent & msg & cache & E & Hres); try done; try lia; [by rewrite Hbk|].
  assert (forall p, 0 <= p -> dirty (with_cache cache st1) p = true -> dirty st p = true) as Hsub.
  { intros p Hp. cbn. rewrite Hbits by done. by intros [_ ?]%andb_true_iff. }
  cbn [st1 with_mig ram_bulk_stage sv_cache last_sent_block] in *. subst cont. rewrite E. cbn [mbind outcome_bind].
  destruct Hres as [(-> & -> & Hlk1)|(msg' & ld' & -> & Hpos & Hlen & Hlk1 & Hload)].
  - cbn [Z.ltb Z.compare]. pose proof (dirty_pages_nonneg mig Hmig).
    destruct (IH (with_cache cache st1) ld c j r b) as (sent & out & st' & -> & Hpr); try done; try lia.
    + apply (round_sub st (with_cache cache st1)) in Hrd as [H1 H2 H3 H4]; [|done|exact Hsub]. split; try done. intros b' Hb'.
      assert (b' = b) as -> by congruence. apply (clean_app _ _ _ o); [by apply H4|].
      apply (clean_sub st); [lia|lia|done|done].
    + cbn [with_cache st1 with_mig sv_mig]. lia.
    + eexists _, _, _. split; [done|]. apply (progress_after _ _ (with_cache cache st1)); try done. cbn. lia.
  - rewrite (proj2 (Z.ltb_lt 0 sent)) by done. eexists _, _, _. split; [done|]. split_and!; [|done|done|].
    + right. split; [done|]. exists j, b, r. split_and!; try done; lia.
    + right. split_and!; [done|done|cbn; lia|]. by exists ld'.
Qed.

Lemma save_loop_ok : forall fuel, loop_ok fuel.
Proof.
  induction fuel as [|fuel IH]; intros st ld c j o b Hlk Hbk Hseen Hoff Hj Ho Hob Hrd Hfuel; [lia|].
  cbn [save_block_loop]. rewrite Hj, Hbk.
  destruct (block_pages b) as (base & m & Eo & El & Hbase & Hm & Hpg & Hov & _); [by apply list_elem_of_lookup_2 in Hj|].
  assert (rb_offset (nb_block b) / 4096 = base) as Eb by (rewrite Eo, Z.mul_comm; by apply Z.div_mul).
  assert (rb_length (nb_block b) / 4096 = m) as Em by (rewrite El, Z.mul_comm; by apply Z.div_mul).
  destruct (find_reset_ok false pages (sv_mig st) base m o (lk_mig _ _ _ Hlk)) as (r & mig & E & Hmig & Hram & Hr & Hz & Hres); [lia..|by left|].
  rewrite <- Eo, <- El in E. rewrite E. cbn [mbind outcome_bind].
  assert (clean st b o r) as Hcl by (intros p Hp; apply Hz; lia).
  destruct Hres as [[-> ->]|(Hrm & Hset & Hdec & Hbits)].
  - assert (with_mig (sv_mig st) st = st) as -> by (by destruct st). rewrite El.
    apply (block_clean _ fuel st ld c j o b m); try done; [lia|by rewrite Em].
  - rewrite (proj2 (Z.leb_gt (rb_length (nb_block b)) (4096 * r))) by lia.
    assert (c && bool_decide (last_seen_block (with_mig mig st) = Some j) && (last_offset (with_mig mig st) <=? 4096 * r) = false) as ->.
    { destruct c; [|done]. cbn [andb with_mig last_seen_block last_offset]. rewrite Hseen, Hoff. case_bool_decide as Hij; [|done].
      assert (j = i) as -> by congruence. apply Z.leb_gt. destruct (Z.lt_ge_cases r q) as [|Hge]; [lia|]. exfalso.
      pose proof (rd_old _ _ _ _ _ _ Hrd i b Hj ltac:(lia) ltac:(by left)) as Hc. rewrite decide_True in Hc by done.
      specialize (Hc (base + r) ltac:(lia)). congruence. }
    apply (block_dirty fuel st ld c j o b r mig); try done; [lia|lia|by rewrite Eb|by rewrite Eb].
Qed.
End Loop.

(** A page taken in the bulk stage is sent, and the stage goes on after it. *)
Lemma bulk_send last_stage fuel st ld j o b r mig : linked last_stage st ld -> bulk_ok st ->
  blocks !! j = Some b -> 0 <= r -> 4096 * r < rb_length (nb_block b) -> dirty st (rb_offset (nb_block b) / 4096 + r) = true ->
  migration_bitmap_find_and_reset_dirty true (rb_offset (nb_block b)) (rb_length (nb_block b)) (4096 * o) (sv_mig st) = Ok (4096 * r, mig) ->
  mig_ok pages mig -> mig_ram mig = mig_ram (sv_mig st) -> mig_dirty_pages mig = mig_dirty_pages (sv_mig st) - 1 ->
  (forall p, 0 <= p -> bit (mig_bitmap mig) p = negb (p =? rb_offset (nb_block b) / 4096 + r) && dirty st p) ->
  (forall k p, (j < k)%nat \/ k = j /\ r < p -> ahead st k p) ->
  exists sent out st', save_block_loop blocks true true ram last_stage (S fuel) j (4096 * o) false st = Ok (sent, out, st') /\
    progress last_stage st ld sent out st'.
Proof.
  intros Hlk Hbk Hj Hr Hrm Hd E Hmig Hram Hdec Hbits Hahead. pose proof Hbk as [B1 B2 B3 B4 B5].
  destruct (block_pages b) as (base & m & Eo & El & Hbase & _ & _ & Hov & _); [by apply list_elem_of_lookup_2 in Hj|]. unfold TARGET_PAGE_SIZE in Hov.
  assert (rb_offset (nb_block b) / 4096 = base) as Eb by (rewrite Eo, Z.mul_comm; by apply Z.div_mul).
  cbn [save_block_loop]. rewrite Hj, B1, E. cbn [mbind outcome_bind andb]. rewrite (proj2 (Z.leb_gt (rb_length (nb_block b)) (4096 * r))) by lia.
  rewrite wrap_small by lia. destruct (send_page last_stage st ld j b r mig) as (sent & msg & cache & Ep & Hres); try done.
  cbn [with_mig ram_bulk_stage sv_cache last_sent_block]. rewrite B1 in Ep |- *. rewrite Ep. cbn [mbind outcome_bind].
  destruct (ram_save_page_bulk _ _ _ _ _ _ _ _ _ _ Ep) as [-> Hmsg].
  destruct Hres as [(_ & -> & _)|(msg' & ld' & -> & Hpos & Hlen & Hlk1 & Hload)]; [done|].
  rewrite (proj2 (Z.ltb_lt 0 sent)) by done. eexists _, _, _. split; [done|]. split_and!; [|done| |].
  - left. split; cbn [now_at with_cache with_mig sv_mig sv_cache ram_bulk_stage last_seen_block last_offset]; try done.
    + right. exists j, b, r. by split_and!.
    + intros k b' p Hk Hp Hpm Ha. destruct (block_pages b') as (base' & m' & Eo' & El' & Hbase' & _ & _ & _ & Hiff'); [by apply list_elem_of_lookup_2 in Hk|].
      assert (rb_offset (nb_block b') / 4096 = base') as Eb' by (rewrite Eo', Z.mul_comm; by apply Z.div_mul).
      rewrite Hbits by lia. cbn in Ha. rewrite (B4 k b' p Hk Hp Hpm) by (apply Hahead; destruct Ha as [?|[-> ?]]; [by left|right; split; [done|lia]]). rewrite andb_true_r.
      apply negb_true_iff, Z.eqb_neq. intros Eq. assert (k = j) as ->.
      { apply (cf_apart Hcf k j b' b (base' + p)); try done; [apply Hiff'; lia|]. rewrite <- Eb', Eq. destruct (block_pages b) as (base1 & m1 & Eo1 & El1 & _ & _ & _ & _ & Hiff); [by apply list_elem_of_lookup_2 in Hj|]. apply Hiff. lia. }
      assert (b' = b) as -> by congruence. destruct Ha as [?|[_ ?]]; lia.
    + intros b' q' (i' & [= <-] & _ & Hb' & Hq' & _). assert (b' = b) as -> by congruence. cbn in Hq'. assert (q' = r) as -> by lia. by rewrite Hbits, Z.eqb_refl by lia.
  - intros p Hp. cbn. rewrite Hbits by done. by intros [_ ?]%andb_true_iff.
  - right. split_and!; [done|done|cbn; lia|]. by exists ld'.
Qed.

(** The bulk stage at the start of a block all of which is ahead. *)
Lemma bulk_block last_stage fuel st ld j b : linked last_stage st ld -> bulk_ok st -> blocks !! j = Some b ->
  (forall k p, (j <= k)%nat -> ahead st k p) ->
  exists sent out st', save_block_loop blocks true true ram last_stage (S fuel) j 0 false st = Ok (sent, out, st') /\
    progress last_stage st ld sent out st'.
Proof.
  intros Hlk Hbk Hj Ha. destruct (block_pages b) as (base & m & Eo & El & Hbase & Hm & Hpg & _ & _); [by apply list_elem_of_lookup_2 in Hj|].
  assert (rb_offset (nb_block b) / 4096 = base) as Eb by (rewrite Eo, Z.mul_comm; by apply Z.div_mul).
  destruct (find_reset_ok true pages (sv_mig st) base m 0 (lk_mig _ _ _ Hlk)) as (r & mig & E & Hmig & Hram & Hr & Hz & Hres); [lia..|by right|].
  pose proof (bk_ahead _ Hbk j b 0 Hj ltac:(lia) ltac:(lia) ltac:(apply Ha; lia)) as Hd0. rewrite Eb, Z.add_0_r in Hd0.
  destruct Hres as [[-> ->]|(Hrm & Hset & Hdec & Hbits)]; [rewrite Hz in Hd0 by lia; done|].
  change 0 with (4096 * 0). rewrite <- Eo, <- El in E. apply (bulk_send last_stage fuel st ld j 0 b r mig); rewrite ?Eb; try done; try lia.
  intros k p Hkp. apply Ha; lia.
Qed.

(** The end of the bulk stage: the second round begins. *)
Lemma bulk_ends last_stage fuel st ld i bi q : linked last_stage st ld -> bulk_ok st -> last_seen_block st = Some i -> last_offset st = 4096 * q ->
  blocks !! i = Some bi -> S i = length blocks -> 0 <= q -> 4096 * q <= rb_length (nb_block bi) -> clean st bi q (rb_length (nb_block bi) / 4096) ->
  (Z.to_nat (mig_dirty_pages (sv_mig st)) + i < fuel)%nat ->
  exists sent out st', save_block_loop blocks true true ram last_stage fuel 0 0 true (end_bulk st) = Ok (sent, out, st') /\
    progress last_stage st ld sent out st'.
Proof.
  intros Hlk Hbk Hseen Hoff Hi Hlast Hq Hqi Hcl Hfuel. destruct (lookup_lt_is_Some_2 blocks 0 ltac:(lia)) as [b0 Hb0].
  destruct (block_pages b0) as (_ & m' & _ & El' & _ & Hm' & _); [by apply list_elem_of_lookup_2 in Hb0|].
  destruct (save_loop_ok last_stage i bi q Hi Hq Hqi fuel (end_bulk st) ld true 0%nat 0 b0) as (sent & out & st' & E & Hpr); try done; try lia.
  - by destruct Hlk.
  - split; [lia|..].
    + intros k b' Hk Hik _. apply lookup_lt_Some in Hk as Hlt. assert (k = i) as -> by lia. rewrite decide_True by done. assert (b' = bi) as -> by congruence. exact Hcl.
    + intros k b' _ _ ?. lia.
    + intros b' _ p Hp. rewrite decide_False in Hp by (by intros [? _]). lia.
  - cbn. lia.
  - exists sent, out, st'. split; [exact E|]. by apply (progress_after _ _ (end_bulk st)).
Qed.

Lemma save_block_bulk last_stage st ld : linked last_stage st ld -> bulk_ok st ->
  exists sent out st', ram_save_block blocks true true ram last_stage st = Ok (sent, out, st') /\
    progress last_stage st ld sent out st'.
Proof.
  intros Hlk Hbk. unfold ram_save_block, save_fuel. destruct (bk_place _ Hbk) as [(Hn & Ho & Hne)|(i & b & q & Hseen & Hb & Hoff & Hq & Hqb)].
  { rewrite Hn, Ho. cbn [default]. destruct (lookup_lt_is_Some_2 blocks 0) as [b Hb]; [destruct blocks; [done|cbn; lia]|].
    rewrite Nat.add_succ_r. apply (bulk_block last_stage _ st ld 0%nat b); try done. intros k p _. unfold ahead. by rewrite Hn. }
  rewrite Hseen, Hoff. cbn [default]. change (id i) with i. rewrite Nat.add_succ_r. set (fuel := (_ + 1)%nat).
  destruct (block_pages b) as (base & m & Eo & El & Hbase & Hm & Hpg & _ & _); [by apply list_elem_of_lookup_2 in Hb|].
  assert (rb_offset (nb_block b) / 4096 = base) as Eb by (rewrite Eo, Z.mul_comm; by apply Z.div_mul).
  assert (rb_length (nb_block b) / 4096 = m) as Em by (rewrite El, Z.mul_comm; by apply Z.div_mul).
  assert (Hnext : forall p, q < p < m -> dirty st (base + p) = true).
  { intros p Hp. rewrite <- Eb. apply (bk_ahead _ Hbk i b p Hb); [lia|lia|]. unfold ahead. rewrite Hseen, Hoff. right. split; [done|lia]. }
  assert (Hfind : exists r mig, migration_bitmap_find_and_reset_dirty true (rb_offset (nb_block b)) (rb_length (nb_block b)) (4096 * q) (sv_mig st) = Ok (4096 * r, mig) /\
    mig_ok pages mig /\ mig_ram mig = mig_ram (sv_mig st) /\ q <= r <= m /\
    (r = m /\ mig = sv_mig st /\ ((0 < q /\ q + 1 = m) \/ clean st b q m) \/
     r < m /\ dirty st (base + r) = true /\ mig_dirty_pages mig = mig_dirty_pages (sv_mig st) - 1 /\
     forall p, 0 <= p -> bit (mig_bitmap mig) p = negb (p =? base + r) && dirty st p)).
  { rewrite Eo, El. destruct (Z.eq_dec q 0) as [->|Hq0].
    - destruct (find_reset_ok true pages (sv_mig st) base m 0 (lk_mig _ _ _ Hlk)) as (r & mig & E & Hmig & Hram & Hr & Hz & Hres); [lia..|by right|].
      exists r, mig. split_and!; try done; try lia. destruct Hres as [[-> ->]|Hres]; [left; split_and!; try done|by right]. right. intros p Hp. apply Hz. lia.
    - destruct (find_reset_bulk pages (sv_mig st) base m q (lk_mig _ _ _ Hlk)) as (mig & E & Hmig & Hram & Hres); [lia..|intros; apply Hnext; lia|].
      exists (q + 1), mig. split_and!; try done; try lia. destruct Hres as [[Hlast ->]|(Hlt & Hd & Hbits)]; [left; split_and!; try done; left; lia|right].
      split_and!; try done. apply Hnext. lia. }
  destruct Hfind as (r & mig & E & Hmig & Hram & Hr & Hres). destruct Hres as [(-> & -> & Hend)|(Hrm & Hset & Hdec & Hbits)].
  2:{ apply (bulk_send last_stage fuel st ld i q b r mig); rewrite ?Eb; try done; try lia. intros k p Hkp. unfold ahead. rewrite Hseen, Hoff. destruct Hkp as [?|[-> ?]]; [by left|right; split; [done|lia]]. }
  cbn [save_block_loop]. rewrite Hb, (bk_stage _ Hbk), E. cbn [mbind outcome_bind andb]. rewrite <- El, Z.leb_refl.
  assert (with_mig (sv_mig st) st = st) as -> by (by destruct st). destruct (decide _) as [Hs|Hs].
  - destruct (lookup_lt_is_Some_2 blocks (S i) Hs) as [b' Hb']. unfold fuel. rewrite Nat.add_1_r.
    apply (bulk_block last_stage _ st ld (S i) b'); try done. intros k p Hk. unfold ahead. rewrite Hseen. left. lia.
  - apply lookup_lt_Some in Hb as Hil. apply (bulk_ends last_stage fuel st ld i b q); try done; [lia|lia| |unfold fuel; lia]. rewrite Em.
    destruct Hend as [[Hq0 Hlast]|Hcl]; [|done]. intros p Hp. rewrite Eb in Hp. assert (p = base + q) as -> by lia. rewrite <- Eb. apply (bk_last _ Hbk).
    exists i. split_and!; try done; lia.
Qed.

Lemma save_block_ok last_stage st ld : linked last_stage st ld -> staged st ->
  exists sent out st', ram_save_block blocks true true ram last_stage st = Ok (sent, out, st') /\
    progress last_stage st ld sent out st'.
Proof.
  intros Hlk [Hbk|[Hbk (i & b & q & Hseen & Hb & Hoff & Hq & Hqb)]]; [by apply save_block_bulk|]. unfold ram_save_block. rewrite Hseen, Hoff. cbn [default].
  apply (save_loop_ok last_stage i b q Hb Hq Hqb _ st ld false i q b); try done.
  - split; [lia|intros k b' _ ? [?|?]; [done|lia]|done|]. intros b' _ p Hp. rewrite decide_True in Hp by done. lia.
  - unfold save_fuel. apply lookup_lt_Some in Hb. lia.
Qed.

(** ** Completing the migration *)
(** The receiver reads [out] record by record. *)
Inductive loads : list Z -> LoadState -> LoadState -> Prop :=
| loads_nil ld : loads [] ld ld
| loads_record out1 out2 ld ld1 ld2 : out1 <> [] ->
    (forall rest, ram_load_iter blocks (stream (out1 ++ rest) 0) ld = Ok (None, stream rest 0, ld1)) ->
    loads out2 ld1 ld2 -> loads (out1 ++ out2) ld ld2.

Lemma loads_loop out ld ld' : loads out ld ld' -> forall k fuel rest, (length out + k <= fuel)%nat ->
  exists fuel', (k <= fuel')%nat /\
    ram_load_loop blocks fuel (stream (out ++ rest) 0) ld = ram_load_loop blocks fuel' (stream rest 0) ld'.
Proof.
  induction 1 as [ld|out1 out2 ld ld1 ld2 Hne Hiter _ IH]; intros k fuel rest Hf; [by exists fuel|].
  rewrite length_app in Hf. assert (0 < length out1)%nat by (destruct out1; [done|cbn; lia]).
  destruct fuel as [|fuel]; [lia|]. cbn [ram_load_loop]. rewrite <- app_assoc, Hiter. cbn [mbind outcome_bind].
  apply IH. lia.
Qed.

Lemma load_eos rest ld :
  ram_load_iter blocks (stream (qemu_put_be64 RAM_SAVE_FLAG_EOS ++ rest) 0) ld = Ok (Some 0, stream rest 0, ld).
Proof. unfold ram_load_iter. rewrite get_put_be64 by done. done. Qed.

Lemma save_all_ok : forall fuel st ld, linked true st ld -> staged st ->
  (Z.to_nat (mig_dirty_pages (sv_mig st)) < fuel)%nat ->
  exists out st' ld', save_all blocks true true ram fuel st = Ok (out, st') /\ loads out ld ld' /\
    linked true st' ld' /\ mig_ram (sv_mig st') = mig_ram (sv_mig st) /\
    forall b p, b ∈ blocks -> page_of b p -> dirty st' p = false.
Proof.
  induction fuel as [|fuel IH]; intros st ld Hlk Hst Hf; [lia|]. cbn [save_all].
  destruct (save_block_ok true st ld Hlk Hst) as (sent & out & st1 & -> & Hst1 & Hram & _ & Hres). cbn [mbind outcome_bind].
  destruct Hres as [(-> & -> & Hlk1 & Hcl)|(Hpos & Hlen & Hdec & ld1 & Hlk1 & Hload)].
  - cbn [Z.eqb]. exists [], st1, ld. split_and!; try done. constructor.
  - rewrite (proj2 (Z.eqb_neq sent 0)) by lia. pose proof (dirty_pages_nonneg _ (lk_mig _ _ _ Hlk1)).
    destruct (IH st1 ld1 Hlk1 Hst1 ltac:(lia)) as (out2 & st2 & ld2 & -> & Hl2 & Hlk2 & Hram2 & Hcl2).
    cbn [mbind outcome_bind]. exists (out ++ out2), st2, ld2. split_and!; try done; [|congruence].
    apply (loads_record out out2 ld ld1); try done. intros ->. cbn in *. lia.
Qed.

(** Room for the cache's ages: no more than 2^31 pages are sent at a time. *)
Definition ages_left (st : SaveState) : Prop := max_item_age (sv_cache st) + 2 ^ 31 < 2 ^ 64.

(** Collecting the dirty log keeps the two sides in step, also for the last
    stage. *)
Lemma linked_sync last_stage st ld mig : linked false st ld -> ages_left st ->
  migration_bitmap_sync (nb_block <$> blocks) (sv_mig st) = Ok mig ->
  linked last_stage (with_mig mig st) ld /\
  forall b p, b ∈ blocks -> page_of b p -> logged (with_mig mig st) p = false.
Proof.
  intros [Hm Hc Hsz Hage Hmir Hmem Hsent Hcl] Hleft E.
  destruct (sync_collects pages (nb_block <$> blocks) (sv_mig st) Hm) as (mig' & E' & Hm' & Hor & _ & Hlog & _).
  { apply Forall_fmap. exact (cf_blocks Hcf). }
  assert (mig' = mig) as -> by congruence.
  assert (forall b p, b ∈ blocks -> page_of b p -> 0 <= p) as Hpos.
  { intros b' p Hb' Hp. destruct (block_pages b' Hb') as (? & ? & _ & _ & ? & _ & _ & _ & Hiff). apply Hiff in Hp. lia. }
  split.
  - constructor; cbn [with_mig sv_mig sv_cache last_sent_block]; try done.
    + pose proof (mo_count _ _ Hm'). pose proof (mo_int _ _ Hm'). unfold ages_left in Hleft.
      pose proof (cnt_bound (bit (mig_bitmap mig)) (nbits (mig_bitmap mig)) _ 0 eq_refl). lia.
    + eapply mirrors_weaken; [|exact Hmir]. by left.
    + intros b p Hb Hp Hd Hl. apply (Hcl b p Hb Hp); specialize (Hor p (Hpos b p Hb Hp)); rewrite Hd, Hl in Hor;
        by destruct (bit _ _), (page_dirty _ _ _).
  - intros b p Hb Hp. cbn [with_mig sv_mig]. apply (Hlog (nb_block b)); [|by apply (Hpos b)|done].
    apply list_elem_of_fmap. by exists b.
Qed.

(** In the bulk stage the log must not name the page the sender stands at when it
    is the last of all. *)
Definition last_page_unlogged (st : SaveState) : Prop :=
  forall b q, ram_bulk_stage st = true -> at_last_page st b q -> logged st (rb_offset (nb_block b) / 4096 + q) = false.

Lemma staged_sync st mig : mig_ok pages (sv_mig st) -> staged st -> last_page_unlogged st ->
  migration_bitmap_sync (nb_block <$> blocks) (sv_mig st) = Ok mig -> staged (with_mig mig st).
Proof.
  intros Hm [[B1 B2 B3 B4 B5]|[Hbk Hst]] Hun E; [|by right].
  destruct (sync_collects pages (nb_block <$> blocks) (sv_mig st) Hm) as (mig' & E' & Hm' & Hor & Hmono & _).
  { apply Forall_fmap. exact (cf_blocks Hcf). }
  assert (mig' = mig) as -> by congruence.
  assert (Hpos : forall k b p, blocks !! k = Some b -> 0 <= p -> 0 <= rb_offset (nb_block b) / 4096 + p).
  { intros k b p Hk Hp. destruct (proj1 (Forall_lookup _ _) (cf_blocks Hcf) k b Hk) as [[Ho _] _]. pose proof (Z.div_pos (rb_offset (nb_block b)) 4096 Ho ltac:(lia)). lia. }
  left. split; cbn [with_mig sv_mig sv_cache ram_bulk_stage last_seen_block last_offset]; try done.
  - intros k b p Hk Hp Hpm Ha. apply Hmono; [by apply (Hpos k)|]. by apply (B4 k).
  - intros b q Hl. pose proof Hl as (i & _ & _ & Hi & _ & _ & Hq). specialize (Hor _ (Hpos i b q Hi ltac:(lia))). specialize (B5 b q Hl). specialize (Hun b q B1 Hl). rewrite B5, Hun in Hor.
    by apply orb_false_iff in Hor as [? _].
Qed.
End Sync.

(** ** A running migration

    Between two calls of the sender the guest runs: it writes its RAM, which
    the dirty log records. *)
Record World := {
  w_st : SaveState;
  w_ld : LoadState;
  w_ram : Z -> list Z
}.

Definition with_log (d : list words) (m : MigState) : MigState :=
  {| mig_bitmap := mig_bitmap m; mig_dirty_pages := mig_dirty_pages m; mig_ram := d |}.

Inductive live_step (pages : Z) (blocks : list NamedBlock) : World -> World -> Prop :=
| guest_writes w p page d :
    0 <= p < pages -> Z.of_nat (length page) = TARGET_PAGE_SIZE -> bytes_ok page ->
    cpu_physical_memory_set_dirty_range (4096 * p) TARGET_PAGE_SIZE (mig_ram (sv_mig (w_st w))) = Ok d ->
    live_step pages blocks w
      {| w_st := with_mig (with_log d (sv_mig (w_st w))) (w_st w); w_ld := w_ld w; w_ram := put (w_ram w) (4096 * p) page |}
| sender_syncs w mig :
    ages_left (w_st w) -> last_page_unlogged blocks (w_st w) -> migration_bitmap_sync (nb_block <$> blocks) (sv_mig (w_st w)) = Ok mig ->
    live_step pages blocks w {| w_st := with_mig mig (w_st w); w_ld := w_ld w; w_ram := w_ram w |}
| sender_sends w sent out st ld :
    ram_save_block blocks true true (w_ram w) false (w_st w) = Ok (sent, out, st) ->
    (if sent =? 0 then ld = w_ld w
     else ram_load_iter blocks (stream out 0) (w_ld w) = Ok (None, stream [] 0, ld)) ->
    live_step pages blocks w {| w_st := st; w_ld := ld; w_ram := w_ram w |}.

Definition live_ok (pages : Z) (blocks : list NamedBlock) (w : World) : Prop :=
  config_ok pages blocks (w_ram w) /\ linked pages blocks (w_ram w) false (w_st w) (w_ld w) /\ staged blocks (w_st w).

Lemma guest_write_ok pages blocks w p page d : live_ok pages blocks w ->
  0 <= p < pages -> Z.of_nat (length page) = TARGET_PAGE_SIZE -> bytes_ok page ->
  cpu_physical_memory_set_dirty_range (4096 * p) TARGET_PAGE_SIZE (mig_ram (sv_mig (w_st w))) = Ok d ->
  live_ok pages blocks
    {| w_st := with_mig (with_log d (sv_mig (w_st w))) (w_st w); w_ld := w_ld w; w_ram := put (w_ram w) (4096 * p) page |}.
Proof.
  intros (Hcf & Hlk & Hst) Hp Hlen Hb E.
  pose proof Hlk as [[M1 M2 M3 M4 M5] Hc Hsz Hage Hmir Hmem Hsent Hcl]. pose proof Hcf as [C1 C2 C3 C4].
  assert (0 <= 4096 * p /\ 0 < TARGET_PAGE_SIZE /\ 4096 * p + TARGET_PAGE_SIZE + TARGET_PAGE_SIZE <= 2 ^ 64) as Hr
    by (unfold TARGET_PAGE_SIZE; lia).
  destruct (pages_of (4096 * p) TARGET_PAGE_SIZE) as [Hlo Hhi]; [lia..|].
  assert (first_page (4096 * p) = p /\ end_page (4096 * p) TARGET_PAGE_SIZE = p + 1) as [Elo Ehi].
  { rewrite Hlo, Hhi. unfold TARGET_PAGE_SIZE. Z.div_mod_to_equations. lia. }
  destruct (set_dirty_range_spec pages (4096 * p) TARGET_PAGE_SIZE (mig_ram (sv_mig (w_st w))) M5 Hr ltac:(lia))
    as (d' & E' & Hd' & Hdp). rewrite E in E'. injection E' as <-. rewrite Elo, Ehi in Hdp.
  split_and!; [split; [done|done|done|]| |destruct Hst as [[B1 B2 B3 B4 B5]|Hst]; [left; by split|by right]].
  - intros a. cbn [w_ram]. unfold put. by destruct (a =? _).
  - constructor; cbn [w_st w_ld w_ram with_mig with_log sv_mig sv_cache mig_bitmap mig_dirty_pages mig_ram
      last_sent_block]; try done.
    intros b q Hb' Hq Hd Hlog. destruct (block_pages pages blocks (w_ram w) Hcf b Hb') as (? & ? & _ & _ & ? & _ & _ & _ & Hiff).
    pose proof (proj1 (Hiff q) Hq). rewrite Hdp in Hlog by (done || lia). apply orb_false_iff in Hlog as [Hne Hlog].
    unfold put. rewrite (proj2 (Z.eqb_neq (4096 * q) (4096 * p))) by lia. by apply (Hcl b).
Qed.

Lemma live_step_ok pages blocks w w' : live_step pages blocks w w' -> live_ok pages blocks w -> live_ok pages blocks w'.
Proof.
  intros [w1 p page d Hp Hlen Hb E|w1 mig Hleft Hun E|w1 sent out st ld E Hload] Hok; [by apply guest_write_ok|..];
    destruct Hok as (Hcf & Hlk & Hst).
  - split_and!; [done|by apply (linked_sync pages blocks (w_ram w1) Hcf false)|]. apply (staged_sync pages blocks (w_ram w1) Hcf); try done. apply Hlk.
  - destruct (save_block_ok pages blocks (w_ram w1) Hcf false (w_st w1) (w_ld w1) Hlk Hst)
      as (sent' & out' & st' & E' & Hst' & _ & _ & Hres). rewrite E in E'. injection E' as <- <- <-.
    split_and!; [done| |done]. cbn [w_st w_ld w_ram].
    destruct Hres as [(-> & -> & Hlk' & _)|(Hpos & _ & _ & ld' & Hlk' & Hl)]; [cbn in Hload; by subst ld|].
    rewrite (proj2 (Z.eqb_neq sent 0)) in Hload by lia. specialize (Hl []). rewrite app_nil_r in Hl.
    rewrite Hl in Hload. by injection Hload as <-.
Qed.

Lemma complete_ok pages blocks w : live_ok pages blocks w -> ages_left (w_st w) -> last_page_unlogged blocks (w_st w) ->
  exists out st' ld', ram_save_complete blocks true true (w_ram w) (w_st w) = Ok (out, st') /\
    (forall rest, ram_load blocks 4 (stream (out ++ rest) 0) (w_ld w) = Ok (0, stream rest 0, ld')) /\
    forall b p, b ∈ blocks -> in_pages (nb_block b) p -> ld_mem ld' (4096 * p) = w_ram w (4096 * p).
Proof.
  intros (Hcf & Hlk & Hst) Hleft Hun. unfold ram_save_complete.
  destruct (sync_collects pages (nb_block <$> blocks) (sv_mig (w_st w)) (lk_mig _ _ _ _ _ _ Hlk)) as (mig & E & Hm & _).
  { apply Forall_fmap. exact (cf_blocks _ _ _ Hcf). }
  rewrite E. cbn [mbind outcome_bind]. destruct (linked_sync pages blocks (w_ram w) Hcf true _ _ mig Hlk Hleft E) as [Hlk1 Hlog].
  destruct (save_all_ok pages blocks (w_ram w) Hcf (S (Z.to_nat (mig_dirty_pages mig))) (with_mig mig (w_st w)) (w_ld w) Hlk1)
    as (out & st' & ld' & -> & Hl & Hlk2 & Hram & Hcl); [apply (staged_sync pages blocks (w_ram w) Hcf); try done; apply Hlk|cbn; lia|].
  cbn [mbind outcome_bind]. exists (out ++ qemu_put_be64 RAM_SAVE_FLAG_EOS), st', ld'. split; [done|]. split.
  - intros rest. unfold ram_load. cbn [Z.eqb Pos.eqb negb in_bytes]. rewrite <- app_assoc.
    destruct (loads_loop blocks out (w_ld w) ld' Hl 1 (S (length (out ++ qemu_put_be64 RAM_SAVE_FLAG_EOS ++ rest)))
      (qemu_put_be64 RAM_SAVE_FLAG_EOS ++ rest)) as (fuel & Hf & ->); [rewrite length_app; lia|].
    destruct fuel as [|fuel]; [lia|]. cbn [ram_load_loop]. by rewrite load_eos.
  - intros b p Hb Hp. apply (lk_clean _ _ _ _ _ _ Hlk2 b p Hb Hp); [by apply (Hcl b)|]. rewrite Hram. by apply (Hlog b).
Qed.

(** ** Starting a migration *)
Definition total_length (l : list NamedBlock) : Z := foldr (fun b n => rb_length (nb_block b) + n) 0 l.

Lemma total_length_cons b l : total_length (b :: l) = rb_length (nb_block b) + total_length l.
Proof. done. Qed.

Lemma total_length_nonneg l : Forall (fun b => 0 <= rb_length (nb_block b)) l -> 0 <= total_length l.
Proof. induction 1 as [|b l Hb _ IH]; [done|]. rewrite total_length_cons. lia. Qed.

Record startable (blocks : list NamedBlock) (rs : RamState) (cache_size : Z) (ram : Z -> list Z) (ld : LoadState) : Prop := {
  sp_ram : ram_ok rs;
  sp_blocks : rl_blocks rs = nb_block <$> blocks;
  sp_some : blocks <> [];
  sp_names : names_ok blocks;
  sp_size : last_ram_offset rs <= 2 ^ 42;
  sp_total : total_length blocks < 2 ^ 64;
  sp_cache : TARGET_PAGE_SIZE <= cache_size < 2 ^ 63;
  sp_pages a : Z.of_nat (length (ram a)) = TARGET_PAGE_SIZE /\ bytes_ok (ram a);
  sp_dest a : Z.of_nat (length (ld_mem ld a)) = TARGET_PAGE_SIZE /\ bytes_ok (ld_mem ld a)
}.

Lemma named_blocks blocks : Forall block_ok (nb_block <$> blocks) -> Forall (fun b => block_ok (nb_block b)) blocks.
Proof. intros H. apply Forall_forall. intros b Hb. apply (proj1 (Forall_forall _ _) H). apply list_elem_of_fmap. by exists b. Qed.

Lemma apart_pages l : Forall block_ok l -> pairwise_apart l -> forall k1 k2 b1 b2 p, l !! k1 = Some b1 -> l !! k2 = Some b2 -> in_pages b1 p -> in_pages b2 p -> k1 = k2.
Proof.
  intros Hok. induction l as [|b l IH]; intros Hap k1 k2 b1 b2 p H1 H2 P1 P2; [done|]. apply Forall_cons in Hok as [Hb Hok]. destruct Hap as [Hx Hap].
  assert (Hne : forall k b', l !! k = Some b' -> in_pages b p -> in_pages b' p -> False).
  { intros k b' Hk Q1 Q2. pose proof (proj1 (Forall_lookup _ _) Hx k b' Hk) as Ha. pose proof (proj1 (Forall_lookup _ _) Hok k b' Hk) as Hb'.
    unfold apart, in_pages, block_ok, rb_end, TARGET_PAGE_SIZE in *. Z.div_mod_to_equations. lia. }
  destruct k1 as [|k1], k2 as [|k2]; cbn in H1, H2; [done|..].
  - injection H1 as ->. by destruct (Hne k2 b2).
  - injection H2 as ->. by destruct (Hne k1 b1).
  - f_equal. by apply (IH Hok Hap k1 k2 b1 b2 p).
Qed.

Lemma start_config blocks rs cache_size ram ld : startable blocks rs cache_size ram ld ->
  config_ok (last_ram_offset rs / 4096) blocks ram /\ 0 < last_ram_offset rs / 4096 <= 2 ^ 30.
Proof.
  intros [[R1 R2 R3 R4 R5] S2 S3 S4 S5 S6 S7 S8 S9]. pose proof R1 as R1'. rewrite S2 in R1, R2. pose proof (last_ram_offset_spec rs R1') as (L1 & L2 & L3 & L4).
  assert (El : 4096 * (last_ram_offset rs / 4096) = last_ram_offset rs) by (unfold TARGET_PAGE_SIZE in L4; Z.div_mod_to_equations; lia).
  split; [split; try done|].
  - apply Forall_forall. intros b Hb. split; [exact (proj1 (Forall_forall _ _) (named_blocks _ R1) b Hb)|]. rewrite El. apply L1. rewrite S2. apply list_elem_of_fmap. by exists b.
  - intros k1 k2 b1 b2 p H1 H2. apply (apart_pages _ R1 R2 k1 k2 (nb_block b1) (nb_block b2)); by rewrite list_lookup_fmap, ?H1, ?H2.
  - destruct blocks as [|b blocks]; [done|]. rewrite S2 in L1. specialize (L1 (nb_block b) ltac:(cbn; left)). cbn in R1. apply Forall_cons in R1 as [(H1 & H2 & _ & H4 & H5) _].
    unfold rb_end, TARGET_PAGE_SIZE in *. split; [Z.div_mod_to_equations; lia|apply Z.div_le_upper_bound; lia].
Qed.

(** All pages are marked. *)
Lemma setup_bitmap_ok rs : 0 < last_ram_offset rs / 4096 <= 2 ^ 30 -> dirty_ok (last_ram_offset rs / 4096) (rl_dirty rs) ->
  exists mig, ram_save_setup_bitmap rs = Ok mig /\ mig_ok (last_ram_offset rs / 4096) mig /\ forall p, 0 <= p < last_ram_offset rs / 4096 -> bit (mig_bitmap mig) p = true.
Proof.
  unfold ram_save_setup_bitmap, TARGET_PAGE_BITS. rewrite Z.shiftr_div_pow2 by lia. change (2 ^ 12) with 4096. set (n := last_ram_offset rs / 4096). clearbody n. intros Hn Hd.
  destruct (bits_to_longs n ltac:(lia)) as [Hl1 Hl2]. assert (words_ok (bitmap_new n)) as Hw by (apply Forall_replicate; split; lia || done).
  assert (nbits (bitmap_new n) = 64 * BITS_TO_LONGS n) as Hnb by (unfold nbits, bitmap_new; rewrite length_replicate; lia).
  destruct (bitmap_set_filled (bitmap_new n) 0 n Hw) as (bm & -> & Hok & Hlen & Hbits); [lia..|]. cbn [mbind outcome_bind]. eexists. split; [done|].
  assert (nbits bm = 64 * BITS_TO_LONGS n) as Hnb' by (rewrite <- Hnb; unfold nbits; by rewrite Hlen).
  assert (Hb : forall p, 0 <= p -> bit bm p = (p <? n)).
  { intros p Hp. rewrite Hbits by done. rewrite (proj2 (Z.leb_le 0 p)) by done. cbn [andb]. destruct (Z.ltb_spec p (0 + n)), (Z.ltb_spec p n); try done; try lia. apply bit_replicate. }
  cbn [mig_bitmap]. split; [|intros p Hp; rewrite Hb by lia; apply Z.ltb_lt; lia]. split; cbn [mig_bitmap mig_dirty_pages mig_ram]; try done; rewrite ?Hnb'; try lia.
  rewrite (cnt_split _ n _ _ 0 eq_refl) by lia. rewrite (cnt_ext _ (fun _ => true) n _ 0 eq_refl), cnt_const by (intros p Hp; rewrite Hb by lia; apply Z.ltb_lt; lia).
  rewrite (cnt_false _ _ _ n eq_refl) by (intros p Hp; rewrite Hb by lia; apply Z.ltb_ge; lia). lia.
Qed.

Lemma setup_live blocks rs cache_size ram ld st0 : startable blocks rs cache_size ram ld ->
  exists hdr st, ram_save_setup blocks true true cache_size rs st0 = Ok (Some (hdr, st)) /\
    hdr = qemu_put_be64 (Z.lor (ram_bytes_total blocks) RAM_SAVE_FLAG_MEM_SIZE) ++ concat (map size_entry blocks) ++ qemu_put_be64 RAM_SAVE_FLAG_EOS /\
    live_ok (last_ram_offset rs / 4096) blocks {| w_st := st; w_ld := ld; w_ram := ram |}.
Proof.
  intros Hs. destruct (start_config _ _ _ _ _ Hs) as [Hcf Hn]. pose proof Hs as [[R1 R2 R3 R4 R5] S2 S3 S4 S5 S6 S7 S8 S9]. unfold ram_save_setup.
  destruct (setup_bitmap_ok rs Hn R4) as (mig & -> & Hm & Hall). cbn [mbind outcome_bind].
  destruct (cache_init_ok (cache_size / TARGET_PAGE_SIZE) TARGET_PAGE_SIZE) as (cache & -> & Hc & Hsz & Hage & Hempty); [unfold TARGET_PAGE_SIZE in *; Z.div_mod_to_equations; lia|done|]. cbn [mbind outcome_bind].
  destruct (sync_collects _ (nb_block <$> blocks) mig Hm) as (mig' & -> & Hm' & _ & Hmono & _); [apply Forall_fmap; exact (cf_blocks _ _ _ Hcf)|]. cbn [mbind outcome_bind].
  eexists _, _. split; [done|]. split; [done|].
  assert (Hpg : forall b p, b ∈ blocks -> in_pages (nb_block b) p -> bit (mig_bitmap mig') p = true).
  { intros b p Hb Hp. destruct (block_pages _ _ _ Hcf b Hb) as (base & m & _ & _ & ? & ? & ? & _ & Hiff). apply Hiff in Hp. apply Hmono; [lia|]. apply Hall. lia. }
  split_and!; [done| |]; cbn [w_st w_ld w_ram].
  - constructor; cbn [sv_mig sv_cache last_sent_block]; try done.
    + rewrite Hage, (mo_count _ _ Hm'). pose proof (mo_int _ _ Hm'). pose proof (cnt_bound (bit (mig_bitmap mig')) (nbits (mig_bitmap mig')) _ 0 eq_refl). lia.
    + intros a Ha _ Hca. by destruct (Hempty a Ha).
    + intros b p Hb Hp Hd. by rewrite (Hpg b) in Hd.
  - left. split; cbn [sv_mig sv_cache ram_bulk_stage last_seen_block last_offset]; try done.
    + by left.
    + intros k b p Hk Hp Hpm _. apply list_elem_of_lookup_2 in Hk as Hb. apply (Hpg b _ Hb). destruct (block_pages _ _ _ Hcf b Hb) as (base & m & -> & El & _ & _ & _ & _ & Hiff). apply Hiff.
      rewrite El in Hpm. rewrite (Z.mul_comm 4096 base), Z.div_mul by lia. lia.
    + by intros b q (i & ? & _).
Qed.

(** The receiver accepts the block list. *)
Lemma load_sizes_ok blocks : names_ok blocks -> forall l fuel total id rest, Forall (fun b => b ∈ blocks /\ 0 < rb_length (nb_block b)) l ->
  total = total_length l -> total < 2 ^ 64 -> (length l < fuel)%nat ->
  load_sizes blocks fuel total id (stream (concat (map size_entry l) ++ rest) 0) = Ok (None, stream rest 0).
Proof.
  intros Hn. induction l as [|b l IH]; intros fuel total id rest Hl Ht Hlt Hf; destruct fuel as [|fuel]; try lia; cbn [load_sizes map concat app]; [by rewrite Ht|].
  apply Forall_cons in Hl as [[Hb Hpos] Hl]. apply list_elem_of_lookup in Hb as [k Hk]. destruct (proj1 (Forall_lookup _ _) (proj1 Hn) k b Hk) as [Hlen _].
  assert (Hnn : 0 <= total_length l).
  { apply total_length_nonneg. eapply Forall_impl; [exact Hl|]. intros x [_ ?]. lia. }
  rewrite total_length_cons in Ht. rewrite (proj2 (Z.eqb_neq total 0)) by lia.
  unfold size_entry at 1. unfold qemu_put_byte at 1. rewrite <- !app_assoc. cbn [app qemu_get_byte in_bytes last_error]. rewrite wrap_small by lia.
  rewrite get_buffer_app. rewrite get_put_be64 by (unfold in_u; lia). rewrite Nat2Z.id, take_insert_ge by lia. unfold refilled at 1. rewrite take_app_length.
  rewrite (find_id_self blocks b Hn 0 k Hk). cbn [Nat.add]. rewrite Hk, Z.eqb_refl, wrap_small by lia. cbn [length] in Hf. apply IH; try done; lia.
Qed.

Lemma total_of_blocks l : forall z, 0 <= z -> Forall (fun b => 0 <= rb_length (nb_block b)) l -> z + total_length l < 2 ^ 64 ->
  foldl (fun total b => u64 (total + rb_length (nb_block b))) z l = z + total_length l.
Proof.
  induction l as [|b l IH]; intros z Hz Hl Hlt; cbn [foldl]; [cbn; lia|]. rewrite total_length_cons in *. apply Forall_cons in Hl as [Hb Hl].
  assert (Hnn : 0 <= total_length l) by (by apply total_length_nonneg).
  rewrite wrap_small by lia. rewrite IH; [lia|lia|done|lia].
Qed.

Lemma header_accepted blocks ld rest : names_ok blocks -> Forall (fun b => block_ok (nb_block b)) blocks -> total_length blocks < 2 ^ 64 ->
  ram_load blocks 4 (stream ((qemu_put_be64 (Z.lor (ram_bytes_total blocks) RAM_SAVE_FLAG_MEM_SIZE) ++ concat (map size_entry blocks) ++ qemu_put_be64 RAM_SAVE_FLAG_EOS) ++ rest) 0) ld =
  Ok (0, stream rest 0, ld).
Proof.
  intros Hn Hok Hlt. unfold ram_load. cbn [Z.eqb Pos.eqb negb in_bytes].
  assert (Et : ram_bytes_total blocks = total_length blocks).
  { apply (total_of_blocks blocks 0); [lia| |done]. eapply Forall_impl; [exact Hok|]. intros b (_ & ? & _). lia. }
  assert (exists q, 0 <= q /\ ram_bytes_total blocks = 4096 * q) as (q & Hq & Eq).
  { rewrite Et. clear -Hok. induction Hok as [|b l (_ & Hl & _ & _ & Hm) _ (q & Hq & IH)]; [by exists 0|]. rewrite total_length_cons. exists (rb_length (nb_block b) / 4096 + q). rewrite IH. unfold TARGET_PAGE_SIZE in Hm.
    split; [|]; Z.div_mod_to_equations; lia. }
  destruct (header_split q RAM_SAVE_FLAG_MEM_SIZE Hq) as (Hv & Hlow & Hhigh); [lia|done|]. rewrite <- Eq in Hv, Hlow, Hhigh.
  rewrite <- !app_assoc. set (body := concat (map size_entry blocks) ++ qemu_put_be64 RAM_SAVE_FLAG_EOS ++ rest).
  assert (Hbl : (length blocks < length body)%nat).
  { subst body. rewrite !length_app. change (length (qemu_put_be64 RAM_SAVE_FLAG_EOS)) with 8%nat. enough (length blocks <= length (concat (map size_entry blocks)))%nat by lia.
    clear. induction blocks as [|b l IH]; cbn [map concat length]; [lia|]. unfold size_entry at 1. rewrite !length_app. cbn [length qemu_put_byte]. lia. }
  assert (Hit : ram_load_iter blocks (stream (qemu_put_be64 (Z.lor (ram_bytes_total blocks) RAM_SAVE_FLAG_MEM_SIZE) ++ body) 0) ld =
    Ok (None, stream (qemu_put_be64 RAM_SAVE_FLAG_EOS ++ rest) 0, ld)).
  { unfold ram_load_iter. rewrite get_put_be64 by done. cbv beta iota zeta. rewrite Hlow, Hhigh. change (has_flag RAM_SAVE_FLAG_MEM_SIZE RAM_SAVE_FLAG_MEM_SIZE) with true. cbn [in_bytes].
    unfold body at 2. rewrite (load_sizes_ok blocks Hn blocks _ (ram_bytes_total blocks)); [done| |done|lia|lia]. apply Forall_forall. intros b Hb. split; [done|]. apply (proj1 (Forall_forall _ _) Hok b Hb). }
  rewrite length_app. change (length (qemu_put_be64 (Z.lor (ram_bytes_total blocks) RAM_SAVE_FLAG_MEM_SIZE))) with 8%nat.
  replace (S (8 + length body)) with (S (S (7 + length body))) by lia. generalize (7 + length body)%nat. intros fuel. cbn [ram_load_loop]. rewrite Hit. cbn [mbind outcome_bind]. by rewrite load_eos.
Qed.

(** C32 (refinement): a migration from its start to its end.  [ram_save_setup]
    succeeds and the receiver accepts the block list it sends.  Then, however the
    guest's writes, the collection of the dirty log and the sending of pages
    interleave, in the bulk stage and after it, completing the migration terminates
    and produces a stream that the receiver loads without error, after which every
    page of every RAM block is the same on both sides.  Assumed are XBZRLE
    compression, that the page cache gets the memory it asks for, ages of the cache
    below 2^64 - 2^31 when the log is collected, and, because the code loses that page
    ([bulk_round_loses_page]), that the log is not collected while the bulk stage
    stands at the very last page and the guest has written it again. *)
Theorem live_migration_transfers blocks rs cache_size ram ld st0 : startable blocks rs cache_size ram ld ->
  exists hdr st, ram_save_setup blocks true true cache_size rs st0 = Ok (Some (hdr, st)) /\
    (forall rest, ram_load blocks 4 (stream (hdr ++ rest) 0) ld = Ok (0, stream rest 0, ld)) /\
    forall w', rtc (live_step (last_ram_offset rs / 4096) blocks) {| w_st := st; w_ld := ld; w_ram := ram |} w' ->
      ages_left (w_st w') -> last_page_unlogged blocks (w_st w') ->
      exists out st' ld', ram_save_complete blocks true true (w_ram w') (w_st w') = Ok (out, st') /\
        (forall rest, ram_load blocks 4 (stream (out ++ rest) 0) (w_ld w') = Ok (0, stream rest 0, ld')) /\
        forall b p, b ∈ blocks -> in_pages (nb_block b) p -> ld_mem ld' (4096 * p) = w_ram w' (4096 * p).
Proof.
  intros Hs. destruct (setup_live _ _ _ _ _ st0 Hs) as (hdr & st & E & Eh & Hlive). exists hdr, st. split; [done|]. split.
  - intros rest. rewrite Eh. apply header_accepted; [apply Hs| |apply Hs]. pose proof (ro_blocks _ (sp_ram _ _ _ _ _ Hs)) as Hb. rewrite (sp_blocks _ _ _ _ _ Hs) in Hb. by apply named_blocks.
  - intros w' Hrun Hleft Hun. apply (complete_ok (last_ram_offset rs / 4096)); [|done|done]. clear Hleft Hun.
    induction Hrun as [|w w1 w' Hstep _ IH]; [done|]. apply IH. by eapply live_step_ok.
Qed.

(** ** A small machine: one block of two pages *)
Definition small_block : NamedBlock :=
  {| nb_id := [112; 99]; nb_block := {| rb_mr := 0; rb_host := 0x100000; rb_offset := 0; rb_length := 0x2000;
                                        rb_prealloc := false; rb_fd := -1 |} |}.
Definition ones_page : list Z := replicate 4096 1.
Definition small_ram : Z -> list Z := fun a => if a =? 4096 then ones_page else ZERO_TARGET_PAGE.
Definition small_rs : RamState := {| rl_dirty := replicate 6 [0]; rl_mru := None; rl_version := 1; rl_blocks := [nb_block small_block] |}.
Definition small_save : SaveState :=
  {| sv_mig := {| mig_bitmap := []; mig_dirty_pages := 0; mig_ram := [] |}; sv_cache := one_page;
     ram_bulk_stage := false; last_seen_block := None; last_offset := 0; last_sent_block := None |}.
Definition small_load : LoadState :=
  {| ld_block := None; ld_mem := fun _ => ZERO_TARGET_PAGE; xbzrle_decoded_buf := ZERO_TARGET_PAGE; stale_id := replicate 256 0 |}.

Lemma zero_page_ok : Z.of_nat (length ZERO_TARGET_PAGE) = TARGET_PAGE_SIZE /\ bytes_ok ZERO_TARGET_PAGE.
Proof. split; [reflexivity|]. apply Forall_replicate. split; [lia|reflexivity]. Qed.

Lemma ones_page_ok : Z.of_nat (length ones_page) = TARGET_PAGE_SIZE /\ bytes_ok ones_page.
Proof. split; [reflexivity|]. apply Forall_replicate. split; [lia|reflexivity]. Qed.

Lemma small_startable : startable [small_block] small_rs 0x4000 small_ram small_load.
Proof.
  split.
  - split; cbn.
    + repeat constructor; unfold rb_end, TARGET_PAGE_SIZE; cbn; lia || done.
    + done.
    + repeat constructor.
    + split; [reflexivity|]. repeat constructor; try (by apply words_ok_check); vm_compute; discriminate.
    + done.
  - reflexivity.
  - done.
  - split; [|apply NoDup_singleton]. apply Forall_singleton. split; [cbn; lia|]. repeat (apply Forall_cons; split; [lia|]). constructor.
  - vm_compute. discriminate.
  - vm_compute. reflexivity.
  - unfold TARGET_PAGE_SIZE. lia.
  - intros a. unfold small_ram. destruct (a =? 4096); [apply ones_page_ok|apply zero_page_ok].
  - intros a. apply zero_page_ok.
Qed.

(** Page 0 is sent in the bulk stage, and the guest writes it again. *)
Definition small_start : SaveState :=
  match ram_save_setup [small_block] true true 0x4000 small_rs small_save with Ok (Some (_, st)) => st | _ => small_save end.
Definition small_sent : Z * list Z * SaveState :=
  match ram_save_block [small_block] true true small_ram false small_start with Ok r => r | _ => (0, [], small_save) end.
Definition small_got : LoadState :=
  match ram_load_iter [small_block] (stream (snd (fst small_sent)) 0) small_load with Ok (_, _, ld) => ld | _ => small_load end.
Definition small_world : World :=
  {| w_st := with_mig (with_log (replicate 6 [1]) (sv_mig (snd small_sent))) (snd small_sent); w_ld := small_got; w_ram := put small_ram (4096 * 0) ones_page |}.

Lemma small_steps : rtc (live_step 2 [small_block]) {| w_st := small_start; w_ld := small_load; w_ram := small_ram |} small_world.
Proof.
  assert (E1 : ram_save_block [small_block] true true small_ram false small_start = Ok (fst (fst small_sent), snd (fst small_sent), snd small_sent)).
  { assert (match ram_save_block [small_block] true true small_ram false small_start with Ok _ => true | _ => false end = true) as H by (vm_compute; reflexivity).
    unfold small_sent. by destruct (ram_save_block _ _ _ _ _ _) as [[[? ?] ?]| |]. }
  assert (E2 : ram_load_iter [small_block] (stream (snd (fst small_sent)) 0) small_load = Ok (None, stream [] 0, small_got)).
  { assert (match ram_load_iter [small_block] (stream (snd (fst small_sent)) 0) small_load with Ok (None, {| in_bytes := []; last_error := 0 |}, _) => true | _ => false end = true) as H by (vm_compute; reflexivity).
    unfold small_got. destruct (ram_load_iter _ _ _) as [[[[?|] [[|? ?] [| |]]] ld]| |]; done. }
  eapply rtc_l; [|apply rtc_once].
  - eapply sender_sends; [exact E1|]. assert ((fst (fst small_sent) =? 0) = false) as -> by (vm_compute; reflexivity). exact E2.
  - apply (guest_writes 2 [small_block] {| w_st := snd small_sent; w_ld := small_got; w_ram := small_ram |} 0 ones_page (replicate 6 [1])); [lia|apply ones_page_ok|apply ones_page_ok|vm_compute; reflexivity].
Qed.

Lemma live_migration_transfers_witness :
  exists hdr st out st' ld', ram_save_setup [small_block] true true 0x4000 small_rs small_save = Ok (Some (hdr, st)) /\
    rtc (live_step 2 [small_block]) {| w_st := st; w_ld := small_load; w_ram := small_ram |} small_world /\ ram_bulk_stage (w_st small_world) = true /\
    ram_save_complete [small_block] true true (w_ram small_world) (w_st small_world) = Ok (out, st') /\
    ld_mem ld' (4096 * 0) = ones_page /\ ld_mem ld' (4096 * 1) = ones_page.
Proof.
  destruct (live_migration_transfers [small_block] small_rs 0x4000 small_ram small_load small_save small_startable) as (hdr & st & E & _ & H).
  assert (Est : st = small_start) by (unfold small_start; rewrite E; reflexivity). subst st.
  destruct (H small_world) as (out & st' & ld' & Ec & _ & Hmem).
  - exact small_steps.
  - vm_compute. reflexivity.
  - intros b q _ (i & _ & _ & _ & Hq & _ & Hp). assert (Ho : last_offset (w_st small_world) = 0) by (vm_compute; reflexivity). rewrite Ho in Hq. lia.
  - exists hdr, small_start, out, st', ld'. split; [exact E|]. split; [exact small_steps|]. split; [vm_compute; reflexivity|]. split; [exact Ec|]. split.
    + rewrite (Hmem small_block 0); [|by apply list_elem_of_singleton|split; vm_compute; congruence]. unfold small_world, w_ram, put. by rewrite Z.eqb_refl.
    + rewrite (Hmem small_block 1); [|by apply list_elem_of_singleton|split; vm_compute; congruence]. reflexivity.
Defined.

(** a truncated record is an error. *)
Lemma ram_load_terminates_witness :
  exists ret f' ld', ram_load [small_block] 4 (stream [0; 0; 0; 0; 0; 0] 0) small_load = Ok (ret, f', ld') /\ ret = -5.
Proof.
  destruct (ram_load_terminates [small_block] 4 (stream [0; 0; 0; 0; 0; 0] 0) small_load) as [E|(ret & f' & ld' & E & _)].
  - repeat constructor.
  - repeat constructor; unfold in_u; lia.
  - split; [intros a|]; apply zero_page_ok.
  - vm_compute in E. discriminate E.
  - exists ret, f', ld'. split; [exact E|].
    apply (f_equal (fun o => match o with Ok (n, _, _) => n | _ => 0 end)) in E. vm_compute in E. symmetry. exact E.
Defined.

(** ** Corner cases *)

(** In the bulk stage the search from the last page sent starts after it.  If
    that page is the last of the list and the only one written since, the
    second round finds it, takes it off the bitmap and stops: it is lost. *)
Lemma bulk_round_loses_page :
  let st := {| sv_mig := {| mig_bitmap := [2]; mig_dirty_pages := 1; mig_ram := replicate 6 [0] |}; sv_cache := one_page;
               ram_bulk_stage := true; last_seen_block := Some 0%nat; last_offset := 0x1000; last_sent_block := Some 0%nat |} in
  match ram_save_block [small_block] true true small_ram false st with
  | Ok (sent, out, st') => sent = 0 /\ out = [] /\ mig_bitmap (sv_mig st') = [0] /\ mig_dirty_pages (sv_mig st') = 0
  | _ => False
  end.
Proof. vm_compute. by split_and!. Qed.

(** When the block list changes the sender returns to the bulk stage, which
    counts pages off the bitmap without looking whether they were on it. *)
Lemma bulk_reset_miscounts :
  migration_bitmap_find_and_reset_dirty true 0 0x4000 0x1000
    {| mig_bitmap := [0]; mig_dirty_pages := 0; mig_ram := [] |} =
  Ok (0x2000, {| mig_bitmap := [0]; mig_dirty_pages := 2 ^ 64 - 1; mig_ram := [] |}).
Proof. vm_compute. reflexivity. Qed.

(** Nothing checks the offset of a record against the length of its block. *)
Lemma ram_load_outside_block :
  ram_load [small_block] 4 (stream (record_bytes small_block 0x8000 false (MsgCompress 1)) 0) small_load = Abort.
Proof. vm_compute. reflexivity. Qed.
