(* ===== verification/MemRegion.v ===== *)
(** * MemRegion: the data model of memory.c and include/exec/memory.h

    Address ranges, memory regions and the region store.  A [MemoryRegion *]
    is a key of the store [regions]; the intrusive list [subregions] of a
    region is the list of its keys in queue order.  Reference counts are the
    counts of the owner objects ([object_ref] and [object_unref]). *)
From S2P Require Import Prelude Int128.

(** ** Address ranges *)
Record AddrRange := { start : Z; size : Z }.

Definition addrrange_make (s z : Z) : AddrRange := {| start := s; size := z |}.
Definition addrrange_equal (r1 r2 : AddrRange) : bool :=
  (start r1 =? start r2) && (size r1 =? size r2).
Definition addrrange_end (r : AddrRange) : Z := i128_add (start r) (size r).
Definition addrrange_shift (range : AddrRange) (delta : Z) : AddrRange :=
  addrrange_make (i128_add (start range) delta) (size range).
Definition addrrange_contains (range : AddrRange) (addr : Z) : bool :=
  (start range <=? addr) && (addr <? addrrange_end range).
Definition addrrange_intersects (r1 r2 : AddrRange) : bool :=
  addrrange_contains r1 (start r2) || addrrange_contains r2 (start r1).
Definition addrrange_intersection (r1 r2 : AddrRange) : AddrRange :=
  let s := start r1 `max` start r2 in
  let e := addrrange_end r1 `min` addrrange_end r2 in
  addrrange_make s (i128_sub e s).

(** ** Regions *)
Inductive device_endian := DEVICE_NATIVE_ENDIAN | DEVICE_BIG_ENDIAN | DEVICE_LITTLE_ENDIAN.

Record MemoryRegionIoeventfd := {
  fd_addr : AddrRange;
  fd_match_data : bool;
  fd_data : Z;
  fd_e : Z
}.

Record MemoryRegion := {
  mr_endianness : device_endian;
  mr_owner : option Z;
  mr_parent : option Z;
  mr_size : Z;
  mr_addr : Z;
  mr_ram_addr : Z;
  mr_subpage : bool;
  mr_terminates : bool;
  mr_romd_mode : bool;
  mr_ram : bool;
  mr_readonly : bool;
  mr_enabled : bool;
  mr_rom_device : bool;
  mr_flush_coalesced_mmio : bool;
  mr_alias : option Z;
  mr_alias_offset : Z;
  mr_priority : Z;
  mr_may_overlap : bool;
  mr_subregions : list Z;
  mr_coalesced : list AddrRange;
  mr_dirty_log_mask : Z;
  mr_ioeventfds : list MemoryRegionIoeventfd
}.

Abbreviation regions := (gmap Z MemoryRegion).
Abbreviation refcounts := (gmap Z Z).

(** ** Assignments [mr->field = v] *)
Definition set_endianness (v : device_endian) (mr : MemoryRegion) : MemoryRegion :=
  let '(Build_MemoryRegion _ x1 x2 x3 x4 x5 x6 x7 x8 x9 x10 x11 x12 x13 x14 x15 x16 x17 x18 x19 x20 x21) := mr in
  Build_MemoryRegion v x1 x2 x3 x4 x5 x6 x7 x8 x9 x10 x11 x12 x13 x14 x15 x16 x17 x18 x19 x20 x21.
Definition set_parent (v : option Z) (mr : MemoryRegion) : MemoryRegion :=
  let '(Build_MemoryRegion x0 x1 _ x3 x4 x5 x6 x7 x8 x9 x10 x11 x12 x13 x14 x15 x16 x17 x18 x19 x20 x21) := mr in
  Build_MemoryRegion x0 x1 v x3 x4 x5 x6 x7 x8 x9 x10 x11 x12 x13 x14 x15 x16 x17 x18 x19 x20 x21.
Definition set_addr (v : Z) (mr : MemoryRegion) : MemoryRegion :=
  let '(Build_MemoryRegion x0 x1 x2 x3 _ x5 x6 x7 x8 x9 x10 x11 x12 x13 x14 x15 x16 x17 x18 x19 x20 x21) := mr in
  Build_MemoryRegion x0 x1 x2 x3 v x5 x6 x7 x8 x9 x10 x11 x12 x13 x14 x15 x16 x17 x18 x19 x20 x21.
Definition set_ram_addr (v : Z) (mr : MemoryRegion) : MemoryRegion :=
  let '(Build_MemoryRegion x0 x1 x2 x3 x4 _ x6 x7 x8 x9 x10 x11 x12 x13 x14 x15 x16 x17 x18 x19 x20 x21) := mr in
  Build_MemoryRegion x0 x1 x2 x3 x4 v x6 x7 x8 x9 x10 x11 x12 x13 x14 x15 x16 x17 x18 x19 x20 x21.
Definition set_terminates (v : bool) (mr : MemoryRegion) : MemoryRegion :=
  let '(Build_MemoryRegion x0 x1 x2 x3 x4 x5 x6 _ x8 x9 x10 x11 x12 x13 x14 x15 x16 x17 x18 x19 x20 x21) := mr in
  Build_MemoryRegion x0 x1 x2 x3 x4 x5 x6 v x8 x9 x10 x11 x12 x13 x14 x15 x16 x17 x18 x19 x20 x21.
Definition set_romd_mode (v : bool) (mr : MemoryRegion) : MemoryRegion :=
  let '(Build_MemoryRegion x0 x1 x2 x3 x4 x5 x6 x7 _ x9 x10 x11 x12 x13 x14 x15 x16 x17 x18 x19 x20 x21) := mr in
  Build_MemoryRegion x0 x1 x2 x3 x4 x5 x6 x7 v x9 x10 x11 x12 x13 x14 x15 x16 x17 x18 x19 x20 x21.
Definition set_ram (v : bool) (mr : MemoryRegion) : MemoryRegion :=
  let '(Build_MemoryRegion x0 x1 x2 x3 x4 x5 x6 x7 x8 _ x10 x11 x12 x13 x14 x15 x16 x17 x18 x19 x20 x21) := mr in
  Build_MemoryRegion x0 x1 x2 x3 x4 x5 x6 x7 x8 v x10 x11 x12 x13 x14 x15 x16 x17 x18 x19 x20 x21.
Definition set_readonly (v : bool) (mr : MemoryRegion) : MemoryRegion :=
  let '(Build_MemoryRegion x0 x1 x2 x3 x4 x5 x6 x7 x8 x9 _ x11 x12 x13 x14 x15 x16 x17 x18 x19 x20 x21) := mr in
  Build_MemoryRegion x0 x1 x2 x3 x4 x5 x6 x7 x8 x9 v x11 x12 x13 x14 x15 x16 x17 x18 x19 x20 x21.
Definition set_enabled (v : bool) (mr : MemoryRegion) : MemoryRegion :=
  let '(Build_MemoryRegion x0 x1 x2 x3 x4 x5 x6 x7 x8 x9 x10 _ x12 x13 x14 x15 x16 x17 x18 x19 x20 x21) := mr in
  Build_MemoryRegion x0 x1 x2 x3 x4 x5 x6 x7 x8 x9 x10 v x12 x13 x14 x15 x16 x17 x18 x19 x20 x21.
Definition set_rom_device (v : bool) (mr : MemoryRegion) : MemoryRegion :=
  let '(Build_MemoryRegion x0 x1 x2 x3 x4 x5 x6 x7 x8 x9 x10 x11 _ x13 x14 x15 x16 x17 x18 x19 x20 x21) := mr in
  Build_MemoryRegion x0 x1 x2 x3 x4 x5 x6 x7 x8 x9 x10 x11 v x13 x14 x15 x16 x17 x18 x19 x20 x21.
Definition set_flush_coalesced_mmio (v : bool) (mr : MemoryRegion) : MemoryRegion :=
  let '(Build_MemoryRegion x0 x1 x2 x3 x4 x5 x6 x7 x8 x9 x10 x11 x12 _ x14 x15 x16 x17 x18 x19 x20 x21) := mr in
  Build_MemoryRegion x0 x1 x2 x3 x4 x5 x6 x7 x8 x9 x10 x11 x12 v x14 x15 x16 x17 x18 x19 x20 x21.
Definition set_alias (v : option Z) (mr : MemoryRegion) : MemoryRegion :=
  let '(Build_MemoryRegion x0 x1 x2 x3 x4 x5 x6 x7 x8 x9 x10 x11 x12 x13 _ x15 x16 x17 x18 x19 x20 x21) := mr in
  Build_MemoryRegion x0 x1 x2 x3 x4 x5 x6 x7 x8 x9 x10 x11 x12 x13 v x15 x16 x17 x18 x19 x20 x21.
Definition set_alias_offset (v : Z) (mr : MemoryRegion) : MemoryRegion :=
  let '(Build_MemoryRegion x0 x1 x2 x3 x4 x5 x6 x7 x8 x9 x10 x11 x12 x13 x14 _ x16 x17 x18 x19 x20 x21) := mr in
  Build_MemoryRegion x0 x1 x2 x3 x4 x5 x6 x7 x8 x9 x10 x11 x12 x13 x14 v x16 x17 x18 x19 x20 x21.
Definition set_priority (v : Z) (mr : MemoryRegion) : MemoryRegion :=
  let '(Build_MemoryRegion x0 x1 x2 x3 x4 x5 x6 x7 x8 x9 x10 x11 x12 x13 x14 x15 _ x17 x18 x19 x20 x21) := mr in
  Build_MemoryRegion x0 x1 x2 x3 x4 x5 x6 x7 x8 x9 x10 x11 x12 x13 x14 x15 v x17 x18 x19 x20 x21.
Definition set_may_overlap (v : bool) (mr : MemoryRegion) : MemoryRegion :=
  let '(Build_MemoryRegion x0 x1 x2 x3 x4 x5 x6 x7 x8 x9 x10 x11 x12 x13 x14 x15 x16 _ x18 x19 x20 x21) := mr in
  Build_MemoryRegion x0 x1 x2 x3 x4 x5 x6 x7 x8 x9 x10 x11 x12 x13 x14 x15 x16 v x18 x19 x20 x21.
Definition set_subregions (v : list Z) (mr : MemoryRegion) : MemoryRegion :=
  let '(Build_MemoryRegion x0 x1 x2 x3 x4 x5 x6 x7 x8 x9 x10 x11 x12 x13 x14 x15 x16 x17 _ x19 x20 x21) := mr in
  Build_MemoryRegion x0 x1 x2 x3 x4 x5 x6 x7 x8 x9 x10 x11 x12 x13 x14 x15 x16 x17 v x19 x20 x21.
Definition set_coalesced (v : list AddrRange) (mr : MemoryRegion) : MemoryRegion :=
  let '(Build_MemoryRegion x0 x1 x2 x3 x4 x5 x6 x7 x8 x9 x10 x11 x12 x13 x14 x15 x16 x17 x18 _ x20 x21) := mr in
  Build_MemoryRegion x0 x1 x2 x3 x4 x5 x6 x7 x8 x9 x10 x11 x12 x13 x14 x15 x16 x17 x18 v x20 x21.
Definition set_dirty_log_mask (v : Z) (mr : MemoryRegion) : MemoryRegion :=
  let '(Build_MemoryRegion x0 x1 x2 x3 x4 x5 x6 x7 x8 x9 x10 x11 x12 x13 x14 x15 x16 x17 x18 x19 _ x21) := mr in
  Build_MemoryRegion x0 x1 x2 x3 x4 x5 x6 x7 x8 x9 x10 x11 x12 x13 x14 x15 x16 x17 x18 x19 v x21.
Definition set_ioeventfds (v : list MemoryRegionIoeventfd) (mr : MemoryRegion) : MemoryRegion :=
  let '(Build_MemoryRegion x0 x1 x2 x3 x4 x5 x6 x7 x8 x9 x10 x11 x12 x13 x14 x15 x16 x17 x18 x19 x20 _) := mr in
  Build_MemoryRegion x0 x1 x2 x3 x4 x5 x6 x7 x8 x9 x10 x11 x12 x13 x14 x15 x16 x17 x18 x19 x20 v.

(** [memory_region_init]: every field the function assigns; [alias_offset] and
    [ram_addr] are not touched. *)
Definition memory_region_init (mr : MemoryRegion) (owner : option Z) (sz : Z) : MemoryRegion := {|
  mr_endianness := DEVICE_NATIVE_ENDIAN;
  mr_owner := owner;
  mr_parent := None;
  mr_size := if sz =? 2 ^ 64 - 1 then 2 ^ 64 else sz;
  mr_addr := 0;
  mr_ram_addr := mr_ram_addr mr;
  mr_subpage := false;
  mr_terminates := false;
  mr_romd_mode := true;
  mr_ram := false;
  mr_readonly := false;
  mr_enabled := true;
  mr_rom_device := false;
  mr_flush_coalesced_mmio := false;
  mr_alias := None;
  mr_alias_offset := mr_alias_offset mr;
  mr_priority := 0;
  mr_may_overlap := false;
  mr_subregions := [];
  mr_coalesced := [];
  mr_dirty_log_mask := 0;
  mr_ioeventfds := []
|}.

(** The constructors.  [qemu_ram_alloc] returns the RAM address, a parameter
    here; callbacks and opaque pointers are not part of the region's record. *)
Definition memory_region_init_io (mr : MemoryRegion) (owner : option Z) (e : device_endian) (sz : Z)
    : MemoryRegion :=
  set_ram_addr (2 ^ 64 - 1) (set_terminates true (set_endianness e (memory_region_init mr owner sz))).

Definition memory_region_init_ram (mr : MemoryRegion) (owner : option Z) (sz ram_addr : Z)
    : MemoryRegion :=
  set_ram_addr ram_addr (set_terminates true (set_ram true (memory_region_init mr owner sz))).

Definition memory_region_init_rom_device (mr : MemoryRegion) (owner : option Z)
    (e : device_endian) (sz ram_addr : Z) : MemoryRegion :=
  set_ram_addr ram_addr (set_rom_device true (set_terminates true
    (set_endianness e (memory_region_init mr owner sz)))).

Definition memory_region_init_reservation (mr : MemoryRegion) (owner : option Z) (sz : Z)
    : MemoryRegion :=
  memory_region_init_io mr owner DEVICE_NATIVE_ENDIAN sz.

(** [memory_region_ref] and [memory_region_unref]: the count of the owner. *)
Definition memory_region_ref (regs : regions) (mr : Z) (refs : refcounts) : refcounts :=
  match regs !! mr ≫= mr_owner with
  | Some o => <[o := default 0 (refs !! o) + 1]> refs
  | None => refs
  end.
Definition memory_region_unref (regs : regions) (mr : Z) (refs : refcounts) : refcounts :=
  match regs !! mr ≫= mr_owner with
  | Some o => <[o := default 0 (refs !! o) - 1]> refs
  | None => refs
  end.

(** [memory_region_init_alias] takes a reference on the original. *)
Definition memory_region_init_alias (regs : regions) (refs : refcounts) (mr : MemoryRegion)
    (owner : option Z) (orig offset sz : Z) : MemoryRegion * refcounts :=
  (set_alias_offset offset (set_alias (Some orig) (memory_region_init mr owner sz)),
   memory_region_ref regs orig refs).

(** [memory_region_size] *)
Definition memory_region_size (mr : MemoryRegion) : outcome Z :=
  if mr_size mr =? 2 ^ 64 then Ok (2 ^ 64 - 1) else i128_get64 (mr_size mr).

(** ** Facts about ranges *)

(** A range whose end does not overflow an Int128. *)
Definition range_ok (r : AddrRange) : Prop :=
  0 <= size r <= 2 ^ 64 /\ - 2 ^ 126 <= start r <= 2 ^ 126.

Lemma addrrange_end_ok r : range_ok r -> addrrange_end r = start r + size r.
Proof. intros [? ?]. apply i128_add_small. lia. Qed.

Lemma addrrange_contains_spec r a :
  range_ok r -> addrrange_contains r a = true <-> start r <= a < start r + size r.
Proof. intros. unfold addrrange_contains. rewrite addrrange_end_ok by done. lia. Qed.

Lemma addrrange_intersects_spec r1 r2 :
  range_ok r1 -> range_ok r2 ->
  addrrange_intersects r1 r2 = true <->
  (start r1 <= start r2 < start r1 + size r1) \/ (start r2 <= start r1 < start r2 + size r2).
Proof.
  intros. unfold addrrange_intersects.
  rewrite orb_true_iff, !addrrange_contains_spec by done. done.
Qed.

(** The intersection of two intersecting ranges holds exactly their common
    addresses. *)
Lemma addrrange_intersection_spec r1 r2 :
  range_ok r1 -> range_ok r2 -> addrrange_intersects r1 r2 = true ->
  let r := addrrange_intersection r1 r2 in
  range_ok r /\ start r = start r1 `max` start r2 /\
  (forall a, start r <= a < start r + size r <->
     start r1 <= a < start r1 + size r1 /\ start r2 <= a < start r2 + size r2).
Proof.
  intros H1 H2 Hi. apply addrrange_intersects_spec in Hi; [|done..].
  unfold addrrange_intersection, addrrange_make. rewrite !addrrange_end_ok by done.
  unfold range_ok in *. rewrite i128_sub_small by lia. cbn [start size].
  split_and!; lia.
Qed.
