(* ===== verification/MemAccess.v ===== *)
(** * MemAccess: MMIO dispatch of memory.c and the byte swaps it uses

    A device is a [MemoryRegionOps] over an opaque device state [D]: the
    callbacks thread it.  The target is little-endian (i386), so
    [TARGET_WORDS_BIGENDIAN] is undefined.  A shift by 64 or more, undefined
    in C, is reported as [Abort].  What KVM does to a device when its buffer of
    coalesced writes is flushed is a parameter. *)
From S2P Require Import Prelude Int128 HostUtils MemRegion.

(** ** include/qemu/bswap.h *)
Definition bswap16 (x : Z) : Z :=
  Z.lor (Z.shiftl (Z.land x 0x00ff) 8) (Z.shiftr (Z.land x 0xff00) 8).

Definition bswap32 (x : Z) : Z :=
  Z.lor (Z.lor (Z.lor (Z.shiftl (Z.land x 0x000000ff) 24)
                      (Z.shiftl (Z.land x 0x0000ff00) 8))
               (Z.shiftr (Z.land x 0x00ff0000) 8))
        (Z.shiftr (Z.land x 0xff000000) 24).

Definition bswap64 (x : Z) : Z :=
  Z.lor (Z.lor (Z.lor (Z.lor (Z.lor (Z.lor (Z.lor
    (Z.shiftl (Z.land x 0x00000000000000ff) 56)
    (Z.shiftl (Z.land x 0x000000000000ff00) 40))
    (Z.shiftl (Z.land x 0x0000000000ff0000) 24))
    (Z.shiftl (Z.land x 0x00000000ff000000) 8))
    (Z.shiftr (Z.land x 0x000000ff00000000) 8))
    (Z.shiftr (Z.land x 0x0000ff0000000000) 24))
    (Z.shiftr (Z.land x 0x00ff000000000000) 40))
    (Z.shiftr (Z.land x 0xff00000000000000) 56).

(** ** Endianness *)
Definition memory_region_big_endian (e : device_endian) : bool :=
  match e with DEVICE_BIG_ENDIAN => true | _ => false end.
Definition memory_region_wrong_endianness (e : device_endian) : bool :=
  match e with DEVICE_BIG_ENDIAN => true | _ => false end.

Definition adjust_endianness (e : device_endian) (data size : Z) : outcome Z :=
  if memory_region_wrong_endianness e then
    if size =? 1 then Ok data
    else if size =? 2 then Ok (bswap16 (u16 data))
    else if size =? 4 then Ok (bswap32 (u32 data))
    else if size =? 8 then Ok (bswap64 (u64 data))
    else Abort
  else Ok data.

(** ** Devices *)
Record MemoryRegionOps (D : Type) := {
  read : option (D -> Z -> Z -> D * Z);
  write : option (D -> Z -> Z -> Z -> D);
  endianness : device_endian;
  valid_min_access_size : Z;
  valid_max_access_size : Z;
  valid_unaligned : bool;
  valid_accepts : option (D -> Z -> Z -> bool -> bool);
  impl_min_access_size : Z;
  impl_max_access_size : Z;
  impl_unaligned : bool;
  old_mmio_read : Z -> D -> Z -> D * Z;
  old_mmio_write : Z -> D -> Z -> Z -> D
}.
Arguments read {D}. Arguments write {D}. Arguments endianness {D}.
Arguments valid_min_access_size {D}. Arguments valid_max_access_size {D}.
Arguments valid_unaligned {D}. Arguments valid_accepts {D}.
Arguments impl_min_access_size {D}. Arguments impl_max_access_size {D}. Arguments impl_unaligned {D}.
Arguments old_mmio_read {D}. Arguments old_mmio_write {D}.

(** ** Coalesced writes *)
Class CoalescedBuffer (D : Type) := {
  kvm_enabled : bool;
  kvm_flush_coalesced_mmio_buffer : D -> D
}.

Definition qemu_flush_coalesced_mmio_buffer {D} `{CoalescedBuffer D} (d : D) : D :=
  if kvm_enabled then kvm_flush_coalesced_mmio_buffer d else d.

(** Without KVM. *)
Definition no_kvm (D : Type) : CoalescedBuffer D := {| kvm_enabled := false; kvm_flush_coalesced_mmio_buffer := fun d => d |}.

(** A region: its operations and [mr->flush_coalesced_mmio]. *)
Section Access.
Context {D : Type} `{CoalescedBuffer D} (ops : MemoryRegionOps D) (flush_coalesced_mmio : bool).

(** An accessor: device, value, address, size, shift and mask. *)
Definition accessor := D -> Z -> Z -> Z -> Z -> Z -> outcome (D * Z).

Definition merge_value (value tmp mask shift : Z) : outcome Z :=
  _ ← c_assert (shift <? 64);
  Ok (Z.lor value (u64 (Z.shiftl (Z.land tmp mask) shift))).

Definition slice_value (value mask shift : Z) : outcome Z :=
  _ ← c_assert (shift <? 64);
  Ok (Z.land (Z.shiftr value shift) mask).

(** The index into the tables [old_mmio.read] and [old_mmio.write]. *)
Definition mmio_index (size : Z) : Z := ctz32 (u32 size).

Definition flushed (d : D) : D := if flush_coalesced_mmio then qemu_flush_coalesced_mmio_buffer d else d.

Definition memory_region_oldmmio_read_accessor : accessor :=
  fun d value addr size shift mask =>
    let '(d, tmp) := old_mmio_read ops (mmio_index size) d addr in
    value ← merge_value value (u64 tmp) mask shift;
    Ok (d, value).

Definition memory_region_read_accessor (rd : D -> Z -> Z -> D * Z) : accessor :=
  fun d value addr size shift mask =>
    let '(d, tmp) := rd (flushed d) addr size in
    value ← merge_value value (u64 tmp) mask shift;
    Ok (d, value).

Definition memory_region_oldmmio_write_accessor : accessor :=
  fun d value addr size shift mask =>
    tmp ← slice_value value mask shift;
    Ok (old_mmio_write ops (mmio_index size) d addr tmp, value).

Definition memory_region_write_accessor (wr : D -> Z -> Z -> Z -> D) : accessor :=
  fun d value addr size shift mask =>
    tmp ← slice_value value mask shift;
    Ok (wr (flushed d) addr tmp size, value).

(** [for (i = 0; i < size; i += access_size)]; the shift is computed in
    unsigned arithmetic. *)
Fixpoint access_loop (fuel : nat) (access : accessor) (big : bool)
    (addr size access_size mask i : Z) (d : D) (value : Z) : outcome (D * Z) :=
  if i <? size then
    match fuel with
    | O => NoFuel
    | S fuel =>
        let shift := if big then u32 ((size - access_size - i) * 8) else u32 (i * 8) in
        '(d, value) ← access d value (u64 (addr + i)) access_size shift mask;
        access_loop fuel access big addr size access_size mask (i + access_size) d value
    end
  else Ok (d, value).

Definition access_size_of (size smin smax : Z) : Z :=
  let smin := if smin =? 0 then 1 else smin in
  let smax := if smax =? 0 then 4 else smax in
  (size `min` smax) `max` smin.

Definition access_with_adjusted_size (addr value size smin smax : Z) (access : accessor) (d : D)
    : outcome (D * Z) :=
  let access_size := access_size_of size smin smax in
  let access_mask := Z.shiftr (2 ^ 64 - 1) (64 - access_size * 8) in
  access_loop (Z.to_nat size) access (memory_region_big_endian (endianness ops))
    addr size access_size access_mask 0 d value.

(** [valid.accepts] is asked for every piece of the access. *)
Fixpoint accepts_loop (fuel : nat) (accepts : D -> Z -> Z -> bool -> bool) (d : D)
    (addr size access_size i : Z) (is_write : bool) : outcome bool :=
  if i <? size then
    match fuel with
    | O => NoFuel
    | S fuel =>
        if accepts d (u64 (addr + i)) access_size is_write
        then accepts_loop fuel accepts d addr size access_size (i + access_size) is_write
        else Ok false
    end
  else Ok true.

Definition memory_region_access_valid (d : D) (addr size : Z) (is_write : bool) : outcome bool :=
  if negb (valid_unaligned ops) && negb (Z.land addr (size - 1) =? 0) then Ok false
  else
    match valid_accepts ops with
    | None => Ok true
    | Some accepts =>
        let access_size :=
          access_size_of size (valid_min_access_size ops) (valid_max_access_size ops) in
        accepts_loop (Z.to_nat size) accepts d addr size access_size 0 is_write
    end.

Definition memory_region_dispatch_read1 (d : D) (addr size : Z) : outcome (D * Z) :=
  match read ops with
  | Some rd =>
      access_with_adjusted_size addr 0 size (impl_min_access_size ops) (impl_max_access_size ops)
        (memory_region_read_accessor rd) d
  | None => access_with_adjusted_size addr 0 size 1 4 memory_region_oldmmio_read_accessor d
  end.

(** The result carries [*pval] and whether the access failed; an access to
    an unassigned address reads zero. *)
Definition memory_region_dispatch_read (d : D) (addr size : Z) : outcome (D * Z * bool) :=
  valid ← memory_region_access_valid d addr size false;
  if negb valid then Ok (d, 0, true)
  else
    '(d, data) ← memory_region_dispatch_read1 d addr size;
    data ← adjust_endianness (endianness ops) data size;
    Ok (d, data, false).

Definition memory_region_dispatch_write (d : D) (addr data size : Z) : outcome (D * bool) :=
  valid ← memory_region_access_valid d addr size true;
  if negb valid then Ok (d, true)
  else
    data ← adjust_endianness (endianness ops) data size;
    '(d, _) ←
      match write ops with
      | Some wr =>
          access_with_adjusted_size addr data size
            (impl_min_access_size ops) (impl_max_access_size ops)
            (memory_region_write_accessor wr) d
      | None =>
          access_with_adjusted_size addr data size 1 4 memory_region_oldmmio_write_accessor d
      end;
    Ok (d, false).
End Access.

(** ** A byte-addressed device

    [m] gives the byte at each device address.  The device reads and writes
    [k] bytes at once, in its own byte order. *)
Fixpoint le_bytes (n : nat) (m : Z -> Z) (addr : Z) : Z :=
  match n with
  | O => 0
  | S n => m addr + 2 ^ 8 * le_bytes n m (addr + 1)
  end.

Fixpoint be_bytes (n : nat) (m : Z -> Z) (addr : Z) : Z :=
  match n with
  | O => 0
  | S n => 2 ^ (8 * Z.of_nat n) * m addr + be_bytes n m (addr + 1)
  end.

(** Byte [i] of [v], in device order for a [k]-byte access. *)
Definition store_byte (big : bool) (k v i : Z) : Z :=
  if big then v / 2 ^ (8 * (k - 1 - i)) mod 2 ^ 8 else v / 2 ^ (8 * i) mod 2 ^ 8.

Definition store (big : bool) (m : Z -> Z) (addr v k : Z) : Z -> Z :=
  fun a => if (addr <=? a) && (a <? addr + k) then store_byte big k v (a - addr) else m a.

Definition byte_device (e : device_endian) (smin smax : Z) : MemoryRegionOps (Z -> Z) := {|
  read := Some (fun m addr k =>
    (m, (if memory_region_big_endian e then be_bytes else le_bytes) (Z.to_nat k) m addr));
  write := Some (store (memory_region_big_endian e));
  endianness := e;
  valid_min_access_size := 0;
  valid_max_access_size := 0;
  valid_unaligned := true;
  valid_accepts := None;
  impl_min_access_size := smin;
  impl_max_access_size := smax;
  impl_unaligned := false;
  old_mmio_read := fun _ m _ => (m, 0);
  old_mmio_write := fun _ m _ _ => m
|}.

(** Access sizes the callers use. *)
Definition pow2_size (k : Z) : Prop := k = 1 \/ k = 2 \/ k = 4 \/ k = 8.

(** The implementation sizes split an access of [size] bytes evenly.  In particular
    the smallest access of the implementation is not larger than the request; what
    happens otherwise is shown by [narrow_access_widened]. *)
Definition splits (size smin smax : Z) : Prop :=
  pow2_size size /\ pow2_size (access_size_of size smin smax) /\
  access_size_of size smin smax <= size.

(** *** Byte sequences *)
Definition bytes_ok (m : Z -> Z) : Prop := forall a, 0 <= m a < 2 ^ 8.

Lemma pow_split a b : 0 <= a -> 0 <= b -> 2 ^ (8 * (a + b)) = 2 ^ (8 * a) * 2 ^ (8 * b).
Proof. intros. rewrite <- Z.pow_add_r by lia. f_equal. lia. Qed.

Lemma le_bytes_range n m addr : bytes_ok m -> 0 <= le_bytes n m addr < 2 ^ (8 * Z.of_nat n).
Proof.
  intros Hm. revert addr. induction n as [|n IH]; intros addr; [simpl; lia|].
  rewrite Nat2Z.inj_succ, <- Z.add_1_l, pow_split by lia. cbn [le_bytes].
  specialize (IH (addr + 1)). specialize (Hm addr). lia.
Qed.

Lemma be_bytes_range n m addr : bytes_ok m -> 0 <= be_bytes n m addr < 2 ^ (8 * Z.of_nat n).
Proof.
  intros Hm. revert addr. induction n as [|n IH]; intros addr; [simpl; lia|].
  rewrite Nat2Z.inj_succ, <- Z.add_1_l, pow_split by lia. cbn [be_bytes].
  specialize (IH (addr + 1)). specialize (Hm addr). nia.
Qed.

Lemma le_bytes_app a b m addr :
  le_bytes (a + b) m addr
    = le_bytes a m addr + 2 ^ (8 * Z.of_nat a) * le_bytes b m (addr + Z.of_nat a).
Proof.
  revert addr. induction a as [|a IH]; intros addr.
  { cbn [Nat.add le_bytes]. rewrite Z.add_0_r. lia. }
  cbn [Nat.add le_bytes]. rewrite IH, Nat2Z.inj_succ, <- Z.add_1_l, pow_split by lia.
  replace (addr + 1 + Z.of_nat a) with (addr + (1 + Z.of_nat a)) by lia. lia.
Qed.

Lemma be_bytes_app a b m addr :
  be_bytes (a + b) m addr
    = 2 ^ (8 * Z.of_nat b) * be_bytes a m addr + be_bytes b m (addr + Z.of_nat a).
Proof.
  revert addr. induction a as [|a IH]; intros addr.
  { cbn [Nat.add be_bytes]. rewrite Z.add_0_r. lia. }
  cbn [Nat.add be_bytes]. rewrite IH, !Nat2Z.inj_add, Nat2Z.inj_succ, <- Z.add_1_l, pow_split by lia.
  replace (addr + 1 + Z.of_nat a) with (addr + (1 + Z.of_nat a)) by lia. lia.
Qed.

(** *** Reading in pieces *)
Section ByteDevice.
Context `{Buf : CoalescedBuffer (Z -> Z)} (flush : bool).

(** No coalesced writes to the device are pending. *)
Definition nothing_pending : Prop := flush = true -> forall m : Z -> Z, qemu_flush_coalesced_mmio_buffer m = m.

Context (Hflush : nothing_pending).

Lemma flushed_same m : flushed flush m = m.
Proof using Hflush. unfold flushed. unfold nothing_pending in Hflush. destruct flush; [by apply Hflush|done]. Qed.

Lemma read_loop_le m addr nk : bytes_ok m -> (1 <= nk)%nat -> 0 <= addr ->
  forall r fuel ni, (r <= fuel)%nat -> (ni + r * nk <= 8)%nat ->
    addr + Z.of_nat (ni + r * nk) <= 2 ^ 64 ->
    access_loop fuel (memory_region_read_accessor flush (fun m a k => (m, le_bytes (Z.to_nat k) m a)))
      false addr (Z.of_nat (ni + r * nk)) (Z.of_nat nk) (Z.ones (8 * Z.of_nat nk))
      (Z.of_nat ni) m (le_bytes ni m addr)
    = Ok (m, le_bytes (ni + r * nk) m addr).
Proof.
  intros Hm Hk Ha. induction r as [|r IH]; intros fuel ni Hf Hn Hw.
  { rewrite Nat.mul_0_l, Nat.add_0_r. destruct fuel; cbn [access_loop];
      by rewrite Z.ltb_irrefl. }
  destruct fuel as [|fuel]; [lia|]. cbn [access_loop].
  assert (ni + S r * nk = (ni + nk) + r * nk)%nat as Hsum by lia. rewrite Hsum in *.
  assert (0 <= Z.of_nat r * Z.of_nat nk) by (apply Z.mul_nonneg_nonneg; lia).
  replace (Z.of_nat ni <? Z.of_nat (ni + nk + r * nk)) with true by zbool.
  unfold memory_region_read_accessor, merge_value. rewrite flushed_same.
  rewrite !(wrap_small 32), (wrap_small 64 (addr + _)) by lia.
  replace (Z.of_nat ni * 8 <? 64) with true by lia. cbn [c_assert mbind outcome_bind].
  rewrite Nat2Z.id. pose proof (le_bytes_range nk m (addr + Z.of_nat ni) Hm) as Hr.
  assert (2 ^ (8 * Z.of_nat nk) * 2 ^ (8 * Z.of_nat ni) <= 2 ^ 64).
  { rewrite <- Z.pow_add_r by lia. apply Z.pow_le_mono_r; lia. }
  rewrite (wrap_small 64 (le_bytes _ _ _)), land_mask by nia.
  rewrite (Z.mul_comm _ 8).
  rewrite wrap_small by (rewrite Z.shiftl_mul_pow2 by lia; nia).
  rewrite lor_shiftl_add by (try apply le_bytes_range; auto; lia).
  replace (Z.of_nat ni + Z.of_nat nk) with (Z.of_nat (ni + nk)) by lia.
  rewrite <- (IH fuel (ni + nk)%nat) by lia. rewrite le_bytes_app. f_equal. lia.
Qed.

Lemma read_loop_be m addr nk : bytes_ok m -> (1 <= nk)%nat -> 0 <= addr ->
  forall r fuel ni, (r <= fuel)%nat -> (ni + r * nk <= 8)%nat ->
    addr + Z.of_nat (ni + r * nk) <= 2 ^ 64 ->
    access_loop fuel (memory_region_read_accessor flush (fun m a k => (m, be_bytes (Z.to_nat k) m a)))
      true addr (Z.of_nat (ni + r * nk)) (Z.of_nat nk) (Z.ones (8 * Z.of_nat nk))
      (Z.of_nat ni) m (be_bytes ni m addr * 2 ^ (8 * Z.of_nat (r * nk)))
    = Ok (m, be_bytes (ni + r * nk) m addr).
Proof.
  intros Hm Hk Ha. induction r as [|r IH]; intros fuel ni Hf Hn Hw.
  { rewrite Nat.mul_0_l, Nat.add_0_r. destruct fuel; cbn [access_loop];
      rewrite Z.ltb_irrefl; by rewrite Z.mul_1_r. }
  destruct fuel as [|fuel]; [lia|]. cbn [access_loop].
  assert (ni + S r * nk = (ni + nk) + r * nk)%nat as Hsum by lia. rewrite Hsum in *.
  assert (0 <= Z.of_nat r * Z.of_nat nk) by (apply Z.mul_nonneg_nonneg; lia).
  replace (Z.of_nat ni <? Z.of_nat (ni + nk + r * nk)) with true by zbool.
  unfold memory_region_read_accessor, merge_value. rewrite flushed_same.
  replace (Z.of_nat (ni + nk + r * nk) - Z.of_nat nk - Z.of_nat ni) with (Z.of_nat (r * nk)) by lia.
  rewrite !(wrap_small 32), (wrap_small 64 (addr + _)) by lia.
  replace (Z.of_nat (r * nk) * 8 <? 64) with true by zbool. cbn [c_assert mbind outcome_bind].
  rewrite Nat2Z.id. pose proof (be_bytes_range nk m (addr + Z.of_nat ni) Hm) as Hr.
  assert (2 ^ (8 * Z.of_nat nk) * 2 ^ (8 * Z.of_nat (r * nk)) <= 2 ^ 64).
  { rewrite <- Z.pow_add_r by lia. apply Z.pow_le_mono_r; lia. }
  assert (Hsp : 2 ^ (8 * Z.of_nat (S r * nk)) = 2 ^ (8 * Z.of_nat nk) * 2 ^ (8 * Z.of_nat (r * nk))).
  { rewrite <- Z.pow_add_r by lia. f_equal. lia. }
  rewrite (wrap_small 64 (be_bytes _ _ _)), land_mask by nia.
  rewrite (Z.mul_comm _ 8), Z.shiftl_mul_pow2 by lia.
  rewrite wrap_small by nia. rewrite Hsp.
  rewrite (Z.mul_assoc (be_bytes ni m addr)).
  rewrite <- (Z.shiftl_mul_pow2 _ (8 * Z.of_nat (r * nk))) by lia.
  rewrite <- (Z.shiftl_mul_pow2 (be_bytes nk _ _) (8 * Z.of_nat (r * nk))) by lia.
  rewrite <- Z.shiftl_lor, lor_mul_add, Z.shiftl_mul_pow2 by lia.
  replace (Z.of_nat ni + Z.of_nat nk) with (Z.of_nat (ni + nk)) by lia.
  rewrite <- (IH fuel (ni + nk)%nat) by lia. rewrite be_bytes_app. f_equal. lia.
Qed.

(** *** Byte swaps reverse the bytes *)
Lemma land_byte x s : 0 <= s -> Z.land x (Z.shiftl 255 s) = (x / 2 ^ s mod 2 ^ 8) * 2 ^ s.
Proof.
  intros Hs. rewrite <- Z.shiftl_mul_pow2, <- (Z.land_ones _ 8), <- Z.shiftr_div_pow2 by lia.
  change 255 with (Z.ones 8). bits.
  destruct (Z.lt_ge_cases i s).
  - rewrite !(Z.testbit_neg_r _ (i - s)) by lia. by rewrite andb_false_r.
  - autorewrite with xbits. do 2 f_equal. lia.
Qed.

(** Byte [s / 8] of [x]. *)
Definition byte_at (x s : Z) : Z := x / 2 ^ s mod 2 ^ 8.

Lemma byte_at_range x s : 0 <= byte_at x s < 2 ^ 8.
Proof. apply Z.mod_pos_bound. lia. Qed.

Ltac byte_masks :=
  repeat match goal with
  | |- context [Z.land ?x ?c] =>
      let s := eval vm_compute in (Z.log2 (c / 255)) in
      change (Z.land x c) with (Z.land x (Z.shiftl 255 s));
      rewrite (land_byte x s) by lia; fold (byte_at x s)
  end;
  rewrite ?Z.shiftl_mul_pow2, ?Z.shiftr_div_pow2 by lia.

Lemma bswap16_bytes x : bswap16 x = byte_at x 0 * 2 ^ 8 + byte_at x 8.
Proof.
  unfold bswap16. byte_masks.
  pose proof (byte_at_range x 0). pose proof (byte_at_range x 8).
  rewrite Z.div_mul by lia. rewrite Z.pow_0_r, Z.mul_1_r. apply lor_mul_add; lia.
Qed.

Lemma bswap32_bytes x :
  bswap32 x = byte_at x 0 * 2 ^ 24 + byte_at x 8 * 2 ^ 16 + byte_at x 16 * 2 ^ 8 + byte_at x 24.
Proof.
  unfold bswap32. byte_masks.
  pose proof (byte_at_range x 0). pose proof (byte_at_range x 8).
  pose proof (byte_at_range x 16). pose proof (byte_at_range x 24).
  rewrite (Z.div_mul _ (2 ^ 24)) by lia.
  replace (byte_at x 16 * 2 ^ 16 / 2 ^ 8) with (byte_at x 16 * 2 ^ 8)
    by (change (2 ^ 16) with (2 ^ 8 * 2 ^ 8); rewrite Z.mul_assoc, Z.div_mul; lia).
  replace (byte_at x 8 * 2 ^ 8 * 2 ^ 8) with (byte_at x 8 * 2 ^ 16) by lia.
  rewrite Z.pow_0_r, Z.mul_1_r. rewrite lor_mul_add by lia.
  replace (byte_at x 0 * 2 ^ 24 + byte_at x 8 * 2 ^ 16)
    with ((byte_at x 0 * 2 ^ 8 + byte_at x 8) * 2 ^ 16) by lia.
  rewrite lor_mul_add by lia.
  replace (_ * 2 ^ 16 + byte_at x 16 * 2 ^ 8)
    with (((byte_at x 0 * 2 ^ 8 + byte_at x 8) * 2 ^ 8 + byte_at x 16) * 2 ^ 8) by lia.
  rewrite lor_mul_add by lia. lia.
Qed.

Lemma bswap64_bytes x :
  bswap64 x = byte_at x 0 * 2 ^ 56 + byte_at x 8 * 2 ^ 48 + byte_at x 16 * 2 ^ 40
    + byte_at x 24 * 2 ^ 32 + byte_at x 32 * 2 ^ 24 + byte_at x 40 * 2 ^ 16
    + byte_at x 48 * 2 ^ 8 + byte_at x 56.
Proof.
  unfold bswap64. byte_masks.
  pose proof (byte_at_range x 0). pose proof (byte_at_range x 8).
  pose proof (byte_at_range x 16). pose proof (byte_at_range x 24).
  pose proof (byte_at_range x 32). pose proof (byte_at_range x 40).
  pose proof (byte_at_range x 48). pose proof (byte_at_range x 56).
  assert (Hd : forall b p q, 0 <= q <= p -> b * 2 ^ p / 2 ^ q = b * 2 ^ (p - q)).
  { intros b p q ?. replace p with (p - q + q) at 1 by lia.
    rewrite Z.pow_add_r, Z.mul_assoc, Z.div_mul by lia. done. }
  rewrite !Hd by lia. rewrite <- !Z.mul_assoc, <- !Z.pow_add_r by lia.
  repeat match goal with
  | |- context [2 ^ (?a + ?b)] => let c := eval vm_compute in (a + b) in change (a + b) with c
  | |- context [2 ^ (?a - ?b)] => let c := eval vm_compute in (a - b) in change (a - b) with c
  end.
  assert (Hl : forall hi b s, 0 <= s -> 0 <= b < 2 ^ 8 ->
            Z.lor (hi * 2 ^ (s + 8)) (b * 2 ^ s) = (hi * 2 ^ 8 + b) * 2 ^ s).
  { intros hi b s ? ?. rewrite Z.pow_add_r by lia.
    replace (hi * (2 ^ s * 2 ^ 8)) with (hi * 2 ^ 8 * 2 ^ s) by lia.
    rewrite <- !(Z.shiftl_mul_pow2 _ s) by lia. rewrite <- Z.shiftl_lor, lor_mul_add by lia. done. }
  rewrite (Hl _ _ 48), (Hl _ _ 40), (Hl _ _ 32), (Hl _ _ 24), (Hl _ _ 16), (Hl _ _ 8),
    (Hl _ _ 0) by lia. lia.
Qed.

(** The bytes of a big-endian value, from the most significant. *)
Lemma byte_at_be a b m addr :
  bytes_ok m -> byte_at (be_bytes (a + S b) m addr) (8 * Z.of_nat b) = m (addr + Z.of_nat a).
Proof.
  intros Hm. unfold byte_at. rewrite be_bytes_app. cbn [be_bytes].
  pose proof (be_bytes_range b m (addr + Z.of_nat a + 1) Hm).
  rewrite Nat2Z.inj_succ, <- Z.add_1_l, pow_split by lia.
  replace (2 ^ (8 * 1) * 2 ^ (8 * Z.of_nat b) * be_bytes a m addr +
     (2 ^ (8 * Z.of_nat b) * m (addr + Z.of_nat a) + be_bytes b m (addr + Z.of_nat a + 1)))
    with ((m (addr + Z.of_nat a) + be_bytes a m addr * 2 ^ 8) * 2 ^ (8 * Z.of_nat b)
          + be_bytes b m (addr + Z.of_nat a + 1)) by lia.
  rewrite Z.div_add_l, (Z.div_small (be_bytes b _ _)), Z.add_0_r, Z.mod_add by lia.
  apply Z.mod_small, Hm.
Qed.

Ltac eval_nats :=
  repeat match goal with
  | |- context [Z.of_nat ?n] =>
      let c := eval vm_compute in (Z.of_nat n) in change (Z.of_nat n) with c
  end;
  rewrite <- ?Z.add_assoc; rewrite ?Z.add_0_r;
  repeat match goal with
  | |- context [1 + Z.pos ?p] =>
      let c := eval vm_compute in (1 + Z.pos p) in change (1 + Z.pos p) with c
  end.

(** Swapping a big-endian value gives the little-endian one. *)
Lemma swap_be_bytes m addr k :
  bytes_ok m -> pow2_size k ->
  adjust_endianness DEVICE_BIG_ENDIAN (be_bytes (Z.to_nat k) m addr) k
    = Ok (le_bytes (Z.to_nat k) m addr).
Proof.
  intros Hm Hk. unfold adjust_endianness, memory_region_wrong_endianness.
  destruct Hk as [-> | [-> | [-> | ->]]]; cbn [Z.eqb Pos.eqb]; f_equal.
  - change (Z.to_nat 1) with 1%nat. cbn [be_bytes le_bytes]. lia.
  - change (Z.to_nat 2) with 2%nat.
    rewrite wrap_small, bswap16_bytes by (apply (be_bytes_range 2); done).
    rewrite (byte_at_be 1 0 m), (byte_at_be 0 1 m) by done.
    cbn [le_bytes]. eval_nats. lia.
  - change (Z.to_nat 4) with 4%nat.
    rewrite wrap_small, bswap32_bytes by (apply (be_bytes_range 4); done).
    rewrite (byte_at_be 3 0 m), (byte_at_be 2 1 m), (byte_at_be 1 2 m), (byte_at_be 0 3 m) by done.
    cbn [le_bytes]. eval_nats. lia.
  - change (Z.to_nat 8) with 8%nat.
    rewrite wrap_small, bswap64_bytes by (apply (be_bytes_range 8); done).
    rewrite (byte_at_be 7 0 m), (byte_at_be 6 1 m), (byte_at_be 5 2 m), (byte_at_be 4 3 m),
      (byte_at_be 3 4 m), (byte_at_be 2 5 m), (byte_at_be 1 6 m), (byte_at_be 0 7 m) by done.
    cbn [le_bytes]. eval_nats. lia.
Qed.

(** *** The dispatcher over a byte device *)
Lemma access_mask_ones k : pow2_size k -> Z.shiftr (2 ^ 64 - 1) (64 - k * 8) = Z.ones (8 * k).
Proof. by intros [-> | [-> | [-> | ->]]]. Qed.

(** An access splits into a whole number of pieces. *)
Lemma splits_pieces size smin smax :
  splits size smin smax ->
  exists nk r : nat, (1 <= nk)%nat /\ access_size_of size smin smax = Z.of_nat nk /\
    size = Z.of_nat (0 + r * nk) /\ (r <= Z.to_nat size)%nat /\ (0 + r * nk <= 8)%nat.
Proof.
  intros (Hs & Hk & Hle). set (k := access_size_of size smin smax) in *.
  exists (Z.to_nat k), (Z.to_nat (size / k)).
  destruct Hs as [-> | [-> | [-> | ->]]], Hk as [-> | [-> | [-> | ->]]];
    try lia; vm_compute; split_and!; lia || congruence.
Qed.

Lemma dispatch_read_bytes e smin smax m addr size :
  splits size smin smax -> bytes_ok m -> 0 <= addr -> addr + size <= 2 ^ 64 ->
  memory_region_dispatch_read (byte_device e smin smax) flush m addr size
    = Ok (m, le_bytes (Z.to_nat size) m addr, false).
Proof.
  intros Hs Hm Ha Hw. pose proof Hs as (Hsz & Hk & _).
  destruct (splits_pieces _ _ _ Hs) as (nk & r & Hnk & Hak & Hsize & Hr & H8).
  unfold memory_region_dispatch_read, memory_region_dispatch_read1,
    access_with_adjusted_size, memory_region_access_valid.
  cbn [byte_device valid_unaligned valid_accepts read endianness impl_min_access_size
       impl_max_access_size negb andb mbind outcome_bind].
  rewrite access_mask_ones by done. rewrite Hak.
  destruct e; cbn [memory_region_big_endian].
  1,3: pose proof (read_loop_le m addr nk Hm Hnk Ha r (Z.to_nat size) 0 Hr H8) as Hl;
    rewrite <- Hsize in Hl; cbn [le_bytes] in Hl; change (Z.of_nat 0) with 0 in Hl;
    rewrite Hl by lia; rewrite Hsize, Nat2Z.id; done.
  pose proof (read_loop_be m addr nk Hm Hnk Ha r (Z.to_nat size) 0 Hr H8) as Hl.
  rewrite <- Hsize in Hl. cbn [be_bytes] in Hl. change (Z.of_nat 0) with 0 in Hl.
  rewrite Z.mul_0_l in Hl. rewrite Hl by lia. cbn [mbind outcome_bind].
  replace (0 + r * nk)%nat with (Z.to_nat size) by lia.
  by rewrite swap_be_bytes.
Qed.

(** *** Writing in pieces *)
Lemma byte_at_land x s : 0 <= s -> byte_at x s = Z.land (Z.shiftr x s) (Z.ones 8).
Proof. intros. unfold byte_at. by rewrite Z.land_ones, Z.shiftr_div_pow2 by lia. Qed.

Lemma byte_at_slice v s n p :
  0 <= s -> 0 <= p -> p + 8 <= n ->
  byte_at (Z.land (Z.shiftr v s) (Z.ones n)) p = byte_at v (s + p).
Proof.
  intros. rewrite !byte_at_land by lia. bits.
  destruct (Z.lt_ge_cases i 8).
  - rewrite (Z.ones_spec_low 8), (Z.ones_spec_low n), !andb_true_r by lia. f_equal. lia.
  - by rewrite (Z.ones_spec_high 8), !andb_false_r by lia.
Qed.

(** Byte [t] of an access of [total] bytes, in device order. *)
Definition byte_pos (big : bool) (total t : Z) : Z := if big then total - 1 - t else t.

Lemma write_loop big addr nk v total : (1 <= nk)%nat -> 0 <= addr -> (total <= 8)%nat ->
  addr + Z.of_nat total <= 2 ^ 64 ->
  forall r fuel ni m, (r <= fuel)%nat -> (ni + r * nk = total)%nat ->
  exists m',
    access_loop fuel (memory_region_write_accessor flush (store big)) big
      addr (Z.of_nat total) (Z.of_nat nk) (Z.ones (8 * Z.of_nat nk)) (Z.of_nat ni) m v
    = Ok (m', v) /\
    forall a, m' a = if (addr + Z.of_nat ni <=? a) && (a <? addr + Z.of_nat total)
                     then byte_at v (8 * byte_pos big (Z.of_nat total) (a - addr)) else m a.
Proof.
  intros Hk Ha H8 Hw. induction r as [|r IH]; intros fuel ni m Hf Hn.
  { rewrite Nat.mul_0_l, Nat.add_0_r in Hn. subst ni. exists m. split.
    - destruct fuel; cbn [access_loop]; by rewrite Z.ltb_irrefl.
    - intros a. destruct (_ && _) eqn:?; [lia|done]. }
  destruct fuel as [|fuel]; [lia|]. cbn [access_loop].
  assert (ni + nk + r * nk = total)%nat as Hsum by lia.
  assert (ni + nk <= total)%nat by (rewrite <- Hsum; apply Nat.le_add_r).
  replace (Z.of_nat ni <? Z.of_nat total) with true by zbool.
  unfold memory_region_write_accessor, slice_value. rewrite flushed_same.
  set (shift := if big then u32 ((Z.of_nat total - Z.of_nat nk - Z.of_nat ni) * 8)
                else u32 (Z.of_nat ni * 8)).
  assert (Hshift : shift = 8 * (if big then Z.of_nat total - Z.of_nat nk - Z.of_nat ni
                                else Z.of_nat ni) /\ 0 <= shift < 64).
  { unfold shift. destruct big; rewrite wrap_small; lia. }
  destruct Hshift as [Hshift Hsr]. clearbody shift.
  replace (shift <? 64) with true by zbool. cbn [c_assert mbind outcome_bind].
  rewrite wrap_small by lia.
  set (tmp := Z.land _ _).
  destruct (IH fuel (ni + nk)%nat (store big m (addr + Z.of_nat ni) tmp (Z.of_nat nk)))
    as (m' & Hrun & Hm'); [lia|lia|].
  exists m'. rewrite Nat2Z.inj_add in Hrun, Hm'. split; [exact Hrun|].
  intros a. rewrite Hm'. unfold store.
  destruct ((addr + (Z.of_nat ni + Z.of_nat nk) <=? a) && (a <? addr + Z.of_nat total)) eqn:?.
  { replace ((addr + Z.of_nat ni <=? a) && (a <? addr + Z.of_nat total)) with true by lia. done. }
  destruct ((addr + Z.of_nat ni <=? a) && (a <? addr + Z.of_nat ni + Z.of_nat nk)) eqn:?.
  - replace ((addr + Z.of_nat ni <=? a) && (a <? addr + Z.of_nat total)) with true by lia.
    unfold store_byte, byte_pos. subst tmp.
    destruct big; (etransitivity; [apply byte_at_slice; lia|]); f_equal; lia.
  - replace ((addr + Z.of_nat ni <=? a) && (a <? addr + Z.of_nat total)) with false by lia. done.
Qed.

Ltac eval_muls :=
  repeat match goal with
  | |- context [8 * ?k] =>
      let c := eval vm_compute in (8 * k) in
      lazymatch c with Z0 => idtac | Zpos _ => idtac end; change (8 * k) with c
  end.

(** A swap lays the bytes out in the opposite order. *)
Lemma swap_as_bytes v size :
  pow2_size size -> 0 <= v < 2 ^ (8 * size) ->
  adjust_endianness DEVICE_BIG_ENDIAN v size
    = Ok (be_bytes (Z.to_nat size) (fun t => byte_at v (8 * t)) 0).
Proof.
  intros Hs Hv. unfold adjust_endianness, memory_region_wrong_endianness.
  destruct Hs as [-> | [-> | [-> | ->]]]; cbn [Z.eqb Pos.eqb]; f_equal.
  - change (Z.to_nat 1) with 1%nat. cbn [be_bytes]. eval_nats.
    unfold byte_at. rewrite Z.div_1_r, Z.mod_small; lia.
  - rewrite wrap_small, bswap16_bytes by lia. change (Z.to_nat 2) with 2%nat.
    cbn [be_bytes]. eval_nats. eval_muls. lia.
  - rewrite wrap_small, bswap32_bytes by lia. change (Z.to_nat 4) with 4%nat.
    cbn [be_bytes]. eval_nats. eval_muls. lia.
  - rewrite wrap_small, bswap64_bytes by lia. change (Z.to_nat 8) with 8%nat.
    cbn [be_bytes]. eval_nats. eval_muls. lia.
Qed.

Lemma swap_byte_at v size :
  pow2_size size -> 0 <= v < 2 ^ (8 * size) ->
  exists v', adjust_endianness DEVICE_BIG_ENDIAN v size = Ok v' /\
    forall t, 0 <= t < size -> byte_at v' (8 * (size - 1 - t)) = byte_at v (8 * t).
Proof.
  intros Hs Hv. rewrite swap_as_bytes by done. eexists. split; [done|]. intros t Ht.
  replace (Z.to_nat size) with (Z.to_nat t + S (Z.to_nat (size - 1 - t)))%nat by lia.
  replace (8 * (size - 1 - t)) with (8 * Z.of_nat (Z.to_nat (size - 1 - t))) by lia.
  rewrite byte_at_be by (intros a; apply byte_at_range). f_equal. lia.
Qed.

(** The bytes of memory after writing [data] at [addr]. *)
Definition written (m : Z -> Z) (addr data size a : Z) : Z :=
  if (addr <=? a) && (a <? addr + size) then byte_at data (8 * (a - addr)) else m a.

Lemma dispatch_write_bytes e smin smax m addr data size :
  splits size smin smax -> 0 <= addr -> addr + size <= 2 ^ 64 -> 0 <= data < 2 ^ (8 * size) ->
  exists m', memory_region_dispatch_write (byte_device e smin smax) flush m addr data size
    = Ok (m', false) /\ forall a, m' a = written m addr data size a.
Proof.
  intros Hs Ha Hw Hd. pose proof Hs as (Hsz & Hk & _).
  destruct (splits_pieces _ _ _ Hs) as (nk & r & Hnk & Hak & Hsize & Hr & H8).
  unfold memory_region_dispatch_write, access_with_adjusted_size, memory_region_access_valid.
  cbn [byte_device valid_unaligned valid_accepts write endianness impl_min_access_size
       impl_max_access_size negb andb mbind outcome_bind].
  rewrite access_mask_ones by done. rewrite Hak.
  assert (exists v, adjust_endianness e data size = Ok v /\
    forall t, 0 <= t < size ->
      byte_at v (8 * byte_pos (memory_region_big_endian e) size t) = byte_at data (8 * t))
    as (v & -> & Hv).
  { destruct e; [by exists data| |by exists data]. by apply swap_byte_at. }
  cbn [mbind outcome_bind].
  destruct (write_loop (memory_region_big_endian e) addr nk v (0 + r * nk)%nat Hnk Ha H8
              ltac:(lia) r (Z.to_nat size) 0 m Hr eq_refl) as (m' & Hrun & Hm').
  rewrite <- Hsize in Hrun, Hm'. change (Z.of_nat 0) with 0 in Hrun, Hm'.
  rewrite Hrun. cbn [mbind outcome_bind]. exists m'. split; [done|].
  intros a. rewrite Hm', Z.add_0_r. unfold written.
  destruct ((addr <=? a) && (a <? addr + size)) eqn:?; [|done]. apply Hv. lia.
Qed.

Lemma le_bytes_ext n m m' addr :
  (forall a, addr <= a < addr + Z.of_nat n -> m a = m' a) -> le_bytes n m addr = le_bytes n m' addr.
Proof.
  revert addr. induction n as [|n IH]; intros addr H; [done|]. cbn [le_bytes].
  rewrite H, (IH (addr + 1)) by lia || (intros; apply H; lia). done.
Qed.

Lemma le_bytes_byte_at n data addr :
  0 <= data < 2 ^ (8 * Z.of_nat n) ->
  le_bytes n (fun a => byte_at data (8 * (a - addr))) addr = data.
Proof.
  enough (Hgen : forall k addr' d, 0 <= k -> addr' = addr + k -> d = data / 2 ^ (8 * k) ->
    0 <= d < 2 ^ (8 * Z.of_nat n) ->
    le_bytes n (fun a => byte_at data (8 * (a - addr))) addr' = d).
  { intros H. apply (Hgen 0); try lia. by rewrite Z.div_1_r. }
  induction n as [|n IH]; intros k addr' d Hk -> Hd Hr; [simpl in *; lia|].
  cbn [le_bytes]. rewrite Nat2Z.inj_succ, <- Z.add_1_l, pow_split in Hr by lia.
  assert (2 ^ (8 * (k + 1)) = 2 ^ (8 * k) * 2 ^ 8) as Hp by (rewrite pow_split; lia).
  rewrite (IH (k + 1) _ (d / 2 ^ 8)); try lia.
  - unfold byte_at. replace (addr + k - addr) with k by lia. rewrite <- Hd.
    Z.div_mod_to_equations. lia.
  - subst d. rewrite Hp, Z.div_div by lia. done.
  - split; [apply Z.div_pos; lia|]. apply Z.div_lt_upper_bound; lia.
Qed.

(** C31 (roundtrip): whatever the device's byte order, an MMIO write stores the
    value little-endian as the guest sees it, touches no other byte, and a read of
    the same size returns it.  The access is split into pieces of the
    implementation's size, which must not be larger than the access; no coalesced
    writes of the guest are pending for the device. *)
Theorem dispatch_write_read e smin smax m addr data size :
  splits size smin smax -> bytes_ok m -> 0 <= addr -> addr + size <= 2 ^ 64 ->
  0 <= data < 2 ^ (8 * size) ->
  exists m', memory_region_dispatch_write (byte_device e smin smax) flush m addr data size
    = Ok (m', false) /\
    (forall a, m' a = written m addr data size a) /\
    memory_region_dispatch_read (byte_device e smin smax) flush m' addr size = Ok (m', data, false).
Proof.
  intros Hs Hm Ha Hw Hd.
  destruct (dispatch_write_bytes e smin smax m addr data size Hs Ha Hw Hd) as (m' & Hrun & Hm').
  exists m'. split_and!; auto.
  rewrite dispatch_read_bytes; auto.
  - do 3 f_equal. transitivity (le_bytes (Z.to_nat size) (fun a => byte_at data (8 * (a - addr))) addr).
    + apply le_bytes_ext. intros a Hin. rewrite Hm'. unfold written.
      by replace ((addr <=? a) && (a <? addr + size)) with true by lia.
    + apply le_bytes_byte_at. replace (Z.of_nat (Z.to_nat size)) with size; [done|].
      destruct Hs as [[-> | [-> | [-> | ->]]] _]; done.
  - intros a. rewrite Hm'. unfold written. destruct (_ && _); [apply byte_at_range|apply Hm].
Qed.

End ByteDevice.

#[local] Existing Instance no_kvm.

Lemma dispatch_write_read_witness :
  exists m', memory_region_dispatch_write (byte_device DEVICE_BIG_ENDIAN 1 2) true (fun _ => 0) 16 0x12345678 4
    = Ok (m', false) /\ m' 17 = 0x56 /\
    memory_region_dispatch_read (byte_device DEVICE_BIG_ENDIAN 1 2) true m' 16 4 = Ok (m', 0x12345678, false).
Proof.
  destruct (dispatch_write_read (Buf := no_kvm _) true (fun _ _ => eq_refl) DEVICE_BIG_ENDIAN 1 2 (fun _ => 0) 16 0x12345678 4)
    as (m' & Hw & Hm & Hr).
  - split_and!; vm_compute; [tauto|tauto|discriminate].
  - intros a. lia.
  - lia.
  - lia.
  - lia.
  - exists m'. split; [exact Hw|]. split; [by rewrite Hm|exact Hr].
Defined.

(** ** Finding: accesses narrower than the implementation

    An access smaller than [impl.min_access_size] is made as one of that size.  A
    byte written to a little-endian device that implements words clears the next
    byte, and for a big-endian device the shift is by more than 63. *)
Lemma narrow_access_widened :
  (match memory_region_dispatch_write (byte_device DEVICE_LITTLE_ENDIAN 2 2) false (fun _ => 7) 16 0x12 1 with
   | Ok (m, _) => [m 16; m 17]
   | _ => []
   end = [0x12; 0]) /\
  memory_region_dispatch_write (byte_device DEVICE_BIG_ENDIAN 2 2) false (fun _ => 7) 16 0x12 1 = Abort.
Proof. split; vm_compute; reflexivity. Qed.
