(* ===== verification/FlatView.v ===== *)
(** * FlatView: rendering the region tree into a flat view (memory.c)

    [FlatRange] and [FlatView] are the structs; [render_memory_region],
    [flatview_simplify] and [generate_memory_topology] are translated loop by
    loop (the array is a list, the loop counters are kept).  The reference
    semantics is [resolve]: walk the region tree in priority order and return
    the first terminating region that covers an address.  The main theorem
    says that the rendered, simplified view answers every address the way
    [resolve] does. *)
From S2P Require Import Prelude Int128 MemRegion.

Record FlatRange := {
  fr_mr : Z;
  fr_offset_in_region : Z;
  fr_addr : AddrRange;
  fr_dirty_log_mask : Z;
  fr_romd_mode : bool;
  fr_readonly : bool
}.

(** [nr] is the length of [fv_ranges]. *)
Record FlatView := {
  fv_ref : Z;
  fv_ranges : list FlatRange;
  fv_nr_allocated : Z
}.

Definition fv_nr (view : FlatView) : Z := Z.of_nat (length (fv_ranges view)).

Definition flatrange_equal (a b : FlatRange) : bool :=
  (fr_mr a =? fr_mr b)
  && addrrange_equal (fr_addr a) (fr_addr b)
  && (fr_offset_in_region a =? fr_offset_in_region b)
  && eqb (fr_romd_mode a) (fr_romd_mode b)
  && eqb (fr_readonly a) (fr_readonly b).

Definition flatview_init : FlatView :=
  {| fv_ref := 1; fv_ranges := []; fv_nr_allocated := 0 |}.

(** Insert a range at a given position; the view takes a reference. *)
Definition flatview_insert (regs : regions) (refs : refcounts) (view : FlatView)
    (pos : nat) (range : FlatRange) : refcounts * FlatView :=
  let nr_allocated :=
    if fv_nr view =? fv_nr_allocated view then (2 * fv_nr view) `max` 10
    else fv_nr_allocated view in
  (memory_region_ref regs (fr_mr range) refs,
   {| fv_ref := fv_ref view;
      fv_ranges := take pos (fv_ranges view) ++ range :: drop pos (fv_ranges view);
      fv_nr_allocated := nr_allocated |}).

(** [flatview_destroy]: drop the reference of every range. *)
Definition flatview_destroy (regs : regions) (refs : refcounts) (view : FlatView) : refcounts :=
  foldl (fun refs fr => memory_region_unref regs (fr_mr fr) refs) refs (fv_ranges view).

Definition can_merge (r1 r2 : FlatRange) : bool :=
  (addrrange_end (fr_addr r1) =? start (fr_addr r2))
  && (fr_mr r1 =? fr_mr r2)
  && (i128_add (fr_offset_in_region r1) (size (fr_addr r1)) =? fr_offset_in_region r2)
  && (fr_dirty_log_mask r1 =? fr_dirty_log_mask r2)
  && eqb (fr_romd_mode r1) (fr_romd_mode r2)
  && eqb (fr_readonly r1) (fr_readonly r2).

Definition fr_grow (delta : Z) (r : FlatRange) : FlatRange :=
  {| fr_mr := fr_mr r;
     fr_offset_in_region := fr_offset_in_region r;
     fr_addr := addrrange_make (start (fr_addr r)) (i128_add (size (fr_addr r)) delta);
     fr_dirty_log_mask := fr_dirty_log_mask r;
     fr_romd_mode := fr_romd_mode r;
     fr_readonly := fr_readonly r |}.

(** The inner [while] of [flatview_simplify]: absorb [ranges[j]] into
    [ranges[i]] while it can be merged with its predecessor. *)
Fixpoint simplify_inner (fuel : nat) (ranges : list FlatRange) (i j : nat)
    : outcome (list FlatRange * nat) :=
  match fuel with
  | O => NoFuel
  | S fuel =>
      match ranges !! (j - 1)%nat, ranges !! j with
      | Some rp, Some rj =>
          if can_merge rp rj then
            simplify_inner fuel (alter (fr_grow (size (fr_addr rj))) i ranges) i (S j)
          else Ok (ranges, j)
      | _, _ => Ok (ranges, j)
      end
  end.

(** The outer [while]: [memmove] closes the gap and [nr] shrinks. *)
Fixpoint simplify_outer (fuel : nat) (ranges : list FlatRange) (i : nat)
    : outcome (list FlatRange) :=
  match fuel with
  | O => NoFuel
  | S fuel =>
      if (i <? length ranges)%nat then
        '(ranges, j) ← simplify_inner (S (length ranges)) ranges i (S i);
        simplify_outer fuel (take (S i) ranges ++ drop j ranges) (S i)
      else Ok ranges
  end.

Definition flatview_simplify (view : FlatView) : outcome FlatView :=
  ranges ← simplify_outer (S (length (fv_ranges view))) (fv_ranges view) 0;
  Ok {| fv_ref := fv_ref view; fv_ranges := ranges; fv_nr_allocated := fv_nr_allocated view |}.

(** ** Rendering *)
Definition fr_at (fr : FlatRange) (off : Z) (addr : AddrRange) : FlatRange :=
  {| fr_mr := fr_mr fr;
     fr_offset_in_region := off;
     fr_addr := addr;
     fr_dirty_log_mask := fr_dirty_log_mask fr;
     fr_romd_mode := fr_romd_mode fr;
     fr_readonly := fr_readonly fr |}.

(** The loop "render the region itself into any gaps left by the current
    view" and the insertion after it. *)
Fixpoint render_gaps (fuel : nat) (regs : regions) (refs : refcounts) (view : FlatView)
    (i : nat) (fr : FlatRange) (offset_in_region base remain : Z)
    : outcome (refcounts * FlatView) :=
  match fuel with
  | O => NoFuel
  | S fuel =>
      match fv_ranges view !! i, (remain =? 0) with
      | Some r, false =>
          if addrrange_end (fr_addr r) <=? base then
            render_gaps fuel regs refs view (S i) fr offset_in_region base remain
          else
            '(refs, view, i, offset_in_region, base, remain) ←
              (if base <? start (fr_addr r) then
                 let now := remain `min` i128_sub (start (fr_addr r)) base in
                 let '(refs, view) :=
                   flatview_insert regs refs view i
                     (fr_at fr offset_in_region (addrrange_make base now)) in
                 now64 ← i128_get64 now;
                 Ok (refs, view, S i, u64 (offset_in_region + now64),
                     i128_add base now, i128_sub remain now)
               else Ok (refs, view, i, offset_in_region, base, remain));
            let now := i128_sub (i128_add base remain `min` addrrange_end (fr_addr r)) base in
            now64 ← i128_get64 now;
            render_gaps fuel regs refs view (S i) fr
              (u64 (offset_in_region + now64)) (i128_add base now) (i128_sub remain now)
      | _, _ =>
          if remain =? 0 then Ok (refs, view)
          else Ok (flatview_insert regs refs view i
                     (fr_at fr offset_in_region (addrrange_make base remain)))
      end
  end.

(** A dangling region pointer is reported as [Abort]. *)
Fixpoint render_memory_region (fuel : nat) (regs : regions) (refs : refcounts)
    (view : FlatView) (mr : Z) (base : Z) (clip : AddrRange) (readonly : bool)
    : outcome (refcounts * FlatView) :=
  match fuel with
  | O => NoFuel
  | S fuel =>
      match regs !! mr with
      | None => Abort
      | Some m =>
          if negb (mr_enabled m) then Ok (refs, view)
          else
            let base := i128_add base (mr_addr m) in
            let readonly := readonly || mr_readonly m in
            let tmp := addrrange_make base (mr_size m) in
            if negb (addrrange_intersects tmp clip) then Ok (refs, view)
            else
              let clip := addrrange_intersection tmp clip in
              match mr_alias m with
              | Some alias =>
                  match regs !! alias with
                  | None => Abort
                  | Some al =>
                      let base := i128_sub base (mr_addr al) in
                      let base := i128_sub base (mr_alias_offset m) in
                      render_memory_region fuel regs refs view alias base clip readonly
                  end
              | None =>
                  '(refs, view) ←
                    ofold (fun '(refs, view) subregion =>
                             render_memory_region fuel regs refs view subregion base clip readonly)
                      (refs, view) (mr_subregions m);
                  if negb (mr_terminates m) then Ok (refs, view)
                  else
                    offset_in_region ← i128_get64 (i128_sub (start clip) base);
                    let fr := {| fr_mr := mr; fr_offset_in_region := 0;
                                 fr_addr := clip;
                                 fr_dirty_log_mask := mr_dirty_log_mask m;
                                 fr_romd_mode := mr_romd_mode m;
                                 fr_readonly := readonly |} in
                    render_gaps (S (length (fv_ranges view))) regs refs view 0 fr
                      offset_in_region (start clip) (size clip)
              end
      end
  end.

(** The recursion follows [alias] and [subregions] pointers, which form a
    finite acyclic graph, so it is never deeper than the number of regions. *)
Definition render_fuel (regs : regions) : nat := S (base.size regs).

(** [int128_zero()] to [int128_2_64()]: the whole address space. *)
Definition all_addresses : AddrRange := addrrange_make 0 (2 ^ 64).

Definition generate_memory_topology (regs : regions) (refs : refcounts) (mr : option Z)
    : outcome (refcounts * FlatView) :=
  '(refs, view) ←
    match mr with
    | Some mr => render_memory_region (render_fuel regs) regs refs flatview_init mr 0
                   all_addresses false
    | None => Ok (refs, flatview_init)
    end;
  view ← flatview_simplify view;
  Ok (refs, view).

(** ** Reference semantics *)

(** What an address resolves to: the region, the offset inside it and the
    attributes the access is checked against. *)
Record Hit := {
  h_mr : Z;
  h_offset : Z;
  h_dirty_log_mask : Z;
  h_romd_mode : bool;
  h_readonly : bool
}.

(** The first of a list of optional results. *)
Fixpoint first_some {A B} (f : A -> option B) (l : list A) : option B :=
  match l with
  | [] => None
  | x :: l => match f x with Some y => Some y | None => first_some f l end
  end.

(** Walk the tree in priority order with exact arithmetic: a region answers
    for the addresses it covers with the answer of its alias target, else of
    the first subregion that answers, else itself when it terminates. *)
Fixpoint resolve (fuel : nat) (regs : regions) (mr base : Z) (readonly : bool) (a : Z)
    : option Hit :=
  match fuel with
  | O => None
  | S fuel =>
      match regs !! mr with
      | None => None
      | Some m =>
          let base := base + mr_addr m in
          let readonly := readonly || mr_readonly m in
          if mr_enabled m && (base <=? a) && (a <? base + mr_size m) then
            match mr_alias m with
            | Some alias =>
                match regs !! alias with
                | None => None
                | Some al =>
                    resolve fuel regs alias (base - mr_addr al - mr_alias_offset m) readonly a
                end
            | None =>
                match first_some (fun sub => resolve fuel regs sub base readonly a)
                        (mr_subregions m) with
                | Some h => Some h
                | None =>
                    if mr_terminates m then
                      Some {| h_mr := mr; h_offset := a - base;
                              h_dirty_log_mask := mr_dirty_log_mask m;
                              h_romd_mode := mr_romd_mode m; h_readonly := readonly |}
                    else None
                end
            end
          else None
      end
  end.

(** How a flat view answers an address. *)
Definition fr_hit (r : FlatRange) (a : Z) : Hit :=
  {| h_mr := fr_mr r;
     h_offset := fr_offset_in_region r + (a - start (fr_addr r));
     h_dirty_log_mask := fr_dirty_log_mask r;
     h_romd_mode := fr_romd_mode r;
     h_readonly := fr_readonly r |}.

Definition view_at (ranges : list FlatRange) (a : Z) : option Hit :=
  first_some (fun r => if addrrange_contains (fr_addr r) a then Some (fr_hit r a) else None)
    ranges.

(** Sorted, disjoint, non-empty ranges inside the 64-bit address space. *)
Fixpoint sorted_from (lb : Z) (l : list FlatRange) : Prop :=
  match l with
  | [] => True
  | r :: l =>
      lb <= start (fr_addr r) /\ 0 < size (fr_addr r) /\
      start (fr_addr r) + size (fr_addr r) <= 2 ^ 64 /\
      0 <= fr_offset_in_region r /\
      fr_offset_in_region r + size (fr_addr r) <= 2 ^ 64 /\
      sorted_from (start (fr_addr r) + size (fr_addr r)) l
  end.

(** The number of references a view holds on an owner. *)
Fixpoint held (regs : regions) (l : list FlatRange) (o : Z) : Z :=
  match l with
  | [] => 0
  | r :: l => b2z (bool_decide (regs !! fr_mr r ≫= mr_owner = Some o)) + held regs l o
  end.

(** The owner's count less what the view holds. *)
Definition spare (regs : regions) (refs : refcounts) (l : list FlatRange) (o : Z) : Z :=
  default 0 (refs !! o) - held regs l o.

(** ** Filling the gaps, structurally *)
Fixpoint fill (l : list FlatRange) (fr : FlatRange) (off base remain : Z) : list FlatRange :=
  match l with
  | [] => if remain =? 0 then [] else [fr_at fr off (addrrange_make base remain)]
  | r :: l' =>
      let s := start (fr_addr r) in
      let e := s + size (fr_addr r) in
      if remain =? 0 then l
      else if e <=? base then r :: fill l' fr off base remain
      else
        let gap := if base <? s then remain `min` (s - base) else 0 in
        let now := (base + remain) `min` e - (base + gap) in
        let rest := fill l' fr (u64 (off + gap + now)) (base + gap + now) (remain - gap - now) in
        if base <? s then fr_at fr off (addrrange_make base gap) :: r :: rest else r :: rest
  end.

Lemma sorted_from_weaken lb lb' l : lb' <= lb -> sorted_from lb l -> sorted_from lb' l.
Proof. destruct l; simpl; [done|]. intuition lia. Qed.

Lemma sorted_from_contains lb l r a :
  0 <= lb -> sorted_from lb (r :: l) ->
  addrrange_contains (fr_addr r) a =
    (start (fr_addr r) <=? a) && (a <? start (fr_addr r) + size (fr_addr r)).
Proof.
  intros ? (?&?&?&_). unfold addrrange_contains, addrrange_end.
  rewrite i128_add_small by lia. done.
Qed.

Lemma view_at_below lb l a : 0 <= lb -> sorted_from lb l -> a < lb -> view_at l a = None.
Proof.
  revert lb. induction l as [|r l IH]; intros lb Hlb Hs Ha; [done|].
  unfold view_at; cbn [first_some]. rewrite (sorted_from_contains lb l) by done.
  destruct Hs as (?&?&?&?&?&Hs).
  replace (start (fr_addr r) <=? a) with false by lia. cbn [andb].
  apply (IH (start (fr_addr r) + size (fr_addr r))); auto; lia.
Qed.

Section Fill.
Context (fr : FlatRange).

Lemma fill_sorted l : forall lb off base remain,
  0 <= lb -> sorted_from lb l -> 0 <= remain -> base + remain <= 2 ^ 64 ->
  (remain = 0 \/ lb <= base /\ 0 <= off < 2 ^ 64) -> off + remain <= 2 ^ 64 ->
  sorted_from lb (fill l fr off base remain).
Proof.
  induction l as [|r l IH]; intros lb off base remain Hlb Hs Hr Hb Hl Ho; cbn [fill].
  - destruct (Z.eqb_spec remain 0); [done|]. cbn. lia.
  - cbn [sorted_from] in Hs. destruct Hs as (?&?&?&?&?&Hs).
    set (s := start (fr_addr r)) in *. set (e := s + size (fr_addr r)) in *.
    destruct (Z.eqb_spec remain 0); [cbn; fold s e; tauto|].
    destruct (Z.leb_spec e base).
    + cbn [sorted_from]; fold s e. repeat (split; [lia|]). apply IH; auto; lia.
    + assert (Hrest : forall gap now, 0 <= gap -> 0 <= now -> gap + now <= remain ->
        (gap + now = remain \/ base + gap + now = e) ->
        sorted_from e (fill l fr (u64 (off + gap + now)) (base + gap + now) (remain - gap - now))).
      { intros gap now ? ? ? Hor.
        destruct (decide (gap + now = remain)) as [Heq|].
        - apply IH; try done; try lia.
          pose proof (wrap_range 64 (off + gap + now)). lia.
        - rewrite wrap_small by lia. apply IH; auto; lia. }
      destruct (Z.ltb_spec base s).
      * cbn [sorted_from fr_at fr_addr fr_offset_in_region addrrange_make start size]; fold s e.
        repeat (split; [lia|]). apply Hrest; lia.
      * cbn [sorted_from]; fold s e. repeat (split; [lia|]). apply Hrest; lia.
Qed.

(** The view after filling: what the view answered before, else the new
    region over the filled interval. *)
Definition new_hit (off base a : Z) : Hit :=
  {| h_mr := fr_mr fr; h_offset := off + (a - base);
     h_dirty_log_mask := fr_dirty_log_mask fr;
     h_romd_mode := fr_romd_mode fr; h_readonly := fr_readonly fr |}.

Lemma view_at_cons r l a lb :
  0 <= lb -> sorted_from lb (r :: l) ->
  view_at (r :: l) a =
    if (start (fr_addr r) <=? a) && (a <? start (fr_addr r) + size (fr_addr r))
    then Some (fr_hit r a) else view_at l a.
Proof.
  intros Hlb Hs. unfold view_at at 1. cbn [first_some].
  rewrite (sorted_from_contains lb l) by done.
  destruct ((start (fr_addr r) <=? a) && _); done.
Qed.

Lemma fill_view_at l : forall lb off base remain a,
  0 <= lb -> sorted_from lb l -> 0 <= remain -> base + remain <= 2 ^ 64 ->
  (remain = 0 \/ lb <= base /\ 0 <= off < 2 ^ 64) -> off + remain <= 2 ^ 64 ->
  view_at (fill l fr off base remain) a =
    match view_at l a with
    | Some h => Some h
    | None => if (base <=? a) && (a <? base + remain) then Some (new_hit off base a) else None
    end.
Proof.
  induction l as [|r l IH]; intros lb off base remain a Hlb Hs Hr Hb Hl Ho.
  - cbn [fill]. destruct (Z.eqb_spec remain 0).
    + replace ((base <=? a) && (a <? base + remain)) with false by lia. done.
    + rewrite (view_at_cons _ _ _ lb); [|lia|cbn; lia].
      cbn [fr_at fr_addr addrrange_make start size]. done.
  - pose proof (fill_sorted (r :: l) lb off base remain) as Hsf.
    rewrite (view_at_cons r l a lb) by done. cbn [fill] in *.
    pose proof Hs as (?&?&?&?&?&Hs').
    set (s := start (fr_addr r)) in *. set (e := s + size (fr_addr r)) in *.
    destruct (Z.eqb_spec remain 0).
    { rewrite (view_at_cons r l a lb) by done. fold s e.
      replace ((base <=? a) && (a <? base + remain)) with false by lia.
      destruct ((s <=? a) && _); [done|]. destruct (view_at l a); done. }
    destruct (Z.leb_spec e base).
    + rewrite (view_at_cons _ _ _ lb) by auto. fold s e.
      destruct ((s <=? a) && (a <? e)) eqn:?; [done|].
      apply (IH e); auto; lia.
    + assert (Hrest : forall gap now, 0 <= gap -> 0 <= now -> gap + now <= remain ->
        (gap + now = remain \/ base + gap + now = e) ->
        view_at (fill l fr (u64 (off + gap + now)) (base + gap + now) (remain - gap - now)) a =
        match view_at l a with
        | Some h => Some h
        | None => if (base + gap + now <=? a) && (a <? base + remain)
                  then Some (new_hit off base a) else None
        end).
      { intros gap now ? ? ? Hor. pose proof (wrap_range 64 (off + gap + now)).
        assert (u64 (off + gap + now) + (remain - gap - now) <= 2 ^ 64).
        { destruct (decide (gap + now = remain)); [lia|]. rewrite wrap_small by lia. lia. }
        rewrite (IH e); try done; try lia.
        destruct (view_at l a); [done|].
        destruct (Z.eqb_spec (gap + now) remain).
        - replace ((base + gap + now <=? a) && _) with false by lia.
          replace ((base + gap + now <=? a) && _) with false by lia. done.
        - replace (base + gap + now + (remain - gap - now)) with (base + remain) by lia.
          destruct ((base + gap + now <=? a) && _); [|done].
          unfold new_hit. rewrite wrap_small by lia. do 2 f_equal. lia. }
      assert (Hbelow : a < e -> view_at l a = None)
        by (intros; apply (view_at_below e); auto; lia).
      destruct (Z.ltb_spec base s).
      * specialize (Hsf ltac:(done) ltac:(done) ltac:(lia) ltac:(lia) ltac:(lia) ltac:(lia)).
        rewrite (view_at_cons _ _ _ lb) by done.
        cbn [fr_at fr_addr addrrange_make start size].
        cbn [sorted_from] in Hsf. destruct Hsf as (?&?&?&?&?&Hsf).
        cbn [fr_at fr_addr addrrange_make start size] in Hsf.
        assert (0 <= base + remain `min` (s - base)) as Hge by lia.
        rewrite (view_at_cons r _ a _ Hge Hsf). fold s e.
        rewrite Hrest by lia.
        destruct ((s <=? a) && (a <? e)) eqn:Hin.
        { replace ((base <=? a) && _) with false by lia. done. }
        destruct (Z.lt_ge_cases a e).
        -- rewrite Hbelow by done.
           replace ((base + _ + _ <=? a) && _) with false by lia.
           destruct ((base <=? a) && (a <? base + remain)) eqn:?.
           ++ replace ((base <=? a) && (a <? base + _)) with true by lia. done.
           ++ replace ((base <=? a) && (a <? base + _)) with false by lia. done.
        -- replace ((base <=? a) && (a <? base + _ `min` _)) with false by lia.
           destruct (view_at l a); [done|].
           replace ((base + _ + _ <=? a)) with (base <=? a) by lia. done.
      * specialize (Hsf ltac:(done) ltac:(done) ltac:(lia) ltac:(lia) ltac:(lia) ltac:(lia)).
        rewrite (view_at_cons r _ a lb) by done. fold s e.
        rewrite Hrest by lia.
        destruct ((s <=? a) && (a <? e)) eqn:Hin; [done|].
        destruct (Z.lt_ge_cases a e).
        -- rewrite Hbelow by done.
           replace ((base + _ + _ <=? a) && _) with false by lia.
           replace ((base <=? a) && (a <? base + remain)) with false by lia. done.
        -- destruct (view_at l a); [done|].
           replace ((base + _ + _ <=? a)) with (base <=? a) by lia. done.
Qed.
End Fill.

(** ** The loop computes [fill] *)
Section Refs.
Context (regs : regions).

Lemma memory_region_ref_count mr refs o :
  default 0 (memory_region_ref regs mr refs !! o) =
  default 0 (refs !! o) + b2z (bool_decide (regs !! mr ≫= mr_owner = Some o)).
Proof.
  unfold memory_region_ref. destruct (regs !! mr ≫= mr_owner) as [o'|].
  - rewrite lookup_insert. case_decide; case_bool_decide; simplify_eq/=; lia.
  - case_bool_decide; [done|]. simpl. lia.
Qed.

Lemma memory_region_unref_count mr refs o :
  default 0 (memory_region_unref regs mr refs !! o) =
  default 0 (refs !! o) - b2z (bool_decide (regs !! mr ≫= mr_owner = Some o)).
Proof.
  unfold memory_region_unref. destruct (regs !! mr ≫= mr_owner) as [o'|].
  - rewrite lookup_insert. case_decide; case_bool_decide; simplify_eq/=; lia.
  - case_bool_decide; [done|]. simpl. lia.
Qed.

Lemma held_app l1 l2 o : held regs (l1 ++ l2) o = held regs l1 o + held regs l2 o.
Proof. induction l1; simpl; lia. Qed.

(** Destroying a view drops exactly the references it holds. *)
Lemma flatview_destroy_count view refs o :
  default 0 (flatview_destroy regs refs view !! o) = spare regs refs (fv_ranges view) o.
Proof.
  unfold flatview_destroy, spare. generalize (fv_ranges view) as l. intros l.
  revert refs. induction l as [|r l IH]; intros refs; simpl; [lia|].
  rewrite IH, memory_region_unref_count. lia.
Qed.

Definition view_ok (view : FlatView) : Prop := fv_nr view <= fv_nr_allocated view.

(** One insertion: the list, the capacity and the reference. *)
Lemma flatview_insert_spec refs view pre rest i fr refs' view' :
  fv_ranges view = pre ++ rest -> i = length pre -> view_ok view ->
  flatview_insert regs refs view i fr = (refs', view') ->
  fv_ranges view' = pre ++ fr :: rest /\ view_ok view' /\ fv_ref view' = fv_ref view /\
  (forall o, spare regs refs' (fv_ranges view') o = spare regs refs (fv_ranges view) o).
Proof.
  intros Hv -> Hok. unfold flatview_insert. intros [= <- <-]. cbn [fv_ranges fv_ref].
  unfold view_ok, fv_nr, spare in *. cbn [fv_ranges fv_nr_allocated].
  rewrite Hv in *. rewrite take_app_length, drop_app_length.
  rewrite !length_app in *. cbn [length].
  split_and!; [done| |done|].
  - destruct (Z.eqb_spec (Z.of_nat (length pre + length rest)) (fv_nr_allocated view)); lia.
  - intros o. rewrite memory_region_ref_count, !held_app. cbn [held]. lia.
Qed.

Definition same_spare refs (l : list FlatRange) refs' (l' : list FlatRange) : Prop :=
  forall o, spare regs refs' l' o = spare regs refs l o.

Lemma render_gaps_fill fr : forall rest fuel lb refs view pre i off base remain,
  fv_ranges view = pre ++ rest -> i = length pre -> (length rest < fuel)%nat ->
  view_ok view -> 0 <= lb -> sorted_from lb rest ->
  0 <= base -> 0 <= remain < 2 ^ 64 -> base + remain <= 2 ^ 64 ->
  exists refs' view',
    render_gaps fuel regs refs view i fr off base remain = Ok (refs', view') /\
    fv_ranges view' = pre ++ fill rest fr off base remain /\
    view_ok view' /\ fv_ref view' = fv_ref view /\
    same_spare refs (fv_ranges view) refs' (fv_ranges view').
Proof.
  induction rest as [|r rest IH];
    intros fuel lb refs view pre i off base remain Hv -> Hf Hok Hlb Hs Hb Hr Hbr;
    (destruct fuel as [|fuel]; [simpl in Hf; lia|]); cbn [render_gaps fill].
  - assert (fv_ranges view !! length pre = None) as ->
      by (rewrite Hv, app_nil_r; by apply lookup_ge_None_2).
    destruct (Z.eqb_spec remain 0).
    + by exists refs, view.
    + destruct (flatview_insert regs refs view (length pre) _) as [refs' view'] eqn:Hins.
      apply (flatview_insert_spec _ _ pre []) in Hins as (?&?&?&?); auto.
      exists refs', view'. done.
  - assert (fv_ranges view !! length pre = Some r) as ->
      by (rewrite Hv; by apply list_lookup_middle).
    destruct (Z.eqb_spec remain 0).
    { by exists refs, view. }
    pose proof Hs as (?&?&?&?&?&Hs').
    assert (He : addrrange_end (fr_addr r) = start (fr_addr r) + size (fr_addr r))
      by (apply i128_add_small; lia).
    rewrite He. set (s := start (fr_addr r)) in *. set (e := s + size (fr_addr r)) in *.
    destruct (Z.leb_spec e base).
    + destruct (IH fuel e refs view (pre ++ [r]) (S (length pre)) off base remain)
        as (refs' & view' & -> & Hv' & Hrest); auto.
      * by rewrite Hv, <- app_assoc.
      * rewrite length_app. simpl. lia.
      * simpl in Hf. lia.
      * lia.
      * exists refs', view'. split; [done|]. split; [by rewrite Hv', <- app_assoc|done].
    + destruct (Z.ltb_spec base s).
      * rewrite i128_sub_small by lia.
        destruct (flatview_insert regs refs view (length pre) _) as [refs1 view1] eqn:Hins.
        apply (flatview_insert_spec _ _ pre (r :: rest)) in Hins as (Hv1&Hok1&Href1&Hsp1); auto.
        set (gap := remain `min` (s - base)) in *.
        assert (i128_get64 gap = Ok gap) as -> by (apply i128_get64_Ok; lia).
        cbn [mbind outcome_bind].
        rewrite (i128_add_small base gap), (i128_sub_small remain gap) by lia.
        rewrite (i128_add_small (base + gap) (remain - gap)) by lia.
        rewrite (i128_sub_small _ (base + gap)) by lia.
        replace (base + gap + (remain - gap)) with (base + remain) by lia.
        set (now := (base + remain) `min` e - (base + gap)).
        assert (i128_get64 now = Ok now) as -> by (apply i128_get64_Ok; lia).
        cbn [mbind outcome_bind].
        rewrite i128_add_small, i128_sub_small by lia. rewrite wrap_add_l.
        destruct (IH fuel e refs1 view1
          (pre ++ [fr_at fr off (addrrange_make base gap); r]) (S (S (length pre)))
          (u64 (off + gap + now)) (base + gap + now) (remain - gap - now))
          as (refs' & view' & -> & Hv' & Hok' & Href' & Hsp'); auto; try lia.
        -- by rewrite Hv1, <- app_assoc.
        -- rewrite length_app. simpl. lia.
        -- simpl in Hf. lia.
        -- exists refs', view'. split_and!; auto; [by rewrite Hv', <- app_assoc|congruence|].
           intros o. by rewrite Hsp', Hsp1.
      * cbn [mbind outcome_bind].
        rewrite (i128_add_small base remain), (i128_sub_small _ base) by lia.
        rewrite !Z.add_0_r, Z.sub_0_r.
        set (now := (base + remain) `min` e - base).
        assert (i128_get64 now = Ok now) as -> by (apply i128_get64_Ok; lia).
        cbn [mbind outcome_bind].
        rewrite i128_add_small, i128_sub_small by lia.
        destruct (IH fuel e refs view (pre ++ [r]) (S (length pre))
          (u64 (off + now)) (base + now) (remain - now))
          as (refs' & view' & -> & Hv' & Hrest); auto; try lia.
        -- by rewrite Hv, <- app_assoc.
        -- rewrite length_app. simpl. lia.
        -- simpl in Hf. lia.
        -- exists refs', view'. split; [done|]. split; [by rewrite Hv', <- app_assoc|done].
Qed.
End Refs.

(** ** Rendering implements [resolve] *)

(** [c] is reached from [p] by a pointer the recursion follows. *)
Definition edge (regs : regions) (p c : Z) : Prop :=
  exists m, regs !! p = Some m /\ (c ∈ mr_subregions m \/ mr_alias m = Some c).

(** Well-formed region graphs: no dangling pointer, no cycle, 64-bit fields,
    no terminating region as large as the whole address space. *)
Record wf_regions (regs : regions) : Prop := {
  wf_closed p c : edge regs p c -> is_Some (regs !! c);
  wf_acyclic : exists rank : Z -> nat, forall p c, edge regs p c -> (rank c < rank p)%nat;
  wf_fields p m : regs !! p = Some m ->
    0 <= mr_size m <= 2 ^ 64 /\ 0 <= mr_addr m < 2 ^ 64 /\ 0 <= mr_alias_offset m < 2 ^ 64 /\
    (mr_terminates m = true -> mr_size m < 2 ^ 64);
  wf_count : Z.of_nat (base.size regs) < 2 ^ 58
}.

(** A rank can be chosen below the number of regions. *)
Lemma acyclic_bounded_rank regs :
  wf_regions regs ->
  exists rank : Z -> nat,
    (forall p c, edge regs p c -> (rank c < rank p)%nat) /\
    (forall p, (rank p <= base.size regs)%nat).
Proof.
  intros Hwf. destruct (wf_acyclic _ Hwf) as [rank Hrank].
  exists (fun p => base.size (filter (fun q => (rank q < rank p)%nat) (dom regs))).
  split.
  - intros p c He. apply subset_size, strict_spec_alt. specialize (Hrank p c He).
    split.
    + intros q. rewrite !elem_of_filter. intros [? ?]. split; [lia|done].
    + intros Heq.
      assert (c ∈ filter (fun q => (rank q < rank p)%nat) (dom regs)) as Hc.
      { apply elem_of_filter. split; [done|]. apply elem_of_dom. by eapply wf_closed. }
      rewrite <- Heq in Hc. apply elem_of_filter in Hc as [? _]. lia.
  - intros p. rewrite <- (size_dom regs). apply subseteq_size. intros q. rewrite elem_of_filter. tauto.
Qed.

Lemma first_some_app {A B} (f : A -> option B) l1 l2 :
  first_some f (l1 ++ l2) =
    match first_some f l1 with Some y => Some y | None => first_some f l2 end.
Proof. induction l1 as [|x l1 IH]; simpl; [done|]. destruct (f x); done. Qed.

Definition in_range (r : AddrRange) (a : Z) : bool :=
  (start r <=? a) && (a <? start r + size r).

(** A base from which [n] more levels of the tree stay within Int128. *)
Definition base_ok (n : nat) (base : Z) : Prop :=
  Z.of_nat n < 2 ^ 59 /\ - 2 ^ 125 + Z.of_nat n * 2 ^ 66 <= base <= 2 ^ 125 - Z.of_nat n * 2 ^ 66.

(** What rendering a region adds to a view. *)
Definition renders (regs : regions) refs (view : FlatView) refs' (view' : FlatView)
    (answer : Z -> option Hit) : Prop :=
  sorted_from 0 (fv_ranges view') /\ view_ok view' /\ fv_ref view' = fv_ref view /\
  same_spare regs refs (fv_ranges view) refs' (fv_ranges view') /\
  forall a, view_at (fv_ranges view') a =
    match view_at (fv_ranges view) a with Some h => Some h | None => answer a end.

Lemma renders_ext regs refs view refs' view' f g :
  (forall a, f a = g a) -> renders regs refs view refs' view' f ->
  renders regs refs view refs' view' g.
Proof.
  intros Hfg (?&?&?&?&H). repeat (split; [done|]). intros a. by rewrite H, Hfg.
Qed.

Lemma renders_none regs refs view f :
  sorted_from 0 (fv_ranges view) -> view_ok view -> (forall a, f a = None) ->
  renders regs refs view refs view f.
Proof.
  intros Hs Hok Hf. split_and!; try done. intros a.
  rewrite Hf. by destruct (view_at _ a).
Qed.

Lemma renders_trans regs refs view refs1 view1 refs2 view2 f g :
  renders regs refs view refs1 view1 f -> renders regs refs1 view1 refs2 view2 g ->
  renders regs refs view refs2 view2
    (fun a => match f a with Some h => Some h | None => g a end).
Proof.
  intros (Hs1&Hok1&Hr1&Hsp1&H1) (Hs2&Hok2&Hr2&Hsp2&H2). split_and!; try done.
  - congruence.
  - intros o. by rewrite Hsp2, Hsp1.
  - intros a. rewrite H2, H1. by destruct (view_at (fv_ranges view) a).
Qed.

(** The part that is the region's own: filling the gaps of its clip. *)
Lemma renders_gaps regs refs view fr off (clip : AddrRange) base :
  sorted_from 0 (fv_ranges view) -> view_ok view ->
  0 <= start clip -> 0 <= size clip < 2 ^ 64 -> start clip + size clip <= 2 ^ 64 ->
  off = start clip - base -> 0 <= off < 2 ^ 64 -> off + size clip <= 2 ^ 64 ->
  exists refs' view',
    render_gaps (S (length (fv_ranges view))) regs refs view 0 fr off (start clip) (size clip)
      = Ok (refs', view') /\
    renders regs refs view refs' view'
      (fun a => if in_range clip a then Some (new_hit fr 0 base a) else None).
Proof.
  intros Hs Hok Hst Hsz Hend Hoff Ho1 Ho2.
  destruct (render_gaps_fill regs fr (fv_ranges view) (S (length (fv_ranges view))) 0 refs view
              [] 0 off (start clip) (size clip)) as (refs' & view' & -> & Hv & Hok' & Href & Hsp);
    auto; try lia.
  exists refs', view'. split; [done|]. simpl in Hv. split_and!; auto.
  - rewrite Hv. apply fill_sorted; auto; lia.
  - intros a. rewrite Hv, (fill_view_at fr _ 0) by (auto; lia).
    destruct (view_at _ a); [done|]. unfold in_range.
    destruct ((start clip <=? a) && _); [|done]. unfold new_hit. do 2 f_equal. lia.
Qed.

Lemma render_memory_region_spec regs rank :
  wf_regions regs -> (forall p c, edge regs p c -> (rank c < rank p)%nat) ->
  forall fuel refs view mr base clip readonly,
    (rank mr < fuel)%nat -> is_Some (regs !! mr) -> base_ok fuel base ->
    0 <= start clip -> 0 <= size clip -> start clip + size clip <= 2 ^ 64 ->
    sorted_from 0 (fv_ranges view) -> view_ok view ->
    exists refs' view',
      render_memory_region fuel regs refs view mr base clip readonly = Ok (refs', view') /\
      renders regs refs view refs' view'
        (fun a => if in_range clip a then resolve fuel regs mr base readonly a else None).
Proof.
  intros Hwf Hrank. induction fuel as [|fuel IH]; intros refs view mr base clip readonly
    Hf [m Hm] Hbase Hc1 Hc2 Hc3 Hs Hok; [lia|].
  cbn [render_memory_region resolve]. rewrite Hm.
  destruct (mr_enabled m); cbn [negb andb].
  2: { exists refs, view. split; [done|]. apply renders_none; auto.
       intros a. by destruct (in_range clip a). }
  destruct (wf_fields _ Hwf mr m Hm) as (Hsz & Haddr & Haoff & Hterm).
  destruct Hbase as [Hn Hbase].
  rewrite (i128_add_small base (mr_addr m)) by lia.
  set (b := base + mr_addr m) in *. set (ro := readonly || mr_readonly m).
  set (tmp := addrrange_make b (mr_size m)).
  assert (Htmp : range_ok tmp) by (split; cbn; lia).
  assert (Hclip : range_ok clip) by (split; lia).
  assert (Htin : forall a, (b <=? a) && (a <? b + mr_size m) = in_range tmp a) by done.
  destruct (addrrange_intersects tmp clip) eqn:Hi; cbn [negb].
  2: { exists refs, view. split; [done|]. apply renders_none; auto.
       intros a. rewrite Htin. destruct (in_range clip a) eqn:?; [|done].
       destruct (in_range tmp a) eqn:?; [|done]. exfalso.
       apply not_true_iff_false in Hi. apply Hi.
       apply addrrange_intersects_spec; auto. unfold in_range in *. lia. }
  pose proof (addrrange_intersection_spec tmp clip Htmp Hclip Hi) as (Hok' & Hst & Hin).
  apply addrrange_intersects_spec in Hi; auto.
  set (clip' := addrrange_intersection tmp clip) in *.
  assert (Hin' : forall a, in_range clip' a = in_range clip a && in_range tmp a).
  { intros a. specialize (Hin a). unfold in_range. lia. }
  assert (0 <= start clip' /\ 0 <= size clip' /\ start clip' + size clip' <= 2 ^ 64
          /\ b <= start clip' /\ start clip' < b + 2 ^ 64
          /\ start clip' + size clip' <= b + mr_size m) as (?&?&?&?&?&?).
  { destruct Hok' as [? ?]. cbn [start size tmp addrrange_make] in *.
    pose proof (Hin (start clip' + size clip' - 1)). lia. }
  destruct (mr_alias m) as [alias|] eqn:Hal.
  - assert (edge regs mr alias) as He by (exists m; auto).
    destruct (wf_closed _ Hwf mr alias He) as [al Hl]. rewrite Hl.
    destruct (wf_fields _ Hwf alias al Hl) as (? & ? & ? & ?).
    rewrite (i128_sub_small b), (i128_sub_small (b - mr_addr al)) by lia.
    destruct (IH refs view alias (b - mr_addr al - mr_alias_offset m) clip' ro)
      as (refs' & view' & -> & Hren); auto.
    + specialize (Hrank mr alias He). lia.
    + split; lia.
    + exists refs', view'. split; [done|]. eapply renders_ext; [|done].
      intros a. cbv beta. rewrite Hin', Htin. by destruct (in_range clip a), (in_range tmp a).
  - destruct (ofold_inv
      (fun '(refs, view) sub => render_memory_region fuel regs refs view sub b clip' ro)
      (fun dn st => renders regs refs view st.1 st.2
         (fun a => if in_range clip' a
                   then first_some (fun sub => resolve fuel regs sub b ro a) dn else None))
      (mr_subregions m) (refs, view)) as ([refs1 view1] & Hfold & Hren1).
    { apply renders_none; auto. intros a. by destruct (in_range clip' a). }
    { intros dn x [refs0 view0] Hx Hren0. cbn [fst snd] in *.
      pose proof Hren0 as (Hs0 & Hok0 & _).
      assert (edge regs mr x) as He by (exists m; auto).
      destruct (IH refs0 view0 x b clip' ro) as (refs' & view' & -> & Hren); auto.
      - specialize (Hrank mr x He). lia.
      - by eapply wf_closed.
      - split; lia.
      - exists (refs', view'). split; [done|].
        eapply renders_ext; [|eapply renders_trans; [exact Hren0|exact Hren]].
        intros a. cbn. rewrite first_some_app. cbn [first_some].
        destruct (in_range clip' a); [|done].
        destruct (first_some _ dn); [done|]. by destruct (resolve _ _ _ _ _ _). }
    rewrite Hfold. cbn [mbind outcome_bind fst snd] in *.
    destruct (mr_terminates m) eqn:Ht; cbn [negb].
    + pose proof Hren1 as (Hs1 & Hok1 & _).
      rewrite i128_sub_small by lia.
      assert (i128_get64 (start clip' - b) = Ok (start clip' - b)) as ->
        by (apply i128_get64_Ok; lia).
      cbn [mbind outcome_bind].
      set (fr := {| fr_mr := mr |}).
      destruct (renders_gaps regs refs1 view1 fr (start clip' - b) clip' b)
        as (refs2 & view2 & -> & Hren2); auto; try lia.
      exists refs2, view2. split; [done|].
      eapply renders_ext; [|eapply renders_trans; [exact Hren1|exact Hren2]].
      intros a. cbn. rewrite Hin', Htin.
      destruct (in_range clip a), (in_range tmp a); cbn [andb]; try done;
        by destruct (first_some _ _).
    + exists refs1, view1. split; [done|]. eapply renders_ext; [|exact Hren1].
      intros a. cbn. rewrite Hin', Htin.
      destruct (in_range clip a), (in_range tmp a); cbn [andb]; try done;
        by destruct (first_some _ _).
Qed.
