(* ===== verification/Simplify.v ===== *)
(** * Simplify: the flat view of a topology is correct

    [flatview_simplify] keeps the answers of a view and leaves no two
    mergeable neighbours; with the rendering of FlatView.v this gives the
    theorems about [generate_memory_topology]. *)
From S2P Require Import Prelude Int128 MemRegion FlatView.

(** ** Simplification *)

(** Absorb the run of ranges that continues [prev] into [acc]. *)
Fixpoint absorb (acc prev : FlatRange) (l : list FlatRange) : FlatRange * list FlatRange :=
  match l with
  | [] => (acc, [])
  | r :: l' =>
      if can_merge prev r then absorb (fr_grow (size (fr_addr r)) acc) r l' else (acc, l)
  end.

Lemma simplify_inner_absorb : forall rest fuel pre acc mid,
  (length rest < fuel)%nat ->
  exists mid' rest', mid' ++ rest' = mid ++ rest /\
    (length rest' <= length rest)%nat /\
    absorb acc (default acc (list.last mid)) rest
      = (fst (absorb acc (default acc (list.last mid)) rest), rest') /\
    simplify_inner fuel (pre ++ acc :: mid ++ rest) (length pre) (length pre + 1 + length mid)
      = Ok (pre ++ fst (absorb acc (default acc (list.last mid)) rest) :: mid' ++ rest',
            (length pre + 1 + length mid')%nat).
Proof.
  induction rest as [|r rest IH]; intros fuel pre acc mid Hf;
    (destruct fuel as [|fuel]; [simpl in Hf; lia|]); cbn [simplify_inner absorb].
  - exists mid, []. split_and!; try done. rewrite app_nil_r.
    rewrite (lookup_ge_None_2 _ (length pre + 1 + length mid)%nat)
      by (rewrite length_app; simpl; lia).
    by destruct (_ !! _).
  - assert (Hprev : (pre ++ acc :: mid ++ r :: rest) !! (length pre + 1 + length mid - 1)%nat
              = Some (default acc (list.last mid))).
    { rewrite lookup_app_r by lia.
      replace (length pre + 1 + length mid - 1 - length pre)%nat with (length mid) by lia.
      destruct mid as [|x mid _] using rev_ind; [done|].
      rewrite last_snoc, length_app. simpl. rewrite Nat.add_comm. simpl.
      rewrite <- app_assoc. simpl. by rewrite list_lookup_middle. }
    assert (Hcur : (pre ++ acc :: mid ++ r :: rest) !! (length pre + 1 + length mid)%nat
              = Some r).
    { rewrite lookup_app_r by lia.
      replace (length pre + 1 + length mid - length pre)%nat with (S (length mid)) by lia.
      simpl. by rewrite list_lookup_middle. }
    rewrite Hprev, Hcur.
    destruct (can_merge (default acc (list.last mid)) r).
    + replace (alter (fr_grow (size (fr_addr r))) (length pre) (pre ++ acc :: mid ++ r :: rest))
        with (pre ++ fr_grow (size (fr_addr r)) acc :: mid ++ r :: rest)
        by (rewrite <- (Nat.add_0_r (length pre)) at 1; by rewrite alter_app_r).
      destruct (IH fuel pre (fr_grow (size (fr_addr r)) acc) (mid ++ [r]))
        as (mid' & rest' & Heq & Hlen & Habs & Hrun); [simpl in Hf; lia|].
      rewrite last_snoc in *. cbn [default from_option id] in *.
      exists mid', rest'. split_and!; auto.
      * by rewrite Heq, <- app_assoc.
      * simpl. lia.
      * rewrite <- Hrun. rewrite <- app_assoc, length_app. simpl.
        f_equal; lia.
    + exists mid, (r :: rest). done.
Qed.

(** [acc] ends where [prev] ends and has its attributes. *)
Definition continues (acc prev : FlatRange) : Prop :=
  start (fr_addr acc) + size (fr_addr acc) = start (fr_addr prev) + size (fr_addr prev) /\
  fr_offset_in_region acc + size (fr_addr acc)
    = fr_offset_in_region prev + size (fr_addr prev) /\
  fr_mr acc = fr_mr prev /\ fr_dirty_log_mask acc = fr_dirty_log_mask prev /\
  fr_romd_mode acc = fr_romd_mode prev /\ fr_readonly acc = fr_readonly prev.

(** A range inside the address space, with room for its offset. *)
Definition fr_ok (lb : Z) (r : FlatRange) : Prop := 0 <= lb /\ sorted_from lb [r].

Lemma can_merge_spec lb r1 r2 :
  fr_ok lb r1 ->
  can_merge r1 r2 = true <->
  start (fr_addr r1) + size (fr_addr r1) = start (fr_addr r2) /\ fr_mr r1 = fr_mr r2 /\
  fr_offset_in_region r1 + size (fr_addr r1) = fr_offset_in_region r2 /\
  fr_dirty_log_mask r1 = fr_dirty_log_mask r2 /\ fr_romd_mode r1 = fr_romd_mode r2 /\
  fr_readonly r1 = fr_readonly r2.
Proof.
  intros [Hlb (?&?&?&?&?&_)]. unfold can_merge, addrrange_end.
  rewrite !i128_add_small by lia.
  rewrite !andb_true_iff, !Z.eqb_eq, !eqb_true_iff. tauto.
Qed.

(** No two neighbours can be merged. *)
Fixpoint no_merge (l : list FlatRange) : Prop :=
  match l with
  | r1 :: ((r2 :: _) as l') => can_merge r1 r2 = false /\ no_merge l'
  | _ => True
  end.

Lemma absorb_spec : forall l lb lbp acc prev,
  fr_ok lb acc -> fr_ok lbp prev -> continues acc prev ->
  sorted_from (start (fr_addr acc) + size (fr_addr acc)) l ->
  let '(acc', rest) := absorb acc prev l in
  sorted_from lb (acc' :: rest) /\
  (forall a, view_at (acc' :: rest) a = view_at (acc :: l) a) /\
  match rest with [] => True | r :: _ => can_merge acc' r = false end.
Proof.
  induction l as [|r l IH]; intros lb lbp acc prev Hacc Hprev Hc Hs; cbn [absorb].
  - destruct Hacc. done.
  - destruct (can_merge prev r) eqn:Hm.
    + apply (can_merge_spec lbp) in Hm as (Hm1&Hm2&Hm3&Hm4&Hm5&Hm6); [|done].
      destruct Hc as (Hc1&Hc2&Hc3&Hc4&Hc5&Hc6).
      pose proof Hacc as [Hlb (Ha1&Ha2&Ha3&Ha4&Ha5&_)].
      cbn [sorted_from] in Hs. destruct Hs as (Hr1&Hr2&Hr3&Hr4&Hr5&Hs).
      set (acc1 := fr_grow (size (fr_addr r)) acc).
      assert (Hst1 : start (fr_addr acc1) = start (fr_addr acc)) by done.
      assert (Hsz1 : size (fr_addr acc1) = size (fr_addr acc) + size (fr_addr r)).
      { cbn. apply i128_add_small. lia. }
      assert (Hof1 : fr_offset_in_region acc1 = fr_offset_in_region acc) by done.
      assert (Hacc1 : fr_ok lb acc1).
      { split; [done|]. cbn [sorted_from]. rewrite Hst1, Hsz1, Hof1. lia. }
      assert (Hs1 : sorted_from (start (fr_addr acc1) + size (fr_addr acc1)) l).
      { rewrite Hst1, Hsz1. eapply sorted_from_weaken; [|exact Hs]. lia. }
      specialize (IH lb (start (fr_addr r)) acc1 r Hacc1).
      destruct (absorb acc1 r l) as [acc' rest].
      destruct IH as (IH1 & IH2 & IH3); auto.
      * split; [lia|]. cbn [sorted_from]. lia.
      * unfold continues. rewrite Hst1, Hsz1, Hof1. cbn. split_and!; congruence || lia.
      * split_and!; auto. intros a. rewrite IH2.
        rewrite (view_at_cons acc1 l a lb); [|done|].
        2: { destruct Hacc1 as [_ (?&?&?&?&?&_)]. cbn [sorted_from]. split_and!; auto. }
        rewrite (view_at_cons acc (r :: l) a lb); [|done|cbn [sorted_from]; split_and!; auto].
        rewrite (view_at_cons r l a (start (fr_addr acc) + size (fr_addr acc)));
          [|lia|cbn [sorted_from]; split_and!; auto].
        rewrite Hst1, Hsz1.
        destruct ((start (fr_addr acc) <=? a) && (a <? start (fr_addr acc) + size (fr_addr acc)))
          eqn:?.
        { replace ((start (fr_addr acc) <=? a) && _) with true by lia. done. }
        destruct ((start (fr_addr r) <=? a) && (a <? start (fr_addr r) + size (fr_addr r))) eqn:?.
        { replace ((start (fr_addr acc) <=? a) && _) with true by lia. unfold fr_hit. f_equal.
          cbn. f_equal; congruence || lia. }
        replace ((start (fr_addr acc) <=? a) && _) with false by lia. done.
    + split_and!; [|done|].
      * destruct Hacc as [? (?&?&?&?&?&_)]. cbn [sorted_from] in *. split_and!; tauto.
      * apply not_true_is_false. intros Ht. apply not_true_iff_false in Hm. apply Hm.
        apply (can_merge_spec lb) in Ht; [|done]. apply (can_merge_spec lbp); [done|].
        destruct Hc as (Hc1&Hc2&Hc3&Hc4&Hc5&Hc6).
        destruct Ht as (Ht1&Ht2&Ht3&Ht4&Ht5&Ht6). split_and!; congruence || lia.
Qed.

(** Ranges that begin alike are merged with the same predecessors. *)
Definition begins_like (r1 r2 : FlatRange) : Prop :=
  start (fr_addr r1) = start (fr_addr r2) /\ fr_offset_in_region r1 = fr_offset_in_region r2 /\
  fr_mr r1 = fr_mr r2 /\ fr_dirty_log_mask r1 = fr_dirty_log_mask r2 /\
  fr_romd_mode r1 = fr_romd_mode r2 /\ fr_readonly r1 = fr_readonly r2.

Lemma absorb_begins l : forall acc prev, begins_like (absorb acc prev l).1 acc.
Proof.
  induction l as [|r l IH]; intros acc prev; cbn [absorb]; [done|].
  destruct (can_merge prev r); [|done].
  destruct (IH (fr_grow (size (fr_addr r)) acc) r) as (?&?&?&?&?&?). split_and!; done.
Qed.

Lemma can_merge_begins p r1 r2 : begins_like r1 r2 -> can_merge p r1 = can_merge p r2.
Proof. intros (H1&H2&H3&H4&H5&H6). unfold can_merge. by rewrite H1, H2, H3, H4, H5, H6. Qed.

Definition heads_alike (l1 l2 : list FlatRange) : Prop :=
  match l1, l2 with
  | [], [] => True
  | r1 :: _, r2 :: _ => begins_like r1 r2
  | _, _ => False
  end.

Lemma simplify_outer_spec : forall fuel l lb pre,
  (length l < fuel)%nat -> 0 <= lb -> sorted_from lb l ->
  exists l', simplify_outer fuel (pre ++ l) (length pre) = Ok (pre ++ l') /\
    sorted_from lb l' /\ no_merge l' /\ heads_alike l' l /\ (length l' <= length l)%nat /\
    forall a, view_at l' a = view_at l a.
Proof.
  induction fuel as [|fuel IH]; intros l lb pre Hf Hlb Hs; [lia|]. cbn [simplify_outer].
  destruct l as [|r l].
  { rewrite app_nil_r. replace (length pre <? length pre)%nat with false
      by (symmetry; apply Nat.ltb_ge; lia).
    exists []. rewrite app_nil_r. done. }
  replace (length pre <? length (pre ++ r :: l))%nat with true
    by (symmetry; apply Nat.ltb_lt; rewrite length_app; simpl; lia).
  destruct (simplify_inner_absorb l (S (length (pre ++ r :: l))) pre r [])
    as (mid & rest & Heq & Hlen & Habs & Hrun).
  { rewrite length_app. simpl. lia. }
  simpl in Heq. cbn [app length list.last default from_option] in Habs, Hrun.
  replace (length pre + 1 + 0)%nat with (S (length pre)) in Hrun by lia.
  rewrite Hrun. cbn [mbind outcome_bind].
  assert (Hrok : fr_ok lb r) by (split; [done|]; cbn in *; tauto).
  pose proof (absorb_spec l lb lb r r Hrok Hrok ltac:(done)) as Hspec.
  pose proof (absorb_begins l r r) as Hbeg.
  rewrite Habs in Hspec, Hbeg. set (acc := (absorb r r l).1) in *.
  destruct Hspec as (Hs' & Hview & Hno); [cbn in Hs; tauto|]. cbn [fst] in Hbeg.
  assert (Htake : take (S (length pre)) (pre ++ acc :: mid ++ rest) ++
            drop (length pre + 1 + length mid) (pre ++ acc :: mid ++ rest) = (pre ++ [acc]) ++ rest).
  { f_equal.
    - rewrite (cons_middle acc pre), app_assoc. apply take_app_length'.
      rewrite length_app. simpl. lia.
    - change (pre ++ acc :: mid ++ rest) with (pre ++ (acc :: mid) ++ rest).
      rewrite app_assoc. apply drop_app_length'. rewrite length_app. simpl. lia. }
  rewrite Htake.
  replace (S (length pre)) with (length (pre ++ [acc])) by (rewrite length_app; simpl; lia).
  pose proof Hs' as (?&?&?&?&?&Hs'').
  destruct (IH rest (start (fr_addr acc) + size (fr_addr acc)) (pre ++ [acc]))
    as (l' & -> & Hsl & Hnl & Hhl & Hll & Hvl); [simpl in Hf; lia|lia|done|].
  exists (acc :: l'). rewrite <- app_assoc. split_and!; try done.
  - destruct l' as [|r' l']; [done|]. split; [|done].
    destruct rest as [|r1 rest]; [done|]. by rewrite (can_merge_begins _ _ r1).
  - simpl. lia.
  - intros a. rewrite <- Hview. rewrite (view_at_cons acc l' a lb), (view_at_cons acc rest a lb);
      auto; [by rewrite Hvl|]. cbn [sorted_from]. split_and!; auto.
Qed.

Lemma flatview_simplify_spec view :
  sorted_from 0 (fv_ranges view) -> view_ok view ->
  exists view', flatview_simplify view = Ok view' /\
    sorted_from 0 (fv_ranges view') /\ no_merge (fv_ranges view') /\ view_ok view' /\
    fv_ref view' = fv_ref view /\
    forall a, view_at (fv_ranges view') a = view_at (fv_ranges view) a.
Proof.
  intros Hs Hok. unfold flatview_simplify.
  destruct (simplify_outer_spec (S (length (fv_ranges view))) (fv_ranges view) 0 [])
    as (l' & Hrun & ? & ? & ? & ? & ?); [lia..|done|].
  cbn [app length] in Hrun. rewrite Hrun. cbn [mbind outcome_bind]. eexists. split; [done|].
  cbn [fv_ranges fv_ref]. split_and!; auto.
  unfold view_ok, fv_nr in *. cbn [fv_ranges fv_nr_allocated]. lia.
Qed.

(** ** Checking that a region graph is well formed *)
Definition region_fields_ok (m : MemoryRegion) : bool :=
  (0 <=? mr_size m) && (mr_size m <=? 2 ^ 64) && (0 <=? mr_addr m) && (mr_addr m <? 2 ^ 64) &&
  (0 <=? mr_alias_offset m) && (mr_alias_offset m <? 2 ^ 64) &&
  (negb (mr_terminates m) || (mr_size m <? 2 ^ 64)).

Definition region_children (m : MemoryRegion) : list Z :=
  mr_subregions m ++ match mr_alias m with Some c => [c] | None => [] end.

(** [rank] decreases along every edge of the listed store. *)
Definition wf_check (rank : Z -> nat) (l : list (Z * MemoryRegion)) : bool :=
  forallb (fun p => region_fields_ok p.2 &&
    forallb (fun c => existsb (fun q => q.1 =? c) l && (rank c <? rank p.1)%nat)
            (region_children p.2)) l && (Z.of_nat (length l) <? 2 ^ 58).

Lemma size_list_to_set_length (l : list Z) : (base.size (list_to_set l : gset Z) <= length l)%nat.
Proof.
  induction l as [|x l IH]; [done|]. cbn [list_to_set length].
  rewrite size_union_alt, size_singleton.
  assert (base.size ((list_to_set l : gset Z) ∖ {[x]}) <= base.size (list_to_set l : gset Z))%nat
    by (apply subseteq_size; set_solver). lia.
Qed.

Lemma wf_check_sound rank l : wf_check rank l = true -> wf_regions (list_to_map l).
Proof.
  unfold wf_check. rewrite andb_true_iff, forallb_forall. intros [Hall Hlen].
  assert (Hin : forall p m, (list_to_map l : regions) !! p = Some m ->
    region_fields_ok m = true /\ forall c, In c (region_children m) ->
      is_Some ((list_to_map l : regions) !! c) /\ (rank c < rank p)%nat).
  { intros p m Hp%elem_of_list_to_map_2%list_elem_of_In.
    specialize (Hall _ Hp). rewrite andb_true_iff, forallb_forall in Hall.
    destruct Hall as [Hf Hc]. split; [done|]. intros c Hcin. specialize (Hc c Hcin).
    apply andb_true_iff in Hc as [((q & v) & Hq & Heq)%existsb_exists Hr%Nat.ltb_lt].
    apply Z.eqb_eq in Heq. cbn in Heq. subst q. split; [|done].
    apply elem_of_dom. rewrite dom_list_to_map. apply elem_of_list_to_set, list_elem_of_fmap.
    exists (c, v). split; [done|]. by apply list_elem_of_In. }
  assert (Hedge : forall p c, edge (list_to_map l) p c ->
            exists m, (list_to_map l : regions) !! p = Some m /\ In c (region_children m)).
  { intros p c (m & Hp & Hc). exists m. split; [done|]. unfold region_children. apply in_app_iff.
    destruct Hc as [Hc| ->]; [left; by apply list_elem_of_In|right; by left]. }
  split.
  - intros p c (m & Hp & Hc)%Hedge. by apply (Hin p m Hp).
  - exists rank. intros p c (m & Hp & Hc)%Hedge. by apply (Hin p m Hp).
  - intros p m Hp. destruct (Hin p m Hp) as [Hf _]. unfold region_fields_ok in Hf.
    rewrite !andb_true_iff, orb_true_iff, negb_true_iff in Hf.
    split_and!; try lia. intros Ht. destruct Hf as [_ [Hf|Hf]]; [congruence|lia].
  - apply Z.ltb_lt in Hlen. eapply Z.le_lt_trans; [|exact Hlen]. apply inj_le.
    rewrite <- size_dom, dom_list_to_map_L, <- (length_fmap fst l). apply size_list_to_set_length.
Qed.

(** ** The flat view of a topology *)

(** An address of the 64-bit space, resolved from the root. *)
Definition resolve_root (regs : regions) (root : option Z) (a : Z) : option Hit :=
  match root with
  | Some mr => if in_range all_addresses a then resolve (render_fuel regs) regs mr 0 false a
               else None
  | None => None
  end.

(** The PC's view of its RAM: 640k at 0, a ROM that shadows part of it, the
    rest above a hole, and an MMIO window with a higher priority. *)
Definition blank_region : MemoryRegion := {|
  mr_endianness := DEVICE_NATIVE_ENDIAN; mr_owner := None; mr_parent := None; mr_size := 0;
  mr_addr := 0; mr_ram_addr := 0; mr_subpage := false; mr_terminates := false;
  mr_romd_mode := false; mr_ram := false; mr_readonly := false; mr_enabled := false;
  mr_rom_device := false; mr_flush_coalesced_mmio := false; mr_alias := None;
  mr_alias_offset := 0; mr_priority := 0; mr_may_overlap := false; mr_subregions := [];
  mr_coalesced := []; mr_dirty_log_mask := 0; mr_ioeventfds := [] |}.

Definition container (sz : Z) (subs : list Z) : MemoryRegion :=
  set_subregions subs (memory_region_init blank_region None sz).

Definition ram_region (owner sz addr : Z) : MemoryRegion :=
  set_addr addr (memory_region_init_ram blank_region (Some owner) sz 0).

Definition alias_region (sz addr target offset : Z) : MemoryRegion :=
  set_addr addr (memory_region_init_alias ∅ ∅ blank_region None target offset sz).1.

Definition pc_list : list (Z * MemoryRegion) :=
  [(1, container (2 ^ 64 - 1) [4; 2; 3]);
   (2, alias_region 0xa0000 0 5 0);
   (3, alias_region 0x100000 0x100000 5 0xa0000);
   (4, ram_region 70 0x1000 0x9f800);
   (5, ram_region 71 0x1a0000 0)].

Definition pc_regions : regions := list_to_map pc_list.

Definition pc_rank (p : Z) : nat := if p =? 1 then 2 else if p <? 4 then 1 else 0.

Lemma pc_regions_wf : wf_regions pc_regions.
Proof. apply (wf_check_sound pc_rank). vm_compute. reflexivity. Qed.

Section Topology.
Context (regs : regions) (refs : refcounts) (root : option Z).
Hypothesis Hwf : wf_regions regs.
Hypothesis Hroot : forall mr, root = Some mr -> is_Some (regs !! mr).

(** The rendered view, before and after simplification. *)
Lemma generate_unfold :
  exists refs' rendered view,
    generate_memory_topology regs refs root = Ok (refs', view) /\
    renders regs refs flatview_init refs' rendered (resolve_root regs root) /\
    flatview_simplify rendered = Ok view.
Proof.
  assert (exists refs' rendered,
    match root with
    | Some mr => render_memory_region (render_fuel regs) regs refs flatview_init mr 0
                   all_addresses false
    | None => Ok (refs, flatview_init)
    end = Ok (refs', rendered) /\
    renders regs refs flatview_init refs' rendered (resolve_root regs root))
    as (refs' & rendered & Hrend & Hren).
  { destruct root as [mr|].
    - destruct (acyclic_bounded_rank regs Hwf) as (rank & Hrank & Hbound).
      destruct (render_memory_region_spec regs rank Hwf Hrank (render_fuel regs) refs
                  flatview_init mr 0 all_addresses false) as (refs' & view & -> & Hren);
        try done; auto.
      + unfold render_fuel. specialize (Hbound mr). lia.
      + pose proof (wf_count _ Hwf). unfold base_ok, render_fuel. lia.
      + eauto.
    - exists refs, flatview_init. split; [done|]. by apply renders_none. }
  pose proof Hren as (Hs & Hok & _).
  destruct (flatview_simplify_spec rendered Hs Hok) as (view & Hsim & _).
  exists refs', rendered, view. split_and!; auto.
  unfold generate_memory_topology. rewrite Hrend. cbn [mbind outcome_bind]. by rewrite Hsim.
Qed.

(** C2 (refinement): for a well-formed region graph, building the topology
    terminates without tripping an assertion, and the resulting flat view
    answers every address as the priority-ordered walk of the region tree
    does (same region, same offset, same attributes). *)
Theorem generate_memory_topology_resolves :
  exists refs' view,
    generate_memory_topology regs refs root = Ok (refs', view) /\
    forall a, view_at (fv_ranges view) a = resolve_root regs root a.
Proof.
  destruct generate_unfold as (refs' & rendered & view & Hgen & (Hs & Hok & _ & _ & Hat) & Hsim).
  destruct (flatview_simplify_spec rendered Hs Hok) as (view' & Hsim' & _ & _ & _ & _ & Hat').
  rewrite Hsim in Hsim'. injection Hsim' as <-.
  exists refs', view. split; [done|]. intros a. by rewrite Hat', Hat.
Qed.

(** C5 (invariant): the flat view is sorted, its ranges are disjoint,
    non-empty and inside the 64-bit space, no two neighbours can be merged,
    and the array never exceeds its allocation. *)
Theorem generate_memory_topology_wf refs' view :
  generate_memory_topology regs refs root = Ok (refs', view) ->
  sorted_from 0 (fv_ranges view) /\ no_merge (fv_ranges view) /\
  fv_nr view <= fv_nr_allocated view /\ fv_ref view = 1.
Proof.
  intros Hg. destruct generate_unfold as (refs1 & rendered & view1 & Hgen & Hren & Hsim).
  rewrite Hg in Hgen. injection Hgen as <- <-.
  destruct Hren as (Hs & Hok & Href & _).
  destruct (flatview_simplify_spec rendered Hs Hok) as (view' & Hsim' & ? & ? & ? & ? & _).
  rewrite Hsim in Hsim'. injection Hsim' as <-. split_and!; auto. by transitivity (fv_ref rendered).
Qed.
End Topology.

Lemma pc_root_in : forall mr, Some 1 = Some mr -> is_Some (pc_regions !! mr).
Proof. intros mr [= <-]. vm_compute. by eexists. Qed.

Lemma generate_memory_topology_resolves_witness :
  exists refs' view,
    generate_memory_topology pc_regions ∅ (Some 1) = Ok (refs', view) /\
    view_at (fv_ranges view) 0x9f900 = resolve_root pc_regions (Some 1) 0x9f900.
Proof.
  destruct (generate_memory_topology_resolves pc_regions ∅ (Some 1) pc_regions_wf pc_root_in)
    as (refs' & view & Hg & Hat).
  exists refs', view. split; [exact Hg|apply Hat].
Defined.

Lemma generate_memory_topology_wf_witness :
  exists refs' view,
    generate_memory_topology pc_regions ∅ (Some 1) = Ok (refs', view) /\
    length (fv_ranges view) = 3%nat /\ no_merge (fv_ranges view).
Proof.
  eexists _, _. split; [vm_compute; reflexivity|]. split; [reflexivity|].
  refine (proj1 (proj2 (generate_memory_topology_wf pc_regions ∅ (Some 1) pc_regions_wf pc_root_in
            _ _ _))).
  vm_compute. reflexivity.
Defined.
