(* ===== verification/Topology.v ===== *)
(** * Topology: transactions, listeners and region operations of memory.c

    The state of memory.c is [MemState]: the regions and their owners'
    reference counts, the flat views (a heap of reference-counted views), the
    address spaces in queue order, the listeners in queue order and the
    transaction counters.  Calling a listener's callback appends the call to
    [ms_trace]; what the dispatch listener does with its calls is modelled in
    PhysMap.v. *)
From S2P Require Import Prelude Int128 MemRegion MemAccess FlatView.

(** ** Listeners *)
Record MemoryRegionSection := {
  s_mr : option Z;
  s_address_space : Z;
  s_offset_within_region : Z;
  s_size : Z;
  s_offset_within_address_space : Z;
  s_readonly : bool
}.

#[global] Instance section_eq_dec : EqDecision MemoryRegionSection.
Proof. solve_decision. Defined.

Inductive callback :=
| cb_begin | cb_commit | cb_region_add | cb_region_del | cb_region_nop
| cb_log_start | cb_log_stop | cb_log_sync | cb_log_global_start | cb_log_global_stop
| cb_eventfd_add | cb_eventfd_del | cb_coalesced_mmio_add | cb_coalesced_mmio_del.

(** The arguments of a callback. *)
Inductive event :=
| EvGlobal (cb : callback)
| EvSection (cb : callback) (section : MemoryRegionSection)
| EvEventfd (cb : callback) (section : MemoryRegionSection) (match_data : bool) (data e : Z)
| EvCoalesced (cb : callback) (section : MemoryRegionSection) (addr len : Z).

(** A null function pointer is a [false] of [ml_has]. *)
Record MemoryListener := {
  ml_id : Z;
  ml_has : callback -> bool;
  ml_priority : Z;
  ml_address_space_filter : option Z
}.

Inductive ListenerDirection := Forward | Reverse.

Definition memory_listener_match (l : MemoryListener) (section : MemoryRegionSection) : bool :=
  match ml_address_space_filter l with
  | None => true
  | Some as_ => as_ =? s_address_space section
  end.

Definition direct (d : ListenerDirection) (ls : list MemoryListener) : list MemoryListener :=
  match d with Forward => ls | Reverse => reverse ls end.

(** [MEMORY_LISTENER_CALL_GLOBAL] *)
Definition listener_call_global (ls : list MemoryListener) (cb : callback)
    (d : ListenerDirection) : list (Z * event) :=
  (fun l => (ml_id l, EvGlobal cb)) <$> filter (fun l => ml_has l cb = true) (direct d ls).

(** [MEMORY_LISTENER_CALL] *)
Definition listener_call (ls : list MemoryListener) (cb : callback) (d : ListenerDirection)
    (section : MemoryRegionSection) (ev : event) : list (Z * event) :=
  (fun l => (ml_id l, ev)) <$>
    filter (fun l => ml_has l cb && memory_listener_match l section = true) (direct d ls).

(** The section of a flat range. *)
Definition fr_section (as_ : Z) (fr : FlatRange) (start64 : Z) : MemoryRegionSection :=
  {| s_mr := Some (fr_mr fr);
     s_address_space := as_;
     s_offset_within_region := fr_offset_in_region fr;
     s_size := size (fr_addr fr);
     s_offset_within_address_space := start64;
     s_readonly := fr_readonly fr |}.

(** [MEMORY_LISTENER_UPDATE_REGION] *)
Definition listener_update_region (ls : list MemoryListener) (fr : FlatRange) (as_ : Z)
    (d : ListenerDirection) (cb : callback) : outcome (list (Z * event)) :=
  start64 ← i128_get64 (start (fr_addr fr));
  let section := fr_section as_ fr start64 in
  Ok (listener_call ls cb d section (EvSection cb section)).

(** ** The symmetric difference of two views *)
Fixpoint topology_loop (fuel : nat) (ls : list MemoryListener) (as_ : Z)
    (old_view new_view : list FlatRange) (adding : bool) (iold inew : nat)
    (calls : list (Z * event)) : outcome (list (Z * event)) :=
  match fuel with
  | O => NoFuel
  | S fuel =>
      let frold := old_view !! iold in
      let frnew := new_view !! inew in
      match frold, frnew with
      | None, None => Ok calls
      | _, _ =>
          let only_old :=
            match frold, frnew with
            | Some o, Some n =>
                (start (fr_addr o) <? start (fr_addr n))
                || ((start (fr_addr o) =? start (fr_addr n)) && negb (flatrange_equal o n))
            | Some _, None => true
            | None, _ => false
            end in
          let both :=
            match frold, frnew with
            | Some o, Some n => flatrange_equal o n
            | _, _ => false
            end in
          if only_old then
            (* In old but not in new, or in both but attributes changed. *)
            c ← match frold with
                | Some o => if negb adding then listener_update_region ls o as_ Reverse cb_region_del
                            else Ok []
                | None => Ok []
                end;
            topology_loop fuel ls as_ old_view new_view adding (S iold) inew (calls ++ c)
          else if both then
            (* In both and unchanged (except logging may have changed) *)
            c ← match frold, frnew with
                | Some o, Some n =>
                    if adding then
                      c1 ← listener_update_region ls n as_ Forward cb_region_nop;
                      c2 ← (if negb (fr_dirty_log_mask o =? 0) && (fr_dirty_log_mask n =? 0) then
                              listener_update_region ls n as_ Reverse cb_log_stop
                            else if negb (fr_dirty_log_mask n =? 0) && (fr_dirty_log_mask o =? 0) then
                              listener_update_region ls n as_ Forward cb_log_start
                            else Ok []);
                      Ok (c1 ++ c2)
                    else Ok []
                | _, _ => Ok []
                end;
            topology_loop fuel ls as_ old_view new_view adding (S iold) (S inew) (calls ++ c)
          else
            (* In new *)
            c ← match frnew with
                | Some n => if adding then listener_update_region ls n as_ Forward cb_region_add
                            else Ok []
                | None => Ok []
                end;
            topology_loop fuel ls as_ old_view new_view adding iold (S inew) (calls ++ c)
      end
  end.

Definition address_space_update_topology_pass (ls : list MemoryListener) (as_ : Z)
    (old_view new_view : FlatView) (adding : bool) : outcome (list (Z * event)) :=
  topology_loop (S (length (fv_ranges old_view) + length (fv_ranges new_view))) ls as_
    (fv_ranges old_view) (fv_ranges new_view) adding 0 0 [].

(** ** ioeventfds *)
Definition memory_region_ioeventfd_before (a b : MemoryRegionIoeventfd) : bool :=
  if start (fd_addr a) <? start (fd_addr b) then true
  else if start (fd_addr b) <? start (fd_addr a) then false
  else if size (fd_addr a) <? size (fd_addr b) then true
  else if size (fd_addr b) <? size (fd_addr a) then false
  else if b2z (fd_match_data a) <? b2z (fd_match_data b) then true
  else if b2z (fd_match_data b) <? b2z (fd_match_data a) then false
  else if fd_match_data a && (fd_data a <? fd_data b) then true
  else if fd_match_data a && (fd_data b <? fd_data a) then false
  else if fd_e a <? fd_e b then true
  else false.

Definition memory_region_ioeventfd_equal (a b : MemoryRegionIoeventfd) : bool :=
  negb (memory_region_ioeventfd_before a b) && negb (memory_region_ioeventfd_before b a).

(** The section of an ioeventfd: fields not given are zero. *)
Definition fd_section (as_ : Z) (fd : MemoryRegionIoeventfd) (start64 : Z)
    : MemoryRegionSection :=
  {| s_mr := None; s_address_space := as_; s_offset_within_region := 0;
     s_size := size (fd_addr fd); s_offset_within_address_space := start64;
     s_readonly := false |}.

Definition eventfd_call (ls : list MemoryListener) (as_ : Z) (cb : callback)
    (d : ListenerDirection) (fd : MemoryRegionIoeventfd) : outcome (list (Z * event)) :=
  start64 ← i128_get64 (start (fd_addr fd));
  let section := fd_section as_ fd start64 in
  Ok (listener_call ls cb d section
        (EvEventfd cb section (fd_match_data fd) (fd_data fd) (fd_e fd))).

Fixpoint ioeventfd_loop (fuel : nat) (ls : list MemoryListener) (as_ : Z)
    (fds_new fds_old : list MemoryRegionIoeventfd) (iold inew : nat)
    (calls : list (Z * event)) : outcome (list (Z * event)) :=
  match fuel with
  | O => NoFuel
  | S fuel =>
      match fds_old !! iold, fds_new !! inew with
      | None, None => Ok calls
      | o, n =>
          let only_old :=
            match o, n with
            | Some o, Some n => memory_region_ioeventfd_before o n
            | Some _, None => true
            | None, _ => false
            end in
          let only_new :=
            match o, n with
            | Some o, Some n => memory_region_ioeventfd_before n o
            | None, Some _ => true
            | _, None => false
            end in
          match o, n with
          | Some fd, _ =>
              if only_old then
                c ← eventfd_call ls as_ cb_eventfd_del Forward fd;
                ioeventfd_loop fuel ls as_ fds_new fds_old (S iold) inew (calls ++ c)
              else if only_new then
                c ← match n with
                    | Some fd => eventfd_call ls as_ cb_eventfd_add Reverse fd
                    | None => Ok []
                    end;
                ioeventfd_loop fuel ls as_ fds_new fds_old iold (S inew) (calls ++ c)
              else
                ioeventfd_loop fuel ls as_ fds_new fds_old (S iold) (S inew) calls
          | None, Some fd =>
              c ← eventfd_call ls as_ cb_eventfd_add Reverse fd;
              ioeventfd_loop fuel ls as_ fds_new fds_old iold (S inew) (calls ++ c)
          | None, None => Ok calls
          end
      end
  end.

Definition address_space_add_del_ioeventfds (ls : list MemoryListener) (as_ : Z)
    (fds_new fds_old : list MemoryRegionIoeventfd) : outcome (list (Z * event)) :=
  ioeventfd_loop (S (length fds_new + length fds_old)) ls as_ fds_new fds_old 0 0 [].

(** The ioeventfds a view shows: each region's descriptors, shifted to the
    absolute position of the range and kept when they intersect it. *)
Definition view_ioeventfds (regs : regions) (ranges : list FlatRange)
    : list MemoryRegionIoeventfd :=
  flat_map (fun fr =>
    let fds := match regs !! fr_mr fr with Some m => mr_ioeventfds m | None => [] end in
    omap (fun fd =>
      let tmp := addrrange_shift (fd_addr fd)
                   (i128_sub (start (fr_addr fr)) (fr_offset_in_region fr)) in
      if addrrange_intersects (fr_addr fr) tmp then
        Some {| fd_addr := tmp; fd_match_data := fd_match_data fd;
                fd_data := fd_data fd; fd_e := fd_e fd |}
      else None) fds) ranges.

(** ** The state of memory.c *)
Record AddressSpace := {
  as_root : option Z;
  as_current_map : Z;
  as_ioeventfds : list MemoryRegionIoeventfd
}.

Record MemState := {
  ms_regs : regions;
  ms_refs : refcounts;
  ms_views : gmap Z FlatView;
  ms_next_view : Z;
  ms_spaces : list (Z * AddressSpace);
  ms_listeners : list MemoryListener;
  ms_depth : Z;
  ms_pending : bool;
  ms_global_dirty_log : bool;
  ms_trace : list (Z * event)
}.

Definition put_regs (v : regions) (s : MemState) : MemState :=
  let '(Build_MemState _ x1 x2 x3 x4 x5 x6 x7 x8 x9) := s in Build_MemState v x1 x2 x3 x4 x5 x6 x7 x8 x9.
Definition put_refs (v : refcounts) (s : MemState) : MemState :=
  let '(Build_MemState x0 _ x2 x3 x4 x5 x6 x7 x8 x9) := s in Build_MemState x0 v x2 x3 x4 x5 x6 x7 x8 x9.
Definition put_views (v : gmap Z FlatView) (s : MemState) : MemState :=
  let '(Build_MemState x0 x1 _ x3 x4 x5 x6 x7 x8 x9) := s in Build_MemState x0 x1 v x3 x4 x5 x6 x7 x8 x9.
Definition put_next_view (v : Z) (s : MemState) : MemState :=
  let '(Build_MemState x0 x1 x2 _ x4 x5 x6 x7 x8 x9) := s in Build_MemState x0 x1 x2 v x4 x5 x6 x7 x8 x9.
Definition put_spaces (v : list (Z * AddressSpace)) (s : MemState) : MemState :=
  let '(Build_MemState x0 x1 x2 x3 _ x5 x6 x7 x8 x9) := s in Build_MemState x0 x1 x2 x3 v x5 x6 x7 x8 x9.
Definition put_listeners (v : list MemoryListener) (s : MemState) : MemState :=
  let '(Build_MemState x0 x1 x2 x3 x4 _ x6 x7 x8 x9) := s in Build_MemState x0 x1 x2 x3 x4 v x6 x7 x8 x9.
Definition put_depth (v : Z) (s : MemState) : MemState :=
  let '(Build_MemState x0 x1 x2 x3 x4 x5 _ x7 x8 x9) := s in Build_MemState x0 x1 x2 x3 x4 x5 v x7 x8 x9.
Definition put_pending (v : bool) (s : MemState) : MemState :=
  let '(Build_MemState x0 x1 x2 x3 x4 x5 x6 _ x8 x9) := s in Build_MemState x0 x1 x2 x3 x4 x5 x6 v x8 x9.
Definition put_global_dirty_log (v : bool) (s : MemState) : MemState :=
  let '(Build_MemState x0 x1 x2 x3 x4 x5 x6 x7 _ x9) := s in Build_MemState x0 x1 x2 x3 x4 x5 x6 x7 v x9.
Definition put_trace (v : list (Z * event)) (s : MemState) : MemState :=
  let '(Build_MemState x0 x1 x2 x3 x4 x5 x6 x7 x8 _) := s in Build_MemState x0 x1 x2 x3 x4 x5 x6 x7 x8 v.

(** Append listener calls to the trace. *)
Definition emit (c : list (Z * event)) (s : MemState) : MemState :=
  put_trace (ms_trace s ++ c) s.

(** A state transformer that may abort. *)
Abbreviation op := (MemState -> outcome MemState).

(** [mr->field = v] on the store. *)
Definition upd (mr : Z) (f : MemoryRegion -> MemoryRegion) (s : MemState) : MemState :=
  put_regs (alter f mr (ms_regs s)) s.

Definition get_mr (s : MemState) (mr : Z) : outcome MemoryRegion :=
  match ms_regs s !! mr with Some m => Ok m | None => Abort end.

(** ** Views *)
Definition view_set_ref (r : Z) (v : FlatView) : FlatView :=
  {| fv_ref := r; fv_ranges := fv_ranges v; fv_nr_allocated := fv_nr_allocated v |}.

Definition flatview_ref (vid : Z) (s : MemState) : MemState :=
  put_views (alter (fun v => view_set_ref (fv_ref v + 1) v) vid (ms_views s)) s.

(** [atomic_fetch_dec] returns the old count; the last reference destroys
    the view. *)
Definition flatview_unref (vid : Z) (s : MemState) : MemState :=
  match ms_views s !! vid with
  | None => s
  | Some v =>
      if fv_ref v =? 1 then
        put_refs (flatview_destroy (ms_regs s) (ms_refs s) v)
          (put_views (delete vid (ms_views s)) s)
      else put_views (<[vid := view_set_ref (fv_ref v - 1) v]> (ms_views s)) s
  end.

Definition get_view (s : MemState) (vid : Z) : outcome FlatView :=
  match ms_views s !! vid with Some v => Ok v | None => Abort end.

(** [address_space_get_flatview]: take a reference on the current map. *)
Definition address_space_get_flatview (asp : AddressSpace) (s : MemState) : Z * MemState :=
  (as_current_map asp, flatview_ref (as_current_map asp) s).

Definition find_as (s : MemState) (as_ : Z) : outcome AddressSpace :=
  match list_find (fun p => p.1 = as_) (ms_spaces s) with
  | Some (_, (_, a)) => Ok a
  | None => Abort
  end.

(** The fields of one address space, written in place. *)
Definition replace_as (as_ : Z) (a : AddressSpace) (l : list (Z * AddressSpace)) :=
  (fun p => if p.1 =? as_ then (as_, a) else p) <$> l.

Definition put_as (as_ : Z) (a : AddressSpace) (s : MemState) : MemState :=
  put_spaces (replace_as as_ a (ms_spaces s)) s.

Definition address_space_update_ioeventfds (as_ : Z) : op := fun s =>
  asp ← find_as s as_;
  let '(vid, s) := address_space_get_flatview asp s in
  view ← get_view s vid;
  let ioeventfds := view_ioeventfds (ms_regs s) (fv_ranges view) in
  c ← address_space_add_del_ioeventfds (ms_listeners s) as_ ioeventfds (as_ioeventfds asp);
  let s := emit c s in
  let s := put_as as_ {| as_root := as_root asp; as_current_map := as_current_map asp;
                         as_ioeventfds := ioeventfds |} s in
  Ok (flatview_unref vid s).

Definition address_space_update_topology (as_ : Z) : op := fun s =>
  asp ← find_as s as_;
  let '(old, s) := address_space_get_flatview asp s in
  '(refs, new_view) ← generate_memory_topology (ms_regs s) (ms_refs s) (as_root asp);
  let new := ms_next_view s in
  let s := put_next_view (new + 1) (put_views (<[new := new_view]> (ms_views s)) (put_refs refs s)) in
  old_view ← get_view s old;
  c1 ← address_space_update_topology_pass (ms_listeners s) as_ old_view new_view false;
  c2 ← address_space_update_topology_pass (ms_listeners s) as_ old_view new_view true;
  let s := emit (c1 ++ c2) s in
  let s := flatview_unref (as_current_map asp) s in
  let s := put_as as_ {| as_root := as_root asp; as_current_map := new;
                         as_ioeventfds := as_ioeventfds asp |} s in
  let s := flatview_unref old s in
  address_space_update_ioeventfds as_ s.

(** ** Transactions

    [qemu_flush_coalesced_mmio_buffer] belongs to the KVM accelerator and
    does not touch this state. *)
Definition memory_region_transaction_begin (s : MemState) : MemState :=
  put_depth (u32 (ms_depth s + 1)) s.

Definition memory_region_transaction_commit : op := fun s =>
  _ ← c_assert (negb (ms_depth s =? 0));
  let s := put_depth (ms_depth s - 1) s in
  if (ms_depth s =? 0) && ms_pending s then
    let s := put_pending false s in
    let s := emit (listener_call_global (ms_listeners s) cb_begin Forward) s in
    s ← ofold (fun s as_ => address_space_update_topology as_ s) s (fst <$> ms_spaces s);
    Ok (emit (listener_call_global (ms_listeners s) cb_commit Forward) s)
  else Ok s.

(** [memory_region_update_pending |= b] *)
Definition update_pending (b : bool) (s : MemState) : MemState :=
  put_pending (ms_pending s || b) s.

(** ** Region operations *)

(** The queue position of a subregion: before the first region whose
    priority is not higher. *)
Fixpoint insert_by_priority (regs : regions) (subregion prio : Z) (l : list Z) : list Z :=
  match l with
  | [] => [subregion]
  | other :: l' =>
      if match regs !! other with Some o => mr_priority o | None => 0 end <=? prio
      then subregion :: l
      else other :: insert_by_priority regs subregion prio l'
  end.

(** The loop that only looks for collisions has no effect (its body is
    compiled out) and is not repeated here. *)
Definition memory_region_add_subregion_common (mr offset subregion : Z) : op := fun s =>
  let s := memory_region_transaction_begin s in
  sub ← get_mr s subregion;
  _ ← c_assert (bool_decide (mr_parent sub = None));
  let s := put_refs (memory_region_ref (ms_regs s) subregion (ms_refs s)) s in
  let s := upd subregion (fun m => set_addr offset (set_parent (Some mr) m)) s in
  m ← get_mr s mr;
  let s := upd mr (fun m =>
    set_subregions (insert_by_priority (ms_regs s) subregion (mr_priority sub) (mr_subregions m)) m) s in
  let s := update_pending (mr_enabled m && mr_enabled sub) s in
  memory_region_transaction_commit s.

Definition memory_region_add_subregion (mr offset subregion : Z) : op := fun s =>
  let s := upd subregion (fun m => set_priority 0 (set_may_overlap false m)) s in
  memory_region_add_subregion_common mr offset subregion s.

Definition memory_region_add_subregion_overlap (mr offset subregion priority : Z) : op := fun s =>
  let s := upd subregion (fun m => set_priority priority (set_may_overlap true m)) s in
  memory_region_add_subregion_common mr offset subregion s.

Definition memory_region_del_subregion (mr subregion : Z) : op := fun s =>
  let s := memory_region_transaction_begin s in
  sub ← get_mr s subregion;
  _ ← c_assert (bool_decide (mr_parent sub = Some mr));
  let s := upd subregion (set_parent None) s in
  m ← get_mr s mr;
  let s := upd mr (fun m => set_subregions (filter (fun x => x <> subregion) (mr_subregions m)) m) s in
  let s := put_refs (memory_region_unref (ms_regs s) subregion (ms_refs s)) s in
  let s := update_pending (mr_enabled m && mr_enabled sub) s in
  memory_region_transaction_commit s.

Definition memory_region_set_enabled (mr : Z) (enabled : bool) : op := fun s =>
  m ← get_mr s mr;
  if eqb enabled (mr_enabled m) then Ok s
  else
    let s := memory_region_transaction_begin s in
    let s := upd mr (set_enabled enabled) s in
    let s := put_pending true s in
    memory_region_transaction_commit s.

Definition memory_region_set_address (mr addr : Z) : op := fun s =>
  m ← get_mr s mr;
  match mr_parent m with
  | Some parent =>
      if addr =? mr_addr m then Ok (upd mr (set_addr addr) s)
      else
        let s := memory_region_transaction_begin s in
        let s := put_refs (memory_region_ref (ms_regs s) mr (ms_refs s)) s in
        s ← memory_region_del_subregion parent mr s;
        s ← (if mr_may_overlap m
             then memory_region_add_subregion_overlap parent addr mr (mr_priority m) s
             else memory_region_add_subregion parent addr mr s);
        let s := put_refs (memory_region_unref (ms_regs s) mr (ms_refs s)) s in
        memory_region_transaction_commit s
  | None => Ok (upd mr (set_addr addr) s)
  end.

Definition memory_region_set_alias_offset (mr offset : Z) : op := fun s =>
  m ← get_mr s mr;
  _ ← c_assert (bool_decide (is_Some (mr_alias m)));
  if offset =? mr_alias_offset m then Ok s
  else
    let s := memory_region_transaction_begin s in
    let s := upd mr (set_alias_offset offset) s in
    let s := update_pending (mr_enabled m) s in
    memory_region_transaction_commit s.

Definition memory_region_set_readonly (mr : Z) (readonly : bool) : op := fun s =>
  m ← get_mr s mr;
  if eqb (mr_readonly m) readonly then Ok s
  else
    let s := memory_region_transaction_begin s in
    let s := upd mr (set_readonly readonly) s in
    let s := update_pending (mr_enabled m) s in
    memory_region_transaction_commit s.

Definition memory_region_rom_device_set_romd (mr : Z) (romd_mode : bool) : op := fun s =>
  m ← get_mr s mr;
  if eqb (mr_romd_mode m) romd_mode then Ok s
  else
    let s := memory_region_transaction_begin s in
    let s := upd mr (set_romd_mode romd_mode) s in
    let s := update_pending (mr_enabled m) s in
    memory_region_transaction_commit s.

Definition memory_region_set_log (mr : Z) (log : bool) (client : Z) : op := fun s =>
  let mask := u8 (Z.shiftl 1 client) in
  let s := memory_region_transaction_begin s in
  m ← get_mr s mr;
  let s := upd mr (set_dirty_log_mask
             (Z.lor (Z.land (mr_dirty_log_mask m) (Z.lnot mask)) (b2z log * mask))) s in
  let s := update_pending (mr_enabled m) s in
  memory_region_transaction_commit s.

(** ** ioeventfds of a region *)
Definition make_fd (addr size : Z) (match_data : bool) (data e : Z) : MemoryRegionIoeventfd :=
  {| fd_addr := addrrange_make addr size; fd_match_data := match_data;
     fd_data := data; fd_e := e |}.

(** The index at which a search loop over the descriptors stops. *)
Fixpoint fd_index (p : MemoryRegionIoeventfd -> bool) (l : list MemoryRegionIoeventfd) : nat :=
  match l with
  | [] => 0
  | fd :: l => if p fd then 0 else S (fd_index p l)
  end.

Definition memory_region_add_eventfd (mr addr size : Z) (match_data : bool) (data e : Z) : op :=
  fun s =>
  m ← get_mr s mr;
  data ← adjust_endianness (mr_endianness m) data size;
  let mrfd := make_fd addr size match_data data e in
  let s := memory_region_transaction_begin s in
  let i := fd_index (fun fd => memory_region_ioeventfd_before mrfd fd) (mr_ioeventfds m) in
  let s := upd mr (set_ioeventfds
             (take i (mr_ioeventfds m) ++ mrfd :: drop i (mr_ioeventfds m))) s in
  let s := update_pending (mr_enabled m) s in
  memory_region_transaction_commit s.

Definition memory_region_del_eventfd (mr addr size : Z) (match_data : bool) (data e : Z) : op :=
  fun s =>
  m ← get_mr s mr;
  data ← adjust_endianness (mr_endianness m) data size;
  let mrfd := make_fd addr size match_data data e in
  let s := memory_region_transaction_begin s in
  let i := fd_index (fun fd => memory_region_ioeventfd_equal mrfd fd) (mr_ioeventfds m) in
  _ ← c_assert (negb (i =? length (mr_ioeventfds m))%nat);
  let s := upd mr (set_ioeventfds (take i (mr_ioeventfds m) ++ drop (S i) (mr_ioeventfds m))) s in
  let s := update_pending (mr_enabled m) s in
  memory_region_transaction_commit s.

(** ** Listener registration *)
Definition listener_add_address_space (l : MemoryListener) (p : Z * AddressSpace) : op := fun s =>
  let '(as_, asp) := p in
  if match ml_address_space_filter l with Some f => negb (f =? as_) | None => false end then Ok s
  else
    let s := if ms_global_dirty_log s && ml_has l cb_log_global_start
             then emit [(ml_id l, EvGlobal cb_log_global_start)] s else s in
    let '(vid, s) := address_space_get_flatview asp s in
    view ← get_view s vid;
    s ← ofold (fun s fr =>
           start64 ← i128_get64 (start (fr_addr fr));
           let section := fr_section as_ fr start64 in
           Ok (if ml_has l cb_region_add
               then emit [(ml_id l, EvSection cb_region_add section)] s else s))
         s (fv_ranges view);
    Ok (flatview_unref vid s).

(** Listeners are kept in increasing priority, a new one after its equals. *)
Fixpoint insert_listener (l : MemoryListener) (ls : list MemoryListener) : list MemoryListener :=
  match ls with
  | [] => [l]
  | other :: ls' =>
      if ml_priority l <? ml_priority other then l :: ls else other :: insert_listener l ls'
  end.

Definition memory_listener_register (l : MemoryListener) (filter_ : option Z) : op := fun s =>
  let l := {| ml_id := ml_id l; ml_has := ml_has l; ml_priority := ml_priority l;
              ml_address_space_filter := filter_ |} in
  let ls :=
    match list.last (ms_listeners s) with
    | None => ms_listeners s ++ [l]
    | Some lst =>
        if ml_priority lst <=? ml_priority l then ms_listeners s ++ [l]
        else insert_listener l (ms_listeners s)
    end in
  let s := put_listeners ls s in
  ofold (fun s p => listener_add_address_space l p s) s (ms_spaces s).

Definition memory_listener_unregister (id : Z) (s : MemState) : MemState :=
  put_listeners (filter (fun l => ml_id l <> id) (ms_listeners s)) s.

(** ** Address spaces

    [address_space_init_dispatch] registers the dispatch listener of the
    space: a parameter here, see PhysMap.v. *)
Definition address_space_init (init_dispatch : Z -> op) (as_ root : Z) : op := fun s =>
  let s := memory_region_transaction_begin s in
  let vid := ms_next_view s in
  let s := put_next_view (vid + 1) (put_views (<[vid := flatview_init]> (ms_views s)) s) in
  let s := put_spaces (ms_spaces s ++
             [(as_, {| as_root := Some root; as_current_map := vid; as_ioeventfds := [] |})]) s in
  s ← init_dispatch as_ s;
  m ← get_mr s root;
  let s := update_pending (mr_enabled m) s in
  memory_region_transaction_commit s.

Definition address_space_destroy (destroy_dispatch : Z -> op) (as_ : Z) : op := fun s =>
  let s := memory_region_transaction_begin s in
  asp ← find_as s as_;
  let s := put_as as_ {| as_root := None; as_current_map := as_current_map asp;
                         as_ioeventfds := as_ioeventfds asp |} s in
  s ← memory_region_transaction_commit s;
  asp ← find_as s as_;
  let s := put_spaces (filter (fun p => p.1 <> as_) (ms_spaces s)) s in
  s ← destroy_dispatch as_ s;
  Ok (flatview_unref (as_current_map asp) s).

(** ** Looking a range up *)
Definition cmp_flatrange_addr (addr : AddrRange) (fr : FlatRange) : Z :=
  if addrrange_end addr <=? start (fr_addr fr) then -1
  else if addrrange_end (fr_addr fr) <=? start addr then 1
  else 0.

(** The C library's [bsearch] over [ranges[l..u)]. *)
Fixpoint bsearch (fuel : nat) (addr : AddrRange) (ranges : list FlatRange) (l u : nat)
    : option nat :=
  match fuel with
  | O => None
  | S fuel =>
      if (l <? u)%nat then
        let idx := ((l + u) / 2)%nat in
        match ranges !! idx with
        | None => None
        | Some fr =>
            let c := cmp_flatrange_addr addr fr in
            if c <? 0 then bsearch fuel addr ranges l idx
            else if 0 <? c then bsearch fuel addr ranges (S idx) u
            else Some idx
        end
      else None
  end.

Definition flatview_lookup (view : FlatView) (addr : AddrRange) : option nat :=
  bsearch (S (length (fv_ranges view))) addr (fv_ranges view) 0 (length (fv_ranges view)).

(** [while (fr > view->ranges && addrrange_intersects(fr[-1].addr, range)) --fr;] *)
Fixpoint back_up (ranges : list FlatRange) (range : AddrRange) (i : nat) : nat :=
  match i with
  | O => O
  | S j =>
      match ranges !! j with
      | Some fr => if addrrange_intersects (fr_addr fr) range then back_up ranges range j else i
      | None => i
      end
  end.

(** Follow [parent] to the root, adding the offsets modulo 2^64. *)
Fixpoint find_root (fuel : nat) (regs : regions) (mr addr : Z) : outcome (Z * Z) :=
  match fuel with
  | O => NoFuel
  | S fuel =>
      match regs !! mr with
      | None => Abort
      | Some m =>
          let addr := u64 (addr + mr_addr m) in
          match mr_parent m with
          | Some p => find_root fuel regs p addr
          | None => Ok (mr, addr)
          end
      end
  end.

(** [memory_region_to_address_space] of a root region. *)
Definition root_address_space (s : MemState) (root : Z) : outcome (Z * AddressSpace) :=
  match list_find (fun p => as_root p.2 = Some root) (ms_spaces s) with
  | Some (_, p) => Ok p
  | None => Abort
  end.

(** What a lookup in a view returns: the section, [None] for a null [mr]. *)
Definition find_in_view (as_ : Z) (view : FlatView) (range : AddrRange)
    : outcome (option MemoryRegionSection) :=
  match flatview_lookup view range with
  | None => Ok None
  | Some i =>
      let i := back_up (fv_ranges view) range i in
      match fv_ranges view !! i with
      | None => Abort
      | Some fr =>
          let r := addrrange_intersection range (fr_addr fr) in
          delta ← i128_get64 (i128_sub (start r) (start (fr_addr fr)));
          start64 ← i128_get64 (start r);
          Ok (Some {| s_mr := Some (fr_mr fr); s_address_space := as_;
                      s_offset_within_region := u64 (fr_offset_in_region fr + delta);
                      s_size := size r; s_offset_within_address_space := start64;
                      s_readonly := fr_readonly fr |})
      end
  end.

Definition memory_region_find (mr addr sz : Z) (s : MemState)
    : outcome (option MemoryRegionSection * MemState) :=
  '(root, addr) ← find_root (S (base.size (ms_regs s))) (ms_regs s) mr addr;
  '(as_, asp) ← root_address_space s root;
  let range := addrrange_make addr sz in
  let '(vid, s) := address_space_get_flatview asp s in
  view ← get_view s vid;
  ret ← find_in_view as_ view range;
  let s := match ret ≫= s_mr with
           | Some m => put_refs (memory_region_ref (ms_regs s) m (ms_refs s)) s
           | None => s
           end in
  Ok (ret, flatview_unref vid s).
