(* ===== verification/TopologyFacts.v ===== *)
(** * TopologyFacts: theorems about topology updates, lookups and transactions *)
From S2P Require Import Prelude Int128 MemRegion MemAccess FlatView Simplify Topology.

(** ** What a listener sees of a topology update *)

#[global] Instance section_countable : Countable MemoryRegionSection.
Proof.
  apply (inj_countable'
    (fun s => (s_mr s, s_address_space s, s_offset_within_region s, s_size s,
               s_offset_within_address_space s, s_readonly s))
    (fun '(a, b, c, d, e, f) => Build_MemoryRegionSection a b c d e f)).
  by intros [].
Defined.

(** Moving an element between two disjoint sets. *)
Lemma disjoint_move {A} `{Countable A} (X Y : gset A) x :
  X ## {[x]} ∪ Y -> x ∉ Y -> X ∪ {[x]} ## Y.
Proof. set_solver. Qed.

Lemma union_remove {A} `{Countable A} (X Y : gset A) x :
  X ## {[x]} ∪ Y -> x ∉ Y -> (X ∪ ({[x]} ∪ Y)) ∖ {[x]} = X ∪ Y.
Proof. set_solver. Qed.

Lemma disjoint_shrink {A} `{Countable A} (X Y : gset A) x : X ## {[x]} ∪ Y -> X ## Y.
Proof. set_solver. Qed.

(** The calls made to one listener. *)
Definition calls_for (id : Z) (c : list (Z * event)) : list event :=
  omap (fun p => if p.1 =? id then Some p.2 else None) c.

Definition sections_apart (s t : MemoryRegionSection) : Prop :=
  s_offset_within_address_space s + s_size s <= s_offset_within_address_space t \/
  s_offset_within_address_space t + s_size t <= s_offset_within_address_space s.

#[global] Instance sections_apart_dec s t : Decision (sections_apart s t).
Proof. unfold sections_apart. apply _. Defined.

(** The contract of a listener that mirrors the address space: a section is
    added only where nothing is mapped, and only mapped sections are removed
    or left alone. *)
Definition track (st : gset MemoryRegionSection) (ev : event)
    : option (gset MemoryRegionSection) :=
  match ev with
  | EvSection cb_region_add s =>
      if bool_decide (set_Forall (sections_apart s) st) then Some ({[s]} ∪ st) else None
  | EvSection cb_region_del s => if bool_decide (s ∈ st) then Some (st ∖ {[s]}) else None
  | EvSection _ s => if bool_decide (s ∈ st) then Some st else None
  | _ => Some st
  end.

Fixpoint track_all (st : gset MemoryRegionSection) (l : list event)
    : option (gset MemoryRegionSection) :=
  match l with
  | [] => Some st
  | ev :: l => track st ev ≫= fun st' => track_all st' l
  end.

Definition sec (as_ : Z) (fr : FlatRange) : MemoryRegionSection :=
  fr_section as_ fr (start (fr_addr fr)).

Definition sections (as_ : Z) (l : list FlatRange) : gset MemoryRegionSection :=
  list_to_set (sec as_ <$> l).

Lemma sections_cons as_ r l : sections as_ (r :: l) = {[sec as_ r]} ∪ sections as_ l.
Proof. done. Qed.

Lemma elem_of_sections as_ l s : s ∈ sections as_ l <-> s ∈ sec as_ <$> l.
Proof. apply elem_of_list_to_set. Qed.

(** One step of the symmetric difference. *)
Inductive move := MDel (o : FlatRange) | MKeep (o n : FlatRange) | MAdd (n : FlatRange).

Fixpoint moves (fuel : nat) (old new : list FlatRange) : list move :=
  match fuel with
  | O => []
  | S fuel =>
      match old, new with
      | [], [] => []
      | o :: old', [] => MDel o :: moves fuel old' []
      | [], n :: new' => MAdd n :: moves fuel [] new'
      | o :: old', n :: new' =>
          if (start (fr_addr o) <? start (fr_addr n))
             || ((start (fr_addr o) =? start (fr_addr n)) && negb (flatrange_equal o n))
          then MDel o :: moves fuel old' new
          else if flatrange_equal o n then MKeep o n :: moves fuel old' new'
          else MAdd n :: moves fuel old new'
      end
  end.

Fixpoint olds (ms : list move) : list FlatRange :=
  match ms with
  | [] => []
  | (MDel o | MKeep o _) :: ms => o :: olds ms
  | MAdd _ :: ms => olds ms
  end.
Fixpoint news (ms : list move) : list FlatRange :=
  match ms with
  | [] => []
  | (MAdd n | MKeep _ n) :: ms => n :: news ms
  | MDel _ :: ms => news ms
  end.

Lemma moves_olds_news : forall fuel old new,
  (length old + length new < fuel)%nat ->
  olds (moves fuel old new) = old /\ news (moves fuel old new) = new.
Proof.
  induction fuel as [|fuel IH]; intros old new Hf; [lia|].
  destruct old as [|o old], new as [|n new]; cbn [moves]; [done|..].
  - destruct (IH [] new) as [H1 H2]; [simpl in *; lia|]. simpl. by rewrite H1, H2.
  - destruct (IH old []) as [H1 H2]; [simpl in *; lia|]. simpl. by rewrite H1, H2.
  - destruct (_ || _); [|destruct (flatrange_equal o n)]; cbn [olds news].
    + destruct (IH old (n :: new)) as [H1 H2]; [simpl in *; lia|]. by rewrite H1, H2.
    + destruct (IH old new) as [H1 H2]; [simpl in *; lia|]. by rewrite H1, H2.
    + destruct (IH (o :: old) new) as [H1 H2]; [simpl in *; lia|]. by rewrite H1, H2.
Qed.

Section Calls.
Context (ls : list MemoryListener) (as_ : Z).

(** The calls of one step. *)
Definition region_call (fr : FlatRange) (d : ListenerDirection) (cb : callback)
    : list (Z * event) :=
  listener_call ls cb d (sec as_ fr) (EvSection cb (sec as_ fr)).

Definition log_calls (o n : FlatRange) : list (Z * event) :=
  if negb (fr_dirty_log_mask o =? 0) && (fr_dirty_log_mask n =? 0) then
    region_call n Reverse cb_log_stop
  else if negb (fr_dirty_log_mask n =? 0) && (fr_dirty_log_mask o =? 0) then
    region_call n Forward cb_log_start
  else [].

Definition move_calls (adding : bool) (m : move) : list (Z * event) :=
  match m, adding with
  | MDel o, false => region_call o Reverse cb_region_del
  | MKeep o n, true => region_call n Forward cb_region_nop ++ log_calls o n
  | MAdd n, true => region_call n Forward cb_region_add
  | _, _ => []
  end.

Lemma listener_update_region_ok lb fr l d cb :
  0 <= lb -> sorted_from lb (fr :: l) ->
  listener_update_region ls fr as_ d cb = Ok (region_call fr d cb).
Proof.
  intros Hlb (?&?&?&_). unfold listener_update_region.
  replace (i128_get64 (start (fr_addr fr))) with (Ok (start (fr_addr fr)))
    by (symmetry; apply i128_get64_Ok; lia). done.
Qed.

Lemma topology_loop_moves old new adding : forall fuel lbo lbn iold inew calls,
  0 <= lbo -> 0 <= lbn ->
  sorted_from lbo (drop iold old) -> sorted_from lbn (drop inew new) ->
  (length (drop iold old) + length (drop inew new) < fuel)%nat ->
  topology_loop fuel ls as_ old new adding iold inew calls
    = Ok (calls ++ flat_map (move_calls adding) (moves fuel (drop iold old) (drop inew new))).
Proof.
  induction fuel as [|fuel IH]; intros lbo lbn iold inew calls Hlo Hln Hso Hsn Hf; [lia|].
  cbn [topology_loop moves].
  assert (Hd : forall (l : list FlatRange) i, match drop i l with
            | [] => l !! i = None
            | x :: l' => l !! i = Some x /\ drop (S i) l = l' end).
  { intros l i. destruct (l !! i) as [x|] eqn:E.
    - by rewrite (drop_S l x i E).
    - rewrite drop_ge; [done|]. by apply lookup_ge_None. }
  pose proof (Hd old iold) as Ho. pose proof (Hd new inew) as Hn. clear Hd.
  destruct (drop iold old) as [|o old'] eqn:Eo, (drop inew new) as [|n new'] eqn:En.
  - rewrite Ho, Hn. by rewrite app_nil_r.
  - destruct Hn as [Hn Hn']. rewrite Ho, Hn.
    rewrite (listener_update_region_ok lbn n new') by done.
    assert (Hs' := Hsn). destruct Hs' as (?&?&?&?&?&Hs').
    destruct adding; cbn [mbind outcome_bind].
    all: rewrite (IH lbo (start (fr_addr n) + size (fr_addr n)));
      rewrite ?Eo, ?Hn'; try done; try lia; [|simpl in *; lia].
    all: by rewrite <- app_assoc.
  - destruct Ho as [Ho Ho']. rewrite Ho, Hn.
    rewrite (listener_update_region_ok lbo o old') by done.
    assert (Hs' := Hso). destruct Hs' as (?&?&?&?&?&Hs').
    destruct adding; cbn [mbind outcome_bind negb].
    all: rewrite (IH (start (fr_addr o) + size (fr_addr o)) lbn);
      rewrite ?Ho', ?En; try done; try lia; [|simpl in *; lia].
    all: by rewrite <- app_assoc.
  - destruct Ho as [Ho Ho'], Hn as [Hn Hn']. rewrite Ho, Hn.
    rewrite !(listener_update_region_ok lbn n new') by done.
    rewrite (listener_update_region_ok lbo o old') by done.
    assert (Hs1 := Hso). destruct Hs1 as (?&?&?&?&?&Hs1).
    assert (Hs2 := Hsn). destruct Hs2 as (?&?&?&?&?&Hs2).
    destruct ((start (fr_addr o) <? start (fr_addr n)) || _).
    { destruct adding; cbn [mbind outcome_bind negb].
      all: rewrite (IH (start (fr_addr o) + size (fr_addr o)) lbn);
        rewrite ?Ho', ?En; try done; try lia; [|simpl in *; lia].
      all: by rewrite <- app_assoc. }
    destruct (flatrange_equal o n).
    { destruct adding; cbn [mbind outcome_bind].
      - match goal with
        | |- context [mbind _ (if ?A then Ok _ else if ?B then Ok _ else Ok _)] =>
            replace (if A then Ok (region_call n Reverse cb_log_stop)
                     else if B then Ok (region_call n Forward cb_log_start) else Ok [])
              with (Ok (log_calls o n)) by (unfold log_calls; by destruct A, B)
        end.
        cbn [mbind outcome_bind].
        rewrite (IH (start (fr_addr o) + size (fr_addr o)) (start (fr_addr n) + size (fr_addr n)));
          rewrite ?Ho', ?Hn'; try done; try lia; [|simpl in *; lia].
        by rewrite <- app_assoc.
      - rewrite (IH (start (fr_addr o) + size (fr_addr o)) (start (fr_addr n) + size (fr_addr n)));
          rewrite ?Ho', ?Hn'; try done; try lia; [|simpl in *; lia].
        by rewrite <- app_assoc. }
    destruct adding; cbn [mbind outcome_bind].
    all: rewrite (IH lbo (start (fr_addr n) + size (fr_addr n)));
      rewrite ?Eo, ?Hn'; try done; try lia; [|simpl in *; lia].
    all: by rewrite <- app_assoc.
Qed.
End Calls.

Lemma calls_for_app id c1 c2 : calls_for id (c1 ++ c2) = calls_for id c1 ++ calls_for id c2.
Proof. apply omap_app. Qed.

Lemma calls_for_nomatch (l : MemoryListener) ev (P : MemoryListener -> bool) (ms : list MemoryListener) :
  ml_id l ∉ ml_id <$> ms ->
  calls_for (ml_id l) ((fun l => (ml_id l, ev)) <$> filter (fun l => P l = true) ms) = [].
Proof.
  induction ms as [|x ms IH]; intros Hn; [done|].
  rewrite fmap_cons, not_elem_of_cons in Hn. destruct Hn as [Hx Hn].
  rewrite filter_cons. case_decide; [|by apply IH].
  cbn. replace (ml_id x =? ml_id l) with false by zbool. by apply IH.
Qed.

Lemma calls_for_one (l : MemoryListener) ev (P : MemoryListener -> bool) (ms : list MemoryListener) :
  NoDup (ml_id <$> ms) -> l ∈ ms ->
  calls_for (ml_id l) ((fun l => (ml_id l, ev)) <$> filter (fun l => P l = true) ms)
    = if P l then [ev] else [].
Proof.
  induction ms as [|x ms IH]; intros Hnd Hin; [by apply not_elem_of_nil in Hin|].
  rewrite fmap_cons in Hnd. apply NoDup_cons in Hnd as [Hx Hnd].
  rewrite filter_cons. apply elem_of_cons in Hin as [<-|Hin].
  - case_decide as HP.
    + rewrite HP. cbn. rewrite Z.eqb_refl. f_equal. by apply calls_for_nomatch.
    + destruct (P l); [done|]. by apply calls_for_nomatch.
  - assert (ml_id x <> ml_id l) as Hne.
    { intros E. apply Hx. rewrite E. by apply list_elem_of_fmap_2. }
    case_decide; [|by apply IH].
    cbn. replace (ml_id x =? ml_id l) with false by zbool. by apply IH.
Qed.

Section OneListener.
Context (ls : list MemoryListener) (as_ : Z) (l : MemoryListener).
Hypothesis Hids : NoDup (ml_id <$> ls).
Hypothesis Hl : l ∈ ls.
(** [l] mirrors the space: it has the region callbacks and its filter passes. *)
Hypothesis Hhas : forall cb, cb ∈ [cb_region_add; cb_region_del; cb_region_nop] -> ml_has l cb = true.
Hypothesis Hfilter : ml_address_space_filter l = None \/ ml_address_space_filter l = Some as_.

Lemma calls_for_region fr d cb :
  calls_for (ml_id l) (region_call ls as_ fr d cb)
    = if ml_has l cb then [EvSection cb (sec as_ fr)] else [].
Proof.
  unfold region_call, listener_call.
  rewrite (calls_for_one l _ (fun l => ml_has l cb && memory_listener_match l (sec as_ fr))).
  - replace (memory_listener_match l (sec as_ fr)) with true; [by rewrite andb_true_r|].
    unfold memory_listener_match. destruct Hfilter as [->| ->]; [done|]. cbn. by rewrite Z.eqb_refl.
  - destruct d; [done|]. cbn [direct]. rewrite fmap_reverse. by rewrite reverse_Permutation.
  - destruct d; [done|]. cbn [direct]. by apply elem_of_reverse.
Qed.

Lemma calls_for_moves adding ms :
  calls_for (ml_id l) (flat_map (move_calls ls as_ adding) ms)
    = flat_map (fun m => calls_for (ml_id l) (move_calls ls as_ adding m)) ms.
Proof.
  induction ms as [|m ms IH]; [done|]. cbn [flat_map].
  by rewrite calls_for_app, IH.
Qed.

Lemma track_all_app st l1 l2 :
  track_all st (l1 ++ l2) = track_all st l1 ≫= fun st' => track_all st' l2.
Proof.
  revert st. induction l1 as [|e l1 IH]; intros st; [done|]. cbn.
  destruct (track st e); [apply IH|done].
Qed.

(** What survives the deleting pass. *)
Fixpoint kept (ms : list move) : list FlatRange :=
  match ms with
  | [] => []
  | MKeep o _ :: ms => o :: kept ms
  | _ :: ms => kept ms
  end.

Lemma track_deletions ms : forall X,
  NoDup (sec as_ <$> olds ms) -> X ## sections as_ (olds ms) ->
  track_all (X ∪ sections as_ (olds ms))
    (calls_for (ml_id l) (flat_map (move_calls ls as_ false) ms))
  = Some (X ∪ sections as_ (kept ms)).
Proof.
  rewrite calls_for_moves.
  induction ms as [|m ms IH]; intros X Hnd Hdis; [done|].
  destruct m as [o|o n|n]; cbn [olds kept flat_map] in *; rewrite ?sections_cons in *.
  - cbn [move_calls]. rewrite calls_for_region, Hhas by set_solver.
    rewrite fmap_cons in Hnd. apply NoDup_cons in Hnd as [Ho Hnd]. rewrite <- elem_of_sections in Ho.
    cbn [app track_all track]. rewrite bool_decide_true by set_solver. cbn [mbind option_bind].
    rewrite union_remove by done. apply IH; [done|by eapply disjoint_shrink].
  - rewrite fmap_cons in Hnd. apply NoDup_cons in Hnd as [Ho Hnd]. rewrite <- elem_of_sections in Ho.
    cbn [move_calls calls_for omap list_omap app].
    rewrite !(assoc_L (∪)). apply IH; [done|by apply disjoint_move].
  - by apply IH.
Qed.

Lemma flatrange_equal_sec o n : flatrange_equal o n = true -> sec as_ o = sec as_ n.
Proof.
  unfold flatrange_equal, addrrange_equal. intros H.
  rewrite !andb_true_iff, !Z.eqb_eq, !eqb_true_iff in H.
  destruct H as ((((H1 & H2 & H3) & H4) & H5) & H6).
  unfold sec, fr_section. by rewrite H1, H2, H3, H4, H6.
Qed.

Definition keeps_equal (ms : list move) : Prop :=
  Forall (fun m => match m with MKeep o n => flatrange_equal o n = true | _ => True end) ms.

Lemma moves_keeps_equal : forall fuel old new, keeps_equal (moves fuel old new).
Proof.
  induction fuel as [|fuel IH]; intros [|o old] [|n new]; cbn [moves]; try apply Forall_nil_2.
  - by constructor; [|apply IH].
  - by constructor; [|apply IH].
  - destruct (_ || _); [by constructor; [|apply IH]|].
    destruct (flatrange_equal o n) eqn:?; by constructor; [|apply IH].
Qed.

Lemma track_additions ms : forall X lb,
  keeps_equal ms -> sorted_from lb (news ms) ->
  (forall s, s ∈ X -> s_offset_within_address_space s + s_size s <= lb) ->
  track_all (X ∪ sections as_ (kept ms))
    (calls_for (ml_id l) (flat_map (move_calls ls as_ true) ms))
  = Some (X ∪ sections as_ (news ms)).
Proof.
  rewrite calls_for_moves.
  induction ms as [|m ms IH]; intros X lb Hk Hs HX; [done|].
  apply Forall_cons in Hk as [Hm Hk].
  destruct m as [o|o n|n]; cbn [news kept flat_map] in *; rewrite ?sections_cons in *.
  - by apply (IH X lb).
  - rewrite (flatrange_equal_sec o n Hm). destruct Hs as (?&?&?&?&?&Hs).
    rewrite !(assoc_L (∪)).
    cbn [move_calls]. rewrite calls_for_app, calls_for_region, Hhas by set_solver.
    rewrite track_all_app.
    assert (Hlog : track_all (X ∪ {[sec as_ n]} ∪ sections as_ (kept ms))
              ([EvSection cb_region_nop (sec as_ n)] ++ calls_for (ml_id l) (log_calls ls as_ o n))
              = Some (X ∪ {[sec as_ n]} ∪ sections as_ (kept ms))).
    { cbn [app track_all track]. rewrite bool_decide_true by set_solver. cbn [mbind option_bind].
      unfold log_calls.
      destruct (negb (fr_dirty_log_mask o =? 0) && _);
        [|destruct (negb (fr_dirty_log_mask n =? 0) && _); [|done]];
        rewrite calls_for_region; destruct (ml_has l _); try done;
        cbn [track_all track]; by rewrite bool_decide_true by set_solver. }
    rewrite Hlog. cbn [mbind option_bind].
    apply (IH _ (start (fr_addr n) + size (fr_addr n))); auto.
    intros s. rewrite elem_of_union, elem_of_singleton. intros [Hin| ->]; [|done].
    specialize (HX s Hin). lia.
  - destruct Hs as (?&?&?&?&?&Hs).
    cbn [move_calls]. rewrite calls_for_region, Hhas by set_solver.
    cbn [app track_all track].
    assert (Hkn : forall s, s ∈ sections as_ (kept ms) ->
              start (fr_addr n) + size (fr_addr n) <= s_offset_within_address_space s).
    { clear IH HX. revert Hk Hs. generalize (start (fr_addr n) + size (fr_addr n)) as lo.
      induction ms as [|m ms IH]; intros lo Hk Hs s Hin; [set_solver|].
      apply Forall_cons in Hk as [Hm1 Hk].
      destruct m as [o|o n'|n']; cbn [kept news] in *.
      - by apply (IH lo).
      - destruct Hs as (?&?&?&?&?&Hs). rewrite sections_cons in Hin.
        apply elem_of_union in Hin as [Hin|Hin].
        + apply elem_of_singleton in Hin as ->. by rewrite (flatrange_equal_sec o n' Hm1).
        + specialize (IH _ Hk Hs s Hin). lia.
      - destruct Hs as (?&?&?&?&?&Hs). specialize (IH _ Hk Hs s Hin). lia. }
    rewrite bool_decide_true.
    2: { intros s [Hin|Hin]%elem_of_union.
         - right. specialize (HX s Hin). cbn. lia.
         - left. cbn. by apply Hkn. }
    cbn [mbind option_bind]. rewrite !(assoc_L (∪)), (comm_L (∪) {[_]} X).
    apply (IH _ (start (fr_addr n) + size (fr_addr n))); auto.
    intros s. rewrite elem_of_union, elem_of_singleton. intros [Hin| ->]; [|done].
    specialize (HX s Hin). lia.
Qed.

Lemma sorted_sections_nodup l' : forall lb, sorted_from lb l' -> NoDup (sec as_ <$> l').
Proof.
  enough (Hgen : forall l lb, sorted_from lb l ->
    NoDup (sec as_ <$> l) /\ forall s, s ∈ sec as_ <$> l -> lb <= s_offset_within_address_space s).
  { intros lb Hs. by apply (Hgen l' lb). }
  clear l'. induction l0 as [|r l0 IH]; intros lb Hs; [split; [constructor|set_solver]|].
  destruct Hs as (?&?&?&?&?&Hs). destruct (IH _ Hs) as [Hnd Hlo]. rewrite fmap_cons. split.
  - constructor; [|done]. intros Hin. specialize (Hlo _ Hin). cbn in Hlo. lia.
  - intros s [->|Hin]%elem_of_cons; [done|]. specialize (Hlo _ Hin). lia.
Qed.

(** C4 (refinement): the two passes of a topology update run to completion,
    and a listener that mirrors the old view ends up mirroring the new one;
    every section it is told to remove is mapped, and every section it is
    told to add lands on unmapped addresses. *)
Theorem update_topology_mirrors old_view new_view :
  sorted_from 0 (fv_ranges old_view) -> sorted_from 0 (fv_ranges new_view) ->
  exists dels adds,
    address_space_update_topology_pass ls as_ old_view new_view false = Ok dels /\
    address_space_update_topology_pass ls as_ old_view new_view true = Ok adds /\
    track_all (sections as_ (fv_ranges old_view)) (calls_for (ml_id l) (dels ++ adds))
      = Some (sections as_ (fv_ranges new_view)).
Proof.
  intros Ho Hn. unfold address_space_update_topology_pass.
  set (fuel := S (length (fv_ranges old_view) + length (fv_ranges new_view))).
  rewrite (topology_loop_moves ls as_ _ _ false fuel 0 0), (topology_loop_moves ls as_ _ _ true fuel 0 0);
    try done; try (unfold fuel; rewrite !drop_0; lia).
  rewrite !drop_0, !app_nil_l. do 2 eexists. split; [done|]. split; [done|].
  destruct (moves_olds_news fuel (fv_ranges old_view) (fv_ranges new_view)) as [Hol Hnw];
    [unfold fuel; lia|].
  set (ms := moves fuel _ _) in *.
  rewrite calls_for_app, track_all_app.
  pose proof (track_deletions ms ∅) as Hdel. rewrite !union_empty_l_L, Hol in Hdel.
  rewrite Hdel; [|by eapply sorted_sections_nodup|set_solver]. cbn [mbind option_bind].
  pose proof (track_additions ms ∅ 0) as Hadd. rewrite !union_empty_l_L, Hnw in Hadd.
  apply Hadd; [apply moves_keeps_equal|done|set_solver].
Qed.
End OneListener.

(** ** Looking up a range *)
Definition fr_start (r : FlatRange) : Z := start (fr_addr r).
Definition fr_end (r : FlatRange) : Z := start (fr_addr r) + size (fr_addr r).

Lemma sorted_lookup l : forall lb i r,
  0 <= lb -> sorted_from lb l -> l !! i = Some r ->
  lb <= fr_start r /\ fr_start r < fr_end r /\ fr_end r <= 2 ^ 64 /\ range_ok (fr_addr r).
Proof.
  induction l as [|r0 l IH]; intros lb i r Hlb Hs Hi; [done|].
  destruct Hs as (?&?&?&?&?&Hs). unfold fr_start, fr_end in *. destruct i as [|i].
  - injection Hi as ->. unfold range_ok. lia.
  - destruct (IH (start (fr_addr r0) + size (fr_addr r0)) i r) as (?&?&?&?); auto; [lia|].
    split_and!; auto; lia.
Qed.

Lemma sorted_lookup_lt l : forall lb i j ri rj,
  0 <= lb -> sorted_from lb l -> l !! i = Some ri -> l !! j = Some rj -> (i < j)%nat ->
  fr_end ri <= fr_start rj.
Proof.
  induction l as [|r0 l IH]; intros lb i j ri rj Hlb Hs Hi Hj Hij; [done|].
  destruct Hs as (?&?&?&?&?&Hs). destruct j as [|j]; [lia|]. destruct i as [|i].
  - injection Hi as <-.
    destruct (sorted_lookup l (start (fr_addr r0) + size (fr_addr r0)) j rj) as [? _]; auto; lia.
  - apply (IH (start (fr_addr r0) + size (fr_addr r0)) i j); auto; lia.
Qed.

Section Find.
Context (ranges : list FlatRange) (range : AddrRange).
Hypothesis Hs : sorted_from 0 ranges.
Hypothesis Hr : 0 <= start range < 2 ^ 64 /\ 0 < size range <= 2 ^ 64.

Definition overlaps (r : FlatRange) : Prop :=
  fr_start r < start range + size range /\ start range < fr_end r.

Lemma range_range_ok : range_ok range.
Proof. unfold range_ok. lia. Qed.

Lemma cmp_spec i r : ranges !! i = Some r ->
  cmp_flatrange_addr range r =
    if start range + size range <=? fr_start r then -1
    else if fr_end r <=? start range then 1 else 0.
Proof.
  intros Hi. destruct (sorted_lookup _ _ _ _ (Z.le_refl 0) Hs Hi) as (?&?&?&Hok).
  unfold cmp_flatrange_addr. by rewrite !addrrange_end_ok by (done || apply range_range_ok).
Qed.

Lemma intersects_overlaps i r : ranges !! i = Some r ->
  addrrange_intersects (fr_addr r) range = true <-> overlaps r.
Proof.
  intros Hi. destruct (sorted_lookup _ _ _ _ (Z.le_refl 0) Hs Hi) as (?&?&?&Hok).
  rewrite addrrange_intersects_spec by (done || apply range_range_ok).
  unfold overlaps, fr_start, fr_end in *. lia.
Qed.

Lemma bsearch_spec : forall fuel l u,
  (u - l < fuel)%nat -> (u <= length ranges)%nat ->
  (forall i r, ranges !! i = Some r -> (i < l)%nat -> fr_end r <= start range) ->
  (forall i r, ranges !! i = Some r -> (u <= i)%nat -> start range + size range <= fr_start r) ->
  match bsearch fuel range ranges l u with
  | Some i => exists r, ranges !! i = Some r /\ overlaps r
  | None => forall i r, ranges !! i = Some r -> ~ overlaps r
  end.
Proof.
  induction fuel as [|fuel IH]; intros l u Hf Hu Hlow Hhigh; [lia|]. cbn [bsearch].
  destruct (Nat.ltb_spec l u) as [Hlu|Hlu].
  2: { intros i r Hi [? ?]. destruct (Nat.lt_ge_cases i l) as [Hil|Hil].
       - specialize (Hlow i r Hi Hil). lia.
       - specialize (Hhigh i r Hi ltac:(lia)). lia. }
  set (idx := ((l + u) / 2)%nat).
  assert (l <= idx < u)%nat as Hidx.
  { unfold idx. pose proof (Nat.div_mod (l + u) 2). pose proof (Nat.mod_upper_bound (l + u) 2). lia. }
  clearbody idx.
  destruct (lookup_lt_is_Some_2 ranges idx ltac:(lia)) as [r Hi]. rewrite Hi, (cmp_spec idx r Hi).
  destruct (Z.leb_spec (start range + size range) (fr_start r)); cbn.
  - apply IH; [lia|lia|done|]. intros j rj Hj Hge.
    destruct (decide (j = idx)) as [->|]; [congruence|].
    pose proof (sorted_lookup_lt _ _ idx j r rj (Z.le_refl 0) Hs Hi Hj ltac:(lia)).
    pose proof (sorted_lookup _ _ _ _ (Z.le_refl 0) Hs Hi). lia.
  - destruct (Z.leb_spec (fr_end r) (start range)); cbn.
    + apply IH; [lia|lia| |done]. intros j rj Hj Hlt.
      destruct (decide (j = idx)) as [->|]; [congruence|].
      pose proof (sorted_lookup_lt _ _ j idx rj r (Z.le_refl 0) Hs Hj Hi ltac:(lia)).
      pose proof (sorted_lookup _ _ _ _ (Z.le_refl 0) Hs Hi). lia.
    + exists r. split; [done|]. unfold overlaps. lia.
Qed.

(** Backing up finds the lowest overlapping range. *)
Lemma back_up_spec : forall i r, ranges !! i = Some r -> overlaps r ->
  exists r', ranges !! back_up ranges range i = Some r' /\ overlaps r' /\
    forall j rj, ranges !! j = Some rj -> (j < back_up ranges range i)%nat -> ~ overlaps rj.
Proof.
  induction i as [|i IH]; intros r Hi Ho; cbn [back_up].
  - exists r. split_and!; auto. lia.
  - destruct (lookup_lt_is_Some_2 ranges i) as [p Hp];
      [apply lookup_lt_Some in Hi; lia|]. rewrite Hp.
    destruct (addrrange_intersects (fr_addr p) range) eqn:Hint.
    + apply (IH p); auto. by apply (intersects_overlaps i).
    + exists r. split_and!; auto. intros j rj Hj Hlt [Ho1 Ho2].
      assert (~ overlaps p) as Hnp.
      { intros Hop. apply (intersects_overlaps i) in Hop; congruence. }
      pose proof (sorted_lookup_lt _ _ i (S i) p r (Z.le_refl 0) Hs Hp Hi ltac:(lia)).
      pose proof (sorted_lookup _ _ _ _ (Z.le_refl 0) Hs Hp).
      unfold overlaps in Hnp, Ho. assert (fr_end p <= start range) by lia.
      destruct (decide (j = i)) as [->|]; [rewrite Hp in Hj; injection Hj as ->; lia|].
      pose proof (sorted_lookup_lt _ _ j i rj p (Z.le_refl 0) Hs Hj Hp ltac:(lia)). lia.
Qed.

(** A lookup returns the part of the request that falls in
    the lowest range it overlaps, translated into that region's offsets, and
    nothing exactly when the request overlaps no range. *)
Theorem find_in_view_spec as_ view :
  fv_ranges view = ranges ->
  (find_in_view as_ view range = Ok None /\ forall r, r ∈ ranges -> ~ overlaps r) \/
  exists i r, ranges !! i = Some r /\ overlaps r /\
    (forall j rj, ranges !! j = Some rj -> (j < i)%nat -> ~ overlaps rj) /\
    let lo := start range `max` fr_start r in
    find_in_view as_ view range = Ok (Some {|
      s_mr := Some (fr_mr r); s_address_space := as_;
      s_offset_within_region := u64 (fr_offset_in_region r + (lo - fr_start r));
      s_size := (start range + size range) `min` fr_end r - lo;
      s_offset_within_address_space := lo; s_readonly := fr_readonly r |}).
Proof.
  intros Hv. unfold find_in_view, flatview_lookup. rewrite Hv.
  pose proof (bsearch_spec (S (length ranges)) 0 (length ranges)) as Hb.
  destruct (bsearch _ _ _ _ _) as [i|].
  - destruct Hb as (r & Hi & Ho); try lia.
    { intros i' r' Hi'. apply lookup_lt_Some in Hi'. lia. }
    right. destruct (back_up_spec i r Hi Ho) as (r' & Hi' & Ho' & Hleast).
    exists (back_up ranges range i), r'. split_and!; auto. rewrite Hi'.
    destruct (sorted_lookup _ _ _ _ (Z.le_refl 0) Hs Hi') as (?&?&?&Hok).
    unfold addrrange_intersection. rewrite !addrrange_end_ok by (done || apply range_range_ok).
    unfold overlaps, fr_start, fr_end in *. cbn [addrrange_make start size].
    rewrite !i128_sub_small by lia.
    replace (i128_get64 (start range `max` start (fr_addr r') - start (fr_addr r')))
      with (Ok (start range `max` start (fr_addr r') - start (fr_addr r')))
      by (symmetry; apply i128_get64_Ok; lia).
    replace (i128_get64 (start range `max` start (fr_addr r')))
      with (Ok (start range `max` start (fr_addr r')))
      by (symmetry; apply i128_get64_Ok; lia).
    done.
  - left. split; [done|]. intros r [i Hi]%list_elem_of_lookup. eapply Hb; eauto; try lia.
    intros i' r' Hi'. apply lookup_lt_Some in Hi'. lia.
Qed.
End Find.

(** ** Concrete instances *)
Definition range_at (mr off a sz : Z) : FlatRange :=
  {| fr_mr := mr; fr_offset_in_region := off; fr_addr := addrrange_make a sz;
     fr_dirty_log_mask := 0; fr_romd_mode := true; fr_readonly := false |}.

Definition mirror : MemoryListener :=
  {| ml_id := 1; ml_has := fun _ => true; ml_priority := 0; ml_address_space_filter := Some 9 |}.

Definition low_ranges : list FlatRange :=
  [range_at 5 0 0 0x9f800; range_at 4 0 0x9f800 0x1000; range_at 5 0xa0000 0x100000 0x100000].

Definition view_of (l : list FlatRange) : FlatView :=
  {| fv_ref := 1; fv_ranges := l; fv_nr_allocated := 10 |}.

Lemma low_ranges_sorted : sorted_from 0 low_ranges.
Proof. cbn. lia. Qed.

Lemma update_topology_mirrors_witness :
  exists dels adds,
    address_space_update_topology_pass [mirror] 9 (view_of low_ranges)
      (view_of [range_at 5 0 0 0xa0000]) false = Ok dels /\
    address_space_update_topology_pass [mirror] 9 (view_of low_ranges)
      (view_of [range_at 5 0 0 0xa0000]) true = Ok adds /\
    track_all (sections 9 low_ranges) (calls_for 1 (dels ++ adds))
      = Some (sections 9 [range_at 5 0 0 0xa0000]).
Proof.
  apply (update_topology_mirrors [mirror] 9 mirror) with
    (old_view := view_of low_ranges) (new_view := view_of [range_at 5 0 0 0xa0000]).
  - apply NoDup_singleton.
  - left.
  - reflexivity.
  - by right.
  - apply low_ranges_sorted.
  - cbn. lia.
Defined.

Lemma find_in_view_spec_witness :
  find_in_view 9 (view_of low_ranges) (addrrange_make 0x9f7ff 0x2000) =
    Ok (Some {| s_mr := Some 5; s_address_space := 9; s_offset_within_region := 0x9f7ff;
                s_size := 1; s_offset_within_address_space := 0x9f7ff; s_readonly := false |}).
Proof.
  destruct (find_in_view_spec low_ranges (addrrange_make 0x9f7ff 0x2000) low_ranges_sorted
              ltac:(cbn; lia) 9 (view_of low_ranges) eq_refl)
    as [[H _]|(i & r & _ & _ & _ & H)].
  - vm_compute in H. discriminate H.
  - vm_compute. reflexivity.
Defined.
