(* ===== verification/Transaction.v ===== *)
(** * Transactions of memory.c

    What a commit does to the state of Topology.v: while a transaction is
    nested nothing is published; the outermost commit rebuilds the flat view
    of every address space, drops the old views and leaves exactly one
    reference on each view that is in use. *)
From S2P Require Import Prelude Int128 MemRegion MemAccess FlatView Simplify Topology TopologyFacts.
Local Open Scope Z_scope.

Local Arguments view_ioeventfds : simpl never.
Local Arguments address_space_add_del_ioeventfds : simpl never.
Local Arguments address_space_update_topology_pass : simpl never.
Local Arguments address_space_update_ioeventfds : simpl never.
Local Arguments generate_memory_topology : simpl never.
Local Arguments flatview_destroy : simpl never.
Local Arguments replace_as : simpl never.
Local Arguments listener_call_global : simpl never.

(** ** ioeventfd updates always return *)
Definition fd_ok (fd : MemoryRegionIoeventfd) : Prop := 0 <= start (fd_addr fd) < 2 ^ 64.

Lemma eventfd_call_Ok ls as_ cb d fd : fd_ok fd -> exists c, eventfd_call ls as_ cb d fd = Ok c.
Proof.
  intros Hf. unfold eventfd_call, fd_ok in *.
  rewrite (proj2 (i128_get64_Ok _ _)) by (split; [done|lia]). by eexists.
Qed.

Lemma ioeventfd_loop_Ok ls as_ fds_new fds_old :
  Forall fd_ok fds_new -> Forall fd_ok fds_old ->
  forall fuel iold inew calls,
  (length fds_new - inew + (length fds_old - iold) < fuel)%nat ->
  exists c, ioeventfd_loop fuel ls as_ fds_new fds_old iold inew calls = Ok c.
Proof.
  intros Hn Ho. induction fuel as [|fuel IH]; intros iold inew calls Hf; [lia|].
  cbn [ioeventfd_loop].
  destruct (fds_old !! iold) as [o|] eqn:Eo, (fds_new !! inew) as [n|] eqn:En.
  all: try pose proof (lookup_lt_Some _ _ _ Eo).
  all: try pose proof (lookup_lt_Some _ _ _ En).
  all: try pose proof (Forall_lookup_1 _ _ _ _ Ho Eo) as Hoo.
  all: try pose proof (Forall_lookup_1 _ _ _ _ Hn En) as Hnn.
  all: try destruct (eventfd_call_Ok ls as_ cb_eventfd_del Forward o Hoo) as [co Eco].
  all: try destruct (eventfd_call_Ok ls as_ cb_eventfd_add Reverse n Hnn) as [cn Ecn].
  all: rewrite ?Eco, ?Ecn; cbn [mbind outcome_bind]; repeat case_match; eauto; apply IH; lia.
Qed.

Lemma add_del_ioeventfds_Ok ls as_ fds_new fds_old :
  Forall fd_ok fds_new -> Forall fd_ok fds_old ->
  exists c, address_space_add_del_ioeventfds ls as_ fds_new fds_old = Ok c.
Proof. intros. apply ioeventfd_loop_Ok; auto. lia. Qed.

(** ** The invariant of the published state *)
Record published (s : MemState) : Prop := {
  pb_spaces : NoDup (ms_spaces s).*1;
  pb_maps as1 a1 as2 a2 : (as1, a1) ∈ ms_spaces s -> (as2, a2) ∈ ms_spaces s ->
    as_current_map a1 = as_current_map a2 -> as1 = as2;
  pb_views vid : is_Some (ms_views s !! vid) <->
    exists as_ asp, (as_, asp) ∈ ms_spaces s /\ vid = as_current_map asp;
  pb_view vid v : ms_views s !! vid = Some v ->
    fv_ref v = 1 /\ sorted_from 0 (fv_ranges v) /\ vid < ms_next_view s;
  pb_fds as_ asp : (as_, asp) ∈ ms_spaces s -> Forall fd_ok (as_ioeventfds asp)
}.

(** A space answers lookups as its region tree does. *)
Definition in_sync (s : MemState) (as_ : Z) : Prop :=
  exists asp v, (as_, asp) ∈ ms_spaces s /\ ms_views s !! as_current_map asp = Some v /\
    forall a, view_at (fv_ranges v) a = resolve_root (ms_regs s) (as_root asp) a.

(** What the updates of a commit never touch. *)
Definition same_config (s s' : MemState) : Prop :=
  ms_regs s' = ms_regs s /\ ms_listeners s' = ms_listeners s /\ ms_depth s' = ms_depth s /\
  ms_pending s' = ms_pending s /\
  (fun p => (p.1, as_root p.2)) <$> ms_spaces s' = (fun p => (p.1, as_root p.2)) <$> ms_spaces s.

(** ** Updating one address space *)
Lemma replace_as_replace as_ a b l : replace_as as_ a (replace_as as_ b l) = replace_as as_ a l.
Proof.
  unfold replace_as. rewrite <- list_fmap_compose. apply list_fmap_ext. intros i [x c] _.
  cbn. destruct (Z.eqb_spec x as_) as [->|Hne]; cbn; [by rewrite Z.eqb_refl|].
  by rewrite (proj2 (Z.eqb_neq _ _) Hne).
Qed.

Lemma replace_as_elem as_ a l as' a' :
  (as', a') ∈ replace_as as_ a l <->
  (as' = as_ /\ a' = a /\ as_ ∈ l.*1) \/ (as' <> as_ /\ (as', a') ∈ l).
Proof.
  unfold replace_as. rewrite list_elem_of_fmap. split.
  - intros ([x b] & Heq & Hin). cbn in Heq. destruct (Z.eqb_spec x as_) as [->|].
    + injection Heq as -> ->. left. split_and!; auto. apply list_elem_of_fmap. by exists (as_, b).
    + injection Heq as -> ->. by right.
  - intros [(-> & -> & ([x b] & -> & Hin)%list_elem_of_fmap)|(Hne & Hin)].
    + exists (x, b). cbn. by rewrite Z.eqb_refl.
    + exists (as', a'). cbn. by rewrite (proj2 (Z.eqb_neq _ _) Hne).
Qed.

Lemma replace_as_ids as_ a l : (replace_as as_ a l).*1 = l.*1.
Proof.
  unfold replace_as. rewrite <- list_fmap_compose. apply list_fmap_ext. intros i [x b] _.
  cbn. by destruct (Z.eqb_spec x as_) as [->|].
Qed.

Lemma replace_as_roots as_ a l :
  (forall b, (as_, b) ∈ l -> as_root b = as_root a) ->
  (fun p => (p.1, as_root p.2)) <$> replace_as as_ a l = (fun p => (p.1, as_root p.2)) <$> l.
Proof.
  intros Hr. unfold replace_as. rewrite <- list_fmap_compose. apply list_fmap_ext.
  intros i [x b] Hi%list_elem_of_lookup_2. cbn. destruct (Z.eqb_spec x as_) as [->|]; [|done].
  cbn. by rewrite (Hr b Hi).
Qed.

Lemma find_as_elem s as_ asp :
  NoDup (ms_spaces s).*1 -> (as_, asp) ∈ ms_spaces s -> find_as s as_ = Ok asp.
Proof.
  intros Hnd Hin. unfold find_as.
  destruct (list_find (fun p => p.1 = as_) (ms_spaces s)) as [[i [x b]]|] eqn:E.
  - apply list_find_Some in E as (Hi & Hx & _). cbn in Hx. subst x.
    apply list_elem_of_lookup in Hin as [j Hj].
    assert (i = j) as ->.
    { apply (NoDup_lookup (ms_spaces s).*1 i j as_ Hnd); rewrite list_lookup_fmap; [by rewrite Hi|by rewrite Hj]. }
    rewrite Hi in Hj. by injection Hj as ->.
  - apply list_find_None in E. rewrite Forall_forall in E. by destruct (E _ Hin).
Qed.

Lemma view_set_ref_same v : view_set_ref (fv_ref v) v = v.
Proof. by destruct v. Qed.

(** A reference taken and dropped again leaves the views as they were. *)
Lemma update_ioeventfds_result s as_ asp v :
  find_as s as_ = Ok asp -> ms_views s !! as_current_map asp = Some v -> 0 < fv_ref v ->
  Forall fd_ok (view_ioeventfds (ms_regs s) (fv_ranges v)) -> Forall fd_ok (as_ioeventfds asp) ->
  exists trace,
    address_space_update_ioeventfds as_ s = Ok
      (put_trace trace (put_spaces (replace_as as_
        {| as_root := as_root asp; as_current_map := as_current_map asp;
           as_ioeventfds := view_ioeventfds (ms_regs s) (fv_ranges v) |} (ms_spaces s)) s)).
Proof.
  intros Hf Hv Href Hn Ho. unfold address_space_update_ioeventfds. rewrite Hf.
  cbn [mbind outcome_bind address_space_get_flatview]. unfold flatview_ref, get_view.
  destruct s as [regs refs views next spaces ls depth pend gl tr]. cbn in Hv, Hn |- *.
  rewrite lookup_alter_eq, Hv. cbn.
  destruct (add_del_ioeventfds_Ok ls as_ _ _ Hn Ho) as [c ->].
  exists (tr ++ c). unfold flatview_unref, put_as, emit. cbn.
  rewrite lookup_alter_eq, Hv. cbn. replace (fv_ref v + 1 =? 1) with false by lia.
  do 2 f_equal.
  apply map_eq. intros k. destruct (decide (k = as_current_map asp)) as [->|Hne].
  - rewrite lookup_insert_eq, Hv. f_equal. unfold view_set_ref. cbn.
    replace (fv_ref v + 1 - 1) with (fv_ref v) by lia. by destruct v.
  - by rewrite lookup_insert_ne, lookup_alter_ne.
Qed.

Lemma topology_pass_Ok ls as_ old new adding :
  sorted_from 0 (fv_ranges old) -> sorted_from 0 (fv_ranges new) ->
  exists c, address_space_update_topology_pass ls as_ old new adding = Ok c.
Proof.
  intros Ho Hn. unfold address_space_update_topology_pass.
  rewrite (topology_loop_moves ls as_ _ _ adding _ 0 0); try done; try (rewrite !drop_0; lia).
  by eexists.
Qed.

Section Commit.
Context (regs : regions).
Hypothesis Hwf : wf_regions regs.
(** The descriptors a view of these regions shows start inside the space. *)
Hypothesis Hfds : forall refs root refs' view,
  generate_memory_topology regs refs root = Ok (refs', view) ->
  Forall fd_ok (view_ioeventfds regs (fv_ranges view)).

Lemma update_topology_result s as_ asp ov :
  ms_regs s = regs -> NoDup (ms_spaces s).*1 -> (as_, asp) ∈ ms_spaces s ->
  (forall mr, as_root asp = Some mr -> is_Some (regs !! mr)) ->
  ms_views s !! as_current_map asp = Some ov -> fv_ref ov = 1 -> sorted_from 0 (fv_ranges ov) ->
  ms_views s !! ms_next_view s = None -> Forall fd_ok (as_ioeventfds asp) ->
  exists nv refs' trace fds,
    (forall a, view_at (fv_ranges nv) a = resolve_root regs (as_root asp) a) /\
    fv_ref nv = 1 /\ sorted_from 0 (fv_ranges nv) /\ Forall fd_ok fds /\
    address_space_update_topology as_ s = Ok
      (Build_MemState regs refs' (<[ms_next_view s := nv]> (delete (as_current_map asp) (ms_views s)))
         (ms_next_view s + 1)
         (replace_as as_ {| as_root := as_root asp; as_current_map := ms_next_view s;
                            as_ioeventfds := fds |} (ms_spaces s))
         (ms_listeners s) (ms_depth s) (ms_pending s) (ms_global_dirty_log s) trace).
Proof.
  intros Hregs Hnd Hin Hroot Hov Href Hso Hfresh Hof. unfold address_space_update_topology.
  rewrite (find_as_elem s as_ asp) by done. cbn [mbind outcome_bind address_space_get_flatview].
  unfold flatview_ref. destruct s as [regs0 refs views next spaces ls depth pend gl tr].
  cbn in Hregs, Hov, Hfresh, Hin, Hnd |- *. subst regs0.
  destruct (generate_unfold regs refs (as_root asp) Hwf Hroot)
    as (refs' & rendered & nv & Hgen & (Hs & Hok & Hr1 & _ & Hat) & Hsim).
  destruct (flatview_simplify_spec rendered Hs Hok) as (nv' & Hsim' & Hsn & _ & _ & Hrefn & Hatn).
  rewrite Hsim in Hsim'. injection Hsim' as <-. specialize (Hfds _ _ _ _ Hgen).
  rewrite Hgen. cbn [mbind outcome_bind].
  assert (as_current_map asp <> next) as Hne by congruence.
  assert (fv_ref nv = 1) as Hnr by (rewrite Hrefn; exact Hr1).
  unfold get_view. cbn. rewrite lookup_insert_ne, lookup_alter_eq, Hov by done. cbn.
  destruct (topology_pass_Ok ls as_ (view_set_ref (fv_ref ov + 1) ov) nv false Hso Hsn) as [c1 ->].
  destruct (topology_pass_Ok ls as_ (view_set_ref (fv_ref ov + 1) ov) nv true Hso Hsn) as [c2 ->].
  unfold flatview_unref, emit. cbn.
  rewrite lookup_insert_ne, lookup_alter_eq, Hov by done. cbn.
  replace (fv_ref ov + 1 =? 1) with false by lia. unfold put_as. cbn. rewrite lookup_insert_eq. cbn.
  replace (fv_ref ov + 1 - 1 =? 1) with true by lia. cbn.
  set (s1 := Build_MemState _ _ _ _ _ _ _ _ _ _).
  destruct (update_ioeventfds_result s1 as_ {| as_root := as_root asp; as_current_map := next;
              as_ioeventfds := as_ioeventfds asp |} nv) as [trace Heq].
  - apply find_as_elem; cbn; [by rewrite replace_as_ids|].
    apply replace_as_elem. left. split_and!; auto. apply list_elem_of_fmap. by exists (as_, asp).
  - cbn. by rewrite lookup_delete_ne, lookup_insert_ne, lookup_insert_eq by done.
  - lia.
  - done.
  - done.
  - rewrite Heq. eexists nv, _, trace, _. split_and!.
    5: { cbn. do 2 f_equal; [|apply replace_as_replace].
         rewrite delete_insert_eq, delete_insert_ne by done. f_equal.
         by rewrite delete_alter_eq || (apply map_eq; intros k; rewrite !lookup_delete; case_decide;
           [done|by rewrite lookup_alter_ne]). }
    all: try done. intros a. by rewrite Hatn, Hat.
Qed.

Lemma spaces_unique (l : list (Z * AddressSpace)) as_ a b :
  NoDup l.*1 -> (as_, a) ∈ l -> (as_, b) ∈ l -> a = b.
Proof.
  intros Hnd [i Hi]%list_elem_of_lookup [j Hj]%list_elem_of_lookup.
  assert (i = j) as ->; [|congruence].
  by apply (NoDup_lookup l.*1 i j as_ Hnd); rewrite list_lookup_fmap; [rewrite Hi|rewrite Hj].
Qed.

(** Updating one space keeps the invariant, brings that space in sync and
    leaves the others as they were. *)
Lemma update_topology_step s as_ :
  ms_regs s = regs -> published s -> as_ ∈ (ms_spaces s).*1 ->
  (forall a asp mr, (a, asp) ∈ ms_spaces s -> as_root asp = Some mr -> is_Some (regs !! mr)) ->
  exists s', address_space_update_topology as_ s = Ok s' /\
    published s' /\ same_config s s' /\ in_sync s' as_ /\
    forall as', in_sync s as' -> in_sync s' as'.
Proof.
  intros Hregs Hpub ([? asp] & -> & Hin)%list_elem_of_fmap Hroots. cbn. rename z into as_.
  destruct Hpub as [Hids Hmaps Hviews Hview Hfd].
  destruct (proj2 (Hviews (as_current_map asp)) ltac:(eauto)) as [ov Hov].
  destruct (Hview _ _ Hov) as (Hr1 & Hso & Hlt).
  destruct (ms_views s !! ms_next_view s) as [bad|] eqn:Hfresh;
    [destruct (Hview _ _ Hfresh); lia|].
  destruct (update_topology_result s as_ asp ov) as (nv & refs' & trace & fds & Hat & Hnr & Hsn & Hfn & ->);
    eauto.
  assert (forall as' a, (as', a) ∈ ms_spaces s -> as' <> as_ ->
            as_current_map a <> as_current_map asp /\ as_current_map a <> ms_next_view s) as Hother.
  { intros as' a Ha Hne. split; [by intros ?; destruct Hne; eauto|]. intros Heq.
    destruct (proj2 (Hviews (as_current_map a)) ltac:(eauto)). congruence. }
  set (asp' := {| as_root := as_root asp; as_current_map := ms_next_view s; as_ioeventfds := fds |}).
  assert ((as_, asp') ∈ replace_as as_ asp' (ms_spaces s)) as Hin'.
  { apply replace_as_elem. left. split_and!; auto. apply list_elem_of_fmap. by exists (as_, asp). }
  eexists. split; [done|]. split_and!.
  - split; cbn.
    + by rewrite replace_as_ids.
    + intros as1 a1 as2 a2 [(->&->&_)|(?&H1)]%replace_as_elem [(->&->&_)|(?&H2)]%replace_as_elem;
        cbn; intros Heq; try done.
      * by destruct (Hother _ _ H2).
      * by destruct (Hother _ _ H1).
      * eauto.
    + intros vid. setoid_rewrite replace_as_elem. rewrite lookup_insert_is_Some.
      rewrite lookup_delete_is_Some, Hviews. split.
      * intros [<-|(? & ? & as' & a & Ha & ->)].
        -- exists as_, asp'. by setoid_rewrite <- replace_as_elem.
        -- exists as', a. split; [right|done]. split; [|done]. intros ->.
           by rewrite (spaces_unique _ _ _ _ Hids Ha Hin) in *.
      * intros (as' & a & [(->&->&_)|(Hne&Ha)] & ->); [by left|right].
        destruct (Hother _ _ Ha Hne). split_and!; eauto.
    + intros vid v [(<- & ->)|(? & [? Hv]%lookup_delete_Some)]%lookup_insert_Some.
      * split_and!; auto. lia.
      * destruct (Hview _ _ Hv) as (?&?&?). split_and!; auto. lia.
    + intros as' a [(->&->&_)|(?&?)]%replace_as_elem; eauto.
  - split_and!; cbn; auto. apply replace_as_roots. intros b Hb.
    by rewrite (spaces_unique _ _ _ _ Hids Hb Hin).
  - exists asp', nv. cbn. split_and!; [done|by rewrite lookup_insert_eq|exact Hat].
  - intros as' (a & v & Ha & Hv & Hsync). destruct (decide (as' = as_)) as [->|Hne].
    + exists asp', nv. cbn. split_and!; [done|by rewrite lookup_insert_eq|exact Hat].
    + destruct (Hother _ _ Ha Hne). exists a, v. cbn. split_and!.
      * apply replace_as_elem. by right.
      * by rewrite lookup_insert_ne, lookup_delete_ne by congruence.
      * by rewrite <- Hregs.
Qed.

Lemma same_config_refl s : same_config s s.
Proof. by split_and!. Qed.

Lemma same_config_trans s1 s2 s3 : same_config s1 s2 -> same_config s2 s3 -> same_config s1 s3.
Proof. intros (?&?&?&?&?) (?&?&?&?&?). split_and!; congruence. Qed.

Lemma same_config_ids s s' : same_config s s' -> (ms_spaces s').*1 = (ms_spaces s).*1.
Proof.
  intros (_&_&_&_&H). apply (f_equal (fmap fst)) in H. by rewrite <- !list_fmap_compose in H.
Qed.

Lemma same_config_roots s s' as_ asp' :
  same_config s s' -> (as_, asp') ∈ ms_spaces s' ->
  exists asp, (as_, asp) ∈ ms_spaces s /\ as_root asp = as_root asp'.
Proof.
  intros (_&_&_&_&H) Hin.
  assert ((as_, as_root asp') ∈ (fun p => (p.1, as_root p.2)) <$> ms_spaces s) as Hm.
  { rewrite <- H. apply list_elem_of_fmap. by exists (as_, asp'). }
  apply list_elem_of_fmap in Hm as ([x asp] & [= -> ->] & Hx). by exists asp.
Qed.

(** The emitted calls are not part of the published state. *)
Lemma published_trace c s : published (put_trace c s) <-> published s.
Proof. by destruct s; split; intros [? ? ? ? ?]; split. Qed.

(** C3 (refinement): the outermost commit of a transaction that changed
    something always returns; afterwards every address space answers every
    address as its region tree does, every view in the heap belongs to a
    space and holds exactly one reference, and the regions, the roots and
    the listeners are those before the commit. *)
Theorem commit_in_sync s :
  ms_regs s = regs -> published s ->
  (forall a asp mr, (a, asp) ∈ ms_spaces s -> as_root asp = Some mr -> is_Some (regs !! mr)) ->
  ms_depth s = 1 -> ms_pending s = true ->
  exists s', memory_region_transaction_commit s = Ok s' /\
    published s' /\ same_config (put_depth 0 (put_pending false s)) s' /\
    forall as_, as_ ∈ (ms_spaces s').*1 -> in_sync s' as_.
Proof.
  intros Hregs Hpub Hroots Hd Hp. unfold memory_region_transaction_commit.
  set (s1 := put_depth 0 (put_pending false s)).
  assert (published s1) as Hpub1 by (by destruct s; destruct Hpub; split).
  assert (ms_regs s1 = regs /\ ms_spaces s1 = ms_spaces s) as [Hregs1 Hsp1] by (by destruct s).
  destruct s as [regs0 refs views next spaces ls depth pend gl tr]. cbn in Hd, Hp. subst depth pend.
  cbn. change (Build_MemState _ _ _ _ _ _ _ _ _ (tr ++ ?c)) with (emit c s1).
  set (s2 := emit _ s1).
  destruct (ofold_inv (fun s as_ => address_space_update_topology as_ s)
    (fun dn s' => published s' /\ same_config s1 s' /\ forall as_, as_ ∈ dn -> in_sync s' as_)
    spaces.*1 s2) as (s3 & -> & Hpub3 & Hcfg3 & Hsync).
  - split_and!; [by apply published_trace|done|]. intros as_ []%not_elem_of_nil.
  - intros dn as_ s' Hin (Hpub' & Hcfg' & Hsync').
    destruct (update_topology_step s' as_) as (s4 & Hup & Hpub4 & Hcfg4 & Hnew & Hold).
    + destruct Hcfg' as (-> & _). done.
    + done.
    + by rewrite (same_config_ids _ _ Hcfg').
    + intros a asp mr (asp0 & Ha & Hr)%(same_config_roots _ _ _ _ Hcfg') Hmr.
      apply (Hroots a asp0 mr); [done|congruence].
    + exists s4. split_and!; auto; [by eapply same_config_trans|].
      intros x [?| ->%list_elem_of_singleton]%elem_of_app; auto.
  - cbn. eexists. split; [done|]. pose proof (same_config_ids _ _ Hcfg3) as Hids3.
    destruct s3 as [? ? ? ? sp3 ? ? ? ? ?]. split_and!.
    + by apply published_trace.
    + exact Hcfg3.
    + intros as_ Hin. apply Hsync. cbn in Hin, Hids3. by rewrite Hids3 in Hin.
Qed.
End Commit.

(** ** Inside a transaction *)
Inductive region_op :=
| op_add_subregion (mr offset subregion : Z)
| op_add_subregion_overlap (mr offset subregion priority : Z)
| op_del_subregion (mr subregion : Z)
| op_set_enabled (mr : Z) (enabled : bool)
| op_set_address (mr addr : Z)
| op_set_alias_offset (mr offset : Z)
| op_set_readonly (mr : Z) (readonly : bool)
| op_set_romd (mr : Z) (romd_mode : bool)
| op_set_log (mr : Z) (log : bool) (client : Z)
| op_add_eventfd (mr addr size : Z) (match_data : bool) (data e : Z)
| op_del_eventfd (mr addr size : Z) (match_data : bool) (data e : Z).

Definition run_op (s : MemState) (o : region_op) : outcome MemState :=
  match o with
  | op_add_subregion mr offset sub => memory_region_add_subregion mr offset sub s
  | op_add_subregion_overlap mr offset sub p => memory_region_add_subregion_overlap mr offset sub p s
  | op_del_subregion mr sub => memory_region_del_subregion mr sub s
  | op_set_enabled mr b => memory_region_set_enabled mr b s
  | op_set_address mr addr => memory_region_set_address mr addr s
  | op_set_alias_offset mr off => memory_region_set_alias_offset mr off s
  | op_set_readonly mr b => memory_region_set_readonly mr b s
  | op_set_romd mr b => memory_region_rom_device_set_romd mr b s
  | op_set_log mr b c => memory_region_set_log mr b c s
  | op_add_eventfd mr addr size md data e => memory_region_add_eventfd mr addr size md data e s
  | op_del_eventfd mr addr size md data e => memory_region_del_eventfd mr addr size md data e s
  end.

(** Only regions, reference counts and the pending flag may differ. *)
Definition quiet (s s' : MemState) : Prop :=
  ms_views s' = ms_views s /\ ms_next_view s' = ms_next_view s /\ ms_spaces s' = ms_spaces s /\
  ms_listeners s' = ms_listeners s /\ ms_trace s' = ms_trace s /\ ms_depth s' = ms_depth s /\
  ms_global_dirty_log s' = ms_global_dirty_log s /\ (ms_pending s = true -> ms_pending s' = true).

Lemma quiet_refl s : quiet s s.
Proof. by split_and!. Qed.

Lemma quiet_trans s1 s2 s3 : quiet s1 s2 -> quiet s2 s3 -> quiet s1 s3.
Proof. unfold quiet. intuition congruence. Qed.

Lemma quiet_regs r s : quiet s (put_regs r s).
Proof. by destruct s. Qed.
Lemma quiet_refs r s : quiet s (put_refs r s).
Proof. by destruct s. Qed.
Lemma quiet_upd mr f s : quiet s (upd mr f s).
Proof. apply quiet_regs. Qed.
Lemma quiet_update_pending b s : quiet s (update_pending b s).
Proof. destruct s. unfold quiet. cbn. split_and!; auto. by intros ->. Qed.
Lemma quiet_pending s : quiet s (put_pending true s).
Proof. by destruct s. Qed.

(** An operation's own transaction, nested in another one. *)
Lemma quiet_nested s s1 s' :
  1 <= ms_depth s < 2 ^ 32 - 1 ->
  quiet (memory_region_transaction_begin s) s1 ->
  memory_region_transaction_commit s1 = Ok s' -> quiet s s'.
Proof.
  unfold memory_region_transaction_begin, memory_region_transaction_commit.
  destruct s as [? ? ? ? ? ? depth ? ? ?], s1 as [? ? ? ? ? ? depth1 ? ? ?]. unfold quiet. cbn.
  intros Hd (->&->&->&->&->&->&->&Hp). rewrite wrap_small by (unfold in_u; lia).
  replace (depth + 1 =? 0) with false by lia. cbn.
  replace (depth + 1 - 1) with depth by lia. replace (depth =? 0) with false by lia. cbn.
  intros [= <-]. cbn. split_and!; auto.
Qed.

(** Peel the updates of an operation's body. *)
Ltac quiet_chain :=
  repeat match goal with
  | |- quiet ?s ?s => apply quiet_refl
  | |- quiet _ (upd _ _ _) => eapply quiet_trans; [|apply quiet_upd]
  | |- quiet _ (put_refs _ _) => eapply quiet_trans; [|apply quiet_refs]
  | |- quiet _ (update_pending _ _) => eapply quiet_trans; [|apply quiet_update_pending]
  | |- quiet _ (put_pending true _) => eapply quiet_trans; [|apply quiet_pending]
  end.

Ltac quiet_op H :=
  cbv zeta in H; inv_ok; try case_match; inv_ok; subst; auto using quiet_refl, quiet_upd;
  eapply quiet_nested; [eassumption| |eassumption]; quiet_chain.

Lemma quiet_add_common mr offset sub s s' :
  1 <= ms_depth s < 2 ^ 32 - 1 ->
  memory_region_add_subregion_common mr offset sub s = Ok s' -> quiet s s'.
Proof. intros Hd H. unfold memory_region_add_subregion_common in H. quiet_op H. Qed.

Lemma quiet_del mr sub s s' :
  1 <= ms_depth s < 2 ^ 32 - 1 -> memory_region_del_subregion mr sub s = Ok s' -> quiet s s'.
Proof. intros Hd H. unfold memory_region_del_subregion in H. quiet_op H. Qed.

Lemma depth_upd mr f s : ms_depth (upd mr f s) = ms_depth s.
Proof. by destruct s. Qed.

Lemma quiet_add mr offset sub s s' :
  1 <= ms_depth s < 2 ^ 32 - 1 ->
  memory_region_add_subregion mr offset sub s = Ok s' -> quiet s s'.
Proof.
  intros Hd H. eapply quiet_trans; [apply quiet_upd|].
  eapply quiet_add_common; [|exact H]. by rewrite depth_upd.
Qed.

Lemma quiet_add_overlap mr offset sub p s s' :
  1 <= ms_depth s < 2 ^ 32 - 1 ->
  memory_region_add_subregion_overlap mr offset sub p s = Ok s' -> quiet s s'.
Proof.
  intros Hd H. eapply quiet_trans; [apply quiet_upd|].
  eapply quiet_add_common; [|exact H]. by rewrite depth_upd.
Qed.

Lemma depth_begin s : ms_depth (memory_region_transaction_begin s) = u32 (ms_depth s + 1).
Proof. by destruct s. Qed.

Lemma quiet_set_address mr addr s s' :
  1 <= ms_depth s < 2 ^ 32 - 2 -> memory_region_set_address mr addr s = Ok s' -> quiet s s'.
Proof.
  intros Hd H. unfold memory_region_set_address in H. cbv zeta in H. inv_ok.
  case_match; [|inv_ok; subst; apply quiet_upd].
  case_match; [inv_ok; subst; apply quiet_upd|]. inv_ok.
  set (b := memory_region_transaction_begin s) in *.
  set (b' := put_refs _ b) in *.
  assert (ms_depth b' = ms_depth s + 1) as Hb.
  { transitivity (ms_depth b); [by destruct b|]. unfold b. rewrite depth_begin.
    apply wrap_small. unfold in_u. lia. }
  assert (quiet b b') as Hq by apply quiet_refs.
  match goal with Hdel : memory_region_del_subregion _ _ _ = Ok ?s2 |- _ =>
    assert (quiet b' s2) as Hq2 by (eapply quiet_del; [|exact Hdel]; lia);
    assert (ms_depth s2 = ms_depth b') as Hd2 by apply Hq2 end.
  match goal with Hadd : (if mr_may_overlap _ then _ else _) = Ok ?s3 |- _ =>
    assert (quiet b' s3) as Hq3 by
      (eapply quiet_trans; [exact Hq2|]; case_match;
       [eapply quiet_add_overlap; [|exact Hadd]; lia|eapply quiet_add; [|exact Hadd]; lia]) end.
  eapply quiet_nested; [| |exact H]; [lia|].
  eapply quiet_trans; [exact Hq|]. quiet_chain. exact Hq3.
Qed.

Lemma run_op_quiet o s s' :
  1 <= ms_depth s < 2 ^ 32 - 2 -> run_op s o = Ok s' -> quiet s s'.
Proof.
  intros Hd H. assert (1 <= ms_depth s < 2 ^ 32 - 1) as Hd' by lia.
  destruct o; cbn [run_op] in H;
    eauto using quiet_add, quiet_add_overlap, quiet_del, quiet_set_address; clear Hd.
  - unfold memory_region_set_enabled in H. quiet_op H.
  - unfold memory_region_set_alias_offset in H. quiet_op H.
  - unfold memory_region_set_readonly in H. quiet_op H.
  - unfold memory_region_rom_device_set_romd in H. quiet_op H.
  - unfold memory_region_set_log in H. quiet_op H.
  - unfold memory_region_add_eventfd in H. quiet_op H.
  - unfold memory_region_del_eventfd in H. quiet_op H.
Qed.

(** C6 (safety): operations grouped in a transaction are atomic: whatever
    region operations run inside it, no listener is called and no view,
    address space or listener list changes before the outermost commit. *)
Theorem transaction_atomic ops : forall s s',
  1 <= ms_depth s < 2 ^ 32 - 2 -> ofold run_op s ops = Ok s' -> quiet s s'.
Proof.
  induction ops as [|o ops IH]; intros s s' Hd H; cbn [ofold] in H; inv_ok.
  - subst. apply quiet_refl.
  - match goal with H1 : run_op s o = Ok ?s1 |- _ => apply run_op_quiet in H1; [|done];
      apply (quiet_trans _ s1); [done|]; apply IH; [|done]; destruct H1 as (_&_&_&_&_&->&_); done end.
Qed.

(** ** A concrete transaction *)
Lemma view_ioeventfds_nil regs ranges :
  (forall p m, regs !! p = Some m -> mr_ioeventfds m = []) -> view_ioeventfds regs ranges = [].
Proof.
  intros Hr. unfold view_ioeventfds. induction ranges as [|fr ranges IH]; [done|].
  cbn [flat_map]. rewrite IH, app_nil_r.
  destruct (regs !! fr_mr fr) as [m|] eqn:E; [|done]. by rewrite (Hr _ _ E).
Qed.

Lemma pc_no_ioeventfds p m : pc_regions !! p = Some m -> mr_ioeventfds m = [].
Proof.
  revert p m. change (map_Forall (fun _ m => mr_ioeventfds m = []) pc_regions).
  apply map_Forall_to_list. vm_compute. repeat constructor.
Qed.

(** One address space over the regions of [pc_regions] that shows [v], with an
    update pending. *)
Definition pc_shows (v : FlatView) (depth : Z) : MemState := {|
  ms_regs := pc_regions; ms_refs := ∅; ms_views := {[0 := v]}; ms_next_view := 1;
  ms_spaces := [(9, {| as_root := Some 1; as_current_map := 0; as_ioeventfds := [] |})];
  ms_listeners := [mirror]; ms_depth := depth; ms_pending := true;
  ms_global_dirty_log := false; ms_trace := [] |}.

Definition pc_state (depth : Z) : MemState := pc_shows flatview_init depth.

Lemma pc_shows_published v depth :
  fv_ref v = 1 -> sorted_from 0 (fv_ranges v) -> published (pc_shows v depth).
Proof.
  intros Hr Hs. split; cbn.
  - apply NoDup_singleton.
  - intros as1 a1 as2 a2 [= -> ->]%list_elem_of_singleton [= -> ->]%list_elem_of_singleton. done.
  - intros vid. rewrite lookup_singleton_is_Some. split.
    + intros <-. eexists _, _. split; [by left|done].
    + by intros (as_ & asp & [= -> ->]%list_elem_of_singleton & ->).
  - intros vid v' [<- <-]%lookup_singleton_Some. by split_and!.
  - intros as_ asp [= -> ->]%list_elem_of_singleton. constructor.
Qed.

Lemma pc_state_published depth : published (pc_state depth).
Proof. by apply pc_shows_published. Qed.

Lemma commit_in_sync_witness :
  exists s', memory_region_transaction_commit (pc_state 1) = Ok s' /\ published s' /\ in_sync s' 9.
Proof.
  destruct (commit_in_sync pc_regions pc_regions_wf) with (s := pc_state 1)
    as (s' & Hc & Hp & Hcfg & Hsync).
  - intros refs root refs' view _. rewrite view_ioeventfds_nil; [constructor|apply pc_no_ioeventfds].
  - reflexivity.
  - apply pc_state_published.
  - intros a asp mr [= -> ->]%list_elem_of_singleton [= <-]. vm_compute. by eexists.
  - reflexivity.
  - reflexivity.
  - exists s'. split; [exact Hc|]. split; [exact Hp|]. apply Hsync.
    rewrite (same_config_ids _ _ Hcfg). by left.
Defined.

Lemma transaction_atomic_witness :
  exists s', ofold run_op (pc_state 1)
      [op_set_enabled 4 false; op_set_readonly 5 true; op_set_alias_offset 3 0x1000] = Ok s' /\
    quiet (pc_state 1) s'.
Proof.
  eexists. split; [vm_compute; reflexivity|].
  refine (transaction_atomic [op_set_enabled 4 false; op_set_readonly 5 true;
            op_set_alias_offset 3 0x1000] (pc_state 1) _ _ _).
  - cbn. lia.
  - vm_compute. reflexivity.
Defined.
