(* ===== verification/MemLog.v ===== *)
(** * Dirty logging, coalescing and registration of listeners (memory.c)

    The operations of memory.c that walk the current flat views without
    changing them: they take a reference on a view, call the listeners for its
    ranges and drop the reference.  The per-region dirty operations forward to
    the dirty bitmaps of RamList.v. *)
From S2P Require Import Prelude Int128 MemRegion MemAccess FlatView Simplify Topology TopologyFacts Transaction.
From S2P Require Import HostUtils Bitops Bitmap RamList.

(** ** Walking the view of a space *)

(** [view = address_space_get_flatview(as); FOR_EACH_FLAT_RANGE ... ;
    flatview_unref(view)]: the calls made for each range. *)
Fixpoint range_calls (f : FlatRange -> outcome (list (Z * event))) (l : list FlatRange)
    : outcome (list (Z * event)) :=
  match l with
  | [] => Ok []
  | fr :: l => c ← f fr; c' ← range_calls f l; Ok (c ++ c')
  end.

Definition for_each_flat_range (f : FlatRange -> outcome (list (Z * event))) (asp : AddressSpace) : op :=
  fun s =>
  let '(vid, s) := address_space_get_flatview asp s in
  view ← get_view s vid;
  c ← range_calls f (fv_ranges view);
  Ok (flatview_unref vid (emit c s)).

Definition address_space_sync_dirty_bitmap (p : Z * AddressSpace) : op := fun s =>
  for_each_flat_range (fun fr => listener_update_region (ms_listeners s) fr p.1 Forward cb_log_sync) p.2 s.

Definition memory_region_sync_dirty_bitmap (mr : Z) : op := fun s =>
  ofold (fun s p =>
    for_each_flat_range (fun fr =>
      if fr_mr fr =? mr then listener_update_region (ms_listeners s) fr p.1 Forward cb_log_sync
      else Ok []) p.2 s) s (ms_spaces s).

Definition memory_global_dirty_log_start (s : MemState) : MemState :=
  let s := put_global_dirty_log true s in
  emit (listener_call_global (ms_listeners s) cb_log_global_start Forward) s.
Definition memory_global_dirty_log_stop (s : MemState) : MemState :=
  let s := put_global_dirty_log false s in
  emit (listener_call_global (ms_listeners s) cb_log_global_stop Reverse) s.

(** ** Coalesced MMIO *)
Definition coalesced_section (as_ : Z) (fr : FlatRange) (start64 : Z) : MemoryRegionSection :=
  {| s_mr := None; s_address_space := as_; s_offset_within_region := 0;
     s_size := size (fr_addr fr); s_offset_within_address_space := start64; s_readonly := false |}.

(** The calls for one range of the region: drop the range, then add each
    coalesced range shifted to its place and clipped. *)
Fixpoint coalesced_adds (ls : list MemoryListener) (section : MemoryRegionSection) (fr : FlatRange)
    (cmrs : list AddrRange) : outcome (list (Z * event)) :=
  match cmrs with
  | [] => Ok []
  | cmr :: cmrs =>
      let tmp := addrrange_shift cmr (i128_sub (start (fr_addr fr)) (fr_offset_in_region fr)) in
      c ← (if addrrange_intersects tmp (fr_addr fr) then
             let tmp := addrrange_intersection tmp (fr_addr fr) in
             a ← i128_get64 (start tmp);
             l ← i128_get64 (size tmp);
             Ok (listener_call ls cb_coalesced_mmio_add Forward section
                   (EvCoalesced cb_coalesced_mmio_add section a l))
           else Ok []);
      c' ← coalesced_adds ls section fr cmrs;
      Ok (c ++ c')
  end.

Definition coalesced_calls (ls : list MemoryListener) (regs : regions) (mr as_ : Z) (fr : FlatRange)
    : outcome (list (Z * event)) :=
  if fr_mr fr =? mr then
    start64 ← i128_get64 (start (fr_addr fr));
    size64 ← i128_get64 (size (fr_addr fr));
    let section := coalesced_section as_ fr start64 in
    let c := listener_call ls cb_coalesced_mmio_del Reverse section
               (EvCoalesced cb_coalesced_mmio_del section start64 size64) in
    c' ← coalesced_adds ls section fr
           (match regs !! mr with Some m => mr_coalesced m | None => [] end);
    Ok (c ++ c')
  else Ok [].

Definition memory_region_update_coalesced_range_as (mr : Z) (p : Z * AddressSpace) : op := fun s =>
  for_each_flat_range (coalesced_calls (ms_listeners s) (ms_regs s) mr p.1) p.2 s.

Definition memory_region_update_coalesced_range (mr : Z) : op := fun s =>
  ofold (fun s p => memory_region_update_coalesced_range_as mr p s) s (ms_spaces s).

Definition memory_region_set_flush_coalesced (mr : Z) (s : MemState) : MemState :=
  upd mr (set_flush_coalesced_mmio true) s.

Definition memory_region_add_coalescing (mr offset sz : Z) : op := fun s =>
  let s := upd mr (fun m => set_coalesced (mr_coalesced m ++ [addrrange_make offset sz]) m) s in
  s ← memory_region_update_coalesced_range mr s;
  Ok (memory_region_set_flush_coalesced mr s).

Definition memory_region_clear_coalescing (mr : Z) : op := fun s =>
  let s := upd mr (fun m => set_coalesced [] (set_flush_coalesced_mmio false m)) s in
  memory_region_update_coalesced_range mr s.

Definition memory_region_set_coalescing (mr : Z) : op := fun s =>
  s ← memory_region_clear_coalescing mr s;
  m ← get_mr s mr;
  sz ← i128_get64 (mr_size m);
  memory_region_add_coalescing mr 0 sz s.

Definition memory_region_clear_flush_coalesced (mr : Z) : op := fun s =>
  m ← get_mr s mr;
  Ok (match mr_coalesced m with
      | [] => upd mr (set_flush_coalesced_mmio false) s
      | _ => s
      end).

(** [memory_region_destroy]: [destructor] is what the constructor installed. *)
Definition memory_region_destroy (destructor : op) (mr : Z) : op := fun s =>
  m ← get_mr s mr;
  _ ← c_assert (match mr_subregions m with [] => true | _ => false end);
  _ ← c_assert (ms_depth s =? 0);
  s ← destructor s;
  memory_region_clear_coalescing mr s.

(** The destructor of an alias drops the reference taken at creation. *)
Definition memory_region_destructor_alias (mr : Z) : op := fun s =>
  m ← get_mr s mr;
  Ok (match mr_alias m with
      | Some a => put_refs (memory_region_unref (ms_regs s) a (ms_refs s)) s
      | None => s
      end).

Definition memory_region_present (parent addr : Z) : MemState -> outcome (bool * MemState) := fun s =>
  '(section, s) ← memory_region_find parent addr 1 s;
  match section ≫= s_mr with
  | None => Ok (false, s)
  | Some mr =>
      if mr =? parent then Ok (false, s)
      else Ok (true, put_refs (memory_region_unref (ms_regs s) mr (ms_refs s)) s)
  end.

(** ** Dirty bits of a region *)

(** The RAM address a dirty operation works on: through every alias the
    address is moved by [addr - mr->alias_offset]. *)
Fixpoint dirty_address (fuel : nat) (regs : regions) (mr addr : Z) : outcome Z :=
  match fuel with
  | O => NoFuel
  | S fuel =>
      match regs !! mr with
      | None => Abort
      | Some m =>
          match mr_alias m with
          | Some alias => dirty_address fuel regs alias (u64 (addr - mr_alias_offset m))
          | None => _ ← c_assert (mr_terminates m); Ok (u64 (mr_ram_addr m + addr))
          end
      end
  end.

Definition memory_region_get_dirty (regs : regions) (mr addr sz client : Z) (d : list words) : outcome bool :=
  a ← dirty_address (render_fuel regs) regs mr addr; cpu_physical_memory_get_dirty a sz client d.
Definition memory_region_set_dirty (regs : regions) (mr addr sz : Z) (d : list words) : outcome (list words) :=
  a ← dirty_address (render_fuel regs) regs mr addr; cpu_physical_memory_set_dirty_range a sz d.
Definition memory_region_reset_dirty (regs : regions) (mr addr sz client : Z) (d : list words)
    : outcome (list words) :=
  a ← dirty_address (render_fuel regs) regs mr addr; cpu_physical_memory_reset_dirty a sz client d.
Definition memory_region_test_and_clear_dirty (regs : regions) (mr addr sz client : Z) (d : list words)
    : outcome (bool * list words) :=
  match regs !! mr with
  | None => Abort
  | Some m =>
      _ ← c_assert (mr_terminates m);
      let a := u64 (mr_ram_addr m + addr) in
      ret ← cpu_physical_memory_get_dirty a sz client d;
      if (ret : bool) then d ← cpu_physical_memory_reset_dirty a sz client d; Ok (ret, d)
      else Ok (ret, d)
  end.

(** The host pointer of a region: aliases add their offset. *)
Fixpoint region_ram_ptr (fuel : nat) (regs : regions) (mr : Z) (rs : RamState) : outcome (Z * RamState) :=
  match fuel with
  | O => NoFuel
  | S fuel =>
      match regs !! mr with
      | None => Abort
      | Some m =>
          match mr_alias m with
          | Some alias => '(p, rs) ← region_ram_ptr fuel regs alias rs; Ok (p + mr_alias_offset m, rs)
          | None =>
              _ ← c_assert (mr_terminates m);
              qemu_get_ram_ptr (Z.land (mr_ram_addr m) (not64 (TARGET_PAGE_SIZE - 1))) rs
          end
      end
  end.
Definition memory_region_get_ram_ptr (regs : regions) (mr : Z) (rs : RamState) : outcome (Z * RamState) :=
  region_ram_ptr (render_fuel regs) regs mr rs.

(** ** A borrowed view *)
Local Arguments range_calls : simpl never.
Local Arguments listener_call : simpl never.
Local Arguments flatview_destroy : simpl never.

Lemma for_each_flat_range_emit f asp s v c :
  ms_views s !! as_current_map asp = Some v -> 0 < fv_ref v ->
  range_calls f (fv_ranges v) = Ok c -> for_each_flat_range f asp s = Ok (emit c s).
Proof.
  intros Hv Hr Hc. unfold for_each_flat_range, address_space_get_flatview, flatview_ref, get_view.
  destruct s as [regs refs views next spaces ls depth pend gl tr]. cbn in Hv |- *.
  rewrite lookup_alter_eq, Hv. cbn. rewrite Hc. cbn. unfold flatview_unref. cbn.
  rewrite lookup_alter_eq, Hv. cbn. replace (fv_ref v + 1 =? 1) with false by lia.
  unfold emit. cbn. f_equal. f_equal. apply map_eq. intros k.
  destruct (decide (k = as_current_map asp)) as [->|Hne].
  - rewrite lookup_insert_eq, Hv. f_equal. unfold view_set_ref. cbn.
    replace (fv_ref v + 1 - 1) with (fv_ref v) by lia. by destruct v.
  - by rewrite lookup_insert_ne, lookup_alter_ne.
Qed.

Lemma listener_update_region_Ok ls fr as_ d cb :
  0 <= start (fr_addr fr) < 2 ^ 64 ->
  listener_update_region ls fr as_ d cb = Ok (listener_call ls cb d (sec as_ fr) (EvSection cb (sec as_ fr))).
Proof.
  intros Hs. unfold listener_update_region. by rewrite (proj2 (i128_get64_Ok _ _)) by done.
Qed.

Lemma sorted_starts l : forall lb, 0 <= lb -> sorted_from lb l ->
  Forall (fun fr => 0 <= start (fr_addr fr) < 2 ^ 64) l.
Proof.
  induction l as [|r l IH]; intros lb Hlb Hs; [constructor|].
  destruct Hs as (?&?&?&?&?&Hs). constructor; [lia|].
  apply (IH (start (fr_addr r) + size (fr_addr r))); [lia|done].
Qed.

Lemma range_calls_Ok f (g : FlatRange -> list (Z * event)) l :
  Forall (fun fr => f fr = Ok (g fr)) l -> range_calls f l = Ok (flat_map g l).
Proof.
  induction 1 as [|fr l Hf Hl IH]; [done|].
  change (range_calls f (fr :: l)) with (c ← f fr; c' ← range_calls f l; Ok (c ++ c')).
  rewrite Hf. cbn [mbind outcome_bind]. by rewrite IH.
Qed.

(** The sync calls of one space. *)
Definition sync_calls (ls : list MemoryListener) (as_ : Z) (l : list FlatRange) : list (Z * event) :=
  flat_map (fun fr => listener_call ls cb_log_sync Forward (sec as_ fr) (EvSection cb_log_sync (sec as_ fr))) l.

Lemma emit_emit c1 c2 s : emit c2 (emit c1 s) = emit (c1 ++ c2) s.
Proof. destruct s. unfold emit. cbn. by rewrite app_assoc. Qed.

Lemma emit_nil s : emit [] s = s.
Proof. destruct s. unfold emit. cbn. by rewrite app_nil_r. Qed.

(** The ranges an address space shows. *)
Definition ranges_of (s : MemState) (asp : AddressSpace) : list FlatRange :=
  match ms_views s !! as_current_map asp with Some v => fv_ranges v | None => [] end.

Lemma published_view s as_ asp : published s -> (as_, asp) ∈ ms_spaces s ->
  exists v, ms_views s !! as_current_map asp = Some v /\ fv_ref v = 1 /\
    sorted_from 0 (fv_ranges v) /\ ranges_of s asp = fv_ranges v.
Proof.
  intros Hpub Hin. destruct (proj2 (pb_views s Hpub (as_current_map asp))) as [v Hv]; [by eauto|].
  destruct (pb_view s Hpub _ _ Hv) as (? & ? & _). exists v. unfold ranges_of. by rewrite Hv.
Qed.

(** Synchronising the dirty log of a region calls log_sync
    for exactly the ranges of the current views that show the region, in queue
    and address order, and changes nothing else: every view keeps its
    reference count. *)
Theorem sync_dirty_bitmap_calls s mr :
  published s ->
  memory_region_sync_dirty_bitmap mr s =
    Ok (emit (flat_map (fun p => sync_calls (ms_listeners s) p.1
                (filter (fun fr => fr_mr fr = mr) (ranges_of s p.2))) (ms_spaces s)) s).
Proof.
  intros Hpub. unfold memory_region_sync_dirty_bitmap.
  enough (forall l c, (forall p, p ∈ l -> p ∈ ms_spaces s) ->
    ofold (fun s p => for_each_flat_range (fun fr =>
      if fr_mr fr =? mr then listener_update_region (ms_listeners s) fr p.1 Forward cb_log_sync
      else Ok []) p.2 s) (emit c s) l =
    Ok (emit (c ++ flat_map (fun p => sync_calls (ms_listeners s) p.1
                (filter (fun fr => fr_mr fr = mr) (ranges_of s p.2))) l) s)) as Hgen.
  { specialize (Hgen (ms_spaces s) [] ltac:(done)). by rewrite emit_nil in Hgen. }
  induction l as [|[as_ asp] l IH]; intros c Hin; cbn [ofold flat_map].
  - by rewrite app_nil_r.
  - destruct (published_view s as_ asp Hpub (Hin _ ltac:(left))) as (v & Hv & Href & Hs & Hr).
    rewrite (for_each_flat_range_emit _ asp (emit c s) v
      (sync_calls (ms_listeners s) as_ (filter (fun fr => fr_mr fr = mr) (fv_ranges v)))).
    + cbn [mbind outcome_bind]. rewrite emit_emit, IH by (intros; apply Hin; by right).
      cbn [fst snd]. by rewrite Hr, app_assoc.
    + by destruct s.
    + lia.
    + rewrite (range_calls_Ok _ (fun fr => if fr_mr fr =? mr then
        listener_call (ms_listeners s) cb_log_sync Forward (sec as_ fr) (EvSection cb_log_sync (sec as_ fr))
        else [])).
      * f_equal. unfold sync_calls. clear. induction (fv_ranges v) as [|fr l IH]; [done|].
        rewrite filter_cons. cbn [flat_map]. destruct (Z.eqb_spec (fr_mr fr) mr).
        -- rewrite decide_True by done. cbn [flat_map]. by rewrite IH.
        -- rewrite decide_False by done. by rewrite IH.
      * eapply Forall_impl; [exact (sorted_starts _ 0 (Z.le_refl 0) Hs)|]. intros fr Hfr. cbn beta.
        destruct (fr_mr fr =? mr); [|done]. destruct s. by apply listener_update_region_Ok.
Qed.

Lemma sync_dirty_bitmap_calls_witness :
  exists c, memory_region_sync_dirty_bitmap 5 (pc_shows (view_of low_ranges) 0) =
    Ok (emit c (pc_shows (view_of low_ranges) 0)) /\ length c = 2%nat.
Proof.
  eexists. split.
  - exact (sync_dirty_bitmap_calls (pc_shows (view_of low_ranges) 0) 5
             (pc_shows_published (view_of low_ranges) 0 eq_refl low_ranges_sorted)).
  - vm_compute. reflexivity.
Defined.

(** ** Registration *)
Lemma ofold_emit {A} (f : MemState -> A -> outcome MemState) (g : A -> list (Z * event)) l s :
  (forall c x, x ∈ l -> f (emit c s) x = Ok (emit (g x) (emit c s))) ->
  forall c, ofold f (emit c s) l = Ok (emit (c ++ flat_map g l) s).
Proof.
  induction l as [|x l IH]; intros Hl c; cbn [ofold flat_map].
  - by rewrite app_nil_r.
  - rewrite Hl by left. cbn [mbind outcome_bind]. rewrite emit_emit, IH by (intros; apply Hl; by right).
    by rewrite app_assoc.
Qed.

(** Dropping a reference just taken, past calls in between. *)
Lemma unref_emit_ref vid v c s : ms_views s !! vid = Some v -> 0 < fv_ref v ->
  flatview_unref vid (emit c (flatview_ref vid s)) = emit c s.
Proof.
  intros Hv Hr. unfold flatview_ref, flatview_unref.
  destruct s as [regs refs views next spaces ls depth pend gl tr]. cbn in Hv |- *.
  rewrite lookup_alter_eq, Hv. cbn. replace (fv_ref v + 1 =? 1) with false by lia.
  unfold emit. cbn. f_equal. apply map_eq. intros k. destruct (decide (k = vid)) as [->|Hne].
  - rewrite lookup_insert_eq, Hv. f_equal. unfold view_set_ref. cbn.
    replace (fv_ref v + 1 - 1) with (fv_ref v) by lia. by destruct v.
  - by rewrite lookup_insert_ne, lookup_alter_ne.
Qed.

(** What a new listener is told about one space. *)
Definition introduction (l : MemoryListener) (global : bool) (as_ : Z) (ranges : list FlatRange)
    : list (Z * event) :=
  (if global && ml_has l cb_log_global_start then [(ml_id l, EvGlobal cb_log_global_start)] else []) ++
  flat_map (fun fr => if ml_has l cb_region_add
                      then [(ml_id l, EvSection cb_region_add (sec as_ fr))] else []) ranges.

Lemma listener_add_address_space_emit l as_ asp s :
  published s -> (as_, asp) ∈ ms_spaces s ->
  (ml_address_space_filter l = None \/ ml_address_space_filter l = Some as_) ->
  listener_add_address_space l (as_, asp) s =
    Ok (emit (introduction l (ms_global_dirty_log s) as_ (ranges_of s asp)) s).
Proof.
  intros Hpub Hin Hfil. unfold listener_add_address_space.
  replace (match ml_address_space_filter l with Some f => negb (f =? as_) | None => false end) with false
    by (destruct Hfil as [-> | ->]; [done|]; by rewrite Z.eqb_refl).
  destruct (published_view s as_ asp Hpub Hin) as (v & Hv & Href & Hs & ->).
  unfold introduction. set (c0 := if ms_global_dirty_log s && ml_has l cb_log_global_start
                                  then [(ml_id l, EvGlobal cb_log_global_start)] else []).
  assert ((if ms_global_dirty_log s && ml_has l cb_log_global_start
           then emit [(ml_id l, EvGlobal cb_log_global_start)] s else s) = emit c0 s) as ->.
  { unfold c0. destruct (_ && _); [done|by rewrite emit_nil]. }
  cbn [address_space_get_flatview]. unfold get_view.
  assert (ms_views (flatview_ref (as_current_map asp) (emit c0 s)) !! as_current_map asp
          = Some (view_set_ref (fv_ref v + 1) v)) as ->.
  { destruct s. cbn in Hv |- *. by rewrite lookup_alter_eq, Hv. }
  cbn [mbind outcome_bind]. cbn [fv_ranges view_set_ref].
  set (s1 := flatview_ref (as_current_map asp) (emit c0 s)). rewrite <- (emit_nil s1).
  rewrite (ofold_emit _ (fun fr => if ml_has l cb_region_add
             then [(ml_id l, EvSection cb_region_add (sec as_ fr))] else [])).
  - cbn [mbind outcome_bind app]. unfold s1. rewrite (unref_emit_ref _ v); [by rewrite emit_emit| |lia].
    by destruct s.
  - intros c fr Hfr. pose proof (sorted_starts _ 0 (Z.le_refl 0) Hs) as Hst.
    rewrite Forall_forall in Hst. rewrite (proj2 (i128_get64_Ok _ _)) by (split; [done|by apply Hst]).
    cbn [mbind outcome_bind]. destruct (ml_has l cb_region_add); [done|by rewrite (emit_nil (emit c s1))].
Qed.

Lemma published_emit c s : published (emit c s) <-> published s.
Proof. apply published_trace. Qed.

Lemma calls_for_introduction l global as_ ranges :
  ml_has l cb_region_add = true ->
  calls_for (ml_id l) (introduction l global as_ ranges) =
    (if global && ml_has l cb_log_global_start then [EvGlobal cb_log_global_start] else []) ++
    ((fun fr => EvSection cb_region_add (sec as_ fr)) <$> ranges).
Proof.
  intros Hadd. unfold introduction. rewrite calls_for_app, Hadd. f_equal.
  - destruct (_ && _); [|done]. unfold calls_for. cbn. by rewrite Z.eqb_refl.
  - induction ranges as [|fr ranges IH]; [done|]. cbn [flat_map]. rewrite calls_for_app, IH.
    unfold calls_for at 1. cbn. by rewrite Z.eqb_refl.
Qed.

(** Being told the ranges of a sorted view from nothing. *)
Lemma track_introduction as_ : forall ranges lb st,
  0 <= lb -> sorted_from lb ranges ->
  (forall t, t ∈ st -> s_offset_within_address_space t + s_size t <= lb) ->
  track_all st ((fun fr => EvSection cb_region_add (sec as_ fr)) <$> ranges)
    = Some (st ∪ sections as_ ranges).
Proof.
  induction ranges as [|r ranges IH]; intros lb st Hlb Hs Hst.
  - cbn. f_equal. unfold sections. cbn. by rewrite union_empty_r_L.
  - destruct Hs as (?&?&?&?&?&Hs). cbn [fmap list_fmap track_all track].
    rewrite bool_decide_true.
    2: { intros t Ht. right. specialize (Hst t Ht). cbn. lia. }
    cbn [mbind option_bind]. rewrite sections_cons.
    fold (fmap (M:=list) (fun fr => EvSection cb_region_add (sec as_ fr)) ranges).
    rewrite (IH (start (fr_addr r) + size (fr_addr r))).
    + f_equal. by rewrite (union_comm_L {[sec as_ r]} st), union_assoc_L.
    + lia.
    + done.
    + intros t [->%elem_of_singleton|Ht]%elem_of_union; [cbn; lia|]. specialize (Hst t Ht). lia.
Qed.

(** The queue stays ordered by priority. *)
Fixpoint by_priority (ls : list MemoryListener) : Prop :=
  match ls with
  | [] => True
  | l :: ls => Forall (fun l' => ml_priority l <= ml_priority l') ls /\ by_priority ls
  end.

Lemma insert_listener_elem l ls x : x ∈ insert_listener l ls <-> x = l \/ x ∈ ls.
Proof.
  induction ls as [|y ls IH]; cbn [insert_listener]; [by rewrite list_elem_of_singleton, elem_of_nil; tauto|].
  destruct (_ <? _); rewrite !elem_of_cons; [done|]. rewrite IH. tauto.
Qed.

Lemma insert_listener_ordered l ls : by_priority ls -> by_priority (insert_listener l ls).
Proof.
  induction ls as [|y ls IH]; intros Hls; cbn [insert_listener]; [by split|].
  destruct Hls as [Hy Hls]. destruct (Z.ltb_spec (ml_priority l) (ml_priority y)); cbn [by_priority].
  - split; [|by split]. constructor; [lia|]. eapply Forall_impl; [exact Hy|]. cbn. lia.
  - split; [|by apply IH]. apply Forall_forall. intros x [-> |Hx]%insert_listener_elem; [done|].
    rewrite Forall_forall in Hy. by apply Hy.
Qed.

Lemma append_ordered l ls : by_priority ls ->
  (forall x, list.last ls = Some x -> ml_priority x <= ml_priority l) -> by_priority (ls ++ [l]).
Proof.
  induction ls as [|y ls IH]; intros Hls Hlast; [by split; [constructor|]|].
  destruct Hls as [Hy Hls]. cbn [app by_priority].
  assert (forall x, list.last ls = Some x -> ml_priority x <= ml_priority l) as Hlast'.
  { intros x Hx. apply Hlast. destruct ls; [done|]. by rewrite last_cons_cons. }
  split; [|by apply IH]. apply Forall_app. split; [done|]. constructor; [|constructor].
  destruct (list.last ls) as [x|] eqn:E.
  - specialize (Hlast' x eq_refl). rewrite Forall_forall in Hy.
    specialize (Hy x). rewrite last_lookup in E. apply list_elem_of_lookup_2 in E. specialize (Hy E). lia.
  - apply last_None in E. subst ls. by apply Hlast.
Qed.

Lemma put_listeners_published ls s : published s -> published (put_listeners ls s).
Proof. intros [? ? ? ? ?]. by destruct s; split. Qed.

Lemma ranges_of_emit c ls s asp : ranges_of (emit c (put_listeners ls s)) asp = ranges_of s asp.
Proof. by destruct s. Qed.

Lemma flat_map_key_nil {A B} (g : A -> list B) (k : Z) (l : list (Z * A)) :
  k ∉ l.*1 -> flat_map (fun p => if k =? p.1 then g p.2 else []) l = [].
Proof.
  induction l as [|[k' a] l IH]; intros Hk; [done|].
  rewrite fmap_cons, not_elem_of_cons in Hk. destruct Hk as [Hne Hk]. cbn [flat_map fst snd] in *.
  destruct (Z.eqb_spec k k'); [done|]. by apply IH.
Qed.

Lemma flat_map_key {A B} (g : A -> list B) (k : Z) (a : A) (l : list (Z * A)) :
  NoDup l.*1 -> (k, a) ∈ l -> flat_map (fun p => if k =? p.1 then g p.2 else []) l = g a.
Proof.
  induction l as [|[k' a'] l IH]; intros Hnd Hin; [by apply elem_of_nil in Hin|].
  rewrite fmap_cons in Hnd. apply NoDup_cons in Hnd as [Hk Hnd]. cbn [flat_map fst snd] in *.
  apply elem_of_cons in Hin as [Heq|Hin].
  - simplify_eq. rewrite Z.eqb_refl. rewrite flat_map_key_nil by done. apply app_nil_r.
  - destruct (Z.eqb_spec k k') as [->|]; [|by apply IH].
    destruct Hk. apply list_elem_of_fmap. by exists (k', a).
Qed.

(** The priority queue insertion of [memory_listener_register]. *)
Lemma register_queue l ls : by_priority ls ->
  let ls' := match list.last ls with
             | None => ls ++ [l]
             | Some lst => if ml_priority lst <=? ml_priority l then ls ++ [l] else insert_listener l ls
             end in
  by_priority ls' /\ forall x, x ∈ ls' <-> x = l \/ x ∈ ls.
Proof.
  intros Hls. cbv zeta. assert (forall x, x ∈ ls ++ [l] <-> x = l \/ x ∈ ls) as Happ
    by (intros x; rewrite elem_of_app, list_elem_of_singleton; tauto).
  destruct (list.last ls) as [lst|] eqn:E.
  - destruct (Z.leb_spec (ml_priority lst) (ml_priority l)); split; try done.
    + apply append_ordered; [done|]. intros x Hx. rewrite E in Hx. by simplify_eq.
    + by apply insert_listener_ordered.
    + apply insert_listener_elem.
  - split; [|done]. apply append_ordered; [done|]. by rewrite E.
Qed.

Lemma track_fresh as_ ranges (global : bool) :
  sorted_from 0 ranges ->
  track_all ∅ ((if global then [EvGlobal cb_log_global_start] else []) ++
               ((fun fr => EvSection cb_region_add (sec as_ fr)) <$> ranges)) = Some (sections as_ ranges).
Proof.
  intros Hs. assert (track_all ∅ ((fun fr => EvSection cb_region_add (sec as_ fr)) <$> ranges)
                     = Some (sections as_ ranges)) as Ht.
  { rewrite (track_introduction as_ ranges 0); [by rewrite union_empty_l_L|done|done|]. set_solver. }
  by destruct global.
Qed.

(** A listener registered for an address space joins the
    queue in priority order and is told every range of the space's current
    view, so that it starts out mirroring the view exactly; nothing else of the
    state changes. *)
Theorem memory_listener_register_mirrors s l as_ asp :
  published s -> by_priority (ms_listeners s) -> (as_, asp) ∈ ms_spaces s ->
  ml_has l cb_region_add = true -> ml_address_space_filter l = Some as_ ->
  exists c ls', memory_listener_register l (Some as_) s = Ok (emit c (put_listeners ls' s)) /\
    by_priority ls' /\ (forall x, x ∈ ls' <-> x = l \/ x ∈ ms_listeners s) /\
    track_all ∅ (calls_for (ml_id l) c) = Some (sections as_ (ranges_of s asp)).
Proof.
  intros Hpub Hpri Hin Hadd Hfil. unfold memory_listener_register.
  replace {| ml_id := ml_id l; ml_has := ml_has l; ml_priority := ml_priority l;
             ml_address_space_filter := Some as_ |} with l by (destruct l; cbn in *; by subst).
  cbv zeta. pose proof (register_queue l (ms_listeners s) Hpri) as Hq. cbv zeta in Hq.
  set (ls' := match list.last (ms_listeners s) with None => _ | Some _ => _ end) in *.
  clearbody ls'. destruct Hq as [Hq1 Hq2].
  rewrite <- (emit_nil (put_listeners ls' s)).
  rewrite (ofold_emit _ (fun p => if as_ =? p.1 then
             introduction l (ms_global_dirty_log s) as_ (ranges_of s p.2) else [])).
  - eexists _, _. split; [done|]. split; [done|]. split; [done|].
    rewrite emit_nil. replace (ms_spaces (put_listeners ls' s)) with (ms_spaces s) by (by destruct s).
    rewrite (flat_map_key (fun asp => introduction l (ms_global_dirty_log s) as_ (ranges_of s asp)) as_ asp)
      by (try apply Hpub; done).
    rewrite app_nil_l, calls_for_introduction by done. apply track_fresh.
    destruct (published_view s as_ asp Hpub Hin) as (v & _ & _ & Hs & ->). done.
  - intros c [as2 asp2] Hin2. cbn [fst snd]. destruct (Z.eqb_spec as_ as2) as [<-|Hne].
    + rewrite listener_add_address_space_emit; [rewrite ranges_of_emit; by destruct s|..].
      * by apply published_emit, put_listeners_published.
      * by destruct s.
      * by right.
    + unfold listener_add_address_space. rewrite Hfil.
      rewrite (proj2 (Z.eqb_neq as_ as2) Hne). cbn [negb]. by rewrite (emit_nil (emit c _)).
Qed.

Lemma memory_listener_register_mirrors_witness :
  let late := {| ml_id := 2; ml_has := fun _ => true; ml_priority := -1;
                 ml_address_space_filter := Some 9 |} in
  exists c ls', memory_listener_register late (Some 9) (pc_shows (view_of low_ranges) 0) =
    Ok (emit c (put_listeners ls' (pc_shows (view_of low_ranges) 0))) /\
    track_all ∅ (calls_for 2 c) = Some (sections 9 low_ranges).
Proof.
  intros late.
  destruct (memory_listener_register_mirrors (pc_shows (view_of low_ranges) 0) late 9
              {| as_root := Some 1; as_current_map := 0; as_ioeventfds := [] |}) as (c & ls' & H1 & _ & _ & H2).
  - exact (pc_shows_published (view_of low_ranges) 0 eq_refl low_ranges_sorted).
  - split; [apply Forall_nil_2|exact I].
  - apply list_elem_of_singleton. reflexivity.
  - reflexivity.
  - reflexivity.
  - exists c, ls'. split; [exact H1|exact H2].
Defined.
