(* ===== verification/PhysMap.v ===== *)
(** * The physical page table (exec.c)

    The dispatch listener of an address space builds, from the sections of a
    flat view, a radix tree from page numbers to sections: six levels of 512
    entries, an entry pointing to a node, to a section or to nothing.  A page
    that several sections share gets a table of sections per byte (a
    subpage).  When the view is complete the tree is compacted: an entry whose
    node has one child skips that node.

    Pointers to sections and nodes are their indices.  PhysTree.v and
    Dispatch.v prove what the table answers. *)
From S2P Require Import Prelude Int128 Bitops MemRegion FlatView Topology RamList.
Local Open Scope Z_scope.

(** ** Data *)
Record PhysPageEntry := {
  pe_skip : Z;
  pe_ptr : Z
}.

Definition PHYS_MAP_NODE_NIL : Z := 2 ^ 26 - 1.
Definition P_L2_BITS : Z := 9.
Definition P_L2_SIZE : Z := 512.
Definition P_L2_LEVELS : nat := 6.

Abbreviation Node := (list PhysPageEntry).

Definition PHYS_SECTION_UNASSIGNED : Z := 0.
Definition PHYS_SECTION_NOTDIRTY : Z := 1.
Definition PHYS_SECTION_ROM : Z := 2.
Definition PHYS_SECTION_WATCH : Z := 3.

(** The region of a section: one of the built-in regions, the region of a
    subpage, or a region of memory.c. *)
Inductive PhysMr :=
| io_mem_unassigned
| io_mem_notdirty
| io_mem_rom
| io_mem_watch
| subpage_iomem (k : nat)
| guest_mr (mr : option Z).

Record PhysSection := {
  ps_mr : PhysMr;
  ps_offset_within_region : Z;
  ps_size : Z;
  ps_offset_within_address_space : Z;
  ps_readonly : bool
}.

(** The node array has [pm_nodes_alloc] slots, the first of them in use. *)
Record PhysPageMap := {
  pm_sections : list PhysSection;
  pm_nodes : list Node;
  pm_nodes_alloc : Z
}.

Record subpage_t := {
  sp_base : Z;
  sp_sub_section : list Z
}.

Record AddressSpaceDispatch := {
  d_phys_map : PhysPageEntry;
  d_map : PhysPageMap;
  d_subpages : list subpage_t
}.

Definition with_nodes (nodes : list Node) (map : PhysPageMap) : PhysPageMap :=
  {| pm_sections := pm_sections map; pm_nodes := nodes; pm_nodes_alloc := pm_nodes_alloc map |}.

(** ** The tree *)
Definition phys_map_node_reserve (map : PhysPageMap) (nodes : Z) : PhysPageMap :=
  let nb := Z.of_nat (length (pm_nodes map)) in
  if pm_nodes_alloc map <? nb + nodes then
    {| pm_sections := pm_sections map; pm_nodes := pm_nodes map;
       pm_nodes_alloc := Z.max (Z.max (pm_nodes_alloc map * 2) 16) (nb + nodes) |}
  else map.

Definition node_of (e : PhysPageEntry) : Node := replicate (Z.to_nat P_L2_SIZE) e.

Definition phys_map_node_alloc (map : PhysPageMap) (fresh : Node) : outcome (Z * PhysPageMap) :=
  let ret := Z.of_nat (length (pm_nodes map)) in
  _ ← c_assert (negb (ret =? PHYS_MAP_NODE_NIL));
  _ ← c_assert (negb (ret =? pm_nodes_alloc map));
  Ok (ret, with_nodes (pm_nodes map ++ [fresh]) map).

Definition entry_at (nodes : list Node) (k j : Z) : outcome PhysPageEntry :=
  match nodes !! Z.to_nat k ≫= (fun node => node !! Z.to_nat j) with
  | Some e => Ok e
  | None => Abort
  end.

Definition put_entry (nodes : list Node) (k j : Z) (e : PhysPageEntry) : list Node :=
  alter (fun node => <[Z.to_nat j := e]> node) (Z.to_nat k) nodes.

(** The entries [j, j + n) of node [k]; [index] and [nb] are passed by
    reference, [rec] is the call for the level below. *)
Fixpoint level_loop (rec : PhysPageMap -> PhysPageEntry -> Z -> Z -> outcome (PhysPageMap * PhysPageEntry * Z * Z))
    (step leaf k : Z) (n : nat) (j : Z) (map : PhysPageMap) (index nb : Z) : outcome (PhysPageMap * Z * Z) :=
  match n with
  | O => Ok (map, index, nb)
  | S n =>
      if nb =? 0 then Ok (map, index, nb)
      else if (Z.land index (step - 1) =? 0) && (step <=? nb) then
        _ ← entry_at (pm_nodes map) k j;
        level_loop rec step leaf k n (j + 1)
          (with_nodes (put_entry (pm_nodes map) k j {| pe_skip := 0; pe_ptr := leaf |}) map) (index + step) (nb - step)
      else
        e ← entry_at (pm_nodes map) k j;
        '(map, e, index, nb) ← rec map e index nb;
        level_loop rec step leaf k n (j + 1) (with_nodes (put_entry (pm_nodes map) k j e) map) index nb
  end.

(** [lp] is returned with its new value.  At level 0 every page is a step of
    its own, so there is no level below. *)
Fixpoint phys_page_set_level (level : nat) (leaf : Z) (map : PhysPageMap) (lp : PhysPageEntry) (index nb : Z)
    : outcome (PhysPageMap * PhysPageEntry * Z * Z) :=
  let step := Z.shiftl 1 (Z.of_nat level * P_L2_BITS) in
  '(map, lp) ← (if negb (pe_skip lp =? 0) && (pe_ptr lp =? PHYS_MAP_NODE_NIL) then
                  '(k, map) ← phys_map_node_alloc map
                    (node_of (match level with
                              | O => {| pe_skip := 0; pe_ptr := PHYS_SECTION_UNASSIGNED |}
                              | S _ => {| pe_skip := 1; pe_ptr := PHYS_MAP_NODE_NIL |}
                              end));
                  Ok (map, {| pe_skip := pe_skip lp; pe_ptr := k |})
                else Ok (map, lp));
  let j := Z.land (Z.shiftr index (Z.of_nat level * P_L2_BITS)) (P_L2_SIZE - 1) in
  '(map, index, nb) ← level_loop
    (match level with
     | O => fun _ _ _ _ => Abort
     | S level => phys_page_set_level level leaf
     end) step leaf (pe_ptr lp) (Z.to_nat (P_L2_SIZE - j)) j map index nb;
  Ok (map, lp, index, nb).

Definition with_map (lp : PhysPageEntry) (map : PhysPageMap) (d : AddressSpaceDispatch) : AddressSpaceDispatch :=
  {| d_phys_map := lp; d_map := map; d_subpages := d_subpages d |}.

Definition phys_page_set (d : AddressSpaceDispatch) (index nb leaf : Z) : outcome AddressSpaceDispatch :=
  let map := phys_map_node_reserve (d_map d) (3 * Z.of_nat P_L2_LEVELS) in
  '(map, lp, _, _) ← phys_page_set_level (pred P_L2_LEVELS) leaf map (d_phys_map d) index nb;
  Ok (with_map lp map d).

(** [phys_page_compact]: the loop over the entries of node [k], then the
    entry itself. *)
Fixpoint compact_loop (rec : list Node -> PhysPageEntry -> outcome (list Node * PhysPageEntry))
    (k : Z) (n : nat) (i : Z) (nodes : list Node) (valid valid_ptr : Z) : outcome (list Node * Z * Z) :=
  match n with
  | O => Ok (nodes, valid, valid_ptr)
  | S n =>
      e ← entry_at nodes k i;
      if pe_ptr e =? PHYS_MAP_NODE_NIL then compact_loop rec k n (i + 1) nodes valid valid_ptr
      else
        nodes ← (if negb (pe_skip e =? 0) then
                   '(nodes, e) ← rec nodes e; Ok (put_entry nodes k i e)
                 else Ok nodes);
        compact_loop rec k n (i + 1) nodes (valid + 1) i
  end.

Fixpoint phys_page_compact (fuel : nat) (nodes : list Node) (lp : PhysPageEntry) : outcome (list Node * PhysPageEntry) :=
  match fuel with
  | O => NoFuel
  | S fuel =>
      if pe_ptr lp =? PHYS_MAP_NODE_NIL then Ok (nodes, lp)
      else
        '(nodes, valid, valid_ptr) ← compact_loop (phys_page_compact fuel) (pe_ptr lp) (Z.to_nat P_L2_SIZE) 0 nodes 0 P_L2_SIZE;
        if negb (valid =? 1) then Ok (nodes, lp)
        else
          _ ← c_assert (valid_ptr <? P_L2_SIZE);
          e ← entry_at nodes (pe_ptr lp) valid_ptr;
          if 8 <=? pe_skip lp + pe_skip e then Ok (nodes, lp)
          else Ok (nodes, {| pe_skip := if pe_skip e =? 0 then 0 else pe_skip lp + pe_skip e; pe_ptr := pe_ptr e |})
  end.

(** The levels bound the recursion. *)
Definition phys_page_compact_all (d : AddressSpaceDispatch) : outcome AddressSpaceDispatch :=
  if negb (pe_skip (d_phys_map d) =? 0) then
    '(nodes, lp) ← phys_page_compact (S P_L2_LEVELS) (pm_nodes (d_map d)) (d_phys_map d);
    Ok (with_map lp (with_nodes nodes (d_map d)) d)
  else Ok d.

(** [range_covers_byte] of the section's range, a size of 2^64 covering
    everything. *)
Definition section_covers (sec : PhysSection) (addr : Z) : bool :=
  negb (Z.shiftr (ps_size sec) 64 =? 0) ||
  (ps_offset_within_address_space sec <=? addr) &&
  (addr <=? u64 (ps_offset_within_address_space sec + u64 (ps_size sec) - 1)).

(** The walk from an entry down to the entry that ends it; [None] when it ends
    in an entry without a node. *)
Fixpoint find_walk (fuel : nat) (nodes : list Node) (index i : Z) (lp : PhysPageEntry) : outcome (option Z) :=
  match fuel with
  | O => NoFuel
  | S fuel =>
      if (pe_skip lp =? 0) || (i - pe_skip lp <? 0) then Ok (Some (pe_ptr lp))
      else if pe_ptr lp =? PHYS_MAP_NODE_NIL then Ok None
      else
        let i := i - pe_skip lp in
        lp ← entry_at nodes (pe_ptr lp) (Z.land (Z.shiftr index (i * P_L2_BITS)) (P_L2_SIZE - 1));
        find_walk fuel nodes index i lp
  end.

Definition section_at (map : PhysPageMap) (s : Z) : outcome PhysSection :=
  match pm_sections map !! Z.to_nat s with
  | Some sec => Ok sec
  | None => Abort
  end.

(** A pointer to a section is its index. *)
Definition phys_page_find (lp : PhysPageEntry) (addr : Z) (map : PhysPageMap) : outcome Z :=
  r ← find_walk (S P_L2_LEVELS) (pm_nodes map) (Z.shiftr addr TARGET_PAGE_BITS) (Z.of_nat P_L2_LEVELS) lp;
  match r with
  | None => Ok PHYS_SECTION_UNASSIGNED
  | Some s =>
      sec ← section_at map s;
      Ok (if section_covers sec addr then s else PHYS_SECTION_UNASSIGNED)
  end.

Definition SUBPAGE_IDX (addr : Z) : Z := Z.land addr (TARGET_PAGE_SIZE - 1).

Definition address_space_lookup_region (d : AddressSpaceDispatch) (addr : Z) (resolve_subpage : bool) : outcome Z :=
  s ← phys_page_find (d_phys_map d) addr (d_map d);
  sec ← section_at (d_map d) s;
  match ps_mr sec with
  | subpage_iomem k =>
      if resolve_subpage then
        match d_subpages d !! k with
        | Some sp =>
            match sp_sub_section sp !! Z.to_nat (SUBPAGE_IDX addr) with
            | Some s => Ok s
            | None => Abort
            end
        | None => Abort
        end
      else Ok s
  | _ => Ok s
  end.

(** ** Registering sections *)
Definition phys_section_add (map : PhysPageMap) (sec : PhysSection) : outcome (Z * PhysPageMap) :=
  let nb := Z.of_nat (length (pm_sections map)) in
  _ ← c_assert (nb <? TARGET_PAGE_SIZE);
  Ok (nb, {| pm_sections := pm_sections map ++ [sec]; pm_nodes := pm_nodes map; pm_nodes_alloc := pm_nodes_alloc map |}).

(** [phys_sections_free]: the regions whose reference the sections drop, the
    last section first. *)
Definition phys_sections_free (map : PhysPageMap) : list PhysMr := rev (ps_mr <$> pm_sections map).

Fixpoint subpage_fill (n : nat) (idx section : Z) (sub : list Z) : list Z :=
  match n with
  | O => sub
  | S n => subpage_fill n (idx + 1) section (<[Z.to_nat idx := section]> sub)
  end.

Definition subpage_register (mmio : subpage_t) (start end_ section : Z) : subpage_t * Z :=
  if (TARGET_PAGE_SIZE <=? start) || (TARGET_PAGE_SIZE <=? end_) then (mmio, -1)
  else
    let idx := SUBPAGE_IDX start in
    let eidx := SUBPAGE_IDX end_ in
    ({| sp_base := sp_base mmio;
        sp_sub_section := subpage_fill (Z.to_nat (eidx - idx + 1)) idx section (sp_sub_section mmio) |}, 0).

Definition subpage_init (base : Z) : subpage_t :=
  let mmio := {| sp_base := base; sp_sub_section := replicate (Z.to_nat TARGET_PAGE_SIZE) 0 |} in
  fst (subpage_register mmio 0 (TARGET_PAGE_SIZE - 1) PHYS_SECTION_UNASSIGNED).

Definition with_sections (map : PhysPageMap) (d : AddressSpaceDispatch) : AddressSpaceDispatch :=
  {| d_phys_map := d_phys_map d; d_map := map; d_subpages := d_subpages d |}.

Definition with_subpages (subs : list subpage_t) (d : AddressSpaceDispatch) : AddressSpaceDispatch :=
  {| d_phys_map := d_phys_map d; d_map := d_map d; d_subpages := subs |}.

(** The subpage of the page at [base]: the one that is there, or a new one. *)
Definition subpage_for (d : AddressSpaceDispatch) (base : Z) : outcome (AddressSpaceDispatch * nat) :=
  existing ← phys_page_find (d_phys_map d) base (d_map d);
  sec ← section_at (d_map d) existing;
  match ps_mr sec with
  | subpage_iomem k => Ok (d, k)
  | io_mem_unassigned =>
      let k := length (d_subpages d) in
      let subsection := {| ps_mr := subpage_iomem k; ps_offset_within_region := 0; ps_size := TARGET_PAGE_SIZE;
                           ps_offset_within_address_space := base; ps_readonly := false |} in
      let d := with_subpages (d_subpages d ++ [subpage_init base]) d in
      '(s, map) ← phys_section_add (d_map d) subsection;
      d ← phys_page_set (with_sections map d) (Z.shiftr base TARGET_PAGE_BITS) 1 s;
      Ok (d, k)
  | _ => Abort
  end.

Definition register_subpage (d : AddressSpaceDispatch) (sec : PhysSection) : outcome AddressSpaceDispatch :=
  let base := Z.land (ps_offset_within_address_space sec) (not64 (TARGET_PAGE_SIZE - 1)) in
  '(d, k) ← subpage_for d base;
  let start := SUBPAGE_IDX (ps_offset_within_address_space sec) in
  size ← i128_get64 (ps_size sec);
  let end_ := u64 (start + size - 1) in
  '(s, map) ← phys_section_add (d_map d) sec;
  let d := with_sections map d in
  match d_subpages d !! k with
  | Some sp => Ok (with_subpages (<[k := fst (subpage_register sp (u32 start) (u32 end_) s)]> (d_subpages d)) d)
  | None => Abort
  end.

Definition register_multipage (d : AddressSpaceDispatch) (sec : PhysSection) : outcome AddressSpaceDispatch :=
  let start_addr := ps_offset_within_address_space sec in
  '(section_index, map) ← phys_section_add (d_map d) sec;
  num_pages ← i128_get64 (Z.shiftr (ps_size sec) TARGET_PAGE_BITS);
  _ ← c_assert (negb (num_pages =? 0));
  phys_page_set (with_sections map d) (Z.shiftr start_addr TARGET_PAGE_BITS) num_pages section_index.

Definition resize (size : Z) (sec : PhysSection) : PhysSection :=
  {| ps_mr := ps_mr sec; ps_offset_within_region := ps_offset_within_region sec; ps_size := size;
     ps_offset_within_address_space := ps_offset_within_address_space sec; ps_readonly := ps_readonly sec |}.

(** [remain] after its first [n] bytes. *)
Definition advance (n : Z) (sec : PhysSection) : PhysSection :=
  {| ps_mr := ps_mr sec; ps_offset_within_region := u64 (ps_offset_within_region sec + n);
     ps_size := i128_sub (ps_size sec) n;
     ps_offset_within_address_space := u64 (ps_offset_within_address_space sec + n); ps_readonly := ps_readonly sec |}.

Fixpoint mem_add_loop (fuel : nat) (d : AddressSpaceDispatch) (remain : PhysSection) (now_size : Z)
    : outcome AddressSpaceDispatch :=
  match fuel with
  | O => NoFuel
  | S fuel =>
      if ps_size remain =? now_size then Ok d
      else
        n ← i128_get64 now_size;
        let remain := advance n remain in
        let now := remain in
        if ps_size remain <? TARGET_PAGE_SIZE then
          d ← register_subpage d now; mem_add_loop fuel d remain (ps_size now)
        else if negb (SUBPAGE_IDX (ps_offset_within_address_space remain) =? 0) then
          let now := resize TARGET_PAGE_SIZE now in
          d ← register_subpage d now; mem_add_loop fuel d remain (ps_size now)
        else
          let now := resize (Z.land (ps_size now) (i128_neg TARGET_PAGE_SIZE)) now in
          d ← register_multipage d now; mem_add_loop fuel d remain (ps_size now)
  end.

Definition of_section (sec : MemoryRegionSection) : PhysSection :=
  {| ps_mr := guest_mr (s_mr sec); ps_offset_within_region := s_offset_within_region sec; ps_size := s_size sec;
     ps_offset_within_address_space := s_offset_within_address_space sec; ps_readonly := s_readonly sec |}.

(** A head, a run of whole pages and a tail: the loop runs at most twice. *)
Definition mem_add (d : AddressSpaceDispatch) (section : MemoryRegionSection) : outcome AddressSpaceDispatch :=
  let now := of_section section in
  if negb (SUBPAGE_IDX (ps_offset_within_address_space now) =? 0) then
    let left := u64 (TARGET_PAGE_ALIGN (ps_offset_within_address_space now) - ps_offset_within_address_space now) in
    let now := resize (Z.min left (ps_size now)) now in
    d ← register_subpage d now; mem_add_loop 3 d (of_section section) (ps_size now)
  else mem_add_loop 3 d (of_section section) 0.

(** ** The listener *)
Definition dummy_section (map : PhysPageMap) (mr : PhysMr) : outcome (Z * PhysPageMap) :=
  phys_section_add map {| ps_mr := mr; ps_offset_within_region := 0; ps_size := 2 ^ 64;
                          ps_offset_within_address_space := 0; ps_readonly := false |}.

Definition mem_begin : outcome AddressSpaceDispatch :=
  let map := {| pm_sections := []; pm_nodes := []; pm_nodes_alloc := 0 |} in
  '(n, map) ← dummy_section map io_mem_unassigned;
  _ ← c_assert (n =? PHYS_SECTION_UNASSIGNED);
  '(n, map) ← dummy_section map io_mem_notdirty;
  _ ← c_assert (n =? PHYS_SECTION_NOTDIRTY);
  '(n, map) ← dummy_section map io_mem_rom;
  _ ← c_assert (n =? PHYS_SECTION_ROM);
  '(n, map) ← dummy_section map io_mem_watch;
  _ ← c_assert (n =? PHYS_SECTION_WATCH);
  Ok {| d_phys_map := {| pe_skip := 1; pe_ptr := PHYS_MAP_NODE_NIL |}; d_map := map; d_subpages := [] |}.

(** [as->dispatch] and [as->next_dispatch]. *)
Record ASDispatch := {
  as_dispatch : option AddressSpaceDispatch;
  as_next_dispatch : option AddressSpaceDispatch
}.

(** The new state and the regions whose references were dropped. *)
Definition mem_commit (a : ASDispatch) : outcome (ASDispatch * list PhysMr) :=
  match as_next_dispatch a with
  | None => Abort
  | Some next =>
      next ← phys_page_compact_all next;
      Ok ({| as_dispatch := Some next; as_next_dispatch := Some next |},
          match as_dispatch a with
          | Some cur => phys_sections_free (d_map cur)
          | None => []
          end)
  end.

(** The callbacks of [dispatch_listener]. *)
Definition dispatch_callback (a : ASDispatch) (e : event) : outcome ASDispatch :=
  match e with
  | EvGlobal cb_begin =>
      d ← mem_begin;
      Ok {| as_dispatch := as_dispatch a; as_next_dispatch := Some d |}
  | EvSection cb_region_add section | EvSection cb_region_nop section =>
      match as_next_dispatch a with
      | None => Abort
      | Some d =>
          d ← mem_add d section;
          Ok {| as_dispatch := as_dispatch a; as_next_dispatch := Some d |}
      end
  | EvGlobal cb_commit => '(a, _) ← mem_commit a; Ok a
  | _ => Ok a
  end.

Definition dispatch_has (cb : callback) : bool :=
  match cb with
  | cb_begin | cb_commit | cb_region_add | cb_region_nop => true
  | _ => false
  end.

(** [as->dispatch_listener], with the identity [id]. *)
Definition dispatch_listener (id as_ : Z) : MemoryListener :=
  {| ml_id := id; ml_has := dispatch_has; ml_priority := 0; ml_address_space_filter := Some as_ |}.

Definition address_space_init_dispatch (id as_ : Z) : op :=
  memory_listener_register (dispatch_listener id as_) (Some as_).

(** The state and the regions whose references were dropped: the sections of
    the table are not freed. *)
Definition address_space_destroy_dispatch (id : Z) (a : ASDispatch) (s : MemState) : MemState * ASDispatch * list PhysMr :=
  (memory_listener_unregister id s, {| as_dispatch := None; as_next_dispatch := as_next_dispatch a |}, []).
