(* ===== verification/PhysTree.v ===== *)
(** * The page table as a tree (exec.c)

    The nodes of a PhysPageMap form a tree with an owner for every node.  The
    file describes the node array by such a tree, shows that
    [phys_page_set_level] maps exactly the pages it is asked to and allocates
    no more nodes than [phys_page_set] reserves, that the walk of
    [phys_page_find] reads the tree, and how compaction changes it. *)
From S2P Require Import Prelude Int128 MemRegion FlatView Topology RamList PhysMap.
Local Open Scope Z_scope.

Inductive tree :=
| TLeaf (s : Z)
| TNil
| TNode (sk k : Z) (ch : Z -> tree).

Definition slot (j : Z) : Prop := 0 <= j < P_L2_SIZE.

(** ** A tree in the node array *)
Definition leaf_entry (s : Z) : PhysPageEntry := {| pe_skip := 0; pe_ptr := s |}.
Definition nil_entry : PhysPageEntry := {| pe_skip := 1; pe_ptr := PHYS_MAP_NODE_NIL |}.

Fixpoint holds (nodes : list Node) (e : PhysPageEntry) (t : tree) : Prop :=
  match t with
  | TLeaf s => e = leaf_entry s
  | TNil => e = nil_entry
  | TNode sk k ch =>
      e = {| pe_skip := sk; pe_ptr := k |} /\ 0 <= k < PHYS_MAP_NODE_NIL /\
      exists node, nodes !! Z.to_nat k = Some node /\ length node = Z.to_nat P_L2_SIZE /\
      forall j, slot j -> exists e', node !! Z.to_nat j = Some e' /\ holds nodes e' (ch j)
  end.

Fixpoint owns (t : tree) (x : Z) : Prop :=
  match t with
  | TNode _ k ch => x = k \/ exists j, slot j /\ owns (ch j) x
  | _ => False
  end.

Fixpoint sep (t : tree) : Prop :=
  match t with
  | TNode _ k ch =>
      (forall j, slot j -> sep (ch j) /\ ~ owns (ch j) k) /\
      (forall i j x, slot i -> slot j -> i <> j -> owns (ch i) x -> ~ owns (ch j) x)
  | _ => True
  end.

(** A tree of height [n] before compaction: an entry above the last level
    that ends the walk holds an assigned section. *)
Fixpoint full (t : tree) (n : nat) : Prop :=
  match t with
  | TLeaf s => 0 <= s < TARGET_PAGE_SIZE /\ (n <> O -> s <> PHYS_SECTION_UNASSIGNED)
  | TNil => n <> O
  | TNode sk _ ch =>
      sk = 1 /\ match n with
                | O => False
                | S n => forall j, slot j -> full (ch j) n
                end
  end.

Definition width (n : nat) : Z := 2 ^ (9 * Z.of_nat n).

(** The section of page [p] in a tree of height [n]. *)
Fixpoint tlook (t : tree) (n : nat) (p : Z) : Z :=
  match t with
  | TLeaf s => s
  | TNil => PHYS_SECTION_UNASSIGNED
  | TNode _ _ ch =>
      match n with
      | O => PHYS_SECTION_UNASSIGNED
      | S n => tlook (ch (p / width n mod P_L2_SIZE)) n p
      end
  end.

Record good (nodes : list Node) (e : PhysPageEntry) (t : tree) (n : nat) : Prop := {
  good_holds : holds nodes e t;
  good_sep : sep t;
  good_full : full t n
}.

Lemma width_pos n : 0 < width n.
Proof. unfold width. lia. Qed.

Lemma width_S n : width (S n) = P_L2_SIZE * width n.
Proof.
  unfold width, P_L2_SIZE. replace (9 * Z.of_nat (S n)) with (9 + 9 * Z.of_nat n) by lia.
  rewrite Z.pow_add_r by lia. reflexivity.
Qed.

Lemma holds_owned nodes t : forall e x, holds nodes e t -> owns t x -> 0 <= x < Z.of_nat (length nodes).
Proof.
  induction t as [| |sk k ch IH]; intros e x Hh Ho; cbn in *; try done.
  destruct Hh as (_ & Hk & node & Hn & _ & Hch). destruct Ho as [->|(j & Hj & Ho)].
  - apply lookup_lt_Some in Hn. lia.
  - destruct (Hch j Hj) as (e' & _ & He'). eauto.
Qed.

Lemma holds_frame nodes nodes' t : forall e,
  holds nodes e t -> (forall x, owns t x -> nodes' !! Z.to_nat x = nodes !! Z.to_nat x) -> holds nodes' e t.
Proof.
  induction t as [| |sk k ch IH]; intros e Hh Hf; cbn in *; try done.
  destruct Hh as (He & Hk & node & Hn & Hlen & Hch). split; [done|]. split; [done|].
  exists node. rewrite Hf by auto. split_and!; try done.
  intros j Hj. destruct (Hch j Hj) as (e' & He' & Hc). exists e'. split; [done|].
  apply IH; [done|]. intros x Hx. apply Hf. eauto.
Qed.

Lemma entry_at_ok nodes sk k ch e j :
  holds nodes e (TNode sk k ch) -> slot j -> exists e', entry_at nodes k j = Ok e' /\ holds nodes e' (ch j).
Proof.
  intros (_ & _ & node & Hn & _ & Hch) Hj. destruct (Hch j Hj) as (e' & He' & Hc).
  exists e'. unfold entry_at. rewrite Hn. cbn. by rewrite He'.
Qed.

(** ** Replacing a child *)
Definition upd_child (ch : Z -> tree) (j : Z) (c : tree) : Z -> tree := fun x => if x =? j then c else ch x.

Lemma put_entry_other nodes k j e x :
  0 <= k -> 0 <= x -> x <> k -> put_entry nodes k j e !! Z.to_nat x = nodes !! Z.to_nat x.
Proof. intros. unfold put_entry. apply list_lookup_alter_ne. lia. Qed.

Lemma put_entry_length nodes k j e : length (put_entry nodes k j e) = length nodes.
Proof. apply length_alter. Qed.

(** The effect of work below child [j] of a node: [nodes1] is the array after
    it, [c] the child it leaves. *)
Record below (nodes nodes1 : list Node) (t c : tree) : Prop := {
  below_owns : forall x, owns c x -> owns t x \/ Z.of_nat (length nodes) <= x;
  below_keeps : forall x, 0 <= x < Z.of_nat (length nodes) -> ~ owns t x ->
    nodes1 !! Z.to_nat x = nodes !! Z.to_nat x;
  below_length : (length nodes <= length nodes1)%nat
}.

Lemma below_trans nodes nodes1 nodes2 t t1 t2 :
  below nodes nodes1 t t1 -> below nodes1 nodes2 t1 t2 -> below nodes nodes2 t t2.
Proof.
  intros [B1 B2 B3] [D1 D2 D3]. split; [| |lia].
  - intros x Hx. destruct (D1 x Hx) as [Hx'|]; [|right; lia]. destruct (B1 x Hx'); auto.
  - intros x Hx Ho. rewrite D2; [by apply B2|lia|]. intros Hx'. destruct (B1 x Hx'); [done|lia].
Qed.

Section Child.
Context (nodes nodes1 : list Node) (sk k j : Z) (ch : Z -> tree) (e e1 : PhysPageEntry) (c : tree).
Context (Hh : holds nodes e (TNode sk k ch)) (Hs : sep (TNode sk k ch)) (Hj : slot j).
Context (Hc : holds nodes1 e1 c) (Hsc : sep c) (Hb : below nodes nodes1 (ch j) c).

Lemma child_owner : 0 <= k < Z.of_nat (length nodes).
Proof. eapply (holds_owned _ (TNode sk k ch)); [done|]. by left. Qed.

Lemma child_not_owner : ~ owns (ch j) k.
Proof. destruct Hs as [H _]. apply H, Hj. Qed.

Lemma new_child_not_owner : ~ owns c k.
Proof. intros Ho. destruct (below_owns _ _ _ _ Hb k Ho); [by apply child_not_owner|]. pose proof child_owner. lia. Qed.

Lemma sibling_kept i e' : slot i -> i <> j -> holds nodes e' (ch i) -> holds (put_entry nodes1 k j e1) e' (ch i).
Proof.
  intros Hi Hne He'. eapply holds_frame; [done|]. intros x Hx.
  pose proof (holds_owned _ _ _ _ He' Hx). destruct Hs as [H1 H2]. pose proof child_owner.
  rewrite put_entry_other; [|lia|lia|intros ->; by apply (H1 i Hi)].
  apply (below_keeps _ _ _ _ Hb); [lia|]. by eapply H2.
Qed.

Lemma put_child_holds : holds (put_entry nodes1 k j e1) e (TNode sk k (upd_child ch j c)).
Proof.
  destruct Hh as (He & Hk & node & Hn & Hlen & Hch). split; [done|]. split; [done|].
  pose proof child_owner as Hkl.
  assert (nodes1 !! Z.to_nat k = Some node) as Hn1.
  { rewrite (below_keeps _ _ _ _ Hb) by (try apply child_not_owner; lia). done. }
  exists (<[Z.to_nat j := e1]> node). split_and!.
  - unfold put_entry. by rewrite list_lookup_alter_eq, Hn1.
  - by rewrite length_insert.
  - intros i Hi. unfold upd_child. destruct (Z.eqb_spec i j) as [->|Hne].
    + exists e1. split; [apply list_lookup_insert_eq; unfold slot, P_L2_SIZE in *; lia|].
      eapply holds_frame; [done|]. intros x Hx. pose proof (holds_owned _ _ _ _ Hc Hx).
      apply put_entry_other; [lia|lia|]. intros ->. by apply new_child_not_owner.
    + destruct (Hch i Hi) as (e' & He' & Hci). exists e'.
      rewrite list_lookup_insert_ne by (unfold slot in *; lia). split; [done|]. by apply sibling_kept.
Qed.

Lemma put_child_sep : sep (TNode sk k (upd_child ch j c)).
Proof.
  destruct Hs as [H1 H2].
  assert (forall i x, slot i -> i <> j -> owns (ch i) x -> ~ owns c x) as Hd.
  { intros i x Hi Hne Ho Hx. destruct (below_owns _ _ _ _ Hb x Hx) as [|Hge]; [by eapply (H2 i j)|].
    destruct Hh as (_ & _ & node & _ & _ & Hch). destruct (Hch i Hi) as (e' & _ & He').
    pose proof (holds_owned _ _ _ _ He' Ho). lia. }
  cbn. unfold upd_child. split.
  - intros i Hi. destruct (Z.eqb_spec i j) as [->|Hne]; [|by apply H1]. split; [done|apply new_child_not_owner].
  - intros i i' x Hi Hi' Hne Ho Ho'. destruct (Z.eqb_spec i j) as [->|]; destruct (Z.eqb_spec i' j) as [->|]; try done.
    + by eapply (Hd i').
    + by eapply (Hd i).
    + by eapply (H2 i i').
Qed.

Lemma put_child_below : below nodes (put_entry nodes1 k j e1) (TNode sk k ch) (TNode sk k (upd_child ch j c)).
Proof.
  split.
  - cbn. unfold upd_child. intros x [->|(i & Hi & Ho)]; [by left; left|].
    destruct (Z.eqb_spec i j) as [->|]; [|left; right; eauto].
    destruct (below_owns _ _ _ _ Hb x Ho); [left; right; eauto|by right].
  - intros x Hx Ho. cbn in Ho. pose proof child_owner.
    rewrite put_entry_other; [|lia|lia|intros ->; auto].
    apply (below_keeps _ _ _ _ Hb); [lia|]. intros Hox. apply Ho. eauto.
  - rewrite put_entry_length. apply Hb.
Qed.
End Child.

(** ** Shifts and masks *)
Lemma step_width l : Z.shiftl 1 (Z.of_nat l * P_L2_BITS) = width l.
Proof. unfold width, P_L2_BITS. rewrite Z.shiftl_mul_pow2 by lia. replace (Z.of_nat l * 9) with (9 * Z.of_nat l); lia. Qed.

Lemma step_mask l index : Z.land index (width l - 1) = index mod width l.
Proof.
  unfold width. replace (2 ^ (9 * Z.of_nat l) - 1) with (Z.ones (9 * Z.of_nat l)) by (rewrite Z.ones_equiv; lia).
  apply Z.land_ones. lia.
Qed.

Lemma slot_of l index :
  Z.land (Z.shiftr index (Z.of_nat l * P_L2_BITS)) (P_L2_SIZE - 1) = index / width l mod P_L2_SIZE.
Proof.
  change (P_L2_SIZE - 1) with (Z.ones 9). rewrite Z.land_ones, Z.shiftr_div_pow2 by (unfold P_L2_BITS; lia).
  unfold width, P_L2_BITS. by replace (Z.of_nat l * 9) with (9 * Z.of_nat l) by lia.
Qed.

Lemma slot_mod a : slot (a mod P_L2_SIZE).
Proof. apply Z.mod_pos_bound. done. Qed.

(** A page of the block at [base]: the slot of its child. *)
Lemma slot_in_block l base p :
  base mod width (S l) = 0 -> base <= p < base + width (S l) ->
  p / width l mod P_L2_SIZE = (p - base) / width l.
Proof.
  intros Hb Hp. rewrite width_S in *. pose proof (width_pos l) as Hw. unfold P_L2_SIZE in *.
  apply Z.mod_divide in Hb as [q ->]; [|lia].
  replace p with (p - q * (512 * width l) + (q * 512) * width l) at 1 by lia.
  rewrite Z.div_add, Z.mod_add by lia. apply Z.mod_small.
  split; [apply Z.div_pos; lia|apply Z.div_lt_upper_bound; lia].
Qed.

(** The child's block. *)
Lemma child_block l base j index :
  base mod width (S l) = 0 -> base + j * width l <= index < base + (j + 1) * width l ->
  index - index mod width l = base + j * width l.
Proof.
  intros Hb Hi. rewrite width_S in *. pose proof (width_pos l) as Hw. unfold P_L2_SIZE in *.
  apply Z.mod_divide in Hb as [q ->]; [|lia].
  replace index with (index - (q * (512 * width l) + j * width l) + (q * 512 + j) * width l) at 2 by lia.
  rewrite Z.mod_add by lia. rewrite Z.mod_small by lia. lia.
Qed.

(** ** Setting pages *)

(** What setting the pages [index, index') below an entry of height [n]
    does. *)
Record set_result (n : nat) (leaf index index' cost : Z) (map map' : PhysPageMap) (e' : PhysPageEntry) (t t' : tree)
    (base : Z) : Prop := {
  set_good : good (pm_nodes map') e' t' n;
  set_sections : pm_sections map' = pm_sections map;
  set_alloc : pm_nodes_alloc map' = pm_nodes_alloc map;
  set_cost : Z.of_nat (length (pm_nodes map')) <= Z.of_nat (length (pm_nodes map)) + cost;
  set_below : below (pm_nodes map) (pm_nodes map') t t';
  set_pages : forall p, base <= p < base + width n ->
    tlook t' n p = if (index <=? p) && (p <? index') then leaf else tlook t n p
}.

(** The number of nodes a call of level [l] may allocate: one, and one more
    for each level below at an end that is not aligned. *)
Definition set_nodes (l : nat) (index nb : Z) : Z :=
  1 + (if index mod width (S l) =? 0 then 0 else Z.of_nat l)
    + (if index mod width (S l) + nb <? width (S l) then Z.of_nat l else 0).

Definition room (map : PhysPageMap) (n : Z) : Prop :=
  Z.of_nat (length (pm_nodes map)) + n <= pm_nodes_alloc map /\
  Z.of_nat (length (pm_nodes map)) + n < PHYS_MAP_NODE_NIL.

Definition set_level_spec (l : nat) (leaf : Z)
    (f : PhysPageMap -> PhysPageEntry -> Z -> Z -> outcome (PhysPageMap * PhysPageEntry * Z * Z)) : Prop :=
  forall map e t index nb,
    let base := index - index mod width (S l) in
    good (pm_nodes map) e t (S l) -> 0 <= index -> 0 < nb -> room map (set_nodes l index nb) ->
    (forall p, index <= p < index + nb -> p < base + width (S l) -> tlook t (S l) p = PHYS_SECTION_UNASSIGNED) ->
    exists map' e' t' index',
      f map e index nb = Ok (map', e', index', nb - (index' - index)) /\
      index' = Z.min (index + nb) (base + width (S l)) /\
      set_result (S l) leaf index index' (set_nodes l index nb) map map' e' t t' base.

(** The nodes the loop may allocate from [index] on, in the block at
    [base]. *)
Definition loop_nodes (l : nat) (base index nb : Z) : Z :=
  if nb =? 0 then 0
  else (if index mod width l =? 0 then 0 else Z.of_nat l)
       + (if index + nb <? base + width (S l) then Z.of_nat l else 0).

Lemma loop_nodes_pos l base index nb : 0 <= loop_nodes l base index nb.
Proof. unfold loop_nodes. repeat case_match; lia. Qed.

Lemma room_le map a b : room map a -> b <= a -> room map b.
Proof. unfold room. lia. Qed.

Lemma upd_child_look l base ch j c sk k p :
  base mod width (S l) = 0 -> base <= p < base + width (S l) ->
  tlook (TNode sk k (upd_child ch j c)) (S l) p =
  if (p - base) / width l =? j then tlook c l p else tlook (TNode sk k ch) (S l) p.
Proof.
  intros Hb Hp. cbn [tlook]. rewrite (slot_in_block l base p) by done. unfold upd_child.
  by destruct (Z.eqb_spec ((p - base) / width l) j).
Qed.

(** The pages of slot [j]. *)
Lemma slot_pages l base p j : (p - base) / width l = j <-> base + j * width l <= p < base + (j + 1) * width l.
Proof.
  pose proof (width_pos l). pose proof (Z.div_mod (p - base) (width l) ltac:(lia)).
  pose proof (Z.mod_pos_bound (p - base) (width l) ltac:(lia)). split; [intros <-; lia|].
  intros Hp. symmetry. apply (Z.div_unique _ _ _ (p - base - j * width l)); lia.
Qed.

(** A call on slot [j] and the rest of the loop stay within the bound of the
    loop. *)
Lemma step_nodes l base j index nb :
  let i1 := Z.min (index + nb) (base + (j + 1) * width (S l)) in
  base mod width (S (S l)) = 0 -> 0 < nb -> base + j * width (S l) <= index < base + (j + 1) * width (S l) -> j <= 511 ->
  index mod width (S l) <> 0 \/ nb < width (S l) ->
  set_nodes l index nb + loop_nodes (S l) base i1 (nb - (i1 - index)) <= loop_nodes (S l) base index nb.
Proof.
  intros i1 Hbase Hnb Hi Hj Hpart. pose proof (child_block (S l) base j index Hbase Hi) as Hblk.
  pose proof (width_pos (S l)) as Hw. assert (width (S (S l)) = 512 * width (S l)) as HwS by apply width_S.
  assert (0 <= index mod width (S l) < width (S l)) by (apply Z.mod_pos_bound; lia).
  assert (Hend : base + (j + 1) * width (S l) <= base + width (S (S l))) by nia.
  unfold loop_nodes, set_nodes. destruct (Z.le_gt_cases (index + nb) (base + (j + 1) * width (S l))).
  - unfold i1. rewrite Z.min_l by lia. replace (nb - (index + nb - index)) with 0 by lia. cbn [Z.eqb].
    destruct (Z.eqb_spec nb 0), (Z.eqb_spec (index mod width (S l)) 0),
      (Z.ltb_spec (index mod width (S l) + nb) (width (S l))), (Z.ltb_spec (index + nb) (base + width (S (S l)))); lia.
  - unfold i1. rewrite Z.min_r by lia.
    assert ((base + (j + 1) * width (S l)) mod width (S l) = 0) as ->.
    { rewrite Z.mod_add by lia. rewrite HwS in Hbase. apply Z.mod_divide in Hbase as [q ->]; [|lia].
      replace (q * (512 * width (S l))) with (q * 512 * width (S l)) by lia. apply Z.mod_mul. lia. }
    replace (base + (j + 1) * width (S l) + (nb - (base + (j + 1) * width (S l) - index))) with (index + nb) by lia.
    destruct (Z.eqb_spec nb 0), (Z.eqb_spec (index mod width (S l)) 0),
      (Z.ltb_spec (index mod width (S l) + nb) (width (S l))), (Z.ltb_spec (index + nb) (base + width (S (S l))));
      cbn [Z.eqb]; case_match; lia.
Qed.

Lemma set_result_trans leaf base index index1 index2 cost1 cost2 map map1 map2 e1 e2 t t1 t2 n :
  index <= index1 <= index2 ->
  set_result n leaf index index1 cost1 map map1 e1 t t1 base ->
  set_result n leaf index1 index2 cost2 map1 map2 e2 t1 t2 base ->
  set_result n leaf index index2 (cost1 + cost2) map map2 e2 t t2 base.
Proof.
  intros Hi [G1 S1 A1 C1 B1 P1] [G2 S2 A2 C2 B2 P2]. split; try done; try lia; try congruence.
  - by eapply below_trans.
  - intros p Hp. rewrite P2, P1 by done. repeat case_match; try done; lia.
Qed.

Lemma set_result_refl leaf base index map e t n : good (pm_nodes map) e t n -> set_result n leaf index index 0 map map e t t base.
Proof.
  intros Hg. split; try done; try lia; [split; auto|].
  intros p Hp. by replace ((index <=? p) && (p <? index)) with false by lia.
Qed.

Lemma set_result_cost leaf base index index1 c c' map map1 e t t1 n :
  c <= c' -> set_result n leaf index index1 c map map1 e t t1 base -> set_result n leaf index index1 c' map map1 e t t1 base.
Proof. intros Hc [G S A C B P]. split; try done. lia. Qed.

Section Loop.
Context (l : nat) (leaf k base : Z) (rec : PhysPageMap -> PhysPageEntry -> Z -> Z -> outcome (PhysPageMap * PhysPageEntry * Z * Z)).
Context (Hleaf : 0 < leaf < TARGET_PAGE_SIZE) (Hbase : base mod width (S l) = 0) (Hb0 : 0 <= base).
Context (Hrec : match l with O => True | S l' => set_level_spec l' leaf rec end).

Definition here (ch : Z -> tree) : tree := TNode 1 k ch.
Definition here_entry : PhysPageEntry := {| pe_skip := 1; pe_ptr := k |}.

(** One child replaced by a call or by a leaf: [index] to [index1]. *)
Lemma child_step map map1 ch j e1 c index index1 cost :
  good (pm_nodes map) here_entry (here ch) (S l) -> slot j ->
  base + j * width l <= index -> index1 <= base + (j + 1) * width l ->
  set_result l leaf index index1 cost map map1 e1 (ch j) c (base + j * width l) ->
  set_result (S l) leaf index index1 cost map (with_nodes (put_entry (pm_nodes map1) k j e1) map1) here_entry
    (here ch) (here (upd_child ch j c)) base.
Proof.
  intros [Hh Hs Hf] Hj Hi Hi1 [[Hh1 Hs1 Hf1] Hsec Hal Hco Hbe Hpg]. split; cbn [with_nodes pm_nodes pm_sections pm_nodes_alloc]; try done.
  - split; [by eapply put_child_holds|by eapply put_child_sep|].
    cbn in *. destruct Hf as [_ Hf]. split; [done|]. intros i Hi'. unfold upd_child.
    destruct (Z.eqb_spec i j) as [->|]; [done|by apply Hf].
  - by rewrite put_entry_length.
  - by eapply put_child_below.
  - intros p Hp. unfold here. rewrite (upd_child_look l base) by done.
    destruct (Z.eqb_spec ((p - base) / width l) j) as [E|E].
    + apply slot_pages in E. rewrite Hpg by lia. cbn [tlook].
      rewrite (slot_in_block l base p) by done. by replace ((p - base) / width l) with j by (symmetry; by apply slot_pages).
    + assert (~ (base + j * width l <= p < base + (j + 1) * width l)) by (intros ?; apply E; by apply slot_pages).
      by replace ((index <=? p) && (p <? index1)) with false by lia.
Qed.

Lemma leaf_step map ch j index :
  good (pm_nodes map) here_entry (here ch) (S l) -> slot j -> index = base + j * width l ->
  set_result l leaf index (index + width l) 0 map map (leaf_entry leaf) (ch j) (TLeaf leaf) (base + j * width l).
Proof.
  intros _ _ ->. split; try done; try lia.
  - split; cbn; try done. split; [lia|]. unfold PHYS_SECTION_UNASSIGNED. lia.
  - intros p Hp. cbn [tlook]. by replace ((_ <=? p) && (p <? _)) with true by lia.
Qed.
(** A call for the level below, on slot [j]. *)
Lemma rec_step map ch j index nb :
  good (pm_nodes map) here_entry (here ch) (S l) -> slot j -> 0 < nb ->
  base + j * width l <= index < base + (j + 1) * width l ->
  (index mod width l <> 0 \/ nb < width l) ->
  room map (loop_nodes l base index nb) ->
  (forall p, index <= p < index + nb -> p < base + width (S l) -> tlook (here ch) (S l) p = PHYS_SECTION_UNASSIGNED) ->
  exists e map1 e1 c index1 cost,
    entry_at (pm_nodes map) k j = Ok e /\
    rec map e index nb = Ok (map1, e1, index1, nb - (index1 - index)) /\
    index1 = Z.min (index + nb) (base + (j + 1) * width l) /\
    set_result l leaf index index1 cost map map1 e1 (ch j) c (base + j * width l) /\
    cost + loop_nodes l base index1 (nb - (index1 - index)) <= loop_nodes l base index nb.
Proof.
  intros [Hh Hs Hf] Hj Hnb Hi Hpart Hroom Hfree. pose proof (width_pos l) as Hw.
  pose proof (child_block l base j index Hbase Hi) as Hblk.
  destruct l as [|l'].
  { change (width 0) with 1 in *. rewrite Z.mod_1_r in Hpart. lia. }
  destruct (entry_at_ok _ _ _ _ _ j Hh Hj) as (e & He & Hhe).
  assert (width (S (S l')) = 512 * width (S l')) as HwS by apply width_S.
  assert (Hj' : j <= 511) by (unfold slot, P_L2_SIZE in Hj; lia).
  set (rem := index mod width (S l')) in *.
  assert (0 <= rem < width (S l')) by (apply Z.mod_pos_bound; lia).
  assert (0 <= j * width (S l')) by (apply Z.mul_nonneg_nonneg; unfold slot in Hj; lia).
  pose proof (step_nodes l' base j index nb Hbase Hnb Hi ltac:(lia) Hpart) as Hcost. cbv zeta in Hcost.
  destruct (Hrec map e (ch j) index nb) as (map1 & e1 & c & index1 & Hr & Hi1 & Hres).
  - split; [done|apply Hs, Hj|apply Hf, Hj].
  - lia.
  - done.
  - eapply room_le; [done|]. pose proof (loop_nodes_pos (S l') base
      (Z.min (index + nb) (base + (j + 1) * width (S l'))) (nb - (Z.min (index + nb) (base + (j + 1) * width (S l')) - index))). lia.
  - intros p Hp Hpb. fold rem in Hpb. rewrite Hblk in Hpb.
    assert (p < base + (j + 1) * width (S l') <= base + width (S (S l'))) by nia.
    specialize (Hfree p Hp ltac:(lia)). cbn [here tlook] in Hfree.
    rewrite (slot_in_block (S l') base p) in Hfree by (try done; lia).
    by replace ((p - base) / width (S l')) with j in Hfree by (symmetry; apply slot_pages; lia).
  - fold rem in Hi1, Hres. rewrite Hblk in Hi1, Hres.
    assert (index1 = Z.min (index + nb) (base + (j + 1) * width (S l'))) as Hi1' by lia. rewrite <- Hi1' in Hcost.
    exists e, map1, e1, c, index1, (set_nodes l' index nb). by split_and!.
Qed.
Lemma level_loop_ok : forall n j map ch index nb,
  n = Z.to_nat (P_L2_SIZE - j) -> 0 <= j <= P_L2_SIZE ->
  good (pm_nodes map) here_entry (here ch) (S l) -> 0 <= nb ->
  (nb <> 0 -> base + j * width l <= index < base + (j + 1) * width l) -> index <= base + width (S l) ->
  room map (loop_nodes l base index nb) ->
  (forall p, index <= p < index + nb -> p < base + width (S l) -> tlook (here ch) (S l) p = PHYS_SECTION_UNASSIGNED) ->
  exists map' ch' index',
    level_loop rec (width l) leaf k n j map index nb = Ok (map', index', nb - (index' - index)) /\
    index' = Z.min (index + nb) (base + width (S l)) /\
    set_result (S l) leaf index index' (loop_nodes l base index nb) map map' here_entry (here ch) (here ch') base.
Proof.
  pose proof (width_pos l) as Hw. pose proof (width_S l) as HwS. unfold P_L2_SIZE in HwS.
  induction n as [|n IH]; intros j map ch index nb Hn Hj Hg Hnb Hi Hib Hroom Hfree; cbn [level_loop].
  - unfold P_L2_SIZE in *. exists map, ch, index. assert (j = 512) by lia.
    split_and!; [do 2 f_equal; lia|nia|]. eapply set_result_cost; [apply loop_nodes_pos|by apply set_result_refl].
  - destruct (Z.eqb_spec nb 0) as [->|Hnz].
    { exists map, ch, index. split_and!; [do 2 f_equal; lia|lia|].
      eapply set_result_cost; [apply loop_nodes_pos|by apply set_result_refl]. }
    specialize (Hi Hnz). assert (Hsj : slot j) by (unfold slot, P_L2_SIZE in *; lia).
    assert (base + (j + 1) * width l <= base + width (S l)) as Hend by (unfold slot, P_L2_SIZE in *; nia).
    rewrite step_mask.
    (* one slot done: [index1] *)
    assert (forall map1 ch1 index1 cost, set_result (S l) leaf index index1 cost map map1 here_entry (here ch) (here ch1) base ->
              index1 = Z.min (index + nb) (base + (j + 1) * width l) ->
              cost + loop_nodes l base index1 (nb - (index1 - index)) <= loop_nodes l base index nb ->
              exists map' ch' index',
                level_loop rec (width l) leaf k n (j + 1) map1 index1 (nb - (index1 - index)) =
                  Ok (map', index', nb - (index' - index)) /\
                index' = Z.min (index + nb) (base + width (S l)) /\
                set_result (S l) leaf index index' (loop_nodes l base index nb) map map' here_entry (here ch) (here ch') base) as Hnext.
    { intros map1 ch1 index1 cost Hres Hi1 Hcost. pose proof (set_alloc _ _ _ _ _ _ _ _ _ _ _ Hres) as Ha.
      pose proof (set_cost _ _ _ _ _ _ _ _ _ _ _ Hres) as Hc.
      destruct (IH (j + 1) map1 ch1 index1 (nb - (index1 - index))) as (map' & ch' & index' & E & Ei & Hr);
        [unfold slot in *; lia|unfold slot in *; lia|apply Hres|lia| |lia| | |].
      - intros Hnz1. nia.
      - unfold room in *. rewrite Ha. lia.
      - intros p Hp Hpb. rewrite (set_pages _ _ _ _ _ _ _ _ _ _ _ Hres) by lia.
        replace ((index <=? p) && (p <? index1)) with false by lia. apply Hfree; lia.
      - exists map', ch', index'. rewrite E. split_and!; [do 2 f_equal; lia|lia|].
        eapply set_result_cost; [exact Hcost|]. eapply set_result_trans; [|exact Hres|exact Hr]. lia. }
    destruct (Z.eqb_spec (index mod width l) 0) as [Hal|Hal]; cbn [andb];
      [destruct (Z.leb_spec (width l) nb) as [Hle|Hle]|].
    + pose proof (child_block l base j index Hbase Hi) as Hb. assert (index = base + j * width l) as Ej by lia.
      destruct (entry_at_ok _ _ _ _ _ j (good_holds _ _ _ _ Hg) Hsj) as (e & He & _). rewrite He. cbn [mbind outcome_bind].
      pose proof (leaf_step map ch j index Hg Hsj Ej) as Hl.
      eapply child_step in Hl; [|done|done|lia|lia].
      destruct (Hnext _ _ _ _ Hl) as (map' & ch' & index' & E & Ei & Hr); [nia| |].
      * replace (index + width l - index) with (width l) by lia. unfold loop_nodes.
        rewrite Hal. replace ((index + width l) mod width l) with 0.
        2:{ replace (index + width l) with (index + 1 * width l) by lia. by rewrite Z.mod_add by lia. }
        replace (index + width l + (nb - width l)) with (index + nb) by lia. repeat case_match; lia.
      * exists map', ch', index'. split_and!; try done. by replace (nb - (index + width l - index)) with (nb - width l) in E by lia.
    + destruct (rec_step map ch j index nb) as (e & map1 & e1 & c & index1 & cost & He & Hr & Hi1 & Hres & Hc); try done; [lia|by right|].
      rewrite He. cbn [mbind outcome_bind]. rewrite Hr. cbn [mbind outcome_bind].
      eapply child_step in Hres; [|done|done|lia|lia]. by apply (Hnext _ _ _ _ Hres).
    + destruct (rec_step map ch j index nb) as (e & map1 & e1 & c & index1 & cost & He & Hr & Hi1 & Hres & Hc); try done; [lia|by left|].
      rewrite He. cbn [mbind outcome_bind]. rewrite Hr. cbn [mbind outcome_bind].
      eapply child_step in Hres; [|done|done|lia|lia]. by apply (Hnext _ _ _ _ Hres).
Qed.
End Loop.

(** ** A level *)
Lemma node_of_holds nodes e0 t0 sk :
  holds (nodes ++ [node_of e0]) e0 t0 -> Z.of_nat (length nodes) < PHYS_MAP_NODE_NIL ->
  holds (nodes ++ [node_of e0]) {| pe_skip := sk; pe_ptr := Z.of_nat (length nodes) |}
    (TNode sk (Z.of_nat (length nodes)) (fun _ => t0)).
Proof.
  intros H Hlen. split; [done|]. split; [lia|]. exists (node_of e0). split_and!.
  - rewrite Nat2Z.id. by apply list_lookup_middle.
  - apply length_replicate.
  - intros j Hj. exists e0. split; [|done]. apply lookup_replicate_2. unfold slot in Hj. lia.
Qed.

(** The entry at the start of a call: a node, the one it has or a new one. *)
Lemma open_level l map e t leaf index nb base :
  good (pm_nodes map) e t (S l) -> room map 1 -> 0 < nb ->
  tlook t (S l) index = PHYS_SECTION_UNASSIGNED ->
  exists map1 k ch c,
    (if negb (pe_skip e =? 0) && (pe_ptr e =? PHYS_MAP_NODE_NIL) then
       '(k, map) ← phys_map_node_alloc map
         (node_of (match l with
                   | O => {| pe_skip := 0; pe_ptr := PHYS_SECTION_UNASSIGNED |}
                   | S _ => {| pe_skip := 1; pe_ptr := PHYS_MAP_NODE_NIL |}
                   end));
       Ok (map, {| pe_skip := pe_skip e; pe_ptr := k |})
     else Ok (map, e)) = Ok (map1, here_entry k) /\ 0 <= c <= 1 /\
    set_result (S l) leaf index index c map map1 (here_entry k) t (here k ch) base /\
    forall p, tlook (here k ch) (S l) p = tlook t (S l) p.
Proof.
  intros Hg [Hr1 Hr2] Hnb Hu. pose proof Hg as [Hh Hs Hf]. destruct t as [s| |sk k ch]; cbn in Hu.
  - destruct Hf as [_ Hf]. by destruct (Hf ltac:(done) Hu).
  - cbn in Hh. subst e. cbn [nil_entry pe_skip pe_ptr Z.eqb negb andb]. rewrite Z.eqb_refl.
    unfold phys_map_node_alloc, c_assert.
    replace (Z.of_nat (length (pm_nodes map)) =? PHYS_MAP_NODE_NIL) with false by lia.
    replace (Z.of_nat (length (pm_nodes map)) =? pm_nodes_alloc map) with false by lia.
    set (t0 := match l with O => TLeaf PHYS_SECTION_UNASSIGNED | S _ => TNil end).
    set (e0 := match l with O => leaf_entry PHYS_SECTION_UNASSIGNED | S _ => nil_entry end).
    assert (forall nodes, holds nodes e0 t0) as H0 by (intros; by destruct l).
    assert (forall x, ~ owns t0 x) as H1 by (intros x; destruct l; cbn; tauto).
    exists (with_nodes (pm_nodes map ++ [node_of e0]) map), (Z.of_nat (length (pm_nodes map))), (fun _ => t0), 1. split; [cbn [negb mbind outcome_bind]; by destruct l|]. split; [done|].
    assert (forall p, tlook (here (Z.of_nat (length (pm_nodes map))) (fun _ => t0)) (S l) p = 0) as Hl.
    { intros p. cbn [here tlook]. by destruct l. }
    split; [|done].
    split; cbn [with_nodes pm_nodes pm_sections pm_nodes_alloc]; try done.
    + split.
      * apply node_of_holds; [apply H0|lia].
      * cbn. split; [intros j Hj; split; [by destruct l|apply H1]|]. intros i j x _ _ _ Hx. by apply H1 in Hx.
      * cbn. split; [done|]. intros j Hj. destruct l; cbn; [|done]. split; [by vm_compute|by intros []].
    + rewrite length_app. cbn. lia.
    + split.
      * cbn. intros x [->|(j & _ & Hx)]; [right; lia|by apply H1 in Hx].
      * intros x Hx _. apply lookup_app_l. lia.
      * rewrite length_app. lia.
    + intros p Hp. rewrite Hl. by replace ((index <=? p) && (p <? index)) with false by lia.
  - pose proof Hh as (-> & Hk & _). destruct Hf as [-> Hf]. cbn [pe_skip pe_ptr].
    replace (k =? PHYS_MAP_NODE_NIL) with false by lia. rewrite andb_false_r.
    exists map, k, ch, 0. split; [done|]. split; [done|]. split; [|done]. by apply set_result_refl.
Qed.

Lemma set_level_unfold l leaf map lp index nb :
  phys_page_set_level l leaf map lp index nb =
  ('(map, lp) ← (if negb (pe_skip lp =? 0) && (pe_ptr lp =? PHYS_MAP_NODE_NIL) then
                   '(k, map) ← phys_map_node_alloc map
                     (node_of (match l with
                               | O => {| pe_skip := 0; pe_ptr := PHYS_SECTION_UNASSIGNED |}
                               | S _ => {| pe_skip := 1; pe_ptr := PHYS_MAP_NODE_NIL |}
                               end));
                   Ok (map, {| pe_skip := pe_skip lp; pe_ptr := k |})
                 else Ok (map, lp));
   let j := index / width l mod P_L2_SIZE in
   '(map, index, nb) ← level_loop
     (match l with O => fun _ _ _ _ => Abort | S l => phys_page_set_level l leaf end)
     (width l) leaf (pe_ptr lp) (Z.to_nat (P_L2_SIZE - j)) j map index nb;
   Ok (map, lp, index, nb)).
Proof. rewrite <- slot_of, <- step_width. by destruct l. Qed.

Lemma set_level_step leaf l :
  0 < leaf < TARGET_PAGE_SIZE ->
  match l with O => True | S l' => set_level_spec l' leaf (phys_page_set_level l' leaf) end ->
  set_level_spec l leaf (phys_page_set_level l leaf).
Proof.
  intros Hleaf Hrec map e t index nb base Hg Hi Hnb Hroom Hfree.
  pose proof (width_pos l) as Hw. pose proof (width_S l) as HwS. unfold P_L2_SIZE in HwS.
  pose proof (Z.mod_pos_bound index (width (S l)) ltac:(lia)) as Hm.
  assert (base mod width (S l) = 0) as Hbase.
  { unfold base. rewrite Zminus_mod_idemp_r, Z.sub_diag. apply Z.mod_0_l. lia. }
  assert (0 <= base) as Hb0 by (unfold base; pose proof (Z.mod_le index (width (S l))); lia).
  assert (base <= index < base + width (S l)) as Hin by lia.
  set (j := index / width l mod P_L2_SIZE).
  assert (base + j * width l <= index < base + (j + 1) * width l) as Hj.
  { apply slot_pages. symmetry. by apply slot_in_block. }
  pose proof (slot_mod (index / width l) : slot j) as Hsj. unfold slot, P_L2_SIZE in Hsj.
  assert (1 + loop_nodes l base index nb <= set_nodes l index nb) as Hcost.
  { unfold loop_nodes, set_nodes. replace (index mod width (S l) + nb <? width (S l)) with (index + nb <? base + width (S l)).
    2:{ destruct (Z.ltb_spec (index + nb) (base + width (S l))), (Z.ltb_spec (index mod width (S l) + nb) (width (S l))); lia. }
    destruct (Z.eqb_spec (index mod width (S l)) 0) as [E|E].
    - rewrite HwS in Hbase. apply Z.mod_divide in Hbase as [q Hq]; [|lia].
      assert (index mod width l = 0) as ->; [|repeat case_match; cbn in *; lia].
      replace index with (q * 512 * width l) by lia. apply Z.mod_mul. lia.
    - repeat case_match; lia. }
  pose proof (loop_nodes_pos l base index nb).
  destruct (open_level l map e t leaf index nb base) as (map1 & k & ch & c & E & Hc & Hres & Hl); [done|eapply room_le; [done|lia]|done| |].
  { apply Hfree; lia. }
  pose proof (set_alloc _ _ _ _ _ _ _ _ _ _ _ Hres) as Ha. pose proof (set_cost _ _ _ _ _ _ _ _ _ _ _ Hres) as Hcs.
  set (rec := match l with O => fun _ _ _ _ => Abort | S l => phys_page_set_level l leaf end).
  destruct (level_loop_ok l leaf k base rec Hleaf Hbase Hb0 ltac:(by destruct l) (Z.to_nat (P_L2_SIZE - j)) j map1 ch index nb)
    as (map' & ch' & index' & El & Ei & Hr); try done; try lia; [unfold P_L2_SIZE; lia|apply Hres| | |].
  - unfold room in *. rewrite Ha. lia.
  - intros p Hp Hpb. rewrite Hl. apply Hfree; lia.
  - exists map', (here_entry k), (here k ch'), index'. split_and!.
    + rewrite set_level_unfold, E. cbn [mbind outcome_bind here_entry pe_ptr]. cbv zeta.
      fold j rec. by rewrite El.
    + done.
    + apply (set_result_cost _ _ _ _ (c + loop_nodes l base index nb)); [lia|].
      eapply set_result_trans; [|exact Hres|exact Hr]. lia.
Qed.

Lemma set_level_ok leaf : 0 < leaf < TARGET_PAGE_SIZE -> forall l, set_level_spec l leaf (phys_page_set_level l leaf).
Proof. intros Hleaf. induction l as [|l IH]; by apply set_level_step. Qed.

(** ** The walk *)

(** The walk of an entry with [i] levels below it, whose nodes may skip
    levels. *)
Fixpoint twalk (t : tree) (i : Z) (p : Z) : option Z :=
  match t with
  | TLeaf s => Some s
  | TNil => None
  | TNode sk _ ch => twalk (ch (p / 2 ^ (9 * (i - sk)) mod P_L2_SIZE)) (i - sk) p
  end.

Fixpoint fits (t : tree) (i : Z) : Prop :=
  match t with
  | TLeaf s => 0 <= s < TARGET_PAGE_SIZE
  | TNil => 1 <= i
  | TNode sk _ ch => 1 <= sk <= i /\ forall j, slot j -> fits (ch j) (i - sk)
  end.

Lemma full_fits t : forall n, full t n -> fits t (Z.of_nat n).
Proof.
  induction t as [s| |sk k ch IH]; intros n Hf; cbn in *; [apply Hf|lia|].
  destruct Hf as [-> Hf]. destruct n as [|n]; [done|]. split; [lia|]. intros j Hj.
  replace (Z.of_nat (S n) - 1) with (Z.of_nat n) by lia. auto.
Qed.

Lemma tlook_twalk t : forall n p, full t n -> tlook t n p = default PHYS_SECTION_UNASSIGNED (twalk t (Z.of_nat n) p).
Proof.
  induction t as [s| |sk k ch IH]; intros n p Hf; cbn [full tlook twalk] in *; try done.
  destruct Hf as [-> Hf]. destruct n as [|n]; [done|]. replace (Z.of_nat (S n) - 1) with (Z.of_nat n) by lia.
  apply IH, Hf, slot_mod.
Qed.

(** The walk sees the page number modulo the width of the tree. *)
Lemma twalk_mod t : forall n p q, full t n -> p mod width n = q mod width n ->
  twalk t (Z.of_nat n) p = twalk t (Z.of_nat n) q.
Proof.
  induction t as [s| |sk k ch IH]; intros n p q Hf Hpq; cbn [full twalk] in *; try done.
  destruct Hf as [-> Hf]. destruct n as [|n]; [done|]. replace (Z.of_nat (S n) - 1) with (Z.of_nat n) by lia.
  pose proof (width_pos n) as Hw. rewrite width_S, Z.mul_comm in Hpq. unfold P_L2_SIZE in Hpq.
  rewrite !Z.rem_mul_r in Hpq by lia. change (2 ^ (9 * Z.of_nat n)) with (width n). unfold P_L2_SIZE in *.
  pose proof (Z.mod_pos_bound p (width n) ltac:(lia)). pose proof (Z.mod_pos_bound q (width n) ltac:(lia)).
  assert (p mod width n = q mod width n) as E1.
  { apply (f_equal (fun x => x mod width n)) in Hpq. by rewrite !(Z.mul_comm (width n)), !Z.mod_add, !Z.mod_mod in Hpq by lia. }
  assert ((p / width n) mod 512 = (q / width n) mod 512) as E2 by (apply (Z.mul_reg_l _ _ (width n)); lia).
  rewrite E2. apply IH; [|done]. apply Hf, slot_mod.
Qed.

Lemma find_walk_ok nodes t : forall fuel e i p,
  holds nodes e t -> fits t i -> 0 <= i < Z.of_nat fuel -> find_walk fuel nodes p i e = Ok (twalk t i p).
Proof.
  induction t as [s| |sk k ch IH]; intros fuel e i p Hh Hf Hi; cbn [fits] in Hf;
    (destruct fuel as [|fuel]; [lia|cbn [find_walk twalk]]).
  - cbn in Hh. by subst e.
  - cbn in Hh. subst e. cbn [nil_entry pe_skip pe_ptr]. replace (_ || _) with false by lia. by rewrite Z.eqb_refl.
  - pose proof Hh as (-> & Hk & _). destruct Hf as [Hsk Hf]. cbn [pe_skip pe_ptr].
    replace (_ || _) with false by lia. replace (k =? PHYS_MAP_NODE_NIL) with false by lia.
    assert (Z.land (Z.shiftr p ((i - sk) * P_L2_BITS)) (P_L2_SIZE - 1) = p / 2 ^ (9 * (i - sk)) mod P_L2_SIZE) as ->.
    { pose proof (slot_of (Z.to_nat (i - sk)) p) as E. unfold width in E. by rewrite Z2Nat.id in E by lia. }
    destruct (entry_at_ok _ _ _ _ _ _ Hh (slot_mod (p / 2 ^ (9 * (i - sk))))) as (e' & -> & He').
    cbn [mbind outcome_bind]. apply IH; [done|apply Hf, slot_mod|lia].
Qed.

(** ** Compaction *)

(** [t'] is a compaction of [t]: a walk that ends in a section still does; a
    walk that ends in nothing may end in the section of another page. *)
Definition compacts (t t' : tree) (n : nat) : Prop :=
  forall p, 0 <= p ->
    match twalk t (Z.of_nat n) p with
    | Some s => twalk t' (Z.of_nat n) p = Some s
    | None => forall s, twalk t' (Z.of_nat n) p = Some s -> exists q, 0 <= q < width n /\ twalk t (Z.of_nat n) q = Some s
    end.

Record compact_result (n : nat) (nodes nodes' : list Node) (e' : PhysPageEntry) (t t' : tree) : Prop := {
  cr_holds : holds nodes' e' t';
  cr_sep : sep t';
  cr_fits : fits t' (Z.of_nat n);
  cr_below : below nodes nodes' t t';
  cr_compacts : compacts t t' n;
  cr_nil : t' = TNil -> t = TNil
}.

Lemma compacts_refl t n : compacts t t n.
Proof. intros p Hp. by destruct (twalk t (Z.of_nat n) p). Qed.

(** A child's walk seen from the node. *)
Lemma child_page n j q : slot j -> 0 <= q < width n ->
  0 <= j * width n + q < width (S n) /\ (j * width n + q) / width n mod P_L2_SIZE = j /\
  (j * width n + q) mod width n = q mod width n.
Proof.
  intros Hj Hq. pose proof (width_pos n) as Hw. rewrite width_S. unfold slot, P_L2_SIZE in *. split; [nia|].
  rewrite Z.add_comm, Z.div_add, Z.mod_add, Z.div_small by lia. rewrite Z.mod_small by lia. done.
Qed.

Lemma node_walk n k ch p : full (TNode 1 k ch) (S n) ->
  twalk (TNode 1 k ch) (Z.of_nat (S n)) p = twalk (ch (p / width n mod P_L2_SIZE)) (Z.of_nat n) p.
Proof. intros _. cbn [twalk]. by replace (Z.of_nat (S n) - 1) with (Z.of_nat n) by lia. Qed.

Lemma compacts_node n k ch ch' :
  full (TNode 1 k ch) (S n) -> (forall j, slot j -> compacts (ch j) (ch' j) n) ->
  compacts (TNode 1 k ch) (TNode 1 k ch') (S n).
Proof.
  intros Hf Hc p Hp. cbn [twalk]. replace (Z.of_nat (S n) - 1) with (Z.of_nat n) by lia.
  change (2 ^ (9 * Z.of_nat n)) with (width n). set (j := p / width n mod P_L2_SIZE).
  assert (slot j) as Hj by apply slot_mod. specialize (Hc j Hj p Hp). destruct (twalk (ch j) (Z.of_nat n) p); [done|].
  intros s Hs. destruct (Hc s Hs) as (q & Hq & Hw). destruct (child_page n j q Hj Hq) as (H1 & H2 & H3).
  exists (j * width n + q). split; [done|]. rewrite H2. rewrite <- Hw. apply twalk_mod; [|done]. by apply Hf.
Qed.

(** Skipping a node with one child. *)
Lemma compacts_skip n k ch c t' v :
  full (TNode 1 k ch) (S n) -> slot v -> compacts (ch v) c n -> (forall j, slot j -> j <> v -> ch j = TNil) ->
  (forall p, twalk t' (Z.of_nat (S n)) p = twalk c (Z.of_nat n) p) ->
  compacts (TNode 1 k ch) t' (S n).
Proof.
  intros Hf Hv Hc Hnil Ht p Hp. rewrite node_walk by done. rewrite Ht. set (j := p / width n mod P_L2_SIZE).
  assert (slot j) as Hj by apply slot_mod. specialize (Hc p Hp).
  assert (forall q s, 0 <= q < width n -> twalk (ch v) (Z.of_nat n) q = Some s ->
            exists q', 0 <= q' < width (S n) /\ twalk (TNode 1 k ch) (Z.of_nat (S n)) q' = Some s) as Hq.
  { intros q s Hq Hw. destruct (child_page n v q Hv Hq) as (H1 & H2 & H3). exists (v * width n + q). split; [done|].
    rewrite node_walk, H2 by done. rewrite <- Hw. apply twalk_mod; [|done]. by apply Hf. }
  destruct (decide (j = v)) as [->|Hne].
  - destruct (twalk (ch v) (Z.of_nat n) p); [done|]. intros s Hs. destruct (Hc s Hs) as (q & Hq1 & Hq2). eauto.
  - rewrite Hnil by done. cbn [twalk]. intros s Hs. pose proof (width_pos n).
    destruct (twalk (ch v) (Z.of_nat n) p) as [s'|] eqn:E.
    + assert (s' = s) as -> by congruence. apply (Hq (p mod width n)); [apply Z.mod_pos_bound; lia|].
      rewrite <- E. apply twalk_mod; [by apply Hf|]. apply Z.mod_mod. lia.
    + destruct (Hc s Hs) as (q & Hq1 & Hq2). eauto.
Qed.

Definition compact_spec (n : nat) (rec : list Node -> PhysPageEntry -> outcome (list Node * PhysPageEntry)) : Prop :=
  forall nodes e t, holds nodes e t -> sep t -> full t n -> (forall s, t <> TLeaf s) ->
    exists nodes' e' t', rec nodes e = Ok (nodes', e') /\ compact_result n nodes nodes' e' t t'.

(** The loop before slot [i]: [ch] are the children before the loop, [ch']
    the children now. *)
Record sweep (n : nat) (nodes0 nodes : list Node) (k i valid v : Z) (ch ch' : Z -> tree) : Prop := {
  sw_holds : holds nodes (here_entry k) (here k ch');
  sw_sep : sep (here k ch');
  sw_below : below nodes0 nodes (here k ch) (here k ch');
  sw_done : forall j, slot j -> j < i ->
    fits (ch' j) (Z.of_nat n) /\ compacts (ch j) (ch' j) n /\ (ch' j = TNil -> ch j = TNil);
  sw_todo : forall j, slot j -> i <= j -> ch' j = ch j;
  sw_valid : 0 <= valid;
  sw_none : valid = 0 -> forall j, slot j -> j < i -> ch j = TNil;
  sw_one : valid = 1 -> slot v /\ v < i /\ ch v <> TNil /\ forall j, slot j -> j < i -> j <> v -> ch j = TNil
}.

Section Sweep.
Context (n : nat) (k : Z) (ch : Z -> tree) (rec : list Node -> PhysPageEntry -> outcome (list Node * PhysPageEntry)).
Context (nodes0 : list Node) (Hfull : full (here k ch) (S n)) (Hrec : compact_spec n rec).

(** A slot that is not empty. *)
Lemma sweep_count nodes i valid v ch' ch'' nodes' :
  slot i -> ch i <> TNil -> sweep n nodes0 nodes k i valid v ch ch' ->
  holds nodes' (here_entry k) (here k ch'') -> sep (here k ch'') -> below nodes nodes' (here k ch') (here k ch'') ->
  (forall j, slot j -> j <> i -> ch'' j = ch' j) ->
  fits (ch'' i) (Z.of_nat n) -> compacts (ch i) (ch'' i) n -> ch'' i <> TNil ->
  sweep n nodes0 nodes' k (i + 1) (valid + 1) i ch ch''.
Proof.
  intros Hi Hne [S1 S2 S3 S4 S5 S6 S7 S8] Hh Hs Hb Hrest Hfi Hc Hn. split; try done; try lia.
  - by eapply below_trans.
  - intros j Hj Hlt. destruct (decide (j = i)) as [->|]; [done|]. rewrite Hrest by done. apply S4; [done|lia].
  - intros j Hj Hle. rewrite Hrest by (done || lia). apply S5; [done|lia].
  - intros E. split_and!; [done|lia|done|]. intros j Hj Hlt Hne'. apply S7; [lia|done|lia].
Qed.

Lemma compact_loop_ok : forall m i nodes valid v ch',
  m = Z.to_nat (P_L2_SIZE - i) -> 0 <= i <= P_L2_SIZE -> sweep n nodes0 nodes k i valid v ch ch' ->
  exists nodes' valid' v' ch'', compact_loop rec k m i nodes valid v = Ok (nodes', valid', v') /\
    sweep n nodes0 nodes' k P_L2_SIZE valid' v' ch ch''.
Proof.
  induction m as [|m IH]; intros i nodes valid v ch' Hm Hi Hsw; cbn [compact_loop].
  { assert (i = P_L2_SIZE) as -> by lia. eauto 10. }
  assert (slot i) as Hsi by (unfold slot; lia).
  assert (m = Z.to_nat (P_L2_SIZE - (i + 1)) /\ 0 <= i + 1 <= P_L2_SIZE) as [Hm' Hi'] by lia.
  destruct (entry_at_ok _ _ _ _ _ i (sw_holds _ _ _ _ _ _ _ _ _ Hsw) Hsi) as (e & -> & He).
  rewrite (sw_todo _ _ _ _ _ _ _ _ _ Hsw) in He by (done || lia). cbn [mbind outcome_bind].
  destruct Hfull as [_ Hfc]. specialize (Hfc i Hsi).
  destruct (ch i) as [s| |sk k' c] eqn:Ei; [| |].
  - cbn in He, Hfc. subst e. cbn [leaf_entry pe_ptr pe_skip Z.eqb negb].
    replace (s =? PHYS_MAP_NODE_NIL) with false by (unfold PHYS_MAP_NODE_NIL, TARGET_PAGE_SIZE in *; lia).
    cbn [mbind outcome_bind]. eapply IH; [done|done|].
    assert (ch' i = TLeaf s) as Ei' by (by rewrite (sw_todo _ _ _ _ _ _ _ _ _ Hsw) by (done || lia)).
    eapply (sweep_count nodes _ _ _ ch' ch'); [done|by rewrite Ei|exact Hsw|apply Hsw|apply Hsw|by split; auto|done| | |].
    + rewrite Ei'. apply Hfc.
    + rewrite Ei', Ei. apply compacts_refl.
    + by rewrite Ei'.
  - cbn in He. subst e. cbn [nil_entry pe_ptr]. rewrite Z.eqb_refl. eapply IH; [done|done|].
    destruct Hsw as [S1 S2 S3 S4 S5 S6 S7 S8]. split; try done.
    + intros j Hj Hlt. destruct (decide (j = i)) as [->|]; [|apply S4; [done|lia]].
      rewrite S5, Ei by (done || lia). split_and!; [by apply (full_fits TNil)|apply compacts_refl|done].
    + intros j Hj Hle. apply S5; [done|lia].
    + intros E j Hj Hlt. destruct (decide (j = i)) as [->|]; [done|]. apply S7; [done|done|lia].
    + intros E. destruct (S8 E) as (H1 & H2 & H3 & H4). split_and!; [done|lia|done|].
      intros j Hj Hlt Hne. destruct (decide (j = i)) as [->|]; [done|]. apply H4; [done|lia|done].
  - pose proof He as (-> & Hk' & _). destruct Hfc as [-> Hfc']. cbn [pe_ptr pe_skip Z.eqb negb].
    replace (k' =? PHYS_MAP_NODE_NIL) with false by lia.
    assert (ch' i = TNode 1 k' c) as Ei' by (by rewrite (sw_todo _ _ _ _ _ _ _ _ _ Hsw) by (done || lia)).
    pose proof (sw_sep _ _ _ _ _ _ _ _ _ Hsw) as Hs. pose proof (sw_holds _ _ _ _ _ _ _ _ _ Hsw) as Hh.
    destruct (Hrec nodes {| pe_skip := 1; pe_ptr := k' |} (TNode 1 k' c)) as (nodes1 & e1 & c1 & -> & [R1 R2 R3 R4 R5 R6]).
    + done.
    + rewrite <- Ei'. apply Hs. done.
    + by split.
    + done.
    + cbn [mbind outcome_bind]. rewrite <- Ei' in R4. eapply IH; [done|done|].
      eapply (sweep_count nodes _ _ _ _ (upd_child ch' i c1)); try done; try (by rewrite Ei).
      * by eapply put_child_holds.
      * by eapply put_child_sep.
      * by eapply put_child_below.
      * intros j Hj Hne. unfold upd_child. by destruct (Z.eqb_spec j i).
      * unfold upd_child. by rewrite Z.eqb_refl.
      * unfold upd_child. rewrite Z.eqb_refl, Ei. done.
      * unfold upd_child. rewrite Z.eqb_refl. intros E. by apply R6 in E.
Qed.
End Sweep.

(** An only child takes the place of its node. *)
Lemma only_child n k ch ch' v nodes nodes' e :
  full (here k ch) (S n) -> sweep n nodes nodes' k P_L2_SIZE 1 v ch ch' -> holds nodes' e (ch' v) -> slot v ->
  exists t', holds nodes' {| pe_skip := if pe_skip e =? 0 then 0 else 1 + pe_skip e; pe_ptr := pe_ptr e |} t' /\
    compact_result (S n) nodes nodes' {| pe_skip := if pe_skip e =? 0 then 0 else 1 + pe_skip e; pe_ptr := pe_ptr e |} (here k ch) t'.
Proof.
  intros Hf Hsw He Hv. pose proof Hsw as [S1 S2 S3 S4 _ _ _ S8]. destruct (S8 eq_refl) as (_ & Hlt & Hne & Honly).
  destruct (S4 v Hv Hlt) as (Hfit & Hc & Hnil).
  assert (forall t', (forall x, owns t' x -> owns (ch' v) x) -> below nodes nodes' (here k ch) t') as Hb.
  { intros t' Ho. destruct S3 as [B1 B2 B3]. split; [|done|done]. intros x Hx. apply B1. right. eauto. }
  assert (forall t', (forall p, twalk t' (Z.of_nat (S n)) p = twalk (ch' v) (Z.of_nat n) p) -> compacts (here k ch) t' (S n)) as Hcs.
  { intros t' Ht. eapply compacts_skip; try done. intros j Hj Hjv. by apply Honly; try apply Hj. }
  assert (sep (ch' v)) as Hs by (by apply S2).
  destruct (ch' v) as [s| |sk k' c] eqn:Ev; [| |].
  - cbn in He. subst e. exists (TLeaf s). split; [done|]. split; try done.
    + apply Hb. done.
    + apply Hcs. done.
  - by destruct (Hne (Hnil eq_refl)).
  - destruct He as (-> & Hk & Hch). destruct Hfit as [Hsk Hfit]. cbn [pe_skip pe_ptr].
    replace (sk =? 0) with false by lia. exists (TNode (1 + sk) k' c).
    assert (Z.of_nat (S n) - (1 + sk) = Z.of_nat n - sk) as El by lia.
    split; [done|]. split; try done.
    + cbn [fits]. rewrite El. split; [lia|done].
    + apply Hb. done.
    + apply Hcs. intros p. cbn [twalk]. by rewrite El.
Qed.

Lemma compact_ok : forall fuel n, (n < fuel)%nat -> compact_spec n (phys_page_compact fuel).
Proof.
  induction fuel as [|fuel IH]; intros n Hn nodes e t Hh Hs Hf Hleaf; [lia|]. cbn [phys_page_compact].
  destruct t as [s| |sk k ch]; [by destruct (Hleaf s)| |].
  - cbn in Hh. subst e. cbn [nil_entry pe_ptr]. rewrite Z.eqb_refl.
    exists nodes, nil_entry, TNil. split; [done|]. split; try done. by apply (full_fits TNil).
  - pose proof Hh as (-> & Hk & _). pose proof Hf as [-> Hfc]. destruct n as [|n]; [done|]. cbn [pe_ptr pe_skip].
    replace (k =? PHYS_MAP_NODE_NIL) with false by lia.
    destruct (compact_loop_ok n k ch (phys_page_compact fuel) nodes Hf (IH n ltac:(lia)) (Z.to_nat P_L2_SIZE) 0 nodes 0 P_L2_SIZE ch)
      as (nodes' & valid & v & ch' & -> & Hsw); [by rewrite Z.sub_0_r|done| |].
    { split; try done; try lia; [split; auto|unfold slot; intros; lia..]. }
    cbn [mbind outcome_bind]. pose proof Hsw as [S1 S2 S3 S4 _ _ _ S8].
    assert (compact_result (S n) nodes nodes' (here_entry k) (here k ch) (here k ch')) as Hkeep.
    { split; try done.
      - cbn [fits here]. split; [lia|]. intros j Hj. replace (Z.of_nat (S n) - 1) with (Z.of_nat n) by lia. apply S4; apply Hj.
      - apply compacts_node; [done|]. intros j Hj. apply S4; apply Hj. }
    destruct (Z.eqb_spec valid 1) as [->|]; cbn [negb]; [|by eauto].
    destruct (S8 eq_refl) as (Hv & Hlt & _). replace (v <? P_L2_SIZE) with true by lia. cbn [c_assert mbind outcome_bind].
    destruct (entry_at_ok _ _ _ _ _ v S1 Hv) as (e & -> & He). cbn [mbind outcome_bind].
    destruct (8 <=? 1 + pe_skip e); [by eauto|].
    destruct (only_child n k ch ch' v nodes nodes' e Hf Hsw He Hv) as (t' & Ht & Hres). eauto.
Qed.
