(* ===== verification/Dispatch.v ===== *)
(** * What the page table answers (exec.c)

    A table built from disjoint sections runs without a failed assertion and
    answers every address with the section that covers it; compaction does not
    change the answers, although it makes the walk of an address that was
    never mapped end in the leaf of another page.  Together with Topology.v:
    the calls that a topology update makes to the dispatch listener leave a
    table that answers as the new flat view does. *)
From S2P Require Import Prelude Int128 Bitops MemRegion FlatView Simplify Topology TopologyFacts RamList PhysMap PhysTree.
Local Open Scope Z_scope.

Definition H : nat := P_L2_LEVELS.
Abbreviation look t p := (tlook t H p).

(** ** The table *)

(** The section at the end of a lookup: a subpage is resolved. *)
Definition final (d : AddressSpaceDispatch) (s a : Z) : option Z :=
  sec ← pm_sections (d_map d) !! Z.to_nat s;
  match ps_mr sec with
  | subpage_iomem k => sp ← d_subpages d !! k; sp_sub_section sp !! Z.to_nat (a mod TARGET_PAGE_SIZE)
  | _ => Some s
  end.

(** The region, the address in it and the readonly flag of an address in a
    section. *)
Definition place (sec : PhysSection) (a : Z) : option (option Z * Z * bool) :=
  match ps_mr sec with
  | guest_mr mr =>
      Some (mr, u64 (a - ps_offset_within_address_space sec + ps_offset_within_region sec), ps_readonly sec)
  | _ => None
  end.

Definition place_of (d : AddressSpaceDispatch) (s a : Z) : option (option Z * Z * bool) :=
  sec ← pm_sections (d_map d) !! Z.to_nat s; place sec a.

Definition answer (d : AddressSpaceDispatch) (t : tree) (a : Z) : option (option Z * Z * bool) :=
  s ← final d (look t (a / TARGET_PAGE_SIZE)) a; place_of d s a.

Definition within (sec : PhysSection) (a : Z) : Prop :=
  ps_offset_within_address_space sec <= a < ps_offset_within_address_space sec + ps_size sec.

Definition ranged (sec : PhysSection) : Prop :=
  0 <= ps_offset_within_address_space sec /\ 0 < ps_size sec /\
  ps_offset_within_address_space sec + ps_size sec <= 2 ^ 64.

Definition is_guest (sec : PhysSection) : Prop := exists mr, ps_mr sec = guest_mr mr.

(** A registered section: index 0 to 3 are the built-in ones. *)
Definition registered (d : AddressSpaceDispatch) (s : Z) (sec : PhysSection) : Prop :=
  4 <= s < TARGET_PAGE_SIZE /\ pm_sections (d_map d) !! Z.to_nat s = Some sec /\ ranged sec.

Record subpage_ok (d : AddressSpaceDispatch) (p : Z) (sp : subpage_t) : Prop := {
  sub_base : sp_base sp = p * TARGET_PAGE_SIZE;
  sub_length : length (sp_sub_section sp) = Z.to_nat TARGET_PAGE_SIZE;
  sub_entry : forall i v, sp_sub_section sp !! i = Some v ->
    v = PHYS_SECTION_UNASSIGNED \/
    exists sec, registered d v sec /\ is_guest sec /\ within sec (p * TARGET_PAGE_SIZE + Z.of_nat i)
}.

(** What page [p] may be mapped to. *)
Definition page_ok (d : AddressSpaceDispatch) (p : Z) (sec : PhysSection) : Prop :=
  within sec (p * TARGET_PAGE_SIZE) /\ within sec (p * TARGET_PAGE_SIZE + (TARGET_PAGE_SIZE - 1)) /\
  match ps_mr sec with
  | guest_mr _ => True
  | subpage_iomem k =>
      ps_offset_within_address_space sec = p * TARGET_PAGE_SIZE /\ ps_size sec = TARGET_PAGE_SIZE /\
      exists sp, d_subpages d !! k = Some sp /\ subpage_ok d p sp
  | _ => False
  end.

Definition pages (p : Z) : Prop := 0 <= p < width H.

Definition unassigned_section : PhysSection :=
  {| ps_mr := io_mem_unassigned; ps_offset_within_region := 0; ps_size := 2 ^ 64;
     ps_offset_within_address_space := 0; ps_readonly := false |}.

Record table (d : AddressSpaceDispatch) (t : tree) : Prop := {
  tb_good : good (pm_nodes (d_map d)) (d_phys_map d) t H;
  tb_nodes : Z.of_nat (length (pm_nodes (d_map d))) <= 11 * Z.of_nat (length (pm_sections (d_map d)));
  tb_first : pm_sections (d_map d) !! 0%nat = Some unassigned_section;
  tb_count : 4 <= Z.of_nat (length (pm_sections (d_map d))) <= TARGET_PAGE_SIZE;
  tb_page : forall p, pages p -> look t p <> PHYS_SECTION_UNASSIGNED ->
    exists sec, registered d (look t p) sec /\ page_ok d p sec;
  tb_spread : forall p q sec, pages p -> pages q -> look t p <> PHYS_SECTION_UNASSIGNED ->
    registered d (look t p) sec ->
    q * TARGET_PAGE_SIZE < ps_offset_within_address_space sec + ps_size sec ->
    ps_offset_within_address_space sec <= q * TARGET_PAGE_SIZE + (TARGET_PAGE_SIZE - 1) ->
    look t q = look t p
}.

(** ** Lookup *)
Lemma page_bound a : 0 <= a < 2 ^ 64 -> pages (a / TARGET_PAGE_SIZE).
Proof.
  unfold pages. change (width H) with (2 ^ 54). unfold TARGET_PAGE_SIZE. intros Ha.
  split; [apply Z.div_pos; lia|apply Z.div_lt_upper_bound; lia].
Qed.

Lemma page_split a : a = a / TARGET_PAGE_SIZE * TARGET_PAGE_SIZE + a mod TARGET_PAGE_SIZE /\ 0 <= a mod TARGET_PAGE_SIZE < TARGET_PAGE_SIZE.
Proof. unfold TARGET_PAGE_SIZE. pose proof (Z.div_mod a 4096 ltac:(lia)). pose proof (Z.mod_pos_bound a 4096 ltac:(lia)). lia. Qed.

Lemma covers_within sec a : ranged sec -> 0 <= a < 2 ^ 64 -> section_covers sec a = true <-> within sec a.
Proof.
  intros (H1 & H2 & H3) Ha. unfold section_covers, within. rewrite Z.shiftr_div_pow2 by lia.
  destruct (Z.eq_dec (ps_size sec) (2 ^ 64)) as [E|E].
  - rewrite E. change (2 ^ 64 / 2 ^ 64 =? 0) with false. cbn [negb orb]. lia.
  - rewrite Z.div_small by lia. cbn [Z.eqb negb orb]. rewrite (wrap_small 64 (ps_size sec)) by lia.
    rewrite (wrap_small 64 (_ + _ - 1)) by lia. lia.
Qed.

Lemma shift_page a : Z.shiftr a TARGET_PAGE_BITS = a / TARGET_PAGE_SIZE.
Proof. unfold TARGET_PAGE_BITS. by rewrite Z.shiftr_div_pow2 by lia. Qed.

Lemma subpage_idx a : SUBPAGE_IDX a = a mod TARGET_PAGE_SIZE.
Proof. unfold SUBPAGE_IDX. change (TARGET_PAGE_SIZE - 1) with (Z.ones 12). by rewrite Z.land_ones by lia. Qed.

Lemma page_ok_within d p sec a : page_ok d p sec -> a / TARGET_PAGE_SIZE = p -> within sec a.
Proof.
  intros (H1 & H2 & _) <-. destruct (page_split a) as [E Hm]. unfold within in *. lia.
Qed.

Section Lookup.
Context (d : AddressSpaceDispatch) (t : tree) (HT : table d t).

Lemma section_at_first : section_at (d_map d) PHYS_SECTION_UNASSIGNED = Ok unassigned_section.
Proof. unfold section_at. change (Z.to_nat PHYS_SECTION_UNASSIGNED) with O. by rewrite (tb_first _ _ HT). Qed.

Lemma section_at_registered s sec : registered d s sec -> section_at (d_map d) s = Ok sec.
Proof. intros (_ & E & _). unfold section_at. by rewrite E. Qed.

(** A walk that ends where the tree says, or in the section of another page
    when the page is not mapped, finds the section of the tree. *)
Lemma find_result a r :
  0 <= a < 2 ^ 64 -> let p := a / TARGET_PAGE_SIZE in
  (match twalk t (Z.of_nat H) p with
   | Some s => r = Some s
   | None => forall s, r = Some s -> exists q, pages q /\ twalk t (Z.of_nat H) q = Some s
   end) ->
  match r with
  | None => Ok PHYS_SECTION_UNASSIGNED
  | Some s => sec ← section_at (d_map d) s; Ok (if section_covers sec a then s else PHYS_SECTION_UNASSIGNED)
  end = Ok (look t p).
Proof.
  intros Ha p Hr. pose proof (page_bound a Ha) as Hp. fold p in Hp.
  pose proof (fun q => tlook_twalk t H q (good_full _ _ _ _ (tb_good _ _ HT))) as Hl.
  assert (forall q s, pages q -> twalk t (Z.of_nat H) q = Some s -> s <> PHYS_SECTION_UNASSIGNED -> exists sec, registered d s sec /\ page_ok d q sec) as Hpg.
  { intros q s Hq Ew Hs. specialize (Hl q). rewrite Ew in Hl. cbn in Hl. rewrite <- Hl in Hs |- *. by apply (tb_page _ _ HT). }
  rewrite Hl. destruct (twalk t (Z.of_nat H) p) as [s|] eqn:Ew; cbn [default].
  - subst r. destruct (decide (s = PHYS_SECTION_UNASSIGNED)) as [->|Hs].
    + rewrite section_at_first. reflexivity.
    + destruct (Hpg p s Hp Ew Hs) as (sec & Hreg & Hok). rewrite (section_at_registered _ _ Hreg). cbn [mbind outcome_bind].
      pose proof (page_ok_within _ _ _ a Hok eq_refl) as Hw. apply covers_within in Hw; [|apply Hreg|done]. by rewrite Hw.
  - destruct r as [s|]; [|done]. destruct (Hr s eq_refl) as (q & Hq & Eq). destruct (decide (s = PHYS_SECTION_UNASSIGNED)) as [->|Hs].
    { rewrite section_at_first. reflexivity. }
    destruct (Hpg q s Hq Eq Hs) as (sec & Hreg & Hok). rewrite (section_at_registered _ _ Hreg). cbn [mbind outcome_bind].
    destruct (section_covers sec a) eqn:Ec; [|done]. apply covers_within in Ec; [|apply Hreg|done].
    assert (look t q = s) as Elq by (by rewrite Hl, Eq).
    assert (look t p = s) as Elp.
    { destruct (page_split a) as [E Hm]. fold p in E. unfold within in Ec. rewrite <- Elq.
      eapply (tb_spread _ _ HT q p sec); try done; [by rewrite Elq|by rewrite Elq|lia|lia]. }
    rewrite Hl, Ew in Elp. by cbn in Elp.
Qed.

Lemma find_ok a : 0 <= a < 2 ^ 64 ->
  phys_page_find (d_phys_map d) a (d_map d) = Ok (look t (a / TARGET_PAGE_SIZE)).
Proof.
  intros Ha. unfold phys_page_find. rewrite shift_page.
  rewrite (find_walk_ok _ t); [|apply (tb_good _ _ HT)|apply full_fits, (tb_good _ _ HT)|done].
  cbn [mbind outcome_bind]. apply (find_result a); [done|]. by destruct (twalk _ _ _).
Qed.
End Lookup.

(** ** Growing the table *)

(** [d'] has more sections and subpages than [d]; subpage [x] may have
    changed. *)
Record grows (x : option nat) (d d' : AddressSpaceDispatch) (secs : list PhysSection) : Prop := {
  gr_sections : pm_sections (d_map d') = pm_sections (d_map d) ++ secs;
  gr_subpages : forall k sp, Some k <> x -> d_subpages d !! k = Some sp -> d_subpages d' !! k = Some sp
}.

Definition not_subpage (x : option nat) (sec : PhysSection) : Prop := forall k, ps_mr sec = subpage_iomem k -> Some k <> x.

Section Grows.
Context (x : option nat) (d d' : AddressSpaceDispatch) (secs : list PhysSection) (G : grows x d d' secs).

Lemma section_grows s sec : pm_sections (d_map d) !! s = Some sec -> pm_sections (d_map d') !! s = Some sec.
Proof. intros E. rewrite (gr_sections _ _ _ _ G). by apply lookup_app_l_Some. Qed.

Lemma registered_grows s sec : registered d s sec -> registered d' s sec.
Proof. intros (H1 & E & H2). split_and!; try done; try lia. by apply section_grows. Qed.

Lemma subpage_grows p sp : subpage_ok d p sp -> subpage_ok d' p sp.
Proof.
  intros [S1 S2 S3]. split; try done. intros i v E. destruct (S3 i v E) as [|(sec & R & Hg & Hw)]; [by left|].
  right. exists sec. split_and!; try apply Hw; [by apply registered_grows|done].
Qed.

Lemma page_ok_grows p sec : not_subpage x sec -> page_ok d p sec -> page_ok d' p sec.
Proof.
  intros Hx (H1 & H2 & H3). unfold not_subpage in Hx. split_and!; try done; try apply H1; try apply H2. destruct (ps_mr sec); try done.
  destruct H3 as (? & ? & sp & E & Hs). split_and!; try done. exists sp. split; [|by apply subpage_grows].
  apply (gr_subpages _ _ _ _ G); auto.
Qed.

Context (t : tree) (HT : table d t).

Lemma registered_shrinks p sec : pages p -> look t p <> PHYS_SECTION_UNASSIGNED -> registered d' (look t p) sec -> registered d (look t p) sec.
Proof.
  intros Hp Hne R. destruct (tb_page _ _ HT p Hp Hne) as (sec' & R' & _).
  pose proof (registered_grows _ _ R') as (_ & E' & _). destruct R as (_ & E & _). by assert (sec' = sec) as <- by congruence.
Qed.

Lemma place_grows v a : v = PHYS_SECTION_UNASSIGNED \/ (exists sec, registered d v sec) -> place_of d' v a = place_of d v a.
Proof.
  unfold place_of. intros [->|(sec & _ & E & _)].
  - change (Z.to_nat PHYS_SECTION_UNASSIGNED) with O. by rewrite (section_grows _ _ (tb_first _ _ HT)), (tb_first _ _ HT).
  - by rewrite (section_grows _ _ E), E.
Qed.

Lemma answer_grows t' a : 0 <= a < 2 ^ 64 -> look t' (a / TARGET_PAGE_SIZE) = look t (a / TARGET_PAGE_SIZE) ->
  (forall sec, registered d (look t (a / TARGET_PAGE_SIZE)) sec -> not_subpage x sec) ->
  answer d' t' a = answer d t a.
Proof.
  intros Ha El Hx. unfold answer. rewrite El. pose proof (page_bound a Ha) as Hp.
  destruct (decide (look t (a / TARGET_PAGE_SIZE) = PHYS_SECTION_UNASSIGNED)) as [->|Hne].
  { unfold final. change (Z.to_nat PHYS_SECTION_UNASSIGNED) with O.
    rewrite (section_grows _ _ (tb_first _ _ HT)), (tb_first _ _ HT). cbn. apply place_grows. by left. }
  destruct (tb_page _ _ HT _ Hp Hne) as (sec & R & _ & _ & Hm). specialize (Hx sec R). unfold final, not_subpage in *.
  rewrite (proj1 (proj2 R)), (section_grows _ _ (proj1 (proj2 R))). cbn [mbind option_bind].
  destruct (ps_mr sec) as [| | | |k|mr]; try done; [|apply place_grows; eauto].
  destruct Hm as (_ & _ & sp & E & [_ _ Hent]). rewrite (gr_subpages _ _ _ _ G k sp), E by auto. cbn.
  destruct (sp_sub_section sp !! _) as [v|] eqn:Ev; [|done]. cbn. apply place_grows.
  destruct (Hent _ _ Ev) as [->|(sec' & R' & _)]; eauto.
Qed.
End Grows.

Lemma not_subpage_none sec : not_subpage None sec.
Proof. done. Qed.

(** ** Setting the pages of a section *)
Lemma phys_page_set_ok d t index nb leaf :
  good (pm_nodes (d_map d)) (d_phys_map d) t H -> 0 <= index -> 0 < nb -> index + nb <= width H ->
  0 < leaf < TARGET_PAGE_SIZE -> Z.of_nat (length (pm_nodes (d_map d))) + 11 < PHYS_MAP_NODE_NIL ->
  (forall p, index <= p < index + nb -> look t p = PHYS_SECTION_UNASSIGNED) ->
  exists d' t', phys_page_set d index nb leaf = Ok d' /\ grows None d d' [] /\ d_subpages d' = d_subpages d /\
    good (pm_nodes (d_map d')) (d_phys_map d') t' H /\
    Z.of_nat (length (pm_nodes (d_map d'))) <= Z.of_nat (length (pm_nodes (d_map d))) + 11 /\
    forall p, pages p -> look t' p = if (index <=? p) && (p <? index + nb) then leaf else look t p.
Proof.
  intros Hg Hi Hnb Hend Hleaf Hnodes Hfree. unfold phys_page_set, phys_map_node_reserve.
  set (map := if _ <? _ then _ else _).
  assert (pm_nodes map = pm_nodes (d_map d) /\ pm_sections map = pm_sections (d_map d) /\
          Z.of_nat (length (pm_nodes map)) + 11 <= pm_nodes_alloc map) as (En & Es & Hal).
  { unfold map. change (3 * Z.of_nat P_L2_LEVELS) with 18. destruct (Z.ltb_spec (pm_nodes_alloc (d_map d)) (Z.of_nat (length (pm_nodes (d_map d))) + 18));
    cbn; split_and!; lia || done. }
  assert (set_nodes 5 index nb <= 11) as Hc by (unfold set_nodes; repeat case_match; lia).
  assert (index mod width 6 = index) as Em by (apply Z.mod_small; change (width 6) with (width H); lia).
  destruct (set_level_ok leaf Hleaf 5 map (d_phys_map d) t index nb) as (map' & e' & t' & index' & E & Ei & [R1 R2 R3 R4 R5 R6]); try done.
  - by rewrite En.
  - unfold room. rewrite En. rewrite En in Hal. lia.
  - intros p Hp _. by apply Hfree.
  - change (pred P_L2_LEVELS) with 5%nat. rewrite E. cbn [mbind outcome_bind].
    rewrite Em, Z.sub_diag in Ei, R6. change (width 6) with (width H) in *. rewrite Z.min_l in Ei by lia. subst index'.
    eexists _, t'. split; [done|]. split_and!; cbn [with_map d_map d_phys_map d_subpages].
    + split; cbn; [by rewrite app_nil_r, R2, Es|done].
    + done.
    + done.
    + rewrite En in R4. lia.
    + intros p Hp. apply R6. unfold pages in Hp. lia.
Qed.

(** C35 (bounds): mapping a run of free pages succeeds without exhausting the
    nodes it reserved: it allocates at most 11 of the 18, and afterwards
    exactly the pages of the run are mapped to the leaf. *)
Theorem phys_page_set_maps d t index nb leaf :
  good (pm_nodes (d_map d)) (d_phys_map d) t H -> 0 <= index -> 0 < nb -> index + nb <= width H ->
  0 < leaf < TARGET_PAGE_SIZE -> Z.of_nat (length (pm_nodes (d_map d))) + 11 < PHYS_MAP_NODE_NIL ->
  (forall p, index <= p < index + nb -> look t p = PHYS_SECTION_UNASSIGNED) ->
  exists d' t', phys_page_set d index nb leaf = Ok d' /\
    good (pm_nodes (d_map d')) (d_phys_map d') t' H /\
    Z.of_nat (length (pm_nodes (d_map d'))) <= Z.of_nat (length (pm_nodes (d_map d))) + 11 /\
    forall p, pages p ->
      find_walk (S P_L2_LEVELS) (pm_nodes (d_map d')) p (Z.of_nat P_L2_LEVELS) (d_phys_map d') = Ok (twalk t' (Z.of_nat H) p) /\
      look t' p = if (index <=? p) && (p <? index + nb) then leaf else look t p.
Proof.
  intros Hg Hi Hnb Hend Hleaf Hn Hfree.
  destruct (phys_page_set_ok d t index nb leaf) as (d' & t' & E & _ & _ & Hg' & Hn' & Hl); try done.
  exists d', t'. split_and!; try done. intros p Hp. split; [|by apply Hl].
  apply find_walk_ok; [apply Hg'|apply full_fits, Hg'|done].
Qed.

Definition index_of (d : AddressSpaceDispatch) : Z := Z.of_nat (length (pm_sections (d_map d))).

Definition added (sec : PhysSection) (subs : list subpage_t) (d : AddressSpaceDispatch) : AddressSpaceDispatch :=
  {| d_phys_map := d_phys_map d;
     d_map := {| pm_sections := pm_sections (d_map d) ++ [sec]; pm_nodes := pm_nodes (d_map d); pm_nodes_alloc := pm_nodes_alloc (d_map d) |};
     d_subpages := d_subpages d ++ subs |}.

Lemma added_grows sec subs d : grows None d (added sec subs d) [sec].
Proof. split; [done|]. intros k sp _ E. by apply lookup_app_l_Some. Qed.

Lemma grows_trans x d1 d2 d3 l1 l2 : grows x d1 d2 l1 -> grows x d2 d3 l2 -> grows x d1 d3 (l1 ++ l2).
Proof.
  intros [A1 A2] [B1 B2]. split; [by rewrite B1, A1, app_assoc|]. auto.
Qed.

Lemma new_registered x d d' t sec secs : table d t -> index_of d < TARGET_PAGE_SIZE -> ranged sec ->
  grows x d d' (sec :: secs) -> registered d' (index_of d) sec.
Proof.
  intros HT Hlt Hr G. pose proof (tb_count _ _ HT). unfold index_of in *. split_and!; try done; try lia; try apply Hr.
  rewrite (gr_sections _ _ _ _ G), Nat2Z.id. by apply list_lookup_middle.
Qed.

Section MapSection.
Context (d : AddressSpaceDispatch) (t : tree) (sec : PhysSection) (subs : list subpage_t) (index nb : Z).
Context (HT : table d t) (Hlt : index_of d < TARGET_PAGE_SIZE) (Hr : ranged sec).
Context (Ho : ps_offset_within_address_space sec = index * TARGET_PAGE_SIZE) (Hz : ps_size sec = nb * TARGET_PAGE_SIZE).
Context (Hfree : forall p, index <= p < index + nb -> look t p = PHYS_SECTION_UNASSIGNED).
Context (Hok : forall p, index <= p < index + nb -> page_ok (added sec subs d) p sec).

Lemma map_section : exists d' t', phys_page_set (added sec subs d) index nb (index_of d) = Ok d' /\ table d' t' /\
  grows None d d' [sec] /\ d_subpages d' = d_subpages d ++ subs /\
  forall p, pages p -> look t' p = if (index <=? p) && (p <? index + nb) then index_of d else look t p.
Proof.
  pose proof (tb_count _ _ HT) as Hcount. destruct Hr as (Hr1 & Hr2 & Hr3). pose proof (tb_nodes _ _ HT) as Hnodes.
  unfold TARGET_PAGE_SIZE, index_of in *.
  destruct (phys_page_set_ok (added sec subs d) t index nb (index_of d)) as (d' & t' & E & G & Esub & Hg & Hn & Hl).
  { apply HT. } { lia. } { lia. } { change (width H) with (2 ^ 54). lia. } { unfold index_of, TARGET_PAGE_SIZE. lia. }
  { cbn. unfold PHYS_MAP_NODE_NIL. lia. } { done. }
  assert (grows None d d' [sec]) as G'.
  { apply (grows_trans _ _ _ _ _ _ (added_grows sec subs d) G). }
  exists d', t'. split; [done|]. split; [|by rewrite Esub].
  assert (registered d' (index_of d) sec) as Rnew by (by eapply new_registered).
  split; try done.
  - rewrite (gr_sections _ _ _ _ G'), length_app. cbn in *. lia.
  - rewrite (gr_sections _ _ _ _ G'). apply lookup_app_l_Some, HT.
  - rewrite (gr_sections _ _ _ _ G'), length_app. cbn. unfold TARGET_PAGE_SIZE. lia.
  - intros p Hp. rewrite Hl by done. destruct (_ && _) eqn:Ep.
    + intros _. exists sec. split; [done|]. eapply page_ok_grows; [exact G|apply not_subpage_none|]. apply Hok. lia.
    + intros Hne. destruct (tb_page _ _ HT p Hp Hne) as (sec' & R & Hpk). exists sec'.
      split; [by eapply registered_grows|]. by eapply page_ok_grows; [done|apply not_subpage_none|].
  - intros p q sec' Hp Hq. rewrite !Hl by done. destruct ((index <=? p) && (p <? index + nb)) eqn:Ep.
    + intros _ R Hq1 Hq2. assert (sec' = sec) as -> by (destruct R as (_ & ? & _), Rnew as (_ & ? & _); congruence).
      unfold TARGET_PAGE_SIZE in *. by replace ((index <=? q) && (q <? index + nb)) with true by lia.
    + intros Hne R Hq1 Hq2. eapply registered_shrinks in R; try done.
      pose proof (tb_spread _ _ HT p q sec' Hp Hq Hne R Hq1 Hq2) as Eq. rewrite Eq.
      destruct ((index <=? q) && (q <? index + nb)) eqn:Eqq; [|done].
      rewrite Hfree in Eq by lia. by rewrite <- Eq in Hne.
Qed.
End MapSection.

(** A mapped page answers somewhere. *)
Definition busy (d : AddressSpaceDispatch) (t : tree) : Prop :=
  forall p, pages p -> look t p <> PHYS_SECTION_UNASSIGNED ->
    exists a, 0 <= a < 2 ^ 64 /\ a / TARGET_PAGE_SIZE = p /\ answer d t a <> None.

Definition free_range (d : AddressSpaceDispatch) (t : tree) (sec : PhysSection) : Prop :=
  forall a, 0 <= a < 2 ^ 64 -> within sec a -> answer d t a = None.

Definition withinb (sec : PhysSection) (a : Z) : bool :=
  (ps_offset_within_address_space sec <=? a) && (a <? ps_offset_within_address_space sec + ps_size sec).

Lemma withinb_spec sec a : withinb sec a = true <-> within sec a.
Proof. unfold withinb, within. lia. Qed.

(** What registering a section with at most [n] new entries does. *)
Record registers (n : Z) (sec : PhysSection) (d d' : AddressSpaceDispatch) (t t' : tree) : Prop := {
  rg_table : table d' t';
  rg_busy : busy d' t';
  rg_count : index_of d' <= index_of d + n;
  rg_answer : forall a, 0 <= a < 2 ^ 64 -> answer d' t' a = if withinb sec a then place sec a else answer d t a
}.

Lemma place_guest sec a : is_guest sec -> place sec a <> None.
Proof. intros [mr E]. unfold place. by rewrite E. Qed.

Lemma answer_guest d t s sec a :
  look t (a / TARGET_PAGE_SIZE) = s -> registered d s sec -> is_guest sec -> answer d t a = place sec a.
Proof.
  intros El (_ & E & _) [mr Em]. unfold answer, final. rewrite El, E. cbn. rewrite Em. cbn. unfold place_of. by rewrite E.
Qed.

Lemma page_free d t p sec : table d t -> busy d t -> free_range d t sec -> pages p ->
  within sec (p * TARGET_PAGE_SIZE) -> within sec (p * TARGET_PAGE_SIZE + (TARGET_PAGE_SIZE - 1)) ->
  look t p = PHYS_SECTION_UNASSIGNED.
Proof.
  intros HT HB HF Hp H1 H2. destruct (decide (look t p = PHYS_SECTION_UNASSIGNED)) as [|Hne]; [done|].
  destruct (HB p Hp Hne) as (a & Ha & Ep & Han). destruct Han. apply HF; [done|]. destruct (page_split a).
  unfold within in *. rewrite Ep in *. lia.
Qed.

Lemma phys_section_add_ok d sec : index_of d < TARGET_PAGE_SIZE ->
  phys_section_add (d_map d) sec = Ok (index_of d, d_map (added sec [] d)).
Proof. intros Hlt. unfold phys_section_add. fold (index_of d). by replace (index_of d <? TARGET_PAGE_SIZE) with true by lia. Qed.

Lemma multiple a : a mod TARGET_PAGE_SIZE = 0 -> a = a / TARGET_PAGE_SIZE * TARGET_PAGE_SIZE.
Proof. destruct (page_split a). lia. Qed.

(** ** Whole pages *)
Lemma register_multipage_ok d t sec :
  table d t -> busy d t -> index_of d < TARGET_PAGE_SIZE -> ranged sec -> is_guest sec ->
  ps_offset_within_address_space sec mod TARGET_PAGE_SIZE = 0 -> ps_size sec mod TARGET_PAGE_SIZE = 0 ->
  free_range d t sec ->
  exists d' t', register_multipage d sec = Ok d' /\ registers 1 sec d d' t t'.
Proof.
  intros HT HB Hlt Hr Hg Ho Hz HF. unfold register_multipage. rewrite phys_section_add_ok by done. cbn [mbind outcome_bind].
  apply multiple in Ho, Hz. rewrite !shift_page. set (index := _ / _) in Ho |- *. set (nb := ps_size sec / _) in Hz |- *.
  pose proof Hr as (Hr1 & Hr2 & Hr3). unfold TARGET_PAGE_SIZE in *.
  assert (i128_get64 nb = Ok nb) as -> by (apply i128_get64_Ok; lia). cbn [mbind outcome_bind c_assert].
  replace (nb =? 0) with false by lia. cbn [negb mbind outcome_bind].
  replace (with_sections (d_map (added sec [] d)) d) with (added sec [] d) by (unfold added; by rewrite app_nil_r).
  destruct (map_section d t sec [] index nb) as (d' & t' & E & HT' & G & _ & Hl); try done.
  { intros p Hp. assert (pages p) by (unfold pages; change (width H) with (2 ^ 54); lia).
    eapply page_free; try done; unfold within, TARGET_PAGE_SIZE; lia. }
  { intros p Hp. unfold page_ok, within, TARGET_PAGE_SIZE. split_and!; try lia. destruct Hg as [mr ->]. done. }
  exists d', t'. split; [done|].
  assert (forall a, 0 <= a < 2 ^ 64 -> answer d' t' a = if withinb sec a then place sec a else answer d t a) as Han.
  { intros a Ha. specialize (Hl _ (page_bound a Ha)). destruct (page_split a) as [Ea Hm].
    replace ((index <=? _) && _) with (withinb sec a) in Hl.
    2:{ unfold withinb. rewrite Ho, Hz. unfold TARGET_PAGE_SIZE in *.
        destruct (Z.leb_spec (index * 4096) a), (Z.leb_spec index (a / 4096)), (Z.ltb_spec a (index * 4096 + nb * 4096)),
          (Z.ltb_spec (a / 4096) (index + nb)); cbn; lia. }
    destruct (withinb sec a).
    - apply (answer_guest _ _ (index_of d)); try done. by eapply new_registered.
    - by eapply answer_grows. }
  split; try done.
  - intros p Hp Hne. rewrite Hl in Hne by done. destruct ((index <=? p) && (p <? index + nb)) eqn:Ep.
    + exists (p * 4096). assert (0 <= p * 4096 < 2 ^ 64) as Hpa by lia.
      split; [done|]. split; [apply Z.div_mul; done|]. rewrite Han by done.
      replace (withinb sec (p * 4096)) with true by (unfold withinb; lia). by apply place_guest.
    + destruct (HB p Hp Hne) as (a & Ha & Epa & Hana). exists a. split; [done|]. split; [done|]. rewrite Han by done.
      destruct (withinb sec a); [by apply place_guest|done].
  - unfold index_of. rewrite (gr_sections _ _ _ _ G), length_app. cbn. lia.
Qed.

(** ** Subpages *)
Lemma subpage_fill_lookup section : forall n idx sub i, 0 <= idx -> (i < length sub)%nat ->
  subpage_fill n idx section sub !! i =
  if (idx <=? Z.of_nat i) && (Z.of_nat i <? idx + Z.of_nat n) then Some section else sub !! i.
Proof.
  induction n as [|n IH]; intros idx sub i Hidx Hi; cbn [subpage_fill].
  - destruct (Z.leb_spec idx (Z.of_nat i)), (Z.ltb_spec (Z.of_nat i) (idx + Z.of_nat 0)); done || lia.
  - rewrite IH; [|lia|by rewrite length_insert]. destruct (decide (Z.to_nat idx = i)) as [<-|Hne].
    + rewrite list_lookup_insert_eq by done. rewrite Z2Nat.id by done.
      destruct (Z.leb_spec idx idx), (Z.ltb_spec idx (idx + Z.of_nat (S n))); try lia. by case_match.
    + rewrite list_lookup_insert_ne by done.
      destruct (Z.leb_spec (idx + 1) (Z.of_nat i)), (Z.ltb_spec (Z.of_nat i) (idx + 1 + Z.of_nat n)),
        (Z.leb_spec idx (Z.of_nat i)), (Z.ltb_spec (Z.of_nat i) (idx + Z.of_nat (S n))); done || lia.
Qed.

Lemma subpage_fill_length section : forall n idx sub, length (subpage_fill n idx section sub) = length sub.
Proof. induction n as [|n IH]; intros; cbn [subpage_fill]; [done|]. by rewrite IH, length_insert. Qed.

Lemma subpage_register_ok sp start end_ s :
  length (sp_sub_section sp) = Z.to_nat TARGET_PAGE_SIZE -> 0 <= start -> start <= end_ < TARGET_PAGE_SIZE ->
  let sp' := fst (subpage_register sp start end_ s) in
  sp_base sp' = sp_base sp /\ length (sp_sub_section sp') = Z.to_nat TARGET_PAGE_SIZE /\
  forall i, 0 <= i < TARGET_PAGE_SIZE ->
    sp_sub_section sp' !! Z.to_nat i = if (start <=? i) && (i <=? end_) then Some s else sp_sub_section sp !! Z.to_nat i.
Proof.
  intros Hlen Hs He. unfold subpage_register. rewrite !subpage_idx, !Z.mod_small by lia.
  replace (_ || _) with false by lia. cbn. rewrite subpage_fill_length. split_and!; try done.
  intros i Hi. rewrite subpage_fill_lookup by lia. rewrite !Z2Nat.id by lia.
  by replace (i <? start + (end_ - start + 1)) with (i <=? end_) by lia.
Qed.

Lemma subpage_init_entries base :
  let sp := subpage_init base in
  sp_base sp = base /\ length (sp_sub_section sp) = Z.to_nat TARGET_PAGE_SIZE /\
  forall i, 0 <= i < TARGET_PAGE_SIZE -> sp_sub_section sp !! Z.to_nat i = Some PHYS_SECTION_UNASSIGNED.
Proof.
  unfold subpage_init. set (sp := Build_subpage_t _ _).
  assert (length (sp_sub_section sp) = Z.to_nat TARGET_PAGE_SIZE) as Hlen by apply length_replicate.
  destruct (subpage_register_ok sp 0 (TARGET_PAGE_SIZE - 1) PHYS_SECTION_UNASSIGNED) as (H1 & H2 & H3); [done|lia|unfold TARGET_PAGE_SIZE; lia|].
  split_and!; [done|done|]. intros i Hi. rewrite H3 by done. by replace (_ && _) with true by lia.
Qed.

Lemma subpage_init_ok d p : subpage_ok d p (subpage_init (p * TARGET_PAGE_SIZE)).
Proof.
  destruct (subpage_init_entries (p * TARGET_PAGE_SIZE)) as (H1 & H2 & H3). split; [done|done|].
  intros i v E. left. assert (0 <= Z.of_nat i < TARGET_PAGE_SIZE) as Hi by (apply lookup_lt_Some in E; lia).
  specialize (H3 _ Hi). rewrite Nat2Z.id in H3. congruence.
Qed.

(** The page of a subpage determines its index. *)
Lemma subpage_unique d t p q k sec sec' :
  table d t -> pages p -> pages q -> look t p <> PHYS_SECTION_UNASSIGNED -> look t q <> PHYS_SECTION_UNASSIGNED ->
  registered d (look t p) sec -> registered d (look t q) sec' -> ps_mr sec = subpage_iomem k -> ps_mr sec' = subpage_iomem k -> p = q.
Proof.
  intros HT Hp Hq Np Nq R R' E E'. destruct (tb_page _ _ HT p Hp Np) as (s & Rs & _ & _ & Hm).
  destruct (tb_page _ _ HT q Hq Nq) as (s' & Rs' & _ & _ & Hm').
  assert (s = sec) as -> by (destruct R as (_ & ? & _), Rs as (_ & ? & _); congruence).
  assert (s' = sec') as -> by (destruct R' as (_ & ? & _), Rs' as (_ & ? & _); congruence).
  rewrite E in Hm. rewrite E' in Hm'. destruct Hm as (_ & _ & sp & E1 & [B _ _]), Hm' as (_ & _ & sp' & E2 & [B' _ _]).
  assert (sp = sp') as -> by congruence. unfold TARGET_PAGE_SIZE in *. lia.
Qed.

(** The subpage of a page: [answer] is unchanged. *)
Record has_subpage (d : AddressSpaceDispatch) (t : tree) (p : Z) (k : nat) : Prop := {
  hs_mapped : look t p <> PHYS_SECTION_UNASSIGNED;
  hs_section : exists sec, registered d (look t p) sec /\ ps_mr sec = subpage_iomem k
}.

Lemma subpage_for_ok d t p :
  table d t -> index_of d < TARGET_PAGE_SIZE -> 0 <= p * TARGET_PAGE_SIZE < 2 ^ 64 ->
  (look t p = PHYS_SECTION_UNASSIGNED \/ exists k, has_subpage d t p k) ->
  exists d' t' k, subpage_for d (p * TARGET_PAGE_SIZE) = Ok (d', k) /\ table d' t' /\ index_of d' <= index_of d + 1 /\
    has_subpage d' t' p k /\
    (forall a, 0 <= a < 2 ^ 64 -> answer d' t' a = answer d t a) /\
    (forall q, pages q -> q <> p -> look t' q = look t q).
Proof.
  intros HT Hlt Hb Hcase. unfold subpage_for. rewrite (find_ok d t HT) by done.
  assert (p * TARGET_PAGE_SIZE / TARGET_PAGE_SIZE = p) as Ep by (apply Z.div_mul; done). rewrite Ep. cbn [mbind outcome_bind].
  assert (pages p) as Hp by (rewrite <- Ep; by apply page_bound).
  destruct Hcase as [Hz|(k & Hk)].
  2:{ pose proof Hk as [Hne (sec & R & Em)]. rewrite (section_at_registered _ _ _ R). cbn [mbind outcome_bind]. rewrite Em.
      exists d, t, k. split_and!; try done; lia. }
  rewrite Hz, (section_at_first d t HT). cbn [mbind outcome_bind unassigned_section ps_mr].
  set (sec := Build_PhysSection _ _ _ _ _). set (sub := subpage_init _).
  rewrite (phys_section_add_ok (with_subpages _ d)) by done. cbn [mbind outcome_bind]. rewrite shift_page, Ep.
  change (with_sections _ _) with (added sec [sub] d). change (index_of (with_subpages _ d)) with (index_of d).
  assert (ranged sec) as Hr by (unfold ranged; cbn; unfold TARGET_PAGE_SIZE in *; lia).
  destruct (map_section d t sec [sub] p 1) as (d' & t' & -> & HT' & G & Esub & Hl); try done.
  { intros q Hq. by assert (q = p) as -> by lia. }
  { intros q Hq. assert (q = p) as -> by lia. unfold page_ok, within. cbn. unfold TARGET_PAGE_SIZE in *. split_and!; try lia.
    exists sub. split; [by apply list_lookup_middle|]. apply subpage_init_ok. }
  assert (registered d' (index_of d) sec) as Rn by (by eapply new_registered).
  assert (look t' p = index_of d) as El by (rewrite Hl by done; by replace ((p <=? p) && (p <? p + 1)) with true by lia).
  pose proof (tb_count _ _ HT) as Hcount.
  exists d', t', (length (d_subpages d)). cbn [mbind outcome_bind]. split_and!; try done.
  - unfold index_of. rewrite (gr_sections _ _ _ _ G), length_app. cbn. lia.
  - split; [rewrite El; unfold PHYS_SECTION_UNASSIGNED, index_of; lia|]. exists sec. by rewrite El.
  - intros a Ha. destruct (decide (a / TARGET_PAGE_SIZE = p)) as [E|Hne].
    + unfold answer, final. rewrite E, El, Hz. rewrite (proj1 (proj2 Rn)). cbn [mbind option_bind sec ps_mr].
      change (Z.to_nat PHYS_SECTION_UNASSIGNED) with O. rewrite (tb_first _ _ HT), Esub, list_lookup_middle by done. cbn.
      unfold sub. rewrite (proj2 (proj2 (subpage_init_entries _))) by (by destruct (page_split a)). cbn. unfold place_of.
      change (Z.to_nat PHYS_SECTION_UNASSIGNED) with O. by rewrite (section_grows _ _ _ _ G _ _ (tb_first _ _ HT)), (tb_first _ _ HT).
    + eapply answer_grows; try done. rewrite Hl by (by apply page_bound).
      by replace ((p <=? a / TARGET_PAGE_SIZE) && (a / TARGET_PAGE_SIZE <? p + 1)) with false by lia.
  - intros q Hq Hne. rewrite Hl by done. by replace ((p <=? q) && (q <? p + 1)) with false by lia.
Qed.

(** A section registered in subpage [k] of page [p]. *)
Section InSubpage.
Context (d d' : AddressSpaceDispatch) (t : tree) (p : Z) (k : nat) (sp sp' : subpage_t) (sec : PhysSection).
Context (HT : table d t) (Hp : pages p) (Hk : has_subpage d t p k) (Hlt : index_of d < TARGET_PAGE_SIZE).
Context (Hr : ranged sec) (Hg : is_guest sec).
Context (G : grows (Some k) d d' [sec]) (Esp : d_subpages d !! k = Some sp) (Esp' : d_subpages d' !! k = Some sp').
Context (Enodes : pm_nodes (d_map d') = pm_nodes (d_map d)) (Eroot : d_phys_map d' = d_phys_map d).
Context (Eb : sp_base sp' = sp_base sp) (El : length (sp_sub_section sp') = Z.to_nat TARGET_PAGE_SIZE).
Context (Ef : forall i, 0 <= i < TARGET_PAGE_SIZE ->
  sp_sub_section sp' !! Z.to_nat i =
  if withinb sec (p * TARGET_PAGE_SIZE + i) then Some (index_of d) else sp_sub_section sp !! Z.to_nat i).

Lemma in_subpage_new : registered d' (index_of d) sec.
Proof. by eapply new_registered. Qed.

Lemma in_subpage_old : subpage_ok d p sp.
Proof.
  destruct Hk as [Hne (s & R & Em)]. destruct (tb_page _ _ HT p Hp Hne) as (s' & R' & _ & _ & Hm).
  assert (s' = s) as -> by (destruct R as (_ & ? & _), R' as (_ & ? & _); congruence).
  rewrite Em in Hm. destruct Hm as (_ & _ & sp0 & E & Hok). by assert (sp0 = sp) as <- by congruence.
Qed.

Lemma in_subpage_ok : subpage_ok d' p sp'.
Proof.
  pose proof in_subpage_old as [O1 O2 O3]. split; [by rewrite Eb|done|]. intros i v E.
  assert (0 <= Z.of_nat i < TARGET_PAGE_SIZE) as Hi by (apply lookup_lt_Some in E; lia).
  specialize (Ef _ Hi). rewrite Nat2Z.id in Ef. rewrite Ef in E. destruct (withinb sec _) eqn:Ew.
  - right. exists sec. assert (v = index_of d) as -> by congruence.
    split; [apply in_subpage_new|]. split; [done|by apply withinb_spec].
  - destruct (O3 i v E) as [|(s & R & Hgs & Hw)]; [by left|]. right. exists s. split; [by eapply registered_grows|done].
Qed.

Lemma other_subpage q s : pages q -> q <> p -> look t q <> PHYS_SECTION_UNASSIGNED -> registered d (look t q) s -> not_subpage (Some k) s.
Proof.
  intros Hq Hne Nq R k' Ek Hx. assert (k' = k) as -> by congruence. destruct Hk as [Np (s' & R' & Em)]. apply Hne. symmetry.
  by eapply (subpage_unique d t p q).
Qed.

Lemma in_subpage_table : table d' t.
Proof.
  pose proof (tb_count _ _ HT). pose proof (tb_nodes _ _ HT). unfold index_of in Hlt. split.
  - rewrite Enodes, Eroot. apply HT.
  - rewrite Enodes, (gr_sections _ _ _ _ G), length_app. lia.
  - by eapply section_grows; [|apply HT].
  - rewrite (gr_sections _ _ _ _ G), length_app. cbn. lia.
  - intros q Hq Nq. destruct (tb_page _ _ HT q Hq Nq) as (s & R & Hok). exists s. split; [by eapply registered_grows|].
    destruct (decide (q = p)) as [->|Hne].
    + destruct Hk as [_ (s' & R' & Em)]. assert (s' = s) as -> by (destruct R as (_ & ? & _), R' as (_ & ? & _); congruence).
      destruct Hok as (W1 & W2 & Hm). split; [done|]. split; [done|]. rewrite Em in *. destruct Hm as (? & ? & _).
      split_and!; try done. exists sp'. split; [done|apply in_subpage_ok].
    + eapply page_ok_grows; [done|by eapply other_subpage|done].
  - intros q q' s Hq Hq' Nq R. eapply registered_shrinks in R; [|done..]. by apply (tb_spread _ _ HT).
Qed.

Lemma in_subpage_answer a : 0 <= a < 2 ^ 64 -> (forall b, within sec b -> b / TARGET_PAGE_SIZE = p) ->
  answer d' t a = if withinb sec a then place sec a else answer d t a.
Proof.
  intros Ha Hin. destruct (decide (a / TARGET_PAGE_SIZE = p)) as [E|Hne].
  - destruct Hk as [Np (s & R & Em)]. destruct (page_split a) as [Ea Hm]. rewrite E in Ea. unfold answer, final. rewrite E.
    rewrite (proj1 (proj2 R)), (section_grows _ _ _ _ G _ _ (proj1 (proj2 R))). cbn [mbind option_bind].
    rewrite Em, Esp, Esp'. cbn [mbind option_bind]. rewrite (Ef _ Hm), <- Ea.
    destruct (withinb sec a) eqn:Ew; cbn [mbind option_bind].
    + unfold place_of. by rewrite (proj1 (proj2 in_subpage_new)).
    + destruct (sp_sub_section sp !! _) as [v|] eqn:Ev; [|done]. cbn. eapply place_grows; [done|done|].
      destruct (sub_entry _ _ _ in_subpage_old _ _ Ev) as [|(s' & R' & _)]; eauto.
  - replace (withinb sec a) with false.
    2:{ destruct (withinb sec a) eqn:Ew; [|done]. apply withinb_spec in Ew. by apply Hin in Ew. }
    eapply answer_grows; try done. intros s R. intros k' Ek Hx. 
    assert (look t (a / TARGET_PAGE_SIZE) <> PHYS_SECTION_UNASSIGNED) as Na by (destruct R as [? _]; unfold PHYS_SECTION_UNASSIGNED; lia).
    by eapply (other_subpage _ s (page_bound a Ha) Hne Na R).
Qed.
End InSubpage.

Lemma page_mask x : 0 <= x < 2 ^ 64 -> Z.land x (not64 (TARGET_PAGE_SIZE - 1)) = x / TARGET_PAGE_SIZE * TARGET_PAGE_SIZE.
Proof.
  intros Hx. change TARGET_PAGE_SIZE with (2 ^ 12). rewrite <- Z.shiftr_div_pow2, <- Z.shiftl_mul_pow2 by lia.
  replace (2 ^ 12 - 1) with (Z.ones 12) by done. bits. rewrite not64_bit by lia.
  destruct (Z.lt_ge_cases i 12).
  - rewrite (Z.testbit_neg_r _ (i - 12)) by lia. rewrite Z.ones_spec_low by lia. by rewrite !andb_false_r.
  - rewrite Z.shiftr_spec by lia. replace (i - 12 + 12) with i by lia. rewrite Z.ones_spec_high by lia.
    destruct (Z.ltb_spec i 64); [by rewrite andb_true_r|]. by rewrite (testbit_high x 64 i) by lia.
Qed.

Lemma register_subpage_ok d t sec :
  table d t -> busy d t -> index_of d + 2 <= TARGET_PAGE_SIZE -> ranged sec -> is_guest sec ->
  ps_offset_within_address_space sec mod TARGET_PAGE_SIZE + ps_size sec <= TARGET_PAGE_SIZE -> free_range d t sec ->
  exists d' t', register_subpage d sec = Ok d' /\ registers 2 sec d d' t t'.
Proof.
  intros HT HB Hlt Hr Hg Hin HF. pose proof Hr as (Hr1 & Hr2 & Hr3). unfold register_subpage.
  set (o := ps_offset_within_address_space sec) in *. destruct (page_split o) as [Eo Hm]. set (p := o / TARGET_PAGE_SIZE) in *.
  rewrite page_mask by lia. fold p. assert (pages p) as Hp by (apply page_bound; lia).
  assert (within sec o) as Hwo by (unfold within; fold o; lia).
  destruct (subpage_for_ok d t p HT) as (d1 & t1 & k & -> & HT1 & Hc & Hk & Han & Hl); [lia|unfold TARGET_PAGE_SIZE in *; lia| |].
  { destruct (decide (look t p = PHYS_SECTION_UNASSIGNED)) as [|Hne]; [by left|right].
    destruct (tb_page _ _ HT p Hp Hne) as (s & R & _ & _ & Hmr).
    destruct (ps_mr s) as [| | | |k|mr] eqn:Em; try done; [by exists k; split; eauto|].
    pose proof (answer_guest d t _ s o eq_refl R (ex_intro _ mr Em)) as Ea. rewrite HF in Ea by (done || lia).
    symmetry in Ea. by apply place_guest in Ea; [|exists mr]. }
  cbn [mbind outcome_bind]. rewrite subpage_idx.
  assert (i128_get64 (ps_size sec) = Ok (ps_size sec)) as -> by (apply i128_get64_Ok; unfold TARGET_PAGE_SIZE in *; lia).
  cbn [mbind outcome_bind]. rewrite phys_section_add_ok by lia. cbn [mbind outcome_bind with_sections d_subpages].
  pose proof Hk as [Np (s & R & Em)]. destruct (tb_page _ _ HT1 p Hp Np) as (s' & R' & _ & _ & Hmr).
  assert (s' = s) as -> by (destruct R as (_ & ? & _), R' as (_ & ? & _); congruence).
  rewrite Em in Hmr. destruct Hmr as (_ & _ & sp & Esp & [B1 B2 B3]). rewrite Esp.
  rewrite (wrap_small 64 (_ + _ - 1)), !(wrap_small 32) by (unfold TARGET_PAGE_SIZE in *; lia).
  set (sp' := fst _). set (d' := with_subpages _ _). exists d', t1. split; [done|].
  destruct (subpage_register_ok sp (o mod TARGET_PAGE_SIZE) (o mod TARGET_PAGE_SIZE + ps_size sec - 1) (index_of d1) B2) as (S1 & S2 & S3); [lia..|].
  assert (Ek : d_subpages d' !! k = Some sp') by (apply list_lookup_insert_eq; by eapply lookup_lt_Some).
  assert (G : grows (Some k) d1 d' [sec]).
  { split; [done|]. intros k' sp0 Hne E. unfold d'. cbn. rewrite list_lookup_insert_ne by congruence. done. }
  assert (Hf : forall i, 0 <= i < TARGET_PAGE_SIZE -> sp_sub_section sp' !! Z.to_nat i =
    if withinb sec (p * TARGET_PAGE_SIZE + i) then Some (index_of d1) else sp_sub_section sp !! Z.to_nat i).
  { intros i Hi. unfold sp'. rewrite S3 by done. unfold withinb. fold o.
    replace ((o <=? p * TARGET_PAGE_SIZE + i) && (p * TARGET_PAGE_SIZE + i <? o + ps_size sec)) with
      ((o mod TARGET_PAGE_SIZE <=? i) && (i <=? o mod TARGET_PAGE_SIZE + ps_size sec - 1)) by lia. done. }
  assert (Hinp : forall b, within sec b -> b / TARGET_PAGE_SIZE = p).
  { intros b Hb. unfold within in Hb. fold o in Hb. symmetry. apply (Z.div_unique _ _ _ (b - p * TARGET_PAGE_SIZE)); unfold TARGET_PAGE_SIZE in *; lia. }
  assert (Hans : forall a, 0 <= a < 2 ^ 64 -> answer d' t1 a = if withinb sec a then place sec a else answer d t a).
  { intros a Ha. rewrite <- Han by done. eapply (in_subpage_answer d1 d' t1 p k sp sp'); try done. lia. }
  split; [|  |  |done].
  - eapply (in_subpage_table d1 d' t1 p k sp sp'); try done. lia.
  - intros q Hq Nq. destruct (decide (q = p)) as [->|Hne].
    + exists o. split; [lia|]. split; [done|]. rewrite Hans by lia. rewrite (proj2 (withinb_spec sec o) Hwo). by apply place_guest.
    + rewrite Hl in Nq by done. destruct (HB q Hq Nq) as (a & Ha & Ea & Hna). exists a. split; [done|]. split; [done|].
      rewrite Hans by done. case_match; [by apply place_guest|done].
  - unfold index_of in *. rewrite (gr_sections _ _ _ _ G), length_app. cbn. lia.
Qed.

(** ** A section of any size *)
Lemma registers_none d t sec : table d t -> busy d t -> ps_size sec = 0 -> registers 0 sec d d t t.
Proof.
  intros HT HB Hz. split; try done; [lia|]. intros a _. unfold withinb. rewrite Hz. by replace (_ && _) with false by lia.
Qed.

Lemma registers_trans n1 n2 s1 s2 sec d d1 d2 t t1 t2 :
  registers n1 s1 d d1 t t1 -> registers n2 s2 d1 d2 t1 t2 ->
  (forall a, withinb sec a = withinb s1 a || withinb s2 a) -> (forall a, place s1 a = place sec a) -> (forall a, place s2 a = place sec a) ->
  registers (n1 + n2) sec d d2 t t2.
Proof.
  intros [T1 B1 C1 A1] [T2 B2 C2 A2] Hw P1 P2. split; try done; [lia|].
  intros a Ha. rewrite A2, A1, Hw, P1, P2 by done. by destruct (withinb s1 a), (withinb s2 a).
Qed.

Lemma registers_le n m sec d d' t t' : n <= m -> registers n sec d d' t t' -> registers m sec d d' t t'.
Proof. intros Hle [T B C A]. split; try done. lia. Qed.

Lemma free_after n s1 s2 d d1 t t1 : registers n s1 d d1 t t1 -> free_range d t s2 ->
  (forall a, within s2 a -> withinb s1 a = false) -> free_range d1 t1 s2.
Proof. intros R F Hd a Ha Hw. rewrite (rg_answer _ _ _ _ _ _ R), Hd by done. by apply F. Qed.

Section MemAdd.
Context (sec : PhysSection) (Hr : ranged sec) (Hg : is_guest sec).

(** The part of [sec] after its first [n] bytes. *)
Lemma advance_fields n : 0 <= n -> n < ps_size sec ->
  ps_offset_within_address_space (advance n sec) = ps_offset_within_address_space sec + n /\
  ps_size (advance n sec) = ps_size sec - n /\ ranged (advance n sec) /\ is_guest (advance n sec).
Proof.
  intros H1 H2. destruct Hr as (R1 & R2 & R3). unfold ranged. cbn [advance ps_offset_within_address_space ps_size].
  rewrite wrap_small by lia. unfold i128_sub. rewrite s128_small by (unfold in_s; lia). split_and!; try lia; try done.
Qed.

Lemma advance_place n a : 0 <= n -> n < ps_size sec -> place (advance n sec) a = place sec a.
Proof.
  intros H1 H2. destruct Hr as (R1 & R2 & R3). unfold place. cbn. destruct (ps_mr sec); try done.
  do 3 f_equal. rewrite (wrap_small 64 (ps_offset_within_address_space sec + n)) by lia.
  rewrite wrap_add_r. f_equal. lia.
Qed.

Lemma resize_place z a : place (resize z sec) a = place sec a.
Proof. done. Qed.
End MemAdd.

(** The end of the loop: what is left fits in a page. *)
Lemma loop_tail fuel d t sec n :
  ranged sec -> is_guest sec -> table d t -> busy d t -> index_of d + 2 <= TARGET_PAGE_SIZE ->
  0 <= n < 2 ^ 64 -> n < ps_size sec -> ps_size sec - n < TARGET_PAGE_SIZE ->
  (ps_offset_within_address_space sec + n) mod TARGET_PAGE_SIZE = 0 -> free_range d t (advance n sec) ->
  exists d' t', mem_add_loop (S (S fuel)) d sec n = Ok d' /\ registers 2 (advance n sec) d d' t t'.
Proof.
  intros Hr Hg HT HB Hc Hn Hlt Hz Hal HF. cbn [mem_add_loop]. replace (ps_size sec =? n) with false by lia.
  assert (i128_get64 n = Ok n) as -> by (apply i128_get64_Ok; lia). cbn [mbind outcome_bind].
  destruct (advance_fields sec Hr Hg n) as (Eo & Ez & Hr' & Hg'); [lia..|].
  destruct (register_subpage_ok d t (advance n sec)) as (d' & t' & E & R); try done; [rewrite Eo, Hal, Ez; lia|].
  rewrite E. replace (_ <? _) with true by lia. cbn [mbind outcome_bind]. rewrite Z.eqb_refl. eauto.
Qed.

Lemma neg_page_size : i128_neg TARGET_PAGE_SIZE = -4096.
Proof. reflexivity. Qed.

Lemma whole_pages z : Z.land z (-4096) = z / TARGET_PAGE_SIZE * TARGET_PAGE_SIZE.
Proof.
  change (-4096) with (Z.lnot (Z.ones 12)). change TARGET_PAGE_SIZE with (2 ^ 12).
  rewrite <- Z.ldiff_land, Z.ldiff_ones_r by lia. by rewrite Z.shiftl_mul_pow2, Z.shiftr_div_pow2 by lia.
Qed.

Lemma mem_add_loop_ok d t sec n :
  ranged sec -> is_guest sec -> table d t -> busy d t -> index_of d + 3 <= TARGET_PAGE_SIZE ->
  0 <= n < 2 ^ 64 -> n < ps_size sec -> (ps_offset_within_address_space sec + n) mod TARGET_PAGE_SIZE = 0 -> free_range d t (advance n sec) ->
  exists d' t', mem_add_loop 3 d sec n = Ok d' /\ registers 3 (advance n sec) d d' t t'.
Proof.
  intros Hr Hg HT HB Hc Hn Hlt Hal HF.
  destruct (Z.lt_ge_cases (ps_size sec - n) TARGET_PAGE_SIZE) as [Hs|Hs].
  { destruct (loop_tail 1 d t sec n) as (d' & t' & E & R); try done; [lia|].
    exists d', t'. split; [done|]. eapply registers_le; [|done]. lia. }
  cbn [mem_add_loop]. replace (ps_size sec =? n) with false by lia.
  assert (i128_get64 n = Ok n) as -> by (apply i128_get64_Ok; lia). cbn [mbind outcome_bind].
  destruct (advance_fields sec Hr Hg n) as (Eo & Ez & Hr' & Hg'); [lia..|].
  set (rest := advance n sec) in *. clearbody rest. replace (ps_size rest <? TARGET_PAGE_SIZE) with false by lia.
  rewrite subpage_idx, Eo, Hal. cbn [Z.eqb negb]. rewrite neg_page_size, whole_pages.
  destruct (page_split (ps_size rest)) as [Em Hm]. set (m := ps_size rest / TARGET_PAGE_SIZE * TARGET_PAGE_SIZE) in *.
  pose proof Hr' as (R1 & R2 & R3).
  assert (ranged (resize m rest)) as Hrm by (unfold ranged; cbn; unfold TARGET_PAGE_SIZE in *; lia).
  destruct (register_multipage_ok d t (resize m rest)) as (d1 & t1 & E1 & Rg1); try done; [lia|by cbn; rewrite Eo|by apply Z.mod_mul| |].
  { intros a Ha Hw. apply HF; [done|]. unfold within in *. cbn in Hw. lia. }
  rewrite E1. cbn [mbind outcome_bind]. change (ps_size (resize m rest)) with m.
  destruct (Z.eq_dec (ps_size rest) m) as [Eq|Ne].
  { rewrite Eq, Z.eqb_refl. exists d1, t1. split; [done|]. eapply registers_le; [|].
    2:{ replace rest with (resize m rest) by (unfold resize; rewrite <- Eq; by destruct rest). exact Rg1. } lia. }
  change (if ps_size rest =? m then Ok d1 else _) with (mem_add_loop 2 d1 rest m).
  destruct (loop_tail 0 d1 t1 rest m) as (d2 & t2 & E2 & Rg2); try done; try apply Rg1.
  - pose proof (rg_count _ _ _ _ _ _ Rg1). lia.
  - unfold TARGET_PAGE_SIZE in *. lia.
  - lia.
  - lia.
  - rewrite Eo. unfold m. rewrite Z.mod_add by done. done.
  - destruct (advance_fields rest Hr' Hg' m) as (Eo2 & Ez2 & _); [unfold TARGET_PAGE_SIZE in *; lia..|].
    eapply free_after; [exact Rg1| |].
    + intros a Ha Hw. apply HF; [done|]. unfold within in *. unfold TARGET_PAGE_SIZE in *. lia.
    + intros a Hw. unfold within, withinb in *. cbn. lia.
  - destruct (advance_fields rest Hr' Hg' m) as (Eo2 & Ez2 & _); [unfold TARGET_PAGE_SIZE in *; lia..|].
    exists d2, t2. split; [done|]. apply (registers_trans 1 2 (resize m rest) (advance m rest) rest d d1 d2 t t1 t2); try done.
    + intros a. unfold withinb. cbn [resize ps_offset_within_address_space ps_size]. rewrite Eo2, Ez2. unfold TARGET_PAGE_SIZE in *. lia.
    + intros a. apply advance_place; [done|unfold TARGET_PAGE_SIZE in *; lia..].
Qed.

Lemma left_in_page o : 0 <= o < 2 ^ 64 -> o mod TARGET_PAGE_SIZE <> 0 ->
  u64 (TARGET_PAGE_ALIGN o - o) = TARGET_PAGE_SIZE - o mod TARGET_PAGE_SIZE.
Proof.
  intros Ho Hm. unfold TARGET_PAGE_ALIGN. rewrite page_mask by (apply wrap_range; lia). unfold TARGET_PAGE_SIZE in *.
  destruct (Z.lt_ge_cases (o + 4096 - 1) (2 ^ 64)) as [Hlt|Hge].
  - rewrite (wrap_small 64 (o + 4096 - 1)) by lia. rewrite wrap_small; Z.div_mod_to_equations; lia.
  - assert (u64 (o + 4096 - 1) = o + 4096 - 1 - 2 ^ 64) as ->.
    { unfold wrap. symmetry. apply (Z.mod_unique _ _ 1); lia. }
    rewrite (Z.div_small (_ - 2 ^ 64)) by lia. unfold wrap. change (0 * 4096 - o) with (- o).
    assert (- o mod 2 ^ 64 = 2 ^ 64 - o) as -> by (symmetry; apply (Z.mod_unique _ _ (-1)); lia).
    Z.div_mod_to_equations. lia.
Qed.

Lemma mem_add_ok d t section :
  let sec := of_section section in
  table d t -> busy d t -> index_of d + 5 <= TARGET_PAGE_SIZE -> ranged sec -> free_range d t sec ->
  exists d' t', mem_add d section = Ok d' /\ registers 5 sec d d' t t'.
Proof.
  intros sec HT HB Hc Hr HF. unfold mem_add. fold sec. cbv zeta. set (o := ps_offset_within_address_space sec).
  pose proof Hr as (R1 & R2 & R3). fold o in R1, R3. assert (is_guest sec) as Hg by (by eexists).
  clearbody sec.
  rewrite subpage_idx. destruct (Z.eqb_spec (o mod TARGET_PAGE_SIZE) 0) as [Hal|Hal]; cbn [negb].
  - destruct (advance_fields sec Hr Hg 0) as (Eo & Ez & _); [lia..|].
    destruct (mem_add_loop_ok d t sec 0) as (d' & t' & E & Rg); try done; try lia; [fold o; by rewrite Z.add_0_r| |].
    { intros a Ha Hw. apply HF; [done|]. unfold within in *. lia. }
    exists d', t'. split; [done|]. destruct Rg as [T B C A]. split; try done; [lia|]. intros a Ha. rewrite A by done.
    rewrite advance_place by (done || lia). unfold withinb. rewrite Eo, Ez. by rewrite Z.add_0_r, Z.sub_0_r.
  - rewrite left_in_page by (done || lia). set (h := Z.min _ _).
    change (ps_size (resize h sec)) with h.
    destruct (page_split o) as [_ Hm].
    destruct (register_subpage_ok d t (resize h sec)) as (d1 & t1 & E1 & Rg1); try done; try lia.
    { unfold ranged. cbn. fold o. lia. }
    { cbn. fold o. lia. }
    { intros a Ha Hw. apply HF; [done|]. unfold within in *. cbn in Hw. lia. }
    rewrite E1. cbn [mbind outcome_bind].
    destruct (Z.eq_dec (ps_size sec) h) as [Eh|Nh].
    { cbn [mem_add_loop]. rewrite Eh, Z.eqb_refl. exists d1, t1. split; [done|]. eapply registers_le; [|].
      2:{ replace sec with (resize h sec) by (unfold resize; rewrite <- Eh; by destruct sec). exact Rg1. } lia. }
    assert (h = TARGET_PAGE_SIZE - o mod TARGET_PAGE_SIZE) as Eh by lia.
    destruct (advance_fields sec Hr Hg h) as (Eo & Ez & _); [lia..|].
    destruct (mem_add_loop_ok d1 t1 sec h) as (d2 & t2 & E2 & Rg2); try done; try apply Rg1.
    + pose proof (rg_count _ _ _ _ _ _ Rg1). lia.
    + unfold TARGET_PAGE_SIZE in *. lia.
    + lia.
    + fold o. rewrite Eh. unfold TARGET_PAGE_SIZE in *. Z.div_mod_to_equations. lia.
    + eapply free_after; [exact Rg1| |].
      * intros a Ha Hw. apply HF; [done|]. unfold within in *. lia.
      * intros a Hw. unfold within, withinb in *. cbn. lia.
    + exists d2, t2. split; [done|]. apply (registers_trans 2 3 (resize h sec) (advance h sec) sec d d1 d2 t t1 t2); try done.
      * intros a. unfold withinb. cbn [resize ps_offset_within_address_space ps_size]. rewrite Eo, Ez. fold o. lia.
      * intros a. apply advance_place; [done|lia..].
Qed.

(** ** Compaction *)
Definition compacted (d d' : AddressSpaceDispatch) (t : tree) : Prop :=
  pm_sections (d_map d') = pm_sections (d_map d) /\ d_subpages d' = d_subpages d /\
  forall a, 0 <= a < 2 ^ 64 -> phys_page_find (d_phys_map d') a (d_map d') = Ok (look t (a / TARGET_PAGE_SIZE)).

Lemma compact_all_ok d t : table d t -> exists d', phys_page_compact_all d = Ok d' /\ compacted d d' t.
Proof.
  intros HT. unfold phys_page_compact_all. pose proof (tb_good _ _ HT) as [Hh Hs Hf].
  destruct (Z.eqb_spec (pe_skip (d_phys_map d)) 0) as [E|Hne]; cbn [negb].
  { exists d. split; [done|]. split_and!; try done. intros a Ha. by apply find_ok. }
  destruct (compact_ok (S P_L2_LEVELS) H ltac:(unfold H; lia) _ _ _ Hh Hs Hf) as (nodes' & e' & t' & -> & [R1 R2 R3 R4 R5 R6]).
  { intros s ->. apply Hne. cbn in Hh. by rewrite Hh. }
  cbn [mbind outcome_bind]. eexists. split; [done|]. split_and!; try done. intros a Ha.
  unfold phys_page_find. cbn [with_map with_nodes d_phys_map d_map pm_nodes]. rewrite shift_page, (find_walk_ok _ t'); [|done|done|done].
  cbn [mbind outcome_bind]. apply (find_result d t HT a); [done|]. specialize (R5 (a / TARGET_PAGE_SIZE)).
  destruct (page_bound a Ha) as [H0 _]. specialize (R5 H0). by destruct (twalk t _ _).
Qed.

Lemma lookup_region_ok d d' t a : table d t -> compacted d d' t -> 0 <= a < 2 ^ 64 ->
  exists s, address_space_lookup_region d' a true = Ok s /\ place_of d' s a = answer d t a.
Proof.
  intros HT (Es & Esub & Hfind) Ha. unfold address_space_lookup_region. rewrite Hfind by done. cbn [mbind outcome_bind].
  assert (forall s, place_of d' s a = place_of d s a) as Hpl by (intros s; unfold place_of; by rewrite Es).
  pose proof (page_bound a Ha) as Hp. set (p := a / TARGET_PAGE_SIZE) in *. unfold section_at, answer, final. fold p. rewrite Es, Esub.
  destruct (decide (look t p = PHYS_SECTION_UNASSIGNED)) as [->|Hne].
  { change (Z.to_nat PHYS_SECTION_UNASSIGNED) with O. rewrite (tb_first _ _ HT). cbn. eauto. }
  destruct (tb_page _ _ HT p Hp Hne) as (sec & R & _ & _ & Hm). rewrite (proj1 (proj2 R)). cbn [mbind outcome_bind option_bind].
  destruct (ps_mr sec) as [| | | |k|mr]; try done; [|cbn; eauto].
  destruct Hm as (_ & _ & sp & -> & [_ Hlen _]). rewrite subpage_idx. cbn [mbind option_bind].
  destruct (lookup_lt_is_Some_2 (sp_sub_section sp) (Z.to_nat (a mod TARGET_PAGE_SIZE))) as [v ->].
  { destruct (page_split a). lia. }
  cbn. eauto.
Qed.

(** C34 (equivalence): compaction runs on every table and the lookup of the
    compacted table finds, for every address, what the lookup finds before. *)
Theorem compaction_preserves_lookup d t :
  table d t ->
  exists d', phys_page_compact_all d = Ok d' /\
    forall a resolve_subpage, 0 <= a < 2 ^ 64 ->
      address_space_lookup_region d' a resolve_subpage = address_space_lookup_region d a resolve_subpage.
Proof.
  intros HT. destruct (compact_all_ok d t HT) as (d' & E & Es & Esub & Hf). exists d'. split; [done|].
  intros a r Ha. unfold address_space_lookup_region, section_at. by rewrite Hf, Es, Esub, (find_ok d t HT a Ha) by done.
Qed.

(** ** A topology update *)
Definition hit_place (h : Hit) : option Z * Z * bool := (Some (h_mr h), h_offset h, h_readonly h).

Lemma mem_begin_ok : exists d, mem_begin = Ok d /\ table d TNil /\ busy d TNil /\ index_of d = 4 /\ forall a, answer d TNil a = None.
Proof.
  eexists. split; [reflexivity|]. split; [split; done|]. split; [by intros p _ []|]. done.
Qed.

Section Update.
Context (ls : list MemoryListener) (as_ id : Z) (Hids : NoDup (ml_id <$> ls)) (Hin : dispatch_listener id as_ ∈ ls).

Definition move_events (m : move) : list event :=
  match m with
  | MDel _ => []
  | MKeep _ n => [EvSection cb_region_nop (sec as_ n)]
  | MAdd n => [EvSection cb_region_add (sec as_ n)]
  end.

Lemma dispatch_calls cb fr d : calls_for id (region_call ls as_ fr d cb) = if dispatch_has cb then [EvSection cb (sec as_ fr)] else [].
Proof. apply (calls_for_region ls as_ (dispatch_listener id as_) Hids Hin). by right. Qed.

Lemma dispatch_moves adding m : calls_for id (move_calls ls as_ adding m) = if adding then move_events m else [].
Proof.
  destruct m as [o|o n|n], adding; cbn [move_calls move_events]; try done; rewrite ?calls_for_app, ?dispatch_calls; try done.
  unfold log_calls. repeat case_match; by rewrite ?dispatch_calls.
Qed.

Lemma dispatch_events adding ms :
  calls_for id (flat_map (move_calls ls as_ adding) ms) = if adding then flat_map move_events ms else [].
Proof.
  induction ms as [|m ms IH]; [by destruct adding|]. cbn [flat_map]. rewrite calls_for_app, IH, dispatch_moves. by destruct adding.
Qed.

(** The calls of the adding pass register the ranges of the new view. *)
Lemma additions_ok cur ms : forall lb d t,
  0 <= lb -> sorted_from lb (news ms) -> table d t -> busy d t ->
  index_of d + 5 * Z.of_nat (length (news ms)) <= TARGET_PAGE_SIZE -> (forall a, lb <= a < 2 ^ 64 -> answer d t a = None) ->
  exists d' t', ofold dispatch_callback {| as_dispatch := cur; as_next_dispatch := Some d |} (flat_map move_events ms) =
      Ok {| as_dispatch := cur; as_next_dispatch := Some d' |} /\ table d' t' /\
    forall a, 0 <= a < 2 ^ 64 ->
      answer d' t' a = match view_at (news ms) a with Some h => Some (hit_place h) | None => answer d t a end.
Proof.
  induction ms as [|m ms IH]; intros lb d t Hlb Hs HT HB Hc Hfree; [by exists d, t|].
  assert (forall n, m = MAdd n \/ (exists o, m = MKeep o n) -> exists d1 t1,
    ofold dispatch_callback {| as_dispatch := cur; as_next_dispatch := Some d |} (move_events m) =
      Ok {| as_dispatch := cur; as_next_dispatch := Some d1 |} /\ registers 5 (of_section (sec as_ n)) d d1 t t1 /\
    news (m :: ms) = n :: news ms) as Hstep.
  { intros n Hm. assert (news (m :: ms) = n :: news ms) as En by (destruct Hm as [->|[o ->]]; done).
    rewrite En in Hs, Hc. destruct Hs as (H1 & H2 & H3 & _). cbn [length] in Hc.
    destruct (mem_add_ok d t (sec as_ n)) as (d1 & t1 & E & R); try done; [lia|unfold ranged; cbn; lia| |].
    - intros a Ha Hw. apply Hfree. unfold within in Hw. cbn in Hw. lia.
    - exists d1, t1. split_and!; [|done|done]. destruct Hm as [->|[o ->]]; cbn [move_events ofold dispatch_callback as_next_dispatch];
      rewrite E; done. }
  assert (forall n, m = MAdd n \/ (exists o, m = MKeep o n) -> exists d' t',
    ofold dispatch_callback {| as_dispatch := cur; as_next_dispatch := Some d |} (flat_map move_events (m :: ms)) =
      Ok {| as_dispatch := cur; as_next_dispatch := Some d' |} /\ table d' t' /\
    forall a, 0 <= a < 2 ^ 64 ->
      answer d' t' a = match view_at (news (m :: ms)) a with Some h => Some (hit_place h) | None => answer d t a end) as Hnext.
  { intros n Hm. destruct (Hstep n Hm) as (d1 & t1 & E1 & [T1 B1 C1 A1] & En). rewrite En in Hs, Hc |- *.
    pose proof Hs as (H1 & H2 & H3 & H4 & H5 & H6). cbn [length] in Hc.
    destruct (IH (start (fr_addr n) + size (fr_addr n)) d1 t1) as (d' & t' & E & HT' & Han); try done; [lia|lia| |].
    - intros a Ha. rewrite A1 by lia. unfold withinb. cbn. replace (_ && _) with false by lia. apply Hfree. lia.
    - exists d', t'. cbn [flat_map]. rewrite ofold_app, E1. cbn [mbind outcome_bind]. split_and!; try done.
      intros a Ha. rewrite Han, A1 by done. unfold view_at. cbn [first_some].
      rewrite (sorted_from_contains lb (news ms)) by done.
      change (withinb (of_section (sec as_ n)) a) with ((start (fr_addr n) <=? a) && (a <? start (fr_addr n) + size (fr_addr n))).
      destruct (first_some _ (news ms)) as [h|] eqn:Ev.
      + destruct ((start (fr_addr n) <=? a) && (a <? start (fr_addr n) + size (fr_addr n))) eqn:Ew; [|done].
        fold (view_at (news ms) a) in Ev. rewrite (view_at_below (start (fr_addr n) + size (fr_addr n))) in Ev by (done || lia). done.
      + destruct ((start (fr_addr n) <=? a) && (a <? start (fr_addr n) + size (fr_addr n))) eqn:Ew; [|done]. cbn. unfold hit_place. cbn. do 3 f_equal. rewrite wrap_small; lia. }
  destruct m as [o|o n|n]; [|apply (Hnext n); eauto..]. by apply (IH lb).
Qed.

Lemma dispatch_update cur old_view new_view :
  sorted_from 0 (fv_ranges old_view) -> sorted_from 0 (fv_ranges new_view) ->
  4 + 5 * Z.of_nat (length (fv_ranges new_view)) <= TARGET_PAGE_SIZE ->
  exists dels adds cur' d,
    address_space_update_topology_pass ls as_ old_view new_view false = Ok dels /\
    address_space_update_topology_pass ls as_ old_view new_view true = Ok adds /\
    ofold dispatch_callback cur (EvGlobal cb_begin :: calls_for id (dels ++ adds) ++ [EvGlobal cb_commit]) = Ok cur' /\
    as_dispatch cur' = Some d /\
    forall a, 0 <= a < 2 ^ 64 -> exists s, address_space_lookup_region d a true = Ok s /\
      place_of d s a = hit_place <$> view_at (fv_ranges new_view) a.
Proof.
  intros Ho Hn Hc. unfold address_space_update_topology_pass.
  set (fuel := S (length (fv_ranges old_view) + length (fv_ranges new_view))).
  rewrite (topology_loop_moves ls as_ _ _ false fuel 0 0), (topology_loop_moves ls as_ _ _ true fuel 0 0);
    try done; try (unfold fuel; rewrite !drop_0; lia).
  rewrite !drop_0, !app_nil_l. do 2 eexists. set (ms := moves fuel _ _).
  destruct (moves_olds_news fuel (fv_ranges old_view) (fv_ranges new_view)) as [_ Hnw]; [unfold fuel; lia|]. fold ms in Hnw.
  destruct mem_begin_ok as (d0 & E0 & HT0 & HB0 & Hi0 & Ha0).
  destruct (additions_ok (as_dispatch cur) ms 0 d0 TNil) as (d1 & t1 & E1 & HT1 & Ha1); try done; [by rewrite Hnw|by rewrite Hnw, Hi0|].
  destruct (compact_all_ok d1 t1 HT1) as (d & E2 & Hcd).
  eexists _, d. split; [done|]. split; [done|]. split; [|split; [|]].
  - rewrite calls_for_app, !dispatch_events. cbn [app ofold dispatch_callback]. rewrite E0. cbn [mbind outcome_bind].
    fold ms. rewrite ofold_app, E1. cbn [mbind outcome_bind ofold dispatch_callback mem_commit as_next_dispatch]. by rewrite E2.
  - done.
  - intros a Ha. destruct (lookup_region_ok d1 d t1 a HT1 Hcd Ha) as (s & Es & Ep). exists s. split; [done|].
    rewrite Ep, Ha1, Hnw by done. destruct (view_at _ a); [done|apply Ha0].
Qed.
End Update.

(** C1 (refinement): from the region tree to the page table.  The flat view of
    any acyclic region tree is generated; when it has at most 818 ranges, the
    calls a topology update makes to the dispatch listener leave a table
    whose lookup finds, for every address, the region, the offset and the
    readonly flag that walking the tree in priority order gives. *)
Theorem dispatch_resolves regs refs root ls as_ id cur old_view :
  wf_regions regs -> (forall mr, root = Some mr -> is_Some (regs !! mr)) ->
  NoDup (ml_id <$> ls) -> dispatch_listener id as_ ∈ ls -> sorted_from 0 (fv_ranges old_view) ->
  exists refs' view, generate_memory_topology regs refs root = Ok (refs', view) /\
    (Z.of_nat (length (fv_ranges view)) <= 818 ->
     exists dels adds cur' d,
       address_space_update_topology_pass ls as_ old_view view false = Ok dels /\
       address_space_update_topology_pass ls as_ old_view view true = Ok adds /\
       ofold dispatch_callback cur (EvGlobal cb_begin :: calls_for id (dels ++ adds) ++ [EvGlobal cb_commit]) = Ok cur' /\
       as_dispatch cur' = Some d /\
       forall a, 0 <= a < 2 ^ 64 -> exists s, address_space_lookup_region d a true = Ok s /\
         place_of d s a = hit_place <$> resolve_root regs root a).
Proof.
  intros Hwf Hroot Hids Hin Ho.
  destruct (generate_unfold regs refs root Hwf Hroot) as (refs' & rendered & view & Hgen & (Hs & Hok & _ & _ & Hat) & Hsim).
  destruct (flatview_simplify_spec rendered Hs Hok) as (view' & Hsim' & Hs' & _ & _ & _ & Hat').
  rewrite Hsim in Hsim'. injection Hsim' as <-. exists refs', view. split; [done|]. intros Hlen.
  destruct (dispatch_update ls as_ id Hids Hin cur old_view view) as (dels & adds & cur' & d & H1 & H2 & H3 & H4 & H5); try done.
  { unfold TARGET_PAGE_SIZE. lia. }
  exists dels, adds, cur', d. split_and!; try done. intros a Ha. destruct (H5 a Ha) as (s & Es & Ep). exists s.
  split; [done|]. by rewrite Ep, Hat', Hat.
Qed.

Lemma dispatch_resolves_witness :
  exists refs' view d s,
    generate_memory_topology pc_regions ∅ (Some 1) = Ok (refs', view) /\
    address_space_lookup_region d 0x9f900 true = Ok s /\
    place_of d s 0x9f900 = hit_place <$> resolve_root pc_regions (Some 1) 0x9f900.
Proof.
  destruct (dispatch_resolves pc_regions ∅ (Some 1) [dispatch_listener 7 0] 0 7
              {| as_dispatch := None; as_next_dispatch := None |} flatview_init pc_regions_wf pc_root_in)
    as (refs' & view & Hg & Hd); [apply NoDup_singleton|by apply list_elem_of_singleton|done|].
  assert (length (fv_ranges view) = 3%nat) as Hlen.
  { pose proof Hg as Hg'. vm_compute in Hg'. by injection Hg' as _ <-. }
  destruct Hd as (dels & adds & cur' & d & _ & _ & _ & _ & Ha); [lia|].
  destruct (Ha 0x9f900) as (s & Es & Ep); [lia|]. exists refs', view, d, s.
  split; [exact Hg|]. split; [exact Es|exact Ep].
Defined.

(** A table with one section, of a page and a half. *)
Definition odd_section : MemoryRegionSection :=
  {| s_mr := Some 5; s_address_space := 0; s_offset_within_region := 0; s_size := 0x1800;
     s_offset_within_address_space := 0x200800; s_readonly := false |}.

Lemma compaction_preserves_lookup_witness :
  exists d0 d d', mem_begin = Ok d0 /\ mem_add d0 odd_section = Ok d /\ phys_page_compact_all d = Ok d' /\
    address_space_lookup_region d' 0x200900 true = address_space_lookup_region d 0x200900 true.
Proof.
  destruct mem_begin_ok as (d0 & E0 & HT0 & HB0 & Hi0 & Ha0).
  destruct (mem_add_ok d0 TNil odd_section HT0 HB0) as (d & t & E & [HT _ _ _]).
  - rewrite Hi0. by vm_compute.
  - unfold ranged. cbn. lia.
  - intros a _ _. apply Ha0.
  - destruct (compaction_preserves_lookup d t HT) as (d' & Ec & Hl).
    exists d0, d, d'. split; [exact E0|]. split; [exact E|]. split; [exact Ec|]. apply Hl. lia.
Defined.

Lemma phys_page_set_maps_witness :
  exists d0 d, mem_begin = Ok d0 /\ phys_page_set d0 0x1ff 0x202 4 = Ok d /\
    Z.of_nat (length (pm_nodes (d_map d))) <= 11.
Proof.
  destruct mem_begin_ok as (d0 & E0 & HT0 & _ & _ & _).
  assert (length (pm_nodes (d_map d0)) = O) as En by (vm_compute in E0; by injection E0 as <-).
  destruct (phys_page_set_maps d0 TNil 0x1ff 0x202 4) as (d & t & E & _ & Hn & _).
  - apply HT0.
  - lia.
  - lia.
  - by vm_compute.
  - by vm_compute.
  - rewrite En. by vm_compute.
  - done.
  - exists d0, d. split; [exact E0|]. split; [exact E|]. rewrite En in Hn. exact Hn.
Defined.

(** ** Findings *)

(** exec.c:258 says that an only child that is a leaf cannot happen: a section
    of one large page makes it happen. *)
Definition large_section : MemoryRegionSection :=
  {| s_mr := Some 5; s_address_space := 0; s_offset_within_region := 0; s_size := 0x200000;
     s_offset_within_address_space := 0x200000; s_readonly := false |}.

Lemma compaction_reaches_leaf :
  (d0 ← mem_begin; d ← mem_add d0 large_section; d ← phys_page_compact_all d; Ok (d_phys_map d)) = Ok (leaf_entry 4).
Proof. vm_compute. reflexivity. Qed.
