(* ===== verification/Translate.v ===== *)
(** * Guest memory accesses (exec.c)

    [address_space_translate] follows the page table, and any IOMMU, to a
    region; [address_space_rw] splits an access into pieces, which go to RAM
    through the block list or to a device through the MMIO dispatch.

    The IOMMU callbacks and the device callbacks are parameters.  A host
    address is a number and host memory a function from addresses to bytes. *)
From S2P Require Import Prelude Int128 HostUtils Bitops MemRegion MemAccess FlatView Topology RamList PhysMap PhysTree Dispatch.
Local Open Scope Z_scope.

Record IOMMUTLBEntry := {
  target_as : Z;
  translated_addr : Z;
  addr_mask : Z;
  perm : Z
}.

(** What translation reads besides the page tables: the regions, the IOMMU of
    a region, the dispatch table of each address space. *)
Record Machine := {
  m_regions : regions;
  m_iommu : Z -> option (Z -> IOMMUTLBEntry);
  m_dispatch : Z -> AddressSpaceDispatch
}.

(** A region of memory.c; the built-in regions and subpages are I/O. *)
Definition guest_region (m : Machine) (mr : PhysMr) : option MemoryRegion :=
  match mr with guest_mr (Some id) => m_regions m !! id | _ => None end.

(** [mr->size]: the built-in regions span 2^64 bytes, a subpage one page. *)
Definition phys_mr_size (m : Machine) (mr : PhysMr) : outcome Z :=
  match mr with
  | guest_mr _ => match guest_region m mr with Some r => Ok (mr_size r) | None => Abort end
  | subpage_iomem _ => Ok TARGET_PAGE_SIZE
  | _ => Ok (2 ^ 64)
  end.

(** The section, [*xlat] and [*plen]. *)
Definition address_space_translate_internal (m : Machine) (d : AddressSpaceDispatch) (addr plen : Z) (resolve_subpage : bool)
    : outcome (PhysSection * Z * Z) :=
  s ← address_space_lookup_region d addr resolve_subpage;
  section ← section_at (d_map d) s;
  let addr := u64 (addr - ps_offset_within_address_space section) in
  let xlat := u64 (addr + ps_offset_within_region section) in
  size ← phys_mr_size m (ps_mr section);
  let diff := i128_sub size addr in
  plen ← i128_get64 (Z.min diff plen);
  Ok (section, xlat, plen).

Definition memory_region_is_ram (m : Machine) (mr : PhysMr) : bool :=
  match guest_region m mr with Some r => mr_ram r | None => false end.

Definition memory_region_is_romd (m : Machine) (mr : PhysMr) : bool :=
  match guest_region m mr with Some r => mr_rom_device r && mr_romd_mode r | None => false end.

Definition region_readonly (m : Machine) (mr : PhysMr) : bool :=
  match guest_region m mr with Some r => mr_readonly r | None => false end.

Definition region_flush (m : Machine) (mr : PhysMr) : bool :=
  match guest_region m mr with Some r => mr_flush_coalesced_mmio r | None => false end.

Definition memory_access_is_direct (m : Machine) (mr : PhysMr) (is_write : bool) : bool :=
  if memory_region_is_ram m mr then negb (is_write && region_readonly m mr)
  else if memory_region_is_romd m mr then negb is_write
  else false.

Definition iommu_of (m : Machine) (mr : PhysMr) : option (Z -> IOMMUTLBEntry) :=
  match mr with guest_mr (Some id) => m_iommu m id | _ => None end.

(** The loop over IOMMUs: the region, the address in it and the length. *)
Fixpoint translate_loop (fuel : nat) (m : Machine) (as_ addr plen len : Z) (is_write : bool) : outcome (PhysMr * Z * Z) :=
  match fuel with
  | O => NoFuel
  | S fuel =>
      '(section, addr, plen) ← address_space_translate_internal m (m_dispatch m as_) addr plen true;
      let mr := ps_mr section in
      match iommu_of m mr with
      | None => Ok (mr, addr, len)
      | Some translate =>
          let iotlb := translate addr in
          let addr := Z.lor (Z.land (translated_addr iotlb) (not64 (addr_mask iotlb))) (Z.land addr (addr_mask iotlb)) in
          let len := Z.min len (u64 (Z.lor addr (addr_mask iotlb) - addr + 1)) in
          if Z.testbit (perm iotlb) (b2z is_write) then translate_loop fuel m (target_as iotlb) addr plen len is_write
          else Ok (io_mem_unassigned, addr, len)
      end
  end.

(** The region, [*xlat] and [*plen]; [fuel] bounds the chain of IOMMUs. *)
Definition address_space_translate (fuel : nat) (m : Machine) (as_ addr plen : Z) (is_write : bool) : outcome (PhysMr * Z * Z) :=
  '(mr, addr, len) ← translate_loop fuel m as_ addr plen plen is_write;
  let len :=
    if memory_access_is_direct m mr is_write then
      let page := u64 (Z.land addr (not64 (TARGET_PAGE_SIZE - 1)) + TARGET_PAGE_SIZE - addr) in
      Z.min page len
    else len in
  Ok (mr, addr, len).

(** ** Reading and writing *)
Section Access.
Context {D : Type} `{CoalescedBuffer D} (ops : PhysMr -> MemoryRegionOps D).

Definition memory_access_size (mr : PhysMr) (l addr : Z) : Z :=
  let access_size_max := valid_max_access_size (ops mr) in
  let access_size_max := if access_size_max =? 0 then 4 else access_size_max in
  let access_size_max :=
    if negb (impl_unaligned (ops mr)) then
      let align_size_max := u32 (Z.land addr (u64 (- addr))) in
      if negb (align_size_max =? 0) && (align_size_max <? access_size_max) then align_size_max else access_size_max
    else access_size_max in
  let l := if access_size_max <? l then access_size_max else l in
  if negb (Z.land l (l - 1) =? 0) then Z.shiftl 1 (32 - clz32 l - 1) else l.

(** [mr->ram_addr] *)
Definition get_ram_addr (m : Machine) (mr : PhysMr) : outcome Z :=
  match guest_region m mr with Some r => Ok (mr_ram_addr r) | None => Abort end.

Record AccessState := {
  ac_ram : RamState;
  ac_host : Z -> Z;
  ac_dev : D
}.

(** [memcpy(ptr, bytes, n)] *)
Definition host_write (host : Z -> Z) (ptr : Z) (bytes : list Z) : Z -> Z :=
  fun a => if (ptr <=? a) && (a <? ptr + Z.of_nat (length bytes)) then nth (Z.to_nat (a - ptr)) bytes 0 else host a.
Definition host_read (host : Z -> Z) (ptr : Z) (n : nat) : list Z := (fun i => host (ptr + Z.of_nat i)) <$> seq 0 n.

(** [ldl_p(buf)] and [stl_p(buf, val)] for [n] bytes, little-endian. *)
Definition ldn_p (buf : list Z) (n : nat) : Z := le_bytes n (fun i => nth (Z.to_nat i) buf 0) 0.
Definition stn_p (n : nat) (val : Z) : list Z := (fun i => store_byte false (Z.of_nat n) val (Z.of_nat i)) <$> seq 0 n.

Definition access_width (l : Z) : bool := (l =? 1) || (l =? 2) || (l =? 4) || (l =? 8).

(** [address_space_rw] with [is_write]: the state, and whether a device
    refused part of the access. *)
Fixpoint address_space_write (fuel fuel_iommu : nat) (m : Machine) (as_ addr : Z) (buf : list Z) (error : bool) (s : AccessState)
    : outcome (AccessState * bool) :=
  match buf with
  | [] => Ok (s, error)
  | _ =>
      match fuel with
      | O => NoFuel
      | S fuel =>
          '(mr, addr1, l) ← address_space_translate fuel_iommu m as_ addr (Z.of_nat (length buf)) true;
          if negb (memory_access_is_direct m mr true) then
            let l := memory_access_size mr l addr1 in
            _ ← c_assert (access_width l);
            '(dev, e) ← memory_region_dispatch_write (ops mr) (region_flush m mr) (ac_dev s) addr1 (ldn_p buf (Z.to_nat l)) l;
            address_space_write fuel fuel_iommu m as_ (u64 (addr + l)) (drop (Z.to_nat l) buf) (error || e)
              {| ac_ram := ac_ram s; ac_host := ac_host s; ac_dev := dev |}
          else
            ram_addr ← get_ram_addr m mr;
            let addr1 := u64 (addr1 + ram_addr) in
            '(ptr, ram) ← qemu_get_ram_ptr addr1 (ac_ram s);
            let host := host_write (ac_host s) ptr (take (Z.to_nat l) buf) in
            dirty ← invalidate_and_set_dirty addr1 l (rl_dirty ram);
            address_space_write fuel fuel_iommu m as_ (u64 (addr + l)) (drop (Z.to_nat l) buf) error
              {| ac_ram := set_dirty_memory dirty ram; ac_host := host; ac_dev := ac_dev s |}
      end
  end.

(** [address_space_rw] without [is_write]: the bytes read as well. *)
Fixpoint address_space_read (fuel fuel_iommu : nat) (m : Machine) (as_ addr : Z) (len : nat) (error : bool) (s : AccessState)
    : outcome (AccessState * list Z * bool) :=
  match len with
  | O => Ok (s, [], error)
  | _ =>
      match fuel with
      | O => NoFuel
      | S fuel =>
          '(mr, addr1, l) ← address_space_translate fuel_iommu m as_ addr (Z.of_nat len) false;
          if negb (memory_access_is_direct m mr false) then
            let l := memory_access_size mr l addr1 in
            _ ← c_assert (access_width l);
            '(dev, val, e) ← memory_region_dispatch_read (ops mr) (region_flush m mr) (ac_dev s) addr1 l;
            '(s, bytes, error) ← address_space_read fuel fuel_iommu m as_ (u64 (addr + l)) (len - Z.to_nat l) (error || e)
              {| ac_ram := ac_ram s; ac_host := ac_host s; ac_dev := dev |};
            Ok (s, stn_p (Z.to_nat l) val ++ bytes, error)
          else
            ram_addr ← get_ram_addr m mr;
            '(ptr, ram) ← qemu_get_ram_ptr (u64 (ram_addr + addr1)) (ac_ram s);
            let piece := host_read (ac_host s) ptr (Z.to_nat l) in
            '(s, bytes, error) ← address_space_read fuel fuel_iommu m as_ (u64 (addr + l)) (len - Z.to_nat l) error
              {| ac_ram := ram; ac_host := ac_host s; ac_dev := ac_dev s |};
            Ok (s, piece ++ bytes, error)
      end
  end.
End Access.
Arguments ac_ram {D}. Arguments ac_host {D}. Arguments ac_dev {D}.

(** ** Guest RAM *)

(** Decide the comparisons of the goal. *)
Ltac zcase :=
  repeat match goal with
    | |- context [?a <=? ?b] => destruct (Z.leb_spec a b)
    | |- context [?a <? ?b] => destruct (Z.ltb_spec a b)
    end; cbn [andb]; try (exfalso; lia).

(** Guest address [a] is the writable RAM byte [ra], at the same offset in its
    page. *)
Record ram_byte (m : Machine) (as_ a ra : Z) (s : Z) (sec : PhysSection) (r : MemoryRegion) : Prop := {
  rb_lookup : address_space_lookup_region (m_dispatch m as_) a true = Ok s;
  rb_section : section_at (d_map (m_dispatch m as_)) s = Ok sec;
  rb_region : guest_region m (ps_mr sec) = Some r;
  rb_iommu : iommu_of m (ps_mr sec) = None;
  rb_ram : mr_ram r = true;
  rb_writable : mr_readonly r = false;
  rb_inside : u64 (a - ps_offset_within_address_space sec) < mr_size r <= 2 ^ 64;
  rb_aligned : u64 (u64 (a - ps_offset_within_address_space sec) + ps_offset_within_region sec) mod TARGET_PAGE_SIZE = a mod TARGET_PAGE_SIZE;
  rb_addr : u64 (u64 (a - ps_offset_within_address_space sec) + ps_offset_within_region sec) + mr_ram_addr r = ra;
  rb_range : 0 <= mr_ram_addr r /\ ra < 2 ^ 64
}.

Definition ram_page (m : Machine) (as_ g rp : Z) : Prop :=
  forall o, 0 <= o < TARGET_PAGE_SIZE ->
    exists s sec r, ram_byte m as_ (g * TARGET_PAGE_SIZE + o) (rp * TARGET_PAGE_SIZE + o) s sec r.

(** A piece of an access to RAM stays in a page. *)
Lemma translate_ram m as_ a ra s sec r fuel plen is_write :
  ram_byte m as_ a ra s sec r -> 0 < plen < 2 ^ 64 ->
  exists x, address_space_translate (S fuel) m as_ a plen is_write =
      Ok (ps_mr sec, x, Z.min (TARGET_PAGE_SIZE - a mod TARGET_PAGE_SIZE) plen) /\
    memory_access_is_direct m (ps_mr sec) is_write = true /\
    get_ram_addr m (ps_mr sec) = Ok (mr_ram_addr r) /\ 0 <= x /\ x + mr_ram_addr r = ra.
Proof.
  intros [H1 H2 H3 H4 H5 H6 H7 H8 H9 H10] Hp. unfold address_space_translate. cbn [translate_loop].
  unfold address_space_translate_internal. rewrite H1. cbn [mbind outcome_bind]. rewrite H2. cbn [mbind outcome_bind].
  set (off := u64 (a - _)) in *. set (x := u64 (off + _)) in *.
  assert (0 <= off < 2 ^ 64) as Hoff by (apply wrap_range; lia). assert (0 <= x < 2 ^ 64) as Hx by (apply wrap_range; lia).
  assert (phys_mr_size m (ps_mr sec) = Ok (mr_size r)) as ->.
  { unfold phys_mr_size. destruct (ps_mr sec); try done. by rewrite H3. }
  cbn [mbind outcome_bind]. unfold i128_sub. rewrite s128_small by (unfold in_s; lia).
  replace (i128_get64 _) with (Ok (Z.min (mr_size r - off) plen)) by (symmetry; apply i128_get64_Ok; lia).
  cbn [mbind outcome_bind]. rewrite H4. cbn [mbind outcome_bind].
  assert (memory_access_is_direct m (ps_mr sec) is_write = true) as Hd.
  { unfold memory_access_is_direct, memory_region_is_ram, region_readonly. rewrite H3, H5, H6. by rewrite andb_false_r. }
  rewrite Hd. exists x. split_and!; try done; [|unfold get_ram_addr; by rewrite H3|lia].
  do 2 f_equal. rewrite page_mask by done. destruct (page_split x) as [Ex Hm]. rewrite H8 in *.
  rewrite wrap_small by (unfold TARGET_PAGE_SIZE in *; lia). f_equal. lia.
Qed.

Section GuestRam.
Context {D : Type} `{CoalescedBuffer D} (ops : PhysMr -> MemoryRegionOps D) (m : Machine) (as_ : Z) (rp hp : Z -> Z) (fuel_iommu : nat).

(** RAM page [rp g] of guest page [g] lies in a block, at host address
    [hp g]. *)
Definition backed (blocks : list RAMBlock) (g : Z) : Prop :=
  exists b, b ∈ blocks /\ rb_offset b <= rp g * TARGET_PAGE_SIZE /\ (rp g + 1) * TARGET_PAGE_SIZE <= rb_end b /\
    hp g = rb_host b + (rp g * TARGET_PAGE_SIZE - rb_offset b).

Definition mapped (blocks : list RAMBlock) (addr len : Z) : Prop :=
  0 <= addr /\ addr + len < 2 ^ 64 /\
  forall g, addr / TARGET_PAGE_SIZE <= g -> g * TARGET_PAGE_SIZE < addr + len -> ram_page m as_ g (rp g) /\ backed blocks g.

Definition ptr_of (a : Z) : Z := hp (a / TARGET_PAGE_SIZE) + a mod TARGET_PAGE_SIZE.

(** Host memory after the bytes of [buf] were written one by one. *)
Fixpoint guest_write (host : Z -> Z) (addr : Z) (buf : list Z) : Z -> Z :=
  match buf with
  | [] => host
  | b :: buf => guest_write (fun h => if h =? ptr_of addr then b else host h) (addr + 1) buf
  end.

Lemma guest_write_ext buf : forall f g addr, (forall h, f h = g h) -> forall h, guest_write f addr buf h = guest_write g addr buf h.
Proof.
  induction buf as [|b buf IH]; intros f g addr Hfg h; cbn [guest_write]; [done|].
  apply IH. intros k. by rewrite Hfg.
Qed.

Lemma guest_write_app b1 : forall f addr b2 h,
  guest_write f addr (b1 ++ b2) h = guest_write (guest_write f addr b1) (addr + Z.of_nat (length b1)) b2 h.
Proof.
  induction b1 as [|b b1 IH]; intros f addr b2 h; cbn [guest_write app length].
  - by replace (addr + Z.of_nat 0) with addr by lia.
  - rewrite IH. by replace (addr + 1 + Z.of_nat (length b1)) with (addr + Z.of_nat (S (length b1))) by lia.
Qed.

Lemma ptr_in_page a i : 0 <= i -> a mod TARGET_PAGE_SIZE + i < TARGET_PAGE_SIZE -> ptr_of (a + i) = ptr_of a + i.
Proof.
  intros Hi Hin. unfold ptr_of. destruct (page_split a) as [Ea Hm].
  assert ((a + i) / TARGET_PAGE_SIZE = a / TARGET_PAGE_SIZE /\ (a + i) mod TARGET_PAGE_SIZE = a mod TARGET_PAGE_SIZE + i) as [-> ->]; [|lia].
  unfold TARGET_PAGE_SIZE in *. split.
  - symmetry. apply (Z.div_unique _ _ _ (a mod 4096 + i)); lia.
  - symmetry. apply (Z.mod_unique _ _ (a / 4096)); lia.
Qed.

(** A copy inside a page. *)
Lemma host_write_guest bytes : forall host a h,
  a mod TARGET_PAGE_SIZE + Z.of_nat (length bytes) <= TARGET_PAGE_SIZE ->
  host_write host (ptr_of a) bytes h = guest_write host a bytes h.
Proof.
  induction bytes as [|b bytes IH]; intros host a h Hin; cbn [guest_write length] in *.
  - unfold host_write. cbn [length]. by zcase.
  - destruct bytes as [|b2 bytes'].
    + unfold host_write. cbn [guest_write length]. destruct (Z.eqb_spec h (ptr_of a)) as [->|Hne].
      * zcase. by rewrite Z.sub_diag.
      * by zcase.
    + cbn [length] in *. destruct (page_split a) as [_ Hm].
      assert ((a + 1) mod TARGET_PAGE_SIZE = a mod TARGET_PAGE_SIZE + 1) as E1.
      { unfold TARGET_PAGE_SIZE in *. symmetry. pose proof (Z.div_mod a 4096). apply (Z.mod_unique _ _ (a / 4096)); lia. }
      rewrite <- (IH _ (a + 1)) by lia. rewrite ptr_in_page by lia. unfold host_write. cbn [length].
      destruct (Z.eqb_spec h (ptr_of a)) as [->|Hne].
      * zcase. by rewrite Z.sub_diag.
      * zcase; try done. replace (Z.to_nat (h - ptr_of a)) with (S (Z.to_nat (h - (ptr_of a + 1)))) by lia. done.
Qed.

Lemma get_ram_block_dirty addr s b s' : qemu_get_ram_block addr s = Ok (b, s') -> rl_dirty s' = rl_dirty s.
Proof.
  unfold qemu_get_ram_block. intros E. repeat case_match; try done; injection E as _ <-; done.
Qed.

Lemma last_offset_blocks s s' : rl_blocks s' = rl_blocks s -> last_ram_offset s' = last_ram_offset s.
Proof. unfold last_ram_offset. by intros ->. Qed.

Lemma backed_page s g : ram_ok s -> backed (rl_blocks s) g ->
  0 <= rp g /\ rp g < last_ram_offset s / TARGET_PAGE_SIZE /\ (rp g + 1) * TARGET_PAGE_SIZE + TARGET_PAGE_SIZE <= 2 ^ 64.
Proof.
  intros Hok (b & Hb & H1 & H2 & _). pose proof (ro_blocks s Hok) as Hbl.
  destruct (last_ram_offset_spec s Hbl) as (Hend & _ & Hl & _). specialize (Hend b Hb).
  rewrite Forall_forall in Hbl. destruct (Hbl b Hb) as (B1 & B2 & B3 & B4 & B5). unfold TARGET_PAGE_SIZE in *.
  split_and!; [lia| |lia]. apply Z.lt_le_trans with (rp g + 1); [lia|].
  apply Z.div_le_lower_bound; lia.
Qed.

(** The host pointer of a RAM address, and the block list after the lookup. *)
Lemma get_ptr_ok s a g : ram_ok s -> backed (rl_blocks s) g -> a / TARGET_PAGE_SIZE = g ->
  exists s', qemu_get_ram_ptr (rp g * TARGET_PAGE_SIZE + a mod TARGET_PAGE_SIZE) s = Ok (ptr_of a, s') /\
    ram_ok s' /\ rl_blocks s' = rl_blocks s /\ rl_dirty s' = rl_dirty s.
Proof.
  intros Hok Hbk Hg. destruct (backed_page s g Hok Hbk) as (P1 & P2 & P3). destruct (page_split a) as [_ Hm].
  destruct Hbk as (b & Hb & H1 & H2 & Hh). unfold qemu_get_ram_ptr.
  set (ra := rp g * TARGET_PAGE_SIZE + a mod TARGET_PAGE_SIZE).
  assert (rb_offset b <= ra < rb_end b) as Hin by (unfold ra; lia).
  destruct (get_ram_block_cases s ra Hok) as [(b' & s' & E & Hb' & Hin' & Hok' & _ & Hbl & Hu)|[_ Hno]].
  - unfold in_u, ra, TARGET_PAGE_SIZE in *. lia.
  - rewrite E. cbn [mbind outcome_bind]. assert (b = b') as <- by (by apply Hu). exists s'.
    split_and!; try done; [|by eapply get_ram_block_dirty].
    do 2 f_equal. unfold ptr_of. rewrite Hg, Hh. unfold ra. lia.
  - by destruct (Hno b Hb).
Qed.

(** The pieces of a range: the first ends with its page. *)
Lemma first_piece addr len : 0 <= addr -> 0 < len ->
  let l := Z.min (TARGET_PAGE_SIZE - addr mod TARGET_PAGE_SIZE) len in
  0 < l <= len /\ addr mod TARGET_PAGE_SIZE + l <= TARGET_PAGE_SIZE /\
  forall blocks, mapped blocks addr len -> mapped blocks (addr + l) (len - l).
Proof.
  intros Ha Hlen l. destruct (page_split addr) as [E Hm]. unfold l. split_and!; try lia.
  intros blocks (M1 & M2 & M3). split_and!; try lia. intros g Hg1 Hg2. apply M3; [|lia].
  etransitivity; [|exact Hg1]. apply Z.div_le_mono; [done|lia].
Qed.

Lemma ram_at blocks addr len : mapped blocks addr len -> 0 < len ->
  let g := addr / TARGET_PAGE_SIZE in
  backed blocks g /\ exists s sec r, ram_byte m as_ addr (rp g * TARGET_PAGE_SIZE + addr mod TARGET_PAGE_SIZE) s sec r.
Proof.
  intros (M1 & M2 & M3) Hlen g. destruct (page_split addr) as [E Hm]. destruct (M3 g) as [Hp Hb]; [done|unfold g; lia|].
  split; [done|]. destruct (Hp (addr mod TARGET_PAGE_SIZE) Hm) as (s & sec & r & Hr). exists s, sec, r.
  by replace (g * TARGET_PAGE_SIZE + addr mod TARGET_PAGE_SIZE) with addr in Hr by (unfold g; lia).
Qed.

Definition migration_dirty (s : AccessState (D:=D)) (p : Z) : Prop := page_dirty (rl_dirty (ac_ram s)) DIRTY_MEMORY_MIGRATION p = true.

(** What writing [buf] at [addr] does. *)
Record writes (addr : Z) (buf : list Z) (s s' : AccessState (D:=D)) : Prop := {
  wr_ok : ram_ok (ac_ram s');
  wr_blocks : rl_blocks (ac_ram s') = rl_blocks (ac_ram s);
  wr_dev : ac_dev s' = ac_dev s;
  wr_host : forall h, ac_host s' h = guest_write (ac_host s) addr buf h;
  wr_keeps : forall p, 0 <= p -> migration_dirty s p -> migration_dirty s' p;
  wr_marks : buf <> [] -> forall g, addr / TARGET_PAGE_SIZE <= g -> g * TARGET_PAGE_SIZE < addr + Z.of_nat (length buf) ->
    migration_dirty s' (rp g)
}.

Lemma page_of_sum p o : 0 <= o < TARGET_PAGE_SIZE -> (p * TARGET_PAGE_SIZE + o) / TARGET_PAGE_SIZE = p.
Proof. intros Ho. unfold TARGET_PAGE_SIZE in *. rewrite Z.div_add_l, Z.div_small by lia. lia. Qed.

(** The first piece. *)
Lemma write_piece fuel buf addr error s :
  buf <> [] -> ram_ok (ac_ram s) -> mapped (rl_blocks (ac_ram s)) addr (Z.of_nat (length buf)) ->
  let l := Z.min (TARGET_PAGE_SIZE - addr mod TARGET_PAGE_SIZE) (Z.of_nat (length buf)) in
  exists s1, address_space_write (D:=D) ops (S fuel) (S fuel_iommu) m as_ addr buf error s =
      address_space_write ops fuel (S fuel_iommu) m as_ (addr + l) (drop (Z.to_nat l) buf) error s1 /\
    writes addr (take (Z.to_nat l) buf) s s1.
Proof.
  intros Hne Hok Hmap l. set (len := Z.of_nat (length buf)) in *.
  assert (0 < len) as Hlen by (unfold len; destruct buf; [done|cbn; lia]).
  pose proof Hmap as (M1 & M2 & _). destruct (ram_at _ _ _ Hmap Hlen) as (Hbk & s0 & sec & r & Hrb).
  set (g0 := addr / TARGET_PAGE_SIZE) in *. set (ra := rp g0 * TARGET_PAGE_SIZE + addr mod TARGET_PAGE_SIZE) in *.
  destruct (translate_ram _ _ _ _ _ _ _ fuel_iommu len true Hrb ltac:(lia)) as (x & Et & Hd & Hra & Hx0 & Hx).
  destruct (first_piece addr len ltac:(lia) Hlen) as (Hl & Hlp & _). fold l in Hl, Hlp, Et.
  destruct (get_ptr_ok (ac_ram s) addr g0 Hok Hbk eq_refl) as (ram & Ep & Hok1 & Hbl & Hdi). fold ra in Ep.
  destruct (backed_page _ _ Hok Hbk) as (P1 & P2 & P3). destruct (page_split addr) as [Ea Hm].
  assert (ra / TARGET_PAGE_SIZE = rp g0) as Epg by (by apply page_of_sum).
  destruct (invalidate_ok (last_ram_offset ram / TARGET_PAGE_SIZE) ra) with (d := rl_dirty ram) (len := l) as (dirty & Ei & Hdok & Hdm & Hmono).
  { unfold ra, TARGET_PAGE_SIZE in *. lia. }
  { by rewrite (last_offset_blocks _ _ Hbl), Epg. }
  { apply Hok1. }
  eexists. split.
  - destruct buf as [|b0 buf0]; [done|]. cbn [address_space_write]. fold len. rewrite Et. cbn [mbind outcome_bind].
    rewrite Hd, Hra. cbn [negb mbind outcome_bind]. rewrite (wrap_small 64 (x + _)), Hx by (unfold ra, TARGET_PAGE_SIZE in *; lia).
    rewrite Ep. cbn [mbind outcome_bind]. rewrite Ei. cbn [mbind outcome_bind]. by rewrite (wrap_small 64 (addr + l)) by lia.
  - assert (length (take (Z.to_nat l) buf) = Z.to_nat l) as Hlt by (rewrite length_take; unfold len in Hl; lia).
    split; cbn [ac_ram ac_host ac_dev]; try done.
    + by destruct Hok1 as [O1 O2 O3 O4 O5].
    + intros h. apply host_write_guest. lia.
    + intros p Hp Hdp. unfold migration_dirty in *. cbn. apply Hmono; try done. by rewrite Hdi.
    + intros _ g Hg1 Hg2. rewrite Hlt in Hg2. unfold migration_dirty. cbn. fold g0 in Hg1.
      assert (g = g0) as -> by (unfold TARGET_PAGE_SIZE in *; lia). by rewrite <- Epg.
Qed.

Lemma writes_trans addr b1 b2 s s1 s2 :
  b1 <> [] -> addr mod TARGET_PAGE_SIZE + Z.of_nat (length b1) <= TARGET_PAGE_SIZE ->
  (b2 <> [] -> addr mod TARGET_PAGE_SIZE + Z.of_nat (length b1) = TARGET_PAGE_SIZE) -> (forall g, backed (rl_blocks (ac_ram s)) g -> 0 <= rp g) ->
  (forall g, addr / TARGET_PAGE_SIZE <= g -> g * TARGET_PAGE_SIZE < addr + Z.of_nat (length (b1 ++ b2)) -> backed (rl_blocks (ac_ram s)) g) ->
  writes addr b1 s s1 -> writes (addr + Z.of_nat (length b1)) b2 s1 s2 -> writes addr (b1 ++ b2) s s2.
Proof.
  intros Hb1 Hp1 Hp2 Hpos Hbk [W1 W2 W3 W4 W5 W6] [V1 V2 V3 V4 V5 V6]. split; [done|congruence|congruence| | |].
  - intros h. rewrite V4, guest_write_app. by apply guest_write_ext.
  - intros p Hp Hd. apply V5, W5; done.
  - intros _ g Hg1 Hg2. destruct (page_split addr) as [Ea Hm]. pose proof (Hpos g (Hbk g Hg1 Hg2)).
    rewrite length_app, Nat2Z.inj_add in Hg2.
    destruct (decide (g * TARGET_PAGE_SIZE < addr + Z.of_nat (length b1))) as [Hin|Hout]; [by apply V5, W6|].
    assert (b2 <> []) as Hb2 by (intros ->; cbn in Hg2; lia). apply V6; [done| |lia].
    specialize (Hp2 Hb2). unfold TARGET_PAGE_SIZE in *. apply Z.lt_succ_r, Z.div_lt_upper_bound; lia.
Qed.

Lemma write_ram : forall fuel buf addr error s,
  (length buf <= fuel)%nat -> ram_ok (ac_ram s) -> mapped (rl_blocks (ac_ram s)) addr (Z.of_nat (length buf)) ->
  exists s', address_space_write (D:=D) ops fuel (S fuel_iommu) m as_ addr buf error s = Ok (s', error) /\ writes addr buf s s'.
Proof.
  induction fuel as [|fuel IH]; intros buf addr error s Hfuel Hok Hmap.
  { destruct buf; [|cbn in Hfuel; lia]. by exists s. }
  destruct (decide (buf = [])) as [->|Hne]; [by exists s|].
  assert (0 < Z.of_nat (length buf)) as Hlen by (destruct buf; [done|cbn; lia]). pose proof Hmap as (M1 & M2 & M3).
  destruct (first_piece addr _ ltac:(lia) Hlen) as (Hl & Hlp & Hnext).
  destruct (write_piece fuel buf addr error s Hne Hok Hmap) as (s1 & -> & W). set (l := Z.min _ _) in *.
  assert (length (take (Z.to_nat l) buf) = Z.to_nat l) as Hlt by (rewrite length_take; lia).
  destruct (IH (drop (Z.to_nat l) buf) (addr + l) error s1) as (s' & E & W').
  { rewrite length_drop. lia. }
  { apply W. }
  { rewrite (wr_blocks _ _ _ _ W), length_drop. replace (Z.of_nat (length buf - Z.to_nat l)) with (Z.of_nat (length buf) - l) by lia. by apply Hnext. }
  exists s'. split; [done|]. rewrite <- (take_drop (Z.to_nat l) buf). eapply writes_trans; [| | | | |exact W|].
  - intros E0. rewrite E0 in Hlt. cbn in Hlt. lia.
  - rewrite Hlt. lia.
  - intros Hd. rewrite Hlt. assert (length (drop (Z.to_nat l) buf) <> 0%nat) as Hdl by (by destruct (drop (Z.to_nat l) buf)).
    rewrite length_drop in Hdl. lia.
  - intros g Hg. by apply (backed_page (ac_ram s) g Hok).
  - intros g Hg1 Hg2. rewrite take_drop in Hg2. by apply M3.
  - by rewrite Hlt, Z2Nat.id by lia.
Qed.

Definition guest_read (host : Z -> Z) (addr : Z) (len : nat) : list Z := (fun i => host (ptr_of (addr + Z.of_nat i))) <$> seq 0 len.

Lemma guest_read_app host addr a b : guest_read host addr (a + b) = guest_read host addr a ++ guest_read host (addr + Z.of_nat a) b.
Proof.
  unfold guest_read. rewrite seq_app, fmap_app. f_equal.
  replace (seq (0 + a) b) with (Nat.add a <$> seq 0 b) by (rewrite fmap_add_seq; f_equal; lia). rewrite <- list_fmap_compose.
  apply list_fmap_ext. intros i x _. unfold compose. do 2 f_equal. lia.
Qed.

Lemma host_read_guest host a n : a mod TARGET_PAGE_SIZE + Z.of_nat n <= TARGET_PAGE_SIZE -> host_read host (ptr_of a) n = guest_read host a n.
Proof.
  intros Hin. unfold host_read, guest_read. apply list_fmap_ext. intros i x Hx. apply lookup_seq in Hx as [-> Hi].
  rewrite ptr_in_page by lia. done.
Qed.

Lemma read_ram : forall fuel len addr error s,
  (len <= fuel)%nat -> ram_ok (ac_ram s) -> mapped (rl_blocks (ac_ram s)) addr (Z.of_nat len) ->
  exists s', address_space_read (D:=D) ops fuel (S fuel_iommu) m as_ addr len error s = Ok (s', guest_read (ac_host s) addr len, error) /\
    ac_host s' = ac_host s /\ ac_dev s' = ac_dev s.
Proof.
  induction fuel as [|fuel IH]; intros len addr error s Hfuel Hok Hmap.
  { assert (len = O) as -> by lia. by exists s. }
  destruct (decide (len = O)) as [->|Hne]; [by exists s|].
  assert (0 < Z.of_nat len) as Hlen by lia. pose proof Hmap as (M1 & M2 & M3).
  destruct (ram_at _ _ _ Hmap Hlen) as (Hbk & s0 & sec & r & Hrb). set (g0 := addr / TARGET_PAGE_SIZE) in *.
  destruct (translate_ram _ _ _ _ _ _ _ fuel_iommu (Z.of_nat len) false Hrb ltac:(lia)) as (x & Et & Hd & Hra & Hx0 & Hx).
  destruct (first_piece addr _ ltac:(lia) Hlen) as (Hl & Hlp & Hnext). set (l := Z.min _ _) in *.
  destruct (get_ptr_ok (ac_ram s) addr g0 Hok Hbk eq_refl) as (ram & Ep & Hok1 & Hbl & _).
  destruct (backed_page _ _ Hok Hbk) as (P1 & P2 & P3). destruct (page_split addr) as [Ea Hm].
  destruct (IH (len - Z.to_nat l)%nat (addr + l) error {| ac_ram := ram; ac_host := ac_host s; ac_dev := ac_dev s |}) as (s' & E & Hh & Hdev);
    [lia|done| |].
  { cbn [ac_ram]. rewrite Hbl. replace (Z.of_nat (len - Z.to_nat l)) with (Z.of_nat len - l) by lia. by apply Hnext. }
  exists s'. split; [|done]. destruct len as [|len']; [done|]. cbn [address_space_read]. rewrite Et. cbn [mbind outcome_bind].
  rewrite Hd, Hra. cbn [negb mbind outcome_bind].
  rewrite (wrap_small 64 (_ + x)), (Z.add_comm _ x), Hx by (unfold TARGET_PAGE_SIZE in *; lia). rewrite Ep. cbn [mbind outcome_bind].
  rewrite (wrap_small 64 (addr + l)) by lia. rewrite E. cbn [mbind outcome_bind ac_host]. do 3 f_equal.
  rewrite host_read_guest by lia. replace (addr + l) with (addr + Z.of_nat (Z.to_nat l)) by lia. rewrite <- guest_read_app. f_equal. lia.
Qed.

(** Host memory away from the range, and at the range when no two of its bytes
    share a host address. *)
Lemma guest_write_away buf : forall host addr h,
  (forall i, 0 <= i < Z.of_nat (length buf) -> ptr_of (addr + i) <> h) -> guest_write host addr buf h = host h.
Proof.
  induction buf as [|b buf IH]; intros host addr h Haway; [done|]. cbn [guest_write length] in *. rewrite IH.
  - destruct (Z.eqb_spec h (ptr_of addr)) as [->|]; [|done]. destruct (Haway 0); [lia|]. by rewrite Z.add_0_r.
  - intros i Hi. replace (addr + 1 + i) with (addr + (i + 1)) by lia. apply Haway. lia.
Qed.

Lemma guest_write_read buf : forall host addr,
  (forall i j, 0 <= i < j -> j < Z.of_nat (length buf) -> ptr_of (addr + i) <> ptr_of (addr + j)) ->
  guest_read (guest_write host addr buf) addr (length buf) = buf.
Proof.
  induction buf as [|b buf IH]; intros host addr Hinj; [done|]. cbn [length] in *.
  change (S (length buf)) with (1 + length buf)%nat. rewrite guest_read_app. transitivity ([b] ++ buf); [|done]. f_equal.
  - unfold guest_read. cbn. rewrite Z.add_0_r. f_equal. rewrite guest_write_away; [by rewrite Z.eqb_refl|].
    intros i Hi. replace (addr + 1 + i) with (addr + (i + 1)) by lia. replace addr with (addr + 0) at 2 by lia.
    intros E. symmetry in E. revert E. apply Hinj; lia.
  - cbn [guest_write]. change (Z.of_nat 1) with 1. apply IH. intros i j Hij Hj. replace (addr + 1 + i) with (addr + (i + 1)) by lia.
    replace (addr + 1 + j) with (addr + (j + 1)) by lia. apply Hinj; lia.
Qed.

Lemma guest_read_ext f g addr n : (forall h, f h = g h) -> guest_read f addr n = guest_read g addr n.
Proof. intros Hfg. apply list_fmap_ext. intros i x _. apply Hfg. Qed.

(** C7 (roundtrip): an access to guest RAM, whatever pages and blocks it
    spans, completes without an error and without touching a device; what is
    written can be read back, host memory changes nowhere else, and every
    page written is marked for migration. *)
Theorem guest_ram_roundtrip fuel buf addr s :
  (length buf <= fuel)%nat -> ram_ok (ac_ram s) -> mapped (rl_blocks (ac_ram s)) addr (Z.of_nat (length buf)) ->
  (forall i j, 0 <= i < j -> j < Z.of_nat (length buf) -> ptr_of (addr + i) <> ptr_of (addr + j)) ->
  exists s' s'',
    address_space_write (D:=D) ops fuel (S fuel_iommu) m as_ addr buf false s = Ok (s', false) /\
    address_space_read (D:=D) ops fuel (S fuel_iommu) m as_ addr (length buf) false s' = Ok (s'', buf, false) /\
    ac_dev s'' = ac_dev s /\ ram_ok (ac_ram s') /\
    (forall h, (forall i, 0 <= i < Z.of_nat (length buf) -> ptr_of (addr + i) <> h) -> ac_host s'' h = ac_host s h) /\
    (buf <> [] -> forall g, addr / TARGET_PAGE_SIZE <= g -> g * TARGET_PAGE_SIZE < addr + Z.of_nat (length buf) ->
       migration_dirty s' (rp g)).
Proof.
  intros Hfuel Hok Hmap Hinj. destruct (write_ram fuel buf addr false s) as (s' & Ew & [W1 W2 W3 W4 W5 W6]); try done.
  destruct (read_ram fuel (length buf) addr false s') as (s'' & Er & Eh & Ed); [done|done|by rewrite W2|].
  exists s', s''. split; [done|]. split; [|split_and!; try done].
  - rewrite Er. do 3 f_equal. rewrite (guest_read_ext _ (guest_write (ac_host s) addr buf)) by done. by apply guest_write_read.
  - congruence.
  - intros h Haway. rewrite Eh, W4. by apply guest_write_away.
Qed.
End GuestRam.

(** ** A machine with three pages of RAM

    Guest pages 1 to 3 are pages 0 to 2 of a RAM block at host address
    0x10000. *)
Definition region_of (size : Z) (ram : bool) : MemoryRegion := {|
  mr_endianness := DEVICE_NATIVE_ENDIAN; mr_owner := None; mr_parent := None; mr_size := size; mr_addr := 0x1000;
  mr_ram_addr := 0; mr_subpage := false; mr_terminates := true; mr_romd_mode := false; mr_ram := ram; mr_readonly := false;
  mr_enabled := true; mr_rom_device := false; mr_flush_coalesced_mmio := false; mr_alias := None; mr_alias_offset := 0;
  mr_priority := 0; mr_may_overlap := false; mr_subregions := []; mr_coalesced := []; mr_dirty_log_mask := 0; mr_ioeventfds := []
|}.

Definition ram_region : MemoryRegion := region_of 0x3000 true.

Definition ram_section : MemoryRegionSection :=
  {| s_mr := Some 5; s_address_space := 0; s_offset_within_region := 0; s_size := 0x3000;
     s_offset_within_address_space := 0x1000; s_readonly := false |}.

Definition ram_byteb (m : Machine) (as_ a ra : Z) : bool :=
  match address_space_lookup_region (m_dispatch m as_) a true with
  | Ok s =>
      match section_at (d_map (m_dispatch m as_)) s with
      | Ok sec =>
          let off := u64 (a - ps_offset_within_address_space sec) in
          let x := u64 (off + ps_offset_within_region sec) in
          match guest_region m (ps_mr sec), iommu_of m (ps_mr sec) with
          | Some r, None =>
              mr_ram r && negb (mr_readonly r) && (off <? mr_size r) && (mr_size r <=? 2 ^ 64) &&
              (x mod TARGET_PAGE_SIZE =? a mod TARGET_PAGE_SIZE) && (x + mr_ram_addr r =? ra) && (0 <=? mr_ram_addr r) && (ra <? 2 ^ 64)
          | _, _ => false
          end
      | _ => false
      end
  | _ => false
  end.

Lemma ram_byteb_sound m as_ a ra : ram_byteb m as_ a ra = true -> exists s sec r, ram_byte m as_ a ra s sec r.
Proof.
  unfold ram_byteb. destruct (address_space_lookup_region _ _ _) as [s| |] eqn:El; try done.
  destruct (section_at _ _) as [sec| |] eqn:Es; try done.
  destruct (guest_region _ _) as [r|] eqn:Er; try done. destruct (iommu_of _ _) eqn:Ei; try done.
  intros Hb. repeat (apply andb_true_iff in Hb as [Hb ?]). exists s, sec, r.
  split; try done; try lia; try (by apply Z.eqb_eq). by apply negb_true_iff.
Qed.

Definition machine_of (d : AddressSpaceDispatch) : Machine :=
  {| m_regions := {[5 := ram_region]}; m_iommu := fun _ => None; m_dispatch := fun _ => d |}.

Definition small_table : AddressSpaceDispatch :=
  match (d ← mem_begin; d ← mem_add d ram_section; phys_page_compact_all d) with
  | Ok d => d
  | _ => {| d_phys_map := nil_entry; d_map := {| pm_sections := []; pm_nodes := []; pm_nodes_alloc := 0 |}; d_subpages := [] |}
  end.

Definition small_machine : Machine := machine_of small_table.

Definition no_device : MemoryRegionOps unit := {|
  read := None; write := None; endianness := DEVICE_NATIVE_ENDIAN; valid_min_access_size := 0; valid_max_access_size := 0;
  valid_unaligned := true; valid_accepts := None; impl_min_access_size := 0; impl_max_access_size := 0; impl_unaligned := false;
  old_mmio_read := fun _ d _ => (d, 0); old_mmio_write := fun _ d _ _ => d
|}.

Lemma small_ram_pages g : 1 <= g < 4 -> ram_page small_machine 0 g (g - 1).
Proof.
  intros Hg o Ho. apply ram_byteb_sound.
  assert ((fun d => forallb (fun i => ram_byteb (machine_of d) 0 (0x1000 + Z.of_nat i) (Z.of_nat i)) (seq 0 (Z.to_nat 0x3000))) small_table = true)
    as Hall by (vm_compute; reflexivity).
  cbv beta in Hall. rewrite forallb_forall in Hall. specialize (Hall (Z.to_nat ((g - 1) * TARGET_PAGE_SIZE + o))).
  unfold TARGET_PAGE_SIZE in *. rewrite in_seq, Z2Nat.id in Hall by lia.
  replace (0x1000 + ((g - 1) * 4096 + o)) with (g * 4096 + o) in Hall by lia. apply Hall. lia.
Qed.

#[local] Existing Instance no_kvm.

Lemma guest_ram_roundtrip_witness :
  let s := {| ac_ram := xbox_ram; ac_host := fun _ => 0; ac_dev := tt |} in
  exists s' s'',
    address_space_write (fun _ => no_device) 4 1 small_machine 0 0x1ffe [1; 2; 3; 4] false s = Ok (s', false) /\
    address_space_read (fun _ => no_device) 4 1 small_machine 0 0x1ffe 4 false s' = Ok (s'', [1; 2; 3; 4], false).
Proof.
  intros s. set (hp := fun g => 0x7f0000000000 + (g - 1) * TARGET_PAGE_SIZE).
  destruct (guest_ram_roundtrip (fun _ => no_device) small_machine 0 (fun g => g - 1) hp 0 4 [1; 2; 3; 4] 0x1ffe s)
    as (s' & s'' & Ew & Er & _).
  - cbn. lia.
  - exact xbox_ram_ok.
  - split; [lia|]. split; [cbn; lia|]. intros g Hg1 Hg2. change (0x1ffe / TARGET_PAGE_SIZE) with 1 in Hg1.
    cbn in Hg2. unfold TARGET_PAGE_SIZE in Hg2. split; [apply small_ram_pages; lia|].
    eexists. split; [apply list_elem_of_here|]. unfold rb_end, hp, TARGET_PAGE_SIZE. cbn. lia.
  - intros i j Hi Hj. cbn in Hj. unfold ptr_of, hp, TARGET_PAGE_SIZE.
    pose proof (Z.div_mod (0x1ffe + i) 4096 ltac:(lia)). pose proof (Z.div_mod (0x1ffe + j) 4096 ltac:(lia)). lia.
  - exists s', s''. split; [exact Ew|exact Er].
Defined.

(** ** Finding: the length of a translation

    [address_space_translate_internal] limits the length to the region, but
    [address_space_translate] overwrites the result with the length it was
    asked for: four bytes at the end of a RAM region of half a page are
    translated to that region, although the last two belong to region 6. *)
Definition half_table : AddressSpaceDispatch :=
  match (d ← mem_begin;
         d ← mem_add d {| s_mr := Some 5; s_address_space := 0; s_offset_within_region := 0; s_size := 0x800;
                          s_offset_within_address_space := 0x1000; s_readonly := false |};
         d ← mem_add d {| s_mr := Some 6; s_address_space := 0; s_offset_within_region := 0; s_size := 0x800;
                          s_offset_within_address_space := 0x1800; s_readonly := false |};
         phys_page_compact_all d) with
  | Ok d => d
  | _ => small_table
  end.

Definition half_machine : Machine :=
  {| m_regions := {[5 := region_of 0x800 true; 6 := region_of 0x800 false]};
     m_iommu := fun _ => None; m_dispatch := fun _ => half_table |}.

Lemma translate_past_region :
  address_space_translate 1 half_machine 0 0x17fe 4 true = Ok (guest_mr (Some 5), 0x7fe, 4) /\
  (s ← address_space_lookup_region half_table 0x1800 true; sec ← section_at (d_map half_table) s; Ok (ps_mr sec)) = Ok (guest_mr (Some 6)).
Proof. split; vm_compute; reflexivity. Qed.
