(* ===== verification/SMBus.v ===== *)
(** * The I2C bus and the SMBus protocol

    hw/i2c/core.c and hw/i2c/smbus.c.  A bus is the list of its slaves and
    the index of the one being addressed; the class of a slave is a record of
    optional callbacks.  An SMBus device is a slave whose callbacks run the
    protocol state machine of smbus.c and pass complete messages on to the
    callbacks of its [SMBusDeviceClass].  The theorem at the end says that
    the nine master commands are atomic: a command has the effect of the
    device callbacks that [device_op] lists, and leaves the bus idle. *)
From S2P Require Import Prelude.

(** ** hw/i2c/core.c *)
Variant i2c_event := I2C_START_RECV | I2C_START_SEND | I2C_FINISH | I2C_NACK.

Record I2CSlaveClass (S : Type) := {
  sc_send : option (S -> Z -> outcome (S * Z));
  sc_recv : option (S -> outcome (S * Z));
  sc_event : option (S -> i2c_event -> outcome S)
}.
Arguments sc_send {S} _.
Arguments sc_recv {S} _.
Arguments sc_event {S} _.

(** What the bus knows of a slave: the [I2CSlave] it starts with, and
    [I2C_SLAVE_GET_CLASS]. *)
Class I2CSlave (S : Type) := {
  slave_address : S -> Z;
  slave_class : S -> I2CSlaveClass S
}.

Record I2CBus (S : Type) := {
  bus_children : list S;
  current_dev : option nat;
  saved_address : Z
}.
Arguments bus_children {S} _.
Arguments current_dev {S} _.
Arguments saved_address {S} _.

Section I2C.
Context {S : Type} `{I2CSlave S}.
Implicit Types (bus : I2CBus S).

Definition i2c_init_bus : I2CBus S := {| bus_children := []; current_dev := None; saved_address := 0 |}.

Definition put_slave bus (i : nat) (s : S) : I2CBus S :=
  {| bus_children := <[i := s]> (bus_children bus); current_dev := current_dev bus; saved_address := saved_address bus |}.

Definition set_current bus (c : option nat) : I2CBus S :=
  {| bus_children := bus_children bus; current_dev := c; saved_address := saved_address bus |}.

Definition i2c_bus_busy bus : bool := bool_decide (current_dev bus <> None).

(** [bus->current_dev], dereferenced. *)
Definition current bus (i : nat) : outcome S :=
  match bus_children bus !! i with Some s => Ok s | None => Abort end.

(** [if (sc->event) sc->event(dev, event)] *)
Definition slave_event bus (i : nat) (event : i2c_event) : outcome (I2CBus S) :=
  dev ← current bus i;
  match sc_event (slave_class dev) with
  | Some f => dev ← f dev event; Ok (put_slave bus i dev)
  | None => Ok bus
  end.

Fixpoint find_slave (l : list S) (address : Z) : option nat :=
  match l with
  | [] => None
  | s :: l => if slave_address s =? address then Some 0%nat else Nat.succ <$> find_slave l address
  end.

Definition i2c_start_transfer bus (address recv : Z) : outcome (I2CBus S * Z) :=
  match find_slave (bus_children bus) address with
  | None => Ok (bus, 1)
  | Some i =>
      bus ← slave_event (set_current bus (Some i)) i (if recv =? 0 then I2C_START_SEND else I2C_START_RECV);
      Ok (bus, 0)
  end.

Definition i2c_end_transfer bus : outcome (I2CBus S) :=
  match current_dev bus with
  | None => Ok bus
  | Some i => bus ← slave_event bus i I2C_FINISH; Ok (set_current bus None)
  end.

Definition i2c_send bus (data : Z) : outcome (I2CBus S * Z) :=
  match current_dev bus with
  | None => Ok (bus, -1)
  | Some i =>
      dev ← current bus i;
      match sc_send (slave_class dev) with
      | Some f => r ← f dev data; Ok (put_slave bus i (fst r), snd r)
      | None => Ok (bus, -1)
      end
  end.

Definition i2c_recv bus : outcome (I2CBus S * Z) :=
  match current_dev bus with
  | None => Ok (bus, -1)
  | Some i =>
      dev ← current bus i;
      match sc_recv (slave_class dev) with
      | Some f => r ← f dev; Ok (put_slave bus i (fst r), snd r)
      | None => Ok (bus, -1)
      end
  end.

Definition i2c_nack bus : outcome (I2CBus S) :=
  match current_dev bus with
  | None => Ok bus
  | Some i => slave_event bus i I2C_NACK
  end.

(** Migration: the address of the current device is saved, and the device
    with that address makes itself current again when it is loaded. *)
Definition i2c_bus_pre_save bus : outcome (I2CBus S) :=
  a ← match current_dev bus with
      | Some i => dev ← current bus i; Ok (slave_address dev)
      | None => Ok (u8 (-1))
      end;
  Ok {| bus_children := bus_children bus; current_dev := current_dev bus; saved_address := a |}.

Definition i2c_bus_post_load bus : I2CBus S := set_current bus None.

Definition i2c_slave_post_load bus (i : nat) : outcome (I2CBus S) :=
  dev ← current bus i;
  Ok (if saved_address bus =? slave_address dev then set_current bus (Some i) else bus).
End I2C.

(** ** include/hw/i2c/smbus.h

    The callbacks act on the private state [D] of the device.  [write_data]
    gets the [len] bytes at [buf] as a list. *)
Record SMBusDeviceClass (D : Type) := {
  quick_cmd : option (D -> Z -> outcome D);
  send_byte : option (D -> Z -> outcome D);
  receive_byte : option (D -> outcome (D * Z));
  write_data : option (D -> Z -> list Z -> outcome D);
  read_data : option (D -> Z -> Z -> outcome (D * Z))
}.
Arguments quick_cmd {D} _.
Arguments send_byte {D} _.
Arguments receive_byte {D} _.
Arguments write_data {D} _.
Arguments read_data {D} _.

Class SMBusClass (D : Type) := smbus_class : D -> SMBusDeviceClass D.

Variant smbus_mode :=
| SMBUS_IDLE | SMBUS_WRITE_DATA | SMBUS_RECV_BYTE | SMBUS_READ_DATA | SMBUS_DONE | SMBUS_CONFUSED.

Record SMBusDevice (D : Type) := {
  sd_address : Z;
  sd_mode : smbus_mode;
  sd_data_len : Z;
  sd_data_buf : list Z;
  sd_command : Z;
  sd_priv : D
}.
Arguments sd_address {D} _.
Arguments sd_mode {D} _.
Arguments sd_data_len {D} _.
Arguments sd_data_buf {D} _.
Arguments sd_command {D} _.
Arguments sd_priv {D} _.

(** [sizeof(data_buf)]: command, length and 32 bytes of data. *)
Definition DATA_BUF_SIZE : nat := 34.

(** ** hw/i2c/smbus.c: the slave *)
Section Slave.
Context {D : Type} `{SMBusClass D}.
Implicit Types (dev : SMBusDevice D).

Definition set_mode dev (m : smbus_mode) : SMBusDevice D :=
  let '(Build_SMBusDevice _ a _ l b c p) := dev in Build_SMBusDevice D a m l b c p.
Definition set_data_len dev (l : Z) : SMBusDevice D :=
  let '(Build_SMBusDevice _ a m _ b c p) := dev in Build_SMBusDevice D a m l b c p.
Definition set_data_buf dev (b : list Z) : SMBusDevice D :=
  let '(Build_SMBusDevice _ a m l _ c p) := dev in Build_SMBusDevice D a m l b c p.
Definition set_command dev (c : Z) : SMBusDevice D :=
  let '(Build_SMBusDevice _ a m l b _ p) := dev in Build_SMBusDevice D a m l b c p.
Definition set_priv dev (p : D) : SMBusDevice D :=
  let '(Build_SMBusDevice _ a m l b c _) := dev in Build_SMBusDevice D a m l b c p.

(** Calls of the device callbacks; an absent one does nothing, and a byte
    read from it is 0. *)
Definition call_quick_cmd (d : D) (read : Z) : outcome D :=
  match quick_cmd (smbus_class d) with Some f => f d read | None => Ok d end.
Definition call_send_byte (d : D) (val : Z) : outcome D :=
  match send_byte (smbus_class d) with Some f => f d val | None => Ok d end.
Definition call_receive_byte (d : D) : outcome (D * Z) :=
  match receive_byte (smbus_class d) with Some f => r ← f d; Ok (fst r, u8 (snd r)) | None => Ok (d, 0) end.
Definition call_write_data (d : D) (cmd : Z) (buf : list Z) : outcome D :=
  match write_data (smbus_class d) with Some f => f d cmd buf | None => Ok d end.
(** The number of bytes read goes up with each call of [read_data]. *)
Definition call_read_data (d : D) (cmd n : Z) : outcome (D * Z * Z) :=
  match read_data (smbus_class d) with Some f => r ← f d cmd n; Ok (fst r, u8 (snd r), n + 1) | None => Ok (d, 0, n) end.

Definition smbus_do_quick_cmd dev (recv : Z) : outcome (SMBusDevice D) :=
  d ← call_quick_cmd (sd_priv dev) recv; Ok (set_priv dev d).

Definition smbus_do_write dev : outcome (SMBusDevice D) :=
  if sd_data_len dev =? 0 then smbus_do_quick_cmd dev 0
  else
    b ← match sd_data_buf dev !! 0%nat with Some b => Ok b | None => Abort end;
    if sd_data_len dev =? 1 then d ← call_send_byte (sd_priv dev) b; Ok (set_priv dev d)
    else
      let dev := set_command dev b in
      d ← call_write_data (sd_priv dev) b (take (Z.to_nat (sd_data_len dev - 1)) (drop 1 (sd_data_buf dev)));
      Ok (set_priv dev d).

Definition smbus_i2c_event dev (event : i2c_event) : outcome (SMBusDevice D) :=
  match event with
  | I2C_START_SEND =>
      match sd_mode dev with
      | SMBUS_IDLE => Ok (set_mode dev SMBUS_WRITE_DATA)
      | _ => Ok (set_mode dev SMBUS_CONFUSED)
      end
  | I2C_START_RECV =>
      match sd_mode dev with
      | SMBUS_IDLE => Ok (set_mode dev SMBUS_RECV_BYTE)
      | SMBUS_WRITE_DATA =>
          if sd_data_len dev =? 0 then Ok (set_mode dev SMBUS_CONFUSED)
          else
            dev ← (if 1 <? sd_data_len dev then smbus_do_write dev
                   else match sd_data_buf dev !! 0%nat with Some b => Ok (set_command dev b) | None => Abort end);
            Ok (set_mode (set_data_len dev 0) SMBUS_READ_DATA)
      | _ => Ok (set_mode dev SMBUS_CONFUSED)
      end
  | I2C_FINISH =>
      dev ← match sd_mode dev with
            | SMBUS_WRITE_DATA => smbus_do_write dev
            | SMBUS_RECV_BYTE => smbus_do_quick_cmd dev 1
            | _ => Ok dev
            end;
      Ok (set_data_len (set_mode dev SMBUS_IDLE) 0)
  | I2C_NACK =>
      match sd_mode dev with
      | SMBUS_DONE => Ok dev
      | SMBUS_READ_DATA => Ok (set_mode dev SMBUS_DONE)
      | _ => Ok (set_mode dev SMBUS_CONFUSED)
      end
  end.

Definition smbus_i2c_recv dev : outcome (SMBusDevice D * Z) :=
  match sd_mode dev with
  | SMBUS_RECV_BYTE =>
      r ← call_receive_byte (sd_priv dev);
      Ok (set_mode (set_priv dev (fst r)) SMBUS_DONE, snd r)
  | SMBUS_READ_DATA =>
      '(d, ret, n) ← call_read_data (sd_priv dev) (sd_command dev) (sd_data_len dev);
      Ok (set_data_len (set_priv dev d) n, ret)
  | _ => Ok (set_mode dev SMBUS_CONFUSED, 0)
  end.

(** [data_buf] has 34 bytes and no check guards the store. *)
Definition smbus_i2c_send dev (data : Z) : outcome (SMBusDevice D * Z) :=
  match sd_mode dev with
  | SMBUS_WRITE_DATA =>
      if sd_data_len dev <? Z.of_nat (length (sd_data_buf dev)) then
        Ok (set_data_len (set_data_buf dev (<[Z.to_nat (sd_data_len dev) := data]> (sd_data_buf dev))) (sd_data_len dev + 1), 0)
      else Abort
  | _ => Ok (dev, 0)
  end.

#[export] Instance smbus_slave : I2CSlave (SMBusDevice D) := {
  slave_address := sd_address;
  slave_class _ := {|
    sc_send := Some smbus_i2c_send;
    sc_recv := Some smbus_i2c_recv;
    sc_event := Some smbus_i2c_event
  |}
}.
End Slave.

(** ** hw/i2c/smbus.c: master commands *)
Section Master.
Context {D : Type} `{SMBusClass D}.
Abbreviation Bus := (I2CBus (SMBusDevice D)).
Implicit Types (bus : Bus).

Definition smbus_quick_command bus (addr read : Z) : outcome Bus :=
  r ← i2c_start_transfer bus addr read; i2c_end_transfer (fst r).

Definition smbus_receive_byte bus (addr : Z) : outcome (Bus * Z) :=
  r ← i2c_start_transfer bus addr 1;
  r ← i2c_recv (fst r);
  let data := u8 (snd r) in
  bus ← i2c_nack (fst r);
  bus ← i2c_end_transfer bus;
  Ok (bus, data).

Definition smbus_send_byte bus (addr data : Z) : outcome Bus :=
  r ← i2c_start_transfer bus addr 0;
  r ← i2c_send (fst r) data;
  i2c_end_transfer (fst r).

Definition smbus_read_byte bus (addr command : Z) : outcome (Bus * Z) :=
  r ← i2c_start_transfer bus addr 0;
  r ← i2c_send (fst r) command;
  r ← i2c_start_transfer (fst r) addr 1;
  r ← i2c_recv (fst r);
  let data := u8 (snd r) in
  bus ← i2c_nack (fst r);
  bus ← i2c_end_transfer bus;
  Ok (bus, data).

Definition smbus_write_byte bus (addr command data : Z) : outcome Bus :=
  r ← i2c_start_transfer bus addr 0;
  r ← i2c_send (fst r) command;
  r ← i2c_send (fst r) data;
  i2c_end_transfer (fst r).

Definition smbus_read_word bus (addr command : Z) : outcome (Bus * Z) :=
  r ← i2c_start_transfer bus addr 0;
  r ← i2c_send (fst r) command;
  r ← i2c_start_transfer (fst r) addr 1;
  r ← i2c_recv (fst r);
  let data := u16 (snd r) in
  r ← i2c_recv (fst r);
  let data := u16 (Z.lor data (Z.shiftl (snd r) 8)) in
  bus ← i2c_nack (fst r);
  bus ← i2c_end_transfer bus;
  Ok (bus, data).

Definition smbus_write_word bus (addr command data : Z) : outcome Bus :=
  r ← i2c_start_transfer bus addr 0;
  r ← i2c_send (fst r) command;
  r ← i2c_send (fst r) (Z.land data 0xff);
  r ← i2c_send (fst r) (u8 (Z.shiftr data 8));
  i2c_end_transfer (fst r).

(** [for (i = 0; i < len; i++) data[i] = i2c_recv(bus);] with [n] rounds to
    go; a store outside [data] aborts. *)
Fixpoint recv_block bus (n i : nat) (data : list Z) : outcome (Bus * list Z) :=
  match n with
  | O => Ok (bus, data)
  | S n =>
      r ← i2c_recv bus;
      if (i <? length data)%nat then recv_block (fst r) n (i + 1) (<[i := u8 (snd r)]> data) else Abort
  end.

Definition smbus_read_block bus (addr command : Z) (data : list Z) : outcome (Bus * Z * list Z) :=
  r ← i2c_start_transfer bus addr 0;
  r ← i2c_send (fst r) command;
  r ← i2c_start_transfer (fst r) addr 1;
  r ← i2c_recv (fst r);
  let len := if 32 <? snd r then 0 else snd r in
  r ← recv_block (fst r) (Z.to_nat len) 0 data;
  bus ← i2c_nack (fst r);
  bus ← i2c_end_transfer bus;
  Ok (bus, len, snd r).

(** [for (i = 0; i < len; i++) i2c_send(bus, data[i]);] *)
Fixpoint send_block bus (n i : nat) (data : list Z) : outcome Bus :=
  match n with
  | O => Ok bus
  | S n =>
      b ← match data !! i with Some b => Ok b | None => Abort end;
      r ← i2c_send bus b;
      send_block (fst r) n (i + 1) data
  end.

Definition smbus_write_block bus (addr command : Z) (data : list Z) (len : Z) : outcome Bus :=
  let len := if 32 <? len then 32 else len in
  r ← i2c_start_transfer bus addr 0;
  r ← i2c_send (fst r) command;
  r ← i2c_send (fst r) (u8 len);
  bus ← send_block (fst r) (Z.to_nat len) 0 data;
  i2c_end_transfer bus.
End Master.

(** ** What a master command does

    [device_op] is the effect of a command on the private state of the device
    it addresses, as a sequence of callback calls; [bus_op] is its effect on a
    bus seen as a list of addresses and private states. *)
Variant smbus_op :=
| op_quick (read : Z)
| op_receive_byte
| op_send_byte (data : Z)
| op_read_byte (command : Z)
| op_write_byte (command data : Z)
| op_read_word (command : Z)
| op_write_word (command data : Z)
| op_read_block (command : Z) (data : list Z)
| op_write_block (command : Z) (data : list Z) (len : Z).

(** The value a command returns and the block it has read. *)
Definition answer_of : Type := Z * list Z.

Section Spec.
Context {D : Type} `{SMBusClass D}.

Definition master (bus : I2CBus (SMBusDevice D)) (addr : Z) (op : smbus_op) : outcome (I2CBus (SMBusDevice D) * answer_of) :=
  match op with
  | op_quick read => bus ← smbus_quick_command bus addr read; Ok (bus, (0, []))
  | op_receive_byte => r ← smbus_receive_byte bus addr; Ok (fst r, (snd r, []))
  | op_send_byte data => bus ← smbus_send_byte bus addr data; Ok (bus, (0, []))
  | op_read_byte command => r ← smbus_read_byte bus addr command; Ok (fst r, (snd r, []))
  | op_write_byte command data => bus ← smbus_write_byte bus addr command data; Ok (bus, (0, []))
  | op_read_word command => r ← smbus_read_word bus addr command; Ok (fst r, (snd r, []))
  | op_write_word command data => bus ← smbus_write_word bus addr command data; Ok (bus, (0, []))
  | op_read_block command data => '(bus, len, data) ← smbus_read_block bus addr command data; Ok (bus, (len, data))
  | op_write_block command data len => bus ← smbus_write_block bus addr command data len; Ok (bus, (0, []))
  end.

(** The next [k] bytes of a read that has read [n]. *)
Fixpoint read_bytes (d : D) (cmd n : Z) (k : nat) : outcome (D * list Z) :=
  match k with
  | O => Ok (d, [])
  | S k =>
      '(d, b, n) ← call_read_data d cmd n;
      '(d, bs) ← read_bytes d cmd n k;
      Ok (d, b :: bs)
  end.

Definition void (d : outcome D) : outcome (D * answer_of) := d ← d; Ok (d, (0, [])).

Definition device_op (d : D) (op : smbus_op) : outcome (D * answer_of) :=
  match op with
  | op_quick read => void (call_quick_cmd d (if read =? 0 then 0 else 1))
  | op_receive_byte => '(d, v) ← call_receive_byte d; Ok (d, (v, []))
  | op_send_byte data => void (call_send_byte d data)
  | op_read_byte command => '(d, v, _) ← call_read_data d command 0; Ok (d, (v, []))
  | op_write_byte command data => void (call_write_data d command [data])
  | op_read_word command =>
      '(d, lo, n) ← call_read_data d command 0;
      '(d, hi, _) ← call_read_data d command n;
      Ok (d, (lo + 256 * hi, []))
  | op_write_word command data => void (call_write_data d command [data mod 256; data / 256])
  | op_read_block command data =>
      '(d, v, n) ← call_read_data d command 0;
      let len := if 32 <? v then 0 else v in
      '(d, bs) ← read_bytes d command n (Z.to_nat len);
      Ok (d, (len, bs ++ drop (Z.to_nat len) data))
  | op_write_block command data len =>
      let len := Z.min len 32 in
      void (call_write_data d command (len :: take (Z.to_nat len) data))
  end.

(** What a command returns when no device has the address. *)
Definition absent (op : smbus_op) : answer_of :=
  match op with
  | op_receive_byte | op_read_byte _ => (0xff, [])
  | op_read_word _ => (0xffff, [])
  | op_read_block _ data => (-1, data)
  | _ => (0, [])
  end.

Fixpoint bus_op (l : list (Z * D)) (addr : Z) (op : smbus_op) : outcome (list (Z * D) * answer_of) :=
  match l with
  | [] => Ok ([], absent op)
  | (a, d) :: l =>
      if a =? addr then '(d, v) ← device_op d op; Ok ((a, d) :: l, v)
      else '(l, v) ← bus_op l addr op; Ok ((a, d) :: l, v)
  end.

(** The buffers of block commands have 32 bytes, lengths are [uint8_t] and
    words 16 bits. *)
Definition op_ok (op : smbus_op) : Prop :=
  match op with
  | op_read_block _ data => length data = 32%nat
  | op_write_block _ data len => length data = 32%nat /\ 0 <= len < 256
  | op_write_word _ data => 0 <= data < 2 ^ 16
  | _ => True
  end.

(** A device between two commands. *)
Definition idle_dev (dev : SMBusDevice D) (ad : Z * D) : Prop :=
  sd_address dev = fst ad /\ sd_mode dev = SMBUS_IDLE /\ sd_data_len dev = 0 /\
  length (sd_data_buf dev) = DATA_BUF_SIZE /\ sd_priv dev = snd ad.

Definition idle_bus (bus : I2CBus (SMBusDevice D)) (l : list (Z * D)) : Prop :=
  current_dev bus = None /\ Forall2 idle_dev (bus_children bus) l.
End Spec.

(** ** Proof: one slave at work

    [engaged P bus'] is the bus in the middle of a command to slave [i], whose
    device satisfies [P]. *)
Section Engaged.
Context {D : Type} `{SMBusClass D}.
Variables (bus : I2CBus (SMBusDevice D)) (i : nat) (addr : Z).
Hypothesis Hfind : find_slave (bus_children bus) addr = Some i.

Definition with_slave (c : option nat) (dev : SMBusDevice D) : I2CBus (SMBusDevice D) :=
  {| bus_children := <[i := dev]> (bus_children bus); current_dev := c; saved_address := saved_address bus |}.

Definition engaged (P : SMBusDevice D -> Prop) (b : I2CBus (SMBusDevice D)) : Prop :=
  exists dev, P dev /\ sd_address dev = addr /\ length (sd_data_buf dev) = DATA_BUF_SIZE /\ b = with_slave (Some i) dev.

Definition writing (d : D) (pre : list Z) (dev : SMBusDevice D) : Prop :=
  sd_mode dev = SMBUS_WRITE_DATA /\ sd_data_len dev = Z.of_nat (length pre) /\ sd_priv dev = d /\
  exists suf, sd_data_buf dev = pre ++ suf.
Definition reading (d : D) (c n : Z) (dev : SMBusDevice D) : Prop :=
  sd_mode dev = SMBUS_READ_DATA /\ sd_command dev = c /\ sd_data_len dev = n /\ sd_priv dev = d.
Definition receiving (d : D) (dev : SMBusDevice D) : Prop := sd_mode dev = SMBUS_RECV_BYTE /\ sd_priv dev = d.
Definition finished (d : D) (dev : SMBusDevice D) : Prop := sd_mode dev = SMBUS_DONE /\ sd_priv dev = d.

Definition settled (d : D) (b : I2CBus (SMBusDevice D)) : Prop :=
  exists dev, idle_dev dev (addr, d) /\ b = with_slave None dev.

Lemma find_slave_lookup l j : find_slave l addr = Some j -> exists dev : SMBusDevice D, l !! j = Some dev /\ sd_address dev = addr.
Proof.
  revert j. induction l as [|dev l IH]; intros j; cbn; [done|]. case_match eqn:E.
  - intros [= <-]. exists dev. split; [done|]. by apply Z.eqb_eq.
  - destruct (find_slave l addr) as [k|]; [|done]. intros [= <-]. apply (IH k eq_refl).
Qed.

Lemma find_slave_insert l j (dev : SMBusDevice D) :
  find_slave l addr = Some j -> sd_address dev = addr -> find_slave (<[j := dev]> l) addr = Some j.
Proof.
  revert j. induction l as [|x l IH]; intros j; cbn; [done|]. case_match eqn:E.
  - intros [= <-] Ha. cbn. by rewrite Ha, Z.eqb_refl.
  - destruct (find_slave l addr) as [k|]; [|done]. intros [= <-] Ha.
    change (<[Nat.succ k := dev]> (x :: l)) with (x :: <[k := dev]> l). cbn. by rewrite E, (IH k eq_refl Ha).
Qed.

Lemma in_range : (i < length (bus_children bus))%nat.
Proof. destruct (find_slave_lookup _ _ Hfind) as (dev & Hl & _). by eapply lookup_lt_Some. Qed.

Lemma current_with c dev : current (with_slave c dev) i = Ok dev.
Proof. unfold current, with_slave. cbn. by rewrite list_lookup_insert_eq by apply in_range. Qed.

Lemma put_with c dev dev' : put_slave (with_slave c dev) i dev' = with_slave c dev'.
Proof. unfold put_slave, with_slave. cbn. by rewrite list_insert_insert_eq. Qed.

Lemma event_with c dev e : slave_event (with_slave c dev) i e = (dev' ← smbus_i2c_event dev e; Ok (with_slave c dev')).
Proof.
  unfold slave_event. rewrite current_with. cbn. destruct (smbus_i2c_event dev e); cbn; try done. by rewrite put_with.
Qed.

(** One step of a command, by the state of the device. *)
Lemma engaged_send d pre b x : engaged (writing d pre) b -> (length pre < DATA_BUF_SIZE)%nat ->
  exists b', i2c_send b x = Ok (b', 0) /\ engaged (writing d (pre ++ [x])) b'.
Proof.
  intros (dev & (Hm & Hl & Hp & suf & Hb) & Ha & Hn & ->) Hlt. unfold i2c_send. cbn [current_dev with_slave].
  rewrite current_with. cbn. unfold smbus_i2c_send. rewrite Hm, Hl, Hn. replace (_ <? _) with true by zbool. cbn.
  rewrite put_with. eexists. split; [done|]. eexists. split; [|split; [|split; [|done]]]; destruct dev; cbn in *; subst.
  - split; [done|]. rewrite length_app, Nat2Z.id. cbn. split; [lia|]. split; [done|].
    destruct suf as [|y suf]; [rewrite length_app in Hn; cbn in Hn; lia|]. exists suf.
    by rewrite insert_app_r_alt, Nat.sub_diag, <- app_assoc by done.
  - done.
  - by rewrite length_insert.
Qed.

Lemma engaged_restart d c b : engaged (writing d [c]) b ->
  exists b', i2c_start_transfer b addr 1 = Ok (b', 0) /\ engaged (reading d c 0) b'.
Proof.
  intros (dev & (Hm & Hl & Hp & suf & Hb) & Ha & Hn & ->). unfold i2c_start_transfer. cbn [bus_children with_slave].
  rewrite find_slave_insert by done.
  change (set_current _ _) with (with_slave (Some i) dev). rewrite event_with. cbn. rewrite Hm, Hl, Hb. cbn.
  eexists. split; [done|]. eexists. split; [|split; [|split; [|done]]]; destruct dev; cbn in *; by subst.
Qed.

Lemma engaged_recv d c n b : engaged (reading d c n) b ->
  orel (fun r r' => engaged (reading (fst (fst r')) c (snd r')) (fst r) /\ snd r = snd (fst r'))
    (i2c_recv b) (call_read_data d c n).
Proof.
  intros (dev & (Hm & Hc & Hl & Hp) & Ha & Hn & ->). unfold i2c_recv. cbn [current_dev with_slave].
  rewrite current_with. cbn. unfold smbus_i2c_recv. rewrite Hm, Hc, Hl, Hp.
  destruct (call_read_data d c n) as [[[d' v] n']| |]; try done. cbn. rewrite put_with. split; [|done].
  eexists. split; [|split; [|split; [|done]]]; destruct dev; cbn in *; by subst.
Qed.

Lemma engaged_receive d b : engaged (receiving d) b ->
  orel (fun r r' => engaged (finished (fst r')) (fst r) /\ snd r = snd r') (i2c_recv b) (call_receive_byte d).
Proof.
  intros (dev & (Hm & Hp) & Ha & Hn & ->). unfold i2c_recv. cbn [current_dev with_slave].
  rewrite current_with. cbn. unfold smbus_i2c_recv. rewrite Hm, Hp.
  destruct (call_receive_byte d) as [[d' v]| |]; try done. cbn. rewrite put_with. split; [|done].
  eexists. split; [|split; [|split; [|done]]]; destruct dev; cbn in *; by subst.
Qed.

Lemma engaged_nack d b : (exists c n, engaged (reading d c n) b) \/ engaged (finished d) b ->
  exists b', i2c_nack b = Ok b' /\ engaged (finished d) b'.
Proof.
  intros [(c & n & dev & (Hm & Hc & Hl & Hp) & Ha & Hn & ->)|(dev & (Hm & Hp) & Ha & Hn & ->)];
    unfold i2c_nack; cbn [current_dev with_slave]; rewrite event_with; cbn; rewrite Hm; cbn;
    (eexists; split; [done|]; eexists; split; [|split; [|split; [|done]]]); destruct dev; cbn in *; by subst.
Qed.

Lemma engaged_stop d b : engaged (finished d) b -> exists b', i2c_end_transfer b = Ok b' /\ settled d b'.
Proof.
  intros (dev & (Hm & Hp) & Ha & Hn & ->). unfold i2c_end_transfer. cbn [current_dev with_slave]. rewrite event_with.
  cbn. rewrite Hm. cbn. eexists. split; [done|]. eexists. split; [|done]. destruct dev; cbn in *; subst. done.
Qed.

Lemma engaged_stop_quick d b : engaged (receiving d) b ->
  orel (fun b' d' => settled d' b') (i2c_end_transfer b) (call_quick_cmd d 1).
Proof.
  intros (dev & (Hm & Hp) & Ha & Hn & ->). unfold i2c_end_transfer. cbn [current_dev with_slave]. rewrite event_with.
  cbn. rewrite Hm. unfold smbus_do_quick_cmd. rewrite Hp. destruct (call_quick_cmd d 1) as [d'| |]; try done.
  cbn. eexists. split; [|done]. destruct dev; cbn in *; subst. done.
Qed.

(** What a device gets when the bytes [pre] have been written. *)
Definition deliver (d : D) (pre : list Z) : outcome D :=
  match pre with
  | [] => call_quick_cmd d 0
  | [b] => call_send_byte d b
  | c :: buf => call_write_data d c buf
  end.

Lemma do_write_delivers d pre (dev : SMBusDevice D) : writing d pre dev ->
  orel (fun dev' d' => sd_priv dev' = d' /\ sd_address dev' = sd_address dev /\ sd_data_buf dev' = sd_data_buf dev)
    (smbus_do_write dev) (deliver d pre).
Proof.
  intros (Hm & Hl & Hp & suf & Hb). unfold smbus_do_write, smbus_do_quick_cmd. rewrite Hl.
  destruct pre as [|c [|b pre]].
  - cbn. rewrite Hp. destruct (call_quick_cmd d 0); try done. by destruct dev.
  - cbn. rewrite Hb, Hp. cbn. destruct (call_send_byte d c); try done. by destruct dev.
  - replace (_ =? 0) with false by (cbn [length]; zbool). replace (_ =? 1) with false by (cbn [length]; zbool).
    rewrite Hb. cbn [app lookup list_lookup]. cbn -[take drop Z.of_nat deliver].
    destruct dev as [a m l bf cm p]. cbn -[take Z.of_nat] in *. subst.
    replace (take _ _) with (b :: pre).
    + destruct (call_write_data d c (b :: pre)); done.
    + replace (Z.to_nat _) with (length (b :: pre)) by (cbn [length]; lia). symmetry. apply (take_app_length (b :: pre)).
Qed.

Lemma engaged_stop_write d pre b : engaged (writing d pre) b ->
  orel (fun b' d' => settled d' b') (i2c_end_transfer b) (deliver d pre).
Proof.
  intros (dev & Hw & Ha & Hn & ->). unfold i2c_end_transfer. cbn [current_dev with_slave]. rewrite event_with.
  pose proof (do_write_delivers d pre dev Hw) as Hd. destruct Hw as (Hm & _). cbn. rewrite Hm.
  destruct (smbus_do_write dev) as [dev'| |], (deliver d pre) as [d'| |]; try done. cbn in Hd |- *.
  destruct Hd as (Hp & Ha' & Hb). eexists. split; [|done]. unfold idle_dev. destruct dev'; cbn in *; subst. rewrite Hn. done.
Qed.

(** ** Proof: whole commands *)
Variables (dev0 : SMBusDevice D) (d0 : D).
Hypothesis Hdev0 : bus_children bus !! i = Some dev0.
Hypothesis Hidle : idle_dev dev0 (addr, d0).

Lemma start_event recv : i2c_start_transfer bus addr recv =
  (dev ← smbus_i2c_event dev0 (if recv =? 0 then I2C_START_SEND else I2C_START_RECV); Ok (with_slave (Some i) dev, 0)).
Proof.
  unfold i2c_start_transfer, slave_event, current. rewrite Hfind. cbn. rewrite Hdev0. cbn.
  by destruct (smbus_i2c_event dev0 _).
Qed.

Lemma start_send : exists b', i2c_start_transfer bus addr 0 = Ok (b', 0) /\ engaged (writing d0 []) b'.
Proof.
  rewrite start_event. destruct Hidle as (Ha & Hm & Hl & Hn & Hp). cbn. rewrite Hm. cbn. eexists. split; [done|].
  eexists. split; [|split; [|split; [|done]]]; destruct dev0; cbn in *; subst; try done.
  repeat split; try done. by eexists.
Qed.

Lemma start_recv recv : recv <> 0 -> exists b', i2c_start_transfer bus addr recv = Ok (b', 0) /\ engaged (receiving d0) b'.
Proof.
  intros Hr. rewrite start_event. destruct Hidle as (Ha & Hm & Hl & Hn & Hp). apply Z.eqb_neq in Hr. rewrite Hr.
  cbn. rewrite Hm. cbn. eexists. split; [done|].
  eexists. split; [|split; [|split; [|done]]]; by destruct dev0; cbn in *; subst.
Qed.

Lemma begin_write c : exists b, engaged (writing d0 [c]) b /\ forall X (k : _ -> outcome X),
  (r ← i2c_start_transfer bus addr 0; r ← i2c_send (fst r) c; k r) = k (b, 0).
Proof.
  destruct start_send as (b1 & H1 & Hb1). destruct (engaged_send d0 [] b1 c Hb1) as (b2 & H2 & Hb2); [cbn; unfold DATA_BUF_SIZE; lia|].
  exists b2. split; [done|]. intros X k. rewrite H1. cbn. by rewrite H2.
Qed.

Lemma begin_read c : exists b, engaged (reading d0 c 0) b /\ forall X (k : _ -> outcome X),
  (r ← i2c_start_transfer bus addr 0; r ← i2c_send (fst r) c; r ← i2c_start_transfer (fst r) addr 1; k r) = k (b, 0).
Proof.
  destruct (begin_write c) as (b1 & Hb1 & H1). destruct (engaged_restart d0 c b1 Hb1) as (b2 & H2 & Hb2).
  exists b2. split; [done|]. intros X k. rewrite H1. cbn. by rewrite H2.
Qed.

Lemma finish_read d b : (exists c n, engaged (reading d c n) b) \/ engaged (finished d) b ->
  exists b1 b2, i2c_nack b = Ok b1 /\ i2c_end_transfer b1 = Ok b2 /\ settled d b2.
Proof.
  intros Hb. destruct (engaged_nack d b Hb) as (b1 & H1 & Hb1). destruct (engaged_stop d b1 Hb1) as (b2 & H2 & Hb2).
  by eauto.
Qed.

(** The result of a command on the bus and on the device. *)
Definition agrees (r : I2CBus (SMBusDevice D) * answer_of) (r' : D * answer_of) : Prop :=
  settled (fst r') (fst r) /\ snd r = snd r'.

Lemma write_agrees pre b : engaged (writing d0 pre) b ->
  orel agrees (b ← i2c_end_transfer b; Ok (b, (0, []))) (void (deliver d0 pre)).
Proof. intros Hb. eapply orel_bind; [by apply engaged_stop_write|]. intros b' d' _ _ Hs. by split. Qed.

Lemma quick_agrees read : orel agrees (master bus addr (op_quick read)) (device_op d0 (op_quick read)).
Proof.
  cbn. unfold smbus_quick_command. destruct (Z.eqb_spec read 0) as [->|Hr].
  - destruct start_send as (b & -> & Hb). cbn. by apply (write_agrees []).
  - destruct (start_recv read Hr) as (b & -> & Hb). cbn. eapply orel_bind; [by apply engaged_stop_quick|]. by split.
Qed.

(** Bytes read are bytes. *)
Lemma read_data_byte d c n d' v n' : call_read_data d c n = Ok (d', v, n') -> 0 <= v < 2 ^ 8.
Proof.
  unfold call_read_data. destruct (read_data _) as [f|]; [|by intros [= <- <- <-]].
  destruct (f d c n); try done. cbn. intros [= <- <- <-]. by apply wrap_range.
Qed.

Lemma receive_byte_byte d d' v : call_receive_byte d = Ok (d', v) -> 0 <= v < 2 ^ 8.
Proof.
  unfold call_receive_byte. destruct (receive_byte _) as [f|]; [|by intros [= <- <-]].
  destruct (f d); try done. cbn. intros [= <- <-]. by apply wrap_range.
Qed.

Lemma receive_agrees : orel agrees (master bus addr op_receive_byte) (device_op d0 op_receive_byte).
Proof.
  cbn. unfold smbus_receive_byte. destruct (start_recv 1) as (b & -> & Hb); [done|]. cbn. rewrite obind_assoc.
  eapply orel_bind; [by apply engaged_receive|]. intros [b1 v] [d1 v'] _ Hv [Hb1 Ev]. cbn in Hb1, Ev |- *. subst v'.
  destruct (finish_read d1 b1) as (b' & b'' & Hn & He & Hs); [by right|]. rewrite Hn. cbn. rewrite He. cbn. split; [done|]. cbn. by rewrite wrap_small by (by eapply receive_byte_byte).
Qed.

Lemma read_byte_agrees c : orel agrees (master bus addr (op_read_byte c)) (device_op d0 (op_read_byte c)).
Proof.
  cbn. unfold smbus_read_byte. destruct (begin_read c) as (b & Hb & Hk). rewrite Hk. cbn. rewrite obind_assoc.
  eapply orel_bind; [by apply engaged_recv|]. intros [b1 v] [[d1 v'] n] _ Hv [Hb1 Ev]. cbn in Hb1, Ev |- *. subst v'.
  destruct (finish_read d1 b1) as (b' & b'' & Hn & He & Hs); [left; by eauto|]. rewrite Hn. cbn. rewrite He. cbn. split; [done|]. cbn. by rewrite wrap_small by (by eapply read_data_byte).
Qed.

Lemma word_of_bytes lo hi : 0 <= lo < 2 ^ 8 -> 0 <= hi < 2 ^ 8 -> u16 (Z.lor (u16 lo) (Z.shiftl hi 8)) = lo + 256 * hi.
Proof. intros Hl Hh. rewrite (wrap_small 16 lo), lor_shiftl_add, wrap_small by lia. lia. Qed.

Lemma read_word_agrees c : orel agrees (master bus addr (op_read_word c)) (device_op d0 (op_read_word c)).
Proof.
  cbn. unfold smbus_read_word. destruct (begin_read c) as (b & Hb & Hk). rewrite Hk. cbn. rewrite obind_assoc.
  eapply orel_bind; [by apply engaged_recv|]. intros [b1 lo] [[d1 lo'] n1] _ Hlo [Hb1 El]. cbn in Hb1, El |- *. subst lo'.
  rewrite obind_assoc.
  eapply orel_bind; [by apply engaged_recv|]. intros [b2 hi] [[d2 hi'] n2] _ Hhi [Hb2 Eh]. cbn in Hb2, Eh |- *. subst hi'.
  destruct (finish_read d2 b2) as (b' & b'' & Hn & He & Hs); [left; by eauto|]. rewrite Hn. cbn. rewrite He. cbn -[Z.mul]. split; [done|]. cbn -[Z.mul]. by rewrite word_of_bytes by (by eapply read_data_byte).
Qed.

Lemma send_byte_agrees v : orel agrees (master bus addr (op_send_byte v)) (device_op d0 (op_send_byte v)).
Proof.
  cbn. unfold smbus_send_byte. destruct (begin_write v) as (b & Hb & Hk). rewrite Hk. by apply (write_agrees [v]).
Qed.

Lemma write_byte_agrees c v : orel agrees (master bus addr (op_write_byte c v)) (device_op d0 (op_write_byte c v)).
Proof.
  cbn. unfold smbus_write_byte. destruct (begin_write c) as (b & Hb & Hk). rewrite Hk. cbn.
  destruct (engaged_send d0 [c] b v Hb) as (b1 & -> & Hb1); [cbn; unfold DATA_BUF_SIZE; lia|]. by apply (write_agrees [c; v]).
Qed.

Lemma write_word_agrees c w : 0 <= w < 2 ^ 16 -> orel agrees (master bus addr (op_write_word c w)) (device_op d0 (op_write_word c w)).
Proof.
  intros Hw. cbn. unfold smbus_write_word. destruct (begin_write c) as (b & Hb & Hk). rewrite Hk. cbn.
  assert (0 <= w / 2 ^ 8 < 2 ^ 8) by (split; [apply Z.div_pos|apply Z.div_lt_upper_bound]; lia).
  change 255 with (Z.ones 8). rewrite Z.land_ones, Z.shiftr_div_pow2, (wrap_small 8) by lia.
  destruct (engaged_send d0 [c] b (w mod 2 ^ 8) Hb) as (b1 & -> & Hb1); [cbn; unfold DATA_BUF_SIZE; lia|]. cbn.
  destruct (engaged_send d0 _ b1 (w / 2 ^ 8) Hb1) as (b2 & -> & Hb2); [cbn; unfold DATA_BUF_SIZE; lia|].
  by apply (write_agrees [c; _; _]).
Qed.

Lemma send_block_ok data n : forall b j pre, engaged (writing d0 pre) b ->
  (j + n <= length data)%nat -> (length pre + n <= DATA_BUF_SIZE)%nat ->
  exists b', send_block b n j data = Ok b' /\ engaged (writing d0 (pre ++ take n (drop j data))) b'.
Proof.
  induction n as [|n IH]; intros b j pre Hb Hj Hp; cbn [send_block].
  - exists b. split; [done|]. by rewrite take_0, app_nil_r.
  - destruct (lookup_lt_is_Some_2 data j) as [x Hx]; [lia|]. rewrite Hx. cbn.
    destruct (engaged_send d0 pre b x Hb) as (b1 & -> & Hb1); [lia|]. cbn.
    destruct (IH b1 (j + 1)%nat (pre ++ [x]) Hb1) as (b2 & -> & Hb2); [lia|rewrite length_app; cbn; lia|].
    exists b2. split; [done|]. rewrite (drop_S _ _ _ Hx). cbn. by rewrite <- app_assoc, Nat.add_1_r in Hb2.
Qed.

Lemma write_block_agrees c data len : length data = 32%nat -> 0 <= len < 256 ->
  orel agrees (master bus addr (op_write_block c data len)) (device_op d0 (op_write_block c data len)).
Proof.
  intros Hd Hlen. cbn. unfold smbus_write_block. replace (if 32 <? len then 32 else len) with (Z.min len 32) by (destruct (Z.ltb_spec 32 len); lia).
  destruct (begin_write c) as (b & Hb & Hk). rewrite Hk. cbn. rewrite (wrap_small 8) by lia.
  destruct (engaged_send d0 [c] b (Z.min len 32) Hb) as (b1 & -> & Hb1); [cbn; unfold DATA_BUF_SIZE; lia|]. cbn.
  destruct (send_block_ok data (Z.to_nat (Z.min len 32)) b1 0 _ Hb1) as (b2 & -> & Hb2);
    [lia|cbn; unfold DATA_BUF_SIZE; lia|]. by apply (write_agrees (c :: _ :: _)).
Qed.

Lemma recv_block_ok c k : forall b d n j data, engaged (reading d c n) b -> (j + k <= length data)%nat ->
  orel (fun r r' => (exists n', engaged (reading (fst r') c n') (fst r)) /\ snd r = take j data ++ snd r' ++ drop (j + k) data)
    (recv_block b k j data) (read_bytes d c n k).
Proof.
  induction k as [|k IH]; intros b d n j data Hb Hj; cbn [recv_block read_bytes].
  - cbn. split; [by eauto|]. by rewrite Nat.add_0_r, take_drop.
  - eapply orel_bind; [by apply engaged_recv|]. intros [b1 v] [[d1 v'] n1] _ Hv [Hb1 Ev]. cbn in Hb1, Ev. subst v'. cbn [fst snd].
    replace (j <? length data)%nat with true by (symmetry; apply Nat.ltb_lt; lia).
    rewrite (wrap_small 8) by (by eapply read_data_byte).
    specialize (IH b1 d1 n1 (j + 1)%nat (<[j := v]> data) Hb1). rewrite length_insert in IH. specialize (IH ltac:(lia)).
    destruct (recv_block b1 _ _ _) as [[b2 da]| |], (read_bytes d1 c n1 k) as [[d2 bs]| |]; try done. cbn in IH |- *.
    destruct IH as [He ->]. split; [done|]. rewrite drop_insert_lt by lia.
    rewrite Nat.add_1_r, (take_S_r _ _ v) by (apply list_lookup_insert_eq; lia).
    rewrite take_insert_ge by lia. rewrite <- app_assoc. cbn. by rewrite <- Nat.add_succ_comm.
Qed.

Lemma read_block_agrees c data : length data = 32%nat ->
  orel agrees (master bus addr (op_read_block c data)) (device_op d0 (op_read_block c data)).
Proof.
  intros Hd. cbn. unfold smbus_read_block. destruct (begin_read c) as (b & Hb & Hk). rewrite Hk. cbn. rewrite obind_assoc.
  eapply orel_bind; [by apply engaged_recv|]. intros [b1 v] [[d1 v'] n1] _ Hv [Hb1 Ev]. cbn in Hb1, Ev |- *. subst v'.
  apply read_data_byte in Hv. rewrite obind_assoc.
  eapply orel_bind; [apply recv_block_ok; [done|destruct (Z.ltb_spec 32 v); cbn; lia]|].
  intros [b2 da] [d2 bs] _ _ [[n' Hb2] Eda]. cbn in Hb2, Eda |- *. subst da.
  destruct (finish_read d2 b2) as (b' & b'' & Hn & He & Hs); [left; by eauto|]. rewrite Hn. cbn. rewrite He. done.
Qed.

Lemma op_agrees op : op_ok op -> orel agrees (master bus addr op) (device_op d0 op).
Proof.
  destruct op; intros Hop.
  - apply quick_agrees.
  - apply receive_agrees.
  - apply send_byte_agrees.
  - apply read_byte_agrees.
  - apply write_byte_agrees.
  - apply read_word_agrees.
  - by apply write_word_agrees.
  - by apply read_block_agrees.
  - by apply write_block_agrees; apply Hop.
Qed.
End Engaged.

(** ** The master commands refine [bus_op] *)
Section Refinement.
Context {D : Type} `{SMBusClass D}.
Implicit Types (bus : I2CBus (SMBusDevice D)).

Lemma bus_split cs (l : list (Z * D)) addr op : Forall2 idle_dev cs l ->
  (find_slave cs addr = None /\ bus_op l addr op = Ok (l, absent op)) \/
  exists i dev d, find_slave cs addr = Some i /\ cs !! i = Some dev /\ idle_dev dev (addr, d) /\ l !! i = Some (addr, d) /\
    bus_op l addr op = ('(d', v) ← device_op d op; Ok (<[i := (addr, d')]> l, v)).
Proof.
  induction 1 as [|dev [a d] cs l Hd Hl IH]; [by left|]. cbn [find_slave bus_op].
  replace (slave_address dev) with a by (symmetry; apply Hd). destruct (Z.eqb_spec a addr) as [->|Hne].
  { right. exists 0%nat, dev, d. repeat split; try done; apply Hd. }
  destruct IH as [[-> ->]|(i & dv & dd & -> & Hc & Hi & Hll & ->)]; [by left|].
  right. exists (S i), dv, dd. repeat split; try done; try apply Hi.
  destruct (device_op dd op) as [[d' v]| |]; done.
Qed.

Lemma absent_send bus x : current_dev bus = None -> i2c_send bus x = Ok (bus, -1).
Proof. unfold i2c_send. by intros ->. Qed.
Lemma absent_recv bus : current_dev bus = None -> i2c_recv bus = Ok (bus, -1).
Proof. unfold i2c_recv. by intros ->. Qed.
Lemma absent_nack bus : current_dev bus = None -> i2c_nack bus = Ok bus.
Proof. unfold i2c_nack. by intros ->. Qed.
Lemma absent_end bus : current_dev bus = None -> i2c_end_transfer bus = Ok bus.
Proof. unfold i2c_end_transfer. by intros ->. Qed.
Lemma absent_start bus addr recv : find_slave (bus_children bus) addr = None -> i2c_start_transfer bus addr recv = Ok (bus, 1).
Proof. unfold i2c_start_transfer. by intros ->. Qed.
Lemma absent_send_block bus data n j : current_dev bus = None -> (j + n <= length data)%nat -> send_block bus n j data = Ok bus.
Proof.
  intros Hc. revert j. induction n as [|n IH]; intros j Hj; [done|]. cbn [send_block].
  destruct (lookup_lt_is_Some_2 data j) as [x ->]; [lia|]. cbn. rewrite absent_send by done. cbn. apply IH. lia.
Qed.

Lemma absent_master bus addr op : current_dev bus = None -> find_slave (bus_children bus) addr = None -> op_ok op ->
  master bus addr op = Ok (bus, absent op).
Proof.
  intros Hc Hf Hop. destruct op; cbn [master];
    unfold smbus_quick_command, smbus_receive_byte, smbus_send_byte, smbus_read_byte, smbus_write_byte, smbus_read_word,
      smbus_write_word, smbus_read_block, smbus_write_block;
    repeat (first [rewrite (absent_start bus addr) by done | rewrite (absent_send bus) by done | rewrite (absent_recv bus) by done
                  | rewrite (absent_nack bus) by done | rewrite (absent_end bus) by done]; cbn -[Z.min recv_block send_block]); try done.
  { change (recv_block bus _ _ _) with (Ok (bus, data)). cbn [mbind outcome_bind fst snd].
    rewrite absent_nack by done. cbn [mbind outcome_bind]. by rewrite absent_end. }
  destruct Hop as [Hd Hl]. rewrite absent_send_block by (try done; destruct (Z.ltb_spec 32 len); lia). cbn. by rewrite absent_end.
Qed.

Lemma master_spec bus l addr op : idle_bus bus l -> op_ok op ->
  orel (fun r r' => idle_bus (fst r) (fst r') /\ snd r = snd r') (master bus addr op) (bus_op l addr op).
Proof.
  intros [Hc Hl] Hop. destruct (bus_split _ _ addr op Hl) as [[Hf ->]|(i & dev & d & Hf & Hd & Hi & Hll & ->)].
  { rewrite absent_master by done. done. }
  pose proof (op_agrees bus i addr Hf dev d Hd Hi op Hop) as Ha.
  destruct (master bus addr op) as [[b v]| |], (device_op d op) as [[d' v']| |]; try done. unfold agrees in Ha. cbn in Ha |- *.
  destruct Ha as [(dev' & Hi' & ->) ?]. split; [|done]. split; [done|]. cbn. by apply Forall2_insert.
Qed.

(** C22 (refinement): The nine SMBus master commands are atomic.  On an idle bus a
    command to any address, whatever the device does, returns what the device
    callbacks listed by [device_op] return and leaves the private states as
    they do; it fails only if a callback fails (in particular the 34-byte
    buffer never overflows), other devices are untouched, an absent device
    reads as all ones, and the bus and every device are idle again. *)
Theorem smbus_commands_atomic bus l addr op : idle_bus bus l -> op_ok op ->
  orel (fun r r' => idle_bus (fst r) (fst r') /\ snd r = snd r') (master bus addr op) (bus_op l addr op).
Proof. apply master_spec. Qed.
End Refinement.

(** ** Saving and loading the bus

    [i2c_bus_load] is what loading does to a bus that [i2c_bus_pre_save] has
    saved: the bus first, then each slave. *)
Section Load.
Context {S : Type} `{I2CSlave S}.
Implicit Types (bus : I2CBus S).

Definition i2c_bus_load bus : outcome (I2CBus S) :=
  ofold i2c_slave_post_load (i2c_bus_post_load bus) (seq 0 (length (bus_children bus))).

Lemma post_load_at bus i dev : bus_children bus !! i = Some dev ->
  i2c_slave_post_load bus i = Ok (if saved_address bus =? slave_address dev then set_current bus (Some i) else bus).
Proof. intros Hd. unfold i2c_slave_post_load, current. by rewrite Hd. Qed.

Lemma load_none bus l : (forall i dev, i ∈ l -> bus_children bus !! i = Some dev -> slave_address dev <> saved_address bus) ->
  (forall i, i ∈ l -> (i < length (bus_children bus))%nat) -> ofold i2c_slave_post_load bus l = Ok bus.
Proof.
  intros Hne Hlt. induction l as [|i l IH]; [done|]. cbn [ofold].
  destruct (lookup_lt_is_Some_2 (bus_children bus) i) as [dev Hd]; [apply Hlt; left|]. rewrite (post_load_at _ _ _ Hd). cbn.
  replace (_ =? _) with false. { apply IH; intros; [eapply Hne|apply Hlt]; try done; by right. }
  symmetry. apply Z.eqb_neq. intros Heq. apply (Hne i dev); [left|done|done].
Qed.

(** A bus saved in the middle of a transfer is loaded with the same device
    current, provided the addresses differ and none is 0xff, which stands for
    an idle bus. *)
Lemma i2c_bus_save_load bus : NoDup (slave_address <$> bus_children bus) -> 0xff ∉ slave_address <$> bus_children bus ->
  (forall i, current_dev bus = Some i -> (i < length (bus_children bus))%nat) ->
  exists saved, i2c_bus_pre_save bus = Ok saved /\ i2c_bus_load saved = Ok saved /\
    bus_children saved = bus_children bus /\ current_dev saved = current_dev bus.
Proof.
  intros Hnd Hff Hcur. unfold i2c_bus_pre_save, i2c_bus_load, i2c_bus_post_load. destruct (current_dev bus) as [i|] eqn:Hc.
  - destruct (lookup_lt_is_Some_2 (bus_children bus) i) as [dev Hd]; [auto|]. unfold current. rewrite Hd. cbn.
    eexists. repeat split. cbn. pose proof (Hcur i eq_refl) as Hi.
    assert (Hother : forall j dev', bus_children bus !! j = Some dev' -> j <> i -> slave_address dev' <> slave_address dev).
    { intros j dev' Hj Hne Heq. apply Hne. apply (NoDup_lookup _ _ _ (slave_address dev) Hnd); rewrite list_lookup_fmap.
      - by rewrite Hj; cbn; rewrite Heq.
      - by rewrite Hd. }
    replace (length (bus_children bus)) with (i + Datatypes.S (length (bus_children bus) - Datatypes.S i))%nat by lia.
    rewrite seq_app, ofold_app. rewrite load_none; cbn [set_current bus_children saved_address].
    + cbn [seq ofold mbind outcome_bind]. erewrite post_load_at by done. cbn. rewrite Z.eqb_refl. apply load_none; cbn.
      * intros j dev' Hj Hl. apply (Hother j dev' Hl). apply elem_of_seq in Hj. lia.
      * intros j Hj. apply elem_of_seq in Hj. lia.
    + intros j dev' Hj Hl. apply (Hother j dev' Hl). apply elem_of_seq in Hj. lia.
    + intros j Hj. apply elem_of_seq in Hj. lia.
  - cbn. eexists. repeat split. cbn. apply load_none; cbn.
    + intros j dev Hj Hl Heq. apply Hff. apply list_elem_of_fmap. exists dev. split; [done|]. by eapply list_elem_of_lookup_2.
    + intros j Hj. apply elem_of_seq in Hj. lia.
Qed.
End Load.

(** ** A bus with a register file at address 0x20 *)
Module RegisterFile.
Definition regs_class : SMBusDeviceClass (list Z) := {|
  quick_cmd := None;
  send_byte := None;
  receive_byte := None;
  write_data := Some (fun d cmd buf => match buf with b :: _ => Ok (<[Z.to_nat cmd := b]> d) | [] => Abort end);
  read_data := Some (fun d cmd n => Ok (d, nth (Z.to_nat (cmd + n)) d 0))
|}.
#[export] Instance regs_smbus : SMBusClass (list Z) := fun _ => regs_class.

Definition regs_bus : I2CBus (SMBusDevice (list Z)) := {|
  bus_children := [{| sd_address := 0x20; sd_mode := SMBUS_IDLE; sd_data_len := 0; sd_data_buf := replicate 34 0;
                      sd_command := 0; sd_priv := [7; 8; 9] |}];
  current_dev := None;
  saved_address := 0
|}.

Lemma regs_bus_idle : idle_bus regs_bus [(0x20, [7; 8; 9])].
Proof. split; [done|]. repeat constructor. Qed.
End RegisterFile.
Import RegisterFile.

Lemma smbus_commands_atomic_witness :
  orel (fun r r' => idle_bus (fst r) (fst r') /\ snd r = snd r')
    (master regs_bus 0x20 (op_read_word 1)) (Ok ([(0x20, [7; 8; 9])], (8 + 256 * 9, []))).
Proof.
  exact (smbus_commands_atomic regs_bus [(0x20, [7; 8; 9])] 0x20 (op_read_word 1) regs_bus_idle I).
Defined.

(** ** Finding: the message buffer

    The master commands send at most 34 bytes, but [smbus_i2c_send] itself
    checks nothing: a master that drives the I2C bus directly writes past
    [data_buf] with the 35th byte of a message. *)
Lemma raw_send_overflows :
  (r ← i2c_start_transfer regs_bus 0x20 0;
   ofold (fun b x => r ← i2c_send b x; Ok (fst r)) (fst r) (replicate 35 0)) = Abort /\
  is_Some (match (r ← i2c_start_transfer regs_bus 0x20 0;
                  ofold (fun b x => r ← i2c_send b x; Ok (fst r)) (fst r) (replicate 34 0)) with Ok b => Some b | _ => None end).
Proof. split; [reflexivity|]. vm_compute. by eexists. Qed.
