(* ===== verification/AmdSmbus.v ===== *)
(** * The AMD756 SMBus host controller

    hw/xbox/amd_smbus.c: the registers the guest sees, and the transaction a
    write of the start bit runs on the bus.  The controller uses the bus only
    through [SMBusMaster], which both the I2C bus of SMBus.v and a plain list
    of devices implement; [run_ports_refines] carries theorems from the second to
    the first.  The port callbacks of hw/xbox/xbox_pci.c follow. *)
From S2P Require Import Prelude MemRegion MemAccess SMBus.

(** The master side of a bus: run one command at an address. *)
Class SMBusMaster (B : Type) := smbus_command : B -> Z -> smbus_op -> outcome (B * answer_of).

#[export] Instance i2c_master {D} `{SMBusClass D} : SMBusMaster (I2CBus (SMBusDevice D)) := master.
#[export] Instance list_master {D} `{SMBusClass D} : SMBusMaster (list (Z * D)) := bus_op.

Definition SMB_GLOBAL_STATUS : Z := 0x0.
Definition SMB_GLOBAL_ENABLE : Z := 0x2.
Definition SMB_HOST_ADDRESS : Z := 0x4.
Definition SMB_HOST_DATA : Z := 0x6.
Definition SMB_HOST_COMMAND : Z := 0x8.
Definition SMB_HOST_BLOCK_DATA : Z := 0x9.

Definition AMD756_QUICK : Z := 0.
Definition AMD756_BYTE : Z := 1.
Definition AMD756_BYTE_DATA : Z := 2.
Definition AMD756_WORD_DATA : Z := 3.
Definition AMD756_BLOCK_DATA : Z := 5.

Definition GS_ABRT_STS : Z := 0x1.
Definition GS_PRERR_STS : Z := 0x4.
Definition GS_HCYC_STS : Z := 0x10.
Definition GS_CLEAR_STS : Z := 0x37.
Definition GE_CYC_TYPE_MASK : Z := 7.
Definition GE_HOST_STC : Z := 0x8.
Definition GE_HCYC_EN : Z := 0x10.
Definition GE_ABORT : Z := 0x20.

(** The registers; [smb_irq] is the level of the interrupt line, [None] when
    the controller has none. *)
Record AmdRegs := {
  smb_stat : Z;
  smb_ctl : Z;
  smb_cmd : Z;
  smb_addr : Z;
  smb_data0 : Z;
  smb_data1 : Z;
  smb_data : list Z;
  smb_index : Z;
  smb_irq : option Z
}.

Record AMD756SMBus (B : Type) := { smbus : B; smb : AmdRegs }.
Arguments smbus {B} _.
Arguments smb {B} _.
Arguments Build_AMD756SMBus {B} _ _.

Definition set_stat (v : Z) (r : AmdRegs) : AmdRegs :=
  let '(Build_AmdRegs _ ctl cmd a d0 d1 d i irq) := r in Build_AmdRegs v ctl cmd a d0 d1 d i irq.
Definition set_ctl (v : Z) (r : AmdRegs) : AmdRegs :=
  let '(Build_AmdRegs st _ cmd a d0 d1 d i irq) := r in Build_AmdRegs st v cmd a d0 d1 d i irq.
Definition set_cmd (v : Z) (r : AmdRegs) : AmdRegs :=
  let '(Build_AmdRegs st ctl _ a d0 d1 d i irq) := r in Build_AmdRegs st ctl v a d0 d1 d i irq.
Definition set_address (v : Z) (r : AmdRegs) : AmdRegs :=
  let '(Build_AmdRegs st ctl cmd _ d0 d1 d i irq) := r in Build_AmdRegs st ctl cmd v d0 d1 d i irq.
Definition set_data0 (v : Z) (r : AmdRegs) : AmdRegs :=
  let '(Build_AmdRegs st ctl cmd a _ d1 d i irq) := r in Build_AmdRegs st ctl cmd a v d1 d i irq.
Definition set_data1 (v : Z) (r : AmdRegs) : AmdRegs :=
  let '(Build_AmdRegs st ctl cmd a d0 _ d i irq) := r in Build_AmdRegs st ctl cmd a d0 v d i irq.
Definition set_data (v : list Z) (r : AmdRegs) : AmdRegs :=
  let '(Build_AmdRegs st ctl cmd a d0 d1 _ i irq) := r in Build_AmdRegs st ctl cmd a d0 d1 v i irq.
Definition set_index (v : Z) (r : AmdRegs) : AmdRegs :=
  let '(Build_AmdRegs st ctl cmd a d0 d1 d _ irq) := r in Build_AmdRegs st ctl cmd a d0 d1 d v irq.

(** [if (s->irq) qemu_set_irq(s->irq, level)] *)
Definition set_irq_level (level : Z) (r : AmdRegs) : AmdRegs :=
  let '(Build_AmdRegs st ctl cmd a d0 d1 d i irq) := r in
  Build_AmdRegs st ctl cmd a d0 d1 d i ((fun _ => level) <$> irq).

Section Controller.
Context {B : Type} `{SMBusMaster B}.
Implicit Types (s : AMD756SMBus B).

Definition amd756_smbus_init (bus : B) (irq : option Z) : AMD756SMBus B :=
  {| smbus := bus;
     smb := {| smb_stat := 0; smb_ctl := 0; smb_cmd := 0; smb_addr := 0; smb_data0 := 0; smb_data1 := 0;
               smb_data := replicate 32 0; smb_index := 0; smb_irq := irq |} |}.

(** The end of a transaction that ran a command: registers updated by [f]. *)
Definition completes (f : answer_of -> AmdRegs -> AmdRegs) (r : AmdRegs) (c : outcome (B * answer_of)) : outcome (AMD756SMBus B) :=
  '(bus, v) ← c;
  let r := f v r in
  Ok {| smbus := bus; smb := set_stat (Z.lor (smb_stat r) GS_HCYC_STS) r |}.

Definition amd756_smb_transaction s : outcome (AMD756SMBus B) :=
  let r := smb s in
  let prot := Z.land (smb_ctl r) GE_CYC_TYPE_MASK in
  let read := Z.land (smb_addr r) 0x01 in
  let cmd := smb_cmd r in
  let addr := Z.land (Z.shiftr (smb_addr r) 1) 0x7f in
  let bus := smbus s in
  if prot =? AMD756_QUICK then completes (fun _ r => r) r (smbus_command bus addr (op_quick read))
  else if prot =? AMD756_BYTE then
    if read =? 0 then completes (fun _ r => r) r (smbus_command bus addr (op_send_byte cmd))
    else completes (fun v => set_data0 (fst v)) r (smbus_command bus addr op_receive_byte)
  else if prot =? AMD756_BYTE_DATA then
    if read =? 0 then completes (fun _ r => r) r (smbus_command bus addr (op_write_byte cmd (smb_data0 r)))
    else completes (fun v => set_data0 (fst v)) r (smbus_command bus addr (op_read_byte cmd))
  else if prot =? AMD756_WORD_DATA then
    if read =? 0 then completes (fun _ r => r) r (smbus_command bus addr (op_write_word cmd (smb_data0 r)))
    else completes (fun v r => set_data1 (u8 (Z.shiftr (fst v) 8)) (set_data0 (u8 (fst v)) r)) r
           (smbus_command bus addr (op_read_word cmd))
  else if prot =? AMD756_BLOCK_DATA then
    if read =? 0 then completes (fun _ r => r) r (smbus_command bus addr (op_write_block cmd (smb_data r) (smb_data0 r)))
    else completes (fun v r => set_data0 (u8 (fst v)) (set_data (snd v) r)) r
           (smbus_command bus addr (op_read_block cmd (smb_data r)))
  else Ok {| smbus := bus; smb := set_stat (Z.lor (smb_stat r) GS_PRERR_STS) r |}.

(** [s->smb_index++; if (s->smb_index > 31) s->smb_index = 0;] *)
Definition next_index (r : AmdRegs) : AmdRegs :=
  let i := u8 (smb_index r + 1) in set_index (if 31 <? i then 0 else i) r.

Definition status_write (val : Z) (r : AmdRegs) : AmdRegs :=
  let r := set_irq_level (if negb (Z.land (smb_ctl r) GE_HCYC_EN =? 0) &&
                             negb (Z.land (Z.land val GS_CLEAR_STS) (Z.lnot (Z.land (smb_stat r) GS_CLEAR_STS)) =? 0)
                          then 1 else 0) r in
  if negb (Z.land val GS_CLEAR_STS =? 0) then set_index 0 (set_stat 0 r)
  else if negb (Z.land val GS_HCYC_STS =? 0) then set_index 0 (set_stat GS_HCYC_STS r)
  else set_index 0 (set_stat GS_HCYC_STS r).

Definition amd756_smb_ioport_writeb s (addr val : Z) : outcome (AMD756SMBus B) :=
  let addr := Z.land addr 0x3f in
  let regs (r : AmdRegs) := Ok {| smbus := smbus s; smb := r |} in
  if addr =? SMB_GLOBAL_STATUS then regs (status_write val (smb s))
  else if addr =? SMB_GLOBAL_ENABLE then
    let r := set_ctl (u8 val) (smb s) in
    let r := if negb (Z.land val GE_ABORT =? 0) then set_stat (Z.lor (smb_stat r) GS_ABRT_STS) r else r in
    if negb (Z.land val GE_HOST_STC =? 0) then
      s ← amd756_smb_transaction {| smbus := smbus s; smb := r |};
      Ok (if negb (Z.land val GE_HCYC_EN =? 0) && negb (Z.land (smb_stat (smb s)) GS_CLEAR_STS =? 0)
          then {| smbus := smbus s; smb := set_irq_level 1 (smb s) |} else s)
    else regs r
  else if addr =? SMB_HOST_COMMAND then regs (set_cmd (u8 val) (smb s))
  else if addr =? SMB_HOST_ADDRESS then regs (set_address (u8 val) (smb s))
  else if addr =? SMB_HOST_DATA then regs (set_data0 (u8 val) (smb s))
  else if addr =? SMB_HOST_DATA + 1 then regs (set_data1 (u8 val) (smb s))
  else if addr =? SMB_HOST_BLOCK_DATA then
    if smb_index (smb s) <? Z.of_nat (length (smb_data (smb s))) then
      regs (next_index (set_data (<[Z.to_nat (smb_index (smb s)) := u8 val]> (smb_data (smb s))) (smb s)))
    else Abort
  else Ok s.

Definition amd756_smb_ioport_readb s (addr : Z) : outcome (AMD756SMBus B * Z) :=
  let addr := Z.land addr 0x3f in
  if addr =? SMB_GLOBAL_STATUS then Ok (s, smb_stat (smb s))
  else if addr =? SMB_GLOBAL_ENABLE then Ok (s, Z.land (smb_ctl (smb s)) 0x1f)
  else if addr =? SMB_HOST_COMMAND then Ok (s, smb_cmd (smb s))
  else if addr =? SMB_HOST_ADDRESS then Ok (s, smb_addr (smb s))
  else if addr =? SMB_HOST_DATA then Ok (s, smb_data0 (smb s))
  else if addr =? SMB_HOST_DATA + 1 then Ok (s, smb_data1 (smb s))
  else if addr =? SMB_HOST_BLOCK_DATA then
    match smb_data (smb s) !! Z.to_nat (smb_index (smb s)) with
    | Some val => Ok ({| smbus := smbus s; smb := next_index (smb s) |}, val)
    | None => Abort
    end
  else Ok (s, 0).

(** ** hw/xbox/xbox_pci.c

    The callbacks of the port range.  They get an offset in the range and
    subtract the base address of the range, which is 64-byte aligned on the
    Xbox, before the controller masks it.  A failed assertion of a device is
    carried in the state, so that the callbacks fit [MemoryRegionOps]. *)
Definition xbox_smb_ioport_writeb (bar : Z) (s : outcome (AMD756SMBus B)) (addr val size : Z) : outcome (AMD756SMBus B) :=
  s ← s; amd756_smb_ioport_writeb s (u32 (addr - bar)) (u32 val).

Definition xbox_smb_ioport_readb (bar : Z) (s : outcome (AMD756SMBus B)) (addr size : Z) : outcome (AMD756SMBus B) * Z :=
  match (s ← s; amd756_smb_ioport_readb s (u32 (addr - bar))) with
  | Ok (s, v) => (Ok s, v)
  | Abort => (Abort, 0)
  | NoFuel => (NoFuel, 0)
  end.

Definition xbox_smbus_ops (bar : Z) : MemoryRegionOps (outcome (AMD756SMBus B)) := {|
  read := Some (xbox_smb_ioport_readb bar);
  write := Some (xbox_smb_ioport_writeb bar);
  endianness := DEVICE_LITTLE_ENDIAN;
  valid_min_access_size := 0; valid_max_access_size := 0; valid_unaligned := false; valid_accepts := None;
  impl_min_access_size := 1; impl_max_access_size := 1; impl_unaligned := false;
  old_mmio_read := fun _ d _ => (d, 0); old_mmio_write := fun _ d _ _ => d
|}.
End Controller.

(** ** The register invariant *)
Definition byte (z : Z) : Prop := 0 <= z < 2 ^ 8.

Record regs_ok (r : AmdRegs) : Prop := {
  ok_stat : byte (smb_stat r);
  ok_ctl : byte (smb_ctl r);
  ok_cmd : byte (smb_cmd r);
  ok_addr : byte (smb_addr r);
  ok_data0 : byte (smb_data0 r);
  ok_data1 : byte (smb_data1 r);
  ok_data : length (smb_data r) = 32%nat /\ Forall byte (smb_data r);
  ok_index : 0 <= smb_index r < 32
}.

(** What the controller may assume of the answer to a command. *)
Definition answer_ok (op : smbus_op) (v : answer_of) : Prop :=
  match op with
  | op_receive_byte | op_read_byte _ => byte (fst v)
  | op_read_block _ data => length (snd v) = length data /\ (Forall byte data -> Forall byte (snd v))
  | _ => True
  end.

(** Two buses that answer commands alike: the contract between the bus and
    the controller. *)
Class MasterRefines (B1 B2 : Type) `{SMBusMaster B1, SMBusMaster B2} (R : B1 -> B2 -> Prop) : Prop :=
  command_refines b1 b2 addr op : R b1 b2 -> op_ok op ->
    orel (fun r r' => R (fst r) (fst r') /\ snd r = snd r' /\ answer_ok op (snd r'))
      (smbus_command b1 addr op) (smbus_command b2 addr op).

Lemma read_bytes_ok {D} `{SMBusClass D} k : forall (d : D) cmd n d' bs,
  read_bytes d cmd n k = Ok (d', bs) -> length bs = k /\ Forall byte bs.
Proof.
  induction k as [|k IH]; intros d cmd n d' bs; cbn [read_bytes]; [by intros [= <- <-]|].
  destruct (call_read_data d cmd n) as [[[d1 b] n1]| |] eqn:E; try done. cbn [mbind outcome_bind].
  destruct (read_bytes d1 cmd n1 k) as [[d2 bs']| |] eqn:E2; try done. intros [= <- <-].
  apply IH in E2 as [? ?]. apply read_data_byte in E. split; [cbn; congruence|by constructor].
Qed.

Lemma device_op_answer {D} `{SMBusClass D} (d : D) op d' v : op_ok op -> device_op d op = Ok (d', v) -> answer_ok op v.
Proof.
  destruct op; intros Hop; cbn -[Z.mul]; try done.
  - destruct (call_receive_byte d) as [[d1 x]| |] eqn:E; try done. intros [= <- <-]. by eapply receive_byte_byte.
  - destruct (call_read_data d command 0) as [[[d1 x] n]| |] eqn:E; try done. intros [= <- <-]. by eapply read_data_byte.
  - destruct (call_read_data d command 0) as [[[d1 x] n]| |] eqn:E; try done. cbn [mbind outcome_bind].
    destruct (read_bytes d1 command n _) as [[d2 bs]| |] eqn:E2; try done. intros [= <- <-].
    apply read_data_byte in E. apply read_bytes_ok in E2 as [Hl Hb]. cbn. rewrite length_app, length_drop, Hl, Hop.
    split; [destruct (Z.ltb_spec 32 x); lia|]. intros Hd. apply Forall_app. split; [done|]. by apply Forall_drop.
Qed.

Lemma bus_op_answer {D} `{SMBusClass D} (l : list (Z * D)) addr op l' v : op_ok op -> bus_op l addr op = Ok (l', v) -> answer_ok op v.
Proof.
  intros Hop. revert l'. induction l as [|[a d] l IH]; intros l'; cbn [bus_op].
  - intros [= <- <-]. by destruct op.
  - destruct (a =? addr).
    + destruct (device_op d op) as [[d' w]| |] eqn:E; try done. intros [= <- <-]. by eapply device_op_answer.
    + destruct (bus_op l addr op) as [[l1 w]| |]; try done. intros [= <- <-]. by eapply IH.
Qed.

#[export] Instance i2c_refines {D} `{SMBusClass D} : MasterRefines (I2CBus (SMBusDevice D)) (list (Z * D)) idle_bus.
Proof.
  intros bus l addr op Hi Hop. pose proof (master_spec bus l addr op Hi Hop) as Hm.
  unfold smbus_command, i2c_master, list_master. destruct (bus_op l addr op) as [[l' v]| |] eqn:E; destruct (master bus addr op) as [[b w]| |]; try done.
  cbn in *. destruct Hm as [? ?]. split; [done|]. split; [done|]. by eapply bus_op_answer.
Qed.

(** ** The controller on related buses *)
Lemma byte_lor a b : byte a -> byte b -> byte (Z.lor a b).
Proof. by apply lor_range. Qed.

Lemma byte_u8 z : byte (u8 z).
Proof. by apply wrap_range. Qed.

Create HintDb amd.
#[export] Hint Resolve byte_lor byte_u8 : amd.
#[export] Hint Extern 1 (byte _) => (split; [done|reflexivity]) : amd.

(** Register updates preserve the invariant. *)
Section Updates.
Variables (r : AmdRegs) (Hr : regs_ok r).

Lemma ok_set_stat v : byte v -> regs_ok (set_stat v r).
Proof. destruct r, Hr. by split. Qed.
Lemma ok_set_ctl v : byte v -> regs_ok (set_ctl v r).
Proof. destruct r, Hr. by split. Qed.
Lemma ok_set_cmd v : byte v -> regs_ok (set_cmd v r).
Proof. destruct r, Hr. by split. Qed.
Lemma ok_set_address v : byte v -> regs_ok (set_address v r).
Proof. destruct r, Hr. by split. Qed.
Lemma ok_set_data0 v : byte v -> regs_ok (set_data0 v r).
Proof. destruct r, Hr. by split. Qed.
Lemma ok_set_data1 v : byte v -> regs_ok (set_data1 v r).
Proof. destruct r, Hr. by split. Qed.
Lemma ok_set_data v : length v = 32%nat -> Forall byte v -> regs_ok (set_data v r).
Proof. destruct r, Hr. by split. Qed.
Lemma ok_set_index v : 0 <= v < 32 -> regs_ok (set_index v r).
Proof. destruct r, Hr. by split. Qed.
Lemma ok_set_irq v : regs_ok (set_irq_level v r).
Proof. destruct r, Hr. by split. Qed.

Lemma ok_next_index : regs_ok (next_index r).
Proof.
  apply ok_set_index. pose proof (ok_index r Hr). rewrite (wrap_small 8) by lia. destruct (Z.ltb_spec 31 (smb_index r + 1)); lia.
Qed.
End Updates.
#[export] Hint Resolve ok_set_stat ok_set_ctl ok_set_cmd ok_set_address ok_set_data0 ok_set_data1 ok_set_data ok_set_index
  ok_set_irq ok_next_index ok_stat ok_ctl ok_cmd ok_addr ok_data0 ok_data1 ok_index : amd.

Lemma ok_status_write val r : regs_ok r -> regs_ok (status_write val r).
Proof. intros Hr. unfold status_write. repeat case_match; eauto 6 with amd lia. Qed.

Section Lockstep.
Context {B1 B2 : Type} `{SMBusMaster B1, SMBusMaster B2} {R : B1 -> B2 -> Prop} `{!MasterRefines B1 B2 R}.

Definition amd_rel (s : AMD756SMBus B1) (t : AMD756SMBus B2) : Prop :=
  R (smbus s) (smbus t) /\ smb s = smb t /\ regs_ok (smb t).

Lemma completes_refines f op r b1 b2 addr : R b1 b2 -> op_ok op -> (forall v, answer_ok op v -> regs_ok (f v r)) ->
  orel amd_rel (completes f r (smbus_command b1 addr op)) (completes f r (smbus_command b2 addr op)).
Proof.
  intros HR Hop Hf. eapply orel_bind; [by apply command_refines|]. intros [c1 v1] [c2 v2] _ _ (Hc & Hv & Ha). cbn in Hv. subst v1.
  split; [done|]. split; [done|]. cbn. specialize (Hf v2 Ha). eauto with amd.
Qed.

Lemma transaction_refines s t : amd_rel s t -> orel amd_rel (amd756_smb_transaction s) (amd756_smb_transaction t).
Proof.
  intros (HR & Hs & Hr). destruct s as [b1 r], t as [b2 r']. cbn in HR, Hs, Hr. subst r'. unfold amd756_smb_transaction. cbn [smb smbus].
  destruct (ok_data r Hr) as [Hlen Hb]. pose proof (ok_data0 r Hr) as Hd0. unfold byte in Hd0.
  repeat case_match; try (apply completes_refines; [done| |]); cbn; try done; auto with amd; try lia.
  - intros [v dl] [Hl Hf]. cbn in *. apply ok_set_data0; [|auto with amd]. apply ok_set_data; auto. congruence.
  - split; [done|]. split; [done|]. cbn. eauto with amd.
Qed.

Lemma regs_related s t r : amd_rel s t -> regs_ok r ->
  amd_rel {| smbus := smbus s; smb := r |} {| smbus := smbus t; smb := r |}.
Proof. by intros (? & ? & ?). Qed.

(** The part of a write of the start bit after the control register is set. *)
Definition started {B} `{SMBusMaster B} (val : Z) (s : AMD756SMBus B) : outcome (AMD756SMBus B) :=
  s ← amd756_smb_transaction s;
  Ok (if negb (Z.land val GE_HCYC_EN =? 0) && negb (Z.land (smb_stat (smb s)) GS_CLEAR_STS =? 0)
      then {| smbus := smbus s; smb := set_irq_level 1 (smb s) |} else s).

Lemma started_refines s t val : amd_rel s t -> orel amd_rel (started val s) (started val t).
Proof.
  intros Hrel. eapply orel_bind; [by apply transaction_refines|]. intros s' t' _ _ Hrel'. pose proof Hrel' as (HR & Hs & Hr).
  rewrite Hs. cbn. case_match; [|done]. apply regs_related; auto with amd.
Qed.

Lemma writeb_refines s t addr val : amd_rel s t ->
  orel amd_rel (amd756_smb_ioport_writeb s addr val) (amd756_smb_ioport_writeb t addr val).
Proof.
  intros Hrel. pose proof Hrel as (HR & Hs & Hr). unfold amd756_smb_ioport_writeb. rewrite Hs.
  destruct (ok_data _ Hr) as [Hlen Hb]. pose proof (ok_index _ Hr) as Hi.
  repeat case_match; try (apply regs_related; [done|]); try (apply started_refines, regs_related; [done|]);
    eauto 8 using ok_status_write with amd; [|done].
  apply ok_next_index, ok_set_data; [done|by rewrite length_insert|]. apply Forall_insert; [done|]. auto with amd.
Qed.

Lemma readb_refines s t addr : amd_rel s t ->
  orel (fun r r' => amd_rel (fst r) (fst r') /\ snd r = snd r' /\ byte (snd r'))
    (amd756_smb_ioport_readb s addr) (amd756_smb_ioport_readb t addr).
Proof.
  intros Hrel. pose proof Hrel as (HR & Hs & Hr). unfold amd756_smb_ioport_readb. rewrite Hs.
  destruct (ok_data _ Hr) as [Hlen Hb]. pose proof (ok_ctl _ Hr) as [Hc0 Hc1].
  repeat case_match; cbn; eauto with amd.
  - split; [done|]. split; [done|]. change 31 with (Z.ones 5). rewrite Z.land_ones by done.
    pose proof (Z.mod_pos_bound (smb_ctl (smb t)) (2 ^ 5)). unfold byte. lia.
  - split; [apply regs_related; auto with amd|]. split; [done|]. by eapply Forall_lookup_1 in Hb.
Qed.
End Lockstep.

#[export] Instance list_refines {D} `{SMBusClass D} : MasterRefines (list (Z * D)) (list (Z * D)) eq.
Proof.
  intros l _ addr op <- Hop. unfold smbus_command, list_master. destruct (bus_op l addr op) as [[l' v]| |] eqn:E; try done.
  split; [done|]. split; [done|]. by eapply bus_op_answer.
Qed.

(** ** Sequences of port accesses *)
Variant port_access := port_write (addr val : Z) | port_read (addr : Z).

Section Ports.
Context {B : Type} `{SMBusMaster B}.

(** One access, and the byte it reads. *)
Definition port_step (s : AMD756SMBus B) (a : port_access) : outcome (AMD756SMBus B * list Z) :=
  match a with
  | port_write addr val => s ← amd756_smb_ioport_writeb s addr val; Ok (s, [])
  | port_read addr => '(s, v) ← amd756_smb_ioport_readb s addr; Ok (s, [v])
  end.

Fixpoint run_ports (s : AMD756SMBus B) (l : list port_access) : outcome (AMD756SMBus B * list Z) :=
  match l with
  | [] => Ok (s, [])
  | a :: l => '(s, v) ← port_step s a; '(s, vs) ← run_ports s l; Ok (s, v ++ vs)
  end.
End Ports.

Section PortsRefine.
Context {B1 B2 : Type} `{SMBusMaster B1, SMBusMaster B2} {R : B1 -> B2 -> Prop} `{!MasterRefines B1 B2 R}.

Definition ports_rel (r : AMD756SMBus B1 * list Z) (r' : AMD756SMBus B2 * list Z) : Prop :=
  amd_rel (R:=R) (fst r) (fst r') /\ snd r = snd r' /\ Forall byte (snd r').

Lemma port_step_refines s t a : amd_rel (R:=R) s t -> orel ports_rel (port_step s a) (port_step t a).
Proof.
  intros Hrel. destruct a as [addr val|addr]; cbn [port_step].
  - eapply orel_bind; [by apply writeb_refines|]. intros s' t' _ _ Hr. by split.
  - eapply orel_bind; [by apply (readb_refines (R:=R))|]. intros [s' v] [t' v'] _ _ (Hr & Hv & Hb). cbn in *. subst v'.
    split; [done|]. split; [done|]. by constructor.
Qed.

Lemma run_ports_refines l : forall s t, amd_rel (R:=R) s t -> orel ports_rel (run_ports s l) (run_ports t l).
Proof.
  induction l as [|a l IH]; intros s t Hrel; cbn [run_ports]; [by split|].
  eapply orel_bind; [by apply port_step_refines|]. intros [s1 v1] [t1 v1'] _ _ (Hr1 & Hv1 & Hb1). cbn in Hr1, Hv1, Hb1. subst v1'.
  eapply orel_bind; [by apply IH|]. intros [s2 v2] [t2 v2'] _ _ (Hr2 & Hv2 & Hb2). cbn in Hr2, Hv2, Hb2. subst v2'.
  split; [done|]. split; [done|]. by apply Forall_app.
Qed.
End PortsRefine.

(** ** Which command an access starts *)
Definition transaction_op (r : AmdRegs) : option smbus_op :=
  let prot := Z.land (smb_ctl r) GE_CYC_TYPE_MASK in
  let read := Z.land (smb_addr r) 0x01 in
  if prot =? AMD756_QUICK then Some (op_quick read)
  else if prot =? AMD756_BYTE then Some (if read =? 0 then op_send_byte (smb_cmd r) else op_receive_byte)
  else if prot =? AMD756_BYTE_DATA then
    Some (if read =? 0 then op_write_byte (smb_cmd r) (smb_data0 r) else op_read_byte (smb_cmd r))
  else if prot =? AMD756_WORD_DATA then
    Some (if read =? 0 then op_write_word (smb_cmd r) (smb_data0 r) else op_read_word (smb_cmd r))
  else if prot =? AMD756_BLOCK_DATA then
    Some (if read =? 0 then op_write_block (smb_cmd r) (smb_data r) (smb_data0 r) else op_read_block (smb_cmd r) (smb_data r))
  else None.

(** Commands and data are bytes. *)
Definition op_bytes (op : smbus_op) : Prop :=
  match op with
  | op_quick _ | op_receive_byte => True
  | op_send_byte v => byte v
  | op_read_byte c | op_read_word c | op_write_word c _ => byte c
  | op_write_byte c v => byte c /\ byte v
  | op_read_block c data | op_write_block c data _ => byte c /\ Forall byte data
  end.

Definition transaction_addr (r : AmdRegs) : Z := Z.land (Z.shiftr (smb_addr r) 1) 0x7f.

Lemma transaction_op_ok r op : regs_ok r -> transaction_op r = Some op -> op_ok op.
Proof.
  intros Hr. destruct (ok_data r Hr) as [Hl _]. destruct (ok_data0 r Hr) as [? ?]. unfold transaction_op.
  repeat case_match; intros [= <-]; cbn; try done; lia.
Qed.

Lemma transaction_op_bytes r op : regs_ok r -> transaction_op r = Some op -> op_bytes op.
Proof.
  intros Hr. destruct (ok_data r Hr) as [_ Hb]. pose proof (ok_data0 r Hr). pose proof (ok_cmd r Hr). unfold transaction_op.
  repeat case_match; intros [= <-]; done.
Qed.

Lemma transaction_op_stat (b : bool) v r : transaction_op (if b then set_stat v r else r) = transaction_op r.
Proof. by destruct b, r. Qed.

Lemma transaction_addr_stat (b : bool) v r : transaction_addr (if b then set_stat v r else r) = transaction_addr r.
Proof. by destruct b, r. Qed.

Lemma transaction_runs {B} `{SMBusMaster B} (s : AMD756SMBus B) :
  match transaction_op (smb s) with
  | Some op => exists f, amd756_smb_transaction s = completes f (smb s) (smbus_command (smbus s) (transaction_addr (smb s)) op)
  | None => exists r, amd756_smb_transaction s = Ok {| smbus := smbus s; smb := r |}
  end.
Proof. unfold transaction_op, amd756_smb_transaction, transaction_addr. repeat case_match; simplify_eq; eauto. Qed.

(** The registers when an access starts a transaction. *)
Definition starts (r : AmdRegs) (a : port_access) : option AmdRegs :=
  match a with
  | port_write addr val =>
      if (Z.land addr 0x3f =? SMB_GLOBAL_ENABLE) && negb (Z.land val GE_HOST_STC =? 0) then Some (set_ctl (u8 val) r) else None
  | port_read _ => None
  end.

(** ** Ports never fail while the devices do not *)
Section Safety.
Context {D : Type} `{SMBusClass D} (J : D -> Prop) (allowed : D -> smbus_op -> Prop).
Hypothesis Hdev : forall d op, J d -> op_ok op -> op_bytes op -> allowed d op -> exists d' v, device_op d op = Ok (d', v) /\ J d'.

Definition devices_ok (l : list (Z * D)) : Prop := Forall (fun ad => J (snd ad)) l.

(** The command an access starts is one that the device it goes to allows. *)
Definition access_ok (t : AMD756SMBus (list (Z * D))) (a : port_access) : Prop :=
  forall r op d, starts (smb t) a = Some r -> transaction_op r = Some op -> (transaction_addr r, d) ∈ smbus t -> allowed d op.

Fixpoint accesses_ok (t : AMD756SMBus (list (Z * D))) (l : list port_access) : Prop :=
  match l with
  | [] => True
  | a :: l => access_ok t a /\ forall t' v, port_step t a = Ok (t', v) -> accesses_ok t' l
  end.

Lemma bus_op_succeeds l addr op : devices_ok l -> op_ok op -> op_bytes op -> (forall d, (addr, d) ∈ l -> allowed d op) ->
  exists l' v, bus_op l addr op = Ok (l', v) /\ devices_ok l'.
Proof.
  intros Hl Hop Hob Hal. induction Hl as [|[a d] l Hd Hl IH]; cbn [bus_op]; [by repeat eexists; constructor|].
  destruct (Z.eqb_spec a addr) as [->|Hne].
  - destruct (Hdev d op Hd Hop Hob) as (d' & v & -> & Hd'); [apply Hal; left|]. cbn. repeat eexists. by constructor.
  - destruct IH as (l' & v & -> & Hl'); [intros d' Hin; apply Hal; by right|]. cbn. repeat eexists. by constructor.
Qed.

Lemma transaction_succeeds t : devices_ok (smbus t) -> regs_ok (smb t) ->
  (forall op d, transaction_op (smb t) = Some op -> (transaction_addr (smb t), d) ∈ smbus t -> allowed d op) ->
  exists t', amd756_smb_transaction t = Ok t' /\ devices_ok (smbus t').
Proof.
  intros Hl Hr Hal. pose proof (transaction_runs t) as Ht. destruct (transaction_op (smb t)) as [op|] eqn:Eop.
  - destruct Ht as [f ->]. destruct (bus_op_succeeds (smbus t) (transaction_addr (smb t)) op) as (l' & v & Hb & Hl'); try done.
    + by eapply transaction_op_ok.
    + by eapply transaction_op_bytes.
    + intros d Hin. by eapply Hal.
    + unfold completes, smbus_command, list_master. rewrite Hb. cbn. eauto.
  - destruct Ht as [r ->]. by eexists.
Qed.

Lemma write_succeeds t addr val : devices_ok (smbus t) -> regs_ok (smb t) -> access_ok t (port_write addr val) ->
  exists t', amd756_smb_ioport_writeb t addr val = Ok t' /\ devices_ok (smbus t').
Proof.
  intros Hl Hr Hal. pose proof (ok_index _ Hr) as Hi. destruct (ok_data _ Hr) as [Hlen _]. unfold access_ok, starts in Hal.
  unfold amd756_smb_ioport_writeb. destruct (Z.land addr 63 =? SMB_GLOBAL_STATUS); [by eauto|].
  destruct (Z.land addr 63 =? SMB_GLOBAL_ENABLE).
  - destruct (negb (Z.land val GE_HOST_STC =? 0)) eqn:Es; [|by eauto]. cbn [andb] in Hal.
    match goal with |- exists t', (_ ← amd756_smb_transaction ?x; _) = _ /\ _ => destruct (transaction_succeeds x) as (t1 & Ht1 & Hl1) end.
    + done.
    + cbn. repeat case_match; eauto 8 with amd.
    + cbn. intros op d. rewrite transaction_op_stat, transaction_addr_stat. by apply Hal.
    + rewrite Ht1. cbn. eexists. split; [done|]. by destruct (negb _ && _).
  - clear Hal. rewrite Hlen. replace (smb_index (smb t) <? Z.of_nat 32) with true by zbool. repeat case_match; by eauto.
Qed.

Lemma read_succeeds t addr : devices_ok (smbus t) -> regs_ok (smb t) ->
  exists t' v, amd756_smb_ioport_readb t addr = Ok (t', v) /\ devices_ok (smbus t').
Proof.
  intros Hl Hr. pose proof (ok_index _ Hr) as Hi. destruct (ok_data _ Hr) as [Hlen _]. unfold amd756_smb_ioport_readb.
  destruct (lookup_lt_is_Some_2 (smb_data (smb t)) (Z.to_nat (smb_index (smb t)))) as [b ->]; [lia|].
  repeat case_match; by repeat eexists.
Qed.

Lemma run_succeeds l : forall t, devices_ok (smbus t) -> regs_ok (smb t) -> accesses_ok t l ->
  exists t' vs, run_ports t l = Ok (t', vs) /\ devices_ok (smbus t').
Proof.
  induction l as [|a l IH]; intros t Hl Hr; cbn [accesses_ok run_ports]; [by repeat eexists|]. intros [Ha Hnext].
  assert (exists t1 v, port_step t a = Ok (t1, v) /\ devices_ok (smbus t1)) as (t1 & v & Hs & Hl1).
  { destruct a as [addr val|addr]; cbn [port_step].
    - destruct (write_succeeds t addr val Hl Hr Ha) as (t' & -> & ?). by repeat eexists.
    - destruct (read_succeeds t addr Hl Hr) as (t' & v & -> & ?). by repeat eexists. }
  pose proof (port_step_refines (R:=eq) t t a (conj eq_refl (conj eq_refl Hr))) as Href. rewrite Hs in Href |- *.
  destruct Href as ((_ & _ & Hr1) & _). cbn. destruct (IH t1 Hl1 Hr1) as (t2 & vs & -> & ?); [by eapply Hnext|]. by repeat eexists.
Qed.
End Safety.

(** ** Devices whose callbacks never fail *)
Section Total.
Context {D : Type} `{SMBusClass D} (J : D -> Prop).

Record callbacks_total : Prop := {
  total_quick : forall d r, J d -> exists d', call_quick_cmd d r = Ok d' /\ J d';
  total_send : forall d v, J d -> byte v -> exists d', call_send_byte d v = Ok d' /\ J d';
  total_receive : forall d, J d -> exists d' v, call_receive_byte d = Ok (d', v) /\ J d';
  total_write : forall d c buf, J d -> byte c -> Forall byte buf -> (length buf <= 33)%nat -> exists d', call_write_data d c buf = Ok d' /\ J d';
  total_read : forall d c n, J d -> byte c -> 0 <= n -> exists d' v n', call_read_data d c n = Ok (d', v, n') /\ J d' /\ 0 <= n'
}.
Hypothesis Hcb : callbacks_total.

Lemma read_bytes_total c k : forall d n, J d -> byte c -> 0 <= n -> exists d' bs, read_bytes d c n k = Ok (d', bs) /\ J d'.
Proof.
  induction k as [|k IH]; intros d n Hd Hc Hn; cbn [read_bytes]; [by eauto|].
  destruct (total_read Hcb d c n Hd Hc Hn) as (d1 & v & n1 & -> & Hd1 & Hn1). cbn.
  destruct (IH d1 n1 Hd1 Hc Hn1) as (d2 & bs & -> & Hd2). cbn. by eauto.
Qed.

Lemma device_op_total d op : J d -> op_ok op -> op_bytes op -> exists d' v, device_op d op = Ok (d', v) /\ J d'.
Proof.
  intros Hd Hop Hb. destruct op; cbn [device_op] in *; unfold void, op_ok, op_bytes in *; rewrite ?Forall_cons in *.
  - destruct (total_quick Hcb d (if read =? 0 then 0 else 1) Hd) as (d' & -> & ?). cbn. by eauto.
  - destruct (total_receive Hcb d Hd) as (d' & v & -> & ?). cbn. by eauto.
  - destruct (total_send Hcb d data Hd Hb) as (d' & -> & ?). cbn. by eauto.
  - destruct (total_read Hcb d command 0 Hd Hb) as (d' & v & n & -> & ? & ?); [done|]. cbn. by eauto.
  - destruct Hb. destruct (total_write Hcb d command [data] Hd) as (d' & -> & ?); [done|by apply Forall_singleton|cbn; lia|]. cbn. by eauto.
  - destruct (total_read Hcb d command 0 Hd Hb) as (d1 & v & n & -> & Hd1 & Hn); [done|]. cbn.
    destruct (total_read Hcb d1 command n Hd1 Hb Hn) as (d' & w & n' & -> & ? & ?). cbn. by eauto.
  - destruct (total_write Hcb d command [data mod 256; data / 256] Hd) as (d' & -> & ?); [done| |cbn; lia|cbn; by eauto].
    apply Forall_cons. split; [apply Z.mod_pos_bound; lia|]. apply Forall_singleton. split; [apply Z.div_pos|apply Z.div_lt_upper_bound]; lia.
  - destruct Hb as [Hc Hb]. destruct (total_read Hcb d command 0 Hd Hc) as (d1 & v & n & -> & Hd1 & Hn); [done|]. cbn.
    destruct (read_bytes_total command (Z.to_nat (if 32 <? v then 0 else v)) d1 n Hd1 Hc Hn) as (d2 & bs & -> & Hd2). cbn. by eauto.
  - destruct Hop as [Hl Hlen], Hb as [Hc Hb].
    destruct (total_write Hcb d command (Z.min len 32 :: take (Z.to_nat (Z.min len 32)) data) Hd) as (d' & -> & ?).
    + done.
    + constructor; [unfold byte; lia|]. by apply Forall_take.
    + cbn [length]. rewrite length_take. lia.
    + cbn. by eauto.
Qed.
End Total.
