(* ===== verification/SMBusDevices.v ===== *)
(** * The SMBus devices without timers

    hw/i2c/smbus_eeprom.c, hw/xbox/smbus_cx25871.c and
    hw/xbox/smbus_adm1032.c: the configuration EEPROM, the video encoder and
    the temperature monitor.  The debug output of the callbacks is left out. *)
From S2P Require Import Prelude SMBus AmdSmbus.

(** ** hw/i2c/smbus_eeprom.c *)
Record SMBusEEPROMDevice := { ee_data : list Z; ee_offset : Z }.

Definition eeprom_quick_cmd (e : SMBusEEPROMDevice) (read : Z) : outcome SMBusEEPROMDevice := Ok e.

Definition eeprom_send_byte (e : SMBusEEPROMDevice) (val : Z) : outcome SMBusEEPROMDevice :=
  Ok {| ee_data := ee_data e; ee_offset := val |}.

Definition eeprom_receive_byte (e : SMBusEEPROMDevice) : outcome (SMBusEEPROMDevice * Z) :=
  match ee_data e !! Z.to_nat (ee_offset e) with
  | Some val => Ok ({| ee_data := ee_data e; ee_offset := u8 (ee_offset e + 1) |}, val)
  | None => Abort
  end.

Definition eeprom_write_data (e : SMBusEEPROMDevice) (cmd : Z) (buf : list Z) : outcome SMBusEEPROMDevice :=
  let len := Z.of_nat (length buf) in
  let n := if 256 <? cmd + len then 256 - cmd else len in
  data ← memcpy (ee_data e) cmd (take (Z.to_nat n) buf);
  let len := len - n in
  data ← (if len =? 0 then Ok data else memcpy data 0 (take (Z.to_nat len) (drop (Z.to_nat n) buf)));
  Ok {| ee_data := data; ee_offset := ee_offset e |}.

Definition eeprom_read_data (e : SMBusEEPROMDevice) (cmd n : Z) : outcome (SMBusEEPROMDevice * Z) :=
  eeprom_receive_byte (if n =? 0 then {| ee_data := ee_data e; ee_offset := cmd |} else e).

Definition eeprom_class : SMBusDeviceClass SMBusEEPROMDevice := {|
  quick_cmd := Some eeprom_quick_cmd;
  send_byte := Some eeprom_send_byte;
  receive_byte := Some eeprom_receive_byte;
  write_data := Some eeprom_write_data;
  read_data := Some eeprom_read_data
|}.
#[export] Instance eeprom_smbus : SMBusClass SMBusEEPROMDevice := fun _ => eeprom_class.

(** [smbus_eeprom_initfn], with the buffer set by [smbus_eeprom_init_single]. *)
Definition smbus_eeprom_initfn (eeprom_buf : list Z) : SMBusEEPROMDevice := {| ee_data := eeprom_buf; ee_offset := 0 |}.

Record eeprom_ok (e : SMBusEEPROMDevice) : Prop := {
  ee_size : length (ee_data e) = 256%nat;
  ee_bytes : Forall byte (ee_data e);
  ee_pos : byte (ee_offset e)
}.

(** ** hw/xbox/smbus_cx25871.c *)
Record SMBusCX25871Device := { cx_registers : list Z }.

Definition cx_quick_cmd (cx : SMBusCX25871Device) (read : Z) : outcome SMBusCX25871Device := Ok cx.
Definition cx_send_byte (cx : SMBusCX25871Device) (val : Z) : outcome SMBusCX25871Device := Ok cx.
Definition cx_receive_byte (cx : SMBusCX25871Device) : outcome (SMBusCX25871Device * Z) := Ok (cx, 0).

Definition cx_write_data (cx : SMBusCX25871Device) (cmd : Z) (buf : list Z) : outcome SMBusCX25871Device :=
  r ← memcpy (cx_registers cx) cmd (take (Z.to_nat (Z.min (Z.of_nat (length buf)) (256 - cmd))) buf);
  Ok {| cx_registers := r |}.

Definition cx_read_data (cx : SMBusCX25871Device) (cmd n : Z) : outcome (SMBusCX25871Device * Z) :=
  match cx_registers cx !! Z.to_nat cmd with
  | Some v => Ok (cx, v)
  | None => Abort
  end.

Definition cx_class : SMBusDeviceClass SMBusCX25871Device := {|
  quick_cmd := Some cx_quick_cmd;
  send_byte := Some cx_send_byte;
  receive_byte := Some cx_receive_byte;
  write_data := Some cx_write_data;
  read_data := Some cx_read_data
|}.
#[export] Instance cx_smbus : SMBusClass SMBusCX25871Device := fun _ => cx_class.

Definition smbus_cx_init : SMBusCX25871Device := {| cx_registers := replicate 256 0 |}.

Definition cx_ok (cx : SMBusCX25871Device) : Prop := length (cx_registers cx) = 256%nat.

(** ** hw/xbox/smbus_adm1032.c

    The device has no state of its own, and no callback but [read_data]. *)
Record ADM1032Device := {}.

Definition tm_read_data (tm : ADM1032Device) (cmd n : Z) : outcome (ADM1032Device * Z) :=
  Ok (tm, if (cmd =? 0) || (cmd =? 1) then 50 else 0).

Definition tm_class : SMBusDeviceClass ADM1032Device := {|
  quick_cmd := None;
  send_byte := None;
  receive_byte := None;
  write_data := None;
  read_data := Some tm_read_data
|}.
#[export] Instance tm_smbus : SMBusClass ADM1032Device := fun _ => tm_class.

(** ** The EEPROM is a ring of 256 bytes *)

Lemma ring_index i cmd : (i < 256)%nat -> 0 <= cmd < 256 ->
  Z.to_nat ((Z.of_nat i - cmd) mod 256) = if (Z.to_nat cmd <=? i)%nat then (i - Z.to_nat cmd)%nat else (i + 256 - Z.to_nat cmd)%nat.
Proof.
  intros Hi Hc. destruct (Nat.leb_spec (Z.to_nat cmd) i).
  - rewrite Z.mod_small; lia.
  - rewrite <- (Z_mod_plus_full (Z.of_nat i - cmd) 1), Z.mod_small; lia.
Qed.

(** A write of up to 256 bytes: cell [i] gets byte [(i - cmd) mod 256] of the
    buffer if there is one; the current position does not move. *)
Lemma eeprom_write_spec e cmd buf : length (ee_data e) = 256%nat -> byte cmd -> (length buf <= 256)%nat ->
  exists e', eeprom_write_data e cmd buf = Ok e' /\ ee_offset e' = ee_offset e /\ length (ee_data e') = 256%nat /\
    forall i, (i < 256)%nat ->
      let j := Z.to_nat ((Z.of_nat i - cmd) mod 256) in
      ee_data e' !! i = if (j <? length buf)%nat then buf !! j else ee_data e !! i.
Proof.
  intros Hsz [Hc0 Hc1] Hlen. unfold eeprom_write_data. set (n := if _ <? _ then _ else _).
  assert (Hn : n = Z.min (256 - cmd) (Z.of_nat (length buf))) by (subst n; destruct (Z.ltb_spec 256 (cmd + Z.of_nat (length buf))); lia).
  clearbody n. destruct (memcpy_ok (ee_data e) cmd (take (Z.to_nat n) buf)) as [d1 Hd1]; [lia|rewrite length_take; lia|].
  rewrite Hd1. cbn [mbind outcome_bind]. pose proof (memcpy_length _ _ _ _ Hd1) as Hl1. rewrite Hsz in Hl1.
  destruct (Z.eqb_spec (Z.of_nat (length buf) - n) 0) as [He|He].
  - eexists. split; [done|]. split; [done|]. split; [done|]. intros i Hi. cbn [ee_data].
    rewrite (memcpy_lookup _ _ _ _ i Hd1), length_take, lookup_take, ring_index by lia.
    destruct (Nat.leb_spec (Z.to_nat cmd) i); cbn [andb].
    + destruct (Nat.ltb_spec i (Z.to_nat cmd + Z.to_nat n `min` length buf)), (Nat.ltb_spec (i - Z.to_nat cmd) (length buf)); try lia; [|done].
      by rewrite decide_True by lia.
    + destruct (Nat.ltb_spec (i + 256 - Z.to_nat cmd) (length buf)); [lia|done].
  - destruct (memcpy_ok d1 0 (take (Z.to_nat (Z.of_nat (length buf) - n)) (drop (Z.to_nat n) buf))) as [d2 Hd2];
      [done|rewrite length_take, length_drop; lia|].
    rewrite Hd2. eexists. split; [done|]. split; [done|]. split; [by rewrite <- Hl1; apply memcpy_length in Hd2|].
    intros i Hi. cbn [ee_data].
    rewrite (memcpy_lookup _ _ _ _ i Hd2), length_take, length_drop, (memcpy_lookup _ _ _ _ i Hd1), length_take, !lookup_take, lookup_drop, ring_index by lia.
    change (Z.to_nat 0) with 0%nat. rewrite Nat.sub_0_r. cbn [Nat.leb andb].
    destruct (Nat.leb_spec (Z.to_nat cmd) i); cbn [andb].
    + destruct (Nat.ltb_spec i (0 + (Z.to_nat (Z.of_nat (length buf) - n) `min` (length buf - Z.to_nat n)))); [lia|].
      destruct (Nat.ltb_spec i (Z.to_nat cmd + Z.to_nat n `min` length buf)); [|lia].
      destruct (Nat.ltb_spec (i - Z.to_nat cmd) (length buf)); [|lia]. by rewrite decide_True by lia.
    + destruct (Nat.ltb_spec i (0 + (Z.to_nat (Z.of_nat (length buf) - n) `min` (length buf - Z.to_nat n)))),
        (Nat.ltb_spec (i + 256 - Z.to_nat cmd) (length buf)); try lia; [|done].
      rewrite decide_True by lia. f_equal. lia.
Qed.

(** ** The callbacks never fail *)
Lemma memcpy_bytes dst off src dst' : Forall byte dst -> Forall byte src -> memcpy dst off src = Ok dst' -> Forall byte dst'.
Proof.
  intros Hd Hs. unfold memcpy. destruct (_ && _); [|done]. intros [= <-].
  apply Forall_app. split; [by apply Forall_take|]. apply Forall_app. split; [done|]. by apply Forall_drop.
Qed.

Lemma eeprom_receive_total e : eeprom_ok e -> exists e' v, eeprom_receive_byte e = Ok (e', v) /\ eeprom_ok e'.
Proof.
  intros [Hs Hb [Hp0 Hp1]]. unfold eeprom_receive_byte.
  destruct (lookup_lt_is_Some_2 (ee_data e) (Z.to_nat (ee_offset e))) as [v ->]; [rewrite Hs; lia|].
  do 2 eexists. split; [done|]. split; [done|done|apply byte_u8].
Qed.

Lemma eeprom_write_total e c buf : eeprom_ok e -> byte c -> Forall byte buf -> (length buf <= 33)%nat ->
  exists e', eeprom_write_data e c buf = Ok e' /\ eeprom_ok e'.
Proof.
  intros [Hs Hb Hp] Hc Hbuf Hlen. destruct (eeprom_write_spec e c buf Hs Hc) as (e' & He & Ho & Hl & _); [lia|].
  exists e'. split; [done|]. split; [done| |by rewrite Ho]. unfold eeprom_write_data in He. inv_ok. subst e'. cbn [ee_data].
  assert (Forall byte x) by (eapply memcpy_bytes; [exact Hb|by apply Forall_take|done]). case_match; simplify_eq; [done|].
  eapply memcpy_bytes; [done| |done]. by apply Forall_take, Forall_drop.
Qed.

Lemma eeprom_total : callbacks_total eeprom_ok.
Proof.
  split.
  - intros e r He. by exists e.
  - intros e v [Hs Hb Hp] Hv. by eexists.
  - intros e He. destruct (eeprom_receive_total e He) as (e' & v & Hr & He'). exists e', (u8 v).
    unfold call_receive_byte. cbn. by rewrite Hr.
  - apply eeprom_write_total.
  - intros e c n He Hc Hn. assert (He0 : eeprom_ok (if n =? 0 then {| ee_data := ee_data e; ee_offset := c |} else e)).
    { destruct He. by case_match. }
    destruct (eeprom_receive_total _ He0) as (e' & v & Hr & He'). exists e', (u8 v), (n + 1).
    unfold call_read_data. cbn. unfold eeprom_read_data. rewrite Hr. cbn. split; [done|]. split; [done|lia].
Qed.

Lemma cx_total : callbacks_total cx_ok.
Proof.
  split.
  - intros cx r Hcx. by exists cx.
  - intros cx v Hcx _. by exists cx.
  - intros cx Hcx. by exists cx, 0.
  - intros cx c buf Hcx [Hc0 Hc1] Hb Hlen. unfold call_write_data. cbn. unfold cx_write_data, cx_ok in *.
    match goal with |- exists _, (_ ← memcpy ?d ?o ?s; _) = _ /\ _ => destruct (memcpy_ok d o s) as [r Hr] end;
      [done|rewrite length_take; lia|]. rewrite Hr. cbn. eexists. split; [done|]. cbn. by apply memcpy_length in Hr as ->.
  - intros cx c n Hcx [Hc0 Hc1] Hn. unfold call_read_data. cbn. unfold cx_read_data, cx_ok in *.
    destruct (lookup_lt_is_Some_2 (cx_registers cx) (Z.to_nat c)) as [v ->]; [rewrite Hcx; lia|].
    cbn. do 3 eexists. split; [done|]. split; [done|lia].
Qed.

Lemma tm_total : callbacks_total (fun _ : ADM1032Device => True).
Proof.
  split.
  - intros tm r _. by exists tm.
  - intros tm v _ _. by exists tm.
  - intros tm _. by exists tm, 0.
  - intros tm c buf _ _ _ _. by exists tm.
  - intros tm c n _ _ Hn. unfold call_read_data. cbn. do 3 eexists. split; [done|]. split; [done|lia].
Qed.
