(* ===== verification/XboxSmc.v ===== *)
(** * The Xbox system management controller

    hw/xbox/smbus_xbox_smc.c: the registers behind SMBus address 0x10, the
    front panel LED and the boot watchdog.  Requests to the rest of the
    emulator (reset, shutdown, opening the tray) are recorded in a list, a
    timer is the time it expires at, and the virtual clock is an argument of
    the functions that read it.  Of the DVD drive the controller sees whether
    the tray is open and whether a medium is inserted.  The log output is left
    out. *)
From S2P Require Import Prelude SMBus AmdSmbus.

Record DriveInfo := { dev_is_tray_open : bool; is_inserted : bool }.

Variant system_request := shutdown_request | reset_request | eject_request.

Record SMBusSMCDevice := {
  last_command : Z;
  last_value : Z;
  dvdrom : option DriveInfo;
  led_timer : option Z;
  watchdog_timer : option Z;
  error_code : Z;
  audio_clamping : bool;
  interrupts_enabled : bool;
  interrupt_reason : Z;
  led_mode : Z;
  led_user_sequence : Z;
  led_default_sequence : Z;
  led_color : Z;
  led_step : Z;
  fan_speed : Z;
  fan_mode : Z;
  avpack : Z;
  reset_on_press_eject : bool;
  scratch_register : Z;
  fatal_error_number : Z;
  watchdog_challenge : list Z;
  watchdog_response : list Z;
  version_string_index : Z;
  version_string : list Z;
  scratch : Z;
  requests : list system_request
}.

(** ** Assignments [smc_dev->field = v] *)
Definition smc_set_last_command (v : Z) (s : SMBusSMCDevice) : SMBusSMCDevice :=
  let '(Build_SMBusSMCDevice _ x1 x2 x3 x4 x5 x6 x7 x8 x9 x10 x11 x12 x13 x14 x15 x16 x17 x18 x19 x20 x21 x22 x23 x24 x25) := s in
  Build_SMBusSMCDevice v x1 x2 x3 x4 x5 x6 x7 x8 x9 x10 x11 x12 x13 x14 x15 x16 x17 x18 x19 x20 x21 x22 x23 x24 x25.
Definition smc_set_last_value (v : Z) (s : SMBusSMCDevice) : SMBusSMCDevice :=
  let '(Build_SMBusSMCDevice x0 _ x2 x3 x4 x5 x6 x7 x8 x9 x10 x11 x12 x13 x14 x15 x16 x17 x18 x19 x20 x21 x22 x23 x24 x25) := s in
  Build_SMBusSMCDevice x0 v x2 x3 x4 x5 x6 x7 x8 x9 x10 x11 x12 x13 x14 x15 x16 x17 x18 x19 x20 x21 x22 x23 x24 x25.
Definition smc_set_dvdrom (v : option DriveInfo) (s : SMBusSMCDevice) : SMBusSMCDevice :=
  let '(Build_SMBusSMCDevice x0 x1 _ x3 x4 x5 x6 x7 x8 x9 x10 x11 x12 x13 x14 x15 x16 x17 x18 x19 x20 x21 x22 x23 x24 x25) := s in
  Build_SMBusSMCDevice x0 x1 v x3 x4 x5 x6 x7 x8 x9 x10 x11 x12 x13 x14 x15 x16 x17 x18 x19 x20 x21 x22 x23 x24 x25.
Definition smc_set_led_timer (v : option Z) (s : SMBusSMCDevice) : SMBusSMCDevice :=
  let '(Build_SMBusSMCDevice x0 x1 x2 _ x4 x5 x6 x7 x8 x9 x10 x11 x12 x13 x14 x15 x16 x17 x18 x19 x20 x21 x22 x23 x24 x25) := s in
  Build_SMBusSMCDevice x0 x1 x2 v x4 x5 x6 x7 x8 x9 x10 x11 x12 x13 x14 x15 x16 x17 x18 x19 x20 x21 x22 x23 x24 x25.
Definition smc_set_watchdog_timer (v : option Z) (s : SMBusSMCDevice) : SMBusSMCDevice :=
  let '(Build_SMBusSMCDevice x0 x1 x2 x3 _ x5 x6 x7 x8 x9 x10 x11 x12 x13 x14 x15 x16 x17 x18 x19 x20 x21 x22 x23 x24 x25) := s in
  Build_SMBusSMCDevice x0 x1 x2 x3 v x5 x6 x7 x8 x9 x10 x11 x12 x13 x14 x15 x16 x17 x18 x19 x20 x21 x22 x23 x24 x25.
Definition smc_set_error_code (v : Z) (s : SMBusSMCDevice) : SMBusSMCDevice :=
  let '(Build_SMBusSMCDevice x0 x1 x2 x3 x4 _ x6 x7 x8 x9 x10 x11 x12 x13 x14 x15 x16 x17 x18 x19 x20 x21 x22 x23 x24 x25) := s in
  Build_SMBusSMCDevice x0 x1 x2 x3 x4 v x6 x7 x8 x9 x10 x11 x12 x13 x14 x15 x16 x17 x18 x19 x20 x21 x22 x23 x24 x25.
Definition smc_set_audio_clamping (v : bool) (s : SMBusSMCDevice) : SMBusSMCDevice :=
  let '(Build_SMBusSMCDevice x0 x1 x2 x3 x4 x5 _ x7 x8 x9 x10 x11 x12 x13 x14 x15 x16 x17 x18 x19 x20 x21 x22 x23 x24 x25) := s in
  Build_SMBusSMCDevice x0 x1 x2 x3 x4 x5 v x7 x8 x9 x10 x11 x12 x13 x14 x15 x16 x17 x18 x19 x20 x21 x22 x23 x24 x25.
Definition smc_set_interrupts_enabled (v : bool) (s : SMBusSMCDevice) : SMBusSMCDevice :=
  let '(Build_SMBusSMCDevice x0 x1 x2 x3 x4 x5 x6 _ x8 x9 x10 x11 x12 x13 x14 x15 x16 x17 x18 x19 x20 x21 x22 x23 x24 x25) := s in
  Build_SMBusSMCDevice x0 x1 x2 x3 x4 x5 x6 v x8 x9 x10 x11 x12 x13 x14 x15 x16 x17 x18 x19 x20 x21 x22 x23 x24 x25.
Definition smc_set_interrupt_reason (v : Z) (s : SMBusSMCDevice) : SMBusSMCDevice :=
  let '(Build_SMBusSMCDevice x0 x1 x2 x3 x4 x5 x6 x7 _ x9 x10 x11 x12 x13 x14 x15 x16 x17 x18 x19 x20 x21 x22 x23 x24 x25) := s in
  Build_SMBusSMCDevice x0 x1 x2 x3 x4 x5 x6 x7 v x9 x10 x11 x12 x13 x14 x15 x16 x17 x18 x19 x20 x21 x22 x23 x24 x25.
Definition smc_set_led_mode (v : Z) (s : SMBusSMCDevice) : SMBusSMCDevice :=
  let '(Build_SMBusSMCDevice x0 x1 x2 x3 x4 x5 x6 x7 x8 _ x10 x11 x12 x13 x14 x15 x16 x17 x18 x19 x20 x21 x22 x23 x24 x25) := s in
  Build_SMBusSMCDevice x0 x1 x2 x3 x4 x5 x6 x7 x8 v x10 x11 x12 x13 x14 x15 x16 x17 x18 x19 x20 x21 x22 x23 x24 x25.
Definition smc_set_led_user_sequence (v : Z) (s : SMBusSMCDevice) : SMBusSMCDevice :=
  let '(Build_SMBusSMCDevice x0 x1 x2 x3 x4 x5 x6 x7 x8 x9 _ x11 x12 x13 x14 x15 x16 x17 x18 x19 x20 x21 x22 x23 x24 x25) := s in
  Build_SMBusSMCDevice x0 x1 x2 x3 x4 x5 x6 x7 x8 x9 v x11 x12 x13 x14 x15 x16 x17 x18 x19 x20 x21 x22 x23 x24 x25.
Definition smc_set_led_default_sequence (v : Z) (s : SMBusSMCDevice) : SMBusSMCDevice :=
  let '(Build_SMBusSMCDevice x0 x1 x2 x3 x4 x5 x6 x7 x8 x9 x10 _ x12 x13 x14 x15 x16 x17 x18 x19 x20 x21 x22 x23 x24 x25) := s in
  Build_SMBusSMCDevice x0 x1 x2 x3 x4 x5 x6 x7 x8 x9 x10 v x12 x13 x14 x15 x16 x17 x18 x19 x20 x21 x22 x23 x24 x25.
Definition smc_set_led_color (v : Z) (s : SMBusSMCDevice) : SMBusSMCDevice :=
  let '(Build_SMBusSMCDevice x0 x1 x2 x3 x4 x5 x6 x7 x8 x9 x10 x11 _ x13 x14 x15 x16 x17 x18 x19 x20 x21 x22 x23 x24 x25) := s in
  Build_SMBusSMCDevice x0 x1 x2 x3 x4 x5 x6 x7 x8 x9 x10 x11 v x13 x14 x15 x16 x17 x18 x19 x20 x21 x22 x23 x24 x25.
Definition smc_set_led_step (v : Z) (s : SMBusSMCDevice) : SMBusSMCDevice :=
  let '(Build_SMBusSMCDevice x0 x1 x2 x3 x4 x5 x6 x7 x8 x9 x10 x11 x12 _ x14 x15 x16 x17 x18 x19 x20 x21 x22 x23 x24 x25) := s in
  Build_SMBusSMCDevice x0 x1 x2 x3 x4 x5 x6 x7 x8 x9 x10 x11 x12 v x14 x15 x16 x17 x18 x19 x20 x21 x22 x23 x24 x25.
Definition smc_set_fan_speed (v : Z) (s : SMBusSMCDevice) : SMBusSMCDevice :=
  let '(Build_SMBusSMCDevice x0 x1 x2 x3 x4 x5 x6 x7 x8 x9 x10 x11 x12 x13 _ x15 x16 x17 x18 x19 x20 x21 x22 x23 x24 x25) := s in
  Build_SMBusSMCDevice x0 x1 x2 x3 x4 x5 x6 x7 x8 x9 x10 x11 x12 x13 v x15 x16 x17 x18 x19 x20 x21 x22 x23 x24 x25.
Definition smc_set_fan_mode (v : Z) (s : SMBusSMCDevice) : SMBusSMCDevice :=
  let '(Build_SMBusSMCDevice x0 x1 x2 x3 x4 x5 x6 x7 x8 x9 x10 x11 x12 x13 x14 _ x16 x17 x18 x19 x20 x21 x22 x23 x24 x25) := s in
  Build_SMBusSMCDevice x0 x1 x2 x3 x4 x5 x6 x7 x8 x9 x10 x11 x12 x13 x14 v x16 x17 x18 x19 x20 x21 x22 x23 x24 x25.
Definition smc_set_avpack (v : Z) (s : SMBusSMCDevice) : SMBusSMCDevice :=
  let '(Build_SMBusSMCDevice x0 x1 x2 x3 x4 x5 x6 x7 x8 x9 x10 x11 x12 x13 x14 x15 _ x17 x18 x19 x20 x21 x22 x23 x24 x25) := s in
  Build_SMBusSMCDevice x0 x1 x2 x3 x4 x5 x6 x7 x8 x9 x10 x11 x12 x13 x14 x15 v x17 x18 x19 x20 x21 x22 x23 x24 x25.
Definition smc_set_reset_on_press_eject (v : bool) (s : SMBusSMCDevice) : SMBusSMCDevice :=
  let '(Build_SMBusSMCDevice x0 x1 x2 x3 x4 x5 x6 x7 x8 x9 x10 x11 x12 x13 x14 x15 x16 _ x18 x19 x20 x21 x22 x23 x24 x25) := s in
  Build_SMBusSMCDevice x0 x1 x2 x3 x4 x5 x6 x7 x8 x9 x10 x11 x12 x13 x14 x15 x16 v x18 x19 x20 x21 x22 x23 x24 x25.
Definition smc_set_watchdog_challenge (v : list Z) (s : SMBusSMCDevice) : SMBusSMCDevice :=
  let '(Build_SMBusSMCDevice x0 x1 x2 x3 x4 x5 x6 x7 x8 x9 x10 x11 x12 x13 x14 x15 x16 x17 x18 x19 _ x21 x22 x23 x24 x25) := s in
  Build_SMBusSMCDevice x0 x1 x2 x3 x4 x5 x6 x7 x8 x9 x10 x11 x12 x13 x14 x15 x16 x17 x18 x19 v x21 x22 x23 x24 x25.
Definition smc_set_watchdog_response (v : list Z) (s : SMBusSMCDevice) : SMBusSMCDevice :=
  let '(Build_SMBusSMCDevice x0 x1 x2 x3 x4 x5 x6 x7 x8 x9 x10 x11 x12 x13 x14 x15 x16 x17 x18 x19 x20 _ x22 x23 x24 x25) := s in
  Build_SMBusSMCDevice x0 x1 x2 x3 x4 x5 x6 x7 x8 x9 x10 x11 x12 x13 x14 x15 x16 x17 x18 x19 x20 v x22 x23 x24 x25.
Definition smc_set_version_string_index (v : Z) (s : SMBusSMCDevice) : SMBusSMCDevice :=
  let '(Build_SMBusSMCDevice x0 x1 x2 x3 x4 x5 x6 x7 x8 x9 x10 x11 x12 x13 x14 x15 x16 x17 x18 x19 x20 x21 _ x23 x24 x25) := s in
  Build_SMBusSMCDevice x0 x1 x2 x3 x4 x5 x6 x7 x8 x9 x10 x11 x12 x13 x14 x15 x16 x17 x18 x19 x20 x21 v x23 x24 x25.
Definition smc_set_scratch (v : Z) (s : SMBusSMCDevice) : SMBusSMCDevice :=
  let '(Build_SMBusSMCDevice x0 x1 x2 x3 x4 x5 x6 x7 x8 x9 x10 x11 x12 x13 x14 x15 x16 x17 x18 x19 x20 x21 x22 x23 _ x25) := s in
  Build_SMBusSMCDevice x0 x1 x2 x3 x4 x5 x6 x7 x8 x9 x10 x11 x12 x13 x14 x15 x16 x17 x18 x19 x20 x21 x22 x23 v x25.
Definition smc_set_requests (v : list system_request) (s : SMBusSMCDevice) : SMBusSMCDevice :=
  let '(Build_SMBusSMCDevice x0 x1 x2 x3 x4 x5 x6 x7 x8 x9 x10 x11 x12 x13 x14 x15 x16 x17 x18 x19 x20 x21 x22 x23 x24 _) := s in
  Build_SMBusSMCDevice x0 x1 x2 x3 x4 x5 x6 x7 x8 x9 x10 x11 x12 x13 x14 x15 x16 x17 x18 x19 x20 x21 x22 x23 x24 v.

Definition WATCHDOG_CHALLENGE_TIME_MS : Z := 250.
Definition LED_INTERVAL_MS : Z := 1000 / (4 * 2).

Definition SMC_REG_VER : Z := 0x01.
Definition SMC_REG_POWER : Z := 0x02.
Definition SMC_REG_POWER_RESET : Z := 0x01.
Definition SMC_REG_POWER_CYCLE : Z := 0x40.
Definition SMC_REG_POWER_SHUTDOWN : Z := 0x80.
Definition SMC_REG_TRAYSTATE : Z := 0x03.
Definition SMC_REG_TRAYSTATE_OPENED : Z := 0x10.
Definition SMC_REG_TRAYSTATE_NO_MEDIA : Z := 0x40.
Definition SMC_REG_TRAYSTATE_MEDIA : Z := 0x60.
Definition SMC_REG_TRAYSTATE_RESET : Z := 0x70.
Definition SMC_REG_AVPACK : Z := 0x04.
Definition SMC_REG_AVPACK_COMPOSITE : Z := 0x06.
Definition SMC_REG_AVPACK_NONE : Z := 0x07.
Definition SMC_REG_FANMODE : Z := 0x05.
Definition SMC_REG_FANSPEED : Z := 0x06.
Definition SMC_REG_LEDMODE : Z := 0x07.
Definition SMC_REG_LEDSEQ : Z := 0x08.
Definition SMC_REG_AUDIO_CLAMPING : Z := 0x0b.
Definition SMC_REG_TRAYEJECT : Z := 0x0c.
Definition SMC_REG_ERROR_CODE : Z := 0x0e.
Definition SMC_REG_INTSTATUS : Z := 0x11.
Definition SMC_REG_INTSTATUS_POWER : Z := 0x01.
Definition SMC_REG_INTSTATUS_AVPACK_PLUG : Z := 0x08.
Definition SMC_REG_INTSTATUS_AVPACK_UNPLUG : Z := 0x10.
Definition SMC_REG_INTSTATUS_EJECT_BUTTON : Z := 0x20.
Definition SMC_REG_LAST_COMMAND : Z := 0x16.
Definition SMC_REG_LAST_VALUE : Z := 0x17.
Definition SMC_REG_RESETONEJECT : Z := 0x19.
Definition SMC_REG_INTEN : Z := 0x1a.
Definition SMC_REG_SCRATCH : Z := 0x1b.

Definition LED_OFF : Z := 0x00.
Definition LED_RED : Z := 0x0f.
Definition LED_RED_4HZ : Z := 0x0a.
Definition LED_GREEN : Z := 0xf0.
Definition LED_GREEN_2HZ : Z := 0xc0.

Implicit Types (s : SMBusSMCDevice).

(** Record a request to the emulator. *)
Definition request (q : system_request) s : SMBusSMCDevice := smc_set_requests (requests s ++ [q]) s.

Definition smc_shutdown_system s : SMBusSMCDevice := request shutdown_request (smc_set_led_default_sequence LED_OFF s).
Definition smc_warm_reboot_system s : SMBusSMCDevice := request reset_request (smc_set_led_default_sequence LED_OFF s).
Definition smc_cold_reboot_system s : SMBusSMCDevice := request reset_request (smc_set_led_default_sequence LED_OFF s).

Definition smc_interrupt s (reason : Z) : SMBusSMCDevice :=
  if interrupts_enabled s then smc_set_interrupt_reason reason s else s.

Definition smc_eject_tray s : SMBusSMCDevice :=
  match dvdrom s with
  | None => s
  | Some _ => smc_set_led_default_sequence LED_GREEN_2HZ (request eject_request s)
  end.

Definition smc_close_tray s : SMBusSMCDevice :=
  match dvdrom s with
  | None => s
  | Some _ => smc_set_led_default_sequence LED_GREEN_2HZ s
  end.

Definition smc_get_traystate s : Z :=
  match dvdrom s with
  | None => SMC_REG_TRAYSTATE_RESET
  | Some bs =>
      if dev_is_tray_open bs then SMC_REG_TRAYSTATE_OPENED
      else if is_inserted bs then SMC_REG_TRAYSTATE_MEDIA else SMC_REG_TRAYSTATE_NO_MEDIA
  end.

Definition smc_system_overheat_reaction s : SMBusSMCDevice :=
  smc_set_led_default_sequence LED_RED (smc_shutdown_system s).
Definition smc_system_error_reaction s : SMBusSMCDevice := smc_set_led_default_sequence LED_RED_4HZ s.

Definition smc_press_eject s : SMBusSMCDevice :=
  smc_eject_tray (if reset_on_press_eject s then smc_warm_reboot_system s
                  else smc_interrupt s SMC_REG_INTSTATUS_EJECT_BUTTON).
Definition smc_press_power s : SMBusSMCDevice := smc_interrupt s SMC_REG_INTSTATUS_POWER.
Definition smc_avpack_unplug s : SMBusSMCDevice :=
  smc_set_avpack SMC_REG_AVPACK_NONE (smc_interrupt s SMC_REG_INTSTATUS_AVPACK_UNPLUG).
Definition smc_avpack_plug s (pack : Z) : SMBusSMCDevice :=
  smc_interrupt (smc_set_avpack pack s) SMC_REG_INTSTATUS_AVPACK_PLUG.

(** ["DBX"] *)
Definition version_DBX : list Z := [0x44; 0x42; 0x58].

Definition smc_start_watchdog (now : Z) s : SMBusSMCDevice :=
  if bool_decide (version_string s = version_DBX) then smc_set_watchdog_challenge [0; 0; 0; 1] s
  else
    smc_set_watchdog_timer (Some (now + WATCHDOG_CHALLENGE_TIME_MS * 1000 * 1000))
      (smc_set_watchdog_challenge [0x52; 0x72; 0xea; 0x46] s).

(** The response is not compared with the challenge. *)
Definition smc_stop_watchdog s : SMBusSMCDevice := smc_set_watchdog_timer None s.

Definition smc_write_command s (command value : Z) : outcome SMBusSMCDevice :=
  let s := smc_set_last_value value (smc_set_last_command command s) in
  if command =? SMC_REG_VER then Ok (smc_set_version_string_index 0 s)
  else if command =? SMC_REG_POWER then
    if value =? SMC_REG_POWER_RESET then Ok (smc_warm_reboot_system s)
    else if value =? SMC_REG_POWER_CYCLE then Ok (smc_cold_reboot_system s)
    else if value =? SMC_REG_POWER_SHUTDOWN then Ok (smc_shutdown_system s)
    else Abort
  else if command =? SMC_REG_TRAYEJECT then Ok (if value =? 0 then smc_eject_tray s else smc_close_tray s)
  else if command =? SMC_REG_ERROR_CODE then Ok (smc_set_error_code value s)
  else if command =? SMC_REG_INTEN then Ok (smc_set_interrupts_enabled (interrupts_enabled s || (value =? 0)) s)
  else if command =? SMC_REG_RESETONEJECT then Ok (smc_set_reset_on_press_eject (value =? 0) s)
  else if command =? SMC_REG_LEDMODE then Ok (smc_set_led_mode value s)
  else if command =? SMC_REG_LEDSEQ then Ok (smc_set_led_user_sequence value s)
  else if command =? SMC_REG_FANMODE then Ok (smc_set_fan_mode value s)
  else if command =? SMC_REG_FANSPEED then Ok (smc_set_fan_speed value s)
  else if command =? SMC_REG_SCRATCH then Ok (smc_set_scratch value s)
  else if command =? SMC_REG_AUDIO_CLAMPING then Ok (smc_set_audio_clamping (negb (value =? 0)) s)
  else if command =? 0x20 then Ok (smc_set_watchdog_response (<[0%nat := value]> (watchdog_response s)) s)
  else if command =? 0x21 then Ok (smc_stop_watchdog (smc_set_watchdog_response (<[1%nat := value]> (watchdog_response s)) s))
  else Ok s.

(** An element of an array. *)
Definition array_at (l : list Z) (i : Z) : outcome Z :=
  match l !! Z.to_nat i with Some v => Ok v | None => Abort end.

(** The version string is a C string: reading its terminator gives 0. *)
Definition smc_read_command s (command : Z) : outcome (SMBusSMCDevice * Z) :=
  let here (v : Z) := Ok (s, v) in
  if command =? SMC_REG_VER then
    v ← array_at (version_string s ++ [0]) (version_string_index s mod 3);
    Ok (smc_set_version_string_index (u32 (version_string_index s + 1)) s, v)
  else if command =? SMC_REG_ERROR_CODE then here (error_code s)
  else if command =? SMC_REG_LAST_COMMAND then here (last_command s)
  else if command =? SMC_REG_LAST_VALUE then here (last_value s)
  else if command =? SMC_REG_AVPACK then here (avpack s)
  else if command =? SMC_REG_INTSTATUS then here (interrupt_reason s)
  else if command =? SMC_REG_SCRATCH then here (scratch s)
  else if command =? SMC_REG_TRAYSTATE then here (smc_get_traystate s)
  else if command =? 0x1c then v ← array_at (watchdog_challenge s) 0; here v
  else if command =? 0x1d then v ← array_at (watchdog_challenge s) 1; here v
  else if command =? 0x1e then v ← array_at (watchdog_challenge s) 2; here v
  else if command =? 0x1f then v ← array_at (watchdog_challenge s) 3; here v
  else here 0.

(** The index into [colors], the array of names [print_led_color_change]
    prints from, must be below 4. *)
Definition print_led_color_change s (color : Z) : outcome unit :=
  if led_color s =? color then Ok tt else c_assert ((0 <=? color) && (color <? 4)).

Definition smc_led_timer_cb (now : Z) s : outcome SMBusSMCDevice :=
  let s := smc_set_led_step (u32 (led_step s + 1)) s in
  let s := smc_set_led_step (led_step s mod 4) s in
  let sequence := if led_mode s =? 0 then led_default_sequence s else led_user_sequence s in
  let led_green := Z.land (Z.shiftr (Z.shiftr sequence 4) (led_step s)) 0x1 in
  let led_red := Z.land (Z.shiftr (Z.shiftr sequence 0) (led_step s)) 0x1 in
  let color := Z.lor (if led_green =? 0 then 0 else 2) (if led_red =? 0 then 0 else 1) in
  print_led_color_change s color;;
  let s := smc_set_led_color color s in
  Ok (smc_set_led_timer (Some (now + LED_INTERVAL_MS * 1000 * 1000)) s).

Definition smc_watchdog_timer_cb s : SMBusSMCDevice := smc_warm_reboot_system s.

(** ** The SMBus callbacks *)
Definition smc_quick_cmd s (read : Z) : outcome SMBusSMCDevice := Ok s.
Definition smc_send_byte s (val : Z) : outcome SMBusSMCDevice := Ok s.
Definition smc_receive_byte s : outcome (SMBusSMCDevice * Z) := Ok (s, 0).

Definition smc_write_data s (cmd : Z) (buf : list Z) : outcome SMBusSMCDevice :=
  match buf with
  | [b] => smc_write_command s cmd b
  | _ => Abort
  end.

Definition smc_read_data s (cmd n : Z) : outcome (SMBusSMCDevice * Z) :=
  c_assert (n =? 0);; smc_read_command s cmd.

Definition smc_class : SMBusDeviceClass SMBusSMCDevice := {|
  quick_cmd := Some smc_quick_cmd;
  send_byte := Some smc_send_byte;
  receive_byte := Some smc_receive_byte;
  write_data := Some smc_write_data;
  read_data := Some smc_read_data
|}.
#[export] Instance smc_smbus : SMBusClass SMBusSMCDevice := fun _ => smc_class.

(** [drive_get_by_index] is an argument. *)
Definition smbus_smc_reset (now : Z) (drive : option DriveInfo) s : SMBusSMCDevice :=
  smc_start_watchdog now (smc_set_dvdrom drive s).

(** ["P01"], the version when the machine option names none. *)
Definition version_P01 : list Z := [0x50; 0x30; 0x31].

(** [smbus_smc_init] on a zeroed device, with the machine options
    [xbox_smc_version] and [xbox_smc_scratch]. *)
Definition smbus_smc_init (now : Z) (version : option (list Z)) (scratch_opt : Z) : SMBusSMCDevice := {|
  last_command := 0; last_value := 0; dvdrom := None; led_timer := Some now; watchdog_timer := None; error_code := 0;
  audio_clamping := false; interrupts_enabled := false; interrupt_reason := 0; led_mode := 0; led_user_sequence := LED_GREEN;
  led_default_sequence := LED_GREEN; led_color := 0; led_step := 0; fan_speed := 0; fan_mode := 0;
  avpack := SMC_REG_AVPACK_COMPOSITE; reset_on_press_eject := true; scratch_register := 0; fatal_error_number := 0;
  watchdog_challenge := [0; 0; 0; 0]; watchdog_response := [0; 0]; version_string_index := 0;
  version_string := default version_P01 version; scratch := u8 scratch_opt; requests := []
|}.

(** ** Well-formed controllers and the commands they accept *)
Record smc_ok s : Prop := {
  ok_challenge : length (watchdog_challenge s) = 4%nat;
  ok_response : length (watchdog_response s) = 2%nat;
  ok_version : (2 <= length (version_string s))%nat;
  ok_led_step : 0 <= led_step s < 4;
  ok_led_color : 0 <= led_color s < 4
}.

(** Single bytes only, and of the power register only the three known values. *)
Definition smc_allowed (op : smbus_op) : Prop :=
  match op with
  | op_quick _ | op_receive_byte | op_send_byte _ | op_read_byte _ => True
  | op_write_byte c v => c = SMC_REG_POWER -> v = SMC_REG_POWER_RESET \/ v = SMC_REG_POWER_CYCLE \/ v = SMC_REG_POWER_SHUTDOWN
  | _ => False
  end.

(** Prove [smc_ok] of a device that differs from [s] in other fields. *)
Ltac smc_fields s :=
  destruct s; repeat match goal with H : smc_ok _ |- _ => destruct H end;
  cbn in *; simplify_eq; split; cbn; rewrite ?length_insert.

Lemma smc_write_ok s c v : smc_ok s -> smc_allowed (op_write_byte c v) -> exists s', smc_write_command s c v = Ok s' /\ smc_ok s'.
Proof.
  intros Hs Hal. unfold smc_write_command, smc_warm_reboot_system, smc_cold_reboot_system, smc_shutdown_system, smc_eject_tray,
    smc_close_tray, smc_stop_watchdog, request. cbn in Hal.
  repeat case_match; try (eexists; split; [done|]; by smc_fields s).
  exfalso. apply Z.eqb_eq in H0. apply Z.eqb_neq in H1, H2, H3. intuition.
Qed.

Lemma array_at_ok l i : 0 <= i < Z.of_nat (length l) -> exists v, array_at l i = Ok v.
Proof. intros Hi. unfold array_at. destruct (lookup_lt_is_Some_2 l (Z.to_nat i)) as [v ->]; [lia|]. by eexists. Qed.

Lemma smc_read_ok s c : smc_ok s -> exists s' v, smc_read_command s c = Ok (s', v) /\ smc_ok s'.
Proof.
  intros Hs. unfold smc_read_command. pose proof (ok_challenge s Hs) as Hc. pose proof (ok_version s Hs) as Hv.
  destruct (array_at_ok (version_string s ++ [0]) (version_string_index s mod 3)) as [v ->].
  { rewrite length_app. cbn. pose proof (Z.mod_pos_bound (version_string_index s) 3). lia. }
  destruct (array_at_ok (watchdog_challenge s) 0) as [v0 ->]; [lia|].
  destruct (array_at_ok (watchdog_challenge s) 1) as [v1 ->]; [lia|].
  destruct (array_at_ok (watchdog_challenge s) 2) as [v2 ->]; [lia|].
  destruct (array_at_ok (watchdog_challenge s) 3) as [v3 ->]; [lia|].
  repeat case_match; cbn; eauto. do 2 eexists. split; [done|]. by destruct s, Hs.
Qed.

Lemma smc_op_ok s op : smc_ok s -> smc_allowed op -> exists s' v, device_op s op = Ok (s', v) /\ smc_ok s'.
Proof.
  intros Hs Hal. destruct op; try done; cbn.
  - by eauto.
  - by eauto.
  - by eauto.
  - unfold call_read_data. cbn. unfold smc_read_data. cbn. destruct (smc_read_ok s command Hs) as (s' & v & -> & ?). cbn. by eauto.
  - unfold call_write_data. cbn. destruct (smc_write_ok s command data Hs Hal) as (s' & -> & ?). cbn. by eauto.
Qed.

(** ** The controller as a state machine

    A configuration is the virtual time and the device; a timer fires at or
    after its time and is disarmed before its callback runs. *)
Variant smc_event :=
| ev_write (command value : Z)
| ev_read (command : Z)
| ev_reset (drive : option DriveInfo)
| ev_led
| ev_watchdog
| ev_press_eject
| ev_press_power
| ev_avpack_plug (pack : Z)
| ev_avpack_unplug.

Inductive smc_step : Z -> SMBusSMCDevice -> smc_event -> SMBusSMCDevice -> Prop :=
| step_write now s c v s' : smc_write_command s c v = Ok s' -> smc_step now s (ev_write c v) s'
| step_read now s c s' v : smc_read_command s c = Ok (s', v) -> smc_step now s (ev_read c) s'
| step_reset now s drive : smc_step now s (ev_reset drive) (smbus_smc_reset now drive s)
| step_led now s t s' : led_timer s = Some t -> t <= now ->
    smc_led_timer_cb now (smc_set_led_timer None s) = Ok s' -> smc_step now s ev_led s'
| step_watchdog now s t : watchdog_timer s = Some t -> t <= now ->
    smc_step now s ev_watchdog (smc_watchdog_timer_cb (smc_set_watchdog_timer None s))
| step_press_eject now s : smc_step now s ev_press_eject (smc_press_eject s)
| step_press_power now s : smc_step now s ev_press_power (smc_press_power s)
| step_avpack_plug now s p : smc_step now s (ev_avpack_plug p) (smc_avpack_plug s p)
| step_avpack_unplug now s : smc_step now s ev_avpack_unplug (smc_avpack_unplug s).

(** Runs, with the time of each event; time does not go back.  [Q] is what a
    scheduler guarantees of each step. *)
Section Run.
Variable Q : Z -> SMBusSMCDevice -> smc_event -> Prop.

Inductive smc_run : Z -> SMBusSMCDevice -> list (Z * smc_event) -> Z -> SMBusSMCDevice -> Prop :=
| run_nil now s : smc_run now s [] now s
| run_snoc now0 s0 tr now s now' ev s' :
    smc_run now0 s0 tr now s -> now <= now' -> Q now' s ev -> smc_step now' s ev s' -> smc_run now0 s0 (tr ++ [(now', ev)]) now' s'.
End Run.

(** The main loop runs an expired timer before anything else. *)
Definition prompt (now : Z) s (ev : smc_event) : Prop :=
  forall t, watchdog_timer s = Some t -> t < now -> ev = ev_watchdog.

Lemma led_color_range (g r : bool) : 0 <= Z.lor (if g then 0 else 2) (if r then 0 else 1) < 4.
Proof. by destruct g, r. Qed.

(** The LED callback never prints outside the array of colour names. *)
Lemma smc_led_ok now s : smc_ok s -> exists s', smc_led_timer_cb now s = Ok s' /\ smc_ok s' /\
  watchdog_timer s' = watchdog_timer s /\ requests s' = requests s /\ led_timer s' = Some (now + LED_INTERVAL_MS * 1000 * 1000).
Proof.
  intros Hs. unfold smc_led_timer_cb, print_led_color_change. set (s1 := smc_set_led_step _ (smc_set_led_step _ s)).
  set (color := Z.lor _ _). assert (0 <= color < 4) as Hc by apply led_color_range. clearbody color.
  replace (c_assert _) with (Ok tt); [|unfold c_assert; by replace (_ && _) with true by lia].
  assert (0 <= led_step s1 < 4) as Hst by (subst s1; destruct s; cbn; apply Z.mod_pos_bound; lia).
  exists (smc_set_led_timer (Some (now + LED_INTERVAL_MS * 1000 * 1000)) (smc_set_led_color color s1)).
  split; [by destruct (_ =? _)|]. subst s1. destruct s, Hs. cbn in *.
  by split_and!.
Qed.

(** What a register write does to the watchdog. *)
Lemma smc_write_watchdog s c v s' : smc_write_command s c v = Ok s' ->
  watchdog_timer s' = if c =? 0x21 then None else watchdog_timer s.
Proof.
  unfold smc_write_command, smc_warm_reboot_system, smc_cold_reboot_system, smc_shutdown_system, smc_eject_tray,
    smc_close_tray, smc_stop_watchdog, request.
  destruct (Z.eqb_spec c 0x21) as [->|Hc]; [intros [= <-]; by destruct s|].
  repeat case_match; intros [= <-]; by destruct s.
Qed.

Lemma smc_read_watchdog s c s' v : smc_read_command s c = Ok (s', v) -> watchdog_timer s' = watchdog_timer s.
Proof.
  unfold smc_read_command. repeat case_match; intros Hr; inv_ok; simplify_eq; done || by destruct s.
Qed.

Lemma smc_step_ok now s ev s' : smc_step now s ev s' -> smc_ok s ->
  (forall c v, ev = ev_write c v -> smc_allowed (op_write_byte c v)) -> smc_ok s'.
Proof.
  destruct 1; intros Hs Hal.
  - destruct (smc_write_ok s c v Hs) as (s1 & Hw & ?); [by apply Hal|]. congruence.
  - destruct (smc_read_ok s c Hs) as (s1 & w & Hw & ?). congruence.
  - unfold smbus_smc_reset, smc_start_watchdog. case_match; by smc_fields s.
  - destruct (smc_led_ok now (smc_set_led_timer None s)) as (s1 & Hl & ? & _); [by smc_fields s|]. congruence.
  - by smc_fields s.
  - unfold smc_press_eject, smc_eject_tray, smc_interrupt. repeat case_match; by smc_fields s.
  - unfold smc_press_power, smc_interrupt. repeat case_match; by smc_fields s.
  - unfold smc_avpack_plug, smc_interrupt. repeat case_match; by smc_fields s.
  - unfold smc_avpack_unplug, smc_interrupt. repeat case_match; by smc_fields s.
Qed.

(** ** The boot watchdog *)
Definition is_response (ev : smc_event) : bool := match ev with ev_write c _ => c =? 0x21 | _ => false end.
Definition is_watchdog (ev : smc_event) : bool := match ev with ev_watchdog => true | _ => false end.
Definition is_reset (ev : smc_event) : bool := match ev with ev_reset _ => true | _ => false end.

(** The trace has an event that stops the watchdog. *)
Definition stopped (tr : list (Z * smc_event)) : bool := existsb (fun te => is_response (snd te) || is_watchdog (snd te)) tr.

Lemma stopped_app tr tr' : stopped (tr ++ tr') = stopped tr || stopped tr'.
Proof. apply existsb_app. Qed.

Lemma smc_step_watchdog now s ev s' : smc_step now s ev s' -> is_reset ev = false ->
  watchdog_timer s' = if is_response ev || is_watchdog ev then None else watchdog_timer s.
Proof.
  destruct 1; intros Hr; cbn; try done.
  - by rewrite orb_false_r, (smc_write_watchdog s c v s').
  - by eapply smc_read_watchdog.
  - match goal with H : smc_led_timer_cb _ _ = _ |- _ => revert H end. unfold smc_led_timer_cb. intros ?. inv_ok. subst s'. by destruct s.
  - by destruct s.
  - unfold smc_press_eject, smc_eject_tray, smc_interrupt. repeat case_match; by destruct s.
  - unfold smc_press_power, smc_interrupt. repeat case_match; by destruct s.
  - unfold smc_avpack_plug, smc_interrupt. repeat case_match; by destruct s.
  - unfold smc_avpack_unplug, smc_interrupt. repeat case_match; by destruct s.
Qed.

(** The requests of a device updated in other fields, or with some added. *)
Ltac requests_grow s :=
  destruct s; cbn; try (split; [|done]);
  first [by exists []; rewrite app_nil_r | by eexists | rewrite <- app_assoc; by eexists].

Lemma smc_step_requests now s ev s' : smc_step now s ev s' -> requests s `prefix_of` requests s' /\
  (ev = ev_watchdog -> reset_request ∈ requests s').
Proof.
  unfold prefix. destruct 1; cbn; unfold smc_press_eject, smc_press_power, smc_avpack_plug, smc_avpack_unplug, smc_eject_tray,
    smc_interrupt, smc_warm_reboot_system, smbus_smc_reset, smc_start_watchdog, smc_watchdog_timer_cb, request.
  - match goal with H : smc_write_command _ _ _ = _ |- _ => revert H end. unfold smc_write_command, smc_warm_reboot_system,
      smc_cold_reboot_system, smc_shutdown_system, smc_eject_tray, smc_close_tray, smc_stop_watchdog, request.
    repeat case_match; intros [= <-]; by requests_grow s.
  - match goal with H : smc_read_command _ _ = _ |- _ => revert H end. unfold smc_read_command.
    repeat case_match; intros ?; inv_ok; simplify_eq; first [by requests_grow s | by requests_grow s'].
  - case_match; by requests_grow s.
  - match goal with H : smc_led_timer_cb _ _ = _ |- _ => revert H end. unfold smc_led_timer_cb. intros ?. inv_ok. subst s'.
    by requests_grow s.
  - split; [by requests_grow s|]. intros _. destruct s; cbn. set_solver.
  - repeat case_match; by requests_grow s.
  - repeat case_match; by requests_grow s.
  - repeat case_match; by requests_grow s.
  - repeat case_match; by requests_grow s.
Qed.

Section Watchdog.
Variables (Q : Z -> SMBusSMCDevice -> smc_event -> Prop) (now0 : Z) (drive : option DriveInfo) (s0 : SMBusSMCDevice).
Hypothesis Hversion : version_string s0 <> version_DBX.

(** When the watchdog started by a reset at [now0] expires. *)
Definition deadline : Z := now0 + WATCHDOG_CHALLENGE_TIME_MS * 1000 * 1000.
Definition booted : SMBusSMCDevice := smbus_smc_reset now0 drive s0.

Lemma booted_armed : watchdog_timer booted = Some deadline.
Proof.
  unfold booted, smbus_smc_reset, smc_start_watchdog. rewrite bool_decide_false; [by destruct s0|]. by destruct s0.
Qed.

Lemma run_timer tr now s : smc_run Q now0 booted tr now s -> forallb (fun te => negb (is_reset (snd te))) tr = true ->
  watchdog_timer s = if stopped tr then None else Some deadline.
Proof.
  remember now0 as n0 eqn:Hn0. remember booted as b eqn:Hb. induction 1 as [|now0' s0' tr now s now' ev s' Hrun IH Hle Hq Hst]; intros Hnr.
  - subst. apply booted_armed.
  - rewrite forallb_app, andb_true_iff in Hnr. destruct Hnr as [Hnr Hev]. cbn in Hev. rewrite andb_true_r in Hev.
    apply negb_true_iff in Hev. rewrite (smc_step_watchdog _ _ _ _ Hst Hev), IH, stopped_app by done. cbn. rewrite orb_false_r.
    by destruct (stopped tr), (is_response ev || is_watchdog ev).
Qed.

Lemma run_requests tr now s : smc_run Q now0 booted tr now s -> (exists t, (t, ev_watchdog) ∈ tr) -> reset_request ∈ requests s.
Proof.
  induction 1 as [|now0' s0' tr now s now' ev s' Hrun IH Hle Hq Hst]; intros [t Ht]; [by apply elem_of_nil in Ht|].
  destruct (smc_step_requests _ _ _ _ Hst) as [[q Hpre] Hreset]. apply elem_of_app in Ht as [Ht|Ht].
  - rewrite Hpre. apply elem_of_app. left. apply IH. by exists t.
  - apply list_elem_of_singleton in Ht. simplify_eq. by apply Hreset.
Qed.

(** The watchdog fires at most once per boot, not before its time and not
    after the response. *)
Lemma run_fires tr now s : smc_run Q now0 booted tr now s -> forallb (fun te => negb (is_reset (snd te))) tr = true ->
  forall tr1 t tr2, tr = tr1 ++ (t, ev_watchdog) :: tr2 -> deadline <= t /\ stopped tr1 = false.
Proof.
  remember now0 as n0 eqn:Hn0. remember booted as b eqn:Hb. induction 1 as [|now0' s0' tr now s now' ev s' Hrun IH Hle Hq Hst]; intros Hnr tr1 t tr2.
  - by destruct tr1.
  - rewrite forallb_app, andb_true_iff in Hnr. destruct Hnr as [Hnr Hev]. intros Heq.
    destruct (decide (tr2 = [])) as [->|Hne].
    + apply app_inj_tail in Heq as [-> [= -> ->]]. subst. pose proof (run_timer _ _ _ Hrun Hnr) as Ht.
      inversion Hst as [| | | |? ? t' Hw Hle'| | | |]; subst. rewrite Ht in Hw. destruct (stopped tr1); [done|].
      by injection Hw as ->.
    + destruct (exists_last Hne) as (tr3 & x & ->). rewrite app_comm_cons, app_assoc in Heq. apply app_inj_tail in Heq as [-> _].
      by eapply IH.
Qed.
End Watchdog.

(** Under a scheduler that runs expired timers first, an unanswered watchdog
    has fired once its time has passed. *)
Lemma prompt_fires now0 drive s0 tr now s : version_string s0 <> version_DBX ->
  smc_run prompt now0 (booted now0 drive s0) tr now s -> forallb (fun te => negb (is_reset (snd te))) tr = true ->
  existsb (fun te => is_response (snd te)) tr = false -> deadline now0 < now -> exists t, (t, ev_watchdog) ∈ tr.
Proof.
  intros Hv Hrun. remember (booted now0 drive s0) as b eqn:Hb.
  induction Hrun as [|now0 b tr now s now' ev s' Hrun IH Hle Hq Hst]; intros Hnr Hna Hd.
  - unfold deadline, WATCHDOG_CHALLENGE_TIME_MS in Hd. lia.
  - rewrite forallb_app, andb_true_iff in Hnr. destruct Hnr as [Hnr Hev]. rewrite existsb_app, orb_false_iff in Hna. destruct Hna as [Hna Hev'].
    subst b. pose proof (run_timer _ _ _ _ Hv _ _ _ Hrun Hnr) as Ht. destruct (stopped tr) eqn:Hs.
    + apply existsb_exists in Hs as ([t e] & Hin & He). cbn in He. apply list_elem_of_In in Hin. exists t. apply elem_of_app. left.
      destruct e; cbn in He; try done. exfalso. rewrite orb_false_r in He.
      assert (existsb (fun te => is_response (snd te)) tr = true) as Hc; [|congruence].
      apply existsb_exists. eexists. split; [by apply list_elem_of_In|done].
    + exists now'. apply elem_of_app. right. apply list_elem_of_singleton. f_equal. symmetry. by eapply Hq.
Qed.

(** C25 (liveness): The boot watchdog.  After a reset of a retail console at
    [now0], the watchdog stays armed for exactly 250 ms of virtual time from
    the reset until the response register 0x21 is written or it fires; it
    never fires early, twice, or after a response.  If no response is written
    and the main loop runs expired timers first, then once the time has
    passed the watchdog has fired and requested a reset of the machine. *)
Theorem smc_watchdog Q now0 drive s0 tr now s :
  version_string s0 <> version_DBX -> smc_run Q now0 (smbus_smc_reset now0 drive s0) tr now s ->
  forallb (fun te => negb (is_reset (snd te))) tr = true ->
  watchdog_timer s = (if stopped tr then None else Some (now0 + 250000000)) /\
  (forall tr1 t tr2, tr = tr1 ++ (t, ev_watchdog) :: tr2 -> now0 + 250000000 <= t /\ stopped tr1 = false) /\
  ((forall n u e, Q n u e -> prompt n u e) -> existsb (fun te => is_response (snd te)) tr = false -> now0 + 250000000 < now ->
   reset_request ∈ requests s).
Proof.
  intros Hv Hrun Hnr. change 250000000 with (WATCHDOG_CHALLENGE_TIME_MS * 1000 * 1000). fold (deadline now0). split_and!.
  - by apply (run_timer Q now0 drive s0 Hv tr now).
  - by apply (run_fires Q now0 drive s0 Hv tr now s).
  - intros HQ Hna Hd. apply (run_requests Q now0 drive s0 tr now s Hrun). apply (prompt_fires now0 drive s0 tr now s); try done.
    clear -Hrun HQ. unfold booted. induction Hrun; econstructor; eauto.
Qed.

(** A console that never answers: the LED timer runs twice, then the watchdog. *)
Lemma smc_watchdog_witness :
  exists tr s, smc_run prompt 0 (smbus_smc_reset 0 None (smbus_smc_init 0 None 0)) tr 250000001 s /\ reset_request ∈ requests s.
Proof.
  destruct (smc_led_ok 125000000 (smc_set_led_timer None (smbus_smc_reset 0 None (smbus_smc_init 0 None 0)))) as (s1 & Hl & _ & Hw & _).
  { split; [reflexivity|reflexivity|apply Nat.leb_le; reflexivity|vm_compute; split; [discriminate|reflexivity]..]. }
  assert (Hrun : smc_run prompt 0 (smbus_smc_reset 0 None (smbus_smc_init 0 None 0))
    [(125000000, ev_led); (250000001, ev_watchdog)] 250000001 (smc_watchdog_timer_cb (smc_set_watchdog_timer None s1))).
  { eapply (run_snoc prompt 0 _ [(125000000, ev_led)] 125000000 s1 250000001 ev_watchdog).
    - eapply (run_snoc prompt 0 _ [] 0 _ 125000000 ev_led s1); [constructor|done| |by eapply step_led].
      intros t [= <-] Ht. by apply Z.lt_asymm in Ht.
    - done.
    - done.
    - by apply (step_watchdog _ _ 250000000). }
  exists [(125000000, ev_led); (250000001, ev_watchdog)], (smc_watchdog_timer_cb (smc_set_watchdog_timer None s1)). split; [exact Hrun|].
  refine (proj2 (proj2 (smc_watchdog prompt 0 None (smbus_smc_init 0 None 0) _ _ _ _ Hrun _)) _ _ _).
  - discriminate.
  - reflexivity.
  - intros n u e He. exact He.
  - reflexivity.
  - reflexivity.
Defined.
