(* ===== verification/XboxSmbus.v ===== *)
(** * The SMBus of the Xbox

    The four devices that hw/xbox/xbox.c puts on the bus of the AMD756
    controller, and theorems about guest programs that reach them through the
    ports of the controller: ports, controller, master commands, I2C transfers
    and device callbacks together. *)
From S2P Require Import Prelude MemRegion MemAccess SMBus AmdSmbus SMBusDevices XboxSmc.

Variant XboxDevice :=
| xd_eeprom (e : SMBusEEPROMDevice)
| xd_smc (m : SMBusSMCDevice)
| xd_cx25871 (cx : SMBusCX25871Device)
| xd_adm1032 (tm : ADM1032Device).

(** The class of a device of kind [E] as a class of the sum. *)
Section Lift.
Context {E D : Type} (inj : E -> D) (proj : D -> option E).

Definition cast (d : D) : outcome E := match proj d with Some e => Ok e | None => Abort end.

Definition lift_class (c : SMBusDeviceClass E) : SMBusDeviceClass D := {|
  quick_cmd := (fun f d r => e ← cast d; e ← f e r; Ok (inj e)) <$> quick_cmd c;
  send_byte := (fun f d v => e ← cast d; e ← f e v; Ok (inj e)) <$> send_byte c;
  receive_byte := (fun f d => e ← cast d; '(e, v) ← f e; Ok (inj e, v)) <$> receive_byte c;
  write_data := (fun f d cmd buf => e ← cast d; e ← f e cmd buf; Ok (inj e)) <$> write_data c;
  read_data := (fun f d cmd n => e ← cast d; '(e, v) ← f e cmd n; Ok (inj e, v)) <$> read_data c
|}.
End Lift.

Definition as_eeprom (d : XboxDevice) : option SMBusEEPROMDevice := match d with xd_eeprom e => Some e | _ => None end.
Definition as_smc (d : XboxDevice) : option SMBusSMCDevice := match d with xd_smc m => Some m | _ => None end.
Definition as_cx25871 (d : XboxDevice) : option SMBusCX25871Device := match d with xd_cx25871 c => Some c | _ => None end.
Definition as_adm1032 (d : XboxDevice) : option ADM1032Device := match d with xd_adm1032 t => Some t | _ => None end.

#[export] Instance xbox_smbus_class : SMBusClass XboxDevice := fun d =>
  match d with
  | xd_eeprom _ => lift_class xd_eeprom as_eeprom eeprom_class
  | xd_smc _ => lift_class xd_smc as_smc smc_class
  | xd_cx25871 _ => lift_class xd_cx25871 as_cx25871 cx_class
  | xd_adm1032 _ => lift_class xd_adm1032 as_adm1032 tm_class
  end.

(** ** The board *)

(** [i2c_create_slave]: a device starts zeroed, and [bus_add_child] puts it at
    the head of the list. *)
Definition i2c_create_slave {D} (bus : I2CBus (SMBusDevice D)) (addr : Z) (d : D) : I2CBus (SMBusDevice D) :=
  {| bus_children := {| sd_address := addr; sd_mode := SMBUS_IDLE; sd_data_len := 0; sd_data_buf := replicate DATA_BUF_SIZE 0;
                        sd_command := 0; sd_priv := d |} :: bus_children bus;
     current_dev := current_dev bus; saved_address := saved_address bus |}.

(** The devices that [xbox_init_common] creates, with the contents of the
    EEPROM and the options of the management controller. *)
Definition xbox_smbus_devices (bus : I2CBus (SMBusDevice XboxDevice)) (eeprom_buf : list Z) (now : Z) (version : option (list Z)) (scratch : Z)
  : I2CBus (SMBusDevice XboxDevice) :=
  let bus := i2c_create_slave bus 0x54 (xd_eeprom (smbus_eeprom_initfn eeprom_buf)) in
  let bus := i2c_create_slave bus 0x10 (xd_smc (smbus_smc_init now version scratch)) in
  let bus := i2c_create_slave bus 0x45 (xd_cx25871 smbus_cx_init) in
  i2c_create_slave bus 0x4c (xd_adm1032 Build_ADM1032Device).

(** The bus as the controller sees it. *)
Definition board (tm : ADM1032Device) (cx : SMBusCX25871Device) (m : SMBusSMCDevice) (e : SMBusEEPROMDevice) : list (Z * XboxDevice) :=
  [(0x4c, xd_adm1032 tm); (0x45, xd_cx25871 cx); (0x10, xd_smc m); (0x54, xd_eeprom e)].

(** ** Commands to a lifted device *)
Section LiftOp.
Context {E D : Type} `{SMBusClass E, SMBusClass D} (inj : E -> D) (proj : D -> option E) (c : SMBusDeviceClass E).
Hypothesis Hproj : forall e, proj (inj e) = Some e.
Hypothesis Hinj : forall e : E, smbus_class (inj e) = lift_class inj proj c.
Hypothesis Hc : forall e : E, smbus_class e = c.

Lemma lift_read e cmd n : call_read_data (inj e) cmd n = ('(e, v, n) ← call_read_data e cmd n; Ok (inj e, v, n)).
Proof.
  unfold call_read_data. rewrite Hinj, Hc. cbn. destruct (read_data c) as [f|]; [|done]. cbn. unfold cast. rewrite Hproj. cbn.
  by destruct (f e cmd n) as [[e' v]| |].
Qed.

Lemma lift_read_bytes cmd k : forall e n, read_bytes (inj e) cmd n k = ('(e, bs) ← read_bytes e cmd n k; Ok (inj e, bs)).
Proof.
  induction k as [|k IH]; intros e n; cbn [read_bytes]; [done|]. rewrite lift_read.
  destruct (call_read_data e cmd n) as [[[e1 b] n1]| |]; try done. cbn. rewrite IH. by destruct (read_bytes e1 cmd n1 k) as [[e2 bs]| |].
Qed.

Lemma lift_write e cmd buf : call_write_data (inj e) cmd buf = (e ← call_write_data e cmd buf; Ok (inj e)).
Proof.
  unfold call_write_data. rewrite Hinj, Hc. cbn. destruct (write_data c) as [f|]; [|done]. cbn. unfold cast. by rewrite Hproj.
Qed.

Lemma lift_op e op : device_op (inj e) op = ('(e, v) ← device_op e op; Ok (inj e, v)).
Proof.
  destruct op; cbn [device_op]; unfold void; rewrite ?lift_write, ?lift_read.
  - unfold call_quick_cmd. rewrite Hinj, Hc. cbn. destruct (quick_cmd c) as [f|]; [|done]. cbn. unfold cast. rewrite Hproj. cbn.
    by destruct (f e _).
  - unfold call_receive_byte. rewrite Hinj, Hc. cbn. destruct (receive_byte c) as [f|]; [|done]. cbn. unfold cast. rewrite Hproj. cbn.
    by destruct (f e) as [[e' v]| |].
  - unfold call_send_byte. rewrite Hinj, Hc. cbn. destruct (send_byte c) as [f|]; [|done]. cbn. unfold cast. rewrite Hproj. cbn.
    by destruct (f e _).
  - by destruct (call_read_data e _ _) as [[[e1 v] n]| |].
  - by destruct (call_write_data e _ _).
  - destruct (call_read_data e _ _) as [[[e1 v] n]| |]; try done. cbn. rewrite lift_read. by destruct (call_read_data e1 _ _) as [[[e2 w] n2]| |].
  - by destruct (call_write_data e _ _).
  - destruct (call_read_data e _ _) as [[[e1 v] n]| |]; try done. cbn. rewrite lift_read_bytes. by destruct (read_bytes e1 _ _ _) as [[e2 w]| |].
  - by destruct (call_write_data e _ _).
Qed.
End LiftOp.

Lemma eeprom_op e op : device_op (xd_eeprom e) op = ('(e, v) ← device_op e op; Ok (xd_eeprom e, v)).
Proof. by apply (lift_op xd_eeprom as_eeprom eeprom_class). Qed.
Lemma smc_op m op : device_op (xd_smc m) op = ('(m, v) ← device_op m op; Ok (xd_smc m, v)).
Proof. by apply (lift_op xd_smc as_smc smc_class). Qed.
Lemma cx25871_op cx op : device_op (xd_cx25871 cx) op = ('(cx, v) ← device_op cx op; Ok (xd_cx25871 cx, v)).
Proof. by apply (lift_op xd_cx25871 as_cx25871 cx_class). Qed.
Lemma adm1032_op tm op : device_op (xd_adm1032 tm) op = ('(tm, v) ← device_op tm op; Ok (xd_adm1032 tm, v)).
Proof. by apply (lift_op xd_adm1032 as_adm1032 tm_class). Qed.

(** ** Safety of the ports *)
Definition xbox_ok (d : XboxDevice) : Prop :=
  match d with
  | xd_eeprom e => eeprom_ok e
  | xd_smc m => smc_ok m
  | xd_cx25871 cx => cx_ok cx
  | xd_adm1032 _ => True
  end.

(** Commands no device asserts against. *)
Definition xbox_allowed (d : XboxDevice) (op : smbus_op) : Prop :=
  match d with xd_smc _ => smc_allowed op | _ => True end.

Lemma xbox_device_op d op : xbox_ok d -> op_ok op -> op_bytes op -> xbox_allowed d op ->
  exists d' v, device_op d op = Ok (d', v) /\ xbox_ok d'.
Proof.
  destruct d as [e|m|cx|tm]; intros Hd Hop Hb Hal.
  - rewrite eeprom_op. destruct (device_op_total eeprom_ok eeprom_total e op Hd Hop Hb) as (e' & v & -> & ?). cbn. by eauto.
  - rewrite smc_op. destruct (smc_op_ok m op Hd Hal) as (m' & v & -> & ?). cbn. by eauto.
  - rewrite cx25871_op. destruct (device_op_total cx_ok cx_total cx op Hd Hop Hb) as (cx' & v & -> & ?). cbn. by eauto.
  - rewrite adm1032_op. destruct (device_op_total (fun _ => True) tm_total tm op Hd Hop Hb) as (tm' & v & -> & ?). cbn. by eauto.
Qed.

Section Board.
Variables (eeprom_buf : list Z) (now : Z) (version : option (list Z)) (scratch_opt : Z) (irq : option Z).

(** The controller and its bus when the machine has been built. *)
Definition xbox_smb : AMD756SMBus (I2CBus (SMBusDevice XboxDevice)) :=
  amd756_smbus_init (xbox_smbus_devices i2c_init_bus eeprom_buf now version scratch_opt) irq.

Definition xbox_board : list (Z * XboxDevice) :=
  board Build_ADM1032Device smbus_cx_init (smbus_smc_init now version scratch_opt) (smbus_eeprom_initfn eeprom_buf).

Lemma init_regs_ok {B} (bus : B) : regs_ok (smb (amd756_smbus_init bus irq)).
Proof. split; cbn; try (unfold byte; lia). split; [done|]. by repeat constructor. Qed.

Lemma xbox_smb_rel : amd_rel (R:=idle_bus) xbox_smb (amd756_smbus_init xbox_board irq).
Proof. split; [|split; [done|apply init_regs_ok]]. split; [done|]. by repeat constructor. Qed.

Lemma xbox_board_ok : length eeprom_buf = 256%nat -> Forall byte eeprom_buf -> (2 <= length (default version_P01 version))%nat ->
  devices_ok xbox_ok xbox_board.
Proof.
  intros Hl Hb Hv. unfold devices_ok, xbox_board, board. rewrite !Forall_cons, Forall_nil. by split_and!; cbn.
Qed.
End Board.

Lemma ports_safe s t accs : amd_rel (R:=idle_bus) s t -> devices_ok xbox_ok (smbus t) -> accesses_ok xbox_allowed t accs ->
  exists s' vs l', run_ports s accs = Ok (s', vs) /\ idle_bus (smbus s') l' /\ devices_ok xbox_ok l' /\
    regs_ok (smb s') /\ Forall byte vs.
Proof.
  intros Hrel Hl Hacc. pose proof Hrel as (_ & _ & Hr). destruct (run_succeeds xbox_ok xbox_allowed xbox_device_op accs t Hl Hr Hacc)
    as (t' & vs & Ht & Hl'). pose proof (run_ports_refines (R:=idle_bus) accs s t Hrel) as Href. rewrite Ht in Href.
  destruct (run_ports s accs) as [[s' vs']| |]; try done. destruct Href as ((Hi & Hs & Hr') & Hv & Hb). cbn in *. subst vs'.
  exists s', vs, (smbus t'). by rewrite Hs.
Qed.

(** C23 (safety): Whatever bytes the guest writes to and reads from the ports of the
    SMBus controller, in whatever order, no access fails as long as the commands
    it starts at the management controller are no word or block commands and
    write to its power register only the values for reset, power cycle and shutdown
    (for the others see [smc_guest_assertions]); the commands to the other devices
    are not restricted.  No array of the controller, the protocol layer or a device
    is indexed out of bounds and no assertion fails.  Afterwards the bus and every
    device are idle and all registers and bytes read are in range. *)
Theorem xbox_smbus_safe eeprom_buf now version scratch_opt irq accs :
  length eeprom_buf = 256%nat -> Forall byte eeprom_buf -> (2 <= length (default version_P01 version))%nat ->
  accesses_ok xbox_allowed (amd756_smbus_init (xbox_board eeprom_buf now version scratch_opt) irq) accs ->
  exists s' vs l', run_ports (xbox_smb eeprom_buf now version scratch_opt irq) accs = Ok (s', vs) /\ idle_bus (smbus s') l' /\
    devices_ok xbox_ok l' /\ regs_ok (smb s') /\ Forall byte vs.
Proof. intros Hl Hb Hv. apply ports_safe; [apply xbox_smb_rel|by apply xbox_board_ok]. Qed.

(** ** Byte transfers through the ports *)

(** What a driver does: set up the address, command and data registers and
    start a byte-data transaction. *)
Definition write_byte_ports (a c v : Z) : list port_access :=
  [port_write SMB_HOST_ADDRESS (2 * a); port_write SMB_HOST_COMMAND c; port_write SMB_HOST_DATA v;
   port_write SMB_GLOBAL_ENABLE (Z.lor AMD756_BYTE_DATA GE_HOST_STC)].
Definition read_byte_ports (a c : Z) : list port_access :=
  [port_write SMB_HOST_ADDRESS (2 * a + 1); port_write SMB_HOST_COMMAND c;
   port_write SMB_GLOBAL_ENABLE (Z.lor AMD756_BYTE_DATA GE_HOST_STC); port_read SMB_HOST_DATA].

Lemma address_register a b : 0 <= a < 128 -> (b = 0 \/ b = 1) ->
  Z.land (u8 (2 * a + b)) 1 = b /\ Z.land (Z.shiftr (u8 (2 * a + b)) 1) 0x7f = a.
Proof.
  intros Ha Hb. rewrite (wrap_small 8) by lia. change 1 with (Z.ones 1) at 1. change 0x7f with (Z.ones 7).
  rewrite !Z.land_ones, Z.shiftr_div_pow2 by lia. change (2 ^ 1) with 2. rewrite (Z.mul_comm 2 a), (Z.add_comm (a * 2) b).
  rewrite Z_mod_plus_full, Z.div_add by lia. rewrite Z.mod_small, Z.div_small, Z.mod_small by lia. done.
Qed.

Section Transfers.
Context {B : Type} `{SMBusMaster B}.

Lemma writeb_address (s : AMD756SMBus B) v :
  amd756_smb_ioport_writeb s SMB_HOST_ADDRESS v = Ok {| smbus := smbus s; smb := set_address (u8 v) (smb s) |}.
Proof. done. Qed.
Lemma writeb_command (s : AMD756SMBus B) v :
  amd756_smb_ioport_writeb s SMB_HOST_COMMAND v = Ok {| smbus := smbus s; smb := set_cmd (u8 v) (smb s) |}.
Proof. done. Qed.
Lemma writeb_data (s : AMD756SMBus B) v :
  amd756_smb_ioport_writeb s SMB_HOST_DATA v = Ok {| smbus := smbus s; smb := set_data0 (u8 v) (smb s) |}.
Proof. done. Qed.

(** Starting a byte-data transaction, with the interrupt disabled. *)
Lemma writeb_start (s : AMD756SMBus B) : amd756_smb_ioport_writeb s SMB_GLOBAL_ENABLE (Z.lor AMD756_BYTE_DATA GE_HOST_STC) =
  let r := set_ctl 0xa (smb s) in
  let addr := Z.land (Z.shiftr (smb_addr r) 1) 0x7f in
  if Z.land (smb_addr r) 1 =? 0 then completes (fun _ r => r) r (smbus_command (smbus s) addr (op_write_byte (smb_cmd r) (smb_data0 r)))
  else completes (fun v => set_data0 (fst v)) r (smbus_command (smbus s) addr (op_read_byte (smb_cmd r))).
Proof.
  destruct s as [bus [st ctl cm ad d0 d1 da ix iq]].
  change (amd756_smb_ioport_writeb _ _ _) with
    (s ← amd756_smb_transaction {| smbus := bus; smb := Build_AmdRegs st 0xa cm ad d0 d1 da ix iq |}; Ok s).
  unfold amd756_smb_transaction. cbn -[completes Z.land Z.shiftr]. change (Z.land 10 GE_CYC_TYPE_MASK) with 2. cbn -[completes Z.land Z.shiftr].
  case_match; by destruct (completes _ _ _).
Qed.

Lemma write_byte_ports_run (bus : B) r a c v : 0 <= a < 128 -> byte c -> byte v ->
  exists r', run_ports {| smbus := bus; smb := r |} (write_byte_ports a c v) =
    ('(bus, _) ← smbus_command bus a (op_write_byte c v); Ok ({| smbus := bus; smb := r' |}, [])).
Proof.
  intros Ha Hc Hv. destruct (address_register a 0 Ha (or_introl eq_refl)) as [H0 H1]. rewrite Z.add_0_r in H0, H1.
  destruct r as [st ctl cm ad d0 d1 da ix iq].
  exists (Build_AmdRegs (Z.lor st GS_HCYC_STS) 0xa c (u8 (2 * a)) v d1 da ix iq).
  unfold write_byte_ports. cbn [run_ports port_step]. rewrite writeb_address. cbn -[amd756_smb_ioport_writeb wrap Z.mul Z.lor].
  rewrite writeb_command. cbn -[amd756_smb_ioport_writeb wrap Z.mul Z.lor]. rewrite writeb_data. cbn -[amd756_smb_ioport_writeb wrap Z.mul Z.lor].
  rewrite writeb_start. cbn -[wrap Z.mul Z.lor Z.land Z.shiftr]. rewrite H0, H1, (wrap_small 8 c), (wrap_small 8 v) by done.
  cbn -[wrap Z.mul Z.lor]. by destruct (smbus_command bus a (op_write_byte c v)) as [[bus' ans]| |].
Qed.

Lemma read_byte_ports_run (bus : B) r a c : 0 <= a < 128 -> byte c ->
  exists r', forall bus' ans, smbus_command bus a (op_read_byte c) = Ok (bus', ans) ->
    run_ports {| smbus := bus; smb := r |} (read_byte_ports a c) = Ok ({| smbus := bus'; smb := set_data0 (fst ans) r' |}, [fst ans]).
Proof.
  intros Ha Hc. destruct (address_register a 1 Ha (or_intror eq_refl)) as [H0 H1].
  destruct r as [st ctl cm ad d0 d1 da ix iq].
  exists (Build_AmdRegs (Z.lor st GS_HCYC_STS) 0xa c (u8 (2 * a + 1)) 0 d1 da ix iq). intros bus' ans Hcmd.
  unfold read_byte_ports. cbn [run_ports port_step]. rewrite writeb_address. cbn -[amd756_smb_ioport_writeb wrap Z.mul Z.lor].
  rewrite writeb_command. cbn -[amd756_smb_ioport_writeb wrap Z.mul Z.lor].
  rewrite writeb_start. cbn -[wrap Z.mul Z.lor Z.land Z.shiftr]. rewrite H0, H1, (wrap_small 8 c) by done.
  cbn -[wrap Z.mul Z.lor]. by rewrite Hcmd.
Qed.
End Transfers.

(** ** The EEPROM through the ports *)
Lemma run_ports_app {B} `{SMBusMaster B} l1 : forall (s : AMD756SMBus B) l2,
  run_ports s (l1 ++ l2) = ('(s, vs) ← run_ports s l1; '(s, ws) ← run_ports s l2; Ok (s, vs ++ ws)).
Proof.
  induction l1 as [|a l1 IH]; intros s l2; cbn [app run_ports].
  - cbn. by destruct (run_ports s l2) as [[s' ws]| |].
  - destruct (port_step s a) as [[s1 v]| |]; try done. cbn. rewrite IH. destruct (run_ports s1 l1) as [[s2 vs]| |]; try done. cbn.
    destruct (run_ports s2 l2) as [[s3 ws]| |]; try done. cbn. by rewrite app_assoc.
Qed.

(** A byte command to the EEPROM of the board. *)
Lemma board_write tm cx m e c v : eeprom_ok e -> byte c -> byte v ->
  exists e', smbus_command (board tm cx m e) 0x54 (op_write_byte c v) = Ok (board tm cx m e', (0, [])) /\ eeprom_ok e' /\
    forall i, (i < 256)%nat -> ee_data e' !! i = if decide (i = Z.to_nat c) then Some v else ee_data e !! i.
Proof.
  intros He Hc Hv. destruct (eeprom_write_total e c [v] He Hc) as (e' & Hw & He'); [by apply Forall_singleton|cbn; lia|].
  exists e'. split; [|split; [done|]].
  - cbn -[device_op]. rewrite eeprom_op. cbn. unfold call_write_data. cbn. by rewrite Hw.
  - destruct (eeprom_write_spec e c [v] (ee_size e He) Hc) as (e1 & Hw1 & _ & _ & Hcell); [cbn; lia|].
    assert (e1 = e') as -> by congruence. intros i Hi. rewrite Hcell, ring_index by (done || apply Hc).
    destruct Hc as [Hc0 Hc1]. cbn [length]. destruct (decide (i = Z.to_nat c)) as [->|Hne].
    + by rewrite Nat.leb_refl, Nat.sub_diag.
    + destruct (Nat.leb_spec (Z.to_nat c) i); case_match eqn:E; try done; apply Nat.ltb_lt in E; lia.
Qed.

Lemma board_read tm cx m e c : eeprom_ok e -> byte c -> exists e' b, ee_data e !! Z.to_nat c = Some b /\
  smbus_command (board tm cx m e) 0x54 (op_read_byte c) = Ok (board tm cx m e', (b, [])) /\ eeprom_ok e' /\ ee_data e' = ee_data e.
Proof.
  intros [Hs Hb Hp] [Hc0 Hc1]. destruct (lookup_lt_is_Some_2 (ee_data e) (Z.to_nat c)) as [b Hbt]; [lia|].
  exists {| ee_data := ee_data e; ee_offset := u8 (c + 1) |}, b. split; [done|]. split; [|split; [split; [done|done|apply byte_u8]|done]].
  cbn -[device_op]. rewrite eeprom_op. cbn. unfold call_read_data. cbn. unfold eeprom_read_data, eeprom_receive_byte. cbn. rewrite Hbt. cbn.
  by rewrite (wrap_small 8 b) by (by eapply Forall_lookup_1 in Hb).
Qed.

(** C24 (roundtrip): A byte the guest writes to the EEPROM through the ports of
    the controller is what it reads back from that address through the ports;
    every other cell reads as before, and the other devices are untouched. *)
Theorem eeprom_port_roundtrip s tm cx m e r c v c' :
  amd_rel (R:=idle_bus) s {| smbus := board tm cx m e; smb := r |} -> eeprom_ok e -> byte c -> byte v -> byte c' ->
  exists s' e' r' b, run_ports s (write_byte_ports 0x54 c v ++ read_byte_ports 0x54 c') = Ok (s', [b]) /\
    Some b = (if decide (c = c') then Some v else ee_data e !! Z.to_nat c') /\
    amd_rel (R:=idle_bus) s' {| smbus := board tm cx m e'; smb := r' |} /\ eeprom_ok e'.
Proof.
  intros Hrel He Hc Hv Hc'. destruct (board_write tm cx m e c v He Hc Hv) as (e1 & Hw & He1 & Hcell).
  destruct (board_read tm cx m e1 c' He1 Hc') as (e2 & b & Hb & Hr & He2 & _).
  destruct (write_byte_ports_run (board tm cx m e) r 0x54 c v) as (r1 & Hrun1); [lia|done|done|].
  destruct (read_byte_ports_run (board tm cx m e1) r1 0x54 c') as (r2 & Hrun2); [lia|done|].
  pose proof (run_ports_refines (R:=idle_bus) (write_byte_ports 0x54 c v ++ read_byte_ports 0x54 c') _ _ Hrel) as Href.
  rewrite Hw in Hrun1. cbn [mbind outcome_bind] in Hrun1.
  rewrite (run_ports_app (B:=list (Z * XboxDevice))), Hrun1 in Href. cbn [mbind outcome_bind] in Href.
  rewrite (Hrun2 _ _ Hr) in Href. destruct (run_ports s _) as [[s' vs]| |]; try done. destruct Href as (Hrel' & Hvs & _). cbn in Hvs.
  exists s', e2, (set_data0 b r2), b. split; [by rewrite Hvs|]. split; [|done].
  rewrite <- Hb, Hcell by (destruct Hc'; lia). destruct Hc, Hc'. do 2 case_match; try done; subst; lia.
Qed.

Lemma eeprom_port_roundtrip_witness :
  exists s' b, run_ports (xbox_smb (replicate 256 7) 0 None 0 None) (write_byte_ports 0x54 5 0xab ++ read_byte_ports 0x54 5) = Ok (s', [b]) /\
    Some b = Some 0xab.
Proof.
  destruct (eeprom_port_roundtrip (xbox_smb (replicate 256 7) 0 None 0 None) Build_ADM1032Device smbus_cx_init (smbus_smc_init 0 None 0)
    (smbus_eeprom_initfn (replicate 256 7)) (smb (xbox_smb (replicate 256 7) 0 None 0 None)) 5 0xab 5) as (s' & e' & r' & b & Hrun & Hb & _).
  - apply xbox_smb_rel.
  - split; [done|by apply Forall_replicate|done].
  - done.
  - done.
  - done.
  - exists s', b. exact (conj Hrun Hb).
Defined.

(** A driver writes an EEPROM byte and reads it back, power cycles the machine
    through the management controller and reads its version: the four commands are
    allowed. *)
Definition driver_ports : list port_access :=
  write_byte_ports 0x54 5 0xab ++ read_byte_ports 0x54 5 ++ write_byte_ports 0x10 SMC_REG_POWER SMC_REG_POWER_CYCLE ++ read_byte_ports 0x10 SMC_REG_VER.

(** One access of a concrete program: the command it starts, if any, and the next
    state. *)
Ltac run_access :=
  split; [intros r op d Hs Hop Hin; vm_compute in Hs; first [discriminate Hs|injection Hs as <-; vm_compute in Hop; injection Hop as <-;
      repeat (apply elem_of_cons in Hin as [Hin|Hin]; [first [discriminate Hin|injection Hin as ->; cbn; try (intros _; right; left; reflexivity); exact I]|]); by apply elem_of_nil in Hin]
    |intros t' v Ht; vm_compute in Ht; injection Ht as <- <-].

Lemma driver_ports_ok : accesses_ok xbox_allowed (amd756_smbus_init (xbox_board (replicate 256 7) 0 None 0) None) driver_ports.
Proof. unfold driver_ports, write_byte_ports, read_byte_ports. cbn [app accesses_ok]. do 16 run_access. exact I. Qed.

Lemma xbox_smbus_safe_witness :
  exists s' vs l', run_ports (xbox_smb (replicate 256 7) 0 None 0 None) driver_ports = Ok (s', vs) /\
    idle_bus (smbus s') l' /\ devices_ok xbox_ok l' /\ regs_ok (smb s') /\ Forall byte vs.
Proof.
  apply (xbox_smbus_safe (replicate 256 7) 0 None 0 None driver_ports).
  - done.
  - by apply Forall_replicate.
  - cbn. lia.
  - exact driver_ports_ok.
Defined.

(** ** The port range

    Through [memory_region_dispatch_write] the guest reaches the registers it
    means to when the base of the range is a multiple of 64, and a 16-bit
    write is a write of the low byte and then of the high byte to the next
    port. *)
Section PortRange.
Context {B : Type} `{SMBusMaster B} `{CoalescedBuffer (outcome (AMD756SMBus B))}.

Lemma writeb_masked (s : AMD756SMBus B) a a' v : Z.land a 0x3f = Z.land a' 0x3f ->
  amd756_smb_ioport_writeb s a v = amd756_smb_ioport_writeb s a' v.
Proof. intros Ha. unfold amd756_smb_ioport_writeb. by rewrite Ha. Qed.

Lemma port_offset bar a : bar mod 64 = 0 -> Z.land (u32 (a - bar)) 0x3f = Z.land a 0x3f.
Proof.
  intros Hb. change 0x3f with (Z.ones 6). rewrite !Z.land_ones by done. unfold wrap.
  change (2 ^ 32) with (2 ^ 6 * 2 ^ 26). rewrite Z.rem_mul_r by done.
  rewrite (Z.mul_comm (2 ^ 6) (_ mod _)), Z_mod_plus_full, Zmod_mod, Zminus_mod. change (2 ^ 6) with 64.
  by rewrite Hb, Z.sub_0_r, Zmod_mod.
Qed.

Lemma xbox_smb_writeb_aligned bar (s : AMD756SMBus B) a v size : bar mod 64 = 0 -> byte v ->
  xbox_smb_ioport_writeb bar (Ok s) a v size = amd756_smb_ioport_writeb s a v.
Proof.
  intros Hb Hv. unfold xbox_smb_ioport_writeb. cbn [mbind outcome_bind]. rewrite (wrap_small 32 v) by (unfold byte in Hv; lia).
  by apply writeb_masked, port_offset.
Qed.

Lemma port_word_write bar (s : AMD756SMBus B) a data : bar mod 64 = 0 -> 0 <= a < 2 ^ 32 -> Z.land a 1 = 0 -> 0 <= data < 2 ^ 16 ->
  memory_region_dispatch_write (xbox_smbus_ops bar) false (Ok s) a data 2 =
  Ok (s ← amd756_smb_ioport_writeb s a (data mod 256); amd756_smb_ioport_writeb s (a + 1) (data / 256), false).
Proof.
  intros Hb Ha Hal Hd. assert (0 <= data / 256 < 256) by (split; [apply Z.div_pos|apply Z.div_lt_upper_bound]; lia).
  assert (0 <= data mod 256 < 256) by (apply Z.mod_pos_bound; lia).
  unfold memory_region_dispatch_write, memory_region_access_valid. cbn [valid_unaligned xbox_smbus_ops negb andb valid_accepts].
  change (2 - 1) with 1. rewrite Hal. cbn [Z.eqb negb mbind outcome_bind].
  change (adjust_endianness _ data 2) with (Ok data). cbn [mbind outcome_bind write xbox_smbus_ops].
  unfold access_with_adjusted_size. change (access_size_of 2 _ _) with 1. change (Z.shiftr _ _) with (Z.ones 8).
  change (Z.to_nat 2) with 2%nat. cbn [access_loop Z.ltb Z.compare memory_region_big_endian endianness xbox_smbus_ops].
  change (u32 (0 * 8)) with 0. change (0 + 1) with 1. change (u32 (1 * 8)) with 8. change (1 + 1) with 2.
  unfold memory_region_write_accessor, slice_value. cbn -[xbox_smb_ioport_writeb Z.land Z.shiftr Z.modulo Z.div wrap].
  rewrite Z.shiftr_0_r, !Z.land_ones, Z.shiftr_div_pow2, !(wrap_small 64) by lia. change (2 ^ 8) with 256. rewrite (Z.mod_small (data / 256)) by lia.
  rewrite Z.add_0_r, xbox_smb_writeb_aligned by done. destruct (amd756_smb_ioport_writeb s a (data mod 256)); try done.
  by rewrite xbox_smb_writeb_aligned.
Qed.
End PortRange.

(** ** Findings *)
Definition demo_smb : AMD756SMBus (list (Z * XboxDevice)) :=
  amd756_smbus_init (xbox_board (replicate 256 7) 0 None 0) None.

(** A guest that reads a word from the management controller, or writes an
    unknown value to its power register, fails an assertion of the emulator. *)
Lemma smc_guest_assertions :
  run_ports demo_smb [port_write SMB_HOST_ADDRESS 0x21; port_write SMB_GLOBAL_ENABLE (Z.lor AMD756_WORD_DATA GE_HOST_STC)] = Abort /\
  run_ports demo_smb (write_byte_ports 0x10 SMC_REG_POWER 0) = Abort.
Proof. split; vm_compute; reflexivity. Qed.

(** A word write sends the low data register only: the high byte of 0x1234 is
    written as 0. *)
Lemma word_write_loses_high_byte :
  match run_ports demo_smb [port_write SMB_HOST_ADDRESS (2 * 0x54); port_write SMB_HOST_COMMAND 0; port_write SMB_HOST_DATA 0x34;
    port_write (SMB_HOST_DATA + 1) 0x12; port_write SMB_GLOBAL_ENABLE (Z.lor AMD756_WORD_DATA GE_HOST_STC)] with
  | Ok (s, _) => match smbus s with [_; _; _; (_, xd_eeprom e)] => take 2 (ee_data e) | _ => [] end
  | _ => []
  end = [0x34; 0].
Proof. vm_compute. reflexivity. Qed.

(** Writing zero to the status register sets a status bit. *)
Lemma status_write_zero_sets_bit :
  amd756_smb_ioport_writeb demo_smb SMB_GLOBAL_STATUS 0 = Ok {| smbus := smbus demo_smb; smb := set_stat GS_HCYC_STS (smb demo_smb) |}.
Proof. reflexivity. Qed.

(** With the range at an odd multiple of 32 no register is reachable. *)
Lemma port_range_misaligned {B} `{SMBusMaster B} (s : AMD756SMBus B) a v size : 0 <= a < 32 ->
  xbox_smb_ioport_writeb 0x20 (Ok s) a v size = Ok s.
Proof.
  intros Ha. unfold xbox_smb_ioport_writeb. cbn [mbind outcome_bind].
  rewrite (writeb_masked s _ (a + 32)).
  - unfold amd756_smb_ioport_writeb. change 0x3f with (Z.ones 6). rewrite Z.land_ones, Z.mod_small by lia.
    unfold SMB_GLOBAL_STATUS, SMB_GLOBAL_ENABLE, SMB_HOST_COMMAND, SMB_HOST_ADDRESS, SMB_HOST_DATA, SMB_HOST_BLOCK_DATA.
    repeat (case_match eqn:E; [apply Z.eqb_eq in E; lia|clear E]). done.
  - replace (a - 0x20) with (a + 32 - 64) by lia. by apply port_offset.
Qed.
