(* ===== verification/Swizzle.v ===== *)
(** * Texture swizzling (hw/xbox/swizzle.h)

    The GPU stores a texture in Morton order: the low bits of the coordinates
    interleaved, the remaining bits of the longer side above them.  The file
    describes the offset bit by bit, shows that different pixels of a texture
    get different offsets inside the texture, and that swizzling an image and
    unswizzling the result gives the image back. *)
From S2P Require Import Prelude.

(** [while (i >>= 1) { r++; }] *)
Fixpoint log2i_loop (fuel : nat) (i r : Z) : outcome Z :=
  let i := Z.shiftr i 1 in
  if i =? 0 then Ok r
  else match fuel with
       | O => NoFuel
       | S fuel => log2i_loop fuel i (u32 (r + 1))
       end.

Definition log2i (i : Z) : outcome Z := log2i_loop 32 i 0.

Definition spread_x (x : Z) : Z :=
  Z.lor (Z.shiftl (Z.land x 0x001) 0)
 (Z.lor (Z.shiftl (Z.land x 0x002) 1)
 (Z.lor (Z.shiftl (Z.land x 0x004) 2)
 (Z.lor (Z.shiftl (Z.land x 0x008) 3)
 (Z.lor (Z.shiftl (Z.land x 0x010) 4)
 (Z.lor (Z.shiftl (Z.land x 0x020) 5)
 (Z.lor (Z.shiftl (Z.land x 0x040) 6)
 (Z.lor (Z.shiftl (Z.land x 0x080) 7)
 (Z.lor (Z.shiftl (Z.land x 0x100) 8)
 (Z.lor (Z.shiftl (Z.land x 0x200) 9)
 (Z.lor (Z.shiftl (Z.land x 0x400) 10)
        (Z.shiftl (Z.land x 0x800) 11))))))))))).

Definition spread_y (y : Z) : Z :=
  Z.lor (Z.shiftl (Z.land y 0x001) 1)
 (Z.lor (Z.shiftl (Z.land y 0x002) 2)
 (Z.lor (Z.shiftl (Z.land y 0x004) 3)
 (Z.lor (Z.shiftl (Z.land y 0x008) 4)
 (Z.lor (Z.shiftl (Z.land y 0x010) 5)
 (Z.lor (Z.shiftl (Z.land y 0x020) 6)
 (Z.lor (Z.shiftl (Z.land y 0x040) 7)
 (Z.lor (Z.shiftl (Z.land y 0x080) 8)
 (Z.lor (Z.shiftl (Z.land y 0x100) 9)
 (Z.lor (Z.shiftl (Z.land y 0x200) 10)
 (Z.lor (Z.shiftl (Z.land y 0x400) 11)
        (Z.shiftl (Z.land y 0x800) 12))))))))))).

(** The position of a pixel in its texture, with [k] the logarithm of the
    shorter side; a shift of 32 or more is undefined. *)
Definition swizzled_index (x y k : Z) : outcome Z :=
  let u := spread_x x in
  let v := spread_y y in
  c_assert (2 * k <? 32);;
  Ok (Z.lor (Z.land (Z.lor u v) (Z.lnot (Z.shiftl (Z.lnot 0) (2 * k))))
     (Z.lor (u32 (Z.shiftl (Z.land x (Z.shiftl (Z.lnot 0) k)) k))
            (u32 (Z.shiftl (Z.land y (Z.shiftl (Z.lnot 0) k)) k)))).

Definition get_swizzled_offset (x y width height bytes_per_pixel : Z) : outcome Z :=
  k ← log2i (Z.min width height);
  i ← swizzled_index x y k;
  Ok (u32 (bytes_per_pixel * i)).

(** [memcpy(dst + doff, src + soff, n)]; a read outside [src] aborts. *)
Definition copy_pixel (src : list Z) (n : Z) (dst : list Z) (doff soff : Z) : outcome (list Z) :=
  c_assert (soff + n <=? Z.of_nat (length src));;
  memcpy dst doff (take (Z.to_nat n) (drop (Z.to_nat soff) src)).

(** The offset of a pixel in the flipped image. *)
Definition linear_offset (x y height pitch bytes_per_pixel : Z) : Z :=
  u32 ((height - y - 1) * pitch + x * bytes_per_pixel).

(** [for (y = 0; y < height; y++) for (x = 0; x < width; x++) body] *)
Definition for_pixels (width height : Z) (body : list Z -> Z -> Z -> outcome (list Z)) (dst : list Z) : outcome (list Z) :=
  ofold (fun dst y => ofold (fun dst x => body dst (Z.of_nat x) (Z.of_nat y)) dst (seq 0 (Z.to_nat width))) dst (seq 0 (Z.to_nat height)).

Definition flip_and_swizzle (src_buf : list Z) (width height : Z) (dst_buf : list Z) (src_pitch bytes_per_pixel : Z) : outcome (list Z) :=
  for_pixels width height (fun dst x y =>
    d ← get_swizzled_offset x y width height bytes_per_pixel;
    copy_pixel src_buf bytes_per_pixel dst d (linear_offset x y height src_pitch bytes_per_pixel)) dst_buf.

Definition unswizzle_and_flip (src_buf : list Z) (width height : Z) (dst_buf : list Z) (dst_pitch bytes_per_pixel : Z) : outcome (list Z) :=
  for_pixels width height (fun dst x y =>
    s ← get_swizzled_offset x y width height bytes_per_pixel;
    copy_pixel src_buf bytes_per_pixel dst (linear_offset x y height dst_pitch bytes_per_pixel) s) dst_buf.

(** ** The offset, bit by bit *)
Lemma log2i_loop_spec fuel : forall i r, 1 <= i < 2 ^ (Z.of_nat fuel + 1) -> 0 <= r -> r + Z.log2 i < 2 ^ 32 ->
  log2i_loop fuel i r = Ok (r + Z.log2 i).
Proof.
  induction fuel as [|fuel IH]; intros i r Hi Hr Hlt; cbn [log2i_loop].
  - change (2 ^ (Z.of_nat 0 + 1)) with 2 in Hi. assert (i = 1) as -> by lia. cbn. by rewrite Z.add_0_r.
  - destruct (Z.eqb_spec (Z.shiftr i 1) 0) as [E|E]; rewrite Z.shiftr_div_pow2 in E by lia; change (2 ^ 1) with 2 in E.
    + assert (i = 1) as -> by (pose proof (Z.div_mod i 2); pose proof (Z.mod_pos_bound i 2); lia). cbn. by rewrite Z.add_0_r.
    + assert (Hlog : Z.log2 (Z.shiftr i 1) = Z.log2 i - 1).
      { rewrite Z.log2_shiftr by lia. apply Z.max_r. enough (1 <= Z.log2 i) by lia. apply Z.log2_le_pow2; [lia|].
        change (2 ^ 1) with 2. destruct (Z.eq_dec i 1) as [->|]; [done|lia]. }
      assert (1 <= Z.log2 i) by (pose proof (Z.log2_nonneg (Z.shiftr i 1)); lia).
      assert (1 <= Z.shiftr i 1 < 2 ^ (Z.of_nat fuel + 1)).
      { rewrite Nat2Z.inj_succ, Z.add_succ_l, Z.pow_succ_r in Hi by lia. rewrite Z.shiftr_div_pow2 by lia. change (2 ^ 1) with 2.
        pose proof (Z.div_pos i 2). split; [lia|]. apply Z.div_lt_upper_bound; lia. }
      rewrite (wrap_small 32), IH, Hlog by lia. f_equal. lia.
Qed.

Lemma log2i_pow2 k : 0 <= k < 32 -> log2i (2 ^ k) = Ok k.
Proof.
  intros Hk. unfold log2i. rewrite log2i_loop_spec; rewrite ?Z.log2_pow2 by lia; try done; try lia.
  split; [pose proof (Z.pow_pos_nonneg 2 k); lia|]. apply Z.pow_lt_mono_r; lia.
Qed.

Lemma spread_bit x j s i : 0 <= j -> 0 <= s -> 0 <= i -> Z.testbit (Z.shiftl (Z.land x (2 ^ j)) s) i = Z.testbit x j && (i =? j + s).
Proof.
  intros Hj Hs Hi. rewrite Z.shiftl_spec, Z.land_spec by done. destruct (Z.eqb_spec i (j + s)) as [->|Hne].
  - replace (j + s - s) with j by lia. by rewrite Z.pow2_bits_true.
  - rewrite Z.pow2_bits_false by lia. by rewrite !andb_false_r.
Qed.

(** Enumerate the cases of [i] below [n]. *)
Ltac enum i n :=
  assert (exists m, i = Z.of_nat m /\ (m < n)%nat) as (? & -> & ?) by (exists (Z.to_nat i); lia);
  repeat match goal with
  | H : (?m < S _)%nat |- _ => is_var m; destruct m as [|m]; [clear H|apply Nat.succ_lt_mono in H]
  | H : (?m < 0)%nat |- _ => by apply Nat.nlt_0_r in H
  end.

(** The bits of an or of [spread_bit] terms. *)
Ltac spread_bits i :=
  rewrite !Z.lor_spec;
  change 0x001 with (2 ^ 0); change 0x002 with (2 ^ 1); change 0x004 with (2 ^ 2); change 0x008 with (2 ^ 3);
  change 0x010 with (2 ^ 4); change 0x020 with (2 ^ 5); change 0x040 with (2 ^ 6); change 0x080 with (2 ^ 7);
  change 0x100 with (2 ^ 8); change 0x200 with (2 ^ 9); change 0x400 with (2 ^ 10); change 0x800 with (2 ^ 11);
  rewrite !spread_bit by lia; destruct (Z.ltb_spec i 24);
  [ enum i 24%nat; cbn; by rewrite ?andb_true_r, ?andb_false_r, ?orb_false_r
  | rewrite andb_false_r; cbn [andb];
    repeat match goal with |- context [i =? ?c] => destruct (Z.eqb_spec i c); [lia|] end; by rewrite !andb_false_r ].

Lemma spread_x_bits x i : 0 <= i -> Z.testbit (spread_x x) i = Z.even i && (i <? 24) && Z.testbit x (i / 2).
Proof. intros Hi. unfold spread_x. spread_bits i. Qed.

Lemma spread_y_bits y i : 0 <= i -> Z.testbit (spread_y y) i = negb (Z.even i) && (i <? 24) && Z.testbit y (i / 2).
Proof. intros Hi. unfold spread_y. spread_bits i. Qed.

Lemma low_mask_bits n i : 0 <= n -> 0 <= i -> Z.testbit (Z.lnot (Z.shiftl (Z.lnot 0) n)) i = (i <? n).
Proof.
  intros Hn Hi. rewrite Z.lnot_spec, Z.shiftl_spec by done. destruct (Z.ltb_spec i n).
  - by rewrite Z.testbit_neg_r by lia.
  - by rewrite Z.lnot_spec, Z.bits_0 by lia.
Qed.

Lemma high_part_bits x k i : 0 <= k -> 0 <= i ->
  Z.testbit (u32 (Z.shiftl (Z.land x (Z.shiftl (Z.lnot 0) k)) k)) i = (i <? 32) && (2 * k <=? i) && Z.testbit x (i - k).
Proof.
  intros Hk Hi. rewrite wrap_land, Z.land_spec, Z.testbit_ones_nonneg, Z.shiftl_spec, Z.land_spec by lia.
  destruct (Z.ltb_spec i 32); [|by rewrite andb_false_r]. rewrite andb_true_r. cbn [andb].
  destruct (Z.leb_spec (2 * k) i).
  - rewrite Z.shiftl_spec, Z.lnot_spec, Z.bits_0 by lia. by rewrite andb_true_r.
  - destruct (Z.lt_ge_cases (i - k) 0); [by rewrite Z.testbit_neg_r|].
    rewrite Z.shiftl_spec, (Z.testbit_neg_r _ (i - k - k)) by lia. by rewrite andb_false_r.
Qed.

(** Below [2 k] the bits of [x] and [y] alternate; above it come the
    remaining bits. *)
Definition morton_bit (k x y i : Z) : bool :=
  if i <? 2 * k then (if Z.even i then Z.testbit x (i / 2) else Z.testbit y (i / 2))
  else (i <? 32) && (Z.testbit x (i - k) || Z.testbit y (i - k)).

Lemma swizzled_index_bits x y k : 0 <= k <= 12 ->
  exists idx, swizzled_index x y k = Ok idx /\ forall i, 0 <= i -> Z.testbit idx i = morton_bit k x y i.
Proof.
  intros Hk. unfold swizzled_index, morton_bit. replace (2 * k <? 32) with true by zbool. eexists. split; [reflexivity|]. intros i Hi.
  rewrite !Z.lor_spec, Z.land_spec, Z.lor_spec, spread_x_bits, spread_y_bits, low_mask_bits, !high_part_bits by lia.
  destruct (Z.ltb_spec i (2 * k)).
  - replace (i <? 24) with true by zbool. replace (2 * k <=? i) with false by zbool.
    rewrite !andb_false_r, !andb_true_r. cbn [andb]. rewrite !orb_false_r. by destruct (Z.even i); cbn [negb andb]; rewrite ?orb_false_r.
  - replace (2 * k <=? i) with true by zbool. rewrite !andb_false_r, !andb_true_r. cbn [orb]. by rewrite andb_orb_distrib_r.
Qed.

Lemma bits_range a n : 0 <= n -> (forall i, n <= i -> Z.testbit a i = false) -> 0 <= a < 2 ^ n.
Proof.
  intros Hn Hb. replace a with (Z.land a (Z.ones n)); [rewrite Z.land_ones by done; apply Z.mod_pos_bound; lia|].
  bits. rewrite Z.testbit_ones_nonneg by lia. destruct (Z.ltb_spec i n); [by rewrite andb_true_r|]. by rewrite Hb.
Qed.

(** ** Copying pixels to disjoint places *)
Section Copies.
Context {P : Type} `{EqDecision P} (src : list Z) (n : Z) (dof sof : P -> Z).
Hypothesis Hn : 0 <= n.

Definition copies (dst : list Z) (ps : list P) : outcome (list Z) := ofold (fun dst p => copy_pixel src n dst (dof p) (sof p)) dst ps.

Lemma copy_pixel_spec dst d s : 0 <= s -> s + n <= Z.of_nat (length src) -> 0 <= d -> d + n <= Z.of_nat (length dst) ->
  exists dst', copy_pixel src n dst d s = Ok dst' /\ length dst' = length dst /\
    (forall j, 0 <= j < n -> dst' !! Z.to_nat (d + j) = src !! Z.to_nat (s + j)) /\
    (forall i, 0 <= i -> i < d \/ d + n <= i -> dst' !! Z.to_nat i = dst !! Z.to_nat i).
Proof.
  intros Hs Hsl Hd Hdl. unfold copy_pixel. replace (s + n <=? _) with true by zbool. cbn [c_assert mbind outcome_bind].
  assert (Hlen : length (take (Z.to_nat n) (drop (Z.to_nat s) src)) = Z.to_nat n) by (rewrite length_take, length_drop; lia).
  destruct (memcpy_ok dst d (take (Z.to_nat n) (drop (Z.to_nat s) src))) as [dst' He]; [done|rewrite Hlen; lia|].
  exists dst'. split; [done|]. split; [by eapply memcpy_length|]. split.
  - intros j Hj. rewrite (memcpy_lookup _ _ _ _ _ He), Hlen. destruct (Nat.leb_spec (Z.to_nat d) (Z.to_nat (d + j))); [|lia].
    destruct (Nat.ltb_spec (Z.to_nat (d + j)) (Z.to_nat d + Z.to_nat n)); [|lia]. cbn [andb].
    rewrite lookup_take, decide_True, lookup_drop by lia. f_equal. lia.
  - intros i Hi Hout. rewrite (memcpy_lookup _ _ _ _ _ He), Hlen.
    destruct (Nat.leb_spec (Z.to_nat d) (Z.to_nat i)), (Nat.ltb_spec (Z.to_nat i) (Z.to_nat d + Z.to_nat n)); try done. lia.
Qed.

Lemma copies_spec ps : forall dst,
  (forall p, p ∈ ps -> 0 <= sof p /\ sof p + n <= Z.of_nat (length src) /\ 0 <= dof p /\ dof p + n <= Z.of_nat (length dst)) ->
  (forall p q, p ∈ ps -> q ∈ ps -> p <> q -> dof p + n <= dof q \/ dof q + n <= dof p) ->
  exists dst', copies dst ps = Ok dst' /\ length dst' = length dst /\
    (forall p j, p ∈ ps -> 0 <= j < n -> dst' !! Z.to_nat (dof p + j) = src !! Z.to_nat (sof p + j)) /\
    (forall i, 0 <= i -> (forall p, p ∈ ps -> i < dof p \/ dof p + n <= i) -> dst' !! Z.to_nat i = dst !! Z.to_nat i).
Proof.
  induction ps as [|p ps IH]; intros dst Hin Hdis; unfold copies; cbn [ofold].
  - exists dst. repeat split; try done. intros p j Hp. by apply elem_of_nil in Hp.
  - destruct (Hin p) as (Hs & Hsl & Hd & Hdl); [by left|].
    destruct (copy_pixel_spec dst (dof p) (sof p)) as (d1 & -> & Hl1 & Hc1 & Ho1); try done. cbn [mbind outcome_bind].
    destruct (IH d1) as (d2 & He & Hl2 & Hc2 & Ho2).
    { intros q Hq. rewrite Hl1. apply Hin. by right. }
    { intros q r Hq Hr. apply Hdis; by right. }
    exists d2. split; [done|]. split; [congruence|]. split.
    + intros q j Hq Hj. destruct (decide (q ∈ ps)) as [Hq'|Hq']; [by apply Hc2|]. apply elem_of_cons in Hq as [->|Hq]; [|done]. rewrite Ho2; [by apply Hc1|lia|].
      intros q Hq. destruct (Hdis p q) as [?|?]; [left|by right|set_solver|lia|lia].
    + intros i Hi Hout. rewrite Ho2, Ho1; try done; [apply Hout; left|]. intros q Hq. apply Hout. by right.
Qed.
End Copies.

Section Texture.
Variables (a b bpp : Z).
Hypothesis Ha : 0 <= a.
Hypothesis Hb : 0 <= b.
Hypothesis Hmin : Z.min a b <= 12.
Hypothesis Hab : a + b <= 31.
Hypothesis Hbpp : 0 < bpp.
Hypothesis Hsize : bpp * 2 ^ (a + b) < 2 ^ 32.

(** A pixel of the texture. *)
Definition pixel (x y : Z) : Prop := 0 <= x < 2 ^ a /\ 0 <= y < 2 ^ b.

Lemma index_exists x y : pixel x y -> exists idx, swizzled_index x y (Z.min a b) = Ok idx /\ 0 <= idx < 2 ^ (a + b).
Proof.
  intros [Hx Hy]. destruct (swizzled_index_bits x y (Z.min a b)) as (idx & He & Hbits); [lia|]. exists idx. split; [done|].
  apply bits_range; [lia|]. intros i Hi. rewrite Hbits by lia. unfold morton_bit. replace (i <? 2 * Z.min a b) with false by zbool.
  by rewrite (testbit_high x a), (testbit_high y b), andb_false_r by lia.
Qed.

Lemma index_inj x y x' y' idx : pixel x y -> pixel x' y' ->
  swizzled_index x y (Z.min a b) = Ok idx -> swizzled_index x' y' (Z.min a b) = Ok idx -> x = x' /\ y = y'.
Proof.
  intros [Hx Hy] [Hx' Hy'] H1 H2. destruct (swizzled_index_bits x y (Z.min a b)) as (i1 & E1 & B1); [lia|].
  destruct (swizzled_index_bits x' y' (Z.min a b)) as (i2 & E2 & B2); [lia|]. assert (i1 = i2) by congruence. subst i2. clear H1 H2 E1 E2.
  assert (Hbit : forall i, 0 <= i -> morton_bit (Z.min a b) x y i = morton_bit (Z.min a b) x' y' i).
  { intros i Hi. by rewrite <- B1, <- B2. }
  clear B1 B2. unfold morton_bit in Hbit. split; apply Z.bits_inj'; intros i Hi.
  - destruct (Z.lt_ge_cases i (Z.min a b)) as [Hlt|Hge].
    + specialize (Hbit (2 * i) ltac:(lia)). replace (2 * i <? _) with true in Hbit by zbool.
      by rewrite Z.even_mul, (Z.mul_comm 2 i), Z.div_mul in Hbit by lia.
    + destruct (Z.lt_ge_cases i a) as [Hia|Hia]; [|by rewrite !(testbit_high _ a)].
      specialize (Hbit (i + Z.min a b) ltac:(lia)). replace (_ <? 2 * _) with false in Hbit by zbool.
      replace (_ <? 32) with true in Hbit by zbool. replace (i + Z.min a b - Z.min a b) with i in Hbit by lia.
      by rewrite (testbit_high y b i), (testbit_high y' b i), !orb_false_r in Hbit by lia.
  - destruct (Z.lt_ge_cases i (Z.min a b)) as [Hlt|Hge].
    + specialize (Hbit (2 * i + 1) ltac:(lia)). replace (2 * i + 1 <? _) with true in Hbit by zbool.
      rewrite Z.even_add, Z.even_mul in Hbit. cbn in Hbit. by rewrite (Z.mul_comm 2 i), Z.div_add_l, Z.add_0_r in Hbit by lia.
    + destruct (Z.lt_ge_cases i b) as [Hib|Hib]; [|by rewrite !(testbit_high _ b)].
      specialize (Hbit (i + Z.min a b) ltac:(lia)). replace (_ <? 2 * _) with false in Hbit by zbool.
      replace (_ <? 32) with true in Hbit by zbool. replace (i + Z.min a b - Z.min a b) with i in Hbit by lia.
      by rewrite (testbit_high x a i), (testbit_high x' a i) in Hbit by lia.
Qed.

(** The position of a pixel in Morton order. *)
Definition morton (x y : Z) : Z := match swizzled_index x y (Z.min a b) with Ok i => i | _ => 0 end.

Lemma morton_range x y : pixel x y -> swizzled_index x y (Z.min a b) = Ok (morton x y) /\ 0 <= morton x y < 2 ^ (a + b).
Proof. intros Hp. unfold morton. destruct (index_exists x y Hp) as (i & -> & ?). done. Qed.

Lemma morton_inj x y x' y' : pixel x y -> pixel x' y' -> morton x y = morton x' y' -> x = x' /\ y = y'.
Proof.
  intros Hp Hp' He. destruct (morton_range x y Hp) as [H1 _], (morton_range x' y' Hp') as [H2 _]. rewrite <- He in H2.
  by eapply index_inj.
Qed.

Lemma swizzled_offset x y : pixel x y -> get_swizzled_offset x y (2 ^ a) (2 ^ b) bpp = Ok (bpp * morton x y).
Proof.
  intros Hp. destruct (morton_range x y Hp) as [He Hr]. unfold get_swizzled_offset.
  replace (Z.min (2 ^ a) (2 ^ b)) with (2 ^ Z.min a b).
  - rewrite log2i_pow2 by lia. cbn [mbind outcome_bind]. rewrite He. cbn [mbind outcome_bind]. rewrite (wrap_small 32); [done|]. nia.
  - destruct (Z.min_spec a b) as [[? ->]|[? ->]]; [rewrite Z.min_l|rewrite Z.min_r]; try done; apply Z.pow_le_mono_r; lia.
Qed.

(** ** Whole images *)
Definition pixels : list (Z * Z) :=
  y ← seq 0 (Z.to_nat (2 ^ b)); x ← seq 0 (Z.to_nat (2 ^ a)); [(Z.of_nat x, Z.of_nat y)].

Lemma elem_of_pixels p : p ∈ pixels <-> pixel (fst p) (snd p).
Proof.
  unfold pixels, pixel. rewrite list_elem_of_bind. setoid_rewrite list_elem_of_bind. setoid_rewrite list_elem_of_singleton.
  setoid_rewrite elem_of_seq. split.
  - intros (y & (x & -> & Hx) & Hy). cbn. lia.
  - destruct p as [x y]. cbn. intros [Hx Hy]. exists (Z.to_nat y). split; [|lia]. exists (Z.to_nat x). split; [|lia].
    f_equal; lia.
Qed.

Lemma for_pixels_flat (f g : list Z -> Z -> Z -> outcome (list Z)) dst :
  (forall d x y, pixel x y -> f d x y = g d x y) ->
  for_pixels (2 ^ a) (2 ^ b) f dst = ofold (fun d p => g d (fst p) (snd p)) dst pixels.
Proof.
  intros Hfg. unfold for_pixels, pixels. rewrite ofold_mbind. apply ofold_ext. intros s y Hy%elem_of_seq. rewrite ofold_mbind.
  apply ofold_ext. intros s' x Hx%elem_of_seq. cbn. rewrite Hfg by (unfold pixel; lia). by destruct (g s' _ _).
Qed.

Section Image.
Variable pitch : Z.
Hypothesis Hpitch : 2 ^ a * bpp <= pitch.
Hypothesis Hfit : 2 ^ b * pitch < 2 ^ 32.

Definition linear (p : Z * Z) : Z := (2 ^ b - snd p - 1) * pitch + fst p * bpp.

Lemma linear_offset_exact x y : pixel x y -> linear_offset x y (2 ^ b) pitch bpp = linear (x, y) /\
  0 <= linear (x, y) /\ linear (x, y) + bpp <= 2 ^ b * pitch.
Proof.
  intros [Hx Hy]. unfold linear_offset, linear. cbn [fst snd]. assert (0 <= (2 ^ b - y - 1) * pitch + x * bpp) by nia.
  assert ((2 ^ b - y - 1) * pitch + x * bpp + bpp <= 2 ^ b * pitch) by nia. rewrite (wrap_small 32) by lia. done.
Qed.

Lemma linear_disjoint p q : p ∈ pixels -> q ∈ pixels -> p <> q -> linear p + bpp <= linear q \/ linear q + bpp <= linear p.
Proof.
  intros [Hx Hy]%elem_of_pixels [Hx' Hy']%elem_of_pixels Hne. destruct p as [x y], q as [x' y']. cbn in *. unfold linear. cbn [fst snd].
  destruct (Z.lt_trichotomy y y') as [?|[->|?]].
  - right. nia.
  - destruct (Z.lt_trichotomy x x') as [?|[->|?]]; [left|done|right]; nia.
  - left. nia.
Qed.

Lemma morton_disjoint p q : p ∈ pixels -> q ∈ pixels -> p <> q ->
  bpp * morton (fst p) (snd p) + bpp <= bpp * morton (fst q) (snd q) \/ bpp * morton (fst q) (snd q) + bpp <= bpp * morton (fst p) (snd p).
Proof.
  intros Hp%elem_of_pixels Hq%elem_of_pixels Hne.
  destruct (Z.lt_trichotomy (morton (fst p) (snd p)) (morton (fst q) (snd q))) as [?|[He|?]]; [left; nia| |right; nia].
  destruct (morton_inj _ _ _ _ Hp Hq He). destruct p, q. cbn in *. by subst.
Qed.

Lemma swizzle_pixels src dst : Z.of_nat (length src) >= 2 ^ b * pitch -> Z.of_nat (length dst) >= bpp * 2 ^ (a + b) ->
  exists swz, flip_and_swizzle src (2 ^ a) (2 ^ b) dst pitch bpp = Ok swz /\ length swz = length dst /\
    forall p j, p ∈ pixels -> 0 <= j < bpp -> swz !! Z.to_nat (bpp * morton (fst p) (snd p) + j) = src !! Z.to_nat (linear p + j).
Proof.
  intros Hs Hd. unfold flip_and_swizzle.
  rewrite (for_pixels_flat _ (fun d x y => copy_pixel src bpp d (bpp * morton x y) (linear (x, y)))).
  2: { intros d x y Hp. rewrite swizzled_offset by done. cbn [mbind outcome_bind]. by destruct (linear_offset_exact x y Hp) as [-> _]. }
  destruct (copies_spec src bpp (fun p => bpp * morton (fst p) (snd p)) linear ltac:(lia) pixels dst) as (swz & He & Hl & Hc & _).
  - intros [x y] Hp%elem_of_pixels. destruct (linear_offset_exact x y Hp) as (_ & ? & ?), (morton_range x y Hp) as (_ & ?). cbn [fst snd]. nia.
  - apply morton_disjoint.
  - exists swz. split; [|done]. rewrite <- He. apply ofold_ext. by intros d [x y] _.
Qed.

Lemma unswizzle_pixels swz out : Z.of_nat (length swz) >= bpp * 2 ^ (a + b) -> Z.of_nat (length out) >= 2 ^ b * pitch ->
  exists img, unswizzle_and_flip swz (2 ^ a) (2 ^ b) out pitch bpp = Ok img /\ length img = length out /\
    (forall p j, p ∈ pixels -> 0 <= j < bpp -> img !! Z.to_nat (linear p + j) = swz !! Z.to_nat (bpp * morton (fst p) (snd p) + j)) /\
    (forall i, 0 <= i -> (forall p, p ∈ pixels -> i < linear p \/ linear p + bpp <= i) -> img !! Z.to_nat i = out !! Z.to_nat i).
Proof.
  intros Hs Hd. unfold unswizzle_and_flip.
  rewrite (for_pixels_flat _ (fun d x y => copy_pixel swz bpp d (linear (x, y)) (bpp * morton x y))).
  2: { intros d x y Hp. rewrite swizzled_offset by done. cbn [mbind outcome_bind]. by destruct (linear_offset_exact x y Hp) as [-> _]. }
  destruct (copies_spec swz bpp linear (fun p => bpp * morton (fst p) (snd p)) ltac:(lia) pixels out) as (img & He & Hl & Hc & Ho).
  - intros [x y] Hp%elem_of_pixels. destruct (linear_offset_exact x y Hp) as (_ & ? & ?), (morton_range x y Hp) as (_ & ?). cbn [fst snd]. nia.
  - apply linear_disjoint.
  - exists img. split; [|done]. rewrite <- He. apply ofold_ext. by intros d [x y] _.
Qed.
End Image.
End Texture.

(** C30 (roundtrip): Swizzling an image into a texture and unswizzling the texture
    gives the image back.  For sides that are powers of two, the shorter at
    most 4096, any pixel size and any row pitch that holds a row, both loops
    run without leaving a buffer; then every byte of every row of the result
    is the byte of the source, and the padding of the rows is untouched. *)
Theorem swizzle_roundtrip a b bpp pitch src tex out :
  0 <= a -> 0 <= b -> Z.min a b <= 12 -> a + b <= 31 -> 0 < bpp -> bpp * 2 ^ (a + b) < 2 ^ 32 ->
  2 ^ a * bpp <= pitch -> 2 ^ b * pitch < 2 ^ 32 ->
  Z.of_nat (length src) >= 2 ^ b * pitch -> Z.of_nat (length tex) >= bpp * 2 ^ (a + b) -> Z.of_nat (length out) >= 2 ^ b * pitch ->
  exists swz img, flip_and_swizzle src (2 ^ a) (2 ^ b) tex pitch bpp = Ok swz /\
    unswizzle_and_flip swz (2 ^ a) (2 ^ b) out pitch bpp = Ok img /\ length img = length out /\
    forall row col, 0 <= row < 2 ^ b -> 0 <= col < pitch ->
      img !! Z.to_nat (row * pitch + col) = if col <? 2 ^ a * bpp then src !! Z.to_nat (row * pitch + col) else out !! Z.to_nat (row * pitch + col).
Proof.
  intros Ha Hb Hmin Hab Hbpp Hsize Hpitch Hfit Hs Ht Ho.
  destruct (swizzle_pixels a b bpp Ha Hb Hmin Hab Hbpp Hsize pitch Hpitch Hfit src tex Hs Ht) as (swz & Hswz & Hl & Hc).
  edestruct (unswizzle_pixels a b bpp) with (pitch := pitch) (swz := swz) (out := out) as (img & Himg & Hli & Hci & Hoi); try done; [lia|].
  exists swz, img. split_and!; try done. intros row col Hrow Hcol. destruct (Z.ltb_spec col (2 ^ a * bpp)) as [Hin|Hout].
  - set (p := (col / bpp, 2 ^ b - 1 - row)). assert (Hp : p ∈ pixels a b).
    { apply elem_of_pixels; try done. split; cbn; [|lia]. split; [apply Z.div_pos; lia|apply Z.div_lt_upper_bound; lia]. }
    pose proof (Z.mod_pos_bound col bpp Hbpp) as Hj. pose proof (Z.div_mod col bpp) as Hdm.
    replace (row * pitch + col) with (linear b bpp pitch p + col mod bpp) by (unfold linear, p; cbn [fst snd]; lia).
    rewrite Hci, Hc by done. done.
  - apply Hoi; [nia|]. intros [x y] Hp%elem_of_pixels; try done. destruct Hp as [Hx Hy]. cbn [fst snd] in *. unfold linear. cbn [fst snd].
    destruct (Z.lt_ge_cases row (2 ^ b - y - 1)); [left; nia|right]. nia.
Qed.

Lemma swizzle_roundtrip_witness :
  exists swz img, flip_and_swizzle [1; 2; 9; 3; 4; 9; 5; 6; 9; 7; 8; 9] 2 4 (replicate 8 0) 3 1 = Ok swz /\
    unswizzle_and_flip swz 2 4 (replicate 12 0) 3 1 = Ok img /\ img !! Z.to_nat (1 * 3 + 1) = Some 4.
Proof.
  destruct (swizzle_roundtrip 1 2 1 3 [1; 2; 9; 3; 4; 9; 5; 6; 9; 7; 8; 9] (replicate 8 0) (replicate 12 0)) as (swz & img & H1 & H2 & _ & H3);
    try (cbn; lia).
  exists swz, img. split; [exact H1|]. split; [exact H2|]. rewrite (H3 1 1); [reflexivity|cbn; lia..].
Defined.
