(* ===== verification/I8259.v ===== *)
(** * The interrupt controllers (hw/intc/i8259.c, hw/intc/i8259_common.c)

    Two chips in cascade: the output of the slave is interrupt line 2 of the
    master, whose output goes to the CPU.  A chip operation returns the new
    chip and the level it drives its output to, if it calls
    [pic_update_irq]; [on_slave] and [on_master] propagate the level.  Debug
    counters and the monitor commands are left out. *)
From S2P Require Import Prelude.

Record PICCommonState := {
  last_irr : Z;
  irr : Z;
  imr : Z;
  isr : Z;
  priority_add : Z;
  irq_base : Z;
  read_reg_select : Z;
  poll : Z;
  special_mask : Z;
  init_state : Z;
  auto_eoi : Z;
  rotate_on_auto_eoi : Z;
  special_fully_nested_mode : Z;
  init4 : Z;
  single_mode : Z;
  elcr : Z;
  elcr_mask : Z;
  is_master : bool
}.

(** ** Assignments [s->field = v] *)
Definition pic_set_last_irr (v : Z) (s : PICCommonState) : PICCommonState :=
  let '(Build_PICCommonState _ x1 x2 x3 x4 x5 x6 x7 x8 x9 x10 x11 x12 x13 x14 x15 x16 x17) := s in
  Build_PICCommonState v x1 x2 x3 x4 x5 x6 x7 x8 x9 x10 x11 x12 x13 x14 x15 x16 x17.
Definition pic_set_irr (v : Z) (s : PICCommonState) : PICCommonState :=
  let '(Build_PICCommonState x0 _ x2 x3 x4 x5 x6 x7 x8 x9 x10 x11 x12 x13 x14 x15 x16 x17) := s in
  Build_PICCommonState x0 v x2 x3 x4 x5 x6 x7 x8 x9 x10 x11 x12 x13 x14 x15 x16 x17.
Definition pic_set_imr (v : Z) (s : PICCommonState) : PICCommonState :=
  let '(Build_PICCommonState x0 x1 _ x3 x4 x5 x6 x7 x8 x9 x10 x11 x12 x13 x14 x15 x16 x17) := s in
  Build_PICCommonState x0 x1 v x3 x4 x5 x6 x7 x8 x9 x10 x11 x12 x13 x14 x15 x16 x17.
Definition pic_set_isr (v : Z) (s : PICCommonState) : PICCommonState :=
  let '(Build_PICCommonState x0 x1 x2 _ x4 x5 x6 x7 x8 x9 x10 x11 x12 x13 x14 x15 x16 x17) := s in
  Build_PICCommonState x0 x1 x2 v x4 x5 x6 x7 x8 x9 x10 x11 x12 x13 x14 x15 x16 x17.
Definition pic_set_priority_add (v : Z) (s : PICCommonState) : PICCommonState :=
  let '(Build_PICCommonState x0 x1 x2 x3 _ x5 x6 x7 x8 x9 x10 x11 x12 x13 x14 x15 x16 x17) := s in
  Build_PICCommonState x0 x1 x2 x3 v x5 x6 x7 x8 x9 x10 x11 x12 x13 x14 x15 x16 x17.
Definition pic_set_irq_base (v : Z) (s : PICCommonState) : PICCommonState :=
  let '(Build_PICCommonState x0 x1 x2 x3 x4 _ x6 x7 x8 x9 x10 x11 x12 x13 x14 x15 x16 x17) := s in
  Build_PICCommonState x0 x1 x2 x3 x4 v x6 x7 x8 x9 x10 x11 x12 x13 x14 x15 x16 x17.
Definition pic_set_read_reg_select (v : Z) (s : PICCommonState) : PICCommonState :=
  let '(Build_PICCommonState x0 x1 x2 x3 x4 x5 _ x7 x8 x9 x10 x11 x12 x13 x14 x15 x16 x17) := s in
  Build_PICCommonState x0 x1 x2 x3 x4 x5 v x7 x8 x9 x10 x11 x12 x13 x14 x15 x16 x17.
Definition pic_set_poll (v : Z) (s : PICCommonState) : PICCommonState :=
  let '(Build_PICCommonState x0 x1 x2 x3 x4 x5 x6 _ x8 x9 x10 x11 x12 x13 x14 x15 x16 x17) := s in
  Build_PICCommonState x0 x1 x2 x3 x4 x5 x6 v x8 x9 x10 x11 x12 x13 x14 x15 x16 x17.
Definition pic_set_special_mask (v : Z) (s : PICCommonState) : PICCommonState :=
  let '(Build_PICCommonState x0 x1 x2 x3 x4 x5 x6 x7 _ x9 x10 x11 x12 x13 x14 x15 x16 x17) := s in
  Build_PICCommonState x0 x1 x2 x3 x4 x5 x6 x7 v x9 x10 x11 x12 x13 x14 x15 x16 x17.
Definition pic_set_init_state (v : Z) (s : PICCommonState) : PICCommonState :=
  let '(Build_PICCommonState x0 x1 x2 x3 x4 x5 x6 x7 x8 _ x10 x11 x12 x13 x14 x15 x16 x17) := s in
  Build_PICCommonState x0 x1 x2 x3 x4 x5 x6 x7 x8 v x10 x11 x12 x13 x14 x15 x16 x17.
Definition pic_set_auto_eoi (v : Z) (s : PICCommonState) : PICCommonState :=
  let '(Build_PICCommonState x0 x1 x2 x3 x4 x5 x6 x7 x8 x9 _ x11 x12 x13 x14 x15 x16 x17) := s in
  Build_PICCommonState x0 x1 x2 x3 x4 x5 x6 x7 x8 x9 v x11 x12 x13 x14 x15 x16 x17.
Definition pic_set_rotate_on_auto_eoi (v : Z) (s : PICCommonState) : PICCommonState :=
  let '(Build_PICCommonState x0 x1 x2 x3 x4 x5 x6 x7 x8 x9 x10 _ x12 x13 x14 x15 x16 x17) := s in
  Build_PICCommonState x0 x1 x2 x3 x4 x5 x6 x7 x8 x9 x10 v x12 x13 x14 x15 x16 x17.
Definition pic_set_special_fully_nested_mode (v : Z) (s : PICCommonState) : PICCommonState :=
  let '(Build_PICCommonState x0 x1 x2 x3 x4 x5 x6 x7 x8 x9 x10 x11 _ x13 x14 x15 x16 x17) := s in
  Build_PICCommonState x0 x1 x2 x3 x4 x5 x6 x7 x8 x9 x10 x11 v x13 x14 x15 x16 x17.
Definition pic_set_init4 (v : Z) (s : PICCommonState) : PICCommonState :=
  let '(Build_PICCommonState x0 x1 x2 x3 x4 x5 x6 x7 x8 x9 x10 x11 x12 _ x14 x15 x16 x17) := s in
  Build_PICCommonState x0 x1 x2 x3 x4 x5 x6 x7 x8 x9 x10 x11 x12 v x14 x15 x16 x17.
Definition pic_set_single_mode (v : Z) (s : PICCommonState) : PICCommonState :=
  let '(Build_PICCommonState x0 x1 x2 x3 x4 x5 x6 x7 x8 x9 x10 x11 x12 x13 _ x15 x16 x17) := s in
  Build_PICCommonState x0 x1 x2 x3 x4 x5 x6 x7 x8 x9 x10 x11 x12 x13 v x15 x16 x17.
Definition pic_set_elcr (v : Z) (s : PICCommonState) : PICCommonState :=
  let '(Build_PICCommonState x0 x1 x2 x3 x4 x5 x6 x7 x8 x9 x10 x11 x12 x13 x14 _ x16 x17) := s in
  Build_PICCommonState x0 x1 x2 x3 x4 x5 x6 x7 x8 x9 x10 x11 x12 x13 x14 v x16 x17.

Implicit Types (s : PICCommonState).

(** A register as a C condition. *)
Definition nz (z : Z) : bool := negb (z =? 0).

Definition irq_bit (n : Z) : Z := Z.shiftl 1 n.

(** [while ((mask & (1 << ((priority + s->priority_add) & 7))) == 0) priority++;] *)
Fixpoint priority_loop (fuel : nat) s (mask priority : Z) : outcome Z :=
  if Z.land mask (irq_bit (Z.land (priority + priority_add s) 7)) =? 0 then
    match fuel with
    | O => NoFuel
    | S fuel => priority_loop fuel s mask (priority + 1)
    end
  else Ok priority.

Definition get_priority s (mask : Z) : outcome Z :=
  if mask =? 0 then Ok 8 else priority_loop 8 s mask 0.

(** The in-service lines that [pic_get_irq] compares with. *)
Definition service_mask s : Z :=
  let mask := isr s in
  let mask := if nz (special_mask s) then Z.land mask (Z.lnot (imr s)) else mask in
  if nz (special_fully_nested_mode s) && is_master s then Z.land mask (Z.lnot (irq_bit 2)) else mask.

Definition pic_get_irq s : outcome Z :=
  let mask := Z.land (irr s) (Z.lnot (imr s)) in
  priority ← get_priority s mask;
  if priority =? 8 then Ok (-1)
  else
    cur_priority ← get_priority s (service_mask s);
    Ok (if priority <? cur_priority then Z.land (priority + priority_add s) 7 else -1).

(** The level of the output, as [pic_update_irq] drives it. *)
Definition pic_update_irq s : outcome (PICCommonState * option Z) :=
  irq ← pic_get_irq s;
  Ok (s, Some (if 0 <=? irq then 1 else 0)).

Definition pic_set_irq s (irq level : Z) : outcome (PICCommonState * option Z) :=
  let mask := irq_bit irq in
  let s :=
    if nz (Z.land (elcr s) mask) then
      if nz level then pic_set_last_irr (Z.lor (last_irr s) mask) (pic_set_irr (Z.lor (irr s) mask) s)
      else pic_set_last_irr (Z.land (last_irr s) (Z.lnot mask)) (pic_set_irr (Z.land (irr s) (Z.lnot mask)) s)
    else if nz level then
      let s := if Z.land (last_irr s) mask =? 0 then pic_set_irr (Z.lor (irr s) mask) s else s in
      pic_set_last_irr (Z.lor (last_irr s) mask) s
    else pic_set_last_irr (Z.land (last_irr s) (Z.lnot mask)) s in
  pic_update_irq s.

Definition pic_intack s (irq : Z) : outcome (PICCommonState * option Z) :=
  let s :=
    if nz (auto_eoi s) then
      if nz (rotate_on_auto_eoi s) then pic_set_priority_add (Z.land (irq + 1) 7) s else s
    else pic_set_isr (Z.lor (isr s) (irq_bit irq)) s in
  let s := if Z.land (elcr s) (irq_bit irq) =? 0 then pic_set_irr (Z.land (irr s) (Z.lnot (irq_bit irq))) s else s in
  pic_update_irq s.

Definition pic_reset_common s : PICCommonState :=
  {| last_irr := 0; irr := Z.land (irr s) (elcr s); imr := 0; isr := 0; priority_add := 0; irq_base := 0; read_reg_select := 0;
     poll := 0; special_mask := 0; init_state := 0; auto_eoi := 0; rotate_on_auto_eoi := 0; special_fully_nested_mode := 0;
     init4 := 0; single_mode := 0; elcr := elcr s; elcr_mask := elcr_mask s; is_master := is_master s |}.

Definition pic_init_reset s : outcome (PICCommonState * option Z) := pic_update_irq (pic_reset_common s).

Definition pic_reset s : outcome (PICCommonState * option Z) := pic_init_reset (pic_set_elcr 0 s).

(** An end of interrupt of line [irq]. *)
Definition clear_isr (irq : Z) s : PICCommonState := pic_set_isr (Z.land (isr s) (Z.lnot (irq_bit irq))) s.

(** A command word written to the first port. *)
Definition ocw2_write s (val : Z) : outcome (PICCommonState * option Z) :=
  let cmd := Z.shiftr val 5 in
  if (cmd =? 0) || (cmd =? 4) then Ok (pic_set_rotate_on_auto_eoi (Z.shiftr cmd 2) s, None)
  else if (cmd =? 1) || (cmd =? 5) then
    priority ← get_priority s (isr s);
    if priority =? 8 then Ok (s, None)
    else
      let irq := Z.land (priority + priority_add s) 7 in
      let s := clear_isr irq s in
      pic_update_irq (if cmd =? 5 then pic_set_priority_add (Z.land (irq + 1) 7) s else s)
  else if cmd =? 3 then pic_update_irq (clear_isr (Z.land val 7) s)
  else if cmd =? 6 then pic_update_irq (pic_set_priority_add (Z.land (val + 1) 7) s)
  else if cmd =? 7 then
    let irq := Z.land val 7 in
    pic_update_irq (pic_set_priority_add (Z.land (irq + 1) 7) (clear_isr irq s))
  else Ok (s, None).

Definition ocw3_write s (val : Z) : PICCommonState :=
  let s := if nz (Z.land val 0x04) then pic_set_poll 1 s else s in
  let s := if nz (Z.land val 0x02) then pic_set_read_reg_select (Z.land val 1) s else s in
  if nz (Z.land val 0x40) then pic_set_special_mask (Z.land (Z.shiftr val 5) 1) s else s.

Definition pic_ioport_write s (addr64 val64 : Z) : outcome (PICCommonState * option Z) :=
  let addr := u32 addr64 in
  let val := u32 val64 in
  if addr =? 0 then
    if nz (Z.land val 0x10) then
      '(s, out) ← pic_init_reset s;
      let s := pic_set_single_mode (Z.land val 2) (pic_set_init4 (Z.land val 1) (pic_set_init_state 1 s)) in
      if nz (Z.land val 0x08) then Abort else Ok (s, out)
    else if nz (Z.land val 0x08) then Ok (ocw3_write s val, None)
    else ocw2_write s val
  else if init_state s =? 0 then pic_update_irq (pic_set_imr (u8 val) s)
  else if init_state s =? 1 then
    Ok (pic_set_init_state (if nz (single_mode s) then (if nz (init4 s) then 3 else 0) else 2) (pic_set_irq_base (Z.land val 0xf8) s), None)
  else if init_state s =? 2 then Ok (pic_set_init_state (if nz (init4 s) then 3 else 0) s, None)
  else if init_state s =? 3 then
    Ok (pic_set_init_state 0 (pic_set_auto_eoi (Z.land (Z.shiftr val 1) 1) (pic_set_special_fully_nested_mode (Z.land (Z.shiftr val 4) 1) s)), None)
  else Ok (s, None).

Definition pic_ioport_read s (addr : Z) : outcome (PICCommonState * option Z * Z) :=
  if nz (poll s) then
    ret ← pic_get_irq s;
    if 0 <=? ret then
      '(s, out) ← pic_intack s ret;
      Ok (pic_set_poll 0 s, out, Z.lor ret 0x80)
    else Ok (pic_set_poll 0 s, None, 0)
  else Ok (s, None, if addr =? 0 then (if nz (read_reg_select s) then isr s else irr s) else imr s).

Definition pic_get_output s : outcome bool := irq ← pic_get_irq s; Ok (0 <=? irq).

Definition elcr_ioport_write s (val : Z) : PICCommonState := pic_set_elcr (u8 (Z.land val (elcr_mask s))) s.
Definition elcr_ioport_read s : Z := elcr s.

(** [i8259_init_chip] *)
Definition i8259_init_chip (master : bool) : PICCommonState :=
  {| last_irr := 0; irr := 0; imr := 0; isr := 0; priority_add := 0; irq_base := 0; read_reg_select := 0; poll := 0; special_mask := 0;
     init_state := 0; auto_eoi := 0; rotate_on_auto_eoi := 0; special_fully_nested_mode := 0; init4 := 0; single_mode := 0; elcr := 0;
     elcr_mask := if master then 0xf8 else 0xde; is_master := master |}.

(** ** The cascade

    [slave_out] and [cpu_irq] are the levels last driven by the two chips. *)
Record PICs := { isa_pic : PICCommonState; slave_pic : PICCommonState; slave_out : Z; cpu_irq : Z }.

Definition i8259_init : PICs :=
  {| isa_pic := i8259_init_chip true; slave_pic := i8259_init_chip false; slave_out := 0; cpu_irq := 0 |}.

(** The result of an operation on the master. *)
Definition on_master (p : PICs) (r : PICCommonState * option Z) : PICs :=
  {| isa_pic := fst r; slave_pic := slave_pic p; slave_out := slave_out p; cpu_irq := default (cpu_irq p) (snd r) |}.

(** The result of an operation on the slave: its output is line 2 of the
    master. *)
Definition on_slave (p : PICs) (r : PICCommonState * option Z) : outcome PICs :=
  let p := {| isa_pic := isa_pic p; slave_pic := fst r; slave_out := default (slave_out p) (snd r); cpu_irq := cpu_irq p |} in
  match snd r with
  | Some level => m ← pic_set_irq (isa_pic p) 2 level; Ok (on_master p m)
  | None => Ok p
  end.

(** The vector the CPU gets. *)
Definition pic_read_irq (p : PICs) : outcome (PICs * Z) :=
  irq ← pic_get_irq (isa_pic p);
  if 0 <=? irq then
    '(p, intno) ←
      (if irq =? 2 then
         irq2 ← pic_get_irq (slave_pic p);
         '(p, irq2) ← (if 0 <=? irq2 then r ← pic_intack (slave_pic p) irq2; p ← on_slave p r; Ok (p, irq2) else Ok (p, 7));
         Ok (p, irq_base (slave_pic p) + irq2)
       else Ok (p, irq_base (isa_pic p) + irq));
    r ← pic_intack (isa_pic p) irq;
    Ok (on_master p r, intno)
  else Ok (p, irq_base (isa_pic p) + 7).

(** [irq_set[n]]: the sixteen ISA lines. *)
Definition isa_set_irq (p : PICs) (n level : Z) : outcome PICs :=
  if n <? 8 then r ← pic_set_irq (isa_pic p) n level; Ok (on_master p r)
  else r ← pic_set_irq (slave_pic p) (n - 8) level; on_slave p r.

(** What happens to the controllers; a chip is named by [master]. *)
Variant pic_event :=
  | SetIrq (n level : Z)
  | ReadIrq
  | PortWrite (master : bool) (addr val : Z)
  | PortRead (master : bool) (addr : Z)
  | ElcrWrite (master : bool) (val : Z)
  | ResetChip (master : bool).

Definition chip (p : PICs) (master : bool) : PICCommonState := if master then isa_pic p else slave_pic p.

Definition on_chip (p : PICs) (master : bool) (r : PICCommonState * option Z) : outcome PICs :=
  if master then Ok (on_master p r) else on_slave p r.

Definition pic_step (p : PICs) (e : pic_event) : outcome PICs :=
  match e with
  | SetIrq n level => isa_set_irq p n level
  | ReadIrq => '(p, _) ← pic_read_irq p; Ok p
  | PortWrite m addr val => r ← pic_ioport_write (chip p m) addr val; on_chip p m r
  | PortRead m addr => '(r, _) ← pic_ioport_read (chip p m) addr; on_chip p m r
  | ElcrWrite m val => on_chip p m (elcr_ioport_write (chip p m) val, None)
  | ResetChip m => r ← pic_reset (chip p m); on_chip p m r
  end.

(** ** Priorities

    The rank of a line: 0 is the highest priority. *)
Definition rank s (n : Z) : Z := (n - priority_add s) mod 8.

Definition pending s (n : Z) : bool := Z.testbit (irr s) n && negb (Z.testbit (imr s) n).
Definition in_service s (n : Z) : bool := Z.testbit (service_mask s) n.

Record pic_wf s : Prop := {
  wf_last_irr : 0 <= last_irr s < 256;
  wf_irr : 0 <= irr s < 256;
  wf_imr : 0 <= imr s < 256;
  wf_isr : 0 <= isr s < 256;
  wf_padd : 0 <= priority_add s < 8;
  wf_elcr : 0 <= elcr s < 256;
  wf_elcr_mask : 0 <= elcr_mask s < 256
}.

Lemma irq_bit_spec n i : 0 <= n -> 0 <= i -> Z.testbit (irq_bit n) i = (i =? n).
Proof.
  intros. unfold irq_bit. rewrite Z.shiftl_1_l, Z.pow2_bits_eqb by lia. apply Z.eqb_sym.
Qed.

Lemma land_irq_bit x n : 0 <= n -> (Z.land x (irq_bit n) =? 0) = negb (Z.testbit x n).
Proof.
  intros Hn. destruct (Z.testbit x n) eqn:E; cbn.
  - apply Z.eqb_neq. intros H. apply (f_equal (fun z => Z.testbit z n)) in H.
    rewrite Z.land_spec, irq_bit_spec, E, Z.eqb_refl, Z.bits_0 in H by lia. done.
  - apply Z.eqb_eq, Z.bits_inj'. intros i Hi. rewrite Z.land_spec, irq_bit_spec, Z.bits_0 by lia.
    destruct (Z.eqb_spec i n) as [->|]; [by rewrite E|apply andb_false_r].
Qed.

Lemma land_7 z : Z.land z 7 = z mod 8.
Proof. change 7 with (Z.ones 3). by rewrite Z.land_ones by lia. Qed.

Lemma byte_bits_0 x : 0 <= x < 256 -> (forall i, 0 <= i < 8 -> Z.testbit x i = false) -> x = 0.
Proof.
  intros Hx H. apply Z.bits_inj'. intros i Hi. rewrite Z.bits_0.
  destruct (Z.lt_ge_cases i 8); [apply H; lia|]. by apply (testbit_high x 8).
Qed.

(** The loop stops at the first set line in the rotated order. *)
Lemma priority_loop_spec fuel s mask : forall priority,
  (exists q, priority <= q <= priority + Z.of_nat fuel /\ Z.testbit mask ((q + priority_add s) mod 8) = true) ->
  exists p, priority_loop fuel s mask priority = Ok p /\ priority <= p <= priority + Z.of_nat fuel /\
    Z.testbit mask ((p + priority_add s) mod 8) = true /\
    forall q, priority <= q < p -> Z.testbit mask ((q + priority_add s) mod 8) = false.
Proof.
  induction fuel as [|fuel IH]; intros priority (q & Hq & Hb); cbn [priority_loop];
    rewrite land_7, land_irq_bit by (apply Z.mod_pos_bound; lia);
    destruct (Z.testbit mask ((priority + priority_add s) mod 8)) eqn:E; cbn [negb].
  1, 3: exists priority; split_and!; [done|lia|lia|done|lia].
  - assert (q = priority) by lia. congruence.
  - destruct (IH (priority + 1)) as (p & -> & Hp & Hbp & Hlt).
    { exists q. split; [|done]. destruct (Z.eq_dec q priority); [congruence|lia]. }
    exists p. split_and!; [done|lia|lia|done|]. intros q' ?.
    destruct (Z.eq_dec q' priority) as [->|]; [done|apply Hlt; lia].
Qed.

(** [get_priority] returns the smallest rank of a line of [mask], 8 if there
    is none. *)
Lemma get_priority_spec s mask : 0 <= mask < 256 -> exists p, get_priority s mask = Ok p /\
  ((p = 8 /\ forall n, 0 <= n < 8 -> Z.testbit mask n = false) \/
   (0 <= p < 8 /\ Z.testbit mask ((p + priority_add s) mod 8) = true /\
    forall n, 0 <= n < 8 -> Z.testbit mask n = true -> p <= rank s n)).
Proof.
  intros Hm. unfold get_priority, rank. destruct (Z.eqb_spec mask 0) as [->|Hnz].
  { eexists. split; [done|]. left. split; [done|]. intros. apply Z.bits_0. }
  assert (Hbit : exists n, 0 <= n < 8 /\ Z.testbit mask n = true).
  { destruct (decide (Forall (fun n => Z.testbit mask n = false) (seqZ 0 8))) as [H|H].
    - destruct Hnz. apply byte_bits_0; [done|]. intros i Hi. eapply Forall_forall in H; [done|].
      apply elem_of_seqZ. lia.
    - apply not_Forall_Exists, Exists_exists in H; [|apply _]. destruct H as (n & Hn & Hb).
      apply elem_of_seqZ in Hn. exists n. split; [lia|]. by apply not_false_iff_true. }
  assert (Hrank : forall n, 0 <= n < 8 -> ((n - priority_add s) mod 8 + priority_add s) mod 8 = n).
  { intros n Hn. rewrite Zplus_mod_idemp_l, Z.sub_add. apply Z.mod_small. lia. }
  destruct Hbit as (n & Hn & Hb).
  destruct (priority_loop_spec 8 s mask 0) as (p & Hp & Hr & Hbp & Hlt).
  { exists ((n - priority_add s) mod 8). pose proof (Z.mod_pos_bound (n - priority_add s) 8).
    split; [lia|]. by rewrite Hrank. }
  assert (Hmin : forall k, 0 <= k < 8 -> Z.testbit mask k = true -> p <= (k - priority_add s) mod 8).
  { intros k Hk Hkb. destruct (Z.lt_ge_cases ((k - priority_add s) mod 8) p) as [Hc|]; [|lia].
    rewrite <- (Hrank k Hk), Hlt in Hkb; [done|]. pose proof (Z.mod_pos_bound (k - priority_add s) 8). lia. }
  exists p. split; [done|]. right. split_and!; [lia| |done|done].
  pose proof (Hmin n Hn Hb). pose proof (Z.mod_pos_bound (n - priority_add s) 8). lia.
Qed.

Lemma land_register x y : 0 <= x < 256 -> 0 <= Z.land x y < 256.
Proof.
  intros Hx. assert (Hn : 0 <= Z.land x y) by (apply Z.land_nonneg; lia). split; [done|].
  assert (Z.land x y = wrap 8 (Z.land x y)) as ->; [|apply (wrap_range 8); lia].
  rewrite wrap_land by lia. apply Z.bits_inj'. intros i Hi. rewrite !Z.land_spec.
  destruct (Z.lt_ge_cases i 8).
  - rewrite Z.ones_spec_low by lia. by rewrite andb_true_r.
  - by rewrite (testbit_high x 8).
Qed.

Lemma lor_register x y : 0 <= x < 256 -> 0 <= y < 256 -> 0 <= Z.lor x y < 256.
Proof. apply (lor_range 8). lia. Qed.

Lemma irq_bit_register n : 0 <= n < 8 -> 0 <= irq_bit n < 256.
Proof.
  intros. unfold irq_bit. rewrite Z.shiftl_1_l. pose proof (Z.pow_pos_nonneg 2 n).
  pose proof (Z.pow_lt_mono_r 2 n 8). lia.
Qed.

Lemma service_mask_byte s : pic_wf s -> 0 <= service_mask s < 256.
Proof. intros []. unfold service_mask. repeat case_match; repeat apply land_register; done. Qed.

Lemma pending_bit s n : 0 <= n -> Z.testbit (Z.land (irr s) (Z.lnot (imr s))) n = pending s n.
Proof. intros. unfold pending. by rewrite Z.land_spec, Z.lnot_spec. Qed.

(** What [pic_get_irq] may return. *)
Definition wanted s (r : Z) : Prop :=
  (r = -1 /\ forall n, 0 <= n < 8 -> pending s n = true ->
     exists m, 0 <= m < 8 /\ in_service s m = true /\ rank s m <= rank s n) \/
  (0 <= r < 8 /\ pending s r = true /\
   (forall n, 0 <= n < 8 -> pending s n = true -> rank s r <= rank s n) /\
   forall m, 0 <= m < 8 -> in_service s m = true -> rank s r < rank s m).

Lemma rank_line s p : 0 <= p < 8 -> rank s ((p + priority_add s) mod 8) = p.
Proof.
  intros. unfold rank. rewrite Zminus_mod_idemp_l. rewrite <- (Z.mod_small p 8) at 2 by lia. f_equal. lia.
Qed.

Lemma pic_get_irq_wanted s : pic_wf s -> exists r, pic_get_irq s = Ok r /\ wanted s r.
Proof.
  intros Hwf. unfold pic_get_irq.
  destruct (get_priority_spec s (Z.land (irr s) (Z.lnot (imr s)))) as (p & -> & Hp); [apply land_register, Hwf|].
  cbn [mbind outcome_bind]. destruct Hp as [[-> Hp]|(Hp & Hb & Hmin)]; [eexists; split; [done|]; left|].
  { split; [done|]. intros n Hn. rewrite <- pending_bit by lia. by rewrite Hp. }
  destruct (Z.eqb_spec p 8) as [|_]; [lia|].
  rewrite pending_bit in Hb by (apply Z.mod_pos_bound; lia).
  destruct (get_priority_spec s (service_mask s)) as (c & -> & Hc); [by apply service_mask_byte|].
  cbn [mbind outcome_bind]. eexists. split; [done|]. rewrite land_7.
  destruct (Z.ltb_spec p c).
  - right. rewrite rank_line by lia. split_and!; [apply Z.mod_pos_bound; lia|apply Z.mod_pos_bound; lia|done| |].
    + intros n Hn. rewrite <- pending_bit by lia. by apply Hmin.
    + intros m Hm Hs. destruct Hc as [[-> Hc]|(_ & _ & Hc)]; [|specialize (Hc m Hm Hs); lia].
      unfold in_service in Hs. by rewrite Hc in Hs.
  - left. split; [done|]. intros n Hn Hnp. destruct Hc as [[-> Hc]|(Hc & Hcb & _)]; [lia|].
    exists ((c + priority_add s) mod 8). rewrite rank_line by lia. split_and!; [apply Z.mod_pos_bound; lia|apply Z.mod_pos_bound; lia|done|].
    rewrite <- pending_bit in Hnp by lia. specialize (Hmin n Hn Hnp). lia.
Qed.

(** ** Operations keep the registers in range *)
(** The level [pic_update_irq] drives. *)
Definition output s : Z := match pic_get_irq s with Ok r => b2z (0 <=? r) | _ => 0 end.

(** A chip operation succeeded: the registers are in range and the output was
    driven to the level it should have. *)
Definition updated (r : PICCommonState * option Z) : Prop := pic_wf (fst r) /\ snd r = Some (output (fst r)).

Lemma update_updated s : pic_wf s -> exists r, pic_update_irq s = Ok r /\ updated r.
Proof.
  intros H. destruct (pic_get_irq_wanted s H) as (r & E & _). eexists. unfold pic_update_irq. rewrite E.
  split; [done|]. split; [done|]. cbn [fst snd]. unfold output. by rewrite E.
Qed.

Create HintDb pic.
#[export] Hint Resolve land_register lor_register irq_bit_register : pic.

Lemma pic_set_irq_total s irq level : pic_wf s -> 0 <= irq < 8 -> exists r, pic_set_irq s irq level = Ok r /\ updated r.
Proof.
  intros Hwf Hi. apply update_updated. destruct Hwf, s. cbn in *.
  repeat case_match; constructor; cbn; auto with pic.
Qed.

Lemma mod8_range z : 0 <= Z.land z 7 < 8.
Proof. rewrite land_7. apply Z.mod_pos_bound. lia. Qed.

#[export] Hint Resolve mod8_range : pic.

Lemma pic_intack_total s irq : pic_wf s -> 0 <= irq < 8 -> exists r, pic_intack s irq = Ok r /\ updated r.
Proof.
  intros Hwf Hi. apply update_updated. destruct Hwf, s. cbn in *.
  repeat case_match; constructor; cbn; auto with pic.
Qed.

Lemma pic_init_reset_total s : pic_wf s -> exists r, pic_init_reset s = Ok r /\ updated r /\ init_state (fst r) = 0.
Proof.
  intros []. destruct (update_updated (pic_reset_common s)) as (r & E & Hr).
  { constructor; cbn; auto with pic; lia. }
  exists r. split_and!; [done|done|]. unfold pic_update_irq in E.
  destruct (pic_get_irq _); cbn in E; [|done..]. by inversion E.
Qed.

Lemma pic_reset_total s : pic_wf s -> exists r, pic_reset s = Ok r /\ updated r.
Proof.
  intros Hwf. destruct (pic_init_reset_total (pic_set_elcr 0 s)) as (r & ? & ? & _); [|by exists r].
  destruct Hwf, s. constructor; cbn; auto with pic; lia.
Qed.

(** The output level after an operation that may leave the output alone. *)
Definition driven s (r : PICCommonState * option Z) : Prop :=
  pic_wf (fst r) /\ match snd r with Some level => level = output (fst r) | None => output (fst r) = output s end.

Lemma updated_driven s r : updated r -> driven s r.
Proof. intros [? E]. split; [done|]. by rewrite E. Qed.

Lemma driven_quiet s s' : pic_wf s' -> output s' = output s -> driven s (s', None).
Proof. done. Qed.

Lemma update_driven s s' : pic_wf s' -> exists r, pic_update_irq s' = Ok r /\ driven s r.
Proof. intros H. destruct (update_updated s' H) as (r & ? & ?). exists r. split; [done|]. by apply updated_driven. Qed.

(** A write that changes the special mask mode, or by the last initialisation word
    the special fully nested mode.  Such a write can change the wanted interrupt,
    and the code does not call [pic_update_irq]. *)
Definition mode_write s (addr val : Z) : bool :=
  if u32 addr =? 0 then
    negb (nz (Z.land (u32 val) 0x10)) && nz (Z.land (u32 val) 0x08) && nz (Z.land (u32 val) 0x40) &&
    negb (Z.land (Z.shiftr (u32 val) 5) 1 =? special_mask s)
  else (init_state s =? 3) && negb (Z.land (Z.shiftr (u32 val) 4) 1 =? special_fully_nested_mode s).

(** The write that asks for level sensitive lines. *)
Definition level_sensitive_write (addr val : Z) : bool :=
  (u32 addr =? 0) && nz (Z.land (u32 val) 0x10) && nz (Z.land (u32 val) 0x08).

Lemma clear_isr_wf irq s : pic_wf s -> pic_wf (clear_isr irq s).
Proof. intros []. destruct s. constructor; cbn in *; auto with pic. Qed.

Lemma set_priority_add_wf v s : 0 <= v < 8 -> pic_wf s -> pic_wf (pic_set_priority_add v s).
Proof. intros ? []. destruct s. constructor; cbn in *; auto with pic. Qed.

#[export] Hint Resolve clear_isr_wf set_priority_add_wf update_driven : pic.

Lemma ocw2_write_total s val : pic_wf s -> exists r, ocw2_write s val = Ok r /\ driven s r.
Proof.
  intros Hwf. unfold ocw2_write. destruct (get_priority_spec s (isr s) (wf_isr s Hwf)) as (p & -> & _).
  cbn [mbind outcome_bind]. destruct (_ || _).
  { eexists. split; [done|]. apply driven_quiet; destruct Hwf, s; [by constructor|done]. }
  destruct (_ || _).
  { destruct (p =? 8); [eexists; split; [done|]; by apply driven_quiet|].
    destruct (_ =? 5); auto with pic. }
  repeat (destruct (_ =? _); [auto with pic|]). eexists. split; [done|]. by apply driven_quiet.
Qed.

Lemma ocw3_write_driven s val : pic_wf s -> nz (Z.land val 0x40) && negb (Z.land (Z.shiftr val 5) 1 =? special_mask s) = false ->
  driven s (ocw3_write s val, None).
Proof.
  intros Hwf E. assert (Es : (if nz (Z.land val 0x40) then Z.land (Z.shiftr val 5) 1 else special_mask s) = special_mask s).
  { destruct (nz (Z.land val 0x40)); [|done]. by apply negb_false_iff, Z.eqb_eq in E. }
  unfold ocw3_write. apply driven_quiet; destruct Hwf, s; cbn in *; repeat case_match; cbn; try (by constructor); by rewrite ?Es.
Qed.

Lemma pic_ioport_write_total s addr val : pic_wf s ->
  if level_sensitive_write addr val then pic_ioport_write s addr val = Abort
  else exists r, pic_ioport_write s addr val = Ok r /\ pic_wf (fst r) /\ (mode_write s addr val = false -> driven s r).
Proof.
  intros Hwf. unfold level_sensitive_write, mode_write, pic_ioport_write.
  assert (Hd : forall x b, (exists r, x = Ok r /\ driven s r) -> exists r, x = Ok r /\ pic_wf (fst r) /\ (b = false -> driven s r)).
  { intros x b (r & ? & [? ?]). by exists r. }
  destruct (u32 addr =? 0); cbn [andb].
  - destruct (pic_init_reset_total s Hwf) as ([s' o] & -> & [Hwf' Ho] & _). cbn [mbind outcome_bind fst snd] in *.
    destruct (nz (Z.land _ 0x10)); cbn [andb negb]; destruct (nz (Z.land _ 0x08)) eqn:E8; cbn [andb]; [done| | |].
    + apply Hd. eexists. split; [done|]. rewrite Ho. destruct Hwf', s'. split; [by constructor|done].
    + eexists. split; [done|]. cbn [fst]. split; [|intros; by apply ocw3_write_driven].
      unfold ocw3_write. destruct Hwf, s. cbn in *. repeat case_match; by constructor.
    + by apply Hd, ocw2_write_total.
  - destruct (init_state s =? 0) eqn:E0.
    { apply Hd, update_driven. destruct Hwf, s. constructor; cbn in *; auto with pic. apply (wrap_range 8). lia. }
    destruct (init_state s =? 1); [|destruct (init_state s =? 2); [|destruct (init_state s =? 3)]].
    1, 2: apply Hd; eexists; split; [done|]; destruct Hwf, s; split; [by constructor|done].
    + eexists. split; [done|]. split; [destruct Hwf, s; by constructor|]. cbn [andb]. intros E%negb_false_iff%Z.eqb_eq. rewrite E.
      apply driven_quiet; destruct Hwf, s; [by constructor|done].
    + apply Hd. eexists. split; [done|]. by apply driven_quiet.
Qed.

Lemma wanted_line s r : wanted s r -> 0 <= r -> 0 <= r < 8.
Proof. intros [[-> _]|(? & _)] ?; lia. Qed.

Lemma pic_ioport_read_total s addr : pic_wf s -> exists r v, pic_ioport_read s addr = Ok (r, v) /\ driven s r.
Proof.
  intros Hwf. unfold pic_ioport_read. destruct (nz (poll s)); [|by do 2 eexists].
  destruct (pic_get_irq_wanted s Hwf) as (irq & -> & Hw). cbn [mbind outcome_bind].
  destruct (Z.leb_spec 0 irq).
  - destruct (pic_intack_total s irq Hwf (wanted_line _ _ Hw ltac:(done))) as ([s' o] & -> & [Hwf' Ho]).
    cbn [mbind outcome_bind fst snd] in *. do 2 eexists. split; [done|]. rewrite Ho. destruct Hwf', s'.
    split; [by constructor|done].
  - do 2 eexists. split; [done|]. apply driven_quiet; destruct Hwf, s; [by constructor|done].
Qed.

Lemma elcr_ioport_write_driven s val : pic_wf s -> driven s (elcr_ioport_write s val, None).
Proof.
  intros Hwf. apply driven_quiet; destruct Hwf, s; [|done]. constructor; cbn; try done. apply (wrap_range 8). lia.
Qed.

(** ** The lines of the cascade *)
Record pics_wf (p : PICs) : Prop := { wf_isa : pic_wf (isa_pic p); wf_slave : pic_wf (slave_pic p) }.

(** Both outputs show what their chip wants. *)
Record in_sync (p : PICs) : Prop := {
  sync_wf : pics_wf p;
  sync_slave : slave_out p = output (slave_pic p);
  sync_cpu : cpu_irq p = output (isa_pic p)
}.

(** What a guest and the board may do: lines are numbered up to 15, and the guest
    does not ask for level sensitive lines, which stops the emulator. *)
Definition accepted (e : pic_event) : bool :=
  match e with
  | SetIrq n _ => (0 <=? n) && (n <? 16)
  | PortWrite _ addr val => negb (level_sensitive_write addr val)
  | _ => true
  end.

Definition changes_mode (p : PICs) (e : pic_event) : bool :=
  match e with PortWrite m addr val => mode_write (chip p m) addr val | _ => false end.

(** No event of the run changes the special mask or the special fully nested mode. *)
Fixpoint modes_kept (p : PICs) (es : list pic_event) : bool :=
  match es with
  | [] => true
  | e :: es => negb (changes_mode p e) && match pic_step p e with Ok p => modes_kept p es | _ => false end
  end.

Lemma on_chip_wf p m r : pics_wf p -> pic_wf (fst r) -> exists p', on_chip p m r = Ok p' /\ pics_wf p'.
Proof.
  intros [? ?] Hr. destruct r as [s o], m; cbn in *; [by eexists|]. unfold on_slave. destruct o as [level|]; cbn; [|by eexists].
  destruct (pic_set_irq_total (isa_pic p) 2 level) as (m & -> & [? _]); [done|lia|]. by eexists.
Qed.

Lemma on_master_sync p r : in_sync p -> driven (isa_pic p) r -> in_sync (on_master p r).
Proof.
  intros [[? ?] ? ?] [? Hd]. destruct r as [s o]. constructor; cbn in *; [by constructor|done|].
  destruct o; cbn; congruence.
Qed.

Lemma on_slave_sync p r : in_sync p -> driven (slave_pic p) r -> exists p', on_slave p r = Ok p' /\ in_sync p'.
Proof.
  intros [[? ?] ? ?] [? Hd]. destruct r as [s [level|]]; unfold on_slave; cbn in *.
  - destruct (pic_set_irq_total (isa_pic p) 2 level) as (m & -> & [? Ho]); [done|lia|].
    cbn [mbind outcome_bind]. eexists. split; [done|]. constructor; cbn; [by constructor|done|]. by rewrite Ho.
  - eexists. split; [done|]. constructor; cbn; [by constructor|congruence|done].
Qed.

Lemma on_chip_sync p m r : in_sync p -> driven (chip p m) r -> exists p', on_chip p m r = Ok p' /\ in_sync p'.
Proof.
  destruct m; cbn; [|apply on_slave_sync]. intros. eexists. split; [done|]. by apply on_master_sync.
Qed.

Lemma chip_wf p m : in_sync p -> pic_wf (chip p m).
Proof. intros [[? ?] _ _]. by destruct m. Qed.

(** The chip that acknowledges is in sync with its output afterwards. *)
Lemma read_irq_sync p : in_sync p -> exists p' v, pic_read_irq p = Ok (p', v) /\ in_sync p'.
Proof.
  intros Hs. unfold pic_read_irq. destruct (pic_get_irq_wanted _ (chip_wf p true Hs)) as (irq & E & Hw).
  cbn [chip] in E, Hw. rewrite E. cbn [mbind outcome_bind]. destruct (Z.leb_spec 0 irq) as [Hi|]; [|by do 2 eexists].
  apply (wanted_line _ _ Hw) in Hi.
  assert (Hfin : forall q (v : Z), in_sync q -> exists p' v',
    (r ← pic_intack (isa_pic q) irq; Ok (on_master q r, v)) = Ok (p', v') /\ in_sync p').
  { intros q v Hq. destruct (pic_intack_total (isa_pic q) irq) as (r & -> & Hr); [apply (chip_wf q true Hq)|done|].
    do 2 eexists. split; [done|]. by apply on_master_sync, updated_driven. }
  destruct (irq =? 2); [|by apply Hfin].
  destruct (pic_get_irq_wanted _ (chip_wf p false Hs)) as (irq2 & E2 & Hw2). cbn [chip] in E2, Hw2. rewrite E2.
  cbn [mbind outcome_bind]. destruct (Z.leb_spec 0 irq2) as [Hi2|]; [|by apply Hfin].
  destruct (pic_intack_total _ irq2 (chip_wf p false Hs) (wanted_line _ _ Hw2 Hi2)) as (r & Ea & Hr).
  cbn [chip] in Ea. rewrite Ea. cbn [mbind outcome_bind]. destruct (on_slave_sync p r Hs (updated_driven _ _ Hr)) as (q & -> & Hq).
  cbn [mbind outcome_bind]. by apply Hfin.
Qed.

Lemma pic_step_sync p e : in_sync p -> accepted e = true -> changes_mode p e = false -> exists p', pic_step p e = Ok p' /\ in_sync p'.
Proof.
  intros Hs He Hm. destruct e as [n level| |m addr val|m addr|m val|m]; cbn [pic_step accepted changes_mode] in *.
  - apply andb_true_iff in He as [H0%Z.leb_le H16%Z.ltb_lt]. unfold isa_set_irq. destruct (Z.ltb_spec n 8).
    + destruct (pic_set_irq_total _ n level (chip_wf p true Hs)) as (r & E & Hr); [lia|]. cbn [chip] in E. rewrite E.
      eexists. split; [done|]. by apply on_master_sync, updated_driven.
    + destruct (pic_set_irq_total _ (n - 8) level (chip_wf p false Hs)) as (r & E & Hr); [lia|]. cbn [chip] in E. rewrite E.
      by apply on_slave_sync, updated_driven.
  - destruct (read_irq_sync p Hs) as (p' & v & -> & ?). by exists p'.
  - apply negb_true_iff in He. pose proof (pic_ioport_write_total _ addr val (chip_wf p m Hs)) as H. rewrite He in H.
    destruct H as (r & -> & _ & Hd). by apply on_chip_sync, Hd.
  - destruct (pic_ioport_read_total _ addr (chip_wf p m Hs)) as (r & v & -> & Hd). by apply on_chip_sync.
  - by apply on_chip_sync, elcr_ioport_write_driven, chip_wf.
  - destruct (pic_reset_total _ (chip_wf p m Hs)) as (r & -> & Hr). by apply on_chip_sync, updated_driven.
Qed.

(** The same registers with the lines brought up to date. *)
Definition refreshed (p : PICs) : PICs :=
  {| isa_pic := isa_pic p; slave_pic := slave_pic p; slave_out := output (slave_pic p); cpu_irq := output (isa_pic p) |}.

Lemma refreshed_sync p : pics_wf p -> in_sync (refreshed p).
Proof. intros [? ?]. constructor; [by constructor|done|done]. Qed.

(** A step depends on the registers only. *)
Lemma pic_step_refreshed p e : match pic_step p e, pic_step (refreshed p) e with
  | Ok p1, Ok p2 => isa_pic p1 = isa_pic p2 /\ slave_pic p1 = slave_pic p2
  | Ok _, _ | _, Ok _ => False
  | _, _ => True
  end.
Proof.
  assert (Hs : forall r, match on_slave p r, on_slave (refreshed p) r with
    | Ok p1, Ok p2 => isa_pic p1 = isa_pic p2 /\ slave_pic p1 = slave_pic p2 | Ok _, _ | _, Ok _ => False | _, _ => True end).
  { intros [s [level|]]; unfold on_slave; cbn; [|done]. by destruct (pic_set_irq _ 2 level). }
  assert (Hc : forall m r, match on_chip p m r, on_chip (refreshed p) m r with
    | Ok p1, Ok p2 => isa_pic p1 = isa_pic p2 /\ slave_pic p1 = slave_pic p2 | Ok _, _ | _, Ok _ => False | _, _ => True end) by (intros [] r; [done|apply Hs]).
  assert (Hchip : forall m, chip (refreshed p) m = chip p m) by (by intros []).
  destruct e as [n level| |m addr val|m addr|m val|m]; cbn [pic_step]; rewrite ?Hchip.
  - unfold isa_set_irq. cbn [isa_pic slave_pic refreshed]. destruct (n <? 8); destruct (pic_set_irq _ _ level); cbn [mbind outcome_bind]; try done. apply Hs.
  - unfold pic_read_irq. cbn [isa_pic slave_pic refreshed]. destruct (pic_get_irq (isa_pic p)) as [irq| |]; cbn [mbind outcome_bind]; try done. destruct (0 <=? irq); [|done].
    destruct (irq =? 2); cbn [mbind outcome_bind isa_pic refreshed]; [|destruct (pic_intack (isa_pic p) irq); cbn; done]. destruct (pic_get_irq (slave_pic p)) as [irq2| |]; cbn [mbind outcome_bind]; try done.
    destruct (0 <=? irq2); cbn [mbind outcome_bind isa_pic refreshed]; [|destruct (pic_intack (isa_pic p) irq); cbn; done].
    destruct (pic_intack (slave_pic p) irq2) as [r| |]; cbn [mbind outcome_bind]; try done. specialize (Hs r).
    destruct (on_slave p r) as [p1| |], (on_slave (refreshed p) r) as [p2| |]; cbn [mbind outcome_bind]; try done. destruct Hs as [-> ?]. destruct (pic_intack (isa_pic p2) irq); cbn; done.
  - destruct (pic_ioport_write _ addr val); cbn [mbind outcome_bind]; try done. apply Hc.
  - destruct (pic_ioport_read _ addr) as [[r v]| |]; cbn [mbind outcome_bind]; try done. apply Hc.
  - apply Hc.
  - destruct (pic_reset _); cbn [mbind outcome_bind]; try done. apply Hc.
Qed.

Lemma pic_step_wf p e : pics_wf p -> accepted e = true -> exists p', pic_step p e = Ok p' /\ pics_wf p'.
Proof.
  intros Hw He. destruct (changes_mode p e) eqn:Em.
  - destruct e as [| |m addr val| | |]; try done. cbn [changes_mode accepted pic_step] in *. apply negb_true_iff in He.
    pose proof (pic_ioport_write_total (chip p m) addr val (chip_wf _ m (refreshed_sync p Hw))) as H. rewrite He in H. destruct H as (r & -> & Hr & _). by apply on_chip_wf.
  - destruct (pic_step_sync (refreshed p) e) as (p2 & E2 & [[W1 W2] _ _]); [by apply refreshed_sync|done|by destruct e as [| |[] ? ?| | |]|].
    pose proof (pic_step_refreshed p e) as H. rewrite E2 in H. destruct (pic_step p e) as [p1| |]; try done. destruct H as [H1 H2]. exists p1. split; [done|]. by constructor; rewrite ?H1, ?H2.
Qed.

Lemma i8259_init_sync : in_sync i8259_init.
Proof. by repeat constructor. Qed.

(** C9 (invariant): from power-on, any sequence of line changes, interrupt
    acknowledgements, port and trigger-mode accesses and resets runs without
    an error, unless the guest asks for level sensitive lines in an
    initialisation word, which [hw_error] refuses.  As long as no write changes
    the special mask mode or the special fully nested mode, the line to the CPU
    and the line from the slave to the master then show whether the respective
    chip wants an interrupt: the usual initialisation sequence is among them.
    After a write that changes one of the two modes a line can be stale, see
    [special_mask_stale]. *)
Theorem pics_in_sync es : Forall (fun e => accepted e = true) es ->
  exists p, ofold pic_step i8259_init es = Ok p /\ pics_wf p /\ (modes_kept i8259_init es = true -> in_sync p).
Proof.
  assert (H : forall p, pics_wf p -> Forall (fun e => accepted e = true) es ->
    exists p', ofold pic_step p es = Ok p' /\ pics_wf p' /\ (in_sync p -> modes_kept p es = true -> in_sync p')).
  { induction es as [|e es IH]; intros p Hw He; [by exists p|]. apply Forall_cons in He as [He Hes]. cbn [ofold modes_kept].
    destruct (pic_step_wf p e Hw He) as (p1 & E1 & W1). rewrite E1. cbn [mbind outcome_bind]. destruct (IH p1 W1 Hes) as (p2 & -> & W2 & S2).
    exists p2. split_and!; [done|done|]. intros Hs [Hm%negb_true_iff Hk]%andb_true_iff. apply S2; [|done].
    destruct (pic_step_sync p e Hs He Hm) as (p1' & E1' & S1). congruence. }
  intros He. destruct (H i8259_init) as (p & E & W & S); [by repeat constructor|done|]. exists p. split_and!; [done|done|]. by apply S, i8259_init_sync.
Qed.

(** Both chips are initialised with four words, line 10 and line 3 are raised and
    one is acknowledged. *)
Lemma pics_in_sync_witness : exists p, ofold pic_step i8259_init
    [PortWrite true 0 0x11; PortWrite true 1 0x20; PortWrite true 1 4; PortWrite true 1 1; PortWrite false 0 0x11; PortWrite false 1 0x28;
     PortWrite false 1 2; PortWrite false 1 1; PortWrite true 1 0xf2; SetIrq 10 1; SetIrq 3 1; ReadIrq] = Ok p /\
  pics_wf p /\ (true = true -> in_sync p).
Proof. apply (pics_in_sync [PortWrite true 0 0x11; PortWrite true 1 0x20; PortWrite true 1 4; PortWrite true 1 1; PortWrite false 0 0x11; PortWrite false 1 0x28;
     PortWrite false 1 2; PortWrite false 1 1; PortWrite true 1 0xf2; SetIrq 10 1; SetIrq 3 1; ReadIrq]). by repeat constructor. Defined.

(** In a chip with registers in range, [pic_get_irq] finds
    the pending unmasked line of the highest rotated priority if that
    priority exceeds all lines in service, and -1 exactly when every pending
    line is held back by a line in service. *)
Theorem pic_get_irq_spec s : pic_wf s -> exists r, pic_get_irq s = Ok r /\ wanted s r.
Proof. apply pic_get_irq_wanted. Qed.

(** Line 5 is pending behind a rotated priority while line 6 is in service. *)
Lemma pic_get_irq_spec_witness :
  exists r, pic_get_irq (pic_set_priority_add 5 (pic_set_isr 0x40 (pic_set_irr 0x21 (i8259_init_chip true)))) = Ok r /\
    wanted (pic_set_priority_add 5 (pic_set_isr 0x40 (pic_set_irr 0x21 (i8259_init_chip true)))) r.
Proof. apply pic_get_irq_spec. constructor; split; first [discriminate|reflexivity]. Defined.

Lemma service_mask_plain s : special_mask s = 0 -> special_fully_nested_mode s = 0 -> service_mask s = isr s.
Proof. intros E1 E2. unfold service_mask. by rewrite E1, E2. Qed.

(** The chip after [pic_intack] of a line in normal mode. *)
Lemma pic_intack_normal s r : pic_wf s -> 0 <= r < 8 -> auto_eoi s = 0 -> exists s' o,
  pic_intack s r = Ok (s', o) /\ pic_wf s' /\ isr s' = Z.lor (isr s) (irq_bit r) /\ priority_add s' = priority_add s /\
  special_mask s' = special_mask s /\ special_fully_nested_mode s' = special_fully_nested_mode s /\
  irr s' = if Z.testbit (elcr s) r then irr s else Z.land (irr s) (Z.lnot (irq_bit r)).
Proof.
  intros Hwf Hr Ha. destruct (pic_intack_total s r Hwf Hr) as ([s' o] & E & [Hwf' _]). exists s', o.
  split; [done|]. split; [done|]. unfold pic_intack, pic_update_irq in E. rewrite Ha in E. cbn [nz Z.eqb negb] in E.
  destruct s. cbn in E |- *. rewrite land_irq_bit in E by lia.
  destruct (Z.testbit _ r); cbn in E; destruct (pic_get_irq _); cbn in E; try done; by inversion E.
Qed.

(** A non-specific end of interrupt clears the line of the highest priority. *)
Lemma ocw2_eoi s r : pic_wf s -> 0 <= r < 8 -> Z.testbit (isr s) r = true ->
  (forall n, 0 <= n < 8 -> Z.testbit (isr s) n = true -> rank s r <= rank s n) ->
  exists o, pic_ioport_write s 0 0x20 = Ok (clear_isr r s, o).
Proof.
  intros Hwf Hr Hb Hmin. change (pic_ioport_write s 0 0x20) with (ocw2_write s 0x20).
  change (ocw2_write s 0x20) with (priority ← get_priority s (isr s);
    if priority =? 8 then Ok (s, None) else pic_update_irq (clear_isr (Z.land (priority + priority_add s) 7) s)).
  destruct (get_priority_spec s (isr s) (wf_isr s Hwf)) as (p & -> & [[-> Hp]|(Hp & Hbp & Hle)]); [by rewrite Hp in Hb|].
  cbn [mbind outcome_bind]. destruct (Z.eqb_spec p 8); [lia|].
  assert (Hpr : p = rank s r).
  { pose proof (Hle r Hr Hb). specialize (Hmin _ (Z.mod_pos_bound (p + priority_add s) 8 ltac:(lia)) Hbp).
    rewrite rank_line in Hmin by lia. lia. }
  assert (Z.land (p + priority_add s) 7 = r) as ->.
  { rewrite land_7, Hpr. unfold rank. rewrite Zplus_mod_idemp_l, Z.sub_add. apply Z.mod_small. lia. }
  destruct (update_updated (clear_isr r s)) as ([s' o] & E & _); [by apply clear_isr_wf|].
  rewrite E. unfold pic_update_irq in E. destruct (pic_get_irq _); cbn in E; try done. inversion E. by eexists.
Qed.

(** Normal operation: fully nested mode with explicit ends of interrupt. *)
Record fully_nested s : Prop := {
  fn_wf : pic_wf s;
  fn_special : special_mask s = 0;
  fn_sfnm : special_fully_nested_mode s = 0;
  fn_auto : auto_eoi s = 0;
  fn_init : init_state s = 0
}.

(** What may happen to a chip while an interrupt is served: lines change, the guest
    rewrites the mask, and interrupts the chip wants are acknowledged and served
    to their own end of interrupt. *)
Inductive nested : PICCommonState -> PICCommonState -> Prop :=
  | nested_refl s : nested s s
  | nested_line s s1 s2 n level o : nested s s1 -> 0 <= n < 8 -> pic_set_irq s1 n level = Ok (s2, o) -> nested s s2
  | nested_mask s s1 s2 val o : nested s s1 -> pic_ioport_write s1 1 val = Ok (s2, o) -> nested s s2
  | nested_service s s1 s2 s3 s4 n o o' : nested s s1 -> pic_get_irq s1 = Ok n -> 0 <= n -> pic_intack s1 n = Ok (s2, o) ->
      nested s2 s3 -> pic_ioport_write s3 0 0x20 = Ok (s4, o') -> nested s s4.

(** What [nested] leaves alone. *)
Definition service_state s := (isr s, priority_add s).

Lemma update_same s s' o : pic_update_irq s = Ok (s', o) -> s' = s.
Proof. unfold pic_update_irq. destruct (pic_get_irq s); cbn; [|done..]. by intros [= <- _]. Qed.

Lemma set_irq_nested s n level s' o : fully_nested s -> 0 <= n < 8 -> pic_set_irq s n level = Ok (s', o) -> fully_nested s' /\ service_state s' = service_state s.
Proof.
  intros [Hw H1 H2 H3 H4] Hn E. destruct (pic_set_irq_total s n level Hw Hn) as (r & E' & [Hw' _]). rewrite E in E'. injection E' as <-. cbn [fst] in Hw'.
  unfold pic_set_irq in E. apply update_same in E. subst s'.
  split; [split; [done|..]|]; destruct s; cbn in *; repeat case_match; done.
Qed.

Lemma mask_nested s val s' o : fully_nested s -> pic_ioport_write s 1 val = Ok (s', o) -> fully_nested s' /\ service_state s' = service_state s.
Proof.
  intros [Hw H1 H2 H3 H4]. unfold pic_ioport_write. change (u32 1 =? 0) with false. cbn match. rewrite H4. cbn [Z.eqb]. intros ->%update_same.
  split; [split|]; try (by destruct s). destruct Hw, s. constructor; cbn in *; auto with pic. apply (wrap_range 8). lia.
Qed.

(** The chip after [pic_intack] of a line it wants: the line is in service, above
    all others. *)
Lemma intack_nested s r s' o : fully_nested s -> pic_get_irq s = Ok r -> 0 <= r -> pic_intack s r = Ok (s', o) ->
  fully_nested s' /\ 0 <= r < 8 /\ priority_add s' = priority_add s /\ isr s' = Z.lor (isr s) (irq_bit r) /\
  (forall m, 0 <= m < 8 -> Z.testbit (isr s) m = true -> rank s r < rank s m) /\ (Z.testbit (elcr s) r = false -> pending s' r = false).
Proof.
  intros [Hw H1 H2 H3 H4] Hg Hr0 Ei. destruct (pic_get_irq_wanted s Hw) as (r' & E & Hwt). rewrite Hg in E. injection E as <-.
  pose proof (wanted_line s r Hwt Hr0) as Hr. destruct Hwt as [[-> _]|(_ & _ & _ & Hsv)]; [lia|].
  destruct (pic_intack_normal s r Hw Hr H3) as (s1 & o1 & Ei' & Hw1 & Eisr & Epa & Esm & Efn & Eirr). rewrite Ei in Ei'. injection Ei' as -> ->.
  split; [split; try congruence|].
  - unfold pic_intack in Ei. rewrite H3 in Ei. cbn [nz Z.eqb negb] in Ei. apply update_same in Ei. subst s1. destruct s. cbn in *. by destruct (_ =? 0).
  - unfold pic_intack in Ei. rewrite H3 in Ei. cbn [nz Z.eqb negb] in Ei. apply update_same in Ei. subst s1. destruct s. cbn in *. by destruct (_ =? 0).
  - do 3 (split; [done|]). split.
    + intros m Hm Hb. apply Hsv; [done|]. unfold in_service. by rewrite service_mask_plain.
    + intros He. unfold pending. rewrite Eirr, He, Z.land_spec, Z.lnot_spec, irq_bit_spec, Z.eqb_refl by lia. cbn. by rewrite andb_false_r.
Qed.

Lemma lor_clear x r : 0 <= r -> Z.testbit x r = false -> Z.land (Z.lor x (irq_bit r)) (Z.lnot (irq_bit r)) = x.
Proof.
  intros Hr Hb. apply Z.bits_inj'. intros i Hi. rewrite Z.land_spec, Z.lor_spec, Z.lnot_spec, irq_bit_spec by lia.
  destruct (Z.eqb_spec i r) as [->|]; cbn [negb]; [by rewrite andb_false_r|by rewrite orb_false_r, andb_true_r].
Qed.

(** The end of interrupt of the line [r] on top of the lines [isr s]. *)
Lemma eoi_nested s s' r : fully_nested s' -> 0 <= r < 8 -> priority_add s' = priority_add s -> isr s' = Z.lor (isr s) (irq_bit r) ->
  (forall m, 0 <= m < 8 -> Z.testbit (isr s) m = true -> rank s r < rank s m) ->
  exists s2 o, pic_ioport_write s' 0 0x20 = Ok (s2, o) /\ fully_nested s2 /\ service_state s2 = service_state s.
Proof.
  intros [Hw H1 H2 H3 H4] Hr Hp Hi Htop. assert (Hrank : forall n, rank s' n = rank s n) by (intros; unfold rank; by rewrite Hp).
  destruct (ocw2_eoi s' r Hw Hr) as (o & E).
  - rewrite Hi, Z.lor_spec, irq_bit_spec, Z.eqb_refl by lia. apply orb_true_r.
  - intros n Hn. rewrite Hi, Z.lor_spec, irq_bit_spec, !Hrank by lia. destruct (Z.eqb_spec n r) as [->|]; [lia|]. rewrite orb_false_r. intros Hb. specialize (Htop n Hn Hb). lia.
  - exists (clear_isr r s'), o. split; [done|]. split.
    + split; [by apply clear_isr_wf|by destruct s'..].
    + unfold service_state. assert (Hc : isr (clear_isr r s') = Z.land (isr s') (Z.lnot (irq_bit r))) by (by destruct s').
      assert (Hq : priority_add (clear_isr r s') = priority_add s') by (by destruct s'). rewrite Hc, Hq, Hp, Hi, lor_clear; [done|lia|].
      destruct (Z.testbit (isr s) r) eqn:Eb; [|done]. specialize (Htop r Hr Eb). lia.
Qed.

Lemma nested_keeps s s' : nested s s' -> fully_nested s -> fully_nested s' /\ service_state s' = service_state s.
Proof.
  induction 1 as [s|s s1 s2 n level o _ IH Hn E|s s1 s2 val o _ IH E|s s1 s2 s3 s4 n o o' _ IH1 Hg Hn Ei _ IH2 Eo]; intros Hf; [done|..]; try destruct (IH Hf) as [Hf1 E1].
  - rewrite <- E1. by apply (set_irq_nested s1 n level s2 o).
  - rewrite <- E1. by apply (mask_nested s1 val s2 o).
  - destruct (IH1 Hf) as [Hf1 E1]. destruct (intack_nested s1 n s2 o Hf1 Hg Hn Ei) as (Hf2 & Hr & Hp & Hi & Htop & _). destruct (IH2 Hf2) as [Hf3 E3]. injection E3 as Ei3 Ep3.
    destruct (eoi_nested s1 s3 n Hf3 Hr) as (s5 & o5 & E5 & Hf5 & E6); [congruence|congruence|done|]. rewrite Eo in E5. injection E5 as -> ->. split; [done|congruence].
Qed.

(** C21 (roundtrip): in fully nested mode with explicit ends of interrupt, an
    acknowledged line is in service, and the request of an edge-triggered line is
    gone.  Whatever requests arrive or go, however the guest sets the mask and
    whatever other interrupts are acknowledged and served to their end meanwhile,
    the line stays in service and only lines of strictly higher priority are
    wanted; the non-specific end of interrupt then ends that line and no other, so
    the lines in service are those of before the acknowledgement. *)
Theorem intack_eoi s r : fully_nested s -> pic_get_irq s = Ok r -> 0 <= r -> exists s1 o1,
  pic_intack s r = Ok (s1, o1) /\ (Z.testbit (elcr s) r = false -> pending s1 r = false) /\
  forall s', nested s1 s' -> in_service s' r = true /\
    (forall n, pic_get_irq s' = Ok n -> 0 <= n -> rank s' n < rank s' r) /\
    exists s2 o2, pic_ioport_write s' 0 0x20 = Ok (s2, o2) /\ isr s2 = isr s.
Proof.
  intros Hf Hg Hr0. pose proof Hf as [Hw _ _ _ _]. destruct (pic_get_irq_wanted s Hw) as (r' & E & Hwt). rewrite Hg in E. injection E as <-.
  destruct (pic_intack_total s r Hw (wanted_line s r Hwt Hr0)) as ([s1 o1] & Ei & _). exists s1, o1. split; [done|].
  destruct (intack_nested s r s1 o1 Hf Hg Hr0 Ei) as (Hf1 & Hr & Hp & Hi & Htop & Hedge). split; [done|]. intros s' Hn.
  destruct (nested_keeps s1 s' Hn Hf1) as [Hf' Es]. injection Es as Ei' Ep'. pose proof Hf' as [Hw' Hs' Hn' _ _].
  assert (Hserv : in_service s' r = true).
  { unfold in_service. rewrite service_mask_plain, Ei', Hi, Z.lor_spec, irq_bit_spec, Z.eqb_refl by (done || lia). apply orb_true_r. }
  split; [done|]. split.
  - intros n En Hn0. destruct (pic_get_irq_wanted s' Hw') as (n' & En' & Hwn). rewrite En in En'. injection En' as <-.
    destruct Hwn as [[-> _]|(_ & _ & _ & Hlt)]; [lia|]. by apply Hlt.
  - destruct (eoi_nested s s' r Hf' Hr) as (s2 & o2 & E2 & _ & E3); [congruence|congruence|done|]. exists s2, o2. split; [done|]. by injection E3.
Qed.

(** Line 1 is acknowledged while line 4 is in service; line 0 arrives, is
    acknowledged and served before the end of interrupt of line 1. *)
Lemma intack_eoi_witness : let s := pic_set_isr 0x10 (pic_set_irr 0x82 (i8259_init_chip true)) in exists s1 o1,
  pic_intack s 1 = Ok (s1, o1) /\ exists s', nested s1 s' /\ irr s' = 0x80 /\ in_service s' 1 = true /\
  exists s2 o2, pic_ioport_write s' 0 0x20 = Ok (s2, o2) /\ isr s2 = 0x10.
Proof.
  intros s. destruct (intack_eoi s 1) as (s1 & o1 & E & _ & H); [split; [constructor; split; first [discriminate|reflexivity]|reflexivity..]|reflexivity|discriminate|].
  exists s1, o1. split; [exact E|]. vm_compute in E. injection E as <- <-.
  assert (Hn : exists s', nested (pic_set_isr 0x12 (pic_set_irr 0x80 (i8259_init_chip true))) s' /\ irr s' = 0x80).
  { eexists. split; [eapply nested_service; [eapply (nested_line _ _ _ 0 1); [apply nested_refl|split; [discriminate|reflexivity]|vm_compute; reflexivity]|
      vm_compute; reflexivity|discriminate|vm_compute; reflexivity|apply nested_refl|vm_compute; reflexivity]|reflexivity]. }
  destruct Hn as (s' & Hn & Hi). exists s'. destruct (H s' Hn) as (H1 & _ & H2). exact (conj Hn (conj Hi (conj H1 H2))).
Defined.

(** ** Findings *)

(** Setting the special mask makes line 3 wanted, but the CPU is not told. *)
Lemma special_mask_stale : exists p,
  ofold pic_step i8259_init [SetIrq 1 1; ReadIrq; PortWrite true 1 0x02; SetIrq 3 1; PortWrite true 0 0x68] = Ok p /\
  output (isa_pic p) = 1 /\ cpu_irq p = 0.
Proof. eexists. split; [vm_compute; reflexivity|]. by split. Qed.

(** One byte written by the guest stops the emulator. *)
Lemma level_sensitive_aborts p m : pics_wf p -> pic_step p (PortWrite m 0 0x18) = Abort.
Proof.
  intros [? ?]. cbn [pic_step]. pose proof (pic_ioport_write_total (chip p m) 0 0x18) as H.
  change (level_sensitive_write 0 0x18) with true in H. rewrite H; [done|by destruct m].
Qed.
