(* ===== verification/I8254.v ===== *)
(** * The programmable interval timer (hw/timer/i8254.c, i8254_common.c)

    Three counters derived from the virtual clock: a counter is never stepped,
    its value and output follow from the time since it was loaded.  The
    output of counter 0 drives an interrupt line through a timer that is set
    to the next time the output changes.  The virtual clock is the argument
    [now] of the functions that read it, the interrupt line the level last
    driven, and a timer the time it is set to: [irq_timer] is [None] for a
    channel without a timer and [Some None] for a timer that is not set. *)
From S2P Require Import Prelude.

Record PITChannelState := {
  count : Z;
  latched_count : Z;
  count_latched : Z;
  status_latched : Z;
  status : Z;
  read_state : Z;
  write_state : Z;
  write_latch : Z;
  rw_mode : Z;
  mode : Z;
  bcd : Z;
  gate : Z;
  count_load_time : Z;
  next_transition_time : Z;
  irq_timer : option (option Z);
  irq_level : Z;
  irq_disabled : bool
}.

(** ** Assignments [s->field = v] *)
Definition ch_set_count (v : Z) (s : PITChannelState) : PITChannelState :=
  let '(Build_PITChannelState _ x1 x2 x3 x4 x5 x6 x7 x8 x9 x10 x11 x12 x13 x14 x15 x16) := s in Build_PITChannelState v x1 x2 x3 x4 x5 x6 x7 x8 x9 x10 x11 x12 x13 x14 x15 x16.
Definition ch_set_latched_count (v : Z) (s : PITChannelState) : PITChannelState :=
  let '(Build_PITChannelState x0 _ x2 x3 x4 x5 x6 x7 x8 x9 x10 x11 x12 x13 x14 x15 x16) := s in Build_PITChannelState x0 v x2 x3 x4 x5 x6 x7 x8 x9 x10 x11 x12 x13 x14 x15 x16.
Definition ch_set_count_latched (v : Z) (s : PITChannelState) : PITChannelState :=
  let '(Build_PITChannelState x0 x1 _ x3 x4 x5 x6 x7 x8 x9 x10 x11 x12 x13 x14 x15 x16) := s in Build_PITChannelState x0 x1 v x3 x4 x5 x6 x7 x8 x9 x10 x11 x12 x13 x14 x15 x16.
Definition ch_set_status_latched (v : Z) (s : PITChannelState) : PITChannelState :=
  let '(Build_PITChannelState x0 x1 x2 _ x4 x5 x6 x7 x8 x9 x10 x11 x12 x13 x14 x15 x16) := s in Build_PITChannelState x0 x1 x2 v x4 x5 x6 x7 x8 x9 x10 x11 x12 x13 x14 x15 x16.
Definition ch_set_status (v : Z) (s : PITChannelState) : PITChannelState :=
  let '(Build_PITChannelState x0 x1 x2 x3 _ x5 x6 x7 x8 x9 x10 x11 x12 x13 x14 x15 x16) := s in Build_PITChannelState x0 x1 x2 x3 v x5 x6 x7 x8 x9 x10 x11 x12 x13 x14 x15 x16.
Definition ch_set_read_state (v : Z) (s : PITChannelState) : PITChannelState :=
  let '(Build_PITChannelState x0 x1 x2 x3 x4 _ x6 x7 x8 x9 x10 x11 x12 x13 x14 x15 x16) := s in Build_PITChannelState x0 x1 x2 x3 x4 v x6 x7 x8 x9 x10 x11 x12 x13 x14 x15 x16.
Definition ch_set_write_state (v : Z) (s : PITChannelState) : PITChannelState :=
  let '(Build_PITChannelState x0 x1 x2 x3 x4 x5 _ x7 x8 x9 x10 x11 x12 x13 x14 x15 x16) := s in Build_PITChannelState x0 x1 x2 x3 x4 x5 v x7 x8 x9 x10 x11 x12 x13 x14 x15 x16.
Definition ch_set_write_latch (v : Z) (s : PITChannelState) : PITChannelState :=
  let '(Build_PITChannelState x0 x1 x2 x3 x4 x5 x6 _ x8 x9 x10 x11 x12 x13 x14 x15 x16) := s in Build_PITChannelState x0 x1 x2 x3 x4 x5 x6 v x8 x9 x10 x11 x12 x13 x14 x15 x16.
Definition ch_set_rw_mode (v : Z) (s : PITChannelState) : PITChannelState :=
  let '(Build_PITChannelState x0 x1 x2 x3 x4 x5 x6 x7 _ x9 x10 x11 x12 x13 x14 x15 x16) := s in Build_PITChannelState x0 x1 x2 x3 x4 x5 x6 x7 v x9 x10 x11 x12 x13 x14 x15 x16.
Definition ch_set_mode (v : Z) (s : PITChannelState) : PITChannelState :=
  let '(Build_PITChannelState x0 x1 x2 x3 x4 x5 x6 x7 x8 _ x10 x11 x12 x13 x14 x15 x16) := s in Build_PITChannelState x0 x1 x2 x3 x4 x5 x6 x7 x8 v x10 x11 x12 x13 x14 x15 x16.
Definition ch_set_bcd (v : Z) (s : PITChannelState) : PITChannelState :=
  let '(Build_PITChannelState x0 x1 x2 x3 x4 x5 x6 x7 x8 x9 _ x11 x12 x13 x14 x15 x16) := s in Build_PITChannelState x0 x1 x2 x3 x4 x5 x6 x7 x8 x9 v x11 x12 x13 x14 x15 x16.
Definition ch_set_gate (v : Z) (s : PITChannelState) : PITChannelState :=
  let '(Build_PITChannelState x0 x1 x2 x3 x4 x5 x6 x7 x8 x9 x10 _ x12 x13 x14 x15 x16) := s in Build_PITChannelState x0 x1 x2 x3 x4 x5 x6 x7 x8 x9 x10 v x12 x13 x14 x15 x16.
Definition ch_set_count_load_time (v : Z) (s : PITChannelState) : PITChannelState :=
  let '(Build_PITChannelState x0 x1 x2 x3 x4 x5 x6 x7 x8 x9 x10 x11 _ x13 x14 x15 x16) := s in Build_PITChannelState x0 x1 x2 x3 x4 x5 x6 x7 x8 x9 x10 x11 v x13 x14 x15 x16.
Definition ch_set_next_transition_time (v : Z) (s : PITChannelState) : PITChannelState :=
  let '(Build_PITChannelState x0 x1 x2 x3 x4 x5 x6 x7 x8 x9 x10 x11 x12 _ x14 x15 x16) := s in Build_PITChannelState x0 x1 x2 x3 x4 x5 x6 x7 x8 x9 x10 x11 x12 v x14 x15 x16.
Definition ch_set_irq_timer (v : option (option Z)) (s : PITChannelState) : PITChannelState :=
  let '(Build_PITChannelState x0 x1 x2 x3 x4 x5 x6 x7 x8 x9 x10 x11 x12 x13 _ x15 x16) := s in Build_PITChannelState x0 x1 x2 x3 x4 x5 x6 x7 x8 x9 x10 x11 x12 x13 v x15 x16.
Definition ch_set_irq_level (v : Z) (s : PITChannelState) : PITChannelState :=
  let '(Build_PITChannelState x0 x1 x2 x3 x4 x5 x6 x7 x8 x9 x10 x11 x12 x13 x14 _ x16) := s in Build_PITChannelState x0 x1 x2 x3 x4 x5 x6 x7 x8 x9 x10 x11 x12 x13 x14 v x16.
Definition ch_set_irq_disabled (v : bool) (s : PITChannelState) : PITChannelState :=
  let '(Build_PITChannelState x0 x1 x2 x3 x4 x5 x6 x7 x8 x9 x10 x11 x12 x13 x14 x15 _) := s in Build_PITChannelState x0 x1 x2 x3 x4 x5 x6 x7 x8 x9 x10 x11 x12 x13 x14 x15 v.

Implicit Types (s : PITChannelState).

Definition PIT_FREQ : Z := 1193182.
Definition ticks_per_sec : Z := 1000000000.
Definition RW_STATE_LSB : Z := 1.
Definition RW_STATE_MSB : Z := 2.
Definition RW_STATE_WORD0 : Z := 3.
Definition RW_STATE_WORD1 : Z := 4.

Definition set (z : Z) : bool := negb (z =? 0).

(** [muldiv64] of include/qemu-common.h: [a * b / c] in 32-bit pieces. *)
Definition muldiv64 (a b c : Z) : Z :=
  let low := u32 a in
  let high := u32 (Z.shiftr a 32) in
  let rl := u64 (low * b) in
  let rh := u64 (high * b) in
  let rh := u64 (rh + Z.shiftr rl 32) in
  let res_high := u32 (rh / c) in
  let res_low := u32 (u64 (u64 (Z.shiftl (rh mod c) 32) + Z.land rl 0xffffffff) / c) in
  res_low + 2 ^ 32 * res_high.

(** The number of input clock ticks since the counter was loaded. *)
Definition ticks s (t : Z) : Z := muldiv64 (u64 (t - count_load_time s)) PIT_FREQ ticks_per_sec.

Definition pit_get_count s (now : Z) : outcome Z :=
  let d := ticks s now in
  if (mode s =? 0) || (mode s =? 1) || (mode s =? 4) || (mode s =? 5) then Ok (Z.land (u64 (count s - d)) 0xffff)
  else
    _ ← c_assert (set (count s));
    if mode s =? 3 then Ok (s32 (u64 (count s - u64 (2 * d) mod u64 (count s))))
    else Ok (s32 (u64 (count s - d mod u64 (count s)))).

Definition pit_get_out s (current_time : Z) : outcome Z :=
  let d := ticks s current_time in
  let c := u64 (count s) in
  if mode s =? 1 then Ok (b2z (d <? c))
  else if mode s =? 2 then
    _ ← c_assert (set (count s)); Ok (b2z ((d mod c =? 0) && set d))
  else if mode s =? 3 then
    _ ← c_assert (set (count s)); Ok (b2z (d mod c <? u64 (Z.shiftr (s32 (count s + 1)) 1)))
  else if (mode s =? 4) || (mode s =? 5) then Ok (b2z (d =? c))
  else Ok (b2z (c <=? d)).

(** The tick of the next transition, as the switch computes it. *)
Definition next_tick s (d : Z) : outcome (option Z) :=
  let c := u64 (count s) in
  if mode s =? 2 then
    _ ← c_assert (set (count s));
    let base := u64 (d / c * c) in
    Ok (Some (if (u64 (d - base) =? 0) && set d then u64 (base + c) else u64 (base + c + 1)))
  else if mode s =? 3 then
    _ ← c_assert (set (count s));
    let base := u64 (d / c * c) in
    let period2 := u64 (Z.shiftr (s32 (count s + 1)) 1) in
    Ok (Some (if u64 (d - base) <? period2 then u64 (base + period2) else u64 (base + c)))
  else if (mode s =? 4) || (mode s =? 5) then
    Ok (if d <? c then Some c else if d =? c then Some (u64 (count s + 1)) else None)
  else Ok (if d <? c then Some c else None).

Definition pit_get_next_transition_time s (current_time : Z) : outcome Z :=
  next ← next_tick s (ticks s current_time);
  Ok match next with
     | None => -1
     | Some next_time =>
       let next_time := u64 (count_load_time s + muldiv64 next_time ticks_per_sec PIT_FREQ) in
       s64 (if next_time <=? u64 current_time then u64 (current_time + 1) else next_time)
     end.

Definition pit_irq_timer_update s (current_time : Z) : outcome PITChannelState :=
  match irq_timer s with
  | None => Ok s
  | Some _ =>
    if irq_disabled s then Ok s
    else
      expire_time ← pit_get_next_transition_time s current_time;
      level ← pit_get_out s current_time;
      let s := ch_set_next_transition_time expire_time (ch_set_irq_level level s) in
      Ok (ch_set_irq_timer (Some (if expire_time =? -1 then None else Some expire_time)) s)
  end.

Definition pit_irq_timer s : outcome PITChannelState := pit_irq_timer_update s (next_transition_time s).

Definition pit_load_count (now : Z) s (val : Z) : outcome PITChannelState :=
  let val := if val =? 0 then 0x10000 else val in
  pit_irq_timer_update (ch_set_count val (ch_set_count_load_time now s)) now.

Definition pit_latch_count (now : Z) s : outcome PITChannelState :=
  if set (count_latched s) then Ok s
  else counter ← pit_get_count s now; Ok (ch_set_count_latched (rw_mode s) (ch_set_latched_count (u16 counter) s)).

Definition pit_set_channel_gate (now : Z) s (val : Z) : outcome PITChannelState :=
  s ← (if ((mode s =? 1) || (mode s =? 5) || (mode s =? 2) || (mode s =? 3)) && (gate s <? val)
       then pit_irq_timer_update (ch_set_count_load_time now s) now
       else Ok s);
  Ok (ch_set_gate (u8 val) s).

(** ** The ports *)
Record PITCommonState := { channels : list PITChannelState }.

(** [pit->channels[i]]; the array has three elements. *)
Definition get_channel (pit : PITCommonState) (i : Z) : outcome PITChannelState :=
  if i <? 0 then Abort else match channels pit !! Z.to_nat i with Some s => Ok s | None => Abort end.

Definition put_channel (pit : PITCommonState) (i : Z) s : PITCommonState :=
  {| channels := <[Z.to_nat i := s]> (channels pit) |}.

(** The body of the read-back command for a selected channel. *)
Definition read_back (now val : Z) s : outcome PITChannelState :=
  s ← (if set (Z.land val 0x20) then Ok s else pit_latch_count now s);
  if negb (set (Z.land val 0x10)) && negb (set (status_latched s)) then
    out ← pit_get_out s now;
    let v := Z.lor (Z.lor (Z.lor (Z.shiftl out 7) (Z.shiftl (rw_mode s) 4)) (Z.shiftl (mode s) 1)) (bcd s) in
    Ok (ch_set_status_latched 1 (ch_set_status (u8 v) s))
  else Ok s.

Definition read_back_channels (now val : Z) (pit : PITCommonState) : outcome PITCommonState :=
  ofold (fun pit channel =>
    if set (Z.land val (Z.shiftl 2 channel)) then
      s ← get_channel pit channel; s ← read_back now val s; Ok (put_channel pit channel s)
    else Ok pit) pit [0; 1; 2].

Definition control_write (now val : Z) s : outcome PITChannelState :=
  let access := Z.land (Z.shiftr val 4) 3 in
  if access =? 0 then pit_latch_count now s
  else
    let s := ch_set_write_state access (ch_set_read_state access (ch_set_rw_mode access s)) in
    Ok (ch_set_bcd (Z.land val 1) (ch_set_mode (Z.land (Z.shiftr val 1) 7) s)).

Definition data_write (now val : Z) s : outcome PITChannelState :=
  if write_state s =? RW_STATE_MSB then pit_load_count now s (s32 (Z.shiftl val 8))
  else if write_state s =? RW_STATE_WORD0 then Ok (ch_set_write_state RW_STATE_WORD1 (ch_set_write_latch (u8 val) s))
  else if write_state s =? RW_STATE_WORD1 then
    s ← pit_load_count now s (s32 (Z.lor (write_latch s) (Z.shiftl val 8)));
    Ok (ch_set_write_state RW_STATE_WORD0 s)
  else pit_load_count now s (s32 val).

Definition pit_ioport_write (now : Z) (pit : PITCommonState) (addr val : Z) : outcome PITCommonState :=
  let addr := Z.land addr 3 in
  if addr =? 3 then
    let channel := s32 (Z.shiftr val 6) in
    if channel =? 3 then read_back_channels now val pit
    else s ← get_channel pit channel; s ← control_write now val s; Ok (put_channel pit channel s)
  else s ← get_channel pit addr; s ← data_write now val s; Ok (put_channel pit addr s).

Definition channel_read (now : Z) s : outcome (PITChannelState * Z) :=
  if set (status_latched s) then Ok (ch_set_status_latched 0 s, status s)
  else if set (count_latched s) then
    if count_latched s =? RW_STATE_MSB then Ok (ch_set_count_latched 0 s, Z.shiftr (latched_count s) 8)
    else if count_latched s =? RW_STATE_WORD0 then Ok (ch_set_count_latched RW_STATE_MSB s, Z.land (latched_count s) 0xff)
    else Ok (ch_set_count_latched 0 s, Z.land (latched_count s) 0xff)
  else
    counter ← pit_get_count s now;
    let high := Z.land (Z.shiftr counter 8) 0xff in
    let low := Z.land counter 0xff in
    if read_state s =? RW_STATE_MSB then Ok (s, high)
    else if read_state s =? RW_STATE_WORD0 then Ok (ch_set_read_state RW_STATE_WORD1 s, low)
    else if read_state s =? RW_STATE_WORD1 then Ok (ch_set_read_state RW_STATE_WORD0 s, high)
    else Ok (s, low).

Definition pit_ioport_read (now : Z) (pit : PITCommonState) (addr : Z) : outcome (PITCommonState * Z) :=
  let addr := Z.land addr 3 in
  s ← get_channel pit addr;
  '(s, ret) ← channel_read now s;
  Ok (put_channel pit addr s, ret).

(** ** Reset *)
Definition pit_reset_channel (now : Z) (first third : bool) s : outcome PITChannelState :=
  let s := ch_set_count 0x10000 (ch_set_count_load_time now (ch_set_gate (b2z (negb third)) (ch_set_mode 3 s))) in
  if first && negb (irq_disabled s) then
    t ← pit_get_next_transition_time s now; Ok (ch_set_next_transition_time t s)
  else Ok s.

Definition pit_reset_common (now : Z) (pit : PITCommonState) : outcome PITCommonState :=
  ofold (fun pit i => s ← get_channel pit i; s ← pit_reset_channel now (i =? 0) (i =? 2) s; Ok (put_channel pit i s)) pit [0; 1; 2].

Definition pit_reset (now : Z) (pit : PITCommonState) : outcome PITCommonState :=
  pit ← pit_reset_common now pit;
  s ← get_channel pit 0;
  Ok (if irq_disabled s then pit else put_channel pit 0 (ch_set_irq_timer (Some (Some (next_transition_time s))) s)).

Definition pit_irq_control (now : Z) (pit : PITCommonState) (enable : bool) : outcome PITCommonState :=
  s ← get_channel pit 0;
  if enable then s ← pit_irq_timer_update (ch_set_irq_disabled false s) now; Ok (put_channel pit 0 s)
  else Ok (put_channel pit 0 (ch_set_irq_timer (Some None) (ch_set_irq_disabled true s))).

Definition pit_post_load (pit : PITCommonState) : outcome PITCommonState :=
  s ← get_channel pit 0;
  let t := next_transition_time s in
  Ok (put_channel pit 0 (ch_set_irq_timer (Some (if t =? -1 then None else Some t)) s)).

Definition pit_set_gate (now : Z) (pit : PITCommonState) (channel val : Z) : outcome PITCommonState :=
  s ← get_channel pit channel; s ← pit_set_channel_gate now s val; Ok (put_channel pit channel s).

(** ** Ticks and time *)
Lemma muldiv64_spec a b c : 0 <= a < 2 ^ 64 -> 0 <= b < 2 ^ 32 -> 0 < c < 2 ^ 32 -> a * b / c < 2 ^ 64 -> muldiv64 a b c = a * b / c.
Proof.
  intros Ha Hb Hc Hq. unfold muldiv64. rewrite Z.shiftr_div_pow2 by lia.
  set (l := u32 a). assert (Hl : 0 <= l < 2 ^ 32) by (apply (wrap_range 32); lia).
  rewrite (wrap_small 32 (a / 2 ^ 32)) by (split; [apply Z.div_pos; lia|apply Z.div_lt_upper_bound; lia]).
  set (h := a / 2 ^ 32). assert (Hh : 0 <= h < 2 ^ 32) by (split; [apply Z.div_pos; lia|apply Z.div_lt_upper_bound; lia]).
  assert (Ea : a = h * 2 ^ 32 + l) by (unfold h, l, wrap; pose proof (Z_div_mod_eq_full a (2 ^ 32)); lia).
  rewrite (wrap_small 64 (l * b)), (wrap_small 64 (h * b)) by nia.
  change 0xffffffff with (Z.ones 32). rewrite Z.land_ones, Z.shiftr_div_pow2, Z.shiftl_mul_pow2 by lia.
  assert (Er : l * b = (l * b / 2 ^ 32) * 2 ^ 32 + (l * b) mod 2 ^ 32) by (pose proof (Z_div_mod_eq_full (l * b) (2 ^ 32)); lia).
  assert (Hrh : 0 <= l * b / 2 ^ 32 < 2 ^ 32) by (split; [apply Z.div_pos; nia|apply Z.div_lt_upper_bound; nia]).
  pose proof (Z.mod_pos_bound (l * b) (2 ^ 32) ltac:(lia)) as Hrl. set (rl := (l * b) mod 2 ^ 32) in *. set (k := l * b / 2 ^ 32) in *.
  clearbody l h rl k. rewrite (wrap_small 64 (h * b + k)) by nia. set (rh := h * b + k) in *.
  assert (Eab : a * b = rh * 2 ^ 32 + rl) by (subst rh; nia). assert (Hrh0 : 0 <= rh) by (subst rh; nia). clearbody rh. rewrite Eab in *.
  pose proof (Z.mod_pos_bound rh c ltac:(lia)) as Hm. pose proof (Z_div_mod_eq_full rh c) as Eq.
  rewrite (wrap_small 64 (rh mod c * 2 ^ 32)), (wrap_small 64 (_ + rl)) by nia.
  assert (Hlow : 0 <= (rh mod c * 2 ^ 32 + rl) / c < 2 ^ 32) by (split; [apply Z.div_pos; nia|apply Z.div_lt_upper_bound; nia]).
  assert (Esum : (rh * 2 ^ 32 + rl) / c = (rh / c) * 2 ^ 32 + (rh mod c * 2 ^ 32 + rl) / c).
  { rewrite <- Z.div_add_l by lia. f_equal. rewrite Eq at 1. ring. }
  rewrite Esum in Hq |- *. pose proof (Z.div_pos rh c Hrh0 ltac:(lia)).
  rewrite (wrap_small 32 (rh / c)), (wrap_small 32 (_ / c)) by nia. lia.
Qed.

(** Channels with a loaded counter, and times of the virtual clock. *)
Definition loaded s : Prop := 0 < count s <= 0x10000 /\ 0 <= count_load_time s < 2 ^ 61.
Definition later s (t : Z) : Prop := count_load_time s <= t < 2 ^ 61.

Lemma ticks_spec s t : loaded s -> later s t -> ticks s t = (t - count_load_time s) * PIT_FREQ / ticks_per_sec.
Proof.
  intros [_ Hl] Ht. unfold later in Ht. unfold ticks, PIT_FREQ, ticks_per_sec. rewrite (wrap_small 64) by lia.
  apply muldiv64_spec; [lia|lia|lia|]. apply Z.div_lt_upper_bound; lia.
Qed.

(** The time at which tick [m] is due, rounded down. *)
Definition due s (m : Z) : Z := count_load_time s + m * ticks_per_sec / PIT_FREQ.

Lemma due_spec s m : loaded s -> 0 <= m < 2 ^ 52 -> u64 (count_load_time s + muldiv64 m ticks_per_sec PIT_FREQ) = due s m /\ count_load_time s <= due s m < 2 ^ 63 - 1.
Proof.
  intros [_ Hl] Hm. unfold due, PIT_FREQ, ticks_per_sec in *.
  assert (Hb : 0 <= m * 1000000000 / 1193182 < 2 ^ 62) by (split; [apply Z.div_pos; lia|apply Z.div_lt_upper_bound; lia]).
  rewrite muldiv64_spec by lia. split; [apply (wrap_small 64); lia|lia].
Qed.

Lemma ticks_before s m t : loaded s -> later s t -> t < due s m -> ticks s t < m.
Proof.
  intros Hs Ht Hd. rewrite ticks_spec by done. unfold due, PIT_FREQ, ticks_per_sec in *.
  apply Z.div_lt_upper_bound; [lia|]. pose proof (Z.mul_div_le (m * 1000000000) 1193182). lia.
Qed.

Lemma ticks_after s m : loaded s -> 0 <= m -> later s (due s m + 1) -> ticks s (due s m + 1) = m.
Proof.
  intros Hs Hm Ht. rewrite ticks_spec by done. unfold due, PIT_FREQ, ticks_per_sec in *.
  pose proof (Z_div_mod_eq_full (m * 1000000000) 1193182). pose proof (Z.mod_pos_bound (m * 1000000000) 1193182 ltac:(lia)).
  symmetry. apply (Z.div_unique_pos _ _ _ ((count_load_time s + m * 1000000000 / 1193182 + 1 - count_load_time s) * 1193182 - m * 1000000000)); lia.
Qed.

Lemma ticks_mono s t t' : loaded s -> later s t -> later s t' -> t <= t' -> 0 <= ticks s t <= ticks s t'.
Proof.
  intros Hs Ht Ht' Hle. rewrite !ticks_spec by done. unfold later, PIT_FREQ, ticks_per_sec in *.
  split; [apply Z.div_pos; lia|apply Z.div_le_mono; lia].
Qed.

Lemma ticks_bound s t : loaded s -> later s t -> ticks s t < 2 ^ 52 - 2 ^ 18.
Proof.
  intros Hs Ht. rewrite ticks_spec by done. destruct Hs as [_ ?]. unfold later, PIT_FREQ, ticks_per_sec in *. apply Z.div_lt_upper_bound; lia.
Qed.

(** ** The output *)
Definition out_at s (d : Z) : bool :=
  if mode s =? 1 then d <? count s
  else if mode s =? 2 then (d mod count s =? 0) && set d
  else if mode s =? 3 then d mod count s <? (count s + 1) / 2
  else if (mode s =? 4) || (mode s =? 5) then d =? count s
  else count s <=? d.

Lemma count_words s : loaded s -> u64 (count s) = count s /\ set (count s) = true /\ u64 (Z.shiftr (s32 (count s + 1)) 1) = (count s + 1) / 2.
Proof.
  intros [Hc _]. unfold set. split_and!; [by apply (wrap_small 64); lia|destruct (Z.eqb_spec (count s) 0); [lia|done]|].
  rewrite (swrap_small 32) by (unfold in_s; lia). rewrite Z.shiftr_div_pow2 by lia.
  apply (wrap_small 64). split; [apply Z.div_pos; lia|apply Z.div_lt_upper_bound; lia].
Qed.

Lemma pit_get_out_spec s t : loaded s -> pit_get_out s t = Ok (b2z (out_at s (ticks s t))).
Proof.
  intros Hs. destruct (count_words s Hs) as (E1 & E2 & E3). unfold pit_get_out, out_at. rewrite E1, E2, E3.
  repeat (case_match; [done|]). done.
Qed.

(** [m] is the first tick after [d] at which the output differs. *)
Definition changes_at s (d m : Z) : Prop :=
  d < m <= d + count s + 1 /\ (forall d', d <= d' < m -> out_at s d' = out_at s d) /\ out_at s m <> out_at s d.

Lemma square_wave_next s d : mode s = 3 -> 2 <= count s <= 0x10000 -> 0 <= d ->
  let base := d / count s * count s in
  changes_at s d (if d - base <? (count s + 1) / 2 then base + (count s + 1) / 2 else base + count s).
Proof.
  intros Hm Hc Hd base. pose proof (Z_div_mod_eq_full d (count s)) as Ed. pose proof (Z.mod_pos_bound d (count s) ltac:(lia)) as Hr.
  set (q := d / count s) in *. set (r := d mod count s) in *. set (p := (count s + 1) / 2).
  assert (Hp : 0 < p /\ p <= count s /\ p < count s + 1) by (subst p; Z.div_mod_to_equations; lia).
  assert (Hp2 : p < count s) by (subst p; Z.div_mod_to_equations; lia).
  assert (Ho : forall k x, 0 <= x < count s -> out_at s (k * count s + x) = (x <? p)).
  { intros k x Hx. unfold out_at. rewrite Hm. cbn [Z.eqb Pos.eqb]. by rewrite Z.add_comm, Z.mod_add, Z.mod_small by lia. }
  assert (Eb : base = q * count s) by done. assert (Edb : d = q * count s + r) by lia. clearbody q r base p. subst base.
  unfold changes_at. rewrite Edb. replace (q * count s + r - q * count s) with r by lia. rewrite (Ho q r) by lia.
  assert (Hin : forall hi, hi <= count s -> forall d', q * count s + r <= d' < q * count s + hi -> out_at s d' = (d' - q * count s <? p)).
  { intros hi Hhi d' Hd'. rewrite <- (Ho q (d' - q * count s)) by lia. f_equal. lia. }
  destruct (Z.ltb_spec r p).
  - split_and!; [lia|lia| |].
    + intros d' Hd'. rewrite (Hin p) by lia. apply Z.ltb_lt. lia.
    + rewrite (Ho q p) by lia. destruct (Z.ltb_spec p p); [lia|done].
  - split_and!; [lia|lia| |].
    + intros d' Hd'. rewrite (Hin (count s)) by lia. apply Z.ltb_ge. lia.
    + replace (q * count s + count s) with ((q + 1) * count s + 0) by lia. rewrite Ho by lia.
      destruct (Z.ltb_spec 0 p); [done|lia].
Qed.

(** Decide the comparisons of a goal between outputs. *)
Ltac outputs :=
  intros;
  repeat match goal with
  | |- context [?a <? ?b] => destruct (Z.ltb_spec a b)
  | |- context [?a <=? ?b] => destruct (Z.leb_spec a b)
  | |- context [?a =? ?b] => destruct (Z.eqb_spec a b)
  end; try done; lia.

Lemma next_tick_spec s d : loaded s -> mode s <> 2 -> (mode s = 3 -> 2 <= count s) -> 0 <= d < 2 ^ 52 - 2 ^ 18 -> exists o,
  next_tick s d = Ok o /\
  match o with
  | Some m => changes_at s d m
  | None => forall d', d <= d' -> out_at s d' = out_at s d
  end.
Proof.
  intros Hs Hm2 Hm3 Hd. destruct (count_words s Hs) as (E1 & E2 & E3). pose proof Hs as [Hc _].
  unfold next_tick. rewrite E1, E2, E3. destruct (Z.eqb_spec (mode s) 2) as [|_]; [done|].
  destruct (Z.eqb_spec (mode s) 3) as [H3|H3]; cbn [c_assert mbind outcome_bind].
  { specialize (Hm3 H3). eexists. split; [done|]. pose proof (square_wave_next s d H3 ltac:(lia) ltac:(lia)) as Hw. cbn zeta in Hw.
    pose proof (Z_div_mod_eq_full d (count s)). pose proof (Z.mod_pos_bound d (count s) ltac:(lia)).
    assert (0 <= d / count s * count s) by (apply Z.mul_nonneg_nonneg; [apply Z.div_pos|]; lia).
    rewrite (wrap_small 64 (d / count s * count s)), (wrap_small 64 (d - _)) by lia.
    assert (Hp : 0 <= (count s + 1) / 2 <= count s) by (Z.div_mod_to_equations; lia).
    rewrite (wrap_small 64 (_ + (count s + 1) / 2)), (wrap_small 64 (_ + count s)) by lia. exact Hw. }
  destruct ((mode s =? 4) || (mode s =? 5)) eqn:E45.
  { assert (Ho : forall x, out_at s x = (x =? count s)).
    { intros x. unfold out_at. rewrite E45. apply orb_true_iff in E45. rewrite !Z.eqb_eq in E45.
      by destruct E45 as [-> | ->]. }
    eexists. split; [done|]. rewrite (wrap_small 64 (count s + 1)) by lia.
    destruct (Z.ltb_spec d (count s)); [|destruct (Z.eqb_spec d (count s))]; unfold changes_at; [split_and!|split_and!|];
      try lia; intros *; rewrite !Ho; outputs. }
  eexists. split; [done|]. unfold changes_at, out_at. rewrite E45, (proj2 (Z.eqb_neq _ _) H3), (proj2 (Z.eqb_neq _ _) Hm2).
  destruct (mode s =? 1), (Z.ltb_spec d (count s)); [split_and!| |split_and!|]; try lia; outputs.
Qed.

(** The transition of the time domain: constant before it, and a change at it
    or, when it was rounded down, one nanosecond later. *)
Definition next_change s (t n : Z) : Prop :=
  t < n /\ (forall t', t <= t' < n -> pit_get_out s t' = pit_get_out s t) /\
  exists t', n <= t' <= n + 1 /\ pit_get_out s t' <> pit_get_out s t.

Lemma due_change s t m : loaded s -> later s t -> changes_at s (ticks s t) m -> later s (due s m + 1) ->
  next_change s t (if due s m <=? t then t + 1 else due s m).
Proof.
  intros Hs Ht (Hm & Hconst & Hch) Hd. pose proof (ticks_mono s t t Hs Ht Ht) as Hn.
  assert (Haf : ticks s (due s m + 1) = m) by (apply ticks_after; [done|lia|done]).
  assert (Hdiff : pit_get_out s (due s m + 1) <> pit_get_out s t).
  { rewrite !pit_get_out_spec, Haf by done. intros E. apply Hch. injection E. by destruct (out_at s m), (out_at s (ticks s t)). }
  assert (Htd : t <= due s m).
  { destruct (Z.le_gt_cases t (due s m)) as [|Hgt]; [done|]. pose proof (ticks_mono s (due s m + 1) t Hs Hd Ht ltac:(lia)). lia. }
  destruct (Z.leb_spec (due s m) t).
  - assert (t = due s m) by lia. split_and!; [lia| |].
    + intros t' Ht'. by replace t' with t by lia.
    + exists (due s m + 1). split; [lia|done].
  - split_and!; [lia| |].
    + intros t' Ht'. rewrite !pit_get_out_spec by done. do 2 f_equal. apply Hconst.
      assert (Hl : later s t') by (unfold later in *; lia).
      split; [apply (ticks_mono s t t'); [done..|lia]|apply ticks_before; [done..|lia]].
    + exists (due s m + 1). split; [lia|done].
Qed.

(** C28 (functional): in every mode but the rate generator, and in square wave mode
    for counters of at least 2, the transition time to which the interrupt timer is
    set is right: the output keeps its level until then and changes then or one
    nanosecond later, and if the result is -1 the output never changes again.  For
    a counter of 1 in square wave mode see [square_wave_of_one]. *)
Theorem pit_next_transition s t : loaded s -> count_load_time s <= t < 2 ^ 60 -> mode s <> 2 -> (mode s = 3 -> 2 <= count s) -> exists n,
  pit_get_next_transition_time s t = Ok n /\
  if n =? -1 then forall t', t <= t' < 2 ^ 61 -> pit_get_out s t' = pit_get_out s t else next_change s t n.
Proof.
  intros Hs Ht Hm2 Hm3. assert (Hl : later s t) by (unfold later; lia).
  pose proof (ticks_mono s t t Hs Hl Hl ltac:(lia)) as Hn. pose proof (ticks_bound s t Hs Hl) as Hb.
  destruct (next_tick_spec s (ticks s t) Hs Hm2 Hm3 ltac:(lia)) as (o & Eo & Ho).
  unfold pit_get_next_transition_time. rewrite Eo. cbn [mbind outcome_bind]. eexists. split; [done|]. destruct o as [m|].
  - pose proof Hs as [Hc Hld]. pose proof Ho as (Hm & _).
    destruct (due_spec s m Hs ltac:(lia)) as [Ed Hdr]. rewrite Ed.
    rewrite (wrap_small 64 t), (wrap_small 64 (t + 1)) by lia.
    assert (Hd61 : due s m + 1 < 2 ^ 61).
    { unfold due, PIT_FREQ, ticks_per_sec. assert (m * 1000000000 / 1193182 < t - count_load_time s + 2 ^ 27); [|lia].
      apply Z.div_lt_upper_bound; [lia|]. pose proof (ticks_spec s t Hs Hl) as Et. unfold PIT_FREQ, ticks_per_sec in Et.
      pose proof (Z.mul_div_le ((t - count_load_time s) * 1193182) 1000000000). lia. }
    rewrite (swrap_small 64) by (unfold in_s; destruct (due s m <=? t); lia).
    destruct (Z.eqb_spec (if due s m <=? t then t + 1 else due s m) (-1)); [destruct (due s m <=? t); lia|].
    apply due_change; [done..|unfold later; lia].
  - intros t' Ht'. rewrite !pit_get_out_spec by done. do 2 f_equal. apply Ho. apply (ticks_mono s t t'); unfold later in *; [done|lia..].
Qed.

(** The square wave of the reset state, a quarter of a second after the load. *)
Definition sample_channel (m c : Z) : PITChannelState :=
  {| count := c; latched_count := 0; count_latched := 0; status_latched := 0; status := 0; read_state := 0; write_state := 0;
     write_latch := 0; rw_mode := 3; mode := m; bcd := 0; gate := 1; count_load_time := 1000; next_transition_time := 0;
     irq_timer := Some None; irq_level := 0; irq_disabled := false |}.

Lemma pit_next_transition_witness : exists n,
  pit_get_next_transition_time (sample_channel 3 0x10000) 250001000 = Ok n /\
  if n =? -1 then forall t', 250001000 <= t' < 2 ^ 61 -> pit_get_out (sample_channel 3 0x10000) t' = pit_get_out (sample_channel 3 0x10000) 250001000
  else next_change (sample_channel 3 0x10000) 250001000 n.
Proof.
  apply pit_next_transition; [split; split; first [discriminate|reflexivity]|split; [discriminate|reflexivity]|discriminate|discriminate].
Defined.

(** ** The rate generator *)

(** Ticks that are not due at a whole nanosecond are due one early. *)
Lemma ticks_due s m : loaded s -> 0 < m < 596591 -> later s (due s m) -> ticks s (due s m) = m - 1.
Proof.
  intros Hs Hm Hl. rewrite ticks_spec by done. unfold due, PIT_FREQ, ticks_per_sec in *.
  pose proof (Z_div_mod_eq_full (m * 1000000000) 1193182) as E. pose proof (Z.mod_pos_bound (m * 1000000000) 1193182 ltac:(lia)) as Hr.
  assert (Hnz : (m * 1000000000) mod 1193182 <> 0).
  { intros Hz. assert (Hdiv : (596591 | 500000000 * m)).
    { exists (m * 1000000000 / 1193182). lia. }
    apply Z.gauss in Hdiv; [|reflexivity]. apply Z.divide_pos_le in Hdiv; lia. }
  symmetry. apply (Z.div_unique_pos _ _ _ ((count_load_time s + m * 1000000000 / 1193182 - count_load_time s) * 1193182 - (m - 1) * 1000000000)); lia.
Qed.

Lemma due_lt s m m' : m < m' -> due s m < due s m'.
Proof.
  intros H. unfold due, PIT_FREQ, ticks_per_sec. pose proof (Z_div_mod_eq_full (m * 1000000000) 1193182).
  pose proof (Z.mod_pos_bound (m * 1000000000) 1193182 ltac:(lia)). pose proof (Z_div_mod_eq_full (m' * 1000000000) 1193182).
  pose proof (Z.mod_pos_bound (m' * 1000000000) 1193182 ltac:(lia)). lia.
Qed.

(** [n] expirations of the interrupt timer. *)
Fixpoint fire (n : nat) s : outcome PITChannelState :=
  match n with O => Ok s | S n => s ← fire n s; pit_irq_timer s end.

(** The channel with its line at [level] and its timer set to tick [m]. *)
Definition armed s (level m : Z) : PITChannelState :=
  ch_set_irq_timer (Some (Some (due s m))) (ch_set_next_transition_time (due s m) (ch_set_irq_level level s)).

Lemma rate_update s t m : loaded s -> mode s = 2 -> irq_timer s <> None -> irq_disabled s = false ->
  count_load_time s <= t -> t < due s m -> 0 <= m < 2 ^ 20 -> count_load_time s < 2 ^ 60 -> next_tick s (ticks s t) = Ok (Some m) ->
  pit_irq_timer_update s t = Ok (armed s (b2z (out_at s (ticks s t))) m).
Proof.
  intros Hs Hm Hit Hdis Ht1 Ht2 Hm20 Hl Hn. unfold pit_irq_timer_update, pit_get_next_transition_time.
  destruct (irq_timer s) eqn:Et; [|done]. rewrite Hdis, Hn, pit_get_out_spec by done. cbn [mbind outcome_bind].
  destruct (due_spec s m Hs ltac:(lia)) as [Ed Hdr]. rewrite Ed. pose proof Hs as [_ ?].
  rewrite (wrap_small 64 t) by lia. destruct (Z.leb_spec (due s m) t); [lia|].
  rewrite (swrap_small 64) by (unfold in_s; lia). destruct (Z.eqb_spec (due s m) (-1)); [lia|]. done.
Qed.

Lemma armed_same s l m : let s' := armed s l m in
  (loaded s' <-> loaded s) /\ mode s' = mode s /\ irq_timer s' = Some (Some (due s m)) /\ irq_disabled s' = irq_disabled s /\
  count s' = count s /\ count_load_time s' = count_load_time s /\ next_transition_time s' = due s m /\ irq_level s' = l.
Proof. by destruct s. Qed.

Lemma armed_armed s l m l' m' : armed (armed s l m) l' m' = armed s l' m'.
Proof. by destruct s. Qed.

Lemma ticks_armed s l m t : ticks (armed s l m) t = ticks s t.
Proof. unfold ticks. by replace (count_load_time (armed s l m)) with (count_load_time s) by (by destruct s). Qed.

Lemma rate_next s d : loaded s -> mode s = 2 -> 0 <= d < 2 ^ 20 -> next_tick s d =
  Ok (Some (if (d mod count s =? 0) && set d then d + count s else d / count s * count s + count s + 1)).
Proof.
  intros Hs Hm Hd. destruct (count_words s Hs) as (E1 & E2 & _). pose proof Hs as [Hc _]. unfold next_tick. rewrite Hm, E1, E2.
  cbn [Z.eqb Pos.eqb c_assert mbind outcome_bind]. pose proof (Z_div_mod_eq_full d (count s)). pose proof (Z.mod_pos_bound d (count s) ltac:(lia)).
  assert (0 <= d / count s * count s) by (apply Z.mul_nonneg_nonneg; [apply Z.div_pos|]; lia).
  rewrite (wrap_small 64 (d / count s * count s)), (wrap_small 64 (d - _)) by lia.
  replace (d - d / count s * count s) with (d mod count s) by lia. do 2 f_equal.
  destruct (Z.eqb_spec (d mod count s) 0); cbn [andb]; [destruct (set d)|]; rewrite (wrap_small 64) by lia; lia.
Qed.

Section Rate.
Context (s : PITChannelState) (N : Z).
Hypothesis Hs : loaded s.
Hypothesis Hmode : mode s = 2.
Hypothesis Hcount : count s = N.
Hypothesis HN : 2 <= N.
Hypothesis Htimer : irq_timer s <> None.
Hypothesis Hirq : irq_disabled s = false.
Hypothesis Hload : count_load_time s < 2 ^ 60.

Lemma later_due m : 0 <= m < 2 ^ 20 -> later s (due s m).
Proof using Hs Hload.
  intros Hm. pose proof Hs as [_ ?]. unfold later, due, PIT_FREQ, ticks_per_sec.
  assert (0 <= m * 1000000000 / 1193182 < 2 ^ 60); [|lia]. split; [apply Z.div_pos; lia|apply Z.div_lt_upper_bound; lia].
Qed.

(** The timer set to tick [m] expires and is set to tick [m']. *)
Lemma rate_fire l m m' : 0 < m < 596591 -> m < m' < 2 ^ 20 -> next_tick s (m - 1) = Ok (Some m') ->
  pit_irq_timer (armed s l m) = Ok (armed s (b2z (out_at s (m - 1))) m').
Proof using Hs Hmode Htimer Hirq Hload.
  intros Hm Hm' Hn. destruct (armed_same s l m) as (A1 & A2 & A3 & A4 & A5 & A6 & A7 & _). unfold pit_irq_timer. rewrite A7.
  assert (Et : ticks (armed s l m) (due s m) = m - 1).
  { rewrite ticks_armed. apply ticks_due; [done..|apply later_due; lia]. }
  assert (Ed : forall x, due (armed s l m) x = due s x) by (intros; unfold due; by rewrite A6).
  assert (En : next_tick (armed s l m) (m - 1) = next_tick s (m - 1)) by (unfold next_tick; by rewrite A2, A5).
  assert (Eo : out_at (armed s l m) (m - 1) = out_at s (m - 1)) by (unfold out_at; by rewrite A2, A5).
  pose proof (later_due m ltac:(lia)) as [Hl1 Hl2].
  rewrite (rate_update _ _ m'); rewrite ?A2, ?A3, ?A4, ?A6, ?Et, ?Ed, ?En, ?Eo; try done; try lia; try (by apply A1).
  - by rewrite armed_armed.
  - apply due_lt. lia.
Qed.

Lemma out_rate d : out_at s d = (d mod N =? 0) && set d.
Proof using Hmode Hcount. unfold out_at. by rewrite Hmode, Hcount. Qed.

Lemma rate_rise k l : 1 <= k -> k * N + 1 < 596591 -> pit_irq_timer (armed s l (k * N + 1)) = Ok (armed s 1 ((k + 1) * N)).
Proof using Hs Hmode Hcount HN Htimer Hirq Hload.
  intros Hk Hb. pose proof Hs as [? _].
  assert (Ha : (k * N + 1 - 1) mod N = 0) by (replace (k * N + 1 - 1) with (k * N) by lia; apply Z.mod_mul; lia).
  assert (Hz : set (k * N + 1 - 1) = true) by (unfold set; destruct (Z.eqb_spec (k * N + 1 - 1) 0); [nia|done]).
  rewrite (rate_fire l (k * N + 1) ((k + 1) * N)); [by rewrite out_rate, Ha, Hz|nia|nia|].
  rewrite rate_next by (try done; nia). rewrite Hcount, Ha, Hz. cbn [Z.eqb andb]. do 2 f_equal. lia.
Qed.

Lemma rate_fall k l : 1 <= k -> k * N < 596591 -> pit_irq_timer (armed s l (k * N)) = Ok (armed s 0 (k * N + 1)).
Proof using Hs Hmode Hcount HN Htimer Hirq Hload.
  intros Hk Hb. pose proof Hs as [? _].
  assert (Ha : (k * N - 1) mod N = N - 1) by (symmetry; apply (Z.mod_unique_pos _ _ (k - 1)); lia).
  assert (Hd : (k * N - 1) / N = k - 1) by (symmetry; apply (Z.div_unique_pos _ _ _ (N - 1)); lia).
  assert (Hz : (N - 1 =? 0) = false) by (apply Z.eqb_neq; lia).
  rewrite (rate_fire l (k * N) (k * N + 1)); [by rewrite out_rate, Ha, Hz|nia|nia|].
  rewrite rate_next by (try done; nia). rewrite Hcount, Ha, Hz, Hd. cbn [andb]. do 2 f_equal. lia.
Qed.

Lemma rate_fires k : (Z.of_nat k + 1) * N + 1 < 596591 ->
  fire (2 * k) (armed s 0 (N + 1)) = Ok (armed s 0 ((Z.of_nat k + 1) * N + 1)) /\
  fire (2 * k + 1) (armed s 0 (N + 1)) = Ok (armed s 1 ((Z.of_nat k + 2) * N)).
Proof using Hs Hmode Hcount HN Htimer Hirq Hload.
  induction k as [|k IH]; intros Hb.
  - split; [cbn [fire Nat.mul]; do 2 f_equal; lia|]. cbn [fire Nat.mul Nat.add mbind outcome_bind].
    pose proof (rate_rise 1 0 ltac:(lia) ltac:(lia)) as E. replace (1 * N + 1) with (N + 1) in E by lia. rewrite E. do 2 f_equal; lia.
  - destruct IH as [_ IH]; [lia|]. assert (E1 : fire (2 * S k) (armed s 0 (N + 1)) = Ok (armed s 0 ((Z.of_nat (S k) + 1) * N + 1))).
    { replace (2 * S k)%nat with (S (2 * k + 1)) by lia. cbn [fire]. rewrite IH. cbn [mbind outcome_bind].
      rewrite rate_fall by lia. do 3 f_equal. lia. }
    split; [done|]. replace (2 * S k + 1)%nat with (S (2 * S k)) by lia. cbn [fire]. rewrite E1. cbn [mbind outcome_bind].
    rewrite rate_rise by lia. do 3 f_equal. lia.
Qed.

End Rate.

(** Loading a counter in this mode sets the timer to the first period. *)
Lemma pit_load_rate now s val : 0 <= now < 2 ^ 60 -> mode s = 2 -> irq_timer s <> None -> irq_disabled s = false -> 2 <= val < 0x10000 ->
  exists s', pit_load_count now s val = Ok (armed s' 0 (val + 1)) /\ loaded s' /\ mode s' = 2 /\ irq_timer s' <> None /\
    irq_disabled s' = false /\ count s' = val /\ count_load_time s' = now.
Proof.
  intros Hnow Hm Hit Hirq Hv. unfold pit_load_count. destruct (Z.eqb_spec val 0); [lia|].
  set (s' := ch_set_count val (ch_set_count_load_time now s)).
  assert (F : mode s' = 2 /\ irq_timer s' <> None /\ irq_disabled s' = false /\ count s' = val /\ count_load_time s' = now) by (by destruct s).
  destruct F as (F1 & F2 & F3 & F4 & F5). assert (Hs' : loaded s') by (unfold loaded; rewrite F4, F5; lia). clearbody s'.
  assert (E0 : ticks s' now = 0) by (rewrite ticks_spec by (try done; unfold later; rewrite F5; lia); rewrite F5, Z.sub_diag; done).
  assert (En : next_tick s' 0 = Ok (Some (val + 1))) by (rewrite rate_next by (try done; lia); rewrite F4, Z.mod_0_l, Z.div_0_l by lia; done).
  exists s'. split; [|done]. rewrite (rate_update s' now (val + 1)); rewrite ?F5, ?E0; try done; try lia.
  - assert (Eo : out_at s' 0 = false) by (unfold out_at; rewrite F1; cbn; apply andb_false_r). by rewrite Eo.
  - assert (H0 : due s' 0 = now) by (unfold due; rewrite F5, Z.mul_0_l, Z.div_0_l by done; lia).
    pose proof (due_lt s' 0 (val + 1) ltac:(lia)). lia.
Qed.

(** Loading counter 0 with [val] in rate generator mode raises
    the interrupt once per [val] input ticks: before its expiration number
    [2k - 1] the line is low and the timer is set to a time at which exactly
    [k * val] ticks have passed; that expiration raises the line and sets the
    timer again.  This holds for the first 596591 ticks. *)
Theorem pit_rate_interrupts now s val k : 0 <= now < 2 ^ 60 -> mode s = 2 -> irq_timer s <> None -> irq_disabled s = false ->
  2 <= val < 0x10000 -> (1 <= k)%nat -> Z.of_nat k * val + 1 < 596591 -> exists s0 s1 s2 t,
  pit_load_count now s val = Ok s0 /\
  fire (2 * k - 2) s0 = Ok s1 /\ irq_level s1 = 0 /\ irq_timer s1 = Some (Some t) /\ ticks s0 t = Z.of_nat k * val /\
  fire (2 * k - 1) s0 = Ok s2 /\ irq_level s2 = 1 /\ exists t', t < t' /\ irq_timer s2 = Some (Some t').
Proof.
  intros Hnow Hm Hit Hirq Hv Hk Hb. destruct (pit_load_rate now s val Hnow Hm Hit Hirq Hv) as (s' & El & Hs' & F1 & F2 & F3 & F4 & F5).
  assert (Hld : count_load_time s' < 2 ^ 60) by lia. assert (Ek : Z.of_nat (k - 1) = Z.of_nat k - 1) by lia.
  destruct (rate_fires s' val Hs' F1 F4 ltac:(lia) F2 F3 Hld (k - 1)) as [E1 E2]; [rewrite Ek; lia|]. rewrite Ek in E1, E2.
  replace (2 * k - 2)%nat with (2 * (k - 1))%nat by lia. replace (2 * k - 1)%nat with (2 * (k - 1) + 1)%nat by lia.
  replace ((Z.of_nat k - 1 + 1) * val + 1) with (Z.of_nat k * val + 1) in E1 by lia.
  replace ((Z.of_nat k - 1 + 2) * val) with ((Z.of_nat k + 1) * val) in E2 by lia.
  do 3 eexists. exists (due s' (Z.of_nat k * val + 1)). split; [done|]. rewrite E1, E2.
  destruct (armed_same s' 0 (Z.of_nat k * val + 1)) as (_ & _ & A3 & _ & _ & _ & _ & A8).
  destruct (armed_same s' 1 ((Z.of_nat k + 1) * val)) as (_ & _ & B3 & _ & _ & _ & _ & B8).
  split_and!; [done|done|done| |done|done|].
  - rewrite ticks_armed, ticks_due; [lia|done|nia|]. apply later_due; [done|done|nia].
  - eexists. split; [|done]. apply due_lt. nia.
Qed.

(** The tenth interrupt of a counter of 11932, about 100 per second. *)
Lemma pit_rate_interrupts_witness : exists s0 s1 s2 t,
  pit_load_count 5000 (sample_channel 2 0) 11932 = Ok s0 /\
  fire (2 * 10 - 2) s0 = Ok s1 /\ irq_level s1 = 0 /\ irq_timer s1 = Some (Some t) /\ ticks s0 t = Z.of_nat 10 * 11932 /\
  fire (2 * 10 - 1) s0 = Ok s2 /\ irq_level s2 = 1 /\ exists t', t < t' /\ irq_timer s2 = Some (Some t').
Proof.
  apply (pit_rate_interrupts 5000 (sample_channel 2 0) 11932 10);
    [split; [discriminate|reflexivity]|reflexivity|discriminate|reflexivity|split; [discriminate|reflexivity]|lia|reflexivity].
Defined.

(** ** The ports *)

(** What the accesses keep of a channel: a counter that is not zero. *)
Definition channel_ok s : Prop := 0 < count s <= 0x10000 /\ 0 <= write_latch s < 256.

Definition pit_ok (pit : PITCommonState) : Prop := length (channels pit) = 3%nat /\ Forall channel_ok (channels pit).

Lemma on_channel pit i (f : PITChannelState -> outcome PITChannelState) : pit_ok pit -> 0 <= i < 3 ->
  (forall s, channel_ok s -> exists s', f s = Ok s' /\ channel_ok s') ->
  exists pit', (s ← get_channel pit i; s ← f s; Ok (put_channel pit i s)) = Ok pit' /\ pit_ok pit'.
Proof.
  intros [Hl HP] Hi Hf. unfold get_channel. destruct (Z.ltb_spec i 0); [lia|].
  destruct (lookup_lt_is_Some_2 (channels pit) (Z.to_nat i)) as [s Hs]; [lia|]. rewrite Hs. cbn [mbind outcome_bind].
  destruct (Hf s) as (s' & -> & Hs'); [by eapply Forall_lookup_1|]. cbn [mbind outcome_bind]. eexists. split; [done|].
  split; cbn; [by rewrite length_insert|by apply Forall_insert].
Qed.

Lemma set_count_true s : channel_ok s -> set (count s) = true.
Proof. intros [? _]. unfold set. destruct (Z.eqb_spec (count s) 0); [lia|done]. Qed.

Lemma get_count_total s now : channel_ok s -> exists v, pit_get_count s now = Ok v.
Proof.
  intros Hs. unfold pit_get_count. rewrite (set_count_true s Hs). cbn [c_assert mbind outcome_bind]. repeat case_match; by eexists.
Qed.

Lemma get_out_total s now : channel_ok s -> exists v, pit_get_out s now = Ok v.
Proof.
  intros Hs. unfold pit_get_out. rewrite (set_count_true s Hs). cbn [c_assert mbind outcome_bind]. repeat case_match; by eexists.
Qed.

Lemma next_transition_total s now : channel_ok s -> exists v, pit_get_next_transition_time s now = Ok v.
Proof.
  intros Hs. unfold pit_get_next_transition_time, next_tick. rewrite (set_count_true s Hs). cbn [c_assert mbind outcome_bind].
  destruct (mode s =? 2); [|destruct (mode s =? 3); [|destruct ((mode s =? 4) || (mode s =? 5))]]; by eexists.
Qed.

Lemma timer_update_total s now : channel_ok s -> exists s', pit_irq_timer_update s now = Ok s' /\ channel_ok s'.
Proof.
  intros Hs. unfold pit_irq_timer_update. destruct (irq_timer s); [|by exists s]. destruct (irq_disabled s); [by exists s|].
  destruct (next_transition_total s now Hs) as [v ->]. destruct (get_out_total s now Hs) as [w ->]. cbn [mbind outcome_bind].
  eexists. split; [done|]. by destruct s.
Qed.

Lemma latch_total s now : channel_ok s -> exists s', pit_latch_count now s = Ok s' /\ channel_ok s'.
Proof.
  intros Hs. unfold pit_latch_count. destruct (set (count_latched s)); [by exists s|].
  destruct (get_count_total s now Hs) as [v ->]. eexists. split; [done|]. by destruct s.
Qed.

Lemma load_total s now val : channel_ok s -> 0 <= val < 0x10000 -> exists s', pit_load_count now s val = Ok s' /\ channel_ok s'.
Proof.
  intros [Hc Hw] Hv. apply timer_update_total. destruct s. unfold channel_ok. cbn in *. destruct (Z.eqb_spec val 0); lia.
Qed.

Lemma data_write_total s now val : channel_ok s -> 0 <= val < 256 -> exists s', data_write now val s = Ok s' /\ channel_ok s'.
Proof.
  intros Hs Hv. unfold data_write. rewrite Z.shiftl_mul_pow2 by lia. pose proof Hs as [_ Hw].
  destruct (_ =? RW_STATE_MSB); [rewrite (swrap_small 32) by (unfold in_s; lia); apply load_total; [done|lia]|].
  destruct (_ =? RW_STATE_WORD0); [eexists; split; [done|]; destruct s; unfold channel_ok in *; cbn in *; rewrite (wrap_small 8) by lia; lia|].
  destruct (_ =? RW_STATE_WORD1); [|rewrite (swrap_small 32) by (unfold in_s; lia); apply load_total; [done|lia]].
  assert (Hr : 0 <= Z.lor (write_latch s) (val * 2 ^ 8) < 0x10000) by (apply (lor_range 16); lia).
  rewrite (swrap_small 32) by (unfold in_s; lia). destruct (load_total s now _ Hs Hr) as (s' & -> & Hs'). eexists. split; [done|]. by destruct s'.
Qed.

Lemma control_write_total s now val : channel_ok s -> exists s', control_write now val s = Ok s' /\ channel_ok s'.
Proof.
  intros Hs. unfold control_write. destruct (_ =? 0); [by apply latch_total|]. eexists. split; [done|]. by destruct s.
Qed.

Lemma read_back_total s now val : channel_ok s -> exists s', read_back now val s = Ok s' /\ channel_ok s'.
Proof.
  intros Hs. unfold read_back. assert (H1 : exists s1, (if set (Z.land val 0x20) then Ok s else pit_latch_count now s) = Ok s1 /\ channel_ok s1).
  { destruct (set _); [by exists s|by apply latch_total]. }
  destruct H1 as (s1 & -> & Hs1). cbn [mbind outcome_bind]. destruct (_ && _); [|by exists s1].
  destruct (get_out_total s1 now Hs1) as [v ->]. eexists. split; [done|]. by destruct s1.
Qed.

Lemma channel_read_total s now : channel_ok s -> exists s' v, channel_read now s = Ok (s', v) /\ channel_ok s'.
Proof.
  intros Hs. unfold channel_read. destruct (get_count_total s now Hs) as [v ->]. cbn [mbind outcome_bind].
  repeat case_match; do 2 eexists; (split; [done|]); by destruct s.
Qed.

Lemma reset_channel_total s now a b : channel_ok s -> exists s', pit_reset_channel now a b s = Ok s' /\ channel_ok s'.
Proof.
  intros [Hc Hw]. unfold pit_reset_channel. set (s1 := ch_set_count _ _). assert (Hs1 : channel_ok s1) by (by destruct s). clearbody s1.
  destruct (_ && _); [|by exists s1]. destruct (next_transition_total s1 now Hs1) as [v ->]. eexists. split; [done|]. by destruct s1.
Qed.

Lemma gate_total s now val : channel_ok s -> exists s', pit_set_channel_gate now s val = Ok s' /\ channel_ok s'.
Proof.
  intros Hs. unfold pit_set_channel_gate. destruct (_ && _).
  - destruct (timer_update_total (ch_set_count_load_time now s) now) as (s' & -> & Hs'); [by destruct s|]. eexists. split; [done|]. by destruct s'.
  - eexists. split; [done|]. by destruct s.
Qed.

(** What happens to the timer chip, each at a time of the virtual clock. *)
Variant pit_event :=
  | PitWrite (addr val : Z)
  | PitRead (addr : Z)
  | PitGate (channel val : Z)
  | PitExpire
  | PitReset
  | PitIrqControl (enable : bool).

Definition pit_step (pit : PITCommonState) (e : Z * pit_event) : outcome PITCommonState :=
  let '(now, e) := e in
  match e with
  | PitWrite addr val => pit_ioport_write now pit addr val
  | PitRead addr => '(pit, _) ← pit_ioport_read now pit addr; Ok pit
  | PitGate channel val => pit_set_gate now pit channel val
  | PitExpire => s ← get_channel pit 0; s ← pit_irq_timer s; Ok (put_channel pit 0 s)
  | PitReset => pit_reset now pit
  | PitIrqControl enable => pit_irq_control now pit enable
  end.

(** Bytes are written, and the control port is not read. *)
Definition pit_event_ok (e : Z * pit_event) : bool :=
  match snd e with
  | PitWrite _ val => (0 <=? val) && (val <? 256)
  | PitRead addr => negb (Z.land addr 3 =? 3)
  | PitGate channel _ => (0 <=? channel) && (channel <? 3)
  | _ => true
  end.

Lemma land_3 addr : 0 <= Z.land addr 3 < 4.
Proof. change 3 with (Z.ones 2). rewrite Z.land_ones by lia. apply Z.mod_pos_bound. lia. Qed.

Lemma pit_write_total pit now addr val : pit_ok pit -> 0 <= val < 256 -> exists pit', pit_ioport_write now pit addr val = Ok pit' /\ pit_ok pit'.
Proof.
  intros Hp Hv. unfold pit_ioport_write. pose proof (land_3 addr). destruct (Z.eqb_spec (Z.land addr 3) 3).
  - assert (Hq : 0 <= val / 2 ^ 6 < 4) by (split; [apply Z.div_pos; lia|apply Z.div_lt_upper_bound; lia]).
    rewrite Z.shiftr_div_pow2, (swrap_small 32) by (try (unfold in_s); lia). destruct (Z.eqb_spec (val / 2 ^ 6) 3).
    + unfold read_back_channels. generalize dependent pit.
      assert (Hi : Forall (fun i => 0 <= i < 3) [0; 1; 2]) by (repeat constructor; lia).
      induction Hi as [|i l Hi _ IH]; intros pit Hp; cbn [ofold]; [by exists pit|].
      destruct (set (Z.land val (Z.shiftl 2 i))); [|by apply IH].
      destruct (on_channel pit i (read_back now val) Hp Hi (fun s => read_back_total s now val)) as (pit' & -> & Hp'). by apply IH.
    + apply on_channel; [done|lia|]. intros s. apply control_write_total.
  - apply on_channel; [done|lia|]. intros s Hs. by apply data_write_total.
Qed.

Lemma pit_read_total pit now addr : pit_ok pit -> Z.land addr 3 <> 3 -> exists pit' v, pit_ioport_read now pit addr = Ok (pit', v) /\ pit_ok pit'.
Proof.
  intros Hp Ha. unfold pit_ioport_read. pose proof (land_3 addr).
  destruct (on_channel pit (Z.land addr 3) (fun s => '(s, _) ← channel_read now s; Ok s) Hp ltac:(lia)) as (pit' & E & Hp').
  { intros s Hs. destruct (channel_read_total s now Hs) as (s' & v & -> & Hs'). by exists s'. }
  destruct (get_channel pit (Z.land addr 3)) as [s| |]; [|done..]. cbn [mbind outcome_bind] in *.
  destruct (channel_read now s) as [[s' v]| |]; [|done..]. cbn [mbind outcome_bind] in *. inversion E; subst. by do 2 eexists.
Qed.

Lemma pit_reset_total pit now : pit_ok pit -> exists pit', pit_reset now pit = Ok pit' /\ pit_ok pit'.
Proof.
  intros Hp. unfold pit_reset, pit_reset_common.
  assert (H1 : exists p1, ofold (fun pit i => s ← get_channel pit i; s ← pit_reset_channel now (i =? 0) (i =? 2) s; Ok (put_channel pit i s)) pit [0; 1; 2] = Ok p1 /\ pit_ok p1).
  { assert (Hi : Forall (fun i => 0 <= i < 3) [0; 1; 2]) by (repeat constructor; lia). revert pit Hp.
    induction Hi as [|i l Hi _ IH]; intros pit Hp; cbn [ofold]; [by exists pit|].
    destruct (on_channel pit i (pit_reset_channel now (i =? 0) (i =? 2)) Hp Hi) as (p1 & -> & Hp1); [intros s; apply reset_channel_total|].
    by apply IH. }
  destruct H1 as (p1 & -> & Hp1). cbn [mbind outcome_bind].
  destruct (on_channel p1 0 (fun s => Ok (if irq_disabled s then s else ch_set_irq_timer (Some (Some (next_transition_time s))) s)) Hp1 ltac:(lia)) as (p2 & E & Hp2).
  { intros s Hs. eexists. split; [done|]. destruct (irq_disabled s); [done|by destruct s]. }
  destruct (get_channel p1 0) as [s| |]; [|done..]. cbn [mbind outcome_bind] in *. eexists. split; [done|].
  destruct (irq_disabled s); [done|]. inversion E. by subst.
Qed.

Lemma pit_step_total pit e : pit_ok pit -> pit_event_ok e = true -> exists pit', pit_step pit e = Ok pit' /\ pit_ok pit'.
Proof.
  intros Hp He. destruct e as [now [addr val|addr|channel val| | |enable]]; cbn [pit_step pit_event_ok snd] in *.
  - apply pit_write_total; [done|]. apply andb_true_iff in He. lia.
  - apply negb_true_iff, Z.eqb_neq in He. destruct (pit_read_total pit now addr Hp He) as (p & v & -> & Hp'). by exists p.
  - apply on_channel; [done|apply andb_true_iff in He; lia|]. intros s. apply gate_total.
  - apply on_channel; [done|lia|]. intros s. apply timer_update_total.
  - by apply pit_reset_total.
  - unfold pit_irq_control. destruct (on_channel pit 0 (fun s => if enable then pit_irq_timer_update (ch_set_irq_disabled false s) now
      else Ok (ch_set_irq_timer (Some None) (ch_set_irq_disabled true s))) Hp ltac:(lia)) as (p & E & Hp').
    { intros s Hs. destruct enable; [apply timer_update_total; by destruct s|]. eexists. split; [done|]. by destruct s. }
    destruct (get_channel pit 0); [|done..]. cbn [mbind outcome_bind] in *. destruct enable; by exists p.
Qed.

(** C29 (safety): no sequence of port writes, of reads of the three counters, of
    gate changes, timer expirations, resets and interrupt control, at any
    times, divides by zero or leaves the channel array; every counter stays
    between 1 and 65536. *)
Theorem pit_ports_safe pit es : pit_ok pit -> Forall (fun e => pit_event_ok e = true) es ->
  exists pit', ofold pit_step pit es = Ok pit' /\ pit_ok pit'.
Proof.
  intros Hp Hes. revert pit Hp. induction Hes as [|e es He _ IH]; intros pit Hp; cbn [ofold]; [by exists pit|].
  destruct (pit_step_total pit e Hp He) as (p & -> & Hp'). by apply IH.
Qed.

(** Load counter 0 with 0, meaning 65536, as a rate generator; latch; read. *)
Lemma pit_ports_safe_witness : exists pit', ofold pit_step {| channels := replicate 3 (sample_channel 3 0x10000) |}
  [(2000, PitReset); (3000, PitWrite 3 0x34); (3001, PitWrite 0 0); (3002, PitWrite 0 0); (99000, PitWrite 3 0xC2);
   (99100, PitRead 0); (99200, PitRead 0); (54929000, PitExpire); (54929001, PitGate 2 1); (54929002, PitIrqControl false)] = Ok pit' /\ pit_ok pit'.
Proof.
  apply pit_ports_safe; [split; [reflexivity|]|]; repeat (constructor; [first [reflexivity|split; split; first [discriminate|reflexivity]]|]); constructor.
Defined.

(** ** Findings *)

(** A read of the control port takes a fourth element of the array of three. *)
Lemma control_read_out_of_bounds pit now : pit_ok pit -> pit_ioport_read now pit 3 = Abort.
Proof.
  intros [Hl _]. unfold pit_ioport_read, get_channel. change (Z.land 3 3 <? 0) with false.
  change (Z.to_nat (Z.land 3 3)) with 3%nat. by rewrite lookup_ge_None_2 by lia.
Qed.

(** When the tick after a period is due at a whole nanosecond, the rounding the
    rate generator relies on does not happen: the tenth interrupt of a counter
    of 59659 is not raised although the tenth period is over. *)
Lemma rate_interrupt_lost :
  (s0 ← pit_load_count 0 (sample_channel 2 0) 59659; s1 ← fire 18 s0; s2 ← fire 19 s0;
   Ok (irq_level s1, ticks s0 (next_transition_time s1), irq_level s2)) = Ok (0, 10 * 59659 + 1, 0).
Proof. vm_compute. reflexivity. Qed.

(** The modes 6 and 7 count down periodically, as mode 2 does, but their
    output is that of mode 0. *)
Lemma undefined_modes_disagree s t : loaded s -> mode s = 6 -> count_load_time s <= t < 2 ^ 61 -> count s <= ticks s t ->
  pit_get_out s t = Ok 1 /\ pit_get_count s t = Ok (count s - ticks s t mod count s).
Proof.
  intros Hs Hm Ht Hd. destruct (count_words s Hs) as (E1 & E2 & _). pose proof Hs as [Hc _].
  split; [rewrite pit_get_out_spec by done; unfold out_at; rewrite Hm; cbn [Z.eqb Pos.eqb orb]; by destruct (Z.leb_spec (count s) (ticks s t)); [|lia]|].
  unfold pit_get_count. rewrite Hm, E1, E2. cbn [Z.eqb Pos.eqb orb c_assert mbind outcome_bind].
  pose proof (Z.mod_pos_bound (ticks s t) (count s) ltac:(lia)). rewrite (wrap_small 64), (swrap_small 32) by (try (unfold in_s); lia). done.
Qed.

(** A counter of 1 in square wave mode has a constant output, but a next
    transition is announced for every tick. *)
Lemma square_wave_of_one s t : loaded s -> mode s = 3 -> count s = 1 -> pit_get_out s t = Ok 1.
Proof.
  intros Hs Hm Hc. rewrite pit_get_out_spec by done. unfold out_at. rewrite Hm, Hc, Z.mod_1_r. done.
Qed.

Lemma square_wave_of_one_transition : (s ← pit_load_count 0 (sample_channel 3 0) 1; Ok (count s, pit_get_next_transition_time s 5000)) = Ok (1, Ok 5028).
Proof. vm_compute. reflexivity. Qed.
