(* ===== verification/QemuTimer.v ===== *)
(** * Timers and their deadlines (qemu-timer.c, include/qemu/timer.h)

    A timer list is a singly linked list of timers in order of expiry.  Timers
    and timer lists live in finite maps indexed by their addresses, links are
    addresses, and the [QEMUTimer **] that the list operations move along the
    list is a [slot].  The abstract specification is a queue of timers with
    their expiry times for each list; the operations refine it.

    Calls that leave the component (notifiers, [qemu_notify_event],
    [qemu_clock_warp], waiting for an event) are recorded in [events].  The
    host's clocks are read from [host].  Timer callbacks are a parameter and
    may change the whole state, which includes what other threads do while the
    lock of the list is not held. *)
From stdpp Require Import sorting.
From S2P Require Import Prelude.

Abbreviation addr := Z (only parsing).

Inductive QEMUClockType := QEMU_CLOCK_REALTIME | QEMU_CLOCK_VIRTUAL | QEMU_CLOCK_HOST.

#[global] Instance clock_type_eq : EqDecision QEMUClockType.
Proof. solve_decision. Defined.

(** [for (type = 0; type < QEMU_CLOCK_MAX; type++)] *)
Definition all_clocks : list QEMUClockType := [QEMU_CLOCK_REALTIME; QEMU_CLOCK_VIRTUAL; QEMU_CLOCK_HOST].

(** The value of the enumeration, an index of [qemu_clocks] and of a group. *)
Definition clock_index (type : QEMUClockType) : nat :=
  match type with QEMU_CLOCK_REALTIME => 0 | QEMU_CLOCK_VIRTUAL => 1 | QEMU_CLOCK_HOST => 2 end%nat.

Definition SCALE_MS : Z := 1000000.
Definition INT32_MAX : Z := 0x7fffffff.
Definition INT64_MIN : Z := - 2 ^ 63.

Record QEMUTimer := {
  expire_time : Z;
  timer_list : addr;
  cb : Z;
  opaque : Z;
  next : option addr;
  scale : Z
}.

Record QEMUTimerList := {
  tl_clock : QEMUClockType;
  active_timers : option addr;
  notify_cb : option Z;
  notify_opaque : Z;
  timers_done_ev : bool
}.

Record QEMUClock := {
  timerlists : list addr;
  reset_notifiers : list Z;
  clock_last : Z;
  clock_type : QEMUClockType;
  enabled : bool
}.

(** [QEMUTimerListGroup]: [tl[QEMU_CLOCK_MAX]] *)
Abbreviation QEMUTimerListGroup := (list Z) (only parsing).

(** What the functions read from the host and from the CPU loop. *)
Record HostClocks := {
  get_clock : Z;
  get_clock_realtime : Z;
  cpu_get_clock : Z;
  cpu_get_icount : Z;
  use_icount : bool
}.

Inductive Event :=
| Notify (callback opaque : Z)
| NotifyMainLoop
| ClockWarp (type : QEMUClockType)
| WaitDone (tl : addr)
| ClockReset (notifier now : Z).

(** [devices] is the state of the devices that timer callbacks work on. *)
Record MachineState (D : Type) := {
  timers : gmap addr QEMUTimer;
  lists : gmap addr QEMUTimerList;
  qemu_clocks : list QEMUClock;
  main_loop_tlg : QEMUTimerListGroup;
  host : HostClocks;
  events : list Event;
  devices : D
}.
Arguments timers {D}.
Arguments lists {D}.
Arguments qemu_clocks {D}.
Arguments main_loop_tlg {D}.
Arguments host {D}.
Arguments events {D}.
Arguments devices {D}.

(** ** Assignments *)
Definition set_expire_time (e : Z) (ts : QEMUTimer) : QEMUTimer :=
  {| expire_time := e; timer_list := timer_list ts; cb := cb ts; opaque := opaque ts; next := next ts; scale := scale ts |}.
Definition set_next (n : option addr) (ts : QEMUTimer) : QEMUTimer :=
  {| expire_time := expire_time ts; timer_list := timer_list ts; cb := cb ts; opaque := opaque ts; next := n; scale := scale ts |}.
Definition set_active (t : option addr) (l : QEMUTimerList) : QEMUTimerList :=
  {| tl_clock := tl_clock l; active_timers := t; notify_cb := notify_cb l; notify_opaque := notify_opaque l; timers_done_ev := timers_done_ev l |}.
Definition set_done (d : bool) (l : QEMUTimerList) : QEMUTimerList :=
  {| tl_clock := tl_clock l; active_timers := active_timers l; notify_cb := notify_cb l; notify_opaque := notify_opaque l; timers_done_ev := d |}.
Definition set_timerlists (ls : list addr) (c : QEMUClock) : QEMUClock :=
  {| timerlists := ls; reset_notifiers := reset_notifiers c; clock_last := clock_last c; clock_type := clock_type c; enabled := enabled c |}.
Definition set_reset_notifiers (ns : list Z) (c : QEMUClock) : QEMUClock :=
  {| timerlists := timerlists c; reset_notifiers := ns; clock_last := clock_last c; clock_type := clock_type c; enabled := enabled c |}.
Definition set_last (l : Z) (c : QEMUClock) : QEMUClock :=
  {| timerlists := timerlists c; reset_notifiers := reset_notifiers c; clock_last := l; clock_type := clock_type c; enabled := enabled c |}.
Definition set_enabled (e : bool) (c : QEMUClock) : QEMUClock :=
  {| timerlists := timerlists c; reset_notifiers := reset_notifiers c; clock_last := clock_last c; clock_type := clock_type c; enabled := e |}.

Section QemuTimer.
Context {D : Type}.
Abbreviation World := (MachineState D).

Definition put_timers (m : gmap addr QEMUTimer) (w : World) : World :=
  {| timers := m; lists := lists w; qemu_clocks := qemu_clocks w; main_loop_tlg := main_loop_tlg w; host := host w; events := events w; devices := devices w |}.
Definition put_lists (m : gmap addr QEMUTimerList) (w : World) : World :=
  {| timers := timers w; lists := m; qemu_clocks := qemu_clocks w; main_loop_tlg := main_loop_tlg w; host := host w; events := events w; devices := devices w |}.
Definition put_clocks (cs : list QEMUClock) (w : World) : World :=
  {| timers := timers w; lists := lists w; qemu_clocks := cs; main_loop_tlg := main_loop_tlg w; host := host w; events := events w; devices := devices w |}.
Definition put_tlg (g : QEMUTimerListGroup) (w : World) : World :=
  {| timers := timers w; lists := lists w; qemu_clocks := qemu_clocks w; main_loop_tlg := g; host := host w; events := events w; devices := devices w |}.
Definition emit (es : list Event) (w : World) : World :=
  {| timers := timers w; lists := lists w; qemu_clocks := qemu_clocks w; main_loop_tlg := main_loop_tlg w; host := host w; events := events w ++ es; devices := devices w |}.

(** ** Memory accesses; a dangling pointer or an index out of range aborts *)
Definition from_heap {A} (o : option A) : outcome A := match o with Some a => Ok a | None => Abort end.

Definition timer_at (w : World) (t : addr) : outcome QEMUTimer := from_heap (timers w !! t).
Definition list_at (w : World) (tl : addr) : outcome QEMUTimerList := from_heap (lists w !! tl).
Definition qemu_clock_ptr (w : World) (type : QEMUClockType) : outcome QEMUClock := from_heap (qemu_clocks w !! clock_index type).
Definition group_at (g : QEMUTimerListGroup) (type : QEMUClockType) : outcome addr := from_heap (g !! clock_index type).

Definition on_timer (f : QEMUTimer -> QEMUTimer) (t : addr) (w : World) : outcome World :=
  ts ← timer_at w t; Ok (put_timers (<[t := f ts]> (timers w)) w).
Definition on_list (f : QEMUTimerList -> QEMUTimerList) (tl : addr) (w : World) : outcome World :=
  l ← list_at w tl; Ok (put_lists (<[tl := f l]> (lists w)) w).
Definition on_clock (f : QEMUClock -> QEMUClock) (type : QEMUClockType) (w : World) : outcome World :=
  c ← qemu_clock_ptr w type; Ok (put_clocks (<[clock_index type := f c]> (qemu_clocks w)) w).

(** A [QEMUTimer **]: the head of the list, or the link of a timer. *)
Inductive slot := Head | NextOf (t : addr).

Definition load_slot (w : World) (tl : addr) (pt : slot) : outcome (option addr) :=
  match pt with
  | Head => l ← list_at w tl; Ok (active_timers l)
  | NextOf t => ts ← timer_at w t; Ok (next ts)
  end.

Definition store_slot (w : World) (tl : addr) (pt : slot) (v : option addr) : outcome World :=
  match pt with
  | Head => on_list (set_active v) tl w
  | NextOf t => on_timer (set_next v) t w
  end.

(** ** Clocks *)
Definition notifier_list_notify (ns : list Z) (now : Z) (w : World) : World := emit (map (fun n => ClockReset n now) ns) w.

Definition qemu_clock_get_ns (w : World) (type : QEMUClockType) : outcome (World * Z) :=
  clock ← qemu_clock_ptr w type;
  match type with
  | QEMU_CLOCK_REALTIME => Ok (w, get_clock (host w))
  | QEMU_CLOCK_VIRTUAL => Ok (w, if use_icount (host w) then cpu_get_icount (host w) else cpu_get_clock (host w))
  | QEMU_CLOCK_HOST =>
    let now := get_clock_realtime (host w) in
    w ← on_clock (set_last now) type w;
    Ok (if now <? clock_last clock then notifier_list_notify (reset_notifiers clock) now w else w, now)
  end.

Definition timerlist_notify (w : World) (tl : addr) : outcome World :=
  l ← list_at w tl;
  Ok (emit [match notify_cb l with Some c => Notify c (notify_opaque l) | None => NotifyMainLoop end] w).

Definition qemu_clock_notify (w : World) (type : QEMUClockType) : outcome World :=
  clock ← qemu_clock_ptr w type; ofold timerlist_notify w (timerlists clock).

Definition qemu_clock_enable (w : World) (type : QEMUClockType) (enable : bool) : outcome World :=
  clock ← qemu_clock_ptr w type;
  let old := enabled clock in
  w ← on_clock (set_enabled enable) type w;
  if enable && negb old then qemu_clock_notify w type
  else if negb enable && old then Ok (emit (map WaitDone (timerlists clock)) w)
  else Ok w.

Definition qemu_clock_use_for_deadline (w : World) (type : QEMUClockType) : bool :=
  negb (use_icount (host w) && bool_decide (type = QEMU_CLOCK_VIRTUAL)).

Definition qemu_clock_register_reset_notifier (w : World) (type : QEMUClockType) (notifier : Z) : outcome World :=
  on_clock (fun c => set_reset_notifiers (notifier :: reset_notifiers c) c) type w.

(** The notifier is unlinked from the list it is on, whatever [type] is. *)
Definition qemu_clock_unregister_reset_notifier (w : World) (type : QEMUClockType) (notifier : Z) : outcome World :=
  Ok (put_clocks (map (fun c => set_reset_notifiers (filter (fun n => n <> notifier) (reset_notifiers c)) c) (qemu_clocks w)) w).

(** ** Timer lists; [p] is the address [g_malloc0] returns *)
Definition timerlist_new (p : addr) (w : World) (type : QEMUClockType) (callback : option Z) (data : Z) : outcome World :=
  w ← on_clock (fun c => set_timerlists (p :: timerlists c) c) type w;
  Ok (put_lists (<[p := {| tl_clock := type; active_timers := None; notify_cb := callback; notify_opaque := data; timers_done_ev := false |}]> (lists w)) w).

Definition timerlist_has_timers (w : World) (tl : addr) : outcome bool := l ← list_at w tl; Ok (bool_decide (active_timers l <> None)).

Definition timerlist_free (w : World) (tl : addr) : outcome World :=
  has ← timerlist_has_timers w tl;
  _ ← c_assert (negb has);
  l ← list_at w tl;
  w ← on_clock (fun c => set_timerlists (filter (fun p => p <> tl) (timerlists c)) c) (tl_clock l) w;
  Ok (put_lists (delete tl (lists w)) w).

Definition timerlist_expired (w : World) (tl : addr) : outcome (World * bool) :=
  l ← list_at w tl;
  match active_timers l with
  | None => Ok (w, false)
  | Some t => ts ← timer_at w t; '(w, now) ← qemu_clock_get_ns w (tl_clock l); Ok (w, expire_time ts <? now)
  end.

Definition timerlist_deadline_ns (w : World) (tl : addr) : outcome (World * Z) :=
  l ← list_at w tl;
  clock ← qemu_clock_ptr w (tl_clock l);
  if negb (enabled clock) then Ok (w, -1) else
  match active_timers l with
  | None => Ok (w, -1)
  | Some t =>
    ts ← timer_at w t;
    '(w, now) ← qemu_clock_get_ns w (tl_clock l);
    let delta := s64 (expire_time ts - now) in
    Ok (w, if delta <=? 0 then 0 else delta)
  end.

Definition qemu_soonest_timeout (timeout1 timeout2 : Z) : Z := if u64 timeout1 <? u64 timeout2 then timeout1 else timeout2.

Definition qemu_clock_deadline_ns_all (w : World) (type : QEMUClockType) : outcome (World * Z) :=
  clock ← qemu_clock_ptr w type;
  ofold (fun '(w, deadline) tl => '(w, d) ← timerlist_deadline_ns w tl; Ok (w, qemu_soonest_timeout deadline d)) (w, -1) (timerlists clock).

Definition qemu_timeout_ns_to_ms (ns : Z) : Z :=
  if ns <? 0 then -1 else
  if ns =? 0 then 0 else
  let ms := Z.quot (s64 (ns + SCALE_MS - 1)) SCALE_MS in
  s32 (if INT32_MAX <? ms then INT32_MAX else ms).

(** ** Timers *)
Definition timer_init (w : World) (t tl : addr) (sc callback data : Z) : outcome World :=
  on_timer (fun ts => {| expire_time := -1; timer_list := tl; cb := callback; opaque := data; next := next ts; scale := sc |}) t w.

(** [g_malloc0] returns [p]; a zeroed timer points to no list. *)
Definition timer_new_tl (p : addr) (w : World) (tl : addr) (sc callback data : Z) : outcome World :=
  timer_init (put_timers (<[p := {| expire_time := 0; timer_list := 0; cb := 0; opaque := 0; next := None; scale := 0 |}]> (timers w)) w)
    p tl sc callback data.

Definition timer_new (p : addr) (w : World) (type : QEMUClockType) (sc callback data : Z) : outcome World :=
  tl ← group_at (main_loop_tlg w) type; timer_new_tl p w tl sc callback data.

Definition timer_free (w : World) (t : addr) : outcome World := _ ← timer_at w t; Ok (put_timers (delete t (timers w)) w).

Definition timer_expired_ns (w : World) (timer_head : option addr) (current_time : Z) : outcome bool :=
  match timer_head with
  | None => Ok false
  | Some t => ts ← timer_at w t; Ok (expire_time ts <=? current_time)
  end.

Fixpoint del_loop (fuel : nat) (w : World) (tl t : addr) (pt : slot) : outcome World :=
  match fuel with
  | O => NoFuel
  | S fuel =>
    p ← load_slot w tl pt;
    match p with
    | None => Ok w
    | Some t' => if t' =? t then ts ← timer_at w t'; store_slot w tl pt (next ts) else del_loop fuel w tl t (NextOf t')
    end
  end.

(** A list without cycles has at most as many links as there are timers. *)
Definition walk_fuel (w : World) : nat := S (size (timers w)).

Definition timer_del_locked (w : World) (tl t : addr) : outcome World :=
  w ← on_timer (set_expire_time (-1)) t w; del_loop (walk_fuel w) w tl t Head.

Fixpoint position_loop (fuel : nat) (w : World) (tl : addr) (expire : Z) (pt : slot) : outcome slot :=
  match fuel with
  | O => NoFuel
  | S fuel =>
    p ← load_slot w tl pt;
    expired ← timer_expired_ns w p expire;
    if negb expired then Ok pt else t ← from_heap p; position_loop fuel w tl expire (NextOf t)
  end.

Definition timer_mod_ns_locked (w : World) (tl t : addr) (expire : Z) : outcome (World * bool) :=
  pt ← position_loop (walk_fuel w) w tl expire Head;
  w ← on_timer (set_expire_time (Z.max expire 0)) t w;
  n ← load_slot w tl pt;
  w ← on_timer (set_next n) t w;
  w ← store_slot w tl pt (Some t);
  Ok (w, match pt with Head => true | NextOf _ => false end).

Definition timerlist_rearm (w : World) (tl : addr) : outcome World :=
  l ← list_at w tl; timerlist_notify (emit [ClockWarp (tl_clock l)] w) tl.

Definition timer_del (w : World) (t : addr) : outcome World := ts ← timer_at w t; timer_del_locked w (timer_list ts) t.

Definition timer_mod_ns (w : World) (t : addr) (expire : Z) : outcome World :=
  ts ← timer_at w t;
  let tl := timer_list ts in
  w ← timer_del_locked w tl t;
  '(w, rearm) ← timer_mod_ns_locked w tl t expire;
  if (rearm : bool) then timerlist_rearm w tl else Ok w.

Definition timer_mod_anticipate_ns (w : World) (t : addr) (expire : Z) : outcome World :=
  ts ← timer_at w t;
  let tl := timer_list ts in
  '(w, rearm) ←
    (if (expire_time ts =? -1) || (expire <? expire_time ts) then
       w ← (if negb (expire_time ts =? -1) then timer_del_locked w tl t else Ok w);
       timer_mod_ns_locked w tl t expire
     else Ok (w, false));
  if (rearm : bool) then timerlist_rearm w tl else Ok w.

Definition timer_mod (w : World) (t : addr) (expire : Z) : outcome World :=
  ts ← timer_at w t; timer_mod_ns w t (s64 (expire * scale ts)).

Definition timer_mod_anticipate (w : World) (t : addr) (expire : Z) : outcome World :=
  ts ← timer_at w t; timer_mod_anticipate_ns w t (s64 (expire * scale ts)).

Definition timer_pending (w : World) (t : addr) : outcome bool := ts ← timer_at w t; Ok (0 <=? expire_time ts).

Definition timer_expired (w : World) (t : addr) (current_time : Z) : outcome bool :=
  ts ← timer_at w t; timer_expired_ns w (Some t) (s64 (current_time * scale ts)).

Definition timer_expire_time_ns (w : World) (t : addr) : outcome Z :=
  pending ← timer_pending w t; ts ← timer_at w t; Ok (if (pending : bool) then u64 (expire_time ts) else u64 (-1)).

(** ** Running timers

    [callback] stands for the functions that timers call.  [fired] collects
    the timers whose callbacks ran. *)
Section Run.
Context (callback : Z -> Z -> World -> outcome World).

Fixpoint run_loop (fuel : nat) (w : World) (tl : addr) (current_time : Z) (progress : bool) (fired : list addr) : outcome (World * bool * list addr) :=
  match fuel with
  | O => NoFuel
  | S fuel =>
    l ← list_at w tl;
    expired ← timer_expired_ns w (active_timers l) current_time;
    if negb expired then Ok (w, progress, fired) else
    t ← from_heap (active_timers l);
    ts ← timer_at w t;
    w ← on_list (set_active (next ts)) tl w;
    w ← on_timer (fun ts => set_expire_time (-1) (set_next None ts)) t w;
    w ← callback (cb ts) (opaque ts) w;
    run_loop fuel w tl current_time true (fired ++ [t])
  end.

Definition timerlist_run_timers (fuel : nat) (w : World) (tl : addr) : outcome (World * bool * list addr) :=
  w ← on_list (set_done false) tl w;
  l ← list_at w tl;
  clock ← qemu_clock_ptr w (tl_clock l);
  '(w, progress, fired) ←
    (if negb (enabled clock) then Ok (w, false, []) else
     '(w, current_time) ← qemu_clock_get_ns w (tl_clock l);
     run_loop fuel w tl current_time false []);
  w ← on_list (set_done true) tl w;
  Ok (w, progress, fired).

Definition timerlistgroup_run_timers (fuel : nat) (w : World) (tlg : QEMUTimerListGroup) : outcome (World * bool * list addr) :=
  ofold (fun '(w, progress, fired) type =>
    tl ← group_at tlg type;
    '(w, p, f) ← timerlist_run_timers fuel w tl;
    Ok (w, progress || p, fired ++ f)) (w, false, []) all_clocks.

Definition qemu_clock_run_timers (fuel : nat) (w : World) (type : QEMUClockType) : outcome (World * bool * list addr) :=
  tl ← group_at (main_loop_tlg w) type; timerlist_run_timers fuel w tl.

Definition qemu_clock_run_all_timers (fuel : nat) (w : World) : outcome (World * bool * list addr) :=
  ofold (fun '(w, progress, fired) type =>
    '(w, p, f) ← qemu_clock_run_timers fuel w type;
    Ok (w, progress || p, fired ++ f)) (w, false, []) all_clocks.
End Run.

(** ** Groups and initialisation; [ps] are the addresses of the new lists *)
Definition timerlistgroup_init (ps : list addr) (w : World) (callback : option Z) (data : Z) : outcome (World * QEMUTimerListGroup) :=
  ofold (fun '(w, g) type => p ← group_at ps type; w ← timerlist_new p w type callback data; Ok (w, g ++ [p])) (w, []) all_clocks.

Definition timerlistgroup_deinit (w : World) (tlg : QEMUTimerListGroup) : outcome World :=
  ofold (fun w type => tl ← group_at tlg type; timerlist_free w tl) w all_clocks.

(** The body of the loop of [timerlistgroup_deadline_ns]. *)
Definition group_deadline (tlg : QEMUTimerListGroup) (acc : World * Z) (type : QEMUClockType) : outcome (World * Z) :=
  let '(w, deadline) := acc in
  tl ← group_at tlg type;
  l ← list_at w tl;
  if qemu_clock_use_for_deadline w (tl_clock l) then
    '(w, d) ← timerlist_deadline_ns w tl; Ok (w, qemu_soonest_timeout deadline d)
  else Ok (w, deadline).

Definition timerlistgroup_deadline_ns (w : World) (tlg : QEMUTimerListGroup) : outcome (World * Z) :=
  ofold (group_deadline tlg) (w, -1) all_clocks.

Definition qemu_clock_init (p : addr) (w : World) (type : QEMUClockType) : outcome World :=
  w ← on_clock (fun _ => {| timerlists := []; reset_notifiers := []; clock_last := INT64_MIN; clock_type := type; enabled := true |}) type w;
  w ← timerlist_new p w type None 0;
  Ok (put_tlg (<[clock_index type := p]> (main_loop_tlg w)) w).

Definition init_clocks (ps : list addr) (w : World) : outcome World :=
  ofold (fun w type => p ← group_at ps type; qemu_clock_init p w type) w all_clocks.

(** ** Linked lists

    [chain h p l]: following the links from [p] visits the timers [l]. *)
Fixpoint chain (h : gmap addr QEMUTimer) (p : option addr) (l : list addr) : Prop :=
  match l with
  | [] => p = None
  | t :: l => p = Some t /\ exists n, next <$> h !! t = Some n /\ chain h n l
  end.

Lemma chain_frame h h' l : forall p, (forall t, t ∈ l -> next <$> h' !! t = next <$> h !! t) -> chain h p l -> chain h' p l.
Proof.
  induction l as [|t l IH]; intros p Hf; cbn; [done|]. intros (-> & n & Hn & Hc). split; [done|]. exists n.
  rewrite Hf by left. split; [done|]. apply IH; [|done]. intros t' Ht'. apply Hf. by right.
Qed.

Lemma chain_lookup h l : forall p t, chain h p l -> t ∈ l -> is_Some (h !! t).
Proof.
  induction l as [|t' l IH]; intros p t; cbn; [by intros _ ?%elem_of_nil|]. intros (-> & n & Hn & Hc) [->|Ht]%elem_of_cons; [|by eapply IH].
  destruct (h !! t'); [done|discriminate].
Qed.

(** The slot that holds the [k]-th link of the list [l]. *)
Definition slot_at (l : list addr) (k : nat) : slot :=
  match k with O => Head | S j => match l !! j with Some t => NextOf t | None => Head end end.

Definition linked (w : World) (tl : addr) (l : list addr) : Prop :=
  exists L, lists w !! tl = Some L /\ chain (timers w) (active_timers L) l /\ NoDup l.

Lemma chain_next h l : forall p k t, chain h p l -> l !! k = Some t -> next <$> h !! t = Some (l !! S k) /\ chain h (l !! S k) (drop (S k) l).
Proof.
  induction l as [|t' l IH]; intros p k t; [done|]. intros (-> & n & Hn & Hc) Hk. destruct k as [|k].
  - cbn in Hk. injection Hk as ->. cbn. destruct l as [|t2 l]; cbn in *; [by subst n|]. destruct Hc as (-> & n' & Hn' & Hc). eauto.
  - cbn in Hk. cbn. by eapply IH.
Qed.

Lemma load_slot_at w tl l k : linked w tl l -> (k <= length l)%nat -> load_slot w tl (slot_at l k) = Ok (l !! k).
Proof.
  intros (L & HL & Hc & Hd) Hk. destruct k as [|k]; cbn.
  - unfold list_at. rewrite HL. cbn. destruct l; cbn in *; [by rewrite Hc|by destruct Hc as (-> & _)].
  - destruct (lookup_lt_is_Some_2 l k) as [t Ht]; [lia|]. rewrite Ht. cbn. unfold timer_at.
    destruct (chain_next _ _ _ _ _ Hc Ht) as [Hn _]. destruct (timers w !! t) as [ts|]; [|done]. cbn in *. by injection Hn as ->.
Qed.

Lemma linked_fuel w tl l : linked w tl l -> (length l < walk_fuel w)%nat.
Proof.
  intros (L & HL & Hc & Hd). unfold walk_fuel. assert (length l <= size (timers w))%nat; [|lia].
  rewrite <- (size_dom (D := gset Z)), <- (size_list_to_set (C := gset Z)) by done. apply subseteq_size. intros t Ht%elem_of_list_to_set.
  apply elem_of_dom. by eapply chain_lookup.
Qed.

(** What storing through a slot of the list [tl] leaves alone. *)
Record relinked (tl : addr) (on : list addr) (w w' : World) : Prop := {
  relinked_timers : forall t, set_next None <$> timers w' !! t = set_next None <$> timers w !! t;
  relinked_others : forall t, t ∉ on -> timers w' !! t = timers w !! t;
  relinked_list : exists L p, lists w !! tl = Some L /\ lists w' = <[tl := set_active p L]> (lists w);
  relinked_rest : qemu_clocks w' = qemu_clocks w /\ main_loop_tlg w' = main_loop_tlg w /\ host w' = host w /\ devices w' = devices w /\ events w' = events w
}.

Lemma chain_store h l : forall p k v l2, chain h p l -> NoDup (take (S k) l ++ l2) -> (k < length l)%nat -> chain h v l2 ->
  exists t ts, l !! k = Some t /\ h !! t = Some ts /\ chain (<[t := set_next v ts]> h) p (take (S k) l ++ l2).
Proof.
  induction l as [|t l IH]; intros p k v l2; cbn; [lia|]. intros (-> & n & Hn & Hc) [Hnin Hd]%NoDup_cons Hk Hv.
  destruct k as [|k].
  - destruct (h !! t) as [ts|] eqn:Ht; [|done]. exists t, ts. split_and!; try done. exists v. rewrite lookup_insert_eq. split; [done|].
    cbn. apply (chain_frame h); [|done]. intros t' Ht'. rewrite lookup_insert_ne; [done|]. intros ->. apply Hnin, elem_of_app. by right.
  - destruct (IH n k v l2) as (t' & ts & Hl & Ht & Hc'); [done|done|lia|done|]. exists t', ts. split_and!; try done. exists n.
    rewrite lookup_insert_ne; [done|]. intros ->. apply Hnin, elem_of_app. left. apply list_elem_of_lookup. exists k.
    rewrite lookup_take_lt by lia. done.
Qed.

Lemma store_slot_at w tl l k v l2 : linked w tl l -> (k <= length l)%nat -> chain (timers w) v l2 -> NoDup (take k l ++ l2) ->
  exists w', store_slot w tl (slot_at l k) v = Ok w' /\ linked w' tl (take k l ++ l2) /\ relinked tl (take k l) w w'.
Proof.
  intros (L & HL & Hc & Hd) Hk Hv Hd2. destruct k as [|k].
  - cbn. unfold on_list, list_at. rewrite HL. cbn. eexists. split; [done|]. split.
    + eexists. cbn. rewrite lookup_insert_eq. split_and!; done.
    + split; try done. cbn. by exists L, v.
  - destruct (chain_store _ _ _ k v l2 Hc Hd2) as (t & ts & Hl & Ht & Hc'); [lia|done|].
    unfold slot_at. rewrite Hl. unfold store_slot, on_timer, timer_at. rewrite Ht. cbn [from_heap mbind outcome_bind]. eexists. split; [done|]. split; [by exists L|].
    split; cbn [timers lists qemu_clocks main_loop_tlg host events put_timers]; try done.
    + intros t'. destruct (decide (t' = t)) as [->|]; [by rewrite lookup_insert_eq, Ht|by rewrite lookup_insert_ne].
    + intros t' Hn. rewrite lookup_insert_ne; [done|]. intros ->. apply Hn, list_elem_of_lookup. exists k. by rewrite lookup_take_lt by lia.
    + exists L, (active_timers L). split; [done|]. destruct L. unfold set_active. cbn. by rewrite insert_id.
Qed.

Lemma next_slot_at l k t : l !! k = Some t -> NextOf t = slot_at l (S k).
Proof. intros H. cbn. by rewrite H. Qed.

Lemma del_loop_absent fuel w tl l t : forall k, linked w tl l -> t ∉ l -> (k <= length l)%nat -> (length l - k < fuel)%nat ->
  del_loop fuel w tl t (slot_at l k) = Ok w.
Proof.
  induction fuel as [|fuel IH]; intros k Hl Ht Hk Hf; [lia|]. cbn [del_loop]. rewrite (load_slot_at w tl l) by done. cbn [mbind outcome_bind].
  destruct (l !! k) as [t'|] eqn:E; [|done]. pose proof (lookup_lt_Some _ _ _ E). destruct (Z.eqb_spec t' t).
  - apply list_elem_of_lookup_2 in E. by subst.
  - rewrite (next_slot_at _ _ _ E). apply IH; [done|done|lia|lia].
Qed.

Lemma del_loop_present fuel w tl l1 t l2 : forall k, linked w tl (l1 ++ t :: l2) -> (k <= length l1)%nat -> (length l1 - k < fuel)%nat ->
  del_loop fuel w tl t (slot_at (l1 ++ t :: l2) k) = store_slot w tl (slot_at (l1 ++ t :: l2) (length l1)) (head l2).
Proof.
  induction fuel as [|fuel IH]; intros k Hl Hk Hf; [lia|]. cbn [del_loop]. rewrite (load_slot_at w tl (l1 ++ t :: l2)) by (rewrite ?length_app; cbn; done || lia).
  cbn [mbind outcome_bind]. destruct Hl as (L & HL & Hc & Hd). destruct (decide (k = length l1)) as [->|Hne].
  - rewrite list_lookup_middle, Z.eqb_refl by done. unfold timer_at.
    destruct (chain_next _ _ _ (length l1) t Hc) as [Hn _]; [by apply list_lookup_middle|]. destruct (timers w !! t) as [ts|]; [|done].
    cbn in Hn |- *. injection Hn as ->. f_equal. rewrite lookup_app_r by lia. replace (S (length l1) - length l1)%nat with 1%nat by lia. by destruct l2.
  - destruct (lookup_lt_is_Some_2 l1 k) as [t' Ht']; [lia|]. rewrite (lookup_app_l_Some _ _ _ _ Ht'). destruct (Z.eqb_spec t' t) as [->|].
    + apply NoDup_app in Hd as (_ & Hd & _). apply list_elem_of_lookup_2 in Ht'. destruct (Hd t Ht'). left.
    + rewrite (next_slot_at (l1 ++ t :: l2) k) by (by apply lookup_app_l_Some). apply IH; [by exists L|lia|lia].
Qed.

(** ** The abstract specification

    The timers armed on a list, with their expiry times, in the order in
    which they will run. *)
Abbreviation queue := (list (Z * Z)) (only parsing).

Definition q_del (t : addr) (q : queue) : queue := filter (fun a => a.1 <> t) q.

(** A timer goes behind those that expire no later. *)
Fixpoint q_insert (t : addr) (e : Z) (q : queue) : queue :=
  match q with
  | [] => [(t, Z.max e 0)]
  | (t', e') :: q' => if e' <=? e then (t', e') :: q_insert t e q' else (t, Z.max e 0) :: q
  end.

(** The timers that have expired at [now]. *)
Fixpoint q_expired (now : Z) (q : queue) : list addr :=
  match q with
  | [] => []
  | (t, e) :: q => if e <=? now then t :: q_expired now q else []
  end.

Record queue_ok (q : queue) : Prop := {
  q_nodup : NoDup q.*1;
  q_sorted : StronglySorted Z.le q.*2;
  q_nonneg : Forall (Z.le 0) q.*2
}.

Fixpoint position (e : Z) (q : queue) : nat :=
  match q with [] => O | (_, e') :: q => if e' <=? e then S (position e q) else O end.

Lemma position_le e q : (position e q <= length q)%nat.
Proof. induction q as [|[t e'] q IH]; cbn; [lia|]. destruct (e' <=? e); lia. Qed.

Lemma q_insert_position t e q : q_insert t e q = take (position e q) q ++ (t, Z.max e 0) :: drop (position e q) q.
Proof. induction q as [|[t' e'] q IH]; cbn; [done|]. destruct (e' <=? e); cbn; [by rewrite IH|done]. Qed.

Lemma position_lookup e q : forall k t' e', q !! k = Some (t', e') -> (k <= position e q)%nat -> (e' <=? e) = bool_decide (k < position e q)%nat.
Proof.
  induction q as [|[t0 e0] q IH]; intros k t' e'; [done|]. cbn. destruct k as [|k]; cbn.
  - intros [= -> ->]. destruct (e' <=? e); [by rewrite bool_decide_true by lia|by rewrite bool_decide_false by lia].
  - intros Hk. destruct (e0 <=? e); [|lia]. intros Hp. rewrite (IH k t' e') by (done || lia). apply bool_decide_ext. lia.
Qed.

Definition times_ok (w : World) (q : queue) : Prop := forall t e, (t, e) ∈ q -> expire_time <$> timers w !! t = Some e.

Lemma timer_expired_ns_ok w q k now : times_ok w q -> timer_expired_ns w (q.*1 !! k) now = Ok (match q !! k with Some (_, e) => e <=? now | None => false end).
Proof.
  intros Ht. rewrite list_lookup_fmap. destruct (q !! k) as [[t e]|] eqn:E; [|done]. apply list_elem_of_lookup_2, Ht in E. cbn. unfold timer_at.
  destruct (timers w !! t) as [ts|]; [|done]. cbn in *. by injection E as ->.
Qed.

Lemma position_loop_ok fuel w tl q e : forall k, linked w tl q.*1 -> times_ok w q -> (k <= position e q)%nat -> (length q - k < fuel)%nat ->
  position_loop fuel w tl e (slot_at q.*1 k) = Ok (slot_at q.*1 (position e q)).
Proof.
  induction fuel as [|fuel IH]; intros k Hl Ht Hk Hf; [lia|]. cbn [position_loop]. pose proof (position_le e q).
  rewrite (load_slot_at w tl q.*1) by (rewrite ?length_fmap; done || lia). cbn [mbind outcome_bind]. rewrite timer_expired_ns_ok by done. cbn [mbind outcome_bind].
  rewrite list_lookup_fmap. destruct (q !! k) as [[t' e']|] eqn:E.
  - rewrite (position_lookup _ _ _ _ _ E Hk). case_bool_decide; cbn; [|by replace k with (position e q) by lia].
    rewrite (next_slot_at q.*1 k) by (by rewrite list_lookup_fmap, E). apply IH; [done|done|lia|lia].
  - apply lookup_ge_None in E. cbn. by replace k with (position e q) by lia.
Qed.

(** The expiry time of a timer, [-1] if it is not armed. *)
Fixpoint q_time (t : addr) (q : queue) : Z :=
  match q with [] => -1 | (t', e) :: q => if t' =? t then e else q_time t q end.

Lemma q_time_absent t q : t ∉ q.*1 -> q_time t q = -1.
Proof.
  induction q as [|[t' e] q IH]; cbn; [done|]. intros [Hne Hn]%not_elem_of_cons. destruct (Z.eqb_spec t' t); [congruence|]. by apply IH.
Qed.

Lemma q_time_elem t e q : NoDup q.*1 -> (t, e) ∈ q -> q_time t q = e.
Proof.
  induction q as [|[t' e'] q IH]; cbn; [by intros _ ?%elem_of_nil|]. intros [Hn Hd]%NoDup_cons [[= -> ->]|Hin]%elem_of_cons; [by rewrite Z.eqb_refl|].
  destruct (Z.eqb_spec t' t) as [->|]; [|by apply IH]. destruct Hn. apply list_elem_of_fmap. by exists (t, e).
Qed.

Lemma q_time_app t q1 q2 : q_time t (q1 ++ q2) = if decide (t ∈ q1.*1) then q_time t q1 else q_time t q2.
Proof.
  induction q1 as [|[t' e'] q1 IH]; cbn; [done|]. rewrite IH. destruct (Z.eqb_spec t' t) as [->|Hne].
  - rewrite decide_True; [done|left].
  - apply decide_ext. rewrite elem_of_cons. naive_solver.
Qed.

Lemma q_del_cons t t' e q : q_del t ((t', e) :: q) = if t' =? t then q_del t q else (t', e) :: q_del t q.
Proof. unfold q_del. rewrite filter_cons. cbn. destruct (Z.eqb_spec t' t), (decide (t' <> t)); try done; tauto. Qed.

Lemma q_del_absent t q : t ∉ q.*1 -> q_del t q = q.
Proof.
  induction q as [|[t' e] q IH]; [done|]. rewrite fmap_cons, q_del_cons. intros [Hne Hn]%not_elem_of_cons. cbn in Hne.
  destruct (Z.eqb_spec t' t); [congruence|]. by rewrite IH.
Qed.

Lemma q_del_present t e q1 q2 : NoDup (q1 ++ (t, e) :: q2).*1 -> q_del t (q1 ++ (t, e) :: q2) = q1 ++ q2 /\ t ∉ (q1 ++ q2).*1.
Proof.
  rewrite fmap_app, fmap_cons. cbn. intros (Hd1 & Hd & [Hn Hd2]%NoDup_cons)%NoDup_app.
  assert (H1 : t ∉ q1.*1) by (intros H; destruct (Hd t H); left). split.
  - assert (E : q_del t (q1 ++ (t, e) :: q2) = q_del t q1 ++ q_del t ((t, e) :: q2)) by apply filter_app.
    rewrite E, q_del_cons, Z.eqb_refl. f_equal; by apply q_del_absent.
  - rewrite fmap_app, elem_of_app. tauto.
Qed.

Lemma q_time_del t t' q : NoDup q.*1 -> q_time t' (q_del t q) = if t' =? t then -1 else q_time t' q.
Proof.
  induction q as [|[t0 e] q IH]; [by cbn; destruct (t' =? t)|]. rewrite fmap_cons, q_del_cons. intros [Hn Hd]%NoDup_cons.
  cbn [q_time]. destruct (Z.eqb_spec t0 t) as [->|Hne]; cbn [q_time]; rewrite IH by done.
  - destruct (Z.eqb_spec t' t), (Z.eqb_spec t t'); congruence.
  - destruct (Z.eqb_spec t0 t'), (Z.eqb_spec t' t); congruence.
Qed.

Lemma q_insert_fst t e q : (q_insert t e q).*1 = take (position e q) q.*1 ++ t :: drop (position e q) q.*1.
Proof. by rewrite q_insert_position, fmap_app, fmap_cons, fmap_take, fmap_drop. Qed.

Lemma q_insert_elem t e q a : a ∈ q_insert t e q <-> a = (t, Z.max e 0) \/ a ∈ q.
Proof.
  rewrite q_insert_position, elem_of_app, elem_of_cons. assert (E : a ∈ q <-> a ∈ take (position e q) q \/ a ∈ drop (position e q) q) by (by rewrite <- elem_of_app, take_drop).
  rewrite E. tauto.
Qed.

Lemma q_time_insert t t' e q : t ∉ q.*1 -> q_time t' (q_insert t e q) = if t' =? t then Z.max e 0 else q_time t' q.
Proof.
  induction q as [|[t0 e0] q IH]; cbn; intros Hn.
  - destruct (Z.eqb_spec t t'), (Z.eqb_spec t' t); congruence.
  - apply not_elem_of_cons in Hn as [Hne Hn]. destruct (e0 <=? e); cbn; [rewrite IH by done|];
      destruct (Z.eqb_spec t0 t'), (Z.eqb_spec t' t), (Z.eqb_spec t t'); congruence.
Qed.

Lemma q_insert_sorted t e q : StronglySorted Z.le q.*2 -> Forall (Z.le 0) q.*2 -> StronglySorted Z.le (q_insert t e q).*2.
Proof.
  induction q as [|[t0 e0] q IH]; cbn; [repeat constructor|]. intros [Hle Hs]%StronglySorted_cons [H0 Hp]%Forall_cons.
  destruct (Z.leb_spec e0 e); cbn; apply StronglySorted_cons; split.
  - apply Forall_forall. intros x ([t1 e1] & -> & [[= -> ->]|Hin]%q_insert_elem)%list_elem_of_fmap; cbn; [lia|].
    rewrite Forall_forall in Hle. apply Hle, list_elem_of_fmap. by exists (t1, e1).
  - by apply IH.
  - rewrite Forall_cons. split; [lia|]. eapply Forall_impl; [exact Hle|]. cbn. lia.
  - by apply StronglySorted_cons.
Qed.

Lemma q_insert_ok t e q : queue_ok q -> t ∉ q.*1 -> queue_ok (q_insert t e q).
Proof.
  intros [Hd Hs Hp] Hn. split.
  - rewrite q_insert_fst. rewrite <- (take_drop (position e q) q.*1) in Hd, Hn. rewrite not_elem_of_app in Hn.
    apply NoDup_app in Hd as (H1 & H2 & H3). apply NoDup_app. split_and!; [done| |apply NoDup_cons; tauto].
    intros x Hx [->|Hx']%elem_of_cons; [tauto|by eapply H2].
  - by apply q_insert_sorted.
  - apply Forall_forall. intros x ([t1 e1] & -> & [[= -> ->]|Hin]%q_insert_elem)%list_elem_of_fmap; cbn; [lia|].
    rewrite Forall_forall in Hp. apply Hp, list_elem_of_fmap. by exists (t1, e1).
Qed.

Lemma sublist_map {A B} (f : A -> B) l1 l2 : sublist l1 l2 -> sublist (f <$> l1) (f <$> l2).
Proof. induction 1; cbn; by constructor. Qed.

Lemma Forall_sublist {A} (P : A -> Prop) l1 l2 : sublist l1 l2 -> Forall P l2 -> Forall P l1.
Proof. induction 1 as [|x l1 l2 H IH|x l1 l2 H IH]; [done| |]; intros [? ?]%Forall_cons; [constructor|]; auto. Qed.

Lemma StronglySorted_sublist {A} (R : A -> A -> Prop) l1 l2 : sublist l1 l2 -> StronglySorted R l2 -> StronglySorted R l1.
Proof.
  induction 1 as [|x l1 l2 H IH|x l1 l2 H IH]; [done| |]; intros [Hf Hs]%StronglySorted_cons; [|by apply IH].
  apply StronglySorted_cons. split; [by eapply Forall_sublist|by apply IH].
Qed.

Lemma queue_ok_sublist q q' : sublist q' q -> queue_ok q -> queue_ok q'.
Proof.
  intros Hs [H1 H2 H3]. split.
  - eapply sublist_NoDup; [done|by apply sublist_map].
  - eapply StronglySorted_sublist; [by apply sublist_map|done].
  - eapply Forall_sublist; [by apply sublist_map|done].
Qed.

Lemma q_del_sublist t q : sublist (q_del t q) q.
Proof. apply sublist_filter. Qed.

(** ** The refinement relation *)

(** What a timer keeps from its initialisation on. *)
Definition meta_of (ts : QEMUTimer) : addr * Z * Z * Z := (timer_list ts, cb ts, opaque ts, scale ts).

(** [q] is the queue of the list [tl]. *)
Record list_repr (w : World) (tl : addr) (q : queue) : Prop := {
  repr_linked : linked w tl q.*1;
  repr_ok : queue_ok q;
  repr_times : forall t ts, timers w !! t = Some ts -> timer_list ts = tl -> expire_time ts = q_time t q;
  repr_owner : forall t, t ∈ q.*1 -> timer_list <$> timers w !! t = Some tl
}.

(** What no timer operation changes. *)
Definition same_rest (w w' : World) : Prop :=
  qemu_clocks w' = qemu_clocks w /\ main_loop_tlg w' = main_loop_tlg w /\ host w' = host w /\ devices w' = devices w.

(** Only timers of the list [tl] and its head have changed. *)
Record touched (tl : addr) (w w' : World) : Prop := {
  touched_meta : meta_of <$> timers w' = meta_of <$> timers w;
  touched_others : forall t ts, timers w !! t = Some ts -> timer_list ts <> tl -> timers w' !! t = Some ts;
  touched_list : exists L p, lists w !! tl = Some L /\ lists w' = <[tl := set_active p L]> (lists w);
  touched_rest : same_rest w w'
}.

Lemma meta_lookup (h h' : gmap addr QEMUTimer) t : meta_of <$> h' = meta_of <$> h -> meta_of <$> h' !! t = meta_of <$> h !! t.
Proof. intros E. by rewrite <- !lookup_fmap, E. Qed.

Lemma meta_owner (h h' : gmap addr QEMUTimer) t : meta_of <$> h' = meta_of <$> h -> timer_list <$> h' !! t = timer_list <$> h !! t.
Proof. intros E. pose proof (meta_lookup _ _ t E) as X. destruct (h' !! t), (h !! t); cbn in *; try done. injection X as X. by f_equal. Qed.

Lemma touched_refl tl w : is_Some (lists w !! tl) -> touched tl w w.
Proof.
  intros [L HL]. split; try done. exists L, (active_timers L). split; [done|]. destruct L. unfold set_active. cbn. by rewrite insert_id.
Qed.

Lemma touched_trans tl w1 w2 w3 : touched tl w1 w2 -> touched tl w2 w3 -> touched tl w1 w3.
Proof.
  intros [M1 O1 (L1 & p1 & H1 & E1) (C1 & T1 & R1 & D1)] [M2 O2 (L2 & p2 & H2 & E2) (C2 & T2 & R2 & D2)]. split; [congruence| | |split_and!; congruence].
  - intros t ts Ht Hn. apply O2; [|done]. by apply O1.
  - exists L1, p2. split; [done|]. rewrite E1, lookup_insert_eq in H2. injection H2 as <-. rewrite E2, E1, insert_insert_eq. by destruct L1.
Qed.

Lemma on_timer_ok f t w ts : timers w !! t = Some ts -> on_timer f t w = Ok (put_timers (<[t := f ts]> (timers w)) w).
Proof. intros H. unfold on_timer, timer_at. by rewrite H. Qed.

Lemma touched_timer f t w ts tl : timers w !! t = Some ts -> timer_list ts = tl -> is_Some (lists w !! tl) -> meta_of (f ts) = meta_of ts ->
  touched tl w (put_timers (<[t := f ts]> (timers w)) w).
Proof.
  intros Ht Htl [L HL] Hf. split; cbn [timers lists qemu_clocks main_loop_tlg host put_timers].
  - rewrite fmap_insert, insert_id; [done|]. by rewrite lookup_fmap, Ht, Hf.
  - intros t' ts' Ht' Hn. rewrite lookup_insert_ne; [done|]. intros <-. congruence.
  - exists L, (active_timers L). split; [done|]. destruct L. unfold set_active. cbn. by rewrite insert_id.
  - done.
Qed.

Lemma meta_next ts ts' : set_next None ts = set_next None ts' -> meta_of ts = meta_of ts' /\ expire_time ts = expire_time ts'.
Proof. destruct ts, ts'. cbn. intros [=]. by subst. Qed.

Lemma relinked_touched tl on w w' : relinked tl on w w' -> (forall t, t ∈ on -> timer_list <$> timers w !! t = Some tl) -> touched tl w w'.
Proof.
  intros [R1 R2 R3 (R4 & R5 & R6 & R7 & _)] Ho. split; [| |done|done].
  - apply map_eq. intros t. rewrite !lookup_fmap. specialize (R1 t).
    destruct (timers w' !! t) as [ts'|], (timers w !! t) as [ts|]; cbn in *; try done. injection R1. intros. unfold meta_of. congruence.
  - intros t ts Ht Hn. rewrite R2; [done|]. intros Hin%Ho. rewrite Ht in Hin. cbn in Hin. congruence.
Qed.

Lemma linked_frame w w' tl l : linked w tl l -> (forall t, t ∈ l -> next <$> timers w' !! t = next <$> timers w !! t) -> lists w' !! tl = lists w !! tl ->
  linked w' tl l.
Proof. intros (L & HL & Hc & Hd) Hf Hl. exists L. split_and!; [congruence| |done]. by eapply chain_frame. Qed.

Lemma repr_times_ok w tl q : list_repr w tl q -> times_ok w q.
Proof.
  intros [Hl [Hd _ _] Ht Ho] t e Hin. assert (H1 : t ∈ q.*1) by (apply list_elem_of_fmap; by exists (t, e)).
  apply Ho in H1. destruct (timers w !! t) as [ts|] eqn:E; [|done]. cbn in *. injection H1 as H1. f_equal. rewrite (Ht t ts E H1).
  by apply q_time_elem.
Qed.

(** The list after the expiry time of the timer [t] became [e]. *)
Lemma list_repr_update w w' tl q q' t e : list_repr w tl q -> touched tl w w' -> linked w' tl q'.*1 -> queue_ok q' ->
  (forall t' ts', timers w' !! t' = Some ts' -> timer_list ts' = tl ->
    exists ts, timers w !! t' = Some ts /\ expire_time ts' = if t' =? t then e else expire_time ts) ->
  (forall t', q_time t' q' = if t' =? t then e else q_time t' q) ->
  (forall t', t' ∈ q'.*1 -> t' ∈ q.*1 \/ timer_list <$> timers w !! t' = Some tl) -> list_repr w' tl q'.
Proof.
  intros [Hl Hok Ht Ho] [M _ _ _] Hl' Hok' Hts Hq Hin. split; [done|done| |].
  - intros t' ts' E Etl. destruct (Hts t' ts' E Etl) as (ts & E' & ->). rewrite Hq. destruct (t' =? t); [done|]. apply Ht; [done|].
    pose proof (meta_owner _ _ t' M) as X. rewrite E, E' in X. cbn in X. congruence.
  - intros t' [H|H]%Hin; rewrite (meta_owner _ _ _ M); [by apply Ho|done].
Qed.

Lemma relinked_expire tl on w w' t ts' : relinked tl on w w' -> timers w' !! t = Some ts' ->
  exists ts, timers w !! t = Some ts /\ expire_time ts' = expire_time ts.
Proof.
  intros R H. pose proof (relinked_timers _ _ _ _ R t) as X. rewrite H in X. destruct (timers w !! t) as [ts|]; [|done]. exists ts.
  split; [done|]. cbn in X. by injection X.
Qed.

Lemma insert_expire (h : gmap addr QEMUTimer) t ts e t' ts' : h !! t = Some ts -> <[t := set_expire_time e ts]> h !! t' = Some ts' ->
  exists ts0, h !! t' = Some ts0 /\ expire_time ts' = if t' =? t then e else expire_time ts0.
Proof.
  intros Ht. destruct (decide (t' = t)) as [->|Hne].
  - rewrite lookup_insert_eq, Z.eqb_refl. intros [= <-]. by exists ts.
  - rewrite lookup_insert_ne by done. intros ->. exists ts'. rewrite (proj2 (Z.eqb_neq _ _) Hne). done.
Qed.

Lemma linked_same_next w tl l t f ts : linked w tl l -> timers w !! t = Some ts -> next (f ts) = next ts ->
  linked (put_timers (<[t := f ts]> (timers w)) w) tl l.
Proof.
  intros Hl Ht Hf. apply (linked_frame w); [done| |done]. intros t' _. cbn [timers put_timers].
  destruct (decide (t' = t)) as [->|]; [rewrite lookup_insert_eq, Ht; cbn; by rewrite Hf|by rewrite lookup_insert_ne].
Qed.

Lemma fst_split t (q : queue) : t ∈ q.*1 -> exists q1 e q2, q = q1 ++ (t, e) :: q2.
Proof. intros ([t' e] & -> & Hin)%list_elem_of_fmap. apply list_elem_of_split in Hin as (q1 & q2 & ->). eauto. Qed.

Lemma chain_suffix h p l1 t l2 : chain h p (l1 ++ t :: l2) -> next <$> h !! t = Some (head l2) /\ chain h (head l2) l2.
Proof.
  intros H. destruct (chain_next _ _ _ (length l1) t H) as [Hn Hc]; [by apply list_lookup_middle|].
  assert (E : (l1 ++ t :: l2) !! S (length l1) = head l2).
  { rewrite lookup_app_r by lia. replace (S (length l1) - length l1)%nat with 1%nat by lia. by destruct l2. }
  rewrite E in Hn, Hc. split; [done|]. rewrite drop_app_ge in Hc by lia. by replace (S (length l1) - length l1)%nat with 1%nat in Hc by lia.
Qed.

Lemma timer_del_locked_ok w tl q t ts : list_repr w tl q -> timers w !! t = Some ts -> timer_list ts = tl ->
  exists w', timer_del_locked w tl t = Ok w' /\ list_repr w' tl (q_del t q) /\ touched tl w w' /\ events w' = events w.
Proof.
  intros Hr Ht Htl. pose proof Hr as [Hl Hok _ Ho]. destruct Hl as (L & HL & Hrest). assert (Hl : linked w tl q.*1) by (by exists L).
  unfold timer_del_locked. rewrite (on_timer_ok _ _ _ ts) by done. cbn [mbind outcome_bind].
  assert (T1 : touched tl w (put_timers (<[t := set_expire_time (-1) ts]> (timers w)) w)) by (apply touched_timer; by eauto).
  pose proof (linked_same_next _ _ _ _ (set_expire_time (-1)) ts Hl Ht eq_refl) as Hl1.
  assert (X : forall t' ts', timers (put_timers (<[t := set_expire_time (-1) ts]> (timers w)) w) !! t' = Some ts' ->
    exists ts0, timers w !! t' = Some ts0 /\ expire_time ts' = if t' =? t then -1 else expire_time ts0) by (intros t' ts'; by apply insert_expire).
  set (w1 := put_timers _ w) in *. assert (E1 : events w1 = events w) by done. clearbody w1.
  change Head with (slot_at q.*1 0). destruct (decide (t ∈ q.*1)) as [Hin|Hn].
  - destruct (fst_split _ _ Hin) as (q1 & e & q2 & ->). destruct (q_del_present t e q1 q2 (q_nodup _ Hok)) as [Ed Hnin].
    rewrite fmap_app, fmap_cons in Hl1 |- *. cbn [fst] in Hl1 |- *. pose proof (linked_fuel _ _ _ Hl1) as Hfuel. rewrite length_app in Hfuel. cbn in Hfuel.
    rewrite del_loop_present by (done || lia). assert (Hq : queue_ok (q1 ++ q2)) by (rewrite <- Ed; eapply queue_ok_sublist, Hok; apply q_del_sublist).
    assert (Hd : NoDup (q1.*1 ++ q2.*1)) by (rewrite <- fmap_app; apply Hq).
    destruct (store_slot_at w1 tl (q1.*1 ++ t :: q2.*1) (length q1.*1) (head q2.*1) q2.*1) as (w2 & -> & Hl2 & Hrel);
      [done|rewrite length_app; lia|destruct Hl1 as (L1 & _ & Hc & _); by apply chain_suffix in Hc as [_ ?]|by rewrite take_app_length|].
    rewrite take_app_length in Hl2, Hrel. exists w2. split; [done|].
    assert (T2 : touched tl w w2).
    { eapply touched_trans; [exact T1|]. eapply relinked_touched; [exact Hrel|]. intros t' Ht'. rewrite (meta_owner _ _ _ (touched_meta _ _ _ T1)).
      apply Ho. rewrite fmap_app, elem_of_app. by left. }
    split_and!; [|done|destruct Hrel as [_ _ _ (_ & _ & _ & _ & ->)]; done]. rewrite Ed. apply (list_repr_update w w2 tl (q1 ++ (t, e) :: q2) _ t (-1)); try done.
    + by rewrite fmap_app.
    + intros t' ts' E _. destruct (relinked_expire _ _ _ _ _ _ Hrel E) as (ts1 & E' & ->). by apply X.
    + intros t'. rewrite <- Ed. apply q_time_del, Hok.
    + intros t' H. left. rewrite fmap_app, fmap_cons, elem_of_app, elem_of_cons. rewrite fmap_app, elem_of_app in H. tauto.
  - rewrite del_loop_absent by (try done; pose proof (linked_fuel _ _ _ Hl1); lia). exists w1. split; [done|]. rewrite q_del_absent by done.
    split_and!; [|done|done]. apply (list_repr_update w w1 tl q q t (-1)); try done; eauto.
    + intros t'. destruct (Z.eqb_spec t' t) as [->|]; [by apply q_time_absent|done].
Qed.

Lemma chain_drop h l : forall p k, chain h p l -> chain h (if k is O then p else l !! k) (drop k l).
Proof.
  intros p k Hc. destruct k as [|k]; [done|]. destruct (l !! k) as [t|] eqn:E; [by eapply chain_next|].
  apply lookup_ge_None in E. rewrite (lookup_ge_None_2 l (S k)), drop_ge by lia. done.
Qed.

Lemma linked_drop w tl l k : linked w tl l -> chain (timers w) (l !! k) (drop k l).
Proof.
  intros (L & HL & Hc & Hd). pose proof (chain_drop _ _ _ k Hc) as X. destruct k; [|done]. rewrite drop_0 in *. destruct l; [done|]. destruct X as (_ & X). by split.
Qed.

(** The insertion moves the deadline of the list. *)
Definition new_head (t : addr) (q : queue) : bool := bool_decide (head q.*1 = Some t).

Lemma new_head_position t e q : t ∉ q.*1 ->
  match slot_at q.*1 (position e q) with Head => true | NextOf _ => false end = new_head t (q_insert t e q).
Proof.
  intros Hn. unfold new_head. rewrite q_insert_fst. pose proof (position_le e q) as Hp. destruct (position e q) as [|k]; cbn.
  - by rewrite bool_decide_true.
  - destruct (lookup_lt_is_Some_2 q.*1 k) as [t' ->]; [rewrite length_fmap; lia|].
    rewrite bool_decide_false; [done|]. intros E. apply Hn. destruct q as [|[t0 e0] q]; cbn in *; [lia|]. injection E as ->. left.
Qed.

Lemma nodup_insert {A} (l : list A) k t : NoDup l -> t ∉ l -> NoDup (take k l ++ t :: drop k l).
Proof.
  intros Hd Hn. rewrite <- (take_drop k l) in Hd, Hn. rewrite not_elem_of_app in Hn. apply NoDup_app in Hd as (H1 & H2 & H3).
  apply NoDup_app. split_and!; [done| |apply NoDup_cons; tauto]. intros x Hx [->|Hx']%elem_of_cons; [tauto|by eapply H2].
Qed.

Lemma timer_mod_ns_locked_ok w tl q t ts e : list_repr w tl q -> timers w !! t = Some ts -> timer_list ts = tl -> t ∉ q.*1 ->
  exists w', timer_mod_ns_locked w tl t e = Ok (w', new_head t (q_insert t e q)) /\ list_repr w' tl (q_insert t e q) /\ touched tl w w' /\ events w' = events w.
Proof.
  intros Hr Ht Htl Hn. pose proof Hr as [Hl Hok _ Ho]. assert (HL : is_Some (lists w !! tl)) by (destruct Hl as (L & HL & _); eauto).
  unfold timer_mod_ns_locked. change Head with (slot_at q.*1 0) at 1. pose proof (linked_fuel _ _ _ Hl) as Hf. rewrite length_fmap in Hf.
  rewrite (position_loop_ok _ _ _ q) by (first [done | by eapply repr_times_ok | lia]). cbn [mbind outcome_bind].
  rewrite (on_timer_ok _ _ _ ts) by done. cbn [mbind outcome_bind]. pose proof (position_le e q) as Hk.
  rewrite (load_slot_at _ tl q.*1) by (try (rewrite length_fmap; lia); by apply linked_same_next). cbn [mbind outcome_bind].
  rewrite (on_timer_ok _ _ _ (set_expire_time (Z.max e 0) ts)) by apply lookup_insert_eq. cbn [mbind outcome_bind timers put_timers].
  rewrite insert_insert_eq. set (ts2 := set_next _ (set_expire_time _ ts)). set (w2 := put_timers _ (put_timers _ w)).
  assert (E2 : timers w2 = <[t := ts2]> (timers w)) by done. assert (T2 : touched tl w w2).
  { apply (touched_timer (fun _ => ts2) t w ts); [done..|]. by destruct ts. }
  assert (L2 : linked w2 tl q.*1).
  { apply (linked_frame w); [done| |done]. intros t' Ht'. rewrite E2, lookup_insert_ne; [done|]. intros ->. done. }
  assert (C2 : chain (timers w2) (Some t) (t :: drop (position e q) q.*1)).
  { split; [done|]. exists (q.*1 !! position e q). rewrite E2, lookup_insert_eq. split; [done|]. rewrite <- E2. by apply (linked_drop w2 tl). }
  assert (V : events w2 = events w) by done. clearbody w2.
  destruct (store_slot_at w2 tl q.*1 (position e q) (Some t) (t :: drop (position e q) q.*1)) as (w3 & -> & L3 & Hrel);
    [done|rewrite length_fmap; lia|done|apply nodup_insert; [apply Hok|done]|]. cbn [mbind outcome_bind]. exists w3.
  assert (T3 : touched tl w w3).
  { eapply touched_trans; [exact T2|]. eapply relinked_touched; [exact Hrel|]. intros t' Ht'. rewrite (meta_owner _ _ _ (touched_meta _ _ _ T2)).
    apply Ho. rewrite <- (take_drop (position e q) q.*1), elem_of_app. by left. }
  split; [by rewrite (new_head_position t)|]. split_and!; [|done|destruct Hrel as [_ _ _ (_ & _ & _ & _ & ->)]; done].
  apply (list_repr_update w w3 tl q _ t (Z.max e 0)); try done.
  - by rewrite q_insert_fst.
  - by apply q_insert_ok.
  - intros t' ts' E _. destruct (relinked_expire _ _ _ _ _ _ Hrel E) as (ts1 & E' & ->). rewrite E2 in E'. revert E'.
    destruct (decide (t' = t)) as [->|Hne].
    + rewrite lookup_insert_eq, Z.eqb_refl. intros [= <-]. by exists ts.
    + rewrite lookup_insert_ne by done. intros ->. exists ts1. by rewrite (proj2 (Z.eqb_neq _ _) Hne).
  - intros t'. by apply q_time_insert.
  - intros t' ([t1 e1] & -> & [[= -> ->]|Hin]%q_insert_elem)%list_elem_of_fmap; [right; cbn [fst]; by rewrite Ht, <- Htl|]. left. cbn [fst]. apply list_elem_of_fmap. by exists (t1, e1).
Qed.

(** The state of the specification: the queue of every list, what is fixed of
    every timer, what a list sends when its deadline moves, and what has been
    sent. *)
Record Spec := {
  queues : gmap addr queue;
  meta : gmap addr (addr * Z * Z * Z);
  targets : gmap addr (list Event);
  outbox : list Event
}.

Definition rearm_events (L : QEMUTimerList) : list Event :=
  [ClockWarp (tl_clock L); match notify_cb L with Some c => Notify c (notify_opaque L) | None => NotifyMainLoop end].

Record refines (w : World) (A : Spec) : Prop := {
  ref_meta : meta A = meta_of <$> timers w;
  ref_targets : targets A = rearm_events <$> lists w;
  ref_outbox : outbox A = events w;
  ref_armed : forall tl, match lists w !! tl with Some _ => exists q, queues A !! tl = Some q /\ list_repr w tl q | None => queues A !! tl = None end
}.

Inductive TimerOp :=
| OpNew (p tl sc callback data : Z)
| OpFree (t : addr)
| OpDel (t : addr)
| OpMod (t : addr) (e : Z)
| OpAnticipate (t : addr) (e : Z).

Definition exec_op (w : World) (op : TimerOp) : outcome World :=
  match op with
  | OpNew p tl sc callback data => timer_new_tl p w tl sc callback data
  | OpFree t => timer_free w t
  | OpDel t => timer_del w t
  | OpMod t e => timer_mod_ns w t e
  | OpAnticipate t e => timer_mod_anticipate_ns w t e
  end.

(** The list a timer belongs to, with its queue. *)
Definition owner (A : Spec) (t : addr) : option (addr * queue) :=
  match meta A !! t with
  | Some (tl, _, _, _) => q ← queues A !! tl; Some (tl, q)
  | None => None
  end.

Definition with_queue (tl : addr) (q : queue) (A : Spec) : Spec :=
  {| queues := <[tl := q]> (queues A); meta := meta A; targets := targets A; outbox := outbox A |}.

(** Arming a timer tells the list's owner if the timer is now the first. *)
Definition spec_arm (tl : addr) (q : queue) (t : addr) (A : Spec) : Spec :=
  {| queues := <[tl := q]> (queues A); meta := meta A; targets := targets A;
     outbox := outbox A ++ if new_head t q then default [] (targets A !! tl) else [] |}.

(** [None]: the caller breaks the rules of the interface. *)
Definition spec_op (A : Spec) (op : TimerOp) : option Spec :=
  match op with
  | OpNew p tl sc callback data =>
    match meta A !! p, queues A !! tl with
    | None, Some _ => Some {| queues := queues A; meta := <[p := (tl, callback, data, sc)]> (meta A); targets := targets A; outbox := outbox A |}
    | _, _ => None
    end
  | OpFree t =>
    '(tl, q) ← owner A t;
    if q_time t q =? -1 then Some {| queues := queues A; meta := delete t (meta A); targets := targets A; outbox := outbox A |} else None
  | OpDel t => '(tl, q) ← owner A t; Some (with_queue tl (q_del t q) A)
  | OpMod t e => '(tl, q) ← owner A t; Some (spec_arm tl (q_insert t e (q_del t q)) t A)
  | OpAnticipate t e =>
    '(tl, q) ← owner A t;
    if (q_time t q =? -1) || (e <? q_time t q) then Some (spec_arm tl (q_insert t e (q_del t q)) t A) else Some A
  end.

Fixpoint spec_ops (A : Spec) (ops : list TimerOp) : option Spec :=
  match ops with [] => Some A | op :: ops => A ← spec_op A op; spec_ops A ops end.

Lemma owner_ok w A t tl q : refines w A -> owner A t = Some (tl, q) ->
  exists ts, timers w !! t = Some ts /\ timer_list ts = tl /\ queues A !! tl = Some q /\ list_repr w tl q.
Proof.
  intros [R1 R2 R3 R4]. unfold owner. rewrite R1, lookup_fmap. destruct (timers w !! t) as [ts|]; [|done]. cbn -[lookup].
  intros H. destruct (queues A !! timer_list ts) as [q0|] eqn:E; [|done]. cbn in H. injection H as <- <-. exists ts. split_and!; try done.
  specialize (R4 (timer_list ts)). rewrite E in R4. destruct (lists w !! timer_list ts); [|done]. destruct R4 as (q1 & [= <-] & ?). done.
Qed.

(** Lists that own none of the changed timers keep their queues. *)
Lemma list_repr_frame w w' tl q : list_repr w tl q -> lists w' !! tl = lists w !! tl ->
  (forall t ts, timer_list ts = tl -> timers w' !! t = Some ts <-> timers w !! t = Some ts) -> list_repr w' tl q.
Proof.
  intros [Hl Hok Ht Ho] HL Hf.
  assert (Hf' : forall t, t ∈ q.*1 -> timers w' !! t = timers w !! t).
  { intros t H%Ho. destruct (timers w !! t) as [ts|] eqn:E; [|done]. apply Hf; [|done]. cbn in H. by injection H. }
  split; [|done| |].
  - apply (linked_frame w); [done| |done]. intros t Hin. by rewrite Hf'.
  - intros t ts E Etl. apply Ht; [|done]. by apply Hf.
  - intros t Hin. rewrite Hf' by done. by apply Ho.
Qed.

Lemma touched_frame tl w w' t ts : touched tl w w' -> timer_list ts <> tl -> timers w' !! t = Some ts <-> timers w !! t = Some ts.
Proof.
  intros [M O _ _] Hn. split; [|intros H; by apply O]. intros H. pose proof (meta_owner _ _ t M) as X. rewrite H in X. cbn in X.
  destruct (timers w !! t) as [ts0|] eqn:E; [|done]. cbn in X. injection X as X. rewrite (O t ts0 E) in H by congruence. congruence.
Qed.

Lemma refines_touched w w' A tl q es : refines w A -> touched tl w w' -> list_repr w' tl q -> events w' = events w ++ es ->
  refines w' {| queues := <[tl := q]> (queues A); meta := meta A; targets := targets A; outbox := outbox A ++ es |}.
Proof.
  intros [R1 R2 R3 R4] T Hr He. pose proof T as [M O (L & p & HL & EL) _]. split; cbn.
  - congruence.
  - rewrite R2, EL, fmap_insert, insert_id; [done|]. rewrite lookup_fmap, HL. by destruct L.
  - congruence.
  - intros tl'. destruct (decide (tl' = tl)) as [->|Hne].
    + rewrite EL, !lookup_insert_eq. eauto.
    + assert (Hl : lists w' !! tl' = lists w !! tl') by (by rewrite EL, lookup_insert_ne). rewrite lookup_insert_ne by done.
      specialize (R4 tl'). rewrite Hl. destruct (lists w !! tl') as [L'|] eqn:EL'; [|done]. destruct R4 as (q' & Hq & Hr'). exists q'. split; [done|].
      apply (list_repr_frame w); [done|congruence|]. intros t ts Ets. apply (touched_frame tl); [done|]. congruence.
Qed.

Lemma timerlist_rearm_ok w tl L : lists w !! tl = Some L -> timerlist_rearm w tl = Ok (emit (rearm_events L) w).
Proof.
  intros HL. unfold timerlist_rearm, timerlist_notify, list_at. rewrite HL. cbn -[lookup]. rewrite HL. unfold emit, rearm_events. cbn.
  by rewrite <- app_assoc.
Qed.

Lemma list_repr_emit w tl q es : list_repr w tl q -> list_repr (emit es w) tl q.
Proof. intros H. by apply (list_repr_frame w). Qed.

Lemma touched_emit tl w w' es : touched tl w w' -> touched tl w (emit es w').
Proof. intros [? ? ? ?]. by split. Qed.

(** Arming a timer that is on no list, and the notification. *)
Lemma arm_ok w w1 A tl q t ts e (k : World -> bool -> outcome World) : refines w A -> touched tl w w1 -> list_repr w1 tl q -> events w1 = events w ->
  timers w1 !! t = Some ts -> timer_list ts = tl -> t ∉ q.*1 ->
  (forall w b, k w b = if b then timerlist_rearm w tl else Ok w) ->
  exists w', ('(w2, rearm) ← timer_mod_ns_locked w1 tl t e; k w2 rearm) = Ok w' /\ refines w' (spec_arm tl (q_insert t e q) t A) /\ touched tl w w'.
Proof.
  intros R T1 Hr He Ht Htl Hn Hk. destruct (timer_mod_ns_locked_ok w1 tl q t ts e Hr Ht Htl Hn) as (w2 & -> & Hr2 & T2 & He2). cbn [mbind outcome_bind].
  pose proof (touched_trans _ _ _ _ T1 T2) as T. pose proof T as [_ _ (L & p & HL & EL) _]. rewrite Hk. unfold spec_arm.
  assert (E : targets A !! tl = Some (rearm_events L)) by (by rewrite (ref_targets _ _ R), lookup_fmap, HL). rewrite E. cbn [default].
  destruct (new_head t (q_insert t e q)).
  - rewrite (timerlist_rearm_ok _ _ (set_active p L)) by (by rewrite EL, lookup_insert_eq). eexists. split; [done|].
    split; [|by apply touched_emit]. apply (refines_touched w); [done|by apply touched_emit|by apply list_repr_emit|]. cbn. by rewrite He2, He.
  - eexists. split; [done|]. split; [|done]. apply (refines_touched w); [done|done|done|]. by rewrite app_nil_r, He2.
Qed.

Lemma q_del_not_in t q : t ∉ (q_del t q).*1.
Proof. intros ([t' e] & -> & [Hne _]%list_elem_of_filter)%list_elem_of_fmap. by cbn in Hne. Qed.

Lemma timer_mod_ns_refines w A t e A' : refines w A -> spec_op A (OpMod t e) = Some A' -> exists w', timer_mod_ns w t e = Ok w' /\ refines w' A' /\ same_rest w w'.
Proof.
  intros R. cbn. intros H. destruct (owner A t) as [[tl q]|] eqn:Ho; [|done]. cbn in H. injection H as <-.
  destruct (owner_ok _ _ _ _ _ R Ho) as (ts & Ht & Htl & Hq & Hr). unfold timer_mod_ns, timer_at. rewrite Ht. cbn [from_heap mbind outcome_bind]. rewrite Htl.
  destruct (timer_del_locked_ok w tl q t ts Hr Ht Htl) as (w1 & -> & Hr1 & T1 & He1). cbn [mbind outcome_bind].
  pose proof (meta_owner _ _ t (touched_meta _ _ _ T1)) as X. rewrite Ht in X. destruct (timers w1 !! t) as [ts1|] eqn:Ht1; [|done]. cbn in X. injection X as X.
  destruct (arm_ok w w1 A tl (q_del t q) t ts1 e (fun w2 rearm => if rearm then timerlist_rearm w2 tl else Ok w2)) as (w2 & E & R2 & T2);
    try done; [congruence|apply q_del_not_in|]. exists w2. split_and!; [done|done|apply T2].
Qed.

Lemma q_time_pending t q : queue_ok q -> (q_time t q =? -1) = bool_decide (t ∉ q.*1).
Proof.
  intros [Hd _ Hp]. case_bool_decide as H; [by rewrite q_time_absent|].
  destruct (fst_split _ _ H) as (q1 & e & q2 & ->). rewrite (q_time_elem t e) by (try done; apply elem_of_app; right; left).
  rewrite fmap_app, Forall_app, fmap_cons, Forall_cons in Hp. cbn in Hp. destruct Hp as (_ & Hp & _). apply Z.eqb_neq. lia.
Qed.

Lemma timer_mod_anticipate_ns_refines w A t e A' : refines w A -> spec_op A (OpAnticipate t e) = Some A' ->
  exists w', timer_mod_anticipate_ns w t e = Ok w' /\ refines w' A' /\ same_rest w w'.
Proof.
  intros R. cbn. intros H. destruct (owner A t) as [[tl q]|] eqn:Ho; [|done]. cbn in H.
  destruct (owner_ok _ _ _ _ _ R Ho) as (ts & Ht & Htl & Hq & Hr). unfold timer_mod_anticipate_ns, timer_at. rewrite Ht. cbn [from_heap mbind outcome_bind]. rewrite Htl.
  pose proof (repr_times _ _ _ Hr t ts Ht Htl) as ->. destruct ((q_time t q =? -1) || (e <? q_time t q)) eqn:C; [|injection H as <-; by exists w].
  injection H as <-. destruct (q_time t q =? -1) eqn:P; cbn [negb mbind outcome_bind].
  - rewrite q_time_pending in P by apply Hr. apply bool_decide_eq_true in P. rewrite q_del_absent by done.
    assert (T : touched tl w w) by (apply touched_refl; destruct Hr as [(L & HL & _) _ _ _]; eauto).
    destruct (arm_ok w w A tl q t ts e (fun w2 rearm => if rearm then timerlist_rearm w2 tl else Ok w2)) as (w2 & E & R2 & T2); try done.
    exists w2. split_and!; [done|done|apply T2].
  - destruct (timer_del_locked_ok w tl q t ts Hr Ht Htl) as (w1 & -> & Hr1 & T1 & He1). cbn [mbind outcome_bind].
    pose proof (meta_owner _ _ t (touched_meta _ _ _ T1)) as X. rewrite Ht in X. destruct (timers w1 !! t) as [ts1|] eqn:Ht1; [|done]. cbn in X. injection X as X.
    destruct (arm_ok w w1 A tl (q_del t q) t ts1 e (fun w2 rearm => if rearm then timerlist_rearm w2 tl else Ok w2)) as (w2 & E & R2 & T2);
      try done; [congruence|apply q_del_not_in|]. exists w2. split_and!; [done|done|apply T2].
Qed.

Lemma timer_del_refines w A t A' : refines w A -> spec_op A (OpDel t) = Some A' -> exists w', timer_del w t = Ok w' /\ refines w' A' /\ same_rest w w'.
Proof.
  intros R. cbn. intros H. destruct (owner A t) as [[tl q]|] eqn:Ho; [|done]. cbn in H. injection H as <-.
  destruct (owner_ok _ _ _ _ _ R Ho) as (ts & Ht & Htl & Hq & Hr). unfold timer_del, timer_at. rewrite Ht. cbn [from_heap mbind outcome_bind]. rewrite Htl.
  destruct (timer_del_locked_ok w tl q t ts Hr Ht Htl) as (w1 & -> & Hr1 & T1 & He1). exists w1. split; [done|]. split; [|apply T1].
  unfold with_queue. rewrite <- (app_nil_r (outbox A)). apply (refines_touched w); [done|done|done|]. by rewrite app_nil_r.
Qed.

(** A timer that is on no queue appears or disappears. *)
Lemma list_repr_alter w tl q t (o : option QEMUTimer) : list_repr w tl q -> t ∉ q.*1 ->
  (forall ts, o = Some ts -> expire_time ts = -1) -> list_repr (put_timers (partial_alter (fun _ => o) t (timers w)) w) tl q.
Proof.
  intros [Hl Hok Ht Ho] Hn Hx. split; [|done| |]; cbn [timers put_timers].
  - apply (linked_frame w); [done| |done]. intros t' Hin. cbn [timers put_timers]. rewrite lookup_partial_alter_ne; [done|]. by intros ->.
  - intros t' ts E Etl. destruct (decide (t' = t)) as [->|Hne].
    + rewrite lookup_partial_alter_eq in E. rewrite q_time_absent by done. by apply Hx.
    + rewrite lookup_partial_alter_ne in E by done. by apply Ht.
  - intros t' Hin. rewrite lookup_partial_alter_ne; [by apply Ho|]. by intros ->.
Qed.

Lemma refines_alter w A t (o : option QEMUTimer) : refines w A -> (forall tl q, queues A !! tl = Some q -> t ∉ q.*1) ->
  (forall ts, o = Some ts -> expire_time ts = -1) ->
  refines (put_timers (partial_alter (fun _ => o) t (timers w)) w)
    {| queues := queues A; meta := partial_alter (fun _ => meta_of <$> o) t (meta A); targets := targets A; outbox := outbox A |}.
Proof.
  intros [R1 R2 R3 R4] Hn Hx. split; cbn [meta targets outbox queues lists events put_timers timers]; [|done|done|].
  - rewrite R1. apply map_eq. intros t'. rewrite lookup_fmap. destruct (decide (t' = t)) as [->|Hne].
    + by rewrite !lookup_partial_alter_eq.
    + by rewrite !lookup_partial_alter_ne, lookup_fmap.
  - intros tl. specialize (R4 tl). destruct (lists w !! tl) as [L|]; [|done]. destruct R4 as (q & Hq & Hr). exists q. split; [done|].
    apply list_repr_alter; [done|by eapply Hn|done].
Qed.

Lemma unarmed_everywhere w A t : refines w A -> (forall q tl, owner A t = Some (tl, q) -> t ∉ q.*1) -> forall tl q, queues A !! tl = Some q -> t ∉ q.*1.
Proof.
  intros R Ho tl q Hq Hin. pose proof (ref_armed _ _ R tl) as X. destruct (lists w !! tl) as [L|]; [|congruence]. destruct X as (q' & Hq' & Hr).
  assert (q' = q) as -> by congruence. pose proof (repr_owner _ _ _ Hr t Hin) as Hown. destruct (timers w !! t) as [ts|] eqn:Ht; [|done]. cbn in Hown.
  injection Hown as Hown. apply (Ho q tl); [|done]. unfold owner. rewrite (ref_meta _ _ R), lookup_fmap, Ht. cbn -[lookup]. by rewrite Hown, Hq.
Qed.

Lemma timer_free_refines w A t A' : refines w A -> spec_op A (OpFree t) = Some A' -> exists w', timer_free w t = Ok w' /\ refines w' A' /\ same_rest w w'.
Proof.
  intros R. cbn. intros H. destruct (owner A t) as [[tl q]|] eqn:Ho; [|done]. cbn in H.
  destruct (owner_ok _ _ _ _ _ R Ho) as (ts & Ht & Htl & Hq & Hr). rewrite q_time_pending in H by apply Hr. case_bool_decide as Hn; [|done]. injection H as <-.
  unfold timer_free, timer_at. rewrite Ht. cbn [from_heap mbind outcome_bind]. eexists. split; [done|]. split; [|done].
  apply (refines_alter w A t None); [done| |done]. eapply unarmed_everywhere; [done|]. intros q' tl' E. rewrite Ho in E. by injection E as <- <-.
Qed.

Lemma timer_new_tl_refines w A p tl sc callback data A' : refines w A -> spec_op A (OpNew p tl sc callback data) = Some A' ->
  exists w', timer_new_tl p w tl sc callback data = Ok w' /\ refines w' A' /\ same_rest w w'.
Proof.
  intros R. cbn. intros H. destruct (meta A !! p) eqn:Hp; [done|]. destruct (queues A !! tl) as [q|] eqn:Hq; [|done]. injection H as <-.
  unfold timer_new_tl, timer_init. rewrite (on_timer_ok _ _ _ _ (lookup_insert_eq _ _ _)). eexists. split; [done|]. split; [|done]. cbn [timers put_timers].
  rewrite insert_insert_eq. apply (refines_alter w A p (Some {| expire_time := -1; timer_list := tl; cb := callback; opaque := data; next := None; scale := sc |})); [done| |by intros ts [= <-]].
  eapply unarmed_everywhere; [done|]. intros q' tl' E. unfold owner in E. by rewrite Hp in E.
Qed.

Lemma exec_ops_refines ops : forall w A A', refines w A -> spec_ops A ops = Some A' -> exists w', ofold exec_op w ops = Ok w' /\ refines w' A'.
Proof.
  induction ops as [|op ops IH]; intros w A A' R; cbn; intros H; [injection H as <-; by exists w|].
  destruct (spec_op A op) as [A1|] eqn:E; [|done]. cbn in H.
  assert (X : exists w1, exec_op w op = Ok w1 /\ refines w1 A1 /\ same_rest w w1).
  { destruct op; cbn [exec_op]; [eapply timer_new_tl_refines|eapply timer_free_refines|eapply timer_del_refines|eapply timer_mod_ns_refines|
      eapply timer_mod_anticipate_ns_refines]; done. }
  destruct X as (w1 & -> & R1 & _). cbn. by eapply IH.
Qed.

(** ** Running timers *)
Lemma repr_list_at w tl q : list_repr w tl q -> exists L, lists w !! tl = Some L /\ active_timers L = head q.*1 /\ chain (timers w) (active_timers L) q.*1.
Proof. intros [(L & HL & Hc & _) _ _ _]. exists L. split_and!; [done| |done]. destruct q; [done|]. by destruct Hc. Qed.

Lemma refines_queue w A tl q : refines w A -> queues A !! tl = Some q -> list_repr w tl q.
Proof.
  intros R Hq. pose proof (ref_armed _ _ R tl) as X. destruct (lists w !! tl) as [L|]; [|congruence]. destruct X as (q' & Hq' & Hr). congruence.
Qed.

(** The head of the list is taken off before its callback runs. *)
Lemma fire_ok w A tl t e q : refines w A -> queues A !! tl = Some ((t, e) :: q) ->
  exists L ts w', lists w !! tl = Some L /\ active_timers L = Some t /\ timers w !! t = Some ts /\ expire_time ts = e /\
    (w ← on_list (set_active (next ts)) tl w; on_timer (fun ts => set_expire_time (-1) (set_next None ts)) t w) = Ok w' /\
    refines w' (with_queue tl q A) /\ touched tl w w'.
Proof.
  intros R Hq. pose proof (refines_queue _ _ _ _ R Hq) as Hr. pose proof Hr as [_ Hok Ht Ho].
  destruct (repr_list_at _ _ _ Hr) as (L & HL & Ha & Hc). rewrite Ha in Hc. cbn in Ha, Hc. destruct Hc as (_ & n & Hn & Hc).
  destruct (timers w !! t) as [ts|] eqn:Ets; [|done]. cbn in Hn. injection Hn as Hn.
  assert (Htl : timer_list ts = tl) by (pose proof (Ho t ltac:(left)) as X; rewrite Ets in X; by injection X).
  assert (He : expire_time ts = e) by (rewrite (Ht t ts Ets Htl); cbn; by rewrite Z.eqb_refl).
  pose proof (q_nodup _ Hok) as Hd. cbn in Hd. apply NoDup_cons in Hd as [Hnin Hd].
  exists L, ts. unfold on_list, list_at. rewrite HL. cbn [from_heap mbind outcome_bind]. rewrite (on_timer_ok _ _ _ ts) by done. eexists. do 5 (split; [done|]).
  set (w' := put_timers _ _). assert (T : touched tl w w').
  { split; cbn [timers lists put_timers put_lists w'].
    - rewrite fmap_insert, insert_id; [done|]. by rewrite lookup_fmap, Ets.
    - intros t' ts' Ht' Hne. rewrite lookup_insert_ne; [done|]. intros <-. congruence.
    - by exists L, (next ts).
    - done. }
  split; [|done]. unfold with_queue. rewrite <- (app_nil_r (outbox A)). apply (refines_touched w); [done|done| |by rewrite app_nil_r].
  apply (list_repr_update w w' tl ((t, e) :: q) q t (-1)); [done|done| | | | |].
  - exists (set_active (next ts) L). split_and!; [by apply lookup_insert_eq| |done]. cbn [active_timers set_active]. rewrite Hn. eapply chain_frame; [|exact Hc].
    intros t' Hin. cbn [timers put_timers w']. rewrite lookup_insert_ne; [done|]. by intros ->.
  - eapply queue_ok_sublist; [|exact Hok]. by apply sublist_cons.
  - intros t' ts' E _. cbn [timers put_timers put_lists w'] in E. destruct (decide (t' = t)) as [->|Hne].
    + rewrite lookup_insert_eq in E. injection E as <-. rewrite Z.eqb_refl. by exists ts.
    + rewrite lookup_insert_ne in E by done. exists ts'. by rewrite (proj2 (Z.eqb_neq _ _) Hne).
  - intros t'. cbn. destruct (Z.eqb_spec t' t), (Z.eqb_spec t t'); try congruence. subst t'. by apply q_time_absent.
  - intros t' Hin. left. by right.
Qed.

(** What callbacks may do to the timers that have expired: nothing, or cancel
    some of them. *)
Definition keeps (exact : bool) (l l' : list addr) : Prop := if exact then l' = l else sublist l' l.

(** How callbacks behave while the list [tl] runs at the time [now].  They may
    use every list, the clocks and the notifiers, but arm no timer of [tl] for
    [now] or before.  [I] is what they need to know of the timers. *)
Definition callbacks_ok (callback : Z -> Z -> World -> outcome World) (I : gmap addr (addr * Z * Z * Z) -> gmap addr (list Event) -> Prop)
    (tl : addr) (now : Z) (exact : bool) : Prop :=
  forall t c o sc w A q, refines w A -> I (meta A) (targets A) -> meta A !! t = Some (tl, c, o, sc) -> queues A !! tl = Some q -> t ∉ q.*1 ->
  exists w' A' q', callback c o w = Ok w' /\ refines w' A' /\ I (meta A') (targets A') /\ queues A' !! tl = Some q' /\
    keeps exact (q_expired now q) (q_expired now q').

Lemma keeps_length exact l l' : keeps exact l l' -> (length l' <= length l)%nat.
Proof. destruct exact; cbn; [by intros ->|apply sublist_length]. Qed.

Lemma keeps_cons exact t l l' fired : keeps exact l l' -> keeps exact l' fired -> keeps exact (t :: l) (t :: fired).
Proof. destruct exact; cbn; [by intros -> ->|]. intros H1 H2. apply sublist_skip. by etrans. Qed.

(** Arming a timer for later changes nothing of what has expired. *)
Lemma q_expired_insert now t e q : now < e -> q_expired now (q_insert t e q) = q_expired now q.
Proof.
  intros H. induction q as [|[t' e'] q IH]; cbn; [by rewrite (proj2 (Z.leb_gt _ _)) by lia|].
  destruct (Z.leb_spec e' e); cbn; [by rewrite IH|]. rewrite !(proj2 (Z.leb_gt _ _)) by lia. done.
Qed.

Lemma bind_through {A B C} (m : outcome A) (f : A -> outcome B) (g : B -> outcome C) b : m ≫= f = Ok b -> m ≫= (fun x => f x ≫= g) = g b.
Proof. intros H. by rewrite <- obind_assoc, H. Qed.

Lemma run_loop_stop callback fuel w A tl q now progress fired : refines w A -> queues A !! tl = Some q -> q_expired now q = [] ->
  run_loop callback (S fuel) w tl now progress fired = Ok (w, progress, fired).
Proof.
  intros R Hq Hx. cbn [run_loop]. pose proof (refines_queue _ _ _ _ R Hq) as Hr. destruct (repr_list_at _ _ _ Hr) as (L & HL & Ha & _).
  unfold list_at. rewrite HL. cbn [from_heap mbind outcome_bind]. rewrite Ha, head_lookup, timer_expired_ns_ok by (by eapply repr_times_ok). cbn [mbind outcome_bind].
  destruct q as [|[t e] q]; [done|]. cbn in Hx |- *. by destruct (e <=? now).
Qed.

Lemma run_loop_fire callback fuel w A tl t e q now progress fired : refines w A -> queues A !! tl = Some ((t, e) :: q) -> e <= now ->
  exists ts w1, run_loop callback (S fuel) w tl now progress fired =
      (w2 ← callback (cb ts) (opaque ts) w1; run_loop callback fuel w2 tl now true (fired ++ [t])) /\
    meta A !! t = Some (tl, cb ts, opaque ts, scale ts) /\ refines w1 (with_queue tl q A) /\ touched tl w w1 /\ t ∉ q.*1.
Proof.
  intros R Hq He. destruct (fire_ok _ _ _ _ _ _ R Hq) as (L & ts & w1 & HL & Ha & Ht & Hex & E1 & R1 & T1). exists ts, w1.
  pose proof (refines_queue _ _ _ _ R Hq) as Hr. split_and!; [| |done|done|].
  - cbn [run_loop]. unfold list_at, timer_at. rewrite HL. cbn [from_heap mbind outcome_bind]. rewrite Ha. unfold timer_expired_ns, timer_at.
    rewrite Ht. cbn [from_heap mbind outcome_bind]. rewrite Hex, (proj2 (Z.leb_le _ _)) by done. cbn [negb]. rewrite Ht. cbn [from_heap mbind outcome_bind].
    by rewrite (bind_through _ _ _ _ E1).
  - pose proof (repr_owner _ _ _ Hr t ltac:(left)) as X. rewrite (ref_meta _ _ R), lookup_fmap, Ht. rewrite Ht in X. cbn in X |- *. unfold meta_of. congruence.
  - pose proof (q_nodup _ (repr_ok _ _ _ Hr)) as Hd. by apply NoDup_cons in Hd as [? _].
Qed.

Lemma run_loop_ok callback I tl now exact : callbacks_ok callback I tl now exact -> forall fuel w A q progress fired,
  refines w A -> I (meta A) (targets A) -> queues A !! tl = Some q -> (length (q_expired now q) < fuel)%nat ->
  exists w' A' q' more, run_loop callback fuel w tl now progress fired = Ok (w', progress || bool_decide (more <> []), fired ++ more) /\
    refines w' A' /\ I (meta A') (targets A') /\ queues A' !! tl = Some q' /\ q_expired now q' = [] /\ keeps exact (q_expired now q) more.
Proof.
  intros Hcb. induction fuel as [|fuel IH]; intros w A q progress fired R HI Hq Hf; [lia|]. destruct (q_expired now q) as [|t0 l] eqn:Ex.
  - rewrite (run_loop_stop _ _ _ A _ q) by done. exists w, A, q, []. rewrite orb_false_r, app_nil_r. split_and!; try done. destruct exact; constructor.
  - destruct q as [|[t e] q]; [done|]. cbn in Ex. destruct (Z.leb_spec e now) as [He|]; [|done]. injection Ex as -> Ex.
    destruct (run_loop_fire callback fuel w A tl t0 e q now progress fired R Hq He) as (ts & w1 & -> & Hm & R1 & _ & Hn).
    destruct (Hcb t0 (cb ts) (opaque ts) (scale ts) w1 (with_queue tl q A) q R1 HI Hm (lookup_insert_eq _ _ _) Hn) as (w2 & A2 & q2 & -> & R2 & HI2 & Hq2 & K2).
    cbn [mbind outcome_bind]. pose proof (keeps_length _ _ _ K2). rewrite Ex in *. cbn in Hf.
    destruct (IH w2 A2 q2 true (fired ++ [t0]) R2 HI2 Hq2 ltac:(lia)) as (w3 & A3 & q3 & more & -> & R3 & HI3 & Hq3 & Hx & K3).
    exists w3, A3, q3, (t0 :: more). rewrite orb_true_r, <- app_assoc. split_and!; try done. by eapply keeps_cons.
Qed.

(** The value a clock shows. *)
Definition clock_now (h : HostClocks) (type : QEMUClockType) : Z :=
  match type with
  | QEMU_CLOCK_REALTIME => get_clock h
  | QEMU_CLOCK_VIRTUAL => if use_icount h then cpu_get_icount h else cpu_get_clock h
  | QEMU_CLOCK_HOST => get_clock_realtime h
  end.

Definition with_outbox (es : list Event) (A : Spec) : Spec :=
  {| queues := queues A; meta := meta A; targets := targets A; outbox := outbox A ++ es |}.

(** Reading a clock changes no timer, list or clock that is enabled. *)
Record clock_read (w w' : World) : Prop := {
  read_timers : timers w' = timers w;
  read_lists : lists w' = lists w;
  read_host : host w' = host w;
  read_tlg : main_loop_tlg w' = main_loop_tlg w;
  read_devices : devices w' = devices w;
  read_enabled : forall i, enabled <$> qemu_clocks w' !! i = enabled <$> qemu_clocks w !! i;
  read_events : exists es, events w' = events w ++ es
}.

Lemma clock_read_refl w : clock_read w w.
Proof. split; try done. exists []. by rewrite app_nil_r. Qed.

Lemma clock_read_trans w1 w2 w3 : clock_read w1 w2 -> clock_read w2 w3 -> clock_read w1 w3.
Proof.
  intros [A1 A2 A3 A4 Ad A5 (e1 & A6)] [B1 B2 B3 B4 Bd B5 (e2 & B6)]. split; try congruence.
  exists (e1 ++ e2). by rewrite B6, A6, app_assoc.
Qed.

Lemma qemu_clock_get_ns_ok w type : is_Some (qemu_clocks w !! clock_index type) ->
  exists w', qemu_clock_get_ns w type = Ok (w', clock_now (host w) type) /\ clock_read w w'.
Proof.
  intros [c Hc]. unfold qemu_clock_get_ns, qemu_clock_ptr. rewrite Hc. cbn [from_heap mbind outcome_bind].
  destruct type; [exists w; by split; [|apply clock_read_refl]..|]. unfold on_clock, qemu_clock_ptr. rewrite Hc. cbn [from_heap mbind outcome_bind]. eexists. split; [done|].
  assert (X : clock_read w (put_clocks (<[clock_index QEMU_CLOCK_HOST := set_last (get_clock_realtime (host w)) c]> (qemu_clocks w)) w)).
  { split; try done; [|exists []; by rewrite app_nil_r]. intros i. cbn -[lookup insert clock_index]. destruct (decide (i = clock_index QEMU_CLOCK_HOST)) as [->|].
    - rewrite list_lookup_insert_eq by (by eapply lookup_lt_Some). by rewrite Hc.
    - by rewrite list_lookup_insert_ne. }
  destruct (_ <? _); [|done]. eapply clock_read_trans; [exact X|]. split; try done. by eexists.
Qed.

Lemma clock_read_refines w w' A : clock_read w w' -> refines w A -> exists es, refines w' (with_outbox es A).
Proof.
  intros [C1 C2 C3 C4 Cd C5 (es & C6)] [R1 R2 R3 R4]. exists es. split; cbn; try congruence. intros tl. specialize (R4 tl). rewrite C2.
  destruct (lists w !! tl) as [L|] eqn:E; [|done]. destruct R4 as (q & Hq & Hr). exists q. split; [done|]. apply (list_repr_frame w); [done|by rewrite C2|by rewrite C1].
Qed.

Lemma refines_done w A tl L d : refines w A -> lists w !! tl = Some L -> refines (put_lists (<[tl := set_done d L]> (lists w)) w) A.
Proof.
  intros [R1 R2 R3 R4] HL. split; cbn [timers lists events put_lists]; [done| |done|].
  - rewrite R2, fmap_insert, insert_id; [done|]. by rewrite lookup_fmap, HL.
  - intros tl'. specialize (R4 tl'). destruct (decide (tl' = tl)) as [->|Hne].
    + rewrite lookup_insert_eq. rewrite HL in R4. destruct R4 as (q & Hq & [(L' & HL' & Hc & Hd) H2 H3 H4]). exists q. split; [done|]. split; [|done..].
      exists (set_done d L). cbn [lists put_lists]. rewrite lookup_insert_eq. split_and!; try done. rewrite HL in HL'. by injection HL' as <-.
    + rewrite lookup_insert_ne by done. destruct (lists w !! tl') as [L'|] eqn:E; [|done]. destruct R4 as (q & Hq & Hr). exists q. split; [done|].
      apply (list_repr_frame w); [done| |done]. cbn [lists put_lists]. by rewrite lookup_insert_ne.
Qed.

Lemma on_list_ok f tl w L : lists w !! tl = Some L -> on_list f tl w = Ok (put_lists (<[tl := f L]> (lists w)) w).
Proof. intros H. unfold on_list, list_at. by rewrite H. Qed.

Lemma q_expired_nil now q : queue_ok q -> q_expired now q = [] -> Forall (fun a => now < a.2) q.
Proof.
  intros [_ Hs _]. destruct q as [|[t e] q]; [done|]. cbn. destruct (Z.leb_spec e now); [done|]. intros _. cbn in Hs.
  apply StronglySorted_cons in Hs as [Hs _]. constructor; [done|]. rewrite Forall_fmap in Hs. eapply Forall_impl; [exact Hs|]. intros [t' e']. cbn. lia.
Qed.

(** ** Deadlines

    [soonest P d]: [d] is the least element of [P], or [-1] if [P] is empty. *)
Definition soonest (P : Z -> Prop) (d : Z) : Prop := (d = -1 /\ forall x, ~ P x) \/ (0 <= d < 2 ^ 63 /\ P d /\ forall x, P x -> d <= x).

Lemma soonest_ext P Q d : (forall x, P x <-> Q x) -> soonest P d -> soonest Q d.
Proof. intros H [[-> Hn]|(Hd & Hp & Hm)]; [left|right]; [|split_and!]; naive_solver. Qed.

Lemma qemu_soonest_timeout_ok P Q a b : soonest P a -> soonest Q b -> soonest (fun x => P x \/ Q x) (qemu_soonest_timeout a b).
Proof.
  assert (Hm1 : u64 (-1) = 2 ^ 64 - 1) by reflexivity. assert (Hs : forall x, 0 <= x < 2 ^ 63 -> u64 x = x) by (intros x Hx; apply wrap_small; lia).
  unfold qemu_soonest_timeout. intros [[-> Ha]|(Ha & Pa & Ma)] [[-> Hb]|(Hb & Pb & Mb)]; rewrite ?Hm1, ?Hs by done.
  - left. naive_solver.
  - rewrite (proj2 (Z.ltb_ge _ _)) by lia. right. split_and!; naive_solver lia.
  - rewrite (proj2 (Z.ltb_lt _ _)) by lia. right. split_and!; naive_solver lia.
  - destruct (Z.ltb_spec a b); right; split_and!; try tauto; try lia; intros x [Hx|Hx]; [by apply Ma|apply Mb in Hx; lia|apply Ma in Hx; lia|by apply Mb].
Qed.

(** The waits until the timers of the list [tl] expire. *)
Definition waits (w : World) (A : Spec) (tl : addr) (x : Z) : Prop :=
  exists L c q t e, lists w !! tl = Some L /\ qemu_clocks w !! clock_index (tl_clock L) = Some c /\ enabled c = true /\
    queues A !! tl = Some q /\ (t, e) ∈ q /\ x = Z.max 0 (e - clock_now (host w) (tl_clock L)).

(** The list exists and the waits for its timers fit 64 bits. *)
Definition deadline_ok (w : World) (A : Spec) (tl : addr) : Prop := exists L q,
  lists w !! tl = Some L /\ is_Some (qemu_clocks w !! clock_index (tl_clock L)) /\ queues A !! tl = Some q /\
  Forall (fun a => in_s 64 (a.2 - clock_now (host w) (tl_clock L))) q.

Lemma timerlist_deadline_ns_ok w A tl : refines w A -> deadline_ok w A tl ->
  exists w' d, timerlist_deadline_ns w tl = Ok (w', d) /\ clock_read w w' /\ soonest (waits w A tl) d.
Proof.
  intros R (L & q & HL & [c Hc] & Hq & Hb). pose proof (refines_queue _ _ _ _ R Hq) as Hr. unfold timerlist_deadline_ns, list_at.
  rewrite HL. cbn [from_heap mbind outcome_bind]. unfold qemu_clock_ptr. rewrite Hc. cbn [from_heap mbind outcome_bind].
  assert (W : forall x, waits w A tl x <-> enabled c = true /\ exists t e, (t, e) ∈ q /\ x = Z.max 0 (e - clock_now (host w) (tl_clock L))).
  { unfold waits. intros x. split; [intros (L' & c' & q' & t & e & H1 & H2 & H3 & H4 & H5 & H6); simplify_eq; eauto|].
    intros (H1 & t & e & H2 & H3). exists L, c, q, t, e. split_and!; done. }
  destruct (enabled c) eqn:Hen; cbn [negb].
  2: { exists w, (-1). split; [done|]. split; [apply clock_read_refl|]. left. split; [done|]. intros x [? _]%W. done. }
  destruct (repr_list_at _ _ _ Hr) as (L' & HL' & Ha & _). assert (L' = L) as -> by congruence. rewrite Ha. destruct q as [|[t e] q].
  { exists w, (-1). split; [done|]. split; [apply clock_read_refl|]. left. split; [done|]. intros x (_ & t & e & Hin & _)%W. by apply elem_of_nil in Hin. }
  cbn [fmap list_fmap head fst]. pose proof (repr_times_ok _ _ _ Hr t e ltac:(left)) as He. unfold timer_at. destruct (timers w !! t) as [ts|]; [|done].
  cbn in He. injection He as He. cbn [from_heap mbind outcome_bind]. destruct (qemu_clock_get_ns_ok w (tl_clock L)) as (w' & -> & Cr); [by exists c|]. cbn [mbind outcome_bind].
  apply Forall_cons in Hb as [Hb _]. cbn in Hb. destruct (repr_ok _ _ _ Hr) as [_ Hs _]. cbn in Hs. apply StronglySorted_cons in Hs as [Hs _].
  rewrite He, (swrap_small 64) by done. unfold in_s in Hb. eexists w', _. split; [done|]. split; [done|]. right.
  assert (E : (if e - clock_now (host w) (tl_clock L) <=? 0 then 0 else e - clock_now (host w) (tl_clock L)) = Z.max 0 (e - clock_now (host w) (tl_clock L)))
    by (destruct (Z.leb_spec (e - clock_now (host w) (tl_clock L)) 0); lia).
  rewrite E. split_and!; [lia|lia| |].
  - apply W. split; [done|]. exists t, e. split; [left|done].
  - intros x (_ & t' & e' & [[= -> ->]|Hin]%elem_of_cons & ->)%W; [done|]. rewrite Forall_fmap, Forall_forall in Hs. apply Hs in Hin. cbn in Hin. lia.
Qed.

Lemma waits_read w w' A es tl x : clock_read w w' -> waits w' (with_outbox es A) tl x <-> waits w A tl x.
Proof.
  intros [C1 C2 C3 C4 Cd C5 C6]. unfold waits. rewrite C2, C3. cbn [queues with_outbox].
  split; intros (L & c & q & t & e & H1 & H2 & H3 & H4); specialize (C5 (clock_index (tl_clock L))); rewrite H2 in C5;
    [destruct (qemu_clocks w !! _) as [c'|] eqn:E|destruct (qemu_clocks w' !! _) as [c'|] eqn:E]; try done; injection C5 as C5;
    exists L, c', q, t, e; split_and!; try done; try congruence; tauto.
Qed.

Lemma deadline_ok_read w w' A es tl : clock_read w w' -> deadline_ok w A tl -> deadline_ok w' (with_outbox es A) tl.
Proof.
  intros [C1 C2 C3 C4 Cd C5 C6] (L & q & HL & [c Hc] & Hq & Hb). exists L, q. rewrite C2, C3. split_and!; try done.
  specialize (C5 (clock_index (tl_clock L))). rewrite Hc in C5. destruct (qemu_clocks w' !! _); [by eexists|done].
Qed.

(** The waits of a group: those of its lists whose clocks count for deadlines. *)
Definition group_waits (w : World) (A : Spec) (tlg : QEMUTimerListGroup) (type : QEMUClockType) (x : Z) : Prop :=
  exists tl L, tlg !! clock_index type = Some tl /\ lists w !! tl = Some L /\ qemu_clock_use_for_deadline w (tl_clock L) = true /\ waits w A tl x.

Lemma group_deadline_ok w0 A tlg types : refines w0 A ->
  (forall type, exists tl, tlg !! clock_index type = Some tl /\ deadline_ok w0 A tl) ->
  forall w deadline P, clock_read w0 w -> soonest P deadline ->
  exists w' d, ofold (group_deadline tlg) (w, deadline) types = Ok (w', d) /\ clock_read w0 w' /\
    soonest (fun x => P x \/ exists type, type ∈ types /\ group_waits w0 A tlg type x) d.
Proof.
  intros R Hg. induction types as [|type types IH]; intros w deadline P Cr Hs.
  - exists w, deadline. split; [done|]. split; [done|]. eapply soonest_ext; [|exact Hs]. intros x. split; [by left|]. intros [?|(? & []%elem_of_nil & _)]; done.
  - destruct (Hg type) as (tl & Etl & Hd). pose proof Hd as (L & q & HL & _). cbn [ofold group_deadline]. unfold group_at. rewrite Etl. cbn [from_heap mbind outcome_bind].
    unfold list_at. rewrite (read_lists _ _ Cr), HL. cbn [from_heap mbind outcome_bind].
    assert (U : qemu_clock_use_for_deadline w (tl_clock L) = qemu_clock_use_for_deadline w0 (tl_clock L)) by (unfold qemu_clock_use_for_deadline; by rewrite (read_host _ _ Cr)).
    rewrite U. destruct (qemu_clock_use_for_deadline w0 (tl_clock L)) eqn:Eu.
    + destruct (clock_read_refines _ _ _ Cr R) as (es & R').
      destruct (timerlist_deadline_ns_ok _ _ tl R' (deadline_ok_read _ _ _ _ _ Cr Hd)) as (w1 & d & -> & Cr1 & Hs1). cbn [mbind outcome_bind].
      destruct (IH w1 (qemu_soonest_timeout deadline d) _ (clock_read_trans _ _ _ Cr Cr1) (qemu_soonest_timeout_ok _ _ _ _ Hs Hs1)) as (w2 & d2 & E2 & Cr2 & Hs2).
      exists w2, d2. split; [done|]. split; [done|]. eapply soonest_ext; [|exact Hs2]. intros x. cbn. rewrite (waits_read _ _ _ _ _ _ Cr).
      setoid_rewrite elem_of_cons. unfold group_waits. naive_solver.
    + destruct (IH w deadline P Cr Hs) as (w2 & d2 & E2 & Cr2 & Hs2). exists w2, d2. split; [done|]. split; [done|]. eapply soonest_ext; [|exact Hs2].
      intros x. setoid_rewrite elem_of_cons. split; [naive_solver|]. intros [?|(ty & [->|Hin] & Hw)]; [by left| |right; by exists ty].
      destruct Hw as (tl' & L' & H1 & H2 & H3 & _). congruence.
Qed.

(** ** Start-up *)
Definition init_list (type : QEMUClockType) : QEMUTimerList :=
  {| tl_clock := type; active_timers := None; notify_cb := None; notify_opaque := 0; timers_done_ev := false |}.

(** The specification after [init_clocks]: three empty queues. *)
Definition init_spec (p0 p1 p2 : addr) (es : list Event) : Spec :=
  {| queues := <[p2 := []]> (<[p1 := []]> (<[p0 := []]> ∅)); meta := ∅;
     targets := <[p2 := rearm_events (init_list QEMU_CLOCK_HOST)]> (<[p1 := rearm_events (init_list QEMU_CLOCK_VIRTUAL)]>
       (<[p0 := rearm_events (init_list QEMU_CLOCK_REALTIME)]> ∅));
     outbox := es |}.

Definition init_clock (p : addr) (type : QEMUClockType) : QEMUClock :=
  {| timerlists := [p]; reset_notifiers := []; clock_last := INT64_MIN; clock_type := type; enabled := true |}.

Definition init_world (p0 p1 p2 : addr) (w : World) : World :=
  {| timers := timers w;
     lists := <[p2 := init_list QEMU_CLOCK_HOST]> (<[p1 := init_list QEMU_CLOCK_VIRTUAL]> (<[p0 := init_list QEMU_CLOCK_REALTIME]> (lists w)));
     qemu_clocks := [init_clock p0 QEMU_CLOCK_REALTIME; init_clock p1 QEMU_CLOCK_VIRTUAL; init_clock p2 QEMU_CLOCK_HOST];
     main_loop_tlg := [p0; p1; p2]; host := host w; events := events w; devices := devices w |}.

Lemma list_repr_empty w tl L : lists w !! tl = Some L -> active_timers L = None -> timers w = ∅ -> list_repr w tl [].
Proof.
  intros HL Ha Ht. split.
  - exists L. split_and!; [done|by rewrite Ha|constructor].
  - split; cbn; constructor.
  - rewrite Ht. intros t ts H. by rewrite lookup_empty in H.
  - by intros t H%elem_of_nil.
Qed.

Lemma init_clocks_refines p0 p1 p2 w : NoDup [p0; p1; p2] -> timers w = ∅ -> lists w = ∅ -> length (qemu_clocks w) = 3%nat -> length (main_loop_tlg w) = 3%nat ->
  init_clocks [p0; p1; p2] w = Ok (init_world p0 p1 p2 w) /\ refines (init_world p0 p1 p2 w) (init_spec p0 p1 p2 (events w)).
Proof.
  intros Hd Ht Hl Hc Hg. destruct w as [ts ls cs g h es dv]. cbn in *. subst.
  destruct cs as [|c0 [|c1 [|c2 [|]]]]; try done. destruct g as [|g0 [|g1 [|g2 [|]]]]; try done. split; [reflexivity|].
  split; [done| |done|]; cbn [lists targets init_spec queues init_world].
  - by rewrite !fmap_insert, fmap_empty.
  - intros tl. destruct (decide (tl = p2)) as [->|H2]; [rewrite !lookup_insert_eq|rewrite !(lookup_insert_ne _ p2) by done].
    { eexists. split; [done|]. eapply list_repr_empty; [cbn [lists init_world]; apply lookup_insert_eq|done|done]. }
    destruct (decide (tl = p1)) as [->|H1]; [rewrite !lookup_insert_eq|rewrite !(lookup_insert_ne _ p1) by done].
    { eexists. split; [done|]. eapply list_repr_empty; [cbn [lists init_world]; rewrite lookup_insert_ne by done; apply lookup_insert_eq|done|done]. }
    destruct (decide (tl = p0)) as [->|H0]; [rewrite !lookup_insert_eq|rewrite !(lookup_insert_ne _ p0), !lookup_empty by done; done].
    eexists. split; [done|]. eapply list_repr_empty; [cbn [lists init_world]; rewrite !lookup_insert_ne by done; apply lookup_insert_eq|done|done].
Qed.

(** ** The properties *)

(** C18 (refinement): the linked timer lists implement priority queues.  From a
    state that represents the queues [A], any sequence of creating, freeing,
    arming, anticipating and cancelling timers that respects the interface
    succeeds, ends in a state that represents the queues the specification
    computes, and sends the notifications it prescribes: the owner of a list is
    told exactly when a timer is armed, or anticipated to an earlier time, and is
    then the first of its list; cancelling a timer tells nobody. *)
Theorem timer_ops_refine ops w A A' : refines w A -> spec_ops A ops = Some A' -> exists w', ofold exec_op w ops = Ok w' /\ refines w' A'.
Proof. apply exec_ops_refines. Qed.

(** C19 (functional): running an enabled timer list terminates and calls the
    timers that have expired, in the order of their expiry times and, for equal
    times, in the order in which they were armed, each once; it reports whether
    any ran, and afterwards every armed timer of the list lies in the future.
    Callbacks may use every timer operation as long as they arm no timer of the
    list for now or before; timers they cancel do not run. *)
Theorem timerlist_run_timers_fires callback I exact fuel w A tl L c q :
  refines w A -> I (meta A) (targets A) -> queues A !! tl = Some q -> lists w !! tl = Some L ->
  qemu_clocks w !! clock_index (tl_clock L) = Some c -> enabled c = true ->
  callbacks_ok callback I tl (clock_now (host w) (tl_clock L)) exact -> (length (q_expired (clock_now (host w) (tl_clock L)) q) < fuel)%nat ->
  exists w' A' q' fired, timerlist_run_timers callback fuel w tl = Ok (w', bool_decide (fired <> []), fired) /\
    refines w' A' /\ queues A' !! tl = Some q' /\ Forall (fun a => clock_now (host w) (tl_clock L) < a.2) q' /\
    keeps exact (q_expired (clock_now (host w) (tl_clock L)) q) fired.
Proof.
  intros R HI Hq HL Hc Hen Hcb Hf. unfold timerlist_run_timers. rewrite (on_list_ok _ _ _ L HL). cbn [mbind outcome_bind].
  pose proof (refines_done _ _ _ _ false R HL) as R1. unfold list_at. cbn [lists put_lists]. rewrite lookup_insert_eq. cbn [from_heap mbind outcome_bind tl_clock set_done].
  unfold qemu_clock_ptr. cbn [qemu_clocks put_lists]. rewrite Hc. cbn [from_heap mbind outcome_bind]. rewrite Hen. cbn [negb].
  set (w1 := put_lists _ w) in *. destruct (qemu_clock_get_ns_ok w1 (tl_clock L)) as (w2 & -> & Cr); [by exists c|]. cbn [mbind outcome_bind].
  change (host w1) with (host w). destruct (clock_read_refines _ _ _ Cr R1) as (es & R2).
  destruct (run_loop_ok _ _ _ _ _ Hcb fuel w2 _ q false [] R2 HI Hq Hf) as (w3 & A3 & q3 & fired & -> & R3 & HI3 & Hq3 & Hx & K). cbn [mbind outcome_bind orb app].
  pose proof (ref_armed _ _ R3 tl) as X. destruct (lists w3 !! tl) as [L3|] eqn:HL3; [|congruence]. destruct X as (q3' & Hq3' & Hr3). assert (q3' = q3) as -> by congruence.
  rewrite (on_list_ok _ _ _ L3 HL3). cbn [mbind outcome_bind]. eexists _, A3, q3, fired. split; [done|]. split_and!; try done.
  - by apply refines_done.
  - apply q_expired_nil; [apply Hr3|done].
Qed.

(** C20 (functional): the deadline of a group of timer lists is the time until
    the first of all their timers expires, 0 if one has expired already and -1
    if none is armed; disabled clocks, and the virtual clock when it counts
    instructions, do not count. *)
Theorem timerlistgroup_deadline_soonest w A tlg : refines w A ->
  (forall type, exists tl, tlg !! clock_index type = Some tl /\ deadline_ok w A tl) ->
  exists w' d, timerlistgroup_deadline_ns w tlg = Ok (w', d) /\ clock_read w w' /\ soonest (fun x => exists type, group_waits w A tlg type x) d.
Proof.
  intros R Hg. destruct (group_deadline_ok w A tlg all_clocks R Hg w (-1) (fun _ => False) (clock_read_refl w) ltac:(left; tauto)) as (w' & d & E & Cr & Hs).
  exists w', d. split; [done|]. split; [done|]. eapply soonest_ext; [|exact Hs]. intros x. cbn. split; [naive_solver|]. intros (type & H). right. exists type.
  split; [|done]. unfold all_clocks. destruct type; repeat (left || right).
Qed.

(** A callback that arms its own timer again. *)
Definition rearm_callback (next_time : Z -> Z) (c o : Z) (w : World) : outcome World := timer_mod_ns w o (next_time c).

(** Every timer passes its own address to its callback. *)
Definition own_opaque (m : gmap addr (addr * Z * Z * Z)) : Prop := forall t tl c o sc, m !! t = Some (tl, c, o, sc) -> o = t.

Lemma rearm_callback_ok next_time tl now : (forall c, now < next_time c) ->
  callbacks_ok (rearm_callback next_time) (fun m _ => own_opaque m) tl now true.
Proof.
  intros Hlate t c o sc w A q R HI Hm Hq Hn. rewrite (HI _ _ _ _ _ Hm).
  destruct (timer_mod_ns_refines w A t (next_time c) (spec_arm tl (q_insert t (next_time c) (q_del t q)) t A)) as (w' & E & R' & _); [done| |].
  { cbn. unfold owner. rewrite Hm. cbn -[lookup]. by rewrite Hq. }
  exists w', (spec_arm tl (q_insert t (next_time c) (q_del t q)) t A), (q_insert t (next_time c) (q_del t q)). split_and!; try done.
  - apply lookup_insert_eq.
  - cbn. rewrite q_del_absent by done. by apply q_expired_insert.
Qed.

End QemuTimer.

(** ** Examples *)
Section Examples.
Definition blank : MachineState unit :=
  {| timers := ∅; lists := ∅; qemu_clocks := replicate 3 (init_clock 0 QEMU_CLOCK_REALTIME); main_loop_tlg := [0; 0; 0];
     host := {| get_clock := 1; get_clock_realtime := 2; cpu_get_clock := 1000; cpu_get_icount := 3; use_icount := false |}; events := []; devices := tt |}.

Definition started : MachineState unit := init_world 1 2 3 blank.

Lemma started_queues : refines started (init_spec 1 2 3 []).
Proof. apply (init_clocks_refines 1 2 3 blank); try done. repeat constructor; set_solver. Qed.

(** Timers 10 to 12 on the list of the virtual clock. *)
Definition some_ops : list TimerOp :=
  [OpNew 10 2 1 7 10; OpNew 11 2 1 8 11; OpNew 12 2 1 9 12; OpMod 10 800; OpMod 11 300; OpMod 12 5000; OpAnticipate 10 200; OpDel 11; OpMod 11 200].

Definition busy_spec : Spec := default (init_spec 1 2 3 []) (spec_ops (init_spec 1 2 3 []) some_ops).
Definition busy : MachineState unit := match ofold exec_op started some_ops with Ok w => w | _ => started end.

Lemma busy_run : spec_ops (init_spec 1 2 3 []) some_ops = Some busy_spec.
Proof. vm_compute. reflexivity. Qed.

Lemma busy_refines : refines busy busy_spec.
Proof. unfold busy. destruct (exec_ops_refines some_ops started _ _ started_queues busy_run) as (w & -> & R). done. Qed.

Lemma timer_ops_refine_witness : (exists w', ofold exec_op started some_ops = Ok w' /\ refines w' busy_spec) /\ queues busy_spec !! 2 = Some [(10, 200); (11, 200); (12, 5000)].
Proof. split; [|vm_compute; reflexivity]. apply (timer_ops_refine some_ops started (init_spec 1 2 3 [])); [exact started_queues|exact busy_run]. Defined.

(** Two of the three timers have expired at 1000; they run in the order in
    which they were armed. *)
Lemma timerlist_run_timers_fires_witness : exists w', timerlist_run_timers (rearm_callback (fun _ => 1500)) 3 busy 2 = Ok (w', true, [10; 11]).
Proof.
  destruct (timerlist_run_timers_fires (rearm_callback (fun _ => 1500)) (fun m _ => own_opaque m) true 3 busy busy_spec 2
    (match lists busy !! 2 with Some L => L | None => init_list QEMU_CLOCK_HOST end) (init_clock 2 QEMU_CLOCK_VIRTUAL) [(10, 200); (11, 200); (12, 5000)])
    as (w' & A' & q' & fired & E & _ & _ & _ & K); [exact busy_refines| |vm_compute; reflexivity|vm_compute; reflexivity|vm_compute; reflexivity|reflexivity| |vm_compute; lia|].
  - intros t tl c o sc. change (meta busy_spec) with (<[12 := (2, 9, 12, 1)]> (<[11 := (2, 8, 11, 1)]> (<[10 := (2, 7, 10, 1)]> (∅ : gmap Z (Z * Z * Z * Z))))).
    rewrite !lookup_insert_Some, lookup_empty. intros [[<- [=]]|[_ [[<- [=]]|[_ [[<- [=]]|[_ [=]]]]]]]; congruence.
  - apply rearm_callback_ok. intros _. vm_compute. reflexivity.
  - cbn in K. exists w'. rewrite E, K. reflexivity.
Defined.

Lemma timerlistgroup_deadline_soonest_witness : exists w' d, timerlistgroup_deadline_ns busy [1; 2; 3] = Ok (w', d) /\ clock_read busy w' /\
  soonest (fun x => exists type, group_waits busy busy_spec [1; 2; 3] type x) d.
Proof.
  apply (timerlistgroup_deadline_soonest busy busy_spec [1; 2; 3] busy_refines). intros type.
  exists (match type with QEMU_CLOCK_REALTIME => 1 | QEMU_CLOCK_VIRTUAL => 2 | QEMU_CLOCK_HOST => 3 end). split; [by destruct type|].
  destruct type; (eexists _, _; split; [vm_compute; reflexivity|]; split; [eexists; vm_compute; reflexivity|]; split; [vm_compute; reflexivity|];
    repeat constructor; vm_compute; discriminate).
Defined.
End Examples.

(** Timeouts are rounded up to milliseconds and capped. *)
Lemma qemu_timeout_ns_to_ms_rounds_up ns : 0 < ns -> ns + SCALE_MS <= 2 ^ 63 ->
  let ms := qemu_timeout_ns_to_ms ns in 0 < ms <= INT32_MAX /\ ms * SCALE_MS < ns + SCALE_MS /\ (ms < INT32_MAX -> ns <= ms * SCALE_MS).
Proof.
  intros H1 H2. unfold SCALE_MS in *. unfold qemu_timeout_ns_to_ms, SCALE_MS. rewrite (proj2 (Z.ltb_ge _ _)), (proj2 (Z.eqb_neq _ _)) by lia.
  rewrite (swrap_small 64) by (unfold in_s; lia). rewrite Z.quot_div_nonneg by lia.
  pose proof (Z.div_mod (ns + 1000000 - 1) 1000000 ltac:(lia)). pose proof (Z.mod_pos_bound (ns + 1000000 - 1) 1000000 ltac:(lia)).
  set (ms := (ns + 1000000 - 1) / 1000000) in *. assert (0 < ms) by lia. unfold INT32_MAX.
  destruct (Z.ltb_spec 0x7fffffff ms); rewrite swrap_small by (unfold in_s; lia); lia.
Qed.

(** ** Findings *)
Section Findings.

(** A timer whose time has come is expired for [timer_expired_ns] and for the
    deadline, but not for [timerlist_expired], which compares with [<]. *)
Lemma expired_disagrees : exists w, ofold exec_op started [OpNew 10 2 1 7 10; OpMod 10 1000] = Ok w /\
  timer_expired_ns w (Some 10) 1000 = Ok true /\ (('(_, d) ← timerlist_deadline_ns w 2; Ok d) = Ok 0) /\
  (('(_, b) ← timerlist_expired w 2; Ok b) = Ok false).
Proof. eexists. split; [vm_compute; reflexivity|]. split_and!; vm_compute; reflexivity. Qed.

(** The rounding overflows before the cap is applied: the longest timeout
    becomes a negative one, which waits for ever. *)
Lemma long_timeout_overflows : qemu_timeout_ns_to_ms (2 ^ 63 - 1) < 0.
Proof. vm_compute. reflexivity. Qed.

(** [qemu_clock_notify] notifies every list of the clock, not the default one. *)
Lemma notify_reaches_all_lists : exists w w', timerlist_new 20 started QEMU_CLOCK_VIRTUAL (Some 77) 5 = Ok w /\
  qemu_clock_notify w QEMU_CLOCK_VIRTUAL = Ok w' /\ events w' = [Notify 77 5; NotifyMainLoop].
Proof. eexists _, _. split; [vm_compute; reflexivity|]. split; vm_compute; reflexivity. Qed.
End Findings.
