(* ===== verification/Pci.v ===== *)
(** * PCI devices (hw/pci/pci.c, hw/pci/pci_host.c)

    Configuration space with its write masks, base address registers and the
    memory regions they map, interrupt pins and their routing to the controller,
    capabilities, and the configuration ports of the host bridge.

    A device is known by its index in [devs], a bus by its index in [buses].  The
    arrays of a device are lists of 256 bytes.  Calls of the interrupt
    controller's [set_irq] are recorded in [irq_calls] of the bus; [map_irq] gets
    the slot and function number of the device, all the source's functions use of
    it.  [r_mapped] is the address at which the region's memory is a subregion of
    the bus.  Devices have no MSI capability and no option ROM; the VGA regions and
    the forwarding windows of bridges are in PciBridge. *)
From S2P Require Import Prelude.

(** ** Constants *)
Definition PCI_COMMAND : Z := 0x04.
Definition PCI_COMMAND_IO : Z := 0x1.
Definition PCI_COMMAND_MEMORY : Z := 0x2.
Definition PCI_COMMAND_MASTER : Z := 0x4.
Definition PCI_COMMAND_INTX_DISABLE : Z := 0x400.
Definition PCI_STATUS : Z := 0x06.
Definition PCI_STATUS_INTERRUPT : Z := 0x08.
Definition PCI_STATUS_CAP_LIST : Z := 0x10.
Definition PCI_CACHE_LINE_SIZE : Z := 0x0c.
Definition PCI_HEADER_TYPE : Z := 0x0e.
Definition PCI_HEADER_TYPE_BRIDGE : Z := 1.
Definition PCI_HEADER_TYPE_MULTI_FUNCTION : Z := 0x80.
Definition PCI_BASE_ADDRESS_0 : Z := 0x10.
Definition PCI_BASE_ADDRESS_SPACE_IO : Z := 0x01.
Definition PCI_BASE_ADDRESS_MEM_TYPE_64 : Z := 0x04.
Definition PCI_ROM_ADDRESS : Z := 0x30.
Definition PCI_ROM_ADDRESS1 : Z := 0x38.
Definition PCI_ROM_ADDRESS_ENABLE : Z := 0x01.
Definition PCI_CAPABILITY_LIST : Z := 0x34.
Definition PCI_CAP_LIST_ID : Z := 0.
Definition PCI_CAP_LIST_NEXT : Z := 1.
Definition PCI_INTERRUPT_LINE : Z := 0x3c.
Definition PCI_INTERRUPT_PIN : Z := 0x3d.
Definition PCI_CONFIG_HEADER_SIZE : Z := 0x40.
Definition PCI_CONFIG_SPACE_SIZE : Z := 0x100.
Definition PCI_ROM_SLOT : Z := 6.
Definition PCI_NUM_REGIONS : Z := 7.
Definition PCI_NUM_PINS : Z := 4.
Definition PCI_BAR_UNMAPPED : Z := 2 ^ 64 - 1.
Definition HWADDR_MAX : Z := 2 ^ 64 - 1.
Definition PCI_SLOT (devfn : Z) : Z := Z.land (Z.shiftr devfn 3) 0x1f.

(** ** Little-endian fields of configuration space *)
Definition byte_at (l : list Z) (a : Z) : Z := nth (Z.to_nat a) l 0.
Definition set_byte (l : list Z) (a v : Z) : list Z := <[Z.to_nat a := u8 v]> l.

Fixpoint get_le (n : nat) (l : list Z) (a : Z) : Z :=
  match n with O => 0 | S n => byte_at l a + 256 * get_le n l (a + 1) end.
Fixpoint set_le (n : nat) (l : list Z) (a v : Z) : list Z :=
  match n with O => l | S n => set_le n (set_byte l a v) (a + 1) (Z.shiftr v 8) end.
Fixpoint fill_bytes (n : nat) (l : list Z) (a v : Z) : list Z :=
  match n with O => l | S n => fill_bytes n (set_byte l a v) (a + 1) v end.

Definition pci_get_word := get_le 2.
Definition pci_get_long := get_le 4.
Definition pci_get_quad := get_le 8.
Definition pci_set_word := set_le 2.
Definition pci_set_long := set_le 4.
Definition pci_set_quad := set_le 8.

(** ** State *)
Record PCIIORegion := {
  r_addr : Z;
  r_size : Z;
  r_type : Z;
  r_mapped : option Z
}.

Record PCIDevice := {
  pd_bus : nat;
  devfn : Z;
  config : list Z;
  cmask : list Z;
  wmask : list Z;
  w1cmask : list Z;
  used : list Z;
  io_regions : list PCIIORegion;
  irq_state : Z;
  bus_master : bool;
  multifunction : bool
}.

Record PCIBus := {
  parent_dev : option nat;
  map_irq : Z -> Z -> outcome Z;
  set_irq : bool;
  irq_count : list Z;
  irq_calls : list (Z * Z)
}.

Record PCI := { devs : list PCIDevice; buses : list PCIBus }.

Definition put_config (c : list Z) (d : PCIDevice) : PCIDevice :=
  {| pd_bus := pd_bus d; devfn := devfn d; config := c; cmask := cmask d; wmask := wmask d; w1cmask := w1cmask d; used := used d;
     io_regions := io_regions d; irq_state := irq_state d; bus_master := bus_master d; multifunction := multifunction d |}.
Definition put_masks (c w w1 u : list Z) (d : PCIDevice) : PCIDevice :=
  {| pd_bus := pd_bus d; devfn := devfn d; config := config d; cmask := c; wmask := w; w1cmask := w1; used := u;
     io_regions := io_regions d; irq_state := irq_state d; bus_master := bus_master d; multifunction := multifunction d |}.
Definition put_regions (rs : list PCIIORegion) (d : PCIDevice) : PCIDevice :=
  {| pd_bus := pd_bus d; devfn := devfn d; config := config d; cmask := cmask d; wmask := wmask d; w1cmask := w1cmask d; used := used d;
     io_regions := rs; irq_state := irq_state d; bus_master := bus_master d; multifunction := multifunction d |}.
Definition put_irq_state (s : Z) (d : PCIDevice) : PCIDevice :=
  {| pd_bus := pd_bus d; devfn := devfn d; config := config d; cmask := cmask d; wmask := wmask d; w1cmask := w1cmask d; used := used d;
     io_regions := io_regions d; irq_state := s; bus_master := bus_master d; multifunction := multifunction d |}.
Definition put_master (b : bool) (d : PCIDevice) : PCIDevice :=
  {| pd_bus := pd_bus d; devfn := devfn d; config := config d; cmask := cmask d; wmask := wmask d; w1cmask := w1cmask d; used := used d;
     io_regions := io_regions d; irq_state := irq_state d; bus_master := b; multifunction := multifunction d |}.

Definition got {A} (o : option A) : outcome A := match o with Some a => Ok a | None => Abort end.
Definition dev_at (p : PCI) (d : nat) : outcome PCIDevice := got (devs p !! d).
Definition bus_at (p : PCI) (b : nat) : outcome PCIBus := got (buses p !! b).
Definition put_dev (p : PCI) (d : nat) (dev : PCIDevice) : PCI := {| devs := <[d := dev]> (devs p); buses := buses p |}.
Definition put_bus (p : PCI) (b : nat) (bus : PCIBus) : PCI := {| devs := devs p; buses := <[b := bus]> (buses p) |}.

(** ** Base address registers *)
Definition pci_bar (d : PCIDevice) (reg : Z) : Z :=
  if negb (reg =? PCI_ROM_SLOT) then PCI_BASE_ADDRESS_0 + reg * 4 else
  let type := Z.land (byte_at (config d) PCI_HEADER_TYPE) (Z.lnot PCI_HEADER_TYPE_MULTI_FUNCTION) in
  if type =? PCI_HEADER_TYPE_BRIDGE then PCI_ROM_ADDRESS1 else PCI_ROM_ADDRESS.

Definition has_bit (v mask : Z) : bool := negb (Z.land v mask =? 0).

Definition pci_bar_address (d : PCIDevice) (reg type size : Z) : Z :=
  let bar := pci_bar d reg in
  let cmd := pci_get_word (config d) PCI_COMMAND in
  if has_bit type PCI_BASE_ADDRESS_SPACE_IO then
    if negb (has_bit cmd PCI_COMMAND_IO) then PCI_BAR_UNMAPPED else
    let new_addr := Z.land (pci_get_long (config d) bar) (Z.lnot (size - 1)) in
    let last_addr := u64 (new_addr + size - 1) in
    if (last_addr <=? new_addr) || (new_addr =? 0) || (0xffffffff <=? last_addr) then PCI_BAR_UNMAPPED else new_addr
  else if negb (has_bit cmd PCI_COMMAND_MEMORY) then PCI_BAR_UNMAPPED else
  let new_addr := if has_bit type PCI_BASE_ADDRESS_MEM_TYPE_64 then pci_get_quad (config d) bar else pci_get_long (config d) bar in
  if (reg =? PCI_ROM_SLOT) && negb (has_bit new_addr PCI_ROM_ADDRESS_ENABLE) then PCI_BAR_UNMAPPED else
  let new_addr := Z.land new_addr (Z.lnot (size - 1)) in
  let last_addr := u64 (new_addr + size - 1) in
  if (last_addr <=? new_addr) || (new_addr =? 0) || (last_addr =? PCI_BAR_UNMAPPED) then PCI_BAR_UNMAPPED
  else if negb (has_bit type PCI_BASE_ADDRESS_MEM_TYPE_64) && (0xffffffff <=? last_addr) then PCI_BAR_UNMAPPED
  else if HWADDR_MAX <=? last_addr then PCI_BAR_UNMAPPED
  else new_addr.

(** [memory_region_del_subregion] and [memory_region_add_subregion_overlap]
    assert that the region is, or is not, in a container. *)
Definition del_subregion (r : PCIIORegion) : outcome PCIIORegion :=
  _ ← c_assert (bool_decide (r_mapped r <> None));
  Ok {| r_addr := r_addr r; r_size := r_size r; r_type := r_type r; r_mapped := None |}.
Definition add_subregion (r : PCIIORegion) (a : Z) : outcome PCIIORegion :=
  _ ← c_assert (bool_decide (r_mapped r = None));
  Ok {| r_addr := r_addr r; r_size := r_size r; r_type := r_type r; r_mapped := Some a |}.

Definition update_region (d : PCIDevice) (i : Z) (r : PCIIORegion) : outcome PCIIORegion :=
  if r_size r =? 0 then Ok r else
  let new_addr := pci_bar_address d i (r_type r) (r_size r) in
  if new_addr =? r_addr r then Ok r else
  r ← (if negb (r_addr r =? PCI_BAR_UNMAPPED) then del_subregion r else Ok r);
  let r := {| r_addr := new_addr; r_size := r_size r; r_type := r_type r; r_mapped := r_mapped r |} in
  if negb (r_addr r =? PCI_BAR_UNMAPPED) then add_subregion r (r_addr r) else Ok r.

Fixpoint update_regions (d : PCIDevice) (i : Z) (rs : list PCIIORegion) : outcome (list PCIIORegion) :=
  match rs with
  | [] => Ok []
  | r :: rs => r ← update_region d i r; rs ← update_regions d (i + 1) rs; Ok (r :: rs)
  end.

Definition pci_update_mappings (d : PCIDevice) : outcome PCIDevice := rs ← update_regions d 0 (io_regions d); Ok (put_regions rs d).

(** [size] is [memory_region_size(memory)]; a size that is not a power of two
    ends the program. *)
Definition pci_register_bar (d : PCIDevice) (region_num type size : Z) : outcome PCIDevice :=
  _ ← c_assert ((0 <=? region_num) && (region_num <? PCI_NUM_REGIONS));
  _ ← c_assert (Z.land size (size - 1) =? 0);
  let wm := u64 (Z.lnot (size - 1)) in
  let addr := pci_bar d region_num in
  let wm := if region_num =? PCI_ROM_SLOT then Z.lor wm PCI_ROM_ADDRESS_ENABLE else wm in
  let d := put_config (pci_set_long (config d) addr type) d in
  let d :=
    if negb (has_bit type PCI_BASE_ADDRESS_SPACE_IO) && has_bit type PCI_BASE_ADDRESS_MEM_TYPE_64
    then put_masks (pci_set_quad (cmask d) addr (2 ^ 64 - 1)) (pci_set_quad (wmask d) addr wm) (w1cmask d) (used d) d
    else put_masks (pci_set_long (cmask d) addr 0xffffffff) (pci_set_long (wmask d) addr (Z.land wm 0xffffffff)) (w1cmask d) (used d) d in
  Ok (put_regions (<[Z.to_nat region_num := {| r_addr := PCI_BAR_UNMAPPED; r_size := size; r_type := type; r_mapped := None |}]> (io_regions d)) d).

Definition pci_get_bar_addr (d : PCIDevice) (region_num : nat) : outcome Z := r ← got (io_regions d !! region_num); Ok (r_addr r).

(** ** Interrupts *)
Definition pci_irq_state (d : PCIDevice) (irq_num : Z) : Z := Z.land (Z.shiftr (irq_state d) irq_num) 0x1.

Definition pci_set_irq_state (d : PCIDevice) (irq_num level : Z) : PCIDevice :=
  let s := Z.land (irq_state d) (Z.lnot (Z.shiftl 0x1 irq_num)) in
  put_irq_state (u8 (Z.lor s (Z.shiftl level irq_num))) d.

(** The loop of [pci_change_irq_level] up to a bus with a controller. *)
Fixpoint pci_route (fuel : nat) (p : PCI) (d : nat) (irq_num : Z) : outcome (nat * Z) :=
  match fuel with
  | O => NoFuel
  | S fuel =>
    dev ← dev_at p d;
    bus ← bus_at p (pd_bus dev);
    irq_num ← map_irq bus (devfn dev) irq_num;
    if set_irq bus then Ok (pd_bus dev, irq_num)
    else match parent_dev bus with Some parent => pci_route fuel p parent irq_num | None => Abort end
  end.

(** A device is at most as deep as there are buses. *)
Definition route_of (p : PCI) (d : nat) (irq_num : Z) : outcome (nat * Z) := pci_route (length (buses p)) p d irq_num.

Definition pci_change_irq_level (p : PCI) (d : nat) (irq_num change : Z) : outcome PCI :=
  '(b, irq_num) ← route_of p d irq_num;
  bus ← bus_at p b;
  count ← got (if irq_num <? 0 then None else irq_count bus !! Z.to_nat irq_num);
  let count := count + change in
  Ok (put_bus p b {| parent_dev := parent_dev bus; map_irq := map_irq bus; set_irq := set_irq bus;
                     irq_count := <[Z.to_nat irq_num := count]> (irq_count bus);
                     irq_calls := irq_calls bus ++ [(irq_num, b2z (negb (count =? 0)))] |}).

Definition pci_bus_get_irq_level (bus : PCIBus) (irq_num : Z) : outcome Z :=
  _ ← c_assert (0 <=? irq_num);
  _ ← c_assert (irq_num <? Z.of_nat (length (irq_count bus)));
  count ← got (irq_count bus !! Z.to_nat irq_num); Ok (b2z (negb (count =? 0))).

Definition pci_update_irq_status (d : PCIDevice) : PCIDevice :=
  let s := byte_at (config d) PCI_STATUS in
  put_config (set_byte (config d) PCI_STATUS
    (if negb (irq_state d =? 0) then Z.lor s PCI_STATUS_INTERRUPT else Z.land s (Z.lnot PCI_STATUS_INTERRUPT))) d.

Definition pci_irq_disabled (d : PCIDevice) : Z := Z.land (pci_get_word (config d) PCI_COMMAND) PCI_COMMAND_INTX_DISABLE.

Definition pci_irq_handler (p : PCI) (d : nat) (irq_num level : Z) : outcome PCI :=
  dev ← dev_at p d;
  let change := level - pci_irq_state dev irq_num in
  if change =? 0 then Ok p else
  let dev := pci_update_irq_status (pci_set_irq_state dev irq_num level) in
  let p := put_dev p d dev in
  if negb (pci_irq_disabled dev =? 0) then Ok p else pci_change_irq_level p d irq_num change.

(** [pci_set_irq] shifts by a negative number when the device has no pin. *)
Definition pci_set_irq (p : PCI) (d : nat) (level : Z) : outcome PCI :=
  dev ← dev_at p d;
  let intx := byte_at (config dev) PCI_INTERRUPT_PIN - 1 in
  _ ← c_assert (0 <=? intx);
  pci_irq_handler p d intx level.

Definition pins : list Z := [0; 1; 2; 3].

Definition pci_device_deassert_intx (p : PCI) (d : nat) : outcome PCI := ofold (fun p i => pci_irq_handler p d i 0) p pins.

(** The body of the loop of [pci_update_irq_disabled]. *)
Definition update_pin (d : nat) (disabled : Z) (p : PCI) (i : Z) : outcome PCI :=
  dev ← dev_at p d;
  let state := pci_irq_state dev i in
  pci_change_irq_level p d i (if negb (disabled =? 0) then - state else state).

Definition pci_update_irq_disabled (p : PCI) (d : nat) (was_irq_disabled : Z) : outcome PCI :=
  dev ← dev_at p d;
  let disabled := pci_irq_disabled dev in
  if disabled =? was_irq_disabled then Ok p else ofold (update_pin d disabled) p pins.

(** ** Configuration accesses *)
Definition ranges_overlap (first1 len1 first2 len2 : Z) : bool :=
  let last1 := first1 + len1 - 1 in let last2 := first2 + len2 - 1 in negb ((last2 <? first1) || (last1 <? first2)).
Definition range_covers_byte (offset len byte : Z) : bool := (offset <=? byte) && (byte <=? offset + len - 1).

Definition pci_default_read_config (d : PCIDevice) (address : Z) (len : nat) : outcome Z :=
  _ ← c_assert (address + Z.of_nat len <=? PCI_CONFIG_SPACE_SIZE); Ok (get_le len (config d) address).

(** The value of a byte after a write. *)
Definition write_byte (c wm w1 val : Z) : Z :=
  Z.land (Z.lor (Z.land c (Z.lnot wm)) (Z.land val wm)) (Z.lnot (Z.land val w1)).

Fixpoint write_bytes (n : nat) (d : PCIDevice) (addr val : Z) : outcome PCIDevice :=
  match n with
  | O => Ok d
  | S n =>
    _ ← c_assert (addr <? PCI_CONFIG_SPACE_SIZE);
    let wm := byte_at (wmask d) addr in
    let w1 := byte_at (w1cmask d) addr in
    _ ← c_assert (Z.land wm w1 =? 0);
    write_bytes n (put_config (set_byte (config d) addr (write_byte (byte_at (config d) addr) wm w1 val)) d) (addr + 1) (Z.shiftr val 8)
  end.

Definition pci_default_write_config (p : PCI) (d : nat) (addr val : Z) (len : nat) : outcome PCI :=
  dev ← dev_at p d;
  let was_irq_disabled := pci_irq_disabled dev in
  let l := Z.of_nat len in
  dev ← write_bytes len dev addr val;
  dev ← (if ranges_overlap addr l PCI_BASE_ADDRESS_0 24 || ranges_overlap addr l PCI_ROM_ADDRESS 4 ||
            ranges_overlap addr l PCI_ROM_ADDRESS1 4 || range_covers_byte addr l PCI_COMMAND
         then pci_update_mappings dev else Ok dev);
  let p := put_dev p d dev in
  if range_covers_byte addr l PCI_COMMAND then
    p ← pci_update_irq_disabled p d was_irq_disabled;
    dev ← dev_at p d;
    Ok (put_dev p d (put_master (has_bit (pci_get_word (config dev) PCI_COMMAND) PCI_COMMAND_MASTER) dev))
  else Ok p.

(** ** Reset *)
Definition pci_word_test_and_clear_mask (c : list Z) (a mask : Z) : list Z := pci_set_word c a (Z.land (pci_get_word c a) (Z.lnot mask)).

Fixpoint reset_bars (d : PCIDevice) (i : Z) (rs : list PCIIORegion) (c : list Z) : list Z :=
  match rs with
  | [] => c
  | r :: rs =>
    let c :=
      if r_size r =? 0 then c
      else if negb (has_bit (r_type r) PCI_BASE_ADDRESS_SPACE_IO) && has_bit (r_type r) PCI_BASE_ADDRESS_MEM_TYPE_64
      then pci_set_quad c (pci_bar d i) (r_type r) else pci_set_long c (pci_bar d i) (r_type r) in
    reset_bars d (i + 1) rs c
  end.

Definition reset_config (d : PCIDevice) : list Z :=
  let c := pci_word_test_and_clear_mask (config d) PCI_COMMAND (Z.lor (pci_get_word (wmask d) PCI_COMMAND) (pci_get_word (w1cmask d) PCI_COMMAND)) in
  let c := pci_word_test_and_clear_mask c PCI_STATUS (Z.lor (pci_get_word (wmask d) PCI_STATUS) (pci_get_word (w1cmask d) PCI_STATUS)) in
  let c := set_byte c PCI_CACHE_LINE_SIZE 0 in
  let c := set_byte c PCI_INTERRUPT_LINE 0 in
  reset_bars d 0 (io_regions d) c.

Definition pci_do_device_reset (p : PCI) (d : nat) : outcome PCI :=
  p ← pci_device_deassert_intx p d;
  dev ← dev_at p d;
  _ ← c_assert (irq_state dev =? 0);
  dev ← pci_update_mappings (put_config (reset_config dev) dev);
  Ok (put_dev p d dev).

(** The devices of a bus, in the order of their slots. *)
Definition bus_devices (p : PCI) (b : nat) : list nat :=
  flat_map (fun fn => List.filter (fun d => match devs p !! d with Some dev => (pd_bus dev =? b)%nat && (devfn dev =? Z.of_nat fn) | None => false end) (seq 0 (length (devs p))))
    (seq 0 256).

Definition pcibus_reset (p : PCI) (b : nat) : outcome PCI :=
  p ← ofold pci_do_device_reset p (bus_devices p b);
  bus ← bus_at p b;
  _ ← c_assert (forallb (Z.eqb 0) (irq_count bus));
  Ok p.

(** The devices of a bus and the buses behind a device, the last registered
    first. *)
Definition bus_kids (p : PCI) (b : nat) : list nat :=
  List.filter (fun d => match devs p !! d with Some dev => (pd_bus dev =? b)%nat | None => false end) (rev (seq 0 (length (devs p)))).
Definition sec_buses (p : PCI) (d : nat) : list nat :=
  List.filter (fun c => match buses p !! c with Some bus => bool_decide (parent_dev bus = Some d) | None => false end) (rev (seq 0 (length (buses p)))).

(** [qbus_reset_all] visits children first; [device_reset] calls the device's own
    reset function. *)
Fixpoint qbus_reset_all (device_reset : PCI -> nat -> outcome PCI) (fuel : nat) (p : PCI) (b : nat) : outcome PCI :=
  match fuel with
  | O => NoFuel
  | S fuel =>
    p ← ofold (fun p d => p ← ofold (qbus_reset_all device_reset fuel) p (sec_buses p d); device_reset p d) p (bus_kids p b);
    pcibus_reset p b
  end.

(** ** Registration (do_pci_register_device) *)
Definition PCI_COMMAND_SERR : Z := 0x100.
Definition PCI_STATUS_ERRORS : Z := 0xf900.

Definition pci_init_cmask (m : list Z) : list Z :=
  let m := pci_set_word m 0x00 0xffff in
  let m := pci_set_word m 0x02 0xffff in
  let m := set_byte m PCI_STATUS PCI_STATUS_CAP_LIST in
  let m := set_byte m 0x08 0xff in
  let m := set_byte m 0x09 0xff in
  let m := pci_set_word m 0x0a 0xffff in
  let m := set_byte m PCI_HEADER_TYPE 0xff in
  set_byte m PCI_CAPABILITY_LIST 0xff.

Definition pci_init_wmask (m : list Z) (serr : bool) : list Z :=
  let m := set_byte m PCI_CACHE_LINE_SIZE 0xff in
  let m := set_byte m PCI_INTERRUPT_LINE 0xff in
  let m := pci_set_word m PCI_COMMAND (Z.lor (Z.lor (Z.lor PCI_COMMAND_IO PCI_COMMAND_MEMORY) PCI_COMMAND_MASTER) PCI_COMMAND_INTX_DISABLE) in
  let m := if serr then pci_set_word m PCI_COMMAND (Z.lor (pci_get_word m PCI_COMMAND) PCI_COMMAND_SERR) else m in
  fill_bytes (Z.to_nat (PCI_CONFIG_SPACE_SIZE - PCI_CONFIG_HEADER_SIZE)) m PCI_CONFIG_HEADER_SIZE 0xff.

Definition pci_init_w1cmask (m : list Z) : list Z := pci_set_word m PCI_STATUS PCI_STATUS_ERRORS.

Definition no_region : PCIIORegion := {| r_addr := 0; r_size := 0; r_type := 0; r_mapped := None |}.

Record PCIDeviceClass := {
  vendor_id : Z;
  device_id : Z;
  revision : Z;
  class_id : Z;
  subsystem_vendor_id : Z;
  subsystem_id : Z;
  is_bridge : bool
}.

Definition pci_word_test_and_set_mask (c : list Z) (a mask : Z) : list Z := pci_set_word c a (Z.lor (pci_get_word c a) mask).

Definition PCI_PRIMARY_BUS : Z := 0x18.
Definition PCI_IO_BASE : Z := 0x1c.
Definition PCI_IO_LIMIT : Z := 0x1d.
Definition PCI_MEMORY_BASE : Z := 0x20.
Definition PCI_MEMORY_LIMIT : Z := 0x22.
Definition PCI_PREF_MEMORY_BASE : Z := 0x24.
Definition PCI_PREF_MEMORY_LIMIT : Z := 0x26.
Definition PCI_PREF_BASE_UPPER32 : Z := 0x28.
Definition PCI_BRIDGE_CONTROL : Z := 0x3e.

(** The writable bits of PCI_BRIDGE_CONTROL: parity, SERR, ISA, VGA, VGA 16 bit,
    master abort, bus reset, fast back-to-back and the discard timers. *)
Definition PCI_BRIDGE_CTL_WMASK : Z := 0xbff.
Definition PCI_BRIDGE_CTL_DISCARD_STATUS : Z := 0x400.

Definition pci_init_mask_bridge (d : PCIDevice) : PCIDevice :=
  let w := fill_bytes 4 (wmask d) PCI_PRIMARY_BUS 0xff in
  let w := set_byte w PCI_IO_BASE 0xf0 in
  let w := set_byte w PCI_IO_LIMIT 0xf0 in
  let w := pci_set_word w PCI_MEMORY_BASE 0xfff0 in
  let w := pci_set_word w PCI_MEMORY_LIMIT 0xfff0 in
  let w := pci_set_word w PCI_PREF_MEMORY_BASE 0xfff0 in
  let w := pci_set_word w PCI_PREF_MEMORY_LIMIT 0xfff0 in
  let w := fill_bytes 8 w PCI_PREF_BASE_UPPER32 0xff in
  let c := set_byte (config d) PCI_IO_BASE (Z.lor (byte_at (config d) PCI_IO_BASE) 0) in
  let c := set_byte c PCI_IO_LIMIT (Z.lor (byte_at c PCI_IO_LIMIT) 0) in
  let c := pci_word_test_and_set_mask c PCI_PREF_MEMORY_BASE 1 in
  let c := pci_word_test_and_set_mask c PCI_PREF_MEMORY_LIMIT 1 in
  let w := pci_set_word w PCI_BRIDGE_CONTROL PCI_BRIDGE_CTL_WMASK in
  let w1 := pci_set_word (w1cmask d) PCI_BRIDGE_CONTROL PCI_BRIDGE_CTL_DISCARD_STATUS in
  let m := set_byte (cmask d) PCI_IO_BASE (Z.lor (byte_at (cmask d) PCI_IO_BASE) 0xf) in
  let m := set_byte m PCI_IO_LIMIT (Z.lor (byte_at m PCI_IO_LIMIT) 0xf) in
  let m := pci_word_test_and_set_mask m PCI_PREF_MEMORY_BASE 0xf in
  let m := pci_word_test_and_set_mask m PCI_PREF_MEMORY_LIMIT 0xf in
  put_masks m w w1 (used d) (put_config c d).

Definition no_subsystem (pc : PCIDeviceClass) : bool := (subsystem_vendor_id pc =? 0) && (subsystem_id pc =? 0).

Definition new_config (pc : PCIDeviceClass) : list Z :=
  let c := pci_set_word (replicate 256 0) 0x00 (vendor_id pc) in
  let c := pci_set_word c 0x02 (device_id pc) in
  let c := set_byte c 0x08 (revision pc) in
  let c := pci_set_word c 0x0a (class_id pc) in
  if is_bridge pc then c else
  let c := pci_set_word c 0x2c (if no_subsystem pc then 0x1af4 else subsystem_vendor_id pc) in
  pci_set_word c 0x2e (if no_subsystem pc then 0x1100 else subsystem_id pc).

Definition plain_device (b : nat) (fn : Z) (pc : PCIDeviceClass) (serr multi : bool) : PCIDevice :=
  {| pd_bus := b; devfn := fn; config := new_config pc; cmask := pci_init_cmask (replicate 256 0); wmask := pci_init_wmask (replicate 256 0) serr;
     w1cmask := pci_init_w1cmask (replicate 256 0); used := replicate 256 0; io_regions := replicate 7 no_region; irq_state := 0; bus_master := false;
     multifunction := multi |}.

(** The fields of a device before it is put on the bus. *)
Definition new_device (b : nat) (fn : Z) (pc : PCIDeviceClass) (serr multi : bool) : outcome PCIDevice :=
  _ ← c_assert (negb (is_bridge pc) || no_subsystem pc);
  let d := plain_device b fn pc serr multi in
  Ok (if is_bridge pc then pci_init_mask_bridge d else d).

(** [bus->devices[devfn]] *)
Definition device_in_slot (p : PCI) (b : nat) (fn : Z) : option nat := fst <$> list_find (fun d => pd_bus d = b /\ devfn d = fn) (devs p).

Definition PCI_DEVFN (slot func : Z) : Z := Z.lor (Z.shiftl (Z.land slot 0x1f) 3) (Z.land func 0x07).
Definition PCI_FUNC (fn : Z) : Z := Z.land fn 0x07.

(** The new header type, unless the functions of the slot contradict it. *)
Definition pci_init_multifunction (p : PCI) (d : PCIDevice) : option PCIDevice :=
  let slot := PCI_SLOT (devfn d) in
  let d := if multifunction d then put_config (set_byte (config d) PCI_HEADER_TYPE (Z.lor (byte_at (config d) PCI_HEADER_TYPE) PCI_HEADER_TYPE_MULTI_FUNCTION)) d else d in
  if negb (PCI_FUNC (devfn d) =? 0) then
    match (i ← device_in_slot p (pd_bus d) (PCI_DEVFN slot 0); devs p !! i) with
    | Some f0 => if multifunction f0 then Some d else None
    | None => Some d
    end
  else if multifunction d then Some d
  else if forallb (fun func => match device_in_slot p (pd_bus d) (PCI_DEVFN slot func) with Some _ => false | None => true end) [1; 2; 3; 4; 5; 6; 7] then Some d
  else None.

(** The first free slot from [devfn_min] on. *)
Definition free_slot (p : PCI) (b : nat) (devfn_min : Z) : option Z :=
  snd <$> list_find (fun fn => device_in_slot p b fn = None /\ fn < 256) (map (fun n => devfn_min + 8 * Z.of_nat n) (seq 0 32)).

(** The index of the new device; a slot of its own is chosen for [fn < 0]. *)
Definition do_pci_register_device (p : PCI) (b : nat) (devfn_min fn : Z) (pc : PCIDeviceClass) (serr multi : bool) : outcome (PCI * option nat) :=
  let slot := if fn <? 0 then free_slot p b devfn_min else match device_in_slot p b fn with Some _ => None | None => Some fn end in
  match slot with
  | None => Ok (p, None)
  | Some fn =>
    d ← new_device b fn pc serr multi;
    match pci_init_multifunction p d with
    | None => Ok (p, None)
    | Some d => Ok ({| devs := devs p ++ [d]; buses := buses p |}, Some (length (devs p)))
    end
  end.

(** ** Capabilities *)
Fixpoint find_space_loop (fuel : nat) (us : list Z) (size i offset : Z) : Z :=
  match fuel with
  | O => 0
  | S fuel =>
    if negb (byte_at us i =? 0) then find_space_loop fuel us size (i + 1) (i + 1)
    else if i - offset + 1 =? size then offset
    else find_space_loop fuel us size (i + 1) offset
  end.

(** [for (i = PCI_CONFIG_HEADER_SIZE; i < PCI_CONFIG_SPACE_SIZE; ++i)] *)
Definition pci_find_space (d : PCIDevice) (size : Z) : Z := find_space_loop 192 (used d) size PCI_CONFIG_HEADER_SIZE PCI_CONFIG_HEADER_SIZE.

(** Offsets are [uint8_t] and wrap. *)
Fixpoint find_cap_loop (fuel : nat) (c : list Z) (cap_id prev : Z) : outcome (Z * Z) :=
  match fuel with
  | O => NoFuel
  | S fuel =>
    let next := byte_at c prev in
    if (next =? 0) || (byte_at c (next + PCI_CAP_LIST_ID) =? cap_id) then Ok (next, prev)
    else find_cap_loop fuel c cap_id (u8 (next + PCI_CAP_LIST_NEXT))
  end.

(** The capability and the offset of the link to it. *)
Definition pci_find_capability_list (fuel : nat) (d : PCIDevice) (cap_id : Z) : outcome (Z * Z) :=
  if negb (has_bit (byte_at (config d) PCI_STATUS) PCI_STATUS_CAP_LIST) then Ok (0, 0)
  else find_cap_loop fuel (config d) cap_id PCI_CAPABILITY_LIST.

Definition pci_find_capability (fuel : nat) (d : PCIDevice) (cap_id : Z) : outcome Z := '(next, _) ← pci_find_capability_list fuel d cap_id; Ok next.

Fixpoint cap_at_loop (fuel : nat) (c : list Z) (offset prev found : Z) : outcome Z :=
  match fuel with
  | O => NoFuel
  | S fuel =>
    let next := byte_at c prev in
    if next =? 0 then Ok found
    else cap_at_loop fuel c offset (u8 (next + PCI_CAP_LIST_NEXT)) (if (next <=? offset) && (found <? next) then next else found)
  end.

Definition pci_find_capability_at_offset (fuel : nat) (d : PCIDevice) (offset : Z) : outcome Z :=
  if byte_at (used d) offset =? 0 then Ok 0 else
  _ ← c_assert (has_bit (byte_at (config d) PCI_STATUS) PCI_STATUS_CAP_LIST);
  cap_at_loop fuel (config d) offset PCI_CAPABILITY_LIST 0.

Definition QEMU_ALIGN_UP (n m : Z) : Z := (n + m - 1) / m * m.

Fixpoint overlaps_cap (fuel n : nat) (d : PCIDevice) (i : Z) : outcome bool :=
  match n with
  | O => Ok false
  | S n =>
    o ← pci_find_capability_at_offset fuel d (u8 i);
    if negb (o =? 0) then Ok true else overlaps_cap fuel n d (i + 1)
  end.

Definition ENOSPC : Z := 28.
Definition EINVAL : Z := 22.

(** A capability that reaches past the arrays of the device is undefined. *)
Definition in_config_space (offset size : Z) : bool := offset + Z.max 2 (QEMU_ALIGN_UP size 4) <=? PCI_CONFIG_SPACE_SIZE.

(** Linking the capability at [offset] in front. *)
Definition link_capability (d : PCIDevice) (cap_id offset size : Z) : outcome PCIDevice :=
  _ ← c_assert (in_config_space offset size);
  let c := set_byte (config d) (offset + PCI_CAP_LIST_ID) cap_id in
  let c := set_byte c (offset + PCI_CAP_LIST_NEXT) (byte_at c PCI_CAPABILITY_LIST) in
  let c := set_byte c PCI_CAPABILITY_LIST offset in
  let c := set_byte c PCI_STATUS (Z.lor (byte_at c PCI_STATUS) PCI_STATUS_CAP_LIST) in
  Ok (put_masks (fill_bytes (Z.to_nat size) (cmask d) offset 0xff) (fill_bytes (Z.to_nat size) (wmask d) offset 0) (w1cmask d)
        (fill_bytes (Z.to_nat (QEMU_ALIGN_UP size 4)) (used d) offset 0xff) (put_config c d)).

Definition pci_add_capability (fuel : nat) (d : PCIDevice) (cap_id offset size : Z) : outcome (PCIDevice * Z) :=
  if offset =? 0 then
    let offset := pci_find_space d size in
    if offset =? 0 then Ok (d, - ENOSPC) else d ← link_capability d cap_id offset size; Ok (d, offset)
  else
    overlap ← overlaps_cap fuel (Z.to_nat size) d offset;
    if (overlap : bool) then Ok (d, - EINVAL) else d ← link_capability d cap_id offset size; Ok (d, offset).

Definition pci_del_capability (fuel : nat) (d : PCIDevice) (cap_id size : Z) : outcome PCIDevice :=
  '(offset, prev) ← pci_find_capability_list fuel d cap_id;
  if offset =? 0 then Ok d else
  _ ← c_assert (in_config_space offset size);
  let c := set_byte (config d) prev (byte_at (config d) (offset + PCI_CAP_LIST_NEXT)) in
  let c := if byte_at c PCI_CAPABILITY_LIST =? 0 then set_byte c PCI_STATUS (Z.land (byte_at c PCI_STATUS) (Z.lnot PCI_STATUS_CAP_LIST)) else c in
  Ok (put_masks (fill_bytes (Z.to_nat size) (cmask d) offset 0) (fill_bytes (Z.to_nat size) (wmask d) offset 0xff)
        (fill_bytes (Z.to_nat size) (w1cmask d) offset 0) (fill_bytes (Z.to_nat (QEMU_ALIGN_UP size 4)) (used d) offset 0) (put_config c d)).

(** ** The configuration ports (pci_host.c) *)
Definition PCI_SECONDARY_BUS : Z := 0x19.
Definition PCI_SUBORDINATE_BUS : Z := 0x1a.
Definition PCI_BRIDGE_CTL_BUS_RESET : Z := 0x40.

Definition pci_bus_num (p : PCI) (b : nat) : outcome Z :=
  bus ← bus_at p b;
  match parent_dev bus with None => Ok 0 | Some d => dev ← dev_at p d; Ok (byte_at (config dev) PCI_SECONDARY_BUS) end.

Definition pci_secondary_bus_in_range (d : PCIDevice) (bus_num : Z) : bool :=
  negb (has_bit (pci_get_word (config d) PCI_BRIDGE_CONTROL) PCI_BRIDGE_CTL_BUS_RESET) &&
  (byte_at (config d) PCI_SECONDARY_BUS <? bus_num) && (bus_num <=? byte_at (config d) PCI_SUBORDINATE_BUS).

(** [bus->child]: the buses behind the devices of a bus. *)
Definition child_buses (p : PCI) (b : nat) : list nat :=
  List.filter (fun c => match (bus ← buses p !! c; d ← parent_dev bus; devs p !! d) with Some dev => (pd_bus dev =? b)%nat | None => false end)
    (rev (seq 0 (length (buses p)))).

Fixpoint search_siblings (p : PCI) (cs : list nat) (bus_num : Z) : outcome (option (nat * bool)) :=
  match cs with
  | [] => Ok None
  | c :: cs =>
    bus ← bus_at p c;
    d ← got (parent_dev bus);
    dev ← dev_at p d;
    if byte_at (config dev) PCI_SECONDARY_BUS =? bus_num then Ok (Some (c, true))
    else if pci_secondary_bus_in_range dev bus_num then Ok (Some (c, false))
    else search_siblings p cs bus_num
  end.

Fixpoint search_down (fuel : nat) (p : PCI) (b : nat) (bus_num : Z) : outcome (option nat) :=
  match fuel with
  | O => NoFuel
  | S fuel =>
    r ← search_siblings p (child_buses p b) bus_num;
    match r with
    | None => Ok None
    | Some (c, true) => Ok (Some c)
    | Some (c, false) => search_down fuel p c bus_num
    end
  end.

(** From the root bus. *)
Definition pci_find_bus_nr (p : PCI) (bus_num : Z) : outcome (option nat) :=
  n ← pci_bus_num p 0;
  if n =? bus_num then Ok (Some 0%nat) else search_down (S (length (buses p))) p 0 bus_num.

Definition pci_find_device (p : PCI) (bus_num fn : Z) : outcome (option nat) :=
  b ← pci_find_bus_nr p bus_num;
  match b with
  | None => Ok None
  | Some b => Ok (device_in_slot p b fn)
  end.

Definition pci_dev_find_by_addr (p : PCI) (addr : Z) : outcome (option nat) := pci_find_device p (u8 (Z.shiftr addr 16)) (u8 (Z.shiftr addr 8)).

(** [pci_dev->config_write]: devices of one bus may handle writes differently, and
    a handler may keep state beside the devices, as a bridge does.  [config_read] is
    [pci_default_read_config] for all devices. *)
Class ConfigSpace (S : Type) := {
  pci_of : S -> PCI;
  config_write : S -> nat -> Z -> Z -> nat -> outcome S
}.

(** Devices that leave [config_write] to the default. *)
#[export] Instance plain_config : ConfigSpace PCI := {| pci_of p := p; config_write := pci_default_write_config |}.

Section Ports.
Context {S : Type} `{ConfigSpace S}.

Definition pci_data_write (x : S) (addr val : Z) (len : nat) : outcome S :=
  d ← pci_dev_find_by_addr (pci_of x) addr;
  let config_addr := Z.land addr (PCI_CONFIG_SPACE_SIZE - 1) in
  match d with
  | None => Ok x
  | Some d => _ ← c_assert (len <=? 4)%nat; config_write x d config_addr val (Nat.min len (Z.to_nat (PCI_CONFIG_SPACE_SIZE - config_addr)))
  end.

Definition pci_data_read (x : S) (addr : Z) (len : nat) : outcome Z :=
  d ← pci_dev_find_by_addr (pci_of x) addr;
  let config_addr := Z.land addr (PCI_CONFIG_SPACE_SIZE - 1) in
  match d with
  | None => Ok (u32 (-1))
  | Some d => _ ← c_assert (len <=? 4)%nat; dev ← dev_at (pci_of x) d; pci_default_read_config dev config_addr (Nat.min len (Z.to_nat (PCI_CONFIG_SPACE_SIZE - config_addr)))
  end.

Record PCIHostState := { host_space : S; config_reg : Z }.

Definition pci_host_config_write (h : PCIHostState) (addr val : Z) (len : nat) : PCIHostState :=
  if negb (addr =? 0) || negb (len =? 4)%nat then h else {| host_space := host_space h; config_reg := u32 val |}.

Definition pci_host_config_read (h : PCIHostState) : Z := config_reg h.

Definition pci_host_data_write (h : PCIHostState) (addr val : Z) (len : nat) : outcome PCIHostState :=
  if has_bit (config_reg h) (Z.shiftl 1 31)
  then x ← pci_data_write (host_space h) (Z.lor (config_reg h) (Z.land addr 3)) val len; Ok {| host_space := x; config_reg := config_reg h |}
  else Ok h.

Definition pci_host_data_read (h : PCIHostState) (addr : Z) (len : nat) : outcome Z :=
  if negb (has_bit (config_reg h) (Z.shiftl 1 31)) then Ok 0xffffffff
  else pci_data_read (host_space h) (Z.lor (config_reg h) (Z.land addr 3)) len.
End Ports.
Arguments PCIHostState : clear implicits.
