(* ===== verification/PciFacts.v ===== *)
(** * Properties of PCI devices

    The contents of configuration space under guest writes; the state of a
    device stays well-typed; mappings, interrupt counts and the lines of the
    interrupt controller stay in step with it. *)
From S2P Require Import Prelude Pci.

(** ** Bytes *)
Definition bytes_ok (l : list Z) : Prop := length l = 256%nat /\ Forall (fun b => 0 <= b < 256) l.

Lemma set_byte_length l a v : length (set_byte l a v) = length l.
Proof. apply length_insert. Qed.

Lemma byte_at_set l a b v : 0 <= a < Z.of_nat (length l) -> 0 <= b -> byte_at (set_byte l a v) b = if b =? a then u8 v else byte_at l b.
Proof.
  intros Ha Hb. unfold byte_at, set_byte. destruct (Z.eqb_spec b a) as [->|Hne].
  - apply nth_lookup_Some with (d := 0). apply list_lookup_insert_eq. lia.
  - rewrite !nth_lookup, list_lookup_insert_ne by lia. done.
Qed.

Lemma bytes_ok_set l a v : bytes_ok l -> bytes_ok (set_byte l a v).
Proof.
  intros [Hl Hf]. split; [by rewrite set_byte_length|]. apply Forall_insert; [done|]. pose proof (wrap_range 8 v). lia.
Qed.

Lemma bytes_ok_set_le n : forall l a v, bytes_ok l -> bytes_ok (set_le n l a v).
Proof. induction n as [|n IH]; intros l a v Hl; cbn; [done|]. by apply IH, bytes_ok_set. Qed.

Lemma byte_range l a : bytes_ok l -> 0 <= byte_at l a < 256.
Proof.
  intros [_ Hf]. unfold byte_at. rewrite nth_lookup. destruct (l !! Z.to_nat a) as [b|] eqn:E; [|cbn; lia]. by eapply Forall_lookup_1 in Hf.
Qed.

Lemma get_le_ext n l l' : forall a, (forall b, a <= b < a + Z.of_nat n -> byte_at l' b = byte_at l b) -> get_le n l' a = get_le n l a.
Proof. induction n as [|n IH]; intros a H; cbn; [done|]. rewrite H, (IH (a + 1)) by lia || (intros; apply H; lia). done. Qed.

Lemma get_le_range n l : bytes_ok l -> forall a, 0 <= get_le n l a < 2 ^ (8 * Z.of_nat n).
Proof.
  intros Hl. induction n as [|n IH]; intros a; cbn [get_le]; [done|]. pose proof (byte_range l a Hl). specialize (IH (a + 1)).
  replace (8 * Z.of_nat (S n)) with (8 + 8 * Z.of_nat n) by lia. rewrite Z.pow_add_r by lia. change (2 ^ 8) with 256. nia.
Qed.

Lemma byte_at_set_le n : forall l a v b, bytes_ok l -> 0 <= a -> a + Z.of_nat n <= 256 -> 0 <= b ->
  byte_at (set_le n l a v) b = if (a <=? b) && (b <? a + Z.of_nat n) then u8 (Z.shiftr v (8 * (b - a))) else byte_at l b.
Proof.
  induction n as [|n IH]; intros l a v b Hl Ha Hn Hb; cbn [set_le].
  - destruct (Z.leb_spec a b), (Z.ltb_spec b (a + Z.of_nat 0)); try done; lia.
  - rewrite IH by (first [by apply bytes_ok_set|lia]). rewrite byte_at_set by (destruct Hl as [Hlen _]; lia).
    destruct (Z.eqb_spec b a) as [->|].
    + destruct (Z.leb_spec (a + 1) a), (Z.leb_spec a a), (Z.ltb_spec a (a + Z.of_nat (S n))); try lia. cbn. by replace (8 * (a - a)) with 0 by lia.
    + destruct (Z.leb_spec (a + 1) b), (Z.leb_spec a b), (Z.ltb_spec b (a + 1 + Z.of_nat n)), (Z.ltb_spec b (a + Z.of_nat (S n))); try lia; cbn; try done.
      rewrite Z.shiftr_shiftr by lia. do 2 f_equal. lia.
Qed.

Lemma get_le_bit n l : bytes_ok l -> forall a k j, 0 <= k < Z.of_nat n -> 0 <= j < 8 -> Z.testbit (get_le n l a) (8 * k + j) = Z.testbit (byte_at l (a + k)) j.
Proof.
  intros Hl. induction n as [|n IH]; intros a k j Hk Hj; [lia|]. cbn [get_le]. pose proof (byte_range l a Hl) as Hr.
  pose proof (lor_shiftl_add (byte_at l a) (get_le n l (a + 1)) 8 ltac:(lia) Hr) as E. change (2 ^ 8) with 256 in E. rewrite (Z.mul_comm 256), <- E.
  rewrite Z.lor_spec, Z.shiftl_spec by lia. destruct (Z.eq_dec k 0) as [->|].
  - rewrite (Z.testbit_neg_r _ (8 * 0 + j - 8)) by lia. rewrite orb_false_r. do 2 f_equal; lia.
  - rewrite (testbit_high (byte_at l a) 8) by lia. cbn [orb]. replace (8 * k + j - 8) with (8 * (k - 1) + j) by lia. rewrite IH by lia. do 2 f_equal. lia.
Qed.

(** ** Well-typed devices *)

(** The masks of a device: no bit is both writable and cleared by writing; the
    interrupt status and the header type are read-only. *)
Record masks_ok (d : PCIDevice) : Prop := {
  mk_wmask : bytes_ok (wmask d);
  mk_w1cmask : bytes_ok (w1cmask d);
  mk_disjoint : forall a, 0 <= a < 256 -> Z.land (byte_at (wmask d) a) (byte_at (w1cmask d) a) = 0;
  mk_status : byte_at (wmask d) PCI_STATUS = 0 /\ byte_at (w1cmask d) PCI_STATUS = 0;
  mk_header : byte_at (wmask d) PCI_HEADER_TYPE = 0 /\ byte_at (w1cmask d) PCI_HEADER_TYPE = 0
}.

(** A registered region lies in the registers that a guest write updates. *)
Definition region_ok (i : Z) (r : PCIIORegion) : Prop :=
  r_size r <> 0 -> 0 < r_size r <= 2 ^ 63 /\ (exists k, r_size r = 2 ^ k) /\ 0 <= r_type r < 256 /\
    (has_bit (r_type r) PCI_BASE_ADDRESS_SPACE_IO = false -> has_bit (r_type r) PCI_BASE_ADDRESS_MEM_TYPE_64 = true -> i < 5).

Record dev_typed (d : PCIDevice) : Prop := {
  dt_config : bytes_ok (config d);
  dt_masks : masks_ok d;
  dt_regions : length (io_regions d) = 7%nat;
  dt_region : forall i r, io_regions d !! i = Some r -> region_ok (Z.of_nat i) r /\ 0 <= r_addr r < 2 ^ 64;
  dt_irq : 0 <= irq_state d < 16
}.

(** The byte at [a] after writing [n] bytes of [val] from [addr] on. *)
Definition written (d : PCIDevice) (addr : Z) (n : nat) (val a : Z) : Z :=
  if (addr <=? a) && (a <? addr + Z.of_nat n)
  then u8 (write_byte (byte_at (config d) a) (byte_at (wmask d) a) (byte_at (w1cmask d) a) (Z.shiftr val (8 * (a - addr))))
  else byte_at (config d) a.

Lemma write_bytes_ok n : forall d addr val, bytes_ok (config d) -> masks_ok d -> 0 <= addr -> addr + Z.of_nat n <= 256 ->
  exists c, write_bytes n d addr val = Ok (put_config c d) /\ bytes_ok c /\ forall a, 0 <= a -> byte_at c a = written d addr n val a.
Proof.
  induction n as [|n IH]; intros d addr val Hc Hm Ha Hn; cbn [write_bytes].
  - exists (config d). split; [by destruct d|]. split; [done|]. intros a _. unfold written.
    destruct (Z.leb_spec addr a), (Z.ltb_spec a (addr + Z.of_nat 0)); try done; lia.
  - unfold PCI_CONFIG_SPACE_SIZE. rewrite (proj2 (Z.ltb_lt _ _)) by lia. cbn [c_assert mbind outcome_bind].
    rewrite (mk_disjoint _ Hm) by lia. cbn [Z.eqb c_assert mbind outcome_bind]. set (v := write_byte _ _ _ _).
    destruct (IH (put_config (set_byte (config d) addr v) d) (addr + 1) (Z.shiftr val 8)) as (c & E & Hc' & Hb); [by apply bytes_ok_set|by destruct Hm|lia|lia|].
    exists c. rewrite E. split; [by destruct d|]. split; [done|]. intros a Ha'. rewrite Hb by done. unfold written. cbn [config wmask w1cmask put_config].
    rewrite byte_at_set by (destruct Hc as [Hlen _]; lia). destruct (Z.eqb_spec a addr) as [->|].
    + destruct (Z.leb_spec (addr + 1) addr), (Z.leb_spec addr addr), (Z.ltb_spec addr (addr + Z.of_nat (S n))); try lia. cbn [andb]. subst v.
      by replace (8 * (addr - addr)) with 0 by lia.
    + destruct (Z.leb_spec (addr + 1) a), (Z.leb_spec addr a), (Z.ltb_spec a (addr + 1 + Z.of_nat n)), (Z.ltb_spec a (addr + Z.of_nat (S n))); try lia; cbn [andb]; try done.
      rewrite Z.shiftr_shiftr by lia. do 3 f_equal. lia.
Qed.

Lemma write_byte_bit c wm w1 val j : 0 <= j -> Z.testbit (write_byte c wm w1 val) j =
  (if Z.testbit wm j then Z.testbit val j else Z.testbit c j) && negb (Z.testbit val j && Z.testbit w1 j).
Proof.
  intros Hj. unfold write_byte. rewrite Z.land_spec, Z.lor_spec, !Z.land_spec, !Z.lnot_spec, Z.land_spec by done.
  destruct (Z.testbit wm j), (Z.testbit c j), (Z.testbit val j), (Z.testbit w1 j); done.
Qed.

Lemma u8_bit v j : 0 <= j < 8 -> Z.testbit (u8 v) j = Z.testbit v j.
Proof. intros Hj. unfold wrap. by rewrite Z.mod_pow2_bits_low by lia. Qed.

Lemma written_ro d addr n val a : bytes_ok (config d) -> byte_at (wmask d) a = 0 -> byte_at (w1cmask d) a = 0 -> written d addr n val a = byte_at (config d) a.
Proof.
  intros Hc H1 H2. unfold written. destruct (_ && _); [|done]. rewrite H1, H2. unfold write_byte.
  rewrite !Z.land_0_r, Z.lor_0_r. change (Z.lnot 0) with (-1). rewrite !Z.land_m1_r. pose proof (byte_range (config d) a Hc). apply wrap_small. lia.
Qed.

(** What a sequence of operations never changes of a device. *)
Definition same_frame (d d' : PCIDevice) : Prop :=
  pd_bus d' = pd_bus d /\ devfn d' = devfn d /\ cmask d' = cmask d /\ wmask d' = wmask d /\ w1cmask d' = w1cmask d /\ used d' = used d /\
  map (fun r => (r_size r, r_type r)) (io_regions d') = map (fun r => (r_size r, r_type r)) (io_regions d).

(** *** Mappings *)
Definition region_sync (d : PCIDevice) (i : Z) (r : PCIIORegion) : Prop :=
  r_size r <> 0 -> r_addr r = pci_bar_address d i (r_type r) (r_size r) /\
    r_mapped r = if r_addr r =? PCI_BAR_UNMAPPED then None else Some (r_addr r).

(** The mapping agrees with the recorded address, which may be outdated. *)
Definition region_mapped (r : PCIIORegion) : Prop := r_size r <> 0 -> r_mapped r = if r_addr r =? PCI_BAR_UNMAPPED then None else Some (r_addr r).

Definition maps_sync (d : PCIDevice) : Prop := forall i r, io_regions d !! i = Some r -> region_sync d (Z.of_nat i) r.

Lemma update_region_ok d i r : region_mapped r -> exists r', update_region d i r = Ok r' /\ region_sync d i r' /\ r_size r' = r_size r /\ r_type r' = r_type r.
Proof.
  intros Hm. unfold update_region. destruct (Z.eqb_spec (r_size r) 0) as [E|Hs]; [exists r; split_and!; try done; intros []; done|].
  specialize (Hm Hs). destruct (Z.eqb_spec (pci_bar_address d i (r_type r) (r_size r)) (r_addr r)) as [E|Hne].
  { exists r. split_and!; try done. }
  unfold del_subregion, add_subregion. rewrite Hm. destruct (r_addr r =? PCI_BAR_UNMAPPED) eqn:E1; cbn [negb bool_decide c_assert mbind outcome_bind r_addr r_mapped r_size r_type].
  - rewrite Hm. destruct (pci_bar_address d i (r_type r) (r_size r) =? PCI_BAR_UNMAPPED) eqn:E2; cbn; eexists; (split; [done|]); (split; [|done]);
      intros _; cbn; rewrite E2; done.
  - rewrite bool_decide_true by done. cbn [c_assert mbind outcome_bind r_addr r_mapped r_size r_type].
    destruct (pci_bar_address d i (r_type r) (r_size r) =? PCI_BAR_UNMAPPED) eqn:E2; cbn; eexists; (split; [done|]); (split; [|done]);
      intros _; cbn; rewrite E2; done.
Qed.

Lemma update_regions_ok d rs : forall i, (forall r, r ∈ rs -> region_mapped r) -> exists rs', update_regions d i rs = Ok rs' /\
  length rs' = length rs /\ forall k r', rs' !! k = Some r' -> exists r, rs !! k = Some r /\ region_sync d (i + Z.of_nat k) r' /\ r_size r' = r_size r /\ r_type r' = r_type r /\
    (r_size r = 0 -> r' = r).
Proof.
  induction rs as [|r rs IH]; intros i Hm; cbn [update_regions]; [by exists []|].
  destruct (update_region_ok d i r) as (r' & E1 & Hs & Hz & Ht); [apply Hm; left|]. rewrite E1. cbn [mbind outcome_bind].
  destruct (IH (i + 1)) as (rs' & -> & Hl & Hk); [intros r0 H0; apply Hm; by right|]. cbn [mbind outcome_bind]. exists (r' :: rs'). split; [done|].
  split; [cbn; lia|]. intros [|k] r0; cbn.
  - intros [= <-]. exists r. rewrite Z.add_0_r. split_and!; try done. intros H0. unfold update_region in E1. rewrite H0 in E1. cbn in E1. congruence.
  - intros H0. replace (i + Z.of_nat (S k)) with (i + 1 + Z.of_nat k) by lia. by apply Hk.
Qed.

Lemma pci_bar_address_config d d' i type size : config d' = config d -> pci_bar_address d' i type size = pci_bar_address d i type size.
Proof. intros E. unfold pci_bar_address, pci_bar. by rewrite E. Qed.

Lemma land_below a b w : 0 <= a < w -> 0 <= Z.land a b < w.
Proof.
  intros Ha. split; [apply Z.land_nonneg; lia|].
  assert (E : Z.land a b + Z.ldiff a b = a).
  { assert (X : Z.land (Z.land a b) (Z.ldiff a b) = 0).
    { apply Z.bits_inj'. intros j _. rewrite Z.land_spec, Z.land_spec, Z.ldiff_spec, Z.bits_0. by destruct (Z.testbit a j), (Z.testbit b j). }
    rewrite Z.add_nocarry_lxor, Z.lxor_lor by done. apply Z.bits_inj'. intros j _. rewrite Z.lor_spec, Z.land_spec, Z.ldiff_spec. by destruct (Z.testbit a j), (Z.testbit b j). }
  assert (0 <= Z.ldiff a b) by (apply Z.ldiff_nonneg; lia). lia.
Qed.

Lemma pci_bar_address_range d i type size : bytes_ok (config d) -> 0 <= pci_bar_address d i type size < 2 ^ 64.
Proof.
  intros Hc. unfold pci_bar_address. set (bar := pci_bar d i).
  assert (H4 : 0 <= pci_get_long (config d) bar < 2 ^ 32) by exact (get_le_range 4 _ Hc bar).
  assert (H8 : 0 <= pci_get_quad (config d) bar < 2 ^ 64) by exact (get_le_range 8 _ Hc bar). unfold PCI_BAR_UNMAPPED. repeat (match goal with |- context [if ?b then _ else _] => destruct b end; try lia); apply land_below; lia.
Qed.

Lemma pci_update_mappings_ok d : bytes_ok (config d) -> (forall r, r ∈ io_regions d -> region_mapped r) ->
  exists rs, pci_update_mappings d = Ok (put_regions rs d) /\ maps_sync (put_regions rs d) /\ length rs = length (io_regions d) /\
    forall k r', rs !! k = Some r' -> exists r, io_regions d !! k = Some r /\ r_size r' = r_size r /\ r_type r' = r_type r /\ (0 <= r_addr r < 2 ^ 64 -> 0 <= r_addr r' < 2 ^ 64).
Proof.
  intros Hc Hm. unfold pci_update_mappings. destruct (update_regions_ok d (io_regions d) 0 Hm) as (rs & -> & Hl & Hk). cbn [mbind outcome_bind].
  exists rs. split_and!; [done| |done|].
  - intros i r Hr. destruct (Hk i r Hr) as (r0 & H0 & Hs & _). intros Hz. cbn [config put_regions]. destruct (Hs Hz) as [Ha Hma].
    rewrite Z.add_0_l in Ha. rewrite (pci_bar_address_config d) by done. done.
  - intros k r' Hr. destruct (Hk k r' Hr) as (r0 & H0 & Hs & Hz & Ht & H00). exists r0. split_and!; try done. intros Ha.
    destruct (Z.eq_dec (r_size r0) 0) as [E|Hne]; [by rewrite H00|]. destruct Hs as [-> _]; [congruence|]. by apply pci_bar_address_range.
Qed.

(** A write that the code does not react to leaves the addresses alone. *)
Definition bar_bytes (a : Z) : bool := (a =? PCI_COMMAND) || ((PCI_BASE_ADDRESS_0 <=? a) && (a <? PCI_BASE_ADDRESS_0 + 24)) ||
  ((PCI_ROM_ADDRESS <=? a) && (a <? PCI_ROM_ADDRESS + 4)) || ((PCI_ROM_ADDRESS1 <=? a) && (a <? PCI_ROM_ADDRESS1 + 4)) || (a =? PCI_HEADER_TYPE).

Lemma bar_byte_true a : a = 4 \/ 0x10 <= a < 0x28 \/ 0x30 <= a < 0x34 \/ 0x38 <= a < 0x3c \/ a = 0xe -> bar_bytes a = true.
Proof. unfold bar_bytes, PCI_COMMAND, PCI_HEADER_TYPE, PCI_BASE_ADDRESS_0, PCI_ROM_ADDRESS, PCI_ROM_ADDRESS1. lia. Qed.

Lemma has_bit_low l m : bytes_ok l -> 0 <= m < 256 -> has_bit (pci_get_word l PCI_COMMAND) m = has_bit (byte_at l PCI_COMMAND) m.
Proof.
  intros Hl Hm. unfold has_bit. do 2 f_equal. unfold pci_get_word. cbn [get_le]. pose proof (byte_range l PCI_COMMAND Hl) as Hr. rewrite Z.mul_0_r, Z.add_0_r.
  pose proof (lor_shiftl_add (byte_at l PCI_COMMAND) (byte_at l (PCI_COMMAND + 1)) 8 ltac:(lia) Hr) as E. change (2 ^ 8) with 256 in E. rewrite (Z.mul_comm 256), <- E.
  apply Z.bits_inj'. intros j Hj. rewrite !Z.land_spec, Z.lor_spec, Z.shiftl_spec by done. destruct (Z.lt_ge_cases j 8).
  - rewrite (Z.testbit_neg_r _ (j - 8)) by lia. by rewrite orb_false_r.
  - rewrite (testbit_high m 8) by lia. by rewrite !andb_false_r.
Qed.

Lemma pci_bar_range d i : 0 <= i < 7 -> (i < 6 -> pci_bar d i = 0x10 + i * 4) /\ (i = 6 -> pci_bar d i = 0x30 \/ pci_bar d i = 0x38).
Proof.
  intros Hi. unfold pci_bar, PCI_ROM_SLOT, PCI_BASE_ADDRESS_0, PCI_ROM_ADDRESS, PCI_ROM_ADDRESS1. destruct (Z.eqb_spec i 6); cbn [negb]; split; intros; try lia.
  destruct (_ =? PCI_HEADER_TYPE_BRIDGE); lia.
Qed.

Lemma pci_bar_address_same d d' i r : bytes_ok (config d) -> bytes_ok (config d') -> (forall a, bar_bytes a = true -> byte_at (config d') a = byte_at (config d) a) ->
  0 <= i < 7 -> region_ok i r -> r_size r <> 0 -> pci_bar_address d' i (r_type r) (r_size r) = pci_bar_address d i (r_type r) (r_size r).
Proof.
  intros Hc Hc' Hb Hi Hr Hz. destruct (Hr Hz) as (_ & _ & _ & H64). unfold pci_bar_address. rewrite !(has_bit_low (config d')), !(has_bit_low (config d)) by (done || lia).
  rewrite (Hb PCI_COMMAND) by done. assert (E : pci_bar d' i = pci_bar d i) by (unfold pci_bar; by rewrite (Hb PCI_HEADER_TYPE)). rewrite E.
  destruct (pci_bar_range d i Hi) as [B1 B2]. assert (E4 : pci_get_long (config d') (pci_bar d i) = pci_get_long (config d) (pci_bar d i)).
  { apply get_le_ext. intros b Hbr. apply Hb, bar_byte_true. destruct (Z.eq_dec i 6); [destruct (B2 e) as [X|X]|rewrite B1 in Hbr by lia]; lia. }
  rewrite E4. destruct (has_bit (r_type r) PCI_BASE_ADDRESS_SPACE_IO) eqn:Eio; [done|]. destruct (has_bit (r_type r) PCI_BASE_ADDRESS_MEM_TYPE_64) eqn:E64; [|done].
  assert (E8 : pci_get_quad (config d') (pci_bar d i) = pci_get_quad (config d) (pci_bar d i)); [|by rewrite E8].
  apply get_le_ext. intros b Hbr. apply Hb. specialize (H64 eq_refl eq_refl). rewrite B1 in Hbr by lia. apply bar_byte_true. lia.
Qed.

(** ** Interrupts

    A pin counts if it is asserted and interrupts are not disabled. *)
Definition asserting (d : PCIDevice) (pin : Z) : Z := if pci_irq_disabled d =? 0 then pci_irq_state d pin else 0.
Definition contrib (p : PCI) (d : nat) (pin : Z) : Z := match devs p !! d with Some dev => asserting dev pin | None => 0 end.

Definition pin_pairs (p : PCI) : list (nat * Z) := list_prod (seq 0 (length (devs p))) pins.

Definition routes_to (p : PCI) (b : nat) (i : Z) (x : nat * Z) : bool :=
  match route_of p x.1 x.2 with Ok (b', i') => (b' =? b)%nat && (i' =? i) | _ => false end.

Definition Zsum (l : list Z) : Z := foldr Z.add 0 l.

(** How many pins drive the line [i] of the controller of the bus [b]. *)
Definition total (p : PCI) (f : nat -> Z -> Z) (b : nat) (i : Z) : Z :=
  Zsum (map (fun x => if routes_to p b i x then f x.1 x.2 else 0) (pin_pairs p)).

(** The level of a line, by the calls of [set_irq]. *)
Definition line_level (calls : list (Z * Z)) (i : Z) : Z := fold_left (fun l c => if c.1 =? i then c.2 else l) calls 0.

(** Counts and lines agree with the pins. *)
Definition counted (p : PCI) (f : nat -> Z -> Z) : Prop := forall b bus, buses p !! b = Some bus -> set_irq bus = true ->
  forall i, 0 <= i < Z.of_nat (length (irq_count bus)) ->
  irq_count bus !! Z.to_nat i = Some (total p f b i) /\ line_level (irq_calls bus) i = b2z (negb (total p f b i =? 0)).

(** All pins of the device reach a controller. *)
Definition wired (p : PCI) (d : nat) : Prop := forall pin, pin ∈ pins ->
  exists b i bus, route_of p d pin = Ok (b, i) /\ buses p !! b = Some bus /\ set_irq bus = true /\ 0 <= i < Z.of_nat (length (irq_count bus)).

(** A call of the interrupt controller. *)
Definition call_ok (bus : PCIBus) (c : Z * Z) : Prop := 0 <= c.1 < Z.of_nat (length (irq_count bus)) /\ 0 <= c.2 <= 1.

(** The buses and the places of the devices do not change, and calls are only
    added. *)
Record same_topology (p p' : PCI) : Prop := {
  st_devs : length (devs p') = length (devs p);
  st_dev : forall d, (fun x => (pd_bus x, devfn x)) <$> devs p' !! d = (fun x => (pd_bus x, devfn x)) <$> devs p !! d;
  st_buses : length (buses p') = length (buses p);
  st_bus : forall b, (fun x => (parent_dev x, map_irq x, set_irq x, length (irq_count x))) <$> buses p' !! b =
    (fun x => (parent_dev x, map_irq x, set_irq x, length (irq_count x))) <$> buses p !! b;
  st_calls : forall b bus bus', buses p !! b = Some bus -> buses p' !! b = Some bus' -> exists new, irq_calls bus' = irq_calls bus ++ new /\ Forall (call_ok bus) new
}.

Lemma calls_refl p : forall b bus bus', buses p !! b = Some bus -> buses p !! b = Some bus' -> exists new, irq_calls bus' = irq_calls bus ++ new /\ Forall (call_ok bus) new.
Proof. intros b bus bus' H1 H2. exists []. assert (bus' = bus) as -> by congruence. by rewrite app_nil_r. Qed.

Lemma same_topology_refl p : same_topology p p.
Proof. split; try done. apply calls_refl. Qed.
#[export] Hint Resolve same_topology_refl : core.

Lemma same_topology_trans p1 p2 p3 : same_topology p1 p2 -> same_topology p2 p3 -> same_topology p1 p3.
Proof.
  intros [A1 A2 A3 A4 A5] [B1 B2 B3 B4 B5]. split; [congruence|intros d; by rewrite B2|congruence|intros b; by rewrite B4|]. intros b bus1 bus3 H1 H3.
  destruct (buses p2 !! b) as [bus2|] eqn:H2; [|apply lookup_ge_None in H2; apply lookup_lt_Some in H1; lia]. destruct (A5 b bus1 bus2 H1 H2) as (n1 & E1 & F1).
  destruct (B5 b bus2 bus3 H2 H3) as (n2 & E2 & F2). exists (n1 ++ n2). split; [by rewrite E2, E1, <- app_assoc|]. apply Forall_app. split; [done|]. eapply Forall_impl; [exact F2|]. intros c Hc.
  pose proof (A4 b) as X. rewrite H1, H2 in X. injection X as _ _ _ X. unfold call_ok in *. by rewrite <- X.
Qed.

Lemma pci_route_same p p' : same_topology p p' -> forall fuel d i, pci_route fuel p' d i = pci_route fuel p d i.
Proof.
  intros [A1 A2 A3 A4 _]. induction fuel as [|fuel IH]; intros d i; cbn [pci_route]; [done|]. unfold dev_at, bus_at. specialize (A2 d).
  destruct (devs p' !! d) as [x'|], (devs p !! d) as [x|]; cbn in A2; try done. injection A2 as E1 E2. cbn [got mbind outcome_bind]. rewrite E1, E2. specialize (A4 (pd_bus x)).
  destruct (buses p' !! pd_bus x) as [b'|], (buses p !! pd_bus x) as [b|]; cbn in A4; try done. injection A4 as F1 F2 F3 _. cbn [got mbind outcome_bind]. rewrite F1, F2, F3.
  destruct (map_irq b (devfn x) i); cbn [mbind outcome_bind]; try done. destruct (set_irq b); [done|]. destruct (parent_dev b); [apply IH|done].
Qed.

Lemma route_of_same p p' d i : same_topology p p' -> route_of p' d i = route_of p d i.
Proof. intros T. unfold route_of. rewrite (st_buses _ _ T). by apply pci_route_same. Qed.

Lemma total_same p p' f g b i : same_topology p p' -> (forall d pin, (d < length (devs p))%nat -> pin ∈ pins -> g d pin = f d pin) -> total p' g b i = total p f b i.
Proof.
  intros T Hf. unfold total, pin_pairs. rewrite (st_devs _ _ T). f_equal. apply map_ext_in. intros [d pin] Hin%in_prod_iff. destruct Hin as [Hd Hp].
  apply in_seq in Hd. apply list_elem_of_In in Hp. cbn. unfold routes_to. cbn [fst snd]. rewrite (route_of_same _ _ _ _ T), Hf by (done || lia). done.
Qed.

Lemma counted_same p p' f g : same_topology p p' -> buses p' = buses p -> (forall d pin, (d < length (devs p))%nat -> pin ∈ pins -> g d pin = f d pin) ->
  counted p f -> counted p' g.
Proof. intros T Hb Hf Hc b bus Hbus Hs i Hi. rewrite (total_same p p' f g) by done. rewrite Hb in Hbus. by apply Hc. Qed.

Lemma wired_same p p' d : same_topology p p' -> wired p d -> wired p' d.
Proof.
  intros T H pin Hp. destruct (H pin Hp) as (b & i & bus & E & Hb & Hs & Hi). pose proof (st_bus _ _ T b) as X. rewrite Hb in X.
  destruct (buses p' !! b) as [bus'|] eqn:Eb; cbn in X; [|done]. injection X as _ _ X3 X4. exists b, i, bus'. rewrite (route_of_same _ _ _ _ T). split_and!; try done; [congruence|lia|lia].
Qed.

Lemma Zsum_update {A} (g g' : A -> Z) (l : list A) x : NoDup l -> x ∈ l -> (forall y, y ∈ l -> y <> x -> g' y = g y) ->
  Zsum (map g' l) = Zsum (map g l) + (g' x - g x).
Proof.
  induction l as [|y l IH]; [by intros _ ?%elem_of_nil|]. intros [Hn Hd]%NoDup_cons Hin Hg. unfold Zsum in *. cbn [map foldr].
  apply elem_of_cons in Hin as [->|Hin].
  - assert (E : map g' l = map g l); [|rewrite E; lia]. apply map_ext_in. intros z Hz%list_elem_of_In. apply Hg; [by right|]. by intros ->.
  - rewrite IH; [|done|done|intros z Hz; apply Hg; by right]. rewrite (Hg y); [lia|left|]. by intros ->.
Qed.

Lemma list_prod_nodup {A B} (l : list A) (l' : list B) : NoDup l -> NoDup l' -> NoDup (list_prod l l').
Proof.
  intros Hl Hl'. induction Hl as [|x l Hn Hl IH]; cbn; [constructor|]. apply NoDup_app. split_and!; [|intros [a b] H1 H2|done].
  - by apply (NoDup_fmap_2 (pair x)).
  - apply list_elem_of_In, in_map_iff in H1 as (y & [= <- <-] & _). apply list_elem_of_In, in_prod_iff in H2 as [H2 _]. apply list_elem_of_In in H2. done.
Qed.

Lemma pin_pairs_nodup p : NoDup (pin_pairs p).
Proof. apply list_prod_nodup; [apply NoDup_seq|]. unfold pins. repeat constructor; set_solver. Qed.

Lemma pin_pairs_elem p d pin : (d, pin) ∈ pin_pairs p <-> (d < length (devs p))%nat /\ pin ∈ pins.
Proof. unfold pin_pairs. rewrite list_elem_of_In, in_prod_iff, in_seq, <- list_elem_of_In. intuition lia. Qed.

(** The contributions after one pin has changed. *)
Definition bump (f : nat -> Z -> Z) (d : nat) (pin change : Z) : nat -> Z -> Z :=
  fun d' pin' => if (d' =? d)%nat && (pin' =? pin) then f d pin + change else f d' pin'.

Lemma total_bump p f d pin change b i : (d < length (devs p))%nat -> pin ∈ pins ->
  total p (bump f d pin change) b i = total p f b i + if routes_to p b i (d, pin) then change else 0.
Proof.
  intros Hd Hp. unfold total. rewrite (Zsum_update (fun x => if routes_to p b i x then f x.1 x.2 else 0) _ (pin_pairs p) (d, pin)).
  - f_equal. cbn [fst snd]. unfold bump. rewrite Nat.eqb_refl, Z.eqb_refl. cbn [andb]. destruct (routes_to p b i (d, pin)); lia.
  - apply pin_pairs_nodup.
  - by apply pin_pairs_elem.
  - intros [d' pin'] _ Hne. cbn [fst snd]. unfold bump. destruct (Nat.eqb_spec d' d), (Z.eqb_spec pin' pin); subst; done.
Qed.

Lemma line_level_snoc calls j l i : line_level (calls ++ [(j, l)]) i = if j =? i then l else line_level calls i.
Proof. unfold line_level. by rewrite fold_left_app. Qed.

Lemma pci_change_irq_level_ok p f d pin change : wired p d -> counted p f -> (d < length (devs p))%nat -> pin ∈ pins ->
  exists p', pci_change_irq_level p d pin change = Ok p' /\ devs p' = devs p /\ same_topology p p' /\ counted p' (bump f d pin change).
Proof.
  intros Hr Hc Hd Hp. destruct (Hr pin Hp) as (b & i & bus & E & Hb & Hs & Hi). unfold pci_change_irq_level, bus_at. rewrite E. cbn [mbind outcome_bind].
  rewrite Hb. cbn [got mbind outcome_bind]. rewrite (proj2 (Z.ltb_ge _ _)) by lia. destruct (Hc b bus Hb Hs i Hi) as [Hcount Hlev]. rewrite Hcount. cbn [got mbind outcome_bind].
  set (bus' := {| parent_dev := _ |}). eexists. split; [done|]. split; [done|].
  assert (T : same_topology p (put_bus p b bus')).
  { split; [done|done|cbn; by rewrite length_insert| |].
    - intros b'. cbn [buses put_bus]. destruct (decide (b' = b)) as [->|]; [|by rewrite list_lookup_insert_ne].
      rewrite list_lookup_insert_eq by (by eapply lookup_lt_Some). rewrite Hb. cbn. by rewrite length_insert.
    - intros b' x x' Hx Hx'. cbn [buses put_bus] in Hx'. destruct (decide (b' = b)) as [->|]; [|rewrite list_lookup_insert_ne in Hx' by done; by eapply calls_refl].
      rewrite list_lookup_insert_eq in Hx' by (by eapply lookup_lt_Some). injection Hx' as <-. assert (x = bus) as -> by congruence. eexists. split; [done|]. apply Forall_singleton.
      split; cbn [fst snd]; [done|]. destruct (total p f b i + change =? 0); cbn; lia. }
  split; [done|]. intros b' busb Hb' Hs' j Hj. rewrite (total_same p _ (bump f d pin change)) by done. rewrite total_bump by done. unfold routes_to. cbn [fst snd]. rewrite E.
  cbn [buses put_bus] in Hb'. destruct (Nat.eqb_spec b b') as [<-|Hne]; cbn [andb].
  - rewrite list_lookup_insert_eq in Hb' by (by eapply lookup_lt_Some). injection Hb' as <-. cbn [irq_count irq_calls bus'] in *. rewrite length_insert in Hj. rewrite line_level_snoc.
    destruct (Z.eqb_spec i j) as [<-|Hij]; [rewrite list_lookup_insert_eq by lia; done|]. rewrite list_lookup_insert_ne by lia. rewrite Z.add_0_r. by apply Hc.
  - rewrite list_lookup_insert_ne in Hb' by done. rewrite Z.add_0_r. by apply Hc.
Qed.

(** *** The pins of a device *)
Lemma pci_irq_state_bit d n : 0 <= n -> pci_irq_state d n = b2z (Z.testbit (irq_state d) n).
Proof.
  intros Hn. unfold pci_irq_state. change 1 with (Z.ones 1). rewrite Z.land_ones by lia. change (2 ^ 1) with 2. rewrite <- Z.bit0_mod, Z.shiftr_spec, Z.add_0_l by lia.
  by destruct (Z.testbit _ _).
Qed.

Lemma pins_elem pin : pin ∈ pins <-> 0 <= pin < 4.
Proof. unfold pins. rewrite !elem_of_cons, elem_of_nil. lia. Qed.

Lemma pci_set_irq_state_bit d pin level j : 0 <= irq_state d < 16 -> 0 <= pin < 4 -> 0 <= level <= 1 -> 0 <= j ->
  Z.testbit (irq_state (pci_set_irq_state d pin level)) j = if j =? pin then negb (level =? 0) else Z.testbit (irq_state d) j.
Proof.
  intros Hs Hp Hl Hj. cbn [pci_set_irq_state irq_state put_irq_state]. destruct (Z.lt_ge_cases j 8) as [H8|H8].
  - rewrite u8_bit, Z.lor_spec, Z.land_spec, Z.lnot_spec, !Z.shiftl_spec by lia. destruct (Z.eqb_spec j pin) as [->|Hne].
    + rewrite Z.sub_diag. assert (level = 0 \/ level = 1) as [-> | ->] by lia; cbn; by rewrite ?andb_false_r.
    + assert (X : forall l, 0 <= l <= 1 -> Z.testbit l (j - pin) = false).
      { intros l Hl'. destruct (Z.lt_ge_cases (j - pin) 0); [by apply Z.testbit_neg_r|]. apply (testbit_high l 1); lia. }
      rewrite !X by lia. by rewrite andb_true_r, orb_false_r.
  - rewrite !(testbit_high _ 8) by (try lia; pose proof (wrap_range 8 (Z.lor (Z.land (irq_state d) (Z.lnot (Z.shiftl 1 pin))) (Z.shiftl level pin))); lia).
    destruct (Z.eqb_spec j pin); [lia|]. done.
Qed.

Lemma range_by_bits a w : 0 <= a -> 0 <= w -> (forall j, w <= j -> Z.testbit a j = false) -> a < 2 ^ w.
Proof.
  intros Ha Hw H. destruct (Z.lt_ge_cases a (2 ^ w)); [done|]. exfalso. assert (0 < a) by (pose proof (Z.pow_pos_nonneg 2 w); lia).
  pose proof (Z.bit_log2 a ltac:(lia)) as B. rewrite H in B; [done|]. apply Z.log2_le_pow2; lia.
Qed.

Lemma pci_set_irq_state_range d pin level : 0 <= irq_state d < 16 -> 0 <= pin < 4 -> 0 <= level <= 1 -> 0 <= irq_state (pci_set_irq_state d pin level) < 16.
Proof.
  intros Hs Hp Hl. assert (H0 : 0 <= irq_state (pci_set_irq_state d pin level)) by (cbn [pci_set_irq_state irq_state put_irq_state]; apply wrap_range; lia).
  split; [done|]. apply (range_by_bits _ 4); [done|lia|]. intros j Hj. rewrite pci_set_irq_state_bit by lia. destruct (Z.eqb_spec j pin); [lia|]. apply (testbit_high _ 4); lia.
Qed.

Lemma pci_irq_disabled_ext d d' : byte_at (config d') 4 = byte_at (config d) 4 -> byte_at (config d') 5 = byte_at (config d) 5 -> pci_irq_disabled d' = pci_irq_disabled d.
Proof. intros H4 H5. unfold pci_irq_disabled, pci_get_word, PCI_COMMAND. cbn [get_le]. change (4 + 1) with 5. by rewrite H4, H5. Qed.

(** The device after a pin has changed. *)
Definition set_pin (d : PCIDevice) (pin level : Z) : PCIDevice := pci_update_irq_status (pci_set_irq_state d pin level).

Definition status_sync (d : PCIDevice) : Prop := has_bit (byte_at (config d) PCI_STATUS) PCI_STATUS_INTERRUPT = negb (irq_state d =? 0).

Lemma set_pin_byte d pin level a : bytes_ok (config d) -> 0 <= a -> a <> PCI_STATUS -> byte_at (config (set_pin d pin level)) a = byte_at (config d) a.
Proof.
  intros [Hl _] Ha Hne. unfold set_pin, pci_update_irq_status. cbn [config put_config pci_set_irq_state put_irq_state]. rewrite byte_at_set by (rewrite ?Hl; unfold PCI_STATUS; lia).
  by rewrite (proj2 (Z.eqb_neq _ _) Hne).
Qed.

Lemma set_pin_status d pin level : bytes_ok (config d) -> status_sync (set_pin d pin level).
Proof.
  intros Hc. pose proof Hc as [Hl _]. unfold status_sync, set_pin, pci_update_irq_status. set (d' := pci_set_irq_state d pin level).
  assert (E : config d' = config d) by done. cbn [config irq_state put_config]. rewrite E. rewrite byte_at_set, Z.eqb_refl by (rewrite ?Hl; unfold PCI_STATUS; lia).
  pose proof (byte_range _ PCI_STATUS Hc) as Hb. set (s := byte_at (config d) PCI_STATUS) in *. unfold PCI_STATUS_INTERRUPT, has_bit.
  assert (X : forall v, Z.land (u8 v) 8 = Z.land v 8).
  { intros v. apply Z.bits_inj'. intros j Hj. rewrite !Z.land_spec. destruct (Z.lt_ge_cases j 8); [by rewrite u8_bit|]. rewrite (testbit_high 8 4) by lia. by rewrite !andb_false_r. }
  rewrite X. destruct (negb (irq_state d' =? 0)); [apply negb_true_iff, Z.eqb_neq; intros C|apply negb_false_iff, Z.eqb_eq].
  - apply (f_equal (fun v => Z.testbit v 3)) in C. rewrite Z.land_spec, Z.lor_spec in C. cbn in C. by rewrite orb_true_r in C.
  - rewrite <- Z.land_assoc. change (Z.land (Z.lnot 8) 8) with 0. apply Z.land_0_r.
Qed.

(** ** The invariant *)
Definition dev_ok (d : PCIDevice) : Prop := dev_typed d /\ maps_sync d /\ status_sync d.

(** A device whose pins lead nowhere raises none and does not disable them. *)
Definition idle (d : PCIDevice) : Prop := irq_state d = 0 /\ pci_irq_disabled d = 0.

Record pci_ok (p : PCI) : Prop := {
  po_devs : forall d dev, devs p !! d = Some dev -> dev_ok dev;
  po_routes : forall d dev, devs p !! d = Some dev -> wired p d \/ idle dev;
  po_counted : counted p (contrib p)
}.

Lemma maps_sync_same d d' : bytes_ok (config d) -> bytes_ok (config d') -> (forall a, bar_bytes a = true -> byte_at (config d') a = byte_at (config d) a) ->
  dev_typed d -> io_regions d' = io_regions d -> maps_sync d -> maps_sync d'.
Proof.
  intros Hc Hc' Hb Ht Hr Hm i r Hi. rewrite Hr in Hi. intros Hz. pose proof (lookup_lt_Some _ _ _ Hi) as Hlt. rewrite (dt_regions _ Ht) in Hlt.
  destruct (Hm i r Hi Hz) as [Ha Hmap]. split; [|done]. rewrite (pci_bar_address_same d d') by (first [done | lia | by apply Ht]). done.
Qed.

Lemma bar_bytes_pos a : bar_bytes a = true -> 4 <= a /\ a <> PCI_STATUS.
Proof. unfold bar_bytes, PCI_STATUS, PCI_COMMAND, PCI_HEADER_TYPE, PCI_BASE_ADDRESS_0, PCI_ROM_ADDRESS, PCI_ROM_ADDRESS1. lia. Qed.

Lemma set_pin_ok d pin level : dev_ok d -> 0 <= pin < 4 -> 0 <= level <= 1 -> dev_ok (set_pin d pin level).
Proof.
  intros (Ht & Hm & Hs) Hp Hl. pose proof (dt_config _ Ht) as Hc. assert (Hc' : bytes_ok (config (set_pin d pin level))) by (by apply bytes_ok_set). split_and!.
  - pose proof Ht as [T1 T2 T3 T4 T5]. split; [done|by destruct T2|done|done|by apply pci_set_irq_state_range].
  - apply (maps_sync_same d); try done. intros a [Ha Hne]%bar_bytes_pos. apply set_pin_byte; [done|lia|done].
  - by apply set_pin_status.
Qed.

Lemma put_dev_topology p d dev dev' : devs p !! d = Some dev -> pd_bus dev' = pd_bus dev -> devfn dev' = devfn dev -> same_topology p (put_dev p d dev').
Proof.
  intros Hd E1 E2. split; [cbn; by rewrite length_insert| |done|done|exact (calls_refl p)]. intros d'. cbn [devs put_dev]. destruct (decide (d' = d)) as [->|].
  - rewrite list_lookup_insert_eq by (by eapply lookup_lt_Some). rewrite Hd. cbn. congruence.
  - by rewrite list_lookup_insert_ne.
Qed.

Lemma put_dev_lookup p d dev d' dev' : devs (put_dev p d dev) !! d' = Some dev' -> (d' = d /\ dev' = dev) \/ (d' <> d /\ devs p !! d' = Some dev').
Proof.
  cbn [devs put_dev]. intros H. destruct (decide (d' = d)) as [->|].
  - left. split; [done|]. pose proof (lookup_lt_Some _ _ _ H) as Hlt. rewrite length_insert in Hlt. rewrite list_lookup_insert_eq in H by done. by injection H.
  - rewrite list_lookup_insert_ne in H by done. by right.
Qed.

Lemma contrib_put p d dev dev' d' pin : devs p !! d = Some dev -> contrib (put_dev p d dev') d' pin = if (d' =? d)%nat then asserting dev' pin else contrib p d' pin.
Proof.
  intros Hd. unfold contrib. cbn [devs put_dev]. destruct (Nat.eqb_spec d' d) as [->|]; [by rewrite list_lookup_insert_eq by (by eapply lookup_lt_Some)|by rewrite list_lookup_insert_ne].
Qed.

(** Only the device [d] has changed, and how. *)
Record changed (d : nat) (p p' : PCI) (R : PCIDevice -> PCIDevice -> Prop) : Prop := {
  ch_topology : same_topology p p';
  ch_others : forall d', d' <> d -> devs p' !! d' = devs p !! d';
  ch_dev : exists dev dev', devs p !! d = Some dev /\ devs p' !! d = Some dev' /\ R dev dev'
}.

Definition pin_changed (pin level : Z) (dev dev' : PCIDevice) : Prop :=
  same_frame dev dev' /\ (forall a, 0 <= a -> a <> PCI_STATUS -> byte_at (config dev') a = byte_at (config dev) a) /\
  forall j, 0 <= j < 4 -> Z.testbit (irq_state dev') j = if j =? pin then negb (level =? 0) else Z.testbit (irq_state dev) j.

Lemma set_pin_changed dev pin level : dev_ok dev -> 0 <= pin < 4 -> 0 <= level <= 1 -> pin_changed pin level dev (set_pin dev pin level).
Proof.
  intros (Ht & _ & _) Hp Hl. split; [done|]. split; [intros a Ha Hne; apply set_pin_byte; [apply Ht|done|done]|].
  intros j Hj. apply (pci_set_irq_state_bit dev pin level j); [apply Ht|done|done|lia].
Qed.

Lemma asserting_set_pin dev pin level pin' : dev_ok dev -> 0 <= pin < 4 -> 0 <= level <= 1 -> 0 <= pin' < 4 ->
  asserting (set_pin dev pin level) pin' = if pci_irq_disabled dev =? 0 then (if pin' =? pin then level else pci_irq_state dev pin') else 0.
Proof.
  intros Hok Hp Hl Hp'. destruct (set_pin_changed dev pin level Hok Hp Hl) as (_ & Hb & Hbit). unfold asserting.
  rewrite (pci_irq_disabled_ext dev) by (apply Hb; unfold PCI_STATUS; lia). destruct (pci_irq_disabled dev =? 0); [|done]. rewrite !pci_irq_state_bit by lia.
  rewrite Hbit by done. destruct (pin' =? pin); [|done]. assert (level = 0 \/ level = 1) as [-> | ->] by lia; done.
Qed.

Lemma pci_ok_put p d dev dev' : pci_ok p -> devs p !! d = Some dev -> same_frame dev dev' -> dev_ok dev' -> wired p d \/ idle dev' ->
  counted (put_dev p d dev') (contrib (put_dev p d dev')) -> pci_ok (put_dev p d dev').
Proof.
  intros [P1 P2 P3] Hd (E1 & E2 & _) Hok Hw Hc. assert (T : same_topology p (put_dev p d dev')) by (by eapply put_dev_topology). split; [| |done].
  - intros d' x [[-> ->]|[_ H]]%put_dev_lookup; [done|by eapply P1].
  - intros d' x [[-> ->]|[_ H]]%put_dev_lookup; [destruct Hw as [Hw|Hw]|destruct (P2 d' x H) as [Hw'|Hw']]; try (by right); left; by apply (wired_same p).
Qed.

(** The devices may change together with the buses. *)
Lemma routes_same p p' d dev' : same_topology p p' -> (forall d' x, devs p !! d' = Some x -> wired p d' \/ idle x) -> (forall d', d' <> d -> devs p' !! d' = devs p !! d') ->
  devs p' !! d = Some dev' -> wired p d \/ idle dev' -> forall d' x, devs p' !! d' = Some x -> wired p' d' \/ idle x.
Proof.
  intros T H Ho Hd Hw d' x Hx. destruct (decide (d' = d)) as [->|Hne].
  - assert (x = dev') as -> by congruence. destruct Hw; [left; by apply (wired_same p)|by right].
  - rewrite Ho in Hx by done. destruct (H d' x Hx); [left; by apply (wired_same p)|by right].
Qed.

Lemma pci_irq_handler_ok p d pin level : pci_ok p -> (d < length (devs p))%nat -> wired p d \/ level = 0 -> 0 <= pin < 4 -> 0 <= level <= 1 ->
  exists p', pci_irq_handler p d pin level = Ok p' /\ pci_ok p' /\ changed d p p' (pin_changed pin level).
Proof.
  intros Hok Hd Hw Hp Hl. destruct (lookup_lt_is_Some_2 _ _ Hd) as [dev Hdev]. pose proof (po_devs _ Hok _ _ Hdev) as Hdok. unfold pci_irq_handler, dev_at. rewrite Hdev. cbn [got mbind outcome_bind].
  destruct (Z.eqb_spec (level - pci_irq_state dev pin) 0) as [E|Hch].
  { exists p. split; [done|]. split; [done|]. split; [done|done|]. exists dev, dev. split_and!; [done|done|split; [done|split; [done|]]]. intros j Hj. rewrite pci_irq_state_bit in E by lia.
    destruct (Z.eqb_spec j pin) as [->|]; [|done]. destruct (Z.testbit (irq_state dev) pin); cbn in E; destruct (Z.eqb_spec level 0); lia || done. }
  assert (Hwd : wired p d).
  { destruct Hw as [Hw| ->]; [done|]. destruct (po_routes _ Hok _ _ Hdev) as [|[Hz _]]; [done|]. destruct Hch. unfold pci_irq_state. by rewrite Hz, Z.shiftr_0_l. }
  fold (set_pin dev pin level). set (dev' := set_pin dev pin level). pose proof (set_pin_changed dev pin level Hdok Hp Hl) as Hpc.
  assert (T : same_topology p (put_dev p d dev')) by (by eapply put_dev_topology).
  assert (Hdis : pci_irq_disabled dev' = pci_irq_disabled dev) by (apply pci_irq_disabled_ext; apply Hpc; unfold PCI_STATUS; lia). rewrite Hdis.
  assert (Hch' : changed d p (put_dev p d dev') (pin_changed pin level)).
  { split; [done|intros d' Hne; cbn; by rewrite list_lookup_insert_ne|]. exists dev, dev'. split_and!; try done. cbn. by rewrite list_lookup_insert_eq. }
  assert (F : forall d' pin', (d' < length (devs p))%nat -> pin' ∈ pins -> contrib (put_dev p d dev') d' pin' =
    if pci_irq_disabled dev =? 0 then bump (contrib p) d pin (level - pci_irq_state dev pin) d' pin' else contrib p d' pin').
  { intros d' pin' _ Hp'%pins_elem. rewrite (contrib_put _ _ dev) by done. unfold bump. destruct (Nat.eqb_spec d' d) as [->|]; cbn [andb]; [|by destruct (_ =? 0)].
    unfold dev'. rewrite asserting_set_pin by done. unfold contrib. rewrite Hdev. unfold asserting. destruct (pci_irq_disabled dev =? 0); [|done]. destruct (pin' =? pin); lia. }
  destruct (pci_irq_disabled dev =? 0) eqn:Edis; cbn [negb].
  - destruct (pci_change_irq_level_ok (put_dev p d dev') (contrib p) d pin (level - pci_irq_state dev pin)) as (p' & E & Ed & T' & Hc).
    { by apply (wired_same p). }
    { eapply counted_same; [exact T|done|done|apply Hok]. }
    { cbn. by rewrite length_insert. }
    { by apply pins_elem. }
    exists p'. split; [done|]. pose proof (same_topology_trans _ _ _ T T') as TT. split; [split|split; [done| |]].
    + rewrite Ed. intros d' x [[-> ->]|[_ H]]%put_dev_lookup; [by apply set_pin_ok|by eapply Hok].
    + eapply (routes_same p p' d dev'); [done|apply Hok|rewrite Ed; apply Hch'|rewrite Ed; cbn; by rewrite list_lookup_insert_eq|by left].
    + eapply counted_same; [apply same_topology_refl|done| |exact Hc]. intros d' pin' Hd' Hp'. rewrite (st_devs _ _ TT) in Hd'. rewrite <- F by done. unfold contrib. by rewrite Ed.
    + rewrite Ed. apply Hch'.
    + rewrite Ed. apply Hch'.
  - eexists. split; [done|]. split; [|done]. eapply pci_ok_put; [done|done|by apply Hpc|by apply set_pin_ok|by left|]. eapply counted_same; [exact T|done| |apply Hok]. done.
Qed.

(** *** Configuration writes *)
Definition bumps (f : nat -> Z -> Z) (d : nat) (delta : Z -> Z) (l : list Z) : nat -> Z -> Z := fold_left (fun f i => bump f d i (delta i)) l f.

Definition pin_delta (dev : PCIDevice) (disabled i : Z) : Z := if negb (disabled =? 0) then - pci_irq_state dev i else pci_irq_state dev i.

Lemma update_pins_ok d dev disabled l : forall p f, (forall i, i ∈ l -> i ∈ pins) -> wired p d -> counted p f -> devs p !! d = Some dev ->
  exists p', ofold (update_pin d disabled) p l = Ok p' /\ devs p' = devs p /\ same_topology p p' /\ counted p' (bumps f d (pin_delta dev disabled) l).
Proof.
  induction l as [|i l IH]; intros p f Hl Hr Hc Hd; cbn [ofold]; [by exists p|].
  assert (E : update_pin d disabled p i = pci_change_irq_level p d i (pin_delta dev disabled i)) by (unfold update_pin, dev_at; by rewrite Hd). rewrite E.
  destruct (pci_change_irq_level_ok p f d i (pin_delta dev disabled i)) as (p1 & -> & E1 & T1 & C1); [done|done|by eapply lookup_lt_Some|apply Hl; left|]. cbn [mbind outcome_bind].
  destruct (IH p1 (bump f d i (pin_delta dev disabled i))) as (p2 & E2 & D2 & T2 & C2); [intros j Hj; apply Hl; by right|by eapply wired_same|done|by rewrite E1|].
  exists p2. split; [done|]. split; [congruence|]. split; [by eapply same_topology_trans|done].
Qed.

Lemma pci_irq_disabled_cases d : pci_irq_disabled d = 0 \/ pci_irq_disabled d = 0x400.
Proof.
  unfold pci_irq_disabled, PCI_COMMAND_INTX_DISABLE. set (w := pci_get_word _ _). destruct (Z.testbit w 10) eqn:E; [right|left]; apply Z.bits_inj'; intros j Hj;
    rewrite Z.land_spec; change 0x400 with (2 ^ 10); rewrite Z.pow2_bits_eqb by lia; destruct (Z.eqb_spec 10 j) as [<-|]; rewrite ?E, ?andb_false_r, ?Z.bits_0; done.
Qed.

Lemma bumps_pins f d delta d' pin : pin ∈ pins -> bumps f d delta pins d' pin = if (d' =? d)%nat then f d pin + delta pin else f d' pin.
Proof.
  intros Hp%pins_elem. unfold bumps, pins. cbn [fold_left]. unfold bump. rewrite !Nat.eqb_refl. cbn [andb].
  destruct (Nat.eqb_spec d' d) as [->|]; cbn [andb]; [|done].
  assert (pin = 0 \/ pin = 1 \/ pin = 2 \/ pin = 3) as [-> | [-> | [-> | ->]]] by lia; cbn; lia.
Qed.

(** The counts follow the interrupt disable bit. *)
Lemma pci_update_irq_disabled_ok p d dev f was : (pci_irq_disabled dev <> was -> wired p d) -> counted p f -> devs p !! d = Some dev -> (was = 0 \/ was = 0x400) ->
  (forall d' pin, pin ∈ pins -> f d' pin = if (d' =? d)%nat then (if was =? 0 then pci_irq_state dev pin else 0) else contrib p d' pin) ->
  exists p', pci_update_irq_disabled p d was = Ok p' /\ devs p' = devs p /\ same_topology p p' /\ counted p' (contrib p').
Proof.
  intros Hr Hc Hd Hw Hf. unfold pci_update_irq_disabled, dev_at. rewrite Hd. cbn [got mbind outcome_bind]. destruct (Z.eqb_spec (pci_irq_disabled dev) was) as [E|Hne].
  - exists p. split; [done|]. split; [done|]. split; [done|]. eapply counted_same; [apply same_topology_refl|done| |exact Hc]. intros d' pin Hd' Hp. rewrite Hf by done.
    destruct (Nat.eqb_spec d' d) as [->|]; [|done]. unfold contrib. rewrite Hd. unfold asserting. by rewrite E.
  - destruct (update_pins_ok d dev (pci_irq_disabled dev) pins p f) as (p' & E & Ed & T & C); [done|by apply Hr|done|done|].
    exists p'. split; [exact E|]. split; [done|]. split; [done|]. eapply counted_same; [apply same_topology_refl|done| |exact C]. intros d' pin Hd' Hp. rewrite bumps_pins by done.
    rewrite !Hf by done. rewrite Nat.eqb_refl. unfold contrib, pin_delta. rewrite Ed. destruct (Nat.eqb_spec d' d) as [->|]; [|done]. rewrite Hd. unfold asserting.
    destruct (pci_irq_disabled_cases dev) as [D|D]; rewrite D in *; destruct Hw as [-> | ->]; try done; cbn; lia.
Qed.

(** The writes after which the code looks at the mappings. *)
Definition remaps (addr l : Z) : bool := ranges_overlap addr l PCI_BASE_ADDRESS_0 24 || ranges_overlap addr l PCI_ROM_ADDRESS 4 ||
  ranges_overlap addr l PCI_ROM_ADDRESS1 4 || range_covers_byte addr l PCI_COMMAND.

Lemma remaps_false addr l a : remaps addr l = false -> addr <= a < addr + l -> bar_bytes a = true -> a = PCI_HEADER_TYPE.
Proof.
  unfold remaps, ranges_overlap, range_covers_byte, bar_bytes, PCI_COMMAND, PCI_HEADER_TYPE, PCI_BASE_ADDRESS_0, PCI_ROM_ADDRESS, PCI_ROM_ADDRESS1. lia.
Qed.

Lemma written_outside d addr n val a : ~ (addr <= a < addr + Z.of_nat n) -> written d addr n val a = byte_at (config d) a.
Proof. intros H. unfold written. destruct (Z.leb_spec addr a), (Z.ltb_spec a (addr + Z.of_nat n)); try done; lia. Qed.

Lemma mapped_of_sync d : maps_sync d -> forall r, r ∈ io_regions d -> region_mapped r.
Proof. intros Hm r (i & Hi)%list_elem_of_lookup. intros Hz. by destruct (Hm i r Hi Hz). Qed.

Lemma update_mappings_dev_ok d : dev_typed d -> status_sync d -> (forall r, r ∈ io_regions d -> region_mapped r) ->
  exists d', pci_update_mappings d = Ok d' /\ dev_ok d' /\ same_frame d d' /\ config d' = config d /\ irq_state d' = irq_state d /\ bus_master d' = bus_master d.
Proof.
  intros Ht Hs Hm. pose proof Ht as [T1 T2 T3 T4 T5]. destruct (pci_update_mappings_ok d T1 Hm) as (rs & E & Hsy & Hl & Hk). eexists. split; [exact E|].
  assert (Hmap : map (fun r => (r_size r, r_type r)) rs = map (fun r => (r_size r, r_type r)) (io_regions d)).
  { apply list_eq. intros i. rewrite !list_lookup_fmap. destruct (rs !! i) as [r'|] eqn:Ei.
    - destruct (Hk i r' Ei) as (r0 & -> & Hz & Hty & _). cbn. congruence.
    - apply lookup_ge_None in Ei. rewrite Hl in Ei. by rewrite (proj2 (lookup_ge_None _ _) Ei). }
  split; [|split; [|done]]; [|by unfold same_frame]. split_and!; [|done|done].
  split; [done|by destruct T2|cbn; congruence| |done]. intros i r Hi. destruct (Hk i r Hi) as (r0 & H0 & Hz & Hty & Ha). destruct (T4 i r0 H0) as [Hr Hra]. split; [|by apply Ha].
  unfold region_ok in *. by rewrite Hz, Hty.
Qed.

Lemma write_dev_ok dev addr val n c : dev_ok dev -> bytes_ok c -> (forall a, 0 <= a -> byte_at c a = written dev addr n val a) -> 0 <= addr ->
  exists dev', (if remaps addr (Z.of_nat n) then pci_update_mappings (put_config c dev) else Ok (put_config c dev)) = Ok dev' /\ dev_ok dev' /\ same_frame dev dev' /\
    config dev' = c /\ irq_state dev' = irq_state dev /\ bus_master dev' = bus_master dev.
Proof.
  intros (Ht & Hm & Hs) Hc Hb Ha. pose proof Ht as [T1 T2 T3 T4 T5].
  assert (Ht' : dev_typed (put_config c dev)) by (split; [done|by destruct T2|done|done|done]).
  assert (Hs' : status_sync (put_config c dev)).
  { unfold status_sync in *. cbn [config irq_state put_config]. rewrite Hb by (unfold PCI_STATUS; lia). destruct (mk_status _ T2). by rewrite written_ro. }
  destruct (remaps addr (Z.of_nat n)) eqn:Er.
  - destruct (update_mappings_dev_ok (put_config c dev) Ht' Hs') as (d' & E & H1 & H2 & H3 & H4 & H5); [by apply (mapped_of_sync dev)|]. exists d'. split_and!; done.
  - eexists. split; [done|]. split; [|done]. split_and!; [done| |done]. apply (maps_sync_same dev); try done. intros a Hbb. pose proof (bar_bytes_pos a Hbb) as [Hp _].
    cbn [config put_config]. rewrite Hb by lia. destruct (decide (addr <= a < addr + Z.of_nat n)) as [Hin|Hout]; [|by apply written_outside].
    pose proof (remaps_false _ _ _ Er Hin Hbb) as ->. destruct (mk_header _ T2). by apply written_ro.
Qed.

(** How a guest write changes a device. *)
Definition config_changed (addr val : Z) (n : nat) (dev dev' : PCIDevice) : Prop :=
  same_frame dev dev' /\ irq_state dev' = irq_state dev /\ forall a, 0 <= a -> byte_at (config dev') a = written dev addr n val a.

Lemma put_master_ok b d : dev_ok d -> dev_ok (put_master b d).
Proof. intros (Ht & Hm & Hs). split_and!; [|exact Hm|exact Hs]. destruct Ht as [T1 T2 T3 T4 T5]. split; try done. by destruct T2. Qed.

Lemma asserting_master b d pin : asserting (put_master b d) pin = asserting d pin.
Proof. done. Qed.

(** The bit that disables interrupts. *)
Lemma pci_irq_disabled_bit d : bytes_ok (config d) -> pci_irq_disabled d = 0 <-> Z.testbit (byte_at (config d) 5) 2 = false.
Proof.
  intros Hc. assert (E : Z.testbit (pci_irq_disabled d) 10 = Z.testbit (byte_at (config d) 5) 2).
  { pose proof (get_le_bit 2 (config d) Hc PCI_COMMAND 1 2 ltac:(lia) ltac:(lia)) as E. change (8 * 1 + 2) with 10 in E. unfold pci_irq_disabled, pci_get_word. rewrite Z.land_spec, E. apply andb_true_r. }
  rewrite <- E. destruct (pci_irq_disabled_cases d) as [-> | ->]; done.
Qed.

(** A write that does not disable interrupts. *)
Definition leaves_intx (addr val : Z) (n : nat) : Prop := addr <= 5 < addr + Z.of_nat n -> Z.testbit val (8 * (5 - addr) + 2) = false.

Lemma written_intx d addr n val : bytes_ok (config d) -> leaves_intx addr val n -> pci_irq_disabled d = 0 -> Z.testbit (written d addr n val 5) 2 = false.
Proof.
  intros Hc Hl Hz%pci_irq_disabled_bit; [|done]. unfold written. destruct (Z.leb_spec addr 5), (Z.ltb_spec 5 (addr + Z.of_nat n)); cbn [andb]; try done.
  rewrite u8_bit, write_byte_bit, Z.shiftr_spec, Z.add_comm, Hl, Hz by lia. by destruct (Z.testbit (byte_at (wmask d) 5) 2).
Qed.

Lemma pci_default_write_config_ok p d addr val n : pci_ok p -> (d < length (devs p))%nat -> wired p d \/ leaves_intx addr val n -> 0 <= addr -> addr <> 5 -> addr + Z.of_nat n <= 256 ->
  exists p', pci_default_write_config p d addr val n = Ok p' /\ pci_ok p' /\ changed d p p' (config_changed addr val n).
Proof.
  intros Hok Hd Hw Ha H5 Hn. destruct (lookup_lt_is_Some_2 _ _ Hd) as [dev Hdev]. pose proof (po_devs _ Hok _ _ Hdev) as Hdok. pose proof Hdok as (Ht & _ & _).
  unfold pci_default_write_config, dev_at. rewrite Hdev. cbn [got mbind outcome_bind]. destruct (write_bytes_ok n dev addr val) as (c & -> & Hc & Hb); [apply Ht|apply Ht|done|done|].
  cbn [mbind outcome_bind]. fold (remaps addr (Z.of_nat n)). destruct (write_dev_ok dev addr val n c Hdok Hc Hb Ha) as (dev1 & -> & Hok1 & Hfr & Hcf & Hirq & Hbm). cbn [mbind outcome_bind].
  assert (T : same_topology p (put_dev p d dev1)) by (destruct Hfr as (? & ? & _); by eapply put_dev_topology).
  assert (Hl1 : devs (put_dev p d dev1) !! d = Some dev1) by (cbn; by rewrite list_lookup_insert_eq).
  assert (Hroute : wired p d \/ idle dev1 /\ pci_irq_disabled dev = 0).
  { destruct (po_routes _ Hok _ _ Hdev) as [|[I1 I2]]; [by left|]. destruct Hw as [|Hw]; [by left|]. right. split; [|done]. split; [congruence|].
    apply pci_irq_disabled_bit; [apply Hok1|]. rewrite Hcf, Hb by lia. apply written_intx; [apply Ht|done|done]. }
  assert (Hroute1 : wired p d \/ idle dev1) by tauto.
  destruct (range_covers_byte addr (Z.of_nat n) PCI_COMMAND) eqn:Ecov.
  - destruct (pci_update_irq_disabled_ok (put_dev p d dev1) d dev1 (contrib p) (pci_irq_disabled dev)) as (p2 & -> & Ed2 & T2 & C2).
    { intros Hne. apply (wired_same p); [done|]. destruct Hroute as [|[[_ I2] I3]]; [done|congruence]. }
    { eapply counted_same; [exact T|done|done|apply Hok]. }
    { done. }
    { apply pci_irq_disabled_cases. }
    { intros d' pin Hp. rewrite (contrib_put p d dev dev1) by done. destruct (Nat.eqb_spec d' d) as [->|]; [|done]. unfold contrib. rewrite Hdev. unfold asserting, pci_irq_state. by rewrite Hirq. }
    cbn [mbind outcome_bind]. rewrite Ed2, Hl1. cbn [got mbind outcome_bind]. set (m := has_bit _ _). set (dev2 := put_master m dev1).
    assert (Hl2 : devs p2 !! d = Some dev1) by (by rewrite Ed2). assert (T3 : same_topology p2 (put_dev p2 d dev2)) by (by eapply put_dev_topology).
    eexists. split; [done|]. split; [|split].
    + split.
      * intros d' x [[-> ->]|[Hne H]]%put_dev_lookup; [by apply put_master_ok|]. rewrite Ed2 in H. apply put_dev_lookup in H as [[-> ->]|[_ H]]; [done|by eapply Hok].
      * eapply (routes_same p _ d dev2); [eapply same_topology_trans; [exact T|eapply same_topology_trans; [exact T2|exact T3]]|apply Hok| | |done].
        { intros d' Hne. cbn [devs put_dev]. rewrite list_lookup_insert_ne by done. rewrite Ed2. cbn. by rewrite list_lookup_insert_ne. }
        { cbn. rewrite list_lookup_insert_eq by (rewrite Ed2; cbn; by rewrite length_insert). done. }
      * eapply counted_same; [exact T3|done| |exact C2]. intros d' pin _ _. rewrite (contrib_put p2 d dev1) by done. destruct (Nat.eqb_spec d' d) as [->|]; [|done]. unfold contrib. by rewrite Hl2.
    + eapply same_topology_trans; [exact T|eapply same_topology_trans; [exact T2|exact T3]].
    + intros d' Hne. cbn [devs put_dev]. rewrite list_lookup_insert_ne by done. rewrite Ed2. cbn. by rewrite list_lookup_insert_ne.
    + exists dev, dev2. split; [done|]. split; [cbn; rewrite list_lookup_insert_eq by (rewrite Ed2; cbn; by rewrite length_insert); done|].
      split; [done|]. split; [done|]. intros a Ha'. cbn [config dev2 put_master]. rewrite Hcf. by apply Hb.
  - eexists. split; [done|].
    assert (Hcc : config_changed addr val n dev dev1) by (split; [done|split; [done|]]; intros a Ha'; rewrite Hcf; by apply Hb).
    split; [|split; [done|intros d' Hne; cbn; by rewrite list_lookup_insert_ne|by exists dev, dev1]].
    assert (Edis : pci_irq_disabled dev1 = pci_irq_disabled dev).
    { unfold range_covers_byte, PCI_COMMAND in Ecov. apply pci_irq_disabled_ext; rewrite Hcf, Hb by lia; apply written_outside; lia. }
    eapply pci_ok_put; [done|done|done|done|done|]. eapply counted_same; [exact T|done| |apply Hok]. intros d' pin _ _. rewrite (contrib_put p d dev) by done.
    destruct (Nat.eqb_spec d' d) as [->|]; [|done]. unfold contrib. rewrite Hdev. unfold asserting, pci_irq_state. by rewrite Edis, Hirq.
Qed.

(** *** Reset *)
Lemma has_bit_interrupt v : has_bit v PCI_STATUS_INTERRUPT = Z.testbit v 3.
Proof.
  unfold has_bit, PCI_STATUS_INTERRUPT. destruct (Z.testbit v 3) eqn:E.
  - apply negb_true_iff, Z.eqb_neq. intros C. apply (f_equal (fun x => Z.testbit x 3)) in C. rewrite Z.land_spec, E in C. done.
  - apply negb_false_iff, Z.eqb_eq, Z.bits_inj'. intros j Hj. rewrite Z.land_spec. change 8 with (2 ^ 3). rewrite Z.pow2_bits_eqb by lia.
    destruct (Z.eqb_spec 3 j) as [<-|]; [by rewrite E|by rewrite andb_false_r, Z.bits_0].
Qed.

Lemma reset_bars_ok d rs : forall i c, bytes_ok c -> 0 <= i -> i + Z.of_nat (length rs) <= 7 -> (forall k r, rs !! k = Some r -> region_ok (i + Z.of_nat k) r) ->
  bytes_ok (reset_bars d i rs c) /\ forall a, 0 <= a < 0x10 -> byte_at (reset_bars d i rs c) a = byte_at c a.
Proof.
  induction rs as [|r rs IH]; intros i c Hc Hi Hl Hr; cbn [reset_bars]; [done|]. set (c' := if r_size r =? 0 then c else _).
  assert (Hc' : bytes_ok c' /\ forall a, 0 <= a < 0x10 -> byte_at c' a = byte_at c a).
  { subst c'. destruct (Z.eqb_spec (r_size r) 0) as [|Hz]; [done|]. cbn in Hl. destruct (pci_bar_range d i ltac:(lia)) as [B1 B2]. specialize (Hr 0%nat r eq_refl). rewrite Z.add_0_r in Hr.
    destruct (Hr Hz) as (_ & _ & _ & H64). assert (Hpos : 0x10 <= pci_bar d i /\ pci_bar d i + 4 <= 256) by (destruct (Z.eq_dec i 6) as [e|]; [destruct (B2 e)|rewrite B1 by lia]; lia).
    destruct (has_bit (r_type r) PCI_BASE_ADDRESS_SPACE_IO) eqn:E1, (has_bit (r_type r) PCI_BASE_ADDRESS_MEM_TYPE_64) eqn:E2; cbn [negb andb];
      (split; [by apply bytes_ok_set_le|]; intros a Ha); unfold pci_set_long, pci_set_quad;
      (rewrite byte_at_set_le; [destruct (Z.leb_spec (pci_bar d i) a); [lia|done]|done|lia| |lia]); try (cbn; lia).
  }
  destruct Hc' as [Hc' Hb]. destruct (IH (i + 1) c') as [H1 H2]; [done|lia|cbn in Hl; lia| |].
  - intros k r0 H0. replace (i + 1 + Z.of_nat k) with (i + Z.of_nat (S k)) by lia. by apply Hr.
  - split; [done|]. intros a Ha. rewrite H2 by done. by apply Hb.
Qed.

Lemma clear_mask_bit c a mask k j : bytes_ok c -> 0 <= a -> a + 2 <= 256 -> 0 <= k < 2 -> 0 <= j < 8 ->
  Z.testbit (byte_at (pci_word_test_and_clear_mask c a mask) (a + k)) j = Z.testbit (byte_at c (a + k)) j && negb (Z.testbit mask (8 * k + j)).
Proof.
  intros Hc Ha Ha2 Hk Hj. unfold pci_word_test_and_clear_mask, pci_set_word. rewrite byte_at_set_le by (done || lia).
  destruct (Z.leb_spec a (a + k)), (Z.ltb_spec (a + k) (a + Z.of_nat 2)); try lia. cbn [andb]. replace (a + k - a) with k by lia. rewrite u8_bit, Z.shiftr_spec by lia.
  rewrite (Z.add_comm j), Z.land_spec, Z.lnot_spec by lia. f_equal. by apply (get_le_bit 2 c Hc a k j).
Qed.

Lemma clear_mask_other c a mask b : bytes_ok c -> 0 <= a -> a + 2 <= 256 -> 0 <= b -> ~ (a <= b < a + 2) -> byte_at (pci_word_test_and_clear_mask c a mask) b = byte_at c b.
Proof.
  intros Hc Ha Ha2 Hb Hn. unfold pci_word_test_and_clear_mask, pci_set_word. rewrite byte_at_set_le by (done || lia).
  destruct (Z.leb_spec a b), (Z.ltb_spec b (a + Z.of_nat 2)); cbn [andb]; try done; lia.
Qed.

Lemma reset_config_ok d : dev_typed d -> bytes_ok (reset_config d) /\ Z.testbit (byte_at (reset_config d) PCI_STATUS) 3 = Z.testbit (byte_at (config d) PCI_STATUS) 3 /\
  (Z.testbit (byte_at (config d) 5) 2 = false -> Z.testbit (byte_at (reset_config d) 5) 2 = false).
Proof.
  intros Ht. pose proof Ht as [T1 T2 T3 T4 T5]. unfold reset_config. set (m1 := Z.lor (pci_get_word (wmask d) PCI_COMMAND) _). set (m2 := Z.lor (pci_get_word (wmask d) PCI_STATUS) _).
  set (c1 := pci_word_test_and_clear_mask (config d) PCI_COMMAND m1). set (c2 := pci_word_test_and_clear_mask c1 PCI_STATUS m2).
  assert (H1 : bytes_ok c1) by (by apply bytes_ok_set_le). assert (H2 : bytes_ok c2) by (by apply bytes_ok_set_le).
  set (c4 := set_byte (set_byte c2 PCI_CACHE_LINE_SIZE 0) PCI_INTERRUPT_LINE 0). assert (H4 : bytes_ok c4) by (by apply bytes_ok_set, bytes_ok_set).
  destruct (reset_bars_ok d (io_regions d) 0 c4) as [H5 H6]; [done|lia|rewrite T3; lia|intros k r Hk; by apply T4|]. split; [done|].
  assert (H7 : forall a, 0 <= a < 8 -> byte_at (reset_bars d 0 (io_regions d) c4) a = byte_at c2 a).
  { intros a Ha. rewrite H6 by lia. subst c4. rewrite !byte_at_set by (rewrite ?set_byte_length, ?(proj1 H2); unfold PCI_CACHE_LINE_SIZE, PCI_INTERRUPT_LINE; lia).
    unfold PCI_CACHE_LINE_SIZE, PCI_INTERRUPT_LINE. by rewrite !(proj2 (Z.eqb_neq a _)) by lia. }
  rewrite !H7 by (unfold PCI_STATUS; lia). subst c2. split.
  - pose proof (clear_mask_bit c1 PCI_STATUS m2 0 3 H1 ltac:(done) ltac:(done) ltac:(lia) ltac:(lia)) as E. rewrite Z.add_0_r in E. rewrite E. clear E.
    subst c1. rewrite clear_mask_other by (done || (unfold PCI_STATUS, PCI_COMMAND; lia)). assert (E : Z.testbit m2 (8 * 0 + 3) = false); [|by rewrite E, andb_true_r].
    subst m2. destruct (mk_status _ T2) as [S1 S2]. unfold pci_get_word. rewrite Z.lor_spec, !get_le_bit by (apply T2 || lia). by rewrite Z.add_0_r, S1, S2.
  - intros Hz. rewrite clear_mask_other by (done || (unfold PCI_STATUS, PCI_COMMAND; lia)). subst c1.
    pose proof (clear_mask_bit (config d) PCI_COMMAND m1 1 2 T1 ltac:(done) ltac:(done) ltac:(lia) ltac:(lia)) as E. change (PCI_COMMAND + 1) with 5 in E. by rewrite E, Hz.
Qed.

Definition pins_cleared (l : list Z) (dev dev' : PCIDevice) : Prop :=
  same_frame dev dev' /\ forall j, 0 <= j < 4 -> Z.testbit (irq_state dev') j = if bool_decide (j ∈ l) then false else Z.testbit (irq_state dev) j.

Lemma deassert_ok d l : forall p, (forall i, i ∈ l -> 0 <= i < 4) -> pci_ok p -> (d < length (devs p))%nat ->
  exists p', ofold (fun p i => pci_irq_handler p d i 0) p l = Ok p' /\ pci_ok p' /\ changed d p p' (pins_cleared l).
Proof.
  induction l as [|i l IH]; intros p Hl Hok Hd; cbn [ofold].
  - exists p. split; [done|]. split; [done|]. destruct (lookup_lt_is_Some_2 _ _ Hd) as [dev Hdev]. split; [done|done|]. exists dev, dev. split_and!; [done|done|split; [done|]].
    intros j _. by rewrite bool_decide_false by set_solver.
  - destruct (pci_irq_handler_ok p d i 0) as (p1 & -> & Hok1 & [T1 O1 (dev & dev1 & E & E1 & F1 & _ & B1)]); [done|done|by right|apply Hl; left|lia|]. cbn [mbind outcome_bind].
    destruct (IH p1) as (p2 & E2 & Hok2 & [T2 O2 (dev1' & dev2 & E1' & E2' & F2 & B2)]); [intros j Hj; apply Hl; by right|done|by rewrite (st_devs _ _ T1)|].
    assert (dev1' = dev1) as -> by congruence. exists p2. split; [done|]. split; [done|]. split; [by eapply same_topology_trans|intros d' Hne; rewrite O2 by done; by apply O1|].
    exists dev, dev2. split_and!; [done|done|]. split; [unfold same_frame in *; intuition congruence|]. intros j Hj. rewrite B2, B1 by done.
    destruct (Z.eqb_spec j i) as [->|Hji]; [rewrite (bool_decide_true (i ∈ i :: l)) by left; by case_bool_decide|].
    rewrite (bool_decide_ext (j ∈ i :: l) (j ∈ l)) by set_solver. done.
Qed.

Lemma irq_state_zero d : 0 <= irq_state d < 16 -> (forall j, 0 <= j < 4 -> Z.testbit (irq_state d) j = false) -> irq_state d = 0.
Proof.
  intros Hr Hb. apply Z.bits_inj'. intros j Hj. rewrite Z.bits_0. destruct (Z.lt_ge_cases j 4); [by apply Hb|]. apply (testbit_high _ 4); lia.
Qed.

Lemma asserting_zero d pin : irq_state d = 0 -> asserting d pin = 0.
Proof. intros H. unfold asserting, pci_irq_state. rewrite H, Z.shiftr_0_l, Z.land_0_l. by destruct (_ =? 0). Qed.

Lemma pci_do_device_reset_ok p d : pci_ok p -> (d < length (devs p))%nat ->
  exists p', pci_do_device_reset p d = Ok p' /\ pci_ok p' /\ changed d p p' (fun _ dev' => irq_state dev' = 0).
Proof.
  intros Hok Hd. unfold pci_do_device_reset, pci_device_deassert_intx.
  destruct (deassert_ok d pins p) as (p1 & -> & Hok1 & [T1 O1 (dev & dev1 & E & E1 & F1 & B1)]); [intros i Hi; by apply pins_elem|done|done|]. cbn [mbind outcome_bind].
  unfold dev_at. rewrite E1. cbn [got mbind outcome_bind]. destruct (po_devs _ Hok1 _ _ E1) as (Ht & Hm & Hs).
  assert (Hz : irq_state dev1 = 0).
  { apply irq_state_zero; [apply Ht|]. intros j Hj. rewrite B1 by done. by rewrite bool_decide_true by (by apply pins_elem). }
  rewrite Hz. cbn [Z.eqb c_assert mbind outcome_bind]. destruct (reset_config_ok dev1 Ht) as (Hc & Hst & Hi). pose proof Ht as [D1 D2 D3 D4 D5].
  destruct (update_mappings_dev_ok (put_config (reset_config dev1) dev1)) as (dev2 & -> & Hok2 & F2 & C2 & I2 & _).
  { split; [done|by destruct D2|done|done|done]. }
  { unfold status_sync in *. cbn [config irq_state put_config]. rewrite has_bit_interrupt in *. congruence. }
  { by apply (mapped_of_sync dev1). }
  cbn [mbind outcome_bind]. assert (I2' : irq_state dev2 = 0) by (by rewrite I2). assert (T2 : same_topology p1 (put_dev p1 d dev2)) by (destruct F2 as (? & ? & _); by eapply put_dev_topology).
  eexists. split; [done|]. split; [|split].
  - eapply pci_ok_put; [done|done|done|done| |].
    { destruct (po_routes _ Hok1 _ _ E1) as [|[_ I]]; [by left|right]. split; [done|]. apply pci_irq_disabled_bit; [apply Hok2|]. rewrite C2. apply Hi. by apply pci_irq_disabled_bit. }
    eapply counted_same; [exact T2|done| |apply Hok1]. intros d' pin _ _. rewrite (contrib_put p1 d dev1) by done.
    destruct (Nat.eqb_spec d' d) as [->|]; [|done]. unfold contrib. rewrite E1. by rewrite !asserting_zero.
  - by eapply same_topology_trans.
  - intros d' Hne. cbn. rewrite list_lookup_insert_ne by done. by apply O1.
  - exists dev, dev2. split_and!; [done| |done]. cbn. rewrite list_lookup_insert_eq; [done|]. by eapply lookup_lt_Some.
Qed.

(** What a reset clears, and that nothing else raises a pin. *)
Definition cleared (l : list nat) (p p' : PCI) : Prop := forall d dev, devs p' !! d = Some dev ->
  d ∈ l \/ (exists dev0, devs p !! d = Some dev0 /\ irq_state dev0 = 0) -> irq_state dev = 0.

(** A step that clears the pins of the devices [l] and changes none but [t]. *)
Definition quiet (l t : list nat) (p : PCI) (o : outcome PCI) : Prop :=
  exists p', o = Ok p' /\ pci_ok p' /\ same_topology p p' /\ cleared l p p' /\ forall d, d ∉ t -> devs p' !! d = devs p !! d.

Lemma same_topology_dev p p' d dev' : same_topology p p' -> devs p' !! d = Some dev' -> exists dev, devs p !! d = Some dev.
Proof. intros T H. apply lookup_lt_is_Some_2. rewrite <- (st_devs _ _ T). by eapply lookup_lt_Some. Qed.

Lemma quiet_bind l1 l2 t1 t2 p o k : quiet l1 t1 p o -> (forall p1, pci_ok p1 -> same_topology p p1 -> cleared l1 p p1 -> quiet l2 t2 p1 (k p1)) ->
  quiet (l1 ++ l2) (t1 ++ t2) p (p1 ← o; k p1).
Proof.
  intros (p1 & -> & Hok & T & Hc & Hf) Hk. destruct (Hk p1 Hok T Hc) as (p2 & E & Hok2 & T2 & Hc2 & Hf2). exists p2. split_and!; [done|done|by eapply same_topology_trans| |].
  - intros d dev Hd Hor. apply (Hc2 d dev Hd). destruct (same_topology_dev p1 p2 d dev T2 Hd) as [dev1 H1]. rewrite elem_of_app in Hor.
    destruct Hor as [[Ho|Ho]|Ho]; [right|by left|right]; exists dev1; (split; [done|]); apply (Hc d dev1 H1); tauto.
  - intros d Hd. rewrite Hf2, Hf by set_solver. done.
Qed.

Lemma quiet_ok p : pci_ok p -> quiet [] [] p (Ok p).
Proof. intros Hok. exists p. split_and!; [done|done|apply same_topology_refl| |done]. intros d dev H [?%elem_of_nil|(dev0 & H0 & Hz)]; [done|congruence]. Qed.

Lemma quiet_fold {A} (f : PCI -> A -> outcome PCI) (h t : A -> list nat) l : forall p, pci_ok p ->
  (forall p1 x, x ∈ l -> pci_ok p1 -> same_topology p p1 -> quiet (h x) (t x) p1 (f p1 x)) -> quiet (flat_map h l) (flat_map t l) p (ofold f p l).
Proof.
  induction l as [|x l IH]; intros p Hok Hf; cbn [ofold flat_map]; [by apply quiet_ok|]. apply quiet_bind; [apply Hf; [left|done|apply same_topology_refl]|].
  intros p1 Hok1 T1 _. apply IH; [done|]. intros p2 y Hy Hok2 T2. apply Hf; [by right|done|by eapply same_topology_trans].
Qed.

(** What the reset functions of the devices promise. *)
Class QuietReset (device_reset : PCI -> nat -> outcome PCI) : Prop :=
  quiet_reset : forall p d, pci_ok p -> (d < length (devs p))%nat -> quiet [] [d] p (device_reset p d).

#[global] Instance quiet_reset_none : QuietReset (fun p _ => Ok p).
Proof. intros p d Hok _. destruct (quiet_ok p Hok) as (p' & E & H1 & H2 & H3 & H4). exists p'. split_and!; try done. intros d' _. by apply H4, not_elem_of_nil. Qed.

Lemma total_zero p b i : (forall d dev pin, devs p !! d = Some dev -> routes_to p b i (d, pin) = true -> irq_state dev = 0) -> total p (contrib p) b i = 0.
Proof.
  intros Hz. unfold total. induction (pin_pairs p) as [|[d pin] l IH]; cbn [map]; [done|]. unfold Zsum in *. cbn [foldr]. rewrite IH. cbn [fst snd].
  destruct (routes_to p b i (d, pin)) eqn:Er; [|done]. unfold contrib. destruct (devs p !! d) as [dev|] eqn:E; [|done]. by rewrite asserting_zero by (by eapply Hz).
Qed.

Lemma bus_devices_lt p b d : d ∈ bus_devices p b -> (d < length (devs p))%nat.
Proof. intros (fn & _ & H)%list_elem_of_In%in_flat_map. apply filter_In in H as [H%in_seq _]. lia. Qed.

Lemma flat_map_single {A} (l : list A) : l = flat_map (fun x => [x]) l.
Proof. induction l as [|x l IH]; [done|]. cbn. by rewrite <- IH. Qed.

Lemma pcibus_reset_ok p b bus : pci_ok p -> buses p !! b = Some bus -> (set_irq bus = false -> irq_count bus = []) ->
  (set_irq bus = true -> forall d dev, devs p !! d = Some dev -> d ∈ bus_devices p b \/ irq_state dev = 0) -> quiet (bus_devices p b) (bus_devices p b) p (pcibus_reset p b).
Proof.
  intros Hok Hb Hn Hall. unfold pcibus_reset. rewrite <- (app_nil_r (bus_devices p b)) at 1 2. apply quiet_bind.
  { rewrite (flat_map_single (bus_devices p b)) at 1 2. apply (quiet_fold pci_do_device_reset (fun d => [d]) (fun d => [d])); [done|]. intros p1 d Hd%bus_devices_lt Hok1 T1.
    destruct (pci_do_device_reset_ok p1 d Hok1) as (p2 & E & Hok2 & [T2 O2 (dev & dev' & E1 & E2 & Hz)]); [by rewrite (st_devs _ _ T1)|]. exists p2. split_and!; try done; [|intros d' Hne; apply O2; set_solver].
    intros d' x Hx Hor. destruct (decide (d' = d)) as [->|Hne]; [congruence|]. rewrite O2 in Hx by done. destruct Hor as [->%list_elem_of_singleton|(x0 & H0 & Hz0)]; congruence. }
  intros p1 Hok1 T1 Hcl. pose proof (st_bus _ _ T1 b) as X. rewrite Hb in X. unfold bus_at. destruct (buses p1 !! b) as [bus1|] eqn:Eb; cbn in X; [|done]. injection X as _ _ Hs1 Hl.
  cbn [got mbind outcome_bind]. assert (F : forallb (Z.eqb 0) (irq_count bus1) = true); [|rewrite F; by apply quiet_ok].
  destruct (set_irq bus) eqn:Es; [|rewrite Hn in Hl by done; by destruct (irq_count bus1)].
  apply forallb_forall. intros c (i & Hi)%list_elem_of_In%list_elem_of_lookup. pose proof (lookup_lt_Some _ _ _ Hi) as Hlt.
  destruct (po_counted _ Hok1 b bus1 Eb Hs1 (Z.of_nat i) ltac:(lia)) as [Hc _]. rewrite Nat2Z.id, Hi in Hc. injection Hc as ->. rewrite total_zero; [done|].
  intros d dev pin Hd _. apply (Hcl d dev Hd). destruct (same_topology_dev p p1 d dev T1 Hd) as [dev0 H0]. destruct (Hall eq_refl d dev0 H0); [by left|right; by exists dev0].
Qed.

(** The devices that a reset of a bus reaches. *)
Fixpoint reset_order (fuel : nat) (p : PCI) (b : nat) : list nat :=
  match fuel with
  | O => []
  | S fuel => flat_map (fun d => flat_map (reset_order fuel p) (sec_buses p d) ++ []) (bus_kids p b) ++ bus_devices p b
  end.

(** The devices that it may change. *)
Fixpoint reset_touch (fuel : nat) (p : PCI) (b : nat) : list nat :=
  match fuel with
  | O => []
  | S fuel => flat_map (fun d => flat_map (reset_touch fuel p) (sec_buses p d) ++ [d]) (bus_kids p b) ++ bus_devices p b
  end.

(** A tree of buses whose root has the only interrupt controller. *)
Record tree_ok (p : PCI) : Prop := {
  tr_root : (0 < length (buses p))%nat;
  tr_controller : forall c bus, buses p !! c = Some bus -> c <> 0%nat -> set_irq bus = false /\ irq_count bus = [];
  tr_count : forall bus, buses p !! 0%nat = Some bus -> set_irq bus = true;
  tr_parent : forall c bus d dev, buses p !! c = Some bus -> parent_dev bus = Some d -> devs p !! d = Some dev -> (pd_bus dev < c)%nat;
  tr_all : forall d, (d < length (devs p))%nat -> d ∈ reset_order (length (buses p)) p 0
}.

Section SameTopology.
Context (p p' : PCI) (T : same_topology p p').

Lemma dev_place_same d : (match devs p' !! d with Some x => Some (pd_bus x, devfn x) | None => None end) = match devs p !! d with Some x => Some (pd_bus x, devfn x) | None => None end.
Proof. pose proof (st_dev _ _ T d) as X. by destruct (devs p' !! d), (devs p !! d). Qed.

Lemma bus_devices_same b : bus_devices p' b = bus_devices p b.
Proof.
  unfold bus_devices. rewrite (st_devs _ _ T). apply flat_map_ext. intros fn. apply List.filter_ext. intros d. pose proof (dev_place_same d) as X.
  destruct (devs p' !! d), (devs p !! d); try done. by injection X as -> ->.
Qed.

Lemma bus_kids_same b : bus_kids p' b = bus_kids p b.
Proof.
  unfold bus_kids. rewrite (st_devs _ _ T). apply List.filter_ext. intros d. pose proof (dev_place_same d) as X. destruct (devs p' !! d), (devs p !! d); try done. by injection X as -> _.
Qed.

Lemma sec_buses_same d : sec_buses p' d = sec_buses p d.
Proof.
  unfold sec_buses. rewrite (st_buses _ _ T). apply List.filter_ext. intros c. pose proof (st_bus _ _ T c) as X. destruct (buses p' !! c), (buses p !! c); cbn in X; try done.
  by injection X as -> _.
Qed.

Lemma reset_order_same fuel : forall b, reset_order fuel p' b = reset_order fuel p b.
Proof.
  induction fuel as [|fuel IH]; intros b; cbn [reset_order]; [done|]. rewrite bus_kids_same, bus_devices_same. f_equal. apply flat_map_ext. intros d. rewrite sec_buses_same. f_equal.
  apply flat_map_ext. exact IH.
Qed.

Lemma reset_touch_same fuel : forall b, reset_touch fuel p' b = reset_touch fuel p b.
Proof.
  induction fuel as [|fuel IH]; intros b; cbn [reset_touch]; [done|]. rewrite bus_kids_same, bus_devices_same. f_equal. apply flat_map_ext. intros d. rewrite sec_buses_same. f_equal.
  apply flat_map_ext. exact IH.
Qed.

Lemma tree_ok_same : tree_ok p -> tree_ok p'.
Proof.
  intros [R1 R2 R3 R4 R5]. split; rewrite ?(st_buses _ _ T); [done| | | |].
  - intros c bus Hc Hne. pose proof (st_bus _ _ T c) as X. rewrite Hc in X. destruct (buses p !! c) as [bus0|] eqn:E; cbn in X; [|done]. injection X as _ _ -> Hl.
    destruct (R2 c bus0 E Hne) as [-> Hn]. split; [done|]. rewrite Hn in Hl. by destruct (irq_count bus).
  - intros bus Hc. pose proof (st_bus _ _ T 0%nat) as X. rewrite Hc in X. destruct (buses p !! 0%nat) as [bus0|] eqn:E; cbn in X; [|done]. injection X as _ _ -> _. by apply R3.
  - intros c bus d dev Hc Hp Hd. pose proof (st_bus _ _ T c) as X. rewrite Hc in X. destruct (buses p !! c) as [bus0|] eqn:E; cbn in X; [|done]. injection X as E1 _ _ _.
    pose proof (dev_place_same d) as Y. rewrite Hd in Y. destruct (devs p !! d) as [dev0|] eqn:Ed; [|done]. injection Y as -> _. apply (R4 c bus0 d dev0); congruence.
  - intros d. rewrite (st_devs _ _ T), reset_order_same. apply R5.
Qed.
End SameTopology.

Lemma bus_kids_spec p b d : d ∈ bus_kids p b -> exists dev, devs p !! d = Some dev /\ pd_bus dev = b.
Proof.
  intros [_ H]%list_elem_of_In%filter_In. destruct (devs p !! d) as [dev|]; [|done]. exists dev. split; [done|]. by apply Nat.eqb_eq.
Qed.

Lemma sec_buses_spec p d c : c ∈ sec_buses p d -> exists bus, buses p !! c = Some bus /\ parent_dev bus = Some d.
Proof. intros [_ H]%list_elem_of_In%filter_In. destruct (buses p !! c) as [bus|]; [|done]. exists bus. split; [done|]. by apply bool_decide_eq_true in H. Qed.

Section BusReset.
Context (device_reset : PCI -> nat -> outcome PCI) `{!QuietReset device_reset}.

Lemma reset_kids_ok fuel : (forall p c, pci_ok p -> tree_ok p -> (0 < c < length (buses p))%nat -> (length (buses p) - c <= fuel)%nat -> quiet (reset_order fuel p c) (reset_touch fuel p c) p (qbus_reset_all device_reset fuel p c)) ->
  forall p b, pci_ok p -> tree_ok p -> (length (buses p) - b <= S fuel)%nat ->
  quiet (flat_map (fun d => flat_map (reset_order fuel p) (sec_buses p d) ++ []) (bus_kids p b)) (flat_map (fun d => flat_map (reset_touch fuel p) (sec_buses p d) ++ [d]) (bus_kids p b)) p
    (ofold (fun p d => p ← ofold (qbus_reset_all device_reset fuel) p (sec_buses p d); device_reset p d) p (bus_kids p b)).
Proof.
  intros IH p b Hok Ht Hf. apply quiet_fold; [done|]. intros p1 d Hd Hok1 T1. destruct (bus_kids_spec p b d Hd) as (dev & Hdev & <-).
  apply quiet_bind; [|intros p2 Hok2 T2 _; apply quiet_reset; [done|rewrite (st_devs _ _ T2), (st_devs _ _ T1); by eapply lookup_lt_Some]].
  rewrite (sec_buses_same p p1 T1). apply quiet_fold; [done|]. intros p2 c Hc Hok2 T2. destruct (sec_buses_spec p d c Hc) as (bus & Hbus & Hpar).
  pose proof (same_topology_trans _ _ _ T1 T2) as TT. rewrite <- (reset_order_same p p2 TT), <- (reset_touch_same p p2 TT). pose proof (tr_parent _ Ht c bus d dev Hbus Hpar Hdev). apply lookup_lt_Some in Hbus.
  apply IH; [done|by apply (tree_ok_same p)|rewrite (st_buses _ _ TT); lia|rewrite (st_buses _ _ TT); lia].
Qed.

Lemma qbus_reset_sub_ok fuel : forall p c, pci_ok p -> tree_ok p -> (0 < c < length (buses p))%nat -> (length (buses p) - c <= fuel)%nat ->
  quiet (reset_order fuel p c) (reset_touch fuel p c) p (qbus_reset_all device_reset fuel p c).
Proof.
  induction fuel as [|fuel IH]; intros p c Hok Ht Hc Hf; [lia|]. cbn [qbus_reset_all reset_order reset_touch]. apply quiet_bind; [by apply reset_kids_ok|].
  intros p1 Hok1 T1 _. rewrite <- (bus_devices_same p p1 T1). pose proof (tree_ok_same p p1 T1 Ht) as Ht1. destruct (lookup_lt_is_Some_2 (buses p1) c) as [bus Hb]; [rewrite (st_buses _ _ T1); lia|].
  destruct (tr_controller _ Ht1 c bus Hb ltac:(lia)) as [Hs Hn]. apply (pcibus_reset_ok p1 c bus); [done|done|done|congruence].
Qed.

(** A reset of the root bus. *)
Lemma qbus_reset_all_ok p : pci_ok p -> tree_ok p -> quiet (reset_order (length (buses p)) p 0) (reset_touch (length (buses p)) p 0) p (qbus_reset_all device_reset (length (buses p)) p 0).
Proof.
  intros Hok Ht. pose proof (tr_root _ Ht) as Hlen. pose proof (tr_all _ Ht) as Hall. destruct (length (buses p)) as [|fuel] eqn:El; [lia|]. cbn [qbus_reset_all reset_order reset_touch] in *.
  apply quiet_bind; [apply reset_kids_ok; [apply qbus_reset_sub_ok|done|done|lia]|]. intros p1 Hok1 T1 Hcl. rewrite <- (bus_devices_same p p1 T1).
  pose proof (tree_ok_same p p1 T1 Ht) as Ht1. destruct (lookup_lt_is_Some_2 (buses p1) 0) as [bus Hb]; [rewrite (st_buses _ _ T1); lia|].
  pose proof (tr_count _ Ht1 bus Hb) as Hs. apply (pcibus_reset_ok p1 0 bus); [done|done|congruence|]. intros _ d dev Hd.
  specialize (Hall d). rewrite <- (st_devs _ _ T1) in Hall. specialize (Hall (lookup_lt_Some _ _ _ Hd)). apply elem_of_app in Hall as [Hin|Hin]; [right|left; by rewrite (bus_devices_same p p1 T1)].
  apply (Hcl d dev Hd). by left.
Qed.
End BusReset.

(** ** Runs *)
Inductive PciEvent :=
| PciWrite (d : nat) (addr val : Z) (len : nat)
| PciIrq (d : nat) (pin level : Z)
| PciReset (d : nat)
| PciBusReset (b : nat).

(** A write to a bridge is a write, followed by a reset of its secondary bus if it
    sets the reset bit.  Accesses stay within configuration space.  Two kinds of
    writes are excluded because the code gets them wrong: those that start at the
    high byte of the command register ([byte_write_misses_intx]), and those that
    disable the interrupts of a device for which the board has no interrupt line
    ([host_bridge_intx_aborts]); such a device raises no pin either.  The buses that
    are reset form a tree. *)
Definition pci_event_ok (p : PCI) (e : PciEvent) : Prop :=
  match e with
  | PciWrite d addr val len => (d < length (devs p))%nat /\ (wired p d \/ leaves_intx addr val len) /\ 0 <= addr /\ addr <> 5 /\ addr + Z.of_nat len <= 256
  | PciIrq d pin level => (d < length (devs p))%nat /\ wired p d /\ 0 <= pin < 4 /\ 0 <= level <= 1
  | PciReset d => (d < length (devs p))%nat
  | PciBusReset b => tree_ok p /\ (b < length (buses p))%nat
  end.

Lemma pci_event_same p p' e : same_topology p p' -> pci_event_ok p e -> pci_event_ok p' e.
Proof.
  intros T. destruct e as [d addr val len|d pin level|d|b]; cbn; rewrite ?(st_devs _ _ T); try done.
  - intros (H1 & [H2|H2] & H3); split_and!; try (by apply H3 || done); [left; by apply (wired_same p)|by right].
  - intros (H1 & H2 & H3). split_and!; try (by apply H3 || done). by apply (wired_same p).
  - intros [H1 H2]. rewrite (st_buses _ _ T). split; [by apply (tree_ok_same p)|done].
Qed.

Section Runs.
Context (device_reset : PCI -> nat -> outcome PCI) `{!QuietReset device_reset}.

Definition pci_step (p : PCI) (e : PciEvent) : outcome PCI :=
  match e with
  | PciWrite d addr val len => pci_default_write_config p d addr val len
  | PciIrq d pin level => pci_irq_handler p d pin level
  | PciReset d => pci_do_device_reset p d
  | PciBusReset b => qbus_reset_all device_reset (length (buses p)) p b
  end.

Lemma pci_step_ok p e : pci_ok p -> pci_event_ok p e -> exists p', pci_step p e = Ok p' /\ pci_ok p' /\ same_topology p p'.
Proof.
  intros Hok He. destruct e as [d addr val len|d pin level|d|b]; cbn [pci_step pci_event_ok] in He |- *.
  - destruct (pci_default_write_config_ok p d addr val len) as (p' & E & Hok' & Hch); try tauto. exists p'. split_and!; [done|done|apply Hch].
  - destruct (pci_irq_handler_ok p d pin level) as (p' & E & Hok' & Hch); try tauto. exists p'. split_and!; [done|done|apply Hch].
  - destruct (pci_do_device_reset_ok p d Hok He) as (p' & E & Hok' & Hch). exists p'. split_and!; [done|done|apply Hch].
  - destruct He as [Ht Hb]. assert (Hq : exists l t, quiet l t p (qbus_reset_all device_reset (length (buses p)) p b)).
    { do 2 eexists. destruct b as [|b]; [by apply qbus_reset_all_ok|apply qbus_reset_sub_ok; done || lia]. }
    destruct Hq as (l & t & p' & E & Hok' & T & _). by exists p'.
Qed.

Lemma pci_steps_ok es : forall p, pci_ok p -> Forall (pci_event_ok p) es -> exists p', ofold pci_step p es = Ok p' /\ pci_ok p' /\ same_topology p p'.
Proof.
  induction es as [|e es IH]; intros p Hok Hes; cbn [ofold]; [by exists p|]. apply Forall_cons in Hes as [He Hes].
  destruct (pci_step_ok p e Hok He) as (p1 & -> & Hok1 & T1). cbn [mbind outcome_bind]. destruct (IH p1 Hok1) as (p2 & E2 & Hok2 & T2).
  { eapply Forall_impl; [exact Hes|]. intros x. by apply pci_event_same. }
  exists p2. split_and!; [done|done|by eapply same_topology_trans].
Qed.
End Runs.

(** ** New devices satisfy the invariant *)
Lemma masks_disjoint_check l l' : forallb (fun n => Z.land (byte_at l (Z.of_nat n)) (byte_at l' (Z.of_nat n)) =? 0) (seq 0 256) = true ->
  forall a, 0 <= a < 256 -> Z.land (byte_at l a) (byte_at l' a) = 0.
Proof. intros H a Ha. rewrite forallb_forall in H. specialize (H (Z.to_nat a)). rewrite Z2Nat.id in H by lia. apply Z.eqb_eq, H, in_seq. lia. Qed.

Lemma bytes_ok_zero : bytes_ok (replicate 256 0).
Proof. split; [apply length_replicate|]. apply Forall_replicate. lia. Qed.

Lemma bytes_ok_fill n : forall l a v, bytes_ok l -> bytes_ok (fill_bytes n l a v).
Proof. induction n as [|n IH]; intros l a v Hl; cbn; [done|]. by apply IH, bytes_ok_set. Qed.

Lemma byte_at_set_le_other n l a v b : bytes_ok l -> 0 <= a -> a + Z.of_nat n <= 256 -> 0 <= b -> ~ (a <= b < a + Z.of_nat n) -> byte_at (set_le n l a v) b = byte_at l b.
Proof.
  intros Hl Ha Hn Hb Hout. rewrite byte_at_set_le by done. destruct (Z.leb_spec a b), (Z.ltb_spec b (a + Z.of_nat n)); cbn [andb]; try done; lia.
Qed.

Create HintDb pci.
#[local] Hint Resolve bytes_ok_set bytes_ok_set_le bytes_ok_fill bytes_ok_zero : pci.

(** Before the guest runs, decoding is off and no mask of the header clears on
    write. *)
Record unconfigured (d : PCIDevice) : Prop := {
  uc_command : Z.land (byte_at (config d) PCI_COMMAND) 3 = 0;
  uc_w1cmask : forall a, 0x10 <= a < 0x40 -> byte_at (w1cmask d) a = 0
}.

Lemma byte_at_zeros n a : byte_at (replicate n 0) a = 0.
Proof. unfold byte_at. rewrite nth_lookup. destruct (replicate n 0 !! Z.to_nat a) eqn:E; [by apply lookup_replicate in E as [-> _]|done]. Qed.

(** Command and status are zero in a new device. *)
Definition clear_low (c : list Z) : Prop := bytes_ok c /\ forall a, 4 <= a < 8 -> byte_at c a = 0.

Lemma clear_low_zero : clear_low (replicate 256 0).
Proof. split; [apply bytes_ok_zero|]. intros a _. apply byte_at_zeros. Qed.

Lemma clear_low_byte c a v : 0 <= a < 256 -> (a < 4 \/ 8 <= a) -> clear_low c -> clear_low (set_byte c a v).
Proof.
  intros Ha Hout [Hb Hz]. split; [by apply bytes_ok_set|]. intros a' Ha'. rewrite byte_at_set by (rewrite ?(proj1 Hb); lia). rewrite (proj2 (Z.eqb_neq a' a)) by lia. by apply Hz.
Qed.

Lemma clear_low_word c a v : 0 <= a -> a + 2 <= 256 -> (a + 2 <= 4 \/ 8 <= a) -> clear_low c -> clear_low (pci_set_word c a v).
Proof. intros Ha Hn Hout Hc. unfold pci_set_word. cbn [set_le]. apply clear_low_byte; [lia|lia|]. apply clear_low_byte; [lia|lia|done]. Qed.

Ltac clear_low := repeat first [assumption | apply clear_low_zero | apply clear_low_byte; [done|(by left) || (by right)|] | apply clear_low_word; [done|done|(by left) || (by right)|]].

Lemma new_masks_ok (bridge serr : bool) (d : PCIDevice) : wmask d = pci_init_wmask (replicate 256 0) serr -> w1cmask d = pci_init_w1cmask (replicate 256 0) ->
  masks_ok (if bridge then pci_init_mask_bridge d else d).
Proof.
  intros Hw Hw1. assert (B1 : bytes_ok (wmask d)) by (rewrite Hw; unfold pci_init_wmask, pci_set_word; destruct serr; auto 10 with pci).
  assert (B2 : bytes_ok (w1cmask d)) by (rewrite Hw1; unfold pci_init_w1cmask, pci_set_word; auto with pci).
  split.
  - destruct bridge; [|done]. cbn [wmask pci_init_mask_bridge put_masks]. unfold pci_set_word. auto 20 with pci.
  - destruct bridge; [|done]. cbn [w1cmask pci_init_mask_bridge put_masks]. unfold pci_set_word. auto with pci.
  - apply masks_disjoint_check. destruct bridge; cbn [wmask w1cmask pci_init_mask_bridge put_masks]; rewrite Hw, Hw1; destruct serr; vm_compute; reflexivity.
  - destruct bridge; cbn [wmask w1cmask pci_init_mask_bridge put_masks]; rewrite Hw, Hw1; destruct serr; vm_compute; done.
  - destruct bridge; cbn [wmask w1cmask pci_init_mask_bridge put_masks]; rewrite Hw, Hw1; destruct serr; vm_compute; done.
Qed.

(** What holds of a device until the guest touches it. *)
Record fresh (d : PCIDevice) : Prop := {
  fr_ok : dev_ok d;
  fr_idle : idle d;
  fr_off : Z.land (byte_at (config d) PCI_COMMAND) 3 = 0
}.

Lemma fresh_new d : clear_low (config d) -> masks_ok d -> io_regions d = replicate 7 no_region -> irq_state d = 0 -> fresh d.
Proof.
  intros [Hc Hz] Hm Hr Hi. split.
  - split_and!.
    + split; rewrite ?Hr, ?Hi; try done. intros i r [-> _]%lookup_replicate. cbn. split; [|lia]. by intros [].
    + intros i r H. rewrite Hr in H. apply lookup_replicate in H as [-> _]. by intros [].
    + unfold status_sync. rewrite Hz, Hi by done. done.
  - split; [done|]. apply pci_irq_disabled_bit; [done|]. by rewrite Hz.
  - by rewrite Hz.
Qed.

Lemma new_device_ok b fn pc serr multi d : new_device b fn pc serr multi = Ok d ->
  fresh d /\ pd_bus d = b /\ devfn d = fn /\ multifunction d = multi /\ irq_state d = 0 /\ clear_low (config d) /\ (is_bridge pc = false -> unconfigured d).
Proof.
  intros E. unfold new_device in E. destruct (c_assert _); cbn [mbind outcome_bind] in E; [|done|done]. injection E as <-.
  assert (Hc : clear_low (new_config pc)) by (unfold new_config; destruct (is_bridge pc); clear_low).
  set (d := plain_device b fn pc serr multi).
  assert (Hd : clear_low (config (if is_bridge pc then pci_init_mask_bridge d else d))).
  { destruct (is_bridge pc); [|done]. cbn [config pci_init_mask_bridge put_masks put_config]. unfold pci_word_test_and_set_mask. change (config d) with (new_config pc). clear_low. }
  assert (Hi : irq_state (if is_bridge pc then pci_init_mask_bridge d else d) = 0) by (by destruct (is_bridge pc)).
  split; [|split_and!; try by destruct (is_bridge pc)].
  - apply fresh_new; [done|by apply (new_masks_ok _ serr)|by destruct (is_bridge pc)|done].
  - intros ->. split; [destruct Hc as [_ Hz]; change (config d) with (new_config pc); by rewrite Hz|]. intros a0 Ha. change (w1cmask d) with (pci_init_w1cmask (replicate 256 0)).
    unfold pci_init_w1cmask, pci_set_word. rewrite byte_at_set_le_other by (auto with pci; unfold PCI_STATUS; lia). apply byte_at_zeros.
Qed.

Lemma has_bit_sub a m m' : Z.land a m = 0 -> Z.land m m' = m' -> has_bit a m' = false.
Proof. intros H E. unfold has_bit. rewrite <- E, Z.land_assoc, H. done. Qed.

Lemma bar_address_off d i type size : bytes_ok (config d) -> Z.land (byte_at (config d) PCI_COMMAND) 3 = 0 -> pci_bar_address d i type size = PCI_BAR_UNMAPPED.
Proof.
  intros Hc Hz. unfold pci_bar_address, PCI_COMMAND_IO, PCI_COMMAND_MEMORY. rewrite !has_bit_low by (done || lia). rewrite !(has_bit_sub (byte_at (config d) PCI_COMMAND) 3) by done. by destruct (has_bit type _).
Qed.

Lemma bar_window d n : 0 <= n < 7 -> 0x10 <= pci_bar d n /\ pci_bar d n + 4 <= 0x3c /\ (n < 5 -> pci_bar d n + 8 <= 0x28).
Proof. intros Hn. destruct (pci_bar_range d n Hn) as [B1 B2]. destruct (Z.eq_dec n 6) as [e|]; [destruct (B2 e)|rewrite B1 by lia]; lia. Qed.

(** The masks after [pci_register_bar] has written [v] over [w] bytes. *)
Lemma bar_masks_ok d a w v c cm : dev_typed d -> unconfigured d -> 0x10 <= a -> a + Z.of_nat w <= 0x40 -> masks_ok (put_masks cm (set_le w (wmask d) a v) (w1cmask d) (used d) (put_config c d)).
Proof.
  intros [T1 [M1 M2 M3 M4 M5] T3 T4 T5] [_ U] Ha Hw. split; cbn [wmask w1cmask put_masks]; [by apply bytes_ok_set_le|done| | |].
  - intros b Hb. rewrite byte_at_set_le by (done || lia). destruct (Z.leb_spec a b), (Z.ltb_spec b (a + Z.of_nat w)); cbn [andb]; try (by apply M3). rewrite U by lia. apply Z.land_0_r.
  - rewrite byte_at_set_le_other by (done || unfold PCI_STATUS; lia). done.
  - rewrite byte_at_set_le_other by (done || unfold PCI_HEADER_TYPE; lia). done.
Qed.

Lemma pow2_land k : 0 <= k -> Z.land (2 ^ k) (2 ^ k - 1) = 0.
Proof. intros Hk. rewrite Z.sub_1_r, <- Z.ones_equiv, Z.land_ones by done. apply Z.mod_same. pose proof (Z.pow_pos_nonneg 2 k). lia. Qed.

Lemma pci_register_bar_ok d n type k : dev_ok d -> unconfigured d -> 0 <= n < 7 -> 0 <= k <= 63 -> 0 <= type < 256 ->
  (has_bit type PCI_BASE_ADDRESS_SPACE_IO = false -> has_bit type PCI_BASE_ADDRESS_MEM_TYPE_64 = true -> n < 5) ->
  exists d', pci_register_bar d n type (2 ^ k) = Ok d' /\ dev_ok d' /\ unconfigured d' /\ pd_bus d' = pd_bus d /\ devfn d' = devfn d /\ multifunction d' = multifunction d /\ (idle d -> idle d').
Proof.
  intros (Ht & Hm & Hs) Hu Hn Hk Hty H64. unfold pci_register_bar, PCI_NUM_REGIONS. rewrite (proj2 (Z.leb_le _ _)), (proj2 (Z.ltb_lt _ _)) by lia. cbn [andb c_assert mbind outcome_bind].
  rewrite pow2_land by lia. cbn [Z.eqb c_assert mbind outcome_bind]. set (wm := if n =? PCI_ROM_SLOT then _ else _). destruct (bar_window d n Hn) as (B1 & B2 & B3).
  pose proof Ht as [T1 T2 T3 T4 T5]. pose proof Hu as [U1 U2]. set (c := pci_set_long (config d) (pci_bar d n) type).
  assert (Hc : bytes_ok c) by (by apply bytes_ok_set_le).
  assert (Hlow : forall a, 0 <= a < 0x10 -> byte_at c a = byte_at (config d) a) by (intros a Ha; apply byte_at_set_le_other; done || lia).
  set (d1 := if _ && _ then _ else _). eexists. split; [done|].
  assert (Hd1 : masks_ok d1 /\ config d1 = c /\ w1cmask d1 = w1cmask d /\ io_regions d1 = io_regions d /\ irq_state d1 = irq_state d /\ pd_bus d1 = pd_bus d /\ devfn d1 = devfn d /\ multifunction d1 = multifunction d).
  { subst d1. destruct (has_bit type PCI_BASE_ADDRESS_SPACE_IO) eqn:E1, (has_bit type PCI_BASE_ADDRESS_MEM_TYPE_64) eqn:E2; cbn [negb andb]; (split; [|done]);
      apply (bar_masks_ok d); try done; cbn; lia. }
  destruct Hd1 as (D1 & D2 & D3 & D4 & D5 & D6 & D7 & D8). assert (Hoff : Z.land (byte_at c PCI_COMMAND) 3 = 0) by (by rewrite Hlow).
  split; [|split; [split|split_and!]]; cbn [config w1cmask put_regions pd_bus devfn irq_state multifunction]; try congruence; try (intros a Ha; rewrite D3; by apply U2).
  2: { intros [I1 I2]. split; [cbn; congruence|]. rewrite <- I2. apply pci_irq_disabled_ext; cbn [config put_regions]; rewrite D2; apply Hlow; lia. }
  split_and!.
  - split; cbn [config io_regions irq_state put_regions]; rewrite ?D2, ?D4, ?D5, ?length_insert; try done; [by destruct D1|]. intros i r [(<- & <- & _)|[_ H]]%list_lookup_insert_Some; [|by apply T4].
    split; [|unfold PCI_BAR_UNMAPPED; cbn; lia]. intros _. cbn [r_size r_type]. pose proof (Z.pow_le_mono_r 2 k 63 ltac:(lia) ltac:(lia)). pose proof (Z.pow_pos_nonneg 2 k ltac:(lia) ltac:(lia)).
    split_and!; try lia; [by exists k|]. intros X Y. specialize (H64 X Y). lia.
  - intros i r Hi Hz. rewrite bar_address_off by (cbn [config put_regions]; by rewrite D2). cbn [io_regions put_regions] in Hi. rewrite D4 in Hi.
    apply list_lookup_insert_Some in Hi as [(<- & <- & _)|[_ H]]; [done|]. destruct (Hm i r H Hz) as [Ha Hma]. rewrite bar_address_off in Ha by done. by rewrite Hma, Ha.
  - unfold status_sync in *. cbn [config irq_state put_regions]. rewrite D2, D5, Hlow by (unfold PCI_STATUS; lia). done.
Qed.

Lemma fresh_set_byte d a v : fresh d -> 0 <= a < 256 -> ~ (4 <= a <= 6) -> fresh (put_config (set_byte (config d) a v) d).
Proof.
  intros [(Ht & Hm & Hs) Hi Ho] Ha Hne. pose proof Ht as [T1 T2 T3 T4 T5].
  assert (E : forall b, 0 <= b -> b <> a -> byte_at (set_byte (config d) a v) b = byte_at (config d) b).
  { intros b Hb Hba. rewrite byte_at_set by (rewrite ?(proj1 T1); lia). by rewrite (proj2 (Z.eqb_neq b a)). }
  split.
  - split_and!.
    + split; try done; [by apply bytes_ok_set|by destruct T2].
    + intros i r Hr Hz. cbn [io_regions put_config] in Hr. destruct (Hm i r Hr Hz) as [A1 A2]. rewrite bar_address_off in A1 by done.
      rewrite bar_address_off; [done|by apply bytes_ok_set|]. cbn [config put_config]. by rewrite E by (unfold PCI_COMMAND; lia).
    + unfold status_sync in *. cbn [config irq_state put_config]. by rewrite E by (unfold PCI_STATUS; lia).
  - destruct Hi as [I1 I2]. split; [done|]. rewrite <- I2. apply pci_irq_disabled_ext; cbn [config put_config]; apply E; lia.
  - cbn [config put_config]. by rewrite E by (unfold PCI_COMMAND; lia).
Qed.

Lemma unconfigured_set_byte d a v : unconfigured d -> bytes_ok (config d) -> 0 <= a < 256 -> a <> 4 -> unconfigured (put_config (set_byte (config d) a v) d).
Proof.
  intros [U1 U2] Hc Ha Hne. split; [|done]. cbn [config put_config]. rewrite byte_at_set by (rewrite ?(proj1 Hc); unfold PCI_COMMAND; lia).
  unfold PCI_COMMAND. rewrite (proj2 (Z.eqb_neq 4 a)) by lia. done.
Qed.

(** A machine before it runs. *)
Record fresh_pci (p : PCI) : Prop := {
  fp_devs : forall d dev, devs p !! d = Some dev -> fresh dev;
  fp_buses : forall b bus, buses p !! b = Some bus -> Forall (fun c => c = 0) (irq_count bus) /\ irq_calls bus = []
}.

Lemma fresh_pci_ok p : fresh_pci p -> pci_ok p.
Proof.
  intros [F1 F2]. split.
  - intros d dev Hd. apply (F1 d dev Hd).
  - intros d dev Hd. right. apply (F1 d dev Hd).
  - intros b bus Hb _ i Hi. destruct (F2 b bus Hb) as [Hz Hc]. rewrite total_zero by (intros d dev pin Hd _; apply (F1 d dev Hd)). rewrite Hc. split; [|done].
    destruct (lookup_lt_is_Some_2 (irq_count bus) (Z.to_nat i)) as [c Hl]; [lia|]. rewrite Hl. rewrite Forall_lookup in Hz. by rewrite (Hz _ _ Hl).
Qed.

(** No two devices share a slot. *)
Definition slots_ok (p : PCI) : Prop := forall d1 d2 x1 x2, devs p !! d1 = Some x1 -> devs p !! d2 = Some x2 -> pd_bus x1 = pd_bus x2 -> devfn x1 = devfn x2 -> d1 = d2.

Lemma device_in_slot_none p b fn : device_in_slot p b fn = None -> forall d x, devs p !! d = Some x -> pd_bus x = b -> devfn x = fn -> False.
Proof.
  intros H d x Hd E1 E2. unfold device_in_slot in H. apply fmap_None, list_find_None in H. rewrite Forall_lookup in H. by apply (H d x Hd).
Qed.

Lemma device_in_slot_some p b fn d x : slots_ok p -> devs p !! d = Some x -> pd_bus x = b -> devfn x = fn -> device_in_slot p b fn = Some d.
Proof.
  intros Hs Hd E1 E2. destruct (device_in_slot p b fn) as [d'|] eqn:E; [|by destruct (device_in_slot_none p b fn E d x)].
  unfold device_in_slot in E. apply fmap_Some in E as ([i y] & (Hi & [E3 E4] & _)%list_find_Some & ->). cbn. f_equal. apply (Hs i d y x); congruence.
Qed.

Lemma pci_init_multifunction_ok p d d' : pci_init_multifunction p d = Some d' -> fresh d -> fresh d' /\ pd_bus d' = pd_bus d /\ devfn d' = devfn d /\ multifunction d' = multifunction d /\ (unconfigured d -> unconfigured d').
Proof.
  unfold pci_init_multifunction. set (d0 := if multifunction d then put_config _ _ else d). intros E Hf.
  assert (H0 : fresh d0 /\ pd_bus d0 = pd_bus d /\ devfn d0 = devfn d /\ multifunction d0 = multifunction d /\ (unconfigured d -> unconfigured d0)).
  { subst d0. destruct (multifunction d) eqn:Em; [|done]. split; [apply fresh_set_byte; [done|unfold PCI_HEADER_TYPE; lia..]|split_and!; try done].
    intros Hu. apply unconfigured_set_byte; [done|apply Hf|unfold PCI_HEADER_TYPE; lia..]. }
  assert (d' = d0) as ->; [|done]. repeat (case_match; simplify_eq; try done).
Qed.

(** Registration of a device: it fails and changes nothing, or the device has a
    slot of its own. *)
Lemma do_pci_register_device_ok p b m fn pc serr multi p' r : fresh_pci p -> slots_ok p -> do_pci_register_device p b m fn pc serr multi = Ok (p', r) ->
  (r = None /\ p' = p) \/ exists d, r = Some (length (devs p)) /\ devs p' = devs p ++ [d] /\ buses p' = buses p /\ fresh_pci p' /\ slots_ok p' /\ pd_bus d = b /\ (0 <= fn -> devfn d = fn) /\ multifunction d = multi /\
    fresh d /\ (is_bridge pc = false -> unconfigured d).
Proof.
  intros [F1 F2] Hs E. unfold do_pci_register_device in E. set (slot := if fn <? 0 then _ else _) in E. destruct slot as [fn'|] eqn:Es; [|left; by injection E as <- <-].
  assert (Hfree : device_in_slot p b fn' = None /\ (0 <= fn -> fn' = fn)).
  { subst slot. destruct (Z.ltb_spec fn 0) as [Hneg|].
    - unfold free_slot in Es. apply fmap_Some in Es as ([i y] & (_ & [H _] & _)%list_find_Some & ->). split; [done|lia].
    - destruct (device_in_slot p b fn) eqn:Ed; [done|]. by injection Es as <-. }
  destruct Hfree as [Hfree Hfn]. destruct (new_device b fn' pc serr multi) as [d| |] eqn:En; try done. cbn [mbind outcome_bind] in E.
  destruct (new_device_ok _ _ _ _ _ _ En) as (Hd & E1 & E2 & E3 & _ & _ & Hu). destruct (pci_init_multifunction p d) as [d'|] eqn:Em; [|left; by injection E as <- <-].
  destruct (pci_init_multifunction_ok p d d' Em Hd) as (Hd' & E1' & E2' & E3' & Hu'). injection E as <- <-. right. exists d'. cbn [devs buses]. split_and!; try done; [| |congruence| |congruence|intros Hb; by apply Hu', Hu].
  - split; [|done]. cbn [devs]. intros i x [H|[_ H]]%lookup_app_Some; [by eapply F1|]. apply list_lookup_singleton_Some in H as [_ <-]. done.
  - intros i1 i2 x1 x2 H1 H2 Eb Ef. cbn [devs] in H1, H2. apply lookup_app_Some in H1 as [H1|[L1 H1]], H2 as [H2|[L2 H2]]; [by eapply Hs| | |].
    + apply list_lookup_singleton_Some in H2 as [_ <-]. exfalso. eapply device_in_slot_none; [exact Hfree|exact H1|congruence|congruence].
    + apply list_lookup_singleton_Some in H1 as [_ <-]. exfalso. eapply device_in_slot_none; [exact Hfree|exact H2|congruence|congruence].
    + apply list_lookup_singleton_Some in H1 as [? _], H2 as [? _]. lia.
  - intros Hpos. rewrite <- Hfn by done. congruence.
Qed.
