(* ===== verification/PciCaps.v ===== *)
(** * Capabilities of a PCI device (hw/pci/pci.c)

    The capabilities form a list linked through configuration space, and the
    [used] array tells which bytes they occupy.  Against a specification that
    keeps them as a plain list, newest first: adding, with the offset given or
    found, deleting, finding, and configuration writes of the guest, which cannot
    break the chain. *)
From S2P Require Import Prelude Pci PciFacts.

(** ** Specification *)
Record Cap := { c_off : Z; c_id : Z; c_size : Z }.

Definition c_span (k : Cap) : Z := QEMU_ALIGN_UP (c_size k) 4.
Definition covers (a : Z) (k : Cap) : bool := (c_off k <=? a) && (a <? c_off k + c_span k).
Definition covered (l : list Cap) (a : Z) : bool := existsb (covers a) l.

(** None of the [n] bytes from [o] on is in a capability. *)
Fixpoint free (l : list Cap) (o : Z) (n : nat) : bool :=
  match n with O => true | S n => negb (covered l o) && free l (o + 1) n end.

Definition fits (l : list Cap) (o size : Z) : bool := (o + size <=? PCI_CONFIG_SPACE_SIZE) && free l o (Z.to_nat size).

Fixpoint fit_from (n : nat) (l : list Cap) (size o : Z) : option Z :=
  match n with O => None | S n => if fits l o size then Some o else fit_from n l size (o + 4) end.

(** The lowest aligned offset behind the header with room for [size] bytes. *)
Definition first_fit (l : list Cap) (size : Z) : option Z := fit_from 48 l size PCI_CONFIG_HEADER_SIZE.

Fixpoint drop_cap (id : Z) (l : list Cap) : list Cap :=
  match l with [] => [] | k :: l => if c_id k =? id then l else k :: drop_cap id l end.

Definition find_cap (id : Z) (l : list Cap) : Z :=
  match List.find (fun k => c_id k =? id) l with Some k => c_off k | None => 0 end.

Inductive CapOp :=
| AddCap (id offset size : Z)
| DelCap (id size : Z)
| FindCap (id : Z)
| ConfigWrite (addr : Z) (len : nat) (val : Z).

(** The list and the value returned. *)
Definition spec_step (l : list Cap) (o : CapOp) : list Cap * Z :=
  match o with
  | AddCap id offset size =>
    if offset =? 0 then
      match first_fit l size with
      | Some f => ({| c_off := f; c_id := id; c_size := size |} :: l, f)
      | None => (l, - ENOSPC)
      end
    else if free l offset (Z.to_nat size) then ({| c_off := offset; c_id := id; c_size := size |} :: l, offset)
    else (l, - EINVAL)
  | DelCap id _ => (drop_cap id l, 0)
  | FindCap id => (l, find_cap id l)
  | ConfigWrite _ _ _ => (l, 0)
  end.

(** What callers keep to: a capability has room for its header, a given offset is
    aligned and inside the space behind the header, and a capability is deleted
    with the size it was added with. *)
Definition op_ok (l : list Cap) (o : CapOp) : Prop :=
  match o with
  | AddCap id offset size => 0 <= id < 256 /\ 2 <= size <= 255 /\ (offset = 0 \/ 64 <= offset /\ offset mod 4 = 0 /\ offset + size <= 256)
  | DelCap id size => forall k, List.find (fun k => c_id k =? id) l = Some k -> c_size k = size
  | FindCap _ => True
  | ConfigWrite addr len _ => 0 <= addr /\ addr + Z.of_nat len <= 256
  end.

(** ** The device *)
Definition cap_fuel : nat := 49.

Definition cap_step (d : PCIDevice) (o : CapOp) : outcome (PCIDevice * Z) :=
  match o with
  | AddCap id offset size => pci_add_capability cap_fuel d id offset size
  | DelCap id size => d ← pci_del_capability cap_fuel d id size; Ok (d, 0)
  | FindCap id => r ← pci_find_capability cap_fuel d id; Ok (d, r)
  | ConfigWrite addr len val => d ← write_bytes len d addr val; Ok (d, 0)
  end.

Fixpoint cap_steps (d : PCIDevice) (os : list CapOp) : outcome (PCIDevice * list Z) :=
  match os with
  | [] => Ok (d, [])
  | o :: os => '(d, r) ← cap_step d o; '(d, rs) ← cap_steps d os; Ok (d, r :: rs)
  end.

Fixpoint spec_steps (l : list Cap) (os : list CapOp) : list Cap * list Z :=
  match os with
  | [] => (l, [])
  | o :: os => let '(l, r) := spec_step l o in let '(l, rs) := spec_steps l os in (l, r :: rs)
  end.

Fixpoint ops_ok (l : list Cap) (os : list CapOp) : Prop :=
  match os with [] => True | o :: os => op_ok l o /\ ops_ok (spec_step l o).1 os end.

(** ** The representation *)
(** The chain that starts at the link [a]. *)
Fixpoint linked (c : list Z) (a : Z) (l : list Cap) : Prop :=
  match l with
  | [] => byte_at c a = 0
  | k :: l => byte_at c a = c_off k /\ byte_at c (c_off k) = c_id k /\ linked c (c_off k + 1) l
  end.

Record cap_ok (k : Cap) : Prop := {
  cp_off : 64 <= c_off k;
  cp_aligned : c_off k mod 4 = 0;
  cp_size : 2 <= c_size k;
  cp_end : c_off k + c_span k <= 256;
  cp_id : 0 <= c_id k < 256
}.

Definition apart (k k' : Cap) : Prop := c_off k + c_span k <= c_off k' \/ c_off k' + c_span k' <= c_off k.

(** The guest cannot change the chain. *)
Record caps_ok (d : PCIDevice) (l : list Cap) : Prop := {
  ck_config : bytes_ok (config d);
  ck_used : bytes_ok (used d);
  ck_masks : masks_ok d;
  ck_caps : Forall cap_ok l;
  ck_apart : ForallOrdPairs apart l;
  ck_linked : linked (config d) PCI_CAPABILITY_LIST l;
  ck_covered : forall a, 0 <= a < 256 -> byte_at (used d) a = 0 <-> covered l a = false;
  ck_status : has_bit (byte_at (config d) PCI_STATUS) PCI_STATUS_CAP_LIST = match l with [] => false | _ => true end;
  ck_w1c : forall a, PCI_CAPABILITY_LIST <= a < 256 -> byte_at (w1cmask d) a = 0;
  ck_head : byte_at (wmask d) PCI_CAPABILITY_LIST = 0;
  ck_headers : forall k, In k l -> byte_at (wmask d) (c_off k) = 0 /\ byte_at (wmask d) (c_off k + 1) = 0
}.

(** ** Blocks *)
Lemma span_range n : 2 <= n -> n <= QEMU_ALIGN_UP n 4 < n + 4 /\ 4 <= QEMU_ALIGN_UP n 4 /\ QEMU_ALIGN_UP n 4 mod 4 = 0.
Proof. intros H. unfold QEMU_ALIGN_UP. split_and!; zdiv. Qed.

Lemma covers_range k a : covers a k = true <-> c_off k <= a < c_off k + c_span k.
Proof. unfold covers. rewrite andb_true_iff, Z.leb_le, Z.ltb_lt. lia. Qed.

Lemma covers_false k a : covers a k = false <-> a < c_off k \/ c_off k + c_span k <= a.
Proof. unfold covers. rewrite andb_false_iff, Z.leb_gt, Z.ltb_ge. lia. Qed.

Lemma covered_true l a : covered l a = true <-> exists k, In k l /\ c_off k <= a < c_off k + c_span k.
Proof. unfold covered. rewrite existsb_exists. by setoid_rewrite covers_range. Qed.

(** Whether a byte is taken depends on its group of four. *)
Lemma covered_group l a b : Forall cap_ok l -> a / 4 = b / 4 -> covered l a = covered l b.
Proof.
  intros Hl E. unfold covered. induction Hl as [|k l Hk Hl IH]; cbn [existsb]; [done|]. rewrite IH. f_equal.
  destruct Hk as [H1 H2 H3 H4 _]. destruct (span_range (c_size k) H3) as (S1 & S2 & S3). change (QEMU_ALIGN_UP (c_size k) 4) with (c_span k) in *.
  apply eq_true_iff_eq. rewrite !covers_range. clear - E H2 S3. split; intros; zdiv.
Qed.

Lemma free_spec l n : forall o, free l o n = true <-> forall a, o <= a < o + Z.of_nat n -> covered l a = false.
Proof.
  induction n as [|n IH]; intros o; cbn [free]; [split; [intros _ a; lia|done]|]. rewrite andb_true_iff, negb_true_iff, IH. split.
  - intros [H0 H] a Ha. destruct (Z.eq_dec a o) as [->|]; [done|]. apply H. lia.
  - intros H. split; [apply H; lia|]. intros a Ha. apply H. lia.
Qed.

(** With an aligned start the whole block is free. *)
Lemma free_block l o size : Forall cap_ok l -> o mod 4 = 0 -> 2 <= size -> free l o (Z.to_nat size) = true ->
  forall a, o <= a < o + QEMU_ALIGN_UP size 4 -> covered l a = false.
Proof.
  intros Hl Ho Hs Hf a Ha. destruct (proj1 (free_spec _ _ _) Hf (a / 4 * 4)).
  - unfold QEMU_ALIGN_UP in Ha. clear - Ha Ho Hs. rewrite Z2Nat.id by lia. zdiv.
  - apply covered_group; [done|]. by rewrite Z.div_mul.
Qed.

(** ** The arrays *)
Lemma byte_at_fill n : forall l a v b, bytes_ok l -> 0 <= a -> a + Z.of_nat n <= 256 -> 0 <= b ->
  byte_at (fill_bytes n l a v) b = if (a <=? b) && (b <? a + Z.of_nat n) then u8 v else byte_at l b.
Proof.
  induction n as [|n IH]; intros l a v b Hl Ha Hn Hb; cbn [fill_bytes].
  - destruct (Z.leb_spec a b), (Z.ltb_spec b (a + Z.of_nat 0)); try done; lia.
  - rewrite IH by (first [by apply bytes_ok_set|lia]). rewrite byte_at_set by (destruct Hl as [Hlen _]; lia). destruct (Z.eqb_spec b a) as [->|].
    + destruct (Z.leb_spec (a + 1) a), (Z.leb_spec a a), (Z.ltb_spec a (a + Z.of_nat (S n))); try lia. done.
    + destruct (Z.leb_spec (a + 1) b), (Z.leb_spec a b), (Z.ltb_spec b (a + 1 + Z.of_nat n)), (Z.ltb_spec b (a + Z.of_nat (S n))); try lia; done.
Qed.

Lemma byte_at_fill_in n l a v b : bytes_ok l -> 0 <= a -> a + Z.of_nat n <= 256 -> a <= b < a + Z.of_nat n -> byte_at (fill_bytes n l a v) b = u8 v.
Proof. intros Hl Ha Hn Hb. rewrite byte_at_fill by (done || lia). destruct (Z.leb_spec a b), (Z.ltb_spec b (a + Z.of_nat n)); try lia; done. Qed.

Lemma byte_at_fill_out n l a v b : bytes_ok l -> 0 <= a -> a + Z.of_nat n <= 256 -> 0 <= b -> b < a \/ a + Z.of_nat n <= b -> byte_at (fill_bytes n l a v) b = byte_at l b.
Proof. intros Hl Ha Hn H0 Hb. rewrite byte_at_fill by (done || lia). destruct (Z.leb_spec a b), (Z.ltb_spec b (a + Z.of_nat n)); try lia; done. Qed.

(** The chain is where its links and headers are. *)
Lemma linked_ext c c' l : forall a a', byte_at c' a' = byte_at c a ->
  (forall k, In k l -> byte_at c' (c_off k) = byte_at c (c_off k) /\ byte_at c' (c_off k + 1) = byte_at c (c_off k + 1)) ->
  linked c a l -> linked c' a' l.
Proof.
  induction l as [|k l IH]; intros a a' Ha Hk; cbn [linked]; [by rewrite Ha|]. intros (E1 & E2 & E3). destruct (Hk k (or_introl eq_refl)) as [H1 H2].
  rewrite Ha, H1. split_and!; [done|done|]. apply (IH (c_off k + 1)); [done| |done]. intros k' Hin. by apply Hk; right.
Qed.

(** ** Walking the chain *)
(** The link to the first capability [id], or the end of the chain. *)
Fixpoint link_to (id a : Z) (l : list Cap) : Z :=
  match l with [] => a | k :: l => if c_id k =? id then a else link_to id (c_off k + 1) l end.

Lemma cap_next k : cap_ok k -> c_off k <> 0 /\ u8 (c_off k + PCI_CAP_LIST_NEXT) = c_off k + 1.
Proof.
  intros [H1 H2 H3 H4 _]. destruct (span_range (c_size k) H3) as (S1 & S2 & _). unfold c_span in H4. split; [lia|].
  apply wrap_small. unfold PCI_CAP_LIST_NEXT. lia.
Qed.

Lemma find_cap_loop_ok c id l : forall fuel a, Forall cap_ok l -> linked c a l -> (length l < fuel)%nat ->
  find_cap_loop fuel c id a = Ok (find_cap id l, link_to id a l).
Proof.
  induction l as [|k l IH]; intros [|fuel] a Hl Hc Hf; cbn [length] in Hf; try lia; cbn [find_cap_loop linked] in *.
  - by rewrite Hc.
  - destruct Hc as (E1 & E2 & E3). inversion Hl as [|?? Hk Hl']; subst. destruct (cap_next k Hk) as [Hn Hu]. rewrite E1, (proj2 (Z.eqb_neq _ _) Hn), Hu.
    unfold PCI_CAP_LIST_ID. rewrite Z.add_0_r, E2. unfold find_cap. cbn [orb List.find link_to]. destruct (c_id k =? id); [done|]. apply IH; done || lia.
Qed.

Lemma cap_at_loop_ok c offset l : forall fuel a found, Forall cap_ok l -> linked c a l -> (length l < fuel)%nat ->
  exists r, cap_at_loop fuel c offset a found = Ok r /\ found <= r /\ forall k, In k l -> c_off k <= offset -> c_off k <= r.
Proof.
  induction l as [|k l IH]; intros [|fuel] a found Hl Hc Hf; cbn [length] in Hf; try lia; cbn [cap_at_loop linked] in *.
  - rewrite Hc. by exists found.
  - destruct Hc as (E1 & E2 & E3). inversion Hl as [|?? Hk Hl']; subst. destruct (cap_next k Hk) as [Hn Hu]. rewrite E1, (proj2 (Z.eqb_neq _ _) Hn), Hu.
    destruct (IH fuel (c_off k + 1) (if (c_off k <=? offset) && (found <? c_off k) then c_off k else found) Hl' E3 ltac:(lia)) as (r & E & Hr & Hin).
    exists r. rewrite E. split; [done|]. split; [|intros k' [<-|Hk'] Ho; [|by apply Hin]].
    all: destruct (Z.leb_spec (c_off k) offset), (Z.ltb_spec found (c_off k)); cbn [andb] in Hr; lia.
Qed.

(** The space behind the header has 48 groups of four. *)
Lemma caps_length l : Forall cap_ok l -> ForallOrdPairs apart l -> (length l <= 48)%nat.
Proof.
  intros Hl Ha. rewrite <- (length_map (fun k => Z.to_nat (c_off k / 4 - 16)) l). replace 48%nat with (length (seq 0 48)) by apply length_seq. apply NoDup_incl_length.
  - induction Ha as [|k l Hk Ha IH]; cbn [map]; [constructor|]. inversion Hl as [|?? [A1 A2 A3 A4 _] Hl']; subst. constructor; [|by apply IH].
    intros (k' & E & Hin)%in_map_iff. rewrite Forall_forall in Hk, Hl'. destruct (Hl' k') as [B1 B2 B3 B4 _]; [by apply list_elem_of_In|].
    destruct (span_range _ A3) as (_ & S & _), (span_range _ B3) as (_ & S' & _). specialize (Hk k' ltac:(by apply list_elem_of_In)). unfold apart, c_span in *. clear - E Hk S S' A1 A2 B1 B2. zdiv.
  - intros x (k & <- & Hin)%in_map_iff. rewrite Forall_forall in Hl. destruct (Hl k) as [A1 A2 A3 A4 _]; [by apply list_elem_of_In|].
    destruct (span_range _ A3) as (_ & S & _). apply in_seq. unfold c_span in *. clear - A1 A4 S. zdiv.
Qed.

Section Device.
Context (d : PCIDevice) (l : list Cap) (Hd : caps_ok d l).

Lemma caps_fuel : (length l < cap_fuel)%nat.
Proof. destruct Hd as [_ _ _ H1 H2 _ _ _ _ _ _]. pose proof (caps_length l H1 H2). unfold cap_fuel. lia. Qed.

Lemma find_capability_list_ok id : exists prev, pci_find_capability_list cap_fuel d id = Ok (find_cap id l, prev) /\ (l <> [] -> prev = link_to id PCI_CAPABILITY_LIST l).
Proof.
  pose proof caps_fuel as Hf. destruct Hd as [_ _ _ H1 _ H3 _ H5 _ _ _]. unfold pci_find_capability_list. rewrite H5. destruct l as [|k l'] eqn:El; cbn [negb].
  - by exists 0.
  - rewrite (find_cap_loop_ok _ id (k :: l')) by done. by eexists.
Qed.

(** Some capability holds the byte exactly if it is in use. *)
Lemma find_at_offset_ok i : 0 <= i < 256 -> exists r, pci_find_capability_at_offset cap_fuel d i = Ok r /\ negb (r =? 0) = covered l i.
Proof.
  intros Hi. pose proof caps_fuel as Hf. destruct Hd as [_ _ _ H1 _ H3 H4 H5 _ _ _]. unfold pci_find_capability_at_offset. destruct (covered l i) eqn:E.
  - rewrite (proj2 (Z.eqb_neq _ _)) by (intros E0; apply (H4 i Hi) in E0; congruence). apply covered_true in E as (k & Hin & Hk).
    rewrite H5. destruct l as [|k0 l']; [done|]. cbn [c_assert mbind outcome_bind].
    destruct (cap_at_loop_ok (config d) i _ cap_fuel PCI_CAPABILITY_LIST 0 H1 H3 Hf) as (r & -> & Hr & Hr'). exists r. split; [done|].
    specialize (Hr' k Hin ltac:(lia)). rewrite Forall_forall in H1. destruct (H1 k) as [A1 _ _ _ _]; [by apply list_elem_of_In|]. apply negb_true_iff, Z.eqb_neq. lia.
  - apply (H4 i Hi) in E. rewrite E. by exists 0.
Qed.

Lemma overlaps_cap_ok n : forall i, 0 <= i -> i + Z.of_nat n <= 256 -> overlaps_cap cap_fuel n d i = Ok (negb (free l i n)).
Proof.
  induction n as [|n IH]; intros i H0 Hi; cbn [overlaps_cap free]; [done|]. rewrite (wrap_small 8) by lia.
  destruct (find_at_offset_ok i ltac:(lia)) as (r & -> & E). cbn [mbind outcome_bind]. rewrite E. destruct (covered l i); cbn [negb andb]; [done|]. apply IH; lia.
Qed.

(** [pci_find_space] finds the lowest run of free bytes. *)
Definition lowest_fit (size r : Z) : Prop :=
  (r = 0 /\ forall o, 64 <= o -> fits l o size = false) \/
  (64 <= r /\ fits l r size = true /\ forall o, 64 <= o < r -> fits l o size = false).

Lemma fits_true o size : 0 <= size -> fits l o size = true <-> o + size <= 256 /\ forall a, o <= a < o + size -> covered l a = false.
Proof. intros Hs. unfold fits. rewrite andb_true_iff, Z.leb_le, free_spec, Z2Nat.id by done. done. Qed.

Lemma taken_unfit o size a : 0 <= size -> o <= a < o + size -> covered l a = true -> fits l o size = false.
Proof. intros Hs Ha E. apply not_true_iff_false. rewrite fits_true by done. intros [_ H]. rewrite H in E; done. Qed.

Lemma find_space_loop_ok size : 2 <= size -> forall fuel i offset, 64 <= offset <= i -> i + Z.of_nat fuel = 256 -> i - offset < size ->
  (forall a, offset <= a < i -> covered l a = false) -> (forall o, 64 <= o < offset -> fits l o size = false) ->
  lowest_fit size (find_space_loop fuel (used d) size i offset).
Proof.
  intros Hs. induction fuel as [|fuel IH]; intros i offset Ho Hi Hlt Hfree Hlow; cbn [find_space_loop].
  - left. split; [done|]. intros o Ho'. destruct (Z_lt_dec o offset); [by apply Hlow; lia|]. apply not_true_iff_false. rewrite fits_true by lia. lia.
  - pose proof (ck_covered _ _ Hd i ltac:(lia)) as Hc. destruct (Z.eqb_spec (byte_at (used d) i) 0) as [E|E]; cbn [negb].
    + apply Hc in E. assert (Hfree' : forall a, offset <= a < i + 1 -> covered l a = false).
      { intros a Ha. destruct (Z.eq_dec a i) as [->|]; [done|]. apply Hfree. lia. }
      destruct (Z.eqb_spec (i - offset + 1) size) as [Es|Es]; [|by apply IH; try lia].
      right. split_and!; [lia| |done]. apply fits_true; [lia|]. split; [lia|]. intros a Ha. apply Hfree'. lia.
    + assert (Ec : covered l i = true) by (apply not_false_iff_true; by rewrite <- Hc). apply IH; try lia. intros o Ho'. destruct (Z_lt_dec o offset); [apply Hlow; lia|].
      apply (taken_unfit o size i); [lia|lia|done].
Qed.

(** The lowest run starts at a group of four. *)
Lemma lowest_aligned size r : 2 <= size -> 64 <= r -> fits l r size = true -> (forall o, 64 <= o < r -> fits l o size = false) -> r mod 4 = 0.
Proof.
  intros Hs Hr [Hend Hfit]%fits_true Hlow; [|lia]. destruct (Z.eq_dec (r mod 4) 0) as [|Hne]; [done|]. exfalso.
  assert (Hr1 : 64 <= r - 1) by zdiv. assert (Hg : (r - 1) / 4 = r / 4) by zdiv.
  specialize (Hlow (r - 1) ltac:(lia)). apply not_true_iff_false in Hlow. apply Hlow. apply fits_true; [lia|]. split; [lia|]. intros a Ha.
  destruct (Z.eq_dec a (r - 1)) as [->|]; [|apply Hfit; lia]. rewrite (covered_group l _ r); [apply Hfit; lia|apply Hd|done].
Qed.

Lemma fit_from_none size n : forall o, 64 <= o -> (forall o', 64 <= o' -> fits l o' size = false) -> fit_from n l size o = None.
Proof. induction n as [|n IH]; intros o Ho H; cbn [fit_from]; [done|]. rewrite H by done. apply IH; [lia|done]. Qed.

Lemma fit_from_some size r n : forall k, (k < n)%nat -> fits l r size = true -> (forall o, 64 <= o < r -> fits l o size = false) -> 64 <= r - 4 * Z.of_nat k ->
  fit_from n l size (r - 4 * Z.of_nat k) = Some r.
Proof.
  induction n as [|n IH]; intros k Hk Hr Hlow Hge; [lia|]. cbn [fit_from]. destruct k as [|k].
  - rewrite Z.sub_0_r. by rewrite Hr.
  - rewrite Hlow by lia. replace (r - 4 * Z.of_nat (S k) + 4) with (r - 4 * Z.of_nat k) by lia. apply IH; done || lia.
Qed.

Lemma pci_find_space_lowest size : 2 <= size -> lowest_fit size (pci_find_space d size).
Proof. intros Hs. unfold pci_find_space, PCI_CONFIG_HEADER_SIZE. apply find_space_loop_ok; try (intros; lia); lia. Qed.

Lemma pci_find_space_ok size : 2 <= size -> first_fit l size = (if pci_find_space d size =? 0 then None else Some (pci_find_space d size)) /\
  (pci_find_space d size <> 0 -> 64 <= pci_find_space d size /\ pci_find_space d size mod 4 = 0 /\ fits l (pci_find_space d size) size = true).
Proof.
  intros Hs. pose proof (pci_find_space_lowest size Hs) as L. generalize dependent (pci_find_space d size). intros r [[-> H]|(H1 & H2 & H3)].
  - split; [|done]. by apply fit_from_none.
  - rewrite (proj2 (Z.eqb_neq r 0)) by lia. pose proof (lowest_aligned size r Hs H1 H2 H3) as Hm. split; [|done].
    pose proof (proj1 (fits_true r size ltac:(lia)) H2) as [Hend _]. pose proof (fit_from_some size r 48 (Z.to_nat (r / 4 - 16))) as F.
    replace (r - 4 * Z.of_nat (Z.to_nat (r / 4 - 16))) with 64 in F by zdiv. apply F; [zdiv|done|done|lia].
Qed.
End Device.

(** ** Adding and deleting *)
Lemma has_cap_bit v : has_bit v PCI_STATUS_CAP_LIST = Z.testbit v 4.
Proof.
  unfold has_bit. change PCI_STATUS_CAP_LIST with (2 ^ 4). destruct (Z.testbit v 4) eqn:E.
  - apply negb_true_iff, Z.eqb_neq. intros H. apply (f_equal (fun x => Z.testbit x 4)) in H. by rewrite Z.land_spec, E in H.
  - apply negb_false_iff, Z.eqb_eq. apply Z.bits_inj'. intros n Hn. rewrite Z.land_spec, Z.bits_0, Z.pow2_bits_eqb by lia.
    destruct (Z.eqb_spec 4 n) as [<-|]; [by rewrite E|apply andb_false_r].
Qed.

(** The two header bytes of a capability lie in its block. *)
Lemma header_covered k l : cap_ok k -> In k l -> covered l (c_off k) = true /\ covered l (c_off k + 1) = true.
Proof.
  intros [_ _ H _ _] Hin. destruct (span_range _ H) as (_ & S & _). change (QEMU_ALIGN_UP _ _) with (c_span k) in S.
  split; apply covered_true; exists k; (split; [done|lia]).
Qed.

Lemma linked_head d l : caps_ok d l -> byte_at (config d) PCI_CAPABILITY_LIST = match l with [] => 0 | k :: _ => c_off k end.
Proof. intros [_ _ _ _ _ H _ _ _ _ _]. by destruct l; [|destruct H]. Qed.

(** Configuration space after linking a capability at [o]. *)
Definition linked_config (c : list Z) (id o : Z) : list Z :=
  let c := set_byte c o id in
  let c := set_byte c (o + 1) (byte_at c PCI_CAPABILITY_LIST) in
  let c := set_byte c PCI_CAPABILITY_LIST o in
  set_byte c PCI_STATUS (Z.lor (byte_at c PCI_STATUS) PCI_STATUS_CAP_LIST).

Lemma linked_config_at c id o : bytes_ok c -> 64 <= o <= 252 -> 0 <= id < 256 -> bytes_ok (linked_config c id o) /\
  byte_at (linked_config c id o) o = id /\ byte_at (linked_config c id o) (o + 1) = byte_at c PCI_CAPABILITY_LIST /\
  byte_at (linked_config c id o) PCI_CAPABILITY_LIST = o /\ Z.testbit (byte_at (linked_config c id o) PCI_STATUS) 4 = true /\
  forall b, 64 <= b -> b <> o -> b <> o + 1 -> byte_at (linked_config c id o) b = byte_at c b.
Proof.
  intros Hc Ho Hid. pose proof (byte_range c PCI_CAPABILITY_LIST Hc) as Hh. unfold linked_config, PCI_CAPABILITY_LIST, PCI_STATUS in *. destruct Hc as [Hlen Hc].
  assert (Hb : forall c' a b v, length c' = 256%nat -> 0 <= a < 256 -> 0 <= b -> byte_at (set_byte c' a v) b = if b =? a then u8 v else byte_at c' b) by (intros; apply byte_at_set; lia).
  assert (Hl : forall c' a v, length c' = 256%nat -> length (set_byte c' a v) = 256%nat) by (intros; by rewrite set_byte_length).
  split; [repeat apply bytes_ok_set; done|].
  split_and!; intros; rewrite !Hb by (repeat apply Hl; done || lia);
    repeat match goal with |- context [?x =? ?y] => destruct (Z.eqb_spec x y); try lia end; try (apply wrap_small; lia); try done.
  rewrite u8_bit, Z.lor_spec by lia. apply orb_true_r.
Qed.

Lemma in_block o size : 64 <= o -> o mod 4 = 0 -> 2 <= size -> o + size <= 256 -> o + QEMU_ALIGN_UP size 4 <= 256 /\ in_config_space o size = true.
Proof.
  intros H1 H2 H3 H4. destruct (span_range size H3) as (_ & S & _). assert (E : o + QEMU_ALIGN_UP size 4 <= 256) by (unfold QEMU_ALIGN_UP; clear - H2 H4; zdiv).
  split; [done|]. unfold in_config_space, PCI_CONFIG_SPACE_SIZE. apply Z.leb_le. lia.
Qed.

(** Giving the mask of a block behind the header one value. *)
Lemma masks_ok_fill d v o n c cm us : masks_ok d -> 64 <= o -> o + Z.of_nat n <= 256 ->
  masks_ok (put_masks cm (fill_bytes n (wmask d) o v) (if v =? 0 then w1cmask d else fill_bytes n (w1cmask d) o 0) us (put_config c d)).
Proof.
  intros [M1 M2 M3 M4 M5] Ho Hn. assert (H2 : bytes_ok (if v =? 0 then w1cmask d else fill_bytes n (w1cmask d) o 0)) by (destruct (v =? 0); [done|by apply bytes_ok_fill]).
  split; cbn [wmask w1cmask put_masks]; [by apply bytes_ok_fill|done| | |].
  - intros a Ha. destruct (Z_le_dec o a), (Z_lt_dec a (o + Z.of_nat n)).
    2-4: rewrite (byte_at_fill_out n (wmask d)) by (done || lia); destruct (v =? 0); [|rewrite byte_at_fill_out by (done || lia)]; by apply M3.
    rewrite (byte_at_fill_in n (wmask d)) by (done || lia). destruct (Z.eqb_spec v 0) as [->|]; [done|]. rewrite byte_at_fill_in by (done || lia). apply Z.land_0_r.
  - unfold PCI_STATUS in *. rewrite (byte_at_fill_out n (wmask d)) by (done || lia). destruct (v =? 0); [|rewrite byte_at_fill_out by (done || lia)]; done.
  - unfold PCI_HEADER_TYPE in *. rewrite (byte_at_fill_out n (wmask d)) by (done || lia). destruct (v =? 0); [|rewrite byte_at_fill_out by (done || lia)]; done.
Qed.

Lemma link_capability_ok d l id o size : caps_ok d l -> 0 <= id < 256 -> 2 <= size -> 64 <= o -> o mod 4 = 0 -> o + size <= 256 -> free l o (Z.to_nat size) = true ->
  exists d', link_capability d id o size = Ok d' /\ caps_ok d' ({| c_off := o; c_id := id; c_size := size |} :: l).
Proof.
  intros Hd Hid Hs Ho Hm Hend Hf. destruct (in_block o size Ho Hm Hs Hend) as [Hb Hin]. unfold link_capability. rewrite Hin. cbn [c_assert mbind outcome_bind].
  eexists. split; [done|]. destruct (span_range size Hs) as (S1 & S2 & _). pose proof (free_block l o size (ck_caps _ _ Hd) Hm Hs Hf) as Hfree.
  unfold PCI_CAP_LIST_ID, PCI_CAP_LIST_NEXT. rewrite !Z.add_0_r. fold (linked_config (config d) id o).
  destruct Hd as [H1 H2 H3 H4 H5 H6 H7 H8 H9 H10 H11]. pose proof (mk_wmask _ H3) as Hw. destruct (linked_config_at (config d) id o H1 ltac:(lia) Hid) as (C1 & C2 & C3 & C4 & C5 & C6).
  set (c' := linked_config (config d) id o) in *. clearbody c'.
  assert (Hne : forall k, In k l -> cap_ok k /\ c_off k <> o /\ c_off k <> o + 1 /\ c_off k + 1 <> o).
  { intros k Hk. assert (Hok : cap_ok k) by (rewrite Forall_forall in H4; by apply H4, list_elem_of_In). destruct (header_covered k l Hok Hk) as [K1 K2].
    split; [done|]. split_and!; intros E; rewrite E, Hfree in * by lia; done. }
  split; cbn [config used wmask w1cmask put_masks put_config].
  - done.
  - by apply bytes_ok_fill.
  - apply (masks_ok_fill d 0); [done|done|lia].
  - constructor; [|done]. by split.
  - constructor; [|done]. apply Forall_forall. intros k Hk%list_elem_of_In. destruct (Hne k Hk) as (K & _). unfold apart. cbn [c_off c_span c_size].
    change (QEMU_ALIGN_UP (c_size _) 4) with (QEMU_ALIGN_UP size 4). destruct (Z_le_dec (o + QEMU_ALIGN_UP size 4) (c_off k)); [by left|]. right.
    destruct (Z_le_dec (c_off k + c_span k) o); [done|]. exfalso. assert (K' : covered l (Z.max o (c_off k)) = true) by (apply covered_true; exists k; split; [done|]; destruct (span_range _ (cp_size _ K)) as (_ & ? & _); change (QEMU_ALIGN_UP (c_size k) 4) with (c_span k) in *; lia).
    rewrite Hfree in K' by lia. done.
  - cbn [linked c_off c_id]. split_and!; [done|done|]. apply (linked_ext (config d) c' l PCI_CAPABILITY_LIST); [done| |done].
    intros k Hk. destruct (Hne k Hk) as ([K _ _ _ _] & N1 & N2 & N3). split; apply C6; lia.
  - intros a Ha. cbn [covered existsb]. fold (covered l a). rewrite orb_false_iff, covers_false. change (c_span _) with (QEMU_ALIGN_UP size 4). cbn [c_off].
    destruct (Z_le_dec o a), (Z_lt_dec a (o + QEMU_ALIGN_UP size 4)).
    1: rewrite byte_at_fill_in by (done || lia); split; [done|lia].
    all: rewrite byte_at_fill_out by (done || lia); rewrite H7 by done; intuition lia.
  - by rewrite has_cap_bit.
  - done.
  - unfold PCI_CAPABILITY_LIST in *. by rewrite byte_at_fill_out by (done || lia).
  - intros k [<-|Hk]; cbn [c_off]; [by rewrite !byte_at_fill_in by (done || lia)|]. destruct (H11 k Hk) as [W1 W2]. destruct (Hne k Hk) as (K & _).
    rewrite !byte_at_fill by (done || lia || (destruct K; lia)). by repeat destruct (_ && _).
Qed.

Lemma drop_cap_in id l k : In k (drop_cap id l) -> In k l.
Proof. induction l as [|k' l IH]; cbn [drop_cap]; [done|]. destruct (c_id k' =? id); [by right|]. intros [->|H]; [by left|right; by apply IH]. Qed.

Lemma drop_cap_pairs id l : ForallOrdPairs apart l -> ForallOrdPairs apart (drop_cap id l).
Proof.
  induction 1 as [|k l Hk Hl IH]; cbn [drop_cap]; [constructor|]. destruct (c_id k =? id); [done|]. constructor; [|done].
  rewrite Forall_forall in *. intros k' Hin%list_elem_of_In%drop_cap_in. by apply Hk, list_elem_of_In.
Qed.

Lemma apart_covers k k' a : apart k k' -> covers a k = true -> covers a k' = false.
Proof. rewrite covers_range, covers_false. unfold apart. lia. Qed.

Lemma drop_cap_covered id l k a : ForallOrdPairs apart l -> List.find (fun k => c_id k =? id) l = Some k -> covered (drop_cap id l) a = covered l a && negb (covers a k).
Proof.
  induction 1 as [|k' l Hk Hl IH]; cbn [List.find drop_cap]; [done|]. destruct (c_id k' =? id).
  - intros [= ->]. cbn [covered existsb]. fold (covered l a). destruct (covers a k) eqn:E; [|by rewrite andb_true_r].
    rewrite andb_false_r. apply not_true_iff_false. intros (k2 & Hin & H2)%existsb_exists. rewrite Forall_forall in Hk.
    rewrite (apart_covers k k2 a) in H2; [done|by apply Hk, list_elem_of_In|done].
  - intros E. cbn [covered existsb]. fold (covered l a) (covered (drop_cap id l) a). rewrite IH by done. destruct (covers a k') eqn:E'; [|done]. cbn [orb andb]. symmetry. apply negb_true_iff.
    apply (apart_covers k'); [|done]. rewrite Forall_forall in Hk. apply Hk, list_elem_of_In. by apply (find_some _ _ E).
Qed.

(** [a] is not in the header of a capability. *)
Definition away (a : Z) (l : list Cap) : Prop := forall k, In k l -> a <> c_off k /\ a <> c_off k + 1.

Lemma apart_away k l : cap_ok k -> Forall cap_ok l -> Forall (apart k) l -> away (c_off k) l /\ away (c_off k + 1) l.
Proof.
  rewrite !Forall_forall. intros [_ _ H1 _ _] Hl Ha. destruct (span_range _ H1) as (_ & S & _).
  assert (E : forall k', In k' l -> c_off k + 4 <= c_off k' \/ c_off k' + 4 <= c_off k); [|split; intros k' Hin; specialize (E k' Hin); lia].
  intros k' Hin. apply list_elem_of_In in Hin. destruct (Hl k' Hin) as [_ _ H2 _ _], (span_range _ H2) as (_ & S' & _). specialize (Ha k' Hin). unfold apart, c_span in Ha. lia.
Qed.

Lemma link_to_cases id l : forall a, link_to id a l = a \/ exists k, In k l /\ link_to id a l = c_off k + 1.
Proof.
  induction l as [|k l IH]; intros a; cbn [link_to]; [by left|]. destruct (c_id k =? id); [by left|]. right.
  destruct (IH (c_off k + 1)) as [E|(k' & Hin & E)]; [exists k; split; [by left|done]|exists k'; split; [by right|done]].
Qed.

(** Overwriting the link to a capability by its own link takes it out. *)
Lemma unlink_chain c id l : forall a k, bytes_ok c -> 0 <= a < 256 -> Forall cap_ok l -> ForallOrdPairs apart l -> away a l -> linked c a l ->
  List.find (fun k => c_id k =? id) l = Some k -> linked (set_byte c (link_to id a l) (byte_at c (c_off k + 1))) a (drop_cap id l).
Proof.
  induction l as [|k' l IH]; intros a k Hc Ha Hl Hp Haw; cbn [linked List.find link_to drop_cap]; [done|]. intros (E1 & E2 & E3).
  inversion Hl as [|?? Hk Hl']; inversion Hp as [|?? Hk' Hp']; subst. destruct (apart_away k' l Hk Hl' Hk') as [A1 A2].
  assert (Hb : forall p v b, 0 <= p < 256 -> 0 <= b -> byte_at (set_byte c p v) b = if b =? p then u8 v else byte_at c b) by (intros; apply byte_at_set; [destruct Hc as [-> _]; lia|done]).
  assert (Hoff : forall k, cap_ok k -> 0 <= c_off k <= 252) by (intros k0 [? ? B ? ?]; destruct (span_range _ B) as (_ & ? & _); unfold c_span in *; lia).
  destruct (c_id k' =? id) eqn:Eid.
  - intros [= ->]. apply (linked_ext c _ l (c_off k + 1)); [|intros k2 Hin|done].
    + rewrite Hb, Z.eqb_refl by lia. apply wrap_small. by apply byte_range.
    + destruct (Haw k2 (or_intror Hin)) as [N1 N2]. rewrite Forall_forall in Hl'. pose proof (Hoff k2 (Hl' k2 (proj2 (list_elem_of_In _ _) Hin))).
      rewrite !Hb by lia. by rewrite !(proj2 (Z.eqb_neq _ _)) by congruence.
  - intros Ef. pose proof (Hoff k' Hk). set (p := link_to id (c_off k' + 1) l).
    assert (Hp1 : 0 <= p < 256 /\ a <> p /\ c_off k' <> p).
    { destruct (link_to_cases id l (c_off k' + 1)) as [E|(k2 & Hin & E)]; fold p in E; rewrite E.
      - destruct (Haw k' (or_introl eq_refl)). lia.
      - destruct (Haw k2 (or_intror Hin)), (A1 k2 Hin). rewrite Forall_forall in Hl'. pose proof (Hoff k2 (Hl' k2 (proj2 (list_elem_of_In _ _) Hin))). lia. }
    cbn [linked]. rewrite !Hb by lia. rewrite !(proj2 (Z.eqb_neq _ _)) by apply Hp1. split_and!; [done|done|]. apply IH; done || lia.
Qed.

Lemma drop_cap_none id l : List.find (fun k => c_id k =? id) l = None -> drop_cap id l = l.
Proof. induction l as [|k l IH]; cbn [List.find drop_cap]; [done|]. destruct (c_id k =? id); [done|]. intros H. by rewrite IH. Qed.

Lemma caps_in d l k : caps_ok d l -> In k l -> cap_ok k /\ c_off k <= 252.
Proof.
  intros Hd Hin. assert (Hk : cap_ok k) by (pose proof (ck_caps _ _ Hd) as H; rewrite Forall_forall in H; by apply H, list_elem_of_In).
  split; [done|]. destruct Hk as [_ _ H1 H2 _], (span_range _ H1) as (_ & S & _). unfold c_span in H2. lia.
Qed.

(** Configuration space without the capability [k]. *)
Definition unlinked_config (c : list Z) (prev : Z) (k : Cap) : list Z :=
  let c := set_byte c prev (byte_at c (c_off k + PCI_CAP_LIST_NEXT)) in
  if byte_at c PCI_CAPABILITY_LIST =? 0 then set_byte c PCI_STATUS (Z.land (byte_at c PCI_STATUS) (Z.lnot PCI_STATUS_CAP_LIST)) else c.

Lemma unlinked_config_ok d l id k : caps_ok d l -> List.find (fun k => c_id k =? id) l = Some k ->
  let c := unlinked_config (config d) (link_to id PCI_CAPABILITY_LIST l) k in
  bytes_ok c /\ linked c PCI_CAPABILITY_LIST (drop_cap id l) /\ has_bit (byte_at c PCI_STATUS) PCI_STATUS_CAP_LIST = match drop_cap id l with [] => false | _ => true end.
Proof.
  intros Hd Hk c. pose proof (caps_in d l) as Hin. set (p := link_to id PCI_CAPABILITY_LIST l) in *.
  assert (Hp : 52 <= p < 256) by (destruct (link_to_cases id l PCI_CAPABILITY_LIST) as [E|(k' & Hi & E)]; fold p in E; rewrite E; [done|]; destruct (Hin k' Hd Hi) as [[] ?]; lia).
  assert (Haw : away PCI_CAPABILITY_LIST l) by (intros k' Hi; destruct (Hin k' Hd Hi) as [[] ?]; unfold PCI_CAPABILITY_LIST; lia).
  set (c1 := set_byte (config d) p (byte_at (config d) (c_off k + 1))). pose proof (ck_config _ _ Hd) as Hc. assert (Hc1 : bytes_ok c1) by (by apply bytes_ok_set).
  assert (L1 : linked c1 PCI_CAPABILITY_LIST (drop_cap id l)) by (apply unlink_chain; try apply Hd; done).
  assert (S1 : has_bit (byte_at c1 PCI_STATUS) PCI_STATUS_CAP_LIST = true).
  { unfold c1. rewrite byte_at_set by (rewrite ?(proj1 Hc); unfold PCI_STATUS; lia). rewrite (proj2 (Z.eqb_neq _ _)) by (unfold PCI_STATUS; lia). rewrite (ck_status _ _ Hd). by destruct l. }
  subst c. unfold unlinked_config. change (c_off k + PCI_CAP_LIST_NEXT) with (c_off k + 1). fold c1. clearbody c1. destruct (drop_cap id l) as [|k' l'] eqn:El.
  - cbn [linked] in L1. rewrite L1. cbn [Z.eqb]. split_and!; [by apply bytes_ok_set| |].
    + cbn [linked]. rewrite byte_at_set by (rewrite ?(proj1 Hc1); done). done.
    + rewrite has_cap_bit, byte_at_set, Z.eqb_refl by (rewrite ?(proj1 Hc1); done). rewrite u8_bit, Z.land_spec by lia. apply andb_false_r.
  - assert (Hh : byte_at c1 PCI_CAPABILITY_LIST = c_off k') by (by destruct L1). destruct (Hin k' Hd) as [[] _]; [apply (drop_cap_in id); rewrite El; by left|].
    rewrite Hh, (proj2 (Z.eqb_neq _ _)) by lia. done.
Qed.

Lemma pci_del_capability_ok d l id size : caps_ok d l -> op_ok l (DelCap id size) ->
  exists d', pci_del_capability cap_fuel d id size = Ok d' /\ caps_ok d' (drop_cap id l).
Proof.
  intros Hd Ho. destruct (find_capability_list_ok d l Hd id) as (prev & E & Hprev). unfold pci_del_capability. rewrite E. cbn [mbind outcome_bind]. unfold find_cap.
  cbn [op_ok] in Ho. destruct (List.find (fun k => c_id k =? id) l) as [k|] eqn:Ek; [|exists d; split; [done|by rewrite drop_cap_none]].
  specialize (Ho k eq_refl) as <-. destruct (find_some _ _ Ek) as [Hin _]. rewrite Hprev by (by intros ->). destruct (caps_in d l k Hd Hin) as [[K1 K2 K3 K4 K5] K6].
  destruct (span_range _ K3) as (S1 & S2 & _). destruct (in_block (c_off k) (c_size k) K1 K2 K3) as [B1 B2]; [unfold c_span in *; lia|].
  rewrite (proj2 (Z.eqb_neq _ _)), B2 by lia. cbn [c_assert mbind outcome_bind]. eexists. split; [done|].
  fold (unlinked_config (config d) (link_to id PCI_CAPABILITY_LIST l) k). destruct (unlinked_config_ok d l id k Hd Ek) as (C1 & C2 & C3).
  set (c := unlinked_config _ _ _) in *. clearbody c. destruct Hd as [H1 H2 H3 H4 H5 H6 H7 H8 H9 H10 H11]. pose proof (mk_wmask _ H3) as Hw. pose proof (mk_w1cmask _ H3) as Hw1.
  split; cbn [config used wmask w1cmask put_masks put_config]; try done.
  - by apply bytes_ok_fill.
  - apply (masks_ok_fill d 0xff); [done|done|lia].
  - rewrite Forall_forall in *. intros k' Hk'%list_elem_of_In%drop_cap_in. by apply H4, list_elem_of_In.
  - by apply drop_cap_pairs.
  - intros a Ha. rewrite (drop_cap_covered id l k a H5 Ek), andb_false_iff, negb_false_iff, covers_range. unfold c_span in *.
    destruct (Z_le_dec (c_off k) a), (Z_lt_dec a (c_off k + QEMU_ALIGN_UP (c_size k) 4)).
    1: rewrite byte_at_fill_in by (done || lia); split; [by right|done].
    all: rewrite byte_at_fill_out by (done || lia); rewrite H7 by done; intuition lia.
  - intros a Ha. rewrite byte_at_fill by (done || lia || (unfold PCI_CAPABILITY_LIST in *; lia)). destruct (_ && _); [done|by apply H9].
  - unfold PCI_CAPABILITY_LIST in *. by rewrite byte_at_fill_out by (done || lia).
  - intros k' Hk'. assert (Hin' := drop_cap_in _ _ _ Hk'). destruct (H11 k' Hin') as [W1 W2]. rewrite Forall_forall in H4. assert (K' := H4 k' (proj2 (list_elem_of_In _ _) Hin')).
    destruct (header_covered k' _ K' Hk') as [D1 D2]. rewrite (drop_cap_covered id l k) in D1, D2 by done.
    apply andb_true_iff in D1 as [_ D1%negb_true_iff%covers_false], D2 as [_ D2%negb_true_iff%covers_false]. unfold c_span in *.
    rewrite !byte_at_fill_out by (done || lia || (destruct K'; lia)). done.
Qed.

(** ** The operations *)
Lemma write_bytes_caps d l addr len val : caps_ok d l -> 0 <= addr -> addr + Z.of_nat len <= 256 -> exists d', write_bytes len d addr val = Ok d' /\ caps_ok d' l.
Proof.
  intros Hd Ha Hn. pose proof (caps_in d l) as Hin. destruct Hd as [H1 H2 H3 H4 H5 H6 H7 H8 H9 H10 H11] eqn:Ed. destruct (write_bytes_ok len d addr val H1 H3 Ha Hn) as (c & E & Hc & Hb).
  assert (Hro : forall a, 0 <= a -> byte_at (wmask d) a = 0 -> byte_at (w1cmask d) a = 0 -> byte_at c a = byte_at (config d) a) by (intros a A0 A1 A2; rewrite Hb by done; by apply written_ro).
  exists (put_config c d). split; [done|]. split; try done.
  - by destruct H3.
  - apply (linked_ext (config d) c l PCI_CAPABILITY_LIST); [by apply Hro; [done..|apply H9]| |done].
    intros k Hk. destruct (H11 k Hk) as [W1 W2], (Hin k Hd Hk) as [[K _ _ _ _] K']. unfold PCI_CAPABILITY_LIST in H9. split; apply Hro; try done; try lia; apply H9; lia.
  - cbn [config put_config]. destruct (mk_status _ H3). rewrite Hro; done.
Qed.

#[local] Opaque pci_find_space first_fit.

Lemma pci_add_capability_ok d l id offset size : caps_ok d l -> op_ok l (AddCap id offset size) -> exists d',
  pci_add_capability cap_fuel d id offset size = Ok (d', (spec_step l (AddCap id offset size)).2) /\ caps_ok d' (spec_step l (AddCap id offset size)).1.
Proof.
  intros Hd (Hid & Hs & Ho). unfold pci_add_capability. cbn [spec_step]. destruct (Z.eqb_spec offset 0) as [->|Hne].
  - destruct (pci_find_space_ok d l Hd size ltac:(lia)) as [E H]. rewrite E. destruct (Z.eqb_spec (pci_find_space d size) 0) as [E0|E0]; [by exists d|].
    destruct (H E0) as (F1 & F2 & F3). clear H E. apply andb_true_iff in F3 as [F3%Z.leb_le F4]. unfold PCI_CONFIG_SPACE_SIZE in F3.
    generalize dependent (pci_find_space d size). intros r _ F1 F2 F3 F4. destruct (link_capability_ok d l id r size) as (d' & -> & Hd'); try done; [lia|]. by exists d'.
  - destruct Ho as [|(O1 & O2 & O3)]; [done|]. rewrite (overlaps_cap_ok d l Hd) by lia. cbn [mbind outcome_bind]. destruct (free l offset (Z.to_nat size)) eqn:Ef; cbn [negb]; [|by exists d].
    destruct (link_capability_ok d l id offset size) as (d' & -> & Hd'); try done; [lia|]. by exists d'.
Qed.

Lemma cap_step_ok d l o : caps_ok d l -> op_ok l o -> exists d', cap_step d o = Ok (d', (spec_step l o).2) /\ caps_ok d' (spec_step l o).1.
Proof.
  intros Hd Ho. destruct o as [id offset size|id size|id|addr len val]; cbn [cap_step spec_step fst snd].
  - by apply pci_add_capability_ok.
  - destruct (pci_del_capability_ok d l id size Hd Ho) as (d' & -> & Hd'). by exists d'.
  - destruct (find_capability_list_ok d l Hd id) as (prev & E & _). exists d. unfold pci_find_capability. by rewrite E.
  - destruct Ho as [H1 H2]. destruct (write_bytes_caps d l addr len val Hd H1 H2) as (d' & -> & Hd'). by exists d'.
Qed.
#[local] Transparent pci_find_space first_fit.

(** A new device has no capability. *)
Lemma new_device_caps b fn pc serr multi d : is_bridge pc = false -> new_device b fn pc serr multi = Ok d -> caps_ok d [].
Proof.
  intros Hb E. destruct (new_device_ok _ _ _ _ _ _ E) as ([[Dt _] _ _] & _ & _ & _ & _ & [Hc Hz] & _).
  unfold new_device in E. rewrite Hb in E. cbn [negb orb c_assert mbind outcome_bind] in E. injection E as <-. destruct Dt as [D1 D2 _ _ _].
  assert (Hw1 : forall a, PCI_CAPABILITY_LIST <= a < 256 -> byte_at (w1cmask (plain_device b fn pc serr multi)) a = 0).
  { intros a Ha. change (w1cmask _) with (pci_init_w1cmask (replicate 256 0)). unfold pci_init_w1cmask, pci_set_word, PCI_CAPABILITY_LIST in *.
    rewrite byte_at_set_le_other by (apply bytes_ok_zero || (unfold PCI_STATUS; lia)). apply byte_at_zeros. }
  split; try done.
  - apply bytes_ok_zero.
  - constructor.
  - change (byte_at (new_config pc) PCI_CAPABILITY_LIST = 0). unfold new_config. rewrite Hb. vm_compute. reflexivity.
  - intros a _. split; [done|]. intros _. apply byte_at_zeros.
  - rewrite Hz by done. done.
  - destruct serr; vm_compute; reflexivity.
Qed.

(** C16 (refinement): any sequence of capability operations and guest writes to
    configuration space runs to the end, returns what the list of capabilities
    says and leaves configuration space representing the new list: a capability
    added at offset zero gets the lowest aligned room left or [-ENOSPC], one added
    at a given offset is refused exactly if it overlaps another, finding returns
    the newest with the id or zero, deleting takes it out of the chain, and no
    guest write changes the chain. *)
Theorem capabilities_refine os : forall d l, caps_ok d l -> ops_ok l os ->
  exists d', cap_steps d os = Ok (d', (spec_steps l os).2) /\ caps_ok d' (spec_steps l os).1.
Proof.
  induction os as [|o os IH]; intros d l Hd Ho; cbn [cap_steps spec_steps ops_ok] in *; [by exists d|]. destruct Ho as [Ho Hos].
  destruct (cap_step_ok d l o Hd Ho) as (d1 & -> & H1). destruct (spec_step l o) as [l1 r]. cbn [fst snd mbind outcome_bind] in *.
  destruct (IH d1 l1 H1 Hos) as (d2 & -> & H2). exists d2. by destruct (spec_steps l1 os).
Qed.

(** Two capabilities, a guest write over the first, a third that overlaps, the
    deletion of the first, and another in its place. *)
Definition plain_class : PCIDeviceClass :=
  {| vendor_id := 0x10de; device_id := 0x1b4; revision := 0; class_id := 0xc05; subsystem_vendor_id := 0; subsystem_id := 0; is_bridge := false |}.
Definition cap_history : list CapOp :=
  [AddCap 1 0 8; AddCap 5 0x50 14; ConfigWrite 0x40 4 0xffffffff; AddCap 9 0x5c 4; DelCap 1 8; FindCap 1; FindCap 5; AddCap 7 0 10].

Lemma capabilities_refine_witness : exists d, cap_steps (plain_device 0 8 plain_class false false) cap_history = Ok (d, [0x40; 0x50; 0; - EINVAL; 0; 0; 0x50; 0x40]) /\
  caps_ok d [{| c_off := 0x40; c_id := 7; c_size := 10 |}; {| c_off := 0x50; c_id := 5; c_size := 14 |}].
Proof.
  assert (E1 : (spec_steps [] cap_history).1 = [{| c_off := 0x40; c_id := 7; c_size := 10 |}; {| c_off := 0x50; c_id := 5; c_size := 14 |}]) by (vm_compute; reflexivity).
  assert (E2 : (spec_steps [] cap_history).2 = [0x40; 0x50; 0; - EINVAL; 0; 0; 0x50; 0x40]) by (vm_compute; reflexivity).
  rewrite <- E1, <- E2. apply (capabilities_refine cap_history (plain_device 0 8 plain_class false false) []).
  - by apply (new_device_caps 0 8 plain_class false false).
  - vm_compute. repeat (split; [repeat split; try done; try (by left); try (right; repeat split; done)|]); try done. by intros k [= <-].
Defined.

(** The offset the overlap test gets wraps at 256: a capability that ends past the
    arrays passes the test. *)
Lemma add_capability_past_end : pci_add_capability cap_fuel (plain_device 0 8 plain_class false false) 1 0xf8 16 = Abort.
Proof. vm_compute. reflexivity. Qed.
