(* ===== verification/PciConfig.v ===== *)
(** * Configuration space as a guest sees it

    Reads after writes through the configuration ports of the host bridge, and
    how firmware sizes and maps a base address register. *)
From S2P Require Import Prelude Pci PciFacts.

(** ** Fields of several bytes *)
Lemma written_field n d addr val c : bytes_ok (config d) -> masks_ok d -> bytes_ok c -> 0 <= addr -> addr + Z.of_nat n <= 256 ->
  (forall a, 0 <= a -> byte_at c a = written d addr n val a) ->
  get_le n c addr = write_byte (get_le n (config d) addr) (get_le n (wmask d) addr) (get_le n (w1cmask d) addr) val.
Proof.
  intros Hc Hm Hc' Ha Hn Hb. apply Z.bits_inj'. intros j Hj. rewrite write_byte_bit by done. destruct (Z.lt_ge_cases j (8 * Z.of_nat n)) as [Hlt|Hge].
  - pose proof (Z.div_mod j 8 ltac:(lia)) as E. pose proof (Z.mod_pos_bound j 8 ltac:(lia)) as Hr. set (k := j / 8) in *. set (i := j mod 8) in *. rewrite E.
    rewrite !get_le_bit by (apply Hm || done || lia). rewrite Hb by lia. unfold written. rewrite (proj2 (Z.leb_le _ _)), (proj2 (Z.ltb_lt _ _)) by lia. cbn [andb].
    rewrite u8_bit, write_byte_bit, Z.shiftr_spec by lia. by replace (i + 8 * (addr + k - addr)) with (8 * k + i) by lia.
  - assert (H : forall l, bytes_ok l -> Z.testbit (get_le n l addr) j = false) by (intros l Hl; apply (testbit_high _ (8 * Z.of_nat n)); [by apply get_le_range|lia]).
    by rewrite !H by (apply Hm || done).
Qed.

Lemma pci_default_read_config_ok d a n : a + Z.of_nat n <= 256 -> pci_default_read_config d a n = Ok (get_le n (config d) a).
Proof. intros H. unfold pci_default_read_config, PCI_CONFIG_SPACE_SIZE. by rewrite (proj2 (Z.leb_le _ _)). Qed.

(** What a device holds in the field at [addr] after a write of [val]. *)
Definition field_after (d : PCIDevice) (addr val : Z) (n : nat) : Z := write_byte (get_le n (config d) addr) (get_le n (wmask d) addr) (get_le n (w1cmask d) addr) val.

Lemma write_config_field p d dev addr val n : pci_ok p -> devs p !! d = Some dev -> wired p d \/ leaves_intx addr val n -> 0 <= addr -> addr <> 5 -> addr + Z.of_nat n <= 256 ->
  exists p' dev', pci_default_write_config p d addr val n = Ok p' /\ pci_ok p' /\ same_topology p p' /\ (forall d', d' <> d -> devs p' !! d' = devs p !! d') /\
    devs p' !! d = Some dev' /\ same_frame dev dev' /\ get_le n (config dev') addr = field_after dev addr val n /\
    forall a, 0 <= a -> ~ (addr <= a < addr + Z.of_nat n) -> byte_at (config dev') a = byte_at (config dev) a.
Proof.
  intros Hok Hd Hw Ha H5 Hn. destruct (pci_default_write_config_ok p d addr val n) as (p' & E & Hok' & [T O (dev0 & dev' & E0 & E1 & F & _ & B)]); try done; [by eapply lookup_lt_Some|].
  assert (dev0 = dev) as -> by congruence. exists p', dev'. destruct (po_devs _ Hok _ _ Hd) as [Ht _]. destruct (po_devs _ Hok' _ _ E1) as [Ht' _]. split_and!; try done.
  - by apply written_field; [apply Ht|apply Ht|apply Ht'|..].
  - intros a Ha' Hout. rewrite B by done. by apply written_outside.
Qed.

(** ** The configuration ports *)
Definition config_address (fn reg : Z) : Z := 0x80000000 + fn * 256 + reg.

Lemma config_address_parts fn reg o : 0 <= fn < 256 -> 0 <= reg < 256 -> reg mod 4 = 0 -> 0 <= o < 4 ->
  let a := Z.lor (config_address fn reg) (Z.land o 3) in u8 (Z.shiftr a 16) = 0 /\ u8 (Z.shiftr a 8) = fn /\ Z.land a 0xff = reg + o.
Proof.
  intros Hf Hr H4 Ho. assert (E : Z.lor (config_address fn reg) (Z.land o 3) = 0x80000000 + fn * 256 + (reg + o)).
  { change 3 with (Z.ones 2). rewrite Z.land_ones by lia. change (2 ^ 2) with 4. rewrite Z.mod_small by lia. rewrite Z.lor_comm. pose proof (lor_shiftl_add o (config_address fn reg / 4) 2 ltac:(lia) ltac:(lia)) as E.
    rewrite Z.shiftl_mul_pow2 in E by lia. change (2 ^ 2) with 4 in E. replace (config_address fn reg / 4 * 4) with (config_address fn reg) in E; [unfold config_address in *; lia|].
    unfold config_address. zdiv. }
  cbn zeta. rewrite E. assert (reg + o < 256) by zdiv. rewrite !Z.shiftr_div_pow2 by lia. change 0xff with (Z.ones 8). rewrite Z.land_ones by lia. unfold wrap. split_and!.
  - change (2 ^ 16) with 65536. change (2 ^ 8) with 256. replace (_ / 65536) with 0x8000 by zdiv. done.
  - change (2 ^ 8) with 256. replace (_ / 256) with (0x800000 + fn) by zdiv. zdiv.
  - change (2 ^ 8) with 256. zdiv.
Qed.

Lemma find_device_root p fn d dev bus : slots_ok p -> buses p !! 0%nat = Some bus -> parent_dev bus = None -> devs p !! d = Some dev -> pd_bus dev = 0%nat -> devfn dev = fn ->
  pci_find_device p 0 fn = Ok (Some d).
Proof.
  intros Hs Hb Hp Hd E1 E2. unfold pci_find_device, pci_find_bus_nr, pci_bus_num, bus_at. rewrite Hb. cbn [got mbind outcome_bind]. rewrite Hp. cbn [mbind outcome_bind Z.eqb].
  by rewrite (device_in_slot_some p 0 fn d dev).
Qed.

Lemma slots_ok_same p p' : same_topology p p' -> slots_ok p -> slots_ok p'.
Proof.
  intros T Hs d1 d2 x1 x2 H1 H2 E1 E2. pose proof (dev_place_same p p' T d1) as X1. pose proof (dev_place_same p p' T d2) as X2. rewrite H1 in X1. rewrite H2 in X2.
  destruct (devs p !! d1) as [y1|] eqn:Y1, (devs p !! d2) as [y2|] eqn:Y2; try done. injection X1 as A1 A2. injection X2 as B1 B2. apply (Hs d1 d2 y1 y2); congruence.
Qed.

(** What [config_write] promises to the ports, whichever handler a device has.  The
    device ends up with what its masks make of the value.  Its other bytes and the
    other devices of its bus keep their contents, as do all other devices if it
    is not a bridge. *)
Class ConfigHandlers (S : Type) `{ConfigSpace S} := {
  space_ok : S -> Prop;
  space_pci x : space_ok x -> pci_ok (pci_of x) /\ slots_ok (pci_of x);
  space_write x d dev addr val n : space_ok x -> devs (pci_of x) !! d = Some dev -> wired (pci_of x) d \/ leaves_intx addr val n ->
    0 <= addr -> addr <> 5 -> addr + Z.of_nat n <= 256 ->
    exists x' dev', config_write x d addr val n = Ok x' /\ space_ok x' /\ same_topology (pci_of x) (pci_of x') /\
      devs (pci_of x') !! d = Some dev' /\ same_frame dev dev' /\ get_le n (config dev') addr = field_after dev addr val n /\
      (forall a, 0 <= a -> ~ (addr <= a < addr + Z.of_nat n) -> byte_at (config dev') a = byte_at (config dev) a) /\
      forall d' x0, d' <> d -> devs (pci_of x) !! d' = Some x0 -> pd_bus x0 = pd_bus dev \/ sec_buses (pci_of x) d = [] ->
        devs (pci_of x') !! d' = Some x0
}.

#[export] Program Instance plain_handlers : ConfigHandlers PCI := {| space_ok p := pci_ok p /\ slots_ok p |}.
Next Obligation. done. Qed.
Next Obligation.
  intros p d dev addr val n [Hok Hs] Hd Hw Ha H5 Hn. destruct (write_config_field p d dev addr val n) as (p' & dev' & E & Hok' & T & Hoth & Hd' & Hfr & Hf & Hout); try done.
  exists p', dev'. split_and!; try done; [by apply (slots_ok_same p)|]. intros d' x0 Hne H0 _. cbn. by rewrite Hoth.
Qed.

Lemma config_address_enabled fn reg : 0 <= fn < 256 -> 0 <= reg < 256 -> has_bit (config_address fn reg) (Z.shiftl 1 31) = true /\ u32 (config_address fn reg) = config_address fn reg.
Proof.
  intros Hf Hr. split; [|apply wrap_small; unfold config_address; lia].
  unfold has_bit. apply negb_true_iff, Z.eqb_neq. intros C. apply (f_equal (fun x => Z.testbit x 31)) in C. rewrite Z.land_spec in C. change (Z.testbit (Z.shiftl 1 31) 31) with true in C.
  rewrite andb_true_r, Z.bits_0 in C. rewrite (proj2 (Z.testbit_true _ 31 ltac:(lia))) in C; [done|]. unfold config_address. change (2 ^ 31) with 0x80000000.
  replace ((_ + _ + _) / 0x80000000) with 1 by zdiv. done.
Qed.

Section Ports.
Context {S : Type} `{ConfigHandlers S}.

(** The data port reaches the device of the root bus that the address names. *)
Lemma data_write_root (x : S) fn reg o n val d dev bus : slots_ok (pci_of x) -> buses (pci_of x) !! 0%nat = Some bus -> parent_dev bus = None ->
  devs (pci_of x) !! d = Some dev -> pd_bus dev = 0%nat -> devfn dev = fn -> 0 <= fn < 256 -> 0 <= reg < 256 -> reg mod 4 = 0 -> 0 <= o < 4 -> o + Z.of_nat n <= 4 ->
  pci_data_write x (Z.lor (config_address fn reg) (Z.land o 3)) val n = config_write x d (reg + o) val n /\
  pci_data_read x (Z.lor (config_address fn reg) (Z.land o 3)) n = Ok (get_le n (config dev) (reg + o)).
Proof.
  intros Hs Hb Hp Hd Hbus Hfn Hf Hr H4 Ho Hn. destruct (config_address_parts fn reg o Hf Hr H4 Ho) as (A1 & A2 & A3).
  unfold pci_data_write, pci_data_read, pci_dev_find_by_addr, dev_at. rewrite A1, A2, (find_device_root _ fn d dev bus) by done. cbn [mbind outcome_bind].
  change (PCI_CONFIG_SPACE_SIZE - 1) with 0xff. rewrite A3, Hd. rewrite (proj2 (Nat.leb_le n 4)) by lia. cbn [c_assert got mbind outcome_bind]. unfold PCI_CONFIG_SPACE_SIZE.
  rewrite Nat.min_l by zdiv. split; [done|]. apply pci_default_read_config_ok. zdiv.
Qed.

(** C15 (roundtrip): firmware selects a register of a device of the root bus
    through the address port, writes a field of one to four bytes through the data
    port and reads it back.  It gets what the device's masks make of the value:
    writable bits as written, write-one-to-clear bits cleared where a one was
    written, all other bits as before.  The other bytes of the device and the
    other devices of the root bus keep their contents, and so do the devices behind
    a bridge unless it is the bridge that was written to, which may reset them.
    Excluded are the writes [pci_event_ok] excludes: those that start at the high
    byte of the command register, and those that disable the interrupts of a device
    without an interrupt line. *)
Theorem config_ports_write_read (h : PCIHostState S) fn reg o n val d dev bus : space_ok (host_space h) ->
  buses (pci_of (host_space h)) !! 0%nat = Some bus -> parent_dev bus = None -> devs (pci_of (host_space h)) !! d = Some dev -> pd_bus dev = 0%nat -> devfn dev = fn ->
  0 <= fn < 256 -> 0 <= reg < 256 -> reg mod 4 = 0 -> 0 <= o < 4 -> o + Z.of_nat n <= 4 -> reg + o <> 5 -> wired (pci_of (host_space h)) d \/ leaves_intx (reg + o) val n ->
  exists h' dev', pci_host_data_write (pci_host_config_write h 0 (config_address fn reg) 4) o val n = Ok h' /\ space_ok (host_space h') /\
    pci_host_data_read h' o n = Ok (field_after dev (reg + o) val n) /\
    devs (pci_of (host_space h')) !! d = Some dev' /\ (forall a, 0 <= a -> ~ (reg + o <= a < reg + o + Z.of_nat n) -> byte_at (config dev') a = byte_at (config dev) a) /\
    forall d' x0, d' <> d -> devs (pci_of (host_space h)) !! d' = Some x0 -> pd_bus x0 = 0%nat \/ sec_buses (pci_of (host_space h)) d = [] ->
      devs (pci_of (host_space h')) !! d' = Some x0.
Proof.
  intros Hok Hb Hp Hd Hbus Hfn Hf Hr H4 Ho Hn H5 Hw. destruct (space_pci _ Hok) as [Hpok Hs]. destruct (config_address_enabled fn reg Hf Hr) as [E31 Ec].
  unfold pci_host_config_write. cbn [Z.eqb negb orb Nat.eqb]. rewrite Ec. unfold pci_host_data_write. cbn [config_reg host_space]. rewrite E31.
  destruct (data_write_root (host_space h) fn reg o n val d dev bus) as [-> _]; try done.
  destruct (space_write (host_space h) d dev (reg + o) val n) as (x' & dev' & -> & Hok' & T & Hd' & Hfr & Hfield & Hout & Hoth); try done; [lia|zdiv|]. cbn [mbind outcome_bind].
  exists {| host_space := x'; config_reg := config_address fn reg |}, dev'. cbn [host_space]. split_and!; try done; [|intros d' x0 Hne Hx0 Hc; apply (Hoth d' x0); try done; by rewrite Hbus].
  unfold pci_host_data_read. cbn [config_reg host_space]. rewrite E31. cbn [negb]. destruct (space_pci _ Hok') as [_ Hs'].
  pose proof (st_bus _ _ T 0%nat) as X. rewrite Hb in X. destruct (buses (pci_of x') !! 0%nat) as [bus'|] eqn:Eb; cbn in X; [|done]. injection X as X1 _ _ _. destruct Hfr as (F1 & F2 & _).
  destruct (data_write_root x' fn reg o n val d dev' bus') as [_ ->]; try done; try congruence.
Qed.
End Ports.

(** ** Reading back *)
Lemma get_le_set_le n l a v : bytes_ok l -> 0 <= a -> a + Z.of_nat n <= 256 -> get_le n (set_le n l a v) a = v mod 2 ^ (8 * Z.of_nat n).
Proof.
  intros Hl Ha Hn. apply Z.bits_inj'. intros j Hj. destruct (Z.lt_ge_cases j (8 * Z.of_nat n)) as [Hlt|Hge].
  - rewrite Z.mod_pow2_bits_low by lia. pose proof (Z.div_mod j 8 ltac:(lia)) as E. pose proof (Z.mod_pos_bound j 8 ltac:(lia)) as Hr. set (k := j / 8) in *. set (i := j mod 8) in *. rewrite E.
    rewrite get_le_bit by (by apply bytes_ok_set_le || lia). rewrite byte_at_set_le by (done || lia). rewrite (proj2 (Z.leb_le _ _)), (proj2 (Z.ltb_lt _ _)) by lia. cbn [andb].
    rewrite u8_bit, Z.shiftr_spec by lia. f_equal. lia.
  - rewrite Z.mod_pow2_bits_high by lia. apply (testbit_high _ (8 * Z.of_nat n)); [|lia]. apply get_le_range. by apply bytes_ok_set_le.
Qed.

(** ** Base address registers *)

(** A 32-bit register for [2 ^ k] bytes, as [pci_register_bar] sets it up. *)
Record bar32 (d : PCIDevice) (n k : Z) (r : PCIIORegion) : Prop := {
  b32_num : 0 <= n < 6;
  b32_size : 2 <= k <= 31;
  b32_region : io_regions d !! Z.to_nat n = Some r;
  b32_rsize : r_size r = 2 ^ k;
  b32_type : 0 <= r_type r < 2 ^ k;
  b32_low : has_bit (r_type r) PCI_BASE_ADDRESS_SPACE_IO = true \/ has_bit (r_type r) PCI_BASE_ADDRESS_MEM_TYPE_64 = false;
  b32_wmask : pci_get_long (wmask d) (pci_bar d n) = 2 ^ 32 - 2 ^ k;
  b32_w1cmask : pci_get_long (w1cmask d) (pci_bar d n) = 0;
  b32_config : Z.land (pci_get_long (config d) (pci_bar d n)) (Z.ones k) = r_type r
}.

Lemma bar32_addr d n k r : bar32 d n k r -> pci_bar d n = 0x10 + n * 4.
Proof. intros B. pose proof (b32_num _ _ _ _ B). apply (pci_bar_range d n); lia. Qed.

Lemma size_mask_bit k j : 0 <= k <= 32 -> 0 <= j < 32 -> Z.testbit (2 ^ 32 - 2 ^ k) j = (k <=? j).
Proof.
  intros Hk Hj. replace (2 ^ 32 - 2 ^ k) with (Z.shiftl (Z.ones (32 - k)) k).
  - rewrite Z.shiftl_spec by lia. destruct (Z.leb_spec k j); [rewrite Z.ones_spec_low by lia; done|rewrite Z.testbit_neg_r by lia; done].
  - rewrite Z.ones_equiv, Z.shiftl_mul_pow2, <- Z.sub_1_r, Z.mul_sub_distr_r, <- Z.pow_add_r by lia. replace (32 - k + k) with 32 by lia. lia.
Qed.

Lemma bar_field d n k r val : dev_typed d -> bar32 d n k r -> field_after d (pci_bar d n) val 4 = Z.land (u32 val) (2 ^ 32 - 2 ^ k) + r_type r.
Proof.
  intros Ht B. pose proof B as [B1 B2 B3 B4 B5 B6 B7 B8 B9]. unfold field_after. fold pci_get_long. rewrite B7, B8. set (c := pci_get_long (config d) (pci_bar d n)) in *.
  assert (Hc : 0 <= c < 2 ^ 32) by (apply (get_le_range 4); apply Ht). assert (Hk : 0 <= k <= 32) by lia.
  assert (Hdis : Z.land (Z.land (u32 val) (2 ^ 32 - 2 ^ k)) (r_type r) = 0).
  { apply Z.bits_inj'. intros j Hj. rewrite !Z.land_spec, Z.bits_0, <- B9, Z.land_spec, Z.testbit_ones by lia. destruct (Z.lt_ge_cases j 32).
    - rewrite size_mask_bit by lia. rewrite (proj2 (Z.leb_le 0 j)) by lia. destruct (Z.leb_spec k j), (Z.ltb_spec j k); try lia; cbn; by rewrite ?andb_false_r.
    - rewrite (testbit_high c 32) by lia. by rewrite !andb_false_r. }
  rewrite Z.add_nocarry_lxor, Z.lxor_lor by done. apply Z.bits_inj'. intros j Hj.
  rewrite write_byte_bit, Z.bits_0, andb_false_r, andb_true_r, Z.lor_spec, Z.land_spec by done. rewrite <- B9, Z.land_spec, Z.testbit_ones by lia. destruct (Z.lt_ge_cases j 32).
  - unfold wrap. rewrite Z.mod_pow2_bits_low by lia. rewrite size_mask_bit by lia. rewrite (proj2 (Z.leb_le 0 j)) by lia. cbn [andb].
    destruct (Z.leb_spec k j), (Z.ltb_spec j k); try lia; by rewrite ?andb_true_r, ?andb_false_r, ?orb_false_r.
  - assert (Hm : Z.testbit (2 ^ 32 - 2 ^ k) j = false).
    { apply (testbit_high _ 32); [|lia]. pose proof (Z.pow_le_mono_r 2 k 32). pose proof (Z.pow_pos_nonneg 2 k). lia. }
    rewrite Hm, (testbit_high c 32) by lia. by rewrite andb_false_r.
Qed.

Lemma bar32_keep d d' n k r : bar32 d n k r -> same_frame d d' -> Z.land (pci_get_long (config d') (pci_bar d n)) (Z.ones k) = r_type r ->
  exists r', bar32 d' n k r' /\ r_type r' = r_type r /\ r_size r' = r_size r.
Proof.
  intros B (_ & _ & _ & F1 & F2 & _ & F3) Hc. pose proof B as [B1 B2 B3 B4 B5 B6 B7 B8 B9]. apply (f_equal (.!! Z.to_nat n)) in F3. rewrite !list_lookup_fmap, B3 in F3.
  destruct (io_regions d' !! Z.to_nat n) as [r'|] eqn:E; cbn in F3; [|done]. injection F3 as F3 F4. exists r'.
  assert (Eb : pci_bar d' n = pci_bar d n) by (rewrite (proj1 (pci_bar_range d' n ltac:(lia))), (proj1 (pci_bar_range d n ltac:(lia))) by lia; done).
  split; [|done]. split; rewrite ?Eb, ?F1, ?F2, ?F4; try done. congruence.
Qed.

Lemma aligned_base base type k : 0 <= k -> base mod 2 ^ k = 0 -> 0 <= type < 2 ^ k -> Z.land (base + type) (Z.lnot (2 ^ k - 1)) = base.
Proof.
  intros Hk Hm Ht. rewrite Z.sub_1_r, <- Z.ones_equiv. rewrite <- Z.ldiff_land, Z.ldiff_ones_r, Z.shiftr_div_pow2, Z.shiftl_mul_pow2 by lia.
  pose proof (Z.div_mod base (2 ^ k) ltac:(lia)) as E. rewrite Hm, Z.add_0_r in E. replace ((base + type) / 2 ^ k) with (base / 2 ^ k); [lia|].
  rewrite E at 2. rewrite (Z.mul_comm (2 ^ k)), Z.div_add_l, (Z.div_small type) by lia. lia.
Qed.

(** An enabled register that holds an aligned address maps its region there. *)
Lemma bar32_maps d n k r base : dev_typed d -> maps_sync d -> bar32 d n k r -> pci_get_long (config d) (pci_bar d n) = base + r_type r ->
  Z.land (byte_at (config d) PCI_COMMAND) 3 = 3 -> 0 < base -> base mod 2 ^ k = 0 -> base + 2 ^ k <= 0xffffffff -> r_mapped r = Some base.
Proof.
  intros Ht Hs B Hl Hcmd Hb Hm Hlast. pose proof B as [B1 B2 B3 B4 B5 B6 B7 B8 B9]. assert (Hk : 4 <= 2 ^ k) by (apply (Z.pow_le_mono_r 2 2 k); lia).
  destruct (Hs (Z.to_nat n) r B3 ltac:(lia)) as [Ha Hma]. rewrite Z2Nat.id in Ha by lia.
  assert (E : pci_bar_address d n (r_type r) (r_size r) = base); [|rewrite Hma, Ha, E; unfold PCI_BAR_UNMAPPED; by rewrite (proj2 (Z.eqb_neq _ _)) by lia].
  unfold pci_bar_address. rewrite Hl, B4, aligned_base by (done || lia). unfold PCI_COMMAND_IO, PCI_COMMAND_MEMORY, PCI_ROM_SLOT, PCI_BAR_UNMAPPED, HWADDR_MAX. rewrite !has_bit_low by (apply Ht || lia).
  assert (Hbit : forall m, Z.land 3 m <> 0 -> has_bit (byte_at (config d) PCI_COMMAND) m = true).
  { intros m Hm3. unfold has_bit. apply negb_true_iff, Z.eqb_neq. intros C. apply Hm3. rewrite <- Hcmd, (Z.land_comm _ 3), <- Z.land_assoc, C. apply Z.land_0_r. }
  rewrite !Hbit by done. cbn [negb]. rewrite (proj2 (Z.eqb_neq n 6)) by lia. cbn [andb]. rewrite (wrap_small 64) by lia.
  assert (E1 : (base + 2 ^ k - 1 <=? base) = false) by lia. assert (E2 : (base =? 0) = false) by lia. assert (E3 : (0xffffffff <=? base + 2 ^ k - 1) = false) by lia.
  assert (E4 : (base + 2 ^ k - 1 =? 2 ^ 64 - 1) = false) by lia. assert (E5 : (2 ^ 64 - 1 <=? base + 2 ^ k - 1) = false) by lia.
  destruct (has_bit (r_type r) PCI_BASE_ADDRESS_SPACE_IO); [by rewrite E1, E2, E3|]. destruct B6 as [|B6]; [done|]. rewrite B6.
  rewrite aligned_base by (done || lia). rewrite (wrap_small 64) by lia. by rewrite E1, E2, E3, E4, E5.
Qed.

Lemma land3_bits v : Z.testbit v 0 = true -> Z.testbit v 1 = true -> Z.land v 3 = 3.
Proof.
  intros H0 H1. apply Z.bits_inj'. intros j Hj. rewrite Z.land_spec. destruct (Z.eq_dec j 0) as [->|]; [by rewrite H0|]. destruct (Z.eq_dec j 1) as [->|]; [by rewrite H1|].
  rewrite (testbit_high 3 2 j) by lia. by rewrite andb_false_r.
Qed.

Lemma enable_decoding dev dev' : masks_ok dev -> Z.land (byte_at (wmask dev) PCI_COMMAND) 3 = 3 -> bytes_ok (config dev) -> bytes_ok (config dev') ->
  get_le 2 (config dev') PCI_COMMAND = field_after dev PCI_COMMAND 3 2 -> Z.land (byte_at (config dev') PCI_COMMAND) 3 = 3.
Proof.
  intros Hm Hw Hc Hc' Hf. assert (Hbit : forall j, 0 <= j < 2 -> Z.testbit (byte_at (config dev') PCI_COMMAND) j = true).
  { intros j Hj. assert (Ew : Z.testbit (byte_at (wmask dev) PCI_COMMAND) j = true).
    { apply (f_equal (fun x => Z.testbit x j)) in Hw. rewrite Z.land_spec in Hw. assert (j = 0 \/ j = 1) as [-> | ->] by lia; by destruct (Z.testbit (byte_at (wmask dev) PCI_COMMAND) _). }
    assert (E1 : Z.testbit (byte_at (w1cmask dev) PCI_COMMAND) j = false).
    { pose proof (mk_disjoint _ Hm PCI_COMMAND ltac:(done)) as Hd. apply (f_equal (fun x => Z.testbit x j)) in Hd. rewrite Z.land_spec, Ew, Z.bits_0 in Hd. done. }
    apply (f_equal (fun x => Z.testbit x (8 * 0 + j))) in Hf. unfold field_after in Hf. rewrite write_byte_bit, !get_le_bit in Hf by (apply Hm || done || lia). rewrite Z.add_0_r, Ew, E1 in Hf.
    rewrite Hf, andb_false_r. assert (j = 0 \/ j = 1) as [-> | ->] by lia; done. }
  by apply land3_bits; apply Hbit.
Qed.

Lemma land_size_mask x k : 0 <= x < 2 ^ 32 -> 0 <= k <= 32 -> Z.land x (2 ^ 32 - 2 ^ k) = x / 2 ^ k * 2 ^ k.
Proof.
  intros Hx Hk. rewrite <- Z.shiftr_div_pow2, <- Z.shiftl_mul_pow2, <- Z.ldiff_ones_r by lia. apply Z.bits_inj'. intros j Hj. rewrite Z.land_spec, Z.ldiff_spec, Z.testbit_ones by lia.
  rewrite (proj2 (Z.leb_le 0 j)) by lia. cbn [andb]. destruct (Z.lt_ge_cases j 32); [|by rewrite (testbit_high x 32) by lia].
  rewrite size_mask_bit by lia. destruct (Z.leb_spec k j), (Z.ltb_spec j k); try lia; done.
Qed.

Lemma bar_low x type k : 0 <= k -> 0 <= type < 2 ^ k -> Z.land (x / 2 ^ k * 2 ^ k + type) (Z.ones k) = type.
Proof. intros Hk Ht. rewrite Z.land_ones, Z.add_comm, Z.mod_add, Z.mod_small by lia. done. Qed.

(** Writing a register of a device. *)
Lemma write_bar p d dev n k r val : pci_ok p -> devs p !! d = Some dev -> bar32 dev n k r ->
  exists p' dev' r', pci_default_write_config p d (pci_bar dev n) val 4 = Ok p' /\ pci_ok p' /\ devs p' !! d = Some dev' /\ same_frame dev dev' /\
    bar32 dev' n k r' /\ r_type r' = r_type r /\ r_size r' = r_size r /\ pci_get_long (config dev') (pci_bar dev n) = u32 val / 2 ^ k * 2 ^ k + r_type r /\ pci_bar dev' n = pci_bar dev n.
Proof.
  intros Hok Hd B. pose proof (bar32_addr _ _ _ _ B) as Ea. pose proof (b32_num _ _ _ _ B) as Hn. pose proof (b32_size _ _ _ _ B) as Hk. destruct (po_devs _ Hok _ _ Hd) as [Ht _].
  destruct (write_config_field p d dev (pci_bar dev n) val 4) as (p' & dev' & E & Hok' & _ & _ & Hd' & F & V & _); [done|done|right; intros Hin; lia|lia|lia|lia|].
  rewrite (bar_field dev n k r), land_size_mask in V by (done || (pose proof (wrap_range 32 val); lia)).
  destruct (bar32_keep dev dev' n k r) as (r' & B' & Et & Es); [done|done|unfold pci_get_long; rewrite V; apply bar_low; [lia|apply B]|].
  exists p', dev', r'. split_and!; try done. by rewrite Ea, (bar32_addr _ _ _ _ B').
Qed.

(** C14 (functional): how firmware sizes and maps a 32-bit base address register of
    a device.  After writing all ones, the register reads as the negated size with
    the type in its low bits; after writing an aligned address below 4 GiB and
    enabling I/O and memory decoding, the region is mapped at that address. *)
Theorem bar_sizing_and_mapping p d dev n k r base : pci_ok p -> devs p !! d = Some dev -> bar32 dev n k r -> Z.land (byte_at (wmask dev) PCI_COMMAND) 3 = 3 ->
  0 < base -> base mod 2 ^ k = 0 -> base + 2 ^ k <= 0xffffffff ->
  exists p1 dev1 p2 p3 dev3 r3, pci_default_write_config p d (pci_bar dev n) 0xffffffff 4 = Ok p1 /\ devs p1 !! d = Some dev1 /\
    pci_default_read_config dev1 (pci_bar dev n) 4 = Ok (2 ^ 32 - 2 ^ k + r_type r) /\
    pci_default_write_config p1 d (pci_bar dev n) base 4 = Ok p2 /\ pci_default_write_config p2 d PCI_COMMAND 3 2 = Ok p3 /\
    devs p3 !! d = Some dev3 /\ io_regions dev3 !! Z.to_nat n = Some r3 /\ r_size r3 = r_size r /\ r_mapped r3 = Some base.
Proof.
  intros Hok Hd B Hw Hb Hm Hlast. pose proof (bar32_addr _ _ _ _ B) as Ea. pose proof (b32_num _ _ _ _ B) as Hn. pose proof (b32_size _ _ _ _ B) as Hk. pose proof (b32_type _ _ _ _ B) as Hty.
  assert (Hp : 0 < 2 ^ k) by (apply Z.pow_pos_nonneg; lia).
  destruct (write_bar p d dev n k r 0xffffffff) as (p1 & dev1 & r1 & E1 & Hok1 & Hd1 & F1 & B1 & T1 & S1 & V1 & A1); [done..|].
  destruct (write_bar p1 d dev1 n k r1 base) as (p2 & dev2 & r2 & E2 & Hok2 & Hd2 & F2 & B2 & T2 & S2 & V2 & A2); [done..|]. rewrite A1 in E2, V2, A2.
  destruct (po_devs _ Hok2 _ _ Hd2) as [Ht2 _]. destruct (write_config_field p2 d dev2 PCI_COMMAND 3 2) as (p3 & dev3 & E3 & Hok3 & _ & _ & Hd3 & F3 & V3 & O3); [done|done| |done|done|done|].
  { right. intros _. done. }
  assert (Ebase : pci_get_long (config dev3) (pci_bar dev n) = base + r_type r).
  { unfold pci_get_long. rewrite (get_le_ext 4 (config dev2)) by (intros b Hbr; apply O3; unfold PCI_COMMAND; lia). unfold pci_get_long in V2. rewrite V2, T1, wrap_small by lia.
    pose proof (Z.div_mod base (2 ^ k) ltac:(lia)). lia. }
  destruct (bar32_keep dev2 dev3 n k r2) as (r3 & B3 & T3 & S3); [done|done|rewrite A2, Ebase|].
  { rewrite T2, T1. pose proof (Z.div_mod base (2 ^ k) ltac:(lia)) as Ediv. replace base with (base / 2 ^ k * 2 ^ k) by lia. apply bar_low; [lia|done]. }
  exists p1, dev1, p2, p3, dev3, r3. split_and!; try done; [|apply B3|congruence|].
  - rewrite pci_default_read_config_ok by lia. f_equal. unfold pci_get_long in V1. rewrite V1. f_equal. rewrite <- land_size_mask by (first [lia | done]). change (u32 0xffffffff) with (Z.ones 32).
    rewrite Z.land_comm, Z.land_ones by lia. apply Z.mod_small. pose proof (Z.pow_le_mono_r 2 k 32). lia.
  - destruct (po_devs _ Hok3 _ _ Hd3) as (Ht3 & Hs3 & _). apply (bar32_maps dev3 n k r3 base); try done.
    + rewrite (bar32_addr _ _ _ _ B3), <- Ea. congruence.
    + apply (enable_decoding dev2); [apply Ht2| |apply Ht2|apply Ht3|done]. destruct F1 as (_ & _ & _ & W1 & _), F2 as (_ & _ & _ & W2 & _). by rewrite W2, W1.
Qed.

(** [pci_register_bar] sets up such a register. *)
Lemma pci_register_bar_32 d n type k d' : dev_typed d -> unconfigured d -> 0 <= n < 6 -> 2 <= k <= 31 -> 0 <= type < 2 ^ k ->
  has_bit type PCI_BASE_ADDRESS_SPACE_IO = true \/ has_bit type PCI_BASE_ADDRESS_MEM_TYPE_64 = false -> pci_register_bar d n type (2 ^ k) = Ok d' ->
  exists r, bar32 d' n k r /\ r_type r = type.
Proof.
  intros Ht Hu Hn Hk Hty Hlow E. pose proof Ht as [T1 T2 T3 _ _]. destruct (bar_window d n ltac:(lia)) as (W1 & W2 & _). pose proof (pci_bar_range d n ltac:(lia)) as [Ea _]. specialize (Ea ltac:(lia)).
  assert (Hp : 2 ^ k <= 2 ^ 31) by (apply Z.pow_le_mono_r; lia). unfold pci_register_bar, PCI_NUM_REGIONS, PCI_ROM_SLOT in E. rewrite (proj2 (Z.leb_le _ _)), (proj2 (Z.ltb_lt _ _)) in E by lia.
  rewrite pow2_land, (proj2 (Z.eqb_neq n 6)) in E by lia. cbn [andb Z.eqb c_assert mbind outcome_bind] in E.
  assert (E64 : negb (has_bit type PCI_BASE_ADDRESS_SPACE_IO) && has_bit type PCI_BASE_ADDRESS_MEM_TYPE_64 = false) by (destruct Hlow as [-> | ->]; [done|apply andb_false_r]).
  rewrite E64 in E. injection E as <-. exists {| r_addr := PCI_BAR_UNMAPPED; r_size := 2 ^ k; r_type := type; r_mapped := None |}. split; [|done].
  assert (Hmask : Z.land (u64 (Z.lnot (2 ^ k - 1))) 0xffffffff = 2 ^ 32 - 2 ^ k).
  { change 0xffffffff with (Z.ones 32). rewrite Z.land_ones by lia. unfold wrap. rewrite Z.mod_mod_divide by (by exists (2 ^ 32)).
    replace (Z.lnot (2 ^ k - 1)) with (2 ^ 32 - 2 ^ k + (-1) * 2 ^ 32) by (unfold Z.lnot; lia). rewrite Z.mod_add by lia. apply Z.mod_small. lia. }
  rewrite Hmask. set (d' := put_regions _ _). assert (Eb : pci_bar d' n = pci_bar d n) by (rewrite (proj1 (pci_bar_range d' n ltac:(lia))) by lia; lia).
  split; rewrite ?Eb; try done.
  - cbn [io_regions d' put_regions put_masks put_config]. apply list_lookup_insert_eq. lia.
  - cbn [wmask d' put_regions put_masks put_config]. unfold pci_get_long, pci_set_long. rewrite get_le_set_le by (apply T2 || lia). apply Z.mod_small. cbn [Z.of_nat]. lia.
  - cbn [w1cmask d' put_regions put_masks put_config]. unfold pci_get_long. cbn [get_le]. rewrite !(uc_w1cmask _ Hu) by lia. done.
  - cbn [config d' put_regions put_masks put_config]. unfold pci_get_long, pci_set_long. rewrite get_le_set_le by (done || lia). cbn [r_type]. rewrite Z.mod_small by (cbn [Z.of_nat]; lia).
    rewrite Z.land_ones by lia. by apply Z.mod_small.
Qed.
