(* ===== verification/PciBridge.v ===== *)
(** * PCI-to-PCI bridges (hw/pci/pci_bridge.c)

    The windows through which a bridge forwards accesses to its secondary bus,
    as functions of its base and limit registers; configuration writes, reset and
    initialisation of a bridge.

    A window is known by the offset and size of its alias; a window of size 0
    forwards nothing.  The legacy VGA ranges are registered or not, [has_vga] says
    whether their memory and I/O parts are enabled. *)
From S2P Require Import Prelude Pci PciFacts PciConfig.

Definition PCI_BASE_ADDRESS_MEM_PREFETCH : Z := 0x08.
Definition PCI_IO_BASE_UPPER16 : Z := 0x30.
Definition PCI_IO_LIMIT_UPPER16 : Z := 0x32.
Definition PCI_PREF_LIMIT_UPPER32 : Z := 0x2c.
Definition PCI_SEC_LATENCY_TIMER : Z := 0x1b.
Definition PCI_SEC_STATUS : Z := 0x1e.
Definition PCI_BRIDGE_CTL_VGA : Z := 0x08.
Definition PCI_CLASS_BRIDGE_PCI : Z := 0x0604.
Definition PCI_IO_RANGE_TYPE_32 : Z := 0x01.
Definition PCI_PREF_RANGE_TYPE_64 : Z := 0x01.
Definition RANGE_MASK : Z := Z.lnot 0x0f.

(** ** Base and limit registers *)
Definition pci_config_get_io_base (d : PCIDevice) (base base_upper16 : Z) : Z :=
  let val := Z.shiftl (Z.land (byte_at (config d) base) RANGE_MASK) 8 in
  if has_bit (byte_at (config d) base) PCI_IO_RANGE_TYPE_32 then Z.lor val (Z.shiftl (pci_get_word (config d) base_upper16) 16) else val.

Definition pci_config_get_memory_base (d : PCIDevice) (base : Z) : Z := Z.shiftl (Z.land (pci_get_word (config d) base) RANGE_MASK) 16.

Definition pci_config_get_pref_base (d : PCIDevice) (base upper : Z) : Z :=
  let tmp := pci_get_word (config d) base in
  let val := Z.shiftl (Z.land tmp RANGE_MASK) 16 in
  if has_bit tmp PCI_PREF_RANGE_TYPE_64 then Z.lor val (Z.shiftl (pci_get_long (config d) upper) 32) else val.

Definition pci_bridge_get_base (d : PCIDevice) (type : Z) : Z :=
  if has_bit type PCI_BASE_ADDRESS_SPACE_IO then pci_config_get_io_base d PCI_IO_BASE PCI_IO_BASE_UPPER16
  else if has_bit type PCI_BASE_ADDRESS_MEM_PREFETCH then pci_config_get_pref_base d PCI_PREF_MEMORY_BASE PCI_PREF_BASE_UPPER32
  else pci_config_get_memory_base d PCI_MEMORY_BASE.

Definition pci_bridge_get_limit (d : PCIDevice) (type : Z) : Z :=
  if has_bit type PCI_BASE_ADDRESS_SPACE_IO then Z.lor (pci_config_get_io_base d PCI_IO_LIMIT PCI_IO_LIMIT_UPPER16) 0xfff
  else Z.lor (if has_bit type PCI_BASE_ADDRESS_MEM_PREFETCH then pci_config_get_pref_base d PCI_PREF_MEMORY_LIMIT PCI_PREF_LIMIT_UPPER32
              else pci_config_get_memory_base d PCI_MEMORY_LIMIT) 0xfffff.

(** ** Windows *)
Record Window := { w_base : Z; w_size : Z }.

Definition pci_bridge_init_alias (d : PCIDevice) (type : Z) (enabled : bool) : Window :=
  let base := pci_bridge_get_base d type in
  let limit := pci_bridge_get_limit d type in
  {| w_base := base; w_size := if enabled && (base <=? limit) then u64 (limit + 1 - base) else 0 |}.

Record PCIBridgeWindows := { alias_pref_mem : Window; alias_mem : Window; alias_io : Window }.

Record PCIBridge := { br_dev : nat; sec_bus : nat; windows : PCIBridgeWindows; has_vga : option (bool * bool) }.

Definition vga_enabled (d : PCIDevice) : bool * bool :=
  let cmd := pci_get_word (config d) PCI_COMMAND in (has_bit cmd PCI_COMMAND_MEMORY, has_bit cmd PCI_COMMAND_IO).

Definition pci_update_vga (d : PCIDevice) (vga : option (bool * bool)) : option (bool * bool) := match vga with None => None | Some _ => Some (vga_enabled d) end.

Definition pci_register_vga (d : PCIDevice) (vga : option (bool * bool)) : outcome (option (bool * bool)) :=
  _ ← c_assert (bool_decide (vga = None)); Ok (Some (vga_enabled d)).

Definition pci_bridge_init_vga_aliases (d : PCIDevice) (vga : option (bool * bool)) : outcome (option (bool * bool)) :=
  if has_bit (pci_get_word (config d) PCI_BRIDGE_CONTROL) PCI_BRIDGE_CTL_VGA then pci_register_vga d vga else Ok vga.

Definition bridge_windows (d : PCIDevice) : PCIBridgeWindows :=
  let cmd := pci_get_word (config d) PCI_COMMAND in
  {| alias_pref_mem := pci_bridge_init_alias d PCI_BASE_ADDRESS_MEM_PREFETCH (has_bit cmd PCI_COMMAND_MEMORY);
     alias_mem := pci_bridge_init_alias d 0 (has_bit cmd PCI_COMMAND_MEMORY);
     alias_io := pci_bridge_init_alias d PCI_BASE_ADDRESS_SPACE_IO (has_bit cmd PCI_COMMAND_IO) |}.

Definition pci_bridge_region_init (d : PCIDevice) (vga : option (bool * bool)) : outcome (PCIBridgeWindows * option (bool * bool)) :=
  vga ← pci_bridge_init_vga_aliases d vga; Ok (bridge_windows d, vga).

(** The old windows go and [pci_unregister_vga] is called before the new ones are
    made. *)
Definition pci_bridge_update_mappings (d : PCIDevice) (br : PCIBridge) : outcome PCIBridge :=
  '(w, vga) ← pci_bridge_region_init d None;
  Ok {| br_dev := br_dev br; sec_bus := sec_bus br; windows := w; has_vga := vga |}.

(** ** Configuration writes *)
Definition touches_windows (address len : Z) : bool :=
  ranges_overlap address len PCI_COMMAND 2 || ranges_overlap address len PCI_IO_BASE 2 || ranges_overlap address len PCI_MEMORY_BASE 20 ||
  ranges_overlap address len PCI_BRIDGE_CONTROL 2.

(** [pci_default_write_config] ends in [pci_update_vga] if it looks at the
    mappings. *)
Definition pci_bridge_write_config (device_reset : PCI -> nat -> outcome PCI) (p : PCI) (br : PCIBridge) (address val : Z) (len : nat) : outcome (PCI * PCIBridge) :=
  dev ← dev_at p (br_dev br);
  let oldctl := pci_get_word (config dev) PCI_BRIDGE_CONTROL in
  p ← pci_default_write_config p (br_dev br) address val len;
  dev ← dev_at p (br_dev br);
  let l := Z.of_nat len in
  let br := if remaps address l then {| br_dev := br_dev br; sec_bus := sec_bus br; windows := windows br; has_vga := pci_update_vga dev (has_vga br) |} else br in
  br ← (if touches_windows address l then pci_bridge_update_mappings dev br else Ok br);
  let newctl := pci_get_word (config dev) PCI_BRIDGE_CONTROL in
  p ← (if has_bit (Z.land (Z.lnot oldctl) newctl) PCI_BRIDGE_CTL_BUS_RESET then qbus_reset_all device_reset (length (buses p)) p (sec_bus br) else Ok p);
  Ok (p, br).

(** ** Reset and initialisation *)
Definition pci_byte_test_and_clear_mask (c : list Z) (a mask : Z) : list Z := set_byte c a (Z.land (byte_at c a) (Z.lnot mask)).
Definition pci_byte_test_and_set_mask (c : list Z) (a mask : Z) : list Z := set_byte c a (Z.lor (byte_at c a) mask).

Definition pci_bridge_disable_base_limit (c : list Z) : list Z :=
  let c := pci_byte_test_and_set_mask c PCI_IO_BASE 0xf0 in
  let c := pci_byte_test_and_clear_mask c PCI_IO_LIMIT 0xf0 in
  let c := pci_word_test_and_set_mask c PCI_MEMORY_BASE 0xfff0 in
  let c := pci_word_test_and_clear_mask c PCI_MEMORY_LIMIT 0xfff0 in
  let c := pci_word_test_and_set_mask c PCI_PREF_MEMORY_BASE 0xfff0 in
  let c := pci_word_test_and_clear_mask c PCI_PREF_MEMORY_LIMIT 0xfff0 in
  let c := pci_set_long c PCI_PREF_BASE_UPPER32 0 in
  pci_set_long c PCI_PREF_LIMIT_UPPER32 0.

Definition bridge_reset_config (c : list Z) : list Z :=
  let c := set_byte c PCI_PRIMARY_BUS 0 in
  let c := set_byte c PCI_SECONDARY_BUS 0 in
  let c := set_byte c PCI_SUBORDINATE_BUS 0 in
  let c := set_byte c PCI_SEC_LATENCY_TIMER 0 in
  let c := pci_byte_test_and_clear_mask c PCI_IO_BASE 0xf0 in
  let c := pci_byte_test_and_clear_mask c PCI_IO_LIMIT 0xf0 in
  let c := pci_word_test_and_clear_mask c PCI_MEMORY_BASE 0xfff0 in
  let c := pci_word_test_and_clear_mask c PCI_MEMORY_LIMIT 0xfff0 in
  let c := pci_word_test_and_clear_mask c PCI_PREF_MEMORY_BASE 0xfff0 in
  let c := pci_word_test_and_clear_mask c PCI_PREF_MEMORY_LIMIT 0xfff0 in
  let c := pci_set_long c PCI_PREF_BASE_UPPER32 0 in
  let c := pci_set_long c PCI_PREF_LIMIT_UPPER32 0 in
  pci_set_word c PCI_BRIDGE_CONTROL 0.

Definition pci_bridge_reset (p : PCI) (d : nat) : outcome PCI := dev ← dev_at p d; Ok (put_dev p d (put_config (bridge_reset_config (config dev)) dev)).

Definition bridge_config (c : list Z) : list Z :=
  let c := pci_word_test_and_set_mask c PCI_STATUS 0xa0 in
  let c := pci_set_word c 0x0a PCI_CLASS_BRIDGE_PCI in
  let c := set_byte c PCI_HEADER_TYPE (Z.lor (Z.land (byte_at c PCI_HEADER_TYPE) PCI_HEADER_TYPE_MULTI_FUNCTION) PCI_HEADER_TYPE_BRIDGE) in
  pci_set_word c PCI_SEC_STATUS 0xa0.

Definition pci_swizzle_map_irq_fn (fn pin : Z) : Z := Z.rem (pin + PCI_SLOT fn) PCI_NUM_PINS.

(** The secondary bus comes behind the buses there are. *)
Definition pci_bridge_initfn (p : PCI) (d : nat) : outcome (PCI * PCIBridge) :=
  dev ← dev_at p d;
  let dev := put_config (bridge_config (config dev)) dev in
  let p := put_dev p d dev in
  let bus := {| parent_dev := Some d; map_irq := fun fn pin => Ok (pci_swizzle_map_irq_fn fn pin); set_irq := false; irq_count := []; irq_calls := [] |} in
  '(w, vga) ← pci_bridge_region_init dev None;
  Ok ({| devs := devs p; buses := buses p ++ [bus] |}, {| br_dev := d; sec_bus := length (buses p); windows := w; has_vga := vga |}).

(** ** Windows follow the registers *)
Definition vga_state (d : PCIDevice) : option (bool * bool) :=
  if has_bit (pci_get_word (config d) PCI_BRIDGE_CONTROL) PCI_BRIDGE_CTL_VGA then Some (vga_enabled d) else None.

Definition bridge_sync (p : PCI) (br : PCIBridge) : Prop :=
  exists dev, devs p !! br_dev br = Some dev /\ windows br = bridge_windows dev /\ has_vga br = vga_state dev.

Lemma pci_bridge_region_init_ok d : pci_bridge_region_init d None = Ok (bridge_windows d, vga_state d).
Proof. unfold pci_bridge_region_init, pci_bridge_init_vga_aliases, vga_state, pci_register_vga. by destruct (has_bit _ PCI_BRIDGE_CTL_VGA). Qed.

(** The bytes that windows depend on. *)
Lemma bridge_windows_ext d d' : bytes_ok (config d) -> bytes_ok (config d') ->
  (forall a, a = 4 \/ 0x1c <= a < 0x1e \/ 0x20 <= a < 0x34 -> byte_at (config d') a = byte_at (config d) a) -> bridge_windows d' = bridge_windows d.
Proof.
  intros Hc Hc' Hb. assert (Eg : forall n a, 0x20 <= a -> a + Z.of_nat n <= 0x34 -> get_le n (config d') a = get_le n (config d) a) by (intros n a Ha Hn; apply get_le_ext; intros b Hbr; apply Hb; lia).
  assert (Ecmd : forall m, 0 <= m < 256 -> has_bit (pci_get_word (config d') PCI_COMMAND) m = has_bit (pci_get_word (config d) PCI_COMMAND) m).
  { intros m Hm. rewrite !has_bit_low by done. by rewrite Hb by (unfold PCI_COMMAND; lia). }
  assert (E1 : forall t, pci_bridge_get_base d' t = pci_bridge_get_base d t).
  { intros t. unfold pci_bridge_get_base, pci_config_get_io_base, pci_config_get_pref_base, pci_config_get_memory_base, pci_get_word, pci_get_long.
    by rewrite !Eg, !Hb by (unfold PCI_IO_BASE, PCI_IO_BASE_UPPER16, PCI_PREF_MEMORY_BASE, PCI_PREF_BASE_UPPER32, PCI_MEMORY_BASE; lia). }
  assert (E2 : forall t, pci_bridge_get_limit d' t = pci_bridge_get_limit d t).
  { intros t. unfold pci_bridge_get_limit, pci_config_get_io_base, pci_config_get_pref_base, pci_config_get_memory_base, pci_get_word, pci_get_long.
    by rewrite !Eg, !Hb by (unfold PCI_IO_LIMIT, PCI_IO_LIMIT_UPPER16, PCI_PREF_MEMORY_LIMIT, PCI_PREF_LIMIT_UPPER32, PCI_MEMORY_LIMIT; lia). }
  unfold bridge_windows, pci_bridge_init_alias. by rewrite !Ecmd, !E1, !E2 by done.
Qed.

Lemma vga_enabled_ext d d' : bytes_ok (config d) -> bytes_ok (config d') -> byte_at (config d') 4 = byte_at (config d) 4 -> vga_enabled d' = vga_enabled d.
Proof. intros Hc Hc' E. unfold vga_enabled. rewrite !has_bit_low by done. unfold PCI_COMMAND. by rewrite E. Qed.

Lemma vga_state_ext d d' : bytes_ok (config d) -> bytes_ok (config d') -> byte_at (config d') 4 = byte_at (config d) 4 ->
  pci_get_word (config d') PCI_BRIDGE_CONTROL = pci_get_word (config d) PCI_BRIDGE_CONTROL -> vga_state d' = vga_state d.
Proof. intros Hc Hc' E4 E. unfold vga_state. by rewrite E, (vga_enabled_ext d d'). Qed.

Lemma reset_touch_above p fuel : tree_ok p -> forall b d dev, d ∈ reset_touch fuel p b -> devs p !! d = Some dev -> (b <= pd_bus dev)%nat.
Proof.
  intros Ht. induction fuel as [|fuel IH]; intros b d dev Hin Hd; cbn [reset_touch] in Hin; [by apply elem_of_nil in Hin|]. apply elem_of_app in Hin as [Hin|Hin].
  - apply list_elem_of_In, in_flat_map in Hin as (k & Hk%list_elem_of_In & Hin%list_elem_of_In). destruct (bus_kids_spec p b k Hk) as (kdev & Hkd & <-). apply elem_of_app in Hin as [Hin|Hin].
    + apply list_elem_of_In, in_flat_map in Hin as (c & Hc%list_elem_of_In & Hin%list_elem_of_In). destruct (sec_buses_spec p k c Hc) as (bus & Hbus & Hpar).
      pose proof (tr_parent _ Ht c bus k kdev Hbus Hpar Hkd). specialize (IH c d dev Hin Hd). lia.
    + apply list_elem_of_singleton in Hin as ->. rewrite Hkd in Hd. by injection Hd as <-.
  - apply list_elem_of_In, in_flat_map in Hin as (fn & _ & [_ H]%filter_In). rewrite Hd in H. apply andb_true_iff in H as [H%Nat.eqb_eq _]. lia.
Qed.

(** A bridge and its secondary bus. *)
Definition bridge_place (p : PCI) (br : PCIBridge) : Prop :=
  exists bus, buses p !! sec_bus br = Some bus /\ parent_dev bus = Some (br_dev br) /\ sec_bus br <> 0%nat.

Lemma bridge_place_same p p' br : same_topology p p' -> bridge_place p br -> bridge_place p' br.
Proof.
  intros T (bus & Hb & Hp & Hz). pose proof (st_bus _ _ T (sec_bus br)) as X. rewrite Hb in X. destruct (buses p' !! sec_bus br) as [bus'|] eqn:E; cbn in X; [|done].
  injection X as X _ _ _. exists bus'. split_and!; congruence.
Qed.

Section BridgeWrites.
Context (device_reset : PCI -> nat -> outcome PCI) `{!QuietReset device_reset}.

Lemma secondary_reset_ok p br dev : pci_ok p -> tree_ok p -> bridge_place p br -> devs p !! br_dev br = Some dev ->
  exists p', qbus_reset_all device_reset (length (buses p)) p (sec_bus br) = Ok p' /\ pci_ok p' /\ same_topology p p' /\
    forall d x, devs p !! d = Some x -> pd_bus x = pd_bus dev -> devs p' !! d = Some x.
Proof.
  intros Hok Ht (bus & Hb & Hpar & Hz) Ed. pose proof (lookup_lt_Some _ _ _ Hb) as Hlt.
  destruct (qbus_reset_sub_ok device_reset (length (buses p)) p (sec_bus br) Hok Ht) as (p' & E & Hok' & T & _ & Hf); [lia|lia|]. exists p'. split_and!; try done. intros d x Hx Ex. rewrite <- Hx. apply Hf. intros Hin.
  pose proof (reset_touch_above p _ Ht _ _ _ Hin Hx). pose proof (tr_parent _ Ht _ _ _ _ Hb Hpar Ed). lia.
Qed.

(** The windows after a write, before a reset of the secondary bus. *)
Lemma bridge_update_ok p br dev dev' address len : pci_ok p -> devs p !! br_dev br = Some dev -> dev_ok dev' -> windows br = bridge_windows dev -> has_vga br = vga_state dev ->
  (forall a, 0 <= a -> ~ (address <= a < address + Z.of_nat len) -> byte_at (config dev') a = byte_at (config dev) a) -> 0 <= address ->
  let br1 := if remaps address (Z.of_nat len) then {| br_dev := br_dev br; sec_bus := sec_bus br; windows := windows br; has_vga := pci_update_vga dev' (has_vga br) |} else br in
  exists br2, (if touches_windows address (Z.of_nat len) then pci_bridge_update_mappings dev' br1 else Ok br1) = Ok br2 /\
    br_dev br2 = br_dev br /\ sec_bus br2 = sec_bus br /\ windows br2 = bridge_windows dev' /\ has_vga br2 = vga_state dev'.
Proof.
  intros Hok Hd [Ht' _] Hw Hv Hout Ha br1. destruct (po_devs _ Hok _ _ Hd) as [Ht _]. destruct (touches_windows address (Z.of_nat len)) eqn:Et.
  - unfold pci_bridge_update_mappings. rewrite pci_bridge_region_init_ok. cbn [mbind outcome_bind]. eexists. split; [done|]. subst br1. by destruct (remaps _ _).
  - unfold touches_windows, ranges_overlap, PCI_COMMAND, PCI_IO_BASE, PCI_MEMORY_BASE, PCI_BRIDGE_CONTROL in Et.
    assert (E4 : byte_at (config dev') 4 = byte_at (config dev) 4) by (apply Hout; lia).
    assert (Ec : pci_get_word (config dev') PCI_BRIDGE_CONTROL = pci_get_word (config dev) PCI_BRIDGE_CONTROL) by (apply get_le_ext; unfold PCI_BRIDGE_CONTROL; intros b Hb; apply Hout; lia).
    assert (Ew : bridge_windows dev' = bridge_windows dev) by (apply bridge_windows_ext; [apply Ht|apply Ht'|]; intros a Hin; apply Hout; lia).
    assert (Ev : vga_state dev' = vga_state dev) by (apply vga_state_ext; [apply Ht|apply Ht'|done|done]).
    exists br1. split; [done|]. rewrite Ew, Ev. subst br1. destruct (remaps _ _); [|done]. cbn [br_dev sec_bus windows has_vga]. split_and!; try done. rewrite Hv. unfold pci_update_vga, vga_state.
    destruct (has_bit _ PCI_BRIDGE_CTL_VGA); [|done]. f_equal. apply vga_enabled_ext; [apply Ht|apply Ht'|done].
Qed.

(** A configuration write to a bridge, with the reset of its secondary bus that it
    may cause. *)
Lemma pci_bridge_write_config_field p br dev address val len : pci_ok p -> tree_ok p -> bridge_place p br -> bridge_sync p br -> devs p !! br_dev br = Some dev ->
  wired p (br_dev br) \/ leaves_intx address val len -> 0 <= address -> address <> 5 -> address + Z.of_nat len <= 256 ->
  exists p' br' dev', pci_bridge_write_config device_reset p br address val len = Ok (p', br') /\ pci_ok p' /\ same_topology p p' /\ bridge_sync p' br' /\ br_dev br' = br_dev br /\ sec_bus br' = sec_bus br /\
    devs p' !! br_dev br = Some dev' /\ same_frame dev dev' /\ get_le len (config dev') address = field_after dev address val len /\
    (forall a, 0 <= a -> ~ (address <= a < address + Z.of_nat len) -> byte_at (config dev') a = byte_at (config dev) a) /\
    forall d x, d <> br_dev br -> devs p !! d = Some x -> pd_bus x = pd_bus dev -> devs p' !! d = Some x.
Proof.
  intros Hok Ht Hp (dev0 & Hd0 & Hw & Hv) Hd Hwire Ha H5 Hn. rewrite Hd in Hd0. injection Hd0 as <-.
  destruct (write_config_field p (br_dev br) dev address val len) as (p1 & dev' & E & Hok1 & T1 & Hoth & Hd' & Hfr & Hf & Hout); try done. unfold pci_bridge_write_config, dev_at. rewrite Hd. cbn [got mbind outcome_bind].
  rewrite E. cbn [mbind outcome_bind]. rewrite Hd'. cbn [got mbind outcome_bind].
  destruct (bridge_update_ok p br dev dev' address len) as (br2 & Eb & D1 & D2 & D3 & D4); try done; [by eapply po_devs|]. cbn zeta in Eb. rewrite Eb. cbn [mbind outcome_bind].
  assert (Hp2 : bridge_place p1 br2).
  { apply (bridge_place_same p); [done|]. destruct Hp as (bus & H1 & H2 & H3). exists bus. by rewrite D1, D2. }
  destruct (has_bit _ PCI_BRIDGE_CTL_BUS_RESET).
  - destruct (secondary_reset_ok p1 br2 dev') as (p2 & -> & Hok2 & T2 & Hk); [done|by apply (tree_ok_same p)|done|by rewrite D1|]. cbn [mbind outcome_bind]. exists p2, br2, dev'.
    assert (Hd2 : devs p2 !! br_dev br = Some dev') by (by apply Hk). split_and!; try done; [by eapply same_topology_trans|exists dev'; rewrite D1; by split_and!|].
    intros d x Hne Hx Ex. apply Hk; [by rewrite Hoth|]. rewrite Ex. by destruct Hfr as (-> & _).
  - cbn [mbind outcome_bind]. exists p1, br2, dev'. split_and!; try done; [exists dev'; rewrite D1; by split_and!|]. intros d x Hne Hx _. by rewrite Hoth.
Qed.

Lemma pci_bridge_write_config_ok p br address val len : pci_ok p -> tree_ok p -> bridge_place p br -> bridge_sync p br ->
  wired p (br_dev br) \/ leaves_intx address val len -> 0 <= address -> address <> 5 -> address + Z.of_nat len <= 256 ->
  exists p' br', pci_bridge_write_config device_reset p br address val len = Ok (p', br') /\ pci_ok p' /\ same_topology p p' /\ bridge_sync p' br' /\ br_dev br' = br_dev br /\ sec_bus br' = sec_bus br.
Proof.
  intros Hok Ht Hp Hs Hwire Ha H5 Hn. pose proof Hs as (dev & Hd & _).
  destruct (pci_bridge_write_config_field p br dev address val len) as (p' & br' & dev' & E & H1 & H2 & H3 & H4 & H6 & _); try done. by exists p', br'.
Qed.

(** Writes to a bridge, one after the other. *)
Definition bridge_writes (p : PCI) (br : PCIBridge) (l : list (Z * Z * nat)) : outcome (PCI * PCIBridge) :=
  ofold (fun s w => pci_bridge_write_config device_reset s.1 s.2 w.1.1 w.1.2 w.2) (p, br) l.
End BridgeWrites.

(** ** What a bridge forwards *)
Definition forwards (w : Window) (a : Z) : bool := (w_base w <=? a) && (a <? w_base w + w_size w).

(** The block numbers in the registers: 4 KiB blocks of I/O, 1 MiB blocks of
    memory. *)
Definition io_block (d : PCIDevice) (reg upper : Z) : Z :=
  byte_at (config d) reg / 16 + if has_bit (byte_at (config d) reg) PCI_IO_RANGE_TYPE_32 then pci_get_word (config d) upper * 16 else 0.
Definition mem_block (d : PCIDevice) (reg : Z) : Z := pci_get_word (config d) reg / 16.
Definition pref_block (d : PCIDevice) (reg upper : Z) : Z :=
  pci_get_word (config d) reg / 16 + if has_bit (pci_get_word (config d) reg) PCI_PREF_RANGE_TYPE_64 then pci_get_long (config d) upper * 4096 else 0.

Lemma window_mask x : Z.land x RANGE_MASK = x / 16 * 16.
Proof. unfold RANGE_MASK. change 0x0f with (Z.ones 4). rewrite <- Z.ldiff_land, Z.ldiff_ones_r, Z.shiftr_div_pow2, Z.shiftl_mul_pow2 by lia. done. Qed.

Lemma lor_low m g : 0 <= g -> Z.lor (m * 2 ^ g) (2 ^ g - 1) = m * 2 ^ g + (2 ^ g - 1).
Proof.
  intros Hg. rewrite <- Z.shiftl_mul_pow2, Z.lor_comm by done. rewrite lor_shiftl_add by (done || (pose proof (Z.pow_pos_nonneg 2 g); lia)). rewrite Z.shiftl_mul_pow2 by done. lia.
Qed.

Lemma lor_high v u g : 0 <= g -> 0 <= v < 2 ^ g -> Z.lor v (Z.shiftl u g) = v + u * 2 ^ g.
Proof. intros Hg Hv. by rewrite lor_shiftl_add. Qed.

Lemma io_base_block d reg upper : bytes_ok (config d) -> pci_config_get_io_base d reg upper = io_block d reg upper * 2 ^ 12.
Proof.
  intros Hc. unfold pci_config_get_io_base, io_block. pose proof (byte_range (config d) reg Hc). rewrite window_mask, Z.shiftl_mul_pow2 by lia.
  destruct (has_bit _ _); [|zdiv]. rewrite lor_high by zdiv. zdiv.
Qed.

Lemma mem_base_block d reg : pci_config_get_memory_base d reg = mem_block d reg * 2 ^ 20.
Proof. unfold pci_config_get_memory_base, mem_block. rewrite window_mask, Z.shiftl_mul_pow2 by lia. lia. Qed.

Lemma pref_base_block d reg upper : bytes_ok (config d) -> pci_config_get_pref_base d reg upper = pref_block d reg upper * 2 ^ 20.
Proof.
  intros Hc. unfold pci_config_get_pref_base, pref_block, pci_get_word. pose proof (get_le_range 2 (config d) Hc reg) as Hr. change (2 ^ (8 * Z.of_nat 2)) with 65536 in Hr.
  rewrite window_mask, Z.shiftl_mul_pow2 by lia. destruct (has_bit _ _); [|lia]. rewrite lor_high by zdiv. lia.
Qed.

(** A window between aligned blocks. *)
Lemma window_blocks (enabled : bool) b l g a : 0 <= g -> 0 <= b -> 0 <= a -> (l - b + 1) * 2 ^ g < 2 ^ 64 ->
  forwards {| w_base := b * 2 ^ g; w_size := if enabled && (b * 2 ^ g <=? l * 2 ^ g + (2 ^ g - 1)) then u64 (l * 2 ^ g + (2 ^ g - 1) + 1 - b * 2 ^ g) else 0 |} a =
  enabled && (b <=? a / 2 ^ g) && (a / 2 ^ g <=? l).
Proof.
  intros Hg Hb Ha Hs. assert (Hp : 0 < 2 ^ g) by (by apply Z.pow_pos_nonneg). pose proof (Z.div_mod a (2 ^ g) ltac:(lia)) as E. pose proof (Z.mod_pos_bound a (2 ^ g) Hp) as Hm.
  set (q := a / 2 ^ g) in *. unfold forwards. cbn [w_base w_size]. destruct enabled; cbn [andb]; [|destruct (Z.leb_spec (b * 2 ^ g) a), (Z.ltb_spec a (b * 2 ^ g + 0)); try done; lia].
  destruct (Z.leb_spec (b * 2 ^ g) (l * 2 ^ g + (2 ^ g - 1))) as [Hle|Hgt].
  - assert (b <= l) by nia. rewrite wrap_small by nia. destruct (Z.leb_spec b q), (Z.leb_spec q l); destruct (Z.leb_spec (b * 2 ^ g) a), (Z.ltb_spec a (b * 2 ^ g + (l * 2 ^ g + (2 ^ g - 1) + 1 - b * 2 ^ g))); try done; nia.
  - destruct (Z.leb_spec b q), (Z.leb_spec q l); destruct (Z.leb_spec (b * 2 ^ g) a), (Z.ltb_spec a (b * 2 ^ g + 0)); try done; nia.
Qed.

Lemma word_block d reg : bytes_ok (config d) -> 0 <= mem_block d reg < 4096.
Proof. intros Hc. unfold mem_block, pci_get_word. pose proof (get_le_range 2 (config d) Hc reg) as Hr. change (2 ^ (8 * Z.of_nat 2)) with 65536 in Hr. zdiv. Qed.

Lemma io_block_range d reg upper : bytes_ok (config d) -> 0 <= io_block d reg upper < 2 ^ 20 + 16.
Proof.
  intros Hc. unfold io_block, pci_get_word. pose proof (byte_range (config d) reg Hc). pose proof (get_le_range 2 (config d) Hc upper) as Hr. change (2 ^ (8 * Z.of_nat 2)) with 65536 in Hr.
  destruct (has_bit _ _); zdiv.
Qed.

Lemma pref_block_range d reg upper : bytes_ok (config d) -> 0 <= pref_block d reg upper < 2 ^ 44.
Proof.
  intros Hc. unfold pref_block, pci_get_word, pci_get_long. pose proof (get_le_range 2 (config d) Hc reg) as Hr. change (2 ^ (8 * Z.of_nat 2)) with 65536 in Hr.
  pose proof (get_le_range 4 (config d) Hc upper) as Hr4. change (2 ^ (8 * Z.of_nat 4)) with (2 ^ 32) in Hr4. destruct (has_bit _ _); zdiv.
Qed.

(** What the windows of a device forward, by its registers. *)
Definition forwards_io (d : PCIDevice) (a : Z) : bool :=
  has_bit (pci_get_word (config d) PCI_COMMAND) PCI_COMMAND_IO && (io_block d PCI_IO_BASE PCI_IO_BASE_UPPER16 <=? a / 2 ^ 12) && (a / 2 ^ 12 <=? io_block d PCI_IO_LIMIT PCI_IO_LIMIT_UPPER16).
Definition forwards_mem (d : PCIDevice) (a : Z) : bool :=
  has_bit (pci_get_word (config d) PCI_COMMAND) PCI_COMMAND_MEMORY && (mem_block d PCI_MEMORY_BASE <=? a / 2 ^ 20) && (a / 2 ^ 20 <=? mem_block d PCI_MEMORY_LIMIT).
Definition forwards_pref (d : PCIDevice) (a : Z) : bool :=
  has_bit (pci_get_word (config d) PCI_COMMAND) PCI_COMMAND_MEMORY && (pref_block d PCI_PREF_MEMORY_BASE PCI_PREF_BASE_UPPER32 <=? a / 2 ^ 20) &&
  (a / 2 ^ 20 <=? pref_block d PCI_PREF_MEMORY_LIMIT PCI_PREF_LIMIT_UPPER32).

(** The whole 64-bit space is too large for a window. *)
Definition pref_all (d : PCIDevice) : Prop := pref_block d PCI_PREF_MEMORY_BASE PCI_PREF_BASE_UPPER32 = 0 /\ pref_block d PCI_PREF_MEMORY_LIMIT PCI_PREF_LIMIT_UPPER32 = 2 ^ 44 - 1.

Lemma bridge_windows_forward d a : bytes_ok (config d) -> 0 <= a ->
  forwards (alias_io (bridge_windows d)) a = forwards_io d a /\ forwards (alias_mem (bridge_windows d)) a = forwards_mem d a /\
  (~ pref_all d -> forwards (alias_pref_mem (bridge_windows d)) a = forwards_pref d a).
Proof.
  intros Hc Ha. unfold bridge_windows. cbn [alias_io alias_mem alias_pref_mem]. unfold pci_bridge_init_alias, pci_bridge_get_base, pci_bridge_get_limit.
  change (has_bit PCI_BASE_ADDRESS_SPACE_IO PCI_BASE_ADDRESS_SPACE_IO) with true. change (has_bit PCI_BASE_ADDRESS_MEM_PREFETCH PCI_BASE_ADDRESS_SPACE_IO) with false.
  change (has_bit PCI_BASE_ADDRESS_MEM_PREFETCH PCI_BASE_ADDRESS_MEM_PREFETCH) with true. change (has_bit 0 PCI_BASE_ADDRESS_SPACE_IO) with false.
  change (has_bit 0 PCI_BASE_ADDRESS_MEM_PREFETCH) with false. change 0xfff with (2 ^ 12 - 1). change 0xfffff with (2 ^ 20 - 1). cbv iota.
  rewrite !io_base_block, !mem_base_block, !pref_base_block, !lor_low by (done || lia).
  pose proof (io_block_range d PCI_IO_BASE PCI_IO_BASE_UPPER16 Hc). pose proof (io_block_range d PCI_IO_LIMIT PCI_IO_LIMIT_UPPER16 Hc).
  pose proof (word_block d PCI_MEMORY_BASE Hc). pose proof (word_block d PCI_MEMORY_LIMIT Hc).
  pose proof (pref_block_range d PCI_PREF_MEMORY_BASE PCI_PREF_BASE_UPPER32 Hc). pose proof (pref_block_range d PCI_PREF_MEMORY_LIMIT PCI_PREF_LIMIT_UPPER32 Hc).
  split_and!; [apply window_blocks; lia|apply window_blocks; lia|]. intros Hn. apply window_blocks; try lia. unfold pref_all in Hn. lia.
Qed.

(** ** New bridges *)
Lemma fresh_config d c : fresh d -> bytes_ok c -> byte_at c 4 = byte_at (config d) 4 -> byte_at c 5 = byte_at (config d) 5 ->
  Z.testbit (byte_at c PCI_STATUS) 3 = Z.testbit (byte_at (config d) PCI_STATUS) 3 -> fresh (put_config c d).
Proof.
  intros [(Ht & Hm & Hs) Hi Ho] Hc E4 E5 E6. pose proof Ht as [T1 T2 T3 T4 T5]. split.
  - split_and!.
    + split; try done. by destruct T2.
    + intros i r Hr Hz. cbn [io_regions put_config] in Hr. destruct (Hm i r Hr Hz) as [A1 A2]. rewrite bar_address_off in A1 by done.
      rewrite bar_address_off; [done|done|]. cbn [config put_config]. unfold PCI_COMMAND in *. by rewrite E4.
    + unfold status_sync in *. cbn [config irq_state put_config]. rewrite has_bit_interrupt in *. congruence.
  - destruct Hi as [I1 I2]. split; [done|]. rewrite <- I2. by apply pci_irq_disabled_ext.
  - cbn [config put_config]. unfold PCI_COMMAND in *. by rewrite E4.
Qed.

Lemma set_mask_bytes c mask : bytes_ok c -> bytes_ok (pci_word_test_and_set_mask c PCI_STATUS mask) /\
  (forall a, 0 <= a < 6 -> byte_at (pci_word_test_and_set_mask c PCI_STATUS mask) a = byte_at c a) /\
  Z.testbit (byte_at (pci_word_test_and_set_mask c PCI_STATUS mask) PCI_STATUS) 3 = Z.testbit (byte_at c PCI_STATUS) 3 || Z.testbit mask 3.
Proof.
  intros Hc. unfold pci_word_test_and_set_mask, pci_set_word. split_and!; [by apply bytes_ok_set_le|intros a Ha; apply byte_at_set_le_other; done || (unfold PCI_STATUS; lia)|].
  rewrite byte_at_set_le by (done || (unfold PCI_STATUS; lia)). rewrite (proj2 (Z.leb_le _ _)), (proj2 (Z.ltb_lt _ _)) by (unfold PCI_STATUS; lia). cbn [andb].
  rewrite u8_bit, Z.shiftr_spec, Z.sub_diag by lia. change (3 + 8 * 0) with (8 * 0 + 3). rewrite Z.lor_spec. unfold pci_get_word. rewrite get_le_bit by (done || lia). done.
Qed.

Lemma bridge_config_fresh d : fresh d -> fresh (put_config (bridge_config (config d)) d).
Proof.
  intros Hf. pose proof (fr_ok _ Hf) as [[T1 _ _ _ _] _]. destruct (set_mask_bytes (config d) 0xa0 T1) as (S1 & S2 & S3). unfold bridge_config. set (c1 := pci_word_test_and_set_mask _ _ _) in *.
  set (c2 := pci_set_word c1 0x0a PCI_CLASS_BRIDGE_PCI). assert (H2 : bytes_ok c2) by (by apply bytes_ok_set_le). set (v := Z.lor _ PCI_HEADER_TYPE_BRIDGE).
  set (c3 := set_byte c2 PCI_HEADER_TYPE v). assert (H3 : bytes_ok c3) by (by apply bytes_ok_set).
  assert (E : forall a, 0 <= a < 8 -> byte_at (pci_set_word c3 PCI_SEC_STATUS 0xa0) a = byte_at c1 a).
  { intros a Ha. unfold pci_set_word. rewrite byte_at_set_le_other by (done || (unfold PCI_SEC_STATUS; lia)). subst c3. rewrite byte_at_set by (rewrite ?(proj1 H2); unfold PCI_HEADER_TYPE; lia).
    rewrite (proj2 (Z.eqb_neq _ _)) by (unfold PCI_HEADER_TYPE; lia). subst c2. apply byte_at_set_le_other; done || lia. }
  apply fresh_config; [done|by apply bytes_ok_set_le|rewrite E, S2 by lia; done|rewrite E, S2 by lia; done|]. rewrite E by (unfold PCI_STATUS; lia). rewrite S3. apply orb_false_r.
Qed.

Lemma pci_bridge_initfn_ok p d dev : fresh_pci p -> slots_ok p -> devs p !! d = Some dev -> buses p <> [] ->
  exists p' br, pci_bridge_initfn p d = Ok (p', br) /\ fresh_pci p' /\ slots_ok p' /\ bridge_sync p' br /\ bridge_place p' br /\ br_dev br = d /\ sec_bus br = length (buses p).
Proof.
  intros [F1 F2] Hs Hd Hb. unfold pci_bridge_initfn, dev_at. rewrite Hd. cbn [got mbind outcome_bind]. rewrite pci_bridge_region_init_ok. cbn [mbind outcome_bind].
  set (dev' := put_config _ dev). assert (Hf : fresh dev') by (apply bridge_config_fresh; by eapply F1). set (bus := {| parent_dev := Some d |}). eexists _, _. split; [done|]. split_and!; try done.
  - split; cbn [devs buses put_dev].
    + intros d' x [(<- & <- & _)|[_ H]]%list_lookup_insert_Some; [done|by eapply F1].
    + intros b x [H|[_ H]]%lookup_app_Some; [by eapply F2|]. apply list_lookup_singleton_Some in H as [_ <-]. done.
  - assert (T : same_topology p (put_dev p d dev')) by (by eapply put_dev_topology). intros d1 d2 x1 x2 H1 H2. apply (slots_ok_same p _ T Hs d1 d2 x1 x2 H1 H2).
  - exists dev'. split; [|done]. cbn. rewrite list_lookup_insert_eq; [done|]. by eapply lookup_lt_Some.
  - exists bus. cbn [buses put_dev sec_bus br_dev]. split_and!; [|done|by destruct (buses p)]. rewrite lookup_app_r by lia. by rewrite Nat.sub_diag.
Qed.

(** A write to a bridge that the bridge takes. *)
Definition bridge_write_ok (p : PCI) (br : PCIBridge) (w : Z * Z * nat) : Prop :=
  (wired p (br_dev br) \/ leaves_intx w.1.1 w.1.2 w.2) /\ 0 <= w.1.1 /\ w.1.1 <> 5 /\ w.1.1 + Z.of_nat w.2 <= 256.

Lemma bridge_writes_ok device_reset l : QuietReset device_reset -> forall p br, pci_ok p -> tree_ok p -> bridge_place p br -> bridge_sync p br -> Forall (bridge_write_ok p br) l ->
  exists p' br', bridge_writes device_reset p br l = Ok (p', br') /\ pci_ok p' /\ bridge_sync p' br' /\ br_dev br' = br_dev br.
Proof.
  intros Hq. unfold bridge_writes. induction l as [|[[a v] n] l IH]; intros p br Hok Ht Hp Hs Hl; cbn [ofold]; [by exists p, br|]. apply Forall_cons in Hl as [(Hw & H0 & H5 & Hn) Hl]. cbn [fst snd] in *.
  destruct (pci_bridge_write_config_ok device_reset p br a v n) as (p1 & br1 & E & Hok1 & T & Hs1 & E1 & E2); try done. rewrite E. cbn [mbind outcome_bind].
  destruct (IH p1 br1) as (p2 & br2 & Ew & Hok2 & Hs2 & E3); [done|by apply (tree_ok_same p)| |done| |].
  - apply (bridge_place_same p); [done|]. destruct Hp as (bus & B1 & B2 & B3). exists bus. by rewrite E1, E2.
  - eapply Forall_impl; [exact Hl|]. intros w ([Hw'|Hw'] & Hrest); (split; [|done]); [left; rewrite E1; by apply (wired_same p)|by right].
  - exists p2, br2. split_and!; try done. congruence.
Qed.

(** C13 (functional): after any sequence of configuration writes to a bridge, with
    the bus resets they cause, its windows forward exactly what its registers say:
    I/O addresses from the base to the limit in steps of 4 KiB while I/O decoding
    is on, memory addresses in steps of 1 MiB while memory decoding is on, through
    a plain and a prefetchable window.  The 64-bit prefetchable window over the
    whole address space is the exception. *)
Theorem bridge_forwards device_reset p br l : QuietReset device_reset -> pci_ok p -> tree_ok p -> bridge_place p br -> bridge_sync p br -> Forall (bridge_write_ok p br) l ->
  exists p' br' dev', bridge_writes device_reset p br l = Ok (p', br') /\ pci_ok p' /\ devs p' !! br_dev br = Some dev' /\
    forall a, 0 <= a -> forwards (alias_io (windows br')) a = forwards_io dev' a /\ forwards (alias_mem (windows br')) a = forwards_mem dev' a /\
      (~ pref_all dev' -> forwards (alias_pref_mem (windows br')) a = forwards_pref dev' a).
Proof.
  intros Hq Hok Ht Hp Hs Hl. destruct (bridge_writes_ok device_reset l Hq p br Hok Ht Hp Hs Hl) as (p' & br' & E & Hok' & (dev' & Hd & Hw & _) & Eb). rewrite Eb in Hd.
  exists p', br', dev'. split_and!; try done. intros a Ha. rewrite Hw. apply bridge_windows_forward; [|done]. by apply (po_devs _ Hok' _ _ Hd).
Qed.
