(* ===== verification/XboxPci.v ===== *)
(** * The PCI buses of the Xbox (hw/xbox/xbox_pci.c, hw/xbox/xbox.c)

    The devices that [xbox_pci_init] and [xbox_init_common] create on the root
    bus and behind the AGP bridge, with their classes and base address registers;
    the interrupt router of the LPC bridge and its way into the 8259 controllers;
    the window of the graphics processor into its own configuration space.

    Only what the init functions do to PCI state is modelled.  [qemu_set_irq] on
    [lpc->pic] goes through [gsi_handler] to the ISA lines of the controllers. *)
From S2P Require Import Prelude I8259 Pci PciFacts PciConfig PciBridge.

(** ** The interrupt router *)
Definition XBOX_NUM_INT_IRQS : Z := 8.
Definition XBOX_NUM_PIRQS : Z := 4.
Definition XBOX_NUM_PIC_IRQS : Z := 16.
Definition XBOX_LPC_ACPI_IRQ_ROUT : Z := 0x64.
Definition XBOX_LPC_PIRQ_ROUT : Z := 0x68.
Definition XBOX_LPC_INT_IRQ_ROUT : Z := 0x6C.

(** The line of the controller that a request ends at, if any. *)
Definition pirq_route (lpc : PCIDevice) (pirq : Z) : option Z :=
  if pirq <? XBOX_NUM_INT_IRQS then
    let routing := pci_get_long (config lpc) XBOX_LPC_INT_IRQ_ROUT in
    let pic_irq := Z.land (Z.shiftr routing (pirq * 4)) 0xF in
    if pic_irq =? 0 then None else Some pic_irq
  else
    let pic_irq := byte_at (config lpc) (XBOX_LPC_PIRQ_ROUT + (pirq - XBOX_NUM_INT_IRQS)) in
    if XBOX_NUM_PIC_IRQS <=? pic_irq then None else Some pic_irq.

Definition xbox_lpc_set_irq (lpc : PCIDevice) (pic : PICs) (pirq level : Z) : outcome PICs :=
  _ ← c_assert (0 <=? pirq);
  _ ← c_assert (pirq <? XBOX_NUM_INT_IRQS + XBOX_NUM_PIRQS);
  match pirq_route lpc pirq with None => Ok pic | Some pic_irq => isa_set_irq pic pic_irq level end.

Definition xbox_lpc_map_irq (fn intx : Z) : outcome Z :=
  let slot := PCI_SLOT fn in
  if slot =? 2 then Ok 0
  else if slot =? 3 then Ok 1
  else if slot =? 4 then Ok 2
  else if slot =? 5 then Ok 3
  else if slot =? 6 then Ok 4
  else if slot =? 9 then Ok 6
  else if slot =? 30 then Ok (XBOX_NUM_INT_IRQS + 2)
  else Abort.

Definition xbox_lpc_set_acpi_irq (lpc : PCIDevice) (pic : PICs) (irq_num level : Z) : outcome PICs :=
  _ ← c_assert ((irq_num =? 0) || (irq_num =? 1));
  let routing := pci_get_long (config lpc) XBOX_LPC_ACPI_IRQ_ROUT in
  let irq := Z.land (Z.shiftr routing (irq_num * 8)) 0xff in
  if (irq =? 0) || (XBOX_NUM_PIC_IRQS <=? irq) then Ok pic else isa_set_irq pic irq level.

(** ** Device classes *)
Definition nvidia (device rev class : Z) : PCIDeviceClass :=
  {| vendor_id := 0x10de; device_id := device; revision := rev; class_id := class; subsystem_vendor_id := 0; subsystem_id := 0; is_bridge := false |}.

Definition xbox_pci_class : PCIDeviceClass := nvidia 0x02a5 161 0x0600.
Definition xbox_lpc_class : PCIDeviceClass := nvidia 0x01b2 212 0x0601.
Definition smbus_pci_class : PCIDeviceClass := nvidia 0x01b4 161 0x0c05.
Definition nvnet_class : PCIDeviceClass := nvidia 0x01c3 210 0x0200.
Definition mcpx_apu_class : PCIDeviceClass := nvidia 0x01b0 210 0x0401.
Definition mcpx_aci_class : PCIDeviceClass := nvidia 0x01b1 210 0x0401.
Definition nv2a_gpu_class : PCIDeviceClass := nvidia 0x02a0 161 0x0302.
Definition xbox_agp_class : PCIDeviceClass :=
  {| vendor_id := 0x10de; device_id := 0x01b7; revision := 161; class_id := 0; subsystem_vendor_id := 0; subsystem_id := 0; is_bridge := true |}.
Definition piix3_ide_class : PCIDeviceClass :=
  {| vendor_id := 0x8086; device_id := 0x7010; revision := 0; class_id := 0x0101; subsystem_vendor_id := 0; subsystem_id := 0; is_bridge := false |}.
Definition ohci_pci_class : PCIDeviceClass :=
  {| vendor_id := 0x106b; device_id := 0x003f; revision := 0; class_id := 0x0c03; subsystem_vendor_id := 0; subsystem_id := 0; is_bridge := false |}.

(** ** Init functions *)
Definition put_byte (a v : Z) (d : PCIDevice) : outcome PCIDevice := Ok (put_config (set_byte (config d) a v) d).
Definition PCI_CLASS_PROG : Z := 0x09.

Definition xbox_smbus_initfn (d : PCIDevice) : outcome PCIDevice := pci_register_bar d 1 PCI_BASE_ADDRESS_SPACE_IO (2 ^ 5).
Definition xbox_pm_init (d : PCIDevice) : outcome PCIDevice := pci_register_bar d 0 PCI_BASE_ADDRESS_SPACE_IO (2 ^ 8).
Definition nvnet_initfn (d : PCIDevice) : outcome PCIDevice := d ← pci_register_bar d 0 0 (2 ^ 10); pci_register_bar d 1 PCI_BASE_ADDRESS_SPACE_IO (2 ^ 3).
Definition mcpx_apu_initfn (d : PCIDevice) : outcome PCIDevice := d ← pci_register_bar d 0 0 (2 ^ 19); put_byte PCI_INTERRUPT_PIN 1 d.
Definition mcpx_aci_initfn (d : PCIDevice) : outcome PCIDevice :=
  d ← pci_register_bar d 2 0 (2 ^ 12); d ← put_byte PCI_INTERRUPT_PIN 1 d; put_byte PCI_INTERRUPT_LINE 6 d.
Definition nv2a_gpu_initfn (d : PCIDevice) : outcome PCIDevice :=
  d ← put_byte PCI_INTERRUPT_PIN 1 d; d ← put_byte PCI_INTERRUPT_LINE 3 d; pci_register_bar d 0 0 (2 ^ 24).
(** [ram_bits] is the logarithm of the size of the memory. *)
Definition nv2a_gpu_init_memory (ram_bits : Z) (d : PCIDevice) : outcome PCIDevice := pci_register_bar d 1 PCI_BASE_ADDRESS_MEM_PREFETCH (2 ^ ram_bits).
Definition pci_piix_ide_initfn (d : PCIDevice) : outcome PCIDevice := d ← put_byte PCI_CLASS_PROG 0x80 d; pci_register_bar d 4 PCI_BASE_ADDRESS_SPACE_IO (2 ^ 4).
Definition usb_ohci_initfn_pci (d : PCIDevice) : outcome PCIDevice :=
  d ← put_byte PCI_CLASS_PROG 0x10 d; d ← put_byte PCI_INTERRUPT_PIN 1 d; pci_register_bar d 0 0 (2 ^ 8).

Definition xbox_agp_initfn (p : PCI) (d : nat) : outcome (PCI * PCIBridge) :=
  dev ← dev_at p d;
  let c := pci_set_word (config dev) PCI_PREF_MEMORY_BASE 0 in
  let c := pci_set_word c PCI_PREF_MEMORY_LIMIT 0 in
  pci_bridge_initfn (put_dev p d (put_config c dev)) d.

(** ** The machine *)
Definition pci_bus_new : PCIBus := {| parent_dev := None; map_irq := fun _ _ => Abort; set_irq := false; irq_count := []; irq_calls := [] |}.

Definition pci_bus_irqs (bus : PCIBus) (map : Z -> Z -> outcome Z) (nirq : Z) : PCIBus :=
  {| parent_dev := parent_dev bus; map_irq := map; set_irq := true; irq_count := replicate (Z.to_nat nirq) 0; irq_calls := irq_calls bus |}.

Definition with_dev (p : PCI) (d : nat) (f : PCIDevice -> outcome PCIDevice) : outcome PCI := dev ← dev_at p d; dev ← f dev; Ok (put_dev p d dev).

(** [pci_create] and [qdev_init_nofail]: without a device the program ends. *)
Definition pci_create (p : PCI) (b : nat) (fn : Z) (multi : bool) (pc : PCIDeviceClass) (init : PCIDevice -> outcome PCIDevice) : outcome (PCI * nat) :=
  '(p, r) ← do_pci_register_device p b 0 fn pc true multi;
  d ← got r;
  p ← with_dev p d init;
  Ok (p, d).

Record XboxBuses := { xb_pci : PCI; xb_lpc : nat; xb_agp : PCIBridge }.

Definition xbox_pci_init : outcome XboxBuses :=
  let p := {| devs := []; buses := [pci_bus_new] |} in
  '(p, _) ← pci_create p 0 (PCI_DEVFN 0 0) true xbox_pci_class (fun d => Ok d);
  '(p, lpc) ← pci_create p 0 (PCI_DEVFN 1 0) true xbox_lpc_class (fun d => Ok d);
  bus ← bus_at p 0;
  let p := put_bus p 0 (pci_bus_irqs bus xbox_lpc_map_irq (XBOX_NUM_INT_IRQS + XBOX_NUM_PIRQS)) in
  p ← with_dev p lpc xbox_pm_init;
  '(p, _) ← pci_create p 0 (PCI_DEVFN 1 1) true smbus_pci_class xbox_smbus_initfn;
  '(p, agp) ← pci_create p 0 (PCI_DEVFN 30 0) false xbox_agp_class (fun d => Ok d);
  '(p, br) ← xbox_agp_initfn p agp;
  Ok {| xb_pci := p; xb_lpc := lpc; xb_agp := br |}.

Definition xbox_devices (ram_bits : Z) (x : XboxBuses) : outcome XboxBuses :=
  '(p, _) ← pci_create (xb_pci x) 0 (PCI_DEVFN 9 0) false piix3_ide_class pci_piix_ide_initfn;
  '(p, _) ← pci_create p 0 (PCI_DEVFN 3 0) false ohci_pci_class usb_ohci_initfn_pci;
  '(p, _) ← pci_create p 0 (PCI_DEVFN 2 0) false ohci_pci_class usb_ohci_initfn_pci;
  '(p, _) ← pci_create p 0 (PCI_DEVFN 4 0) false nvnet_class nvnet_initfn;
  '(p, _) ← pci_create p 0 (PCI_DEVFN 5 0) false mcpx_apu_class mcpx_apu_initfn;
  '(p, _) ← pci_create p 0 (PCI_DEVFN 6 0) false mcpx_aci_class mcpx_aci_initfn;
  '(p, gpu) ← pci_create p (sec_bus (xb_agp x)) (PCI_DEVFN 0 0) false nv2a_gpu_class nv2a_gpu_initfn;
  p ← with_dev p gpu (nv2a_gpu_init_memory ram_bits);
  Ok {| xb_pci := p; xb_lpc := xb_lpc x; xb_agp := xb_agp x |}.

Definition xbox_init_common (ram_bits : Z) : outcome XboxBuses := x ← xbox_pci_init; xbox_devices ram_bits x.

(** ** The graphics processor's window into its configuration space (nv2a_gpu.c) *)
Definition pbus_register (addr : Z) : option Z :=
  if addr =? 0x800 then Some 0x00
  else if addr =? 0x804 then Some PCI_COMMAND
  else if addr =? 0x808 then Some 0x08
  else if addr =? 0x80c then Some PCI_CACHE_LINE_SIZE
  else if addr =? 0x810 then Some PCI_BASE_ADDRESS_0
  else if addr =? 0x814 then Some 0x14
  else if addr =? 0x818 then Some 0x18
  else if addr =? 0x82c then Some 0x2c
  else if addr =? 0x830 then Some PCI_ROM_ADDRESS
  else if addr =? 0x834 then Some PCI_CAPABILITY_LIST
  else if addr =? 0x83c then Some PCI_INTERRUPT_LINE
  else None.

Definition pbus_read (d : PCIDevice) (addr : Z) : Z := match pbus_register addr with Some reg => pci_get_long (config d) reg | None => 0 end.

(** The identification registers are read-only. *)
Definition pbus_write (d : PCIDevice) (addr val : Z) : PCIDevice :=
  if (addr =? 0x800) || (addr =? 0x808) || (addr =? 0x82c) then d
  else match pbus_register addr with Some reg => put_config (pci_set_long (config d) reg val) d | None => d end.

(** ** The machine is well-formed *)

(** Where a device is. *)
Definition place (d : PCIDevice) : nat * Z * bool := (pd_bus d, devfn d, multifunction d).
Definition places (p : PCI) : list (nat * Z * bool) := map place (devs p).

(** An init function leaves a device that the guest has not touched. *)
Definition setup_ok (f : PCIDevice -> outcome PCIDevice) : Prop := forall d, fresh d -> unconfigured d ->
  exists d', f d = Ok d' /\ fresh d' /\ unconfigured d' /\ place d' = place d.

Lemma setup_ret : setup_ok (fun d => Ok d).
Proof. intros d Hf Hu. by exists d. Qed.

Lemma setup_bind f g : setup_ok f -> setup_ok g -> setup_ok (fun d => d ← f d; g d).
Proof.
  intros Hf Hg d Hd Hu. destruct (Hf d Hd Hu) as (d1 & -> & F1 & U1 & B1). destruct (Hg d1 F1 U1) as (d2 & E & F2 & U2 & B2). exists d2. split_and!; [exact E|done|done|congruence].
Qed.

Lemma setup_byte a v : 0 <= a < 256 -> ~ (4 <= a <= 6) -> setup_ok (put_byte a v).
Proof.
  intros Ha Hn d Hf Hu. eexists. split; [done|]. split_and!; try done; [by apply fresh_set_byte|]. apply unconfigured_set_byte; [done|apply Hf|done|lia].
Qed.

Lemma setup_bar n type k : 0 <= n < 7 -> 0 <= k <= 63 -> 0 <= type < 256 -> has_bit type PCI_BASE_ADDRESS_MEM_TYPE_64 = false -> setup_ok (fun d => pci_register_bar d n type (2 ^ k)).
Proof.
  intros Hn Hk Ht H64 d Hf Hu. destruct (pci_register_bar_ok d n type k (fr_ok _ Hf) Hu Hn Hk Ht) as (d' & E & Hok & Hu' & Hb & Hd & Hm & Hi); [congruence|]. exists d'. split_and!; try done.
  - split; [done|apply Hi, Hf|apply Hu'].
  - unfold place. congruence.
Qed.

#[local] Opaque pci_register_bar put_byte.
Ltac setup := repeat first [apply setup_ret | apply setup_byte; [done|by intros []] | apply setup_bar; [done|done|done|done] | apply setup_bind].

Record built (p : PCI) : Prop := { bu_fresh : fresh_pci p; bu_slots : slots_ok p }.

Lemma with_dev_ok p d dev f : built p -> devs p !! d = Some dev -> unconfigured dev -> setup_ok f ->
  exists p' dev', with_dev p d f = Ok p' /\ built p' /\ buses p' = buses p /\ places p' = places p /\ devs p' = <[d := dev']> (devs p) /\ unconfigured dev' /\ place dev' = place dev.
Proof.
  intros [[F1 F2] Hs] Hd Hu Hf. destruct (Hf dev (F1 d dev Hd) Hu) as (dev' & E & Hfr & Hu' & Hp). unfold with_dev, dev_at. rewrite Hd. cbn [got mbind outcome_bind]. rewrite E. cbn [mbind outcome_bind].
  exists (put_dev p d dev'), dev'. injection Hp as E1 E2 E3. split_and!; try done; [split| |unfold place; congruence].
  - split; [|done]. intros d' x [(<- & <- & _)|[_ H]]%list_lookup_insert_Some; [done|by eapply F1].
  - eapply slots_ok_same; [by eapply put_dev_topology|done].
  - change (place <$> <[d := dev']> (devs p) = place <$> devs p). rewrite list_fmap_insert. apply list_insert_id. rewrite list_lookup_fmap, Hd. cbn. unfold place. congruence.
Qed.

(** Whether a device can be registered, by the places of the others. *)
Definition taken (l : list (nat * Z * bool)) (b : nat) (fn : Z) : option bool := snd <$> List.find (fun x => (x.1.1 =? b)%nat && (x.1.2 =? fn)) l.

Definition admits (l : list (nat * Z * bool)) (b : nat) (fn : Z) (multi : bool) : bool :=
  match taken l b fn with
  | Some _ => false
  | None =>
    if negb (PCI_FUNC fn =? 0) then match taken l b (PCI_DEVFN (PCI_SLOT fn) 0) with Some m => m | None => true end
    else multi || forallb (fun func => match taken l b (PCI_DEVFN (PCI_SLOT fn) func) with Some _ => false | None => true end) [1; 2; 3; 4; 5; 6; 7]
  end.

Lemma taken_spec p b fn : taken (places p) b fn = multifunction <$> (i ← device_in_slot p b fn; devs p !! i).
Proof.
  unfold taken, places, device_in_slot. induction (devs p) as [|d l IH]; [done|]. cbn [map List.find]. cbn [list_find]. change ((place d).1.1) with (pd_bus d). change ((place d).1.2) with (devfn d).
  destruct (decide (pd_bus d = b /\ devfn d = fn)) as [[E1 E2]|Hne].
  - rewrite (proj2 (Nat.eqb_eq _ _) E1), (proj2 (Z.eqb_eq _ _) E2). done.
  - replace ((pd_bus d =? b)%nat && (devfn d =? fn)) with false.
    + rewrite IH. destruct (list_find _ l) as [[i x]|]; done.
    + symmetry. apply andb_false_iff. destruct (Nat.eqb_spec (pd_bus d) b), (Z.eqb_spec (devfn d) fn); tauto.
Qed.

Lemma taken_none p b fn : taken (places p) b fn = None -> device_in_slot p b fn = None.
Proof.
  rewrite taken_spec. intros H. destruct (device_in_slot p b fn) as [i|] eqn:E; [|done]. exfalso. cbn in H. unfold device_in_slot in E.
  apply fmap_Some in E as ([j x] & (Hj & _ & _)%list_find_Some & ->). cbn in H. by rewrite Hj in H.
Qed.

Lemma admits_spec p b fn multi d : admits (places p) b fn multi = true -> pd_bus d = b -> devfn d = fn -> multifunction d = multi ->
  device_in_slot p b fn = None /\ is_Some (pci_init_multifunction p d).
Proof.
  intros Ha E1 E2 E3. unfold admits in Ha. destruct (taken (places p) b fn) eqn:Et; [done|]. split; [by apply taken_none|]. unfold pci_init_multifunction.
  set (d0 := if multifunction d then put_config _ _ else d). assert (F : pd_bus d0 = b /\ devfn d0 = fn /\ multifunction d0 = multi) by (subst d0; destruct (multifunction d) eqn:Em; cbn; split_and!; congruence).
  destruct F as (F1 & F2 & F3). rewrite F1, F2, F3, E2. destruct (negb (PCI_FUNC fn =? 0)).
  - rewrite taken_spec in Ha. destruct (i ← device_in_slot p b (PCI_DEVFN (PCI_SLOT fn) 0); devs p !! i) as [f0|]; [|by eexists]. cbn in Ha. rewrite Ha. by eexists.
  - destruct multi; [by eexists|]. cbn [orb] in Ha. rewrite forallb_forall in Ha.
    assert (Hall : forallb (fun func => match device_in_slot p b (PCI_DEVFN (PCI_SLOT fn) func) with Some _ => false | None => true end) [1; 2; 3; 4; 5; 6; 7] = true); [|rewrite Hall; by eexists].
    apply forallb_forall. intros func Hin. specialize (Ha func Hin). destruct (taken (places p) b (PCI_DEVFN (PCI_SLOT fn) func)) eqn:Ef; [done|]. by rewrite taken_none.
Qed.

(** What [pci_create] makes. *)
Lemma pci_create_ok p b fn multi pc init : built p -> 0 <= fn -> no_subsystem pc = true -> admits (places p) b fn multi = true ->
  (is_bridge pc = false /\ setup_ok init) \/ init = (fun d => Ok d) ->
  exists p' dev, pci_create p b fn multi pc init = Ok (p', length (devs p)) /\ built p' /\ buses p' = buses p /\ places p' = places p ++ [(b, fn, multi)] /\
    devs p' !! length (devs p) = Some dev /\ (is_bridge pc = false -> unconfigured dev).
Proof.
  intros [Hf Hs] Hfn Hsub Ha Hi. assert (Hnew : exists d0, new_device b fn pc true multi = Ok d0) by (unfold new_device; rewrite Hsub, orb_true_r; by eexists). destruct Hnew as [d0 Ed].
  destruct (new_device_ok _ _ _ _ _ _ Ed) as (_ & N1 & N2 & N3 & _). destruct (admits_spec p b fn multi d0 Ha N1 N2 N3) as [Hslot [d1 Em]].
  assert (E : do_pci_register_device p b 0 fn pc true multi = Ok ({| devs := devs p ++ [d1]; buses := buses p |}, Some (length (devs p)))).
  { unfold do_pci_register_device. rewrite (proj2 (Z.ltb_ge _ _)) by lia. rewrite Hslot, Ed. cbn [mbind outcome_bind]. by rewrite Em. }
  destruct (do_pci_register_device_ok p b 0 fn pc true multi _ _ Hf Hs E) as [[? _]|(d & _ & Ed2 & _ & Hf1 & Hs1 & Hb & Hn & Hmu & Hfd & Hu)]; [done|]. cbn [devs] in Ed2. apply app_inj_tail in Ed2 as [_ <-].
  specialize (Hn Hfn). unfold pci_create. rewrite E. cbn [mbind outcome_bind got]. set (p1 := {| devs := devs p ++ [d1]; buses := buses p |}) in *.
  assert (H1 : devs p1 !! length (devs p) = Some d1) by (cbn; rewrite lookup_app_r, Nat.sub_diag by lia; done).
  assert (Hpl : places p1 = places p ++ [(b, fn, multi)]) by (unfold places; cbn; rewrite map_app; cbn; unfold place at 2; congruence).
  destruct Hi as [[Hbr Hi]| ->].
  - destruct (with_dev_ok p1 (length (devs p)) d1 init) as (p2 & d2 & E2 & B2 & Hbus & Hpl2 & Hdevs & Hu2 & _); [done|done|by apply Hu|done|]. rewrite E2. cbn [mbind outcome_bind].
    exists p2, d2. split_and!; try done; [congruence|]. rewrite Hdevs. rewrite list_lookup_insert_eq; [done|]. by eapply lookup_lt_Some.
  - unfold with_dev, dev_at. rewrite H1. cbn [got mbind outcome_bind]. exists p1, d1. assert (put_dev p1 (length (devs p)) d1 = p1) as -> by (unfold put_dev; rewrite list_insert_id by done; by destruct p1).
    split_and!; try done.
Qed.

Lemma put_words_fresh d a v v' : fresh d -> 8 <= a -> a + 4 <= 256 -> fresh (put_config (pci_set_word (pci_set_word (config d) a v) (a + 2) v') d).
Proof.
  intros Hf Ha Hn. pose proof (fr_ok _ Hf) as [[T1 _ _ _ _] _].
  assert (E : forall b, 0 <= b < 8 -> byte_at (pci_set_word (pci_set_word (config d) a v) (a + 2) v') b = byte_at (config d) b).
  { intros b Hb. unfold pci_set_word. rewrite byte_at_set_le_other by (first [by apply bytes_ok_set_le|lia]). apply byte_at_set_le_other; done || lia. }
  apply fresh_config; [done|by apply bytes_ok_set_le, bytes_ok_set_le|apply E; lia|apply E; lia|by rewrite E by (unfold PCI_STATUS; lia)].
Qed.

(** The AGP bridge. *)
Lemma xbox_agp_initfn_ok p d dev : built p -> devs p !! d = Some dev -> buses p <> [] ->
  exists p' br bus, xbox_agp_initfn p d = Ok (p', br) /\ built p' /\ bridge_sync p' br /\ bridge_place p' br /\ br_dev br = d /\ sec_bus br = length (buses p) /\
    places p' = places p /\ buses p' = buses p ++ [bus] /\
    bus = {| parent_dev := Some d; map_irq := fun fn pin => Ok (pci_swizzle_map_irq_fn fn pin); set_irq := false; irq_count := []; irq_calls := [] |}.
Proof.
  intros [[F1 F2] Hs] Hd Hb. unfold xbox_agp_initfn, dev_at. rewrite Hd. cbn [got mbind outcome_bind]. set (dev1 := put_config _ dev). set (p1 := put_dev p d dev1).
  assert (Hf1 : fresh_pci p1).
  { split; [|done]. intros d' x [(<- & <- & _)|[_ H]]%list_lookup_insert_Some; [|by eapply F1]. apply put_words_fresh; [by eapply F1|done|done]. }
  assert (Hs1 : slots_ok p1) by (eapply slots_ok_same; [by eapply put_dev_topology|done]).
  assert (H1 : devs p1 !! d = Some dev1) by (cbn; rewrite list_lookup_insert_eq; [done|by eapply lookup_lt_Some]).
  destruct (pci_bridge_initfn_ok p1 d dev1 Hf1 Hs1 H1 Hb) as (p2 & br & E & Hf2 & Hs2 & Hsy & Hpl & Ebr & Esec). pose proof E as E'.
  unfold pci_bridge_initfn, dev_at in E'. rewrite H1 in E'. cbn [got mbind outcome_bind] in E'. rewrite pci_bridge_region_init_ok in E'. cbn [mbind outcome_bind] in E'. injection E' as E2 _.
  exists p2, br, {| parent_dev := Some d; map_irq := fun fn pin => Ok (pci_swizzle_map_irq_fn fn pin); set_irq := false; irq_count := []; irq_calls := [] |}.
  split; [done|]. split; [by split|]. do 4 (split; [done|]). split; [|split; [by rewrite <- E2|done]]. rewrite <- E2.
  change (place <$> <[d := put_config (bridge_config (config dev1)) dev1]> (<[d := dev1]> (devs p)) = place <$> devs p). rewrite list_insert_insert_eq, list_fmap_insert.
  apply list_insert_id. by rewrite list_lookup_fmap, Hd.
Qed.

Lemma places_length p : length (devs p) = length (places p).
Proof. unfold places. by rewrite length_map. Qed.

(** One more device: the next step of the set-up starts from a built machine. *)
Ltac create p b fn multi pc init B tac :=
  let p' := fresh "p" in let dev := fresh "dev" in let E := fresh "E" in let B' := fresh "B" in let Hb := fresh "Hb" in let Hp := fresh "Hp" in let Hd := fresh "Hd" in let Hu := fresh "Hu" in
  destruct (pci_create_ok p b fn multi pc init B) as (p' & dev & E & B' & Hb & Hp & Hd & Hu);
    [done|reflexivity|match goal with H : places p = _ |- _ => rewrite H end; vm_compute; reflexivity|tac|
     rewrite E; clear E; cbn [mbind outcome_bind]; rewrite places_length in Hd; rewrite ?(places_length p); match goal with H : places p = _ |- _ => rewrite H in Hp, Hd; rewrite ?H end;
     match goal with H : buses p = _ |- _ => rewrite H in Hb end; cbn [app length] in Hp, Hd |- *].

Definition root_bus : PCIBus := pci_bus_irqs pci_bus_new xbox_lpc_map_irq (XBOX_NUM_INT_IRQS + XBOX_NUM_PIRQS).
Definition agp_bus : PCIBus :=
  {| parent_dev := Some 3%nat; map_irq := fun fn pin => Ok (pci_swizzle_map_irq_fn fn pin); set_irq := false; irq_count := []; irq_calls := [] |}.

Lemma xbox_pci_init_ok : exists x, xbox_pci_init = Ok x /\ built (xb_pci x) /\ buses (xb_pci x) = [root_bus; agp_bus] /\ xb_lpc x = 1%nat /\
  places (xb_pci x) = [(0%nat, 0, true); (0%nat, 8, true); (0%nat, 9, true); (0%nat, 240, false)] /\
  bridge_sync (xb_pci x) (xb_agp x) /\ bridge_place (xb_pci x) (xb_agp x) /\ br_dev (xb_agp x) = 3%nat /\ sec_bus (xb_agp x) = 1%nat.
Proof.
  unfold xbox_pci_init. set (p0 := {| devs := []; buses := [pci_bus_new] |}).
  assert (B0 : built p0).
  { split; [split|]; [by intros d dev H| |by intros d1 d2 x1 x2 H]. intros b bus H. apply list_lookup_singleton_Some in H as [_ <-]. done. }
  assert (P0 : places p0 = []) by done. assert (Q0 : buses p0 = [pci_bus_new]) by done.
  create p0 0%nat (PCI_DEVFN 0 0) true xbox_pci_class (fun d : PCIDevice => Ok d) B0 ltac:(by right).
  create p 0%nat (PCI_DEVFN 1 0) true xbox_lpc_class (fun d : PCIDevice => Ok d) B ltac:(by right).
  unfold bus_at. rewrite Hb0. cbn [lookup list_lookup got mbind outcome_bind]. set (p2 := put_bus p1 0 _).
  assert (B2 : built p2).
  { destruct B1 as [[F1 F2] S1]. split; [|done]. split; [done|]. subst p2. cbn [buses put_bus]. rewrite Hb0. intros b bus H. destruct b as [|b]; cbn in H; [|done]. injection H as <-. split; [|done]. apply Forall_replicate. done. }
  destruct (with_dev_ok p2 1 dev0 xbox_pm_init B2 Hd0 (Hu0 eq_refl)) as (p3 & dev1 & E3 & B3 & Hb3 & Hp3 & _); [unfold xbox_pm_init; setup|].
  rewrite E3. cbn [mbind outcome_bind]. change (places p2) with (places p1) in Hp3. rewrite Hp0 in Hp3. change (buses p2) with (<[0%nat := root_bus]> (buses p1)) in Hb3. rewrite Hb0 in Hb3. cbn in Hb3.
  create p3 0%nat (PCI_DEVFN 1 1) true smbus_pci_class xbox_smbus_initfn B3 ltac:(left; split; [reflexivity|unfold xbox_smbus_initfn; setup]).
  create p4 0%nat (PCI_DEVFN 30 0) false xbox_agp_class (fun d : PCIDevice => Ok d) B4 ltac:(by right).
  destruct (xbox_agp_initfn_ok p5 3 dev3 B5 Hd2) as (p6 & br & bus & E6 & B6 & Hsy & Hpl & Ebr & Esec & Hp6 & Hb6 & ->); [by rewrite Hb2|]. rewrite E6. cbn [mbind outcome_bind].
  eexists. split; [reflexivity|]. cbn [xb_pci xb_lpc xb_agp]. rewrite Hp6, Hp2, Hb6, Hb2. split_and!; try done. by rewrite Esec, Hb2.
Qed.

Lemma xbox_devices_ok ram_bits x : 0 <= ram_bits <= 63 -> built (xb_pci x) -> buses (xb_pci x) = [root_bus; agp_bus] -> sec_bus (xb_agp x) = 1%nat ->
  places (xb_pci x) = [(0%nat, 0, true); (0%nat, 8, true); (0%nat, 9, true); (0%nat, 240, false)] ->
  exists p, xbox_devices ram_bits x = Ok {| xb_pci := p; xb_lpc := xb_lpc x; xb_agp := xb_agp x |} /\ built p /\ buses p = [root_bus; agp_bus] /\
    places p = places (xb_pci x) ++ [(0%nat, 72, false); (0%nat, 24, false); (0%nat, 16, false); (0%nat, 32, false); (0%nat, 40, false); (0%nat, 48, false); (1%nat, 0, false)].
Proof.
  intros Hr B Qx Hsec Px. unfold xbox_devices. rewrite Hsec. set (p0 := xb_pci x) in *. clearbody p0.
  create p0 0%nat (PCI_DEVFN 9 0) false piix3_ide_class pci_piix_ide_initfn B ltac:(left; split; [reflexivity|unfold pci_piix_ide_initfn; setup]).
  create p 0%nat (PCI_DEVFN 3 0) false ohci_pci_class usb_ohci_initfn_pci B0 ltac:(left; split; [reflexivity|unfold usb_ohci_initfn_pci; setup]).
  create p1 0%nat (PCI_DEVFN 2 0) false ohci_pci_class usb_ohci_initfn_pci B1 ltac:(left; split; [reflexivity|unfold usb_ohci_initfn_pci; setup]).
  create p2 0%nat (PCI_DEVFN 4 0) false nvnet_class nvnet_initfn B2 ltac:(left; split; [reflexivity|unfold nvnet_initfn; setup]).
  create p3 0%nat (PCI_DEVFN 5 0) false mcpx_apu_class mcpx_apu_initfn B3 ltac:(left; split; [reflexivity|unfold mcpx_apu_initfn; setup]).
  create p4 0%nat (PCI_DEVFN 6 0) false mcpx_aci_class mcpx_aci_initfn B4 ltac:(left; split; [reflexivity|unfold mcpx_aci_initfn; setup]).
  create p5 1%nat (PCI_DEVFN 0 0) false nv2a_gpu_class nv2a_gpu_initfn B5 ltac:(left; split; [reflexivity|unfold nv2a_gpu_initfn; setup]).
  destruct (with_dev_ok p6 10 dev5 (nv2a_gpu_init_memory ram_bits) B6 Hd5 (Hu5 eq_refl)) as (p7 & dev6 & -> & B7 & Hb7 & Hp7 & _); [by apply setup_bar|].
  cbn [mbind outcome_bind]. exists p7. rewrite Hp7, Hp5, Hb7. done.
Qed.

Definition xbox_places : list (nat * Z * bool) :=
  [(0%nat, 0, true); (0%nat, 8, true); (0%nat, 9, true); (0%nat, 240, false); (0%nat, 72, false); (0%nat, 24, false); (0%nat, 16, false); (0%nat, 32, false);
   (0%nat, 40, false); (0%nat, 48, false); (1%nat, 0, false)].

(** The machine that [xbox_init_common] builds. *)
Record xbox_machine (x : XboxBuses) : Prop := {
  xm_built : built (xb_pci x);
  xm_buses : buses (xb_pci x) = [root_bus; agp_bus];
  xm_places : places (xb_pci x) = xbox_places;
  xm_lpc : xb_lpc x = 1%nat;
  xm_agp : br_dev (xb_agp x) = 3%nat /\ sec_bus (xb_agp x) = 1%nat
}.

Lemma xbox_init_common_ok ram_bits : 0 <= ram_bits <= 63 -> exists x, xbox_init_common ram_bits = Ok x /\ xbox_machine x.
Proof.
  intros Hr. destruct xbox_pci_init_ok as (x & E & B & Q & L & P & _ & _ & A1 & A2). unfold xbox_init_common. rewrite E. cbn [mbind outcome_bind].
  destruct (xbox_devices_ok ram_bits x Hr B Q A2 P) as (p & -> & B' & Q' & P'). eexists. split; [done|]. split; cbn [xb_pci xb_lpc xb_agp]; try done. by rewrite P', P.
Qed.

(** A machine with the same buses and places. *)
Definition skeleton : PCI := {| devs := map (fun x => plain_device x.1.1 x.1.2 xbox_pci_class true x.2) xbox_places; buses := [root_bus; agp_bus] |}.

Lemma skeleton_topology p : places p = xbox_places -> buses p = [root_bus; agp_bus] -> same_topology skeleton p.
Proof.
  intros Hp Hb. split; cbn [buses skeleton]; rewrite ?Hb; try done.
  - by rewrite !places_length, Hp.
  - intros d. assert (E : place <$> devs p !! d = place <$> devs skeleton !! d).
    { change (places p) with (place <$> devs p) in Hp. rewrite <- !list_lookup_fmap, Hp. reflexivity. }
    destruct (devs p !! d) as [x|], (devs skeleton !! d) as [y|]; try done. injection E as E1 E2 _. cbn. congruence.
  - intros b bus bus' H1 H2. exists []. rewrite app_nil_r. split; [congruence|done].
Qed.

Definition route_check (p : PCI) (d : nat) : bool :=
  forallb (fun pin => match route_of p d pin with
                      | Ok (b, i) => match buses p !! b with Some bus => set_irq bus && (0 <=? i) && (i <? Z.of_nat (length (irq_count bus))) | None => false end
                      | _ => false end) pins.

Lemma route_check_ok p d : route_check p d = true -> wired p d.
Proof.
  intros H pin Hp. unfold route_check in H. rewrite forallb_forall in H. specialize (H pin). rewrite <- list_elem_of_In in H. specialize (H Hp).
  destruct (route_of p d pin) as [[b i]| |] eqn:E; try done. destruct (buses p !! b) as [bus|] eqn:Eb; [|done]. apply andb_true_iff in H as [[H1 H2%Z.leb_le]%andb_true_iff H3%Z.ltb_lt].
  exists b, i, bus. done.
Qed.

(** All devices but the host bridge and the functions of the LPC bridge have
    wired interrupt pins. *)
Lemma xbox_wired p d : places p = xbox_places -> buses p = [root_bus; agp_bus] -> (3 <= d <= 10)%nat -> wired p d.
Proof.
  intros Hp Hb Hd. apply (wired_same skeleton); [by apply skeleton_topology|]. apply route_check_ok.
  assert (H : forallb (route_check skeleton) (seq 3 8) = true) by (vm_compute; reflexivity). rewrite forallb_forall in H. apply H, in_seq. lia.
Qed.

Lemma skeleton_tree : tree_ok skeleton.
Proof.
  split.
  - cbn. lia.
  - intros [|[|c]] bus H Hc; cbn in H; try done. by injection H as <-.
  - intros bus H. cbn in H. by injection H as <-.
  - intros [|[|c]] bus d dev H Hpar Hd; cbn in H; try done; injection H as <-; cbn in Hpar; [done|]. injection Hpar as <-. cbn in Hd. injection Hd as <-. cbn. lia.
  - intros d Hd. assert (H : forallb (fun d => bool_decide (d ∈ reset_order 2 skeleton 0)) (seq 0 11) = true) by (vm_compute; reflexivity).
    rewrite forallb_forall in H. specialize (H d). apply bool_decide_eq_true in H; [done|]. apply in_seq. cbn in Hd. lia.
Qed.

Lemma xbox_tree p : places p = xbox_places -> buses p = [root_bus; agp_bus] -> tree_ok p.
Proof. intros Hp Hb. eapply tree_ok_same; [by apply skeleton_topology|apply skeleton_tree]. Qed.

(** ** Claims about devices and buses *)

(** C11 (invariant): from any well-formed state, any sequence of configuration
    writes, pin changes, device resets and resets of a bus with all below it runs
    without failing an assertion.  Afterwards every region is mapped exactly where
    its base address register and the command register say, the interrupt bit of
    each status register tells whether a pin is raised, and each line of the
    controller counts the raised pins of enabled devices that are routed to it and
    is high if there is one.  Excluded are the writes for which this fails: those
    that start at the high byte of the command register ([byte_write_misses_intx]),
    and those that disable the interrupts of a device without an interrupt line
    ([host_bridge_intx_aborts]); such a device is also assumed to raise no pin. *)
Theorem pci_in_sync device_reset p es : QuietReset device_reset -> pci_ok p -> Forall (pci_event_ok p) es ->
  exists p', ofold (pci_step device_reset) p es = Ok p' /\
    (forall d dev, devs p' !! d = Some dev ->
      (forall i r, io_regions dev !! i = Some r -> r_size r <> 0 ->
        r_mapped r = let a := pci_bar_address dev (Z.of_nat i) (r_type r) (r_size r) in if a =? PCI_BAR_UNMAPPED then None else Some a) /\
      has_bit (byte_at (config dev) PCI_STATUS) PCI_STATUS_INTERRUPT = negb (irq_state dev =? 0)) /\
    (forall b bus i, buses p' !! b = Some bus -> set_irq bus = true -> 0 <= i < Z.of_nat (length (irq_count bus)) ->
      irq_count bus !! Z.to_nat i = Some (total p' (contrib p') b i) /\ line_level (irq_calls bus) i = b2z (negb (total p' (contrib p') b i =? 0))).
Proof.
  intros Hq Hok Hes. destruct (pci_steps_ok device_reset es p Hok Hes) as (p' & E & [P1 P2 P3] & _). exists p'. split; [done|]. split.
  - intros d dev Hd. destruct (P1 d dev Hd) as (Ht & Hm & Hs). split; [|done]. intros i r Hi Hz. destruct (Hm i r Hi Hz) as [Ha Hma]. cbn zeta. by rewrite Hma, Ha.
  - intros b bus i Hb Hs Hi. by apply P3.
Qed.

(** ** Configuration writes on the buses of the Xbox *)

(** [config_write] of the devices: the AGP bridge has its own, all others the
    default. *)
Definition xbox_config_write (device_reset : PCI -> nat -> outcome PCI) (x : XboxBuses) (d : nat) (addr val : Z) (len : nat) : outcome XboxBuses :=
  if (d =? br_dev (xb_agp x))%nat then
    '(p, br) ← pci_bridge_write_config device_reset (xb_pci x) (xb_agp x) addr val len; Ok {| xb_pci := p; xb_lpc := xb_lpc x; xb_agp := br |}
  else p ← pci_default_write_config (xb_pci x) d addr val len; Ok {| xb_pci := p; xb_lpc := xb_lpc x; xb_agp := xb_agp x |}.

Definition xbox_config (device_reset : PCI -> nat -> outcome PCI) : ConfigSpace XboxBuses := {| pci_of := xb_pci; config_write := xbox_config_write device_reset |}.

Record xbox_space (x : XboxBuses) : Prop := {
  xs_pci : pci_ok (xb_pci x);
  xs_slots : slots_ok (xb_pci x);
  xs_tree : tree_ok (xb_pci x);
  xs_place : bridge_place (xb_pci x) (xb_agp x);
  xs_sync : bridge_sync (xb_pci x) (xb_agp x)
}.

Lemma bridge_sync_other p p' br d : (forall d', d' <> d -> devs p' !! d' = devs p !! d') -> br_dev br <> d -> bridge_sync p br -> bridge_sync p' br.
Proof. intros Ho Hne (dev & Hd & Hs). exists dev. by rewrite Ho. Qed.

#[export] Program Instance xbox_handlers (device_reset : PCI -> nat -> outcome PCI) `{!QuietReset device_reset} : @ConfigHandlers XboxBuses (xbox_config device_reset) :=
  @Build_ConfigHandlers XboxBuses (xbox_config device_reset) xbox_space _ _.
Next Obligation. by intros device_reset _ x [H1 H2 _ _ _]. Qed.
Next Obligation.
  intros device_reset Hq x d dev addr val n [H1 H2 H3 H4 H5] Hd Hw Ha Hne Hn. cbn [pci_of config_write xbox_config] in *. unfold xbox_config_write. destruct (Nat.eqb_spec d (br_dev (xb_agp x))) as [->|Hb].
  - destruct (pci_bridge_write_config_field device_reset (xb_pci x) (xb_agp x) dev addr val n) as (p' & br' & dev' & E & Hok & T & Hs & B1 & B2 & Hd' & Hfr & Hf & Hout & Hoth); try done.
    rewrite E. cbn [mbind outcome_bind]. eexists _, dev'. split; [done|]. cbn [xb_pci xb_agp]. split_and!; try done.
    + split; cbn [xb_pci xb_agp]; try done; [by apply (slots_ok_same (xb_pci x))|by apply (tree_ok_same (xb_pci x))|].
      apply (bridge_place_same (xb_pci x)); [done|]. destruct H4 as (bus & ? & ? & ?). exists bus. by rewrite B1, B2.
    + intros d' x0 Hd0 Hx [Hc|Hc]; [by apply Hoth|]. destruct H4 as (bus & Hbus & Hpar & _). exfalso.
      assert (Hin : sec_bus (xb_agp x) ∈ sec_buses (xb_pci x) (br_dev (xb_agp x))); [|rewrite Hc in Hin; by apply elem_of_nil in Hin].
      apply list_elem_of_In, filter_In. rewrite Hbus. split; [|by apply bool_decide_eq_true]. rewrite <- in_rev. apply in_seq. apply lookup_lt_Some in Hbus. lia.
  - destruct (write_config_field (xb_pci x) d dev addr val n) as (p' & dev' & E & Hok & T & Hoth & Hd' & Hfr & Hf & Hout); try done. rewrite E. cbn [mbind outcome_bind].
    eexists _, dev'. split; [done|]. cbn [xb_pci xb_agp]. split_and!; try done.
    + split; cbn [xb_pci xb_agp]; try done; [by apply (slots_ok_same (xb_pci x))|by apply (tree_ok_same (xb_pci x))|by apply (bridge_place_same (xb_pci x))|].
      by apply (bridge_sync_other (xb_pci x) p' _ d).
    + intros d' x0 Hd0 Hx _. by rewrite Hoth.
Qed.

#[local] Opaque xbox_init_common.
(** The machine with 64 MiB of memory. *)
Definition xbox64 : XboxBuses := match xbox_init_common 26 with Ok x => x | _ => {| xb_pci := skeleton; xb_lpc := 0; xb_agp := {| br_dev := 0; sec_bus := 0; windows := bridge_windows (plain_device 0 0 xbox_pci_class true true); has_vga := None |} |} end.

Lemma xbox64_ok : xbox_init_common 26 = Ok xbox64 /\ xbox_machine xbox64.
Proof. destruct (xbox_init_common_ok 26) as (x & E & M); [lia|]. unfold xbox64. rewrite E. split; [reflexivity|exact M]. Qed.
#[local] Opaque xbox64.

(** The graphics processor raises its pin, decoding is switched on and off, and
    the bus behind the bridge and the machine are reset. *)
Definition sample_events : list PciEvent :=
  [PciIrq 10 0 1; PciWrite 10 0x10 0xfd000000 4; PciWrite 10 4 0x0407 2; PciWrite 1 0x6c 0x0e065100 4; PciIrq 5 0 1; PciReset 5; PciBusReset 1; PciBusReset 0].

Lemma xbox_sample_ok : Forall (pci_event_ok (xb_pci xbox64)) sample_events.
Proof.
  destruct xbox64_ok as [_ [B Q P L A]]. assert (Hn : length (devs (xb_pci xbox64)) = 11%nat) by (by rewrite places_length, P).
  assert (W : forall d, (3 <= d <= 10)%nat -> wired (xb_pci xbox64) d) by (intros d; by apply xbox_wired). assert (T : tree_ok (xb_pci xbox64)) by (by apply xbox_tree).
  repeat (apply Forall_cons; split; [cbn [pci_event_ok]; rewrite ?Hn|]); [..|apply Forall_nil]; try (split; [exact T|rewrite Q; cbn; lia]); try lia.
  - split; [lia|]. split; [apply W; lia|lia].
  - split; [lia|]. split; [left; apply W; lia|lia].
  - split; [lia|]. split; [left; apply W; lia|lia].
  - split; [lia|]. split; [right; intros H; lia|lia].
  - split; [lia|]. split; [apply W; lia|lia].
Qed.

Lemma pci_in_sync_witness : exists p', ofold (pci_step (fun p _ => Ok p)) (xb_pci xbox64) sample_events = Ok p' /\
  forall bus, buses p' !! 0%nat = Some bus -> set_irq bus = true -> length (irq_count bus) = 12%nat -> irq_count bus !! 10%nat = Some (total p' (contrib p') 0 10).
Proof.
  destruct (pci_in_sync (fun p _ => Ok p) (xb_pci xbox64) sample_events) as (p' & E & _ & H).
  - exact quiet_reset_none.
  - apply fresh_pci_ok, xbox64_ok.
  - exact xbox_sample_ok.
  - exists p'. split; [exact E|]. intros bus Hb Hs Hl. destruct (H 0%nat bus 10 Hb Hs) as [H1 _]; [rewrite Hl; lia|exact H1].
Defined.

Lemma Ok_inj {A} (a b : A) : Ok a = Ok b -> a = b.
Proof. by injection 1. Qed.

(** C17 (type): the devices of the Xbox are well-typed however large its memory is
    and whatever is done to them.  The machine is built without a failing
    assertion; after any sequence of events every device still has 256 bytes of
    configuration space, masks that do not overlap, seven regions whose addresses
    fit into 64 bits and whose sizes are powers of two, and four interrupt pins. *)
Theorem xbox_devices_typed device_reset ram_bits es : QuietReset device_reset -> 0 <= ram_bits <= 63 ->
  exists x, xbox_init_common ram_bits = Ok x /\ (Forall (pci_event_ok (xb_pci x)) es ->
    exists p', ofold (pci_step device_reset) (xb_pci x) es = Ok p' /\ length (devs p') = 11%nat /\ forall d dev, devs p' !! d = Some dev -> dev_typed dev).
Proof.
  intros Hq Hr. destruct (xbox_init_common_ok ram_bits Hr) as (x & E & M). exists x. split; [exact E|]. intros Hes.
  destruct (pci_steps_ok device_reset es (xb_pci x)) as (p' & Ep & Hok & T); [apply fresh_pci_ok, M|exact Hes|]. exists p'. split; [exact Ep|]. split.
  - by rewrite (st_devs _ _ T), places_length, (xm_places _ M).
  - intros d dev Hd. by apply (po_devs _ Hok d dev).
Qed.

Lemma xbox_devices_typed_witness : exists p', ofold (pci_step (fun p _ => Ok p)) (xb_pci xbox64) sample_events = Ok p' /\ forall d dev, devs p' !! d = Some dev -> dev_typed dev.
Proof.
  destruct (xbox_devices_typed (fun p _ => Ok p) 26 sample_events) as (x & E & H); [exact quiet_reset_none|lia|]. pose proof (proj1 xbox64_ok) as E'. rewrite E in E'. apply Ok_inj in E'. rewrite E' in H.
  destruct (H xbox_sample_ok) as (p' & Ep & _ & Ht). exists p'. split; [exact Ep|exact Ht].
Defined.

(** The graphics processor, before anything happens. *)
Definition gpu64 : PCIDevice := match devs (xb_pci xbox64) !! 10%nat with Some d => d | None => plain_device 0 0 xbox_pci_class true true end.

Lemma gpu64_ok : devs (xb_pci xbox64) !! 10%nat = Some gpu64.
Proof.
  unfold gpu64. destruct (devs (xb_pci xbox64) !! 10%nat) eqn:E; [done|]. apply lookup_ge_None in E. rewrite places_length, (xm_places _ (proj2 xbox64_ok)) in E. cbn in E. lia.
Qed.

Definition region_of (d : PCIDevice) (n : nat) : PCIIORegion := match io_regions d !! n with Some r => r | None => no_region end.

Lemma gpu64_bar : bar32 gpu64 0 24 (region_of gpu64 0).
Proof.
  split; try (vm_compute; reflexivity); [lia|lia|vm_compute; split; [discriminate|reflexivity]|]. right. vm_compute. reflexivity.
Qed.

Lemma bar_sizing_and_mapping_witness : exists p1 dev1 p2 p3 dev3 r3, pci_default_write_config (xb_pci xbox64) 10 (pci_bar gpu64 0) 0xffffffff 4 = Ok p1 /\
  devs p1 !! 10%nat = Some dev1 /\ pci_default_read_config dev1 (pci_bar gpu64 0) 4 = Ok 0xff000000 /\
  pci_default_write_config p1 10 (pci_bar gpu64 0) 0xfd000000 4 = Ok p2 /\ pci_default_write_config p2 10 PCI_COMMAND 3 2 = Ok p3 /\
  devs p3 !! 10%nat = Some dev3 /\ io_regions dev3 !! 0%nat = Some r3 /\ r_mapped r3 = Some 0xfd000000.
Proof.
  destruct (bar_sizing_and_mapping (xb_pci xbox64) 10 gpu64 0 24 (region_of gpu64 0) 0xfd000000) as (p1 & dev1 & p2 & p3 & dev3 & r3 & H1 & H2 & H3 & H4 & H5 & H6 & H7 & _ & H8).
  - apply fresh_pci_ok, xbox64_ok.
  - exact gpu64_ok.
  - exact gpu64_bar.
  - vm_compute. reflexivity.
  - lia.
  - vm_compute. reflexivity.
  - vm_compute. discriminate.
  - exists p1, dev1, p2, p3, dev3, r3. split; [exact H1|]. split; [exact H2|]. split; [|split; [exact H4|split; [exact H5|split; [exact H6|split; [exact H7|exact H8]]]]].
    rewrite H3. replace (r_type (region_of gpu64 0)) with 0 by (vm_compute; reflexivity). reflexivity.
Defined.

Definition usb64 : PCIDevice := match devs (xb_pci xbox64) !! 5%nat with Some d => d | None => plain_device 0 0 xbox_pci_class true true end.

Lemma usb64_ok : devs (xb_pci xbox64) !! 5%nat = Some usb64.
Proof.
  unfold usb64. destruct (devs (xb_pci xbox64) !! 5%nat) eqn:E; [done|]. apply lookup_ge_None in E. rewrite places_length, (xm_places _ (proj2 xbox64_ok)) in E. cbn in E. lia.
Qed.

Definition agp64 : PCIDevice := match devs (xb_pci xbox64) !! 3%nat with Some d => d | None => plain_device 0 0 xbox_pci_class true true end.

Lemma agp64_ok : devs (xb_pci xbox64) !! 3%nat = Some agp64.
Proof.
  unfold agp64. destruct (devs (xb_pci xbox64) !! 3%nat) eqn:E; [done|]. apply lookup_ge_None in E. rewrite places_length, (xm_places _ (proj2 xbox64_ok)) in E. cbn in E. lia.
Qed.

Lemma agp64_sync : bridge_sync (xb_pci xbox64) (xb_agp xbox64).
Proof. exists agp64. split; [|split; vm_compute; reflexivity]. rewrite (proj1 (xm_agp _ (proj2 xbox64_ok))). exact agp64_ok. Qed.

Lemma agp64_place : bridge_place (xb_pci xbox64) (xb_agp xbox64).
Proof. destruct xbox64_ok as [_ M]. exists agp_bus. rewrite (xm_buses _ M), (proj1 (xm_agp _ M)), (proj2 (xm_agp _ M)). split; [reflexivity|]. split; [reflexivity|lia]. Qed.

(** Without reset functions of the devices' own. *)
#[local] Instance xbox_quiet_config : ConfigSpace XboxBuses := xbox_config (fun p _ => Ok p).
#[local] Instance xbox_quiet_handlers : ConfigHandlers XboxBuses := xbox_handlers (fun p _ => Ok p).

Lemma xbox64_space : space_ok xbox64.
Proof.
  destruct xbox64_ok as [_ M]. split; [apply fresh_pci_ok, M|apply M|apply xbox_tree; apply M|exact agp64_place|exact agp64_sync].
Qed.

(** The firmware sets the reset bit of the AGP bridge through the ports: the bridge
    keeps its other registers, and so do the devices of the root bus. *)
Lemma config_ports_write_read_witness : exists h',
  pci_host_data_write (pci_host_config_write {| host_space := xbox64; config_reg := 0 |} 0 (config_address 0xf0 0x3c) 4) 2 0x40 2 = Ok h' /\
  pci_host_data_read h' 2 2 = Ok 0x40 /\ devs (xb_pci (host_space h')) !! 5%nat = Some usb64.
Proof.
  destruct xbox64_ok as [_ M].
  destruct (config_ports_write_read {| host_space := xbox64; config_reg := 0 |} 0xf0 0x3c 2 2 0x40 3 agp64 root_bus) as (h' & dev' & H1 & _ & H2 & _ & _ & H3).
  - exact xbox64_space.
  - change (buses (xb_pci xbox64) !! 0%nat = Some root_bus). by rewrite (xm_buses _ M).
  - reflexivity.
  - exact agp64_ok.
  - vm_compute. reflexivity.
  - vm_compute. reflexivity.
  - lia.
  - lia.
  - reflexivity.
  - lia.
  - cbn. lia.
  - lia.
  - right. intros H. lia.
  - exists h'. split; [exact H1|]. split; [rewrite H2; vm_compute; reflexivity|]. apply (H3 5%nat usb64); [lia|exact usb64_ok|]. left. vm_compute. reflexivity.
Defined.

(** The firmware opens the memory window of the AGP bridge for the registers of
    the graphics processor and resets the bus behind it. *)
Lemma bridge_forwards_witness : exists p' br' dev', bridge_writes (fun p _ => Ok p) (xb_pci xbox64) (xb_agp xbox64) [(0x20, 0xfdf0fd00, 4%nat); (4, 0x7, 2%nat); (0x3e, 0x40, 2%nat)] = Ok (p', br') /\
  devs p' !! br_dev (xb_agp xbox64) = Some dev' /\ forwards (alias_mem (windows br')) 0xfd100000 = forwards_mem dev' 0xfd100000.
Proof.
  destruct xbox64_ok as [_ M]. destruct (bridge_forwards (fun p _ => Ok p) (xb_pci xbox64) (xb_agp xbox64) [(0x20, 0xfdf0fd00, 4%nat); (4, 0x7, 2%nat); (0x3e, 0x40, 2%nat)]) as (p' & br' & dev' & E & _ & Hd & H).
  - exact quiet_reset_none.
  - apply fresh_pci_ok, M.
  - apply xbox_tree; [apply M|apply M].
  - exact agp64_place.
  - exact agp64_sync.
  - assert (W : wired (xb_pci xbox64) (br_dev (xb_agp xbox64))) by (rewrite (proj1 (xm_agp _ M)); apply xbox_wired; [apply M|apply M|lia]).
    repeat (apply Forall_cons; split; [split; [left; exact W|cbn; lia]|]). apply Forall_nil. exact I.
  - exists p', br', dev'. split; [exact E|]. split; [exact Hd|]. apply (H 0xfd100000). lia.
Defined.
