(* ===== verification/XboxIrq.v ===== *)
(** * Interrupts of PCI devices at the controllers

    The PCI buses of the Xbox with the interrupt router of the LPC bridge and the
    two 8259 controllers: what a device signals on a pin arrives at the input that
    the router selects. *)
From S2P Require Import Prelude I8259 Pci PciFacts PciConfig PciBridge XboxPci.

(** ** The whole: devices, buses and controllers *)
Record XboxIrqs := { xi_pci : PCI; xi_pics : PICs }.

Variant XboxEvent :=
| XPci (e : PciEvent)
| XPic (e : pic_event).

Definition root_calls (p : PCI) : list (Z * Z) := match buses p !! 0%nat with Some bus => irq_calls bus | None => [] end.

(** The calls that an event adds reach the controllers through the LPC bridge. *)
Definition xbox_step (device_reset : PCI -> nat -> outcome PCI) (lpc : nat) (x : XboxIrqs) (e : XboxEvent) : outcome XboxIrqs :=
  match e with
  | XPci e =>
    p ← pci_step device_reset (xi_pci x) e;
    dev ← dev_at p lpc;
    s ← ofold (fun s c => xbox_lpc_set_irq dev s c.1 c.2) (xi_pics x) (drop (length (root_calls (xi_pci x))) (root_calls p));
    Ok {| xi_pci := p; xi_pics := s |}
  | XPic e => s ← pic_step (xi_pics x) e; Ok {| xi_pci := xi_pci x; xi_pics := s |}
  end.

(** ** The inputs of the controllers *)
Definition pic_input (s : PICs) (n : Z) : bool := if n <? 8 then Z.testbit (last_irr (isa_pic s)) n else Z.testbit (last_irr (slave_pic s)) (n - 8).

Lemma pic_set_irq_input s irq level r : 0 <= irq -> pic_set_irq s irq level = Ok r ->
  forall m, 0 <= m -> Z.testbit (last_irr (fst r)) m = if m =? irq then nz level else Z.testbit (last_irr s) m.
Proof.
  intros Hi E m Hm. unfold pic_set_irq in E. set (s1 := if nz (Z.land (elcr s) (irq_bit irq)) then _ else _) in E. unfold pic_update_irq in E.
  destruct (pic_get_irq s1) as [q| |]; try done. cbn [mbind outcome_bind] in E. injection E as <-. cbn [fst].
  assert (Hor : Z.testbit (Z.lor (last_irr s) (irq_bit irq)) m = if m =? irq then true else Z.testbit (last_irr s) m).
  { rewrite Z.lor_spec, irq_bit_spec by done. destruct (m =? irq); by rewrite ?orb_true_r, ?orb_false_r. }
  assert (Hand : Z.testbit (Z.land (last_irr s) (Z.lnot (irq_bit irq))) m = if m =? irq then false else Z.testbit (last_irr s) m).
  { rewrite Z.land_spec, Z.lnot_spec, irq_bit_spec by done. destruct (m =? irq); by rewrite ?andb_true_r, ?andb_false_r. }
  assert (Hset : forall v s, last_irr (pic_set_last_irr v s) = v) by (intros v []; done). assert (Hirr : forall v s, last_irr (pic_set_irr v s) = last_irr s) by (intros v []; done).
  subst s1. destruct (nz (Z.land (elcr s) (irq_bit irq))), (nz level); rewrite Hset; try done. by destruct (Z.land (last_irr s) (irq_bit irq) =? 0); rewrite ?Hirr.
Qed.

Lemma pic_set_irq_ok s irq level : pic_wf s -> 0 <= irq < 8 -> exists r, pic_set_irq s irq level = Ok r /\ pic_wf (fst r) /\
  forall m, 0 <= m -> Z.testbit (last_irr (fst r)) m = if m =? irq then nz level else Z.testbit (last_irr s) m.
Proof.
  intros Hw Hi. destruct (pic_set_irq_total s irq level Hw Hi) as (r & E & [Hw' _]). exists r. split_and!; [done|done|]. apply pic_set_irq_input; [lia|done].
Qed.

(** A chip operation that leaves the inputs alone. *)
Definition keeps_last_irr (s : PICCommonState) (r : PICCommonState * option Z) : Prop := pic_wf (fst r) /\ last_irr (fst r) = last_irr s.

(** Line 2 of the master is the output of the slave. *)
Lemma on_slave_inputs p r : pics_wf p -> pic_wf (fst r) -> exists p', on_slave p r = Ok p' /\ pics_wf p' /\ slave_pic p' = fst r /\
  forall m, 0 <= m -> m <> 2 -> Z.testbit (last_irr (isa_pic p')) m = Z.testbit (last_irr (isa_pic p)) m.
Proof.
  intros [W1 W2] Hr. destruct r as [s [level|]]; unfold on_slave; cbn [fst snd isa_pic] in *.
  - destruct (pic_set_irq_ok (isa_pic p) 2 level W1) as (m & -> & Wm & Hm); [lia|]. cbn [mbind outcome_bind]. eexists. split; [done|]. split_and!; [by split|done|].
    intros n Hn Hne. cbn [isa_pic on_master]. rewrite Hm by done. by rewrite (proj2 (Z.eqb_neq n 2)).
  - eexists. split; [done|]. by split_and!.
Qed.

Lemma isa_set_irq_inputs p n level : pics_wf p -> 0 <= n < 16 -> exists p', isa_set_irq p n level = Ok p' /\ pics_wf p' /\
  forall m, 0 <= m < 16 -> m <> 2 -> pic_input p' m = if m =? n then nz level else pic_input p m.
Proof.
  intros [W1 W2] Hn. unfold isa_set_irq, pic_input. destruct (Z.ltb_spec n 8).
  - destruct (pic_set_irq_ok (isa_pic p) n level W1) as (r & -> & Wr & Hr); [lia|]. cbn [mbind outcome_bind]. eexists. split; [done|]. split; [by split|]. intros m Hm _.
    cbn [isa_pic slave_pic on_master]. destruct (Z.ltb_spec m 8); [by rewrite Hr by lia|]. by rewrite (proj2 (Z.eqb_neq m n)) by lia.
  - destruct (pic_set_irq_ok (slave_pic p) (n - 8) level W2) as (r & -> & Wr & Hr); [lia|]. cbn [mbind outcome_bind].
    destruct (on_slave_inputs p r) as (p' & -> & Wp & Hs & Hm'); [by split|done|]. exists p'. split; [done|]. split; [done|]. intros m Hm Hne. rewrite Hs. destruct (Z.ltb_spec m 8).
    + rewrite Hm' by lia. by rewrite (proj2 (Z.eqb_neq m n)) by lia.
    + rewrite Hr by lia. by replace (m - 8 =? n - 8) with (m =? n) by (destruct (Z.eqb_spec m n), (Z.eqb_spec (m - 8) (n - 8)); lia || done).
Qed.

(** Operations of the guest on the controllers other than initialisation. *)
Definition keeps_inputs (e : pic_event) : bool :=
  match e with
  | PortWrite _ addr val => negb ((u32 addr =? 0) && nz (Z.land (u32 val) 0x10))
  | ReadIrq | PortRead _ _ | ElcrWrite _ _ => true
  | SetIrq _ _ | ResetChip _ => false
  end.

Lemma update_keeps s s' r : pic_update_irq s' = Ok r -> last_irr s' = last_irr s -> last_irr (fst r) = last_irr s.
Proof. unfold pic_update_irq. destruct (pic_get_irq s'); try done. cbn [mbind outcome_bind]. by intros [= <-]. Qed.

Lemma pic_intack_keeps s irq r : pic_intack s irq = Ok r -> last_irr (fst r) = last_irr s.
Proof.
  unfold pic_intack. intros E. eapply update_keeps; [exact E|]. destruct s. unfold pic_set_priority_add, pic_set_isr, pic_set_irr. cbn. by repeat case_match.
Qed.

Lemma ocw2_write_keeps s val r : ocw2_write s val = Ok r -> last_irr (fst r) = last_irr s.
Proof.
  unfold ocw2_write. intros E. assert (K : forall v irq, last_irr (pic_set_priority_add v (clear_isr irq s)) = last_irr s) by (by destruct s).
  assert (K1 : forall irq, last_irr (clear_isr irq s) = last_irr s) by (by destruct s). assert (K2 : forall v, last_irr (pic_set_priority_add v s) = last_irr s) by (by destruct s).
  assert (K3 : forall v, last_irr (pic_set_rotate_on_auto_eoi v s) = last_irr s) by (by destruct s).
  repeat (destruct (_ || _) in E || destruct (_ =? _) in E); try (injection E as <-; cbn [fst]; done); try (eapply update_keeps; [exact E|]; done).
  all: destruct (get_priority s (isr s)) as [pr| |]; try done; cbn [mbind outcome_bind] in E; destruct (pr =? 8); [injection E as <-; done|eapply update_keeps; [exact E|]; done].
Qed.

Lemma pic_ioport_write_keeps s addr val r : (u32 addr =? 0) && nz (Z.land (u32 val) 0x10) = false -> pic_ioport_write s addr val = Ok r -> last_irr (fst r) = last_irr s.
Proof.
  intros Hn E. unfold pic_ioport_write in E. destruct (u32 addr =? 0); cbn [andb] in Hn.
  - rewrite Hn in E. destruct (nz (Z.land (u32 val) 0x08)); [|by eapply ocw2_write_keeps]. injection E as <-. cbn [fst]. unfold ocw3_write. destruct s. cbn. by repeat case_match.
  - destruct (init_state s =? 0); [eapply update_keeps; [exact E|by destruct s]|]. destruct (init_state s =? 1); [injection E as <-; by destruct s|].
    destruct (init_state s =? 2); [injection E as <-; by destruct s|]. destruct (init_state s =? 3); injection E as <-; by destruct s.
Qed.

Lemma pic_ioport_read_keeps s addr r v : pic_ioport_read s addr = Ok (r, v) -> last_irr (fst r) = last_irr s.
Proof.
  unfold pic_ioport_read. intros E. destruct (nz (poll s)); [|injection E as <- <-; done]. destruct (pic_get_irq s) as [irq| |]; try done. cbn [mbind outcome_bind] in E.
  destruct (0 <=? irq); [|injection E as <- <-; by destruct s]. destruct (pic_intack s irq) as [[s' o]| |] eqn:Ei; try done. cbn [mbind outcome_bind] in E. injection E as <- _.
  apply pic_intack_keeps in Ei. cbn [fst] in *. rewrite <- Ei. by destruct s'.
Qed.

(** The inputs, the cascade apart. *)
Definition same_inputs (p p' : PICs) : Prop := forall m, 0 <= m < 16 -> m <> 2 -> pic_input p' m = pic_input p m.

Lemma on_chip_inputs p m r : pics_wf p -> pic_wf (fst r) -> last_irr (fst r) = last_irr (chip p m) -> exists p', on_chip p m r = Ok p' /\ pics_wf p' /\ same_inputs p p'.
Proof.
  intros [W1 W2] Hr E. destruct m; cbn [on_chip chip] in *.
  - eexists. split; [done|]. split; [by split|]. intros n Hn Hne. unfold pic_input. cbn [isa_pic slave_pic on_master]. by rewrite E.
  - destruct (on_slave_inputs p r) as (p' & -> & Wp & Hs & Hm); [by split|done|]. exists p'. split_and!; [done|done|]. intros n Hn Hne. unfold pic_input. rewrite Hs, E.
    destruct (n <? 8); [by apply Hm; lia|done].
Qed.

Lemma same_inputs_trans p1 p2 p3 : same_inputs p1 p2 -> same_inputs p2 p3 -> same_inputs p1 p3.
Proof. intros H1 H2 m Hm Hne. by rewrite H2, H1. Qed.

Lemma read_irq_inputs p : pics_wf p -> exists p' v, pic_read_irq p = Ok (p', v) /\ pics_wf p' /\ same_inputs p p'.
Proof.
  intros Hw. pose proof Hw as [W1 W2]. unfold pic_read_irq. destruct (pic_get_irq_wanted _ W1) as (irq & E & Hwant). rewrite E. cbn [mbind outcome_bind].
  destruct (Z.leb_spec 0 irq) as [Hi|]; [|by do 2 eexists]. apply (wanted_line _ _ Hwant) in Hi.
  assert (Hfin : forall q (v : Z), pics_wf q -> same_inputs p q -> exists p' v', (r ← pic_intack (isa_pic q) irq; Ok (on_master q r, v)) = Ok (p', v') /\ pics_wf p' /\ same_inputs p p').
  { intros q v Hq Hs. destruct (pic_intack_total (isa_pic q) irq (wf_isa _ Hq) Hi) as (r & Er & [Hr _]). rewrite Er. destruct (on_chip_inputs q true r Hq Hr) as (p' & Ep & Wp & Sp).
    - by apply pic_intack_keeps in Er.
    - injection Ep as <-. do 2 eexists. split; [done|]. split; [done|]. by eapply same_inputs_trans. }
  destruct (irq =? 2); [|by apply Hfin]. destruct (pic_get_irq_wanted _ W2) as (irq2 & E2 & Hw2). rewrite E2. cbn [mbind outcome_bind].
  destruct (Z.leb_spec 0 irq2) as [Hi2|]; [|by apply Hfin]. apply (wanted_line _ _ Hw2) in Hi2. destruct (pic_intack_total _ irq2 W2 Hi2) as (r & Ea & [Hr _]). rewrite Ea. cbn [mbind outcome_bind].
  destruct (on_chip_inputs p false r Hw Hr) as (q & Eq & Wq & Sq); [by apply pic_intack_keeps in Ea|]. cbn [on_chip] in Eq. rewrite Eq. cbn [mbind outcome_bind]. by apply Hfin.
Qed.

Lemma pic_step_inputs p e : pics_wf p -> keeps_inputs e = true -> exists p', pic_step p e = Ok p' /\ pics_wf p' /\ same_inputs p p'.
Proof.
  intros Hw He. assert (Hc : forall m, pic_wf (chip p m)) by (intros []; apply Hw). destruct e as [n level| |m addr val|m addr|m val|m]; cbn [pic_step keeps_inputs] in *; try done.
  - destruct (read_irq_inputs p Hw) as (p' & v & -> & W & S). by exists p'.
  - apply negb_true_iff in He. pose proof (pic_ioport_write_total (chip p m) addr val (Hc m)) as H. unfold level_sensitive_write in H. rewrite He in H. cbn [andb] in H.
    destruct H as (r & E & Hr & _). rewrite E. apply on_chip_inputs; [done|done|]. by eapply pic_ioport_write_keeps.
  - destruct (pic_ioport_read_total (chip p m) addr (Hc m)) as (r & v & E & [Hr _]). rewrite E. apply on_chip_inputs; [done|done|]. by eapply pic_ioport_read_keeps.
  - destruct (elcr_ioport_write_driven (chip p m) val (Hc m)) as [Hr _]. apply on_chip_inputs; [done|done|]. cbn [fst]. by destruct (chip p m).
Qed.

(** ** The router *)
Definition routing_bytes (a : Z) : Prop := XBOX_LPC_PIRQ_ROUT <= a < XBOX_LPC_INT_IRQ_ROUT + 4.

Lemma pirq_route_ext d d' : (forall a, routing_bytes a -> byte_at (config d') a = byte_at (config d) a) -> forall i, 0 <= i < 12 -> pirq_route d' i = pirq_route d i.
Proof.
  unfold routing_bytes, XBOX_LPC_PIRQ_ROUT, XBOX_LPC_INT_IRQ_ROUT. intros H i Hi. unfold pirq_route, XBOX_NUM_INT_IRQS, XBOX_LPC_INT_IRQ_ROUT, XBOX_LPC_PIRQ_ROUT.
  assert (E : pci_get_long (config d') 0x6C = pci_get_long (config d) 0x6C) by (apply get_le_ext; intros b Hb; apply H; lia). rewrite E. destruct (Z.ltb_spec i 8); [done|]. by rewrite H by lia.
Qed.

Lemma pirq_route_range d i l : bytes_ok (config d) -> pirq_route d i = Some l -> 0 <= l < 16.
Proof.
  intros Hc. unfold pirq_route, XBOX_NUM_PIC_IRQS. destruct (i <? XBOX_NUM_INT_IRQS).
  - destruct (_ =? 0); [done|]. intros [= <-]. change 0xF with (Z.ones 4). rewrite Z.land_ones by lia. apply Z.mod_pos_bound. done.
  - pose proof (byte_range (config d) (XBOX_LPC_PIRQ_ROUT + (i - XBOX_NUM_INT_IRQS)) Hc). destruct (Z.leb_spec 16 (byte_at (config d) (XBOX_LPC_PIRQ_ROUT + (i - XBOX_NUM_INT_IRQS)))); [done|]. intros [= <-]. lia.
Qed.

(** Events that leave the router alone: no write to its registers and no reset of
    the LPC bridge or of a bus above it, which clears them. *)
Definition keeps_routing (lpc : nat) (p : PCI) (e : PciEvent) : Prop :=
  match e with
  | PciWrite d addr val len => d <> lpc \/ addr + Z.of_nat len <= XBOX_LPC_PIRQ_ROUT \/ XBOX_LPC_INT_IRQ_ROUT + 4 <= addr
  | PciIrq _ _ _ => True
  | PciReset d => d <> lpc
  | PciBusReset b => exists dev, devs p !! lpc = Some dev /\ (pd_bus dev < b)%nat
  end.

Section Composition.
Context (device_reset : PCI -> nat -> outcome PCI) `{!QuietReset device_reset} (lpc : nat).

Lemma changed_routing d p p' R : changed d p p' R -> forall dev, devs p !! lpc = Some dev ->
  (d <> lpc \/ forall x x', R x x' -> forall a, routing_bytes a -> byte_at (config x') a = byte_at (config x) a) ->
  exists dev', devs p' !! lpc = Some dev' /\ forall i, 0 <= i < 12 -> pirq_route dev' i = pirq_route dev i.
Proof.
  intros [T O (x & x' & E & E' & HR)] dev Hd Hor. destruct (decide (lpc = d)) as [->|Hne].
  - destruct Hor as [|Hor]; [done|]. assert (x = dev) as -> by congruence. exists x'. split; [done|]. apply pirq_route_ext. by apply Hor.
  - exists dev. by rewrite O.
Qed.

Lemma pci_step_routing p e p' dev : pci_ok p -> pci_event_ok p e -> keeps_routing lpc p e -> devs p !! lpc = Some dev -> pci_step device_reset p e = Ok p' ->
  exists dev', devs p' !! lpc = Some dev' /\ forall i, 0 <= i < 12 -> pirq_route dev' i = pirq_route dev i.
Proof.
  intros Hok He Hk Hd E. destruct e as [d addr val len|d pin level|d|b]; cbn [pci_event_ok keeps_routing pci_step] in *.
  - destruct (pci_default_write_config_ok p d addr val len) as (p1 & E1 & _ & Hch); try tauto. assert (p1 = p') as -> by congruence. eapply changed_routing; [exact Hch|done|].
    destruct Hk as [Hk|Hk]; [by left|right]. intros x x' (_ & _ & B) a Ha. unfold routing_bytes, XBOX_LPC_PIRQ_ROUT, XBOX_LPC_INT_IRQ_ROUT in *. rewrite B by lia. apply written_outside. lia.
  - destruct (pci_irq_handler_ok p d pin level) as (p1 & E1 & _ & Hch); try tauto. assert (p1 = p') as -> by congruence. eapply changed_routing; [exact Hch|done|]. right.
    intros x x' (_ & B & _) a Ha. unfold routing_bytes, XBOX_LPC_PIRQ_ROUT, XBOX_LPC_INT_IRQ_ROUT in *. apply B; [lia|unfold PCI_STATUS; lia].
  - destruct (pci_do_device_reset_ok p d Hok He) as (p1 & E1 & _ & Hch). assert (p1 = p') as -> by congruence. eapply changed_routing; [exact Hch|done|by left].
  - destruct He as [Ht Hb], Hk as (dev1 & Hd1 & Hlt). assert (dev1 = dev) as -> by congruence. destruct (qbus_reset_sub_ok device_reset (length (buses p)) p b Hok Ht) as (p1 & E1 & _ & _ & _ & Hf); [lia|lia|].
    assert (p1 = p') as -> by congruence. exists dev. split; [|done]. rewrite <- Hd. apply Hf. intros Hin. pose proof (reset_touch_above p _ Ht _ _ _ Hin Hd). lia.
Qed.

(** The input [l] that only the request [i] is routed to. *)
Definition sole_source (dev : PCIDevice) (i l : Z) : Prop :=
  0 <= i < 12 /\ pirq_route dev i = Some l /\ l <> 2 /\ forall j, 0 <= j < 12 -> pirq_route dev j = Some l -> j = i.

Record irqs_ok (x : XboxIrqs) : Prop := {
  io_pci : pci_ok (xi_pci x);
  io_pics : pics_wf (xi_pics x);
  io_root : exists bus, buses (xi_pci x) !! 0%nat = Some bus /\ set_irq bus = true /\ length (irq_count bus) = 12%nat;
  io_lines : exists dev, devs (xi_pci x) !! lpc = Some dev /\
    forall i l, sole_source dev i l -> pic_input (xi_pics x) l = negb (line_level (root_calls (xi_pci x)) i =? 0)
}.

Lemma router_calls dev calls : bytes_ok (config dev) -> Forall (fun c => 0 <= c.1 < 12) calls -> forall s old, pics_wf s ->
  (forall i l, sole_source dev i l -> pic_input s l = negb (line_level old i =? 0)) ->
  exists s', ofold (fun s c => xbox_lpc_set_irq dev s c.1 c.2) s calls = Ok s' /\ pics_wf s' /\
    forall i l, sole_source dev i l -> pic_input s' l = negb (line_level (old ++ calls) i =? 0).
Proof.
  intros Hc. induction calls as [|[j lev] calls IH]; intros Hcalls s old Hw Hl; cbn [ofold]; [exists s; by rewrite app_nil_r|]. apply Forall_cons in Hcalls as [Hj Hcalls]. cbn [fst snd] in *.
  assert (Hstep : exists s1, xbox_lpc_set_irq dev s j lev = Ok s1 /\ pics_wf s1 /\ forall i l, sole_source dev i l -> pic_input s1 l = negb (line_level (old ++ [(j, lev)]) i =? 0)).
  { unfold xbox_lpc_set_irq, XBOX_NUM_INT_IRQS, XBOX_NUM_PIRQS. rewrite (proj2 (Z.leb_le _ _)), (proj2 (Z.ltb_lt _ _)) by lia. cbn [c_assert mbind outcome_bind].
    destruct (pirq_route dev j) as [l'|] eqn:Er.
    - destruct (isa_set_irq_inputs s l' lev Hw) as (s1 & -> & Hw1 & Hin); [by eapply pirq_route_range|]. exists s1. split_and!; try done. intros i l Hs. pose proof Hs as (Hi & Hri & H2 & Huniq).
      rewrite Hin by (done || by eapply pirq_route_range). rewrite line_level_snoc. destruct (Z.eqb_spec l l') as [<-|Hne].
      + by rewrite (Huniq j Hj Er), Z.eqb_refl.
      + rewrite (proj2 (Z.eqb_neq j i)) by congruence. by apply Hl.
    - exists s. split_and!; try done. intros i l Hs. pose proof Hs as (Hi & Hri & _ & _). rewrite line_level_snoc, (proj2 (Z.eqb_neq j i)) by congruence. by apply Hl. }
  destruct Hstep as (s1 & -> & Hw1 & Hl1). cbn [mbind outcome_bind]. destruct (IH Hcalls s1 (old ++ [(j, lev)]) Hw1 Hl1) as (s' & E & Hw' & Hl'). exists s'. split_and!; try done.
  intros i l Hs. rewrite (Hl' i l Hs). by rewrite <- app_assoc.
Qed.

Definition xbox_event_ok (p : PCI) (e : XboxEvent) : Prop :=
  match e with XPci e => pci_event_ok p e /\ keeps_routing lpc p e | XPic e => keeps_inputs e = true end.

Lemma xbox_step_ok x e : irqs_ok x -> xbox_event_ok (xi_pci x) e ->
  exists x', xbox_step device_reset lpc x e = Ok x' /\ irqs_ok x' /\ same_topology (xi_pci x) (xi_pci x').
Proof.
  intros [Hok Hw (bus & Hb & Hs & Hlen) (dev & Hd & Hl)] He. destruct e as [e|e]; cbn [xbox_event_ok xbox_step] in *.
  - destruct He as [He Hk]. destruct (pci_step_ok device_reset (xi_pci x) e Hok He) as (p' & E & Hok' & T). rewrite E. cbn [mbind outcome_bind].
    destruct (pci_step_routing (xi_pci x) e p' dev Hok He Hk Hd E) as (dev' & Hd' & Hr). unfold dev_at. rewrite Hd'. cbn [got mbind outcome_bind].
    pose proof (st_bus _ _ T 0%nat) as X. rewrite Hb in X. destruct (buses p' !! 0%nat) as [bus'|] eqn:Hb'; cbn in X; [|done]. injection X as _ _ X3 X4.
    destruct (st_calls _ _ T 0%nat bus bus' Hb Hb') as (new & En & Fn). unfold root_calls at 2. rewrite Hb', En. unfold root_calls. rewrite Hb, drop_app_length.
    assert (Hsrc : forall i l, sole_source dev' i l -> sole_source dev i l).
    { intros i l (H1 & H2 & H3 & H4). split; [done|]. split; [by rewrite <- Hr|]. split; [done|]. intros j Hj Hrj. apply H4; [done|]. by rewrite Hr. }
    destruct (router_calls dev' new) with (s := xi_pics x) (old := irq_calls bus) as (s' & -> & Hw' & Hl'); [apply (po_devs _ Hok' _ _ Hd')| |done| |].
    + eapply Forall_impl; [exact Fn|]. intros c [H _]. lia.
    + intros i l Hss. specialize (Hl i l (Hsrc i l Hss)). unfold root_calls in Hl. by rewrite Hb in Hl.
    + cbn [mbind outcome_bind]. eexists. split; [done|]. split; [|done]. split; cbn [xi_pci xi_pics]; try done.
      * exists bus'. split_and!; [done|congruence|congruence].
      * exists dev'. split; [done|]. intros i l Hss. unfold root_calls. rewrite Hb', En. by apply Hl'.
  - destruct (pic_step_inputs (xi_pics x) e Hw He) as (s' & -> & Hw' & Hsame). cbn [mbind outcome_bind]. eexists. split; [done|]. cbn [xi_pci]. split; [|done]. split; cbn [xi_pci xi_pics]; try done; [by exists bus|].
    exists dev. split; [done|]. intros i l Hss. pose proof Hss as (H1 & H2 & H3 & _). rewrite Hsame; [by apply Hl| |done]. eapply pirq_route_range; [|exact H2]. by apply (po_devs _ Hok _ _ Hd).
Qed.

Lemma xbox_event_same p p' e : same_topology p p' -> xbox_event_ok p e -> xbox_event_ok p' e.
Proof. intros T. destruct e as [e|e]; cbn; [|done]. intros [H1 H2]. split; [by apply (pci_event_same p)|].
  destruct e as [d addr val len|d pin level|d|b]; cbn in *; try done. destruct H2 as (dev & Hd & Hlt). pose proof (st_dev _ _ T lpc) as X. rewrite Hd in X.
  destruct (devs p' !! lpc) as [dev'|]; [|done]. injection X as Xb _. exists dev'. split; [done|]. by rewrite Xb. Qed.

Lemma xbox_steps_ok es : forall x, irqs_ok x -> Forall (xbox_event_ok (xi_pci x)) es -> exists x', ofold (xbox_step device_reset lpc) x es = Ok x' /\ irqs_ok x' /\ same_topology (xi_pci x) (xi_pci x').
Proof.
  induction es as [|e es IH]; intros x Hok Hes; cbn [ofold]; [by exists x|]. apply Forall_cons in Hes as [He Hes]. destruct (xbox_step_ok x e Hok He) as (x1 & -> & Hok1 & T1). cbn [mbind outcome_bind].
  destruct (IH x1 Hok1) as (x2 & E2 & Hok2 & T2); [eapply Forall_impl; [exact Hes|]; intros y; by apply xbox_event_same|]. exists x2. split_and!; [done|done|by eapply same_topology_trans].
Qed.
End Composition.

(** ** Lines and pins *)
Lemma Zsum_nonzero {A} (g : A -> Z) l : Zsum (map g l) <> 0 -> exists x, x ∈ l /\ g x <> 0.
Proof.
  induction l as [|x l IH]; intros H; [done|]. unfold Zsum in *. cbn [map foldr] in H. destruct (Z.eq_dec (g x) 0) as [E|Hne]; [|exists x; split; [left|done]].
  destruct IH as (y & Hy & Hgy); [lia|]. exists y. split; [by right|done].
Qed.

Lemma Zsum_pos {A} (g : A -> Z) l x : (forall y, y ∈ l -> 0 <= g y) -> x ∈ l -> g x <= Zsum (map g l).
Proof.
  intros Hp Hx. assert (Hn : forall l', (forall y, y ∈ l' -> 0 <= g y) -> 0 <= Zsum (map g l')).
  { induction l' as [|y l' IH]; intros H; [done|]. unfold Zsum in *. cbn [map foldr]. specialize (IH ltac:(intros z Hz; apply H; by right)). specialize (H y ltac:(left)). lia. }
  induction l as [|y l IH]; [by apply elem_of_nil in Hx|]. unfold Zsum in *. cbn [map foldr]. apply elem_of_cons in Hx as [->|Hx].
  - specialize (Hn l ltac:(intros z Hz; apply Hp; by right)). lia.
  - specialize (IH ltac:(intros z Hz; apply Hp; by right) Hx). specialize (Hp y ltac:(left)). lia.
Qed.

Lemma asserting_cases d pin : 0 <= pin -> asserting d pin = 0 \/ asserting d pin = 1.
Proof. intros Hp. unfold asserting. destruct (_ =? 0); [|by left]. rewrite pci_irq_state_bit by done. destruct (Z.testbit _ _); [by right|by left]. Qed.

(** Some enabled device raises a pin that is routed to the line. *)
Definition requested (p : PCI) (b : nat) (i : Z) : Prop :=
  exists d dev pin, devs p !! d = Some dev /\ pin ∈ pins /\ route_of p d pin = Ok (b, i) /\ asserting dev pin = 1.

Lemma total_requested p b i : total p (contrib p) b i <> 0 <-> requested p b i.
Proof.
  assert (Hnn : forall x, x ∈ pin_pairs p -> 0 <= (if routes_to p b i x then contrib p x.1 x.2 else 0)).
  { intros [d pin] [_ Hp%pins_elem]%pin_pairs_elem. destruct (routes_to p b i (d, pin)); [|lia]. cbn [fst snd]. unfold contrib. destruct (devs p !! d) as [dev|]; [|lia]. destruct (asserting_cases dev pin); lia. }
  split.
  - intros ([d pin] & [Hd Hp]%pin_pairs_elem & Hne)%Zsum_nonzero. destruct (routes_to p b i (d, pin)) eqn:Er; [|done]. cbn [fst snd] in Hne. unfold contrib in Hne.
    destruct (devs p !! d) as [dev|] eqn:Ed; [|done]. exists d, dev, pin. pose proof (asserting_cases dev pin) as Ha. apply pins_elem in Hp as Hp'. split_and!; [done|done| |destruct Ha; [lia|done|done]].
    unfold routes_to in Er. cbn [fst snd] in Er. destruct (route_of p d pin) as [[b' i']| |]; try done. apply andb_true_iff in Er as [->%Nat.eqb_eq ->%Z.eqb_eq]. done.
  - intros (d & dev & pin & Hd & Hp & Hr & H1). pose proof (Zsum_pos (fun x => if routes_to p b i x then contrib p x.1 x.2 else 0) (pin_pairs p) (d, pin) Hnn) as Hs.
    cbn [fst snd] in Hs. unfold routes_to in Hs at 1. cbn [fst snd] in Hs. rewrite Hr, Nat.eqb_refl, Z.eqb_refl in Hs. cbn [andb] in Hs. unfold contrib in Hs at 1. rewrite Hd, H1 in Hs.
    unfold total. specialize (Hs ltac:(apply pin_pairs_elem; split; [by eapply lookup_lt_Some|done])). lia.
Qed.

(** C12 (refinement): what devices signal arrives at the interrupt controllers.  In
    any interleaving of configuration writes, pin changes and resets of devices and
    of buses with the guest's own accesses to the controllers, each controller input
    with a single source in the router is high exactly when some device with
    interrupts enabled raises a pin that the buses and the router lead to it.
    Excluded are the configuration writes that [pci_event_ok] excludes (those that
    start at the high byte of the command register, and those that disable the
    interrupts of a device without an interrupt line), events that change the router
    (writes to its registers, resets of the LPC bridge or of its bus), and events
    that clear the recorded inputs of a controller: its initialisation command word
    and its reset. *)
Theorem pci_interrupts_reach_pic device_reset lpc x es : QuietReset device_reset -> irqs_ok lpc x -> Forall (xbox_event_ok lpc (xi_pci x)) es ->
  exists x' dev, ofold (xbox_step device_reset lpc) x es = Ok x' /\ devs (xi_pci x') !! lpc = Some dev /\
    forall i l, sole_source dev i l -> (pic_input (xi_pics x') l = true <-> requested (xi_pci x') 0 i).
Proof.
  intros Hq Hok Hes. destruct (xbox_steps_ok device_reset lpc es x Hok Hes) as (x' & E & [P1 P2 (bus & Hb & Hs & Hlen) (dev & Hd & Hl)] & _). exists x', dev. split_and!; try done.
  intros i l Hss. rewrite (Hl i l Hss). destruct Hss as (Hi & _). unfold root_calls. rewrite Hb. destruct (po_counted _ P1 0%nat bus Hb Hs i) as [_ Hlev]; [rewrite Hlen; lia|]. rewrite Hlev.
  rewrite <- total_requested. destruct (Z.eqb_spec (total (xi_pci x') (contrib (xi_pci x')) 0 i) 0); cbn; split; intros; done || lia.
Qed.

(** Before any interrupt. *)
Lemma irqs_ok_start lpc p dev bus : pci_ok p -> devs p !! lpc = Some dev -> buses p !! 0%nat = Some bus -> set_irq bus = true -> length (irq_count bus) = 12%nat -> irq_calls bus = [] ->
  irqs_ok lpc {| xi_pci := p; xi_pics := i8259_init |}.
Proof.
  intros Hok Hd Hb Hs Hl Hc. split; cbn [xi_pci xi_pics]; [done|apply i8259_init_sync|by exists bus|]. exists dev. split; [done|]. intros i l _. unfold root_calls. rewrite Hb, Hc.
  unfold pic_input, i8259_init, i8259_init_chip. cbn. destruct (l <? 8); apply Z.testbit_0_l.
Qed.

(** The firmware programs the router: the internal devices get lines of their
    own, the AGP bus gets line 3. *)
Definition router_writes : list PciEvent := [PciWrite 1 XBOX_LPC_INT_IRQ_ROUT 0x0e065419 4; PciWrite 1 XBOX_LPC_PIRQ_ROUT 0x00030000 4].

Lemma router_programmed : exists p dev, ofold (pci_step (fun p _ => Ok p)) (xb_pci xbox64) router_writes = Ok p /\ same_topology (xb_pci xbox64) p /\ devs p !! 1%nat = Some dev /\
  irqs_ok 1 {| xi_pci := p; xi_pics := i8259_init |}.
Proof.
  destruct xbox64_ok as [_ M]. assert (Hn : length (devs (xb_pci xbox64)) = 11%nat) by (by rewrite places_length, (xm_places _ M)).
  destruct (pci_steps_ok (fun p _ => Ok p) router_writes (xb_pci xbox64)) as (p & E & Hok & T); [apply fresh_pci_ok, M| |].
  { repeat (apply Forall_cons; split); [..|apply Forall_nil; exact I]; cbn [pci_event_ok]; rewrite Hn; unfold XBOX_LPC_INT_IRQ_ROUT, XBOX_LPC_PIRQ_ROUT; (split; [lia|]); (split; [right; intros H; lia|lia]). }
  destruct (lookup_lt_is_Some_2 (devs p) 1) as [dev Hd]; [rewrite (st_devs _ _ T), Hn; lia|]. exists p, dev. split; [done|]. split; [done|]. split; [done|].
  pose proof (st_bus _ _ T 0%nat) as X. rewrite (xm_buses _ M) in X. destruct (buses p !! 0%nat) as [bus|] eqn:Hb; cbn in X; [|done]. injection X as _ _ Hs Hl.
  assert (Hc : root_calls p = []).
  { assert (Hv : match ofold (pci_step (fun p _ => Ok p)) (xb_pci xbox64) router_writes with Ok p => root_calls p | _ => [(0, 0)] end = []) by (vm_compute; reflexivity). by rewrite E in Hv. }
  unfold root_calls in Hc. rewrite Hb in Hc. apply (irqs_ok_start 1 p dev bus); done.
Qed.

Lemma pci_interrupts_reach_pic_witness : exists p x' dev, ofold (pci_step (fun p _ => Ok p)) (xb_pci xbox64) router_writes = Ok p /\
  ofold (xbox_step (fun p _ => Ok p) 1) {| xi_pci := p; xi_pics := i8259_init |} [XPci (PciIrq 10 0 1); XPic ReadIrq; XPci (PciIrq 5 0 1); XPci (PciBusReset 1); XPci (PciReset 5)] = Ok x' /\
  devs (xi_pci x') !! 1%nat = Some dev /\ (sole_source dev 10 3 -> pic_input (xi_pics x') 3 = true <-> requested (xi_pci x') 0 10).
Proof.
  destruct router_programmed as (p & dev0 & E & T & Hd & Hok). destruct xbox64_ok as [_ M]. assert (Hn : length (devs p) = 11%nat) by (by rewrite (st_devs _ _ T), places_length, (xm_places _ M)).
  assert (W : forall d, (3 <= d <= 10)%nat -> wired p d) by (intros d Hr; apply (wired_same _ _ d T), xbox_wired; [apply M|apply M|exact Hr]).
  destruct (pci_interrupts_reach_pic (fun p _ => Ok p) 1 {| xi_pci := p; xi_pics := i8259_init |} [XPci (PciIrq 10 0 1); XPic ReadIrq; XPci (PciIrq 5 0 1); XPci (PciBusReset 1); XPci (PciReset 5)]) as (x' & dev & Ex & Hdev & H).
  - exact quiet_reset_none.
  - exact Hok.
  - repeat (apply Forall_cons; split); [..|apply Forall_nil; exact I]; cbn [xbox_event_ok pci_event_ok keeps_routing keeps_inputs xi_pci]; rewrite ?Hn.
    + split; [|exact I]. split; [lia|]. split; [apply W; lia|lia].
    + reflexivity.
    + split; [|exact I]. split; [lia|]. split; [apply W; lia|lia].
    + split; [split; [apply (tree_ok_same _ _ T), xbox_tree; apply M|rewrite (st_buses _ _ T), (xm_buses _ M); cbn; lia]|].
      exists dev0. split; [exact Hd|]. pose proof (st_dev _ _ T 1%nat) as X. rewrite Hd in X. pose proof (f_equal (fun l => l !! 1%nat) (xm_places _ M)) as Y. unfold places in Y. rewrite list_lookup_fmap in Y. destruct (devs (xb_pci xbox64) !! 1%nat); [|done]. injection X as -> _. injection Y as -> _ _. lia.
    + lia.
  - exists p, x', dev. split; [exact E|]. split; [exact Ex|]. split; [exact Hdev|]. apply H.
Defined.

(** ** Findings *)

(** The high byte of the command register can be written alone.  Disabling the
    interrupts of a device that raises one this way leaves the count of its line
    behind, and the next reset of the bus fails an assertion. *)
Lemma byte_write_misses_intx : ofold (pci_step (fun p _ => Ok p)) (xb_pci xbox64) [PciIrq 5 0 1; PciWrite 5 5 4 1; PciBusReset 0] = Abort.
Proof. vm_compute. reflexivity. Qed.

(** The same bit written with the low byte. *)
Lemma word_write_clears_intx : match ofold (pci_step (fun p _ => Ok p)) (xb_pci xbox64) [PciIrq 5 0 1; PciWrite 5 4 0x400 2; PciBusReset 0] with Ok _ => True | _ => False end.
Proof. vm_compute. exact I. Qed.

(** A write to the command register of the host bridge that toggles the interrupt
    disable bit ends in the assertion of [xbox_lpc_map_irq]. *)
Lemma host_bridge_intx_aborts : pci_default_write_config (xb_pci xbox64) 0 PCI_COMMAND 0x400 2 = Abort.
Proof. vm_compute. reflexivity. Qed.

(** A reset takes back the right to be bus master but not the access that goes
    with it. *)
Lemma reset_keeps_bus_master : match ofold (pci_step (fun p _ => Ok p)) (xb_pci xbox64) [PciWrite 10 4 4 2; PciReset 10] with
  | Ok p => match devs p !! 10%nat with Some d => bus_master d = true /\ has_bit (pci_get_word (config d) PCI_COMMAND) PCI_COMMAND_MASTER = false | None => False end
  | _ => False end.
Proof. vm_compute. split; reflexivity. Qed.

(** A request of the AGP bus goes to line 0, the timer's, before the router is
    programmed; a request of an internal device goes nowhere. *)
Lemma unprogrammed_pirq : match devs (xb_pci xbox64) !! 1%nat with Some lpc => pirq_route lpc 10 = Some 0 /\ pirq_route lpc 0 = None | None => False end.
Proof. vm_compute. split; reflexivity. Qed.

(** Two devices on one controller line: when one is served the line drops,
    although the other still raises its pin. *)
Definition shared_line : outcome XboxIrqs :=
  p ← ofold (pci_step (fun p _ => Ok p)) (xb_pci xbox64) [PciWrite 1 XBOX_LPC_INT_IRQ_ROUT 0x55 4];
  ofold (xbox_step (fun p _ => Ok p) 1) {| xi_pci := p; xi_pics := i8259_init |} [XPci (PciIrq 5 0 1); XPci (PciIrq 6 0 1); XPci (PciIrq 6 0 0)].

Lemma shared_line_drops : match shared_line with Ok x => pic_input (xi_pics x) 5 = false /\ option_map irq_state (devs (xi_pci x) !! 5%nat) = Some 1 | _ => False end.
Proof. vm_compute. split; reflexivity. Qed.

(** A line that is rerouted while it is raised stays raised at its old input. *)
Definition rerouted_line : outcome XboxIrqs :=
  p ← ofold (pci_step (fun p _ => Ok p)) (xb_pci xbox64) [PciWrite 1 XBOX_LPC_INT_IRQ_ROUT 0x50 4];
  ofold (xbox_step (fun p _ => Ok p) 1) {| xi_pci := p; xi_pics := i8259_init |} [XPci (PciIrq 5 0 1); XPci (PciWrite 1 XBOX_LPC_INT_IRQ_ROUT 0x60 4); XPci (PciIrq 5 0 0)].

Lemma rerouted_line_sticks : match rerouted_line with Ok x => pic_input (xi_pics x) 5 = true /\ option_map irq_state (devs (xi_pci x) !! 5%nat) = Some 0 | _ => False end.
Proof. vm_compute. split; reflexivity. Qed.

(** Through its own registers the graphics processor changes a base address
    without moving the region. *)
Lemma pbus_write_leaves_mapping : match pci_default_write_config (xb_pci xbox64) 10 0x10 0xfd000000 4 with
  | Ok p => match pci_default_write_config p 10 4 2 2 with
            | Ok p => match devs p !! 10%nat with
                      | Some d => let d := pbus_write d 0x810 0xf0000000 in
                                  pbus_read d 0x810 = 0xf0000000 /\ pci_bar_address d 0 0 0x1000000 = 0xf0000000 /\ r_mapped (region_of d 0) = Some 0xfd000000
                      | None => False end
            | _ => False end
  | _ => False end.
Proof. vm_compute. split; [|split]; reflexivity. Qed.

(** The window of a bridge still forwards after a reset has switched its decoding
    off. *)
Definition bridge_after_reset : outcome (PCI * PCIBridge) :=
  '(p, br) ← bridge_writes (fun p _ => Ok p) (xb_pci xbox64) (xb_agp xbox64) [(0x20, 0xfdf0fd00, 4%nat); (4, 0x7, 2%nat)];
  p ← pci_bridge_reset p 3;
  p ← pci_do_device_reset p 3;
  Ok (p, br).

Lemma bridge_forwards_after_reset : match bridge_after_reset with
  | Ok (p, br) => match devs p !! 3%nat with Some d => forwards (alias_mem (windows br)) 0xfd100000 = true /\ forwards_mem d 0xfd100000 = false | None => False end
  | _ => False end.
Proof. vm_compute. split; reflexivity. Qed.
