(* ===== verification/XboxTimer.v ===== *)
(** * Timer interrupts of the Xbox

    hw/xbox/xbox.c connects counter 0 of the timer of I8254.v to ISA line 0,
    which is line 0 of the master interrupt controller of I8259.v.  The
    theorem follows a guest that programs the rate generator and handles its
    interrupts. *)
From S2P Require Import Prelude I8259 I8254.

Record TimerSys := { pit0 : PITChannelState; pics : PICs }.

(** [qemu_set_irq(s->irq, irq_level)] in [pit_irq_timer_update]. *)
Definition drive_irq0 (sys : TimerSys) (s : PITChannelState) : outcome TimerSys :=
  match irq_timer s with
  | None => Ok {| pit0 := s; pics := pics sys |}
  | Some _ =>
    if irq_disabled s then Ok {| pit0 := s; pics := pics sys |}
    else p ← isa_set_irq (pics sys) 0 (irq_level s); Ok {| pit0 := s; pics := p |}
  end.

Definition timer_load (now : Z) (sys : TimerSys) (val : Z) : outcome TimerSys :=
  s ← pit_load_count now (pit0 sys) val; drive_irq0 sys s.

Definition timer_expire (sys : TimerSys) : outcome TimerSys := s ← pit_irq_timer (pit0 sys); drive_irq0 sys s.

(** The CPU takes the interrupt, and the handler ends it. *)
Definition handle_interrupt (sys : TimerSys) : outcome (TimerSys * Z) :=
  _ ← c_assert (cpu_irq (pics sys) =? 1);
  '(p, vector) ← pic_read_irq (pics sys);
  r ← pic_ioport_write (isa_pic p) 0 0x20;
  Ok ({| pit0 := pit0 sys; pics := on_master p r |}, vector).

(** A period of the counter: the line rises, is handled, and falls. *)
Definition timer_period (sys : TimerSys) : outcome (TimerSys * Z) :=
  sys ← timer_expire sys;
  '(sys, vector) ← handle_interrupt sys;
  sys ← timer_expire sys;
  Ok (sys, vector).

Fixpoint timer_periods (k : nat) (sys : TimerSys) : outcome (TimerSys * list Z) :=
  match k with
  | O => Ok (sys, [])
  | S k =>
    '(sys, vectors) ← timer_periods k sys;
    '(sys, vector) ← timer_period sys;
    Ok (sys, vectors ++ [vector])
  end.

(** An initialised master with line 0 unmasked and nothing going on. *)
Record master_idle (base : Z) (s : PICCommonState) : Prop := {
  idle_last_irr : last_irr s = 0;
  idle_irr : irr s = 0;
  idle_imr : Z.testbit (imr s) 0 = false;
  idle_isr : isr s = 0;
  idle_padd : priority_add s = 0;
  idle_base : irq_base s = base;
  idle_special : special_mask s = 0;
  idle_auto : auto_eoi s = 0;
  idle_sfnm : special_fully_nested_mode s = 0;
  idle_elcr : elcr s = 0
}.

Lemma get_irq_none s : irr s = 0 -> pic_get_irq s = Ok (-1).
Proof. intros E. unfold pic_get_irq. by rewrite E, Z.land_0_l. Qed.

Lemma get_irq_line0 s : irr s = 1 -> Z.testbit (imr s) 0 = false -> isr s = 0 -> priority_add s = 0 -> special_mask s = 0 ->
  special_fully_nested_mode s = 0 -> pic_get_irq s = Ok 0.
Proof.
  intros E1 E2 E3 E4 E5 E6. unfold pic_get_irq, service_mask. rewrite E1, E3, E5, E6.
  assert (Hm : Z.land 1 (Z.lnot (imr s)) = 1).
  { rewrite Z.land_comm. change 1 with (Z.ones 1) at 1. rewrite Z.land_ones by lia. rewrite <- Z.bit0_mod, Z.lnot_spec, E2 by lia. done. }
  rewrite Hm. unfold get_priority, priority_loop. rewrite E4. reflexivity.
Qed.

Lemma intack_line0 s : irr s = 1 -> isr s = 0 -> elcr s = 0 -> auto_eoi s = 0 ->
  pic_intack s 0 = Ok (pic_set_irr 0 (pic_set_isr 1 s), Some 0).
Proof.
  intros E1 E2 E3 E4. destruct s. cbn in *. subst. unfold pic_intack, pic_update_irq. cbn -[pic_get_irq].
  change (Z.land 0 (irq_bit 0) =? 0) with true. cbn -[pic_get_irq]. change (Z.land 1 (Z.lnot (irq_bit 0))) with 0.
  change (Z.lor 0 (irq_bit 0)) with 1. by rewrite get_irq_none.
Qed.

Lemma eoi_line0 s : isr s = 1 -> priority_add s = 0 -> irr s = 0 -> pic_ioport_write s 0 0x20 = Ok (pic_set_isr 0 s, Some 0).
Proof.
  intros E1 E2 E3. change (pic_ioport_write s 0 0x20) with (priority ← get_priority s (isr s);
    if priority =? 8 then Ok (s, None) else pic_update_irq (clear_isr (Z.land (priority + priority_add s) 7) s)).
  rewrite E1. unfold get_priority, priority_loop. rewrite !E2. change (Z.land 1 (irq_bit (Z.land (0 + 0) 7)) =? 0) with false.
  cbn [Z.eqb mbind outcome_bind]. change (Z.land (0 + 0) 7) with 0. unfold clear_isr. rewrite E1. change (Z.land 1 (Z.lnot (irq_bit 0))) with 0.
  unfold pic_update_irq. by rewrite get_irq_none by (by destruct s).
Qed.

Section Interrupt.
Context (p : PICs) (base : Z).
Hypothesis Hidle : master_idle base (isa_pic p).
Hypothesis Hcpu : cpu_irq p = 0.

Lemma irq0_low_idle : isa_set_irq p 0 0 = Ok p.
Proof using Hidle Hcpu.
  destruct Hidle. destruct p as [m sl so cpu]. destruct m. cbn in *. subst. unfold isa_set_irq, pic_set_irq, pic_update_irq. cbn.
  by rewrite get_irq_none.
Qed.

(** The controllers with line 0 raised. *)
Definition raised : PICs :=
  {| isa_pic := pic_set_last_irr 1 (pic_set_irr 1 (isa_pic p)); slave_pic := slave_pic p; slave_out := slave_out p; cpu_irq := 1 |}.

Lemma irq0_rises : isa_set_irq p 0 1 = Ok raised.
Proof using Hidle Hcpu.
  destruct Hidle. unfold raised. destruct p as [m sl so cpu]. destruct m. cbn in *. subst. unfold isa_set_irq, pic_set_irq, pic_update_irq. cbn.
  by rewrite get_irq_line0.
Qed.

(** The controllers after the handler, the line still high. *)
Definition handled : PICs :=
  {| isa_pic := pic_set_last_irr 1 (isa_pic p); slave_pic := slave_pic p; slave_out := slave_out p; cpu_irq := 0 |}.

Lemma irq0_handled s : handle_interrupt {| pit0 := s; pics := raised |} = Ok ({| pit0 := s; pics := handled |}, base).
Proof using Hidle Hcpu.
  assert (E : pic_get_irq (isa_pic raised) = Ok 0).
  { unfold raised. destruct Hidle, p as [m sl so cpu]. destruct m. by apply get_irq_line0. }
  unfold handle_interrupt, pic_read_irq. cbn [pics]. rewrite E. cbn [mbind outcome_bind]. unfold raised, handled in *.
  destruct Hidle, p as [m sl so cpu]. destruct m. cbn -[pic_intack pic_ioport_write] in *. subst.
  rewrite intack_line0 by done. cbn -[pic_ioport_write]. rewrite eoi_line0 by done. cbn. by rewrite Z.add_0_r.
Qed.

Lemma irq0_falls : isa_set_irq handled 0 0 = Ok p.
Proof using Hidle Hcpu.
  destruct Hidle. unfold handled. destruct p as [m sl so cpu]. destruct m. cbn in *. subst. unfold isa_set_irq, pic_set_irq, pic_update_irq. cbn.
  by rewrite get_irq_none.
Qed.

End Interrupt.

Section Periods.
Context (s : PITChannelState) (p : PICs) (N base : Z).
Hypothesis Hs : loaded s.
Hypothesis Hmode : mode s = 2.
Hypothesis Hcount : count s = N.
Hypothesis HN : 2 <= N.
Hypothesis Htimer : irq_timer s <> None.
Hypothesis Hirq : irq_disabled s = false.
Hypothesis Hload : count_load_time s < 2 ^ 60.
Hypothesis Hidle : master_idle base (isa_pic p).
Hypothesis Hcpu : cpu_irq p = 0.

Lemma drive_armed l m q : drive_irq0 {| pit0 := armed s l m; pics := q |} (armed s l m) =
  (q' ← isa_set_irq q 0 l; Ok {| pit0 := armed s l m; pics := q' |}).
Proof using Hirq.
  destruct (armed_same s l m) as (_ & _ & A3 & A4 & _ & _ & _ & A8). unfold drive_irq0. by rewrite A3, A4, Hirq, A8.
Qed.

Lemma drive_any s' q l m : drive_irq0 {| pit0 := s'; pics := q |} (armed s l m) = drive_irq0 {| pit0 := armed s l m; pics := q |} (armed s l m).
Proof using. done. Qed.

Lemma expire_rise k : 1 <= k -> (k + 1) * N + 1 < 596591 ->
  timer_expire {| pit0 := armed s 0 (k * N + 1); pics := p |} = Ok {| pit0 := armed s 1 ((k + 1) * N); pics := raised p |}.
Proof using Hs Hmode Hcount HN Htimer Hirq Hload Hidle Hcpu.
  intros Hk Hb. unfold timer_expire. cbn [pit0]. rewrite (rate_rise s N) by (try done; lia). cbn [mbind outcome_bind].
  rewrite drive_any, drive_armed, (irq0_rises p base) by done. done.
Qed.

Lemma expire_fall k : 1 <= k -> (k + 1) * N + 1 < 596591 ->
  timer_expire {| pit0 := armed s 1 ((k + 1) * N); pics := handled p |} = Ok {| pit0 := armed s 0 ((k + 1) * N + 1); pics := p |}.
Proof using Hs Hmode Hcount HN Htimer Hirq Hload Hidle Hcpu.
  intros Hk Hb. unfold timer_expire. cbn [pit0]. rewrite (rate_fall s N) by (try done; lia). cbn [mbind outcome_bind].
  rewrite drive_any, drive_armed, (irq0_falls p base) by done. done.
Qed.

Lemma timer_period_ok k : 1 <= k -> (k + 1) * N + 1 < 596591 ->
  timer_period {| pit0 := armed s 0 (k * N + 1); pics := p |} = Ok ({| pit0 := armed s 0 ((k + 1) * N + 1); pics := p |}, base).
Proof using Hs Hmode Hcount HN Htimer Hirq Hload Hidle Hcpu.
  intros Hk Hb. unfold timer_period. rewrite expire_rise by done. cbn [mbind outcome_bind]. rewrite (irq0_handled p base) by done.
  cbn [mbind outcome_bind]. by rewrite expire_fall.
Qed.

Lemma timer_periods_ok k : (Z.of_nat k + 1) * N + 1 < 596591 ->
  timer_periods k {| pit0 := armed s 0 (N + 1); pics := p |} =
  Ok ({| pit0 := armed s 0 ((Z.of_nat k + 1) * N + 1); pics := p |}, replicate k base).
Proof using Hs Hmode Hcount HN Htimer Hirq Hload Hidle Hcpu.
  induction k as [|k IH]; intros Hb; cbn [timer_periods].
  { replace ((Z.of_nat 0 + 1) * N + 1) with (N + 1) by lia. done. }
  rewrite IH by lia. cbn [mbind outcome_bind]. rewrite timer_period_ok by lia. cbn [mbind outcome_bind].
  rewrite <- replicate_cons_app. by replace (Z.of_nat k + 1 + 1) with (Z.of_nat (S k) + 1) by lia.
Qed.

End Periods.

(** Loading the counter arms the timer and leaves the line low. *)
Lemma timer_load_ok now s p base val : 0 <= now < 2 ^ 60 -> mode s = 2 -> irq_timer s <> None -> irq_disabled s = false -> 2 <= val < 0x10000 ->
  master_idle base (isa_pic p) -> cpu_irq p = 0 -> exists s', timer_load now {| pit0 := s; pics := p |} val = Ok {| pit0 := armed s' 0 (val + 1); pics := p |} /\
    loaded s' /\ mode s' = 2 /\ irq_timer s' <> None /\ irq_disabled s' = false /\ count s' = val /\ count_load_time s' = now.
Proof.
  intros Hnow Hm Hit Hirq Hv Hidle Hcpu. destruct (pit_load_rate now s val Hnow Hm Hit Hirq Hv) as (s' & El & Hs' & F1 & F2 & F3 & F4 & F5).
  exists s'. split; [|done]. unfold timer_load. cbn [pit0]. rewrite El. cbn [mbind outcome_bind]. by rewrite drive_any, drive_armed, (irq0_low_idle p base).
Qed.

(** A guest that loads counter 0 with [val] in rate generator
    mode, with the interrupt controllers initialised, line 0 unmasked and no
    interrupt under way, gets one interrupt with the vector of line 0 per
    [val] ticks of the input clock, as long as it ends each before the next
    expiration; after each the controllers are as before. *)
Theorem timer_interrupts_delivered now s p base val k :
  0 <= now < 2 ^ 60 -> mode s = 2 -> irq_timer s <> None -> irq_disabled s = false -> 2 <= val < 0x10000 ->
  master_idle base (isa_pic p) -> cpu_irq p = 0 -> (Z.of_nat k + 1) * val + 1 < 596591 -> exists sys sys',
  timer_load now {| pit0 := s; pics := p |} val = Ok sys /\ timer_periods k sys = Ok (sys', replicate k base) /\
  pics sys' = p /\ ticks (pit0 sys) (next_transition_time (pit0 sys')) = (Z.of_nat k + 1) * val.
Proof.
  intros Hnow Hm Hit Hirq Hv Hidle Hcpu Hb.
  destruct (timer_load_ok now s p base val Hnow Hm Hit Hirq Hv Hidle Hcpu) as (s' & El & Hs' & F1 & F2 & F3 & F4 & F5).
  assert (Hld : count_load_time s' < 2 ^ 60) by lia. do 2 eexists. split; [done|].
  rewrite (timer_periods_ok s' p val base) by (try done; lia). split_and!; [done..|]. cbn [pit0].
  destruct (armed_same s' 0 ((Z.of_nat k + 1) * val + 1)) as (_ & _ & _ & _ & _ & _ & A7 & _). rewrite A7, ticks_armed.
  rewrite ticks_due; [lia|done|nia|apply later_due; [done|done|nia]].
Qed.

(** Vector 0x30, all other lines masked, three periods of 11932 ticks. *)
Lemma timer_interrupts_delivered_witness :
  let p := {| isa_pic := pic_set_irq_base 0x30 (pic_set_imr 0xFE (i8259_init_chip true)); slave_pic := i8259_init_chip false;
              slave_out := 0; cpu_irq := 0 |} in exists sys sys',
  timer_load 5000 {| pit0 := sample_channel 2 0; pics := p |} 11932 = Ok sys /\ timer_periods 3 sys = Ok (sys', replicate 3 0x30) /\
  pics sys' = p /\ ticks (pit0 sys) (next_transition_time (pit0 sys')) = (Z.of_nat 3 + 1) * 11932.
Proof.
  apply timer_interrupts_delivered; [split; [discriminate|reflexivity]|reflexivity|discriminate|reflexivity|split; [discriminate|reflexivity]|
    constructor; reflexivity|reflexivity|reflexivity].
Defined.
