(* ===== verification/MainLoop.v ===== *)
(** * The main loop (main-loop.c) and the timer interrupt

    [main_loop_wait] computes how long to wait from the timer deadlines of
    QemuTimer.v, waits for host events and runs the expired timers.  The theorem
    at the end puts the parts together: the main loop, the timer lists, counter 0
    of the 8254 (I8254.v) whose interrupt timer is on the list of the virtual
    clock, and the interrupt controllers (I8259.v) it drives.  Bottom halves,
    file descriptor handlers and the user-mode network stack are the parameters
    [wait] and [fill]. *)
From S2P Require Import Prelude QemuTimer I8259 I8254 XboxTimer.

Definition UINT32_MAX : Z := 0xffffffff.

Section MainLoop.
Context {D : Type}.
Abbreviation World := (MachineState D).

(** [fill] is what [slirp_pollfds_fill] makes of the timeout.  [wait] is
    [os_host_main_loop_wait] with the handlers it calls: it returns when the
    timeout is over (-1: never) or an event has been handled.  Returned are the
    timers that ran. *)
Definition main_loop_wait (fill : Z -> Z) (wait : Z -> World -> outcome World) (callback : Z -> Z -> World -> outcome World)
    (fuel : nat) (w : World) (nonblocking : bool) : outcome (World * list addr) :=
  let timeout := fill (if nonblocking then 0 else UINT32_MAX) in
  let timeout_ns := if timeout =? UINT32_MAX then -1 else u64 (timeout * SCALE_MS) in
  '(w, deadline) ← timerlistgroup_deadline_ns w (main_loop_tlg w);
  w ← wait (qemu_soonest_timeout timeout_ns deadline) w;
  '(w, _, fired) ← qemu_clock_run_all_timers callback fuel w;
  Ok (w, fired).

Definition put_host (h : HostClocks) (w : World) : World :=
  {| timers := timers w; lists := lists w; qemu_clocks := qemu_clocks w; main_loop_tlg := main_loop_tlg w; host := h; events := events w; devices := devices w |}.
Definition put_devices (d : D) (w : World) : World :=
  {| timers := timers w; lists := lists w; qemu_clocks := qemu_clocks w; main_loop_tlg := main_loop_tlg w; host := host w; events := events w; devices := d |}.

(** All clocks of the host advance by [t]. *)
Definition advance (t : Z) (h : HostClocks) : HostClocks :=
  {| get_clock := get_clock h + t; get_clock_realtime := get_clock_realtime h + t; cpu_get_clock := cpu_get_clock h + t;
     cpu_get_icount := cpu_get_icount h; use_icount := use_icount h |}.

(** Waiting with no host events, waking up [late] nanoseconds after the
    deadline; without a deadline there is no wake-up. *)
Definition sleep (late : Z) (timeout : Z) (w : World) : outcome World :=
  if timeout <? 0 then NoFuel else Ok (put_host (advance (timeout + late) (host w)) w).

(** ** Runs without expired timers *)

(** What reading clocks and running timers do not change of the main loop. *)
Record kept (w w' : World) : Prop := {
  kept_host : host w' = host w;
  kept_tlg : main_loop_tlg w' = main_loop_tlg w;
  kept_enabled : forall i, enabled <$> qemu_clocks w' !! i = enabled <$> qemu_clocks w !! i;
  kept_clock : forall tl, tl_clock <$> lists w' !! tl = tl_clock <$> lists w !! tl
}.

Lemma kept_trans w1 w2 w3 : kept w1 w2 -> kept w2 w3 -> kept w1 w3.
Proof. intros [A1 A2 A3 A4] [B1 B2 B3 B4]. split; congruence. Qed.

Lemma read_kept w w' : clock_read w w' -> kept w w'.
Proof. intros [C1 C2 C3 C4 C5 C6 C7]. split; try done. intros tl. by rewrite C2. Qed.

Lemma touched_kept tl w w' : touched tl w w' -> kept w w'.
Proof.
  intros [M O (L & p & HL & EL) (C1 & C2 & C3 & C4)]. split; try done; [intros i; by rewrite C1|]. intros tl'. rewrite EL.
  destruct (decide (tl' = tl)) as [->|]; [by rewrite lookup_insert_eq, HL|by rewrite lookup_insert_ne].
Qed.

Lemma done_kept w tl L d : lists w !! tl = Some L -> kept w (put_lists (<[tl := set_done d L]> (lists w)) w).
Proof.
  intros HL. split; try done. intros tl'. cbn [lists put_lists].
  destruct (decide (tl' = tl)) as [->|]; [by rewrite lookup_insert_eq, HL|by rewrite lookup_insert_ne].
Qed.

Lemma refines_ext (w w' : World) A : timers w' = timers w -> lists w' = lists w -> events w' = events w -> refines w A -> refines w' A.
Proof.
  intros Et El Ee [R1 R2 R3 R4]. split; try congruence. intros tl. specialize (R4 tl). rewrite El. destruct (lists w !! tl) as [L|]; [|done].
  destruct R4 as (q & Hq & Hr). exists q. split; [done|]. apply (list_repr_frame w); [done|by rewrite El|by rewrite Et].
Qed.

(** The clock of a list shows in what it sends. *)
Lemma refines_clock (w w' : World) A A' tl : refines w A -> refines w' A' -> targets A' = targets A -> tl_clock <$> lists w' !! tl = tl_clock <$> lists w !! tl.
Proof.
  intros R R' E. rewrite (ref_targets _ _ R), (ref_targets _ _ R') in E. apply (f_equal (lookup tl)) in E. rewrite !lookup_fmap in E.
  destruct (lists w' !! tl), (lists w !! tl); cbn in *; try done. by injection E as ->.
Qed.

(** Running a list whose clock is enabled, up to the loop over its timers. *)
Lemma run_timers_around callback fuel w A tl type : refines w A -> is_Some (queues A !! tl) -> tl_clock <$> lists w !! tl = Some type ->
  enabled <$> qemu_clocks w !! clock_index type = Some true ->
  exists w1 es, timerlist_run_timers callback fuel w tl =
      ('(w, progress, fired) ← run_loop callback fuel w1 tl (clock_now (host w) type) false []; w ← on_list (set_done true) tl w; Ok (w, progress, fired)) /\
    refines w1 (with_outbox es A) /\ kept w w1 /\ devices w1 = devices w.
Proof.
  intros R [q Hq] Hl Hc. destruct (lists w !! tl) as [L|] eqn:HL; [|done]. injection Hl as Hl. destruct (qemu_clocks w !! clock_index type) as [c|] eqn:Ec; [|done]. injection Hc as Hc.
  pose proof (refines_done _ _ _ _ false R HL) as R1. unfold timerlist_run_timers. rewrite (on_list_ok _ _ _ L HL). cbn [mbind outcome_bind].
  unfold list_at. cbn [lists put_lists]. rewrite lookup_insert_eq. cbn [from_heap mbind outcome_bind tl_clock set_done]. unfold qemu_clock_ptr. rewrite Hl.
  cbn [qemu_clocks put_lists]. rewrite Ec. cbn [from_heap mbind outcome_bind]. rewrite Hc. cbn [negb]. pose proof (done_kept w tl L false HL) as K1.
  set (w1 := put_lists _ w) in *. destruct (qemu_clock_get_ns_ok w1 type) as (w2 & -> & Cr); [by exists c|]. destruct (clock_read_refines _ _ _ Cr R1) as (es & R2).
  exists w2, es. cbn [mbind outcome_bind]. split_and!; [done|done| |by rewrite (read_devices _ _ Cr)]. eapply kept_trans; [exact K1|by apply read_kept].
Qed.

Lemma run_timers_end (w : World) A tl : refines w A -> is_Some (queues A !! tl) -> exists w', on_list (set_done true) tl w = Ok w' /\ refines w' A /\ kept w w' /\ devices w' = devices w.
Proof.
  intros R [q Hq]. pose proof (ref_armed _ _ R tl) as X. destruct (lists w !! tl) as [L|] eqn:HL; [|congruence].
  rewrite (on_list_ok _ _ _ L HL). eexists. split_and!; [done|by apply refines_done|by apply done_kept|done].
Qed.

Lemma run_timers_idle callback fuel w A tl type q : refines w A -> queues A !! tl = Some q -> tl_clock <$> lists w !! tl = Some type ->
  enabled <$> qemu_clocks w !! clock_index type = Some true -> q_expired (clock_now (host w) type) q = [] ->
  exists w' es, timerlist_run_timers callback (S fuel) w tl = Ok (w', false, []) /\ refines w' (with_outbox es A) /\ kept w w' /\ devices w' = devices w.
Proof.
  intros R Hq Hl Hc Hx. destruct (run_timers_around callback (S fuel) w A tl type) as (w1 & es & -> & R1 & K1 & D1); [done|by exists q|done|done|].
  rewrite (run_loop_stop _ _ _ (with_outbox es A) _ q) by done. cbn [mbind outcome_bind].
  destruct (run_timers_end w1 (with_outbox es A) tl R1) as (w2 & -> & R2 & K2 & D2); [by exists q|]. cbn [mbind outcome_bind].
  exists w2, es. split_and!; [done|done|by eapply kept_trans|congruence].
Qed.
End MainLoop.

(** ** The timer of the 8254 on the list of the virtual clock *)
Section Pit.
Abbreviation World := (MachineState TimerSys).

(** The lists of the main loop and the interrupt timer. *)
Context (p0 p1 p2 t0 : addr).

(** The calls of [timer_mod] and [timer_del] in [pit_irq_timer_update]. *)
Definition sync_timer (w : World) (s : PITChannelState) : outcome World :=
  if irq_disabled s then Ok w else
  match irq_timer s with
  | None => Ok w
  | Some None => timer_del w t0
  | Some (Some e) => timer_mod w t0 e
  end.

Definition pit_callback (c o : Z) (w : World) : outcome World :=
  sys ← timer_expire (devices w); sync_timer (put_devices sys w) (pit0 sys).

(** The guest writes the count of counter 0. *)
Definition guest_load (w : World) (val : Z) : outcome World :=
  '(w, now) ← qemu_clock_get_ns w QEMU_CLOCK_VIRTUAL;
  sys ← timer_load now (devices w) val;
  sync_timer (put_devices sys w) (pit0 sys).

(** The CPU takes and ends the interrupt it is given. *)
Definition cpu_step (w : World) : outcome (World * list Z) :=
  if cpu_irq (pics (devices w)) =? 1 then '(sys, vector) ← handle_interrupt (devices w); Ok (put_devices sys w, [vector])
  else Ok (w, []).

(** Iterations of the main loop with the CPU running in between. *)
Fixpoint main_loop (late : Z) (n : nat) (w : World) : outcome (World * list Z) :=
  match n with
  | O => Ok (w, [])
  | S n =>
    '(w, vectors) ← main_loop late n w;
    '(w, _) ← main_loop_wait (fun t => t) (sleep late) pit_callback 2 w false;
    '(w, more) ← cpu_step w;
    Ok (w, vectors ++ more)
  end.

Definition list_of (type : QEMUClockType) : addr :=
  match type with QEMU_CLOCK_REALTIME => p0 | QEMU_CLOCK_VIRTUAL => p1 | QEMU_CLOCK_HOST => p2 end.

(** The clocks run and the interrupt timer, the only one, has the queue [q]. *)
Record loop_state (w : World) (q : list (addr * Z)) : Prop := {
  ls_spec : exists A c o, refines w A /\ queues A !! p0 = Some [] /\ queues A !! p1 = Some q /\ queues A !! p2 = Some [] /\ meta A !! t0 = Some (p1, c, o, 1);
  ls_tlg : main_loop_tlg w = [p0; p1; p2];
  ls_lists : forall type, tl_clock <$> lists w !! list_of type = Some type;
  ls_enabled : forall type, enabled <$> qemu_clocks w !! clock_index type = Some true;
  ls_icount : use_icount (host w) = false
}.

Lemma loop_state_kept w w' q q' : loop_state w q -> kept w w' ->
  (exists A c o, refines w' A /\ queues A !! p0 = Some [] /\ queues A !! p1 = Some q' /\ queues A !! p2 = Some [] /\ meta A !! t0 = Some (p1, c, o, 1)) ->
  loop_state w' q'.
Proof.
  intros [_ H2 H3 H4 H5] [K1 K2 K3 K4] HA. split; [done|congruence| | |congruence]; intros type; [by rewrite K4|by rewrite K3].
Qed.

Lemma loop_state_env w q h d : loop_state w q -> use_icount h = false -> loop_state (put_host h (put_devices d w)) q.
Proof.
  intros [(A & c & o & R & HA) H2 H3 H4 H5] Hh. split; try done. exists A, c, o. split; [|done]. by apply (refines_ext w).
Qed.

Hypothesis Hdistinct : NoDup [p0; p1; p2].

(** Arming the interrupt timer. *)
Lemma sync_timer_ok w s e q : loop_state w q -> q_del t0 q = [] -> irq_disabled s = false -> irq_timer s = Some (Some e) -> 0 <= e < 2 ^ 63 ->
  exists w', sync_timer w s = Ok w' /\ loop_state w' [(t0, e)] /\ devices w' = devices w /\ host w' = host w.
Proof using Hdistinct.
  intros Hls Hq Hd Ht He. pose proof Hls as [(A & c & o & R & Q0 & Q1 & Q2 & Hm) _ _ _ _]. unfold sync_timer. rewrite Hd, Ht.
  assert (Ho : owner A t0 = Some (p1, q)) by (unfold owner; rewrite Hm; cbn -[lookup]; by rewrite Q1).
  destruct (owner_ok _ _ _ _ _ R Ho) as (ts & Ets & Etl & _). pose proof Hm as Hm'. rewrite (ref_meta _ _ R), lookup_fmap, Ets in Hm'. injection Hm' as _ _ _ Hsc.
  unfold timer_mod, timer_at. rewrite Ets. cbn [from_heap mbind outcome_bind]. rewrite Hsc, Z.mul_1_r, (swrap_small 64) by (unfold in_s; lia).
  destruct (timer_mod_ns_refines w A t0 e (spec_arm p1 (q_insert t0 e (q_del t0 q)) t0 A)) as (w' & E & R' & C1 & C2 & C3 & C4); [done|cbn; by rewrite Ho|].
  exists w'. split; [done|]. split; [|done]. apply (loop_state_kept w _ q); [done| |].
  { split; [done|done|intros i; by rewrite C1|]. intros tl. by apply (refines_clock _ _ A _ tl R R'). }
  eexists _, c, o. split; [exact R'|]. cbn [queues meta spec_arm]. rewrite Hq. cbn [q_insert]. replace (Z.max e 0) with e by lia.
  apply NoDup_cons in Hdistinct as [N0 [N1 _]%NoDup_cons]. rewrite lookup_insert_eq, !lookup_insert_ne by set_solver.
  done.
Qed.
Lemma clock_virtual w q : loop_state w q -> clock_now (host w) QEMU_CLOCK_VIRTUAL = cpu_get_clock (host w).
Proof using. intros [_ _ _ _ H]. cbn. by rewrite H. Qed.

(** The interrupt timer expires and is armed again. *)
Lemma run_pit fuel w e e' sys' : loop_state w [(t0, e)] -> e <= cpu_get_clock (host w) < e' -> 0 <= e' < 2 ^ 63 ->
  timer_expire (devices w) = Ok sys' -> irq_disabled (pit0 sys') = false -> irq_timer (pit0 sys') = Some (Some e') ->
  exists w', timerlist_run_timers pit_callback (S (S fuel)) w p1 = Ok (w', true, [t0]) /\ loop_state w' [(t0, e')] /\ devices w' = sys' /\ host w' = host w.
Proof using Hdistinct.
  intros Hls Hnow He' Hexp Hdis Htim. pose proof Hls as [(A & c & o & R & Q0 & Q1 & Q2 & Hm) _ HL HE _].
  destruct (run_timers_around pit_callback (S (S fuel)) w A p1 QEMU_CLOCK_VIRTUAL R ltac:(by eexists) (HL QEMU_CLOCK_VIRTUAL) (HE QEMU_CLOCK_VIRTUAL)) as (w1 & es & -> & R1 & K1 & D1).
  rewrite (clock_virtual w _ Hls). destruct (run_loop_fire pit_callback (S fuel) w1 (with_outbox es A) p1 t0 e [] (cpu_get_clock (host w)) false [] R1 Q1 ltac:(lia))
    as (ts & w2 & -> & _ & R2 & T2 & _). pose proof (touched_rest _ _ _ T2) as (_ & _ & H2 & D2).
  change (pit_callback (cb ts) (opaque ts) w2) with (sys ← timer_expire (devices w2); sync_timer (put_devices sys w2) (pit0 sys)).
  rewrite D2, D1, Hexp. cbn [mbind outcome_bind].
  assert (L2 : loop_state w2 []).
  { apply (loop_state_kept w _ [(t0, e)]); [done|eapply kept_trans; [exact K1|by eapply touched_kept]|]. eexists _, c, o. split; [exact R2|]. cbn [queues meta with_queue with_outbox].
    apply NoDup_cons in Hdistinct as [N0 [N1 _]%NoDup_cons]. rewrite lookup_insert_eq, !lookup_insert_ne by set_solver. done. }
  destruct (sync_timer_ok (put_devices sys' w2) (pit0 sys') e' []) as (w3 & -> & L3 & D3 & H3); try done.
  { apply (loop_state_env w2 [] (host w2) sys'); [done|apply L2]. }
  cbn [mbind outcome_bind]. pose proof L3 as [(A3 & c3 & o3 & R3 & S0 & S1 & S2 & Hm3) _ _ _ _].
  rewrite (run_loop_stop _ _ _ A3 _ [(t0, e')]) by (try done; cbn; by rewrite (proj2 (Z.leb_gt _ _)) by lia). cbn [mbind outcome_bind app].
  destruct (run_timers_end w3 A3 p1 R3) as (w4 & -> & R4 & K4 & D4); [by eexists|]. cbn [mbind outcome_bind]. exists w4. split; [done|]. split_and!.
  - apply (loop_state_kept w3 _ [(t0, e')]); [done|done|]. by exists A3, c3, o3.
  - by rewrite D4, D3.
  - rewrite (kept_host _ _ K4), H3. cbn. by rewrite H2, (kept_host _ _ K1).
Qed.

Lemma run_other fuel w q type : loop_state w q -> type <> QEMU_CLOCK_VIRTUAL ->
  exists w', timerlist_run_timers pit_callback (S fuel) w (list_of type) = Ok (w', false, []) /\ loop_state w' q /\ devices w' = devices w /\ host w' = host w.
Proof using.
  intros Hls Ht. pose proof Hls as [(A & c & o & R & Q0 & Q1 & Q2 & Hm) _ HL HE _].
  destruct (run_timers_idle pit_callback fuel w A (list_of type) type []) as (w' & es & E & R' & K & D); [done|by destruct type|apply HL|apply HE|done|].
  exists w'. split; [done|]. split; [|split; [done|apply K]]. apply (loop_state_kept w _ q); [done|done|]. by exists (with_outbox es A), c, o.
Qed.

Lemma run_all fuel w e e' sys' : loop_state w [(t0, e)] -> e <= cpu_get_clock (host w) < e' -> 0 <= e' < 2 ^ 63 ->
  timer_expire (devices w) = Ok sys' -> irq_disabled (pit0 sys') = false -> irq_timer (pit0 sys') = Some (Some e') ->
  exists w', qemu_clock_run_all_timers pit_callback (S (S fuel)) w = Ok (w', true, [t0]) /\ loop_state w' [(t0, e')] /\ devices w' = sys' /\ host w' = host w.
Proof using Hdistinct.
  intros Hls Hnow He' Hexp Hdis Htim. unfold qemu_clock_run_all_timers. cbn [ofold all_clocks].
  destruct (run_other (S fuel) w _ QEMU_CLOCK_REALTIME Hls ltac:(done)) as (w1 & E1 & L1 & D1 & H1).
  destruct (run_pit fuel w1 e e' sys') as (w2 & E2 & L2 & D2 & H2); [done|by rewrite H1|done|by rewrite D1|done|done|].
  destruct (run_other (S fuel) w2 _ QEMU_CLOCK_HOST L2 ltac:(done)) as (w3 & E3 & L3 & D3 & H3).
  unfold qemu_clock_run_timers, group_at. rewrite (ls_tlg _ _ Hls). cbn [lookup list_lookup clock_index from_heap mbind outcome_bind]. cbn [list_of] in E1, E3.
  rewrite E1. cbn [mbind outcome_bind]. rewrite (ls_tlg _ _ L1). cbn [lookup list_lookup clock_index from_heap mbind outcome_bind]. rewrite E2.
  cbn [mbind outcome_bind]. rewrite (ls_tlg _ _ L2). cbn [lookup list_lookup clock_index from_heap mbind outcome_bind]. rewrite E3. cbn.
  exists w3. split_and!; [done|done|congruence|congruence].
Qed.

(** The deadline of the main loop is the expiry of the interrupt timer. *)
Lemma pit_deadline w e : loop_state w [(t0, e)] -> 0 <= cpu_get_clock (host w) <= e -> e < 2 ^ 63 ->
  exists w', timerlistgroup_deadline_ns w (main_loop_tlg w) = Ok (w', e - cpu_get_clock (host w)) /\ loop_state w' [(t0, e)] /\ devices w' = devices w /\ host w' = host w.
Proof using.
  intros Hls Hnow He. pose proof Hls as [(A & c & o & R & Q0 & Q1 & Q2 & Hm) HT HL HE HI]. pose proof (clock_virtual _ _ Hls) as Hv.
  assert (G : forall type, exists tl, main_loop_tlg w !! clock_index type = Some tl /\ deadline_ok w A tl).
  { intros type. exists (list_of type). rewrite HT. split; [by destruct type|]. specialize (HL type). destruct (lists w !! list_of type) as [L|] eqn:EL; [|done].
    injection HL as HL. exists L. rewrite HL. specialize (HE type). destruct (qemu_clocks w !! clock_index type) as [cl|]; [|done].
    destruct type; cbn [list_of] in *; eexists; (split_and!; [done|by eexists|done|]); repeat constructor; unfold in_s; cbn [snd]; rewrite Hv; lia. }
  destruct (group_deadline_ok w A (main_loop_tlg w) all_clocks R G w (-1) (fun _ => False) (clock_read_refl w) ltac:(left; tauto)) as (w' & d & E & Cr & Hs).
  assert (Hd : d = e - cpu_get_clock (host w)).
  { assert (X : group_waits w A (main_loop_tlg w) QEMU_CLOCK_VIRTUAL (e - cpu_get_clock (host w))).
    { specialize (HL QEMU_CLOCK_VIRTUAL). cbn [list_of] in HL. destruct (lists w !! p1) as [L|] eqn:EL; [|done]. injection HL as HL. specialize (HE QEMU_CLOCK_VIRTUAL).
      destruct (qemu_clocks w !! clock_index QEMU_CLOCK_VIRTUAL) as [cl|] eqn:Ec; [|done]. injection HE as HE. exists p1, L. split_and!; [by rewrite HT|done| |].
      - unfold qemu_clock_use_for_deadline. by rewrite HI.
      - exists L, cl, [(t0, e)], t0, e. rewrite HL, Hv. split_and!; [done..|left|lia]. }
    destruct Hs as [[_ Hn]|(Hr & Hp & Hmin)]; [destruct (Hn (e - cpu_get_clock (host w))); right; exists QEMU_CLOCK_VIRTUAL; split; [right; left|done]|].
    destruct Hp as [[]|(type & _ & tl & L & H1 & H2 & H3 & L' & cl & q & t & e1 & H4 & H5 & H6 & H7 & H8 & H9)].
    rewrite HT in H1. destruct type; injection H1 as <-; simplify_eq; try (by apply elem_of_nil in H8).
    apply list_elem_of_singleton in H8. injection H8 as -> ->. specialize (HL QEMU_CLOCK_VIRTUAL). cbn [list_of] in HL. rewrite H2 in HL. injection HL as ->. rewrite Hv in *. lia. }
  subst d. exists w'. split; [done|]. split_and!; [|apply Cr|apply Cr]. apply (loop_state_kept w _ [(t0, e)]); [done|by apply read_kept|].
  destruct (clock_read_refines _ _ _ Cr R) as (es & R'). by exists (with_outbox es A), c, o.
Qed.
(** One iteration of the main loop: it wakes up at the expiry, and the timer
    and what it drives take one step. *)
Lemma main_loop_iteration late w e e' sys' : loop_state w [(t0, e)] -> 0 <= cpu_get_clock (host w) <= e -> 0 <= late -> e + late < e' < 2 ^ 63 ->
  timer_expire (devices w) = Ok sys' -> irq_disabled (pit0 sys') = false -> irq_timer (pit0 sys') = Some (Some e') ->
  exists w', main_loop_wait (fun t => t) (sleep late) pit_callback 2 w false = Ok (w', [t0]) /\ loop_state w' [(t0, e')] /\ devices w' = sys' /\
    cpu_get_clock (host w') = e + late.
Proof using Hdistinct.
  intros Hls Hnow Hlate He' Hexp Hdis Htim. unfold main_loop_wait. destruct (pit_deadline w e Hls Hnow ltac:(lia)) as (w1 & -> & L1 & D1 & H1).
  cbn [mbind outcome_bind]. assert (Hso : qemu_soonest_timeout (-1) (e - cpu_get_clock (host w)) = e - cpu_get_clock (host w)).
  { unfold qemu_soonest_timeout. rewrite (wrap_small 64 (e - cpu_get_clock (host w))) by lia. change (u64 (-1)) with (2 ^ 64 - 1).
    rewrite (proj2 (Z.ltb_ge _ _)) by lia. done. }
  cbn [Z.eqb Pos.eqb UINT32_MAX]. rewrite Hso. unfold sleep. rewrite (proj2 (Z.ltb_ge _ _)) by lia. cbn [mbind outcome_bind].
  set (h := advance _ _). assert (Hh : cpu_get_clock h = e + late) by (cbn; rewrite H1; lia).
  assert (L2 : loop_state (put_host h w1) [(t0, e)]) by (apply (loop_state_env w1 _ h (devices w1)); [done|apply L1]).
  destruct (run_all 0 (put_host h w1) e e' sys') as (w3 & -> & L3 & D3 & H3); try done; [cbn [host put_host]; lia|lia|cbn [devices put_host]; by rewrite D1|].
  cbn [mbind outcome_bind]. exists w3. split_and!; [done|done|done|]. by rewrite H3.
Qed.

Lemma main_loop_add late n m w : main_loop late (m + n) w =
  ('(w, vectors) ← main_loop late n w; '(w, more) ← main_loop late m w; Ok (w, vectors ++ more)).
Proof using.
  induction m as [|m IH]; cbn [Nat.add main_loop].
  - destruct (main_loop late n w) as [[w1 v]| |]; cbn; by rewrite ?app_nil_r.
  - rewrite IH. destruct (main_loop late n w) as [[w1 v]| |]; cbn [mbind outcome_bind]; [|done..].
    destruct (main_loop late m w1) as [[w2 v2]| |]; cbn [mbind outcome_bind]; [|done..].
    destruct (main_loop_wait _ _ _ _ w2 _) as [[w3 f]| |]; cbn [mbind outcome_bind]; [|done..].
    destruct (cpu_step w3) as [[w4 v4]| |]; cbn [mbind outcome_bind]; [|done..]. by rewrite app_assoc.
Qed.

Section Running.
Context (s : PITChannelState) (p : PICs) (N base late : Z).
Hypothesis Hs : loaded s.
Hypothesis Hmode : mode s = 2.
Hypothesis Hcount : count s = N.
Hypothesis HN : 2 <= N.
Hypothesis Htimer : irq_timer s <> None.
Hypothesis Hirq : irq_disabled s = false.
Hypothesis Hload : count_load_time s < 2 ^ 60.
Hypothesis Hidle : master_idle base (isa_pic p).
Hypothesis Hcpu : cpu_irq p = 0.
Hypothesis Hlate : 0 <= late < 838.

Lemma due_gap m m' : 0 <= m < m' -> m' < 2 ^ 20 -> due s m + late < due s m' < 2 ^ 63.
Proof using Hs Hload Hlate.
  intros Hm Hm'. pose proof (later_due s Hs Hload m' ltac:(lia)) as [_ Hb]. split; [|lia]. unfold due, PIT_FREQ, ticks_per_sec.
  assert (m * 1000000000 / 1193182 + 838 <= m' * 1000000000 / 1193182); [|lia]. rewrite <- Z.div_add by lia. apply Z.div_le_mono; lia.
Qed.

Lemma cpu_step_irq w x : devices w = {| pit0 := x; pics := raised p |} -> cpu_step w = Ok (put_devices {| pit0 := x; pics := handled p |} w, [base]).
Proof using Hidle Hcpu.
  intros D. unfold cpu_step. rewrite D. change (cpu_irq (pics {| pit0 := x; pics := raised p |}) =? 1) with true. by rewrite (irq0_handled p base).
Qed.

(** A period of the counter: two iterations, one interrupt. *)
Lemma main_loop_period w k : 1 <= k -> (k + 1) * N + 1 < 596591 -> loop_state w [(t0, due s (k * N + 1))] ->
  devices w = {| pit0 := armed s 0 (k * N + 1); pics := p |} -> 0 <= cpu_get_clock (host w) <= due s (k * N + 1) ->
  exists w', main_loop late 2 w = Ok (w', [base]) /\ loop_state w' [(t0, due s ((k + 1) * N + 1))] /\
    devices w' = {| pit0 := armed s 0 ((k + 1) * N + 1); pics := p |} /\ cpu_get_clock (host w') = due s ((k + 1) * N) + late.
Proof using Hdistinct Hs Hmode Hcount HN Htimer Hirq Hload Hidle Hcpu Hlate.
  intros Hk Hb Hls Hdev Hnow. pose proof (due_gap (k * N + 1) ((k + 1) * N) ltac:(lia) ltac:(lia)) as G1.
  pose proof (due_gap ((k + 1) * N) ((k + 1) * N + 1) ltac:(lia) ltac:(lia)) as G2. cbn [main_loop mbind outcome_bind].
  destruct (main_loop_iteration late w _ (due s ((k + 1) * N)) {| pit0 := armed s 1 ((k + 1) * N); pics := raised p |} Hls Hnow ltac:(lia) G1) as (w1 & -> & L1 & D1 & H1).
  { rewrite Hdev. by apply (expire_rise s p N base). }
  { by destruct s. }
  { by destruct s. }
  cbn [mbind outcome_bind]. rewrite (cpu_step_irq _ _ D1). cbn [mbind outcome_bind].
  destruct (main_loop_iteration late (put_devices {| pit0 := armed s 1 ((k + 1) * N); pics := handled p |} w1) (due s ((k + 1) * N)) (due s ((k + 1) * N + 1))
    {| pit0 := armed s 0 ((k + 1) * N + 1); pics := p |}) as (w2 & -> & L2 & D2 & H2);
    [apply (loop_state_env w1 _ (host w1)); [done|apply L1]|cbn [host put_devices]; rewrite H1; lia|lia|done|
     cbn [devices put_devices]; by apply (expire_fall s p N base)|by destruct s|by destruct s|].
  cbn [mbind outcome_bind]. unfold cpu_step. rewrite D2. cbn [pics]. rewrite Hcpu. cbn. by exists w2.
Qed.

Lemma main_loop_periods w k : (Z.of_nat k + 1) * N + 1 < 596591 -> loop_state w [(t0, due s (N + 1))] ->
  devices w = {| pit0 := armed s 0 (N + 1); pics := p |} -> 0 <= cpu_get_clock (host w) <= due s (N + 1) ->
  exists w', main_loop late (2 * k) w = Ok (w', replicate k base) /\ loop_state w' [(t0, due s ((Z.of_nat k + 1) * N + 1))] /\
    devices w' = {| pit0 := armed s 0 ((Z.of_nat k + 1) * N + 1); pics := p |} /\ 0 <= cpu_get_clock (host w') <= due s ((Z.of_nat k + 1) * N + 1) /\
    ((0 < k)%nat -> cpu_get_clock (host w') = due s ((Z.of_nat k + 1) * N) + late).
Proof using Hdistinct Hs Hmode Hcount HN Htimer Hirq Hload Hidle Hcpu Hlate.
  intros Hb Hls Hdev Hnow. induction k as [|k IH].
  { exists w. replace ((Z.of_nat 0 + 1) * N + 1) with (N + 1) by lia. split_and!; try done; lia. }
  destruct IH as (w1 & E1 & L1 & D1 & N1 & _); [lia|]. destruct (main_loop_period w1 (Z.of_nat k + 1)) as (w2 & E2 & L2 & D2 & N2); [lia|lia|done|done|done|].
  replace (2 * S k)%nat with (2 + 2 * k)%nat by lia. rewrite main_loop_add, E1. cbn [mbind outcome_bind]. rewrite E2. cbn [mbind outcome_bind].
  exists w2. rewrite <- replicate_cons_app. replace (Z.of_nat k + 1 + 1) with (Z.of_nat (S k) + 1) in * by lia. split_and!; try done; rewrite N2.
  - destruct Hs as [_ Hl]. unfold due, PIT_FREQ, ticks_per_sec. assert (0 <= (Z.of_nat (S k) + 1) * N * 1000000000 / 1193182) by (apply Z.div_pos; lia). lia.
  - pose proof (due_gap ((Z.of_nat (S k) + 1) * N) ((Z.of_nat (S k) + 1) * N + 1) ltac:(lia) ltac:(lia)). lia.
Qed.
End Running.
End Pit.

Lemma due_armed s l m n : due (armed s l m) n = due s n.
Proof. by destruct s. Qed.

(** C10 (liveness): with the main loop running the timer lists, a guest that
    loads counter 0 with [val] in rate generator mode gets one interrupt with the
    vector of line 0 for each of the first [k] periods of the counter, as long as
    these take less than 596591 ticks, half a second.  Beyond that bound the
    rounding of the code can lose an interrupt, see [rate_interrupt_lost] of the
    interval timer.  The main loop sleeps until the deadline of the interrupt
    timer, may wake up late by less than a tick of the counter, and runs the
    timer; every two iterations the CPU takes one interrupt, and the time of the
    last is that of the counter. *)
Theorem main_loop_delivers_interrupts p0 p1 p2 t0 w q s p base val k late :
  NoDup [p0; p1; p2] -> loop_state p0 p1 p2 t0 w q -> q_del t0 q = [] -> devices w = {| pit0 := s; pics := p |} ->
  0 <= cpu_get_clock (host w) < 2 ^ 60 -> mode s = 2 -> irq_timer s <> None -> irq_disabled s = false -> 2 <= val < 0x10000 ->
  master_idle base (isa_pic p) -> cpu_irq p = 0 -> (Z.of_nat k + 1) * val + 1 < 596591 -> 0 <= late < 838 -> exists w0 w',
  guest_load t0 w val = Ok w0 /\ main_loop t0 late (2 * k) w0 = Ok (w', replicate k base) /\ pics (devices w') = p /\
  ((0 < k)%nat -> cpu_get_clock (host w') = due (pit0 (devices w0)) ((Z.of_nat k + 1) * val) + late).
Proof.
  intros Hd Hls Hq Hdev Hnow Hm Hit Hirq Hv Hidle Hcpu Hb Hlate. set (now := cpu_get_clock (host w)) in *.
  destruct (timer_load_ok now s p base val Hnow Hm Hit Hirq Hv Hidle Hcpu) as (s' & El & Hs' & F1 & F2 & F3 & F4 & F5).
  assert (Hld : count_load_time s' < 2 ^ 60) by lia. unfold guest_load.
  destruct (qemu_clock_get_ns_ok w QEMU_CLOCK_VIRTUAL) as (w1 & -> & Cr); [pose proof (ls_enabled _ _ _ _ _ _ Hls QEMU_CLOCK_VIRTUAL) as X; by destruct (qemu_clocks w !! _)|].
  cbn [mbind outcome_bind]. rewrite (clock_virtual p0 p1 p2 t0 w q Hls). fold now. rewrite (read_devices _ _ Cr), Hdev, El. cbn [mbind outcome_bind pit0].
  assert (L1 : loop_state p0 p1 p2 t0 w1 q).
  { apply (loop_state_kept p0 p1 p2 t0 w _ q); [done|by apply read_kept|]. destruct Hls as [(A & c & o & R & HA) _ _ _ _].
    destruct (clock_read_refines _ _ _ Cr R) as (es & R'). by exists (with_outbox es A), c, o. }
  pose proof (due_gap s' late Hs' Hld Hlate 0 (val + 1) ltac:(lia) ltac:(lia)) as G. assert (G0 : due s' 0 = now) by (unfold due, PIT_FREQ; rewrite F5, Z.div_0_l; lia).
  destruct (sync_timer_ok p0 p1 p2 t0 Hd (put_devices {| pit0 := armed s' 0 (val + 1); pics := p |} w1) (armed s' 0 (val + 1)) (due s' (val + 1)) q)
    as (w2 & -> & L2 & D2 & H2); [apply (loop_state_env p0 p1 p2 t0 w1 q (host w1)); [done|apply L1]|done|by destruct s'|by destruct s'|lia|].
  destruct (main_loop_periods p0 p1 p2 t0 Hd s' p val base late Hs' F1 F4 ltac:(lia) F2 F3 Hld Hidle Hcpu Hlate w2 k) as (w3 & E3 & L3 & D3 & N3 & N3'); try done.
  { rewrite H2. cbn [host put_devices]. rewrite (read_host _ _ Cr). fold now. lia. }
  exists w2, w3. split_and!; [done|done|by rewrite D3|]. intros Hk. rewrite D2. cbn [pit0 devices put_devices]. rewrite due_armed. by apply N3'.
Qed.

(** A machine with the counter in mode 2, line 0 unmasked at vector 0x30. *)
Definition sample_pics : PICs :=
  {| isa_pic := pic_set_irq_base 0x30 (pic_set_imr 0xFE (i8259_init_chip true)); slave_pic := i8259_init_chip false; slave_out := 0; cpu_irq := 0 |}.
Definition sample_blank : MachineState TimerSys :=
  {| timers := ∅; lists := ∅; qemu_clocks := replicate 3 (init_clock 0 QEMU_CLOCK_REALTIME); main_loop_tlg := [0; 0; 0];
     host := {| get_clock := 1; get_clock_realtime := 2; cpu_get_clock := 5000; cpu_get_icount := 3; use_icount := false |}; events := [];
     devices := {| pit0 := sample_channel 2 0; pics := sample_pics |} |}.
Definition sample_world : MachineState TimerSys :=
  match timer_new_tl 10 (init_world 1 2 3 sample_blank) 2 1 7 0 with Ok w => w | _ => sample_blank end.

Lemma distinct_lists : NoDup [1; 2; 3].
Proof. repeat constructor; set_solver. Qed.

Lemma sample_ready : loop_state 1 2 3 10 sample_world [].
Proof.
  split; [|reflexivity|by intros []|by intros []|reflexivity].
  destruct (init_clocks_refines 1 2 3 sample_blank distinct_lists) as [_ R]; try done. unfold sample_world.
  destruct (timer_new_tl_refines _ _ 10 2 1 7 0 {| queues := queues (init_spec 1 2 3 []); meta := {[10 := (2, 7, 0, 1)]}; targets := targets (init_spec 1 2 3 []); outbox := [] |} R)
    as (w & -> & R' & _); [reflexivity|]. eexists _, 7, 0. split; [exact R'|]. done.
Qed.

Lemma main_loop_delivers_interrupts_witness : exists w0 w',
  guest_load 10 sample_world 11932 = Ok w0 /\ main_loop 10 100 (2 * 3) w0 = Ok (w', replicate 3 0x30) /\ pics (devices w') = sample_pics /\
  ((0 < 3)%nat -> cpu_get_clock (host w') = due (pit0 (devices w0)) ((Z.of_nat 3 + 1) * 11932) + 100).
Proof.
  apply (main_loop_delivers_interrupts 1 2 3 10 sample_world [] (sample_channel 2 0)); [exact distinct_lists|exact sample_ready|reflexivity|reflexivity|
    split; [discriminate|reflexivity]|reflexivity|discriminate|reflexivity|split; [discriminate|reflexivity]|constructor; reflexivity|reflexivity|reflexivity|split; [discriminate|reflexivity]].
Defined.
