(* ===== verification/Pfifo.v ===== *)
(** * The command FIFO of the NV2A (hw/xbox/nv2a_gpu.c)

    The PFIFO block: the registers, the DMA pusher that decodes push buffers
    into the command queue, the hash table of objects and the puller that
    takes commands from the queue.  The guest reaches it through the PFIFO
    and USER register blocks; the calls the puller makes into the graphics
    engine are recorded in order.  Video memory and instance memory are byte
    arrays, and an access outside them is an error.  Locks are left out:
    queue operations are atomic, and the interleaving of pusher and puller is
    an explicit sequence of steps.  Register logging is left out. *)
From S2P Require Import Prelude.

Record CacheEntry := { ce_method : Z; ce_subchannel : Z; ce_nonincreasing : bool; ce_parameter : Z }.

Record ChannelControl := { dma_put : Z; dma_get : Z; ref : Z }.

Record Cache1State := {
  channel_id : Z;
  mode : Z;
  push_enabled : bool;
  dma_push_enabled : bool;
  dma_push_suspended : bool;
  dma_instance : Z;
  method_nonincreasing : bool;
  method : Z;
  subchannel : Z;
  method_count : Z;
  dcount : Z;
  subroutine_active : bool;
  subroutine_return : Z;
  get_jmp_shadow : Z;
  rsvd_shadow : Z;
  data_shadow : Z;
  error : Z;
  pull_enabled : bool;
  bound_engines : list Z;
  last_engine : Z;
  cache_size : Z;
  cache : list CacheEntry
}.

(** What the puller asks of the graphics engine. *)
Variant pgraph_call :=
  | pgraph_context_switch (channel_id : Z)
  | pgraph_method (subchannel method parameter : Z).

Record NV2A_GPUState := {
  pmc_pending : Z;
  pmc_enabled : Z;
  pcrtc_pending : Z;
  pcrtc_enabled : Z;
  pgraph_pending : Z;
  pgraph_enabled : Z;
  pci_irq : bool;
  pending_interrupts : Z;
  enabled_interrupts : Z;
  ramht_address : Z;
  ramht_size : Z;
  ramht_search : Z;
  ramfc_address1 : Z;
  ramfc_address2 : Z;
  ramfc_size : Z;
  channel_modes : Z;
  channels_pending_push : Z;
  cache1 : Cache1State;
  channel_control : list ChannelControl;
  vram : list Z;
  ramin : list Z;
  pgraph_calls : list pgraph_call
}.

(** ** Assignments to fields *)
Definition c1_channel_id (v : Z) (s : Cache1State) : Cache1State :=
  let '(Build_Cache1State _ x1 x2 x3 x4 x5 x6 x7 x8 x9 x10 x11 x12 x13 x14 x15 x16 x17 x18 x19 x20 x21) := s in Build_Cache1State v x1 x2 x3 x4 x5 x6 x7 x8 x9 x10 x11 x12 x13 x14 x15 x16 x17 x18 x19 x20 x21.
Definition c1_mode (v : Z) (s : Cache1State) : Cache1State :=
  let '(Build_Cache1State x0 _ x2 x3 x4 x5 x6 x7 x8 x9 x10 x11 x12 x13 x14 x15 x16 x17 x18 x19 x20 x21) := s in Build_Cache1State x0 v x2 x3 x4 x5 x6 x7 x8 x9 x10 x11 x12 x13 x14 x15 x16 x17 x18 x19 x20 x21.
Definition c1_push_enabled (v : bool) (s : Cache1State) : Cache1State :=
  let '(Build_Cache1State x0 x1 _ x3 x4 x5 x6 x7 x8 x9 x10 x11 x12 x13 x14 x15 x16 x17 x18 x19 x20 x21) := s in Build_Cache1State x0 x1 v x3 x4 x5 x6 x7 x8 x9 x10 x11 x12 x13 x14 x15 x16 x17 x18 x19 x20 x21.
Definition c1_dma_push_enabled (v : bool) (s : Cache1State) : Cache1State :=
  let '(Build_Cache1State x0 x1 x2 _ x4 x5 x6 x7 x8 x9 x10 x11 x12 x13 x14 x15 x16 x17 x18 x19 x20 x21) := s in Build_Cache1State x0 x1 x2 v x4 x5 x6 x7 x8 x9 x10 x11 x12 x13 x14 x15 x16 x17 x18 x19 x20 x21.
Definition c1_dma_push_suspended (v : bool) (s : Cache1State) : Cache1State :=
  let '(Build_Cache1State x0 x1 x2 x3 _ x5 x6 x7 x8 x9 x10 x11 x12 x13 x14 x15 x16 x17 x18 x19 x20 x21) := s in Build_Cache1State x0 x1 x2 x3 v x5 x6 x7 x8 x9 x10 x11 x12 x13 x14 x15 x16 x17 x18 x19 x20 x21.
Definition c1_dma_instance (v : Z) (s : Cache1State) : Cache1State :=
  let '(Build_Cache1State x0 x1 x2 x3 x4 _ x6 x7 x8 x9 x10 x11 x12 x13 x14 x15 x16 x17 x18 x19 x20 x21) := s in Build_Cache1State x0 x1 x2 x3 x4 v x6 x7 x8 x9 x10 x11 x12 x13 x14 x15 x16 x17 x18 x19 x20 x21.
Definition c1_method_nonincreasing (v : bool) (s : Cache1State) : Cache1State :=
  let '(Build_Cache1State x0 x1 x2 x3 x4 x5 _ x7 x8 x9 x10 x11 x12 x13 x14 x15 x16 x17 x18 x19 x20 x21) := s in Build_Cache1State x0 x1 x2 x3 x4 x5 v x7 x8 x9 x10 x11 x12 x13 x14 x15 x16 x17 x18 x19 x20 x21.
Definition c1_method (v : Z) (s : Cache1State) : Cache1State :=
  let '(Build_Cache1State x0 x1 x2 x3 x4 x5 x6 _ x8 x9 x10 x11 x12 x13 x14 x15 x16 x17 x18 x19 x20 x21) := s in Build_Cache1State x0 x1 x2 x3 x4 x5 x6 v x8 x9 x10 x11 x12 x13 x14 x15 x16 x17 x18 x19 x20 x21.
Definition c1_subchannel (v : Z) (s : Cache1State) : Cache1State :=
  let '(Build_Cache1State x0 x1 x2 x3 x4 x5 x6 x7 _ x9 x10 x11 x12 x13 x14 x15 x16 x17 x18 x19 x20 x21) := s in Build_Cache1State x0 x1 x2 x3 x4 x5 x6 x7 v x9 x10 x11 x12 x13 x14 x15 x16 x17 x18 x19 x20 x21.
Definition c1_method_count (v : Z) (s : Cache1State) : Cache1State :=
  let '(Build_Cache1State x0 x1 x2 x3 x4 x5 x6 x7 x8 _ x10 x11 x12 x13 x14 x15 x16 x17 x18 x19 x20 x21) := s in Build_Cache1State x0 x1 x2 x3 x4 x5 x6 x7 x8 v x10 x11 x12 x13 x14 x15 x16 x17 x18 x19 x20 x21.
Definition c1_dcount (v : Z) (s : Cache1State) : Cache1State :=
  let '(Build_Cache1State x0 x1 x2 x3 x4 x5 x6 x7 x8 x9 _ x11 x12 x13 x14 x15 x16 x17 x18 x19 x20 x21) := s in Build_Cache1State x0 x1 x2 x3 x4 x5 x6 x7 x8 x9 v x11 x12 x13 x14 x15 x16 x17 x18 x19 x20 x21.
Definition c1_subroutine_active (v : bool) (s : Cache1State) : Cache1State :=
  let '(Build_Cache1State x0 x1 x2 x3 x4 x5 x6 x7 x8 x9 x10 _ x12 x13 x14 x15 x16 x17 x18 x19 x20 x21) := s in Build_Cache1State x0 x1 x2 x3 x4 x5 x6 x7 x8 x9 x10 v x12 x13 x14 x15 x16 x17 x18 x19 x20 x21.
Definition c1_subroutine_return (v : Z) (s : Cache1State) : Cache1State :=
  let '(Build_Cache1State x0 x1 x2 x3 x4 x5 x6 x7 x8 x9 x10 x11 _ x13 x14 x15 x16 x17 x18 x19 x20 x21) := s in Build_Cache1State x0 x1 x2 x3 x4 x5 x6 x7 x8 x9 x10 x11 v x13 x14 x15 x16 x17 x18 x19 x20 x21.
Definition c1_get_jmp_shadow (v : Z) (s : Cache1State) : Cache1State :=
  let '(Build_Cache1State x0 x1 x2 x3 x4 x5 x6 x7 x8 x9 x10 x11 x12 _ x14 x15 x16 x17 x18 x19 x20 x21) := s in Build_Cache1State x0 x1 x2 x3 x4 x5 x6 x7 x8 x9 x10 x11 x12 v x14 x15 x16 x17 x18 x19 x20 x21.
Definition c1_rsvd_shadow (v : Z) (s : Cache1State) : Cache1State :=
  let '(Build_Cache1State x0 x1 x2 x3 x4 x5 x6 x7 x8 x9 x10 x11 x12 x13 _ x15 x16 x17 x18 x19 x20 x21) := s in Build_Cache1State x0 x1 x2 x3 x4 x5 x6 x7 x8 x9 x10 x11 x12 x13 v x15 x16 x17 x18 x19 x20 x21.
Definition c1_data_shadow (v : Z) (s : Cache1State) : Cache1State :=
  let '(Build_Cache1State x0 x1 x2 x3 x4 x5 x6 x7 x8 x9 x10 x11 x12 x13 x14 _ x16 x17 x18 x19 x20 x21) := s in Build_Cache1State x0 x1 x2 x3 x4 x5 x6 x7 x8 x9 x10 x11 x12 x13 x14 v x16 x17 x18 x19 x20 x21.
Definition c1_error (v : Z) (s : Cache1State) : Cache1State :=
  let '(Build_Cache1State x0 x1 x2 x3 x4 x5 x6 x7 x8 x9 x10 x11 x12 x13 x14 x15 _ x17 x18 x19 x20 x21) := s in Build_Cache1State x0 x1 x2 x3 x4 x5 x6 x7 x8 x9 x10 x11 x12 x13 x14 x15 v x17 x18 x19 x20 x21.
Definition c1_pull_enabled (v : bool) (s : Cache1State) : Cache1State :=
  let '(Build_Cache1State x0 x1 x2 x3 x4 x5 x6 x7 x8 x9 x10 x11 x12 x13 x14 x15 x16 _ x18 x19 x20 x21) := s in Build_Cache1State x0 x1 x2 x3 x4 x5 x6 x7 x8 x9 x10 x11 x12 x13 x14 x15 x16 v x18 x19 x20 x21.
Definition c1_bound_engines (v : list Z) (s : Cache1State) : Cache1State :=
  let '(Build_Cache1State x0 x1 x2 x3 x4 x5 x6 x7 x8 x9 x10 x11 x12 x13 x14 x15 x16 x17 _ x19 x20 x21) := s in Build_Cache1State x0 x1 x2 x3 x4 x5 x6 x7 x8 x9 x10 x11 x12 x13 x14 x15 x16 x17 v x19 x20 x21.
Definition c1_last_engine (v : Z) (s : Cache1State) : Cache1State :=
  let '(Build_Cache1State x0 x1 x2 x3 x4 x5 x6 x7 x8 x9 x10 x11 x12 x13 x14 x15 x16 x17 x18 _ x20 x21) := s in Build_Cache1State x0 x1 x2 x3 x4 x5 x6 x7 x8 x9 x10 x11 x12 x13 x14 x15 x16 x17 x18 v x20 x21.
Definition c1_cache_size (v : Z) (s : Cache1State) : Cache1State :=
  let '(Build_Cache1State x0 x1 x2 x3 x4 x5 x6 x7 x8 x9 x10 x11 x12 x13 x14 x15 x16 x17 x18 x19 _ x21) := s in Build_Cache1State x0 x1 x2 x3 x4 x5 x6 x7 x8 x9 x10 x11 x12 x13 x14 x15 x16 x17 x18 x19 v x21.
Definition c1_cache (v : list CacheEntry) (s : Cache1State) : Cache1State :=
  let '(Build_Cache1State x0 x1 x2 x3 x4 x5 x6 x7 x8 x9 x10 x11 x12 x13 x14 x15 x16 x17 x18 x19 x20 _) := s in Build_Cache1State x0 x1 x2 x3 x4 x5 x6 x7 x8 x9 x10 x11 x12 x13 x14 x15 x16 x17 x18 x19 x20 v.

Definition gpu_pmc_pending (v : Z) (s : NV2A_GPUState) : NV2A_GPUState :=
  let '(Build_NV2A_GPUState _ x1 x2 x3 x4 x5 x6 x7 x8 x9 x10 x11 x12 x13 x14 x15 x16 x17 x18 x19 x20 x21) := s in Build_NV2A_GPUState v x1 x2 x3 x4 x5 x6 x7 x8 x9 x10 x11 x12 x13 x14 x15 x16 x17 x18 x19 x20 x21.
Definition gpu_pci_irq (v : bool) (s : NV2A_GPUState) : NV2A_GPUState :=
  let '(Build_NV2A_GPUState x0 x1 x2 x3 x4 x5 _ x7 x8 x9 x10 x11 x12 x13 x14 x15 x16 x17 x18 x19 x20 x21) := s in Build_NV2A_GPUState x0 x1 x2 x3 x4 x5 v x7 x8 x9 x10 x11 x12 x13 x14 x15 x16 x17 x18 x19 x20 x21.
Definition gpu_pending_interrupts (v : Z) (s : NV2A_GPUState) : NV2A_GPUState :=
  let '(Build_NV2A_GPUState x0 x1 x2 x3 x4 x5 x6 _ x8 x9 x10 x11 x12 x13 x14 x15 x16 x17 x18 x19 x20 x21) := s in Build_NV2A_GPUState x0 x1 x2 x3 x4 x5 x6 v x8 x9 x10 x11 x12 x13 x14 x15 x16 x17 x18 x19 x20 x21.
Definition gpu_enabled_interrupts (v : Z) (s : NV2A_GPUState) : NV2A_GPUState :=
  let '(Build_NV2A_GPUState x0 x1 x2 x3 x4 x5 x6 x7 _ x9 x10 x11 x12 x13 x14 x15 x16 x17 x18 x19 x20 x21) := s in Build_NV2A_GPUState x0 x1 x2 x3 x4 x5 x6 x7 v x9 x10 x11 x12 x13 x14 x15 x16 x17 x18 x19 x20 x21.
Definition gpu_ramht_address (v : Z) (s : NV2A_GPUState) : NV2A_GPUState :=
  let '(Build_NV2A_GPUState x0 x1 x2 x3 x4 x5 x6 x7 x8 _ x10 x11 x12 x13 x14 x15 x16 x17 x18 x19 x20 x21) := s in Build_NV2A_GPUState x0 x1 x2 x3 x4 x5 x6 x7 x8 v x10 x11 x12 x13 x14 x15 x16 x17 x18 x19 x20 x21.
Definition gpu_ramht_size (v : Z) (s : NV2A_GPUState) : NV2A_GPUState :=
  let '(Build_NV2A_GPUState x0 x1 x2 x3 x4 x5 x6 x7 x8 x9 _ x11 x12 x13 x14 x15 x16 x17 x18 x19 x20 x21) := s in Build_NV2A_GPUState x0 x1 x2 x3 x4 x5 x6 x7 x8 x9 v x11 x12 x13 x14 x15 x16 x17 x18 x19 x20 x21.
Definition gpu_ramht_search (v : Z) (s : NV2A_GPUState) : NV2A_GPUState :=
  let '(Build_NV2A_GPUState x0 x1 x2 x3 x4 x5 x6 x7 x8 x9 x10 _ x12 x13 x14 x15 x16 x17 x18 x19 x20 x21) := s in Build_NV2A_GPUState x0 x1 x2 x3 x4 x5 x6 x7 x8 x9 x10 v x12 x13 x14 x15 x16 x17 x18 x19 x20 x21.
Definition gpu_ramfc_address1 (v : Z) (s : NV2A_GPUState) : NV2A_GPUState :=
  let '(Build_NV2A_GPUState x0 x1 x2 x3 x4 x5 x6 x7 x8 x9 x10 x11 _ x13 x14 x15 x16 x17 x18 x19 x20 x21) := s in Build_NV2A_GPUState x0 x1 x2 x3 x4 x5 x6 x7 x8 x9 x10 x11 v x13 x14 x15 x16 x17 x18 x19 x20 x21.
Definition gpu_ramfc_address2 (v : Z) (s : NV2A_GPUState) : NV2A_GPUState :=
  let '(Build_NV2A_GPUState x0 x1 x2 x3 x4 x5 x6 x7 x8 x9 x10 x11 x12 _ x14 x15 x16 x17 x18 x19 x20 x21) := s in Build_NV2A_GPUState x0 x1 x2 x3 x4 x5 x6 x7 x8 x9 x10 x11 x12 v x14 x15 x16 x17 x18 x19 x20 x21.
Definition gpu_ramfc_size (v : Z) (s : NV2A_GPUState) : NV2A_GPUState :=
  let '(Build_NV2A_GPUState x0 x1 x2 x3 x4 x5 x6 x7 x8 x9 x10 x11 x12 x13 _ x15 x16 x17 x18 x19 x20 x21) := s in Build_NV2A_GPUState x0 x1 x2 x3 x4 x5 x6 x7 x8 x9 x10 x11 x12 x13 v x15 x16 x17 x18 x19 x20 x21.
Definition gpu_channel_modes (v : Z) (s : NV2A_GPUState) : NV2A_GPUState :=
  let '(Build_NV2A_GPUState x0 x1 x2 x3 x4 x5 x6 x7 x8 x9 x10 x11 x12 x13 x14 _ x16 x17 x18 x19 x20 x21) := s in Build_NV2A_GPUState x0 x1 x2 x3 x4 x5 x6 x7 x8 x9 x10 x11 x12 x13 x14 v x16 x17 x18 x19 x20 x21.
Definition gpu_channels_pending_push (v : Z) (s : NV2A_GPUState) : NV2A_GPUState :=
  let '(Build_NV2A_GPUState x0 x1 x2 x3 x4 x5 x6 x7 x8 x9 x10 x11 x12 x13 x14 x15 _ x17 x18 x19 x20 x21) := s in Build_NV2A_GPUState x0 x1 x2 x3 x4 x5 x6 x7 x8 x9 x10 x11 x12 x13 x14 x15 v x17 x18 x19 x20 x21.
Definition gpu_cache1 (v : Cache1State) (s : NV2A_GPUState) : NV2A_GPUState :=
  let '(Build_NV2A_GPUState x0 x1 x2 x3 x4 x5 x6 x7 x8 x9 x10 x11 x12 x13 x14 x15 x16 _ x18 x19 x20 x21) := s in Build_NV2A_GPUState x0 x1 x2 x3 x4 x5 x6 x7 x8 x9 x10 x11 x12 x13 x14 x15 x16 v x18 x19 x20 x21.
Definition gpu_channel_control (v : list ChannelControl) (s : NV2A_GPUState) : NV2A_GPUState :=
  let '(Build_NV2A_GPUState x0 x1 x2 x3 x4 x5 x6 x7 x8 x9 x10 x11 x12 x13 x14 x15 x16 x17 _ x19 x20 x21) := s in Build_NV2A_GPUState x0 x1 x2 x3 x4 x5 x6 x7 x8 x9 x10 x11 x12 x13 x14 x15 x16 x17 v x19 x20 x21.
Definition gpu_pgraph_calls (v : list pgraph_call) (s : NV2A_GPUState) : NV2A_GPUState :=
  let '(Build_NV2A_GPUState x0 x1 x2 x3 x4 x5 x6 x7 x8 x9 x10 x11 x12 x13 x14 x15 x16 x17 x18 x19 x20 _) := s in Build_NV2A_GPUState x0 x1 x2 x3 x4 x5 x6 x7 x8 x9 x10 x11 x12 x13 x14 x15 x16 x17 x18 x19 x20 v.

Definition set_dma_put (v : Z) (c : ChannelControl) : ChannelControl := {| dma_put := v; dma_get := dma_get c; ref := ref c |}.
Definition set_dma_get (v : Z) (c : ChannelControl) : ChannelControl := {| dma_put := dma_put c; dma_get := v; ref := ref c |}.
Definition set_ref (v : Z) (c : ChannelControl) : ChannelControl := {| dma_put := dma_put c; dma_get := dma_get c; ref := v |}.

(** ** Bit fields *)
Fixpoint pos_ffs (p : positive) : Z := match p with xO p => 1 + pos_ffs p | _ => 1 end.
Definition ffs (z : Z) : Z := match z with Z0 => 0 | Zpos p | Zneg p => pos_ffs p end.

Definition GET_MASK (v mask : Z) : Z := Z.shiftr (Z.land v mask) (ffs mask - 1).
Definition SET_MASK (v mask val : Z) : Z :=
  Z.lor (Z.land v (Z.lnot mask)) (Z.land (Z.shiftl val (ffs mask - 1)) mask).

Definition nonzero (z : Z) : bool := negb (z =? 0).

(** A 32-bit little-endian load from an array. *)
Definition ldl_le_p (m : list Z) (p : Z) : outcome Z :=
  if p <? 0 then Abort
  else match m !! Z.to_nat p, m !! Z.to_nat (p + 1), m !! Z.to_nat (p + 2), m !! Z.to_nat (p + 3) with
       | Some b0, Some b1, Some b2, Some b3 => Ok (b0 + 2 ^ 8 * b1 + 2 ^ 16 * b2 + 2 ^ 24 * b3)
       | _, _, _, _ => Abort
       end.

(** ** Registers (hw/xbox/nv2a_gpu_registers.h) *)
Definition NV_PFIFO_INTR_0 := 0x100.
Definition NV_PFIFO_INTR_0_DMA_PUSHER := 0x1000.
Definition NV_PFIFO_INTR_EN_0 := 0x140.
Definition NV_PFIFO_RAMHT := 0x210.
Definition NV_PFIFO_RAMHT_BASE_ADDRESS := 0x1F0.
Definition NV_PFIFO_RAMHT_SIZE := 0x30000.
Definition NV_PFIFO_RAMHT_SEARCH := 0x03000000.
Definition NV_PFIFO_RAMFC := 0x214.
Definition NV_PFIFO_RAMFC_BASE_ADDRESS1 := 0x1FC.
Definition NV_PFIFO_RAMFC_SIZE := 0x10000.
Definition NV_PFIFO_RAMFC_BASE_ADDRESS2 := 0x00FE0000.
Definition NV_PFIFO_RUNOUT_STATUS := 0x400.
Definition NV_PFIFO_RUNOUT_STATUS_LOW_MARK := 0x10.
Definition NV_PFIFO_MODE := 0x504.
Definition NV_PFIFO_DMA := 0x508.
Definition NV_PFIFO_CACHE1_PUSH0 := 0x1200.
Definition NV_PFIFO_CACHE1_PUSH0_ACCESS := 1.
Definition NV_PFIFO_CACHE1_PUSH1 := 0x1204.
Definition NV_PFIFO_CACHE1_PUSH1_CHID := 0x1F.
Definition NV_PFIFO_CACHE1_PUSH1_MODE := 0x100.
Definition NV_PFIFO_CACHE1_STATUS := 0x1214.
Definition NV_PFIFO_CACHE1_STATUS_LOW_MARK := 0x10.
Definition NV_PFIFO_CACHE1_DMA_PUSH := 0x1220.
Definition NV_PFIFO_CACHE1_DMA_PUSH_ACCESS := 1.
Definition NV_PFIFO_CACHE1_DMA_PUSH_BUFFER := 0x100.
Definition NV_PFIFO_CACHE1_DMA_PUSH_STATUS := 0x1000.
Definition NV_PFIFO_CACHE1_DMA_STATE := 0x1228.
Definition NV_PFIFO_CACHE1_DMA_STATE_METHOD_TYPE := 1.
Definition NV_PFIFO_CACHE1_DMA_STATE_METHOD := 0x1FFC.
Definition NV_PFIFO_CACHE1_DMA_STATE_SUBCHANNEL := 0xE000.
Definition NV_PFIFO_CACHE1_DMA_STATE_METHOD_COUNT := 0x1FFC0000.
Definition NV_PFIFO_CACHE1_DMA_STATE_ERROR := 0xE0000000.
Definition NV_PFIFO_CACHE1_DMA_STATE_ERROR_NONE := 0.
Definition NV_PFIFO_CACHE1_DMA_STATE_ERROR_CALL := 1.
Definition NV_PFIFO_CACHE1_DMA_STATE_ERROR_RETURN := 3.
Definition NV_PFIFO_CACHE1_DMA_STATE_ERROR_RESERVED_CMD := 4.
Definition NV_PFIFO_CACHE1_DMA_STATE_ERROR_PROTECTION := 6.
Definition NV_PFIFO_CACHE1_DMA_INSTANCE := 0x122C.
Definition NV_PFIFO_CACHE1_DMA_INSTANCE_ADDRESS := 0xFFFF.
Definition NV_PFIFO_CACHE1_DMA_PUT := 0x1240.
Definition NV_PFIFO_CACHE1_DMA_GET := 0x1244.
Definition NV_PFIFO_CACHE1_DMA_SUBROUTINE := 0x124C.
Definition NV_PFIFO_CACHE1_DMA_SUBROUTINE_RETURN_OFFSET := 0x1FFFFFFC.
Definition NV_PFIFO_CACHE1_DMA_SUBROUTINE_STATE := 1.
Definition NV_PFIFO_CACHE1_PULL0 := 0x1250.
Definition NV_PFIFO_CACHE1_PULL0_ACCESS := 1.
Definition NV_PFIFO_CACHE1_ENGINE := 0x1280.
Definition NV_PFIFO_CACHE1_DMA_DCOUNT := 0x12A0.
Definition NV_PFIFO_CACHE1_DMA_DCOUNT_VALUE := 0x1FFC.
Definition NV_PFIFO_CACHE1_DMA_GET_JMP_SHADOW := 0x12A4.
Definition NV_PFIFO_CACHE1_DMA_GET_JMP_SHADOW_OFFSET := 0x1FFFFFFC.
Definition NV_PFIFO_CACHE1_DMA_RSVD_SHADOW := 0x12A8.
Definition NV_PFIFO_CACHE1_DMA_DATA_SHADOW := 0x12AC.
Definition NV_USER_DMA_PUT := 0x40.
Definition NV_USER_DMA_GET := 0x44.
Definition NV_USER_REF := 0x48.
Definition NV_PMC_INTR_0_PFIFO := 0x100.
Definition NV_PMC_INTR_0_PGRAPH := 0x1000.
Definition NV_PMC_INTR_0_PCRTC := 0x1000000.
Definition FIFO_DMA := 1.
Definition ENGINE_GRAPHICS := 1.
Definition NV2A_GPU_NUM_CHANNELS := 32.
Definition NV2A_GPU_NUM_SUBCHANNELS := 8%nat.

Implicit Types (d : NV2A_GPUState) (state : Cache1State) (control : ChannelControl).

(** ** Interrupts *)
Definition set_or_clear (b : bool) (mask v : Z) : Z := if b then Z.lor v mask else Z.land v (Z.lnot mask).

Definition update_irq d : NV2A_GPUState :=
  let p := pmc_pending d in
  let p := set_or_clear (nonzero (Z.land (pending_interrupts d) (enabled_interrupts d))) NV_PMC_INTR_0_PFIFO p in
  let p := set_or_clear (nonzero (Z.land (pcrtc_pending d) (pcrtc_enabled d))) NV_PMC_INTR_0_PCRTC p in
  let p := set_or_clear (nonzero (Z.land (pgraph_pending d) (pgraph_enabled d))) NV_PMC_INTR_0_PGRAPH p in
  gpu_pci_irq (nonzero p && nonzero (pmc_enabled d)) (gpu_pmc_pending p d).

(** ** The object hash table *)
Record RAMHTEntry := { re_handle : Z; re_instance : Z; re_engine : Z; re_channel_id : Z; re_valid : bool }.

(** [while (handle) { hash ^= handle & ((1 << bits) - 1); handle >>= bits; }] *)
Fixpoint ramht_fold (fuel : nat) (bits hash handle : Z) : outcome Z :=
  if handle =? 0 then Ok hash
  else match fuel with
       | O => NoFuel
       | S fuel => ramht_fold fuel bits (Z.lxor hash (Z.land handle (Z.shiftl 1 bits - 1))) (Z.shiftr handle bits)
       end.

(** Before the size is set, the shift counts are out of range. *)
Definition ramht_hash d (handle : Z) : outcome Z :=
  let bits := u32 (ffs (ramht_size d) - 2) in
  _ ← c_assert ((4 <=? bits) && (bits <? 32));
  hash ← ramht_fold 32 bits 0 handle;
  Ok (u32 (Z.lxor hash (Z.shiftl (channel_id (cache1 d)) (bits - 4)))).

Definition ramht_lookup d (handle : Z) : outcome RAMHTEntry :=
  hash ← ramht_hash d handle;
  _ ← c_assert (u32 (hash * 8) <? ramht_size d);
  let entry_ptr := ramht_address d + u32 (hash * 8) in
  entry_handle ← ldl_le_p (ramin d) entry_ptr;
  entry_context ← ldl_le_p (ramin d) (entry_ptr + 4);
  Ok {| re_handle := entry_handle;
        re_instance := Z.shiftl (Z.land entry_context 0xFFFF) 4;
        re_engine := Z.shiftr (Z.land entry_context 0x30000) 16;
        re_channel_id := Z.shiftr (Z.land entry_context 0x1F000000) 24;
        re_valid := nonzero (Z.land entry_context 0x80000000) |}.

(** ** DMA objects *)
Record DMAObject := { dma_class : Z; dma_target : Z; address : Z; limit : Z }.

Definition nv_dma_load d (dma_obj_address : Z) : outcome DMAObject :=
  _ ← c_assert (dma_obj_address <? Z.of_nat (length (ramin d)));
  flags ← ldl_le_p (ramin d) dma_obj_address;
  limit ← ldl_le_p (ramin d) (dma_obj_address + 4);
  frame ← ldl_le_p (ramin d) (dma_obj_address + 8);
  Ok {| dma_class := GET_MASK flags 0xFFF; dma_target := GET_MASK flags 0x30000;
        address := Z.lor (Z.land frame 0xFFFFF000) (GET_MASK flags 0xFFF00000); limit := limit |}.

(** The offset in video memory the pointer goes to, and the length. *)
Definition nv_dma_map (dma : DMAObject) : Z * Z := (address dma, limit dma).

Definition nv_dma_load_and_map d (dma_obj_address : Z) : outcome (Z * Z) :=
  _ ← c_assert (dma_obj_address <? Z.of_nat (length (ramin d)));
  dma ← nv_dma_load d dma_obj_address;
  Ok (nv_dma_map dma).

(** ** The pusher *)
Definition push_entry state (word : Z) : Cache1State :=
  let command := {| ce_method := method state; ce_subchannel := subchannel state;
                    ce_nonincreasing := method_nonincreasing state; ce_parameter := word |} in
  c1_cache_size (cache_size state + 1) (c1_cache (cache state ++ [command]) state).

(** A word after the first of a methods command. *)
Definition push_data state (word : Z) : Cache1State :=
  let state := push_entry (c1_data_shadow word state) word in
  let state := if negb (method_nonincreasing state) then c1_method (wrap 14 (method state + 4)) state else state in
  c1_dcount (u32 (dcount state + 1)) (c1_method_count (wrap 24 (method_count state - 1)) state).

Definition push_methods state (word : Z) (nonincreasing : bool) : Cache1State :=
  c1_dcount 0 (c1_method_nonincreasing nonincreasing (c1_method_count (Z.land (Z.shiftr word 18) 0x7ff)
    (c1_subchannel (Z.land (Z.shiftr word 13) 7) (c1_method (Z.land word 0x1fff) state)))).

(** The first word of a command; [true] leaves the loop. *)
Definition push_command state control (word : Z) : Cache1State * ChannelControl * bool :=
  let state := c1_rsvd_shadow word state in
  if Z.land word 0xe0000003 =? 0x20000000 then
    (c1_get_jmp_shadow (dma_get control) state, set_dma_get (Z.land word 0x1fffffff) control, false)
  else if Z.land word 3 =? 1 then
    (c1_get_jmp_shadow (dma_get control) state, set_dma_get (Z.land word 0xfffffffc) control, false)
  else if Z.land word 3 =? 2 then
    if subroutine_active state then (c1_error NV_PFIFO_CACHE1_DMA_STATE_ERROR_CALL state, control, true)
    else (c1_subroutine_active true (c1_subroutine_return (dma_get control) state),
          set_dma_get (Z.land word 0xfffffffc) control, false)
  else if word =? 0x00020000 then
    if negb (subroutine_active state) then (c1_error NV_PFIFO_CACHE1_DMA_STATE_ERROR_RETURN state, control, true)
    else (c1_subroutine_active false state, set_dma_get (subroutine_return state) control, false)
  else if Z.land word 0xe0030003 =? 0 then (push_methods state word false, control, false)
  else if Z.land word 0xe0030003 =? 0x40000000 then (push_methods state word true, control, false)
  else (c1_error NV_PFIFO_CACHE1_DMA_STATE_ERROR_RESERVED_CMD state, control, true).

Definition push_word state control (word : Z) : Cache1State * ChannelControl * bool :=
  if nonzero (method_count state) then (push_data state word, control, false) else push_command state control word.

(** [while (control->dma_get != control->dma_put)], the buffer at offset
    [dma] of video memory. *)
Fixpoint pusher_loop (fuel : nat) (mem : list Z) (dma dma_len : Z) state control : outcome (Cache1State * ChannelControl) :=
  if dma_get control =? dma_put control then Ok (state, control)
  else match fuel with
       | O => NoFuel
       | S fuel =>
         if dma_len <=? dma_get control then Ok (c1_error NV_PFIFO_CACHE1_DMA_STATE_ERROR_PROTECTION state, control)
         else
           word ← ldl_le_p mem (dma + dma_get control);
           let '(state, control, stop) := push_word state (set_dma_get (u64 (dma_get control + 4)) control) word in
           if stop then Ok (state, control) else pusher_loop fuel mem dma dma_len state control
       end.

Definition get_control d (channel : Z) : outcome ChannelControl :=
  match channel_control d !! Z.to_nat channel with Some control => Ok control | None => Abort end.

Definition put_control (channel : Z) control d : NV2A_GPUState :=
  gpu_channel_control (<[Z.to_nat channel := control]> (channel_control d)) d.

Definition channel_is_dma d (channel : Z) : bool := nonzero (Z.land (channel_modes d) (Z.shiftl 1 channel)).

Definition pfifo_run_pusher (fuel : nat) d : outcome NV2A_GPUState :=
  let state := cache1 d in
  let channel_id := u8 (channel_id state) in
  control ← get_control d channel_id;
  if negb (push_enabled state) then Ok d
  else
    _ ← c_assert (channel_is_dma d channel_id);
    _ ← c_assert (mode state =? FIFO_DMA);
    if negb (dma_push_enabled state) then Ok d
    else if dma_push_suspended state then Ok d
    else
      _ ← c_assert (error state =? NV_PFIFO_CACHE1_DMA_STATE_ERROR_NONE);
      '(dma, dma_len) ← nv_dma_load_and_map d (dma_instance state);
      '(state, control) ← pusher_loop fuel (vram d) dma dma_len state control;
      let d := put_control channel_id control (gpu_cache1 state d) in
      if nonzero (error state) then
        _ ← c_assert false;
        let d := gpu_cache1 (c1_dma_push_suspended true (cache1 d)) d in
        Ok (update_irq (gpu_pending_interrupts (Z.lor (pending_interrupts d) NV_PFIFO_INTR_0_DMA_PUSHER) d))
      else Ok d.

(** ** The puller *)
Definition call_pgraph (c : pgraph_call) d : NV2A_GPUState := gpu_pgraph_calls (pgraph_calls d ++ [c]) d.

Definition bind_engine (subchannel engine : Z) d : NV2A_GPUState :=
  gpu_cache1 (c1_last_engine engine (c1_bound_engines (<[Z.to_nat subchannel := engine]> (bound_engines (cache1 d))) (cache1 d))) d.

Definition object_lookup d (handle : Z) : outcome RAMHTEntry :=
  entry ← ramht_lookup d handle;
  _ ← c_assert (re_valid entry);
  _ ← c_assert (re_channel_id entry =? channel_id (cache1 d));
  Ok entry.

Definition get_engine d (subchannel : Z) : outcome Z :=
  match bound_engines (cache1 d) !! Z.to_nat subchannel with Some e => Ok e | None => Abort end.

(** A command taken from the queue. *)
Definition pull_command d (command : CacheEntry) : outcome NV2A_GPUState :=
  if ce_method command =? 0 then
    entry ← object_lookup d (ce_parameter command);
    _ ← c_assert (re_engine entry =? ENGINE_GRAPHICS);
    let d := call_pgraph (pgraph_context_switch (re_channel_id entry)) d in
    let d := call_pgraph (pgraph_method (ce_subchannel command) 0 (re_instance entry)) d in
    Ok (bind_engine (ce_subchannel command) (re_engine entry) d)
  else if 0x100 <=? ce_method command then
    parameter ←
      (if (0x180 <=? ce_method command) && (ce_method command <? 0x200) then
         entry ← object_lookup d (ce_parameter command); Ok (u32 (re_instance entry))
       else Ok (ce_parameter command));
    engine ← get_engine d (ce_subchannel command);
    _ ← c_assert (engine =? ENGINE_GRAPHICS);
    let d := call_pgraph (pgraph_method (ce_subchannel command) (ce_method command) parameter) d in
    Ok (gpu_cache1 (c1_last_engine engine (cache1 d)) d)
  else Ok d.

(** One round of the loop of [pfifo_puller_thread]: nothing happens when the
    thread ends or waits for a command. *)
Definition pfifo_puller_step d : outcome NV2A_GPUState :=
  if negb (pull_enabled (cache1 d)) then Ok d
  else match cache (cache1 d) with
       | [] => Ok d
       | command :: rest =>
         pull_command (gpu_cache1 (c1_cache_size (cache_size (cache1 d) - 1) (c1_cache rest (cache1 d))) d) command
       end.

(** ** Register accesses *)
Definition engine_bits (engines : list Z) : Z :=
  foldl (fun r '(i, e) => Z.lor r (Z.shiftl e (i * 2))) 0 (zip (seqZ 0 (Z.of_nat NV2A_GPU_NUM_SUBCHANNELS)) engines).

Definition pfifo_read d (addr : Z) : outcome Z :=
  let c := cache1 d in
  if addr =? NV_PFIFO_INTR_0 then Ok (pending_interrupts d)
  else if addr =? NV_PFIFO_INTR_EN_0 then Ok (enabled_interrupts d)
  else if addr =? NV_PFIFO_RAMHT then
    let r := SET_MASK 0 NV_PFIFO_RAMHT_BASE_ADDRESS (Z.shiftr (ramht_address d) 12) in
    let r := SET_MASK r NV_PFIFO_RAMHT_SEARCH (ramht_search d) in
    Ok (SET_MASK r NV_PFIFO_RAMHT_SIZE (ffs (ramht_size d) - 13))
  else if addr =? NV_PFIFO_RAMFC then
    let r := SET_MASK 0 NV_PFIFO_RAMFC_BASE_ADDRESS1 (Z.shiftr (ramfc_address1 d) 10) in
    let r := SET_MASK r NV_PFIFO_RAMFC_BASE_ADDRESS2 (Z.shiftr (ramfc_address2 d) 10) in
    Ok (SET_MASK r NV_PFIFO_RAMFC_SIZE (ramfc_size d))
  else if addr =? NV_PFIFO_RUNOUT_STATUS then Ok NV_PFIFO_RUNOUT_STATUS_LOW_MARK
  else if addr =? NV_PFIFO_MODE then Ok (channel_modes d)
  else if addr =? NV_PFIFO_DMA then Ok (channels_pending_push d)
  else if addr =? NV_PFIFO_CACHE1_PUSH0 then Ok (b2z (push_enabled c))
  else if addr =? NV_PFIFO_CACHE1_PUSH1 then
    Ok (SET_MASK (SET_MASK 0 NV_PFIFO_CACHE1_PUSH1_CHID (channel_id c)) NV_PFIFO_CACHE1_PUSH1_MODE (mode c))
  else if addr =? NV_PFIFO_CACHE1_STATUS then
    Ok (match cache c with [] => NV_PFIFO_CACHE1_STATUS_LOW_MARK | _ => 0 end)
  else if addr =? NV_PFIFO_CACHE1_DMA_PUSH then
    let r := SET_MASK 0 NV_PFIFO_CACHE1_DMA_PUSH_ACCESS (b2z (dma_push_enabled c)) in
    let r := SET_MASK r NV_PFIFO_CACHE1_DMA_PUSH_STATUS (b2z (dma_push_suspended c)) in
    Ok (SET_MASK r NV_PFIFO_CACHE1_DMA_PUSH_BUFFER 1)
  else if addr =? NV_PFIFO_CACHE1_DMA_STATE then
    let r := SET_MASK 0 NV_PFIFO_CACHE1_DMA_STATE_METHOD_TYPE (b2z (method_nonincreasing c)) in
    let r := SET_MASK r NV_PFIFO_CACHE1_DMA_STATE_METHOD (Z.shiftr (method c) 2) in
    let r := SET_MASK r NV_PFIFO_CACHE1_DMA_STATE_SUBCHANNEL (subchannel c) in
    let r := SET_MASK r NV_PFIFO_CACHE1_DMA_STATE_METHOD_COUNT (method_count c) in
    Ok (SET_MASK r NV_PFIFO_CACHE1_DMA_STATE_ERROR (error c))
  else if addr =? NV_PFIFO_CACHE1_DMA_INSTANCE then
    Ok (SET_MASK 0 NV_PFIFO_CACHE1_DMA_INSTANCE_ADDRESS (Z.shiftr (dma_instance c) 4))
  else if addr =? NV_PFIFO_CACHE1_DMA_PUT then control ← get_control d (channel_id c); Ok (dma_put control)
  else if addr =? NV_PFIFO_CACHE1_DMA_GET then control ← get_control d (channel_id c); Ok (dma_get control)
  else if addr =? NV_PFIFO_CACHE1_DMA_SUBROUTINE then Ok (Z.lor (subroutine_return c) (b2z (subroutine_active c)))
  else if addr =? NV_PFIFO_CACHE1_PULL0 then Ok (b2z (pull_enabled c))
  else if addr =? NV_PFIFO_CACHE1_ENGINE then Ok (engine_bits (bound_engines c))
  else if addr =? NV_PFIFO_CACHE1_DMA_DCOUNT then Ok (dcount c)
  else if addr =? NV_PFIFO_CACHE1_DMA_GET_JMP_SHADOW then Ok (get_jmp_shadow c)
  else if addr =? NV_PFIFO_CACHE1_DMA_RSVD_SHADOW then Ok (rsvd_shadow c)
  else if addr =? NV_PFIFO_CACHE1_DMA_DATA_SHADOW then Ok (data_shadow c)
  else Ok 0.

(** The whole write to [DMA_PUSH]: clearing the suspension runs the pusher. *)
Definition dma_push_write (fuel : nat) d (val : Z) : outcome NV2A_GPUState :=
  let status := nonzero (GET_MASK val NV_PFIFO_CACHE1_DMA_PUSH_STATUS) in
  let d := gpu_cache1 (c1_dma_push_enabled (nonzero (GET_MASK val NV_PFIFO_CACHE1_DMA_PUSH_ACCESS)) (cache1 d)) d in
  d ← (if dma_push_suspended (cache1 d) && negb status
       then pfifo_run_pusher fuel (gpu_cache1 (c1_dma_push_suspended false (cache1 d)) d)
       else Ok d);
  Ok (gpu_cache1 (c1_dma_push_suspended status (cache1 d)) d).

Definition dma_state_write (c : Cache1State) (val : Z) : Cache1State :=
  let c := c1_method_nonincreasing (nonzero (GET_MASK val NV_PFIFO_CACHE1_DMA_STATE_METHOD_TYPE)) c in
  let c := c1_method (Z.shiftl (GET_MASK val NV_PFIFO_CACHE1_DMA_STATE_METHOD) 2) c in
  let c := c1_subchannel (GET_MASK val NV_PFIFO_CACHE1_DMA_STATE_SUBCHANNEL) c in
  let c := c1_method_count (GET_MASK val NV_PFIFO_CACHE1_DMA_STATE_METHOD_COUNT) c in
  c1_error (GET_MASK val NV_PFIFO_CACHE1_DMA_STATE_ERROR) c.

Definition pull0_write (c : Cache1State) (val : Z) : Cache1State :=
  let access := nonzero (Z.land val NV_PFIFO_CACHE1_PULL0_ACCESS) in
  if access && negb (pull_enabled c) then c1_pull_enabled true c
  else if negb access && pull_enabled c then c1_pull_enabled false c
  else c.

Definition pfifo_write (fuel : nat) d (addr val : Z) : outcome NV2A_GPUState :=
  let c := cache1 d in
  if addr =? NV_PFIFO_INTR_0 then
    Ok (update_irq (gpu_pending_interrupts (Z.land (pending_interrupts d) (Z.lnot val)) d))
  else if addr =? NV_PFIFO_INTR_EN_0 then Ok (update_irq (gpu_enabled_interrupts (u32 val) d))
  else if addr =? NV_PFIFO_RAMHT then
    let d := gpu_ramht_address (Z.shiftl (GET_MASK val NV_PFIFO_RAMHT_BASE_ADDRESS) 12) d in
    let d := gpu_ramht_size (Z.shiftl 1 (GET_MASK val NV_PFIFO_RAMHT_SIZE + 12)) d in
    Ok (gpu_ramht_search (GET_MASK val NV_PFIFO_RAMHT_SEARCH) d)
  else if addr =? NV_PFIFO_RAMFC then
    let d := gpu_ramfc_address1 (Z.shiftl (GET_MASK val NV_PFIFO_RAMFC_BASE_ADDRESS1) 10) d in
    let d := gpu_ramfc_address2 (Z.shiftl (GET_MASK val NV_PFIFO_RAMFC_BASE_ADDRESS2) 10) d in
    Ok (gpu_ramfc_size (GET_MASK val NV_PFIFO_RAMFC_SIZE) d)
  else if addr =? NV_PFIFO_MODE then Ok (gpu_channel_modes (u32 val) d)
  else if addr =? NV_PFIFO_DMA then Ok (gpu_channels_pending_push (u32 val) d)
  else if addr =? NV_PFIFO_CACHE1_PUSH0 then
    Ok (gpu_cache1 (c1_push_enabled (nonzero (Z.land val NV_PFIFO_CACHE1_PUSH0_ACCESS)) c) d)
  else if addr =? NV_PFIFO_CACHE1_PUSH1 then
    let c := c1_channel_id (GET_MASK val NV_PFIFO_CACHE1_PUSH1_CHID) c in
    let c := c1_mode (GET_MASK val NV_PFIFO_CACHE1_PUSH1_MODE) c in
    _ ← c_assert (channel_id c <? NV2A_GPU_NUM_CHANNELS);
    Ok (gpu_cache1 c d)
  else if addr =? NV_PFIFO_CACHE1_DMA_PUSH then dma_push_write fuel d val
  else if addr =? NV_PFIFO_CACHE1_DMA_STATE then Ok (gpu_cache1 (dma_state_write c val) d)
  else if addr =? NV_PFIFO_CACHE1_DMA_INSTANCE then
    Ok (gpu_cache1 (c1_dma_instance (Z.shiftl (GET_MASK val NV_PFIFO_CACHE1_DMA_INSTANCE_ADDRESS) 4) c) d)
  else if addr =? NV_PFIFO_CACHE1_DMA_PUT then
    control ← get_control d (channel_id c); Ok (put_control (channel_id c) (set_dma_put val control) d)
  else if addr =? NV_PFIFO_CACHE1_DMA_GET then
    control ← get_control d (channel_id c); Ok (put_control (channel_id c) (set_dma_get val control) d)
  else if addr =? NV_PFIFO_CACHE1_DMA_SUBROUTINE then
    let c := c1_subroutine_return (Z.land val NV_PFIFO_CACHE1_DMA_SUBROUTINE_RETURN_OFFSET) c in
    Ok (gpu_cache1 (c1_subroutine_active (nonzero (Z.land val NV_PFIFO_CACHE1_DMA_SUBROUTINE_STATE)) c) d)
  else if addr =? NV_PFIFO_CACHE1_PULL0 then Ok (gpu_cache1 (pull0_write c val) d)
  else if addr =? NV_PFIFO_CACHE1_ENGINE then
    let engines := map (fun i => Z.land (Z.shiftr val (i * 2)) 3) (seqZ 0 (Z.of_nat NV2A_GPU_NUM_SUBCHANNELS)) in
    Ok (gpu_cache1 (c1_bound_engines engines c) d)
  else if addr =? NV_PFIFO_CACHE1_DMA_DCOUNT then
    Ok (gpu_cache1 (c1_dcount (Z.land val NV_PFIFO_CACHE1_DMA_DCOUNT_VALUE) c) d)
  else if addr =? NV_PFIFO_CACHE1_DMA_GET_JMP_SHADOW then
    Ok (gpu_cache1 (c1_get_jmp_shadow (Z.land val NV_PFIFO_CACHE1_DMA_GET_JMP_SHADOW_OFFSET) c) d)
  else if addr =? NV_PFIFO_CACHE1_DMA_RSVD_SHADOW then Ok (gpu_cache1 (c1_rsvd_shadow (u32 val) c) d)
  else if addr =? NV_PFIFO_CACHE1_DMA_DATA_SHADOW then Ok (gpu_cache1 (c1_data_shadow (u32 val) c) d)
  else Ok d.

Definition user_read d (addr : Z) : outcome Z :=
  let channel := u32 (Z.shiftr addr 16) in
  _ ← c_assert (channel <? NV2A_GPU_NUM_CHANNELS);
  control ← get_control d channel;
  _ ← c_assert (channel_is_dma d channel);
  let reg := Z.land addr 0xFFFF in
  Ok (if reg =? NV_USER_DMA_PUT then dma_put control
      else if reg =? NV_USER_DMA_GET then dma_get control
      else if reg =? NV_USER_REF then ref control
      else 0).

Definition user_write (fuel : nat) d (addr val : Z) : outcome NV2A_GPUState :=
  let channel := u32 (Z.shiftr addr 16) in
  _ ← c_assert (channel <? NV2A_GPU_NUM_CHANNELS);
  control ← get_control d channel;
  _ ← c_assert (channel_is_dma d channel);
  let reg := Z.land addr 0xFFFF in
  if reg =? NV_USER_DMA_PUT then
    let d := put_control channel (set_dma_put val control) d in
    if push_enabled (cache1 d) then pfifo_run_pusher fuel d else Ok d
  else if reg =? NV_USER_DMA_GET then Ok (put_control channel (set_dma_get val control) d)
  else if reg =? NV_USER_REF then Ok (put_control channel (set_ref (u32 val) control) d)
  else Ok d.
