(* ===== verification/PfifoFacts.v ===== *)
(** * From the push buffer to the graphics engine

    Correctness of the command FIFO of Pfifo.v: the methods a driver encodes
    in a push buffer reach the graphics engine in order and complete, however
    its updates of DMA_PUT and the rounds of the puller interleave; the
    registers read back what was written; and three defects. *)
From S2P Require Import Prelude Pfifo.

Create HintDb pfifo.

(** ** Fields of words *)
Lemma land_field_at h s k : 0 <= s -> 0 <= k -> Z.land h (Z.shiftl (Z.ones k) s) = (h / 2 ^ s) mod 2 ^ k * 2 ^ s.
Proof.
  intros. rewrite <- Z.land_ones, <- Z.shiftr_div_pow2, <- Z.shiftl_mul_pow2 by lia.
  apply Z.bits_inj'. intros i Hi. rewrite Z.land_spec, !Z.shiftl_spec, Z.land_spec by lia.
  destruct (Z.lt_ge_cases i s).
  - rewrite !(Z.testbit_neg_r _ (i - s)) by lia. by rewrite andb_false_r.
  - rewrite Z.shiftr_spec by lia. do 2 f_equal. lia.
Qed.

(** ** Push buffers *)
Record pb_command := { pb_nonincreasing : bool; pb_method : Z; pb_subchannel : Z; pb_params : list Z }.

Definition pb_ok (c : pb_command) : Prop :=
  0 <= pb_method c < 0x2000 /\ pb_method c mod 4 = 0 /\ 0 <= pb_subchannel c < 8 /\
  (length (pb_params c) < 2048)%nat.

Definition pb_header (c : pb_command) : Z :=
  pb_method c + 2 ^ 13 * pb_subchannel c + 2 ^ 18 * Z.of_nat (length (pb_params c)) + 2 ^ 30 * b2z (pb_nonincreasing c).

(** The words of a command, and the queue entries it stands for. *)
Definition pb_words (c : pb_command) : list Z := pb_header c :: pb_params c.

Fixpoint pb_entries_from (nonincr : bool) (m sub : Z) (params : list Z) : list CacheEntry :=
  match params with
  | [] => []
  | p :: params =>
    {| ce_method := m; ce_subchannel := sub; ce_nonincreasing := nonincr; ce_parameter := p |} ::
    pb_entries_from nonincr (if nonincr then m else wrap 14 (m + 4)) sub params
  end.

Definition pb_entries (c : pb_command) : list CacheEntry :=
  pb_entries_from (pb_nonincreasing c) (pb_method c) (pb_subchannel c) (pb_params c).

Lemma pb_header_fields c : pb_ok c ->
  Z.land (pb_header c) 0xe0000003 <> 0x20000000 /\ Z.land (pb_header c) 3 = 0 /\ pb_header c <> 0x20000 /\
  Z.land (pb_header c) 0xe0030003 = 2 ^ 30 * b2z (pb_nonincreasing c) /\
  Z.land (pb_header c) 0x1fff = pb_method c /\ Z.land (Z.shiftr (pb_header c) 13) 7 = pb_subchannel c /\
  Z.land (Z.shiftr (pb_header c) 18) 0x7ff = Z.of_nat (length (pb_params c)).
Proof.
  intros (Hm & Hm4 & Hs & Hl). unfold pb_header. set (h := _ + _ + _ + _).
  assert (Ht : 0 <= b2z (pb_nonincreasing c) <= 1) by (destruct (pb_nonincreasing c); cbn; lia).
  change 0xe0030003 with (Z.lor (Z.lor (Z.shiftl (Z.ones 2) 0) (Z.shiftl (Z.ones 2) 16)) (Z.shiftl (Z.ones 3) 29)).
  change 0xe0000003 with (Z.lor (Z.shiftl (Z.ones 2) 0) (Z.shiftl (Z.ones 3) 29)).
  rewrite !Z.land_lor_distr_r, !land_field_at by lia.
  change 0x7ff with (Z.ones 11). change 0x1fff with (Z.ones 13). change (Z.land h 3) with (Z.land h (Z.ones 2)).
  change (Z.land (Z.shiftr h 13) 7) with (Z.land (Z.shiftr h 13) (Z.ones 3)).
  rewrite !Z.land_ones, !Z.shiftr_div_pow2 by lia.
  assert (H0 : (h / 2 ^ 0) mod 2 ^ 2 * 2 ^ 0 = 0) by (subst h; Z.div_mod_to_equations; lia).
  assert (H16 : (h / 2 ^ 16) mod 2 ^ 2 * 2 ^ 16 = 0) by (subst h; Z.div_mod_to_equations; lia).
  assert (H29 : (h / 2 ^ 29) mod 2 ^ 3 = 2 * b2z (pb_nonincreasing c)) by (subst h; Z.div_mod_to_equations; lia).
  rewrite H0, H16, H29. rewrite !Z.lor_0_l.
  subst h. split_and!; Z.div_mod_to_equations; lia.
Qed.

(** ** Decoding words

    The part of the pusher's state that decoding depends on. *)
Record decoder := { d_nonincr : bool; d_method : Z; d_sub : Z; d_count : Z }.

Definition decoder_of (c : Cache1State) : decoder :=
  {| d_nonincr := method_nonincreasing c; d_method := method c; d_sub := subchannel c; d_count := method_count c |}.

(** A first word that starts methods, not a jump, call or return. *)
Definition starts_methods (w : Z) (nonincr : bool) : bool :=
  negb (Z.land w 0xe0000003 =? 0x20000000) && (Z.land w 3 =? 0) && negb (w =? 0x20000) &&
  (Z.land w 0xe0030003 =? 2 ^ 30 * b2z nonincr).

Definition decode_word (s : decoder) (w : Z) : option (decoder * list CacheEntry) :=
  if nonzero (d_count s) then
    Some ({| d_nonincr := d_nonincr s; d_method := if d_nonincr s then d_method s else wrap 14 (d_method s + 4);
             d_sub := d_sub s; d_count := wrap 24 (d_count s - 1) |},
          [{| ce_method := d_method s; ce_subchannel := d_sub s; ce_nonincreasing := d_nonincr s; ce_parameter := w |}])
  else
    let header nonincr := {| d_nonincr := nonincr; d_method := Z.land w 0x1fff; d_sub := Z.land (Z.shiftr w 13) 7;
                             d_count := Z.land (Z.shiftr w 18) 0x7ff |} in
    if starts_methods w false then Some (header false, [])
    else if starts_methods w true then Some (header true, [])
    else None.

Fixpoint decode (s : decoder) (ws : list Z) : option (decoder * list CacheEntry) :=
  match ws with
  | [] => Some (s, [])
  | w :: ws =>
    match decode_word s w with
    | Some (s, es) => match decode s ws with Some (s, es') => Some (s, es ++ es') | None => None end
    | None => None
    end
  end.

Lemma decode_app ws1 : forall s ws2 s' es, decode s (ws1 ++ ws2) = Some (s', es) ->
  exists s1 es1 es2, decode s ws1 = Some (s1, es1) /\ decode s1 ws2 = Some (s', es2) /\ es = es1 ++ es2.
Proof.
  induction ws1 as [|w ws1 IH]; intros s ws2 s' es H; cbn in *; [by do 3 eexists|].
  destruct (decode_word s w) as [[s1 es1]|]; [|done].
  destruct (decode s1 (ws1 ++ ws2)) as [[s2 es2]|] eqn:E; [|done]. inversion H; subst.
  destruct (IH _ _ _ _ E) as (s3 & e3 & e4 & -> & ? & ->). do 3 eexists. split_and!; [done..|]. by rewrite app_assoc.
Qed.

Lemma decode_app_intro ws1 : forall s ws2 s1 es1 s2 es2, decode s ws1 = Some (s1, es1) -> decode s1 ws2 = Some (s2, es2) ->
  decode s (ws1 ++ ws2) = Some (s2, es1 ++ es2).
Proof.
  induction ws1 as [|w ws1 IH]; intros s ws2 s1 es1 s2 es2 H1 H2; cbn in *; [by inversion H1; subst|].
  destruct (decode_word s w) as [[s3 es3]|]; [|done].
  destruct (decode s3 ws1) as [[s4 es4]|] eqn:E; [|done]. inversion H1; subst.
  rewrite (IH _ _ _ _ _ _ E H2). by rewrite app_assoc.
Qed.

Lemma decode_params params : forall nonincr m sub, (length params < 2048)%nat -> exists m',
  decode {| d_nonincr := nonincr; d_method := m; d_sub := sub; d_count := Z.of_nat (length params) |} params
    = Some ({| d_nonincr := nonincr; d_method := m'; d_sub := sub; d_count := 0 |}, pb_entries_from nonincr m sub params).
Proof.
  induction params as [|p params IH]; intros nonincr m sub Hl; [by eexists|].
  cbn [decode length] in *. unfold decode_word, nonzero. cbn [d_count d_nonincr d_method d_sub].
  destruct (Z.eqb_spec (Z.of_nat (S (length params))) 0); [lia|]. cbn [negb].
  rewrite (wrap_small 24) by lia. replace (Z.of_nat (S (length params)) - 1) with (Z.of_nat (length params)) by lia.
  destruct (IH nonincr (if nonincr then m else wrap 14 (m + 4)) sub) as (m' & ->); [lia|]. by exists m'.
Qed.

Lemma decode_command s c : pb_ok c -> d_count s = 0 -> exists s', d_count s' = 0 /\ decode s (pb_words c) = Some (s', pb_entries c).
Proof.
  intros Hok Hs. destruct (pb_header_fields c Hok) as (H1 & H2 & H3 & H4 & H5 & H6 & H7).
  unfold pb_words. cbn [decode]. unfold decode_word. rewrite Hs. cbn [nonzero Z.eqb negb].
  destruct (decode_params (pb_params c) (pb_nonincreasing c) (pb_method c) (pb_subchannel c)) as (m' & E); [apply Hok|].
  unfold starts_methods. rewrite H2, H4, (proj2 (Z.eqb_neq _ _) H1), (proj2 (Z.eqb_neq _ _) H3). cbn [negb andb].
  change (0 =? 0) with true. cbn [andb].
  rewrite H5, H6, H7. unfold pb_entries.
  destruct (pb_nonincreasing c).
  - change (2 ^ 30 * b2z true =? 2 ^ 30 * b2z false) with false. rewrite Z.eqb_refl, E. eexists. by split; [|reflexivity].
  - rewrite Z.eqb_refl, E. eexists. by split; [|reflexivity].
Qed.

Lemma decode_commands cs : forall s, Forall pb_ok cs -> d_count s = 0 ->
  exists s', d_count s' = 0 /\ decode s (concat (map pb_words cs)) = Some (s', concat (map pb_entries cs)).
Proof.
  induction cs as [|c cs IH]; intros s Hok Hs; [by eexists|]. inversion_clear Hok as [|? ? Hc Hcs].
  destruct (decode_command s c Hc Hs) as (s1 & Hs1 & E1). destruct (IH s1 Hcs Hs1) as (s2 & Hs2 & E2).
  exists s2. split; [done|]. cbn [map concat]. by apply (decode_app_intro _ _ _ s1).
Qed.

(** ** The pusher decodes *)

(** The fields that decoding leaves alone. *)
Record settings := { s_channel : Z; s_mode : Z; s_push : bool; s_dma_push : bool; s_suspended : bool; s_instance : Z;
                     s_error : Z; s_pull : bool }.

Definition settings_of (c : Cache1State) : settings :=
  {| s_channel := channel_id c; s_mode := mode c; s_push := push_enabled c; s_dma_push := dma_push_enabled c;
     s_suspended := dma_push_suspended c; s_instance := dma_instance c; s_error := error c; s_pull := pull_enabled c |}.

Lemma push_word_decode c control w s es : decode_word (decoder_of c) w = Some (s, es) -> exists c',
  push_word c control w = (c', control, false) /\ decoder_of c' = s /\ cache c' = cache c ++ es /\ settings_of c' = settings_of c /\
  bound_engines c' = bound_engines c.
Proof.
  unfold decode_word, push_word. cbn [d_count decoder_of]. destruct (nonzero (method_count c)).
  - intros [= <- <-]. eexists. split; [done|]. destruct c. unfold push_data. cbn. destruct method_nonincreasing; by cbn.
  - assert (Hh : forall n, starts_methods w n = true -> push_command c control w = (push_methods (c1_rsvd_shadow w c) w n, control, false)).
    { intros n Hn. unfold starts_methods in Hn. rewrite !andb_true_iff, !negb_true_iff, !Z.eqb_eq in Hn.
      destruct Hn as (((E1 & E2) & E3) & E4). unfold push_command. rewrite E1, E2, E3, E4. cbn [Z.eqb]. by destruct n. }
    destruct (starts_methods w false) eqn:E; [|destruct (starts_methods w true) eqn:E'; [|done]]; intros [= <- <-].
    + rewrite (Hh _ E). eexists. split; [done|]. destruct c. cbn. by rewrite app_nil_r.
    + rewrite (Hh _ E'). eexists. split; [done|]. destruct c. cbn. by rewrite app_nil_r.
Qed.

(** [ws] lies at [p] of the memory. *)
Definition words_at (mem : list Z) (p : Z) (ws : list Z) : Prop :=
  forall i w, ws !! i = Some w -> ldl_le_p mem (p + 4 * Z.of_nat i) = Ok w.

Lemma words_at_cons mem p w ws : words_at mem p (w :: ws) -> ldl_le_p mem p = Ok w /\ words_at mem (p + 4) ws.
Proof.
  intros H. split; [rewrite <- (H 0%nat w); [f_equal; lia|done]|].
  intros i w' Hi. rewrite <- (H (S i) w' Hi). f_equal. lia.
Qed.

Lemma pusher_loop_decode mem dma len ws : forall fuel c control s es,
  words_at mem (dma + dma_get control) ws -> dma_put control = dma_get control + 4 * Z.of_nat (length ws) ->
  0 <= dma_get control -> dma_put control <= len -> len < 2 ^ 32 -> (length ws <= fuel)%nat ->
  decode (decoder_of c) ws = Some (s, es) -> exists c',
  pusher_loop fuel mem dma len c control = Ok (c', set_dma_get (dma_put control) control) /\
  decoder_of c' = s /\ cache c' = cache c ++ es /\ settings_of c' = settings_of c /\
  bound_engines c' = bound_engines c.
Proof.
  induction ws as [|w ws IH]; intros fuel c control s es Hw Hput Hget Hlen Hlen32 Hf Hd; cbn [length decode] in *.
  - inversion Hd; subst. exists c. rewrite app_nil_r. split_and!; [|done..].
    assert (E : dma_get control = dma_put control) by lia.
    destruct control as [put get r]. cbn [dma_get dma_put set_dma_get ref] in *. subst get.
    destruct fuel; cbn [pusher_loop dma_get dma_put]; by rewrite Z.eqb_refl.
  - destruct (decode_word (decoder_of c) w) as [[s1 es1]|] eqn:E1; [|done].
    destruct (decode s1 ws) as [[s2 es2]|] eqn:E2; [|done]. inversion Hd; subst s es. clear Hd.
    destruct fuel as [|fuel]; [lia|]. cbn [pusher_loop]. destruct (Z.eqb_spec (dma_get control) (dma_put control)); [lia|].
    destruct (Z.leb_spec len (dma_get control)); [lia|].
    destruct (words_at_cons _ _ _ _ Hw) as [-> Hw']. cbn [mbind outcome_bind].
    rewrite (wrap_small 64) by lia.
    destruct (push_word_decode c (set_dma_get (dma_get control + 4) control) w s1 es1 E1) as (c1 & -> & Hs1 & Hc1 & Hst1 & Hb1).
    subst s1. destruct (IH fuel c1 (set_dma_get (dma_get control + 4) control) s2 es2) as (c' & E & ? & Hc & Hst & Hb);
      cbn [dma_get dma_put set_dma_get]; try done; try lia; [by rewrite Z.add_assoc|].
    exists c'. rewrite E. split_and!; [done|done| |congruence..]. by rewrite Hc, Hc1, app_assoc.
Qed.

(** ** What the puller does with an entry

    The calls an entry stands for, given the engines bound so far. *)
Definition exec_entry d (engines : list Z) (e : CacheEntry) : outcome (list Z * list pgraph_call) :=
  if ce_method e =? 0 then
    entry ← object_lookup d (ce_parameter e);
    _ ← c_assert (re_engine entry =? ENGINE_GRAPHICS);
    Ok (<[Z.to_nat (ce_subchannel e) := re_engine entry]> engines,
        [pgraph_context_switch (re_channel_id entry); pgraph_method (ce_subchannel e) 0 (re_instance entry)])
  else if 0x100 <=? ce_method e then
    parameter ←
      (if (0x180 <=? ce_method e) && (ce_method e <? 0x200) then entry ← object_lookup d (ce_parameter e); Ok (u32 (re_instance entry))
       else Ok (ce_parameter e));
    engine ← match engines !! Z.to_nat (ce_subchannel e) with Some x => Ok x | None => Abort end;
    _ ← c_assert (engine =? ENGINE_GRAPHICS);
    Ok (engines, [pgraph_method (ce_subchannel e) (ce_method e) parameter])
  else Ok (engines, []).

Definition exec_entries d (engines : list Z) (es : list CacheEntry) : outcome (list Z * list pgraph_call) :=
  ofold (fun '(engines, calls) e => '(engines, more) ← exec_entry d engines e; Ok (engines, calls ++ more)) (engines, []) es.

(** The fields no step of the FIFO changes. *)
Definition frame_of d := (ramht_size d, ramht_address d, ramin d, vram d, channel_modes d).

Lemma object_lookup_frame d d' handle : frame_of d = frame_of d' -> channel_id (cache1 d) = channel_id (cache1 d') ->
  object_lookup d handle = object_lookup d' handle.
Proof.
  unfold frame_of. intros [= E1 E2 E3 _ _] Ec. unfold object_lookup, ramht_lookup, ramht_hash. by rewrite E1, E2, E3, Ec.
Qed.

(** A state that differs in the calls, the engines and the queue only. *)
Definition pulled d d' : Prop :=
  frame_of d' = frame_of d /\ channel_control d' = channel_control d /\ settings_of (cache1 d') = settings_of (cache1 d) /\
  decoder_of (cache1 d') = decoder_of (cache1 d).

(** Run a computation whose parts are known to return. *)
Ltac run_ok :=
  repeat match goal with
  | H : ?m = Ok _ |- context [?m ≫= _] => rewrite H; cbn [mbind outcome_bind]
  end.

Lemma pull_command_exec d0 d e engines calls :
  frame_of d = frame_of d0 -> channel_id (cache1 d) = channel_id (cache1 d0) ->
  exec_entry d0 (bound_engines (cache1 d)) e = Ok (engines, calls) -> exists d',
  pull_command d e = Ok d' /\ pulled d d' /\ cache (cache1 d') = cache (cache1 d) /\
  bound_engines (cache1 d') = engines /\ pgraph_calls d' = pgraph_calls d ++ calls.
Proof.
  intros Hf Hc. unfold exec_entry, pull_command, get_engine. rewrite <- !(object_lookup_frame d d0) by done.
  destruct (ce_method e =? 0); [|destruct (0x100 <=? ce_method e)]; intros H; inv_ok.
  - run_ok. eexists. split; [done|]. subst. destruct d as [? ? ? ? ? ? ? ? ? ? ? ? ? ? ? ? ? []]. cbn. by rewrite <- app_assoc.
  - run_ok. eexists. split; [done|]. subst. by destruct d as [? ? ? ? ? ? ? ? ? ? ? ? ? ? ? ? ? []].
  - eexists. split; [done|]. subst. by rewrite app_nil_r.
Qed.

(** ** Interleavings of the driver and the puller *)
Variant gpu_event :=
  | Kick (n : nat) (* the driver moves DMA_PUT of its channel on by [n] words *)
  | Pull.          (* a round of the puller *)

Definition gpu_step (fuel : nat) (ch : Z) d (ev : gpu_event) : outcome NV2A_GPUState :=
  match ev with
  | Kick n =>
    control ← get_control d ch;
    user_write fuel d (Z.shiftl ch 16 + NV_USER_DMA_PUT) (dma_put control + 4 * Z.of_nat n)
  | Pull => pfifo_puller_step d
  end.

Fixpoint kicked (evs : list gpu_event) : nat :=
  match evs with [] => 0 | Kick n :: evs => n + kicked evs | Pull :: evs => kicked evs end%nat.

(** Channel [ch] runs: both engines enabled, no error pending, its push buffer
    [len] bytes at [dma] of video memory. *)
Record running d (ch dma len : Z) : Prop := {
  r_channel : channel_id (cache1 d) = ch;
  r_range : 0 <= ch < 32;
  r_mode : mode (cache1 d) = FIFO_DMA;
  r_push : push_enabled (cache1 d) = true;
  r_dma_push : dma_push_enabled (cache1 d) = true;
  r_suspended : dma_push_suspended (cache1 d) = false;
  r_error : error (cache1 d) = 0;
  r_pull : pull_enabled (cache1 d) = true;
  r_dma_mode : channel_is_dma d ch = true;
  r_map : nv_dma_load_and_map d (dma_instance (cache1 d)) = Ok (dma, len);
  r_len : 0 <= dma /\ len < 2 ^ 32
}.

Lemma running_frame d d' ch dma len : running d ch dma len -> frame_of d' = frame_of d ->
  settings_of (cache1 d') = settings_of (cache1 d) -> running d' ch dma len.
Proof.
  unfold frame_of, settings_of. intros [] [= _ _ Er _ Em] [= ? ? ? ? ? Ei ? ?].
  constructor; try congruence; try done.
  - unfold channel_is_dma in *. by rewrite Em.
  - unfold nv_dma_load_and_map, nv_dma_load in *. by rewrite Er, Ei.
Qed.

Lemma get_put_control d ch c c' : get_control d ch = Ok c -> get_control (put_control ch c' d) ch = Ok c'.
Proof.
  unfold get_control, put_control. destruct (channel_control d !! Z.to_nat ch) eqn:E; [|done]. intros _.
  assert (Hc : forall l, channel_control (gpu_channel_control l d) = l) by (by destruct d). rewrite Hc.
  rewrite list_lookup_insert_eq; [done|]. by eapply lookup_lt_Some.
Qed.

(** A write of DMA_PUT on a running channel is a run of the pusher. *)
Lemma kick_runs d ch dma len fuel control put : running d ch dma len -> get_control d ch = Ok control ->
  user_write fuel d (Z.shiftl ch 16 + NV_USER_DMA_PUT) put =
  ('(state, control') ← pusher_loop fuel (vram d) dma len (cache1 d) (set_dma_put put control);
   let d := put_control ch control' (gpu_cache1 state (put_control ch (set_dma_put put control) d)) in
   if nonzero (error state) then Abort else Ok d).
Proof.
  intros Hr Hc. pose proof Hr as []. unfold user_write.
  assert (E1 : u32 (Z.shiftr (Z.shiftl ch 16 + NV_USER_DMA_PUT) 16) = ch).
  { rewrite Z.shiftr_div_pow2, Z.shiftl_mul_pow2, Z.add_comm, Z.div_add by lia. cbn [Z.add Z.div Z.div_eucl]. apply (wrap_small 32). lia. }
  assert (E2 : Z.land (Z.shiftl ch 16 + NV_USER_DMA_PUT) 0xFFFF = NV_USER_DMA_PUT).
  { change 0xFFFF with (Z.ones 16). rewrite Z.land_ones, Z.shiftl_mul_pow2, Z.add_comm, Z.mod_add by lia. done. }
  rewrite E1, E2, Hc, r_dma_mode0, Z.eqb_refl. destruct (Z.ltb_spec ch NV2A_GPU_NUM_CHANNELS); [|unfold NV2A_GPU_NUM_CHANNELS in *; lia].
  cbn [c_assert mbind outcome_bind]. set (d1 := put_control _ _ _).
  assert (Hr1 : running d1 ch dma len) by (apply (running_frame d); [done|by destruct d..]).
  assert (Hv : vram d1 = vram d /\ cache1 d1 = cache1 d) by (by destruct d). destruct Hv as [Hv Hc1]. clear E1 E2.
  assert (Hg : get_control d1 ch = Ok (set_dma_put put control)) by (by apply (get_put_control d ch control)).
  destruct Hr1. rewrite r_push1. unfold pfifo_run_pusher.
  rewrite r_channel1, (wrap_small 8) by lia. rewrite Hg. cbn [mbind outcome_bind].
  rewrite r_push1, r_mode1, r_dma_push1, r_suspended1, r_error1, r_dma_mode1, r_map1, Z.eqb_refl. cbn [c_assert negb mbind outcome_bind].
  rewrite Z.eqb_refl. cbn [c_assert mbind outcome_bind].
  rewrite Hv, Hc1. by destruct (pusher_loop _ _ _ _ _ _) as [[]| |].
Qed.

Section Delivery.
Context (d0 : NV2A_GPUState) (ch dma len start : Z) (ws : list Z) (es : list CacheEntry) (fuel : nat).
Context (engines : list Z) (calls : list pgraph_call) (dec : decoder).
Hypothesis Hrun : running d0 ch dma len.
Hypothesis Hws : words_at (vram d0) (dma + start) ws.
Hypothesis Hstart : 0 <= start /\ start + 4 * Z.of_nat (length ws) <= len.
Hypothesis Hfuel : (length ws <= fuel)%nat.
Hypothesis Hdec : decode (decoder_of (cache1 d0)) ws = Some (dec, es).
Hypothesis Hexec : exec_entries d0 (bound_engines (cache1 d0)) es = Ok (engines, calls).

(** [k] words were decoded, and the entries [pulled_es] reached the engine. *)
Record delivered (k : nat) (pulled_es : list CacheEntry) d : Prop := {
  v_frame : frame_of d = frame_of d0;
  v_settings : settings_of (cache1 d) = settings_of (cache1 d0);
  v_control : exists r, get_control d ch = Ok {| dma_put := start + 4 * Z.of_nat k; dma_get := start + 4 * Z.of_nat k; ref := r |};
  v_decoded : decode (decoder_of (cache1 d0)) (take k ws) = Some (decoder_of (cache1 d), pulled_es ++ cache (cache1 d));
  v_calls : exists done, exec_entries d0 (bound_engines (cache1 d0)) pulled_es = Ok (bound_engines (cache1 d), done) /\
    pgraph_calls d = pgraph_calls d0 ++ done
}.

Lemma words_at_drop mem p l k : words_at mem p l -> words_at mem (p + 4 * Z.of_nat k) (drop k l).
Proof.
  intros H i w Hi. rewrite lookup_drop in Hi. rewrite <- (H _ _ Hi). f_equal. lia.
Qed.

Lemma words_at_take mem p l n : words_at mem p l -> words_at mem p (take n l).
Proof. intros H i w Hi. apply lookup_take_Some in Hi. destruct Hi as [Hi _]. by apply H. Qed.

Lemma kick_delivered k n pes d : delivered k pes d -> (k + n <= length ws)%nat ->
  exists d', gpu_step fuel ch d (Kick n) = Ok d' /\ delivered (k + n) pes d'.
Proof using Hrun Hws Hstart Hfuel Hdec.
  intros [Hf Hs (r & Hc) Hd Hcl] Hn. cbn [gpu_step]. rewrite Hc. cbn [mbind outcome_bind dma_put].
  assert (Hr : running d ch dma len) by (by apply (running_frame d0)).
  rewrite (kick_runs _ _ _ _ _ _ _ Hr Hc). set (ctl := set_dma_put _ _).
  rewrite <- (take_drop (k + n) ws) in Hdec. destruct (decode_app _ _ _ _ _ Hdec) as (s & es1 & es2 & E1 & _ & _).
  assert (Et : take (k + n) ws = take k ws ++ take n (drop k ws)) by (by rewrite take_take_drop).
  pose proof E1 as E1'. rewrite Et in E1'. destruct (decode_app _ _ _ _ _ E1') as (s' & es3 & es4 & E3 & E4 & ->).
  rewrite Hd in E3. inversion E3. subst s' es3. clear E3.
  assert (Hv : vram d = vram d0) by (by injection Hf).
  destruct (pusher_loop_decode (vram d) dma len (take n (drop k ws)) fuel (cache1 d) ctl s es4) as (c' & -> & Hs' & Hc' & Hst & Hb);
    cbn [ctl dma_get dma_put set_dma_put]; rewrite ?length_take, ?length_drop; try lia; [|pose proof (r_len _ _ _ _ Hr); lia|done|].
  { rewrite Hv, Z.add_assoc. by apply words_at_take, words_at_drop. }
  cbn [mbind outcome_bind]. assert (He : error c' = 0).
  { pose proof (r_error _ _ _ _ Hr). injection Hst. congruence. }
  rewrite He. cbn [nonzero Z.eqb negb]. eexists. split; [done|].
  assert (Hsd : forall l l', let d' := gpu_channel_control l (gpu_cache1 c' (gpu_channel_control l' d)) in
    frame_of d' = frame_of d /\ cache1 d' = c' /\ pgraph_calls d' = pgraph_calls d /\ channel_control d' = l).
  { intros. by destruct d. }
  unfold put_control. edestruct Hsd as (H1 & H2 & H3 & H4). constructor.
  - rewrite H1. done.
  - rewrite H2. congruence.
  - exists r. unfold get_control. rewrite H4.
    assert (Hlt : (Z.to_nat ch < length (channel_control d))%nat).
    { unfold get_control in Hc. destruct (channel_control d !! Z.to_nat ch) eqn:E; [|done]. by eapply lookup_lt_Some. }
    assert (H5 : forall l, channel_control (gpu_cache1 c' (gpu_channel_control l d)) = l) by (by destruct d).
    rewrite H5, list_lookup_insert_eq; [|by rewrite length_insert].
    unfold ctl, set_dma_get, set_dma_put. cbn [dma_get dma_put ref].
    by replace (start + 4 * Z.of_nat (k + n)) with (start + 4 * Z.of_nat k + 4 * Z.of_nat n) by lia.
  - rewrite H2, Hc', app_assoc, E1. by subst s.
  - rewrite H2, H3, Hb. done.
Qed.

Lemma pull_delivered k pes d : delivered k pes d ->
  exists d' pes', gpu_step fuel ch d Pull = Ok d' /\ delivered k pes' d'.
Proof using Hrun Hdec Hexec.
  intros Hv. pose proof Hv as [Hf Hs (r & Hc) Hd (done & He & Hg)]. cbn [gpu_step]. unfold pfifo_puller_step.
  assert (Hr : running d ch dma len) by (by apply (running_frame d0)). rewrite (r_pull _ _ _ _ Hr). cbn [negb].
  destruct (cache (cache1 d)) as [|e rest] eqn:Eq; [by exists d, pes|].
  set (d1 := gpu_cache1 _ _).
  assert (H1 : frame_of d1 = frame_of d /\ channel_control d1 = channel_control d /\ settings_of (cache1 d1) = settings_of (cache1 d) /\
    decoder_of (cache1 d1) = decoder_of (cache1 d) /\ cache (cache1 d1) = rest /\
    bound_engines (cache1 d1) = bound_engines (cache1 d) /\ pgraph_calls d1 = pgraph_calls d).
  { by destruct d as [? ? ? ? ? ? ? ? ? ? ? ? ? ? ? ? ? []]. }
  destruct H1 as (F1 & F2 & F3 & F4 & F5 & F6 & F7). clearbody d1.
  assert (Hpre : exists tl, es = (pes ++ [e]) ++ tl).
  { rewrite <- (take_drop k ws) in Hdec. destruct (decode_app _ _ _ _ _ Hdec) as (? & es1 & es2 & E1 & _ & ->).
    rewrite Hd in E1. inversion E1. exists (rest ++ es2). by rewrite <- !app_assoc. }
  destruct Hpre as (tl & Etl). pose proof Hexec as Hx. unfold exec_entries in Hx, He. rewrite Etl, !ofold_app, He in Hx.
  cbn [mbind outcome_bind ofold] in Hx.
  destruct (exec_entry d0 (bound_engines (cache1 d)) e) as [[eng more]| |] eqn:Ee; cbn [mbind outcome_bind] in Hx; [|done..].
  destruct (pull_command_exec d0 d1 e eng more) as (d' & -> & (G1 & G2 & G3 & G4) & G5 & G6 & G7).
  { congruence. } { injection F3. injection Hs. congruence. } { by rewrite F6. }
  exists d', (pes ++ [e]). split; [done|]. constructor.
  - congruence.
  - congruence.
  - exists r. unfold get_control in *. by rewrite G2, F2.
  - by rewrite G4, F4, G5, F5, <- app_assoc.
  - exists (done ++ more). unfold exec_entries. rewrite ofold_app, He. cbn [mbind outcome_bind ofold]. rewrite Ee.
    cbn [mbind outcome_bind]. split; [by rewrite G6|]. by rewrite G7, F7, Hg, app_assoc.
Qed.

Lemma run_delivered evs : forall k pes d, delivered k pes d -> (k + kicked evs <= length ws)%nat ->
  exists d' pes', ofold (gpu_step fuel ch) d evs = Ok d' /\ delivered (k + kicked evs) pes' d'.
Proof using Hrun Hws Hstart Hfuel Hdec Hexec.
  induction evs as [|[n|] evs IH]; intros k pes d Hv Hk; cbn [kicked ofold] in *.
  - exists d, pes. split; [done|]. by rewrite Nat.add_0_r.
  - destruct (kick_delivered k n pes d Hv) as (d1 & -> & H1); [lia|]. cbn [mbind outcome_bind].
    rewrite Nat.add_assoc in *. by apply (IH _ pes).
  - destruct (pull_delivered k pes d Hv) as (d1 & pes1 & -> & H1). cbn [mbind outcome_bind]. by apply (IH _ pes1).
Qed.

End Delivery.

(** ** What a driver may send

    The hash table in instance memory has the object [inst] of [engine] for the
    handle [h] of the current channel: the two words at its slot, which lies in
    the table, are the handle and the context of a valid entry. *)
Definition object_context (ch engine inst : Z) : Z := 0x80000000 + ch * 2 ^ 24 + engine * 2 ^ 16 + inst / 16.

Definition object_at d (h engine inst : Z) : Prop := exists slot,
  ramht_hash d h = Ok slot /\ 0 <= slot /\ 8 * slot < ramht_size d /\ ramht_size d < 2 ^ 32 /\
  0 <= engine < 4 /\ 0 <= inst < 2 ^ 20 /\ inst mod 16 = 0 /\
  ldl_le_p (ramin d) (ramht_address d + 8 * slot) = Ok h /\
  ldl_le_p (ramin d) (ramht_address d + 8 * slot + 4) = Ok (object_context (channel_id (cache1 d)) engine inst).

(** Methods whose parameter is an object handle. *)
Definition object_method (m : Z) : bool := (0x180 <=? m) && (m <? 0x200).

(** Handles are those of objects in the table, method 0 binds graphics objects,
    and methods of the engine go to subchannels that are bound to it.  [bound] are
    the engines bound so far. *)
Fixpoint driver_ok d (inst : Z -> Z) (bound : list Z) (es : list CacheEntry) : Prop :=
  match es with
  | [] => True
  | e :: es =>
    if ce_method e =? 0 then
      object_at d (ce_parameter e) ENGINE_GRAPHICS (inst (ce_parameter e)) /\
      driver_ok d inst (<[Z.to_nat (ce_subchannel e) := ENGINE_GRAPHICS]> bound) es
    else if 0x100 <=? ce_method e then
      bound !! Z.to_nat (ce_subchannel e) = Some ENGINE_GRAPHICS /\
      (object_method (ce_method e) = true -> exists engine, object_at d (ce_parameter e) engine (inst (ce_parameter e))) /\
      driver_ok d inst bound es
    else driver_ok d inst bound es
  end.

(** The calls an entry stands for. *)
Definition entry_calls (ch : Z) (inst : Z -> Z) (e : CacheEntry) : list pgraph_call :=
  if ce_method e =? 0 then [pgraph_context_switch ch; pgraph_method (ce_subchannel e) 0 (inst (ce_parameter e))]
  else if 0x100 <=? ce_method e then
    [pgraph_method (ce_subchannel e) (ce_method e) (if object_method (ce_method e) then inst (ce_parameter e) else ce_parameter e)]
  else [].

Definition entries_calls (ch : Z) (inst : Z -> Z) (es : list CacheEntry) : list pgraph_call := concat (map (entry_calls ch inst) es).

Lemma object_context_fields ch engine inst : 0 <= ch < 32 -> 0 <= engine < 4 -> 0 <= inst < 2 ^ 20 -> inst mod 16 = 0 ->
  let c := object_context ch engine inst in
  Z.shiftl (Z.land c 0xFFFF) 4 = inst /\ Z.shiftr (Z.land c 0x30000) 16 = engine /\ Z.shiftr (Z.land c 0x1F000000) 24 = ch /\
  nonzero (Z.land c 0x80000000) = true.
Proof.
  intros Hch He Hi Hm c. change 0xFFFF with (Z.shiftl (Z.ones 16) 0). change 0x30000 with (Z.shiftl (Z.ones 2) 16).
  change 0x1F000000 with (Z.shiftl (Z.ones 5) 24). change 0x80000000 with (Z.shiftl (Z.ones 1) 31). rewrite !land_field_at by lia.
  rewrite !Z.shiftr_div_pow2, Z.shiftl_mul_pow2, !Z.div_mul by lia. unfold nonzero. rewrite negb_true_iff, Z.eqb_neq.
  subst c. unfold object_context. split_and!; zdiv.
Qed.

Lemma object_lookup_at d h engine inst : 0 <= channel_id (cache1 d) < 32 -> object_at d h engine inst ->
  object_lookup d h = Ok {| re_handle := h; re_instance := inst; re_engine := engine; re_channel_id := channel_id (cache1 d); re_valid := true |}.
Proof.
  intros Hch (slot & Hh & H0 & Hs & Hz & He & Hi & Hm & E1 & E2). unfold object_lookup, ramht_lookup. rewrite Hh. cbn [mbind outcome_bind].
  rewrite (wrap_small 32), (Z.mul_comm slot) by lia. rewrite (proj2 (Z.ltb_lt _ _)) by lia. cbn [c_assert mbind outcome_bind]. rewrite E1, E2.
  cbn [mbind outcome_bind re_valid re_channel_id].
  destruct (object_context_fields _ engine inst Hch He Hi Hm) as (-> & -> & -> & ->). cbn [c_assert mbind outcome_bind]. by rewrite Z.eqb_refl.
Qed.

Lemma exec_entry_driver d inst bound e es : 0 <= channel_id (cache1 d) < 32 -> driver_ok d inst bound (e :: es) ->
  exists bound', exec_entry d bound e = Ok (bound', entry_calls (channel_id (cache1 d)) inst e) /\ driver_ok d inst bound' es.
Proof.
  intros Hch. cbn [driver_ok]. unfold exec_entry, entry_calls. destruct (ce_method e =? 0); [|destruct (0x100 <=? ce_method e)].
  - intros [Ho Hes]. rewrite (object_lookup_at d _ _ _ Hch Ho). by eexists.
  - intros (Hb & Ho & Hes). fold (object_method (ce_method e)). rewrite Hb. exists bound. split; [|done].
    destruct (object_method (ce_method e)); [|done]. destruct (Ho eq_refl) as (engine & Ha). rewrite (object_lookup_at d _ _ _ Hch Ha).
    cbn [mbind outcome_bind re_instance]. destruct Ha as (_ & _ & _ & _ & _ & _ & Hi & _). by rewrite wrap_small by lia.
  - intros Hes. by exists bound.
Qed.

Lemma exec_entries_driver d inst es : 0 <= channel_id (cache1 d) < 32 -> forall bound calls, driver_ok d inst bound es ->
  exists engines, ofold (fun '(engines, calls) e => '(engines, more) ← exec_entry d engines e; Ok (engines, calls ++ more)) (bound, calls) es =
    Ok (engines, calls ++ entries_calls (channel_id (cache1 d)) inst es).
Proof.
  intros Hch. induction es as [|e es IH]; intros bound calls Hes; cbn [ofold]; [exists bound; by rewrite app_nil_r|].
  destruct (exec_entry_driver d inst bound e es Hch Hes) as (bound' & -> & Hes'). cbn [mbind outcome_bind].
  destruct (IH bound' (calls ++ entry_calls (channel_id (cache1 d)) inst e) Hes') as (engines & ->). exists engines. unfold entries_calls. cbn [map concat]. by rewrite app_assoc.
Qed.

Lemma driver_ok_prefix d inst es1 es2 : forall bound, driver_ok d inst bound (es1 ++ es2) -> driver_ok d inst bound es1.
Proof.
  induction es1 as [|e es1 IH]; intros bound; cbn [driver_ok app]; [done|]. destruct (ce_method e =? 0); [intros [? ?]; split; [done|by apply IH]|].
  destruct (0x100 <=? ce_method e); [intros (? & ? & ?); split_and!; [done|done|by apply IH]|apply IH].
Qed.

(** C8 (safety): a driver whose channel runs writes the commands [cs] to its
    push buffer and moves DMA_PUT over them in any number of pieces, which
    may cut a command anywhere, while the puller runs in between at any time.
    The driver keeps to [driver_ok]: the handles it sends name objects that are
    in the hash table, inside its bounds and for this channel, it binds graphics
    objects only, and it sends methods to bound subchannels only.
    Then no step fails; the calls the graphics engine has received are those of a
    prefix of the methods of [cs], in their order, the rest being in the
    queue or not yet submitted; and when everything was submitted and the
    queue is empty, the engine has received exactly the calls of [cs]. *)
Theorem commands_delivered d ch dma len start cs inst fuel evs r :
  running d ch dma len -> Forall pb_ok cs -> words_at (vram d) (dma + start) (concat (map pb_words cs)) ->
  0 <= start -> start + 4 * Z.of_nat (length (concat (map pb_words cs))) <= len ->
  get_control d ch = Ok {| dma_put := start; dma_get := start; ref := r |} ->
  method_count (cache1 d) = 0 -> cache (cache1 d) = [] ->
  driver_ok d inst (bound_engines (cache1 d)) (concat (map pb_entries cs)) ->
  (length (concat (map pb_words cs)) <= fuel)%nat -> (kicked evs <= length (concat (map pb_words cs)))%nat ->
  exists d' taken later, ofold (gpu_step fuel ch) d evs = Ok d' /\
    concat (map pb_entries cs) = taken ++ cache (cache1 d') ++ later /\
    pgraph_calls d' = pgraph_calls d ++ entries_calls ch inst taken /\
    (kicked evs = length (concat (map pb_words cs)) -> later = []).
Proof.
  intros Hr Hok Hw Hs Hlen Hc Hm Hq Hdr Hf Hk. set (ws := concat (map pb_words cs)) in *. pose proof (r_channel _ _ _ _ Hr) as Hch. pose proof (r_range _ _ _ _ Hr) as Hrg. rewrite <- Hch in Hrg.
  destruct (decode_commands cs (decoder_of (cache1 d)) Hok Hm) as (dec & _ & Hdec). fold ws in Hdec.
  destruct (exec_entries_driver d inst _ Hrg _ [] Hdr) as (engines & Hx).
  destruct (run_delivered d ch dma len start ws (concat (map pb_entries cs)) fuel engines (entries_calls (channel_id (cache1 d)) inst (concat (map pb_entries cs))) dec Hr Hw) with
    (evs := evs) (k := 0%nat) (pes := @nil CacheEntry) (d := d) as (d' & pes & E & [V1 V2 V3 V4 (got & V5 & V6)]); try done.
  { constructor; [done|done| | |exists []; by rewrite app_nil_r]; [|cbn; by rewrite Hq].
    exists r. by replace (start + 4 * Z.of_nat 0) with start by lia. }
  cbn [Nat.add] in V4. rewrite <- (take_drop (kicked evs) ws) in Hdec.
  destruct (decode_app _ _ _ _ _ Hdec) as (s1 & es1 & es2 & E1 & E2 & E3). rewrite V4 in E1. inversion E1. subst s1 es1.
  exists d', pes, es2. split_and!; [done|by rewrite E3, app_assoc| |].
  - rewrite V6. f_equal. rewrite E3, <- app_assoc in Hdr. apply driver_ok_prefix in Hdr. destruct (exec_entries_driver d inst pes Hrg _ [] Hdr) as (engines' & Hy).
    unfold exec_entries in V5. rewrite Hy in V5. inversion V5. by rewrite <- Hch.
  - intros Hall. rewrite Hall, drop_all in E2. cbn in E2. by inversion E2.
Qed.

(** ** A concrete channel *)
Definition le4 (w : Z) : list Z := [w mod 256; w / 2 ^ 8 mod 256; w / 2 ^ 16 mod 256; w / 2 ^ 24 mod 256].

(** Bind object 0x20, then an increasing and a non-increasing method. *)
Definition sample_commands : list pb_command :=
  [ {| pb_nonincreasing := false; pb_method := 0; pb_subchannel := 1; pb_params := [0x20] |};
    {| pb_nonincreasing := false; pb_method := 0x200; pb_subchannel := 1; pb_params := [7; 8] |};
    {| pb_nonincreasing := true; pb_method := 0x1818; pb_subchannel := 1; pb_params := [1; 2; 3] |} ].

Definition sample_cache1 : Cache1State :=
  {| channel_id := 2; mode := 1; push_enabled := true; dma_push_enabled := true; dma_push_suspended := false; dma_instance := 0x10;
     method_nonincreasing := false; method := 0; subchannel := 0; method_count := 0; dcount := 0; subroutine_active := false;
     subroutine_return := 0; get_jmp_shadow := 0; rsvd_shadow := 0; data_shadow := 0; error := 0; pull_enabled := true;
     bound_engines := replicate 8 0; last_engine := 0; cache_size := 0; cache := [] |}.

(** The hash of handle 0x20 on channel 2 is 0x120. *)
Definition sample_gpu (buffer : list Z) : NV2A_GPUState :=
  {| pmc_pending := 0; pmc_enabled := 1; pcrtc_pending := 0; pcrtc_enabled := 0; pgraph_pending := 0; pgraph_enabled := 0; pci_irq := false;
     pending_interrupts := 0; enabled_interrupts := 0; ramht_address := 0; ramht_size := 0x1000; ramht_search := 0;
     ramfc_address1 := 0; ramfc_address2 := 0; ramfc_size := 0; channel_modes := 4; channels_pending_push := 0;
     cache1 := sample_cache1; channel_control := replicate 32 {| dma_put := 8; dma_get := 8; ref := 0 |};
     vram := replicate 12 0 ++ concat (map le4 buffer);
     ramin := replicate 16 0 ++ concat (map le4 [0x00400002; 0x1000; 0]) ++ replicate 2276 0 ++ concat (map le4 [0x20; 0x82010042]);
     pgraph_calls := [] |}.

Definition sample_events : list gpu_event := [Kick 4; Pull; Pull; Pull; Kick 0; Kick 5; Pull; Pull; Pull; Pull; Pull].

(** The handle 0x20 names the object at 0x420. *)
Lemma commands_delivered_witness :
  exists d' taken later, ofold (gpu_step 20 2) (sample_gpu (concat (map pb_words sample_commands))) sample_events = Ok d' /\
    concat (map pb_entries sample_commands) = taken ++ cache (cache1 d') ++ later /\
    pgraph_calls d' = [] ++ entries_calls 2 (fun _ => 0x420) taken /\
    (kicked sample_events = length (concat (map pb_words sample_commands)) -> later = []).
Proof.
  apply (commands_delivered (sample_gpu (concat (map pb_words sample_commands))) 2 4 0x1000 8 sample_commands (fun _ => 0x420) 20 sample_events 0).
  - constructor; first [reflexivity|split; [discriminate|reflexivity]].
  - repeat constructor; first [discriminate|cbn; lia].
  - intros i w Hi. do 9 (destruct i as [|i]; [injection Hi as <-; vm_compute; reflexivity|]). destruct i; discriminate Hi.
  - discriminate.
  - discriminate.
  - reflexivity.
  - reflexivity.
  - reflexivity.
  - split; [exists 0x120; split_and!; first [discriminate|vm_compute; reflexivity]|]. do 5 (split; [reflexivity|split; [intros H; discriminate H|]]). exact I.
  - cbn. lia.
  - cbn. lia.
Defined.

(** The run above indeed ends with an empty queue. *)
Lemma sample_run_complete : exists d', ofold (gpu_step 20 2) (sample_gpu (concat (map pb_words sample_commands))) sample_events = Ok d' /\
  cache (cache1 d') = [] /\ length (pgraph_calls d') = 7%nat.
Proof. eexists. split; [vm_compute; reflexivity|]. by split. Qed.

(** ** Registers read back *)

(** A register and the bits of it that can be written. *)
Definition pfifo_registers : list (Z * Z) :=
  [ (NV_PFIFO_INTR_EN_0, 0xFFFFFFFF); (NV_PFIFO_RAMHT, 0x030301F0); (NV_PFIFO_RAMFC, 0x00FF01FC); (NV_PFIFO_MODE, 0xFFFFFFFF);
    (NV_PFIFO_DMA, 0xFFFFFFFF); (NV_PFIFO_CACHE1_PUSH0, 1); (NV_PFIFO_CACHE1_PUSH1, 0x11F);
    (NV_PFIFO_CACHE1_DMA_STATE, 0xFFFCFFFD); (NV_PFIFO_CACHE1_DMA_INSTANCE, 0xFFFF); (NV_PFIFO_CACHE1_DMA_PUT, 0xFFFFFFFF);
    (NV_PFIFO_CACHE1_DMA_GET, 0xFFFFFFFF); (NV_PFIFO_CACHE1_DMA_SUBROUTINE, 0x1FFFFFFD); (NV_PFIFO_CACHE1_PULL0, 1);
    (NV_PFIFO_CACHE1_ENGINE, 0xFFFF); (NV_PFIFO_CACHE1_DMA_DCOUNT, 0x1FFC); (NV_PFIFO_CACHE1_DMA_GET_JMP_SHADOW, 0x1FFFFFFC);
    (NV_PFIFO_CACHE1_DMA_RSVD_SHADOW, 0xFFFFFFFF); (NV_PFIFO_CACHE1_DMA_DATA_SHADOW, 0xFFFFFFFF) ].

Lemma shift_back x s : 0 <= s -> Z.shiftl (Z.shiftr x s) s = Z.land x (Z.lnot (Z.ones s)).
Proof.
  intros. apply Z.bits_inj'. intros i Hi. rewrite Z.shiftl_spec, Z.land_spec, Z.lnot_spec by lia.
  destruct (Z.lt_ge_cases i s).
  - rewrite Z.testbit_neg_r, Z.ones_spec_low by lia. by rewrite andb_false_r.
  - rewrite Z.shiftr_spec, Z.ones_spec_high by lia. rewrite andb_true_r. f_equal. lia.
Qed.

(** A field copied from [v] into a word that holds the bits [m1] of [v]. *)
Lemma set_get v m1 m2 : 0 <= ffs m2 - 1 -> Z.land m2 (Z.lnot (Z.ones (ffs m2 - 1))) = m2 ->
  SET_MASK (Z.land v m1) m2 (GET_MASK v m2) = Z.land v (Z.lor (Z.land m1 (Z.lnot m2)) m2).
Proof.
  intros Hf Hm. unfold SET_MASK, GET_MASK. rewrite shift_back, <- !Z.land_assoc by done.
  rewrite (Z.land_assoc m2), Hm, Z.land_diag. by rewrite <- Z.land_lor_distr_r.
Qed.

Lemma get_bit v k : 0 <= k -> ffs (2 ^ k) = k + 1 -> b2z (nonzero (GET_MASK v (2 ^ k))) = GET_MASK v (2 ^ k).
Proof.
  intros Hk Hf. unfold GET_MASK. rewrite Hf. replace (k + 1 - 1) with k by lia.
  assert (E : Z.shiftr (Z.land v (2 ^ k)) k = b2z (Z.testbit v k)).
  { apply Z.bits_inj'. intros i Hi. rewrite Z.shiftr_spec, Z.land_spec, Z.pow2_bits_eqb by lia.
    destruct (Z.eqb_spec k (i + k)).
    - replace i with 0 by lia. rewrite andb_true_r, Z.add_0_l. by destruct (Z.testbit v k).
    - rewrite andb_false_r. destruct (Z.testbit v k); cbn [b2z]; [|by rewrite Z.bits_0].
      symmetry. apply (testbit_high 1 1); lia. }
  rewrite E. by destruct (Z.testbit v k).
Qed.

Lemma get_mask_range v s k : 0 <= s -> 0 < k -> ffs (Z.shiftl (Z.ones k) s) = s + 1 -> 0 <= GET_MASK v (Z.shiftl (Z.ones k) s) < 2 ^ k.
Proof.
  intros Hs Hk Hf. unfold GET_MASK. rewrite Hf, land_field_at by lia. replace (s + 1 - 1) with s by lia.
  rewrite Z.shiftr_div_pow2, Z.div_mul by lia. apply Z.mod_pos_bound. lia.
Qed.

Lemma ramht_size_back g : 0 <= g < 4 -> ffs (Z.shiftl 1 (g + 12)) - 13 = g.
Proof. intros. assert (g = 0 \/ g = 1 \/ g = 2 \/ g = 3) as [-> | [-> | [-> | ->]]] by lia; reflexivity. Qed.

Lemma engine_field v i : 0 <= i -> Z.shiftl (Z.land (Z.shiftr v (i * 2)) 3) (i * 2) = Z.land v (Z.shiftl 3 (i * 2)).
Proof.
  intros. apply Z.bits_inj'. intros j Hj. rewrite Z.shiftl_spec, !Z.land_spec, Z.shiftl_spec by lia.
  destruct (Z.lt_ge_cases j (i * 2)).
  - rewrite !(Z.testbit_neg_r _ (j - i * 2)) by lia. by rewrite !andb_false_r.
  - rewrite Z.shiftr_spec by lia. do 2 f_equal. lia.
Qed.

Lemma engine_bits_back v :
  engine_bits (map (fun i => Z.land (Z.shiftr v (i * 2)) 3) (seqZ 0 (Z.of_nat NV2A_GPU_NUM_SUBCHANNELS))) = Z.land v 0xFFFF.
Proof.
  change (seqZ 0 (Z.of_nat NV2A_GPU_NUM_SUBCHANNELS)) with [0; 1; 2; 3; 4; 5; 6; 7]. unfold engine_bits.
  cbn [map zip_with foldl seqZ]. change (seqZ 0 (Z.of_nat NV2A_GPU_NUM_SUBCHANNELS)) with [0; 1; 2; 3; 4; 5; 6; 7].
  cbn [zip_with foldl]. rewrite !engine_field, Z.lor_0_l by lia. rewrite <- !Z.land_lor_distr_r. done.
Qed.

Lemma land_all v : 0 <= v < 2 ^ 32 -> Z.land v 0xFFFFFFFF = v.
Proof. intros. by apply (land_mask v 32). Qed.

Lemma low_bit v : b2z (nonzero (Z.land v 1)) = Z.land v 1.
Proof. change 1 with (Z.ones 1). rewrite Z.land_ones by lia. by destruct (Z.mod_pos_bound v (2 ^ 1) ltac:(lia)) as [? ?]; assert (v mod 2 ^ 1 = 0 \/ v mod 2 ^ 1 = 1) as [-> | ->] by lia. Qed.

(** Evaluate the dispatch on a concrete register. *)
Ltac at_register :=
  unfold pfifo_write, pfifo_read, dma_state_write, pull0_write;
  cbv delta [
    NV_PFIFO_INTR_0 NV_PFIFO_INTR_0_DMA_PUSHER NV_PFIFO_INTR_EN_0 NV_PFIFO_RAMHT NV_PFIFO_RAMHT_BASE_ADDRESS
    NV_PFIFO_RAMHT_SIZE NV_PFIFO_RAMHT_SEARCH NV_PFIFO_RAMFC NV_PFIFO_RAMFC_BASE_ADDRESS1 NV_PFIFO_RAMFC_SIZE
    NV_PFIFO_RAMFC_BASE_ADDRESS2 NV_PFIFO_RUNOUT_STATUS NV_PFIFO_RUNOUT_STATUS_LOW_MARK NV_PFIFO_MODE NV_PFIFO_DMA
    NV_PFIFO_CACHE1_PUSH0 NV_PFIFO_CACHE1_PUSH0_ACCESS NV_PFIFO_CACHE1_PUSH1 NV_PFIFO_CACHE1_PUSH1_CHID
    NV_PFIFO_CACHE1_PUSH1_MODE NV_PFIFO_CACHE1_STATUS NV_PFIFO_CACHE1_STATUS_LOW_MARK NV_PFIFO_CACHE1_DMA_PUSH
    NV_PFIFO_CACHE1_DMA_PUSH_ACCESS NV_PFIFO_CACHE1_DMA_PUSH_BUFFER NV_PFIFO_CACHE1_DMA_PUSH_STATUS
    NV_PFIFO_CACHE1_DMA_STATE NV_PFIFO_CACHE1_DMA_STATE_METHOD_TYPE NV_PFIFO_CACHE1_DMA_STATE_METHOD
    NV_PFIFO_CACHE1_DMA_STATE_SUBCHANNEL NV_PFIFO_CACHE1_DMA_STATE_METHOD_COUNT NV_PFIFO_CACHE1_DMA_STATE_ERROR
    NV_PFIFO_CACHE1_DMA_STATE_ERROR_NONE NV_PFIFO_CACHE1_DMA_STATE_ERROR_CALL NV_PFIFO_CACHE1_DMA_STATE_ERROR_RETURN
    NV_PFIFO_CACHE1_DMA_STATE_ERROR_RESERVED_CMD NV_PFIFO_CACHE1_DMA_STATE_ERROR_PROTECTION NV_PFIFO_CACHE1_DMA_INSTANCE
    NV_PFIFO_CACHE1_DMA_INSTANCE_ADDRESS NV_PFIFO_CACHE1_DMA_PUT NV_PFIFO_CACHE1_DMA_GET NV_PFIFO_CACHE1_DMA_SUBROUTINE
    NV_PFIFO_CACHE1_DMA_SUBROUTINE_RETURN_OFFSET NV_PFIFO_CACHE1_DMA_SUBROUTINE_STATE NV_PFIFO_CACHE1_PULL0
    NV_PFIFO_CACHE1_PULL0_ACCESS NV_PFIFO_CACHE1_ENGINE NV_PFIFO_CACHE1_DMA_DCOUNT NV_PFIFO_CACHE1_DMA_DCOUNT_VALUE
    NV_PFIFO_CACHE1_DMA_GET_JMP_SHADOW NV_PFIFO_CACHE1_DMA_GET_JMP_SHADOW_OFFSET NV_PFIFO_CACHE1_DMA_RSVD_SHADOW
    NV_PFIFO_CACHE1_DMA_DATA_SHADOW];
  cbn [Z.eqb Pos.eqb].

Definition reads_back (fuel : nat) d (val addr mask : Z) : Prop :=
  exists d', pfifo_write fuel d addr val = Ok d' /\ pfifo_read d' addr = Ok (Z.land val mask).

(** The fields of [d] for evaluation. *)
Ltac open_gpu d :=
  destruct d as [? ? ? ? ? ? ? ? ? ? ? ? ? ? ? ? ? []];
  cbn -[SET_MASK GET_MASK Z.land b2z nonzero Z.shiftl Z.shiftr Z.lor engine_bits seqZ u32 ffs Z.add Z.sub].

Ltac back d := unfold reads_back; at_register; eexists; split; [reflexivity|open_gpu d; f_equal].

Section Registers.
Context (fuel : nat) (d : NV2A_GPUState) (val : Z).
Hypothesis Hval : 0 <= val < 2 ^ 32.

Lemma plain_registers_back :
  Forall (fun '(addr, mask) => reads_back fuel d val addr mask)
    [(NV_PFIFO_INTR_EN_0, 0xFFFFFFFF); (NV_PFIFO_MODE, 0xFFFFFFFF); (NV_PFIFO_DMA, 0xFFFFFFFF);
     (NV_PFIFO_CACHE1_DMA_RSVD_SHADOW, 0xFFFFFFFF); (NV_PFIFO_CACHE1_DMA_DATA_SHADOW, 0xFFFFFFFF)].
Proof using Hval.
  repeat constructor; back d; rewrite land_all by done; by apply (wrap_small 32).
Qed.

Lemma masked_registers_back :
  Forall (fun '(addr, mask) => reads_back fuel d val addr mask)
    [(NV_PFIFO_CACHE1_DMA_DCOUNT, 0x1FFC); (NV_PFIFO_CACHE1_DMA_GET_JMP_SHADOW, 0x1FFFFFFC); (NV_PFIFO_CACHE1_PUSH0, 1)].
Proof using. repeat constructor; back d; try done. apply low_bit. Qed.

Lemma ramht_back : reads_back fuel d val NV_PFIFO_RAMHT 0x030301F0.
Proof using.
  back d. rewrite Z.shiftr_shiftl_l, Z.sub_diag, Z.shiftl_0_r by lia.
  rewrite ramht_size_back by (apply (get_mask_range val 16 2); [lia..|reflexivity]).
  rewrite <- (Z.land_0_r val) at 1. by rewrite !set_get.
Qed.

Lemma ramfc_back : reads_back fuel d val NV_PFIFO_RAMFC 0x00FF01FC.
Proof using.
  back d. rewrite !Z.shiftr_shiftl_l, Z.sub_diag, !Z.shiftl_0_r by lia.
  rewrite <- (Z.land_0_r val) at 1. by rewrite !set_get.
Qed.

Lemma push1_back : reads_back fuel d val NV_PFIFO_CACHE1_PUSH1 0x11F.
Proof using.
  unfold reads_back. at_register. assert (Hc : GET_MASK val 0x1F < 32) by apply (get_mask_range val 0 5 ltac:(lia) ltac:(lia) eq_refl).
  open_gpu d. unfold NV2A_GPU_NUM_CHANNELS. rewrite (proj2 (Z.ltb_lt _ _) Hc). eexists. split; [reflexivity|]. cbn -[SET_MASK GET_MASK Z.land].
  f_equal. rewrite <- (Z.land_0_r val) at 1. by rewrite !set_get.
Qed.

Lemma dma_state_back : reads_back fuel d val NV_PFIFO_CACHE1_DMA_STATE 0xFFFCFFFD.
Proof using.
  back d. rewrite Z.shiftr_shiftl_l, Z.sub_diag, Z.shiftl_0_r by lia.
  change 1 with (2 ^ 0) at 2. rewrite (get_bit val 0) by done. change (2 ^ 0) with 1.
  rewrite <- (Z.land_0_r val) at 1. by rewrite !set_get.
Qed.

Lemma dma_instance_back : reads_back fuel d val NV_PFIFO_CACHE1_DMA_INSTANCE 0xFFFF.
Proof using.
  back d. rewrite Z.shiftr_shiftl_l, Z.sub_diag, Z.shiftl_0_r by lia.
  rewrite <- (Z.land_0_r val) at 1. by rewrite set_get.
Qed.

Lemma subroutine_back : reads_back fuel d val NV_PFIFO_CACHE1_DMA_SUBROUTINE 0x1FFFFFFD.
Proof using. back d. by rewrite low_bit, <- Z.land_lor_distr_r. Qed.

Lemma pull0_back : reads_back fuel d val NV_PFIFO_CACHE1_PULL0 1.
Proof using.
  back d. pose proof (low_bit val) as H. destruct (nonzero (Z.land val 1)), pull_enabled; exact H.
Qed.

Lemma engine_back : reads_back fuel d val NV_PFIFO_CACHE1_ENGINE 0xFFFF.
Proof using. back d. apply engine_bits_back. Qed.

Lemma control_back control : get_control d (channel_id (cache1 d)) = Ok control ->
  reads_back fuel d val NV_PFIFO_CACHE1_DMA_PUT 0xFFFFFFFF /\ reads_back fuel d val NV_PFIFO_CACHE1_DMA_GET 0xFFFFFFFF.
Proof using Hval.
  intros Hg. assert (Hc : forall c, cache1 (put_control (channel_id (cache1 d)) c d) = cache1 d) by (by destruct d).
  split; unfold reads_back; at_register; rewrite Hg; cbn [mbind outcome_bind]; (eexists; split; [reflexivity|]);
    rewrite Hc, (get_put_control _ _ _ _ Hg); cbn [mbind outcome_bind dma_put dma_get set_dma_put set_dma_get]; by rewrite land_all.
Qed.

End Registers.

#[export] Hint Resolve ramht_back ramfc_back push1_back dma_state_back dma_instance_back subroutine_back pull0_back engine_back : pfifo.

(** A value the driver writes to any writable register of the
    FIFO other than the interrupt status and DMA_PUSH reads back with the
    bits of the register; the fields the code unpacks it into keep them. *)
Theorem pfifo_registers_roundtrip fuel d val :
  0 <= val < 2 ^ 32 -> 0 <= channel_id (cache1 d) < 32 -> length (channel_control d) = 32%nat ->
  Forall (fun '(addr, mask) => exists d', pfifo_write fuel d addr val = Ok d' /\ pfifo_read d' addr = Ok (Z.land val mask)) pfifo_registers.
Proof.
  intros Hv Hch Hlen. destruct (lookup_lt_is_Some_2 (channel_control d) (Z.to_nat (channel_id (cache1 d)))) as [c Hc]; [lia|].
  destruct (control_back fuel d val Hv c) as [Hput Hget]; [unfold get_control; by rewrite Hc|].
  pose proof (plain_registers_back fuel d val Hv) as Hp. pose proof (masked_registers_back fuel d val) as Hm.
  change (Forall (fun '(addr, mask) => reads_back fuel d val addr mask) pfifo_registers).
  repeat match goal with H : Forall _ (_ :: _) |- _ => apply Forall_cons in H as [? ?] end.
  unfold pfifo_registers. repeat apply Forall_cons_2; auto with pfifo nocore.
Qed.

Lemma pfifo_registers_roundtrip_witness :
  Forall (fun '(addr, mask) => exists d', pfifo_write 0 (sample_gpu []) addr 0xDEADBEEF = Ok d' /\
    pfifo_read d' addr = Ok (Z.land 0xDEADBEEF mask)) pfifo_registers.
Proof. apply pfifo_registers_roundtrip; [split; [discriminate|reflexivity]|split; [discriminate|reflexivity]|reflexivity]. Defined.

(** ** Findings *)

(** A jump to itself keeps the pusher, and with it the write of DMA_PUT, in
    its loop forever. *)
Lemma jump_to_self_hangs fuel mem dma len c get put r :
  ldl_le_p mem (dma + get) = Ok (get + 1) -> get mod 4 = 0 -> 0 <= get < len -> len <= 2 ^ 29 -> get <> put -> method_count c = 0 ->
  pusher_loop fuel mem dma len c {| dma_put := put; dma_get := get; ref := r |} = NoFuel.
Proof.
  intros Hw H4 Hg Hl Hp. revert c. induction fuel as [|fuel IH]; intros c Hc; cbn [pusher_loop dma_get dma_put];
    destruct (Z.eqb_spec get put); try done. destruct (Z.leb_spec len get); [lia|]. rewrite Hw. cbn [mbind outcome_bind].
  unfold push_word, push_command. rewrite Hc. cbn [nonzero Z.eqb negb].
  change 0xe0000003 with (Z.lor (Z.shiftl (Z.ones 2) 0) (Z.shiftl (Z.ones 3) 29)).
  rewrite Z.land_lor_distr_r, !land_field_at by lia.
  assert (E1 : ((get + 1) / 2 ^ 0) mod 2 ^ 2 * 2 ^ 0 = 1) by (Z.div_mod_to_equations; lia).
  assert (E2 : (get + 1) / 2 ^ 29 = 0) by (Z.div_mod_to_equations; lia). rewrite E1, E2. cbn [Z.modulo Z.mul Z.lor Z.eqb Pos.eqb].
  assert (E3 : Z.land (get + 1) 3 = 1) by (change 3 with (Z.ones 2); rewrite Z.land_ones by lia; Z.div_mod_to_equations; lia).
  assert (E4 : Z.land (get + 1) 0xfffffffc = get).
  { change 0xfffffffc with (Z.shiftl (Z.ones 30) 2). rewrite land_field_at by lia. Z.div_mod_to_equations. lia. }
  rewrite E3, E4. apply IH. by destruct c.
Qed.

(** With the smallest hash table, an object handle of ten bits already fails
    the assertion of the lookup. *)
Lemma ramht_lookup_aborts : ramht_lookup (sample_gpu []) 0x200 = Abort.
Proof. reflexivity. Qed.

(** A reserved command stops the emulator instead of raising the interrupt
    the code behind the assertion would raise. *)
Lemma reserved_command_aborts : gpu_step 1 2 (sample_gpu [0x80000000]) (Kick 1) = Abort.
Proof. vm_compute. reflexivity. Qed.
