(* ===== verification/Rc4.v ===== *)
(** * The stream cipher of the boot ROM (hw/xbox/rc4.h)

    Used by hw/xbox/mcpx_rom.c to decrypt the boot loader in place.  The input
    and the output buffer are two places of one memory, so that the same
    buffer, disjoint buffers and overlapping ones are all covered by the
    definitions, the first two by the theorem; accesses outside an array are
    errors. *)
From S2P Require Import Prelude.

Record rc4_state := { perm : list Z; index1 : Z; index2 : Z }.

Definition byte_load (l : list Z) (i : Z) : outcome Z :=
  if i <? 0 then Abort else match l !! Z.to_nat i with Some b => Ok b | None => Abort end.

Definition byte_store (l : list Z) (i v : Z) : outcome (list Z) :=
  _ ← byte_load l i; Ok (<[Z.to_nat i := v]> l).

(** [swap_bytes(&l[a], &l[b])] *)
Definition swap_bytes (l : list Z) (a b : Z) : outcome (list Z) :=
  temp ← byte_load l a;
  y ← byte_load l b;
  l ← byte_store l a y;
  byte_store l b temp.

(** A round of the key schedule. *)
Definition rc4_mix (key : list Z) (keylen : Z) (s : list Z * Z) (i : Z) : outcome (list Z * Z) :=
  let '(p, j) := s in
  x ← byte_load p i;
  _ ← c_assert (negb (keylen =? 0));
  k ← byte_load key (Z.rem i keylen);
  let j := u8 (j + (x + k)) in
  p ← swap_bytes p i j;
  Ok (p, j).

Definition rc4_init (key : list Z) (keylen : Z) : outcome rc4_state :=
  '(p, _) ← ofold (rc4_mix key keylen) (seqZ 0 256, 0) (seqZ 0 256);
  Ok {| perm := p; index1 := 0; index2 := 0 |}.

(** The state update and the key byte of one round of [rc4_crypt]. *)
Definition rc4_next (s : rc4_state) : outcome (rc4_state * Z) :=
  let i1 := u8 (index1 s + 1) in
  x ← byte_load (perm s) i1;
  let i2 := u8 (index2 s + x) in
  p ← swap_bytes (perm s) i1 i2;
  a ← byte_load p i1;
  b ← byte_load p i2;
  k ← byte_load p (u8 (a + b));
  Ok ({| perm := p; index1 := i1; index2 := i2 |}, k).

(** [buflen] rounds from index [i]. *)
Fixpoint rc4_loop (buflen : nat) (s : rc4_state) (mem : list Z) (inbuf outbuf i : Z) : outcome (rc4_state * list Z) :=
  match buflen with
  | O => Ok (s, mem)
  | S n =>
    '(s, k) ← rc4_next s;
    b ← byte_load mem (inbuf + i);
    mem ← byte_store mem (outbuf + i) (Z.lxor b k);
    rc4_loop n s mem inbuf outbuf (i + 1)
  end.

Definition rc4_crypt (s : rc4_state) (mem : list Z) (inbuf outbuf : Z) (buflen : nat) : outcome (rc4_state * list Z) :=
  rc4_loop buflen s mem inbuf outbuf 0.

(** ** The permutation *)
Definition rc4_ok (s : rc4_state) : Prop := perm s ≡ₚ seqZ 0 256.

Lemma swap_lt (l : list Z) i j a b : (i < j)%nat -> l !! i = Some a -> l !! j = Some b -> <[j := a]> (<[i := b]> l) ≡ₚ l.
Proof.
  intros Hij Hi Hj. rewrite <- (take_drop_middle l i a Hi) at 2.
  assert (Hk : drop (S i) l !! (j - S i)%nat = Some b) by (rewrite lookup_drop; rewrite <- Hj; f_equal; lia).
  pose proof (lookup_lt_Some _ _ _ Hi). rewrite (insert_take_drop l i) by done.
  rewrite (insert_app_r_alt _ _ j) by (rewrite length_take; lia). rewrite length_take_le by lia.
  replace (j - i)%nat with (S (j - S i)) by lia. 
  change (<[S (j - S i) := a]> (b :: drop (S i) l)) with (b :: <[(j - S i)%nat := a]> (drop (S i) l)). apply Permutation_app_head.
  rewrite <- (take_drop_middle _ _ _ Hk) at 2. rewrite (insert_take_drop _ (j - S i)) by (by eapply lookup_lt_Some).
  rewrite <- !Permutation_middle. apply Permutation_swap.
Qed.

Lemma swap_permutation (l : list Z) i j a b : l !! i = Some a -> l !! j = Some b -> <[j := a]> (<[i := b]> l) ≡ₚ l.
Proof.
  intros Hi Hj. destruct (lt_eq_lt_dec i j) as [[?| ->]|?].
  - by apply swap_lt.
  - rewrite Hi in Hj. inversion Hj. subst. rewrite (list_insert_id l j) by done. by rewrite list_insert_id.
  - rewrite list_insert_insert_ne by lia. by apply swap_lt.
Qed.

Lemma permuted_byte p i : p ≡ₚ seqZ 0 256 -> 0 <= i < 256 -> exists b, byte_load p i = Ok b /\ p !! Z.to_nat i = Some b /\ 0 <= b < 256.
Proof.
  intros Hp Hi. unfold byte_load. destruct (Z.ltb_spec i 0); [lia|].
  destruct (lookup_lt_is_Some_2 p (Z.to_nat i)) as [b Hb].
  { rewrite (Permutation_length Hp). rewrite length_seqZ. lia. }
  rewrite Hb. exists b. split_and!; [done|done|..]; apply list_elem_of_lookup_2 in Hb; rewrite Hp in Hb; apply elem_of_seqZ in Hb; lia.
Qed.

Lemma swap_bytes_ok p a b : p ≡ₚ seqZ 0 256 -> 0 <= a < 256 -> 0 <= b < 256 -> exists p', swap_bytes p a b = Ok p' /\ p' ≡ₚ seqZ 0 256.
Proof.
  intros Hp Ha Hb. destruct (permuted_byte p a Hp Ha) as (x & Ex & Hx & _). destruct (permuted_byte p b Hp Hb) as (y & Ey & Hy & _).
  unfold swap_bytes, byte_store. rewrite Ex, Ey. cbn [mbind outcome_bind].
  assert (Hl : exists z, byte_load (<[Z.to_nat a := y]> p) b = Ok z).
  { unfold byte_load. destruct (Z.ltb_spec b 0); [lia|]. pose proof (lookup_lt_Some _ _ _ Hy).
    destruct (lookup_lt_is_Some_2 (<[Z.to_nat a := y]> p) (Z.to_nat b)) as [z ->]; [by rewrite length_insert|by eexists]. }
  destruct Hl as [z ->]. cbn [mbind outcome_bind]. eexists. split; [done|]. by rewrite swap_permutation.
Qed.

Lemma u8_range z : 0 <= u8 z < 256.
Proof. apply (wrap_range 8). lia. Qed.

Lemma rc4_mix_ok key keylen p j i : 0 < keylen -> Z.of_nat (length key) = keylen -> p ≡ₚ seqZ 0 256 -> 0 <= i < 256 ->
  exists p' j', rc4_mix key keylen (p, j) i = Ok (p', j') /\ p' ≡ₚ seqZ 0 256.
Proof.
  intros Hk Hl Hp Hi. unfold rc4_mix. destruct (permuted_byte p i Hp Hi) as (x & -> & _). cbn [mbind outcome_bind].
  destruct (Z.eqb_spec keylen 0); [lia|]. cbn [negb c_assert mbind outcome_bind].
  assert (Hr : exists k, byte_load key (Z.rem i keylen) = Ok k).
  { unfold byte_load. pose proof (Z.rem_bound_pos i keylen). destruct (Z.ltb_spec (Z.rem i keylen) 0); [lia|].
    destruct (lookup_lt_is_Some_2 key (Z.to_nat (Z.rem i keylen))) as [k ->]; [lia|by eexists]. }
  destruct Hr as [k ->]. cbn [mbind outcome_bind].
  destruct (swap_bytes_ok p i (u8 (j + (x + k))) Hp Hi (u8_range _)) as (p' & -> & Hp'). by do 2 eexists.
Qed.

(** The key schedule returns for every key, with a permutation of the bytes. *)
Lemma rc4_init_ok key keylen : 0 < keylen -> Z.of_nat (length key) = keylen -> exists s, rc4_init key keylen = Ok s /\ rc4_ok s.
Proof.
  intros Hk Hl. unfold rc4_init.
  assert (H : forall ix p j, Forall (fun i => 0 <= i < 256) ix -> p ≡ₚ seqZ 0 256 ->
    exists p' j', ofold (rc4_mix key keylen) (p, j) ix = Ok (p', j') /\ p' ≡ₚ seqZ 0 256).
  { induction ix as [|i ix IH]; intros p j Hi Hp; [by do 2 eexists|]. inversion_clear Hi as [|? ? Hi0 His]. cbn [ofold].
    destruct (rc4_mix_ok key keylen p j i Hk Hl Hp Hi0) as (p' & j' & -> & Hp'). cbn [mbind outcome_bind]. by apply IH. }
  destruct (H (seqZ 0 256) (seqZ 0 256) 0) as (p & j & -> & Hp); [|done|by eexists].
  apply Forall_forall. intros x Hx. apply elem_of_seqZ in Hx. lia.
Qed.

Lemma rc4_next_ok s : rc4_ok s -> exists s' k, rc4_next s = Ok (s', k) /\ rc4_ok s' /\ 0 <= k < 256.
Proof.
  intros Hs. unfold rc4_next. destruct (permuted_byte (perm s) _ Hs (u8_range (index1 s + 1))) as (x & -> & _). cbn [mbind outcome_bind].
  destruct (swap_bytes_ok (perm s) _ _ Hs (u8_range (index1 s + 1)) (u8_range (index2 s + x))) as (p & -> & Hp). cbn [mbind outcome_bind].
  destruct (permuted_byte p _ Hp (u8_range (index1 s + 1))) as (a & -> & _). cbn [mbind outcome_bind].
  destruct (permuted_byte p _ Hp (u8_range (index2 s + x))) as (b & -> & _). cbn [mbind outcome_bind].
  destruct (permuted_byte p _ Hp (u8_range (a + b))) as (k & -> & _ & Hk). cbn [mbind outcome_bind]. by do 2 eexists.
Qed.

(** ** The cipher *)

(** The state after [n] rounds, and the key bytes. *)
Fixpoint keystream (n : nat) (s : rc4_state) : rc4_state * list Z :=
  match n with
  | O => (s, [])
  | S n => match rc4_next s with
           | Ok (s, k) => let '(s, ks) := keystream n s in (s, k :: ks)
           | _ => (s, [])
           end
  end.

(** Buffers that are the same or do not overlap. *)
Definition buffers_ok (mem : list Z) (inbuf outbuf i : Z) (n : nat) : Prop :=
  0 <= inbuf + i /\ inbuf + i + Z.of_nat n <= Z.of_nat (length mem) /\
  0 <= outbuf + i /\ outbuf + i + Z.of_nat n <= Z.of_nat (length mem) /\
  (inbuf = outbuf \/ inbuf + i + Z.of_nat n <= outbuf + i \/ outbuf + i + Z.of_nat n <= inbuf + i).

Definition byte_of (l : list Z) (q : Z) : Z := nth (Z.to_nat q) l 0.

Lemma byte_load_ok l q : 0 <= q < Z.of_nat (length l) -> byte_load l q = Ok (byte_of l q).
Proof.
  intros Hq. unfold byte_load, byte_of. destruct (Z.ltb_spec q 0); [lia|].
  destruct (lookup_lt_is_Some_2 l (Z.to_nat q)) as [b Hb]; [lia|]. rewrite Hb. f_equal. symmetry. by apply nth_lookup_Some.
Qed.

Lemma byte_of_insert l p v q : 0 <= p < Z.of_nat (length l) -> 0 <= q ->
  byte_of (<[Z.to_nat p := v]> l) q = if q =? p then v else byte_of l q.
Proof.
  intros Hp Hq. unfold byte_of. rewrite !nth_lookup. destruct (Z.eqb_spec q p) as [->|].
  - by rewrite list_lookup_insert_eq by lia.
  - by rewrite list_lookup_insert_ne by lia.
Qed.

Lemma rc4_loop_spec inbuf outbuf n : forall s mem i, rc4_ok s -> buffers_ok mem inbuf outbuf i n -> exists mem',
  rc4_loop n s mem inbuf outbuf i = Ok (fst (keystream n s), mem') /\ length mem' = length mem /\
  forall q, 0 <= q -> byte_of mem' q =
    if (outbuf + i <=? q) && (q <? outbuf + i + Z.of_nat n)
    then Z.lxor (byte_of mem (inbuf + (q - outbuf))) (byte_of (snd (keystream n s)) (q - outbuf - i))
    else byte_of mem q.
Proof.
  induction n as [|n IH]; intros s mem i Hs (B1 & B2 & B3 & B4 & B5); cbn [rc4_loop keystream].
  { exists mem. split_and!; [done..|]. intros q Hq. destruct (Z.leb_spec (outbuf + i) q), (Z.ltb_spec q (outbuf + i + Z.of_nat 0)); try done; lia. }
  destruct (rc4_next_ok s Hs) as (s1 & k & -> & Hs1 & _). cbn [mbind outcome_bind].
  rewrite byte_load_ok by lia. cbn [mbind outcome_bind]. unfold byte_store. rewrite byte_load_ok by lia. cbn [mbind outcome_bind].
  set (m1 := <[_ := _]> mem). assert (Hl1 : length m1 = length mem) by apply length_insert.
  destruct (IH s1 m1 (i + 1) Hs1) as (m' & -> & Hl & Hm); [unfold buffers_ok; rewrite Hl1; lia|].
  destruct (keystream n s1) as [s2 ks] eqn:Ek. cbn [fst snd] in *.
  exists m'. split_and!; [done|congruence|]. intros q Hq. rewrite Hm by done.
  assert (Hb : forall q', 0 <= q' -> byte_of m1 q' = if q' =? outbuf + i then Z.lxor (byte_of mem (inbuf + i)) k else byte_of mem q').
  { intros. unfold m1. by rewrite (byte_of_insert mem) by lia. }
  destruct (Z.leb_spec (outbuf + (i + 1)) q), (Z.ltb_spec q (outbuf + (i + 1) + Z.of_nat n)), (Z.leb_spec (outbuf + i) q),
    (Z.ltb_spec q (outbuf + i + Z.of_nat (S n))); try lia; cbn [andb].
  - rewrite Hb by lia. destruct (Z.eqb_spec (inbuf + (q - outbuf)) (outbuf + i)); [lia|].
    f_equal. unfold byte_of. replace (Z.to_nat (q - outbuf - i)) with (S (Z.to_nat (q - outbuf - (i + 1)))) by lia. done.
  - rewrite Hb by lia. by destruct (Z.eqb_spec q (outbuf + i)); [lia|].
  - assert (q = outbuf + i) as -> by lia. rewrite Hb, Z.eqb_refl by lia.
    replace (outbuf + i - outbuf - i) with 0 by lia. by replace (inbuf + (outbuf + i - outbuf)) with (inbuf + i) by lia.
  - rewrite Hb by lia. by destruct (Z.eqb_spec q (outbuf + i)); [lia|].
Qed.

(** For every key, encrypting a buffer in place or into a
    buffer that does not overlap it never leaves the arrays, changes nothing
    but the output buffer, and decrypting the output in place with the same
    key gives the plain text back. *)
Theorem rc4_roundtrip key keylen mem inbuf outbuf n :
  0 < keylen -> Z.of_nat (length key) = keylen -> buffers_ok mem inbuf outbuf 0 n -> exists s s' cipher plain,
  rc4_init key keylen = Ok s /\ rc4_crypt s mem inbuf outbuf n = Ok (s', cipher) /\
  rc4_crypt s cipher outbuf outbuf n = Ok (s', plain) /\ length plain = length mem /\
  forall q, 0 <= q -> byte_of plain q =
    if (outbuf <=? q) && (q <? outbuf + Z.of_nat n) then byte_of mem (inbuf + (q - outbuf)) else byte_of mem q.
Proof.
  intros Hk Hl Hb. destruct (rc4_init_ok key keylen Hk Hl) as (s & Es & Hs).
  destruct (rc4_loop_spec inbuf outbuf n s mem 0 Hs Hb) as (c & Ec & Hlc & Hc).
  destruct (rc4_loop_spec outbuf outbuf n s c 0 Hs) as (p & Ep & Hlp & Hp); [unfold buffers_ok in *; rewrite Hlc; lia|].
  exists s, (fst (keystream n s)), c, p. split_and!; [done..|congruence|]. intros q Hq. rewrite Hp, !Z.add_0_r by done.
  assert (E : outbuf + (q - outbuf) = q) by lia. rewrite E, Hc, !Z.add_0_r by done.
  destruct ((outbuf <=? q) && (q <? outbuf + Z.of_nat n)); [|done].
  by rewrite Z.lxor_assoc, Z.lxor_nilpotent, Z.lxor_0_r.
Qed.

(** A five-byte key and four bytes in place. *)
Lemma rc4_roundtrip_witness : exists s s' cipher plain,
  rc4_init [1; 2; 3; 4; 5] 5 = Ok s /\ rc4_crypt s [9; 0; 0; 0; 0; 9] 1 1 4 = Ok (s', cipher) /\
  rc4_crypt s cipher 1 1 4 = Ok (s', plain) /\ length plain = 6%nat /\
  forall q, 0 <= q -> byte_of plain q =
    if (1 <=? q) && (q <? 1 + Z.of_nat 4) then byte_of [9; 0; 0; 0; 0; 9] (1 + (q - 1)) else byte_of [9; 0; 0; 0; 0; 9] q.
Proof. apply (rc4_roundtrip [1; 2; 3; 4; 5] 5 [9; 0; 0; 0; 0; 9] 1 1 4); [reflexivity|reflexivity|unfold buffers_ok; cbn; lia]. Defined.

(** The published test vector of that key: the key stream starts b2 39 63 05. *)
Lemma rc4_test_vector : (s ← rc4_init [1; 2; 3; 4; 5] 5; Ok (snd (keystream 4 s))) = Ok [0xb2; 0x39; 0x63; 0x05].
Proof. vm_compute. reflexivity. Qed.
