(* ===== verification/XCode.v ===== *)
(** * The boot ROM of the south bridge (hw/xbox/mcpx_rom.c)

    The x-code interpreter that runs the initialisation program of the flash,
    and the overlay of the 512-byte ROM on the top of the flash, which
    hw/xbox/xbox.c maps repeatedly over the last 16 MB of memory.  Physical
    memory and ports belong to the rest of the machine: [Machine] is what the
    ROM uses of them.  A port write may hide the ROM, so whether it is enabled
    is part of the machine too.  The log output is left out. *)
From S2P Require Import Prelude.

(** [read m addr len] is cpu_physical_memory_read, [write] and [write_rom]
    are cpu_physical_memory_write and cpu_physical_memory_write_rom. *)
Class Machine (M : Type) := {
  read : M -> Z -> nat -> M * list Z;
  write : M -> Z -> list Z -> M;
  outl : M -> Z -> Z -> M;
  outb : M -> Z -> Z -> M;
  inl : M -> Z -> M * Z;
  inb : M -> Z -> M * Z;
  rom_enabled : M -> bool
}.

Definition le (bytes : list Z) : Z := foldr (fun b v => u8 b + 2 ^ 8 * v) 0 bytes.
Definition le_bytes4 (v : Z) : list Z := [u8 v; u8 (v / 2 ^ 8); u8 (v / 2 ^ 16); u8 (v / 2 ^ 24)].

Section Interpreter.
Context {M : Type} `{Machine M}.

(** The registers of the interpreter; an operand that was never read is
    [None].  [eip] is the instruction pointer of the CPU. *)
Record XState := { x_pc : Z; x_acc : Z; x_op1 : option Z; x_op2 : option Z; x_eip : Z; x_m : M }.

Definition read4 (m : M) (addr : Z) : M * Z := let '(m, b) := read m addr 4 in (m, le b).

(** PEEK: the guard against reading the ROM. *)
Definition peek (revision : Z) (m : M) (acc op1 : Z) : M * Z :=
  if revision =? 0xB1 then
    if op1 <=? 0xFF000000 then read4 m op1 else (m, acc)
  else read4 m (Z.land op1 0x0FFFFFFF).

(** The body of the switch: the machine, the accumulator, [pc], [eip] and
    [done]. *)
Definition xcode_exec (revision opcode op1 op2 : Z) (m : M) (acc pc eip : Z) : M * Z * Z * Z * bool :=
  if opcode =? 0x02 then let '(m, acc) := peek revision m acc op1 in (m, acc, pc, eip, false)
  else if opcode =? 0x03 then (write m op1 (le_bytes4 op2), acc, pc, eip, false)
  else if opcode =? 0x04 then (outl (outl m 0xCF8 op1) 0xCFC op2, acc, pc, 0xfffffe62, false)
  else if opcode =? 0x05 then let '(m, v) := inl (outl m 0xCF8 op1) 0xCFC in (m, v, pc, eip, false)
  else if opcode =? 0x06 then (m, Z.lor (Z.land acc op1) op2, pc, eip, false)
  else if opcode =? 0x08 then (m, acc, if acc =? op1 then pc else u32 (pc + op2), eip, false)
  else if opcode =? 0x09 then (m, acc, u32 (pc + op2), eip, false)
  else if opcode =? 0x11 then (outb m op1 op2, acc, pc, 0xfffffea0, false)
  else if opcode =? 0x12 then let '(m, v) := inb m op1 in (m, v, pc, eip, false)
  else if opcode =? 0xEE then (m, acc, pc, eip, true)
  else (m, acc, pc, eip, false).

(** A round of the loop. *)
Definition xcode_step (revision : Z) (x : XState) : XState * bool :=
  let pc := x_pc x in
  let '(m, b) := read (x_m x) pc 1 in
  let opcode := le b in
  let '(m, op1) := read4 m (u32 (pc + 1)) in
  let '(m, op2) := read4 m (u32 (pc + 5)) in
  let '(opcode, op1, op2) := if opcode =? 0x07 then (u8 op2, op2, x_acc x) else (opcode, op1, op2) in
  let '(m, acc, pc, eip, fin) := xcode_exec revision opcode op1 op2 m (x_acc x) pc (x_eip x) in
  ({| x_pc := u32 (pc + 9); x_acc := acc; x_op1 := Some op1; x_op2 := Some op2; x_eip := eip; x_m := m |}, fin).

Fixpoint xcode_loop (fuel : nat) (revision : Z) (x : XState) : outcome XState :=
  if negb (rom_enabled (x_m x)) then Ok x
  else match fuel with
       | O => NoFuel
       | S fuel =>
         let '(x, fin) := xcode_step revision x in
         if fin then Ok x else xcode_loop fuel revision x
       end.

(** The registers ESI, EBX, ECX and EDI the program leaves. *)
Record XResult := { r_esi : Z; r_ebx : Z; r_ecx : Z; r_edi : Z; r_eip : Z; r_m : M }.

Definition mcpx_rom_run_xcode (fuel : nat) (revision : Z) (m : M) (eip : Z) : outcome XResult :=
  x ← xcode_loop fuel revision {| x_pc := 0xFF000080; x_acc := 0; x_op1 := None; x_op2 := None; x_eip := eip; x_m := m |};
  match x_op1 x, x_op2 x with
  | Some op1, Some op2 => Ok {| r_esi := x_pc x; r_ebx := op1; r_ecx := op2; r_edi := x_acc x; r_eip := 0xfffffebc; r_m := x_m x |}
  | _, _ => Abort
  end.

End Interpreter.
Arguments XState M : clear implicits.
Arguments XResult M : clear implicits.

(** ** The flash *)

(** The first byte of the ROM. *)
Definition bootrom_addr : Z := 0xFFFFFE00.

(** The sizes of an image that the machine accepts and maps. *)
Class BiosFlash := { bios_size : Z; bios_size_ok : 0 < bios_size <= 2 ^ 24 /\ bios_size mod 65536 = 0 }.

(** The loop of xbox_memory_init that maps the image: the locations it is mapped
    at, from the top of memory down. *)
Fixpoint map_bios (fuel : nat) (size map_loc : Z) : outcome (list Z) :=
  if 0xff000000 <=? map_loc then
    match fuel with
    | O => NoFuel
    | S fuel => l ← map_bios fuel size (u32 (map_loc - size)); Ok (map_loc :: l)
    end
  else Ok [].

Section Flash.
Context `{BiosFlash}.

(** The lowest mapping, and the address in the topmost image that an address of
    the flash stands for. *)
Definition flash_base : Z := 2 ^ 32 - 2 ^ 24 / bios_size * bios_size.
Definition bios_cell (q : Z) : Z := if (flash_base <=? q) && (q <? 2 ^ 32) then 2 ^ 32 - bios_size + (q - 2 ^ 32) mod bios_size else q.

Lemma bios_size_min : 65536 <= bios_size.
Proof. destruct bios_size_ok as [H1 H2]. zdiv. Qed.

(** The number of images. *)
Lemma images_range : 2 ^ 24 / bios_size * bios_size <= 2 ^ 24 < (2 ^ 24 / bios_size + 1) * bios_size /\ 1 <= 2 ^ 24 / bios_size <= 256.
Proof. pose proof bios_size_min. destruct bios_size_ok as [H1 _]. generalize dependent bios_size. intros s H0 H1. split; zdiv. Qed.

Lemma flash_base_range : 0xff000000 <= flash_base <= 2 ^ 32 - bios_size.
Proof.
  destruct bios_size_ok as [H1 _], images_range as [H2 H3]. unfold flash_base. nia.
Qed.

(** Enough fuel for the smallest image; the locations below [k] images from the
    top. *)
Lemma map_bios_from (k : nat) : forall fuel j, 0 < j -> 2 ^ 24 / bios_size = Z.of_nat k + j - 1 -> (k < fuel)%nat ->
  exists l, map_bios fuel bios_size (2 ^ 32 - j * bios_size) = Ok l /\
    forall q, (exists loc, loc ∈ l /\ loc <= q < loc + bios_size) <-> flash_base <= q < 2 ^ 32 - (j - 1) * bios_size.
Proof.
  pose proof bios_size_min as Hmin. destruct bios_size_ok as [Hs _], images_range as [[Hle Hgt] _].
  unfold flash_base. generalize dependent (2 ^ 24 / bios_size). intros N Hle Hgt. change (2 ^ 24) with 0x1000000 in *. change (2 ^ 32) with 0x100000000. generalize dependent bios_size. intros s Hmin Hs Hle Hgt.
  induction k as [|k IH]; intros fuel j Hj Hk Hf; destruct fuel as [|fuel]; try lia; cbn [map_bios].
  - destruct (Z.leb_spec 0xff000000 (0x100000000 - j * s)); [nia|]. exists []. split; [done|]. intros q. split; [intros (loc & Hl & _); by apply elem_of_nil in Hl|nia].
  - destruct (Z.leb_spec 0xff000000 (0x100000000 - j * s)); [|nia]. destruct (IH fuel (j + 1)) as (l & E & Hl); [lia|lia|lia|].
    replace (u32 (0x100000000 - j * s - s)) with (0x100000000 - (j + 1) * s) by (rewrite (wrap_small 32); nia).
    rewrite E. cbn [mbind outcome_bind]. eexists. split; [done|]. intros q. replace (j + 1 - 1) with j in Hl by lia. split.
    + intros (loc & [->|Hin]%elem_of_cons & Hq); [nia|]. pose proof (proj1 (Hl q) (ex_intro _ loc (conj Hin Hq))). nia.
    + intros Hq. destruct (Z.le_gt_cases (0x100000000 - j * s) q); [exists (0x100000000 - j * s); split; [left|nia]|].
      destruct (proj2 (Hl q)) as (loc & Hin & Hq'); [lia|]. exists loc. split; [by right|done].
Qed.

(** The loop ends, and the images cover the addresses from [flash_base] to 4 GB. *)
Lemma map_bios_covers : exists l, map_bios 257 bios_size (u32 (- bios_size)) = Ok l /\
  forall q, (exists loc, loc ∈ l /\ loc <= q < loc + bios_size) <-> flash_base <= q < 2 ^ 32.
Proof.
  pose proof bios_size_min. destruct bios_size_ok as [Hs _], images_range as [_ Hi].
  replace (u32 (- bios_size)) with (2 ^ 32 - 1 * bios_size) by (unfold wrap; rewrite <- (Z_mod_plus_full (- bios_size) 1), Z.mod_small; lia).
  destruct (map_bios_from (Z.to_nat (2 ^ 24 / bios_size)) 257 1) as (l & E & Hl); [lia|lia|lia|]. exists l. split; [done|]. intros q. rewrite (Hl q). lia.
Qed.

(** The bytes of the ROM, through any of the mappings. *)
Definition shows_rom (q : Z) : bool := (bootrom_addr <=? bios_cell q) && (bios_cell q <? 2 ^ 32).
Definition avoids_rom (a : Z) (n : nat) : bool := forallb (fun i => negb (shows_rom (a + Z.of_nat i))) (seq 0 n).

Lemma bios_cell_top q : 2 ^ 32 - bios_size <= q -> bios_cell q = q.
Proof.
  intros Hq. unfold bios_cell. destruct (Z.leb_spec flash_base q); [|done]. destruct (Z.ltb_spec q (2 ^ 32)); [|done]. cbn [andb].
  rewrite <- (Z_mod_plus_full _ 1), Z.mod_small by lia. lia.
Qed.

Lemma bios_cell_low q : q < flash_base -> bios_cell q = q.
Proof. intros Hq. unfold bios_cell. destruct (Z.leb_spec flash_base q); [lia|done]. Qed.

(** The first bytes of the lowest image are not the ROM. *)
Lemma low_address_hides q : q < 0xFF000004 -> shows_rom q = false.
Proof.
  intros Hq. pose proof bios_size_min. pose proof flash_base_range. destruct bios_size_ok as [Hs _]. unfold shows_rom, bootrom_addr. apply andb_false_iff. left. apply Z.leb_gt.
  unfold bios_cell. destruct (Z.leb_spec flash_base q); cbn [andb]; [|lia]. destruct (Z.ltb_spec q (2 ^ 32)); [|lia].
  replace (q - 2 ^ 32) with (q - flash_base + - (2 ^ 24 / bios_size) * bios_size) by (unfold flash_base; lia). rewrite Z_mod_plus_full, Z.mod_small; lia.
Qed.

Lemma low_avoids a n : a + Z.of_nat n <= 0xFF000004 -> avoids_rom a n = true.
Proof. intros Ha. apply forallb_forall. intros i Hi%in_seq. by rewrite low_address_hides by lia. Qed.
End Flash.

(** ** Reads the program can make *)

(** Machines an x-code program cannot tell apart as long as it reads no byte of the
    ROM: memory is the same elsewhere, and what the ports do depends on memory
    outside the ROM only. *)
Record same_outside_rom `{BiosFlash} {M} `{Machine M} (R : M -> M -> Prop) : Prop := {
  same_read m1 m2 a n : R m1 m2 -> 0 <= a -> avoids_rom a n = true ->
    R (fst (read m1 a n)) (fst (read m2 a n)) /\ snd (read m1 a n) = snd (read m2 a n);
  same_write m1 m2 a b : R m1 m2 -> R (write m1 a b) (write m2 a b);
  same_outl m1 m2 p v : R m1 m2 -> R (outl m1 p v) (outl m2 p v);
  same_outb m1 m2 p v : R m1 m2 -> R (outb m1 p v) (outb m2 p v);
  same_inl m1 m2 p : R m1 m2 -> R (fst (inl m1 p)) (fst (inl m2 p)) /\ snd (inl m1 p) = snd (inl m2 p);
  same_inb m1 m2 p : R m1 m2 -> R (fst (inb m1 p)) (fst (inb m2 p)) /\ snd (inb m1 p) = snd (inb m2 p);
  same_enabled m1 m2 : R m1 m2 -> rom_enabled m1 = rom_enabled m2
}.

Section Secrecy.
Context `{BiosFlash} {M : Type} `{Machine M} (R : M -> M -> Prop) (HR : same_outside_rom R).

(** The same registers over machines that cannot be told apart. *)
Record alike (x y : XState M) : Prop := {
  alike_pc : x_pc x = x_pc y;
  alike_acc : x_acc x = x_acc y;
  alike_op1 : x_op1 x = x_op1 y;
  alike_op2 : x_op2 x = x_op2 y;
  alike_eip : x_eip x = x_eip y;
  alike_m : R (x_m x) (x_m y)
}.

(** No byte of an instruction is fetched from the ROM, in any round of the run. *)
Definition fetch_avoids (pc : Z) : bool := (0 <=? pc) && avoids_rom pc 1 && avoids_rom (u32 (pc + 1)) 4 && avoids_rom (u32 (pc + 5)) 4.

Fixpoint fetches_avoid (fuel : nat) (revision : Z) (x : XState M) : bool :=
  negb (rom_enabled (x_m x)) ||
  match fuel with
  | O => true
  | S fuel => fetch_avoids (x_pc x) && (let '(x, fin) := xcode_step revision x in fin || fetches_avoid fuel revision x)
  end.

Lemma le_nonneg b : 0 <= le b.
Proof using. unfold le. induction b as [|x b IH]; cbn [foldr]; [lia|]. pose proof (wrap_range 8 x). lia. Qed.

Lemma read_alike m1 m2 a n : R m1 m2 -> 0 <= a -> avoids_rom a n = true -> exists m1' m2' b,
  read m1 a n = (m1', b) /\ read m2 a n = (m2', b) /\ R m1' m2'.
Proof using HR.
  intros Hm Ha Hn. destruct (same_read R HR m1 m2 a n Hm Ha Hn) as [Hr Hs].
  destruct (read m1 a n) as [m1' b1], (read m2 a n) as [m2' b2]. cbn in *. subst. by exists m1', m2', b2.
Qed.

Lemma read4_alike m1 m2 a : R m1 m2 -> 0 <= a -> avoids_rom a 4 = true -> exists m1' m2' v,
  read4 m1 a = (m1', v) /\ read4 m2 a = (m2', v) /\ R m1' m2' /\ 0 <= v.
Proof using HR.
  intros Hm Ha Hn. destruct (read_alike m1 m2 a 4 Hm Ha Hn) as (m1' & m2' & b & E1 & E2 & Hr). unfold read4. rewrite E1, E2.
  exists m1', m2', (le b). split_and!; [done..|apply le_nonneg].
Qed.

Lemma peek_alike revision m1 m2 acc op1 : R m1 m2 -> 0 <= op1 -> exists m1' m2' v,
  peek revision m1 acc op1 = (m1', v) /\ peek revision m2 acc op1 = (m2', v) /\ R m1' m2'.
Proof using HR.
  intros Hm Ho. unfold peek. destruct (revision =? 0xB1).
  - destruct (Z.leb_spec op1 0xFF000000); [|by exists m1, m2, acc].
    destruct (read4_alike m1 m2 op1 Hm Ho ltac:(apply low_avoids; lia)) as (m1' & m2' & v & -> & -> & Hr & _). by exists m1', m2', v.
  - assert (Hl : 0 <= Z.land op1 0x0FFFFFFF < 2 ^ 28) by (change 0x0FFFFFFF with (Z.ones 28); rewrite Z.land_ones by lia; apply Z.mod_pos_bound; lia).
    destruct (read4_alike m1 m2 (Z.land op1 0x0FFFFFFF) Hm ltac:(lia) ltac:(apply low_avoids; lia)) as (m1' & m2' & v & -> & -> & Hr & _).
    by exists m1', m2', v.
Qed.

Lemma exec_alike revision opcode op1 op2 m1 m2 acc pc eip : R m1 m2 -> 0 <= op1 -> exists m1' m2' acc' pc' eip' fin,
  xcode_exec revision opcode op1 op2 m1 acc pc eip = (m1', acc', pc', eip', fin) /\
  xcode_exec revision opcode op1 op2 m2 acc pc eip = (m2', acc', pc', eip', fin) /\ R m1' m2'.
Proof using HR.
  intros Hm Ho. unfold xcode_exec.
  destruct (opcode =? 0x02).
  { destruct (peek_alike revision m1 m2 acc op1 Hm Ho) as (m1' & m2' & v & -> & -> & Hr). by do 6 eexists. }
  destruct (opcode =? 0x03); [do 6 eexists; split_and!; [done..|by apply HR]|].
  destruct (opcode =? 0x04); [do 6 eexists; split_and!; [done..|by do 2 apply HR]|].
  destruct (opcode =? 0x05).
  { destruct (same_inl R HR _ _ 0xCFC (same_outl R HR m1 m2 0xCF8 op1 Hm)) as [Hr Hs].
    destruct (inl (outl m1 _ _) _), (inl (outl m2 _ _) _). cbn in *. subst. by do 6 eexists. }
  destruct (opcode =? 0x06); [by do 6 eexists|]. destruct (opcode =? 0x08); [by do 6 eexists|]. destruct (opcode =? 0x09); [by do 6 eexists|].
  destruct (opcode =? 0x11); [do 6 eexists; split_and!; [done..|by apply HR]|].
  destruct (opcode =? 0x12).
  { destruct (same_inb R HR m1 m2 op1 Hm) as [Hr Hs]. destruct (inb m1 _), (inb m2 _). cbn in *. subst. by do 6 eexists. }
  destruct (opcode =? 0xEE); by do 6 eexists.
Qed.

Lemma step_alike revision x y : alike x y -> fetch_avoids (x_pc x) = true -> exists x' y' fin,
  xcode_step revision x = (x', fin) /\ xcode_step revision y = (y', fin) /\ alike x' y'.
Proof using HR.
  intros [Epc Eacc E1 E2 Eeip Hm] Hq. unfold xcode_step. rewrite <- Epc, <- Eacc, <- Eeip. unfold fetch_avoids in Hq.
  rewrite !andb_true_iff in Hq. destruct Hq as [[[Hp%Z.leb_le A1] A2] A3].
  destruct (read_alike _ _ (x_pc x) 1 Hm Hp A1) as (a1 & b1 & bs & -> & -> & Hr1).
  destruct (read4_alike _ _ (u32 (x_pc x + 1)) Hr1 ltac:(by apply wrap_range) A2) as (a2 & b2 & op1 & -> & -> & Hr2 & Ho1).
  destruct (read4_alike _ _ (u32 (x_pc x + 5)) Hr2 ltac:(by apply wrap_range) A3) as (a3 & b3 & op2 & -> & -> & Hr3 & Ho2).
  assert (Hops : exists o p q, (if le bs =? 0x07 then (u8 op2, op2, x_acc x) else (le bs, op1, op2)) = (o, p, q) /\ 0 <= p) by (destruct (le bs =? 7); by do 3 eexists).
  destruct Hops as (o & p & q & -> & Hp0).
  destruct (exec_alike revision o p q a3 b3 (x_acc x) (x_pc x) (x_eip x) Hr3 Hp0) as (m1' & m2' & acc' & pc' & eip' & fin & -> & -> & Hr).
  do 3 eexists. split_and!; [done..|]. by constructor.
Qed.

Lemma loop_alike revision fuel : forall x y, alike x y -> fetches_avoid fuel revision x = true ->
  orel alike (xcode_loop fuel revision x) (xcode_loop fuel revision y).
Proof using HR.
  induction fuel as [|fuel IH]; intros x y Hxy Hf; cbn [xcode_loop fetches_avoid] in *;
    rewrite <- (same_enabled R HR _ _ (alike_m x y Hxy)); destruct (rom_enabled (x_m x)); cbn [negb orb] in *; try done.
  apply andb_true_iff in Hf as [Hpc Hf].
  destruct (step_alike revision x y Hxy Hpc) as (x' & y' & fin & Ex & Ey & Hxy'). rewrite Ex in Hf. rewrite Ex, Ey.
  destruct fin; [done|]. by apply IH.
Qed.

(** C26 (safety): on two machines that differ in the contents of the boot ROM
    only, an x-code program none of whose instructions is fetched from the ROM, be
    it at the top of memory or through one of the images of the flash below, runs
    the same way and leaves the same values in the registers and the same machine
    apart from the ROM.  The guard of PEEK keeps its reads away from the ROM and
    from all its images, on every revision.  That what the ports do does not depend
    on the ROM is assumed of the rest of the machine ([same_outside_rom]). *)
Theorem xcode_keeps_rom_secret revision fuel m1 m2 eip : R m1 m2 ->
  fetches_avoid fuel revision {| x_pc := 0xFF000080; x_acc := 0; x_op1 := None; x_op2 := None; x_eip := eip; x_m := m1 |} = true ->
  orel (fun r1 r2 => r_esi r1 = r_esi r2 /\ r_ebx r1 = r_ebx r2 /\ r_ecx r1 = r_ecx r2 /\ r_edi r1 = r_edi r2 /\ R (r_m r1) (r_m r2))
    (mcpx_rom_run_xcode fuel revision m1 eip) (mcpx_rom_run_xcode fuel revision m2 eip).
Proof using HR.
  intros Hm Hf. unfold mcpx_rom_run_xcode. eapply orel_bind.
  - apply loop_alike; [|exact Hf]. by constructor.
  - intros x y _ _ [Epc Eacc E1 E2 Eeip Hr]. rewrite <- E1, <- E2. destruct (x_op1 x), (x_op2 x); done.
Qed.

End Secrecy.

Definition bytes_from (f : Z -> Z) (a : Z) (n : nat) : list Z := map (fun i => f (a + Z.of_nat i)) (seq 0 n).

Definition overlay (f : Z -> Z) (a : Z) (bytes : list Z) (q : Z) : Z :=
  if (a <=? q) && (q <? a + Z.of_nat (length bytes)) then nth (Z.to_nat (q - a)) bytes 0 else f q.

(** ** The overlay of the ROM *)

(** Physical memory as a byte view with the two operations the overlay uses.  The
    images of the flash show the same bytes, and a write into the topmost one
    changes them all. *)
Class RomMemory (M : Type) := {
  rom_flash :: BiosFlash;
  byte_at : M -> Z -> Z;
  mem_read : M -> Z -> nat -> list Z;
  mem_write_rom : M -> Z -> list Z -> M;
  mem_read_spec m a n : mem_read m a n = bytes_from (byte_at m) a n;
  byte_at_cell m q : byte_at m (bios_cell q) = byte_at m q;
  mem_write_rom_spec m a bytes q : 2 ^ 32 - bios_size <= a -> a + Z.of_nat (length bytes) <= 2 ^ 32 ->
    byte_at (mem_write_rom m a bytes) q = overlay (byte_at m) a bytes (bios_cell q)
}.

Record ROMState := { hle_mcpx_rom_code : bool; enabled : bool; bootrom_data : list Z; flash_data : list Z }.

Definition bootrom_size : nat := 0x200.
Definition bootrom_dt_offset : Z := 0x1D8.
Definition bootrom_dt_pointer_offset : Z := 0x1F4.

(** The descriptor table of [mcpx_rom_show], as bytes. *)
Definition dt : list Z := concat (map le_bytes4 [0; 0; 0x0000ffff; 0x00CF9b00; 0x0000ffff; 0x00CF9300]).
Definition dt_pointer : list Z := [0x18; 0x00; 0xd8; 0xff; 0xff; 0xff].

Section Overlay.
Context {M : Type} `{RomMemory M}.

Definition mcpx_rom_hide (s : ROMState) (m : M) : ROMState * M :=
  let m := if enabled s then mem_write_rom m bootrom_addr (flash_data s) else m in
  ({| hle_mcpx_rom_code := hle_mcpx_rom_code s; enabled := false; bootrom_data := bootrom_data s; flash_data := flash_data s |}, m).

Definition mcpx_rom_show (s : ROMState) (m : M) : ROMState * M :=
  let '(flash, m) :=
    if negb (enabled s) then
      let flash := mem_read m bootrom_addr bootrom_size in
      if hle_mcpx_rom_code s then
        (flash, mem_write_rom (mem_write_rom m (bootrom_addr + bootrom_dt_offset) dt) (bootrom_addr + bootrom_dt_pointer_offset) dt_pointer)
      else (flash, mem_write_rom m bootrom_addr (bootrom_data s))
    else (flash_data s, m) in
  ({| hle_mcpx_rom_code := hle_mcpx_rom_code s; enabled := true; bootrom_data := bootrom_data s; flash_data := flash |}, m).

(** Bytes outside an overlay, and under one that covers them. *)
Lemma overlay_outside f a bytes q : q < a \/ a + Z.of_nat (length bytes) <= q -> overlay f a bytes q = f q.
Proof using. intros Hq. unfold overlay. destruct (Z.leb_spec a q), (Z.ltb_spec q (a + Z.of_nat (length bytes))); try done; lia. Qed.

Lemma overlay_bytes f g a n q : a <= q < a + Z.of_nat n -> overlay f a (bytes_from g a n) q = g q.
Proof using.
  intros Hq. unfold overlay, bytes_from. rewrite length_map, length_seq.
  destruct (Z.leb_spec a q); [|lia]. destruct (Z.ltb_spec q (a + Z.of_nat n)); [|lia]. cbn [andb].
  rewrite nth_lookup, list_lookup_fmap, lookup_seq_lt by lia. cbn. f_equal. lia.
Qed.

(** C27 (roundtrip): showing the boot ROM and hiding it again restores every
    byte of memory, in all images of the flash, for a ROM from a file and for the
    built-in one, and while
    it is shown another call of show changes nothing, so that the saved flash
    is never overwritten by the ROM. *)
Theorem mcpx_rom_show_hide s m : enabled s = false -> length (bootrom_data s) = bootrom_size ->
  let '(s1, m1) := mcpx_rom_show s m in
  mcpx_rom_show s1 m1 = (s1, m1) /\ enabled s1 = true /\
  (hle_mcpx_rom_code s = false -> mem_read m1 bootrom_addr bootrom_size = bootrom_data s) /\
  let '(s2, m2) := mcpx_rom_hide s1 m1 in enabled s2 = false /\ forall q, byte_at m2 q = byte_at m q.
Proof using.
  intros He Hl. pose proof bios_size_min as Hmin. unfold mcpx_rom_show. rewrite He. cbn [negb].
  assert (Hlen : Z.of_nat (length (bytes_from (byte_at m) bootrom_addr bootrom_size)) = 512) by (unfold bytes_from; by rewrite length_map, length_seq).
  assert (Hback : forall m1, (forall q, bios_cell q < bootrom_addr \/ bootrom_addr + 512 <= bios_cell q -> byte_at m1 q = byte_at m q) ->
    forall q, byte_at (mem_write_rom m1 bootrom_addr (mem_read m bootrom_addr bootrom_size)) q = byte_at m q).
  { intros m1 Hm1 q. rewrite mem_read_spec, mem_write_rom_spec by (rewrite ?Hlen; unfold bootrom_addr; lia).
    destruct (decide (bootrom_addr <= bios_cell q < bootrom_addr + 512)) as [Hq|Hq]; [rewrite overlay_bytes by done; apply byte_at_cell|].
    rewrite overlay_outside by lia. rewrite byte_at_cell. apply Hm1. lia. }
  destruct (hle_mcpx_rom_code s); cbn [mcpx_rom_hide enabled hle_mcpx_rom_code bootrom_data flash_data negb]; split_and!; try done.
  - apply Hback. intros q Hq. unfold bootrom_dt_offset, bootrom_dt_pointer_offset.
    rewrite mem_write_rom_spec by (cbn [dt_pointer length]; unfold bootrom_addr; lia). rewrite overlay_outside by (cbn [dt_pointer length]; lia). rewrite byte_at_cell.
    rewrite mem_write_rom_spec by (change (Z.of_nat (length dt)) with 24; unfold bootrom_addr; lia). rewrite overlay_outside, byte_at_cell; [done|]. change (Z.of_nat (length dt)) with 24. lia.
  - intros _. rewrite mem_read_spec. apply (nth_ext _ _ 0 0); [unfold bytes_from; by rewrite length_map, length_seq, Hl|].
    intros i Hi. unfold bytes_from in *. rewrite length_map, length_seq in Hi. rewrite nth_lookup, list_lookup_fmap, lookup_seq_lt by done. cbn.
    rewrite mem_write_rom_spec, bios_cell_top by (rewrite ?Hl; unfold bootrom_addr, bootrom_size; lia). unfold overlay. rewrite Hl.
    destruct (Z.leb_spec bootrom_addr (bootrom_addr + Z.of_nat i)); [|lia].
    destruct (Z.ltb_spec (bootrom_addr + Z.of_nat i) (bootrom_addr + Z.of_nat bootrom_size)); [|lia]. cbn. f_equal. lia.
  - apply Hback. intros q Hq. rewrite mem_write_rom_spec by (rewrite ?Hl; unfold bootrom_addr, bootrom_size; lia). rewrite overlay_outside; [apply byte_at_cell|]. rewrite Hl. change (Z.of_nat bootrom_size) with 512. lia.
Qed.

End Overlay.

(** ** A board: memory with the images of the flash *)
Record BoardMachine := { b_ram : Z -> Z; b_bios : Z -> Z; b_ports : list (Z * Z); b_enabled : bool }.

(** A retail image of 256 KB. *)
#[export] Program Instance retail_flash : BiosFlash := {| bios_size := 0x40000 |}.
Next Obligation. split; [lia|reflexivity]. Qed.

Definition in_flash (q : Z) : bool := (flash_base <=? q) && (q <? 2 ^ 32).
Definition board_byte (m : BoardMachine) (q : Z) : Z := if in_flash q then b_bios m (bios_cell q) else b_ram m q.

(** The flash is read-only for the guest. *)
#[export] Instance board_machine : Machine BoardMachine := {
  read m a n := (m, bytes_from (board_byte m) a n);
  write m a bytes := {| b_ram := overlay (b_ram m) a bytes; b_bios := b_bios m; b_ports := b_ports m; b_enabled := b_enabled m |};
  outl m p v := {| b_ram := b_ram m; b_bios := b_bios m; b_ports := (p, v) :: b_ports m; b_enabled := b_enabled m |};
  outb m p v := {| b_ram := b_ram m; b_bios := b_bios m; b_ports := (p, v) :: b_ports m; b_enabled := b_enabled m |};
  inl m p := (m, 0);
  inb m p := (m, 0);
  rom_enabled m := b_enabled m
}.

Definition board_same (m1 m2 : BoardMachine) : Prop :=
  (forall a, b_ram m1 a = b_ram m2 a) /\ (forall a, a < bootrom_addr -> b_bios m1 a = b_bios m2 a) /\ b_ports m1 = b_ports m2 /\ b_enabled m1 = b_enabled m2.

Lemma board_same_outside_rom : same_outside_rom board_same.
Proof.
  constructor; cbn.
  - intros m1 m2 a n Hm Ha Hn. split; [done|]. destruct Hm as (Hr & Hb & _). unfold bytes_from. apply map_ext_in. intros i Hi.
    unfold avoids_rom in Hn. rewrite forallb_forall in Hn. specialize (Hn i Hi). unfold board_byte. destruct (in_flash _) eqn:Ef; [|apply Hr]. apply Hb.
    apply negb_true_iff, andb_false_iff in Hn as [Hn%Z.leb_gt|Hn%Z.ltb_ge]; [done|]. unfold bios_cell in *. unfold in_flash in Ef. rewrite Ef in Hn.
    pose proof (Z.mod_pos_bound (a + Z.of_nat i - 2 ^ 32) bios_size ltac:(done)). lia.
  - intros m1 m2 a b (Hr & Hb & Hp & He). split_and!; cbn; [|done..]. intros q. unfold overlay. by rewrite Hr.
  - intros m1 m2 p v (Hr & Hb & Hp & He). split_and!; cbn; congruence || done.
  - intros m1 m2 p v (Hr & Hb & Hp & He). split_and!; cbn; congruence || done.
  - done.
  - done.
  - by intros m1 m2 (_ & _ & _ & ?).
Qed.

(** PEEK the first word of the ROM, write the accumulator to a port through
    the prefix, end; over a ROM filled with [secret]. *)
Definition peek_rom_program : list Z :=
  [0x02; 0x00; 0xFE; 0xFF; 0xFF; 0; 0; 0; 0;  0x07; 0x11; 0; 0; 0; 0x11; 0; 0; 0;  0xEE; 6; 0; 0; 0; 0; 0; 0; 0].

Definition rom_machine (secret : Z) : BoardMachine :=
  {| b_ram := fun _ => 0; b_bios := overlay (fun q => if bootrom_addr <=? q then secret else 0) (0xFFFC0000 + 0x80) peek_rom_program; b_ports := []; b_enabled := true |}.

Lemma rom_machines_same a b : board_same (rom_machine a) (rom_machine b).
Proof.
  split_and!; [done| |done..]. intros q Hq. cbn. unfold overlay. case_match; [done|]. destruct (Z.leb_spec bootrom_addr q); [lia|done].
Qed.

Lemma xcode_keeps_rom_secret_witness :
  orel (fun r1 r2 => r_esi r1 = r_esi r2 /\ r_ebx r1 = r_ebx r2 /\ r_ecx r1 = r_ecx r2 /\ r_edi r1 = r_edi r2 /\ board_same (r_m r1) (r_m r2))
    (mcpx_rom_run_xcode 10 0xB1 (rom_machine 0x5A) 0) (mcpx_rom_run_xcode 10 0xB1 (rom_machine 0xA5) 0).
Proof. apply (xcode_keeps_rom_secret board_same board_same_outside_rom); [apply rom_machines_same|vm_compute; reflexivity]. Defined.

(** The run above returns. *)
Lemma peek_rom_program_ends :
  (r ← mcpx_rom_run_xcode 10 0xB1 (rom_machine 0x5A) 0; Ok (r_edi r, r_ebx r, b_ports (r_m r))) = Ok (0, 6, [(0x11, 0)]).
Proof. vm_compute. reflexivity. Qed.

Lemma in_flash_cell q : in_flash (bios_cell q) = in_flash q /\ bios_cell (bios_cell q) = bios_cell q.
Proof.
  unfold in_flash. destruct (Z.leb_spec flash_base q) as [H1|H1]; [|by rewrite !(bios_cell_low q), (proj2 (Z.leb_gt _ _)) by done].
  destruct (Z.ltb_spec q (2 ^ 32)) as [H2|H2]; [|rewrite !(bios_cell_top q) by (cbn; lia); rewrite (proj2 (Z.ltb_ge _ _)) by done; by rewrite andb_false_r].
  assert (Hc : 2 ^ 32 - bios_size <= bios_cell q < 2 ^ 32).
  { unfold bios_cell. rewrite (proj2 (Z.leb_le _ _)), (proj2 (Z.ltb_lt _ _)) by done. cbn [andb]. pose proof (Z.mod_pos_bound (q - 2 ^ 32) bios_size ltac:(done)). lia. }
  rewrite !(bios_cell_top (bios_cell q)) by lia. pose proof flash_base_range. by rewrite (proj2 (Z.leb_le _ _)), (proj2 (Z.ltb_lt _ _)) by lia.
Qed.

#[export] Program Instance board_rom_memory : RomMemory BoardMachine := {|
  rom_flash := retail_flash;
  byte_at := board_byte;
  mem_read m a n := bytes_from (board_byte m) a n;
  mem_write_rom m a bytes := {| b_ram := overlay (b_ram m) a bytes; b_bios := overlay (b_bios m) a bytes; b_ports := b_ports m; b_enabled := b_enabled m |}
|}.
Next Obligation. done. Qed.
Next Obligation. intros m q. unfold board_byte. destruct (in_flash_cell q) as [-> E]. rewrite E. destruct (in_flash q) eqn:Ef; [done|]. unfold bios_cell. unfold in_flash in Ef. by rewrite Ef. Qed.
Next Obligation.
  intros m a bytes q H1 H2. unfold board_byte, overlay. cbn [b_ram b_bios]. destruct (in_flash_cell q) as [Ei ->]. rewrite Ei. destruct (in_flash q) eqn:Ef; [done|].
  assert (Eq : bios_cell q = q) by (unfold bios_cell; unfold in_flash in Ef; by rewrite Ef). rewrite Eq. done.
Qed.

Lemma mcpx_rom_show_hide_witness :
  let s := {| hle_mcpx_rom_code := false; enabled := false; bootrom_data := replicate 0x200 7; flash_data := [] |} in
  let '(s1, m1) := mcpx_rom_show s (rom_machine 1) in
  mcpx_rom_show s1 m1 = (s1, m1) /\ enabled s1 = true /\
  (hle_mcpx_rom_code s = false -> mem_read m1 bootrom_addr bootrom_size = bootrom_data s) /\
  let '(s2, m2) := mcpx_rom_hide s1 m1 in enabled s2 = false /\ forall q, byte_at m2 q = byte_at (rom_machine 1) q.
Proof. apply mcpx_rom_show_hide; reflexivity. Defined.

(** ** Findings *)

(** The prefix should execute the instruction of its first operand, here 0x09,
    on its second; the code takes the opcode from the second operand, 0x11,
    and the first is lost: the port is written. *)
Lemma prefix_ignores_first_operand :
  let m := {| b_ram := fun _ => 0; b_bios := overlay (fun _ => 0) 0xFFFC0080 [0x07; 0x09; 0; 0; 0; 0x11; 0; 0; 0]; b_ports := []; b_enabled := true |} in
  b_ports (x_m (fst (xcode_step 0xB2 {| x_pc := 0xFF000080; x_acc := 5; x_op1 := None; x_op2 := None; x_eip := 0; x_m := m |}))) = [(0x11, 5)].
Proof. vm_compute. reflexivity. Qed.

(** The ROM should not be visible on top of the images of the flash, as the
    comment of [mcpx_rom_show] says; it is. *)
Lemma rom_visible_in_images :
  let s := {| hle_mcpx_rom_code := false; enabled := false; bootrom_data := replicate 0x200 7; flash_data := [] |} in
  let m := snd (mcpx_rom_show s (rom_machine 1)) in
  forallb (fun k => forallb (fun a => board_byte m (2 ^ 32 - Z.of_nat (S k) * bios_size + (bios_size - 0x200) + Z.of_nat a) =? 7) (seq 0 0x200)) (seq 0 64) = true.
Proof. vm_compute. reflexivity. Qed.
