(* ===== verification/Findings.v ===== *)
(** * Where memory.c departs from its intent

    Closed computations on small region graphs that exhibit the corner cases
    of memory.c the general theorems have to exclude or do not promise. *)
From S2P Require Import Prelude Int128 Bitops Bitmap RamList MemRegion MemAccess FlatView Simplify Topology MemLog.
Local Open Scope Z_scope.

(** Two aliases that show adjacent halves of one RAM region: rendering takes
    two references on the owner (70), [flatview_simplify] merges the two
    ranges into one without dropping a reference, and destroying the view
    drops one: the owner can never be freed. *)
Definition halves : regions := list_to_map
  [(1, container 0x2000 [2; 3]); (2, alias_region 0x1000 0 4 0);
   (3, alias_region 0x1000 0x1000 4 0x1000); (4, ram_region 70 0x2000 0)].

Lemma flatview_simplify_leaks :
  exists refs view,
    generate_memory_topology halves {[70 := 1]} (Some 1) = Ok (refs, view) /\
    fv_nr view = 1 /\ flatview_destroy halves refs view !! 70 = Some 2.
Proof. eexists _, _. split; [vm_compute; reflexivity|]. split; vm_compute; reflexivity. Qed.

(** A terminating region may be 2^64 bytes long ([memory_region_init] takes
    [UINT64_MAX] for that).  When another one already covers the space,
    [int128_get64(now)] is asked for 2^64 and asserts. *)
Definition two_full : regions := list_to_map
  [(1, container (2 ^ 64 - 1) [2; 3]); (2, ram_region 70 (2 ^ 64 - 1) 0);
   (3, ram_region 71 (2 ^ 64 - 1) 0)].

Lemma render_full_overlap_aborts :
  generate_memory_topology two_full ∅ (Some 1) = Abort.
Proof. vm_compute. reflexivity. Qed.

(** [address_space_destroy] opens and commits a transaction to make the
    listeners drop the space, but leaves [memory_region_update_pending]
    alone, so the commit does nothing and no listener is called. *)
Definition one_space : MemState := {|
  ms_regs := pc_regions; ms_refs := ∅;
  ms_views := {[0 := {| fv_ref := 1; fv_nr_allocated := 10; fv_ranges :=
    [{| fr_mr := 5; fr_offset_in_region := 0; fr_addr := addrrange_make 0 0x1000;
        fr_dirty_log_mask := 0; fr_romd_mode := true; fr_readonly := false |}] |}]};
  ms_next_view := 1;
  ms_spaces := [(9, {| as_root := Some 1; as_current_map := 0; as_ioeventfds := [] |})];
  ms_listeners := [{| ml_id := 1; ml_has := fun _ => true; ml_priority := 0;
                      ml_address_space_filter := None |}];
  ms_depth := 0; ms_pending := false; ms_global_dirty_log := false; ms_trace := []
|}.

Lemma address_space_destroy_silent :
  exists s, address_space_destroy (fun _ s => Ok s) 9 one_space = Ok s /\
    ms_trace s = [] /\ ms_spaces s = [] /\ ms_views s = ∅.
Proof. eexists. split; [vm_compute; reflexivity|]. split_and!; vm_compute; reflexivity. Qed.

(** The dirty-memory operations move an address through an alias by
    [addr - mr->alias_offset]; the alias shows its target at
    [addr + mr->alias_offset], which is what [memory_region_get_ram_ptr] uses.
    Byte 0 of the alias region 3 is byte 0x1000 of the RAM behind it, yet the
    dirty operations look 0x1000 before the RAM's start. *)
Lemma alias_dirty_address_negated :
  (exists rs, memory_region_get_ram_ptr halves 3 xbox_ram = Ok (0x7f0000000000 + 0x1000, rs)) /\
  dirty_address (render_fuel halves) halves 3 0 = Ok (2 ^ 64 - 0x1000).
Proof. split; [eexists|]; vm_compute; reflexivity. Qed.
